(* ===== verification/_CoqProject ===== *)
-Q . S2P
Prelude.v
Enums.v
Encode.v
Logarithm.v
ILog.v
Layout.v
Host.v
Local.v
PE.v
Disasm.v
ApiHeader.v
ApiDecl.v
IfaceGen.v
IfaceLexer.v
IfaceParser.v
IfaceSpec.v
IfaceText.v
IR.v
Semantics.v
Integers.v
Dominance.v
Addresses.v
Utilities.v
Intrinsics.v
Verifier.v
PrepareGEPs.v
SmallPasses.v
RemoveFreeze.v
Typing.v
ExtendPHIs.v
Outline.v
Pipeline.v
Lowering.v
Dependents.v
PreserveABIs.v
Rebuild.v
RebuildSpec.v
RebuildInv.v
RebuildPhis.v
RebuildPass.v
RebuildCorrect.v
RebuildModule.v
LogicalHelper.v
RemovePointerPHIs.v
PointerLoops.v
RegAlloc.v
Analyzer.v
Bytecode.v
Writer.v
WriterSpec.v
FileSpec.v
Pointers.v
Logical.v
LogicalCompile.v
Signature.v
