(* ===== verification/Prelude.v ===== *)
(** * A verification development for the ClamAV bytecode compiler

    The repository compiles C programs to the bytecode files libclamav runs.
    clambcc/clambc-compiler.py drives clang and opt; the passes under
    libclambcc/ turn LLVM IR into bytecode text; the headers under headers/ are
    what the compiled program sees: the functions libclamav offers, the
    structures it shares with it, and a small runtime library of inline
    functions. clambc-ifacegen/ generates from those headers the tables by
    which libclamav and the compiler agree on function numbers and types.

    ** Files

    Each file models one component; data is translated as data, functions as
    executable functions. The order is that of _CoqProject.

    Shared:
    - Prelude.v: machine integers as [Z] with their conversions ([u32], [s32],
      ...), the type [outcome] of the compiler's ways to end with its notation
      [let*], list and tactic support.

    The API and the runtime headers (headers/):
    - Enums.v: the enumerations of bytecode_api.h, bytecode_detect.h,
      bytecode_disasm.h and libclambcc/clambc.h, with C's rule for implicit
      values, and the compiler's own copy of the API header.
    - ILog.v: the table of bytecode_ilog.h and [ilog2_compat]; Logarithm.v: integer
      bounds of the natural logarithm.
    - Layout.v: the structures of bytecode_pe_structs.h, bytecode_pe.h,
      bytecode_execs.h, bytecode_disasm.h and bytecode_detect.h as field tables,
      their layout, and loads from a byte image.
    - Host.v: the functions of libclamav the runtime header calls. They are not
      in the repository: [libclamav] is a record of operations on an abstract
      state, the class [FileLaws] states what bytecode_api.h documents of them,
      and [engine] is one concrete instance.
    - Local.v, PE.v, Disasm.v: bytecode_local.h - byte order, signatures and
      match positions, buffers and the re2c scanner macros; the accessors of PE
      information; DisassembleAt.
    - ApiHeader.v, ApiDecl.v: the declarations of bytecode_api.h and the tables
      of bytecode_api_decl.c.h.

    The interface generator (clambc-ifacegen/ifacegen.cpp):
    - IfaceLexer.v, IfaceParser.v: class Parser, reading characters and reading
      declarations.
    - IfaceGen.v: the layout check, the numbering of types, the dispatch kinds,
      the output.
    - IfaceSpec.v, IfaceText.v: the declarations a header may contain, with the
      texts they may be written as; what the parser makes of them.

    LLVM IR and its meaning, which the passes share:
    - IR.v: modules, functions, blocks, instructions, types.
    - Semantics.v: an interpreter. The meaning of single instructions is an
      interface, the class [Meaning] with the laws of [Uniform]; Integers.v is
      the instance for integers, Addresses.v adds getelementptr.
    - Dominance.v: every use is dominated by its definition; Typing.v: LLVM's
      typing rules as a check, with its soundness.

    The passes (libclambcc/ClamBC<Name>.cpp), each [outcome]-valued function
    named as in the source:
    - Utilities.v (Utilities), Intrinsics.v (RemoveUSUB,
      RemoveUnsupportedICMPIntrinsics, RemoveFSHL), SmallPasses.v
      (RemoveICMPSLE, ConvertIntrinsicsTo32Bit), RemoveFreeze.v
      (RemoveFreezeInsts), ExtendPHIs.v (ExtendPHIsTo64Bit), Outline.v
      (OutlineEndiannessCalls), Lowering.v (Lowering, as LoweringNF runs it),
      Pipeline.v (the last passes one after the other), PrepareGEPs.v
      (PrepareGEPsForWriter), Verifier.v, Dependents.v (the users of a value in
      Utilities), PreserveABIs.v, LogicalHelper.v (LogicalCompilerHelper).
    - RemovePointerPHIs.v (RemovePointerPHIs): the pass, with its search for the
      predecessors of a loop, and the loops it changes the meaning of;
      PointerLoops.v: the loops it is right about.
    - Rebuild.v (Rebuild): a function is copied into one over byte pointers, its
      state the record [rebuilding]. RebuildSpec.v relates the two functions and
      runs them side by side, RebuildInv.v is the invariant of the copying,
      RebuildPhis.v what its first phase does not touch, RebuildPass.v the steps
      and the phases, RebuildCorrect.v the theorems; RebuildModule.v has the calls
      and the pass on a module.
    - RegAlloc.v, Analyzer.v, Writer.v (RegAlloc, Analyzer, Writer): a module
      becomes bytecode. Encode.v has the writer's output primitives, Bytecode.v
      the format as data with a reader, WriterSpec.v and FileSpec.v relate the
      two, Pointers.v the addresses of the getelementptrs the writer writes.
    - Logical.v, LogicalCompile.v, Signature.v (LogicalCompiler): the
      expressions of logical signatures and the constructors that simplify
      them; the translation of the trigger function; the checks of the author's
      strings, the virus names, the text of the signature.

    ** What the theorems show

    - The logical compiler: a trigger function without branches whose expressions
      are ones the constructors treat right ([safe]) and the expression compiled
      from it agree on all match counts ([compile_sound]); the translation of
      branches and phi nodes is modelled, with lemmas on where it goes wrong, and
      not covered by that theorem; the simplifying constructors preserve the meaning ([connectives_sound],
      [comparisons_sound], [getNot_sound]); the printed text reads back
      ([node2String_reads_back]); its fields cannot be confused, for strings that
      pass the checks the pass leaves out ([signature_fields]); virus names are checked and completed
      ([compileVirusNames_sound]); the functionality level covers every feature
      used ([checkMinimum_spec]).
    - The writer: a bytecode file read by a reader that knows the format gives
      the module back ([written_file_read]); phi nodes become stack slots
      without changing results ([handlePHI_preserves]) and values are numbered
      without gaps or clashes ([number_values_bijection]); the type table is
      closed and unambiguous and its construction ends ([type_table_closed],
      [close_types_terminates]); functions, API calls and globals are numbered
      as the format requires; the rewritten getelementptrs compute the same
      addresses ([fix_gep_same_address]).
    - The passes preserve what functions return and what they do to the world,
      in the interpreter of Semantics.v ([RemoveFSHL_correct],
      [RemoveUnsupportedICMPIntrinsics_correct], [fixupSetVirusNameCalls_correct],
      [ConvertIntrinsicsTo32Bit_correct], [RemoveFreezeInsts_correct],
      [ExtendPHIsTo64Bit_correct] and [ExtendPHIsTo64Bit_typed],
      [OutlineEndiannessCalls_correct], [last_passes_correct],
      [processGEPI_struct_correct]), each for the modules its comment names. The
      second run of PreserveABIs takes away what the first one added, except that
      internal functions stay external ([PreserveABIs_twice]). What the verifier
      accepts is stated exactly ([verify_spec]): not undefined operands, but
      undefined fields of aggregates.
    - RemovePointerPHIs: a pointer that walks by one step becomes an index, and the
      function does what it did ([handle_pointer_phi_correct], for any arithmetic of
      pointers in which steps add up, the class [PointerSteps]); the search for the
      block a step comes from ends and is complete ([findPredecessor_spec]).
    - Rebuild refines: on functions over integers and pointers it succeeds, and
      its copy returns what the function returned ([rebuildFunction_correct], for
      any memory in which a pointer does not depend on what it points to, the
      class [BytePointers]); allocations keep their size up to 32 bits, of bytes or
      of pointers ([visitAllocaInst_bytes]); redirected calls do what the calls did
      ([fixupCallInst_correct]).
    - The interface generator: the parser ends with a verdict, but for two
      assertions and two undefined cases that are named ([parse_ends]); it reads any
      layout of the declarations it allows ([parse_layout]); the text of the
      repository's own header leads to the tables in the repository
      ([header_text_to_tables]); each row of the table of calls leads to its function
      in a table whose C type fits it ([output_dispatch]); the numbering of types and
      the layout check are sound, and that check recurses without end exactly on
      structures that contain themselves ([checkTypeSize_outcome]).
    - The runtime header: accessors read the member they name on hosts of
      either byte order, refilling of the scanner, the domain of the logarithm and
      how close it comes to 2^27 times the natural one ([ilog2_compat_domain]).
    - Where the code departs from what it means to do, the side condition of
      the theorem says so and a lemma exhibits the case.

    ** Conventions, bounds and fuel

    A 32-bit value is a [Z] below 2^32 with every wrap-around written out.
    [Stop] is ClamBCStop or exit, [AssertFailed] a failed assert, [Undefined]
    what C++ leaves undefined: a null pointer followed, an access outside an object,
    recursion without end. Parts of LLVM the code relies on appear as
    parameters with their documented behaviour as hypotheses: the iteration
    order of its hashed containers and of the users of a value (any
    permutation), ConstantRange ([range_laws]), the layout of structures
    ([StructLayout]), the typedefs of libclamav's calls ([CallTypes]), the names of new values (not in use before), the source
    manager and clang's keyword table for the generator's lexer.

    Fuel. The interpreter counts blocks and nested calls; the theorems say how
    much more the rewritten function needs. The printers of numbers take 17
    letters for 64 bits. [close_types] takes the weight of the pending types,
    which [close_types_terminates] shows is enough; [populateRoutes] one more
    than the number of blocks, since a route never repeats one;
    [runOnBasicBlock] two more than the number of blocks, since a block is
    visited once ([run_demand]); [getDependentValues] one more than the number of
    values and places ([getDependentValues_spec]); [find_predecessor] two more
    than the number of blocks ([findPredecessor_spec]); [get_orig_value] one more
    than the number of instructions ([getOrigValue_ends]); [getAdd_] the
    size of its operands, since it descends into them; [recurses] two more than
    the number of functions ([functionRecurses_spec]); the lexer and parser of
    the generator the weight of the text and the files it includes, enough by
    [parse_ends]; [checkTypeSize] one more than the number of structures, beyond
    which their nesting is circular ([checkTypeSize_outcome]); the readers of texts their length.

    ** Not modelled

    - The part of Lowering after lowerIntrinsics, which runs for the final
      lowering only: the driver does not run that.
    - ClamBCTrace.cpp (calls for debugging that metadata describes) and
      ClamBCDiagnostics.cpp: the IR has no debug metadata here.
    - ClamBCRemoveUndefs.cpp returns before it does anything, and the driver runs
      neither it nor ClamBCChangeMallocArgSize.cpp.
    - In ClamBCRebuild.cpp, the cases of a switch: lowerswitch has run before.
    - In the analyzer, the helper globals of constant expressions: LLVM's
      constant folding.
    - The Python driver, vendored clang headers, generated documentation, tests
      and examples. *)
From stdpp Require Export prelude list strings gmap.
From Stdlib Require Export ZArith Lia.
From Stdlib Require Export Ascii.
From Stdlib Require String.

Global Open Scope Z_scope.

(** ** Machine integers

    A [w]-bit C integer is a [Z]; [wrap] is the conversion to the unsigned
    type of width [w], [swrap] the conversion to the signed type (two's
    complement, what clang does for an implementation-defined conversion). *)
Definition wrap (w : Z) (z : Z) : Z := z mod 2 ^ w.
Definition swrap (w : Z) (z : Z) : Z :=
  let r := z mod 2 ^ w in if r <? 2 ^ (w - 1) then r else r - 2 ^ w.

Definition u8 (z : Z) : Z := wrap 8 z.
Definition u16 (z : Z) : Z := wrap 16 z.
Definition u32 (z : Z) : Z := wrap 32 z.
Definition u64 (z : Z) : Z := wrap 64 z.
Definition s8 (z : Z) : Z := swrap 8 z.
Definition s16 (z : Z) : Z := swrap 16 z.
Definition s32 (z : Z) : Z := swrap 32 z.

(** [in_u w z]: the value [z] is representable in [w] unsigned bits. *)
Definition in_u (w : Z) (z : Z) : Prop := 0 <= z < 2 ^ w.
Definition in_ub (w : Z) (z : Z) : bool := (0 <=? z) && (z <? 2 ^ w).
Definition in_s (w : Z) (z : Z) : Prop := - 2 ^ (w - 1) <= z < 2 ^ (w - 1).

(** The numeric constants [lia] needs to see through the width notation. *)
Ltac pow2 :=
  change (8 - 1) with 7 in *; change (16 - 1) with 15 in *;
  change (32 - 1) with 31 in *; change (64 - 1) with 63 in *;
  change (2 ^ 4) with 16 in *; change (2 ^ 7) with 128 in *;
  change (2 ^ 8) with 256 in *; change (2 ^ 15) with 32768 in *;
  change (2 ^ 16) with 65536 in *;
  change (2 ^ 31) with 2147483648 in *; change (2 ^ 32) with 4294967296 in *;
  change (2 ^ 63) with 9223372036854775808 in *;
  change (2 ^ 64) with 18446744073709551616 in *.

(** Unfold every machine-integer conversion and solve by linear arithmetic
    over [mod]. *)
Ltac cint_unfold :=
  unfold u8, u16, u32, u64, s8, s16, s32, in_u, in_s, wrap, swrap in *; pow2.
Ltac cint :=
  cint_unfold;
  repeat match goal with
         | |- context [?a <? ?b] => destruct (Z.ltb_spec a b)
         | H : context [?a <? ?b] |- _ => destruct (Z.ltb_spec a b)
         end;
  Z.div_mod_to_equations; lia.

Lemma wrap_range w z : 0 <= w -> in_u w (wrap w z).
Proof. intros Hw. apply Z.mod_pos_bound. lia. Qed.

Lemma wrap_small w z : in_u w z -> wrap w z = z.
Proof. apply Z.mod_small. Qed.

Lemma wrap_wrap w z : 0 <= w -> wrap w (wrap w z) = wrap w z.
Proof. intros Hw. apply wrap_small, wrap_range, Hw. Qed.

Lemma swrap_range w z : 1 <= w -> in_s w (swrap w z).
Proof.
  intros Hw. unfold in_s, swrap. cbv zeta.
  assert (2 ^ w = 2 * 2 ^ (w - 1)) as E.
  { rewrite <- Z.pow_succ_r by lia. f_equal. lia. }
  pose proof (Z.mod_pos_bound z (2 ^ w) ltac:(lia)).
  destruct (Z.ltb_spec (z mod 2 ^ w) (2 ^ (w - 1))); lia.
Qed.

Lemma in_ub_spec w z : in_ub w z = true <-> in_u w z.
Proof. unfold in_ub, in_u. rewrite andb_true_iff, Z.leb_le, Z.ltb_lt. lia. Qed.

Lemma in_u_forallb w l : forallb (in_ub w) l = true -> Forall (in_u w) l.
Proof.
  intros H. apply List.Forall_forall. intros x Hx.
  apply in_ub_spec. rewrite forallb_forall in H. auto.
Qed.

(** Concrete data is in range, by evaluation. *)
Ltac in_range :=
  match goal with
  | |- Forall (in_u _) _ => apply in_u_forallb; vm_compute; reflexivity
  | |- in_u _ _ => apply in_ub_spec; vm_compute; reflexivity
  | |- _ => first [apply (in_u_forallb 8) | apply (proj1 (in_ub_spec 8 _))];
            vm_compute; reflexivity
  end.

(** ** Outcomes

    What a pass of the compiler does besides returning: [ClamBCStop] prints a
    diagnostic and exits, a failed [assert] aborts, and following a null
    pointer or an end iterator is undefined. *)
Inductive outcome (A : Type) : Type :=
| Done (a : A)
| Stop (msg : string)
| AssertFailed (msg : string)
| Undefined (msg : string).
Arguments Done {A} a.
Arguments Stop {A} msg.
Arguments AssertFailed {A} msg.
Arguments Undefined {A} msg.

Definition obind {A B} (c : outcome A) (f : A -> outcome B) : outcome B :=
  match c with
  | Done a => f a
  | Stop m => Stop m
  | AssertFailed m => AssertFailed m
  | Undefined m => Undefined m
  end.

Definition assert_ (b : bool) (msg : string) : outcome unit :=
  if b then Done tt else AssertFailed msg.

Declare Scope outcome_scope.
Delimit Scope outcome_scope with outcome.
Notation "'let*' x ':=' c 'in' k" := (obind c (fun x => k))
  (at level 10, x pattern, c at level 100, k at level 200) : outcome_scope.

Lemma obind_Done {A B} (c : outcome A) (f : A -> outcome B) b :
  obind c f = Done b -> exists a, c = Done a /\ f a = Done b.
Proof. destruct c; simpl; intros H; try discriminate. eauto. Qed.

(** Invert a [Done] result of a bind chain. *)
Ltac inv_done :=
  repeat match goal with
         | H : obind _ _ = Done _ |- _ =>
             apply obind_Done in H;
             let a := fresh "a" in let E := fresh "E" in destruct H as (a & E & H)
         | H : Done _ = Done _ |- _ => injection H as H; subst
         | H : assert_ ?b _ = Done _ |- _ =>
             unfold assert_ in H; destruct b eqn:?; [|discriminate]
         end.

Lemma Done_inj {A} (x y : A) : Done x = Done y -> x = y.
Proof. congruence. Qed.

Fixpoint mapM_out {A B} (g : A -> outcome B) (l : list A) : outcome (list B) :=
  (match l with
   | [] => Done []
   | x :: l => let* y := g x in let* ys := mapM_out g l in Done (y :: ys)
   end)%outcome.
Lemma mapM_out_Done {A B} (g : A -> outcome B) l l' : mapM_out g l = Done l' <-> Forall2 (fun x y => g x = Done y) l l'.
Proof.
  split.
  - revert l'. induction l as [|x l IH]; intros l' H; cbn [mapM_out] in H; inv_done; constructor; auto.
  - induction 1 as [|x y l l' Hx _ IH]; [done|]. cbn [mapM_out]. rewrite Hx. cbn [obind]. by rewrite IH.
Qed.

Lemma mapM_out_total {A B} (f : A -> outcome B) l :
  (forall x, x ∈ l -> exists y, f x = Done y) -> exists l', mapM_out f l = Done l'.
Proof.
  induction l as [|x l IH]; intros H; [by eexists|]. destruct (H x ltac:(left)) as (y & Hy).
  destruct IH as (l' & Hl'); [intros z Hz; apply H; by right|]. cbn [mapM_out]. rewrite Hy. cbn [obind]. rewrite Hl'. by eexists.
Qed.

Fixpoint foldM_out {A B} (f : A -> B -> outcome A) (l : list B) (a : A) : outcome A :=
  (match l with
   | [] => Done a
   | x :: l => let* a := f a x in foldM_out f l a
   end)%outcome.

(** ** Lists *)

Lemma Forall2_elem_of_l {A B} (R : A -> B -> Prop) l l' x : Forall2 R l l' -> x ∈ l -> exists y, y ∈ l' /\ R x y.
Proof.
  intros H. induction H as [|a b l l' Hab _ IH]; intros Hx; [by apply not_elem_of_nil in Hx|].
  apply elem_of_cons in Hx as [->|Hx]; [exists b; split; [left|done]|].
  destruct (IH Hx) as (y & Hy & HR). exists y. split; [by right|done].
Qed.
Lemma Forall2_elem_of_r {A B} (R : A -> B -> Prop) l l' y : Forall2 R l l' -> y ∈ l' -> exists x, x ∈ l /\ R x y.
Proof.
  intros H. induction H as [|a b l l' Hab _ IH]; intros Hy; [by apply not_elem_of_nil in Hy|].
  apply elem_of_cons in Hy as [->|Hy]; [exists a; split; [left|done]|].
  destruct (IH Hy) as (x & Hx & HR). exists x. split; [by right|done].
Qed.

Lemma Forall_repeat {A} (P : A -> Prop) x n : P x -> Forall P (repeat x n).
Proof. intros; induction n; simpl; auto. Qed.

Lemma firstn_exact {A} (l1 l2 : list A) n :
  length l1 = n -> firstn n (l1 ++ l2) = l1.
Proof. intros <-. apply take_app_length. Qed.

Lemma skipn_exact {A} (l1 l2 : list A) n :
  length l1 = n -> skipn n (l1 ++ l2) = l2.
Proof. intros <-. apply drop_app_length. Qed.

Lemma NoDup_map_eq {A B} (f : A -> B) l x y :
  NoDup (map f l) -> x ∈ l -> y ∈ l -> f x = f y -> x = y.
Proof.
  induction l as [|z l IH]; intros Hd Hx Hy E; [by apply elem_of_nil in Hx|].
  cbn [map] in Hd. apply NoDup_cons in Hd as [Hn Hd].
  assert (Hl : forall u, u ∈ l -> f u ∈ map f l) by (intros u Hu; by apply list_elem_of_In, in_map, list_elem_of_In).
  apply elem_of_cons in Hx as [->|Hx]; apply elem_of_cons in Hy as [->|Hy]; auto.
  - exfalso. apply Hn. rewrite E. auto.
  - exfalso. apply Hn. rewrite <- E. auto.
Qed.
Lemma elem_of_flat_map {A B} (f : A -> list B) l y : y ∈ flat_map f l <-> exists x, x ∈ l /\ y ∈ f x.
Proof.
  rewrite list_elem_of_In, in_flat_map. split; intros (x & H1 & H2); exists x;
    rewrite ?list_elem_of_In, <- ?list_elem_of_In in *; auto.
Qed.

(** A decidable property of the integers below a bound, by evaluation. *)
Lemma Z_below n (P : Z -> bool) :
  forallb P (seqZ 0 n) = true -> forall d, 0 <= d < n -> P d = true.
Proof.
  intros H d Hd. rewrite forallb_forall in H.
  apply H, list_elem_of_In, elem_of_seqZ. lia.
Qed.

Ltac below n :=
  match goal with
  | |- forall d, 0 <= d < _ -> @?P d = true => apply (Z_below n P); vm_compute; reflexivity
  end.

(** The codes of the characters of a string. *)
Definition code (c : ascii) : Z := Z.of_N (N_of_ascii c).
Definition codes (s : string) : list Z := map code (String.list_ascii_of_string s).

Lemma code_range c : in_u 8 (code c).
Proof.
  unfold code, in_u. pose proof (N_ascii_bounded c). pow2. lia.
Qed.

Lemma length_codes s : length (codes s) = String.length s.
Proof.
  unfold codes. rewrite length_map.
  induction s; simpl; congruence.
Qed.

Create HintDb clambc.
#[export] Hint Resolve wrap_range swrap_range code_range : clambc.
Create Rewrite HintDb clambc_len.
#[export] Hint Rewrite @length_app @length_map @length_codes : clambc_len.
