(* ===== verification/Enums.v ===== *)
(** * Enums: the enumerations of the bytecode API

    The constants a bytecode program and the compiler share: the enums of
    headers/bytecode_api.h, headers/bytecode_detect.h and
    headers/bytecode_disasm.h, the copies libclambcc was built with
    (libclambcc/bytecode_api.h), and the opcodes and global ids of
    libclambcc/clambc.h.  An enum is the list of its enumerators as written;
    [enum_values] assigns the values by the rule of C. *)
From S2P Require Import Prelude.
Local Open Scope string_scope.
Local Open Scope Z_scope.

(** An enumerator with or without an explicit value. *)
Inductive enumerator :=
| En (name : string)
| Ev (name : string) (value : Z).

(** Each enumerator without a value is one more than the one before it. *)
Fixpoint enum_values (next : Z) (es : list enumerator) : list (string * Z) :=
  match es with
  | [] => []
  | En n :: es' => (n, next) :: enum_values (next + 1) es'
  | Ev n v :: es' => (n, v) :: enum_values (v + 1) es'
  end.

Fixpoint assoc {A} (n : string) (l : list (string * A)) : option A :=
  match l with
  | [] => None
  | (m, a) :: l' => if String.eqb n m then Some a else assoc n l'
  end.

Definition enum_value (es : list enumerator) (n : string) : option Z :=
  assoc n (enum_values 0 es).

(** The value of an enumerator that is declared. *)
Definition ev (es : list enumerator) (n : string) : Z := default (-1) (enum_value es n).

(** ** headers/bytecode_api.h *)

(** anonymous enum: [PE_INVALID_RVA] *)
Definition PE_INVALID_RVA_enum : list enumerator := [
  Ev "PE_INVALID_RVA" 0xFFFFFFFF].

(** enum BytecodeKind: how ClamAV runs the bytecode *)
Definition BytecodeKind : list enumerator := [
  Ev "BC_GENERIC" 0;
  Ev "BC_STARTUP" 1;
  Ev "_BC_START_HOOKS" 256;
  Ev "BC_LOGICAL" 256;
  En "BC_PE_UNPACKER";
  En "BC_PDF";
  En "BC_PE_ALL";
  En "BC_PRECLASS";
  En "BC_ELF_UNPACKER";
  En "BC_MACHO_UNPACKER";
  En "_BC_LAST_HOOK"].

(** enum FunctionalityLevels: the level of each libclamav release *)
Definition FunctionalityLevels : list enumerator := [
  Ev "FUNC_LEVEL_096" 51;
  Ev "FUNC_LEVEL_096_dev" 52;
  Ev "FUNC_LEVEL_096_1" 53;
  Ev "FUNC_LEVEL_096_1_dev" 54;
  Ev "FUNC_LEVEL_096_2" 54;
  Ev "FUNC_LEVEL_096_2_dev" 55;
  Ev "FUNC_LEVEL_096_3" 55;
  Ev "FUNC_LEVEL_096_4" 56;
  Ev "FUNC_LEVEL_096_5" 58;
  Ev "FUNC_LEVEL_097" 60;
  Ev "FUNC_LEVEL_097_1" 61;
  Ev "FUNC_LEVEL_097_2" 62;
  Ev "FUNC_LEVEL_097_3" 63;
  Ev "FUNC_LEVEL_097_4" 64;
  Ev "FUNC_LEVEL_097_5" 65;
  Ev "FUNC_LEVEL_097_6" 67;
  Ev "FUNC_LEVEL_097_7" 68;
  Ev "FUNC_LEVEL_097_8" 69;
  Ev "FUNC_LEVEL_098" 74;
  Ev "FUNC_LEVEL_098_1" 76;
  Ev "FUNC_LEVEL_098_2" 77;
  Ev "FUNC_LEVEL_098_3" 77;
  Ev "FUNC_LEVEL_098_4" 77;
  Ev "FUNC_LEVEL_098_5" 79;
  Ev "FUNC_LEVEL_098_6" 79;
  Ev "FUNC_LEVEL_098_7" 80;
  Ev "FUNC_LEVEL_099" 81;
  Ev "FUNC_LEVEL_099_1" 82;
  Ev "FUNC_LEVEL_099_2" 82;
  Ev "FUNC_LEVEL_099_3" 84;
  Ev "FUNC_LEVEL_099_4" 85;
  Ev "FUNC_LEVEL_0100_BETA" 90;
  Ev "FUNC_LEVEL_0100" 91;
  Ev "FUNC_LEVEL_0100_1" 92;
  Ev "FUNC_LEVEL_0100_2" 93;
  Ev "FUNC_LEVEL_0100_3" 94;
  Ev "FUNC_LEVEL_0101_BETA" 100;
  Ev "FUNC_LEVEL_0101" 101;
  Ev "FUNC_LEVEL_0101_1" 102;
  Ev "FUNC_LEVEL_0101_2" 102;
  Ev "FUNC_LEVEL_0101_3" 102;
  Ev "FUNC_LEVEL_0101_4" 105;
  Ev "FUNC_LEVEL_0101_5" 106;
  Ev "FUNC_LEVEL_0102_BETA" 110;
  Ev "FUNC_LEVEL_0102" 111;
  Ev "FUNC_LEVEL_0102_1" 112;
  Ev "FUNC_LEVEL_0103_BETA" 120;
  Ev "FUNC_LEVEL_0103" 121;
  Ev "FUNC_LEVEL_0103_1" 122;
  Ev "FUNC_LEVEL_0103_2" 123;
  Ev "FUNC_LEVEL_0103_3" 124;
  Ev "FUNC_LEVEL_0103_4" 125;
  Ev "FUNC_LEVEL_0103_5" 126;
  Ev "FUNC_LEVEL_0103_6" 127;
  Ev "FUNC_LEVEL_0103_7" 128;
  Ev "FUNC_LEVEL_0103_8" 129;
  Ev "FUNC_LEVEL_0103_9" 130;
  Ev "FUNC_LEVEL_0103_10" 131;
  Ev "FUNC_LEVEL_0103_11" 132;
  Ev "FUNC_LEVEL_0104" 140;
  Ev "FUNC_LEVEL_0104_1" 141;
  Ev "FUNC_LEVEL_0104_2" 142;
  Ev "FUNC_LEVEL_0104_3" 143;
  Ev "FUNC_LEVEL_0104_4" 144;
  Ev "FUNC_LEVEL_0105" 150;
  Ev "FUNC_LEVEL_0105_1" 151;
  Ev "FUNC_LEVEL_0105_2" 152;
  Ev "FUNC_LEVEL_1_0" 160;
  Ev "FUNC_LEVEL_1_0_1" 161;
  Ev "FUNC_LEVEL_1_0_2" 162;
  Ev "FUNC_LEVEL_1_0_3" 163;
  Ev "FUNC_LEVEL_1_0_4" 164;
  Ev "FUNC_LEVEL_1_0_5" 165;
  Ev "FUNC_LEVEL_1_0_6" 166;
  Ev "FUNC_LEVEL_1_1" 180;
  Ev "FUNC_LEVEL_1_1_1" 181;
  Ev "FUNC_LEVEL_1_1_2" 182;
  Ev "FUNC_LEVEL_1_1_3" 183;
  Ev "FUNC_LEVEL_1_2" 190;
  Ev "FUNC_LEVEL_1_2_1" 191;
  Ev "FUNC_LEVEL_1_2_2" 192;
  Ev "FUNC_LEVEL_1_2_3" 193;
  Ev "FUNC_LEVEL_1_3" 200;
  Ev "FUNC_LEVEL_1_3_1" 201;
  Ev "FUNC_LEVEL_1_4" 210].

(** enum pdf_phase: when a PDF hook runs *)
Definition pdf_phase : list enumerator := [
  En "PDF_PHASE_NONE";
  En "PDF_PHASE_PARSED";
  En "PDF_PHASE_POSTDUMP";
  En "PDF_PHASE_END";
  En "PDF_PHASE_PRE"].

(** enum pdf_flag: bit numbers of the PDF flags *)
Definition pdf_flag : list enumerator := [
  Ev "BAD_PDF_VERSION" 0;
  En "BAD_PDF_HEADERPOS";
  En "BAD_PDF_TRAILER";
  En "BAD_PDF_TOOMANYOBJS";
  En "BAD_STREAM_FILTERS";
  En "BAD_FLATE";
  En "BAD_FLATESTART";
  En "BAD_STREAMSTART";
  En "BAD_ASCIIDECODE";
  En "BAD_INDOBJ";
  En "UNTERMINATED_OBJ_DICT";
  En "ESCAPED_COMMON_PDFNAME";
  En "HEX_JAVASCRIPT";
  En "UNKNOWN_FILTER";
  En "MANY_FILTERS";
  En "HAS_OPENACTION";
  En "BAD_STREAMLEN";
  En "ENCRYPTED_PDF";
  En "LINEARIZED_PDF";
  En "DECRYPTABLE_PDF";
  En "HAS_LAUNCHACTION"].

(** enum pdf_objflags: bit numbers of the PDF object flags *)
Definition pdf_objflags : list enumerator := [
  Ev "OBJ_STREAM" 0;
  En "OBJ_DICT";
  En "OBJ_EMBEDDED_FILE";
  En "OBJ_FILTER_AH";
  En "OBJ_FILTER_A85";
  En "OBJ_FILTER_FLATE";
  En "OBJ_FILTER_LZW";
  En "OBJ_FILTER_RL";
  En "OBJ_FILTER_FAX";
  En "OBJ_FILTER_JBIG2";
  En "OBJ_FILTER_DCT";
  En "OBJ_FILTER_JPX";
  En "OBJ_FILTER_CRYPT";
  En "OBJ_FILTER_UNKNOWN";
  En "OBJ_JAVASCRIPT";
  En "OBJ_OPENACTION";
  En "OBJ_HASFILTERS";
  En "OBJ_SIGNED";
  En "OBJ_IMAGE";
  En "OBJ_TRUNCATED";
  En "OBJ_FORCEDUMP";
  En "OBJ_FILTER_STANDARD";
  En "OBJ_LAUNCHACTION";
  En "OBJ_PAGE";
  En "OBJ_CONTENTS"].

(** enum bc_json_type: types of JSON objects *)
Definition bc_json_type : list enumerator := [
  Ev "JSON_TYPE_NULL" 0;
  En "JSON_TYPE_BOOLEAN";
  En "JSON_TYPE_DOUBLE";
  En "JSON_TYPE_INT";
  En "JSON_TYPE_OBJECT";
  En "JSON_TYPE_ARRAY";
  En "JSON_TYPE_STRING"].

(** enum lzma_returncode: results of the LZMA API *)
Definition lzma_returncode : list enumerator := [
  Ev "LZMA_RESULT_OK" 0;
  Ev "LZMA_RESULT_DATA_ERROR" 1;
  Ev "LZMA_STREAM_END" 2].

(** enum bzip2_returncode: results of the bzip2 API *)
Definition bzip2_returncode : list enumerator := [
  Ev "BZIP2_OK" 0;
  Ev "BZIP2_SEQUENCE_ERROR" (-1);
  Ev "BZIP2_PARAM_ERROR" (-2);
  Ev "BZIP2_MEM_ERROR" (-3);
  Ev "BZIP2_DATA_ERROR" (-4);
  Ev "BZIP2_DATA_ERROR_MAGIC" (-5);
  Ev "BZIP2_IO_ERROR" (-6);
  Ev "BZIP2_UNEXPECTED_EOF" (-7);
  Ev "BZIP2_OUTBUFF_FULL" (-8);
  Ev "BZIP2_CONFIG_ERROR" (-9);
  Ev "BZIP2_RUN_OK" 1;
  Ev "BZIP2_FLUSH_OK" 2;
  Ev "BZIP2_FINISH_OK" 3;
  Ev "BZIP2_STREAM_END" 4].

(** anonymous enum: the scan option flags *)
Definition CL_SCAN : list enumerator := [
  Ev "CL_SCAN_RAW" 0x0;
  Ev "CL_SCAN_ARCHIVE" 0x1;
  Ev "CL_SCAN_MAIL" 0x2;
  Ev "CL_SCAN_OLE2" 0x4;
  Ev "CL_SCAN_BLOCKENCRYPTED" 0x8;
  Ev "CL_SCAN_HTML" 0x10;
  Ev "CL_SCAN_PE" 0x20;
  Ev "CL_SCAN_BLOCKBROKEN" 0x40;
  Ev "CL_SCAN_MAILURL" 0x80;
  Ev "CL_SCAN_BLOCKMAX" 0x100;
  Ev "CL_SCAN_ALGORITHMIC" 0x200;
  Ev "CL_SCAN_PHISHING_BLOCKSSL" 0x800;
  Ev "CL_SCAN_PHISHING_BLOCKCLOAK" 0x1000;
  Ev "CL_SCAN_ELF" 0x2000;
  Ev "CL_SCAN_PDF" 0x4000;
  Ev "CL_SCAN_STRUCTURED" 0x8000;
  Ev "CL_SCAN_STRUCTURED_SSN_NORMAL" 0x10000;
  Ev "CL_SCAN_STRUCTURED_SSN_STRIPPED" 0x20000;
  Ev "CL_SCAN_PARTIAL_MESSAGE" 0x40000;
  Ev "CL_SCAN_HEURISTIC_PRECEDENCE" 0x80000;
  Ev "CL_SCAN_BLOCKMACROS" 0x100000;
  Ev "CL_SCAN_ALLMATCHES" 0x200000;
  Ev "CL_SCAN_SWF" 0x400000;
  Ev "CL_SCAN_PARTITION_INTXN" 0x800000;
  Ev "CL_SCAN_XMLDOCS" 0x1000000;
  Ev "CL_SCAN_HWP3" 0x2000000;
  Ev "CL_SCAN_FILE_PROPERTIES" 0x10000000;
  Ev "CL_SCAN_PERFORMANCE_INFO" 0x40000000;
  Ev "CL_SCAN_INTERNAL_COLLECT_SHA" 0x80000000].

(** anonymous enum: the [whence] argument of [seek] *)
Definition SEEK : list enumerator := [
  Ev "SEEK_SET" 0;
  En "SEEK_CUR";
  En "SEEK_END"].

(** ** headers/bytecode_detect.h *)

(** enum arch_list: a platform identification *)
Definition arch_list : list enumerator := [
  Ev "arch_unknown" 0;
  En "arch_i386";
  En "arch_x86_64";
  En "arch_ppc32";
  En "arch_ppc64";
  En "arch_arm";
  En "arch_sparc";
  En "arch_sparc64";
  En "arch_mips";
  En "arch_mips64";
  En "arch_alpha";
  En "arch_hppa1";
  En "arch_hppa2";
  En "arch_m68k";
  Ev "arch_ANY" 0xf].

(** enum os_kind_conf: a platform identification *)
Definition os_kind_conf : list enumerator := [
  Ev "os_unknown" 0;
  En "os_aix";
  En "os_beos";
  En "os_bsd";
  En "os_darwin";
  En "os_gnu_hurd";
  En "os_hpux";
  En "os_interix";
  En "os_irix";
  En "os_kfreebsd_gnu";
  En "os_linux";
  En "os_os2";
  En "os_osf";
  En "os_qnx6";
  En "os_solaris";
  En "os_win32";
  En "os_win64";
  En "os_generic";
  Ev "os_ANY" 0xff].

(** enum os_kind_llvm: a platform identification *)
Definition os_kind_llvm : list enumerator := [
  Ev "llvm_os_UnknownOS" 0;
  En "llvm_os_AuroraUX";
  En "llvm_os_Cygwin";
  En "llvm_os_Darwin";
  En "llvm_os_DragonFly";
  En "llvm_os_FreeBSD";
  En "llvm_os_Linux";
  En "llvm_os_Lv2";
  En "llvm_os_MinGW32";
  En "llvm_os_MinGW64";
  En "llvm_os_NetBSD";
  En "llvm_os_OpenBSD";
  En "llvm_os_Psp";
  En "llvm_os_Solaris";
  En "llvm_os_Win32";
  En "llvm_os_Haiku";
  En "llvm_os_Minix";
  Ev "llvm_os_ANY" 0xff].

(** enum compiler_list: a platform identification *)
Definition compiler_list : list enumerator := [
  Ev "compiler_unknown" 0;
  En "compiler_gnuc";
  En "compiler_llvm";
  En "compiler_clang";
  En "compiler_intel";
  En "compiler_msc";
  En "compiler_sun";
  En "compiler_other";
  Ev "compiler_ANY" 0xf].

(** enum endian_list: a platform identification *)
Definition endian_list : list enumerator := [
  Ev "endian_little" 0;
  Ev "endian_big" 1;
  Ev "endian_ANY" 0xf].

(** enum os_feature_bits: a platform identification *)
Definition os_feature_bits : list enumerator := [
  Ev "feature_map_rwx" 0;
  Ev "feature_selinux" 1;
  Ev "feature_selinux_enforcing" 2;
  Ev "feature_pax" 3;
  Ev "feature_pax_mprotect" 4].

(** ** headers/bytecode_disasm.h *)

(** enum X86OPS: the opcodes up to line 146 *)
Definition X86OPS_integer : list enumerator := [
  En "OP_INVALID";
  En "OP_AAA";
  En "OP_AAD";
  En "OP_AAM";
  En "OP_AAS";
  En "OP_ADD";
  En "OP_ADC";
  En "OP_AND";
  En "OP_ARPL";
  En "OP_BOUND";
  En "OP_BSF";
  En "OP_BSR";
  En "OP_BSWAP";
  En "OP_BT";
  En "OP_BTC";
  En "OP_BTR";
  En "OP_BTS";
  En "OP_CALL";
  En "OP_CDQ";
  En "OP_CWD";
  En "OP_CWDE";
  En "OP_CBW";
  En "OP_CLC";
  En "OP_CLD";
  En "OP_CLI";
  En "OP_CLTS";
  En "OP_CMC";
  En "OP_CMOVO";
  En "OP_CMOVNO";
  En "OP_CMOVC";
  En "OP_CMOVNC";
  En "OP_CMOVZ";
  En "OP_CMOVNZ";
  En "OP_CMOVBE";
  En "OP_CMOVA";
  En "OP_CMOVS";
  En "OP_CMOVNS";
  En "OP_CMOVP";
  En "OP_CMOVNP";
  En "OP_CMOVL";
  En "OP_CMOVGE";
  En "OP_CMOVLE";
  En "OP_CMOVG";
  En "OP_CMP";
  En "OP_CMPSD";
  En "OP_CMPSW";
  En "OP_CMPSB";
  En "OP_CMPXCHG";
  En "OP_CMPXCHG8B";
  En "OP_CPUID";
  En "OP_DAA";
  En "OP_DAS";
  En "OP_DEC";
  En "OP_DIV";
  En "OP_ENTER";
  En "OP_FWAIT";
  En "OP_HLT";
  En "OP_IDIV";
  En "OP_IMUL";
  En "OP_INC";
  En "OP_IN";
  En "OP_INSD";
  En "OP_INSW";
  En "OP_INSB";
  En "OP_INT";
  En "OP_INT3";
  En "OP_INTO";
  En "OP_INVD";
  En "OP_INVLPG";
  En "OP_IRET";
  En "OP_JO";
  En "OP_JNO";
  En "OP_JC";
  En "OP_JNC";
  En "OP_JZ";
  En "OP_JNZ";
  En "OP_JBE";
  En "OP_JA";
  En "OP_JS";
  En "OP_JNS";
  En "OP_JP";
  En "OP_JNP";
  En "OP_JL";
  En "OP_JGE";
  En "OP_JLE";
  En "OP_JG";
  En "OP_JMP";
  En "OP_LAHF";
  En "OP_LAR";
  En "OP_LDS";
  En "OP_LES";
  En "OP_LFS";
  En "OP_LGS";
  En "OP_LEA";
  En "OP_LEAVE";
  En "OP_LGDT";
  En "OP_LIDT";
  En "OP_LLDT";
  En "OP_PREFIX_LOCK";
  En "OP_LODSD";
  En "OP_LODSW";
  En "OP_LODSB";
  En "OP_LOOP";
  En "OP_LOOPE";
  En "OP_LOOPNE";
  En "OP_JECXZ";
  En "OP_LSL";
  En "OP_LSS";
  En "OP_LTR";
  En "OP_MOV";
  En "OP_MOVSD";
  En "OP_MOVSW";
  En "OP_MOVSB";
  En "OP_MOVSX";
  En "OP_MOVZX";
  En "OP_MUL"].

(** enum X86OPS: the opcodes of lines 147 to 231 *)
Definition X86OPS_system : list enumerator := [
  En "OP_NEG";
  En "OP_NOP";
  En "OP_NOT";
  En "OP_OR";
  En "OP_OUT";
  En "OP_OUTSD";
  En "OP_OUTSW";
  En "OP_OUTSB";
  En "OP_PUSH";
  En "OP_PUSHAD";
  En "OP_PUSHA";
  En "OP_PUSHFD";
  En "OP_PUSHF";
  En "OP_POP";
  En "OP_POPAD";
  En "OP_POPFD";
  En "OP_POPF";
  En "OP_RCL";
  En "OP_RCR";
  En "OP_RDMSR";
  En "OP_RDPMC";
  En "OP_RDTSC";
  En "OP_PREFIX_REPE";
  En "OP_PREFIX_REPNE";
  En "OP_RETF";
  En "OP_RETN";
  En "OP_ROL";
  En "OP_ROR";
  En "OP_RSM";
  En "OP_SAHF";
  En "OP_SAR";
  En "OP_SBB";
  En "OP_SCASD";
  En "OP_SCASW";
  En "OP_SCASB";
  En "OP_SETO";
  En "OP_SETNO";
  En "OP_SETC";
  En "OP_SETNC";
  En "OP_SETZ";
  En "OP_SETNZ";
  En "OP_SETBE";
  En "OP_SETA";
  En "OP_SETS";
  En "OP_SETNS";
  En "OP_SETP";
  En "OP_SETNP";
  En "OP_SETL";
  En "OP_SETGE";
  En "OP_SETLE";
  En "OP_SETG";
  En "OP_SGDT";
  En "OP_SIDT";
  En "OP_SHL";
  En "OP_SHLD";
  En "OP_SHR";
  En "OP_SHRD";
  En "OP_SLDT";
  En "OP_STOSD";
  En "OP_STOSW";
  En "OP_STOSB";
  En "OP_STR";
  En "OP_STC";
  En "OP_STD";
  En "OP_STI";
  En "OP_SUB";
  En "OP_SYSCALL";
  En "OP_SYSENTER";
  En "OP_SYSEXIT";
  En "OP_SYSRET";
  En "OP_TEST";
  En "OP_UD2";
  En "OP_VERR";
  En "OP_VERRW";
  En "OP_WBINVD";
  En "OP_WRMSR";
  En "OP_XADD";
  En "OP_XCHG";
  En "OP_XLAT";
  En "OP_XOR";
  En "OP_PREFIX_OPSIZE";
  En "OP_PREFIX_ADDRSIZE";
  En "OP_PREFIX_SEGMENT";
  En "OP_2BYTE"].

(** enum X86OPS: the floating point opcodes *)
Definition X86OPS_fpu : list enumerator := [
  En "OP_FPU";
  En "OP_F2XM1";
  En "OP_FABS";
  En "OP_FADD";
  En "OP_FADDP";
  En "OP_FBLD";
  En "OP_FBSTP";
  En "OP_FCHS";
  En "OP_FCLEX";
  En "OP_FCMOVB";
  En "OP_FCMOVBE";
  En "OP_FCMOVE";
  En "OP_FCMOVNB";
  En "OP_FCMOVNBE";
  En "OP_FCMOVNE";
  En "OP_FCMOVNU";
  En "OP_FCMOVU";
  En "OP_FCOM";
  En "OP_FCOMI";
  En "OP_FCOMIP";
  En "OP_FCOMP";
  En "OP_FCOMPP";
  En "OP_FCOS";
  En "OP_FDECSTP";
  En "OP_FDIV";
  En "OP_FDIVP";
  En "OP_FDIVR";
  En "OP_FDIVRP";
  En "OP_FFREE";
  En "OP_FIADD";
  En "OP_FICOM";
  En "OP_FICOMP";
  En "OP_FIDIV";
  En "OP_FIDIVR";
  En "OP_FILD";
  En "OP_FIMUL";
  En "OP_FINCSTP";
  En "OP_FINIT";
  En "OP_FIST";
  En "OP_FISTP";
  En "OP_FISTTP";
  En "OP_FISUB";
  En "OP_FISUBR";
  En "OP_FLD";
  En "OP_FLD1";
  En "OP_FLDCW";
  En "OP_FLDENV";
  En "OP_FLDL2E";
  En "OP_FLDL2T";
  En "OP_FLDLG2";
  En "OP_FLDLN2";
  En "OP_FLDPI";
  En "OP_FLDZ";
  En "OP_FMUL";
  En "OP_FMULP";
  En "OP_FNOP";
  En "OP_FPATAN";
  En "OP_FPREM";
  En "OP_FPREM1";
  En "OP_FPTAN";
  En "OP_FRNDINT";
  En "OP_FRSTOR";
  En "OP_FSCALE";
  En "OP_FSIN";
  En "OP_FSINCOS";
  En "OP_FSQRT";
  En "OP_FSAVE";
  En "OP_FST";
  En "OP_FSTCW";
  En "OP_FSTENV";
  En "OP_FSTP";
  En "OP_FSTSW";
  En "OP_FSUB";
  En "OP_FSUBP";
  En "OP_FSUBR";
  En "OP_FSUBRP";
  En "OP_FTST";
  En "OP_FUCOM";
  En "OP_FUCOMI";
  En "OP_FUCOMIP";
  En "OP_FUCOMP";
  En "OP_FUCOMPP";
  En "OP_FXAM";
  En "OP_FXCH";
  En "OP_FXTRACT";
  En "OP_FYL2X";
  En "OP_FYL2XP1"].

(** enum DIS_ACCESS: how an operand is accessed *)
Definition DIS_ACCESS : list enumerator := [
  En "ACCESS_NOARG";
  En "ACCESS_IMM";
  En "ACCESS_REL";
  En "ACCESS_REG";
  En "ACCESS_MEM"].

(** enum DIS_SIZE: operand sizes *)
Definition DIS_SIZE : list enumerator := [
  En "SIZEB";
  En "SIZEW";
  En "SIZED";
  En "SIZEF";
  En "SIZEQ";
  En "SIZET";
  En "SIZEPTR"].

(** enum X86REGS: register numbers *)
Definition X86REGS : list enumerator := [
  En "X86_REG_EAX";
  En "X86_REG_ECX";
  En "X86_REG_EDX";
  En "X86_REG_EBX";
  En "X86_REG_ESP";
  En "X86_REG_EBP";
  En "X86_REG_ESI";
  En "X86_REG_EDI";
  En "X86_REG_AX";
  En "X86_REG_CX";
  En "X86_REG_DX";
  En "X86_REG_BX";
  En "X86_REG_SP";
  En "X86_REG_BP";
  En "X86_REG_SI";
  En "X86_REG_DI";
  En "X86_REG_AH";
  En "X86_REG_CH";
  En "X86_REG_DH";
  En "X86_REG_BH";
  En "X86_REG_AL";
  En "X86_REG_CL";
  En "X86_REG_DL";
  En "X86_REG_BL";
  En "X86_REG_ES";
  En "X86_REG_CS";
  En "X86_REG_SS";
  En "X86_REG_DS";
  En "X86_REG_FS";
  En "X86_REG_GS";
  En "X86_REG_CR0";
  En "X86_REG_CR1";
  En "X86_REG_CR2";
  En "X86_REG_CR3";
  En "X86_REG_CR4";
  En "X86_REG_CR5";
  En "X86_REG_CR6";
  En "X86_REG_CR7";
  En "X86_REG_DR0";
  En "X86_REG_DR1";
  En "X86_REG_DR2";
  En "X86_REG_DR3";
  En "X86_REG_DR4";
  En "X86_REG_DR5";
  En "X86_REG_DR6";
  En "X86_REG_DR7";
  En "X86_REG_ST0";
  En "X86_REG_ST1";
  En "X86_REG_ST2";
  En "X86_REG_ST3";
  En "X86_REG_ST4";
  En "X86_REG_ST5";
  En "X86_REG_ST6";
  En "X86_REG_ST7";
  En "X86_REG_INVALID"].

(** ** libclambcc: the compiler's own copies *)

(** enum BytecodeKind: the copy in libclambcc/bytecode_api.h *)
Definition lib_BytecodeKind : list enumerator := [
  Ev "BC_GENERIC" 0;
  Ev "BC_STARTUP" 1;
  Ev "_BC_START_HOOKS" 256;
  Ev "BC_LOGICAL" 256;
  En "BC_PE_UNPACKER";
  En "BC_PDF";
  En "BC_PE_ALL";
  En "BC_PRECLASS";
  En "BC_ELF_UNPACKER";
  En "BC_MACHO_UNPACKER";
  En "_BC_LAST_HOOK"].

(** enum FunctionalityLevels: the copy in libclambcc/bytecode_api.h *)
Definition lib_FunctionalityLevels : list enumerator := [
  Ev "FUNC_LEVEL_096" 51;
  Ev "FUNC_LEVEL_096_dev" 52;
  Ev "FUNC_LEVEL_096_1" 53;
  Ev "FUNC_LEVEL_096_1_dev" 54;
  Ev "FUNC_LEVEL_096_2" 54;
  Ev "FUNC_LEVEL_096_2_dev" 55;
  Ev "FUNC_LEVEL_096_3" 55;
  Ev "FUNC_LEVEL_096_4" 56;
  Ev "FUNC_LEVEL_096_5" 58;
  Ev "FUNC_LEVEL_097" 60;
  Ev "FUNC_LEVEL_097_1" 61;
  Ev "FUNC_LEVEL_097_2" 62;
  Ev "FUNC_LEVEL_097_3" 63;
  Ev "FUNC_LEVEL_097_4" 64;
  Ev "FUNC_LEVEL_097_5" 65;
  Ev "FUNC_LEVEL_097_6" 67;
  Ev "FUNC_LEVEL_097_7" 68;
  Ev "FUNC_LEVEL_097_8" 69;
  Ev "FUNC_LEVEL_098" 74;
  Ev "FUNC_LEVEL_098_1" 76;
  Ev "FUNC_LEVEL_098_2" 77;
  Ev "FUNC_LEVEL_098_3" 77;
  Ev "FUNC_LEVEL_098_4" 77;
  Ev "FUNC_LEVEL_098_5" 79;
  Ev "FUNC_LEVEL_098_6" 79;
  Ev "FUNC_LEVEL_098_7" 80;
  Ev "FUNC_LEVEL_099" 81;
  Ev "FUNC_LEVEL_099_1" 82;
  Ev "FUNC_LEVEL_099_2" 82;
  Ev "FUNC_LEVEL_099_3" 84;
  Ev "FUNC_LEVEL_099_4" 85;
  Ev "FUNC_LEVEL_0100_BETA" 90;
  Ev "FUNC_LEVEL_0100" 91;
  Ev "FUNC_LEVEL_0100_1" 92;
  Ev "FUNC_LEVEL_0100_2" 93;
  Ev "FUNC_LEVEL_0100_3" 94;
  Ev "FUNC_LEVEL_0101_BETA" 100;
  Ev "FUNC_LEVEL_0101" 101;
  Ev "FUNC_LEVEL_0101_1" 102;
  Ev "FUNC_LEVEL_0101_2" 103;
  Ev "FUNC_LEVEL_0102_BETA" 110].

(** enum pdf_phase: the copy in libclambcc/bytecode_api.h *)
Definition lib_pdf_phase : list enumerator := [
  En "PDF_PHASE_NONE";
  En "PDF_PHASE_PARSED";
  En "PDF_PHASE_POSTDUMP";
  En "PDF_PHASE_END";
  En "PDF_PHASE_PRE"].

(** enum pdf_flag: the copy in libclambcc/bytecode_api.h *)
Definition lib_pdf_flag : list enumerator := [
  Ev "BAD_PDF_VERSION" 0;
  En "BAD_PDF_HEADERPOS";
  En "BAD_PDF_TRAILER";
  En "BAD_PDF_TOOMANYOBJS";
  En "BAD_STREAM_FILTERS";
  En "BAD_FLATE";
  En "BAD_FLATESTART";
  En "BAD_STREAMSTART";
  En "BAD_ASCIIDECODE";
  En "BAD_INDOBJ";
  En "UNTERMINATED_OBJ_DICT";
  En "ESCAPED_COMMON_PDFNAME";
  En "HEX_JAVASCRIPT";
  En "UNKNOWN_FILTER";
  En "MANY_FILTERS";
  En "HAS_OPENACTION";
  En "BAD_STREAMLEN";
  En "ENCRYPTED_PDF";
  En "LINEARIZED_PDF";
  En "DECRYPTABLE_PDF";
  En "HAS_LAUNCHACTION"].

(** enum pdf_objflags: the copy in libclambcc/bytecode_api.h *)
Definition lib_pdf_objflags : list enumerator := [
  Ev "OBJ_STREAM" 0;
  En "OBJ_DICT";
  En "OBJ_EMBEDDED_FILE";
  En "OBJ_FILTER_AH";
  En "OBJ_FILTER_A85";
  En "OBJ_FILTER_FLATE";
  En "OBJ_FILTER_LZW";
  En "OBJ_FILTER_RL";
  En "OBJ_FILTER_FAX";
  En "OBJ_FILTER_JBIG2";
  En "OBJ_FILTER_DCT";
  En "OBJ_FILTER_JPX";
  En "OBJ_FILTER_CRYPT";
  En "OBJ_FILTER_UNKNOWN";
  En "OBJ_JAVASCRIPT";
  En "OBJ_OPENACTION";
  En "OBJ_HASFILTERS";
  En "OBJ_SIGNED";
  En "OBJ_IMAGE";
  En "OBJ_TRUNCATED";
  En "OBJ_FORCEDUMP";
  En "OBJ_FILTER_STANDARD";
  En "OBJ_LAUNCHACTION";
  En "OBJ_PAGE";
  En "OBJ_CONTENTS"].

(** enum bc_json_type: the copy in libclambcc/bytecode_api.h *)
Definition lib_bc_json_type : list enumerator := [
  Ev "JSON_TYPE_NULL" 0;
  En "JSON_TYPE_BOOLEAN";
  En "JSON_TYPE_DOUBLE";
  En "JSON_TYPE_INT";
  En "JSON_TYPE_OBJECT";
  En "JSON_TYPE_ARRAY";
  En "JSON_TYPE_STRING"].

(** anonymous enum: the scan option flags of libclambcc/bytecode_api.h *)
Definition lib_CL_SCAN : list enumerator := [
  Ev "CL_SCAN_RAW" 0x0;
  Ev "CL_SCAN_ARCHIVE" 0x1;
  Ev "CL_SCAN_MAIL" 0x2;
  Ev "CL_SCAN_OLE2" 0x4;
  Ev "CL_SCAN_BLOCKENCRYPTED" 0x8;
  Ev "CL_SCAN_HTML" 0x10;
  Ev "CL_SCAN_PE" 0x20;
  Ev "CL_SCAN_BLOCKBROKEN" 0x40;
  Ev "CL_SCAN_MAILURL" 0x80;
  Ev "CL_SCAN_BLOCKMAX" 0x100;
  Ev "CL_SCAN_ALGORITHMIC" 0x200;
  Ev "CL_SCAN_PHISHING_BLOCKSSL" 0x800;
  Ev "CL_SCAN_PHISHING_BLOCKCLOAK" 0x1000;
  Ev "CL_SCAN_ELF" 0x2000;
  Ev "CL_SCAN_PDF" 0x4000;
  Ev "CL_SCAN_STRUCTURED" 0x8000;
  Ev "CL_SCAN_STRUCTURED_SSN_NORMAL" 0x10000;
  Ev "CL_SCAN_STRUCTURED_SSN_STRIPPED" 0x20000;
  Ev "CL_SCAN_PARTIAL_MESSAGE" 0x40000;
  Ev "CL_SCAN_HEURISTIC_PRECEDENCE" 0x80000;
  Ev "CL_SCAN_BLOCKMACROS" 0x100000;
  Ev "CL_SCAN_ALLMATCHES" 0x200000;
  Ev "CL_SCAN_SWF" 0x400000;
  Ev "CL_SCAN_PARTITION_INTXN" 0x800000;
  Ev "CL_SCAN_XMLDOCS" 0x1000000;
  Ev "CL_SCAN_HWP3" 0x2000000;
  Ev "CL_SCAN_FILE_PROPERTIES" 0x10000000;
  Ev "CL_SCAN_PERFORMANCE_INFO" 0x40000000;
  Ev "CL_SCAN_INTERNAL_COLLECT_SHA" 0x80000000].

(** enum bc_opcode: the opcodes of the bytecode *)
Definition bc_opcode : list enumerator := [
  Ev "OP_BC_ADD" 1;
  En "OP_BC_SUB";
  En "OP_BC_MUL";
  En "OP_BC_UDIV";
  En "OP_BC_SDIV";
  En "OP_BC_UREM";
  En "OP_BC_SREM";
  En "OP_BC_SHL";
  En "OP_BC_LSHR";
  En "OP_BC_ASHR";
  En "OP_BC_AND";
  En "OP_BC_OR";
  En "OP_BC_XOR";
  En "OP_BC_TRUNC";
  En "OP_BC_SEXT";
  En "OP_BC_ZEXT";
  En "OP_BC_BRANCH";
  En "OP_BC_JMP";
  En "OP_BC_RET";
  En "OP_BC_RET_VOID";
  En "OP_BC_ICMP_EQ";
  En "OP_BC_ICMP_NE";
  En "OP_BC_ICMP_UGT";
  En "OP_BC_ICMP_UGE";
  En "OP_BC_ICMP_ULT";
  En "OP_BC_ICMP_ULE";
  En "OP_BC_ICMP_SGT";
  En "OP_BC_ICMP_SGE";
  En "OP_BC_ICMP_SLE";
  En "OP_BC_ICMP_SLT";
  En "OP_BC_SELECT";
  En "OP_BC_CALL_DIRECT";
  En "OP_BC_CALL_API";
  En "OP_BC_COPY";
  En "OP_BC_GEP1";
  En "OP_BC_GEPZ";
  En "OP_BC_GEPN";
  En "OP_BC_STORE";
  En "OP_BC_LOAD";
  En "OP_BC_MEMSET";
  En "OP_BC_MEMCPY";
  En "OP_BC_MEMMOVE";
  En "OP_BC_MEMCMP";
  En "OP_BC_ISBIGENDIAN";
  En "OP_BC_ABORT";
  En "OP_BC_BSWAP16";
  En "OP_BC_BSWAP32";
  En "OP_BC_BSWAP64";
  En "OP_BC_PTRDIFF32";
  En "OP_BC_PTRTOINT64";
  En "OP_BC_INVALID"].

(** enum bc_global: the ids of the globals libclamav fills *)
Definition bc_global : list enumerator := [
  Ev "_FIRST_GLOBAL" 0x8000;
  Ev "GLOBAL_MATCH_COUNTS" 0x8000;
  En "GLOBAL_KIND";
  En "GLOBAL_VIRUSNAMES";
  En "GLOBAL_PEDATA";
  En "GLOBAL_FILESIZE";
  En "GLOBAL_MATCH_OFFSETS";
  En "_LAST_GLOBAL"].

Definition X86OPS : list enumerator := X86OPS_integer ++ X86OPS_system ++ X86OPS_fpu.

(** ** Checks on enums *)

Definition names (es : list enumerator) : list string := map fst (enum_values 0 es).
Definition values (es : list enumerator) : list Z := map snd (enum_values 0 es).

(** The names the two enums give different values to (a name of [es1] missing
    from [es2] counts). *)
Definition disagreements (es1 es2 : list enumerator) : list string :=
  filter (fun n => bool_decide (enum_value es1 n <> enum_value es2 n)) (names es1).

Fixpoint ascending (l : list Z) : bool :=
  match l with
  | x :: ((y :: _) as l') => (x <=? y) && ascending l'
  | _ => true
  end.

(** Non-zero and a power of two. *)
Definition single_bit (v : Z) : bool := (0 <? v) && (Z.land v (v - 1) =? 0).

Definition nodupb (l : list Z) : bool := bool_decide (NoDup l).

Lemma ascending_sorted l : ascending l = true ->
  forall i j x y, (i <= j)%nat -> l !! i = Some x -> l !! j = Some y -> x <= y.
Proof.
  induction l as [|a l IH]; intros H i j x y Hij Hi Hj; [by rewrite lookup_nil in Hi|].
  assert (ascending l = true /\ forall b, head l = Some b -> a <= b) as [Hl Hb].
  { destruct l as [|b l]; [done|]. simpl in H. apply andb_true_iff in H as [Hab Hl].
    split; [exact Hl|]. intros ? [= <-]. by apply Z.leb_le. }
  specialize (IH Hl). destruct j as [|j].
  - assert (i = 0%nat) as -> by lia. rewrite Hi in Hj. injection Hj as ->. lia.
  - destruct i as [|i]; [|apply (IH i j); [lia|done|done]].
    injection Hi as <-. destruct l as [|b l]; [discriminate Hj|].
    specialize (Hb b eq_refl). specialize (IH 0%nat j b y ltac:(lia) eq_refl Hj). lia.
Qed.

(** ** Properties *)

(** The functionality levels are listed in release order with values that
    never decrease and fit the [unsigned short] of [__FuncMin] and
    [__FuncMax], so comparing levels compares releases. *)
Theorem FunctionalityLevels_ordered i j x y :
  (i <= j)%nat -> values FunctionalityLevels !! i = Some x ->
  values FunctionalityLevels !! j = Some y -> x <= y /\ in_u 16 x /\ in_u 16 y.
Proof.
  intros Hij Hx Hy. split; [by eapply (ascending_sorted (values FunctionalityLevels))|].
  assert (Forall (in_u 16) (values FunctionalityLevels)) as F by in_range.
  split; [by eapply (Forall_lookup_1 _ _ i)|by eapply (Forall_lookup_1 _ _ j)].
Qed.

Lemma FunctionalityLevels_ordered_witness :
  ev FunctionalityLevels "FUNC_LEVEL_096" <= ev FunctionalityLevels "FUNC_LEVEL_1_4"
  /\ in_u 16 (ev FunctionalityLevels "FUNC_LEVEL_096")
  /\ in_u 16 (ev FunctionalityLevels "FUNC_LEVEL_1_4").
Proof.
  apply (FunctionalityLevels_ordered 0 84); [lia|reflexivity|reflexivity].
Defined.

(** Every constant of the copy of bytecode_api.h that the compiler itself
    is built with has the value the bytecode programs see, except
    [FUNC_LEVEL_0101_2], which is 103 for the compiler and 102 for the
    programs. *)
Theorem header_copies_agree :
  disagreements lib_BytecodeKind BytecodeKind = [] /\
  disagreements lib_pdf_phase pdf_phase = [] /\
  disagreements lib_pdf_flag pdf_flag = [] /\
  disagreements lib_pdf_objflags pdf_objflags = [] /\
  disagreements lib_bc_json_type bc_json_type = [] /\
  disagreements lib_CL_SCAN CL_SCAN = [] /\
  disagreements lib_FunctionalityLevels FunctionalityLevels = ["FUNC_LEVEL_0101_2"] /\
  enum_value lib_FunctionalityLevels "FUNC_LEVEL_0101_2" = Some 103 /\
  enum_value FunctionalityLevels "FUNC_LEVEL_0101_2" = Some 102.
Proof. vm_compute. auto 20. Qed.

(** The fields that carry enum values are wide enough and the flags do not
    collide: the scan options are distinct bits of an [uint32_t], the PDF flags
    and object flags are distinct bit numbers below 31, an x86 opcode fits the
    [real_op] field and sizes, access kinds and registers fit a byte of
    [struct DISASM_RESULT], and the platform constants fit the fields of
    [check_platform]'s encoding. *)
Theorem enum_fields_fit :
  forallb (fun v => (v =? 0) || single_bit v && in_ub 32 v) (values CL_SCAN) = true /\
  nodupb (values CL_SCAN) = true /\
  nodupb (values pdf_flag) = true /\ forallb (fun v => v <? 31) (values pdf_flag) = true /\
  nodupb (values pdf_objflags) = true /\ forallb (fun v => v <? 31) (values pdf_objflags) = true /\
  nodupb (values X86OPS) = true /\ forallb (in_ub 16) (values X86OPS) = true /\
  forallb (in_ub 8) (values X86REGS ++ values DIS_SIZE ++ values DIS_ACCESS) = true /\
  forallb (in_ub 8) (values os_kind_conf ++ values os_kind_llvm) = true /\
  forallb (in_ub 4) (values arch_list ++ values compiler_list ++ values endian_list) = true.
Proof. vm_compute. auto 20. Qed.
