(* ===== verification/Encode.v ===== *)
(** * Encode: the output primitives of the bytecode writer

    [ClamBCOutputWriter] of libclambcc/ClamBCWriter.cpp writes every number of
    the bytecode file as a run of letters of four bits each.  The printers
    append to a stream, so each one is the list of character codes it appends;
    a failed [assert] is an [AssertFailed].  The decoders are the reference
    reader the round-trip theorems are stated against. *)
From S2P Require Import Prelude.
Local Open Scope outcome_scope.

(** ** The printers *)

(** [while (n > 0) { number[++i] = 0x60 | (n & 0xf); n >>= 4; }] *)
Fixpoint digits_fuel (fuel : nat) (n : Z) : list Z :=
  match fuel with
  | O => []
  | S f => if 0 <? n
           then Z.lor 0x60 (Z.land n 0xf) :: digits_fuel f (Z.shiftr n 4)
           else []
  end.

(** The fuel is the bit length of [n]: see [digits_step]. *)
Definition digits (n : Z) : list Z := digits_fuel (S (Z.to_nat (Z.log2 n))) n.

Definition printNumber (n : Z) (constant : bool) : list Z :=
  let number := digits n in
  let i := Z.of_nat (length number) in
  (if constant then Z.lor 0x40 i else Z.lor 0x60 i) :: number.

(** [fixed] rounds of the same loop; what is left of [n] must be zero. *)
Fixpoint fixed_digits (n : Z) (fixed : nat) : list Z * Z :=
  match fixed with
  | O => ([], n)
  | S f => let '(ds, r) := fixed_digits (Z.shiftr n 4) f in
           (Z.lor 0x60 (Z.land n 0xf) :: ds, r)
  end.

Definition printFixedNumber (n : Z) (fixed : nat) : outcome (list Z) :=
  let '(ds, r) := fixed_digits n fixed in
  let* _ := assert_ (r =? 0) "Fixed-width number cannot exceed width" in
  Done ds.

(** Two letters per byte, low half first. *)
Definition byte_digits (c : Z) : list Z :=
  [Z.lor 0x60 (Z.land c 0xf); Z.lor 0x60 (Z.land (Z.shiftr c 4) 0xf)].

Definition printConstData (s : list Z) : list Z :=
  code "|" :: printNumber (Z.of_nat (length s)) false ++ flat_map byte_digits s.

(** The bytes of a C string before its terminator. *)
Fixpoint cstr (s : list Z) : list Z :=
  match s with
  | [] => []
  | c :: s' => if c =? 0 then [] else c :: cstr s'
  end.

(** [printString]: a null pointer is the empty string; the string is cut to
    [maxlength] and written with its terminator. *)
Definition printString (string : option (list Z)) (maxlength : nat) : list Z :=
  let str := match string with
             | Some s => firstn maxlength (cstr s)
             | None => []
             end in
  printConstData (cstr str ++ [0]).

(** ** The source dump at the end of the file

    [ClamBCOutputWriter::finished] writes the source text (or the copyright
    string) after an ['S'].  Blanks at the beginning of a source line are
    dropped; a newline becomes an ['S'] until 80 characters are on the output
    line and a newline of the file from then on.  [bol] is true while the inner
    [do .. while (c == ' ' || c == '\t')] runs. *)
Definition is_blank (c : Z) : bool := (c =? 32) || (c =? 9).

Fixpoint source_chars (bol : bool) (linelength : Z) (s : list Z) : list Z :=
  match s with
  | [] => if 0 <? linelength then [10] else []
  | c :: s' =>
      if bol && is_blank c then source_chars true linelength s'
      else if c =? 10 then
             if linelength <? 80
             then code "S" :: source_chars true linelength s'
             else 10 :: source_chars true 0 s'
      else byte_digits c ++ source_chars false (u32 (linelength + 1)) s'
  end.

Definition printSource (start : list Z) : list Z :=
  code "S" :: source_chars true 0 (cstr start).

(** ** The lines of the buffered part *)

(** [printEOL] keeps the length of the longest line written so far. *)
Record lines := { lineBuffer : list Z; maxLineLength : Z; lastLinePos : Z }.

Definition lines_init : lines :=
  {| lineBuffer := []; maxLineLength := 0; lastLinePos := 0 |}.

Definition emit (cs : list Z) (o : lines) : lines :=
  {| lineBuffer := lineBuffer o ++ cs;
     maxLineLength := maxLineLength o; lastLinePos := lastLinePos o |}.

Definition printEOL (o : lines) : outcome lines :=
  let o' := emit [10] o in
  let diff := Z.of_nat (length (lineBuffer o')) - lastLinePos o in
  let* _ := assert_ (0 <? diff) "diff > 0" in
  Done {| lineBuffer := lineBuffer o';
          lastLinePos := Z.of_nat (length (lineBuffer o'));
          maxLineLength := if maxLineLength o <? diff then diff
                           else maxLineLength o |}.

(** A buffer is filled by interleaving the printers and [printEOL]. *)
Inductive line_op :=
| Chars (cs : list Z)
| EOL.

Definition line_step (o : lines) (op : line_op) : outcome lines :=
  match op with Chars cs => Done (emit cs o) | EOL => printEOL o end.

Fixpoint run_lines (ops : list line_op) (o : lines) : outcome lines :=
  match ops with
  | [] => Done o
  | op :: ops' => let* o' := line_step o op in run_lines ops' o'
  end.

(** ** The reference reader *)

Definition digit_val (c : Z) : option Z :=
  if (0x60 <=? c) && (c <? 0x70) then Some (c - 0x60) else None.

Fixpoint digits_val (ds : list Z) : option Z :=
  match ds with
  | [] => Some 0
  | c :: ds' =>
      match digit_val c, digits_val ds' with
      | Some d, Some v => Some (d + 16 * v)
      | _, _ => None
      end
  end.

Definition readDigits (n : nat) (l : list Z) : option (Z * list Z) :=
  if (n <=? length l)%nat then
    match digits_val (firstn n l) with
    | Some v => Some (v, skipn n l)
    | None => None
    end
  else None.

Definition readNumber (constant : bool) (l : list Z) : option (Z * list Z) :=
  match l with
  | [] => None
  | h :: l' =>
      let n := h - (if constant then 0x40 else 0x60) in
      if (0 <=? n) && (n <=? 16) then readDigits (Z.to_nat n) l' else None
  end.

Definition readFixedNumber (fixed : nat) (l : list Z) : option (Z * list Z) :=
  readDigits fixed l.

Fixpoint readBytes (n : nat) (l : list Z) : option (list Z * list Z) :=
  match n with
  | O => Some ([], l)
  | S m => match readDigits 2 l with
           | Some (c, l1) => match readBytes m l1 with
                             | Some (cs, l2) => Some (c :: cs, l2)
                             | None => None
                             end
           | None => None
           end
  end.

Definition readConstData (l : list Z) : option (list Z * list Z) :=
  match l with
  | h :: l' =>
      if h =? code "|" then
        match readNumber false l' with
        | Some (n, l1) => readBytes (Z.to_nat n) l1
        | None => None
        end
      else None
  | [] => None
  end.

(** In the source dump an ['S'] and a newline both separate lines. *)
Fixpoint readSource (l : list Z) : option (list Z) :=
  match l with
  | [] => Some []
  | c :: l' =>
      if (c =? code "S") || (c =? 10) then
        match readSource l' with Some r => Some (10 :: r) | None => None end
      else
        match l' with
        | c2 :: l'' =>
            match digits_val [c; c2], readSource l'' with
            | Some v, Some r => Some (v :: r)
            | _, _ => None
            end
        | [] => None
        end
  end.

(** What the dump keeps of a source text: the blanks that start a line go. *)
Fixpoint strip_indent (bol : bool) (s : list Z) : list Z :=
  match s with
  | [] => []
  | c :: s' => if bol && is_blank c then strip_indent true s'
               else c :: strip_indent (c =? 10) s'
  end.

(** ** Digits *)

Lemma lor60 d : 0 <= d < 32 -> Z.lor 0x60 d = 0x60 + d.
Proof. intros H. apply Z.eqb_eq. revert d H. below 32. Qed.

Lemma lor40 d : 0 <= d < 32 -> Z.lor 0x40 d = 0x40 + d.
Proof. intros H. apply Z.eqb_eq. revert d H. below 32. Qed.

Lemma letter_eq n : Z.lor 0x60 (Z.land n 0xf) = 0x60 + n mod 16.
Proof.
  change 0xf with (Z.ones 4). rewrite Z.land_ones by lia.
  apply lor60. pose proof (Z.mod_pos_bound n (2 ^ 4)). pow2. lia.
Qed.

Lemma digit_val_letter n : digit_val (Z.lor 0x60 (Z.land n 0xf)) = Some (n mod 16).
Proof.
  rewrite letter_eq. unfold digit_val.
  pose proof (Z.mod_pos_bound n 16 ltac:(lia)).
  destruct (Z.leb_spec 0x60 (0x60 + n mod 16)); [|lia].
  destruct (Z.ltb_spec (0x60 + n mod 16) 0x70); [|lia].
  simpl. f_equal. lia.
Qed.

Lemma shiftr4 n : Z.shiftr n 4 = n / 16.
Proof. by rewrite Z.shiftr_div_pow2. Qed.

Lemma digits_fuel_enough f : forall g n, n < 16 ^ Z.of_nat f -> n < 16 ^ Z.of_nat g ->
  digits_fuel f n = digits_fuel g n.
Proof.
  induction f as [|f IH]; intros g n Hf Hg.
  - simpl in *. destruct g; [done|]. simpl. destruct (Z.ltb_spec 0 n); [lia|done].
  - destruct g as [|g]; simpl.
    + simpl in Hg. destruct (Z.ltb_spec 0 n); [lia|done].
    + destruct (Z.ltb_spec 0 n); [|done]. f_equal. apply IH;
        rewrite shiftr4; apply Z.div_lt_upper_bound;
        rewrite ?Nat2Z.inj_succ, ?Z.pow_succ_r in *; lia.
Qed.

(** The loop [while (n > 0)] of [printNumber], as an equation. *)
Lemma digits_step n : 0 <= n ->
  digits n = if 0 <? n
             then Z.lor 0x60 (Z.land n 0xf) :: digits (Z.shiftr n 4)
             else [].
Proof.
  intros Hn. unfold digits at 1. simpl. destruct (Z.ltb_spec 0 n); [|done].
  f_equal. unfold digits. rewrite shiftr4.
  assert (forall m, 0 < m -> m < 16 ^ Z.of_nat (Z.to_nat (Z.log2 m) + 1)) as B.
  { intros m Hm. pose proof (Z.log2_nonneg m). pose proof (Z.log2_spec m Hm) as [_ L].
    eapply Z.lt_le_trans; [exact L|].
    replace (Z.of_nat (Z.to_nat (Z.log2 m) + 1)) with (Z.succ (Z.log2 m)) by lia.
    apply Z.pow_le_mono_l. lia. }
  apply digits_fuel_enough.
  - specialize (B n ltac:(lia)). apply Z.div_lt_upper_bound; [lia|].
    rewrite Nat2Z.inj_add, Z.pow_add_r in B by lia. lia.
  - destruct (decide (n / 16 = 0)) as [E|E].
    + rewrite E. simpl. lia.
    + rewrite <- Nat.add_1_r. apply B. pose proof (Z.div_pos n 16). lia.
Qed.

Lemma digits_0 : digits 0 = [].
Proof. reflexivity. Qed.

(** Induction along the loop. *)
Lemma loop16_ind (P : Z -> Prop) :
  P 0 -> (forall n, 0 < n -> P (n / 16) -> P n) -> forall n, 0 <= n -> P n.
Proof.
  intros H0 HS. apply Zlt_0_ind. intros n IH Hn.
  destruct (decide (n = 0)) as [->|]; [done|].
  apply HS; [lia|]. apply IH.
  split; [apply Z.div_pos; lia|apply Z.div_lt; lia].
Qed.

Lemma digits_pos n : 0 < n ->
  digits n = Z.lor 0x60 (Z.land n 0xf) :: digits (n / 16).
Proof.
  intros H. rewrite digits_step by lia.
  destruct (Z.ltb_spec 0 n); [|lia]. by rewrite shiftr4.
Qed.

Lemma digits_val_digits n : 0 <= n -> digits_val (digits n) = Some n.
Proof.
  revert n. apply loop16_ind; [done|]. intros n Hn IH.
  rewrite digits_pos by done. cbn [digits_val].
  rewrite digit_val_letter, IH. f_equal. pose proof (Z.div_mod n 16). lia.
Qed.

Lemma length_digits k : forall n, 0 <= n < 16 ^ Z.of_nat k -> (length (digits n) <= k)%nat.
Proof.
  induction k as [|k IH]; intros n Hn.
  - simpl in Hn. by replace n with 0 by lia.
  - destruct (decide (n = 0)) as [->|]; [simpl; lia|].
    rewrite digits_pos by lia. cbn [length].
    enough (length (digits (n / 16)) <= k)%nat by lia. apply IH.
    split; [apply Z.div_pos; lia|]. apply Z.div_lt_upper_bound; [lia|].
    rewrite Nat2Z.inj_succ, Z.pow_succ_r in Hn; lia.
Qed.

Lemma length_digits64 n : in_u 64 n -> (length (digits n) <= 16)%nat.
Proof. intros H. apply length_digits. exact H. Qed.

(** ** Round trips *)

Lemma readDigits_app n ds l v :
  length ds = n -> digits_val ds = Some v -> readDigits n (ds ++ l) = Some (v, l).
Proof.
  intros Hn Hv. unfold readDigits.
  rewrite firstn_exact, skipn_exact, Hv by done.
  rewrite length_app. destruct (Nat.leb_spec n (length ds + length l)); [done|lia].
Qed.

Lemma printNumber_head n constant : in_u 64 n ->
  exists h, printNumber n constant = h :: digits n /\
    h = (if constant then 0x40 else 0x60) + Z.of_nat (length (digits n)).
Proof.
  intros H. pose proof (length_digits64 n H). eexists; split; [reflexivity|].
  destruct constant; [apply lor40|apply lor60]; lia.
Qed.

Lemma readNumber_print n constant rest : in_u 64 n ->
  readNumber constant (printNumber n constant ++ rest) = Some (n, rest).
Proof.
  intros H. destruct (printNumber_head n constant H) as (h & -> & ->).
  pose proof (length_digits64 n H). unfold in_u in H. cbn [readNumber app].
  replace (_ + _ - _) with (Z.of_nat (length (digits n))) by (destruct constant; lia).
  destruct (Z.leb_spec 0 (Z.of_nat (length (digits n)))); [|lia].
  destruct (Z.leb_spec (Z.of_nat (length (digits n))) 16); [|lia].
  cbn [andb]. apply readDigits_app; [lia|]. apply digits_val_digits. lia.
Qed.

Lemma fixed_digits_spec k : forall n ds r, 0 <= n ->
  fixed_digits n k = (ds, r) ->
  length ds = k /\ digits_val ds = Some (n mod 16 ^ Z.of_nat k) /\ r = n / 16 ^ Z.of_nat k.
Proof.
  induction k as [|k IH]; intros n ds r Hn E.
  - injection E as <- <-. simpl. rewrite Z.mod_1_r, Z.div_1_r. done.
  - cbn [fixed_digits] in E. destruct (fixed_digits (Z.shiftr n 4) k) as [ds' r'] eqn:E'.
    injection E as <- <-. rewrite shiftr4 in E'.
    destruct (IH (n / 16) ds' r' ltac:(apply Z.div_pos; lia) E') as (Hl & Hv & Hr).
    rewrite Nat2Z.inj_succ, Z.pow_succ_r by lia.
    split; [simpl; congruence|]. cbn [digits_val]. rewrite digit_val_letter, Hv.
    split; [f_equal; rewrite Z.rem_mul_r; lia|]. subst r'. rewrite Z.div_div; lia.
Qed.

Lemma printFixedNumber_spec n fixed : 0 <= n ->
  printFixedNumber n fixed =
    if n <? 16 ^ Z.of_nat fixed then Done (fst (fixed_digits n fixed))
    else AssertFailed "Fixed-width number cannot exceed width".
Proof.
  intros Hn. unfold printFixedNumber.
  destruct (fixed_digits n fixed) as [ds r] eqn:E. cbn [fst].
  destruct (fixed_digits_spec _ _ _ _ Hn E) as (_ & _ & ->).
  unfold assert_. destruct (Z.ltb_spec n (16 ^ Z.of_nat fixed)).
  - by rewrite Z.div_small.
  - destruct (Z.eqb_spec (n / 16 ^ Z.of_nat fixed) 0) as [E0|]; [|done].
    apply Z.div_small_iff in E0; lia.
Qed.

Lemma readFixedNumber_print n fixed cs rest : 0 <= n ->
  printFixedNumber n fixed = Done cs ->
  readFixedNumber fixed (cs ++ rest) = Some (n, rest).
Proof.
  intros Hn. rewrite printFixedNumber_spec by done.
  destruct (Z.ltb_spec n (16 ^ Z.of_nat fixed)); [|discriminate].
  intros [= <-]. destruct (fixed_digits n fixed) as [ds r] eqn:E. cbn [fst].
  destruct (fixed_digits_spec _ _ _ _ Hn E) as (Hl & Hv & _).
  apply readDigits_app; [done|]. rewrite Hv. f_equal. apply Z.mod_small. lia.
Qed.

Lemma byte_digits_val c : in_u 8 c -> digits_val (byte_digits c) = Some c.
Proof.
  unfold in_u. intros H. unfold byte_digits. cbn [digits_val].
  rewrite !digit_val_letter, shiftr4. f_equal.
  pow2. Z.div_mod_to_equations. lia.
Qed.

Lemma readBytes_print s rest : Forall (in_u 8) s ->
  readBytes (length s) (flat_map byte_digits s ++ rest) = Some (s, rest).
Proof.
  induction 1 as [|c s Hc Hs IH]; [done|].
  cbn [length readBytes flat_map]. rewrite <- app_assoc.
  rewrite (readDigits_app 2 _ _ c) by (done || by apply byte_digits_val).
  by rewrite IH.
Qed.

Lemma readConstData_print s rest : Forall (in_u 8) s -> in_u 64 (Z.of_nat (length s)) ->
  readConstData (printConstData s ++ rest) = Some (s, rest).
Proof.
  intros Hs Hl. unfold printConstData. cbn [readConstData app].
  rewrite <- app_assoc, readNumber_print by done.
  rewrite Nat2Z.id. by apply readBytes_print.
Qed.

(** ** Lengths and letters *)

Lemma cstr_bytes s : Forall (in_u 8) s -> Forall (in_u 8) (cstr s).
Proof.
  induction 1 as [|c s Hc Hs IH]; simpl; [done|].
  destruct (c =? 0); auto.
Qed.

Lemma cstr_id s : cstr (cstr s) = cstr s.
Proof.
  induction s as [|c s IH]; [done|]. simpl.
  destruct (c =? 0) eqn:E; [done|]. simpl. by rewrite E, IH.
Qed.

Lemma length_cstr s : (length (cstr s) <= length s)%nat.
Proof. induction s as [|c s IH]; simpl; [lia|]. destruct (c =? 0); simpl; lia. Qed.

(** The characters a number or a byte is written with. *)
Definition letter (c : Z) : Prop := 0x60 <= c < 0x70.

Lemma letter_digit n : letter (Z.lor 0x60 (Z.land n 0xf)).
Proof.
  rewrite letter_eq. unfold letter. pose proof (Z.mod_pos_bound n 16). lia.
Qed.

Lemma letters_digits n : 0 <= n -> Forall letter (digits n).
Proof.
  revert n. apply loop16_ind; [constructor|]. intros n Hn IH.
  rewrite digits_pos by done. constructor; [apply letter_digit|done].
Qed.

Lemma letters_bytes s : Forall letter (flat_map byte_digits s).
Proof.
  induction s; simpl; [done|].
  do 2 (constructor; [apply letter_digit|]). done.
Qed.

Lemma letters_fixed n k : Forall letter (fst (fixed_digits n k)).
Proof.
  revert n. induction k as [|k IH]; intros n; [constructor|]. cbn [fixed_digits].
  specialize (IH (Z.shiftr n 4)). destruct (fixed_digits (Z.shiftr n 4) k).
  cbn [fst]. constructor; [apply letter_digit|done].
Qed.

Lemma cstr_firstn n s : cstr (firstn n (cstr s)) = firstn n (cstr s).
Proof.
  revert n. induction s as [|c s IH]; intros n; [by destruct n|].
  cbn [cstr]. destruct (c =? 0) eqn:E; [by destruct n|].
  destruct n; [done|]. cbn [firstn cstr]. by rewrite E, IH.
Qed.

#[export] Hint Resolve letter_digit letters_digits letters_bytes cstr_bytes : clambc.

(** ** The source dump *)

Lemma letter_not_sep c : letter c -> (c =? code "S") || (c =? 10) = false.
Proof.
  unfold letter. intros H. change (code "S") with 83.
  destruct (Z.eqb_spec c 83), (Z.eqb_spec c 10); simpl; lia.
Qed.

Lemma readSource_byte c l r : in_u 8 c -> readSource l = Some r ->
  readSource (byte_digits c ++ l) = Some (c :: r).
Proof.
  intros Hc Hl. unfold byte_digits at 1. cbn [app readSource].
  rewrite letter_not_sep by apply letter_digit.
  fold (byte_digits c). by rewrite byte_digits_val, Hl.
Qed.

Lemma readSource_chars s : Forall (in_u 8) s -> forall bol ll,
  exists nl, (nl = [] \/ nl = [10]) /\
    readSource (source_chars bol ll s) = Some (strip_indent bol s ++ nl).
Proof.
  induction 1 as [|c s Hc Hs IH]; intros bol ll.
  - simpl. destruct (0 <? ll); [exists [10]|exists []]; auto.
  - cbn [source_chars strip_indent].
    destruct (bol && is_blank c); [apply IH|].
    destruct (Z.eqb_spec c 10) as [->|].
    + destruct (ll <? 80).
      * destruct (IH true ll) as (nl & Hnl & E). exists nl. split; [done|].
        cbn [readSource app]. by rewrite E.
      * destruct (IH true 0) as (nl & Hnl & E). exists nl. split; [done|].
        cbn [readSource app]. by rewrite E.
    + destruct (IH false (u32 (ll + 1))) as (nl & Hnl & E). exists nl. split; [done|].
      by apply readSource_byte.
Qed.

(** ** The line buffer *)

(** The part of the buffer that precedes the current line, as the lengths of
    its lines. *)
Fixpoint line_lengths (cur : Z) (ops : list line_op) : list Z * Z :=
  match ops with
  | [] => ([], cur)
  | Chars cs :: ops' => line_lengths (cur + Z.of_nat (length cs)) ops'
  | EOL :: ops' => let '(ls, r) := line_lengths 0 ops' in ((cur + 1) :: ls, r)
  end.

Definition max_list (ls : list Z) (m : Z) : Z := fold_left Z.max ls m.

Lemma run_lines_spec ops : forall o,
  lastLinePos o <= Z.of_nat (length (lineBuffer o)) ->
  let cur := Z.of_nat (length (lineBuffer o)) - lastLinePos o in
  exists o', run_lines ops o = Done o' /\
    maxLineLength o' = max_list (fst (line_lengths cur ops)) (maxLineLength o) /\
    Z.of_nat (length (lineBuffer o')) - lastLinePos o' = snd (line_lengths cur ops) /\
    lastLinePos o' <= Z.of_nat (length (lineBuffer o')).
Proof.
  induction ops as [|op ops IH]; intros o Ho cur.
  - exists o. simpl. auto.
  - destruct op as [cs|]; cbn [run_lines line_step obind line_lengths].
    + assert (lastLinePos (emit cs o) <= Z.of_nat (length (lineBuffer (emit cs o)))) as Hi
        by (simpl; rewrite length_app; lia).
      destruct (IH _ Hi) as (o' & E & H). exists o'. split; [exact E|].
      replace (cur + _) with
        (Z.of_nat (length (lineBuffer (emit cs o))) - lastLinePos (emit cs o))
        by (simpl; rewrite length_app; unfold cur; lia).
      exact H.
    + unfold printEOL. cbn zeta. simpl lineBuffer.
      set (diff := Z.of_nat (length (lineBuffer o ++ [10])) - lastLinePos o).
      assert (diff = cur + 1) as Ed by (unfold diff, cur; rewrite length_app; simpl; lia).
      unfold assert_. destruct (Z.ltb_spec 0 diff); [|unfold cur in Ed; lia].
      cbn [obind].
      match goal with |- exists o', run_lines ops ?o1 = _ /\ _ => set (o2 := o1) end.
      assert (lastLinePos o2 <= Z.of_nat (length (lineBuffer o2))) as Hi by (simpl; lia).
      destruct (IH o2 Hi) as (o' & E & Hm & Hc & Hl). exists o'. split; [exact E|].
      replace (Z.of_nat (length (lineBuffer o2)) - lastLinePos o2) with 0 in * by (simpl; lia).
      destruct (line_lengths 0 ops) as [ls r] eqn:El. cbn [fst snd] in *.
      split; [|done]. rewrite Hm. cbn [max_list fold_left]. unfold max_list. f_equal.
      subst o2. cbn [maxLineLength]. destruct (Z.ltb_spec (maxLineLength o) diff); lia.
Qed.

Lemma max_list_ge ls : forall m, m <= max_list ls m /\ Forall (fun x => x <= max_list ls m) ls.
Proof.
  induction ls as [|x ls IH]; intros m; cbn [max_list fold_left]; [split; [lia|done]|].
  destruct (IH (Z.max m x)) as [H1 H2]. unfold max_list in *.
  split; [lia|]. constructor; [lia|done].
Qed.

(** ** Properties *)

(** C36: The 64-bit numbers of the bytecode format: what [printNumber] writes is
    read back, whatever follows it, and the sixteen digits at most fit the
    [char number[32]] of the printer with its length letter and terminator. *)
Theorem printNumber_roundtrip n constant rest : in_u 64 n ->
  readNumber constant (printNumber n constant ++ rest) = Some (n, rest)
  /\ (length (printNumber n constant) + 1 <= 18)%nat.
Proof.
  intros H. split; [by apply readNumber_print|].
  pose proof (length_digits64 n H). unfold printNumber. cbn [length]. lia.
Qed.

Lemma printNumber_roundtrip_witness :
  readNumber false (printNumber 0x53e5493e9f3d1c30 false ++ [1])
    = Some (0x53e5493e9f3d1c30, [1]).
Proof.
  apply (printNumber_roundtrip 0x53e5493e9f3d1c30 false [1]). cint.
Defined.

(** [printFixedNumber] writes exactly [fixed] letters that read back as the
    number when it fits [fixed] half bytes, and its assertion fails when it
    does not. *)
Theorem printFixedNumber_correct n fixed rest : 0 <= n ->
  if n <? 16 ^ Z.of_nat fixed
  then exists cs, printFixedNumber n fixed = Done cs /\ length cs = fixed /\
         Forall letter cs /\ readFixedNumber fixed (cs ++ rest) = Some (n, rest)
  else printFixedNumber n fixed
         = AssertFailed "Fixed-width number cannot exceed width".
Proof.
  intros Hn. pose proof (printFixedNumber_spec n fixed Hn) as E.
  destruct (n <? 16 ^ Z.of_nat fixed); [|done].
  exists (fst (fixed_digits n fixed)). split; [done|].
  split; [|split; [apply letters_fixed|by apply readFixedNumber_print]].
  destruct (fixed_digits n fixed) as [ds r] eqn:Ef.
  by destruct (fixed_digits_spec _ _ _ _ Hn Ef).
Qed.

Lemma printFixedNumber_correct_witness :
  exists cs, printFixedNumber 42 2 = Done cs /\ length cs = 2%nat /\
    Forall letter cs /\ readFixedNumber 2 (cs ++ [7]) = Some (42, [7]).
Proof. exact (printFixedNumber_correct 42 2 [7] ltac:(lia)). Defined.

(** A string field (a function name, the signature's author, the compiler
    version) is read back as the first [maxlength] bytes of the C string with
    its terminator; a null pointer is the empty string. *)
Theorem printString_roundtrip str maxlength rest :
  match str with Some s => Forall (in_u 8) s | None => True end ->
  Z.of_nat maxlength < 2 ^ 63 ->
  readConstData (printString str maxlength ++ rest) =
    Some (match str with Some s => firstn maxlength (cstr s) | None => [] end ++ [0], rest).
Proof.
  intros Hs Hm. unfold printString.
  set (t := match str with Some s => firstn maxlength (cstr s) | None => [] end).
  assert (cstr t = t /\ Forall (in_u 8) t /\ (length t <= maxlength)%nat) as (Ht & Hb & Hl).
  { destruct str as [s|]; subst t; [|split; [done|split; [done|simpl; lia]]].
    split; [apply cstr_firstn|]. split; [apply Forall_take; auto with clambc|].
    rewrite length_take. lia. }
  rewrite Ht. apply readConstData_print.
  - apply Forall_app. split; [done|]. in_range.
  - rewrite length_app. cbn [length]. cint.
Qed.

Lemma printString_roundtrip_witness :
  readConstData (printString (Some [102; 111; 111; 0; 98]) 64 ++ [1])
    = Some ([102; 111; 111; 0], [1]).
Proof.
  refine (printString_roundtrip (Some [102; 111; 111; 0; 98]) 64 [1] _ _).
  - in_range.
  - lia.
Defined.

(** The source dump reads back as the source text without the blanks that
    start its lines, up to one final newline. *)
Theorem printSource_roundtrip s : Forall (in_u 8) s ->
  exists nl, (nl = [] \/ nl = [10]) /\
    readSource (printSource s) = Some (10 :: strip_indent true (cstr s) ++ nl).
Proof.
  intros Hs. destruct (readSource_chars (cstr s) (cstr_bytes s Hs) true 0) as (nl & Hnl & E).
  exists nl. split; [done|]. unfold printSource. cbn [readSource].
  by rewrite E.
Qed.

Lemma printSource_roundtrip_witness :
  exists nl, (nl = [] \/ nl = [10]) /\
    readSource (printSource (codes "int  a;" ++ [10; 32; 9; 98; 59; 10]))
      = Some (10 :: codes "int  a;" ++ [10; 98; 59; 10] ++ nl).
Proof.
  destruct (printSource_roundtrip (codes "int  a;" ++ [10; 32; 9; 98; 59; 10]))
    as (nl & Hnl & E); [in_range|].
  exists nl. split; [exact Hnl|exact E].
Defined.

(** However the printers and [printEOL] alternate, the assertion of
    [printEOL] never fails and [maxLineLength] is the length (with its newline)
    of the longest finished line, so no line is longer than the bound the
    header announces. *)
Theorem run_lines_max ops :
  exists o, run_lines ops lines_init = Done o /\
    maxLineLength o = max_list (fst (line_lengths 0 ops)) 0 /\
    Forall (fun len => len <= maxLineLength o) (fst (line_lengths 0 ops)).
Proof.
  destruct (run_lines_spec ops lines_init ltac:(simpl; lia)) as (o & E & Hm & _).
  exists o. split; [done|]. cbn in Hm. rewrite Hm.
  split; [done|]. apply (max_list_ge _ 0).
Qed.
