(* ===== verification/Logarithm.v ===== *)
(** * Logarithm: bounds on the natural logarithm by integers

    The series of the inverse hyperbolic tangent, with its remainder, gives
    integer bounds of 2^60 * ln ((m + 1) / m). ILog.v adds them up to compare the
    table of headers/bytecode_ilog.h with the logarithm. *)
From Stdlib Require Import ZArith Reals Lra Lia List.
Import ListNotations.
Local Open Scope R_scope.

(** ** The series *)

(** x + x^3/3 + x^5/5 + ..., [K] terms *)
Fixpoint artanh_sum (K : nat) (x : R) : R :=
  match K with O => 0 | S K => artanh_sum K x + x ^ (2 * K + 1) / INR (2 * K + 1) end.
Fixpoint even_sum (K : nat) (x : R) : R := match K with O => 0 | S K => even_sum K x + x ^ (2 * K) end.
Lemma even_sum_closed K x : (1 - x * x) * even_sum K x = 1 - x ^ (2 * K).
Proof.
  induction K as [|K IH]; [simpl; ring|]. cbn [even_sum]. rewrite Rmult_plus_distr_l, IH.
  replace (2 * S K)%nat with (S (S (2 * K))) by lia. simpl pow. ring.
Qed.
Lemma artanh_sum_derivative K x : derivable_pt_lim (artanh_sum K) x (even_sum K x).
Proof.
  induction K as [|K IH]; cbn [artanh_sum even_sum]; [apply derivable_pt_lim_const|].
  apply (derivable_pt_lim_plus (artanh_sum K) (fun x => x ^ (2 * K + 1) / INR (2 * K + 1))); [exact IH|].
  assert (Hn : INR (2 * K + 1) <> 0) by (apply not_0_INR; lia).
  replace (x ^ (2 * K)) with (/ INR (2 * K + 1) * (INR (2 * K + 1) * x ^ pred (2 * K + 1))).
  - apply (derivable_pt_lim_ext (fun x => / INR (2 * K + 1) * x ^ (2 * K + 1))); [intros t; unfold Rdiv; ring|].
    apply (derivable_pt_lim_scal (fun x => x ^ (2 * K + 1))). apply derivable_pt_lim_pow.
  - replace (pred (2 * K + 1)) with (2 * K)%nat by lia. now field.
Qed.

(** ** The logarithm of a quotient *)

Definition log_quotient (x : R) : R := ln (1 + x) - ln (1 - x).
Lemma log_quotient_derivative x : 0 <= x < 1 -> derivable_pt_lim log_quotient x (2 / (1 - x * x)).
Proof.
  intros Hx. replace (2 / (1 - x * x)) with (/ (1 + x) * 1 - / (1 - x) * (0 - 1)) by (field; nra).
  apply (derivable_pt_lim_minus (fun x => ln (1 + x)) (fun x => ln (1 - x))).
  - apply (derivable_pt_lim_comp (fun x => 1 + x) ln); [|apply derivable_pt_lim_ln; lra].
    assert (H : derivable_pt_lim (fun x => 1 + x) x (0 + 1)); [|now rewrite Rplus_0_l in H].
    apply (derivable_pt_lim_plus (fun _ => 1) (fun x => x)); [apply derivable_pt_lim_const|apply derivable_pt_lim_id].
  - apply (derivable_pt_lim_comp (fun x => 1 - x) ln); [|apply derivable_pt_lim_ln; lra].
    apply (derivable_pt_lim_minus (fun _ => 1) (fun x => x)); [apply derivable_pt_lim_const|apply derivable_pt_lim_id].
Qed.
(** The series is a lower bound, by the mean value theorem with this remainder. *)
Lemma log_quotient_bounds K x : 0 < x < 1 ->
  0 <= log_quotient x - 2 * artanh_sum K x <= 2 * x ^ (2 * K + 1) / (1 - x * x).
Proof.
  intros Hx. destruct (MVT_cor2 (fun x => log_quotient x - 2 * artanh_sum K x) (fun c => 2 / (1 - c * c) - 2 * even_sum K c) 0 x) as (c & E & Hc); [lra| |].
  - intros c Hc. apply (derivable_pt_lim_minus log_quotient (fun x => 2 * artanh_sum K x)); [apply log_quotient_derivative; lra|].
    apply (derivable_pt_lim_scal (artanh_sum K)). apply artanh_sum_derivative.
  - assert (E0 : artanh_sum K 0 = 0).
    { clear. induction K as [|K IH]; [reflexivity|]. cbn [artanh_sum]. rewrite IH, pow_i by lia. unfold Rdiv. ring. }
    cbv beta in E. unfold log_quotient in E at 2. rewrite E0, Rplus_0_r, Rminus_0_r, ln_1 in E.
    assert (Hd : 2 / (1 - c * c) - 2 * even_sum K c = 2 * c ^ (2 * K) / (1 - c * c)).
    { pose proof (even_sum_closed K c) as Hs. assert (Hn : 1 - c * c <> 0) by nra. apply (Rmult_eq_reg_l (1 - c * c)); [|exact Hn].
      transitivity (2 - 2 * ((1 - c * c) * even_sum K c)); [field; exact Hn|]. rewrite Hs. field. exact Hn. }
    rewrite Hd in E. assert (Hp : 0 <= c ^ (2 * K)) by (apply pow_le; lra).
    assert (Hpx : c ^ (2 * K) <= x ^ (2 * K)) by (apply pow_incr; lra).
    assert (Hi : 0 < / (1 - c * c) <= / (1 - x * x)).
    { split; [apply Rinv_0_lt_compat; nra|]. apply Rinv_le_contravar; nra. }
    replace (log_quotient x - 2 * artanh_sum K x) with (2 * c ^ (2 * K) / (1 - c * c) * x) by lra. unfold Rdiv.
    replace (2 * K + 1)%nat with (S (2 * K)) by lia. change (x ^ S (2 * K)) with (x * x ^ (2 * K)).
    assert (0 <= c ^ (2 * K) * / (1 - c * c) <= x ^ (2 * K) * / (1 - x * x)).
    { split; [apply Rmult_le_pos; lra|]. apply Rmult_le_compat; lra. }
    split; nra.
Qed.

(** ** Integer bounds *)

Local Open Scope Z_scope.
Definition log_unit : Z := 2 ^ 60.
(** [d] is 2m + 1; the quotients are rounded down or up. *)
Fixpoint series_low (K : nat) (d : Z) : Z :=
  match K with O => 0 | S K => series_low K d + 2 * log_unit / ((2 * Z.of_nat K + 1) * d ^ (2 * Z.of_nat K + 1)) end.
Fixpoint series_high (K : nat) (d : Z) : Z :=
  match K with O => 0 | S K => series_high K d + (2 * log_unit / ((2 * Z.of_nat K + 1) * d ^ (2 * Z.of_nat K + 1)) + 1) end.
(** Fewer terms are enough where the series converges faster. *)
Definition log_terms (m : Z) : nat := if m <? 8 then 10 else if m <? 64 then 4 else 2.
Definition log_low (m : Z) : Z := series_low (log_terms m) (2 * m + 1).
Definition log_high (m : Z) : Z :=
  series_high (log_terms m) (2 * m + 1) + (9 * log_unit / (4 * (2 * m + 1) ^ (2 * Z.of_nat (log_terms m) + 1)) + 1).

Lemma div_bounds a b : 0 < b -> (IZR (a / b) <= IZR a / IZR b <= IZR (a / b + 1))%R.
Proof.
  intros Hb. pose proof (Z.mul_div_le a b Hb) as H1. pose proof (Z.mul_succ_div_gt a b Hb) as H2.
  assert (0 < IZR b)%R by (apply IZR_lt; lia). apply IZR_le in H1. rewrite mult_IZR in H1.
  assert (H3 : (IZR a <= IZR (b * (a / b + 1)))%R) by (apply IZR_le; lia). rewrite mult_IZR in H3.
  assert (Hq : (IZR a / IZR b * IZR b = IZR a)%R) by (field; lra). split; apply (Rmult_le_reg_r (IZR b)); lra.
Qed.
Lemma series_bounds K d : 1 <= d ->
  (IZR (series_low K d) <= 2 * IZR log_unit * artanh_sum K (/ IZR d) <= IZR (series_high K d))%R.
Proof.
  intros Hd. induction K as [|K IH]; cbn [series_low series_high artanh_sum]; [lra|]. rewrite !plus_IZR.
  assert (Hp : 0 < d ^ (2 * Z.of_nat K + 1)) by (apply Z.pow_pos_nonneg; lia).
  pose proof (div_bounds (2 * log_unit) ((2 * Z.of_nat K + 1) * d ^ (2 * Z.of_nat K + 1)) ltac:(lia)) as H. rewrite plus_IZR in H.
  assert (Hdr : (IZR d <> 0)%R) by (apply not_0_IZR; lia).
  assert (E : (IZR (2 * log_unit) / IZR ((2 * Z.of_nat K + 1) * d ^ (2 * Z.of_nat K + 1)) =
    2 * IZR log_unit * ((/ IZR d) ^ (2 * K + 1) / INR (2 * K + 1)))%R).
  { rewrite mult_IZR, mult_IZR. replace (2 * Z.of_nat K + 1) with (Z.of_nat (2 * K + 1)) by lia. rewrite <- pow_IZR, <- INR_IZR_INZ, pow_inv. field.
    split; [apply pow_nonzero; exact Hdr|apply not_0_INR; lia]. }
  rewrite E in H. lra.
Qed.
(** 2^60 * ln ((m + 1) / m) lies between the two. *)
Lemma log_step m : 1 <= m ->
  (IZR (log_low m) <= IZR log_unit * (ln (IZR (m + 1)) - ln (IZR m)) <= IZR (log_high m))%R.
Proof.
  intros Hm. unfold log_low, log_high. generalize (log_terms m) as K. intros K. set (d := 2 * m + 1). assert (Hd : (3 <= IZR d)%R) by (apply IZR_le; lia).
  assert (Em : (1 <= IZR m)%R) by (apply IZR_le; lia).
  assert (Ed : (IZR d = 2 * IZR m + 1)%R) by (unfold d; now rewrite plus_IZR, mult_IZR).
  assert (Hx : (0 < / IZR d <= / 3)%R) by (split; [apply Rinv_0_lt_compat; lra|apply Rinv_le_contravar; lra]).
  set (x := (/ IZR d)%R) in *.
  assert (E : (ln (IZR (m + 1)) - ln (IZR m) = log_quotient x)%R).
  { unfold log_quotient. replace (1 + x)%R with (IZR (m + 1) * (2 * x))%R by (rewrite plus_IZR; unfold x; rewrite Ed; field; lra).
    replace (1 - x)%R with (IZR m * (2 * x))%R by (unfold x; rewrite Ed; field; lra).
    rewrite plus_IZR, !ln_mult by lra. ring. }
  rewrite E. destruct (log_quotient_bounds K x ltac:(lra)) as [H1 H2].
  destruct (series_bounds K d ltac:(unfold d; lia)) as [H3 H4]. fold x in H3, H4.
  assert (HN : (0 < IZR log_unit)%R) by (apply IZR_lt; reflexivity).
  split; [nra|]. rewrite plus_IZR.
  assert (Hp : 0 < d ^ (2 * Z.of_nat K + 1)) by (apply Z.pow_pos_nonneg; unfold d; lia).
  pose proof (div_bounds (9 * log_unit) (4 * d ^ (2 * Z.of_nat K + 1)) ltac:(lia)) as [_ H5].
  assert (H6 : (IZR log_unit * (2 * x ^ (2 * K + 1) / (1 - x * x)) <= IZR (9 * log_unit) / IZR (4 * d ^ (2 * Z.of_nat K + 1)))%R).
  { rewrite !mult_IZR. replace (2 * Z.of_nat K + 1) with (Z.of_nat (2 * K + 1)) by lia. rewrite <- pow_IZR.
    unfold x at 1. rewrite pow_inv. set (p := (IZR d ^ (2 * K + 1))%R). assert (Hpos : (0 < p)%R) by (apply pow_lt; lra).
    assert (Hq : (/ (1 - x * x) <= 9 / 8)%R) by (replace (9 / 8)%R with (/ (8 / 9))%R by field; apply Rinv_le_contravar; nra).
    assert (Hip : (0 < / p)%R) by now apply Rinv_0_lt_compat. unfold Rdiv. rewrite Rinv_mult.
    assert (0 <= IZR log_unit * / p)%R by nra. nra. }
  nra.
Qed.

(** ** Quotients rounded down *)

Lemma ln_monotone x y : (0 < x)%R -> (x <= y)%R -> (ln x <= ln y)%R.
Proof. intros Hx [H| ->]; [left; now apply ln_increasing|now right]. Qed.
Lemma ln_1p y : (0 <= y)%R -> (0 <= ln (1 + y) <= y)%R.
Proof.
  intros Hy. split.
  - rewrite <- ln_1. apply ln_monotone; lra.
  - rewrite <- (ln_exp y) at 2. apply ln_monotone; [lra|]. apply exp_ineq1_le.
Qed.
(** The logarithm loses less than 1 / (a / k) when a / k is rounded down. *)
Lemma ln_div_floor a k : 1 <= k -> k <= a ->
  (0 <= ln (IZR a) - ln (IZR k) - ln (IZR (a / k)) <= / IZR (a / k))%R.
Proof.
  intros Hk Ha. set (q := a / k). assert (Hq : 1 <= q) by (apply Z.div_le_lower_bound; lia).
  pose proof (Z.mul_div_le a k ltac:(lia)) as H1. pose proof (Z.mul_succ_div_gt a k ltac:(lia)) as H2. fold q in H1, H2.
  assert (Rk : (1 <= IZR k)%R) by (apply IZR_le; lia). assert (Rq : (1 <= IZR q)%R) by (apply IZR_le; lia).
  apply IZR_le in H1. rewrite mult_IZR in H1. assert (H3 : (IZR a <= IZR (k * (q + 1)))%R) by (apply IZR_le; lia). rewrite mult_IZR, plus_IZR in H3.
  set (y := (IZR a / (IZR k * IZR q) - 1)%R).
  assert (Hpos : (0 < IZR k * IZR q)%R) by nra.
  assert (Ey : (IZR a = (1 + y) * (IZR k * IZR q))%R) by (unfold y; field; lra).
  assert (Hy : (0 <= y <= / IZR q)%R).
  { assert (Hi : (/ IZR q * (IZR k * IZR q) = IZR k)%R) by (field; lra).
    split; apply (Rmult_le_reg_r (IZR k * IZR q)); lra. }
  rewrite Ey, !ln_mult by lra. pose proof (ln_1p y ltac:(lra)). lra.
Qed.
Lemma ln_quotient x y : (0 < x)%R -> (0 < y)%R -> (ln (x / y) = ln x - ln y)%R.
Proof. intros Hx Hy. unfold Rdiv. rewrite ln_mult, ln_Rinv; [lra|lra|lra|now apply Rinv_0_lt_compat]. Qed.
