(* ===== verification/Layout.v ===== *)
(** * Layout: C types, the structures shared with libclamav, memory

    The structure definitions of headers/bytecode_pe_structs.h, bytecode_pe.h,
    bytecode_execs.h, bytecode_disasm.h and bytecode_detect.h as field tables;
    the natural-alignment layout of the clambc target (bytecode_types.h: 16-,
    32- and 64-bit integers aligned to their size, 32-bit pointers never occur
    in these structures); loads of either endianness from a byte image. *)
From S2P Require Import Prelude Enums.
Local Open Scope string_scope.
Local Open Scope Z_scope.

(** ** Types *)

(** The C types the headers use. [CConst] is the qualifier. *)
Inductive ctype :=
| CVoid
| CUInt (w : Z)
| CInt (w : Z)
| CPtr (t : ctype)
| CConst (t : ctype)
| CStruct (name : string)
| CArr (n : Z) (t : ctype).

#[export] Instance ctype_eq_dec : EqDecision ctype.
Proof. solve_decision. Defined.

(** ** The structures *)

(** struct pe_image_file_hdr *)
Definition pe_image_file_hdr : list (string * ctype) := [
  ("Magic", CUInt 32);
  ("Machine", CUInt 16);
  ("NumberOfSections", CUInt 16);
  ("TimeDateStamp", CUInt 32);
  ("PointerToSymbolTable", CUInt 32);
  ("NumberOfSymbols", CUInt 32);
  ("SizeOfOptionalHeader", CUInt 16);
  ("Characteristics", CUInt 16)].

(** struct pe_image_data_dir *)
Definition pe_image_data_dir : list (string * ctype) := [
  ("VirtualAddress", CUInt 32);
  ("Size", CUInt 32)].

(** struct pe_image_optional_hdr32 *)
Definition pe_image_optional_hdr32 : list (string * ctype) := [
  ("Magic", CUInt 16);
  ("MajorLinkerVersion", CUInt 8);
  ("MinorLinkerVersion", CUInt 8);
  ("SizeOfCode", CUInt 32);
  ("SizeOfInitializedData", CUInt 32);
  ("SizeOfUninitializedData", CUInt 32);
  ("AddressOfEntryPoint", CUInt 32);
  ("BaseOfCode", CUInt 32);
  ("BaseOfData", CUInt 32);
  ("ImageBase", CUInt 32);
  ("SectionAlignment", CUInt 32);
  ("FileAlignment", CUInt 32);
  ("MajorOperatingSystemVersion", CUInt 16);
  ("MinorOperatingSystemVersion", CUInt 16);
  ("MajorImageVersion", CUInt 16);
  ("MinorImageVersion", CUInt 16);
  ("MajorSubsystemVersion", CUInt 16);
  ("MinorSubsystemVersion", CUInt 16);
  ("Win32VersionValue", CUInt 32);
  ("SizeOfImage", CUInt 32);
  ("SizeOfHeaders", CUInt 32);
  ("CheckSum", CUInt 32);
  ("Subsystem", CUInt 16);
  ("DllCharacteristics", CUInt 16);
  ("SizeOfStackReserve", CUInt 32);
  ("SizeOfStackCommit", CUInt 32);
  ("SizeOfHeapReserve", CUInt 32);
  ("SizeOfHeapCommit", CUInt 32);
  ("LoaderFlags", CUInt 32);
  ("NumberOfRvaAndSizes", CUInt 32)].

(** struct pe_image_optional_hdr64 *)
Definition pe_image_optional_hdr64 : list (string * ctype) := [
  ("Magic", CUInt 16);
  ("MajorLinkerVersion", CUInt 8);
  ("MinorLinkerVersion", CUInt 8);
  ("SizeOfCode", CUInt 32);
  ("SizeOfInitializedData", CUInt 32);
  ("SizeOfUninitializedData", CUInt 32);
  ("AddressOfEntryPoint", CUInt 32);
  ("BaseOfCode", CUInt 32);
  ("ImageBase", CUInt 64);
  ("SectionAlignment", CUInt 32);
  ("FileAlignment", CUInt 32);
  ("MajorOperatingSystemVersion", CUInt 16);
  ("MinorOperatingSystemVersion", CUInt 16);
  ("MajorImageVersion", CUInt 16);
  ("MinorImageVersion", CUInt 16);
  ("MajorSubsystemVersion", CUInt 16);
  ("MinorSubsystemVersion", CUInt 16);
  ("Win32VersionValue", CUInt 32);
  ("SizeOfImage", CUInt 32);
  ("SizeOfHeaders", CUInt 32);
  ("CheckSum", CUInt 32);
  ("Subsystem", CUInt 16);
  ("DllCharacteristics", CUInt 16);
  ("SizeOfStackReserve", CUInt 64);
  ("SizeOfStackCommit", CUInt 64);
  ("SizeOfHeapReserve", CUInt 64);
  ("SizeOfHeapCommit", CUInt 64);
  ("LoaderFlags", CUInt 32);
  ("NumberOfRvaAndSizes", CUInt 32)].

(** struct pe_image_section_hdr *)
Definition pe_image_section_hdr : list (string * ctype) := [
  ("Name", CArr 8 (CUInt 8));
  ("VirtualSize", CUInt 32);
  ("VirtualAddress", CUInt 32);
  ("SizeOfRawData", CUInt 32);
  ("PointerToRawData", CUInt 32);
  ("PointerToRelocations", CUInt 32);
  ("PointerToLinenumbers", CUInt 32);
  ("NumberOfRelocations", CUInt 16);
  ("NumberOfLinenumbers", CUInt 16);
  ("Characteristics", CUInt 32)].

(** struct pe_certificate_hdr *)
Definition pe_certificate_hdr : list (string * ctype) := [
  ("length", CUInt 32);
  ("revision", CUInt 16);
  ("type", CUInt 16)].

(** struct cli_pe_hook_data *)
Definition cli_pe_hook_data : list (string * ctype) := [
  ("offset", CUInt 32);
  ("ep", CUInt 32);
  ("nsections", CUInt 16);
  ("dummy", CUInt 16);
  ("file_hdr", CStruct "pe_image_file_hdr");
  ("opt32", CStruct "pe_image_optional_hdr32");
  ("opt32_dirs", CArr 16 (CStruct "pe_image_data_dir"));
  ("dummy2", CUInt 32);
  ("opt64", CStruct "pe_image_optional_hdr64");
  ("opt64_dirs", CArr 16 (CStruct "pe_image_data_dir"));
  ("dirs", CArr 16 (CStruct "pe_image_data_dir"));
  ("e_lfanew", CUInt 32);
  ("overlays", CUInt 32);
  ("overlays_sz", CInt 32);
  ("hdr_size", CUInt 32)].

(** struct cli_exe_section *)
Definition cli_exe_section : list (string * ctype) := [
  ("rva", CUInt 32);
  ("vsz", CUInt 32);
  ("raw", CUInt 32);
  ("rsz", CUInt 32);
  ("chr", CUInt 32);
  ("urva", CUInt 32);
  ("uvsz", CUInt 32);
  ("uraw", CUInt 32);
  ("ursz", CUInt 32)].

(** struct DISASM_RESULT *)
Definition DISASM_RESULT : list (string * ctype) := [
  ("real_op", CUInt 16);
  ("opsize", CUInt 8);
  ("adsize", CUInt 8);
  ("segment", CUInt 8);
  ("arg", CArr 3 (CArr 10 (CUInt 8)));
  ("extra", CArr 29 (CUInt 8))].

(** struct cli_environment *)
Definition cli_environment : list (string * ctype) := [
  ("platform_id_a", CUInt 32);
  ("platform_id_b", CUInt 32);
  ("platform_id_c", CUInt 32);
  ("c_version", CUInt 32);
  ("cpp_version", CUInt 32);
  ("functionality_level", CUInt 32);
  ("dconf_level", CUInt 32);
  ("engine_version", CArr 65 (CInt 8));
  ("triple", CArr 65 (CInt 8));
  ("cpu", CArr 65 (CInt 8));
  ("sysname", CArr 65 (CInt 8));
  ("release", CArr 65 (CInt 8));
  ("version", CArr 65 (CInt 8));
  ("machine", CArr 65 (CInt 8));
  ("big_endian", CUInt 8);
  ("sizeof_ptr", CUInt 8);
  ("arch", CUInt 8);
  ("os_category", CUInt 8);
  ("os", CUInt 8);
  ("compiler", CUInt 8);
  ("has_jit_compiled", CUInt 8);
  ("os_features", CUInt 8);
  ("reserved0", CUInt 8)].


(** A structure of the tables, by its tag. *)
Definition structs : list (string * list (string * ctype)) := [
  ("pe_image_file_hdr", pe_image_file_hdr);
  ("pe_image_data_dir", pe_image_data_dir);
  ("pe_image_optional_hdr32", pe_image_optional_hdr32);
  ("pe_image_optional_hdr64", pe_image_optional_hdr64);
  ("pe_image_section_hdr", pe_image_section_hdr);
  ("pe_certificate_hdr", pe_certificate_hdr);
  ("cli_pe_hook_data", cli_pe_hook_data);
  ("cli_exe_section", cli_exe_section);
  ("DISASM_RESULT", DISASM_RESULT);
  ("cli_environment", cli_environment)].

Definition struct_fields (tag : string) : list (string * ctype) :=
  default [] (assoc tag structs).

(** ** Layout *)

Definition round_up (o a : Z) : Z := (o + a - 1) / a * a.

(** Size and alignment of a type, given the members of each structure tag;
    [fuel] bounds the nesting of structures. *)
Section layout.
Context (fields : string -> list (string * ctype)).

Fixpoint size_align (fuel : nat) : ctype -> Z * Z :=
  fix go (t : ctype) : Z * Z :=
  match t with
  | CVoid => (1, 1)
  | CUInt w | CInt w => (w / 8, w / 8)
  | CPtr _ => (8, 8)
  | CConst t => go t
  | CArr n t => let '(s, a) := go t in (n * s, a)
  | CStruct tag =>
      match fuel with
      | O => (0, 1)
      | S fuel =>
          let '(s, a) :=
            fold_left (fun '(o, al) '(_, t) =>
              let '(s, a) := size_align fuel t in
              (round_up o a + s, Z.max al a)) (fields tag) (0, 1) in
          (round_up s a, a)
      end
  end.

(** The members of a structure with their offsets. *)
Fixpoint offsets_from (fuel : nat) (o : Z) (fs : list (string * ctype))
    : list (string * (Z * ctype)) :=
  match fs with
  | [] => []
  | (f, t) :: fs =>
      let o := round_up o (snd (size_align fuel t)) in
      (f, (o, t)) :: offsets_from fuel (o + fst (size_align fuel t)) fs
  end.

(** The layout that inserts no padding: each member directly after the last. *)
Fixpoint packed_from (fuel : nat) (o : Z) (fs : list (string * ctype))
    : list (string * (Z * ctype)) :=
  match fs with
  | [] => []
  | (f, t) :: fs => (f, (o, t)) :: packed_from fuel (o + fst (size_align fuel t)) fs
  end.
Definition packed_size (fuel : nat) (fs : list (string * ctype)) : Z :=
  fold_right Z.add 0 (map (fun f => fst (size_align fuel (snd f))) fs).

(** No padding: the natural layout of the members is the packed one, and the
    structure's size is the sum of theirs. *)
Definition no_padding (fuel : nat) (tag : string) : Prop :=
  offsets_from fuel 0 (fields tag) = packed_from fuel 0 (fields tag) /\
  fst (size_align (S fuel) (CStruct tag)) = packed_size fuel (fields tag).
End layout.

(** Structures nest to depth two here ([cli_pe_hook_data] of headers). *)
Definition nesting : nat := 3.
Definition sizeof (t : ctype) : Z := fst (size_align struct_fields nesting t).
Definition alignof (t : ctype) : Z := snd (size_align struct_fields nesting t).
Definition offsets (tag : string) : list (string * (Z * ctype)) :=
  offsets_from struct_fields nesting 0 (struct_fields tag).
Definition member (tag f : string) : Z * ctype := default (-1, CVoid) (assoc f (offsets tag)).
Definition offsetof (tag f : string) : Z := fst (member tag f).

(** ** Memory *)

(** Little- and big-endian value of a byte string. *)
Fixpoint le_value (l : list Z) : Z :=
  match l with
  | [] => 0
  | b :: l => b + 256 * le_value l
  end.
Definition be_value (l : list Z) : Z := le_value (rev l).
Definition value (big : bool) (l : list Z) : Z := if big then be_value l else le_value l.

(** The [n] little-endian bytes of a value, and those of a host. *)
Fixpoint le_bytes (n : nat) (v : Z) : list Z :=
  match n with
  | O => []
  | S n => v mod 256 :: le_bytes n (v / 256)
  end.
Definition bytes_of (big : bool) (n : nat) (v : Z) : list Z :=
  if big then rev (le_bytes n v) else le_bytes n v.

(** [slice o n m]: the [n] bytes of the image [m] at offset [o]. *)
Definition slice (o : Z) (n : nat) (m : list Z) : list Z := take n (drop (Z.to_nat o) m).

(** The bytes an aligned or packed access of [n] bytes sees on a host. *)
Definition load (big : bool) (n : nat) (m : list Z) (o : Z) : Z := value big (slice o n m).

Definition byte (b : Z) : Prop := in_u 8 b.
Definition bytes (l : list Z) : Prop := Forall byte l.

(** ** Lemmas *)

Lemma le_value_range l : bytes l -> 0 <= le_value l < 256 ^ Z.of_nat (length l).
Proof.
  induction 1 as [|b l Hb _ IH]; [simpl; lia|].
  cbn [le_value length]. rewrite Nat2Z.inj_succ, Z.pow_succ_r by lia.
  unfold byte, in_u in Hb. pow2. lia.
Qed.

Lemma length_le_bytes n v : length (le_bytes n v) = n.
Proof. revert v; induction n; intros; simpl; auto. Qed.

Lemma length_bytes_of big n v : length (bytes_of big n v) = n.
Proof. destruct big; simpl; rewrite ?length_rev; apply length_le_bytes. Qed.

Lemma le_bytes_bytes n v : bytes (le_bytes n v).
Proof.
  revert v; induction n; intros; simpl; constructor; [|apply IHn].
  apply (Z.mod_pos_bound v 256). lia.
Qed.

Lemma bytes_of_bytes big n v : bytes (bytes_of big n v).
Proof. destruct big; simpl; [apply Forall_rev|]; apply le_bytes_bytes. Qed.

Lemma le_value_bytes n v : le_value (le_bytes n v) = v mod 256 ^ Z.of_nat n.
Proof.
  revert v; induction n as [|n IH]; intros v; [simpl; now rewrite Z.mod_1_r|].
  cbn [le_bytes le_value]. rewrite IH, Nat2Z.inj_succ, Z.pow_succ_r by lia.
  rewrite Z.rem_mul_r by lia. lia.
Qed.

Lemma le_bytes_value l : bytes l -> le_bytes (length l) (le_value l) = l.
Proof.
  induction 1 as [|b l Hb _ IH]; [done|].
  unfold byte, in_u in Hb. pow2. cbn [length le_bytes le_value].
  rewrite (Z.mul_comm 256), Z_mod_plus_full, Z.mod_small by lia.
  rewrite Z.div_add by lia. rewrite Z.div_small, Z.add_0_l, IH by lia. done.
Qed.

Lemma value_range big l : bytes l -> 0 <= value big l < 256 ^ Z.of_nat (length l).
Proof.
  intros H. destruct big; simpl; [|now apply le_value_range].
  unfold be_value. rewrite <- (length_rev l). now apply le_value_range, Forall_rev.
Qed.

(** Storing with a host's byte order and loading with it is the identity. *)
Lemma value_bytes_of big n v : value big (bytes_of big n v) = v mod 256 ^ Z.of_nat n.
Proof.
  destruct big; simpl; [unfold be_value; rewrite rev_involutive|]; apply le_value_bytes.
Qed.

Lemma bytes_slice o n m : bytes m -> bytes (slice o n m).
Proof. intros. apply Forall_take, Forall_drop, H. Qed.

Lemma length_slice o n m :
  0 <= o -> o + Z.of_nat n <= Z.of_nat (length m) -> length (slice o n m) = n.
Proof. intros. unfold slice. rewrite length_take, length_drop. lia. Qed.

Lemma slice_take o n k (l : list Z) :
  (Z.to_nat o + n <= k)%nat -> slice o n (take k l) = slice o n l.
Proof.
  intros Hk. unfold slice. rewrite !take_drop_commute, take_take. do 2 f_equal. lia.
Qed.

Lemma slice_slice o n o' n' (l : list Z) :
  0 <= o -> 0 <= o' -> (Z.to_nat o' + n' <= n)%nat ->
  slice o' n' (slice o n l) = slice (o + o') n' l.
Proof.
  intros Ho Ho' Hn. unfold slice at 2. rewrite slice_take by lia.
  unfold slice. rewrite drop_drop. do 2 f_equal. lia.
Qed.

Lemma slice_app_split o n k (l : list Z) :
  0 <= o -> slice o (n + k) l = (slice o n l ++ slice (o + Z.of_nat n) k l)%list.
Proof.
  intros Ho. unfold slice. rewrite <- (take_take_drop (drop _ l) n k).
  rewrite drop_drop. do 3 f_equal. lia.
Qed.

Lemma slice_head n (l : list Z) : slice 0 n l = take n l.
Proof. unfold slice. now rewrite drop_0. Qed.

Lemma bytes_take n l : bytes l -> bytes (take n l).
Proof. apply Forall_take. Qed.
Lemma bytes_drop n l : bytes l -> bytes (drop n l).
Proof. apply Forall_drop. Qed.
Lemma bytes_rev l : bytes l -> bytes (rev l).
Proof. apply Forall_rev. Qed.
Lemma bytes_app l1 l2 : bytes l1 -> bytes l2 -> bytes (l1 ++ l2)%list.
Proof. intros. now apply Forall_app. Qed.

#[export] Hint Resolve bytes_take bytes_drop bytes_rev bytes_app le_bytes_bytes bytes_of_bytes bytes_slice : clambc.
#[export] Hint Rewrite length_le_bytes length_bytes_of : clambc_len.

(** ** The layout of the shared structures *)

(** The structures exchanged with libclamav have no padding under the
    target's alignment rules (the two [dummy] members of the hook data are
    exactly the padding it would otherwise need), so their images are the
    concatenation of their fields, with the sizes the file formats prescribe. *)
Theorem shared_structs_unpadded :
  Forall (no_padding struct_fields nesting) (map fst structs)
  /\ map (fun t => sizeof (CStruct t))
       ["pe_image_file_hdr"; "pe_image_data_dir"; "pe_image_optional_hdr32";
        "pe_image_optional_hdr64"; "pe_image_section_hdr"; "cli_pe_hook_data";
        "cli_exe_section"; "DISASM_RESULT"; "cli_environment"]
     = [24; 8; 96; 112; 40; 648; 36; 64; 492]
  /\ (forall tag, In tag (map fst structs) ->
        Forall (fun f => 0 <= f.2.1 /\ f.2.1 + sizeof f.2.2 <= sizeof (CStruct tag))
               (offsets tag)).
Proof.
  split; [repeat (constructor; [split; vm_compute; reflexivity|]); constructor|].
  split; [vm_compute; reflexivity|].
  intros tag Htag. simpl in Htag.
  repeat destruct Htag as [<-|Htag]; try done;
    apply (bool_decide_unpack _); vm_compute; reflexivity.
Qed.
