(* ===== verification/Host.v ===== *)
(** * Host: libclamav as the runtime header sees it

    The functions of headers/bytecode_api.h that headers/bytecode_local.h
    calls are implemented by libclamav, outside this repository. Here they are
    a record of operations on an abstract engine state, and the behaviour
    bytecode_api.h documents is a type class of laws. [FileEngine] is one
    concrete engine: a file held in memory. *)
From S2P Require Import Prelude Enums Layout.

(** ** The interface *)

Record libclamav (S : Type) := {
  (** read(data, size): amount read, the bytes stored in the buffer *)
  read : S -> Z -> Z * list Z * S;
  (** seek(pos, whence): absolute position in file *)
  seek : S -> Z -> Z -> Z * S;
  (** file_find_limit(data, len, maxpos) *)
  file_find_limit : S -> list Z -> Z -> Z -> Z * S;
  (** fill_buffer(buffer, len, filled, cursor, fill): result, new buffer *)
  fill_buffer : S -> list Z -> Z -> Z -> Z -> Z -> Z * list Z * S;
  (** disasm_x86(result, len): status, the bytes of the result structure *)
  disasm_x86 : S -> list Z -> Z -> Z * list Z * S;
  setvirusname : S -> list Z -> Z -> S;
  debug_print_str : S -> list Z -> Z -> S;
  debug_print_uint : S -> Z -> S;
  pe_rawaddr : S -> Z -> Z;
  (** get_pe_section(section, num): status, the bytes of the section *)
  get_pe_section : S -> list Z -> Z -> Z * list Z;
  engine_functionality_level : Z;
  is_bigendian : bool;
  (** the globals of bytecode_api.h; [pedata] is the image of the structure *)
  match_counts : list Z;
  match_offsets : list Z;
  filesize : Z;
  pedata : list Z
}.
Arguments read {S}. Arguments seek {S}. Arguments file_find_limit {S}.
Arguments fill_buffer {S}. Arguments disasm_x86 {S}. Arguments setvirusname {S}.
Arguments debug_print_str {S}. Arguments debug_print_uint {S}.
Arguments pe_rawaddr {S}. Arguments get_pe_section {S}.
Arguments engine_functionality_level {S}. Arguments is_bigendian {S}.
Arguments match_counts {S}. Arguments match_offsets {S}.
Arguments filesize {S}. Arguments pedata {S}.

Definition SEEK_SET : Z := Eval vm_compute in ev SEEK "SEEK_SET"%string.
Definition SEEK_CUR : Z := Eval vm_compute in ev SEEK "SEEK_CUR"%string.

(** ** The documented behaviour of the file functions

    [content] is the scanned file and [pos] the current position. A seek
    either returns the new absolute position or -1 and leaves the state; a
    read returns the amount read, which is the requested amount when the file
    has that many bytes left, and moves the position by it; a match reported
    by file_find_limit is a match below the limit; after a successful
    fill_buffer the byte at the cursor is at offset 0 and the bytes from there
    on are the rest of the buffer followed by bytes read from the file. *)
Class FileLaws {S : Type} (L : libclamav S) (ok : S -> Prop)
    (content : S -> list Z) (pos : S -> Z) := {
  pos_range : forall s, ok s -> 0 <= pos s < 2 ^ 31;
  content_bytes : forall s, ok s -> bytes (content s);
  seek_set : forall s p r s', ok s -> seek L s p SEEK_SET = (r, s') ->
    ok s' /\ content s' = content s /\ ((r = p /\ pos s' = p) \/ (r = -1 /\ s' = s));
  seek_set_inside : forall s p, ok s ->
    0 <= p <= Z.of_nat (length (content s)) -> p < 2 ^ 31 ->
    fst (seek L s p SEEK_SET) = p;
  seek_cur : forall s, ok s -> seek L s 0 SEEK_CUR = (pos s, s);
  read_law : forall s n r bs s', ok s -> 0 <= n < 2 ^ 31 -> read L s n = (r, bs, s') ->
    ok s' /\ content s' = content s /\
    (0 <= r -> r <= n /\ pos s' = pos s + r /\ bs = slice (pos s) (Z.to_nat r) (content s));
  read_inside : forall s n r bs s', ok s -> 0 <= n < 2 ^ 31 ->
    pos s + n <= Z.of_nat (length (content s)) -> read L s n = (r, bs, s') -> r = n;
  find_law : forall s data len maxpos r s', ok s -> 0 <= len ->
    file_find_limit L s data len maxpos = (r, s') ->
    ok s' /\ content s' = content s /\
    (r <> -1 -> 0 <= r /\ r + len < maxpos /\
                r + len <= Z.of_nat (length (content s)) /\
                slice r (Z.to_nat len) (content s) = take (Z.to_nat len) data);
  fill_law : forall s buf len filled cursor fill n buf' s', ok s ->
    length buf = Z.to_nat len -> 0 <= cursor <= filled -> filled <= len ->
    fill_buffer L s buf len filled cursor fill = (n, buf', s') -> 0 < n ->
    ok s' /\ content s' = content s /\ length buf' = length buf /\
    filled - cursor <= n <= len /\
    pos s' = pos s + (n - (filled - cursor)) /\
    take (Z.to_nat n) buf' =
      slice cursor (Z.to_nat (filled - cursor)) buf
      ++ slice (pos s) (Z.to_nat (n - (filled - cursor))) (content s);
  debug_str_quiet : forall s str len, ok s ->
    ok (debug_print_str L s str len) /\
    content (debug_print_str L s str len) = content s /\
    pos (debug_print_str L s str len) = pos s;
  debug_uint_quiet : forall s v, ok s ->
    ok (debug_print_uint L s v) /\
    content (debug_print_uint L s v) = content s /\ pos (debug_print_uint L s v) = pos s
}.

(** ** An engine that scans a file in memory *)

Record file_engine := {
  fe_content : list Z; fe_pos : Z;
  fe_log : list (list Z + Z); fe_virus : option (list Z)
}.

Definition fe_seek (s : file_engine) (p whence : Z) : Z * file_engine :=
  let at_ := if whence =? SEEK_SET then p
             else if whence =? SEEK_CUR then fe_pos s + p
             else Z.of_nat (length (fe_content s)) + p in
  if (0 <=? at_) && (at_ <=? Z.of_nat (length (fe_content s))) && (at_ <? 2 ^ 31)
  then (at_, {| fe_content := fe_content s; fe_pos := at_;
                fe_log := fe_log s; fe_virus := fe_virus s |})
  else (-1, s).

Definition fe_advance (s : file_engine) (n : Z) : list Z * file_engine :=
  let k := Z.min n (Z.of_nat (length (fe_content s)) - fe_pos s) in
  (slice (fe_pos s) (Z.to_nat k) (fe_content s),
   {| fe_content := fe_content s; fe_pos := fe_pos s + k;
      fe_log := fe_log s; fe_virus := fe_virus s |}).

Definition fe_read (s : file_engine) (n : Z) : Z * list Z * file_engine :=
  let '(bs, s') := fe_advance s (Z.max 0 n) in (Z.of_nat (length bs), bs, s').

(** First offset at or after [o] where [needle] occurs and ends before [maxpos]. *)
Fixpoint find_from (fuel : nat) (c needle : list Z) (o maxpos : Z) : Z :=
  match fuel with
  | O => -1
  | S fuel =>
      let n := length needle in
      if bool_decide (slice o n c = needle) && (o + Z.of_nat n <=? Z.of_nat (length c))
         && (o + Z.of_nat n <? maxpos)
      then o else find_from fuel c needle (o + 1) maxpos
  end.

Definition fe_find (s : file_engine) (data : list Z) (len maxpos : Z) : Z * file_engine :=
  (if (0 <=? len) && (len <=? Z.of_nat (length data)) then
     find_from (S (length (fe_content s))) (fe_content s) (take (Z.to_nat len) data)
               (fe_pos s) maxpos
   else -1, s).

Definition fe_fill (s : file_engine) (buf : list Z) (len filled cursor fill : Z)
    : Z * list Z * file_engine :=
  let kept := slice cursor (Z.to_nat (filled - cursor)) buf in
  let '(bs, s') := fe_advance s (len - (filled - cursor)) in
  let data := kept ++ bs in
  (Z.of_nat (length data), data ++ drop (length data) buf, s').

Definition fe_log_add (s : file_engine) (e : list Z + Z) : file_engine :=
  {| fe_content := fe_content s; fe_pos := fe_pos s;
     fe_log := fe_log s ++ [e]; fe_virus := fe_virus s |}.

(** [engine lvl big counts offs pe]: the in-memory engine at a functionality
    level and byte order, with the given globals and an identity RVA map. *)
Definition engine (lvl : Z) (big : bool) (counts offs pe : list Z) : libclamav file_engine := {|
  read := fe_read; seek := fe_seek; file_find_limit := fe_find; fill_buffer := fe_fill;
  disasm_x86 := fun s res _ => (0, res, s);
  setvirusname := fun s name _ =>
    {| fe_content := fe_content s; fe_pos := fe_pos s; fe_log := fe_log s; fe_virus := Some name |};
  debug_print_str := fun s str _ => fe_log_add s (inl str);
  debug_print_uint := fun s v => fe_log_add s (inr v);
  pe_rawaddr := fun _ rva => rva;
  get_pe_section := fun _ section _ => (-1, section);
  engine_functionality_level := lvl; is_bigendian := big;
  match_counts := counts; match_offsets := offs; filesize := 0; pedata := pe
|}.

(** Files an engine can hold: bytes, below 2 GiB, position inside. *)
Definition fe_ok (s : file_engine) : Prop :=
  bytes (fe_content s) /\ 0 <= fe_pos s <= Z.of_nat (length (fe_content s)) /\
  Z.of_nat (length (fe_content s)) < 2 ^ 31.

Lemma fe_advance_spec s n bs s' : fe_ok s -> 0 <= n -> fe_advance s n = (bs, s') ->
  fe_ok s' /\ fe_content s' = fe_content s /\
  Z.of_nat (length bs) = Z.min n (Z.of_nat (length (fe_content s)) - fe_pos s) /\
  fe_pos s' = fe_pos s + Z.of_nat (length bs) /\
  bs = slice (fe_pos s) (length bs) (fe_content s).
Proof.
  intros (Hb & Hp & Hl) Hn [= <- <-]. unfold fe_ok. cbn [fe_content fe_pos].
  rewrite !length_slice by lia. rewrite !Z2Nat.id by lia. repeat split; auto; lia.
Qed.

Lemma find_from_spec fuel c needle o maxpos r :
  0 <= o -> find_from fuel c needle o maxpos = r -> r <> -1 ->
  o <= r /\ r + Z.of_nat (length needle) < maxpos /\
  r + Z.of_nat (length needle) <= Z.of_nat (length c) /\ slice r (length needle) c = needle.
Proof.
  revert o. induction fuel as [|fuel IH]; simpl; intros o Ho <- Hr; [done|].
  destruct (bool_decide _ && _ && _) eqn:E.
  - rewrite !andb_true_iff, bool_decide_eq_true, Z.leb_le, Z.ltb_lt in E.
    destruct E as [[??]?]. repeat split; auto; lia.
  - destruct (IH (o + 1) ltac:(lia) eq_refl Hr) as (? & ?). split; [lia|done].
Qed.

#[export] Instance engine_laws lvl big counts offs pe :
  FileLaws (engine lvl big counts offs pe) fe_ok fe_content fe_pos.
Proof.
  constructor; cbn [engine read seek file_find_limit fill_buffer debug_print_str debug_print_uint].
  - intros s (?&?&?). lia.
  - now intros s (?&?&?).
  - intros s p r s' Hs. unfold fe_seek. simpl (_ =? _). cbv zeta iota.
    destruct (_ && _) eqn:E; intros [= <- <-]; [|auto].
    rewrite !andb_true_iff, !Z.leb_le, Z.ltb_lt in E. destruct Hs as (?&?&?).
    split; [repeat split; simpl; auto; lia|auto].
  - intros s p Hs Hp Hp'. unfold fe_seek. simpl (_ =? _). cbv zeta iota.
    rewrite !(proj2 (Z.leb_le _ _)), (proj2 (Z.ltb_lt _ _)) by lia. done.
  - intros s (?&?&?). unfold fe_seek. simpl (_ =? _). cbv zeta iota. rewrite Z.add_0_r.
    rewrite !(proj2 (Z.leb_le _ _)), (proj2 (Z.ltb_lt _ _)) by lia. destruct s; done.
  - intros s n r bs s' Hs Hn. unfold fe_read.
    destruct (fe_advance s _) as [bs0 s0] eqn:E. intros [= <- <- <-].
    apply fe_advance_spec in E as (? & ? & ? & ? & ?); [|done|lia].
    rewrite Nat2Z.id. split; [done|]. repeat split; auto; lia.
  - intros s n r bs s' Hs Hn Hin. unfold fe_read.
    destruct (fe_advance s _) as [bs0 s0] eqn:E. intros [= <- <- <-].
    apply fe_advance_spec in E as (? & ? & ? & ? & ?); [|done|lia]. lia.
  - intros s data len maxpos r s' Hs Hlen. unfold fe_find. intros H. apply pair_equal_spec in H as [Hr <-].
    split; [done|]. split; [done|]. intros Hne.
    destruct ((0 <=? len) && _) eqn:E; [|congruence].
    rewrite andb_true_iff, !Z.leb_le in E. destruct Hs as (?&?&?).
    apply find_from_spec in Hr as (? & H3 & H4 & H5); [|lia|done].
    rewrite length_take in H3, H4, H5. rewrite Nat.min_l in H3, H4, H5 by lia.
    rewrite Z2Nat.id in H3, H4 by lia. repeat split; auto; lia.
  - intros s buf len filled cursor fill n buf' s' Hs Hb Hc Hf. unfold fe_fill.
    destruct (fe_advance s _) as [bs0 s0] eqn:E. intros [= <- <- <-] Hn.
    apply fe_advance_spec in E as (Hs' & ? & Hlen & Hpos & Hbs); [|done|lia].
    set (kept := slice cursor (Z.to_nat (filled - cursor)) buf) in *.
    assert (Hk : length kept = Z.to_nat (filled - cursor)) by (apply length_slice; lia).
    assert (Hd : Z.of_nat (length (kept ++ bs0)) = filled - cursor + Z.of_nat (length bs0)).
    { rewrite length_app, Hk. lia. }
    destruct Hs as (?&?&?). rewrite Hd.
    replace (filled - cursor + Z.of_nat (length bs0) - (filled - cursor))
      with (Z.of_nat (length bs0)) by lia.
    split; [done|]. split; [done|]. split.
    { rewrite length_app, length_drop. lia. }
    split; [lia|]. split; [done|].
    rewrite Nat2Z.id, <- Hbs. apply firstn_exact. lia.
  - intros s str len Hs. auto.
  - intros s v Hs. auto.
Qed.
