(* ===== verification/Local.v ===== *)
(** * Local: the runtime helpers of headers/bytecode_local.h

    Endianness conversions, signature matching, virus names, buffers and the
    re2c scanner macros. The PE accessors are in PE.v and the disassembler
    wrapper in Disasm.v. libclamav is the [libclamav] record of Host.v. *)
From S2P Require Import Prelude Enums Layout Host.

(** ** Byte order *)

(** The compiler builtins: reverse the bytes of a 32- or 64-bit value. *)
Definition bswap (n : nat) (v : Z) : Z := le_value (rev (le_bytes n v)).
Definition builtin_bswap32 (v : Z) : Z := bswap 4 v.
Definition builtin_bswap64 (v : Z) : Z := bswap 8 v.

Section byte_order.
Context (is_bigendian : bool).

Definition le32_to_host (v : Z) : Z :=
  let v := u32 v in
  let swapped := builtin_bswap32 v in if is_bigendian then swapped else v.
Definition be32_to_host (v : Z) : Z :=
  let v := u32 v in
  let swapped := builtin_bswap32 v in if is_bigendian then v else swapped.
Definition le64_to_host (v : Z) : Z :=
  let v := u64 v in
  let swapped := builtin_bswap64 v in if is_bigendian then swapped else v.
Definition be64_to_host (v : Z) : Z :=
  let v := u64 v in
  let swapped := builtin_bswap64 v in if is_bigendian then v else swapped.
Definition swap16 (v : Z) : Z :=
  u16 (Z.lor (Z.shiftl (Z.land v 0xff) 8) (Z.land (Z.shiftr v 8) 0xff)).
Definition le16_to_host (v : Z) : Z :=
  let v := u16 v in
  let swapped := swap16 v in if is_bigendian then swapped else v.
Definition be16_to_host (v : Z) : Z :=
  let v := u16 v in
  let swapped := swap16 v in if is_bigendian then v else swapped.

(** [buff] is the memory from the pointer on. The union is read through its
    signed member and assigned to an unsigned variable. *)
Definition cli_readint32 (buff : list Z) : Z :=
  let v := u32 (s32 (load is_bigendian 4 buff 0)) in le32_to_host v.
Definition cli_readint16 (buff : list Z) : Z :=
  let v := u16 (s16 (load is_bigendian 2 buff 0)) in le16_to_host v.
Definition cli_writeint32 (offset : list Z) (v : Z) : list Z :=
  bytes_of is_bigendian 4 (le32_to_host v) ++ drop 4 offset.
End byte_order.

(** ** Signatures *)

(** SIGNATURES_DEF_BEGIN evaluates __COUNTER__ once for the bias, and each
    DEFINE_SIGNATURE once more; the id is an unsigned difference stored in the
    64-bit member. The first argument is the counter's current value. *)
Fixpoint define_signatures (counter bias : Z) (defs : list (string * string))
    : list (string * (string * Z)) :=
  match defs with
  | [] => []
  | (name, hex) :: defs =>
      (name, (hex, u64 (u32 (counter - bias)))) :: define_signatures (counter + 1) bias defs
  end.
Definition signatures_def (counter : Z) (defs : list (string * string)) :=
  define_signatures (counter + 1) (u32 (counter + 1)) defs.

Section runtime.
Context {S : Type} (L : libclamav S).

(** Indexing a global array out of its bounds is not a result: [None]. *)
Definition count_match (sig_id : Z) : option Z := match_counts L !! Z.to_nat sig_id.
Definition matches (sig_id : Z) : option Z :=
  c ← match_counts L !! Z.to_nat sig_id; Some (if c =? 0 then 0 else 1).

Definition FUNC_LEVEL_096_1 : Z := ev FunctionalityLevels "FUNC_LEVEL_096_1"%string.
Definition FUNC_LEVEL_096_1_dev : Z := ev FunctionalityLevels "FUNC_LEVEL_096_1_dev"%string.

Definition match_location (sig_id goback : Z) : option Z :=
  o ← match_offsets L !! Z.to_nat sig_id;
  let pos := s32 o in
  let pos := if engine_functionality_level L <=? FUNC_LEVEL_096_1 then
               let pos := s32 (u32 (u32 pos - u32 goback)) in
               if pos <=? 0 then 0 else pos
             else pos in
  Some (u32 pos).

Definition debug (s : S) (str : string) : S := debug_print_str L s (codes str) 0.
Definition debug_uint (s : S) (a : Z) : S := debug_print_uint L s (u32 a).

Definition match_location_check (s : S) (sig_id goback : Z) (static_start : list Z)
    (static_len : Z) : option (Z * S) :=
  l ← match_location sig_id goback;
  let pos := s32 l in
  let '(r, s) := seek L s pos SEEK_SET in
  if negb (r =? pos) then Some (-1, s) else
  let '(cpos, s) := file_find_limit L s static_start static_len
                      (s32 (u32 (u32 pos + u32 goback))) in
  if cpos =? -1 then
    let s := debug s "Engine reported match, but we couldn't find it! Engine reported (after fixup):" in
    let s := debug_uint s pos in Some (-1, s)
  else
  let '(r, s) := seek L s cpos SEEK_SET in
  if negb (r =? cpos) then Some (-1, s) else
  let s :=
    if negb (cpos =? pos) && (FUNC_LEVEL_096_1_dev <=? engine_functionality_level L) then
      let s := debug s "wrong match pos reported by engine, real match pos:" in
      let s := debug_uint s cpos in
      let s := debug s "reported by engine:" in
      let s := debug_uint s pos in
      debug s "but goback fixed it up!"
    else s in
  Some (cpos, s).

Definition foundVirus (s : S) (virusname : string) : S := setvirusname L s (codes virusname) 0.
Definition foundVirus0 (s : S) : S := foundVirus s "".
Definition getFilesize : Z := filesize L.

(** ** Strings *)

(** The buffer as the bytes at the pointer; the result is the index of the
    match. [char] is signed on this target ([int8_t] is [char]). *)
Fixpoint memchr_from (p : list Z) (i n : Z) (fuel : nat) (cc : Z) : option Z :=
  match fuel, p with
  | Datatypes.S fuel, b :: p =>
      if i <? n then
        if s8 b =? cc then Some i else memchr_from p (i + 1) n fuel cc
      else None
  | _, _ => None
  end.
Definition memchr (s : list Z) (c n : Z) : option Z :=
  let cc := u8 c in memchr_from s 0 n (Z.to_nat n) cc.

(** ** Buffers *)

(** The result is the new limit (and buffer); BUFFER_ENSURE also the cursor. *)
Definition BUFFER_FILL (s : S) (buf : list Z) (cursor need limit : Z) : Z * list Z * S :=
  fill_buffer L s buf (Z.of_nat (length buf)) limit cursor need.
Definition BUFFER_ENSURE (s : S) (buf : list Z) (cursor need limit : Z)
    : Z * Z * list Z * S :=
  if limit <=? cursor + need then
    let '(limit, buf, s) := BUFFER_FILL s buf cursor need limit in (0, limit, buf, s)
  else (cursor, limit, buf, s).

(** ** The re2c scanner *)

Definition RE2C_BSIZE : Z := 1024.

(** The variables REGEX_SCANNER declares; pointers are offsets into the buffer. *)
Record scanner := {
  re2c_scur : Z; re2c_stok : Z; re2c_smrk : Z; re2c_sctx : Z; re2c_slim : Z;
  re2c_sres : Z; re2c_stokstart : Z; re2c_sbuffer : list Z
}.

Definition set_sres (r : Z) (buf : list Z) (m : scanner) : scanner :=
  {| re2c_scur := re2c_scur m; re2c_stok := re2c_stok m; re2c_smrk := re2c_smrk m;
     re2c_sctx := re2c_sctx m; re2c_slim := re2c_slim m; re2c_sres := r;
     re2c_stokstart := re2c_stokstart m; re2c_sbuffer := buf |}.

Definition RE2C_FILLBUFFER (need : Z) (m : scanner) (s : S) : scanner * S :=
  let cursor := u32 (re2c_stok m) in
  let limit := s32 (re2c_slim m) in
  let '(limit, buf, s) :=
    fill_buffer L s (re2c_sbuffer m) RE2C_BSIZE (u32 limit) cursor need in
  if limit =? 0 then (set_sres 0 buf m, s)
  else if limit <=? need then (set_sres (-1) buf m, s)
  else
    let curoff := u32 (re2c_scur m - re2c_stok m) in
    let mrkoff := u32 (re2c_smrk m - re2c_stok m) in
    let ctxoff := u32 (re2c_sctx m - re2c_stok m) in
    ({| re2c_scur := curoff; re2c_stok := 0; re2c_smrk := mrkoff; re2c_sctx := ctxoff;
        re2c_slim := limit; re2c_sres := limit;
        re2c_stokstart := re2c_stokstart m; re2c_sbuffer := buf |}, s).

(** The value of the uninitialised [re2c_stok] when REGEX_SCANNER first fills
    the buffer, the uninitialised [re2c_stokstart] and buffer are arguments. *)
Definition REGEX_SCANNER (stok stokstart : Z) (buf : list Z) (s : S) : scanner * S :=
  RE2C_FILLBUFFER 0
    {| re2c_scur := 0; re2c_stok := stok; re2c_smrk := 0; re2c_sctx := 0; re2c_slim := 0;
       re2c_sres := 0; re2c_stokstart := stokstart; re2c_sbuffer := buf |} s.

Definition REGEX_POS (m : scanner) (s : S) : Z * S :=
  let '(p, s) := seek L s 0 SEEK_CUR in (- (re2c_slim m - re2c_scur m) + p, s).

Definition REGEX_LOOP_BEGIN (m : scanner) (s : S) : scanner * S :=
  let '(p, s) := REGEX_POS m s in
  ({| re2c_scur := re2c_scur m; re2c_stok := re2c_scur m; re2c_smrk := re2c_smrk m;
      re2c_sctx := re2c_sctx m; re2c_slim := re2c_slim m; re2c_sres := re2c_sres m;
      re2c_stokstart := s32 p; re2c_sbuffer := re2c_sbuffer m |}, s).

Definition REGEX_RESULT (m : scanner) : Z := re2c_sres m.

(** YYFILL: refill; [true] when the scanner loop is left. *)
Definition YYFILL (n : Z) (m : scanner) (s : S) : bool * scanner * S :=
  let '(m, s) := RE2C_FILLBUFFER n m s in (re2c_sres m <=? 0, m, s).

(** Store [bs] in [buf] from offset [o] on. *)
Definition store (o : nat) (bs buf : list Z) : list Z :=
  take o buf ++ bs ++ drop (o + length bs) buf.

(** The local [buf] is 81 uninitialised bytes; a [break] leaves the macro. *)
Definition RE2C_DEBUG_PRINT (buf : list Z) (m : scanner) (s : S) : S :=
  let '(here, s) := seek L s 0 SEEK_CUR in
  let here := u32 here in
  let d := u32 (re2c_slim m - re2c_scur m) in
  let end_ := u32 (here - d) in
  let len := u32 (end_ - u32 (re2c_stokstart m)) in
  let finish buf s :=
    let buf := store 80 [0] buf in
    let s := debug_print_str L s buf 0 in
    (seek L s (s32 here) SEEK_SET).2 in
  if 80 <? len then
    let '(_, s) := seek L s (re2c_stokstart m) SEEK_SET in
    let '(r, bs, s) := read L s 37 in
    let buf := store 0 bs buf in
    if r =? 37 then s else
    let buf := store 37 (codes "[...]") buf in
    let '(_, s) := seek L s (s32 (u32 (end_ - 37))) SEEK_SET in
    let '(r, bs, s) := read L s 37 in
    let buf := store 0 bs buf in
    if negb (r =? 37) then s else finish (store 80 [0] buf) s
  else
    let '(_, s) := seek L s (re2c_stokstart m) SEEK_SET in
    let '(r, bs, s) := read L s (s32 len) in
    let buf := store 0 bs buf in
    if negb (u32 r =? len) then s else finish (store (Z.to_nat len) [0] buf) s.
End runtime.

(** ** Byte order: every conversion undoes the host's byte order *)

Lemma bswap_le_value n l : bytes l -> length l = n -> bswap n (le_value l) = be_value l.
Proof. intros H <-. unfold bswap. now rewrite le_bytes_value. Qed.

Lemma bswap_be_value n l : bytes l -> length l = n -> bswap n (be_value l) = le_value l.
Proof.
  intros H <-. unfold bswap, be_value. rewrite <- (length_rev l).
  now rewrite le_bytes_value, rev_involutive by auto with clambc.
Qed.

Lemma swap16_bswap v : in_u 16 v -> swap16 v = bswap 2 v.
Proof.
  intros Hv. unfold swap16, bswap. cbn [le_bytes rev app le_value].
  change 0xff with (Z.ones 8). rewrite !Z.land_ones by lia.
  pose proof (Z.add_lor_land (Z.shiftl (v mod 2 ^ 8) 8) (Z.shiftr v 8 mod 2 ^ 8)) as E.
  assert (E0 : Z.land (Z.shiftl (v mod 2 ^ 8) 8) (Z.shiftr v 8 mod 2 ^ 8) = 0).
  2: { rewrite E0 in E. rewrite Z.shiftl_mul_pow2, Z.shiftr_div_pow2 in * by lia.
    unfold u16, wrap. unfold in_u in Hv. pow2. Z.div_mod_to_equations. lia. }
  - apply Z.bits_inj. intros k. rewrite Z.land_spec, Z.bits_0.
    destruct (Z.ltb_spec k 0); [now rewrite Z.testbit_neg_r|].
    rewrite Z.shiftl_spec by lia. destruct (Z.ltb_spec k 8).
    + now rewrite (Z.testbit_neg_r _ (k - 8)) by lia.
    + rewrite (Z.mod_pow2_bits_high _ 8 k) by lia. apply andb_false_r.
Qed.

Section host_conversions.
Context (e : bool).

Lemma value_in_u n l : bytes l -> length l = n -> in_u (8 * Z.of_nat n) (value e l).
Proof.
  intros H <-. unfold in_u. rewrite Z.pow_mul_r by lia. now apply value_range.
Qed.

Lemma le32_to_host_value l : bytes l -> length l = 4%nat -> le32_to_host e (value e l) = le_value l.
Proof.
  intros H Hl. pose proof (value_in_u 4 l H Hl) as Hr. unfold le32_to_host, u32.
  rewrite wrap_small by done. cbv zeta. destruct e; [now apply bswap_be_value|done].
Qed.

Lemma be32_to_host_value l : bytes l -> length l = 4%nat -> be32_to_host e (value e l) = be_value l.
Proof.
  intros H Hl. pose proof (value_in_u 4 l H Hl) as Hr. unfold be32_to_host, u32.
  rewrite wrap_small by done. cbv zeta. destruct e; [done|now apply bswap_le_value].
Qed.

Lemma le64_to_host_value l : bytes l -> length l = 8%nat -> le64_to_host e (value e l) = le_value l.
Proof.
  intros H Hl. pose proof (value_in_u 8 l H Hl) as Hr. unfold le64_to_host, u64.
  rewrite wrap_small by done. cbv zeta. destruct e; [now apply bswap_be_value|done].
Qed.

Lemma be64_to_host_value l : bytes l -> length l = 8%nat -> be64_to_host e (value e l) = be_value l.
Proof.
  intros H Hl. pose proof (value_in_u 8 l H Hl) as Hr. unfold be64_to_host, u64.
  rewrite wrap_small by done. cbv zeta. destruct e; [done|now apply bswap_le_value].
Qed.

Lemma le16_to_host_value l : bytes l -> length l = 2%nat -> le16_to_host e (value e l) = le_value l.
Proof.
  intros H Hl. pose proof (value_in_u 2 l H Hl) as Hr. unfold le16_to_host, u16.
  rewrite wrap_small by done. cbv zeta. rewrite swap16_bswap by done.
  destruct e; [now apply bswap_be_value|done].
Qed.

Lemma be16_to_host_value l : bytes l -> length l = 2%nat -> be16_to_host e (value e l) = be_value l.
Proof.
  intros H Hl. pose proof (value_in_u 2 l H Hl) as Hr. unfold be16_to_host, u16.
  rewrite wrap_small by done. cbv zeta. rewrite swap16_bswap by done.
  destruct e; [done|now apply bswap_le_value].
Qed.

(** Sign-extending and truncating again loses nothing. *)
Lemma u32_s32 v : in_u 32 v -> u32 (s32 v) = v.
Proof. cint. Qed.

Lemma u32_of_s32 v : u32 (s32 v) = u32 v.
Proof. cint. Qed.

Lemma s32_u32 v : s32 (u32 v) = s32 v.
Proof. unfold s32, swrap, u32, wrap. now rewrite Zmod_mod. Qed.

Lemma u16_s16 v : in_u 16 v -> u16 (s16 v) = v.
Proof. cint. Qed.

Lemma cli_readint32_value buff : bytes buff -> (4 <= length buff)%nat ->
  cli_readint32 e buff = le_value (take 4 buff).
Proof.
  intros H Hl. unfold cli_readint32, load, slice. change (drop (Z.to_nat 0) buff) with buff.
  assert (length (take 4 buff) = 4%nat) by (rewrite length_take; lia).
  rewrite u32_s32 by (apply (value_in_u 4); auto with clambc).
  cbv zeta. apply le32_to_host_value; auto with clambc.
Qed.

Lemma cli_readint16_value buff : bytes buff -> (2 <= length buff)%nat ->
  cli_readint16 e buff = le_value (take 2 buff).
Proof.
  intros H Hl. unfold cli_readint16, load, slice. change (drop (Z.to_nat 0) buff) with buff.
  assert (length (take 2 buff) = 2%nat) by (rewrite length_take; lia).
  rewrite u16_s16 by (apply (value_in_u 2); auto with clambc).
  cbv zeta. apply le16_to_host_value; auto with clambc.
Qed.
End host_conversions.

#[export] Hint Resolve le32_to_host_value be32_to_host_value le64_to_host_value
  be64_to_host_value le16_to_host_value be16_to_host_value : clambc.

(** On either host byte order the conversion functions turn a value loaded
    from known-endian bytes into the value those bytes encode. *)
Theorem to_host_correct (e : bool) (l2 l4 l8 : list Z) :
  bytes l2 -> bytes l4 -> bytes l8 ->
  length l2 = 2%nat -> length l4 = 4%nat -> length l8 = 8%nat ->
  le16_to_host e (value e l2) = le_value l2 /\ be16_to_host e (value e l2) = be_value l2 /\
  le32_to_host e (value e l4) = le_value l4 /\ be32_to_host e (value e l4) = be_value l4 /\
  le64_to_host e (value e l8) = le_value l8 /\ be64_to_host e (value e l8) = be_value l8.
Proof. auto 10 with clambc. Qed.

Lemma to_host_correct_witness :
  le16_to_host true (value true [1; 2]) = 513 /\ be16_to_host true (value true [1; 2]) = 258.
Proof.
  pose proof (to_host_correct true [1; 2] [1; 2; 3; 4] [1; 2; 3; 4; 5; 6; 7; 8]
    ltac:(in_range) ltac:(in_range) ltac:(in_range) eq_refl eq_refl eq_refl) as (H1 & H2 & _).
  exact (conj H1 H2).
Defined.

(** [cli_writeint32] stores the little-endian bytes of the value and
    leaves the rest of the buffer, and [cli_readint32] and [cli_readint16] read
    little-endian integers, whatever the host's byte order; so a written value
    is read back unchanged, even on a host of the other byte order. *)
Theorem readint_writeint (e e' : bool) (buff : list Z) (v : Z) :
  bytes buff -> (4 <= length buff)%nat ->
  cli_readint32 e buff = le_value (take 4 buff) /\
  cli_readint16 e buff = le_value (take 2 buff) /\
  cli_writeint32 e buff v = le_bytes 4 v ++ drop 4 buff /\
  cli_readint32 e' (cli_writeint32 e buff v) = u32 v.
Proof.
  intros Hb Hl.
  assert (Hw : cli_writeint32 e buff v = le_bytes 4 v ++ drop 4 buff).
  { unfold cli_writeint32. f_equal. unfold le32_to_host. cbv zeta.
    assert (Hu : le_bytes 4 (u32 v) = le_bytes 4 v).
    { assert (u32 v = le_value (le_bytes 4 v)) as -> by now rewrite le_value_bytes.
      apply (le_bytes_value (le_bytes 4 v)), le_bytes_bytes. }
    destruct e; cbn [bytes_of]; [|exact Hu].
    unfold builtin_bswap32, bswap. rewrite Hu.
    assert (Hr : bytes (rev (le_bytes 4 v))) by auto with clambc.
    pose proof (le_bytes_value _ Hr) as E. rewrite length_rev, length_le_bytes in E.
    now rewrite E, rev_involutive. }
  split; [now apply cli_readint32_value|].
  split; [apply cli_readint16_value; [done|lia]|]. split; [done|].
  rewrite Hw, cli_readint32_value.
  - rewrite firstn_exact by apply length_le_bytes. apply le_value_bytes.
  - auto with clambc.
  - rewrite length_app, length_le_bytes. lia.
Qed.

Lemma readint_writeint_witness :
  cli_writeint32 true [0; 0; 0; 0; 7] 0x01020304 = [4; 3; 2; 1; 7].
Proof.
  pose proof (readint_writeint true false [0; 0; 0; 0; 7] 0x01020304
    ltac:(in_range) ltac:(simpl; lia)) as (_ & _ & H & _).
  exact H.
Defined.

(** ** Signatures *)

Lemma define_signatures_ids k bias defs :
  map (fun d => snd (snd d)) (define_signatures (k + bias) (u32 bias) defs)
  = map (fun i => u32 (k + i)) (seqZ 0 (Z.of_nat (length defs))).
Proof.
  revert k. induction defs as [|[name hex] defs IH]; intros k; [done|].
  cbn [define_signatures length map snd]. rewrite seqZ_cons by lia. cbn [map]. f_equal.
  - unfold u64. rewrite wrap_small.
    + unfold u32, wrap. rewrite Zminus_mod_idemp_r. f_equal. lia.
    + pose proof (wrap_range 32 (k + bias - u32 bias)). unfold u32, in_u in *. pow2. lia.
  - replace (k + bias + 1) with (k + 1 + bias) by lia. rewrite IH.
    replace (Z.pred (Z.of_nat (S (length defs)))) with (Z.of_nat (length defs)) by lia.
    change (Z.succ 0) with (1 + 0). rewrite <- fmap_add_seqZ, map_map. apply map_ext. intros i. f_equal. lia.
Qed.

(** Whatever __COUNTER__ was when SIGNATURES_DEF_BEGIN was reached (other
    macros may have used it, and it may even have wrapped), the subsignatures
    get the ids 0, 1, 2, ... in their order of definition and keep their name
    and pattern; with at most 64 of them every id indexes the count and offset
    arrays of the engine. *)
Theorem signatures_def_ids (counter : Z) (defs : list (string * string)) :
  Z.of_nat (length defs) <= 2 ^ 32 ->
  map (fun d => snd (snd d)) (signatures_def counter defs)
    = seqZ 0 (Z.of_nat (length defs)) /\
  map (fun d => (fst d, fst (snd d))) (signatures_def counter defs) = defs /\
  forall (S : Type) (L : libclamav S) i name hex id,
    (length defs <= length (match_counts L))%nat ->
    signatures_def counter defs !! i = Some (name, (hex, id)) ->
    count_match L id = match_counts L !! i /\ is_Some (count_match L id).
Proof.
  intros Hlen.
  assert (Hids : map (fun d => snd (snd d)) (signatures_def counter defs)
                 = seqZ 0 (Z.of_nat (length defs))).
  { unfold signatures_def. rewrite (define_signatures_ids 0 (counter + 1)).
    rewrite <- (map_id (seqZ _ _)) at 2. apply map_ext_in. intros i Hi.
    apply list_elem_of_In, elem_of_seqZ in Hi.
    rewrite Z.add_0_l. apply wrap_small. unfold in_u. lia. }
  split; [exact Hids|]. split.
  - unfold signatures_def. generalize (counter + 1) at 1. clear Hids Hlen.
    induction defs as [|[name hex] defs IH]; intros c; [done|].
    cbn [define_signatures map fst snd]. f_equal. apply IH.
  - intros S L i name hex id Hc Hi.
    assert (E : seqZ 0 (Z.of_nat (length defs)) !! i = Some id).
    { rewrite <- Hids. rewrite list_lookup_fmap, Hi. done. }
    apply lookup_seqZ in E as [-> Hlt]. unfold count_match.
    replace (Z.to_nat (0 + Z.of_nat i)) with i by lia.
    split; [done|]. apply lookup_lt_is_Some_2. lia.
Qed.

Lemma signatures_def_ids_witness :
  map (fun d => snd (snd d)) (signatures_def 17 [("magic", "aa??bb"); ("zero", "0000")]%string)
  = [0; 1].
Proof.
  pose proof (signatures_def_ids 17 [("magic", "aa??bb"); ("zero", "0000")]%string
    ltac:(vm_compute; discriminate)) as (H & _).
  exact H.
Defined.

(** The offset [match_location] returns: on engines after 0.96.1 the
    recorded offset itself; on older ones, for offsets below 2 GiB, the
    recorded offset moved back by [goback] and never before the start of the
    file. *)
Theorem match_location_spec {S : Type} (L : libclamav S) (id goback o : Z) :
  match_offsets L !! Z.to_nat id = Some o -> in_u 31 o -> in_u 31 goback ->
  match_location L id goback =
    Some (if engine_functionality_level L <=? FUNC_LEVEL_096_1
          then Z.max 0 (o - goback) else o).
Proof.
  intros Ho Hr Hg. unfold match_location. rewrite Ho. cbn [mbind option_bind]. f_equal.
  unfold in_u in *. pow2.
  destruct (engine_functionality_level L <=? FUNC_LEVEL_096_1); [|cint].
  assert (s32 (u32 (u32 (s32 o) - u32 goback)) = o - goback) as -> by cint.
  destruct (Z.leb_spec (o - goback) 0); cint.
Qed.

Definition demo_engine (lvl : Z) : libclamav file_engine := engine lvl false [1; 0] [9; 0] [].
Definition demo_file : file_engine :=
  {| fe_content := [0; 0; 0; 77; 90; 144; 0; 3; 0; 0; 0; 4]; fe_pos := 0;
     fe_log := []; fe_virus := None |}.

Lemma match_location_spec_witness : match_location (demo_engine 51) 0 6 = Some 3.
Proof.
  rewrite (match_location_spec (demo_engine 51) 0 6 9 eq_refl
    ltac:(in_range) ltac:(in_range)).
  vm_compute. reflexivity.
Defined.

Section match_check.
Context {S : Type} (L : libclamav S) (ok : S -> Prop) (content : S -> list Z) (pos : S -> Z)
        `{!FileLaws L ok content pos}.

(** Debug output does not disturb the file. *)
Definition same_file (s s' : S) : Prop :=
  ok s' /\ content s' = content s /\ pos s' = pos s.

Lemma debug_same s str : ok s -> same_file s (debug L s str).
Proof. intros H. apply debug_str_quiet, H. Qed.

Lemma debug_uint_same s v : ok s -> same_file s (debug_uint L s v).
Proof. intros H. apply debug_uint_quiet, H. Qed.

Lemma same_file_trans s1 s2 s3 :
  same_file s1 s2 -> (ok s2 -> same_file s2 s3) -> same_file s1 s3.
Proof.
  unfold same_file. intros (Ho & Hc & Hp) H. destruct (H Ho) as (? & -> & ->). auto.
Qed.

(** [match_location_check] never touches the file's content; its result is
    -1, or an offset below the end of the searched range at which the file
    really contains the static start of the signature, with the file
    positioned there. *)
Theorem match_location_check_sound s id goback start len r s' :
  ok s -> 0 <= len <= Z.of_nat (length start) ->
  match_location_check L s id goback start len = Some (r, s') ->
  ok s' /\ content s' = content s /\
  (r = -1 \/
   (0 <= r /\ r + len <= Z.of_nat (length (content s)) /\ pos s' = r /\
    slice r (Z.to_nat len) (content s') = take (Z.to_nat len) start /\
    exists l, match_location L id goback = Some l /\ r + len < s32 (u32 l + u32 goback))).
Proof.
  intros Hok Hlen. unfold match_location_check.
  destruct (match_location L id goback) as [l|] eqn:El; [|done]. cbn [mbind option_bind].
  destruct (seek L s _ _) as [r1 s1] eqn:E1.
  apply seek_set in E1 as (Hok1 & Hc1 & _); [|done].
  destruct (negb (r1 =? s32 l)); [intros [= <- <-]; auto|].
  destruct (file_find_limit L s1 _ _ _) as [c s2] eqn:E2.
  apply find_law in E2 as (Hok2 & Hc2 & Hf); [|done|lia].
  destruct (Z.eqb_spec c (-1)).
  { intros [= <- <-].
    match goal with |- ok ?t /\ _ => assert (same_file s2 t) as (? & Hc3 & _) end.
    { eapply same_file_trans; [now apply debug_same|intros; now apply debug_uint_same]. }
    split; [done|]. split; [|auto]. rewrite Hc3. congruence. }
  destruct (seek L s2 c SEEK_SET) as [r3 s3] eqn:E3.
  apply seek_set in E3 as (Hok3 & Hc3 & Hp3); [|done].
  destruct (Z.eqb_spec r3 c); simpl negb; cbv iota; [|intros [= <- <-]; split; [done|split; [congruence|auto]]].
  intros Hres. apply (inj Some), pair_equal_spec in Hres as [<- Hs'].
  destruct (Hf ltac:(done)) as (H0 & H1 & H2 & H3). rewrite Hc1 in H2, H3.
  assert (same_file s3 s') as (Hok4 & Hc4 & Hp4).
  { rewrite <- Hs'. match goal with |- same_file s3 (if ?b then _ else _) => destruct b end; [|now repeat split].
    eapply same_file_trans; [|intros; now apply debug_same].
    eapply same_file_trans; [|intros; now apply debug_uint_same].
    eapply same_file_trans; [|intros; now apply debug_same].
    eapply same_file_trans; [|intros; now apply debug_uint_same].
    now apply debug_same. }
  split; [done|]. split; [congruence|]. right.
  split; [done|]. split; [done|].
  split; [rewrite Hp4; destruct Hp3 as [[_ ?]|[? _]]; lia|].
  split; [rewrite Hc4, Hc3, Hc2, Hc1; exact H3|]. exists l. split; [done|].
  now rewrite s32_u32, u32_of_s32 in H1.
Qed.
End match_check.

(** The file above is found to start its signature at offset 3 by an old
    engine that reported the last subsignature's offset. *)
Lemma match_location_check_sound_witness :
  exists s', match_location_check (demo_engine 51) demo_file 0 6 [77; 90] 2 = Some (3, s')
             /\ fe_pos s' = 3.
Proof.
  destruct (match_location_check (demo_engine 51) demo_file 0 6 [77; 90] 2)
    as [[r s']|] eqn:E; [|vm_compute in E; discriminate].
  exists s'. assert (Hr : r = 3) by (vm_compute in E; congruence). subst r.
  split; [reflexivity|].
  assert (Hok : fe_ok demo_file) by (split; [in_range|vm_compute; intuition discriminate]).
  destruct (match_location_check_sound (demo_engine 51) fe_ok fe_content fe_pos demo_file 0 6
    [77; 90] 2 3 s' Hok ltac:(simpl; lia) E) as (_ & _ & [H|(_ & _ & H & _)]); [lia|exact H].
Defined.

(** ** memchr *)

(** First index of a byte in a buffer. *)
Fixpoint index_of (b : Z) (l : list Z) : option nat :=
  match l with
  | [] => None
  | x :: l => if x =? b then Some O else Datatypes.S <$> index_of b l
  end.

Lemma memchr_from_spec p i n fuel cc :
  bytes p -> in_u 8 cc -> 0 <= n - i -> fuel = Z.to_nat (n - i) -> n - i <= Z.of_nat (length p) ->
  memchr_from p i n fuel cc =
    if cc <? 128 then (fun k => i + Z.of_nat k) <$> index_of cc (take fuel p) else None.
Proof.
  revert i fuel. induction p as [|b p IH]; intros i fuel Hb Hc Hn -> Hl.
  - simpl in Hl. replace (Z.to_nat (n - i)) with O by lia. now destruct (cc <? 128).
  - destruct (Z.to_nat (n - i)) as [|f] eqn:Ef; [now destruct (cc <? 128)|].
    apply Forall_cons in Hb as [Hb Hp]. cbn [memchr_from take index_of]. simpl length in Hl.
    rewrite (proj2 (Z.ltb_lt _ _)) by lia.
    assert ((s8 b =? cc) = (b =? cc) && (cc <? 128)) as ->.
    { unfold byte in Hb. cint_unfold. rewrite (Z.mod_small b) by lia.
      apply eq_true_iff_eq. rewrite andb_true_iff, !Z.eqb_eq, Z.ltb_lt.
      destruct (Z.ltb_spec b 128); lia. }
    rewrite IH by (auto; lia). destruct (Z.ltb_spec cc 128) as [Hlt|Hlt].
    + destruct (b =? cc); simpl; [f_equal; lia|].
      destruct (index_of cc (take f p)); simpl; [f_equal; lia|done].
    + now rewrite andb_false_r.
Qed.

(** For a character below 0x80 [memchr] returns the index of its first
    occurrence among the first [n] bytes, or null when there is none; a
    character of 0x80 or more is never found, because the bytes are compared
    as signed characters with the unsigned one. *)
Theorem memchr_spec (s : list Z) (c n : Z) :
  bytes s -> 0 <= n <= Z.of_nat (length s) ->
  memchr s c n =
    if u8 c <? 128 then Z.of_nat <$> index_of (u8 c) (take (Z.to_nat n) s) else None.
Proof.
  intros Hs Hn. unfold memchr. cbv zeta.
  rewrite memchr_from_spec by (try apply wrap_range; rewrite ?Z.sub_0_r; auto; lia).
  destruct (u8 c <? 128); [|done]. destruct (index_of _ _); done.
Qed.

Lemma memchr_spec_witness :
  memchr [77; 90; 144; 0] 90 4 = Some 1 /\ memchr [77; 90; 144; 0] 144 4 = None /\
  index_of 144 [77; 90; 144; 0] = Some 2%nat.
Proof.
  rewrite (memchr_spec [77; 90; 144; 0] 90 4 ltac:(in_range) ltac:(simpl; lia)).
  rewrite (memchr_spec [77; 90; 144; 0] 144 4 ltac:(in_range) ltac:(simpl; lia)).
  vm_compute. auto.
Defined.

(** ** The re2c scanner *)

Section scanner_refill.
Context {S : Type} (L : libclamav S) (ok : S -> Prop) (content : S -> list Z) (pos : S -> Z)
        `{!FileLaws L ok content pos}.

(** The buffer up to [re2c_slim] is what the file holds before its current
    position, and the token start and the cursor point into it. *)
Record scanner_ok (m : scanner) (s : S) : Prop := {
  so_ok : ok s;
  so_len : length (re2c_sbuffer m) = Z.to_nat RE2C_BSIZE;
  so_ptrs : 0 <= re2c_stok m <= re2c_scur m /\ re2c_scur m <= re2c_slim m <= RE2C_BSIZE;
  so_pos : re2c_slim m <= pos s;
  so_data : take (Z.to_nat (re2c_slim m)) (re2c_sbuffer m)
            = slice (pos s - re2c_slim m) (Z.to_nat (re2c_slim m)) (content s)
}.

(** The text of the token scanned so far, and the file offset of a pointer. *)
Definition token (m : scanner) : list Z :=
  slice (re2c_stok m) (Z.to_nat (re2c_scur m - re2c_stok m)) (re2c_sbuffer m).
Definition file_offset (m : scanner) (s : S) (p : Z) : Z := pos s - re2c_slim m + p.

(** C39: Refilling the scanner's buffer while a token is being scanned keeps the
    scanner consistent with the file: when [RE2C_FILLBUFFER] reports success
    the token text is unchanged, token start and cursor still denote the same
    file offsets (so [REGEX_POS] is unchanged), more than [need] bytes are in
    the buffer from the token start on, and [YYFILL] lets the loop go on; when
    it does not, [YYFILL] leaves the loop. *)
Theorem refill_keeps_token m s need m' s' :
  scanner_ok m s -> 0 <= need -> RE2C_FILLBUFFER L need m s = (m', s') ->
  (YYFILL L need m s).1.1 = (re2c_sres m' <=? 0) /\
  (0 < re2c_sres m' ->
    scanner_ok m' s' /\ content s' = content s /\
    token m' = token m /\ need < re2c_slim m' - re2c_stok m' /\
    file_offset m' s' (re2c_stok m') = file_offset m s (re2c_stok m) /\
    fst (REGEX_POS L m' s') = fst (REGEX_POS L m s)).
Proof.
  intros [Hok Hlen (Hst & Hsc) Hp Hd] Hn E. unfold YYFILL. rewrite E. split; [done|].
  unfold RE2C_FILLBUFFER in E. unfold RE2C_BSIZE in *.
  assert (Hu : forall z, 0 <= z <= 1024 -> u32 z = z) by (intros; cint).
  assert (Hs : forall z, 0 <= z <= 1024 -> s32 z = z) by (intros; cint).
  rewrite (Hs (re2c_slim m)), !(Hu (re2c_stok m)), (Hu (re2c_slim m)) in E by lia.
  destruct (fill_buffer L s _ _ _ _ _) as [[n buf] s1] eqn:Ef.
  destruct (Z.eqb_spec n 0); [injection E as <- <-; simpl; lia|].
  destruct (Z.leb_spec n need); [injection E as <- <-; simpl; lia|].
  rewrite (Hu (re2c_scur m - re2c_stok m)) in E by lia.
  apply fill_law in Ef as (Hok1 & Hc1 & Hl1 & Hn1 & Hp1 & Hd1); [|done|lia..].
  injection E as <- <-. intros _.
  remember (re2c_slim m - re2c_stok m) as keep eqn:Ek.
  assert (Hkeep : slice (re2c_stok m) (Z.to_nat keep) (re2c_sbuffer m)
                  = slice (pos s - keep) (Z.to_nat keep) (content s)).
  { rewrite <- (slice_take _ _ (Z.to_nat (re2c_slim m))) by lia.
    rewrite Hd, slice_slice by lia. f_equal. lia. }
  assert (Hd2 : take (Z.to_nat n) buf = slice (pos s1 - n) (Z.to_nat n) (content s)).
  { rewrite Hd1, Hkeep. replace (Z.to_nat n) with (Z.to_nat keep + Z.to_nat (n - keep))%nat by lia.
    rewrite slice_app_split by lia. f_equal; f_equal; lia. }
  split; [|split; [done|]].
  { split; simpl; unfold RE2C_BSIZE; [done|lia|lia|lia|]. now rewrite Hc1. }
  unfold token, file_offset, REGEX_POS. cbn [re2c_stok re2c_scur re2c_slim re2c_sbuffer].
  rewrite !seek_cur by done. cbn [fst]. split; [|lia].
  rewrite Z.sub_0_r, <- (slice_take 0 _ (Z.to_nat n)), Hd1 by lia.
  rewrite slice_head, take_app_le by (rewrite length_slice by lia; lia).
  rewrite <- slice_head, slice_slice by lia. f_equal. lia.
Qed.
End scanner_refill.

Definition scan_file : file_engine :=
  {| fe_content := [97; 98; 99; 100; 101; 102; 103; 104]; fe_pos := 0;
     fe_log := []; fe_virus := None |}.
Definition scan_start : scanner * file_engine :=
  REGEX_SCANNER (demo_engine 60) 0 0 (repeat 0 1024) scan_file.

(** After the first fill the scanner is consistent; with the cursor in the
    middle of a token a refill keeps the token. *)
Definition scan_mid : scanner :=
  {| re2c_scur := 5; re2c_stok := 3; re2c_smrk := 3; re2c_sctx := 3; re2c_slim := 8;
     re2c_sres := 8; re2c_stokstart := 3; re2c_sbuffer := re2c_sbuffer (fst scan_start) |}.

Lemma refill_keeps_token_witness :
  re2c_sbuffer (fst scan_start) !! 7%nat = Some 104 /\
  token (fst (RE2C_FILLBUFFER (demo_engine 60) 2 scan_mid (snd scan_start))) = [100; 101].
Proof.
  split; [vm_compute; reflexivity|].
  destruct (RE2C_FILLBUFFER (demo_engine 60) 2 scan_mid (snd scan_start)) as [m' s'] eqn:E.
  assert (Hm : scanner_ok fe_ok fe_content fe_pos scan_mid (snd scan_start)).
  { split; [split; [in_range|vm_compute; intuition discriminate]
           |vm_compute; reflexivity|vm_compute; intuition discriminate
           |vm_compute; intuition discriminate|vm_compute; reflexivity]. }
  assert (Hr : 0 < re2c_sres m') by (vm_compute in E; injection E as <- <-; reflexivity).
  destruct (refill_keeps_token (demo_engine 60) fe_ok fe_content fe_pos scan_mid (snd scan_start)
    2 m' s' Hm ltac:(lia) E) as [_ H].
  destruct (H Hr) as (_ & _ & Ht & _). cbn [fst]. rewrite Ht. vm_compute. reflexivity.
Defined.

(** The refill only compares the bytes available from the token start with
    what is needed from the cursor on: at the end of the file, with a token of
    seven bytes scanned and one byte left, a request for five more succeeds. *)
Lemma refill_short_of_need :
  let m := {| re2c_scur := 7; re2c_stok := 0; re2c_smrk := 0; re2c_sctx := 0; re2c_slim := 8;
              re2c_sres := 8; re2c_stokstart := 0;
              re2c_sbuffer := re2c_sbuffer (fst scan_start) |} in
  let '(leave, m', s') := YYFILL (demo_engine 60) 5 m (snd scan_start) in
  leave = false /\ re2c_slim m' - re2c_scur m' = 1.
Proof. vm_compute. auto. Qed.

(** A token longer than 80 bytes is never printed when the file can be read:
    the first successful read leaves the macro, 37 bytes into the token. *)
Lemma debug_print_long_token :
  let file := {| fe_content := repeat 65 200; fe_pos := 200; fe_log := []; fe_virus := None |} in
  let m := {| re2c_scur := 190; re2c_stok := 10; re2c_smrk := 10; re2c_sctx := 10; re2c_slim := 200;
              re2c_sres := 200; re2c_stokstart := 10; re2c_sbuffer := repeat 65 1024 |} in
  let s' := RE2C_DEBUG_PRINT (demo_engine 60) (repeat 0 81) m file in
  fe_log s' = [] /\ fe_pos s' = 47.
Proof. vm_compute. auto. Qed.
