(* ===== verification/PE.v ===== *)
(** * PE: the accessors of PE information (headers/bytecode_local.h)

    [__clambc_pedata] is the image of a [cli_pe_hook_data] whose header members
    libclamav copies from the scanned file, so they are little-endian whatever
    the host is; each accessor converts. [kind] is the bytecode's own
    [__clambc_kind]. An accessor outside a PE hook calls a function that does
    not exist, which the build reports: [Stop]. *)
From S2P Require Import Prelude Enums Layout Host Local.
Local Open Scope string_scope.
Local Open Scope Z_scope.
Local Open Scope outcome_scope.

Definition hook : string := "cli_pe_hook_data".
Definition hdr32 : string := "pe_image_optional_hdr32".
Definition hdr64 : string := "pe_image_optional_hdr64".
Definition file_hdr : string := "pe_image_file_hdr".

(** Offset and size of a member of the hook data, of a member of one of its
    header structures, and of a member of entry [n] of a directory array. *)
Definition top (f : string) : Z * nat :=
  let '(o, t) := member hook f in (o, Z.to_nat (sizeof t)).
Definition sub (part tag f : string) : Z * nat :=
  let '(o, t) := member tag f in (offsetof hook part + o, Z.to_nat (sizeof t)).
Definition dir (part : string) (n : Z) (f : string) : Z * nat :=
  let '(o, t) := member "pe_image_data_dir" f in
  (offsetof hook part + n * sizeof (CStruct "pe_image_data_dir") + o, Z.to_nat (sizeof t)).
Definition opt32 (f : string) : Z * nat := sub "opt32" hdr32 f.
Definition opt64 (f : string) : Z * nat := sub "opt64" hdr64 f.

Section accessors.
Context {S : Type} (L : libclamav S) (kind : Z).

Definition e : bool := is_bigendian L.

(** __clambc_pedata.m, loaded by the host. *)
Definition pd (m : Z * nat) : Z := load e (snd m) (pedata L) (fst m).

Definition hasExeInfo : bool := negb (pd (top "offset") =? u32 (-1)).

Definition hasPEInfo : bool :=
  (kind =? ev BytecodeKind "BC_PE_ALL") || (kind =? ev BytecodeKind "BC_PE_UNPACKER").

Definition NEED_PE_INFO : outcome unit :=
  if negb hasPEInfo then Stop "__fail_missing_PE_HOOK_DECLARE__or__PE_UNPACKER_DECLARE"
  else Done tt.

Definition isPE64 : outcome bool :=
  let* _ := NEED_PE_INFO in
  Done (le16_to_host e (pd (opt64 "Magic")) =? 0x020b).

(** The shapes the accessors share:
    [conv(isPE64() ? __clambc_pedata.opt64.f : __clambc_pedata.opt32.f)] for
    the conversion of each width (none for bytes), and
    [conv(__clambc_pedata.file_hdr.f)] after NEED_PE_INFO. *)
Definition opt_field (f : string) : outcome Z :=
  let* b := isPE64 in Done (if b : bool then pd (opt64 f) else pd (opt32 f)).
Definition opt_get8 (f : string) : outcome Z := let* v := opt_field f in Done (u8 v).
Definition opt_get16 (f : string) : outcome Z := let* v := opt_field f in Done (le16_to_host e v).
Definition opt_get32 (f : string) : outcome Z := let* v := opt_field f in Done (le32_to_host e v).
Definition opt_get64 (f : string) : outcome Z := let* v := opt_field f in Done (le64_to_host e v).
Definition opt_get32_or_zero (f : string) : outcome Z :=
  let* b := isPE64 in Done (le32_to_host e (if b : bool then 0 else pd (opt32 f))).
Definition hdr_get16 (f : string) : outcome Z :=
  let* _ := NEED_PE_INFO in Done (le16_to_host e (pd (sub "file_hdr" file_hdr f))).
Definition hdr_get32 (f : string) : outcome Z :=
  let* _ := NEED_PE_INFO in Done (le32_to_host e (pd (sub "file_hdr" file_hdr f))).

Definition getPEMajorLinkerVersion : outcome Z := opt_get8 "MajorLinkerVersion".
Definition getPEMinorLinkerVersion : outcome Z := opt_get8 "MinorLinkerVersion".
Definition getPESizeOfCode : outcome Z := opt_get32 "SizeOfCode".
Definition getPESizeOfInitializedData : outcome Z := opt_get32 "SizeOfInitializedData".
Definition getPESizeOfUninitializedData : outcome Z := opt_get32 "SizeOfUninitializedData".
Definition getPEBaseOfCode : outcome Z := opt_get32 "BaseOfCode".
Definition getPEBaseOfData : outcome Z := opt_get32_or_zero "BaseOfData".
Definition getPEImageBase : outcome Z := opt_get64 "ImageBase".
Definition getPESectionAlignment : outcome Z := opt_get32 "SectionAlignment".
Definition getPEFileAlignment : outcome Z := opt_get32 "FileAlignment".
Definition getPEMajorOperatingSystemVersion : outcome Z := opt_get16 "MajorOperatingSystemVersion".
Definition getPEMinorOperatingSystemVersion : outcome Z := opt_get16 "MinorOperatingSystemVersion".
Definition getPEMajorImageVersion : outcome Z := opt_get16 "MajorImageVersion".
Definition getPEMinorImageVersion : outcome Z := opt_get16 "MinorImageVersion".
Definition getPEMajorSubsystemVersion : outcome Z := opt_get16 "MajorSubsystemVersion".
Definition getPEMinorSubsystemVersion : outcome Z := opt_get16 "MinorSubsystemVersion".
Definition getPEWin32VersionValue : outcome Z := opt_get32 "Win32VersionValue".
Definition getPESizeOfImage : outcome Z := opt_get32 "SizeOfImage".
Definition getPESizeOfHeaders : outcome Z := opt_get32 "SizeOfHeaders".
Definition getPECheckSum : outcome Z := opt_get32 "CheckSum".
Definition getPESubsystem : outcome Z := opt_get16 "Subsystem".
Definition getPEDllCharacteristics : outcome Z := opt_get16 "DllCharacteristics".
Definition getPESizeOfStackReserve : outcome Z := opt_get32 "SizeOfStackReserve".
Definition getPESizeOfStackCommit : outcome Z := opt_get32 "SizeOfStackCommit".
Definition getPESizeOfHeapReserve : outcome Z := opt_get32 "SizeOfHeapReserve".
Definition getPESizeOfHeapCommit : outcome Z := opt_get32 "SizeOfHeapCommit".
Definition getPELoaderFlags : outcome Z := opt_get32 "LoaderFlags".
Definition getPEMachine : outcome Z := hdr_get16 "Machine".
Definition getPETimeDateStamp : outcome Z := hdr_get32 "TimeDateStamp".
Definition getPEPointerToSymbolTable : outcome Z := hdr_get32 "PointerToSymbolTable".
Definition getPENumberOfSymbols : outcome Z := hdr_get32 "NumberOfSymbols".
Definition getPESizeOfOptionalHeader : outcome Z := hdr_get16 "SizeOfOptionalHeader".
Definition getPECharacteristics : outcome Z := hdr_get16 "Characteristics".

Definition getPEisDLL : outcome bool :=
  let* c := getPECharacteristics in Done (negb (Z.land c 0x2000 =? 0)).

Definition getPEDataDirRVA (n : Z) : outcome Z :=
  let* _ := NEED_PE_INFO in
  if n <? 16 then
    let* b := isPE64 in
    Done (le32_to_host e (if b : bool then pd (dir "opt64_dirs" n "VirtualAddress")
                          else pd (dir "opt32_dirs" n "VirtualAddress")))
  else Done 0.

Definition getPEDataDirSize (n : Z) : outcome Z :=
  let* _ := NEED_PE_INFO in
  if n <? 16 then
    let* b := isPE64 in
    Done (le32_to_host e (if b : bool then pd (dir "opt64_dirs" n "Size")
                          else pd (dir "opt32_dirs" n "Size")))
  else Done 0.

Definition getNumberOfSections : Z := pd (top "nsections").

Definition getPELFANew : outcome Z :=
  let* _ := NEED_PE_INFO in Done (le32_to_host e (pd (top "e_lfanew"))).

(** The result, the buffer [name] and the engine's state. *)
Definition readPESectionName (s : S) (name : list Z) (n : Z) : outcome (Z * list Z * S) :=
  let* _ := NEED_PE_INFO in
  if getNumberOfSections <=? n then Done (-1, name, s) else
  let* lfanew := getPELFANew in
  let at_ := u32 (lfanew + sizeof (CStruct file_hdr) + sizeof (CStruct hdr32)) in
  let* b := isPE64 in
  let* at_ :=
    (if negb b then
       let* o := getPESizeOfOptionalHeader in
       Done (u32 (at_ + u32 (o - sizeof (CStruct hdr32))))
     else Done (u32 (at_ + u32 (sizeof (CStruct hdr64) - sizeof (CStruct hdr32))))) in
  let at_ := u32 (at_ + u32 (n * sizeof (CStruct "pe_image_section_hdr"))) in
  let '(pos, s) := seek L s (s32 at_) SEEK_SET in
  if pos =? -1 then Done (-2, name, s) else
  let '(r, bs, s) := read L s 8 in
  let name := store 0 bs name in
  if negb (r =? 8) then Done (-3, name, s) else
  let '(_, s) := seek L s pos SEEK_SET in
  Done (0, name, s).

Definition getEntryPoint : Z := pd (top "ep").
Definition getExeOffset : Z := pd (top "offset").

Definition getImageBase : outcome Z :=
  let* _ := NEED_PE_INFO in Done (le32_to_host e (pd (opt32 "ImageBase"))).

Definition getVirtualEntryPoint : outcome Z :=
  let* _ := NEED_PE_INFO in opt_get32 "AddressOfEntryPoint".

(** [section] is the uninitialised local structure. *)
Definition section_field (section : list Z) (f : string) : Z :=
  let '(o, t) := member "cli_exe_section" f in load e (Z.to_nat (sizeof t)) section o.
Definition getSectionRVA (s : S) (section : list Z) (i : Z) : Z :=
  let '(r, section) := get_pe_section L s section i in
  if r =? -1 then u32 (-1) else section_field section "rva".
Definition getSectionVirtualSize (s : S) (section : list Z) (i : Z) : Z :=
  let '(r, section) := get_pe_section L s section i in
  if r =? -1 then u32 (-1) else section_field section "vsz".

Definition PE_INVALID_RVA : Z := 0xFFFFFFFF.

Definition readRVA (s : S) (rva : Z) (buf : list Z) (bufsize : Z) : bool * list Z * S :=
  let off := pe_rawaddr L s (u32 rva) in
  if off =? PE_INVALID_RVA then (false, buf, s) else
  let '(oldpos, s) := seek L s (s32 off) SEEK_SET in
  if oldpos =? -1 then (false, buf, s) else
  let '(r, bs, s) := read L s (s32 bufsize) in
  let buf := store 0 bs buf in
  if negb (u32 r =? bufsize) then (false, buf, s) else
  let '(_, s) := seek L s oldpos SEEK_SET in
  (true, buf, s).
End accessors.

(** ** What the accessors return *)

(** The little-endian value of a member of the raw image. *)
Definition raw {S} (L : libclamav S) (m : Z * nat) : Z := le_value (slice (fst m) (snd m) (pedata L)).

Definition image_ok {S} (L : libclamav S) : Prop :=
  bytes (pedata L) /\ Z.of_nat (length (pedata L)) = sizeof (CStruct hook).

(** [m] is a member of [n] bytes inside the image. *)
Definition inside (n : nat) (m : Z * nat) : bool :=
  (0 <=? fst m) && (fst m + Z.of_nat (snd m) <=? sizeof (CStruct hook)) && (Nat.eqb (snd m) n).

Lemma sizeof_hook : sizeof (CStruct hook) = 648.
Proof. vm_compute. reflexivity. Qed.

Section values.
Context {S : Type} (L : libclamav S) (Himg : image_ok L).

Lemma inside_slice n m : inside n m = true ->
  bytes (slice (fst m) (snd m) (pedata L)) /\ length (slice (fst m) (snd m) (pedata L)) = n.
Proof.
  unfold inside. rewrite !andb_true_iff, !Z.leb_le, Nat.eqb_eq. intros [[? ?] <-].
  destruct Himg as [Hb Hl]. split; [now apply bytes_slice|apply length_slice; lia].
Qed.

Lemma le16_pd m : inside 2 m = true -> le16_to_host (e L) (pd L m) = raw L m.
Proof. intros [? ?]%inside_slice. now apply le16_to_host_value. Qed.

Lemma le32_pd m : inside 4 m = true -> le32_to_host (e L) (pd L m) = raw L m.
Proof. intros [? ?]%inside_slice. now apply le32_to_host_value. Qed.

Lemma le64_pd m : inside 8 m = true -> le64_to_host (e L) (pd L m) = raw L m.
Proof. intros [? ?]%inside_slice. now apply le64_to_host_value. Qed.

Lemma u8_pd m : inside 1 m = true -> u8 (pd L m) = raw L m.
Proof.
  intros [Hb Hl]%inside_slice. unfold pd, load, raw, value, be_value.
  destruct (slice _ _ _) as [|x [|? ?]]; try done.
  apply Forall_inv in Hb. destruct (e L); simpl; rewrite Z.add_0_r; now apply wrap_small.
Qed.

Lemma raw_range n m : inside n m = true -> in_u (8 * Z.of_nat n) (raw L m).
Proof.
  intros [Hb Hl]%inside_slice. unfold in_u. rewrite Z.pow_mul_r by lia.
  unfold raw. rewrite <- Hl. now apply le_value_range.
Qed.

Lemma dir_inside part n f :
  In part ["opt32_dirs"; "opt64_dirs"] -> In f ["VirtualAddress"; "Size"] -> 0 <= n < 16 ->
  inside 4 (dir part n f) = true.
Proof.
  intros Hp Hf Hn. simpl in Hp, Hf. revert n Hn.
  destruct Hp as [<-|[<-|[]]], Hf as [<-|[<-|[]]]; below 16.
Qed.
End values.

Ltac inside_ := vm_compute; reflexivity.

Section theorems.
Context {S : Type} (L : libclamav S) (kind : Z).

(** [true] when the optional header's magic says PE32+. *)
Definition pe64 : bool := raw L (opt64 "Magic") =? 0x20b.
(** The optional header member the file's format selects. *)
Definition opt (f : string) : Z * nat := if pe64 then opt64 f else opt32 f.

Lemma NEED_PE_INFO_ok : hasPEInfo kind = true -> NEED_PE_INFO kind = Done tt.
Proof. unfold NEED_PE_INFO. now intros ->. Qed.

Lemma isPE64_eq : image_ok L -> hasPEInfo kind = true -> isPE64 L kind = Done pe64.
Proof.
  intros Hi Hk. unfold isPE64. rewrite NEED_PE_INFO_ok by done. cbn [obind].
  now rewrite le16_pd by (done || inside_).
Qed.

Lemma opt_get8_eq f : image_ok L -> hasPEInfo kind = true ->
  inside 1 (opt64 f) && inside 1 (opt32 f) = true -> opt_get8 L kind f = Done (raw L (opt f)).
Proof.
  intros Hi Hk [H6 H3]%andb_true_iff. unfold opt_get8, opt_field, opt.
  rewrite isPE64_eq by done. cbn [obind]. destruct pe64; now rewrite u8_pd.
Qed.

Lemma opt_get16_eq f : image_ok L -> hasPEInfo kind = true ->
  inside 2 (opt64 f) && inside 2 (opt32 f) = true -> opt_get16 L kind f = Done (raw L (opt f)).
Proof.
  intros Hi Hk [H6 H3]%andb_true_iff. unfold opt_get16, opt_field, opt.
  rewrite isPE64_eq by done. cbn [obind]. destruct pe64; now rewrite le16_pd.
Qed.

Lemma opt_get32_eq f : image_ok L -> hasPEInfo kind = true ->
  inside 4 (opt64 f) && inside 4 (opt32 f) = true -> opt_get32 L kind f = Done (raw L (opt f)).
Proof.
  intros Hi Hk [H6 H3]%andb_true_iff. unfold opt_get32, opt_field, opt.
  rewrite isPE64_eq by done. cbn [obind]. destruct pe64; now rewrite le32_pd.
Qed.

Lemma hdr_get16_eq f : image_ok L -> hasPEInfo kind = true ->
  inside 2 (sub "file_hdr" file_hdr f) = true ->
  hdr_get16 L kind f = Done (raw L (sub "file_hdr" file_hdr f)).
Proof.
  intros Hi Hk H. unfold hdr_get16. rewrite NEED_PE_INFO_ok by done. cbn [obind].
  now rewrite le16_pd.
Qed.

Lemma hdr_get32_eq f : image_ok L -> hasPEInfo kind = true ->
  inside 4 (sub "file_hdr" file_hdr f) = true ->
  hdr_get32 L kind f = Done (raw L (sub "file_hdr" file_hdr f)).
Proof.
  intros Hi Hk H. unfold hdr_get32. rewrite NEED_PE_INFO_ok by done. cbn [obind].
  now rewrite le32_pd.
Qed.

(** The accessors of the optional header whose member has the same width in
    both formats, and those of the file header, with the member they name. *)
Definition opt_accessors : list (outcome Z * string) := [
  (getPEMajorLinkerVersion L kind, "MajorLinkerVersion");
  (getPEMinorLinkerVersion L kind, "MinorLinkerVersion");
  (getPESizeOfCode L kind, "SizeOfCode");
  (getPESizeOfInitializedData L kind, "SizeOfInitializedData");
  (getPESizeOfUninitializedData L kind, "SizeOfUninitializedData");
  (getPEBaseOfCode L kind, "BaseOfCode");
  (getPESectionAlignment L kind, "SectionAlignment");
  (getPEFileAlignment L kind, "FileAlignment");
  (getPEMajorOperatingSystemVersion L kind, "MajorOperatingSystemVersion");
  (getPEMinorOperatingSystemVersion L kind, "MinorOperatingSystemVersion");
  (getPEMajorImageVersion L kind, "MajorImageVersion");
  (getPEMinorImageVersion L kind, "MinorImageVersion");
  (getPEMajorSubsystemVersion L kind, "MajorSubsystemVersion");
  (getPEMinorSubsystemVersion L kind, "MinorSubsystemVersion");
  (getPEWin32VersionValue L kind, "Win32VersionValue");
  (getPESizeOfImage L kind, "SizeOfImage");
  (getPESizeOfHeaders L kind, "SizeOfHeaders");
  (getPECheckSum L kind, "CheckSum");
  (getPESubsystem L kind, "Subsystem");
  (getPEDllCharacteristics L kind, "DllCharacteristics");
  (getPELoaderFlags L kind, "LoaderFlags");
  (getVirtualEntryPoint L kind, "AddressOfEntryPoint")].
Definition hdr_accessors : list (outcome Z * string) := [
  (getPEMachine L kind, "Machine");
  (getPETimeDateStamp L kind, "TimeDateStamp");
  (getPEPointerToSymbolTable L kind, "PointerToSymbolTable");
  (getPENumberOfSymbols L kind, "NumberOfSymbols");
  (getPESizeOfOptionalHeader L kind, "SizeOfOptionalHeader");
  (getPECharacteristics L kind, "Characteristics")].

(** C37: In a PE hook, on hosts of either byte order, every accessor of a member
    that is equally wide in PE32 and PE32+ returns the value stored in the
    scanned file, taken from the optional header the file's magic selects; the
    same holds for the file header, the entry point, e_lfanew and, for indices
    below 16, the data directories (0 from index 16 on). *)
Theorem accessors_read_file :
  image_ok L -> hasPEInfo kind = true ->
  isPE64 L kind = Done pe64 /\
  Forall (fun a => fst a = Done (raw L (opt (snd a)))) opt_accessors /\
  Forall (fun a => fst a = Done (raw L (sub "file_hdr" file_hdr (snd a)))) hdr_accessors /\
  getPEBaseOfData L kind = Done (if pe64 then 0 else raw L (opt32 "BaseOfData")) /\
  getPELFANew L kind = Done (raw L (top "e_lfanew")) /\
  getImageBase L kind = Done (raw L (opt32 "ImageBase")) /\
  getPEisDLL L kind = Done (Z.testbit (raw L (sub "file_hdr" file_hdr "Characteristics")) 13) /\
  forall n, 0 <= n ->
    let d f := if n <? 16 then raw L (dir (if pe64 then "opt64_dirs" else "opt32_dirs") n f) else 0 in
    getPEDataDirRVA L kind n = Done (d "VirtualAddress") /\
    getPEDataDirSize L kind n = Done (d "Size").
Proof.
  intros Hi Hk. split; [now apply isPE64_eq|].
  split.
  { unfold opt_accessors, getVirtualEntryPoint. rewrite NEED_PE_INFO_ok by done.
    repeat (apply List.Forall_cons; [cbn [fst snd]|]); try apply List.Forall_nil;
      first [apply opt_get8_eq | apply opt_get16_eq | apply opt_get32_eq]; auto; inside_. }
  split.
  { unfold hdr_accessors.
    repeat (apply List.Forall_cons; [cbn [fst snd]|]); try apply List.Forall_nil;
      first [apply hdr_get16_eq | apply hdr_get32_eq]; auto; inside_. }
  split.
  { unfold getPEBaseOfData, opt_get32_or_zero. rewrite isPE64_eq by done. cbn [obind].
    destruct pe64; [unfold le32_to_host; now destruct (e L)|].
    now rewrite le32_pd by (done || inside_). }
  split; [unfold getPELFANew; rewrite NEED_PE_INFO_ok by done; cbn [obind];
          now rewrite le32_pd by (done || inside_)|].
  split; [unfold getImageBase; rewrite NEED_PE_INFO_ok by done; cbn [obind];
          now rewrite le32_pd by (done || inside_)|].
  split.
  { unfold getPEisDLL, getPECharacteristics. rewrite hdr_get16_eq by (done || inside_).
    cbn [obind]. f_equal. generalize (raw L (sub "file_hdr" file_hdr "Characteristics")). clear.
    intros v. change 0x2000 with (2 ^ 13). rewrite Z.land_comm.
    destruct (Z.testbit v 13) eqn:E.
    - apply negb_true_iff, Z.eqb_neq. intros H. 
      apply (f_equal (fun z => Z.testbit z 13)) in H.
      rewrite Z.land_spec, Z.pow2_bits_true, E in H by lia. discriminate.
    - apply negb_false_iff, Z.eqb_eq, Z.bits_inj. intros k.
      rewrite Z.land_spec, Z.bits_0, Z.pow2_bits_eqb by lia.
      destruct (Z.eqb_spec 13 k) as [<-|]; [exact E|reflexivity]. }
  intros n Hn. unfold getPEDataDirRVA, getPEDataDirSize.
  rewrite NEED_PE_INFO_ok by done. cbn [obind]. rewrite isPE64_eq by done. cbn [obind].
  destruct (Z.ltb_spec n 16); [|done].
  destruct pe64; rewrite !le32_pd by (done || (apply dir_inside; simpl; auto; lia)); done.
Qed.

(** Outside a PE hook no accessor returns. *)
Lemma accessors_outside_hook : hasPEInfo kind = false ->
  let fails {A} (o : outcome A) :=
    o = Stop "__fail_missing_PE_HOOK_DECLARE__or__PE_UNPACKER_DECLARE" in
  fails (isPE64 L kind) /\ fails (getPELFANew L kind) /\
  (forall f, fails (opt_get8 L kind f) /\ fails (opt_get16 L kind f) /\
             fails (opt_get32 L kind f) /\ fails (hdr_get16 L kind f) /\
             fails (hdr_get32 L kind f)) /\
  (forall n, fails (getPEDataDirRVA L kind n) /\ fails (getPEDataDirSize L kind n)) /\
  forall s name n, fails (readPESectionName L kind s name n).
Proof.
  intros Hk fails.
  assert (HN : NEED_PE_INFO kind = Stop "__fail_missing_PE_HOOK_DECLARE__or__PE_UNPACKER_DECLARE").
  { unfold NEED_PE_INFO. now rewrite Hk. }
  unfold fails, opt_get8, opt_get16, opt_get32, opt_field, isPE64, getPELFANew, hdr_get16,
    hdr_get32, getPEDataDirRVA, getPEDataDirSize, readPESectionName.
  rewrite HN. auto 20.
Qed.

Lemma le_value_app a b :
  le_value (a ++ b)%list = le_value a + 256 ^ Z.of_nat (length a) * le_value b.
Proof.
  induction a as [|x a IH]; [simpl; lia|].
  cbn [app le_value length]. rewrite IH, Nat2Z.inj_succ, Z.pow_succ_r by lia. lia.
Qed.

(** A 32-bit value converted as if it were 64 bits wide. *)
Lemma le64_to_host_of_32 big l : bytes l -> length l = 4%nat ->
  le64_to_host big (value big l) = if big then le_value l * 2 ^ 32 else le_value l.
Proof.
  intros Hb Hl. unfold le64_to_host, u64. cbv zeta.
  pose proof (value_range big l Hb) as Hr. rewrite Hl in Hr. change (256 ^ _) with (2 ^ 32) in Hr.
  rewrite wrap_small by (unfold in_u; pow2; lia). destruct big; [|done].
  unfold builtin_bswap64. simpl value.
  assert (be_value l = be_value (repeat 0 4 ++ l)%list) as ->.
  { unfold be_value. rewrite rev_app_distr, le_value_app, length_rev, Hl. simpl. lia. }
  rewrite bswap_be_value.
  - rewrite le_value_app. simpl. lia.
  - apply bytes_app; [now apply Forall_repeat|done].
  - rewrite length_app, Hl. done.
Qed.

(** A 64-bit value converted as if it were 32 bits wide: a big-endian host
    keeps the other half. *)
Lemma le32_to_host_of_64 big l : bytes l -> length l = 8%nat ->
  le32_to_host big (value big l) =
    if big then le_value l / 2 ^ 32 else le_value l mod 2 ^ 32.
Proof.
  intros Hb Hl. rewrite <- (take_drop 4 l).
  set (a := take 4 l). set (b := drop 4 l).
  assert (Ha : length a = 4%nat) by (unfold a; rewrite length_take; lia).
  assert (Hb' : length b = 4%nat) by (unfold b; rewrite length_drop; lia).
  assert (Hba : bytes a) by now apply bytes_take. assert (Hbb : bytes b) by now apply bytes_drop.
  clearbody a b. rewrite le_value_app, Ha. change (256 ^ _) with (2 ^ 32).
  pose proof (le_value_range a Hba) as Hra. rewrite Ha in Hra. change (256 ^ _) with (2 ^ 32) in Hra.
  pose proof (le_value_range b Hbb) as Hrb. rewrite Hb' in Hrb. change (256 ^ _) with (2 ^ 32) in Hrb.
  unfold le32_to_host, u32, wrap. cbv zeta. destruct big; simpl value.
  - unfold be_value. rewrite rev_app_distr, le_value_app, length_rev, Hb'.
    change (256 ^ Z.of_nat 4) with (2 ^ 32). fold (be_value b) (be_value a).
    pose proof (value_range true b Hbb) as Hrb'. rewrite Hb' in Hrb'. simpl value in Hrb'.
    change (256 ^ _) with (2 ^ 32) in Hrb'.
    rewrite (Z.mul_comm (2 ^ 32) (be_value a)), Z_mod_plus_full, Z.mod_small by done.
    unfold builtin_bswap32. rewrite bswap_be_value by done.
    rewrite (Z.mul_comm (2 ^ 32)), Z.div_add, Z.div_small by lia. lia.
  - rewrite le_value_app, Ha. reflexivity.
Qed.

(** The members that are wider in PE32+ are read right only on
    little-endian hosts: there [getPEImageBase] returns the stored value and
    the stack and heap sizes return its low 32 bits. On a big-endian host the
    image base of a PE32 file comes out shifted up by 32 bits, and the sizes of
    a PE32+ file are the high halves of the stored values. *)
Theorem wide_accessors_read_file :
  image_ok L -> hasPEInfo kind = true ->
  getPEImageBase L kind =
    Done (if pe64 then raw L (opt64 "ImageBase")
          else if is_bigendian L then raw L (opt32 "ImageBase") * 2 ^ 32
          else raw L (opt32 "ImageBase")) /\
  Forall (fun a => fst a =
      Done (if pe64 then
              if is_bigendian L then raw L (opt64 (snd a)) / 2 ^ 32
              else raw L (opt64 (snd a)) mod 2 ^ 32
            else raw L (opt32 (snd a))))
    [(getPESizeOfStackReserve L kind, "SizeOfStackReserve");
     (getPESizeOfStackCommit L kind, "SizeOfStackCommit");
     (getPESizeOfHeapReserve L kind, "SizeOfHeapReserve");
     (getPESizeOfHeapCommit L kind, "SizeOfHeapCommit")].
Proof.
  intros Hi Hk. split.
  - unfold getPEImageBase, opt_get64, opt_field. rewrite isPE64_eq by done. cbn [obind].
    destruct pe64; [now rewrite le64_pd by (done || inside_)|].
    destruct (inside_slice L Hi 4 (opt32 "ImageBase")) as [? ?]; [inside_|].
    unfold pd, load, e, raw. rewrite le64_to_host_of_32 by done. now destruct (is_bigendian L).
  - repeat (apply List.Forall_cons; [cbn [fst snd]|]); try apply List.Forall_nil;
    match goal with |- _ = Done (if _ then if _ then raw L (opt64 ?f) / _ else _ else _) =>
      change (opt_get32 L kind f = Done
        (if pe64 then if is_bigendian L then raw L (opt64 f) / 2 ^ 32
                      else raw L (opt64 f) mod 2 ^ 32 else raw L (opt32 f)));
      unfold opt_get32, opt_field; rewrite isPE64_eq by done; cbn [obind];
      destruct pe64; [|now rewrite le32_pd by (done || inside_)];
      destruct (inside_slice L Hi 8 (opt64 f)) as [? ?]; [inside_|];
      unfold pd, load, e, raw; rewrite le32_to_host_of_64 by done;
      now destruct (is_bigendian L)
    end.
Qed.
End theorems.

(** ** Reading from the file *)

Lemma u32_add a b : u32 (u32 a + u32 b) = u32 (a + b).
Proof. unfold u32, wrap. symmetry. apply Zplus_mod. Qed.

Lemma u32_add3 a b c : u32 (u32 (u32 a + u32 b) + u32 c) = u32 (a + b + c).
Proof. now rewrite (u32_add a b), u32_add. Qed.

Lemma s32_of_small v : 0 <= v < 2 ^ 31 -> s32 (u32 v) = v.
Proof. cint. Qed.

Section reading.
Context {S : Type} (L : libclamav S) (ok : S -> Prop) (content : S -> list Z) (pos : S -> Z)
        `{!FileLaws L ok content pos} (kind : Z).

(** Where [readPESectionName] looks for the name of section [n]. *)
Definition section_name_offset (n : Z) : Z :=
  raw L (top "e_lfanew") + sizeof (CStruct file_hdr)
  + (if pe64 L then sizeof (CStruct hdr64)
     else raw L (sub "file_hdr" file_hdr "SizeOfOptionalHeader"))
  + n * sizeof (CStruct "pe_image_section_hdr").

(** A seek inside the file followed by a read of bytes the file has. *)
Lemma seek_read s o k r1 s1 r bs s2 : ok s ->
  0 <= o -> 0 <= k < 2 ^ 31 -> o + k <= Z.of_nat (length (content s)) -> o < 2 ^ 31 ->
  seek L s o SEEK_SET = (r1, s1) -> read L s1 k = (r, bs, s2) ->
  r1 = o /\ r = k /\ bs = slice o (Z.to_nat k) (content s) /\ ok s2 /\ content s2 = content s.
Proof.
  intros Hok Ho Hk Hin Ho' E1 E2.
  assert (H1 : fst (seek L s o SEEK_SET) = o) by (apply seek_set_inside; auto; lia).
  rewrite E1 in H1. simpl in H1. subst r1.
  apply seek_set in E1 as (Hok1 & Hc1 & [[_ Hp]|[-> _]]); [|lia|done].
  assert (Hin1 : pos s1 + k <= Z.of_nat (length (content s1))) by (rewrite Hp, Hc1; lia).
  pose proof (read_inside s1 k r bs s2 Hok1 Hk Hin1 E2) as ->.
  destruct (read_law s1 k k bs s2 Hok1 Hk E2) as (Hok2 & Hc2 & H2).
  destruct (H2 ltac:(lia)) as (_ & _ & ->). rewrite Hp, Hc1. repeat split; auto. congruence.
Qed.

(** [readPESectionName] rejects section numbers the file does not have, and
    for the others stores the eight bytes found in the file at e_lfanew + 24 +
    the optional header's size + 40 n. For PE32 that size is the header's own
    SizeOfOptionalHeader; for PE32+ it is the 112 bytes of the structure without
    its data directories. The file stays positioned at that offset, not where
    it was before. *)
Theorem readPESectionName_spec s name n :
  image_ok L -> hasPEInfo kind = true -> ok s -> length name = 8%nat -> 0 <= n ->
  (getNumberOfSections L <= n -> readPESectionName L kind s name n = Done (-1, name, s)) /\
  (n < getNumberOfSections L ->
   section_name_offset n + 8 <= Z.of_nat (length (content s)) ->
   section_name_offset n + 8 < 2 ^ 31 ->
   exists s', readPESectionName L kind s name n =
                Done (0, slice (section_name_offset n) 8 (content s), s') /\
              content s' = content s /\ pos s' = section_name_offset n).
Proof.
  intros Hi Hk Hok Hname Hn. unfold readPESectionName. rewrite NEED_PE_INFO_ok by done. cbn [obind].
  split; intros Hns; [now rewrite (proj2 (Z.leb_le _ _)) by lia|]. intros Hin H31.
  rewrite (proj2 (Z.leb_gt _ _)) by lia.
  unfold getPELFANew. rewrite NEED_PE_INFO_ok by done. cbn [obind].
  rewrite le32_pd by (done || inside_). rewrite isPE64_eq by done. cbn [obind].
  set (o := section_name_offset n) in *.
  pose proof (raw_range L Hi 4 (top "e_lfanew") ltac:(inside_)) as Hlf.
  pose proof (raw_range L Hi 2 (sub "file_hdr" file_hdr "SizeOfOptionalHeader") ltac:(inside_)) as Hso.
  assert (Hat : (let* at_ :=
      if negb (pe64 L)
      then let* o := getPESizeOfOptionalHeader L kind in
           Done (u32 (u32 (raw L (top "e_lfanew") + sizeof (CStruct file_hdr) + sizeof (CStruct hdr32))
                      + u32 (o - sizeof (CStruct hdr32))))
      else Done (u32 (u32 (raw L (top "e_lfanew") + sizeof (CStruct file_hdr) + sizeof (CStruct hdr32))
                      + u32 (sizeof (CStruct hdr64) - sizeof (CStruct hdr32)))) in
    Done (u32 (at_ + u32 (n * sizeof (CStruct "pe_image_section_hdr"))))) = Done (u32 o)).
  { unfold getPESizeOfOptionalHeader. rewrite hdr_get16_eq by (done || inside_). cbn [obind].
    unfold o, section_name_offset.
    destruct (pe64 L); simpl negb; cbv iota; cbn [obind]; rewrite u32_add3; do 2 f_equal; lia. }
  apply obind_Done in Hat as (at_ & Ea & Eb). rewrite Ea. cbn [obind].
  apply (f_equal (fun o => match o with Done v => v | _ => 0 end)) in Eb. cbn beta iota in Eb.
  rewrite Eb.
  assert (Ho : 0 <= o).
  { unfold o, section_name_offset, in_u in *. vm_compute (sizeof _). destruct (pe64 L); lia. }
  rewrite s32_of_small by (pow2; lia).
  destruct (seek L s o SEEK_SET) as [r1 s1] eqn:E1.
  destruct (read L s1 8) as [[r bs] s2] eqn:E2.
  destruct (seek_read s o 8 r1 s1 r bs s2) as (-> & -> & -> & Hok2 & Hc2); [done|lia..|done|done|].
  destruct (Z.eqb_spec o (-1)); [lia|]. simpl negb. cbv iota.
  destruct (seek L s2 o SEEK_SET) as [r3 s3] eqn:E3.
  exists s3. split.
  - do 3 f_equal. unfold store. rewrite drop_ge; [apply app_nil_r|].
    rewrite length_slice by lia. lia.
  - assert (H3 : fst (seek L s2 o SEEK_SET) = o)
      by (apply seek_set_inside; rewrite ?Hc2; auto; lia).
    rewrite E3 in H3. simpl in H3. subst r3.
    apply seek_set in E3 as (_ & Hc3 & [[_ Hp]|[? _]]); [|lia|done].
    split; [congruence|done].
Qed.

(** [readRVA] succeeds exactly by reading the requested bytes at the file
    offset libclamav maps the address to: for a mapped address and a size the
    file has there it stores those bytes at the start of the buffer and returns
    true; for an unmapped address it returns false and touches nothing; and
    whatever happens the file's content stays. *)
Theorem readRVA_spec s rva buf size :
  ok s -> 0 <= size < 2 ^ 31 -> size <= Z.of_nat (length buf) ->
  let off := pe_rawaddr L s (u32 rva) in
  (off = PE_INVALID_RVA -> readRVA L s rva buf size = (false, buf, s)) /\
  (0 <= off < 2 ^ 31 -> off + size <= Z.of_nat (length (content s)) ->
   exists s', readRVA L s rva buf size =
     (true, slice off (Z.to_nat size) (content s) ++ drop (Z.to_nat size) buf, s')%list /\
     content s' = content s /\ pos s' = off) /\
  content (readRVA L s rva buf size).2 = content s.
Proof.
  intros Hok Hsz Hbuf off. unfold readRVA. fold off.
  assert (Hs32 : s32 size = size) by (clear -Hsz; cint).
  assert (Hu32 : forall r, r = size -> u32 r = size) by (intros; subst; clear -Hsz; cint).
  split; [intros ->; reflexivity|]. split.
  - intros Ho Hin. destruct (Z.eqb_spec off PE_INVALID_RVA) as [E|_].
    { rewrite E in Ho. unfold PE_INVALID_RVA in Ho. pow2. lia. }
    replace (s32 off) with off by (clear -Ho; cint).
    destruct (seek L s off SEEK_SET) as [r1 s1] eqn:E1. rewrite Hs32.
    destruct (read L s1 size) as [[r bs] s2] eqn:E2.
    destruct (seek_read s off size r1 s1 r bs s2) as (-> & -> & -> & Hok2 & Hc2); [done|lia..|done|done|].
    destruct (Z.eqb_spec off (-1)); [lia|]. rewrite Hu32, Z.eqb_refl by done. simpl negb. cbv iota.
    destruct (seek L s2 off SEEK_SET) as [r3 s3] eqn:E3.
    exists s3. split.
    + unfold store. rewrite length_slice by lia. reflexivity.
    + assert (H3 : fst (seek L s2 off SEEK_SET) = off)
        by (apply seek_set_inside; rewrite ?Hc2; auto; lia).
      rewrite E3 in H3. simpl in H3. subst r3.
      apply seek_set in E3 as (_ & Hc3 & [[_ Hp]|[? _]]); [|lia|done].
      split; [congruence|done].
  - destruct (off =? _); [done|].
    destruct (seek L s _ _) as [r1 s1] eqn:E1.
    apply seek_set in E1 as (Hok1 & Hc1 & _); [|done].
    destruct (r1 =? -1); [done|]. rewrite Hs32.
    destruct (read L s1 size) as [[r bs] s2] eqn:E2.
    apply read_law in E2 as (Hok2 & Hc2 & _); [|done..].
    destruct (negb _); [simpl; congruence|].
    destruct (seek L s2 _ _) as [r3 s3] eqn:E3.
    apply seek_set in E3 as (_ & Hc3 & _); [|done]. simpl. congruence.
Qed.
End reading.

(** ** A PE file *)

Definition put (m : Z * nat) (v : Z) (img : list Z) : list Z :=
  store (Z.to_nat (fst m)) (le_bytes (snd m) v) img.

(** A DLL with two sections; e_lfanew is 4. *)
Definition demo_image (magic : Z) : list Z :=
  put (top "nsections") 2 (put (top "e_lfanew") 4
  (put (opt64 "Magic") magic (put (opt32 "Magic") magic
  (put (opt32 "ImageBase") 0x400000 (put (opt64 "ImageBase") 0x140000000
  (put (opt64 "SizeOfStackReserve") 0x100000 (put (opt32 "CheckSum") 0xcafe
  (put (sub "file_hdr" file_hdr "SizeOfOptionalHeader") 224
  (put (sub "file_hdr" file_hdr "Characteristics") 0x2102
  (repeat 0 648)))))))))).

Definition demo_pe (big : bool) (magic : Z) : libclamav file_engine :=
  engine 60 big [] [] (demo_image magic).
Definition demo_kind : Z := ev BytecodeKind "BC_PE_ALL".

Lemma demo_image_ok big magic : image_ok (demo_pe big magic).
Proof.
  split; [|vm_compute; reflexivity]. change (bytes (demo_image magic)). unfold demo_image.
  assert (Hput : forall m v img, bytes img -> bytes (put m v img)).
  { intros. unfold put, store. auto 10 with clambc. }
  repeat apply Hput. now apply Forall_repeat.
Qed.

Lemma accessors_read_file_witness :
  getPECheckSum (demo_pe true 0x10b) demo_kind = Done 0xcafe /\
  getPEisDLL (demo_pe true 0x10b) demo_kind = Done true.
Proof.
  destruct (accessors_read_file (demo_pe true 0x10b) demo_kind (demo_image_ok _ _) eq_refl)
    as (_ & H & _ & _ & _ & _ & Hd & _).
  split; [|rewrite Hd; vm_compute; reflexivity].
  unfold opt_accessors in H. rewrite List.Forall_forall in H.
  specialize (H (getPECheckSum (demo_pe true 0x10b) demo_kind, "CheckSum")
                ltac:(do 17 right; left; reflexivity)).
  cbn [fst snd] in H. rewrite H. vm_compute. reflexivity.
Defined.

Lemma wide_accessors_read_file_witness :
  getPEImageBase (demo_pe true 0x10b) demo_kind = Done (0x400000 * 2 ^ 32) /\
  getPEImageBase (demo_pe false 0x10b) demo_kind = Done 0x400000.
Proof.
  destruct (wide_accessors_read_file (demo_pe true 0x10b) demo_kind (demo_image_ok _ _) eq_refl)
    as [H1 _].
  destruct (wide_accessors_read_file (demo_pe false 0x10b) demo_kind (demo_image_ok _ _) eq_refl)
    as [H2 _].
  rewrite H1, H2. vm_compute. auto.
Defined.

Definition pe_file : file_engine :=
  {| fe_content := (repeat 0 300 ++ codes ".text" ++ repeat 0 100)%list; fe_pos := 7;
     fe_log := []; fe_virus := None |}.

Lemma pe_file_ok : fe_ok pe_file.
Proof. split; [in_range|vm_compute; intuition discriminate]. Qed.

(** The name of section 1 is found at 4 + 24 + 224 + 40 = 292 .. 300. *)
Lemma readPESectionName_spec_witness :
  exists s', readPESectionName (demo_pe false 0x10b) demo_kind pe_file (repeat 0 8) 1
             = Done (0, repeat 0 8, s') /\ fe_pos s' = 292 /\ fe_pos pe_file = 7.
Proof.
  destruct (readPESectionName_spec (demo_pe false 0x10b) fe_ok fe_content fe_pos demo_kind pe_file
    (repeat 0 8) 1 (demo_image_ok _ _) eq_refl pe_file_ok eq_refl ltac:(lia)) as [_ H].
  destruct H as (s' & H & _ & Hp); [vm_compute; reflexivity|vm_compute; discriminate
    |vm_compute; reflexivity|].
  exists s'. rewrite H, Hp. vm_compute. auto.
Defined.

Lemma readRVA_spec_witness :
  exists s', readRVA (demo_pe false 0x10b) pe_file 300 (repeat 0 6) 5
             = (true, [46; 116; 101; 120; 116; 0], s') /\ fe_pos s' = 300.
Proof.
  destruct (readRVA_spec (demo_pe false 0x10b) fe_ok fe_content fe_pos pe_file 300 (repeat 0 6) 5
    pe_file_ok ltac:(lia) ltac:(simpl; lia)) as (_ & H & _).
  destruct H as (s' & H & _ & Hp); [vm_compute; intuition discriminate|vm_compute; discriminate|].
  exists s'. rewrite H, Hp. vm_compute. auto.
Defined.
