(* ===== verification/Disasm.v ===== *)
(** * Disasm: DisassembleAt (headers/bytecode_local.h)

    The decoder of libclamav's 64-byte instruction descriptions (the type-8
    signature format, [DISASM_RESULT] of headers/bytecode_disasm.h) into the
    [DIS_fixed] structure bytecodes work with. *)
From S2P Require Import Prelude Enums Layout Host Local PE.
Local Open Scope string_scope.
Local Open Scope Z_scope.

(** ** Data: values of enum types are their numbers *)

Record DIS_mem_arg := {
  mem_access_size : Z; scale_reg : Z; add_reg : Z; scale : Z; displacement : Z
}.

(** The union [u] of a [DIS_arg], as the member last stored. *)
Inductive DIS_u :=
| u_mem (m : DIS_mem_arg)
| u_reg (r : Z)
| u_other (x : Z).

Record DIS_arg := { access_type : Z; access_size : Z; u : DIS_u }.

Record DIS_fixed := {
  x86_opcode : Z; operation_size : Z; address_size : Z; segment : Z;
  arg : list DIS_arg
}.

Definition ACCESS_MEM : Z := Eval vm_compute in ev DIS_ACCESS "ACCESS_MEM".
Definition ACCESS_REG : Z := Eval vm_compute in ev DIS_ACCESS "ACCESS_REG".

Section decode.
Context (is_bigendian : bool).

(** The byte at an offset of the result, and the memory from an offset on. *)
Definition res_byte (res : list Z) (o : Z) : Z := nth (Z.to_nat o) res 0.
Definition res_at (res : list Z) (o : Z) : list Z := drop (Z.to_nat o) res.
Definition res_off (f : string) : Z := offsetof "DISASM_RESULT" f.
(** [&res.arg[i][j]] *)
Definition arg_off (i j : Z) : Z := res_off "arg" + 10 * i + j.

(** The body of the loop for operand [i]; [old] is what the caller's structure
    held: its [access_size] is not written. *)
Definition decode_arg (res : list Z) (i : Z) (old : DIS_arg) : DIS_arg :=
  let a := res_byte res (arg_off i 0) in
  {| access_type := a;
     access_size := access_size old;
     u :=
       if a =? ACCESS_MEM then
         u_mem {| mem_access_size := res_byte res (arg_off i 1);
                  scale_reg := res_byte res (arg_off i 2);
                  add_reg := res_byte res (arg_off i 3);
                  scale := res_byte res (arg_off i 4);
                  displacement := s32 (cli_readint32 is_bigendian (res_at res (arg_off i 6))) |}
       else if a =? ACCESS_REG then u_reg (res_byte res (arg_off i 1))
       else
         let x := cli_readint32 is_bigendian (res_at res (arg_off i 6)) in
         u_other (Z.lor (u64 (Z.shiftl x 32))
                        (cli_readint32 is_bigendian (res_at res (arg_off i 2)))) |}.

Fixpoint decode_args (res : list Z) (i : Z) (old : list DIS_arg) : list DIS_arg :=
  match old with
  | [] => []
  | a :: old => decode_arg res i a :: decode_args res (i + 1) old
  end.

Definition decode (res : list Z) (old : DIS_fixed) : DIS_fixed :=
  {| x86_opcode := cli_readint16 is_bigendian (res_at res (res_off "real_op"));
     operation_size := res_byte res (res_off "opsize");
     address_size := res_byte res (res_off "adsize");
     segment := res_byte res (res_off "segment");
     arg := decode_args res 0 (arg old) |}.
End decode.

(** [result] is the structure behind the pointer before the call. *)
Definition DisassembleAt {S} (L : libclamav S) (s : S) (result : DIS_fixed) (offset len : Z)
    : Z * DIS_fixed * S :=
  let size := sizeof (CStruct "DISASM_RESULT") in
  let res := repeat 0 (Z.to_nat size) in
  let '(_, s) := seek L s (s32 offset) SEEK_SET in
  let '(offset, res, s) := disasm_x86 L s res (if len <? size then len else size) in
  (u32 offset, decode (is_bigendian L) res result, s).

(** ** The format *)

(** The ten bytes that describe an operand, and the 64 of an instruction. *)
Definition encode_arg (a : DIS_arg) : list Z :=
  match u a with
  | u_mem m => [access_type a; mem_access_size m; scale_reg m; add_reg m; scale m; 0]
               ++ le_bytes 4 (displacement m)
  | u_reg r => [access_type a; r] ++ repeat 0 8
  | u_other x => [access_type a; 0] ++ le_bytes 8 x
  end%list.
Definition encode (d : DIS_fixed) : list Z :=
  (le_bytes 2 (x86_opcode d) ++ [operation_size d; address_size d; segment d]
   ++ concat (map encode_arg (arg d)) ++ repeat 0 29)%list.

(** Operands whose member of the union matches the access type and whose
    numbers fit their fields. *)
Definition arg_ok (a : DIS_arg) : Prop :=
  match u a with
  | u_mem m => access_type a = ACCESS_MEM /\ in_s 32 (displacement m) /\
               bytes [mem_access_size m; scale_reg m; add_reg m; scale m]
  | u_reg r => access_type a = ACCESS_REG /\ byte r
  | u_other x => byte (access_type a) /\ access_type a <> ACCESS_MEM /\
                 access_type a <> ACCESS_REG /\ in_u 64 x
  end.
Definition instr_ok (d : DIS_fixed) : Prop :=
  in_u 16 (x86_opcode d) /\ bytes [operation_size d; address_size d; segment d] /\
  length (arg d) = 3%nat /\ Forall arg_ok (arg d).

Lemma encode_arg_bytes a : arg_ok a -> bytes (encode_arg a) /\ length (encode_arg a) = 10%nat.
Proof.
  unfold arg_ok, encode_arg. destruct (u a) as [m|r|x].
  - intros (-> & _ & H). split; [|reflexivity].
    apply bytes_app; [|apply le_bytes_bytes].
    change (bytes ([ACCESS_MEM] ++ [mem_access_size m; scale_reg m; add_reg m; scale m] ++ [0])).
    repeat apply bytes_app; [in_range|done|in_range].
  - intros (-> & H). split; [|reflexivity].
    change (bytes ([ACCESS_REG] ++ [r] ++ repeat 0 8)).
    repeat apply bytes_app; [in_range|now constructor|now apply Forall_repeat].
  - intros (H & _). split; [|reflexivity].
    change (bytes ([access_type a] ++ [0] ++ le_bytes 8 x)).
    repeat apply bytes_app; [now constructor|in_range|apply le_bytes_bytes].
Qed.

(** Decoding the ten bytes of an operand wherever they are in the result. *)
Lemma decode_arg_encode e pre post a old i :
  arg_ok a -> Z.of_nat (length pre) = arg_off i 0 -> bytes post ->
  decode_arg e (pre ++ encode_arg a ++ post)%list i old =
    {| access_type := access_type a; access_size := access_size old; u := u a |}.
Proof.
  intros Ha Hpre Hpost. pose proof (encode_arg_bytes a Ha) as [Hb Hl].
  assert (Hoff : forall j, 0 <= j -> arg_off i j = Z.of_nat (length pre) + j).
  { intros j Hj. rewrite Hpre. unfold arg_off. lia. }
  assert (Hn : forall j, (j < 10)%nat ->
    res_byte (pre ++ encode_arg a ++ post) (arg_off i (Z.of_nat j)) = nth j (encode_arg a) 0).
  { intros j Hj. unfold res_byte. rewrite Hoff by lia.
    rewrite app_nth2, app_nth1 by lia. f_equal. lia. }
  assert (Hd : forall j, (j <= 10)%nat ->
    res_at (pre ++ encode_arg a ++ post) (arg_off i (Z.of_nat j))
    = (drop j (encode_arg a) ++ post)%list).
  { intros j Hj. unfold res_at. rewrite Hoff by lia.
    rewrite drop_app_ge by lia. rewrite drop_app_le by lia. do 2 f_equal. lia. }
  pose proof (Hn 0%nat ltac:(lia)) as H0. pose proof (Hn 1%nat ltac:(lia)) as H1.
  pose proof (Hn 2%nat ltac:(lia)) as H2. pose proof (Hn 3%nat ltac:(lia)) as H3.
  pose proof (Hn 4%nat ltac:(lia)) as H4.
  pose proof (Hd 2%nat ltac:(lia)) as D2. pose proof (Hd 6%nat ltac:(lia)) as D6.
  change (Z.of_nat 0) with 0 in H0. change (Z.of_nat 1) with 1 in H1.
  change (Z.of_nat 2) with 2 in H2, D2. change (Z.of_nat 3) with 3 in H3.
  change (Z.of_nat 4) with 4 in H4. change (Z.of_nat 6) with 6 in D6.
  assert (Hr : forall j, (j <= 6)%nat ->
    cli_readint32 e (drop j (encode_arg a) ++ post) = le_value (take 4 (drop j (encode_arg a)))).
  { intros j Hj. rewrite cli_readint32_value.
    - f_equal. apply take_app_le. rewrite length_drop. lia.
    - auto with clambc.
    - rewrite length_app, length_drop. lia. }
  unfold decode_arg. rewrite H0, H1, H2, H3, H4, D2, D6, !Hr by lia.
  clear H0 H1 H2 H3 H4 D2 D6 Hn Hd Hr Hb Hl. unfold arg_ok, encode_arg in *.
  destruct (u a) as [m|r|x].
  - destruct Ha as (-> & Hdisp & _). cbn [app nth Z.eqb ACCESS_MEM Pos.eqb].
    do 2 f_equal. change (take 4 (drop 6 _)) with (le_bytes 4 (displacement m)).
    rewrite le_value_bytes. change (256 ^ _) with (2 ^ 32). destruct m; simpl in *. f_equal.
    clear -Hdisp. cint.
  - destruct Ha as (-> & _). reflexivity.
  - destruct Ha as (_ & Hm & Hg & Hx). cbn [app nth].
    rewrite (proj2 (Z.eqb_neq _ _) Hm), (proj2 (Z.eqb_neq _ _) Hg). do 2 f_equal.
    change (take 4 (drop 2 _)) with (le_bytes 4 x).
    change (take 4 (drop 6 _)) with (le_bytes 4 (x / 256 / 256 / 256 / 256)).
    rewrite !le_value_bytes. change (256 ^ _) with (2 ^ 32).
    rewrite !Z.div_div by lia. change (256 * (256 * (256 * 256))) with (2 ^ 32).
    assert (Hhi : 0 <= x / 2 ^ 32 < 2 ^ 32) by (unfold in_u in Hx; pow2; Z.div_mod_to_equations; lia).
    rewrite (Z.mod_small (x / _)) by done.
    unfold u64, wrap. rewrite (Z.mod_small (Z.shiftl _ _)).
    2:{ rewrite Z.shiftl_mul_pow2 by lia. pow2. lia. }
    rewrite <- (Z.land_ones x), <- Z.shiftr_div_pow2 by lia.
    apply Z.bits_inj. intros k. destruct (Z.ltb_spec k 0); [now rewrite !Z.testbit_neg_r|].
    rewrite Z.lor_spec, Z.shiftl_spec, Z.land_spec by lia.
    destruct (Z.ltb_spec k 32).
    + rewrite (Z.testbit_neg_r _ (k - 32)) by lia. rewrite Z.ones_spec_low by lia.
      now rewrite andb_true_r.
    + rewrite Z.shiftr_spec by lia. rewrite Z.ones_spec_high by lia. rewrite andb_false_r.
      rewrite orb_false_r. f_equal. lia.
Qed.

Lemma encode_args_bytes args : Forall arg_ok args ->
  bytes (concat (map encode_arg args)) /\
  length (concat (map encode_arg args)) = (10 * length args)%nat.
Proof.
  induction 1 as [|a args Ha _ [IHb IHl]]; [split; [constructor|done]|].
  pose proof (encode_arg_bytes a Ha) as [Hb Hl]. cbn [map concat]. split.
  - now apply bytes_app.
  - rewrite length_app. cbn [length]. lia.
Qed.

(** A decoded operand, in the caller's old structure. *)
Definition decoded (a old : DIS_arg) : DIS_arg :=
  {| access_type := access_type a; access_size := access_size old; u := u a |}.

Lemma decode_args_encode e pre post args old i :
  Forall arg_ok args -> length old = length args ->
  Z.of_nat (length pre) = arg_off i 0 -> bytes post ->
  decode_args e (pre ++ concat (map encode_arg args) ++ post)%list i old =
    zip_with decoded args old.
Proof.
  intros Ha. revert pre old i. induction Ha as [|a args Ha Hargs IH]; intros pre old i Hlen Hpre Hpost.
  { apply nil_length_inv in Hlen as ->. done. }
  destruct old as [|o old]; [done|]. injection Hlen as Hlen.
  pose proof (encode_arg_bytes a Ha) as [_ Hl].
  pose proof (encode_args_bytes args Hargs) as [Hb _].
  cbn [map concat decode_args zip_with]. rewrite <- (app_assoc (encode_arg a)). f_equal.
  - apply decode_arg_encode; auto. now apply bytes_app.
  - rewrite app_assoc. apply IH; auto. rewrite length_app. unfold arg_off in *. lia.
Qed.

(** C38: On hosts of either byte order [DisassembleAt] returns what disasm_x86
    answers and decodes the 64-byte description it stored: whatever instruction
    the description encodes (opcode, sizes, segment, and three operands that
    are memory references with a signed displacement, registers, or 64-bit
    values) comes back field by field. The [access_size] of the operands
    themselves is left as the caller had it. *)
Theorem DisassembleAt_decodes {S} (L : libclamav S) (s : S) (d old : DIS_fixed) (offset len : Z) r s' :
  instr_ok d -> length (arg old) = 3%nat ->
  disasm_x86 L (snd (seek L s (s32 offset) SEEK_SET)) (repeat 0 64) (Z.min len 64)
    = (r, encode d, s') ->
  DisassembleAt L s old offset len =
    (u32 r,
     {| x86_opcode := x86_opcode d; operation_size := operation_size d;
        address_size := address_size d; segment := segment d;
        arg := zip_with decoded (arg d) (arg old) |}, s').
Proof.
  intros (Hop & Hbs & Hn & Hargs) Hold Hd. unfold DisassembleAt.
  change (sizeof (CStruct "DISASM_RESULT")) with 64. change (Z.to_nat 64) with 64%nat.
  destruct (seek L s (s32 offset) SEEK_SET) as [z s1]. cbn [snd] in Hd.
  replace (if len <? 64 then len else 64) with (Z.min len 64)
    by (destruct (Z.ltb_spec len 64); lia).
  rewrite Hd. do 2 f_equal. unfold decode. f_equal.
  - unfold res_at. change (Z.to_nat (res_off "real_op")) with O. rewrite drop_0.
    pose proof (encode_args_bytes _ Hargs) as [Hb Hl].
    rewrite cli_readint16_value.
    + unfold encode. rewrite firstn_exact by apply length_le_bytes. rewrite le_value_bytes.
      now apply Z.mod_small.
    + unfold encode. repeat apply bytes_app; auto with clambc. now apply Forall_repeat.
    + unfold encode. rewrite length_app, length_le_bytes. lia.
  - unfold encode.
    rewrite (app_assoc (le_bytes 2 _)). apply decode_args_encode; auto.
    + now rewrite Hn.
    + now apply Forall_repeat.
Qed.

(** mov eax, [ebp-8]: a register and a memory operand. *)
Definition mov : DIS_fixed :=
  {| x86_opcode := ev X86OPS "OP_MOV"; operation_size := ev DIS_SIZE "SIZED";
     address_size := ev DIS_SIZE "SIZED"; segment := ev X86REGS "X86_REG_SS";
     arg := [{| access_type := ACCESS_REG; access_size := 0; u := u_reg (ev X86REGS "X86_REG_EAX") |};
             {| access_type := ACCESS_MEM; access_size := 0;
                u := u_mem {| mem_access_size := ev DIS_SIZE "SIZED";
                              scale_reg := ev X86REGS "X86_REG_INVALID";
                              add_reg := ev X86REGS "X86_REG_EBP"; scale := 0;
                              displacement := -8 |} |};
             {| access_type := ev DIS_ACCESS "ACCESS_NOARG"; access_size := 0; u := u_other 0 |}] |}.

(** An engine whose disassembler always answers with that instruction. *)
Definition mov_engine : libclamav unit := {|
  read := fun s _ => (0, [], s); seek := fun s p _ => (p, s);
  file_find_limit := fun s _ _ _ => (-1, s); fill_buffer := fun s b _ _ _ _ => (0, b, s);
  disasm_x86 := fun s _ _ => (0, encode mov, s);
  setvirusname := fun s _ _ => s; debug_print_str := fun s _ _ => s;
  debug_print_uint := fun s _ => s; pe_rawaddr := fun _ r => r;
  get_pe_section := fun _ b _ => (-1, b);
  engine_functionality_level := 60; is_bigendian := true;
  match_counts := []; match_offsets := []; filesize := 0; pedata := [] |}.

Lemma DisassembleAt_decodes_witness :
  (DisassembleAt mov_engine tt mov 0x1000 16).1.2 = mov.
Proof.
  rewrite (DisassembleAt_decodes mov_engine tt mov mov 0x1000 16 0 tt); [reflexivity| | |reflexivity].
  - split; [in_range|]. split; [in_range|]. split; [reflexivity|].
    repeat (apply List.Forall_cons; [|]); try apply List.Forall_nil.
    + split; [reflexivity|in_range].
    + split; [reflexivity|]. split; [split; [discriminate|reflexivity]|in_range].
    + split; [in_range|]. split; [discriminate|]. split; [discriminate|in_range].
  - reflexivity.
Defined.
