(* ===== verification/ApiHeader.v ===== *)
(** * ApiHeader: the functions and globals headers/bytecode_api.h declares

    One row per prototype, in the order of the header: the order is the
    interface, since a bytecode refers to a function by its position. *)
From S2P Require Import Prelude Enums Layout.
Local Open Scope string_scope.
Local Open Scope Z_scope.

(** A function prototype: name, return type, parameter types. *)
Record prototype := Proto { p_name : string; p_ret : ctype; p_params : list ctype }.

(** 0.96: files, scanning, debugging, tracing, PE *)
Definition api_096_core : list prototype := [
  Proto "test1" (CUInt 32) [(CUInt 32); (CUInt 32)];
  Proto "read" (CInt 32) [(CPtr (CUInt 8)); (CInt 32)];
  Proto "write" (CInt 32) [(CPtr (CUInt 8)); (CInt 32)];
  Proto "seek" (CInt 32) [(CInt 32); (CUInt 32)];
  Proto "setvirusname" (CUInt 32) [(CPtr (CConst (CUInt 8))); (CUInt 32)];
  Proto "debug_print_str" (CUInt 32) [(CPtr (CConst (CUInt 8))); (CUInt 32)];
  Proto "debug_print_uint" (CUInt 32) [(CUInt 32)];
  Proto "disasm_x86" (CUInt 32) [(CPtr (CStruct "DISASM_RESULT")); (CUInt 32)];
  Proto "trace_directory" (CUInt 32) [(CPtr (CConst (CUInt 8))); (CUInt 32)];
  Proto "trace_scope" (CUInt 32) [(CPtr (CConst (CUInt 8))); (CUInt 32)];
  Proto "trace_source" (CUInt 32) [(CPtr (CConst (CUInt 8))); (CUInt 32)];
  Proto "trace_op" (CUInt 32) [(CPtr (CConst (CUInt 8))); (CUInt 32)];
  Proto "trace_value" (CUInt 32) [(CPtr (CConst (CUInt 8))); (CUInt 32)];
  Proto "trace_ptr" (CUInt 32) [(CPtr (CConst (CUInt 8))); (CUInt 32)];
  Proto "pe_rawaddr" (CUInt 32) [(CUInt 32)];
  Proto "file_find" (CInt 32) [(CPtr (CConst (CUInt 8))); (CUInt 32)];
  Proto "file_byteat" (CInt 32) [(CUInt 32)];
  Proto "malloc" (CPtr CVoid) [(CUInt 32)];
  Proto "test2" (CUInt 32) [(CUInt 32)]].

(** 0.96: sections, buffers, hashsets *)
Definition api_096_adt : list prototype := [
  Proto "get_pe_section" (CInt 32) [(CPtr (CStruct "cli_exe_section")); (CUInt 32)];
  Proto "fill_buffer" (CInt 32) [(CPtr (CUInt 8)); (CUInt 32); (CUInt 32); (CUInt 32); (CUInt 32)];
  Proto "extract_new" (CInt 32) [(CInt 32)];
  Proto "read_number" (CInt 32) [(CUInt 32)];
  Proto "hashset_new" (CInt 32) [];
  Proto "hashset_add" (CInt 32) [(CInt 32); (CUInt 32)];
  Proto "hashset_remove" (CInt 32) [(CInt 32); (CUInt 32)];
  Proto "hashset_contains" (CInt 32) [(CInt 32); (CUInt 32)];
  Proto "hashset_done" (CInt 32) [(CInt 32)];
  Proto "hashset_empty" (CInt 32) [(CInt 32)]].

(** 0.96: buffer pipes and inflate *)
Definition api_096_pipes : list prototype := [
  Proto "buffer_pipe_new" (CInt 32) [(CUInt 32)];
  Proto "buffer_pipe_new_fromfile" (CInt 32) [(CUInt 32)];
  Proto "buffer_pipe_read_avail" (CUInt 32) [(CInt 32)];
  Proto "buffer_pipe_read_get" (CPtr (CConst (CUInt 8))) [(CInt 32); (CUInt 32)];
  Proto "buffer_pipe_read_stopped" (CInt 32) [(CInt 32); (CUInt 32)];
  Proto "buffer_pipe_write_avail" (CUInt 32) [(CInt 32)];
  Proto "buffer_pipe_write_get" (CPtr (CUInt 8)) [(CInt 32); (CUInt 32)];
  Proto "buffer_pipe_write_stopped" (CInt 32) [(CInt 32); (CUInt 32)];
  Proto "buffer_pipe_done" (CInt 32) [(CInt 32)];
  Proto "inflate_init" (CInt 32) [(CInt 32); (CInt 32); (CInt 32)];
  Proto "inflate_process" (CInt 32) [(CInt 32)];
  Proto "inflate_done" (CInt 32) [(CInt 32)]].

(** 0.96: runtime errors and the JavaScript normalizer *)
Definition api_096_js : list prototype := [
  Proto "bytecode_rt_error" (CInt 32) [(CInt 32)];
  Proto "jsnorm_init" (CInt 32) [(CInt 32)];
  Proto "jsnorm_process" (CInt 32) [(CInt 32)];
  Proto "jsnorm_done" (CInt 32) [(CInt 32)]].

(** 0.96.1: math *)
Definition api_0961_math : list prototype := [
  Proto "ilog2" (CInt 32) [(CUInt 32); (CUInt 32)];
  Proto "ipow" (CInt 32) [(CInt 32); (CInt 32); (CInt 32)];
  Proto "iexp" (CUInt 32) [(CInt 32); (CInt 32); (CInt 32)];
  Proto "isin" (CInt 32) [(CInt 32); (CInt 32); (CInt 32)];
  Proto "icos" (CInt 32) [(CInt 32); (CInt 32); (CInt 32)]].

(** 0.96.1: strings *)
Definition api_0961_strings : list prototype := [
  Proto "memstr" (CInt 32) [(CPtr (CConst (CUInt 8))); (CInt 32); (CPtr (CConst (CUInt 8))); (CInt 32)];
  Proto "hex2ui" (CInt 32) [(CUInt 32); (CUInt 32)];
  Proto "atoi" (CInt 32) [(CPtr (CConst (CUInt 8))); (CInt 32)];
  Proto "debug_print_str_start" (CUInt 32) [(CPtr (CConst (CUInt 8))); (CUInt 32)];
  Proto "debug_print_str_nonl" (CUInt 32) [(CPtr (CConst (CUInt 8))); (CUInt 32)];
  Proto "entropy_buffer" (CUInt 32) [(CPtr (CUInt 8)); (CInt 32)]].

(** 0.96.1: maps *)
Definition api_0961_maps : list prototype := [
  Proto "map_new" (CInt 32) [(CInt 32); (CInt 32)];
  Proto "map_addkey" (CInt 32) [(CPtr (CConst (CUInt 8))); (CInt 32); (CInt 32)];
  Proto "map_setvalue" (CInt 32) [(CPtr (CConst (CUInt 8))); (CInt 32); (CInt 32)];
  Proto "map_remove" (CInt 32) [(CPtr (CConst (CUInt 8))); (CInt 32); (CInt 32)];
  Proto "map_find" (CInt 32) [(CPtr (CConst (CUInt 8))); (CInt 32); (CInt 32)];
  Proto "map_getvaluesize" (CInt 32) [(CInt 32)];
  Proto "map_getvalue" (CPtr (CUInt 8)) [(CInt 32); (CInt 32)];
  Proto "map_done" (CInt 32) [(CInt 32)]].

(** 0.96.1: file search, engine and environment queries *)
Definition api_0961_engine : list prototype := [
  Proto "file_find_limit" (CInt 32) [(CPtr (CConst (CUInt 8))); (CUInt 32); (CInt 32)];
  Proto "engine_functionality_level" (CUInt 32) [];
  Proto "engine_dconf_level" (CUInt 32) [];
  Proto "engine_scan_options" (CUInt 32) [];
  Proto "engine_db_options" (CUInt 32) [];
  Proto "extract_set_container" (CInt 32) [(CUInt 32)];
  Proto "input_switch" (CInt 32) [(CInt 32)]].

(** 0.96.2: platform checks, disabling, version comparison *)
Definition api_0962_platform : list prototype := [
  Proto "get_environment" (CUInt 32) [(CPtr (CStruct "cli_environment")); (CUInt 32)];
  Proto "disable_bytecode_if" (CUInt 32) [(CPtr (CConst (CInt 8))); (CUInt 32); (CUInt 32)];
  Proto "disable_jit_if" (CUInt 32) [(CPtr (CConst (CInt 8))); (CUInt 32); (CUInt 32)];
  Proto "version_compare" (CInt 32) [(CPtr (CConst (CUInt 8))); (CUInt 32); (CPtr (CConst (CUInt 8))); (CUInt 32)];
  Proto "check_platform" (CUInt 32) [(CUInt 32); (CUInt 32); (CUInt 32)]].

(** 0.96.2: PDF objects *)
Definition api_0962_pdf : list prototype := [
  Proto "pdf_get_obj_num" (CInt 32) [];
  Proto "pdf_get_flags" (CInt 32) [];
  Proto "pdf_set_flags" (CInt 32) [(CInt 32)];
  Proto "pdf_lookupobj" (CInt 32) [(CUInt 32)];
  Proto "pdf_getobjsize" (CUInt 32) [(CInt 32)];
  Proto "pdf_getobj" (CPtr (CConst (CUInt 8))) [(CInt 32); (CUInt 32)];
  Proto "pdf_getobjid" (CInt 32) [(CInt 32)];
  Proto "pdf_getobjflags" (CInt 32) [(CInt 32)];
  Proto "pdf_setobjflags" (CInt 32) [(CInt 32); (CInt 32)];
  Proto "pdf_get_offset" (CInt 32) [(CInt 32)];
  Proto "pdf_get_phase" (CInt 32) [];
  Proto "pdf_get_dumpedobjid" (CInt 32) []].

(** 0.96.2 and 0.96.4: icons, running on JIT, file properties *)
Definition api_0964_icons : list prototype := [
  Proto "matchicon" (CInt 32) [(CPtr (CConst (CUInt 8))); (CInt 32); (CPtr (CConst (CUInt 8))); (CInt 32)];
  Proto "running_on_jit" (CInt 32) [];
  Proto "get_file_reliability" (CInt 32) []].

(** 0.98.4: JSON *)
Definition api_098_json : list prototype := [
  Proto "json_is_active" (CInt 32) [];
  Proto "json_get_object" (CInt 32) [(CPtr (CConst (CInt 8))); (CInt 32); (CInt 32)];
  Proto "json_get_type" (CInt 32) [(CInt 32)];
  Proto "json_get_array_length" (CInt 32) [(CInt 32)];
  Proto "json_get_array_idx" (CInt 32) [(CInt 32); (CInt 32)];
  Proto "json_get_string_length" (CInt 32) [(CInt 32)];
  Proto "json_get_string" (CInt 32) [(CPtr (CInt 8)); (CInt 32); (CInt 32)];
  Proto "json_get_boolean" (CInt 32) [(CInt 32)];
  Proto "json_get_int" (CInt 32) [(CInt 32)]].

(** 0.101: scan options *)
Definition api_0101_scan : list prototype := [
  Proto "engine_scan_options_ex" (CUInt 32) [(CPtr (CConst (CUInt 8))); (CUInt 32)]].

(** 0.103: lzma and bzip2 *)
Definition api_0103_lzma : list prototype := [
  Proto "lzma_init" (CInt 32) [(CInt 32); (CInt 32)];
  Proto "lzma_process" (CInt 32) [(CInt 32)];
  Proto "lzma_done" (CInt 32) [(CInt 32)];
  Proto "bzip2_init" (CInt 32) [(CInt 32); (CInt 32)];
  Proto "bzip2_process" (CInt 32) [(CInt 32)];
  Proto "bzip2_done" (CInt 32) [(CInt 32)]].


(** Every prototype, in order. *)
Definition api_functions : list prototype :=
  (api_096_core ++ api_096_adt ++ api_096_pipes ++ api_096_js ++ api_0961_math ++ api_0961_strings ++ api_0961_maps ++ api_0961_engine ++ api_0962_platform ++ api_0962_pdf ++ api_0964_icons ++ api_098_json ++ api_0101_scan ++ api_0103_lzma)%list.

(** The global variables a bytecode can read. *)
Definition api_globals : list (string * ctype) := [
  ("__clambc_match_counts", CConst (CArr 64 (CUInt 32)));
  ("__clambc_match_offsets", CConst (CArr 64 (CUInt 32)));
  ("__clambc_pedata", CConst (CStruct "cli_pe_hook_data"));
  ("__clambc_filesize", CConst (CArr 1 (CUInt 32)));
  ("__clambc_kind", CConst (CUInt 16))].
