(* ===== verification/ApiDecl.v ===== *)
(** * ApiDecl: the tables of headers/bytecode_api_decl.c.h

    The C tables libclamav compiles in to type-check and dispatch the calls of
    a bytecode, as they stand in the repository. IfaceGen.v models the
    generator that writes them. *)
From S2P Require Import Prelude.
Local Open Scope string_scope.
Local Open Scope Z_scope.

(** A prototype: return type, name after [cli_bcapi_], parameter types after
    the context. *)
Record bcapi := Bcapi { b_ret : string; b_name : string; b_params : list string }.
(** struct cli_apiglobal; the offset as the member of [hooks]. *)
Record apiglobal := ApiGlobal { g_name : string; g_id : string; g_type : Z; g_hook : string }.
(** struct cli_bc_type: kind, number of the cli_tmp array, element count. *)
Inductive type_kind := DFunctionType | DPointerType | DStructType | DArrayType.
Record bc_type := BcType { t_kind : type_kind; t_tmp : Z; t_count : Z }.
(** struct cli_apicall *)
Record apicall := ApiCall { a_name : string; a_type : Z; a_idx : Z; a_kind : Z }.

(** the prototypes of the implementations *)
Definition bcapi_protos : list bcapi := [
  Bcapi "uint32_t" "test1" ["uint32_t"; "uint32_t"];
  Bcapi "int32_t" "read" ["uint8_t*"; "int32_t"];
  Bcapi "int32_t" "write" ["uint8_t*"; "int32_t"];
  Bcapi "int32_t" "seek" ["int32_t"; "uint32_t"];
  Bcapi "uint32_t" "setvirusname" ["const uint8_t*"; "uint32_t"];
  Bcapi "uint32_t" "debug_print_str" ["const uint8_t*"; "uint32_t"];
  Bcapi "uint32_t" "debug_print_uint" ["uint32_t"];
  Bcapi "uint32_t" "disasm_x86" ["struct DISASM_RESULT*"; "uint32_t"];
  Bcapi "uint32_t" "trace_directory" ["const uint8_t*"; "uint32_t"];
  Bcapi "uint32_t" "trace_scope" ["const uint8_t*"; "uint32_t"];
  Bcapi "uint32_t" "trace_source" ["const uint8_t*"; "uint32_t"];
  Bcapi "uint32_t" "trace_op" ["const uint8_t*"; "uint32_t"];
  Bcapi "uint32_t" "trace_value" ["const uint8_t*"; "uint32_t"];
  Bcapi "uint32_t" "trace_ptr" ["const uint8_t*"; "uint32_t"];
  Bcapi "uint32_t" "pe_rawaddr" ["uint32_t"];
  Bcapi "int32_t" "file_find" ["const uint8_t*"; "uint32_t"];
  Bcapi "int32_t" "file_byteat" ["uint32_t"];
  Bcapi "uint8_t*" "malloc" ["uint32_t"];
  Bcapi "uint32_t" "test2" ["uint32_t"];
  Bcapi "int32_t" "get_pe_section" ["struct cli_exe_section*"; "uint32_t"];
  Bcapi "int32_t" "fill_buffer" ["uint8_t*"; "uint32_t"; "uint32_t"; "uint32_t"; "uint32_t"];
  Bcapi "int32_t" "extract_new" ["int32_t"];
  Bcapi "int32_t" "read_number" ["uint32_t"];
  Bcapi "int32_t" "hashset_new" [];
  Bcapi "int32_t" "hashset_add" ["int32_t"; "uint32_t"];
  Bcapi "int32_t" "hashset_remove" ["int32_t"; "uint32_t"];
  Bcapi "int32_t" "hashset_contains" ["int32_t"; "uint32_t"];
  Bcapi "int32_t" "hashset_done" ["int32_t"];
  Bcapi "int32_t" "hashset_empty" ["int32_t"];
  Bcapi "int32_t" "buffer_pipe_new" ["uint32_t"];
  Bcapi "int32_t" "buffer_pipe_new_fromfile" ["uint32_t"];
  Bcapi "uint32_t" "buffer_pipe_read_avail" ["int32_t"];
  Bcapi "const uint8_t*" "buffer_pipe_read_get" ["int32_t"; "uint32_t"];
  Bcapi "int32_t" "buffer_pipe_read_stopped" ["int32_t"; "uint32_t"];
  Bcapi "uint32_t" "buffer_pipe_write_avail" ["int32_t"];
  Bcapi "uint8_t*" "buffer_pipe_write_get" ["int32_t"; "uint32_t"];
  Bcapi "int32_t" "buffer_pipe_write_stopped" ["int32_t"; "uint32_t"];
  Bcapi "int32_t" "buffer_pipe_done" ["int32_t"];
  Bcapi "int32_t" "inflate_init" ["int32_t"; "int32_t"; "int32_t"];
  Bcapi "int32_t" "inflate_process" ["int32_t"];
  Bcapi "int32_t" "inflate_done" ["int32_t"];
  Bcapi "int32_t" "bytecode_rt_error" ["int32_t"];
  Bcapi "int32_t" "jsnorm_init" ["int32_t"];
  Bcapi "int32_t" "jsnorm_process" ["int32_t"];
  Bcapi "int32_t" "jsnorm_done" ["int32_t"];
  Bcapi "int32_t" "ilog2" ["uint32_t"; "uint32_t"];
  Bcapi "int32_t" "ipow" ["int32_t"; "int32_t"; "int32_t"];
  Bcapi "uint32_t" "iexp" ["int32_t"; "int32_t"; "int32_t"];
  Bcapi "int32_t" "isin" ["int32_t"; "int32_t"; "int32_t"];
  Bcapi "int32_t" "icos" ["int32_t"; "int32_t"; "int32_t"];
  Bcapi "int32_t" "memstr" ["const uint8_t*"; "int32_t"; "const uint8_t*"; "int32_t"];
  Bcapi "int32_t" "hex2ui" ["uint32_t"; "uint32_t"];
  Bcapi "int32_t" "atoi" ["const uint8_t*"; "int32_t"];
  Bcapi "uint32_t" "debug_print_str_start" ["const uint8_t*"; "uint32_t"];
  Bcapi "uint32_t" "debug_print_str_nonl" ["const uint8_t*"; "uint32_t"];
  Bcapi "uint32_t" "entropy_buffer" ["uint8_t*"; "int32_t"];
  Bcapi "int32_t" "map_new" ["int32_t"; "int32_t"];
  Bcapi "int32_t" "map_addkey" ["const uint8_t*"; "int32_t"; "int32_t"];
  Bcapi "int32_t" "map_setvalue" ["const uint8_t*"; "int32_t"; "int32_t"];
  Bcapi "int32_t" "map_remove" ["const uint8_t*"; "int32_t"; "int32_t"];
  Bcapi "int32_t" "map_find" ["const uint8_t*"; "int32_t"; "int32_t"];
  Bcapi "int32_t" "map_getvaluesize" ["int32_t"];
  Bcapi "uint8_t*" "map_getvalue" ["int32_t"; "int32_t"];
  Bcapi "int32_t" "map_done" ["int32_t"];
  Bcapi "int32_t" "file_find_limit" ["const uint8_t*"; "uint32_t"; "int32_t"];
  Bcapi "uint32_t" "engine_functionality_level" [];
  Bcapi "uint32_t" "engine_dconf_level" [];
  Bcapi "uint32_t" "engine_scan_options" [];
  Bcapi "uint32_t" "engine_db_options" [];
  Bcapi "int32_t" "extract_set_container" ["uint32_t"];
  Bcapi "int32_t" "input_switch" ["int32_t"];
  Bcapi "uint32_t" "get_environment" ["struct cli_environment*"; "uint32_t"];
  Bcapi "uint32_t" "disable_bytecode_if" ["const int8_t*"; "uint32_t"; "uint32_t"];
  Bcapi "uint32_t" "disable_jit_if" ["const int8_t*"; "uint32_t"; "uint32_t"];
  Bcapi "int32_t" "version_compare" ["const uint8_t*"; "uint32_t"; "const uint8_t*"; "uint32_t"];
  Bcapi "uint32_t" "check_platform" ["uint32_t"; "uint32_t"; "uint32_t"];
  Bcapi "int32_t" "pdf_get_obj_num" [];
  Bcapi "int32_t" "pdf_get_flags" [];
  Bcapi "int32_t" "pdf_set_flags" ["int32_t"];
  Bcapi "int32_t" "pdf_lookupobj" ["uint32_t"];
  Bcapi "uint32_t" "pdf_getobjsize" ["int32_t"];
  Bcapi "const uint8_t*" "pdf_getobj" ["int32_t"; "uint32_t"];
  Bcapi "int32_t" "pdf_getobjid" ["int32_t"];
  Bcapi "int32_t" "pdf_getobjflags" ["int32_t"];
  Bcapi "int32_t" "pdf_setobjflags" ["int32_t"; "int32_t"];
  Bcapi "int32_t" "pdf_get_offset" ["int32_t"];
  Bcapi "int32_t" "pdf_get_phase" [];
  Bcapi "int32_t" "pdf_get_dumpedobjid" [];
  Bcapi "int32_t" "matchicon" ["const uint8_t*"; "int32_t"; "const uint8_t*"; "int32_t"];
  Bcapi "int32_t" "running_on_jit" [];
  Bcapi "int32_t" "get_file_reliability" [];
  Bcapi "int32_t" "json_is_active" [];
  Bcapi "int32_t" "json_get_object" ["const int8_t*"; "int32_t"; "int32_t"];
  Bcapi "int32_t" "json_get_type" ["int32_t"];
  Bcapi "int32_t" "json_get_array_length" ["int32_t"];
  Bcapi "int32_t" "json_get_array_idx" ["int32_t"; "int32_t"];
  Bcapi "int32_t" "json_get_string_length" ["int32_t"];
  Bcapi "int32_t" "json_get_string" ["int8_t*"; "int32_t"; "int32_t"];
  Bcapi "int32_t" "json_get_boolean" ["int32_t"];
  Bcapi "int32_t" "json_get_int" ["int32_t"];
  Bcapi "uint32_t" "engine_scan_options_ex" ["const uint8_t*"; "uint32_t"];
  Bcapi "int32_t" "lzma_init" ["int32_t"; "int32_t"];
  Bcapi "int32_t" "lzma_process" ["int32_t"];
  Bcapi "int32_t" "lzma_done" ["int32_t"];
  Bcapi "int32_t" "bzip2_init" ["int32_t"; "int32_t"];
  Bcapi "int32_t" "bzip2_process" ["int32_t"];
  Bcapi "int32_t" "bzip2_done" ["int32_t"]].

(** the globals a bytecode can use *)
Definition cli_globals : list apiglobal := [
  ApiGlobal "__clambc_match_offsets" "GLOBAL_MATCH_OFFSETS" 76 "match_offsets";
  ApiGlobal "__clambc_kind" "GLOBAL_KIND" 16 "kind";
  ApiGlobal "__clambc_match_counts" "GLOBAL_MATCH_COUNTS" 76 "match_counts";
  ApiGlobal "__clambc_filesize" "GLOBAL_FILESIZE" 75 "filesize";
  ApiGlobal "__clambc_pedata" "GLOBAL_PEDATA" 69 "pedata"].

(** the component types of each type *)
Definition cli_tmp : list (list Z) := [
  [32; 32; 16; 16; 74; 73; 70; 32; 72; 70; 70; 32; 32; 32; 32];
  [71];
  [32; 32];
  [16; 8; 8; 32; 32; 32; 32; 32; 64; 32; 32; 16; 16; 16; 16; 16; 16; 32; 32; 32; 32; 16; 16; 64; 64; 64; 64; 32; 32];
  [16; 8; 8; 32; 32; 32; 32; 32; 32; 32; 32; 32; 16; 16; 16; 16; 16; 16; 32; 32; 32; 32; 16; 16; 32; 32; 32; 32; 32; 32];
  [32; 16; 16; 32; 32; 32; 16; 16];
  [32];
  [32];
  [32; 32];
  [32; 32; 32];
  [32; 65; 32];
  [32; 65; 32; 32];
  [32];
  [32; 65; 32; 65; 32];
  [65; 32; 32];
  [32; 32; 32; 32];
  [32; 86; 32];
  [87];
  [32; 32; 32; 32; 32; 32; 32; 88; 88; 88; 88; 88; 88; 88; 8; 8; 8; 8; 8; 8; 8; 8; 8];
  [8];
  [32; 65; 32; 32; 32; 32];
  [32; 91; 32];
  [92];
  [32; 32; 32; 32; 32; 32; 32; 32; 32];
  [65; 32];
  [32; 95; 32];
  [96];
  [16; 8; 8; 8; 98; 97];
  [8];
  [99];
  [8]].

(** the types *)
Definition cli_apicall_types : list bc_type := [
  BcType DStructType 0 15;
  BcType DArrayType 1 16;
  BcType DStructType 2 2;
  BcType DStructType 3 29;
  BcType DStructType 4 30;
  BcType DStructType 5 8;
  BcType DArrayType 6 1;
  BcType DArrayType 7 64;
  BcType DFunctionType 8 2;
  BcType DFunctionType 9 3;
  BcType DFunctionType 10 3;
  BcType DFunctionType 11 4;
  BcType DFunctionType 12 1;
  BcType DFunctionType 13 5;
  BcType DFunctionType 14 3;
  BcType DFunctionType 15 4;
  BcType DFunctionType 16 3;
  BcType DPointerType 17 1;
  BcType DStructType 18 23;
  BcType DArrayType 19 65;
  BcType DFunctionType 20 6;
  BcType DFunctionType 21 3;
  BcType DPointerType 22 1;
  BcType DStructType 23 9;
  BcType DFunctionType 24 2;
  BcType DFunctionType 25 3;
  BcType DPointerType 26 1;
  BcType DStructType 27 6;
  BcType DArrayType 28 29;
  BcType DArrayType 29 3;
  BcType DArrayType 30 10].

(** the API calls: name, type, index in the table of its kind, kind *)
Definition cli_apicalls : list apicall := [
  ApiCall "test1" 9 0 0;
  ApiCall "read" 10 0 1;
  ApiCall "write" 10 1 1;
  ApiCall "seek" 9 1 0;
  ApiCall "setvirusname" 10 2 1;
  ApiCall "debug_print_str" 10 3 1;
  ApiCall "debug_print_uint" 8 0 2;
  ApiCall "disasm_x86" 25 4 1;
  ApiCall "trace_directory" 10 5 1;
  ApiCall "trace_scope" 10 6 1;
  ApiCall "trace_source" 10 7 1;
  ApiCall "trace_op" 10 8 1;
  ApiCall "trace_value" 10 9 1;
  ApiCall "trace_ptr" 10 10 1;
  ApiCall "pe_rawaddr" 8 1 2;
  ApiCall "file_find" 10 11 1;
  ApiCall "file_byteat" 8 2 2;
  ApiCall "malloc" 24 0 3;
  ApiCall "test2" 8 3 2;
  ApiCall "get_pe_section" 21 12 1;
  ApiCall "fill_buffer" 20 0 4;
  ApiCall "extract_new" 8 4 2;
  ApiCall "read_number" 8 5 2;
  ApiCall "hashset_new" 12 0 5;
  ApiCall "hashset_add" 9 2 0;
  ApiCall "hashset_remove" 9 3 0;
  ApiCall "hashset_contains" 9 4 0;
  ApiCall "hashset_done" 8 6 2;
  ApiCall "hashset_empty" 8 7 2;
  ApiCall "buffer_pipe_new" 8 8 2;
  ApiCall "buffer_pipe_new_fromfile" 8 9 2;
  ApiCall "buffer_pipe_read_avail" 8 10 2;
  ApiCall "buffer_pipe_read_get" 14 0 6;
  ApiCall "buffer_pipe_read_stopped" 9 5 0;
  ApiCall "buffer_pipe_write_avail" 8 11 2;
  ApiCall "buffer_pipe_write_get" 14 1 6;
  ApiCall "buffer_pipe_write_stopped" 9 6 0;
  ApiCall "buffer_pipe_done" 8 12 2;
  ApiCall "inflate_init" 15 0 7;
  ApiCall "inflate_process" 8 13 2;
  ApiCall "inflate_done" 8 14 2;
  ApiCall "bytecode_rt_error" 8 15 2;
  ApiCall "jsnorm_init" 8 16 2;
  ApiCall "jsnorm_process" 8 17 2;
  ApiCall "jsnorm_done" 8 18 2;
  ApiCall "ilog2" 9 7 0;
  ApiCall "ipow" 15 1 7;
  ApiCall "iexp" 15 2 7;
  ApiCall "isin" 15 3 7;
  ApiCall "icos" 15 4 7;
  ApiCall "memstr" 13 0 8;
  ApiCall "hex2ui" 9 8 0;
  ApiCall "atoi" 10 13 1;
  ApiCall "debug_print_str_start" 10 14 1;
  ApiCall "debug_print_str_nonl" 10 15 1;
  ApiCall "entropy_buffer" 10 16 1;
  ApiCall "map_new" 9 9 0;
  ApiCall "map_addkey" 11 0 9;
  ApiCall "map_setvalue" 11 1 9;
  ApiCall "map_remove" 11 2 9;
  ApiCall "map_find" 11 3 9;
  ApiCall "map_getvaluesize" 8 19 2;
  ApiCall "map_getvalue" 14 2 6;
  ApiCall "map_done" 8 20 2;
  ApiCall "file_find_limit" 11 4 9;
  ApiCall "engine_functionality_level" 12 1 5;
  ApiCall "engine_dconf_level" 12 2 5;
  ApiCall "engine_scan_options" 12 3 5;
  ApiCall "engine_db_options" 12 4 5;
  ApiCall "extract_set_container" 8 21 2;
  ApiCall "input_switch" 8 22 2;
  ApiCall "get_environment" 16 17 1;
  ApiCall "disable_bytecode_if" 11 5 9;
  ApiCall "disable_jit_if" 11 6 9;
  ApiCall "version_compare" 13 1 8;
  ApiCall "check_platform" 15 5 7;
  ApiCall "pdf_get_obj_num" 12 5 5;
  ApiCall "pdf_get_flags" 12 6 5;
  ApiCall "pdf_set_flags" 8 23 2;
  ApiCall "pdf_lookupobj" 8 24 2;
  ApiCall "pdf_getobjsize" 8 25 2;
  ApiCall "pdf_getobj" 14 3 6;
  ApiCall "pdf_getobjid" 8 26 2;
  ApiCall "pdf_getobjflags" 8 27 2;
  ApiCall "pdf_setobjflags" 9 10 0;
  ApiCall "pdf_get_offset" 8 28 2;
  ApiCall "pdf_get_phase" 12 7 5;
  ApiCall "pdf_get_dumpedobjid" 12 8 5;
  ApiCall "matchicon" 13 2 8;
  ApiCall "running_on_jit" 12 9 5;
  ApiCall "get_file_reliability" 12 10 5;
  ApiCall "json_is_active" 12 11 5;
  ApiCall "json_get_object" 11 7 9;
  ApiCall "json_get_type" 8 29 2;
  ApiCall "json_get_array_length" 8 30 2;
  ApiCall "json_get_array_idx" 9 11 0;
  ApiCall "json_get_string_length" 8 31 2;
  ApiCall "json_get_string" 11 8 9;
  ApiCall "json_get_boolean" 8 32 2;
  ApiCall "json_get_int" 8 33 2;
  ApiCall "engine_scan_options_ex" 10 18 1;
  ApiCall "lzma_init" 9 12 0;
  ApiCall "lzma_process" 8 34 2;
  ApiCall "lzma_done" 8 35 2;
  ApiCall "bzip2_init" 9 13 0;
  ApiCall "bzip2_process" 8 36 2;
  ApiCall "bzip2_done" 8 37 2].

(** the functions of kind 0, called through cli_apicall_int2 *)
Definition cli_apicalls0 : list string := [
  "test1";
  "seek";
  "hashset_add";
  "hashset_remove";
  "hashset_contains";
  "buffer_pipe_read_stopped";
  "buffer_pipe_write_stopped";
  "ilog2";
  "hex2ui";
  "map_new";
  "pdf_setobjflags";
  "json_get_array_idx";
  "lzma_init";
  "bzip2_init"].

(** the functions of kind 1, called through cli_apicall_pointer *)
Definition cli_apicalls1 : list string := [
  "read";
  "write";
  "setvirusname";
  "debug_print_str";
  "disasm_x86";
  "trace_directory";
  "trace_scope";
  "trace_source";
  "trace_op";
  "trace_value";
  "trace_ptr";
  "file_find";
  "get_pe_section";
  "atoi";
  "debug_print_str_start";
  "debug_print_str_nonl";
  "entropy_buffer";
  "get_environment";
  "engine_scan_options_ex"].

(** the functions of kind 2, called through cli_apicall_int1 *)
Definition cli_apicalls2 : list string := [
  "debug_print_uint";
  "pe_rawaddr";
  "file_byteat";
  "test2";
  "extract_new";
  "read_number";
  "hashset_done";
  "hashset_empty";
  "buffer_pipe_new";
  "buffer_pipe_new_fromfile";
  "buffer_pipe_read_avail";
  "buffer_pipe_write_avail";
  "buffer_pipe_done";
  "inflate_process";
  "inflate_done";
  "bytecode_rt_error";
  "jsnorm_init";
  "jsnorm_process";
  "jsnorm_done";
  "map_getvaluesize";
  "map_done";
  "extract_set_container";
  "input_switch";
  "pdf_set_flags";
  "pdf_lookupobj";
  "pdf_getobjsize";
  "pdf_getobjid";
  "pdf_getobjflags";
  "pdf_get_offset";
  "json_get_type";
  "json_get_array_length";
  "json_get_string_length";
  "json_get_boolean";
  "json_get_int";
  "lzma_process";
  "lzma_done";
  "bzip2_process";
  "bzip2_done"].

(** the functions of kind 3, called through cli_apicall_malloclike *)
Definition cli_apicalls3 : list string := [
  "malloc"].

(** the functions of kind 4, called through cli_apicall_ptrbuffdata *)
Definition cli_apicalls4 : list string := [
  "fill_buffer"].

(** the functions of kind 5, called through cli_apicall_allocobj *)
Definition cli_apicalls5 : list string := [
  "hashset_new";
  "engine_functionality_level";
  "engine_dconf_level";
  "engine_scan_options";
  "engine_db_options";
  "pdf_get_obj_num";
  "pdf_get_flags";
  "pdf_get_phase";
  "pdf_get_dumpedobjid";
  "running_on_jit";
  "get_file_reliability";
  "json_is_active"].

(** the functions of kind 6, called through cli_apicall_bufget *)
Definition cli_apicalls6 : list string := [
  "buffer_pipe_read_get";
  "buffer_pipe_write_get";
  "map_getvalue";
  "pdf_getobj"].

(** the functions of kind 7, called through cli_apicall_int3 *)
Definition cli_apicalls7 : list string := [
  "inflate_init";
  "ipow";
  "iexp";
  "isin";
  "icos";
  "check_platform"].

(** the functions of kind 8, called through cli_apicall_2bufs *)
Definition cli_apicalls8 : list string := [
  "memstr";
  "version_compare";
  "matchicon"].

(** the functions of kind 9, called through cli_apicall_ptrbufid *)
Definition cli_apicalls9 : list string := [
  "map_addkey";
  "map_setvalue";
  "map_remove";
  "map_find";
  "file_find_limit";
  "disable_bytecode_if";
  "disable_jit_if";
  "json_get_object";
  "json_get_string"].

(** The tables of the kinds, with the C type of their entries. *)
Definition cli_apicalls_tables : list (string * list string) := [
  ("cli_apicall_int2", cli_apicalls0);
  ("cli_apicall_pointer", cli_apicalls1);
  ("cli_apicall_int1", cli_apicalls2);
  ("cli_apicall_malloclike", cli_apicalls3);
  ("cli_apicall_ptrbuffdata", cli_apicalls4);
  ("cli_apicall_allocobj", cli_apicalls5);
  ("cli_apicall_bufget", cli_apicalls6);
  ("cli_apicall_int3", cli_apicalls7);
  ("cli_apicall_2bufs", cli_apicalls8);
  ("cli_apicall_ptrbufid", cli_apicalls9)].
