(* ===== verification/IfaceGen.v ===== *)
(** * IfaceGen: the generator of the API tables (clambc-ifacegen/ifacegen.cpp)

    From the prototypes and globals of the API header (ApiHeader.v) the
    generator checks that every type has a platform-independent layout,
    numbers the types, sorts the functions into the dispatch kinds and writes
    the tables of ApiDecl.v. The input is the list of
    declarations the parser of IfaceParser.v reads. *)
From S2P Require Import Prelude Enums Layout ApiHeader ApiDecl.
From stdpp Require Import pretty.
Local Open Scope string_scope.
Local Set Warnings "-register-all".
Local Open Scope Z_scope.
Local Open Scope outcome_scope.

(** ** LLVM types *)

Inductive ltype :=
| TVoid
| TInt (w : Z)
| TPtr (t : ltype)
| TArr (n : Z) (t : ltype)
| TStruct (tag : string)
| TFun (ret : ltype) (params : list ltype).

Fixpoint ltype_eq (a b : ltype) {struct a} : {a = b} + {a <> b}.
Proof.
  decide equality; try apply Z.eq_dec; try apply String.string_dec.
  apply (List.list_eq_dec ltype_eq).
Defined.
#[export] Instance ltype_eq_dec : EqDecision ltype := ltype_eq.

(** ** Parsing of types and prototypes *)

(** ParseType and the pointer suffixes; a pointer to void is one to i8. *)
Fixpoint lower (t : ctype) : ltype :=
  match t with
  | CVoid => TVoid
  | CUInt w | CInt w => TInt w
  | CPtr t => TPtr (match lower t with TVoid => TInt 8 | t => t end)
  | CConst t => lower t
  | CStruct tag => TStruct tag
  | CArr n t => TArr n (lower t)
  end.

(** TypeFlags after parsing the type: ConstType, SignedType. *)
Record type_flags := Flags { ConstType : bool; SignedType : bool }.
Fixpoint parse_flags (t : ctype) : type_flags :=
  match t with
  | CConst t => Flags true (SignedType (parse_flags t))
  | CInt _ => Flags false true
  | CPtr t | CArr _ t => parse_flags t
  | _ => Flags false false
  end.

Record function := Fn { f_name : string; f_ty : ltype; f_flags : list type_flags }.

(** Integers, void, and i8* (malloc-like functions) can be returned; integers
    and pointers can be passed, at most five. *)
Definition ret_ok (t : ltype) : bool :=
  match t with TVoid | TInt _ | TPtr (TInt 8) => true | _ => false end.
Definition param_ok (t : ltype) : bool :=
  match t with TInt _ | TPtr _ => true | _ => false end.

Definition ParseFunctionPrototype (p : prototype) : option function :=
  let params := map lower (p_params p) in
  if ret_ok (lower (p_ret p)) && forallb param_ok params && (length params <=? 5)%nat
  then Some (Fn (p_name p) (TFun (lower (p_ret p)) params)
                (parse_flags (p_ret p) :: map parse_flags (p_params p)))
  else None.

(** ** Layout checks *)

Section check.
(** The element types of each structure; none for an opaque one. *)
Context (elements : string -> list ltype).

(** One member of a structure: the size so far, the maximal alignment so far
    and whether all is well. *)
Definition check_field (check : ltype -> outcome (Z * Z)) (acc : Z * Z * bool) (t : ltype)
    : outcome (Z * Z * bool) :=
  let '(size, MaxAlign, valid) := acc in
  let* (s, M) := check t in
  let valid := if s =? 0 then false else valid in
  let MaxAlign := if MaxAlign <? M then M else MaxAlign in
  let '(size, valid) :=
    if negb (Z.land size (M - 1) =? 0) then (u32 (size + Z.land size (M - 1)), false)
    else (size, valid) in
  Done (u32 (size + s), MaxAlign, valid).

(** Size (0 when the type is rejected) and maximal alignment. The code recurses into
    structures without a bound; [fuel] bounds their nesting, and running out of it is
    [endless]: with more fuel than there are structures, that is what the code does
    ([checkTypeSize_outcome] in IfaceParser.v). *)
Definition endless : string := "checkTypeSize recurses without end".
Fixpoint checkTypeSize (fuel : nat) : ltype -> outcome (Z * Z) :=
  fix go (t : ltype) : outcome (Z * Z) :=
  match t with
  | TInt s =>
      Done (if (s =? 8) || (s =? 16) || (s =? 32) || (s =? 64) then (s / 8, s / 8) else (0, 0))
  | TPtr _ => Done (0, 0)
  | TArr n t => let* (e, a) := go t in Done (if e =? 0 then (0, a) else (u32 (n * e), a))
  | TStruct tag =>
      match fuel with
      | O => Undefined endless
      | S fuel =>
          let* (size, MaxAlign, valid) :=
            foldM_out (check_field (checkTypeSize fuel)) (elements tag) (0, 1, true) in
          let valid := if negb (Z.land size (MaxAlign - 1) =? 0) then false else valid in
          Done (if valid : bool then (size, MaxAlign) else (0, MaxAlign))
      end
  | _ => Done (0, 0)
  end.

Definition checkParam (fuel : nat) (t : ltype) : outcome bool :=
  match t with
  | TInt _ => Done true
  | TPtr t => let* (s, _) := checkTypeSize fuel t in Done (negb (s =? 0))
  | _ => Done false
  end.

(** valid &= ..., for all of them. *)
Definition checkFuncParams (fuel : nat) (t : ltype) : outcome bool :=
  match t with
  | TFun ret params => let* valid := mapM_out (checkParam fuel) (ret :: params) in Done (forallb id valid)
  | _ => Done false
  end.
End check.

(** *** Structures within structures *)

Section nesting.
Context (elements : string -> list ltype).

(** A value of the type holds structures of these tags: by itself or in an array. *)
Fixpoint held (t : ltype) : option string :=
  match t with TStruct tag => Some tag | TArr _ t => held t | _ => None end.
(** A structure has a member that is, or is an array of, structures of another tag. *)
Definition inside (tag tag' : string) : Prop := exists t, t ∈ elements tag /\ held t = Some tag'.
(** A value of the type holds a structure that is [n] structures deep in others. *)
Fixpoint nests (n : nat) (t : ltype) : Prop :=
  exists tag, held t = Some tag /\ match n with O => True | S n => exists u, u ∈ elements tag /\ nests n u end.
Lemma nests_arr n k t : nests n (TArr k t) <-> nests n t.
Proof. by destruct n. Qed.
Lemma checkTypeSize_arr n k t : checkTypeSize elements n (TArr k t) =
  let* (e, a) := checkTypeSize elements n t in Done (if e =? 0 then (0, a) else (u32 (k * e), a)).
Proof. by destruct n. Qed.

(** [checkTypeSize] runs out of fuel exactly for types nested deeper than that. *)
Definition measured (n : nat) (t : ltype) (r : outcome (Z * Z)) : Prop :=
  match r with Done _ => ~ nests n t | Undefined m => m = endless /\ nests n t | _ => False end.
Lemma check_fields_measured n l : (forall t, measured n t (checkTypeSize elements n t)) -> forall acc,
  match foldM_out (check_field (checkTypeSize elements n)) l acc with
  | Done _ => forall t, t ∈ l -> ~ nests n t
  | Undefined m => m = endless /\ exists t, t ∈ l /\ nests n t
  | _ => False
  end.
Proof.
  intros H. induction l as [|t l IH]; intros [[size MaxAlign] valid]; cbn [foldM_out].
  { intros t Ht. by apply not_elem_of_nil in Ht. }
  specialize (H t). unfold check_field at 1. destruct (checkTypeSize elements n t) as [[s M]| |m|m]; cbn [obind measured] in *; try done.
  2: { destruct H as [-> H]. split; [done|]. exists t. split; [left|done]. }
  destruct (if negb _ then _ else _) as [size' valid']. cbn [obind].
  specialize (IH (u32 (size' + s), if MaxAlign <? M then M else MaxAlign, valid')).
  destruct (foldM_out _ _ _) as [r| |m|m]; try done.
  - intros u [->|Hu]%elem_of_cons; [done|by apply IH].
  - destruct IH as [-> (u & Hu & Hn)]. split; [done|]. exists u. split; [by right|done].
Qed.
Lemma checkTypeSize_measured n t : measured n t (checkTypeSize elements n t).
Proof.
  revert t. induction n as [|n IHn]; induction t as [|w|t _|k t IH|tag|ret ps] using ltype_ind; try (cbn; by intros (? & ? & _)).
  1, 3: rewrite checkTypeSize_arr; destruct (checkTypeSize elements _ t) as [[e a]| |m|m]; cbn [obind measured] in *; by rewrite ?nests_arr.
  - cbn. split; [done|]. by exists tag.
  - cbn [checkTypeSize]. pose proof (check_fields_measured n (elements tag) IHn (0, 1, true)) as H.
    destruct (foldM_out _ _ _) as [[[size MaxAlign] valid]| |m|m]; cbn [obind measured]; try done.
    + intros (tag' & [= <-] & u & Hu & Hn). by apply (H u).
    + destruct H as [-> (u & Hu & Hn)]. split; [done|]. exists tag. split; [done|]. by exists u.
Qed.
End nesting.

(** ** Kinds of API calls *)

Definition i8p : ltype := TPtr (TInt 8).
Definition i32 : ltype := TInt 32.
(** Api0Ty .. Api9Ty *)
Definition Api_types : list ltype := [
  TFun i32 [i32; i32];
  TFun i32 [i8p; i32];
  TFun i32 [i32];
  TFun i8p [i32];
  TFun i32 [i8p; i32; i32; i32; i32];
  TFun i32 [];
  TFun i8p [i32; i32];
  TFun i32 [i32; i32; i32];
  TFun i32 [i8p; i32; i8p; i32];
  TFun i32 [i8p; i32; i32]].
Definition Api_type (k : nat) : ltype := nth k Api_types TVoid.

(** The kind the first loop of [output] sorts a function into; its last test
    does not look at the number of parameters. *)
Definition kind_of_table (t : ltype) : option nat :=
  if decide (t = Api_type 0) then Some 0%nat
  else if decide (t = Api_type 1) then Some 1%nat
  else if decide (t = Api_type 2) then Some 2%nat
  else if decide (t = Api_type 3) then Some 3%nat
  else if decide (t = Api_type 4) then Some 4%nat
  else if decide (t = Api_type 5) then Some 5%nat
  else if decide (t = Api_type 6) then Some 6%nat
  else if decide (t = Api_type 7) then Some 7%nat
  else if decide (t = Api_type 8) then Some 8%nat
  else if decide (t = Api_type 9) then Some 9%nat
  else match t with
       | TFun (TInt 32) (TPtr _ :: TInt 32 :: _) => Some 1%nat
       | _ => None
       end.

(** The kind the second loop writes into the table of calls. *)
Definition kind_of_call (t : ltype) : option nat :=
  if decide (t = Api_type 0) then Some 0%nat
  else if decide (t = Api_type 2) then Some 2%nat
  else if decide (t = Api_type 3) then Some 3%nat
  else if decide (t = Api_type 4) then Some 4%nat
  else if decide (t = Api_type 5) then Some 5%nat
  else if decide (t = Api_type 6) then Some 6%nat
  else if decide (t = Api_type 7) then Some 7%nat
  else if decide (t = Api_type 8) then Some 8%nat
  else if decide (t = Api_type 9) then Some 9%nat
  else if decide (t = Api_type 1) then Some 1%nat
  else match t with
       | TFun (TInt 32) [TPtr _; TInt 32] => Some 1%nat
       | _ => None
       end.

(** First loop: the functions of each kind, in order. *)
Fixpoint sort_functions (fns : list function) (apicalls : list (list string))
    : option (list (list string)) :=
  match fns with
  | [] => Some apicalls
  | f :: fns =>
      k ← kind_of_table (f_ty f);
      sort_functions fns (alter (fun l => l ++ [f_name f])%list k apicalls)
  end.

(** ** Type numbers *)

(** initTypeIDs (libclambcc/ClamBCCommon.h): void, i1 to i64, and the pointers
    to i8, i16, i32 and i64 have fixed numbers. *)
Definition initTypeIDs : list (ltype * Z) :=
  (TVoid, 0) :: map (fun w => (TInt w, w)) (seqZ 1 64)
  ++ [(TPtr (TInt 8), 65); (TPtr (TInt 16), 66); (TPtr (TInt 32), 67); (TPtr (TInt 64), 68)].
Definition tidStart : Z := 69.

Fixpoint id_of (ids : list (ltype * Z)) (t : ltype) : option Z :=
  match ids with
  | [] => None
  | (t', i) :: ids => if decide (t' = t) then Some i else id_of ids t
  end.

Section output.
Context (elements : string -> list ltype).

Definition opaque (t : ltype) : bool :=
  match t with TStruct tag => match elements tag with [] => true | _ => false end | _ => false end.

(** The contained types, in the order of LLVM's subtype iterator. *)
Definition subtypes (t : ltype) : list ltype :=
  match t with
  | TPtr t | TArr _ t => [t]
  | TStruct tag => elements tag
  | TFun ret params => ret :: params
  | _ => []
  end.
Definition is_ptr (t : ltype) : bool := match t with TPtr _ => true | _ => false end.

(** The pushes of one iteration: an opaque pointee is left out. *)
Definition pushed (t : ltype) : list ltype :=
  filter (fun s => is_ptr t && opaque s = false) (subtypes t).

(** The loop: [stack] is addTypes, its last element first; [apiTypes] in
    order; the numbers handed out so far, the next number. [None]: the fuel ran
    out. *)
Fixpoint number_types (fuel : nat) (stack apiTypes : list ltype) (typeIDs : list (ltype * Z))
    (tid : Z) : option (list ltype * list (ltype * Z)) :=
  match stack with
  | [] => Some (apiTypes, typeIDs)
  | t :: stack =>
      match fuel with
      | O => None
      | S fuel =>
          match id_of typeIDs t with
          | Some _ => number_types fuel stack apiTypes typeIDs tid
          | None => number_types fuel (rev (pushed t) ++ stack) (apiTypes ++ [t])
                                 ((t, tid) :: typeIDs) (tid + 1)
          end
      end
  end%list.

(** ** The tables *)

Definition dec (z : Z) : string := pretty z.

(** outputTypename; [None] is the assertion that no other type is written. *)
Fixpoint outputTypename (t : ltype) (const signed : bool) : option string :=
  option_map (String.append (if const then "const " else ""))
    match t with
    | TArr _ t => option_map (fun s => s ++ "*") (outputTypename t false signed)
    | TInt w => Some ((if signed then "int" else "uint") ++ dec w ++ "_t")
    | TStruct tag => Some ("struct " ++ tag)
    | TPtr t => option_map (fun s => s ++ "*") (outputTypename t false signed)
    | _ => None
    end.

(** outputAPIcalls: one prototype. *)
Definition outputAPIcall (f : function) : option bcapi :=
  match f_ty f, f_flags f with
  | TFun ret params, fl :: fls =>
      r ← outputTypename ret (ConstType fl) (SignedType fl);
      ps ← mapM (fun '(t, fl) => outputTypename t (ConstType fl) (SignedType fl)) (zip params fls);
      Some (Bcapi r (f_name f) ps)
  | _, _ => None
  end.

Definition toupper (c : ascii) : ascii :=
  let n := N_of_ascii c in
  if ((97 <=? n) && (n <=? 122))%N then ascii_of_N (n - 32) else c.
Fixpoint UppercaseString (s : string) : string :=
  match s with
  | EmptyString => EmptyString
  | String.String c s => String.String (toupper c) (UppercaseString s)
  end.
Definition substr (n : nat) (s : string) : string := String.substring n (String.length s - n) s.

Definition type_id (typeIDs : list (ltype * Z)) (t : ltype) : Z := default 0 (id_of typeIDs t).

(** The row of one global. *)
Definition output_global (typeIDs : list (ltype * Z)) (g : string * ltype) : apiglobal :=
  ApiGlobal (fst g) ("GLOBAL" ++ UppercaseString (substr 8 (fst g)))
            (type_id typeIDs (snd g)) (substr 9 (fst g)).

(** The cli_tmp array of one type: void* becomes i8*. *)
Definition output_tmp (typeIDs : list (ltype * Z)) (t : ltype) : list Z :=
  map (fun s => let id := type_id typeIDs s in if id =? 0 then 8 else id) (subtypes t).

Definition output_type (i : nat) (t : ltype) : option bc_type :=
  match t with
  | TPtr _ => Some (BcType DPointerType (Z.of_nat i) 1)
  | TStruct tag => Some (BcType DStructType (Z.of_nat i) (Z.of_nat (length (elements tag))))
  | TArr n _ => Some (BcType DArrayType (Z.of_nat i) n)
  | TFun _ params => Some (BcType DFunctionType (Z.of_nat i) (Z.of_nat (length params) + 1))
  | _ => None
  end.

(** Second loop: the rows of cli_apicalls; [counts] are api0 .. api9. *)
Fixpoint output_calls (typeIDs : list (ltype * Z)) (counts : list Z) (fns : list function)
    : option (list apicall) :=
  match fns with
  | [] => Some []
  | f :: fns =>
      k ← kind_of_call (f_ty f);
      n ← counts !! k;
      rows ← output_calls typeIDs (alter (fun n => u16 (n + 1)) k counts) fns;
      Some (ApiCall (f_name f) (type_id typeIDs (f_ty f) - tidStart) n (Z.of_nat k) :: rows)
  end.

(** printApiCalls: the C type of each table. *)
Definition table_types : list string :=
  ["cli_apicall_int2"; "cli_apicall_pointer"; "cli_apicall_int1"; "cli_apicall_malloclike";
   "cli_apicall_ptrbuffdata"; "cli_apicall_allocobj"; "cli_apicall_bufget"; "cli_apicall_int3";
   "cli_apicall_2bufs"; "cli_apicall_ptrbufid"].

Record tables := {
  o_protos : list bcapi; o_globals : list apiglobal; o_tmp : list (list Z);
  o_types : list bc_type; o_calls : list apicall; o_apicalls : list (string * list string)
}.

(** [output]: [globals] in the iteration order of the generator's hash map.
    [None] when it reports an error. *)
Definition output (fuel : nat) (fns : list function) (globals : list (string * ltype))
    : option tables :=
  apicalls ← sort_functions fns (replicate 11 []);
  '(apiTypes, typeIDs) ←
    number_types fuel (rev (map f_ty fns ++ map snd globals)) [] initTypeIDs tidStart;
  protos ← mapM outputAPIcall fns;
  types ← mapM (fun '(i, t) => output_type i t) (imap (fun i t => (i, t)) apiTypes);
  calls ← output_calls typeIDs (replicate 10 0) fns;
  Some {| o_protos := protos;
          o_globals := map (output_global typeIDs) globals;
          o_tmp := map (output_tmp typeIDs) apiTypes;
          o_types := types; o_calls := calls;
          o_apicalls := zip table_types apicalls |}.
End output.

(** ** The generator on the repository's headers *)

Definition elements (tag : string) : list ltype := map (fun f => lower (snd f)) (struct_fields tag).
Definition header_functions : option (list function) := mapM ParseFunctionPrototype api_functions.
(** The globals in the order the hash map of the generator produced. *)
Definition global_order : list string :=
  ["__clambc_match_offsets"; "__clambc_kind"; "__clambc_match_counts"; "__clambc_filesize";
   "__clambc_pedata"].
Definition header_globals : list (string * ltype) :=
  omap (fun g => t ← Enums.assoc g api_globals; Some (g, lower t)) global_order.

(** ** The repository's tables are the generator's output *)

(** Every one of the 107 prototypes and five globals of bytecode_api.h
    passes the generator's checks, and running the generator on them yields
    exactly the tables checked in as bytecode_api_decl.c.h: prototypes, globals,
    type numbers, call rows and dispatch tables. *)
Theorem generator_reproduces_decl :
  exists fns o,
    header_functions = Some fns /\ map f_name fns = map p_name api_functions /\
    forallb (fun f => match checkFuncParams elements nesting (f_ty f) with Done valid => valid | _ => false end) fns = true /\
    forallb (fun g => match checkTypeSize elements nesting (snd g) with Done (n, _) => negb (n =? 0) | _ => false end) header_globals = true /\
    output elements 2000 fns header_globals = Some o /\
    o_protos o = bcapi_protos /\ o_globals o = cli_globals /\ o_tmp o = cli_tmp /\
    o_types o = cli_apicall_types /\ o_calls o = cli_apicalls /\
    o_apicalls o = cli_apicalls_tables.
Proof.
  destruct header_functions as [fns|] eqn:Ef; [|vm_compute in Ef; discriminate].
  destruct (output elements 2000 fns header_globals) as [o|] eqn:Eo;
    vm_compute in Ef; injection Ef as <-; vm_compute in Eo; [|discriminate].
  injection Eo as <-. eexists _, _. split; [reflexivity|].
  repeat split; vm_compute; reflexivity.
Qed.

(** ** The dispatch tables *)

(** Both loops sort a function into the same kind whenever they accept it. *)
Lemma kinds_agree t a b : kind_of_table t = Some a -> kind_of_call t = Some b ->
  a = b /\ (b < 10)%nat.
Proof.
  unfold kind_of_table, kind_of_call.
  destruct (decide (t = Api_type 0)) as [->|]; [intros [= <-] [= <-]; lia|].
  destruct (decide (t = Api_type 1)) as [->|]; [intros [= <-]; vm_compute; intros [= <-]; lia|].
  repeat (destruct (decide (t = Api_type _)) as [->|]; [intros [= <-] [= <-]; lia|]).
  intros Ha Hb. repeat case_match; try discriminate; simplify_eq; lia.
Qed.

(** What the kind says of a function's type: kind 1 takes any pointer, the
    others are one fixed type. *)
Definition kind_type_ok (k : nat) (t : ltype) : Prop :=
  t = Api_type k \/ k = 1%nat /\ exists p, t = TFun i32 [TPtr p; i32].

Lemma kind_of_call_type t k : kind_of_call t = Some k -> kind_type_ok k t.
Proof.
  unfold kind_of_call, kind_type_ok.
  repeat (destruct (decide (t = Api_type _)) as [->|]; [intros [= <-]; now left|]).
  intros H. repeat case_match; try discriminate; simplify_eq. right. split; [done|]. eauto.
Qed.

(** A row of cli_apicalls describes the function: its name, a kind that fits
    its type, and an index at which the table of the kind holds it. *)
Definition row_ok (apicalls : list (list string)) (typeIDs : list (ltype * Z))
    (f : function) (r : apicall) : Prop :=
  a_name r = f_name f /\ a_type r = type_id typeIDs (f_ty f) - tidStart /\
  exists k l, a_kind r = Z.of_nat k /\ (k < 10)%nat /\ kind_type_ok k (f_ty f) /\
    apicalls !! k = Some l /\ 0 <= a_idx r /\ l !! Z.to_nat (a_idx r) = Some (f_name f).

Lemma sort_functions_extends fns T T' k l :
  sort_functions fns T = Some T' -> T !! k = Some l -> exists l', T' !! k = Some (l ++ l')%list.
Proof.
  revert T l. induction fns as [|f fns IH]; simpl; intros T l H Hl.
  { injection H as <-. exists []. now rewrite app_nil_r. }
  destruct (kind_of_table (f_ty f)) as [j|]; [|done]. cbn [mbind option_bind] in H.
  destruct (decide (j = k)) as [->|Hne].
  - destruct (IH _ (l ++ [f_name f])%list H) as [l' ->].
    + now rewrite list_lookup_alter_eq, Hl.
    + exists (f_name f :: l')%list. now rewrite <- app_assoc.
  - apply (IH _ l H). now rewrite list_lookup_alter_ne.
Qed.

Lemma output_calls_rows ids fns T T' C rows :
  sort_functions fns T = Some T' -> output_calls ids C fns = Some rows ->
  (forall k n l, C !! k = Some n -> T !! k = Some l -> n = Z.of_nat (length l)) ->
  (forall k n, C !! k = Some n -> is_Some (T !! k)) ->
  (forall k l, T !! k = Some l -> Z.of_nat (length l + length fns) < 2 ^ 16) ->
  Forall2 (row_ok T' ids) fns rows.
Proof.
  revert T C rows. induction fns as [|f fns IH]; simpl; intros T C rows HT HC Hcnt Hdom Hlen.
  { injection HC as <-. constructor. }
  destruct (kind_of_table (f_ty f)) as [k|] eqn:Ek; [|done].
  destruct (kind_of_call (f_ty f)) as [k'|] eqn:Ek'; [|done].
  destruct (kinds_agree _ _ _ Ek Ek') as [<- Hk]. cbn [mbind option_bind] in HT, HC.
  destruct (C !! k) as [n|] eqn:En; [|done]. cbn [mbind option_bind] in HC.
  destruct (output_calls ids _ fns) as [rows'|] eqn:Er; [|done]. injection HC as <-.
  destruct (Hdom k n En) as [l Hl]. pose proof (Hcnt k n l En Hl) as ->.
  pose proof (Hlen k l Hl) as Hbound.
  constructor.
  - split; [done|]. split; [done|].
    destruct (sort_functions_extends _ _ _ k (l ++ [f_name f])%list HT) as [l' Hl'].
    { now rewrite list_lookup_alter_eq, Hl. }
    exists k, ((l ++ [f_name f]) ++ l')%list. cbn [a_kind a_idx].
    split; [done|]. split; [done|]. split; [now apply kind_of_call_type|].
    split; [done|]. split; [lia|].
    rewrite Nat2Z.id, <- app_assoc, lookup_app_r, Nat.sub_diag by lia. done.
  - eapply IH; [exact HT|exact Er| | |].
    + intros j m l' Hm Hl'. destruct (decide (k = j)) as [<-|Hne].
      * rewrite list_lookup_alter_eq, En in Hm. rewrite list_lookup_alter_eq, Hl in Hl'.
        simpl in Hm, Hl'. simplify_eq. rewrite length_app. simpl.
        unfold u16. rewrite wrap_small by (unfold in_u; lia). lia.
      * rewrite list_lookup_alter_ne in Hm by done.
        rewrite list_lookup_alter_ne in Hl' by done. eauto.
    + intros j m Hm. destruct (decide (k = j)) as [<-|Hne].
      * rewrite list_lookup_alter_eq, Hl. now eexists.
      * rewrite list_lookup_alter_ne in Hm by done.
        rewrite list_lookup_alter_ne by done. eauto.
    + intros j l' Hl'. destruct (decide (k = j)) as [<-|Hne].
      * rewrite list_lookup_alter_eq, Hl in Hl'. simpl in Hl'. simplify_eq.
        rewrite length_app. simpl. lia.
      * rewrite list_lookup_alter_ne in Hl' by done. pose proof (Hlen _ _ Hl'). lia.
Qed.

(** The C types of calls, which the tables cast the functions to, are typedefs of
    libclamav (bytecode_priv.h), each of which has the context as a further first
    parameter: [typedef] is what the rest of each is, void* being i8*. *)
Class CallTypes (typedef : string -> option ltype) := {
  ct_int1 : typedef "cli_apicall_int1" = Some (TFun i32 [i32]);
  ct_int2 : typedef "cli_apicall_int2" = Some (TFun i32 [i32; i32]);
  ct_int3 : typedef "cli_apicall_int3" = Some (TFun i32 [i32; i32; i32]);
  ct_2bufs : typedef "cli_apicall_2bufs" = Some (TFun i32 [i8p; i32; i8p; i32]);
  ct_allocobj : typedef "cli_apicall_allocobj" = Some (TFun i32 []);
  ct_bufget : typedef "cli_apicall_bufget" = Some (TFun i8p [i32; i32]);
  ct_malloclike : typedef "cli_apicall_malloclike" = Some (TFun i8p [i32]);
  ct_pointer : typedef "cli_apicall_pointer" = Some (TFun i32 [i8p; i32]);
  ct_ptrbuffdata : typedef "cli_apicall_ptrbuffdata" = Some (TFun i32 [i8p; i32; i32; i32; i32]);
  ct_ptrbufid : typedef "cli_apicall_ptrbufid" = Some (TFun i32 [i8p; i32; i32])
}.
(** Pointers are passed as void*, all else as it is. *)
Definition passed (t : ltype) : ltype := match t with TPtr _ => i8p | t => t end.
Definition fits (t c : ltype) : Prop :=
  match t, c with TFun r ps, TFun r' ps' => passed r = r' /\ map passed ps = ps' | _, _ => False end.
Lemma table_type_fits typedef `{!CallTypes typedef} k t : (k < 10)%nat -> kind_type_ok k t ->
  exists name c, table_types !! k = Some name /\ typedef name = Some c /\ fits t c.
Proof.
  intros Hk [->|[-> [p ->]]]; [|exists "cli_apicall_pointer"; eexists; split; [done|]; split; [apply ct_pointer|done]].
  do 10 (destruct k as [|k]; [do 2 eexists; split; [reflexivity|]; split;
    [first [apply ct_int1|apply ct_int2|apply ct_int3|apply ct_2bufs|apply ct_allocobj|apply ct_bufget|apply ct_malloclike|apply ct_pointer|
            apply ct_ptrbuffdata|apply ct_ptrbufid]|by split]|]). lia.
Qed.

(** C35: Whatever functions and globals the generator accepts (fewer than 65536
    functions), the tables it writes dispatch correctly: the rows of
    cli_apicalls are the functions in their order, and each row's kind and
    index lead to that very function in the table of its kind; the C type its
    entries are cast to, by libclamav's typedefs, takes and returns what the function
    does, every pointer as void*. *)
Theorem output_dispatch typedef `{!CallTypes typedef} elements fuel fns globals o :
  output elements fuel fns globals = Some o -> Z.of_nat (length fns) < 2 ^ 16 ->
  Forall2 (fun f r =>
    a_name r = f_name f /\
    exists k ty c l, a_kind r = Z.of_nat k /\ kind_type_ok k (f_ty f) /\
      o_apicalls o !! k = Some (ty, l) /\ typedef ty = Some c /\ fits (f_ty f) c /\ 0 <= a_idx r /\
      l !! Z.to_nat (a_idx r) = Some (f_name f)) fns (o_calls o).
Proof.
  unfold output. intros H Hlen.
  destruct (sort_functions fns (replicate 11 [])) as [T|] eqn:ET; [|done]. cbn [mbind option_bind] in H.
  destruct (number_types _ _ _ _ _ _) as [[apiTypes ids]|]; [|done]. cbn [mbind option_bind] in H.
  destruct (mapM outputAPIcall fns) as [protos|]; [|done]. cbn [mbind option_bind] in H.
  destruct (mapM _ (imap _ _)) as [types|]; [|done]. cbn [mbind option_bind] in H.
  destruct (output_calls ids (replicate 10 0) fns) as [calls|] eqn:EC; [|done].
  cbn [mbind option_bind] in H. injection H as <-. cbn [o_calls o_apicalls].
  eapply Forall2_impl; [eapply output_calls_rows; [exact ET|exact EC|..]|].
  - intros k n l Hn Hl. apply lookup_replicate_1 in Hn as [-> _].
    apply lookup_replicate_1 in Hl as [-> _]. done.
  - intros k n Hn. apply lookup_replicate_1 in Hn as [_ Hk].
    exists []. apply (lookup_replicate_2 11). lia.
  - intros k l Hl. apply lookup_replicate_1 in Hl as [-> _]. simpl. lia.
  - intros f r (Hname & _ & k & l & Hk & Hk10 & Ht & Hl & Hidx & Hf). split; [done|].
    destruct (table_type_fits typedef k (f_ty f) Hk10 Ht) as (ty & c & Hty & Hc & Hfits).
    exists k, ty, c, l. split; [done|]. split; [done|]. split; [|done].
    now apply (proj2 (lookup_zip_Some table_types T k ty l)).
Qed.

Definition demo_functions : list function :=
  [Fn "seek" (TFun i32 [i32; i32]) [Flags false true; Flags false true; Flags false false];
   Fn "malloc" (TFun i8p [i32]) [Flags false false; Flags false false];
   Fn "disasm_x86" (TFun i32 [TPtr (TStruct "DISASM_RESULT"); i32])
      [Flags false false; Flags false false; Flags false false];
   Fn "test1" (TFun i32 [i32; i32]) [Flags false false; Flags false false; Flags false false]].

Definition demo_typedef (name : string) : option ltype :=
  Enums.assoc name
    [("cli_apicall_int1", TFun i32 [i32]); ("cli_apicall_int2", TFun i32 [i32; i32]); ("cli_apicall_int3", TFun i32 [i32; i32; i32]);
     ("cli_apicall_2bufs", TFun i32 [i8p; i32; i8p; i32]); ("cli_apicall_allocobj", TFun i32 []); ("cli_apicall_bufget", TFun i8p [i32; i32]);
     ("cli_apicall_malloclike", TFun i8p [i32]); ("cli_apicall_pointer", TFun i32 [i8p; i32]);
     ("cli_apicall_ptrbuffdata", TFun i32 [i8p; i32; i32; i32; i32]); ("cli_apicall_ptrbufid", TFun i32 [i8p; i32; i32])].
#[export] Instance demo_call_types : CallTypes demo_typedef.
Proof. split; reflexivity. Qed.
Lemma output_dispatch_witness :
  exists o k ty c l, output elements 100 demo_functions [] = Some o /\
    a_kind (nth 3 (o_calls o) (ApiCall "" 0 0 0)) = Z.of_nat k /\
    o_apicalls o !! k = Some (ty, l) /\ demo_typedef ty = Some c /\ fits (TFun i32 [i32; i32]) c /\
    l !! Z.to_nat (a_idx (nth 3 (o_calls o) (ApiCall "" 0 0 0))) = Some "test1".
Proof.
  destruct (output elements 100 demo_functions []) as [o|] eqn:E; [|vm_compute in E; discriminate].
  pose proof (output_dispatch demo_typedef elements 100 demo_functions [] o E ltac:(vm_compute; reflexivity)) as H.
  unfold demo_functions in H.
  pose proof (Forall2_lookup_l _ _ _ 3 _ H eq_refl) as (r & Hr & _ & k & ty & c & l & Hk & _ & Hl & Hc & Hf & _ & Hi).
  exists o, k, ty, c, l. apply (nth_lookup_Some _ _ (ApiCall "" 0 0 0)) in Hr as ->. auto 10.
Defined.

(** ** The type numbers *)

(** What holds of the loop's variables: the types written so far carry the
    numbers from [tidStart] on, in order and without repetition, and every
    type a written type contains, and every root, is numbered or still to be
    visited. *)
Section numbering.
Context (elements : string -> list ltype) (roots : list ltype).

Definition seen (typeIDs : list (ltype * Z)) (stack : list ltype) (t : ltype) : Prop :=
  is_Some (id_of typeIDs t) \/ t ∈ stack.

Record numbering (stack apiTypes : list ltype) (typeIDs : list (ltype * Z)) (tid : Z) : Prop := {
  nb_next : tid = tidStart + Z.of_nat (length apiTypes);
  nb_ids : forall i t, apiTypes !! i = Some t -> id_of typeIDs t = Some (tidStart + Z.of_nat i);
  nb_range : forall t i, id_of typeIDs t = Some i -> 0 <= i < tid;
  nb_fixed : forall t i, id_of typeIDs t = Some i -> i < tidStart -> id_of initTypeIDs t = Some i;
  nb_new : forall t i, id_of typeIDs t = Some i -> tidStart <= i ->
             apiTypes !! Z.to_nat (i - tidStart) = Some t;
  nb_sub : forall t s, t ∈ apiTypes -> s ∈ pushed elements t -> seen typeIDs stack s;
  nb_root : forall t, t ∈ roots -> seen typeIDs stack t
}.

Lemma id_of_cons t i ids t' :
  id_of ((t, i) :: ids) t' = if decide (t = t') then Some i else id_of ids t'.
Proof. reflexivity. Qed.

Lemma initTypeIDs_range : Forall (fun p => 0 <= p.2 < tidStart) initTypeIDs.
Proof. apply (bool_decide_unpack _). vm_compute. reflexivity. Qed.

Lemma id_of_in ids t i : id_of ids t = Some i -> (t, i) ∈ ids.
Proof.
  induction ids as [|[t' j] ids IH]; simpl; [done|].
  destruct (decide (t' = t)) as [->|]; [intros [= ->]; left|]. right. auto.
Qed.

Lemma numbering_step stack apiTypes ids tid t :
  numbering (t :: stack) apiTypes ids tid -> id_of ids t = None ->
  numbering (rev (pushed elements t) ++ stack) (apiTypes ++ [t]) ((t, tid) :: ids) (tid + 1).
Proof.
  intros [Hn Hi Hr Hf Hw Hs Ho] Ht.
  assert (Hseen : forall s, seen ids (t :: stack) s ->
                  seen ((t, tid) :: ids) (rev (pushed elements t) ++ stack) s).
  { intros s [[i H]|H]; unfold seen; rewrite id_of_cons.
    - left. destruct (decide (t = s)); [eauto|]. now rewrite H.
    - apply elem_of_cons in H as [->|H].
      + left. rewrite decide_True by done. eauto.
      + right. apply elem_of_app. now right. }
  split.
  - rewrite length_app. simpl. lia.
  - intros i s H. rewrite id_of_cons. apply lookup_app_Some in H as [H|[Hlen H]].
    + destruct (decide (t = s)) as [->|]; [|auto]. rewrite (Hi i s H) in Ht. done.
    + apply list_lookup_singleton_Some in H as [Hz <-]. rewrite decide_True by done.
      f_equal. lia.
  - intros s i. rewrite id_of_cons. destruct (decide (t = s)).
    + intros [= <-]. unfold tidStart in *. lia.
    + intros H. specialize (Hr s i H). lia.
  - intros s i. rewrite id_of_cons. destruct (decide (t = s)); [|apply Hf].
    intros [= <-]. unfold tidStart in *. lia.
  - intros s i. rewrite id_of_cons. destruct (decide (t = s)) as [<-|].
    + intros [= <-] _. rewrite Hn. rewrite lookup_app_r by lia.
      replace (Z.to_nat _ - length apiTypes)%nat with O by lia. done.
    + intros H Hge. apply lookup_app_l_Some. eauto.
  - intros s u Hin Hu. apply elem_of_app in Hin as [Hin|Hin].
    + apply Hseen. eauto.
    + apply list_elem_of_singleton in Hin as ->. right. apply elem_of_app. left.
      apply list_elem_of_In. rewrite <- in_rev. now apply list_elem_of_In.
  - intros s Hin. auto.
Qed.

Lemma number_types_numbering fuel stack apiTypes ids tid apiTypes' ids' :
  number_types elements fuel stack apiTypes ids tid = Some (apiTypes', ids') ->
  numbering stack apiTypes ids tid -> exists tid', numbering [] apiTypes' ids' tid'.
Proof.
  revert stack apiTypes ids tid. induction fuel as [|fuel IH]; intros [|t stack] apiTypes ids tid;
    simpl; intros H Hn; try (injection H as <- <-; eauto; fail); [done|].
  destruct (id_of ids t) as [i|] eqn:Ei.
  - apply (IH _ _ _ _ H). destruct Hn as [H1 H2 H3 H3' H4 H5 H6].
    assert (Hs : forall s, seen ids (t :: stack) s -> seen ids stack s).
    { intros s [Hs|Hs]; [now left|]. apply elem_of_cons in Hs as [->|Hs]; [|now right].
      left. eauto. }
    split; eauto.
  - eapply IH; [exact H|]. now apply numbering_step.
Qed.
End numbering.

(** When the numbering of types ends, the table of types is closed and
    unambiguous: the [i]-th type written has number 69 + [i] and no other; a
    number below 69 is one of the fixed ones and any other is the position of
    its type in the table; and every function type, every global's type and
    every type contained in a written type (an opaque pointee apart) has a
    number. *)
Theorem number_types_closed elements fuel roots apiTypes typeIDs :
  number_types elements fuel (rev roots) [] initTypeIDs tidStart = Some (apiTypes, typeIDs) ->
  (forall i t, apiTypes !! i = Some t -> id_of typeIDs t = Some (69 + Z.of_nat i)) /\
  (forall t n, id_of typeIDs t = Some n ->
     if n <? 69 then id_of initTypeIDs t = Some n
     else apiTypes !! Z.to_nat (n - 69) = Some t) /\
  (forall t, t ∈ roots -> is_Some (id_of typeIDs t)) /\
  (forall t s, t ∈ apiTypes -> s ∈ pushed elements t -> is_Some (id_of typeIDs s)).
Proof.
  intros H. destruct (number_types_numbering elements roots _ _ _ _ _ _ _ H) as [tid [H1 H2 H3 H4 H5 H6 H7]].
  { split.
    - done.
    - intros i t Hi. done.
    - intros t i Hi. apply id_of_in in Hi.
      pose proof initTypeIDs_range as Hr. rewrite Forall_forall in Hr. apply (Hr _ Hi).
    - auto.
    - intros t i Hi Hge. apply id_of_in in Hi.
      pose proof initTypeIDs_range as Hr. rewrite Forall_forall in Hr. specialize (Hr _ Hi).
      simpl in Hr. lia.
    - intros t s Ht. now apply not_elem_of_nil in Ht.
    - intros t Ht. right. apply list_elem_of_In. rewrite <- in_rev. now apply list_elem_of_In. }
  assert (Hs : forall s, seen typeIDs [] s -> is_Some (id_of typeIDs s)).
  { intros s [Hs|Hs]; [done|]. now apply not_elem_of_nil in Hs. }
  split; [done|]. split; [|split; eauto].
  intros t n Hn. destruct (Z.ltb_spec n 69); [now apply H4|now apply H5].
Qed.

Lemma number_types_closed_witness :
  exists apiTypes typeIDs,
    number_types elements 100 (rev (map f_ty demo_functions)) [] initTypeIDs tidStart
      = Some (apiTypes, typeIDs) /\
    is_Some (id_of typeIDs (TFun i8p [i32])).
Proof.
  destruct (number_types elements 100 (rev (map f_ty demo_functions)) [] initTypeIDs tidStart)
    as [[apiTypes typeIDs]|] eqn:E; [|vm_compute in E; discriminate].
  exists apiTypes, typeIDs. split; [reflexivity|].
  destruct (number_types_closed elements 100 _ apiTypes typeIDs E) as (_ & _ & H & _).
  apply H. right. left.
Defined.

(** ** What the layout check guarantees *)

Section layout_check.
Context (fields : string -> list (string * ctype)).

(** The structures as the generator parsed them. *)
Definition elements_of (tag : string) : list ltype := map (fun f => lower (snd f)) (fields tag).

(** Arrays have a positive length (the parser rejects others) and nothing is
    as large as 4 GiB, so the generator's 32-bit sizes do not overflow. *)
Fixpoint small (fuel : nat) : ctype -> bool :=
  fix go (t : ctype) : bool :=
  match t with
  | CConst t => go t
  | CArr n t => (0 <? n) && go t && (fst (size_align fields fuel (CArr n t)) <? 2 ^ 32)
  | CStruct tag =>
      match fuel with
      | O => true
      | S fuel => forallb (fun f => small fuel (snd f)) (fields tag)
                  && (packed_size fields fuel (fields tag) <? 2 ^ 32)
      end
  | _ => true
  end.

Definition alignment (a : Z) : Prop := a = 1 \/ a = 2 \/ a = 4 \/ a = 8.

Lemma land_alignment o a : alignment a -> 0 <= o -> Z.land o (a - 1) = 0 -> o mod a = 0.
Proof.
  intros Ha Ho H.
  assert (exists k, 0 <= k /\ a = 2 ^ k) as (k & Hk & ->).
  { destruct Ha as [->|[->|[->| ->]]]; [exists 0|exists 1|exists 2|exists 3]; lia. }
  rewrite <- Z.land_ones, Z.ones_equiv by lia. now rewrite <- Z.sub_1_r.
Qed.

Lemma round_up_aligned o a : alignment a -> 0 <= o -> Z.land o (a - 1) = 0 -> round_up o a = o.
Proof.
  intros Ha Ho H. pose proof (land_alignment o a Ha Ho H) as Hm. unfold round_up.
  destruct Ha as [->|[->|[->| ->]]]; Z.div_mod_to_equations; lia.
Qed.

(** The check of one type is right: a positive size is the natural size, with
    the natural alignment. *)
Definition check_right (fuel : nat) (t : ctype) : Prop :=
  forall n a, checkTypeSize elements_of fuel (lower t) = Done (n, a) -> n <> 0 ->
    small fuel t = true ->
    size_align fields fuel t = (n, a) /\ alignment a /\ 0 < n < 2 ^ 32.

Lemma check_field_invalid fuel fs acc o al v :
  foldM_out (check_field (checkTypeSize elements_of fuel)) fs (acc, false) = Done (o, al, v) -> v = false.
Proof.
  revert acc. induction fs as [|t fs IH]; intros [o' al']; cbn [foldM_out check_field]; [congruence|].
  destruct (checkTypeSize _ _ t) as [[s M]| | |]; cbn [obind]; try done.
  destruct (s =? 0); destruct (negb _); apply IH.
Qed.

(** The first field of an accepted list. *)
Lemma check_field_valid fuel t fs o al r :
  foldM_out (check_field (checkTypeSize elements_of fuel)) (lower t :: fs) (o, al, true)
    = Done (r, true) ->
  check_right fuel t -> small fuel t = true ->
  exists s M, size_align fields fuel t = (s, M) /\ alignment M /\ 0 < s < 2 ^ 32 /\
    Z.land o (M - 1) = 0 /\
    foldM_out (check_field (checkTypeSize elements_of fuel)) fs (u32 (o + s), Z.max al M, true)
      = Done (r, true).
Proof.
  destruct r as [size MA]. cbn [foldM_out check_field]. intros H Ht Hs.
  destruct (checkTypeSize elements_of fuel (lower t)) as [[s M]| | |] eqn:E; try done. cbn [obind] in H.
  destruct (Z.eqb_spec s 0) as [->|Hne].
  { destruct (negb _); apply check_field_invalid in H; discriminate. }
  destruct (Ht s M E Hne Hs) as (Hsa & HM & Hpos).
  destruct (Z.eqb_spec (Z.land o (M - 1)) 0) as [Hl|_]; simpl negb in H; cbv iota in H.
  2:{ apply check_field_invalid in H. discriminate. }
  exists s, M. split; [done|]. split; [done|]. split; [done|]. split; [done|].
  assert (Z.max al M = if al <? M then M else al) as -> by (destruct (Z.ltb_spec al M); lia). exact H.
Qed.

Lemma packed_size_cons fuel f t s M fs :
  size_align fields fuel t = (s, M) ->
  packed_size fields fuel ((f, t) :: fs) = s + packed_size fields fuel fs.
Proof. intros H. unfold packed_size. cbn [map fold_right]. simpl snd. now rewrite H. Qed.

Lemma packed_size_nonneg fuel fs o al r :
  Forall (fun f => check_right fuel (snd f)) fs ->
  forallb (fun f => small fuel (snd f)) fs = true ->
  foldM_out (check_field (checkTypeSize elements_of fuel)) (map (fun f => lower (snd f)) fs)
    (o, al, true) = Done (r, true) -> 0 <= packed_size fields fuel fs.
Proof.
  revert o al. induction fs as [|[f t] fs IH]; intros o al Hall Hsm H; [done|].
  apply Forall_cons in Hall as [Ht Hall]. simpl in Hsm. apply andb_true_iff in Hsm as [Hst Hsm].
  destruct (check_field_valid fuel t _ o al r H Ht Hst) as (s & M & Hsa & _ & Hpos & _ & H').
  rewrite (packed_size_cons _ _ _ _ _ _ Hsa). specialize (IH _ _ Hall Hsm H'). lia.
Qed.

Lemma check_fields_right fuel fs o al size MA :
  Forall (fun f => check_right fuel (snd f)) fs ->
  forallb (fun f => small fuel (snd f)) fs = true ->
  foldM_out (check_field (checkTypeSize elements_of fuel)) (map (fun f => lower (snd f)) fs)
    (o, al, true) = Done (size, MA, true) ->
  0 <= o -> o + packed_size fields fuel fs < 2 ^ 32 -> alignment al ->
  fold_left (fun '(o, al) '(_, t) =>
    let '(s, a) := size_align fields fuel t in (round_up o a + s, Z.max al a)) fs (o, al)
    = (size, MA) /\
  size = o + packed_size fields fuel fs /\ alignment MA /\
  offsets_from fields fuel o fs = packed_from fields fuel o fs.
Proof.
  revert o al. induction fs as [|[f t] fs IH]; intros o al Hall Hsm H Ho Hlt Hal.
  { simpl in *. injection H as <- <-. unfold packed_size. simpl. repeat split; auto; lia. }
  apply Forall_cons in Hall as [Ht Hall]. simpl in Hsm. apply andb_true_iff in Hsm as [Hst Hsm].
  destruct (check_field_valid fuel t _ o al _ H Ht Hst) as (s & M & Hsa & HM & Hpos & Hl & H').
  pose proof (packed_size_nonneg fuel fs _ _ _ Hall Hsm H') as Hnn.
  rewrite (packed_size_cons _ _ _ _ _ _ Hsa) in Hlt |- *.
  unfold u32 in H'. rewrite wrap_small in H' by (unfold in_u; lia).
  destruct (IH (o + s) (Z.max al M) Hall Hsm H') as (E1 & E2 & E3 & E4);
    [lia|lia|destruct (Z.max_spec al M) as [[_ ->]|[_ ->]]; done|].
  cbn [fold_left offsets_from packed_from]. rewrite Hsa. cbn [fst snd].
  rewrite (round_up_aligned o M HM Ho Hl), E1, E4. repeat split; auto. lia.
Qed.

Lemma check_struct_right fuel tag n a :
  (forall t, check_right fuel t) ->
  checkTypeSize elements_of (S fuel) (TStruct tag) = Done (n, a) -> n <> 0 ->
  small (S fuel) (CStruct tag) = true ->
  size_align fields (S fuel) (CStruct tag) = (n, a) /\ alignment a /\ 0 < n < 2 ^ 32 /\
  no_padding fields fuel tag.
Proof.
  intros IH H Hn Hsm. simpl in Hsm. apply andb_true_iff in Hsm as [Hsm Hlt].
  apply Z.ltb_lt in Hlt. cbn [checkTypeSize] in H. unfold elements_of at 2 in H.
  destruct (foldM_out _ _ _) as [[[size MA] v]| | |] eqn:E; try done. cbn [obind] in H.
  destruct (Z.eqb_spec (Z.land size (MA - 1)) 0) as [Hl|]; simpl negb in H; cbv iota in H;
    [|congruence].
  destruct v; [|congruence]. injection H as <- <-.
  assert (Hall : Forall (fun f => check_right fuel (snd f)) (fields tag)).
  { apply Forall_forall. intros f _. apply IH. }
  pose proof (packed_size_nonneg fuel _ _ _ _ Hall Hsm E) as Hnn.
  destruct (check_fields_right fuel _ 0 1 size MA Hall Hsm E) as (E1 & E2 & E3 & E4);
    [lia|lia|now left|].
  assert (Hsa : size_align fields (S fuel) (CStruct tag) = (size, MA)).
  { cbn [size_align]. rewrite E1. rewrite round_up_aligned by (auto; lia). done. }
  split; [done|]. split; [done|]. split; [lia|]. split; [done|]. rewrite Hsa. simpl. lia.
Qed.

(** The equations that do not consume fuel. *)
Lemma check_int fuel w : checkTypeSize elements_of fuel (TInt w) =
  Done (if (w =? 8) || (w =? 16) || (w =? 32) || (w =? 64) then (w / 8, w / 8) else (0, 0)).
Proof. now destruct fuel. Qed.
Lemma check_arr fuel m t : checkTypeSize elements_of fuel (TArr m t) =
  let* (e, a) := checkTypeSize elements_of fuel t in Done (if e =? 0 then (0, a) else (u32 (m * e), a)).
Proof. now destruct fuel. Qed.
Lemma size_align_int fuel w : size_align fields fuel (CUInt w) = (w / 8, w / 8) /\
  size_align fields fuel (CInt w) = (w / 8, w / 8).
Proof. now destruct fuel. Qed.
Lemma size_align_arr fuel m t : size_align fields fuel (CArr m t) =
  let '(s, a) := size_align fields fuel t in (m * s, a).
Proof. now destruct fuel. Qed.
Lemma small_arr fuel m t : small fuel (CArr m t) =
  (0 <? m) && small fuel t && (fst (size_align fields fuel (CArr m t)) <? 2 ^ 32).
Proof. now destruct fuel. Qed.

Lemma check_int_right fuel w n a :
  checkTypeSize elements_of fuel (TInt w) = Done (n, a) -> n <> 0 ->
  (w / 8, w / 8) = (n, a) /\ alignment a /\ 0 < n < 2 ^ 32.
Proof.
  rewrite check_int. unfold alignment. intros H Hn.
  destruct (_ || _) eqn:E; [|congruence]. injection H as <- <-.
  rewrite !orb_true_iff, !Z.eqb_eq in E.
  destruct E as [[[->| ->]| ->]| ->]; vm_compute (_ / _); (split; [done|]); split; auto; lia.
Qed.

Lemma checkTypeSize_right fuel t : check_right fuel t.
Proof.
  revert t. induction fuel as [|fuel IHf]; intros t;
    induction t as [|w|w|t IH|t IH|tag|m t IH]; intros n a H Hn Hsm; cbn [lower] in H.
  all: try (simpl in H; congruence).
  all: try (rewrite ?(proj1 (size_align_int _ w)), ?(proj2 (size_align_int _ w));
            now apply check_int_right in H).
  all: try (now apply IH).
  all: try (edestruct check_struct_right as (? & ? & ? & _); eauto; fail).
  all: rewrite check_arr in H; rewrite small_arr in Hsm;
    rewrite size_align_arr in Hsm |- *;
    apply andb_true_iff in Hsm as [Hsm Hlt]; apply andb_true_iff in Hsm as [Hm Hst];
    apply Z.ltb_lt in Hm;
    destruct (checkTypeSize elements_of _ (lower t)) as [[s b]| | |] eqn:E; try done; cbn [obind] in H;
    destruct (Z.eqb_spec s 0) as [|Hs]; [congruence|]; injection H as <- <-;
    destruct (IH s b E Hs Hst) as (Hsa & Hb & Hpos); rewrite Hsa in Hlt |- *;
    simpl in Hlt; apply Z.ltb_lt in Hlt; unfold u32; rewrite wrap_small by (unfold in_u; nia);
    (split; [done|]); split; [done|nia].
Qed.

(** The generator's layout check is sound: a type it accepts has, under the
    natural alignment rules, exactly the size and alignment it computed, and a
    structure it accepts has no padding anywhere, neither between its members
    nor at its end, so its layout does not depend on the platform. *)
Theorem checkTypeSize_sound fuel t n a :
  checkTypeSize elements_of fuel (lower t) = Done (n, a) -> n <> 0 -> small fuel t = true ->
  size_align fields fuel t = (n, a) /\
  forall tag fuel', t = CStruct tag -> fuel = S fuel' -> no_padding fields fuel' tag.
Proof.
  intros H Hn Hsm. split; [now apply checkTypeSize_right|]. intros tag fuel' -> ->.
  now apply (check_struct_right fuel' tag n a (checkTypeSize_right fuel') H Hn Hsm).
Qed.
End layout_check.

Lemma checkTypeSize_sound_witness :
  sizeof (CStruct "cli_pe_hook_data") = 648 /\
  no_padding struct_fields 2 "cli_pe_hook_data".
Proof.
  destruct (checkTypeSize_sound struct_fields 3 (CStruct "cli_pe_hook_data") 648 8
    ltac:(vm_compute; reflexivity) ltac:(lia) ltac:(vm_compute; reflexivity)) as [H1 H2].
  split; [unfold sizeof, nesting; now rewrite H1|]. now apply H2.
Defined.

(** The diagnostic's padding suggestion is the misalignment, not its
    complement: a 4-byte member at offset 1 needs three bytes before it, one
    is suggested, and one does not make the structure acceptable. *)
Lemma padding_suggestion_wrong :
  let els (tag : string) :=
    if String.eqb tag "s" then [TInt 8; TInt 32] else [TInt 8; TInt 8; TInt 32] in
  Z.land 1 (4 - 1) = 1 /\
  checkTypeSize els 1 (TStruct "s") = Done (0, 4) /\
  checkTypeSize els 1 (TStruct "s_padded_as_suggested") = Done (0, 4).
Proof. vm_compute. auto. Qed.

(** The first loop accepts functions the second rejects: output fails after
    part of the file has been written. *)
Lemma kinds_disagree :
  let t := TFun i32 [TPtr (TStruct "cli_exe_section"); i32; i32] in
  kind_of_table t = Some 1%nat /\ kind_of_call t = None.
Proof. vm_compute. auto. Qed.
