(* ===== verification/IfaceLexer.v ===== *)
(** * IfaceLexer: the lexer of the interface generator

    Class Parser of clambc-ifacegen/ifacegen.cpp, the part that reads characters:
    comments, the few preprocessor directives it knows, included files, numbers,
    identifiers, keywords and the macro it ignores. A text is what the C code sees
    of it, up to the first NUL; a position in it is the rest of the text. *)
From S2P Require Import Prelude Enums.
Local Open Scope string_scope.
Local Open Scope list_scope.
Local Open Scope Z_scope.
Local Open Scope outcome_scope.

(** ** Tokens *)

(** tok::kind; strings and numbers carry CurString and CurNumber. *)
Inductive tok :=
| tok_BraceClose | tok_BraceOpen | tok_Comma | tok_Const | tok_End | tok_Enum | tok_Error | tok_Equal | tok_Extern
| tok_Number (n : Z)
| tok_Reserved | tok_ReservedCXX | tok_ReservedType
| tok_Int8 | tok_Int16 | tok_Int32 | tok_Int64 | tok_UInt8 | tok_UInt16 | tok_UInt32 | tok_UInt64
| tok_ParClose | tok_ParOpen | tok_Pointer | tok_SemiColon
| tok_String (s : string)
| tok_Struct | tok_SquareBracketOpen | tok_SquareBracketClose | tok_Void.
#[export] Instance tok_eq_dec : EqDecision tok.
Proof. solve_decision. Defined.

Definition in_range (a b : N) (c : ascii) : bool := ((a <=? N_of_ascii c) && (N_of_ascii c <=? b))%N.
(** isspace, isdigit, isalnum of the C locale *)
Definition isspace (c : ascii) : bool := in_range 9 13 c || in_range 32 32 c.
Definition isdigit (c : ascii) : bool := in_range 48 57 c.
Definition isalnum (c : ascii) : bool := isdigit c || in_range 65 90 c || in_range 97 122 c.

Definition delimiters (c : ascii) : option tok :=
  match c with
  | "("%char => Some tok_ParOpen | ")"%char => Some tok_ParClose | "{"%char => Some tok_BraceOpen | "}"%char => Some tok_BraceClose
  | ";"%char => Some tok_SemiColon | "*"%char => Some tok_Pointer | ","%char => Some tok_Comma
  | "["%char => Some tok_SquareBracketOpen | "]"%char => Some tok_SquareBracketClose | "="%char => Some tok_Equal
  | _ => None
  end.
(** The assignments to keywords of the constructor, which override those of
    InitLangKeywords. *)
Definition own_keywords : list (string * tok) := [
  ("const", tok_Const); ("extern", tok_Extern); ("enum", tok_Enum); ("void", tok_Void); ("struct", tok_Struct);
  ("int8_t", tok_Int8); ("int16_t", tok_Int16); ("int32_t", tok_Int32); ("int64_t", tok_Int64);
  ("uint8_t", tok_UInt8); ("uint16_t", tok_UInt16); ("uint32_t", tok_UInt32); ("uint64_t", tok_UInt64);
  ("int", tok_ReservedType); ("unsigned", tok_ReservedType); ("long", tok_ReservedType); ("short", tok_ReservedType);
  ("double", tok_ReservedType); ("float", tok_ReservedType); ("signed", tok_ReservedType); ("_Bool", tok_ReservedType);
  ("_Complex", tok_ReservedType); ("_Imaginary", tok_ReservedType); ("bool", tok_ReservedType) ].
Definition ignoreMacros (s : string) : option nat := if String.eqb s "EBOUNDS" then Some 1%nat else None.

(** ** State *)

(** TokStart and LastTokStart; Ifs, the open conditionals; Ifstack and [Locs], for
    each enclosing file its conditionals and where it goes on (the include
    location SourceMgr keeps); the messages printed, latest first. *)
Record lexer := {
  TokStart : string; LastTokStart : string; Ifs : list string;
  Ifstack : list (list string); Locs : list string; messages : list string
}.
Definition at_ (p : string) (s : lexer) : lexer :=
  {| TokStart := p; LastTokStart := LastTokStart s; Ifs := Ifs s; Ifstack := Ifstack s; Locs := Locs s; messages := messages s |}.
Definition last_ (p : string) (s : lexer) : lexer :=
  {| TokStart := TokStart s; LastTokStart := p; Ifs := Ifs s; Ifstack := Ifstack s; Locs := Locs s; messages := messages s |}.
Definition with_Ifs (l : list string) (s : lexer) : lexer :=
  {| TokStart := TokStart s; LastTokStart := LastTokStart s; Ifs := l; Ifstack := Ifstack s; Locs := Locs s; messages := messages s |}.
(** Ifstack.push_back(Ifs), Ifs.clear() *)
Definition push_Ifs (s : lexer) : lexer :=
  {| TokStart := TokStart s; LastTokStart := LastTokStart s; Ifs := []; Ifstack := Ifs s :: Ifstack s; Locs := Locs s;
     messages := messages s |}.
(** Entering an included file; the outer one goes on at [p]. *)
Definition enter_file (p : string) (s : lexer) : lexer :=
  {| TokStart := TokStart s; LastTokStart := LastTokStart s; Ifs := Ifs s; Ifstack := Ifstack s; Locs := p :: Locs s;
     messages := messages s |}.
(** printError, without the position. *)
Definition say (msg : string) (s : lexer) : lexer :=
  {| TokStart := TokStart s; LastTokStart := LastTokStart s; Ifs := Ifs s; Ifstack := Ifstack s; Locs := Locs s;
     messages := msg :: messages s |}.
Definition printError (msg : string) (s : lexer) : tok * lexer := (tok_Error, say msg s).
Definition initial (text : string) : lexer :=
  {| TokStart := text; LastTokStart := ""; Ifs := []; Ifstack := []; Locs := []; messages := [] |}.

(** More steps than the fuel given. *)
Definition out_of_fuel {A} : outcome A := Stop "out of fuel".

(** ** Pieces *)

Fixpoint skip (n : nat) (p : string) : string :=
  match n, p with O, _ => p | S n, String.String _ p => skip n p | _, EmptyString => EmptyString end.
Fixpoint skip_spaces (p : string) : string :=
  match p with String.String c p' => if isspace c then skip_spaces p' else p | EmptyString => p end.

Fixpoint digits (n : Z) (p : string) : Z * string :=
  match p with
  | String.String c p' => if isdigit c then digits (u64 (u64 (n * 10) + (Z.of_N (N_of_ascii c) - 48))) p' else (n, p)
  | EmptyString => (n, p)
  end.
(** The number, and what follows it. *)
Definition LexNumber (p : string) : Z * string :=
  match p with
  | String.String "-"%char p' => let '(n, p) := digits 0 p' in (swrap 64 (u64 (n * (-1))), p)
  | _ => let '(n, p) := digits 0 p in (swrap 64 n, p)
  end.

(** The loop of LexIdentifier: the characters read, what follows, or an error. *)
Fixpoint identifier (p : string) : option (string * string) :=
  match p with
  | EmptyString => Some ("", p)
  | String.String c p' =>
      if isspace c || bool_decide (is_Some (delimiters c)) then Some ("", p)
      else if isalnum c || Ascii.eqb c "_"%char then '(id, r) ← identifier p'; Some (String.String c id, r)
      else None
  end.
(** CurString, or an error; TokStart moves behind the identifier. *)
Definition LexIdentifier (s : lexer) : option string * lexer :=
  match TokStart s with
  | String.String c _ => if isdigit c then (None, say "Identifier cannot start with digit" s)
                  else match identifier (TokStart s) with
                       | Some (id, r) => (Some id, at_ r s)
                       | None => (None, say "while parsing identifier" (say "Unexpected character" s))
                       end
  | EmptyString => (Some "", s)
  end.

Fixpoint end_of_comment (p : string) : option string :=
  match p with
  | String.String "*"%char (String.String "/"%char p) => Some p
  | String.String _ p => end_of_comment p
  | EmptyString => None
  end.
Fixpoint end_of_line (p : string) : string :=
  match p with
  | String.String c p => if Ascii.eqb c "010"%char then p else end_of_line p
  | EmptyString => EmptyString
  end.
(** [p] starts with a slash. *)
Definition LexComment (p : string) (s : lexer) : option string * lexer :=
  match p with
  | String.String _ (String.String "*"%char p) =>
      match end_of_comment p with Some p => (Some p, s) | None => (None, say "EOF encountered while scanning for */" s) end
  | String.String _ (String.String "/"%char p) => (Some (end_of_line p), s)
  | _ => (None, say "/* or // comment expected" s)
  end.

(** The next "#endif" at or behind [p]. *)
Fixpoint next_endif (p : string) : option string :=
  if String.prefix "#endif" p then Some p else match p with String.String _ p => next_endif p | EmptyString => None end.
(** The name up to the closing quote, and what follows the quote. *)
Fixpoint quoted (p : string) : option (string * string) :=
  match p with
  | EmptyString => None
  | String.String c p => if Ascii.eqb c "034"%char then Some ("", p) else '(n, r) ← quoted p; Some (String.String c n, r)
  end.
(** A name longer than two characters that ends in _H. *)
Definition guard_name (s : string) : bool :=
  (2 <? Z.of_nat (String.length s)) && String.eqb (String.substring (String.length s - 2) 2 s) "_H".
Definition quote : string := String.String "034" "".

(** ** Lex *)

Section lexing.
(** InitLangKeywords: the keywords of clang's TokenKinds.def. *)
Context (lang_keywords : string -> option tok).
(** SourceMgr::AddIncludeFile: the text of an included file. *)
Context (AddIncludeFile : string -> option string).

Definition keyword (s : string) : option tok := match Enums.assoc s own_keywords with Some k => Some k | None => lang_keywords s end.

(** What one turn of the loop of Lex does: go on at a position, or return. *)
Inductive turn := Continue (p : string) (s : lexer) | Return (r : tok * lexer).

Definition ifdef (p : string) (s : lexer) : turn :=
  match LexIdentifier (at_ (skip 7 p) (with_Ifs (p :: Ifs s) s)) with
  | (None, s) => Return (tok_Error, s)
  | (Some id, s) =>
      if String.eqb id "__CLAMBC__" then Continue (TokStart s) s
      else Return (printError "Only __CLAMBC__ and __has_feature #ifdef supported" s)
  end.
(** Looking for the #endif starts behind the character after the identifier. *)
Definition overrun : string := "strchr behind the end of the text".
Definition ifndef (p : string) (s : lexer) : outcome turn :=
  match LexIdentifier (at_ (skip 8 p) (with_Ifs (p :: Ifs s) s)) with
  | (None, s) => Done (Return (tok_Error, s))
  | (Some id, s) =>
      if String.eqb id "__CLAMBC__" then
        match TokStart s with
        | EmptyString => Undefined overrun
        | String.String _ p =>
            match next_endif p with
            | Some p => Done (Continue p s)
            | None => Done (Return (printError "Missing #endif" s))
            end
        end
      else if guard_name id then Done (Continue (TokStart s) s)
      else Done (Return (printError "Only __CLAMBC__ and _H defines are supported" s))
  end.
Definition define (p : string) (s : lexer) : turn :=
  match LexIdentifier (at_ (skip 8 p) s) with
  | (None, s) => Return (tok_Error, s)
  | (Some id, s) => if guard_name id then Continue (TokStart s) s else Return (printError "Only _H defines are supported" s)
  end.
Definition endif (p : string) (s : lexer) : turn :=
  match Ifs s with
  | [] => Return (printError "#endif without #if(def)" s)
  | _ :: ifs => Continue (skip 6 p) (with_Ifs ifs s)
  end.
Definition include (p : string) (s : lexer) : turn :=
  match quoted (skip 10 p) with
  | None => Return (printError (String.append "Unterminated string, expected " (String.String "034" EmptyString)) s)
  | Some (name, p) =>
      if String.eqb name "bcfeatures.h" then Continue p s
      else match AddIncludeFile name with
           | Some text => Continue text (enter_file p (push_Ifs s))
           | None => Return (printError ("Include file not found: " +:+ name) (push_Ifs s))
           end
  end.
Definition directive (p : string) (s : lexer) : outcome turn :=
  if String.prefix "#ifdef " p then Done (ifdef p s)
  else if String.prefix "#ifndef " p then ifndef p s
  else if String.prefix "#define " p then Done (define p s)
  else if String.prefix "#endif" p then Done (endif p s)
  else if String.prefix (String.append "#include " (String.String "034" EmptyString)) p then Done (include p s)
  else Done (Return (printError "Unexpected preprocessor directive" s)).

(** An identifier, or the keyword it is. *)
Definition word (s : lexer) : tok * lexer :=
  match LexIdentifier s with
  | (None, s) => (tok_Error, s)
  | (Some id, s) =>
      match keyword id with
      | Some tok_ReservedType => printError "Using this type is not allowed (use a fixed-width integer type instead)!" s
      | Some tok_Reserved => printError "Using C/C99/GNUC/MSC keywords is not allowed!" s
      | Some tok_ReservedCXX => printError "Using C++/C++0x keywords is not allowed!" s
      | Some k => (k, s)
      | None => (tok_String id, s)
      end
  end.

(** The loop of Lex at position [p]. *)
Fixpoint Lex_from (fuel : nat) (p : string) (s : lexer) : outcome (tok * lexer) :=
  match fuel with
  | O => out_of_fuel
  | S fuel =>
      match p with
      | EmptyString => Done (tok_End, s)
      | String.String c p' =>
          if isspace c then Lex_from fuel (skip_spaces p') s
          else
            let s := at_ p (last_ p s) in
            if Ascii.eqb c "/"%char then
              match LexComment p s with
              | (Some p, s) => Lex_from fuel p s
              | (None, s) => Done (tok_Error, s)
              end
            else if Ascii.eqb c "#"%char then
              let* t := directive p s in
              match t with Continue p s => Lex_from fuel p s | Return r => Done r end
            else match delimiters c with
                 | Some k => Done (k, at_ p' s)
                 | None =>
                     if isdigit c || Ascii.eqb c "-"%char then
                       let '(n, r) := LexNumber p in Done (tok_Number n, at_ r s)
                     else Done (word s)
                 end
      end
  end.
Definition Lex (fuel : nat) (s : lexer) : outcome (tok * lexer) := Lex_from fuel (TokStart s) s.

(** The arguments of an ignored macro still to come; the token behind. *)
Fixpoint macro_arguments (fuel : nat) (n : nat) (token : tok) (s : lexer) : outcome (option tok * lexer) :=
  match n with
  | O => Done (Some token, s)
  | S n =>
      let* (_, s) := Lex fuel s in
      let s := last_ (TokStart s) s in
      let* (token, s) := Lex fuel s in
      if (0 <? Z.of_nat n) && negb (bool_decide (token = tok_Comma))
      then Done (None, say "expected , in macro arguments" s)
      else macro_arguments fuel n token s
  end.
(** The loop of LexToken that drops uses of ignored macros. *)
Fixpoint drop_macros (n fuel : nat) (token : tok) (s : lexer) : outcome (tok * lexer) :=
  match token with
  | tok_String id =>
      match ignoreMacros id with
      | None => Done (token, s)
      | Some k =>
          match n with
          | O => out_of_fuel
          | S n =>
              let* (token, s) := Lex fuel (last_ (TokStart s) s) in
              if negb (bool_decide (token = tok_ParOpen)) then Done (printError "expected ( after macro" s) else
              let* (r, s) := macro_arguments fuel k token s in
              match r with
              | None => Done (tok_Error, s)
              | Some token =>
                  if negb (bool_decide (token = tok_ParClose)) then Done (printError "expected ) after macro" s) else
                  let* (token, s) := Lex fuel s in drop_macros n fuel token s
              end
          end
      end
  | _ => Done (token, s)
  end.
Definition LexToken (fuel : nat) (s : lexer) : outcome (tok * lexer) :=
  let* (token, s) := Lex fuel (last_ (TokStart s) s) in
  match token with
  | tok_Error | tok_End => Done (token, s)
  | _ =>
      if String.eqb (LastTokStart s) (TokStart s) then Done (printError "Lexer inflooping!" s)
      else drop_macros fuel fuel token s
  end.
End lexing.

(** ** Termination

    [weight]: the characters of a text and of all files it may include, if [size]
    bounds those. *)

Section weights.
Context (size : string -> nat).
Definition opens (p : string) : nat :=
  if String.prefix (String.append "#include " (String.String "034" EmptyString)) p
  then match quoted (skip 10 p) with Some (n, _) => size n | None => 0%nat end else 0%nat.
Fixpoint weight (p : string) : nat := match p with EmptyString => 0%nat | String.String _ p' => S (opens p + weight p') end.
Definition waits (l : list string) : nat := sum_list (map (fun p => S (weight p)) l).
Definition waiting (s : lexer) : nat := waits (Locs s).
Definition load (s : lexer) : nat := (weight (TokStart s) + waiting s)%nat.

(** [r] is what is left of [p]. *)
Inductive rest_of : string -> string -> Prop :=
| rest_refl p : rest_of p p
| rest_later c p r : rest_of p r -> rest_of (String.String c p) r.
Hint Constructors rest_of : core.
Lemma rest_trans p q r : rest_of p q -> rest_of q r -> rest_of p r.
Proof. induction 1; auto. Qed.
Lemma rest_weight p r : rest_of p r -> (weight r <= weight p)%nat.
Proof. induction 1; cbn [weight]; lia. Qed.
Lemma rest_weight_later c p r : rest_of p r -> (weight r < weight (String.String c p))%nat.
Proof. intros H%rest_weight. cbn [weight]. lia. Qed.

Lemma skip_rest n p : rest_of p (skip n p).
Proof. revert p. induction n as [|n IH]; intros [|c p]; cbn [skip]; auto. Qed.
Lemma skip_spaces_rest p : rest_of p (skip_spaces p).
Proof. induction p as [|c p IH]; cbn [skip_spaces]; [auto|]. destruct (isspace c); auto. Qed.
Lemma digits_rest p : forall n, rest_of p (snd (digits n p)).
Proof. induction p as [|c p IH]; intros n; cbn [digits snd]; [auto|]. destruct (isdigit c); cbn [snd]; auto. Qed.
Lemma identifier_rest p : forall id r, identifier p = Some (id, r) -> rest_of p r.
Proof.
  induction p as [|c p IH]; intros id r; cbn [identifier]; [by intros [= _ <-]|].
  destruct (isspace c || _); [by intros [= _ <-]|]. destruct (isalnum c || _); [|done].
  intros ([id' r'] & E & H)%bind_Some. injection H as _ <-. eauto.
Qed.
Lemma end_of_comment_rest p : forall r, end_of_comment p = Some r -> rest_of p r.
Proof.
  induction p as [|c p IH]; intros r; [done|]. intros H. constructor. cbn [end_of_comment] in H.
  repeat (case_match; try by apply IH). injection H as <-. auto.
Qed.
Lemma end_of_line_rest p : rest_of p (end_of_line p).
Proof. induction p as [|c p IH]; cbn [end_of_line]; [auto|]. destruct (Ascii.eqb c _); auto. Qed.
Lemma next_endif_rest p : forall r, next_endif p = Some r -> rest_of p r.
Proof.
  induction p as [|c p IH]; intros r; cbn [next_endif]; [by intros [= <-]|]. destruct (String.prefix _ _); [by intros [= <-]|eauto].
Qed.
Lemma quoted_rest p : forall n r, quoted p = Some (n, r) -> rest_of p r.
Proof.
  induction p as [|c p IH]; intros n r; cbn [quoted]; [done|]. destruct (Ascii.eqb c _); [intros [= _ <-]; auto|].
  intros ([n' r'] & E & H)%bind_Some. injection H as _ <-. eauto.
Qed.
Lemma skip_spaces_idem p : skip_spaces (skip_spaces p) = skip_spaces p.
Proof. induction p as [|c p IH]; [done|]. cbn [skip_spaces]. destruct (isspace c) eqn:E; [done|]. cbn [skip_spaces]. by rewrite E. Qed.
Lemma quoted_weight p n r : quoted p = Some (n, r) -> (weight r < weight p)%nat.
Proof.
  revert n. induction p as [|c p IH]; intros n; cbn [quoted]; [done|]. destruct (Ascii.eqb c _); [intros [= _ <-]; cbn [weight]; lia|].
  intros ([n' r'] & E & H)%bind_Some. injection H as _ <-. apply IH in E. cbn [weight]. lia.
Qed.

Section progress.
Context (lang_keywords : string -> option tok) (AddIncludeFile : string -> option string).
(** No file is blank, and [size] bounds each: files do not include themselves. *)
Context (Hfiles : forall n t, AddIncludeFile n = Some t -> (weight t <= size n)%nat /\ skip_spaces t <> EmptyString).

Definition proper (t : tok) : Prop := t <> tok_End /\ t <> tok_Error.
(** The lexer has not moved back, and forwards over a proper token; what can go wrong
    is the search for an #endif. *)
Definition moved (b : nat) (r : outcome (tok * lexer)) : Prop :=
  match r with
  | Done (t, s) => (load s <= b)%nat /\ (proper t -> (load s < b)%nat)
  | Undefined m => m = overrun
  | _ => False
  end.
Definition turned (p : string) (s : lexer) (t : outcome turn) : Prop :=
  match t with
  | Done (Continue p' s') => (weight p' + waiting s' < weight p + waiting s)%nat /\ (load s' <= weight p + waiting s)%nat \/
                             (weight p' + waiting s' < weight p + waiting s)%nat /\ skip_spaces p' <> EmptyString
  | Done (Return (t, s')) => t = tok_Error /\ (load s' <= weight p + waiting s)%nat
  | Undefined m => m = overrun
  | _ => False
  end.

Lemma LexIdentifier_rest s r s' : LexIdentifier s = (r, s') ->
  rest_of (TokStart s) (TokStart s') /\ waiting s' = waiting s.
Proof.
  unfold LexIdentifier. destruct (TokStart s) as [|c p] eqn:E; [intros [= _ <-]; rewrite E; auto|].
  destruct (isdigit c); [intros [= _ <-]; cbn [TokStart say]; rewrite E; auto|].
  destruct (identifier _) as [[id q]|] eqn:Ei; intros [= _ <-]; cbn [TokStart at_ say]; [|rewrite E; auto].
  split; [by eapply identifier_rest|done].
Qed.
Lemma skip_weight n p c : (weight (skip (S n) (String.String c p)) < weight (String.String c p))%nat.
Proof. cbn [skip]. apply rest_weight_later, skip_rest. Qed.
Ltac loads := cbn [turned printError] in *; unfold load, waiting in *; cbn [TokStart Locs say at_ last_ with_Ifs push_Ifs enter_file] in *.
Lemma directive_turned p s : p <> EmptyString -> turned p s (directive AddIncludeFile p (at_ p (last_ p s))).
Proof.
  destruct p as [|c p]; [done|]. intros _. set (q := String.String c p).
  assert (Hat : forall n s0 r s1, waiting s0 = waiting s -> TokStart s0 = skip (S n) q -> LexIdentifier s0 = (r, s1) ->
    (weight (TokStart s1) < weight q)%nat /\ waiting s1 = waiting s).
  { intros n s0 r s1 Hw Ht H. apply LexIdentifier_rest in H as [H1 H2]. split; [|congruence].
    apply rest_weight in H1. rewrite Ht in H1. pose proof (skip_weight n p c). unfold q in *. lia. }
  unfold directive. destruct (String.prefix "#ifdef " q).
  { unfold ifdef. destruct (LexIdentifier _) as [[id|] s1] eqn:E; apply (Hat 6%nat) in E as [E1 E2]; try done.
    - destruct (String.eqb id _); loads; [left; lia|split; [done|lia]].
    - loads. split; [done|lia]. }
  destruct (String.prefix "#ifndef " q).
  { unfold ifndef. destruct (LexIdentifier _) as [[id|] s1] eqn:E; apply (Hat 7%nat) in E as [E1 E2]; try done.
    - destruct (String.eqb id _); [|destruct (guard_name id); loads; [left; lia|split; [done|lia]]].
      destruct (TokStart s1) as [|c1 p1] eqn:Et; [done|]. destruct (next_endif p1) as [p2|] eqn:En; loads; rewrite ?Et in *; [left|split; [done|lia]].
      apply next_endif_rest in En. pose proof (rest_weight_later c1 _ _ En). lia.
    - loads. split; [done|lia]. }
  destruct (String.prefix "#define " q).
  { unfold define. destruct (LexIdentifier _) as [[id|] s1] eqn:E; apply (Hat 7%nat) in E as [E1 E2]; try done.
    - destruct (guard_name id); loads; [left; lia|split; [done|lia]].
    - loads. split; [done|lia]. }
  destruct (String.prefix "#endif" q).
  { unfold endif. destruct (Ifs _); loads; [split; [done|lia]|]. pose proof (skip_weight 5 p c) as Hs. fold q in Hs. left. lia. }
  destruct (String.prefix (String.append "#include " _) q) eqn:Ep; [|loads; split; [done|lia]].
  unfold include. destruct (quoted (skip 10 q)) as [[name p1]|] eqn:Eq; [|loads; split; [done|lia]].
  assert (Hw : (S (size name + S (weight p1)) <= weight q)%nat).
  { apply quoted_weight in Eq as Hq. pose proof (rest_weight _ _ (skip_rest 9 p)) as H9. change (skip 10 q) with (skip 9 p) in *.
    unfold q in *. cbn [weight]. unfold opens. rewrite Ep. change (skip 10 (String.String c p)) with (skip 9 p). rewrite Eq. lia. }
  destruct (String.eqb name _); [|destruct (AddIncludeFile name) as [text|] eqn:Ef]; loads.
  - left. lia.
  - right. destruct (Hfiles name text Ef) as [Hs Hb]. split; [|done]. change (waits (p1 :: Locs s)) with (S (weight p1 + waits (Locs s))). lia.
  - split; [done|lia].
Qed.

Lemma Lex_from_moved fuel : forall p s b, (weight p + waiting s < fuel)%nat -> (weight p + waiting s <= b)%nat ->
  (skip_spaces p = EmptyString -> (load s <= b)%nat) -> moved b (Lex_from lang_keywords AddIncludeFile fuel p s).
Proof.
  induction fuel as [|fuel IH]; intros p s b Hf Hb Hs; [lia|]. cbn [Lex_from].
  destruct p as [|c p]; [cbn [moved]; split; [by apply Hs|by intros [[] _]]|].
  destruct (isspace c) eqn:Ec.
  { pose proof (rest_weight_later c p _ (skip_spaces_rest p)) as Hw. apply IH; [lia..|]. intros H. apply Hs. cbn [skip_spaces]. rewrite Ec.
    by rewrite skip_spaces_idem in H. }
  cbv zeta. destruct (Ascii.eqb c "/"%char).
  { destruct (LexComment _ _) as [[p1|] s1] eqn:E.
    - assert (rest_of p p1 /\ load s1 = (weight (String.String c p) + waiting s)%nat /\ waiting s1 = waiting s) as (H1 & H2 & H3).
      { unfold LexComment in E. destruct p as [|c1 p]; [done|]. repeat (case_match; try discriminate E); injection E as <- <-;
          (split; [|done]); constructor; try apply end_of_line_rest; by apply end_of_comment_rest. }
      apply (rest_weight_later c) in H1. rewrite <- H3 in *. apply IH; lia.
    - assert (load s1 = (weight (String.String c p) + waiting s)%nat) as H.
      { unfold LexComment in E. destruct p as [|c1 p]; [by injection E as <-|]. repeat (case_match; try discriminate E); by injection E as <-. }
      cbn [moved]. rewrite H. split; [lia|]. by intros [_ []]. }
  destruct (Ascii.eqb c "#"%char).
  { pose proof (directive_turned (String.String c p) s ltac:(done)) as H. destruct (directive _ _ _) as [[p1 s1|[t s1]]| | |]; cbn [obind turned] in *; try done.
    - destruct H as [[H1 H2]|[H1 H2]]; apply IH; try lia; done.
    - destruct H as [-> H]. cbn [moved]. split; [lia|]. by intros [_ []]. }
  destruct (delimiters c) as [k|] eqn:Edl; [loads; cbn [moved]; loads; cbn [weight] in *; split; [lia|intros _; lia]|].
  destruct (isdigit c || _) eqn:Ed.
  { destruct (LexNumber (String.String c p)) as [n r] eqn:E.
    assert (rest_of p r) as Hr.
    { unfold LexNumber in E. destruct (Ascii.eqb_spec c "-"%char) as [->|Hc].
      - cbn beta iota in E. destruct (digits 0 p) as [n' r'] eqn:E'. injection E as _ <-. change r' with (snd (n', r')). rewrite <- E'. apply digits_rest.
      - assert (E' : (let '(n, p) := digits 0 (String.String c p) in (swrap 64 n, p)) = (n, r)).
        { destruct c as [[] [] [] [] [] [] [] []]; first [exact E|by destruct Hc]. }
        rewrite orb_false_r in Ed. cbn [digits] in E'. rewrite Ed in E'.
        match type of E' with context [digits ?k p] => destruct (digits k p) as [n' r'] eqn:E2 end. injection E' as _ <-.
        change r' with (snd (n', r')). rewrite <- E2. apply digits_rest. }
    apply (rest_weight_later c) in Hr. cbn [moved]. loads. split; [lia|intros _; lia]. }
  unfold word. destruct (LexIdentifier _) as [[id|] s1] eqn:E.
  - assert (moved b (Done (tok_String id, s1)) /\ (load s1 < b)%nat) as [Hm Hl]; [|].
    2: { repeat case_match; cbn [printError moved] in *; split; try (loads; lia); intros []; loads; first [lia|done]. }
    assert (load s1 < b)%nat; [|split; [split; [lia|done]|done]].
    unfold LexIdentifier in E. cbn [TokStart at_] in E. apply orb_false_iff in Ed as [Ed _]. rewrite Ed in E.
    destruct (identifier _) as [[id' r]|] eqn:Ei; [|done]. injection E as <- <-. cbn [identifier] in Ei. rewrite Ec, Edl in Ei.
    rewrite bool_decide_false in Ei by (by intros [? ?]). cbn [orb] in Ei. destruct (isalnum c || _); [|done].
    apply bind_Some in Ei as ([id2 r2] & Ei & H). injection H as _ <-. apply identifier_rest, (rest_weight_later c) in Ei. loads. lia.
  - cbn [moved]. split; [|by intros [_ []]]. apply LexIdentifier_rest in E as [E1 E2]. apply rest_weight in E1. loads. lia.
Qed.
Lemma Lex_moved fuel s b : (load s < fuel)%nat -> (load s <= b)%nat -> moved b (Lex lang_keywords AddIncludeFile fuel s).
Proof. intros H1 H2. by apply Lex_from_moved. Qed.
Lemma macro_arguments_moved fuel n : forall token s b, (b < fuel)%nat -> (load s <= b)%nat ->
  match macro_arguments lang_keywords AddIncludeFile fuel n token s with Done (_, s') => (load s' <= b)%nat | Undefined m => m = overrun | _ => False end.
Proof.
  induction n as [|n IH]; intros token s b Hb Hs; cbn [macro_arguments]; [done|].
  pose proof (Lex_moved fuel s b ltac:(lia) Hs) as H1. destruct (Lex _ _ fuel s) as [[t1 s1]| | |]; cbn [obind moved] in *; try done.
  destruct H1 as [H1 _]. pose proof (Lex_moved fuel (last_ (TokStart s1) s1) b ltac:(loads; lia) H1) as H2.
  destruct (Lex _ _ fuel (last_ _ s1)) as [[t2 s2]| | |]; cbn [obind moved] in *; try done. destruct H2 as [H2 _].
  destruct ((0 <? _) && _); [done|]. by apply IH.
Qed.
Lemma drop_macros_moved fuel n : forall token s b, (b < fuel)%nat -> (load s <= b)%nat ->
  (proper token -> (load s < n)%nat /\ (load s < b)%nat) -> moved b (drop_macros lang_keywords AddIncludeFile n fuel token s).
Proof.
  induction n as [|n IH]; intros token s b Hb Hs Hp.
  { destruct token; cbn [drop_macros moved]; try (split; [done|]; intros H; exact (proj2 (Hp H))). destruct (Hp ltac:(done)). lia. }
  destruct token; cbn [drop_macros]; try (cbn [moved]; split; [done|]; intros H; exact (proj2 (Hp H))).
  destruct Hp as [Hn Hl]; [done|]. destruct (ignoreMacros s0) as [k|]; [|by cbn [moved]].
  assert (Herr : forall m s1, (load s1 <= b)%nat -> moved b (Done (printError m s1))) by (intros m s1 H; cbn; split; [exact H|by intros [_ []]]).
  pose proof (Lex_moved fuel (last_ (TokStart s) s) (load s) ltac:(loads; lia) ltac:(done)) as H1.
  destruct (Lex _ _ fuel _) as [[t1 s1]| | |]; cbn [obind moved] in *; try done. destruct H1 as [H1 _].
  destruct (negb _); [apply Herr; lia|]. pose proof (macro_arguments_moved fuel k t1 s1 (load s) ltac:(lia) H1) as H2.
  destruct (macro_arguments _ _ fuel k t1 s1) as [[[t2|] s2]| | |]; cbn [obind] in *; try done; [|split; [lia|by intros [_ []]]].
  destruct (negb _); [apply Herr; lia|]. pose proof (Lex_moved fuel s2 (load s) ltac:(lia) H2) as H3.
  destruct (Lex _ _ fuel s2) as [[t3 s3]| | |]; cbn [obind moved] in *; try done. destruct H3 as [H3 H4].
  apply IH; [done|lia|]. intros Ht. specialize (H4 Ht). lia.
Qed.
(** LexToken does not run out of fuel, and a token that is neither the end nor an
    error shortens what is left to read. *)
Lemma LexToken_moved fuel s b : (b < fuel)%nat -> (load s <= b)%nat -> moved b (LexToken lang_keywords AddIncludeFile fuel s).
Proof.
  intros Hb Hs. unfold LexToken. pose proof (Lex_moved fuel (last_ (TokStart s) s) b ltac:(loads; lia) Hs) as H1.
  destruct (Lex _ _ fuel _) as [[t1 s1]| | |]; cbn [obind moved] in *; try done. destruct H1 as [H1 H2].
  assert (Hp : proper t1 -> (load s1 < fuel)%nat /\ (load s1 < b)%nat) by (intros Ht; specialize (H2 Ht); lia).
  assert (moved b (if String.eqb (LastTokStart s1) (TokStart s1) then Done (printError "Lexer inflooping!" s1)
                   else drop_macros lang_keywords AddIncludeFile fuel fuel t1 s1)) as H3.
  { destruct (String.eqb _ _); [cbn [printError moved]; split; [loads; lia|by intros [_ []]]|by apply drop_macros_moved]. }
  destruct t1; try exact H3; cbn [moved]; (split; [done|]); intros []; congruence.
Qed.
End progress.
End weights.
