(* ===== verification/IfaceParser.v ===== *)
(** * IfaceParser: the parser of the interface generator

    Class Parser of clambc-ifacegen/ifacegen.cpp, the part that reads declarations
    from the tokens of IfaceLexer.v: enumerations are skipped, structures,
    globals and function prototypes are checked and kept. *)
From S2P Require Import Prelude Enums Layout ApiHeader ApiDecl IfaceGen IfaceLexer.
From stdpp Require finite.
Local Open Scope string_scope.
Local Open Scope list_scope.
Local Open Scope Z_scope.
Local Open Scope outcome_scope.

(** ** State *)

(** [namedTypes]: the structures by name, [None] while opaque. *)
Record parser := {
  lex : lexer; TypeFlags : type_flags; TypeFlagsList : list type_flags;
  namedTypes : gmap string (option (list ltype));
  globals : list (string * ltype); functions : list function
}.
Definition with_lex (l : lexer) (s : parser) : parser :=
  {| lex := l; TypeFlags := TypeFlags s; TypeFlagsList := TypeFlagsList s; namedTypes := namedTypes s; globals := globals s; functions := functions s |}.
Definition with_flags (f : type_flags) (s : parser) : parser :=
  {| lex := lex s; TypeFlags := f; TypeFlagsList := TypeFlagsList s; namedTypes := namedTypes s; globals := globals s; functions := functions s |}.
Definition with_list (l : list type_flags) (s : parser) : parser :=
  {| lex := lex s; TypeFlags := TypeFlags s; TypeFlagsList := l; namedTypes := namedTypes s; globals := globals s; functions := functions s |}.
Definition with_named (m : gmap string (option (list ltype))) (s : parser) : parser :=
  {| lex := lex s; TypeFlags := TypeFlags s; TypeFlagsList := TypeFlagsList s; namedTypes := m; globals := globals s; functions := functions s |}.
Definition add_global (x : string) (t : ltype) (s : parser) : parser :=
  {| lex := lex s; TypeFlags := TypeFlags s; TypeFlagsList := TypeFlagsList s; namedTypes := namedTypes s;
     globals := globals s ++ [(x, t)]; functions := functions s |}.
Definition add_function (f : function) (s : parser) : parser :=
  {| lex := lex s; TypeFlags := TypeFlags s; TypeFlagsList := TypeFlagsList s; namedTypes := namedTypes s;
     globals := globals s; functions := functions s ++ [f] |}.
Definition no_flags : type_flags := Flags false false.
Definition start (text : string) : parser :=
  {| lex := initial text; TypeFlags := no_flags; TypeFlagsList := []; namedTypes := ∅; globals := []; functions := [] |}.
Definition complain (msg : string) (s : parser) : parser := with_lex (say msg (lex s)) s.

(** The members of a structure, none for an opaque one. *)
Definition members (named : gmap string (option (list ltype))) (tag : string) : list ltype :=
  match named !! tag with Some (Some l) => l | _ => [] end.
(** More than the structures can be nested. *)
Definition depth (named : gmap string (option (list ltype))) : nat := S (size named).

(** *** A structure that contains itself *)

(** From the structures a value of the type holds, one leads to itself. *)
Definition contains_itself (named : gmap string (option (list ltype))) (t : ltype) : Prop :=
  exists tag tag', held t = Some tag /\ rtc (inside (members named)) tag tag' /\ tc (inside (members named)) tag' tag'.
Lemma inside_named named tag tag' : inside (members named) tag tag' -> tag ∈ dom named.
Proof.
  intros (t & Ht & _). unfold members in Ht. apply elem_of_dom. destruct (named !! tag) as [d|]; [by exists d|]. by apply not_elem_of_nil in Ht.
Qed.
Lemma contains_itself_nests named n : forall t, contains_itself named t -> nests (members named) n t.
Proof.
  induction n as [|n IH]; intros t (tag & tag' & Ht & H1 & H2); (exists tag; split; [done|]); [done|].
  assert (exists next, inside (members named) tag next /\ exists tag', rtc (inside (members named)) next tag' /\ tc (inside (members named)) tag' tag') as (nx & (u & Hu & Hn) & tag2 & H3 & H4).
  { inversion H1 as [x|x y z Hxy Hyz]; subst; [|by exists y; split; [|exists tag']].
    inversion H2 as [x y Hxy|x y z Hxy Hyz]; subst; [exists tag'; split; [done|]; by exists tag'|]. exists y. split; [done|]. exists tag'. split; [by apply tc_rtc|done]. }
  exists u. split; [done|]. apply IH. by exists nx, tag2.
Qed.
Definition path (named : gmap string (option (list ltype))) (l : list string) : Prop :=
  forall i a b, l !! i = Some a -> l !! S i = Some b -> inside (members named) a b.
Lemma nests_path named n : forall t, nests (members named) n t -> exists tag l, held t = Some tag /\ path named (tag :: l) /\ length l = n.
Proof.
  induction n as [|n IH]; intros t (tag & Ht & H).
  { exists tag, []. split; [done|]. split; [by intros [|i] a b|done]. }
  destruct H as (u & Hu & Hn). destruct (IH u Hn) as (tag' & l & Hu' & Hp & Hl). exists tag, (tag' :: l). split; [done|]. split; [|cbn [length]; lia].
  intros [|i] a b Ha Hb; [|by apply (Hp i)]. injection Ha as <-. injection Hb as <-. by exists u.
Qed.
Lemma path_tc named l : path named l -> forall i j a b, (i < j)%nat -> l !! i = Some a -> l !! j = Some b -> tc (inside (members named)) a b.
Proof.
  intros Hp i j a b Hij. replace j with (S (j - S i) + i)%nat by lia. generalize (j - S i)%nat as k. clear j Hij. intros k Ha. revert b.
  induction k as [|k IH]; intros b Hb; [by apply tc_once, (Hp i)|].
  destruct (lookup_lt_is_Some_2 l (S k + i)%nat) as [c Hc]; [apply lookup_lt_Some in Hb; lia|].
  eapply tc_r; [by apply IH|]. by apply (Hp (S k + i)%nat).
Qed.
Lemma nests_contains_itself named t : nests (members named) (depth named) t -> contains_itself named t.
Proof.
  intros H. destruct (nests_path named _ t H) as (tag & l & Ht & Hp & Hl). unfold depth in Hl.
  destruct (finite.list_pigeonhole (take (S (size named)) (tag :: l)) (base.elements (dom named))) as (i & j & x & Hij & Hi & Hj).
  - intros x Hx. apply elem_of_elements. apply list_elem_of_lookup in Hx as [k Hk].
    apply lookup_take_Some in Hk as [Hk Hlt]. destruct (lookup_lt_is_Some_2 (tag :: l) (S k)) as [y Hy]; [cbn [length]; lia|].
    eapply inside_named, (Hp k); eauto.
  - rewrite length_take. change (length (base.elements (dom named))) with (size (dom named)). rewrite size_dom. cbn [length]. lia.
  - apply lookup_take_Some in Hi as [Hi _], Hj as [Hj _]. exists tag, x. split; [done|]. split; [|by apply (path_tc named _ Hp i j)].
    destruct i as [|i]; [by injection Hi as <-|]. apply tc_rtc. by apply (path_tc named _ Hp 0%nat (S i)); [lia| |].
Qed.
(** With the fuel the parser has, the layout check recurses without end exactly when
    a structure contains itself, and is complete otherwise. *)
Lemma checkTypeSize_outcome named t :
  match checkTypeSize (members named) (depth named) t with
  | Done _ => ~ contains_itself named t
  | Undefined m => m = endless /\ contains_itself named t
  | _ => False
  end.
Proof.
  pose proof (checkTypeSize_measured (members named) (depth named) t) as H. destruct (checkTypeSize _ _ _) as [r| |m|m]; cbn [measured] in H; try done.
  - intros Hc. by apply H, contains_itself_nests.
  - destruct H as [-> H]. split; [done|]. by apply nests_contains_itself.
Qed.
Lemma checkFuncParams_outcome named t :
  match checkFuncParams (members named) (depth named) t with Done _ => True | Undefined m => m = endless | _ => False end.
Proof.
  assert (Hparam : forall u, match checkParam (members named) (depth named) u with Done _ => True | Undefined m => m = endless | _ => False end).
  { intros [|w|u|k u|tag|ret ps]; cbn [checkParam]; try done. pose proof (checkTypeSize_outcome named u) as H.
    destruct (checkTypeSize _ _ _) as [[s M]| |m|m]; cbn [obind]; tauto. }
  destruct t as [|w|u|k u|tag|ret ps]; cbn [checkFuncParams]; try done.
  assert (Hall : match mapM_out (checkParam (members named) (depth named)) (ret :: ps) with Done _ => True | Undefined m => m = endless | _ => False end).
  { induction (ret :: ps) as [|u us IH]; [done|]. cbn [mapM_out]. specialize (Hparam u). destruct (checkParam _ _ u); cbn [obind]; try done.
    by destruct (mapM_out _ us). }
  by destruct (mapM_out _ _).
Qed.

Section parsing.
Context (lang_keywords : string -> option tok) (AddIncludeFile : string -> option string) (fuel : nat).
Definition next (s : parser) : outcome (tok * parser) :=
  let* (token, l) := LexToken lang_keywords AddIncludeFile fuel (lex s) in Done (token, with_lex l s).
(** Lex, which does not drop macros *)
Definition next_raw (s : parser) : outcome (tok * parser) :=
  let* (token, l) := Lex lang_keywords AddIncludeFile fuel (lex s) in Done (token, with_lex l s).

(** ** Types *)

Definition add_const (f : type_flags) : type_flags := Flags true (SignedType f).
Definition add_signed (f : type_flags) : type_flags := Flags (ConstType f) true.
(** [None]: Ok is false. *)
Fixpoint ParseType (n : nat) (token : tok) (s : parser) : outcome (option ltype * parser) :=
  match n with
  | O => out_of_fuel
  | S n =>
      match token with
      | tok_End => Done (None, complain "Type name expected, but EOF encountered" s)
      | tok_Const => let* (token, s) := next (with_flags (add_const (TypeFlags s)) s) in ParseType n token s
      | tok_Struct =>
          let* (token, s) := next s in
          match token with
          | tok_String tag =>
              Done (Some (TStruct tag), match namedTypes s !! tag with Some _ => s | None => with_named (<[tag := None]> (namedTypes s)) s end)
          | _ => Done (None, complain "Identifier expected after 'struct'" s)
          end
      | tok_String _ => Done (None, complain "Type name expected, but identifier found" s)
      | tok_Int8 => Done (Some (TInt 8), with_flags (add_signed (TypeFlags s)) s)
      | tok_UInt8 => Done (Some (TInt 8), s)
      | tok_Int16 => Done (Some (TInt 16), with_flags (add_signed (TypeFlags s)) s)
      | tok_UInt16 => Done (Some (TInt 16), s)
      | tok_Int32 => Done (Some (TInt 32), with_flags (add_signed (TypeFlags s)) s)
      | tok_UInt32 => Done (Some (TInt 32), s)
      | tok_Int64 => Done (Some (TInt 64), with_flags (add_signed (TypeFlags s)) s)
      | tok_UInt64 => Done (Some (TInt 64), s)
      | tok_Void => Done (Some TVoid, s)
      | tok_Extern => let* (token, s) := next s in ParseType n token s
      | _ => Done (None, complain "Type name expected" s)
      end
  end.
Definition pointer_to (t : ltype) : ltype := TPtr (match t with TVoid => TInt 8 | t => t end).
(** The loop of ParseTypeFully. *)
Fixpoint pointers (n : nat) (Ty : ltype) (s : parser) : outcome (tok * ltype * parser) :=
  match n with
  | O => out_of_fuel
  | S n =>
      let* (token, s) := next s in
      match token with tok_Pointer => pointers n (pointer_to Ty) s | _ => Done (token, Ty, s) end
  end.
(** The token behind the type; no type when it could not be parsed. *)
Definition ParseTypeFully (token : tok) (s : parser) : outcome (tok * option ltype * parser) :=
  let* (Ty, s) := ParseType fuel token (with_flags no_flags s) in
  match Ty with
  | None => Done (tok_Error, None, s)
  | Some Ty => let* (token, Ty, s) := pointers fuel Ty s in Done (token, Some Ty, s)
  end.

(** The dimensions up to a semicolon; [None]: 0 is returned. The sizes are
    unsigned. *)
Fixpoint dimensions (n : nat) (token : tok) (dims : list Z) (s : parser) : outcome (tok * option (list Z) * parser) :=
  match n with
  | O => out_of_fuel
  | S n =>
      match token with
      | tok_SemiColon => Done (token, Some dims, s)
      | tok_SquareBracketOpen =>
          let* (token, s) := next_raw s in
          match token with
          | tok_Number numElements =>
              if numElements <? 0 then Done (token, None, complain "Array size too large" s)
              else if numElements =? 0 then Done (token, None, complain "Expected non-zero array size" s)
              else
                let* (token, s) := next s in
                match token with
                | tok_SquareBracketClose =>
                    let* (token, s) := next s in dimensions n token (dims ++ [u32 numElements]) s
                | _ => Done (token, None, complain "Expected ] after array size" s)
                end
          | _ => Done (token, None, complain "Expected numeric array size" s)
          end
      | _ => Done (token, None, s)
      end
  end.
Definition parseOptionalArraySize (token : tok) (Ty : ltype) (s : parser) : outcome (tok * option ltype * parser) :=
  let* (token, dims, s) := dimensions fuel token [] s in
  Done (token, option_map (fun dims => fold_right TArr Ty dims) dims, s).

(** ** Prototypes *)

(** The loop over the parameters: [None] when it returns false, else the
    parameters and whether all is well. *)
Fixpoint parameters (n : nat) (params : list ltype) (ok : bool) (s : parser) : outcome (option (list ltype * bool) * parser) :=
  match n with
  | O => out_of_fuel
  | S n =>
      let* (token, s) := next s in
      if bool_decide (token = tok_ParClose) then
        match params with
        | [] => Done (Some (params, false), complain "function prototypes must use (void) instead of ()" s)
        | _ => Done (Some (params, ok), s)
        end
      else
        let* (token, Ty, s) := ParseTypeFully token s in
        match token, Ty with
        | tok_End, _ => Done (None, complain "EOF encountered while parsing typename" s)
        | tok_Error, _ | _, None => Done (None, s)
        | _, Some Ty =>
            if bool_decide (Ty = TVoid) && bool_decide (params = []) then
              if bool_decide (token = tok_ParClose) then Done (Some (params, ok), s) else Done (None, complain ") expected" s)
            else
              let '(ok, s) := if bool_decide (Ty = TVoid) then (false, complain "Invalid argument type" s) else (ok, s) in
              let '(ok, s) := if param_ok Ty then (ok, s) else (false, complain "Only integer and pointer types are supported" s) in
              let params := params ++ [Ty] in
              let s := with_list (TypeFlagsList s ++ [TypeFlags s]) s in
              let '(ok, s) := if (5 <? Z.of_nat (length params)) then (false, complain "At most 5 parameters supported for API calls" s) else (ok, s) in
              let* (token, s) := match token with tok_String _ => next s | _ => Done (token, s) end in
              match token with
              | tok_Comma => parameters n params ok s
              | tok_ParClose => Done (Some (params, ok), s)
              | tok_End => Done (None, complain "EOF encountered while parsing function prototype" s)
              | _ => Done (None, complain ", or ) expected" s)
              end
        end
  end.
(** The return type has been parsed, with its flags. *)
Definition ParseFunctionPrototype (RetTy : ltype) (token : tok) (s : parser) : outcome (option ltype * parser) :=
  let s := with_list [TypeFlags s] s in
  let '(ok, s) := if ret_ok RetTy then (true, s) else (false, complain "Only integer and void return types are supported" s) in
  if negb (bool_decide (token = tok_ParOpen)) then Done (None, complain "( expected" s) else
  let* (r, s) := parameters fuel [] ok s in
  match r with
  | None => Done (None, s)
  | Some (params, ok) =>
      let* (token, s) := next s in
      if negb (bool_decide (token = tok_SemiColon)) then Done (None, complain "; expected" s)
      else Done (if ok : bool then Some (TFun RetTy params) else None, s)
  end.

(** ** Structures *)

(** The loop over the fields. *)
Fixpoint struct_fields_loop (n : nat) (token : tok) (fields : list ltype) (s : parser) : outcome (option (list ltype) * parser) :=
  match n with
  | O => out_of_fuel
  | S n =>
      if bool_decide (token = tok_BraceClose) then Done (Some fields, s) else
      let* (token, Ty, s) := ParseTypeFully token s in
      match token, Ty with
      | tok_Error, _ | _, None => Done (None, complain "Structure field expected" s)
      | tok_End, _ => Done (None, complain "EOF encountered while parsing struct declaration" s)
      | _, Some Ty =>
          if bool_decide (Ty = TVoid) then Done (None, complain "Structure field expected" (complain "Invalid structure field type" s)) else
          match token with
          | tok_String _ =>
              let* (token, s) := next s in
              let* (token, Ty, s) := parseOptionalArraySize token Ty s in
              match Ty with
              | None => Done (None, complain "Structure field expected" s)
              | Some Ty => let* (token, s) := next s in struct_fields_loop n token (fields ++ [Ty]) s
              end
          | _ => Done (None, complain "Structure field expected" (complain "Structure field name expected" s))
          end
      end
  end.
(** OpaqueType::refineAbstractTypeTo, which wants an opaque type. *)
Definition refine (STy : ltype) (fields : list ltype) (s : parser) : outcome parser :=
  match STy with
  | TStruct tag =>
      match namedTypes s !! tag with
      | Some None => Done (with_named (<[tag := Some fields]> (namedTypes s)) s)
      | _ => AssertFailed "cast<OpaqueType>"
      end
  | _ => AssertFailed "cast<OpaqueType>"
  end.
Definition ParseStructDecl (STy : ltype) (s : parser) : outcome (bool * parser) :=
  let* (token, s) := next s in
  let* (fields, s) := struct_fields_loop fuel token [] s in
  match fields with
  | None => Done (false, s)
  | Some fields =>
      let* s := refine STy fields s in
      let* (token, s) := next s in
      if bool_decide (token = tok_SemiColon) then Done (true, s) else Done (false, complain "; expected" s)
  end.

(** ** Declarations *)

Fixpoint skip_to_brace (n : nat) (token : tok) (s : parser) : outcome (tok * parser) :=
  match token with
  | tok_BraceClose | tok_Error | tok_End => Done (token, s)
  | _ => match n with O => out_of_fuel | S n => let* (token, s) := next s in skip_to_brace n token s end
  end.
Definition error (msg : string) (s : parser) : outcome (tok * parser) := Done (tok_Error, complain msg s).
(** The loop that skips enumerations. *)
Fixpoint skip_enums (n : nat) (token : tok) (s : parser) : outcome (tok * parser) :=
  match token with
  | tok_Enum =>
      match n with
      | O => out_of_fuel
      | S n =>
          let* (token, s) := next s in
          let* (token, s) := match token with tok_String _ => next s | _ => Done (token, s) end in
          if negb (bool_decide (token = tok_BraceOpen)) then error "Expected { after enum" s else
          let* (_, s) := skip_to_brace fuel token s in
          let* (token, s) := next s in
          match token with
          | tok_End => error "EOF encountered, expected } after enum" s
          | tok_Error => Done (token, s)
          | tok_SemiColon => let* (token, s) := next s in skip_enums n token s
          | _ => error "Expected ; after enum" s
          end
      end
  | _ => Done (token, s)
  end.
Definition api_global (x : string) : bool := String.prefix "__clambc_" x.
(** A global variable of type [Ty]. *)
Definition declare_global (x : string) (token : tok) (Ty : ltype) (s : parser) : outcome (tok * parser) :=
  if negb (api_global x) then error "Global variable name must begin with __clambc_" s
  else if existsb (String.eqb x) (map fst (globals s)) then error ("Global " +:+ x +:+ " already declared") s
  else
    let* (size, _) := checkTypeSize (members (namedTypes s)) (depth (namedTypes s)) Ty in
    if size =? 0 then Done (tok_Error, add_global x Ty (complain ("Global " +:+ x +:+ " has unaccepted type in API") s))
    else Done (token, add_global x Ty s).
(** A function prototype; [token] follows its name, [Ty] is what it returns. *)
Definition declare_function (x : string) (token : tok) (Ty : ltype) (s : parser) : outcome (tok * parser) :=
  let* (F, s) := ParseFunctionPrototype Ty token s in
  match F with
  | None => error "Function prototype expected" s
  | Some F =>
      if existsb (String.eqb x) (map f_name (functions s)) then error ("Function " +:+ x +:+ " already declared") s
      else if api_global x then error "Function name cannot begin with __clambc_" s
      else
        let* valid := checkFuncParams (members (namedTypes s)) (depth (namedTypes s)) F in
        if negb valid then error ("Function " +:+ x +:+ " has unaccepted parameters!") s
        else Done (token, add_function (Fn x F (TypeFlagsList s)) s)
  end.
(** The type a declaration starts with, and the one with its pointer. *)
Definition declared_type (token : tok) (s : parser) : outcome (tok * option (ltype * ltype) * parser) :=
  let* (hTy, s) := ParseType fuel token (with_flags no_flags s) in
  match hTy with
  | None => Done (tok_Error, None, s)
  | Some hTy =>
      let* (token, s) := next s in
      match token with
      | tok_Pointer => let* (token, s) := next s in Done (token, Some (hTy, pointer_to hTy), s)
      | _ => Done (token, Some (hTy, hTy), s)
      end
  end.
(** One turn of the inner loop of parse. *)
Definition declaration (s : parser) : outcome (tok * parser) :=
  let* (token, s) := next s in
  if bool_decide (token = tok_End) then Done (token, s) else
  let* (token, s) := skip_enums fuel token s in
  let* (token, types, s) := declared_type token s in
  match types with
  | None => Done (tok_Error, s)
  | Some (hTy, Ty) =>
      match token with
      | tok_String Func =>
          let* (token, s) := next s in
          let* (token, ATy, s) := parseOptionalArraySize token Ty s in
          match ATy with
          | Some ATy => declare_global Func token ATy s
          | None => declare_function Func token Ty s
          end
      | tok_BraceOpen =>
          let* (ok, s) := ParseStructDecl hTy s in
          if ok : bool then Done (token, s) else error "Structure type declaration expected" s
      | _ => error "{ or identifier expected" s
      end
  end.
Fixpoint declarations (n : nat) (s : parser) : outcome (tok * parser) :=
  match n with
  | O => out_of_fuel
  | S n =>
      let* (token, s) := declaration s in
      match token with tok_Error | tok_End => Done (token, s) | _ => declarations n s end
  end.
(** Each conditional left open is reported. *)
Definition unterminated (s : parser) : parser :=
  with_lex (with_Ifs [] (fold_left (fun l _ => say "Unterminated #if" l) (Ifs (lex s)) (lex s))) s.
(** Back from an included file. *)
Definition leave_file (p : string) (locs : list string) (ifs : list string) (stack : list (list string)) (s : parser) : parser :=
  with_lex {| TokStart := p; LastTokStart := LastTokStart (lex s); Ifs := ifs; Ifstack := stack; Locs := locs; messages := messages (lex s) |} s.
(** The outer loop of parse. *)
Fixpoint parse_files (n : nat) (s : parser) : outcome (bool * parser) :=
  match n with
  | O => out_of_fuel
  | S n =>
      let* (token, s) := declarations fuel s in
      match token with
      | tok_Error => Done (false, s)
      | _ =>
          let s := unterminated s in
          match Locs (lex s), Ifstack (lex s) with
          | [], _ => Done (true, s)
          | p :: locs, ifs :: stack => parse_files n (leave_file p locs ifs stack s)
          | _ :: _, [] => AssertFailed "!Ifstack.empty()"
          end
      end
  end.
Definition parse (text : string) : outcome (bool * parser) := parse_files fuel (start text).
End parsing.

(** ** Termination *)

(** The ways in which the parser can end without a verdict. *)
Definition excused {A} (r : outcome A) : Prop :=
  match r with
  | Done _ => True
  | Stop _ => False
  | AssertFailed m => m = "cast<OpaqueType>" \/ m = "!Ifstack.empty()"
  | Undefined m => m = overrun \/ m = endless
  end.
Section termination.
Context (lang_keywords : string -> option tok) (AddIncludeFile : string -> option string) (fuel : nat) (size : string -> nat).
Context (Hfiles : forall n t, AddIncludeFile n = Some t -> (weight size t <= size n)%nat /\ skip_spaces t <> EmptyString).
Abbreviation next := (next lang_keywords AddIncludeFile fuel).

Definition to_read (s : parser) : nat := load size (lex s).
(** What is left to read has not grown; it has shrunk if [strict]. *)
Definition kept {A} (b : nat) (strict : A -> Prop) (r : outcome (A * parser)) : Prop :=
  match r with Done (a, s) => (to_read s <= b)%nat /\ (strict a -> (to_read s < b)%nat) | r => excused r end.
Definition never {A} (_ : A) : Prop := False.
Lemma kept_weaken {A} b b' (P Q : A -> Prop) r : kept b P r -> (b <= b')%nat -> (forall a, Q a -> P a) -> kept b' Q r.
Proof. destruct r as [[a s]| | |]; cbn [kept]; try done. intros [H1 H2] Hb HQ. split; [lia|]. intros H. specialize (H2 (HQ a H)). lia. Qed.
Lemma kept_shorter {A} b b' (P Q : A -> Prop) r : kept b P r -> (b < b')%nat -> kept b' Q r.
Proof. destruct r as [[a s]| | |]; cbn [kept]; try done. intros [H1 _] Hb. split; [lia|]. intros _. lia. Qed.
Lemma kept_bind {A B} b (P : A -> Prop) (Q : B -> Prop) (c : outcome (A * parser)) k : kept b P c ->
  (forall a s, (to_read s <= b)%nat -> (P a -> (to_read s < b)%nat) -> kept b Q (k a s)) ->
  kept b Q (obind c (fun x => let (a, s) := x in k a s)).
Proof. destruct c as [[a s]| | |]; cbn [kept obind]; try done. intros [H1 H2] Hk. by apply Hk. Qed.
Lemma kept_Done {A} b (P : A -> Prop) a s : (to_read s <= b)%nat -> (P a -> (to_read s < b)%nat) -> kept b P (Done (a, s)).
Proof. done. Qed.
Lemma kept_stay {A} b (a : A) s : (to_read s <= b)%nat -> kept b never (Done (a, s)).
Proof. by split. Qed.

Lemma next_kept s b : (b < fuel)%nat -> (to_read s <= b)%nat -> kept b proper (next s).
Proof.
  intros Hb Hs. unfold IfaceParser.next. pose proof (LexToken_moved size lang_keywords AddIncludeFile Hfiles fuel (lex s) b Hb Hs) as H.
  destruct (LexToken _ _ _ _) as [[t l]| | |]; try done. by left.
Qed.
Lemma next_raw_kept s b : (b < fuel)%nat -> (to_read s <= b)%nat -> kept b proper (next_raw lang_keywords AddIncludeFile fuel s).
Proof.
  intros Hb Hs. unfold next_raw. pose proof (Lex_moved size lang_keywords AddIncludeFile Hfiles fuel (lex s) b ltac:(unfold to_read in Hs; lia) Hs) as H.
  destruct (Lex _ _ _ _) as [[t l]| | |]; try done. by left.
Qed.

Lemma ParseType_kept n : forall token s b, (b < fuel)%nat -> (to_read s <= b)%nat -> (1 <= n)%nat -> (proper token -> (to_read s + 2 <= n)%nat) ->
  kept b never (ParseType lang_keywords AddIncludeFile fuel n token s).
Proof.
  induction n as [|n IH]; intros token s b Hb Hs Hn Hp; [lia|]. cbn [ParseType].
  assert (Hnext : forall s1, to_read s1 = to_read s -> proper token ->
    kept b never (let* (token, s) := next s1 in ParseType lang_keywords AddIncludeFile fuel n token s)).
  { intros s1 H1 Ht. specialize (Hp Ht). eapply (kept_weaken (to_read s)); [|done|done].
    apply (kept_bind _ proper); [apply next_kept; lia|]. intros t s2 H2 H3. apply IH; [lia|done|lia|]. intros Ht2. specialize (H3 Ht2). lia. }
  destruct token; try (by apply kept_stay); try (apply Hnext; done).
  apply (kept_bind _ proper); [by apply next_kept|]. intros t s1 H1 _. destruct t; try (by apply kept_stay).
  apply kept_stay. by destruct (namedTypes s1 !! s0).
Qed.
Definition first_proper {A} (x : tok * A) : Prop := proper (fst x).
Lemma pointers_kept n : forall Ty s b, (b < fuel)%nat -> (to_read s <= b)%nat -> (to_read s < n)%nat ->
  kept b first_proper (pointers lang_keywords AddIncludeFile fuel n Ty s).
Proof.
  induction n as [|n IH]; intros Ty s b Hb Hs Hn; [lia|]. cbn [pointers].
  eapply (kept_weaken (to_read s)); [|done|done]. apply (kept_bind _ proper); [apply next_kept; lia|]. intros t s1 H1 H2.
  destruct t; try (by apply kept_Done). assert (to_read s1 < to_read s)%nat by (by apply H2). eapply kept_shorter; [apply (IH _ s1 (to_read s1)); lia|done].
Qed.
Lemma ParseTypeFully_kept token s b : (b + 2 <= fuel)%nat -> (to_read s <= b)%nat ->
  kept b first_proper (ParseTypeFully lang_keywords AddIncludeFile fuel token s).
Proof.
  intros Hb Hs. unfold ParseTypeFully. apply (kept_bind _ never); [apply ParseType_kept; try done; unfold to_read in *; cbn [lex with_flags]; lia|].
  intros [Ty|] s1 H1 _; [|apply kept_Done; [done|by intros []]].
  pose proof (pointers_kept fuel Ty s1 b ltac:(lia) H1 ltac:(lia)) as H. by destruct (pointers _ _ _ _ _ _) as [[[t T] s2]| | |].
Qed.
Lemma dimensions_kept n : forall token dims s b, (b < fuel)%nat -> (to_read s <= b)%nat -> (to_read s < n)%nat ->
  kept b never (dimensions lang_keywords AddIncludeFile fuel n token dims s).
Proof.
  induction n as [|n IH]; intros token dims s b Hb Hs Hn; [lia|]. cbn [dimensions].
  destruct token; try (by apply kept_stay). eapply (kept_weaken (to_read s)); [|done|done].
  apply (kept_bind _ proper); [apply next_raw_kept; lia|]. intros t s1 H1 H2.
  destruct t; try (by apply kept_stay). destruct (_ <? 0); [by apply kept_stay|]. destruct (_ =? 0); [by apply kept_stay|].
  assert (to_read s1 < to_read s)%nat as H3 by (by apply H2). eapply (kept_shorter (to_read s1)); [|done].
  apply (kept_bind _ proper); [apply next_kept; lia|]. intros t s2 H4 _. destruct t; try (by apply kept_stay).
  apply (kept_bind _ proper); [apply next_kept; lia|]. intros t s3 H5 _. apply IH; lia.
Qed.
Lemma parseOptionalArraySize_kept token Ty s b : (b < fuel)%nat -> (to_read s <= b)%nat ->
  kept b never (parseOptionalArraySize lang_keywords AddIncludeFile fuel token Ty s).
Proof.
  intros Hb Hs. unfold parseOptionalArraySize. pose proof (dimensions_kept fuel token [] s b Hb Hs ltac:(lia)) as H.
  by destruct (dimensions _ _ _ _ _ _ _) as [[[t d] s1]| | |].
Qed.
Lemma kept_bind3 {A B C} b (P : A * B -> Prop) (Q : C -> Prop) (c : outcome (A * B * parser)) k : kept b P c ->
  (forall a a' s, (to_read s <= b)%nat -> (P (a, a') -> (to_read s < b)%nat) -> kept b Q (k a a' s)) ->
  kept b Q (obind c (fun x => let '(a, a', s) := x in k a a' s)).
Proof. destruct c as [[[a a'] s]| | |]; cbn [kept obind]; try done. intros [H1 H2] Hk. by apply Hk. Qed.

Lemma parameters_kept n : forall params ok s b, (b + 2 <= fuel)%nat -> (to_read s <= b)%nat -> (to_read s < n)%nat ->
  kept b never (parameters lang_keywords AddIncludeFile fuel n params ok s).
Proof.
  induction n as [|n IH]; intros params ok s b Hb Hs Hn; [lia|]. cbn [parameters].
  eapply (kept_weaken (to_read s)); [|done|done].
  apply (kept_bind _ proper); [apply next_kept; lia|]. intros t s1 H1 H2.
  destruct (bool_decide _); [by destruct params; apply kept_stay|].
  apply (kept_bind3 _ first_proper); [apply ParseTypeFully_kept; lia|]. intros t1 Ty s2 H3 H4. unfold first_proper in H4. cbn [fst] in H4.
  assert (Hgo : proper t1 -> forall Ty, Some Ty = Some Ty -> kept (to_read s) never
    (if bool_decide (Ty = TVoid) && bool_decide (params = []) then
       if bool_decide (t1 = tok_ParClose) then Done (Some (params, ok), s2) else Done (None, complain ") expected" s2)
     else
       let '(ok, s) := if bool_decide (Ty = TVoid) then (false, complain "Invalid argument type" s2) else (ok, s2) in
       let '(ok, s) := if param_ok Ty then (ok, s) else (false, complain "Only integer and pointer types are supported" s) in
       let params := params ++ [Ty] in
       let s := with_list (TypeFlagsList s ++ [TypeFlags s]) s in
       let '(ok, s) := if (5 <? Z.of_nat (length params)) then (false, complain "At most 5 parameters supported for API calls" s) else (ok, s) in
       let* (token, s) := match t1 with tok_String _ => next s | _ => Done (t1, s) end in
       match token with
       | tok_Comma => parameters lang_keywords AddIncludeFile fuel n params ok s
       | tok_ParClose => Done (Some (params, ok), s)
       | tok_End => Done (None, complain "EOF encountered while parsing function prototype" s)
       | _ => Done (None, complain ", or ) expected" s)
       end)).
  { intros Ht1 Ty1 _. specialize (H4 Ht1). destruct (_ && _); [by case_bool_decide; apply kept_stay|].
    eapply (kept_weaken (to_read s2)); [|lia|done].
    destruct (if bool_decide _ then _ else (ok, s2)) as [ok1 s3] eqn:E3.
    assert (to_read s3 = to_read s2) as H5 by (by case_bool_decide; injection E3 as <- <-).
    destruct (if param_ok _ then _ else _) as [ok2 s4] eqn:E4.
    assert (to_read s4 = to_read s2) as H6 by (rewrite <- H5; by destruct (param_ok Ty1); injection E4 as <- <-).
    cbv zeta. destruct (if 5 <? _ then _ else _) as [ok3 s5] eqn:E5.
    assert (to_read s5 = to_read s2) as H7 by (rewrite <- H6; by destruct (5 <? _); injection E5 as <- <-).
    apply (kept_bind _ never); [|intros t2 s6 H8 _; destruct t2; try (by apply kept_stay); apply IH; lia].
    destruct t1; try (apply kept_stay; lia). eapply (kept_weaken (to_read s2)); [apply next_kept; lia|done|by intros ? []]. }
  destruct t1, Ty as [Ty|]; try (apply kept_stay; exact H3); by apply (Hgo ltac:(done) Ty eq_refl).
Qed.
Lemma ParseFunctionPrototype_kept RetTy token s b : (b + 2 <= fuel)%nat -> (to_read s <= b)%nat ->
  kept b never (ParseFunctionPrototype lang_keywords AddIncludeFile fuel RetTy token s).
Proof.
  intros Hb Hs. unfold ParseFunctionPrototype. cbv zeta. destruct (if ret_ok _ then _ else _) as [ok s1] eqn:E.
  assert (to_read s1 = to_read s) as H1 by (by destruct (ret_ok RetTy); injection E as <- <-).
  destruct (negb _); [apply kept_stay; change (to_read s1 <= b)%nat; lia|].
  apply (kept_bind _ never); [apply parameters_kept; lia|]. intros [[ps ok']|] s2 H2 _; [|by apply kept_stay].
  apply (kept_bind _ proper); [apply next_kept; lia|]. intros t s3 H3 _. by destruct (negb _); apply kept_stay.
Qed.
Lemma struct_fields_loop_kept n : forall token fields s b, (b + 2 <= fuel)%nat -> (to_read s <= b)%nat -> (to_read s < n)%nat ->
  kept b never (struct_fields_loop lang_keywords AddIncludeFile fuel n token fields s).
Proof.
  induction n as [|n IH]; intros token fields s b Hb Hs Hn; [lia|]. cbn [struct_fields_loop].
  destruct (bool_decide _); [by apply kept_stay|]. eapply (kept_weaken (to_read s)); [|done|done].
  apply (kept_bind3 _ first_proper); [apply ParseTypeFully_kept; lia|]. intros t Ty s1 H1 H2. unfold first_proper in H2. cbn [fst] in H2.
  destruct t, Ty as [Ty|]; try (by apply kept_stay); (destruct (bool_decide (Ty = TVoid)); [by apply kept_stay|]); try (by apply kept_stay).
  specialize (H2 ltac:(done)). eapply (kept_shorter (to_read s1)); [|done].
  apply (kept_bind _ proper); [apply next_kept; lia|]. intros t s2 H3 _.
  apply (kept_bind3 _ never); [apply parseOptionalArraySize_kept; lia|]. intros t2 [Ty2|] s3 H4 _; [|by apply kept_stay].
  apply (kept_bind _ proper); [apply next_kept; lia|]. intros t3 s4 H5 _. apply IH; lia.
Qed.
Lemma ParseStructDecl_kept STy s b : (b + 2 <= fuel)%nat -> (to_read s <= b)%nat ->
  kept b never (ParseStructDecl lang_keywords AddIncludeFile fuel STy s).
Proof.
  intros Hb Hs. unfold ParseStructDecl. apply (kept_bind _ proper); [apply next_kept; lia|]. intros t s1 H1 _.
  apply (kept_bind _ never); [apply struct_fields_loop_kept; lia|]. intros [fs|] s2 H2 _; [|by apply kept_stay].
  assert (forall s3, refine STy fs s2 = Done s3 -> to_read s3 = to_read s2) as Href.
  { intros s3 E. unfold refine in E. destruct STy; try done. destruct (namedTypes s2 !! tag) as [[?|]|]; try done. by injection E as <-. }
  destruct (refine STy fs s2) as [s3| | |] eqn:Er; cbn [obind]; try done.
  - specialize (Href s3 eq_refl). apply (kept_bind _ proper); [apply next_kept; lia|]. intros t2 s4 H4 _.
    destruct (bool_decide _); by apply kept_stay.
  - exfalso. unfold refine in Er. destruct STy; try done. by destruct (namedTypes s2 !! tag) as [[?|]|].
  - left. unfold refine in Er. destruct STy; try congruence. destruct (namedTypes s2 !! tag) as [[?|]|]; congruence.
  - exfalso. unfold refine in Er. destruct STy; try done. by destruct (namedTypes s2 !! tag) as [[?|]|].
Qed.
Lemma skip_to_brace_kept n : forall token s b, (b < fuel)%nat -> (to_read s <= b)%nat -> (proper token -> (to_read s < n)%nat) ->
  kept b never (skip_to_brace lang_keywords AddIncludeFile fuel n token s).
Proof.
  induction n as [|n IH]; intros token s b Hb Hs Hp.
  { destruct token; cbn [skip_to_brace]; try (by apply kept_stay); by specialize (Hp ltac:(done)); lia. }
  assert (proper token -> kept b never (let* (token, s) := next s in skip_to_brace lang_keywords AddIncludeFile fuel n token s)) as Hgo.
  { intros Ht. specialize (Hp Ht). eapply (kept_weaken (to_read s)); [|done|done].
    apply (kept_bind _ proper); [apply next_kept; lia|]. intros t s1 H1 H2. apply IH; [lia..|]. intros Ht1. specialize (H2 Ht1). lia. }
  destruct token; cbn [skip_to_brace]; try (by apply kept_stay); by apply Hgo.
Qed.
Lemma skip_enums_kept n : forall token s b, (b < fuel)%nat -> (to_read s <= b)%nat -> (proper token -> (to_read s < n)%nat) ->
  kept b never (skip_enums lang_keywords AddIncludeFile fuel n token s).
Proof.
  induction n as [|n IH]; intros token s b Hb Hs Hp.
  { destruct token; cbn [skip_enums]; try (by apply kept_stay). by specialize (Hp ltac:(done)); lia. }
  destruct token; cbn [skip_enums]; try (by apply kept_stay). specialize (Hp ltac:(done)).
  eapply (kept_weaken (to_read s)); [|done|done]. apply (kept_bind _ proper); [apply next_kept; lia|]. intros t s1 H1 _.
  apply (kept_bind _ never).
  { destruct t; try (by apply kept_stay). eapply kept_weaken; [apply (next_kept s1 (to_read s)); lia|done|by intros ? []]. }
  intros t2 s2 H2 _. destruct (negb _); [by apply kept_stay|].
  apply (kept_bind _ never); [apply skip_to_brace_kept; lia|]. intros t3 s3 H3 _.
  apply (kept_bind _ proper); [apply next_kept; lia|]. intros t4 s4 H4 H5.
  destruct t4; try (by apply kept_stay). specialize (H5 ltac:(done)). eapply (kept_shorter (to_read s4)); [|done].
  apply (kept_bind _ proper); [apply next_kept; lia|]. intros t5 s5 H6 _. apply IH; lia.
Qed.
Lemma declared_type_kept token s b : (b + 2 <= fuel)%nat -> (to_read s <= b)%nat ->
  kept b never (declared_type lang_keywords AddIncludeFile fuel token s).
Proof.
  intros Hb Hs. unfold declared_type.
  apply (kept_bind _ never); [apply ParseType_kept; unfold to_read in *; cbn [lex with_flags]; lia|]. intros [hTy|] s3 H4 _; [|by apply kept_stay].
  apply (kept_bind _ proper); [apply next_kept; lia|]. intros t2 s4 H5 _. destruct t2; try (by apply kept_stay).
  apply (kept_bind _ proper); [apply next_kept; lia|]. intros t3 s5 H6 _. by apply kept_stay.
Qed.
Lemma declare_global_kept x token Ty s b : (to_read s <= b)%nat -> kept b never (declare_global x token Ty s).
Proof.
  intros Hs. unfold declare_global. destruct (negb _); [by apply kept_stay|]. destruct (existsb _ _); [by apply kept_stay|].
  pose proof (checkTypeSize_outcome (namedTypes s) Ty) as Hv. destruct (checkTypeSize _ _ Ty) as [[n M]| | |]; cbn [obind]; try done; [|by right; destruct Hv].
  by destruct (_ =? 0); apply kept_stay.
Qed.
Lemma declaration_kept s b : (b + 2 <= fuel)%nat -> (to_read s <= b)%nat -> kept b proper (declaration lang_keywords AddIncludeFile fuel s).
Proof.
  intros Hb Hs. unfold declaration. apply (kept_bind _ proper); [apply next_kept; lia|]. intros t s1 H1 H2.
  case_bool_decide as Et; [by apply kept_Done|]. destruct (decide (t = tok_Error)) as [->|He].
  { assert (forall n, skip_enums lang_keywords AddIncludeFile fuel n tok_Error s1 = Done (tok_Error, s1)) as -> by (by intros []).
    cbn [obind]. unfold declared_type. assert (exists n, fuel = S n) as [n Hn] by (exists (fuel - 1)%nat; lia).
    assert (ParseType lang_keywords AddIncludeFile fuel fuel tok_Error (with_flags no_flags s1) =
      Done (None, complain "Type name expected" (with_flags no_flags s1))) as -> by (rewrite Hn at 2; done).
    cbn [obind]. apply kept_Done; [done|by intros [_ []]]. }
  specialize (H2 (conj Et He)). eapply (kept_shorter (to_read s1)); [|done].
  apply (kept_bind _ never); [apply skip_enums_kept; lia|]. intros t1 s2 H3 _.
  apply (kept_bind3 _ never); [apply declared_type_kept; lia|]. intros t3 [[hTy Ty]|] s5 H6 _; [|by apply kept_stay]. destruct t3; try (by apply kept_stay).
  - apply (kept_bind _ never); [apply ParseStructDecl_kept; lia|]. intros [] s6 H7 _; by apply kept_stay.
  - apply (kept_bind _ proper); [apply next_kept; lia|]. intros t4 s6 H7 _.
    apply (kept_bind3 _ never); [apply parseOptionalArraySize_kept; lia|]. intros t5 [ATy|] s7 H8 _.
    + by apply declare_global_kept.
    + unfold declare_function. apply (kept_bind _ never); [apply ParseFunctionPrototype_kept; lia|]. intros [F|] s8 H9 _; [|by apply kept_stay].
      destruct (existsb _ _); [by apply kept_stay|]. destruct (api_global _); [by apply kept_stay|].
      pose proof (checkFuncParams_outcome (namedTypes s8) F) as Hv. destruct (checkFuncParams _ _ F) as [valid| | |]; cbn [obind]; try done; [|by right].
      by destruct valid; apply kept_stay.
Qed.
Lemma declarations_kept n : forall s b, (b + 2 <= fuel)%nat -> (to_read s <= b)%nat -> (to_read s < n)%nat ->
  kept b never (declarations lang_keywords AddIncludeFile fuel n s).
Proof.
  induction n as [|n IH]; intros s b Hb Hs Hn; [lia|]. cbn [declarations]. eapply (kept_weaken (to_read s)); [|done|done].
  apply (kept_bind _ proper); [apply declaration_kept; lia|]. intros t s1 H1 H2.
  destruct t; try (by apply kept_stay); specialize (H2 ltac:(done)); apply IH; lia.
Qed.
Lemma say_files {A} (l : list A) m : forall l0, let l1 := fold_left (fun l0 _ => say m l0) l l0 in Locs l1 = Locs l0 /\ Ifstack l1 = Ifstack l0.
Proof. induction l as [|a l IH]; intros l0; [done|]. cbn [fold_left]. destruct (IH (say m l0)) as [-> ->]. done. Qed.
Lemma unterminated_files s : Locs (lex (unterminated s)) = Locs (lex s) /\ Ifstack (lex (unterminated s)) = Ifstack (lex s).
Proof. unfold unterminated. cbn [lex with_lex with_Ifs Locs Ifstack]. apply say_files. Qed.
Lemma parse_files_ends n : forall s, (to_read s + 2 <= fuel)%nat -> (to_read s < n)%nat ->
  excused (parse_files lang_keywords AddIncludeFile fuel n s).
Proof.
  induction n as [|n IH]; intros s Hb Hn; [lia|]. cbn [parse_files].
  pose proof (declarations_kept fuel s (to_read s) Hb ltac:(done) ltac:(lia)) as H.
  destruct (declarations _ _ _ _ s) as [[t s1]| | |]; cbn [obind kept] in *; try done. destruct H as [H _].
  destruct (unterminated_files s1) as [H1 H2].
  assert (excused match Locs (lex (unterminated s1)), Ifstack (lex (unterminated s1)) with
          | [], _ => Done (true, unterminated s1)
          | p :: locs, ifs :: stack => parse_files lang_keywords AddIncludeFile fuel n (leave_file p locs ifs stack (unterminated s1))
          | _ :: _, [] => AssertFailed "!Ifstack.empty()"
          end) as Hgo; [|by destruct t].
  rewrite H1, H2. destruct (Locs (lex s1)) as [|p locs] eqn:El; [done|]. destruct (Ifstack (lex s1)) as [|ifs stack]; [by right|].
  assert (to_read (leave_file p locs ifs stack (unterminated s1)) < to_read s)%nat; [|apply IH; lia].
  eapply Nat.lt_le_trans; [|exact H]. unfold to_read, load, waiting in *. cbn [lex leave_file with_lex TokStart Locs]. rewrite El.
  change (waits size (p :: locs)) with (S (weight size p + waits size locs)). lia.
Qed.
(** C34: The parser of the interface generator always comes to an end: with fuel
    for two steps more than the characters of the text and the files it may
    include, where no file is blank or includes itself, it accepts or refuses
    the text, or one of two assertions fails - a structure is defined twice
    ([struct_redefined] in IfaceText.v), or the stack of conditionals is shorter than
    that of files -, or it does one of two things that are not defined: it searches
    for an #endif behind the end of a text that ends with #ifndef __CLAMBC__
    ([ifndef_overrun] in IfaceText.v), or it recurses without end into a structure
    that contains itself ([self_containing]; [checkTypeSize_outcome]: into no other). *)
Theorem parse_ends text : (weight size text + 2 <= fuel)%nat ->
  match parse lang_keywords AddIncludeFile fuel text with
  | Done _ => True
  | Stop _ => False
  | AssertFailed m => m = "cast<OpaqueType>" \/ m = "!Ifstack.empty()"
  | Undefined m => m = overrun \/ m = endless
  end.
Proof.
  intros H. unfold parse. assert (to_read (start text) = weight size text) as E by (unfold to_read, load; cbn; lia).
  apply (parse_files_ends fuel (start text)); lia.
Qed.
End termination.

Definition demo_file : string := "/* kept apart */ struct point { uint32_t x; uint32_t y; };".
Definition demo_include (n : string) : option string := if String.eqb n "point.h" then Some demo_file else None.
Definition demo_size (n : string) : nat := if String.eqb n "point.h" then String.length demo_file else 0.
Definition demo_header : string :=
  String.append "#include " (String.append quote (String.append "point.h" (String.append quote " enum { A, B }; int32_t walk(struct point *p, uint32_t n);"))).
Lemma parse_ends_witness : match parse (fun _ => None) demo_include 200 demo_header with
  | Done _ => True | Stop _ => False
  | AssertFailed m => m = "cast<OpaqueType>" \/ m = "!Ifstack.empty()" | Undefined m => m = overrun \/ m = endless end.
Proof.
  apply (parse_ends (fun _ => None) demo_include 200 demo_size).
  - intros n t. unfold demo_include, demo_size. destruct (String.eqb n "point.h"); [|done]. intros [= <-]. split; [vm_compute; lia|done].
  - apply Nat.leb_le. vm_compute. reflexivity.
Defined.
Lemma demo_header_accepted : exists s, parse (fun _ => None) demo_include 200 demo_header = Done (true, s) /\ map f_name (functions s) = ["walk"].
Proof. eexists. split; [vm_compute; reflexivity|reflexivity]. Qed.

(** A structure with a member of its own type is not refused when it is declared; the
    layout check of a parameter that points to it does not end. *)
Lemma self_containing :
  (exists s, parse (fun _ => None) demo_include 200 "struct a { uint32_t x; struct a y; };" = Done (true, s)) /\
  parse (fun _ => None) demo_include 200 "struct a { uint32_t x; struct a y; }; int32_t f(struct a *p);" = Undefined endless.
Proof. split; [eexists|]; vm_compute; reflexivity. Qed.
