(* ===== verification/IfaceSpec.v ===== *)
(** * IfaceSpec: what the interface generator reads

    The declarations an API header may contain, their tokens, and what each of
    them adds to the interface; the parser of IfaceParser.v adds just that,
    whatever the layout of the text, its comments, conditionals and included
    files. *)
From S2P Require Import Prelude Enums Layout ApiHeader ApiDecl IfaceGen IfaceLexer IfaceParser.
Local Open Scope string_scope.
Local Open Scope list_scope.
Local Open Scope Z_scope.
Local Open Scope outcome_scope.

(** ** Declarations and their tokens *)

Record enumeration := { e_name : option string; e_body : list tok }.
Inductive decl :=
| DStruct (tag : string) (fields : list (string * ctype))
| DGlobal (ext : bool) (x : string) (t : ctype)
| DProto (p : prototype) (names : list (option string)).

Definition uint_tok (w : Z) : tok := if w =? 8 then tok_UInt8 else if w =? 16 then tok_UInt16 else if w =? 32 then tok_UInt32 else tok_UInt64.
Definition int_tok (w : Z) : tok := if w =? 8 then tok_Int8 else if w =? 16 then tok_Int16 else if w =? 32 then tok_Int32 else tok_Int64.
Definition name_tok (x : option string) : list tok := match x with Some x => [tok_String x] | None => [] end.
Fixpoint type_tokens (t : ctype) : list tok :=
  match t with
  | CVoid => [tok_Void]
  | CUInt w => [uint_tok w]
  | CInt w => [int_tok w]
  | CPtr t => type_tokens t ++ [tok_Pointer]
  | CConst t => tok_Const :: type_tokens t
  | CStruct tag => [tok_Struct; tok_String tag]
  | CArr _ t => type_tokens t
  end.
Fixpoint dims (t : ctype) : list Z := match t with CArr n t => n :: dims t | _ => [] end.
Fixpoint element (t : ctype) : ctype := match t with CArr _ t => element t | t => t end.
Definition dim_tokens (ds : list Z) : list tok := flat_map (fun d => [tok_SquareBracketOpen; tok_Number d; tok_SquareBracketClose]) ds.
Definition field_tokens (f : string * ctype) : list tok :=
  type_tokens (element (snd f)) ++ tok_String (fst f) :: dim_tokens (dims (snd f)) ++ [tok_SemiColon].
Definition param_tokens (p : ctype * option string) : list tok := type_tokens (fst p) ++ name_tok (snd p).
Fixpoint params_tokens (ps : list (ctype * option string)) : list tok :=
  match ps with
  | [] => []
  | [p] => param_tokens p
  | p :: ps => param_tokens p ++ tok_Comma :: params_tokens ps
  end.
(** A parameter list that is not given a name for each parameter is short of
    names at its end. *)
Definition named_params (p : prototype) (names : list (option string)) : list (ctype * option string) :=
  zip (p_params p) (names ++ repeat None (length (p_params p))).
Definition decl_tokens (d : decl) : list tok :=
  match d with
  | DStruct tag fields => tok_Struct :: tok_String tag :: tok_BraceOpen :: flat_map field_tokens fields ++ [tok_BraceClose; tok_SemiColon]
  | DGlobal ext x t => (if ext then [tok_Extern] else []) ++ field_tokens (x, t)
  | DProto p names =>
      type_tokens (p_ret p) ++ tok_String (p_name p) :: tok_ParOpen ::
      (match p_params p with [] => [tok_Void] | _ => params_tokens (named_params p names) end) ++ [tok_ParClose; tok_SemiColon]
  end.
Definition enum_tokens (e : enumeration) : list tok :=
  tok_Enum :: name_tok (e_name e) ++ tok_BraceOpen :: e_body e ++ [tok_BraceClose; tok_SemiColon].

(** ** The types the grammar has *)

Definition width_ok (w : Z) : bool := (w =? 8) || (w =? 16) || (w =? 32) || (w =? 64).
Fixpoint base (t : ctype) : bool :=
  match t with CVoid | CStruct _ => true | CUInt w | CInt w => width_ok w | CConst t => base t | _ => false end.
Fixpoint stars (t : ctype) : nat := match t with CPtr t => S (stars t) | _ => O end.
Fixpoint base_of (t : ctype) : ctype := match t with CPtr t => base_of t | t => t end.
Definition plain (t : ctype) : bool := base (base_of t).
(** Behind a name: the sizes of arrays. *)
Definition declarable (t : ctype) : bool := plain (element t) && forallb (fun d => (0 <? d) && (d <? 2 ^ 32)) (dims t).

(** ** What a declaration adds *)

Record api := { a_named : gmap string (option (list ltype)); a_globals : list (string * ltype); a_functions : list function }.
Definition no_api : api := {| a_named := ∅; a_globals := []; a_functions := [] |}.
(** A structure is known, opaque, from the first time it is mentioned. *)
Fixpoint mention (t : ctype) (m : gmap string (option (list ltype))) : gmap string (option (list ltype)) :=
  match t with
  | CStruct tag => match m !! tag with Some _ => m | None => <[tag := None]> m end
  | CPtr t | CConst t | CArr _ t => mention t m
  | _ => m
  end.
Definition mention_all (ts : list ctype) (m : gmap string (option (list ltype))) := fold_left (fun m t => mention t m) ts m.
Definition known_size (m : gmap string (option (list ltype))) (t : ltype) : bool :=
  match checkTypeSize (members m) (depth m) t with Done (size, _) => negb (size =? 0) | _ => false end.
Definition known_params (m : gmap string (option (list ltype))) (F : ltype) : bool :=
  match checkFuncParams (members m) (depth m) F with Done valid => valid | _ => false end.
Definition guard {A} (b : bool) (k : option A) : option A := if b then k else None.
Definition declare (a : api) (d : decl) : option api :=
  match d with
  | DStruct tag fields =>
      let m := mention_all (map snd fields) (mention (CStruct tag) (a_named a)) in
      guard (forallb (fun f => declarable (snd f) && negb (bool_decide (lower (element (snd f)) = TVoid))) fields)
        (match m !! tag with
         | Some None => Some {| a_named := <[tag := Some (map (fun f => lower (snd f)) fields)]> m; a_globals := a_globals a; a_functions := a_functions a |}
         | _ => None
         end)
  | DGlobal _ x t =>
      let m := mention t (a_named a) in
      guard (declarable t && (stars (element t) <=? 1)%nat && api_global x && negb (existsb (String.eqb x) (map fst (a_globals a))) && known_size m (lower t))
        (Some {| a_named := m; a_globals := a_globals a ++ [(x, lower t)]; a_functions := a_functions a |})
  | DProto p _ =>
      let m := mention_all (p_ret p :: p_params p) (a_named a) in
      F ← IfaceGen.ParseFunctionPrototype p;
      guard (forallb plain (p_ret p :: p_params p) && (stars (p_ret p) <=? 1)%nat && negb (api_global (p_name p)) &&
             negb (existsb (String.eqb (p_name p)) (map f_name (a_functions a))) && known_params m (f_ty F))
        (Some {| a_named := m; a_globals := a_globals a; a_functions := a_functions a ++ [F] |})
  end.
Fixpoint declare_all (a : api) (ds : list (list enumeration * decl)) : option api :=
  match ds with [] => Some a | d :: ds => a ← declare a (snd d); declare_all a ds end.
Definition body_ok (t : tok) : Prop := t <> tok_BraceClose /\ t <> tok_Error /\ t <> tok_End.

(** ** Texts and their tokens *)

Section reading.
Context (lang_keywords : string -> option tok) (AddIncludeFile : string -> option string) (fuel : nat).
Abbreviation LexToken := (LexToken lang_keywords AddIncludeFile fuel).
Abbreviation Lex := (Lex lang_keywords AddIncludeFile fuel).
Definition reads (l : lexer) (t : tok) (l' : lexer) : Prop :=
  LexToken l = Done (t, l') /\ forall n, t = tok_Number n -> Lex l = Done (t, l').
Fixpoint streams (l : lexer) (ts : list tok) (l' : lexer) : Prop :=
  match ts with [] => l = l' | t :: ts => exists l1, reads l t l1 /\ streams l1 ts l' end.
(** The text from [l] on spells the declarations; [k] bounds the number of
    tokens and of files left. *)
Inductive spells : nat -> lexer -> list (list enumeration * decl) -> lexer -> Prop :=
| spells_end l l' : LexToken l = Done (tok_End, l') -> Locs l' = [] -> Ifs l' = [] -> spells 0 l [] l'
| spells_back k l l1 p locs ifs stack ds l' :
    LexToken l = Done (tok_End, l1) -> Ifs l1 = [] -> Locs l1 = p :: locs -> Ifstack l1 = ifs :: stack ->
    spells k {| TokStart := p; LastTokStart := LastTokStart l1; Ifs := ifs; Ifstack := stack; Locs := locs; messages := messages l1 |} ds l' ->
    spells (S k) l ds l'
| spells_decl k l es d ds l1 l' :
    Forall (fun e => Forall body_ok (e_body e)) es ->
    streams l (flat_map enum_tokens es ++ decl_tokens d) l1 -> spells k l1 ds l' ->
    spells (length (flat_map enum_tokens es ++ decl_tokens d) + k) l ((es, d) :: ds) l'.
End reading.

(** ** The parser on tokens *)

Section parses.
Context (lang_keywords : string -> option tok) (AddIncludeFile : string -> option string) (fuel : nat).
Abbreviation streams := (streams lang_keywords AddIncludeFile fuel).
Abbreviation next := (next lang_keywords AddIncludeFile fuel).

Definition upd (l : lexer) (f : type_flags) (m : gmap string (option (list ltype))) (s : parser) : parser :=
  with_lex l (with_flags f (with_named m s)).
Lemma streams_app ts1 : forall l ts2 l', streams l (ts1 ++ ts2) l' <-> exists l1, streams l ts1 l1 /\ streams l1 ts2 l'.
Proof.
  induction ts1 as [|t ts1 IH]; intros l ts2 l'; cbn [IfaceSpec.streams app]; [naive_solver|].
  split; [intros (l1 & H & (l2 & H1 & H2)%IH); naive_solver|]. intros (l2 & (l1 & H & H1) & H2). exists l1. split; [done|]. apply IH. eauto.
Qed.
Lemma next_reads s t l : reads lang_keywords AddIncludeFile fuel (lex s) t l -> next s = Done (t, with_lex l s).
Proof. intros [H _]. unfold IfaceParser.next. by rewrite H. Qed.
Lemma next_raw_reads s n l : reads lang_keywords AddIncludeFile fuel (lex s) (tok_Number n) l ->
  next_raw lang_keywords AddIncludeFile fuel s = Done (tok_Number n, with_lex l s).
Proof. intros [_ H]. unfold next_raw. by rewrite (H n eq_refl). Qed.
Ltac read H := let l := fresh "l" in let H1 := fresh "Hr" in destruct H as (l & H1 & H); 
  match goal with |- context [IfaceParser.next _ _ _ ?S] => rewrite (next_reads S _ _ H1) end; cbn [obind].

Definition merge (f g : type_flags) : type_flags := Flags (ConstType f || ConstType g) (SignedType f || SignedType g).
Lemma merge_none f : merge f (Flags false false) = f.
Proof. destruct f. unfold merge. cbn. by rewrite !orb_false_r. Qed.
Lemma merge_signed f : merge f (Flags false true) = add_signed f.
Proof. destruct f. unfold merge, add_signed. cbn. by rewrite orb_false_r, orb_true_r. Qed.
Lemma width_cases w : width_ok w = true -> w = 8 \/ w = 16 \/ w = 32 \/ w = 64.
Proof. unfold width_ok. rewrite !orb_true_iff, !Z.eqb_eq. tauto. Qed.
Lemma ParseType_reads t : base t = true -> forall n s t0 ts l, type_tokens t = t0 :: ts -> streams (lex s) ts l -> (length ts < n)%nat ->
  ParseType lang_keywords AddIncludeFile fuel n t0 s =
  Done (Some (lower t), upd l (merge (TypeFlags s) (parse_flags t)) (mention t (namedTypes s)) s).
Proof.
  induction t as [|w|w|t IH|t IH|tag|k t IH]; intros Ht n s t0 ts l E H Hn; cbn [base] in Ht; try done; cbn [type_tokens] in E.
  - injection E as <- <-. cbn [IfaceSpec.streams] in H. subst l. destruct n as [|n]; [cbn in Hn; lia|]. cbn [ParseType lower parse_flags mention].
    rewrite merge_none. by destruct s.
  - injection E as <- <-. cbn [IfaceSpec.streams] in H. subst l. destruct n as [|n]; [cbn in Hn; lia|].
    cbn [lower parse_flags mention]. rewrite merge_none. destruct s.
    by apply width_cases in Ht as [->|[->|[->| ->]]].
  - injection E as <- <-. cbn [IfaceSpec.streams] in H. subst l. destruct n as [|n]; [cbn in Hn; lia|].
    cbn [lower parse_flags mention]. rewrite merge_signed. destruct s.
    by apply width_cases in Ht as [->|[->|[->| ->]]].
  - injection E as <- E. destruct n as [|n]; [cbn in Hn; lia|]. cbn [ParseType]. subst ts.
    destruct (type_tokens t) as [|t1 ts] eqn:Et; [by destruct t|]. read H.
    erewrite (IH Ht); [|reflexivity|exact H|cbn in Hn; lia]. cbn [with_lex with_flags TypeFlags namedTypes lower parse_flags mention].
    f_equal. f_equal. destruct s as [l1 [] fl nm gl fn]. unfold upd, merge. cbn. by rewrite orb_true_r.
  - injection E as <- <-. destruct n as [|n]; [cbn in Hn; lia|]. cbn [ParseType]. read H. cbn [IfaceSpec.streams] in H. subst.
    cbn [lower parse_flags mention]. rewrite merge_none. destruct s. cbn. by destruct (_ !! tag).
Qed.

Lemma type_tokens_stars t : type_tokens t = type_tokens (base_of t) ++ repeat tok_Pointer (stars t).
Proof.
  induction t; cbn [base_of stars repeat type_tokens]; rewrite ?app_nil_r; try done. rewrite IHt, <- app_assoc. f_equal. symmetry. apply List.repeat_cons.
Qed.
Lemma lower_stars t : lower t = Nat.iter (stars t) pointer_to (lower (base_of t)).
Proof. induction t; try done. change (lower (CPtr t) = pointer_to (Nat.iter (stars t) pointer_to (lower (base_of t)))). rewrite <- IHt. cbn [lower].
  unfold pointer_to. by destruct (lower t). Qed.
Lemma flags_base t : parse_flags t = parse_flags (base_of t).
Proof. by induction t. Qed.
Lemma mention_base t m : mention t m = mention (base_of t) m.
Proof. by induction t. Qed.
Lemma mention_element t m : mention t m = mention (element t) m.
Proof. by induction t. Qed.
Lemma pointers_reads k : forall n Ty s x l, x <> tok_Pointer -> streams (lex s) (repeat tok_Pointer k ++ [x]) l -> (k < n)%nat ->
  pointers lang_keywords AddIncludeFile fuel n Ty s = Done (x, Nat.iter k pointer_to Ty, with_lex l s).
Proof.
  induction k as [|k IH]; intros n Ty s x l Hx H Hn; (destruct n as [|n]; [lia|]); cbn [pointers repeat app] in *; read H.
  - cbn [IfaceSpec.streams] in H. subst l. by destruct x.
  - erewrite IH; [|exact Hx|exact H|lia]. by rewrite Nat.iter_succ_r.
Qed.
Lemma tokens_cons t : base t = true -> exists t0 ts, type_tokens t = t0 :: ts /\ t0 <> tok_Enum /\ t0 <> tok_End /\ t0 <> tok_BraceClose /\
  t0 <> tok_ParClose.
Proof.
  destruct t; cbn [base]; try done; intros H; cbn [type_tokens]; do 2 eexists; (split; [reflexivity|]); try done;
    by apply width_cases in H as [->|[->|[->| ->]]].
Qed.
Lemma ParseTypeFully_reads t s t0 ts x l : plain t = true -> type_tokens t = t0 :: ts -> x <> tok_Pointer ->
  streams (lex s) (ts ++ [x]) l -> (length ts < fuel)%nat ->
  ParseTypeFully lang_keywords AddIncludeFile fuel t0 s = Done (x, Some (lower t), upd l (parse_flags t) (mention t (namedTypes s)) s).
Proof.
  intros Ht E Hx H Hn. rewrite type_tokens_stars in E. destruct (tokens_cons _ Ht) as (t1 & ts1 & E1 & _). rewrite E1 in E. injection E as -> <-.
  rewrite length_app, repeat_length in Hn. rewrite <- app_assoc in H. apply streams_app in H as (l1 & H1 & H2). unfold ParseTypeFully.
  erewrite (ParseType_reads _ Ht); [|exact E1|exact H1|lia]. cbn [obind].
  erewrite pointers_reads; [|exact Hx|exact H2|lia]. cbn [obind].
  rewrite <- lower_stars, <- flags_base, <- mention_base. destruct s. unfold upd, merge. cbn. by destruct (parse_flags t).
Qed.
Lemma dimensions_reads ds : forall n acc s t0 ts l, forallb (fun d => (0 <? d) && (d <? 2 ^ 32)) ds = true ->
  dim_tokens ds ++ [tok_SemiColon] = t0 :: ts -> streams (lex s) ts l -> (length ds < n)%nat ->
  dimensions lang_keywords AddIncludeFile fuel n t0 acc s = Done (tok_SemiColon, Some (acc ++ ds), with_lex l s).
Proof.
  induction ds as [|d ds IH]; intros n acc s t0 ts l Hd E H Hn; (destruct n as [|n]; [cbn in Hn; lia|]); cbn [dim_tokens flat_map app] in E; injection E as <- <-.
  - cbn [IfaceSpec.streams] in H. subst l. cbn [dimensions]. rewrite app_nil_r. by destruct s.
  - cbn [forallb] in Hd. apply andb_true_iff in Hd as [Hd Hds]. apply andb_true_iff in Hd as [H0 H32]. apply Z.ltb_lt in H0, H32.
    cbn [dimensions]. destruct H as (l1 & Hr & H). rewrite (next_raw_reads _ _ _ Hr). cbn [obind].
    destruct (Z.ltb_spec d 0); [lia|]. destruct (Z.eqb_spec d 0); [lia|]. read H.
    fold (dim_tokens ds) in H. destruct (dim_tokens ds ++ [tok_SemiColon]) as [|t1 ts1] eqn:E1; [by destruct (dim_tokens ds)|]. read H.
    erewrite (IH n); [|exact Hds|reflexivity|exact H|cbn in Hn; lia]. cbn [with_lex lex]. rewrite <- app_assoc. cbn [app].
    unfold u32. rewrite wrap_small by (unfold in_u; lia). by destruct s.
Qed.
Lemma lower_dims t : lower t = fold_right TArr (lower (element t)) (dims t).
Proof. induction t; try done. cbn [lower dims element fold_right]. by rewrite IHt. Qed.
Lemma parseOptionalArraySize_reads t s t0 ts l : declarable t = true -> dim_tokens (dims t) ++ [tok_SemiColon] = t0 :: ts ->
  streams (lex s) ts l -> (length (dims t) < fuel)%nat ->
  parseOptionalArraySize lang_keywords AddIncludeFile fuel t0 (lower (element t)) s = Done (tok_SemiColon, Some (lower t), with_lex l s).
Proof.
  intros Ht E H Hn. unfold declarable in Ht. apply andb_true_iff in Ht as [_ Ht]. unfold parseOptionalArraySize.
  rewrite (dimensions_reads (dims t) fuel [] s t0 ts l Ht E H Hn). cbn [obind option_map app]. by rewrite <- lower_dims.
Qed.

Lemma plain_tokens t : plain t = true -> exists t0 ts, type_tokens t = t0 :: ts /\ t0 <> tok_Enum /\ t0 <> tok_End /\ t0 <> tok_BraceClose /\
  t0 <> tok_ParClose.
Proof.
  intros H. rewrite type_tokens_stars. destruct (tokens_cons _ H) as (t0 & ts & -> & Ht). exists t0, (ts ++ repeat tok_Pointer (stars t)). by split.
Qed.
Definition took (t : ctype) (l : lexer) (s : parser) : parser :=
  with_list (TypeFlagsList s ++ [parse_flags t]) (upd l (parse_flags t) (mention t (namedTypes s)) s).
Lemma parameter_reads t nm x n params ok s l : plain t = true -> param_ok (lower t) = true -> (length params < 5)%nat ->
  x = tok_Comma \/ x = tok_ParClose -> streams (lex s) (param_tokens (t, nm) ++ [x]) l -> (length (param_tokens (t, nm)) < fuel)%nat ->
  parameters lang_keywords AddIncludeFile fuel (S n) params ok s =
  match x with
  | tok_Comma => parameters lang_keywords AddIncludeFile fuel n (params ++ [lower t]) ok (took t l s)
  | _ => Done (Some (params ++ [lower t], ok), took t l s)
  end.
Proof.
  intros Ht Hok Hlen Hx H Hn. unfold param_tokens in *. cbn [fst snd] in *. destruct (plain_tokens t Ht) as (t0 & ts & E & _ & _ & _ & Hc).
  rewrite E in *. cbn [app] in H. cbn [parameters]. read H. rewrite bool_decide_false by done.
  assert (Hv : bool_decide (lower t = TVoid) = false) by (apply bool_decide_false; intros E1; by rewrite E1 in Hok).
  assert (H5 : 5 <? Z.of_nat (length (params ++ [lower t])) = false) by (rewrite length_app; cbn [length]; apply Z.ltb_ge; lia).
  destruct nm as [y|]; cbn [name_tok] in *.
  - rewrite <- app_assoc in H. change (ts ++ [tok_String y] ++ [x]) with (ts ++ ([tok_String y] ++ [x])) in H. rewrite app_assoc in H.
    apply streams_app in H as (l1 & H1 & (l2 & H2 & <-)). rewrite length_app in Hn. cbn [length] in Hn.
    erewrite (ParseTypeFully_reads t _ _ ts (tok_String y)); [|exact Ht|exact E|done|exact H1|lia]. cbn [obind]. rewrite Hv, Hok. cbn [andb]. rewrite H5.
    match goal with |- context [IfaceParser.next _ _ _ ?S] => rewrite (next_reads S _ _ H2) end. cbn [obind]. by destruct Hx as [-> | ->].
  - rewrite app_nil_r in *. cbn [length] in Hn.
    erewrite (ParseTypeFully_reads t _ _ ts x); [|exact Ht|exact E|by destruct Hx as [-> | ->]|exact H|lia]. cbn [obind].
    destruct Hx as [-> | ->]; cbv beta iota; rewrite Hv, Hok; cbn [andb]; by rewrite H5.
Qed.
Lemma took_lex t l s : lex (took t l s) = l.
Proof. done. Qed.
Lemma params_tokens_cons p q ps : params_tokens (p :: q :: ps) = param_tokens p ++ tok_Comma :: params_tokens (q :: ps).
Proof. done. Qed.
Fixpoint took_all (ts : list ctype) (l : lexer) (s : parser) : parser := match ts with [] => with_lex l s | t :: ts => took_all ts l (took t l s) end.
Lemma took_all_fields ts l : forall s, lex (took_all ts l s) = l /\ TypeFlagsList (took_all ts l s) = TypeFlagsList s ++ map parse_flags ts /\
  namedTypes (took_all ts l s) = mention_all ts (namedTypes s) /\ globals (took_all ts l s) = globals s /\ functions (took_all ts l s) = functions s.
Proof.
  induction ts as [|t ts IH]; intros s; cbn [took_all map mention_all fold_left]; [by rewrite app_nil_r|].
  destruct (IH (took t l s)) as (-> & -> & -> & -> & ->). cbn [took with_list TypeFlagsList]. by rewrite <- app_assoc.
Qed.
Lemma took_all_cons t ts l l1 s : took_all (t :: ts) l s = took_all ts l (took t l1 s).
Proof. cbn [took_all]. revert s. destruct ts as [|t1 ts]; intros s; [done|]. cbn [took_all]. f_equal. Qed.
Lemma parameters_reads ps : forall n params ok s l, ps <> [] -> forallb (fun p => plain (fst p)) ps = true ->
  forallb (fun p => param_ok (lower (fst p))) ps = true -> (length params + length ps <= 5)%nat ->
  streams (lex s) (params_tokens ps ++ [tok_ParClose]) l -> (length (params_tokens ps) < fuel)%nat -> (length ps <= n)%nat ->
  parameters lang_keywords AddIncludeFile fuel n params ok s =
  Done (Some (params ++ map (fun p => lower (fst p)) ps, ok), took_all (map fst ps) l s).
Proof.
  induction ps as [|[t nm] ps IH]; intros n params ok s l Hps Hp Hok Hlen H Hf Hn; [done|]. cbn [forallb fst] in Hp, Hok.
  apply andb_true_iff in Hp as [Hp1 Hp], Hok as [Hok1 Hok]. cbn [length] in *. destruct n as [|n]; [lia|].
  destruct ps as [|q ps].
  - cbn [params_tokens] in *. erewrite (parameter_reads t nm tok_ParClose); [|done|done|lia|by right|exact H|exact Hf]. done.
  - rewrite params_tokens_cons in *. rewrite <- app_assoc in H. cbn [app] in H.
    change (param_tokens (t, nm) ++ tok_Comma :: params_tokens (q :: ps) ++ [tok_ParClose])
      with (param_tokens (t, nm) ++ ([tok_Comma] ++ (params_tokens (q :: ps) ++ [tok_ParClose]))) in H.
    rewrite app_assoc in H. apply streams_app in H as (l1 & H1 & H2). rewrite length_app in Hf. cbn [length] in Hf.
    erewrite (parameter_reads t nm tok_Comma); [|done|done|lia|by left|exact H1|lia].
    rewrite (IH n _ ok (took t l1 s) l); [|done|done|done|rewrite length_app; cbn [length] in *; lia|exact H2|lia|cbn [length] in *; lia].
    rewrite <- app_assoc. cbn [map fst]. by rewrite (took_all_cons t _ l l1).
Qed.

Lemma named_params_fst p names : map fst (named_params p names) = p_params p.
Proof. unfold named_params. apply fst_zip. rewrite length_app, repeat_length. lia. Qed.
Lemma forallb_fst {A B} (f : A -> bool) (l : list (A * B)) : forallb (fun p => f (fst p)) l = forallb f (map fst l).
Proof. induction l as [|p l IH]; [done|]. cbn [forallb map]. by rewrite IH. Qed.
Lemma prototype_spec p F : IfaceGen.ParseFunctionPrototype p = Some F ->
  ret_ok (lower (p_ret p)) = true /\ forallb param_ok (map lower (p_params p)) = true /\ (length (p_params p) <= 5)%nat /\
  F = Fn (p_name p) (TFun (lower (p_ret p)) (map lower (p_params p))) (parse_flags (p_ret p) :: map parse_flags (p_params p)).
Proof.
  unfold IfaceGen.ParseFunctionPrototype. destruct (_ && _) eqn:E; [|done]. intros [= <-].
  apply andb_true_iff in E as [E E3]. apply andb_true_iff in E as [E1 E2]. apply Nat.leb_le in E3. rewrite length_map in E3. done.
Qed.
(** The same interface, read up to [l]. *)
Definition like (l : lexer) (m : gmap string (option (list ltype))) (s s' : parser) : Prop :=
  lex s' = l /\ namedTypes s' = m /\ globals s' = globals s /\ functions s' = functions s.
Lemma ParseFunctionPrototype_reads p names F s l : IfaceGen.ParseFunctionPrototype p = Some F -> forallb plain (p_params p) = true ->
  TypeFlags s = parse_flags (p_ret p) ->
  streams (lex s) ((match p_params p with [] => [tok_Void] | _ => params_tokens (named_params p names) end) ++ [tok_ParClose; tok_SemiColon]) l ->
  (5 + length (params_tokens (named_params p names)) < fuel)%nat ->
  exists s', ParseFunctionPrototype lang_keywords AddIncludeFile fuel (lower (p_ret p)) tok_ParOpen s = Done (Some (f_ty F), s') /\
    like l (mention_all (p_params p) (namedTypes s)) s s' /\ TypeFlagsList s' = f_flags F.
Proof.
  intros HF Hp Hfl H Hf. destruct (prototype_spec p F HF) as (H1 & H2 & H3 & ->). unfold ParseFunctionPrototype. rewrite H1.
  cbn [negb bool_decide decide]. rewrite bool_decide_true by done. cbn [negb f_ty f_flags]. rewrite Hfl.
  change [tok_ParClose; tok_SemiColon] with ([tok_ParClose] ++ [tok_SemiColon]) in H. rewrite app_assoc in H.
  apply streams_app in H as (l1 & H & (l2 & Hr & <-)).
  assert (Hgo : forall n, (5 < n)%nat -> exists s1, parameters lang_keywords AddIncludeFile fuel n [] true (with_list [parse_flags (p_ret p)] s) =
      Done (Some (map lower (p_params p), true), s1) /\ like l1 (mention_all (p_params p) (namedTypes s)) s s1 /\
      TypeFlagsList s1 = parse_flags (p_ret p) :: map parse_flags (p_params p)).
  { intros n Hn. destruct (p_params p) as [|t0 ps] eqn:Eps.
    - cbn [app] in H. destruct n as [|n]; [lia|]. cbn [parameters]. read H.
      rewrite bool_decide_false by done. erewrite (ParseTypeFully_reads CVoid _ _ [] tok_ParClose); [|done|done|done|exact H|cbn; lia].
      cbn [obind lower]. eexists. split; [reflexivity|]. by split.
    - assert (Hne : named_params p names <> []) by (intros E; pose proof (named_params_fst p names) as Hx; by rewrite E, Eps in Hx).
      pose proof (named_params_fst p names) as Hfst. rewrite Eps in Hfst.
      assert (Hlen : length (named_params p names) = length (t0 :: ps)) by (rewrite <- Hfst; by rewrite length_map).
      rewrite (parameters_reads (named_params p names) n [] true _ l1 Hne); [| | | |exact H|lia|rewrite Hlen; cbn [length] in *; lia].
      + eexists. split; [f_equal; f_equal; f_equal; f_equal; cbn [app]; rewrite <- Hfst, map_map; reflexivity|].
        rewrite Hfst. destruct (took_all_fields (t0 :: ps) l1 (with_list [parse_flags (p_ret p)] s)) as (E1 & E2 & E3 & E4 & E5).
        by split; [split|].
      + by rewrite (forallb_fst plain), Hfst.
      + rewrite (forallb_fst (fun t => param_ok (lower t))), Hfst. clear - H2. cbn [map forallb] in *. apply andb_true_iff in H2 as [-> H2]. cbn [andb].
        induction ps as [|t ps IH]; [done|]. cbn [map forallb] in *. apply andb_true_iff in H2 as [-> H2]. by apply IH.
      + rewrite Hlen. cbn [length] in *. lia. }
  destruct (Hgo fuel ltac:(lia)) as (s1 & -> & (L1 & L2 & L3 & L4) & L5). cbn [obind]. rewrite (next_reads s1 tok_SemiColon l2) by (by rewrite L1). cbn [obind].
  rewrite bool_decide_true by done. eexists. split; [reflexivity|]. by split; [split|].
Qed.

Definition field_ok (f : string * ctype) : bool := declarable (snd f) && negb (bool_decide (lower (element (snd f)) = TVoid)).
Lemma field_ok_spec f : field_ok f = true -> declarable (snd f) = true /\ plain (element (snd f)) = true /\ lower (element (snd f)) <> TVoid.
Proof.
  unfold field_ok. rewrite andb_true_iff, negb_true_iff, bool_decide_eq_false. intros [H1 H2]. split; [done|]. split; [|done].
  unfold declarable in H1. by apply andb_true_iff in H1 as [H1 _].
Qed.
Lemma struct_fields_reads fs : forall n acc s t0 ts l, forallb field_ok fs = true ->
  flat_map field_tokens fs ++ [tok_BraceClose] = t0 :: ts -> streams (lex s) ts l -> (length ts < fuel)%nat -> (length fs < n)%nat ->
  exists s', struct_fields_loop lang_keywords AddIncludeFile fuel n t0 acc s = Done (Some (acc ++ map (fun f => lower (snd f)) fs), s') /\
    like l (mention_all (map snd fs) (namedTypes s)) s s'.
Proof.
  induction fs as [|[x t] fs IH]; intros n acc s t0 ts l Hok E H Hf Hn; (destruct n as [|n]; [cbn in Hn; lia|]); cbn [flat_map app] in E.
  - injection E as <- <-. cbn [IfaceSpec.streams] in H. cbn [struct_fields_loop]. rewrite bool_decide_true by done.
    eexists. split; [by rewrite app_nil_r|]. by split.
  - cbn [forallb] in Hok. apply andb_true_iff in Hok as [Hok1 Hok]. destruct (field_ok_spec _ Hok1) as (D1 & D2 & D3). cbn [snd] in *.
    destruct (plain_tokens _ D2) as (t1 & ts1 & E1 & _ & _ & Hb & _). change (field_tokens (x, t)) with (type_tokens (element t) ++ tok_String x :: dim_tokens (dims t) ++ [tok_SemiColon]) in E.
    rewrite E1 in E.
    cbn [app] in E. injection E as -> <-. cbn [struct_fields_loop]. rewrite bool_decide_false by done.
    rewrite <- !app_assoc in H. cbn [app] in H. rewrite <- !app_assoc in H. cbn [app] in H.
    match type of H with streams _ (ts1 ++ tok_String x :: ?r) _ => change (ts1 ++ tok_String x :: r) with (ts1 ++ ([tok_String x] ++ r)) in H end.
    rewrite app_assoc in H. apply streams_app in H as (l1 & H1 & H2). rewrite !length_app in Hf. cbn [length] in Hf. rewrite !length_app in Hf. cbn [length] in Hf.
    erewrite (ParseTypeFully_reads (element t) _ _ ts1 (tok_String x)); [|exact D2|exact E1|done|exact H1|lia]. cbn [obind].
    rewrite bool_decide_false by done.
    match type of H2 with streams _ (?a ++ ?b :: ?r) _ => change (a ++ b :: r) with (a ++ ([b] ++ r)) in H2 end.
    rewrite app_assoc in H2. destruct (dim_tokens (dims t) ++ [tok_SemiColon]) as [|t2 ts2] eqn:E2; [by destruct (dim_tokens (dims t))|].
    cbn [app] in H2. destruct H2 as (l2 & Hr2 & H2).
    match goal with |- context [IfaceParser.next _ _ _ ?S] => rewrite (next_reads S _ _ Hr2) end. cbn [obind].
    apply streams_app in H2 as (l3 & H2 & H3).
    assert (length ts2 = length (dim_tokens (dims t))) as Hl2.
    { apply (f_equal length) in E2. rewrite length_app in E2. cbn [length] in E2. lia. }
    assert (length (dims t) <= length (dim_tokens (dims t)))%nat as Hl3.
    { clear. induction (dims t) as [|d ds IH]; [done|]. cbn [dim_tokens flat_map app length] in *. fold (dim_tokens ds). lia. }
    erewrite (parseOptionalArraySize_reads t _ t2 ts2 l3 D1 E2); [|exact H2|lia]. cbn [obind].
    destruct (flat_map field_tokens fs ++ [tok_BraceClose]) as [|t3 ts3] eqn:E3; [by destruct (flat_map field_tokens fs)|].
    destruct H3 as (l4 & Hr4 & H3).
    match goal with |- context [IfaceParser.next _ _ _ ?S] => rewrite (next_reads S _ _ Hr4) end. cbn [obind].
    match goal with |- context [struct_fields_loop _ _ _ n t3 ?acc' ?S] => destruct (IH n acc' S t3 ts3 l Hok eq_refl H3) as (s' & -> & L) end.
    + apply (f_equal length) in E3. rewrite length_app in E3. cbn [length] in E3. lia.
    + cbn [length] in Hn. lia.
    + eexists. split; [by rewrite <- app_assoc|]. destruct L as (L1 & L2 & L3 & L4). split; [done|]. split; [|done].
      rewrite L2. cbn [map snd mention_all fold_left]. by rewrite (mention_element t).
Qed.

Lemma skip_to_brace_reads body : forall n t s l, body_ok t -> Forall body_ok body -> streams (lex s) (body ++ [tok_BraceClose]) l ->
  (length body < n)%nat -> skip_to_brace lang_keywords AddIncludeFile fuel n t s = Done (tok_BraceClose, with_lex l s).
Proof.
  induction body as [|t1 body IH]; intros n t s l Ht Hb H Hn; (destruct n as [|n]; [lia|]); cbn [app] in H.
  - assert (skip_to_brace lang_keywords AddIncludeFile fuel (S n) t s = let* (token, s) := next s in skip_to_brace lang_keywords AddIncludeFile fuel n token s) as ->
      by (destruct Ht as (? & ? & ?); by destruct t). read H. cbn [IfaceSpec.streams] in H. subst. by destruct n.
  - assert (skip_to_brace lang_keywords AddIncludeFile fuel (S n) t s = let* (token, s) := next s in skip_to_brace lang_keywords AddIncludeFile fuel n token s) as ->
      by (destruct Ht as (? & ? & ?); by destruct t). read H. apply Forall_cons in Hb as [Hb1 Hb].
    erewrite IH; [|exact Hb1|exact Hb|exact H|cbn [length] in Hn; lia]. by destruct s.
Qed.
Lemma skip_enums_reads es : forall n s t0 ts t1 rest l, Forall (fun e => Forall body_ok (e_body e)) es ->
  flat_map enum_tokens es ++ t1 :: rest = t0 :: ts -> t1 <> tok_Enum -> streams (lex s) ts l -> (length ts < fuel)%nat -> (length es < n)%nat ->
  exists l1, skip_enums lang_keywords AddIncludeFile fuel n t0 s = Done (t1, with_lex l1 s) /\ streams l1 rest l.
Proof.
  induction es as [|e es IH]; intros n s t0 ts t1 rest l Hes E Ht1 H Hf Hn; (destruct n as [|n]; [cbn in Hn; lia|]); cbn [flat_map app] in E.
  - injection E as <- <-. exists (lex s). split; [|done]. destruct s. by destruct t1.
  - apply Forall_cons in Hes as [Hb Hes]. change (enum_tokens e) with (tok_Enum :: name_tok (e_name e) ++ tok_BraceOpen :: e_body e ++ [tok_BraceClose; tok_SemiColon]) in E.
    cbn [app] in E. injection E as <- <-. cbn [skip_enums].
    rewrite <- !app_assoc in H. cbn [app] in H. rewrite <- !app_assoc in H. cbn [app] in H.
    repeat (progress (cbn [length] in Hf; rewrite ?length_app in Hf)).
    assert (exists l0, (let* (token, s1) := next s in let* (token, s1) := match token with tok_String _ => next s1 | _ => Done (token, s1) end in
        Done (token, s1)) = Done (tok_BraceOpen, with_lex l0 s) /\
        streams l0 ((e_body e ++ [tok_BraceClose]) ++ tok_SemiColon :: flat_map enum_tokens es ++ t1 :: rest) l) as (l0 & Hopen & H0).
    { rewrite <- app_assoc. destruct (e_name e) as [x|]; cbn [name_tok app] in H.
      - read H. read H. eexists. split; [|exact H]. by destruct s.
      - read H. eexists. split; [reflexivity|exact H]. }
    destruct (next s) as [[u su]| | |]; cbn [obind] in *; try done.
    destruct (match u with tok_String _ => next su | _ => Done (u, su) end) as [[v sv]| | |]; cbn [obind] in *; try done.
    injection Hopen as -> ->. rewrite bool_decide_true by done. cbn [negb]. apply streams_app in H0 as (l1 & H0 & H1).
    erewrite skip_to_brace_reads; [|by split|exact Hb|exact H0|lia]. cbn [obind]. read H1.
    destruct (flat_map enum_tokens es ++ t1 :: rest) as [|t2 ts2] eqn:E2; [by destruct (flat_map enum_tokens es)|]. read H1.
    match goal with |- context [skip_enums _ _ _ n t2 ?S] => destruct (IH n S t2 ts2 t1 rest l Hes E2 Ht1 H1) as (l9 & -> & H9) end.
    + apply (f_equal length) in E2. rewrite length_app in E2. cbn [length] in E2. lia.
    + cbn [length] in Hn. lia.
    + exists l9. split; [by destruct s|done].
Qed.

Lemma ParseType_extern ext t s t0 ts l : base t = true -> (if ext : bool then [tok_Extern] else []) ++ type_tokens t = t0 :: ts ->
  streams (lex s) ts l -> (S (length ts) < fuel)%nat ->
  ParseType lang_keywords AddIncludeFile fuel fuel t0 s =
  Done (Some (lower t), upd l (merge (TypeFlags s) (parse_flags t)) (mention t (namedTypes s)) s).
Proof.
  intros Ht E H Hf. destruct ext; cbn [app] in E; [|by eapply (ParseType_reads t Ht); [exact E|exact H|lia]].
  injection E as <- <-. assert (exists n, fuel = S n) as [n Hn] by (exists (fuel - 1)%nat; lia).
  assert (ParseType lang_keywords AddIncludeFile fuel fuel tok_Extern s =
    let* (token, s) := next s in ParseType lang_keywords AddIncludeFile fuel n token s) as -> by (rewrite Hn at 2; done).
  destruct (tokens_cons t Ht) as (t1 & ts1 & E1 & _). rewrite E1 in H. read H.
  erewrite (ParseType_reads t Ht n); [|exact E1|exact H|rewrite E1 in Hf; cbn [length] in Hf; lia]. by destruct s.
Qed.
Lemma declared_type_reads ext t x s t0 ts l : plain t = true -> (stars t <= 1)%nat -> x <> tok_Pointer ->
  (if ext : bool then [tok_Extern] else []) ++ type_tokens t ++ [x] = t0 :: ts -> streams (lex s) ts l -> (S (length ts) < fuel)%nat ->
  declared_type lang_keywords AddIncludeFile fuel t0 s =
  Done (x, Some (lower (base_of t), lower t), upd l (parse_flags t) (mention t (namedTypes s)) s).
Proof.
  intros Ht Hs Hx E H Hf. rewrite type_tokens_stars in E. destruct (tokens_cons _ Ht) as (t1 & ts1 & E1 & _).
  destruct ((if ext : bool then [tok_Extern] else []) ++ type_tokens (base_of t)) as [|t2 ts2] eqn:E2; [rewrite E1 in E2; by destruct ext|].
  rewrite !app_assoc, E2 in E. cbn [app] in E. injection E as -> <-. rewrite <- app_assoc in H, Hf. apply streams_app in H as (l1 & H1 & H2).
  rewrite length_app in Hf. unfold declared_type. erewrite (ParseType_extern ext (base_of t)); [|exact Ht|exact E2|exact H1|lia]. cbn [obind].
  rewrite (lower_stars t), (flags_base t), (mention_base t). destruct (stars t) as [|[|?]]; [| |lia]; cbn [repeat app Nat.iter] in *.
  - read H2. cbn [IfaceSpec.streams] in H2. subst. destruct s. unfold merge. cbn. destruct x; try done; cbn; by destruct (parse_flags _).
  - read H2. read H2. cbn [IfaceSpec.streams] in H2. subst. destruct s. unfold merge. cbn. by destruct (parse_flags _).
Qed.

(** The parser's state is an interface, read up to [l]. *)
Definition holds_api (a : api) (l : lexer) (s : parser) : Prop :=
  lex s = l /\ namedTypes s = a_named a /\ globals s = a_globals a /\ functions s = a_functions a.
(** The tokens of a declaration behind its first one, from a state whose skipped
    enumerations left that token to be read. *)
Definition behind (token : tok) (s : parser) : outcome (tok * parser) :=
  let* (token, types, s) := declared_type lang_keywords AddIncludeFile fuel token s in
  match types with
  | None => Done (tok_Error, s)
  | Some (hTy, Ty) =>
      match token with
      | tok_String Func =>
          let* (token, s) := next s in
          let* (token, ATy, s) := parseOptionalArraySize lang_keywords AddIncludeFile fuel token Ty s in
          match ATy with
          | Some ATy => declare_global Func token ATy s
          | None => declare_function lang_keywords AddIncludeFile fuel Func token Ty s
          end
      | tok_BraceOpen =>
          let* (ok, s) := ParseStructDecl lang_keywords AddIncludeFile fuel hTy s in
          if ok : bool then Done (token, s) else error "Structure type declaration expected" s
      | _ => error "{ or identifier expected" s
      end
  end.
Lemma struct_reads tag fields a a' s t0 ts l : declare a (DStruct tag fields) = Some a' -> decl_tokens (DStruct tag fields) = t0 :: ts ->
  streams (lex s) ts l -> holds_api a (lex s) s -> (length ts < fuel)%nat ->
  exists t s', behind t0 s = Done (t, s') /\ proper t /\ holds_api a' l s'.
Proof.
  intros Ha E H (_ & H1 & H2 & H3) Hf. cbn [declare] in Ha. unfold IfaceSpec.guard in Ha. destruct (forallb _ fields) eqn:Hok; [|done].
  cbn [decl_tokens] in E. injection E as <- <-. unfold behind.
  change (tok_String tag :: tok_BraceOpen :: ?r) with ([tok_String tag; tok_BraceOpen] ++ r) in H. apply streams_app in H as (l1 & H & H4).
  repeat (progress (cbn [length] in Hf; rewrite ?length_app in Hf)).
  erewrite (declared_type_reads false (CStruct tag) tok_BraceOpen); [|done|cbn; lia|done|reflexivity|exact H|cbn; lia]. cbn [obind base_of lower].
  unfold ParseStructDecl. change [tok_BraceClose; tok_SemiColon] with ([tok_BraceClose] ++ [tok_SemiColon]) in H4. rewrite app_assoc in H4.
  destruct (flat_map field_tokens fields ++ [tok_BraceClose]) as [|t1 ts1] eqn:E1; [by destruct (flat_map field_tokens fields)|].
  cbn [app] in H4. destruct H4 as (l2 & Hr & H4).
  match goal with |- context [IfaceParser.next _ _ _ ?S] => rewrite (next_reads S _ _ Hr) end. cbn [obind].
  apply streams_app in H4 as (l3 & H4 & (l4 & Hr5 & <-)).
  assert (length ts1 = length (flat_map field_tokens fields)) as Hl.
  { apply (f_equal length) in E1. rewrite length_app in E1. cbn [length] in E1. lia. }
  assert (length fields <= length (flat_map field_tokens fields))%nat as Hl2.
  { clear. induction fields as [|f fs IH]; [done|]. cbn [flat_map length]. rewrite length_app. unfold field_tokens at 1.
    rewrite length_app. cbn [length]. lia. }
  match goal with |- context [struct_fields_loop _ _ _ fuel t1 [] ?S] =>
    destruct (struct_fields_reads fields fuel [] S t1 ts1 l3 Hok E1 H4) as (s1 & -> & (L1 & L2 & L3 & L4)); [lia..|] end.
  cbn [obind app]. unfold refine. cbn [namedTypes with_lex upd with_flags with_named] in L2. rewrite H1 in L2. rewrite L2.
  change (mention (CStruct tag) (a_named a)) with (match a_named a !! tag with Some _ => a_named a | None => <[tag := None]> (a_named a) end) in Ha.
  destruct (mention_all _ _ !! tag) as [[?|]|]; try done. injection Ha as <-. cbn [obind].
  rewrite (next_reads _ tok_SemiColon l4) by (cbn [lex with_named]; by rewrite L1). cbn [obind]. rewrite bool_decide_true by done.
  do 2 eexists. split; [reflexivity|]. split; [done|]. split; [done|]. cbn [namedTypes globals functions with_lex with_named a_named a_globals a_functions].
  split; [done|]. cbn in L3, L4. by rewrite L3, L4, H2, H3.
Qed.
Lemma global_reads ext x t a a' s t0 ts l : declare a (DGlobal ext x t) = Some a' -> decl_tokens (DGlobal ext x t) = t0 :: ts ->
  streams (lex s) ts l -> holds_api a (lex s) s -> (S (length ts) < fuel)%nat ->
  exists t s', behind t0 s = Done (t, s') /\ proper t /\ holds_api a' l s'.
Proof.
  intros Ha E H (_ & H1 & H2 & H3) Hf. cbn [declare] in Ha. unfold IfaceSpec.guard in Ha. destruct (_ && _) eqn:Hok; [|done]. injection Ha as <-.
  apply andb_true_iff in Hok as [Hok K5]. apply andb_true_iff in Hok as [Hok K4]. apply andb_true_iff in Hok as [Hok K3].
  apply andb_true_iff in Hok as [K1 K2]. apply Nat.leb_le in K2. apply negb_true_iff in K4.
  assert (plain (element t) = true) as Kp by (unfold declarable in K1; by apply andb_true_iff in K1 as [K1 _]).
  cbn [decl_tokens] in E. change (field_tokens (x, t)) with (type_tokens (element t) ++ tok_String x :: dim_tokens (dims t) ++ [tok_SemiColon]) in E.
  change (tok_String x :: ?r) with ([tok_String x] ++ r) in E. rewrite (app_assoc (type_tokens _)), app_assoc in E.
  destruct ((if ext then [tok_Extern] else []) ++ type_tokens (element t) ++ [tok_String x]) as [|t1 ts1] eqn:E1; [by destruct ext, (type_tokens (element t))|].
  cbn [app] in E. injection E as <- <-. apply streams_app in H as (l1 & H & H4). rewrite length_app in Hf. unfold behind.
  erewrite (declared_type_reads ext (element t) (tok_String x)); [|done|done|done|exact E1|exact H|lia]. cbn [obind].
  destruct (dim_tokens (dims t) ++ [tok_SemiColon]) as [|t2 ts2] eqn:E2; [by destruct (dim_tokens (dims t))|].
  destruct H4 as (l2 & Hr & H4). match goal with |- context [IfaceParser.next _ _ _ ?S] => rewrite (next_reads S _ _ Hr) end. cbn [obind].
  assert (length (dims t) <= length ts2)%nat as Hl.
  { apply (f_equal length) in E2. rewrite length_app in E2. cbn [length] in E2. assert (length ts2 = length (dim_tokens (dims t))) as -> by lia.
    clear. induction (dims t) as [|d ds IH]; [done|]. cbn [dim_tokens flat_map app length] in *. fold (dim_tokens ds). lia. }
  cbn [length] in Hf. erewrite (parseOptionalArraySize_reads t _ t2 ts2 l K1 E2); [|exact H4|lia]. cbn [obind]. unfold declare_global.
  rewrite K3. cbn [negb globals namedTypes with_lex upd with_flags with_named]. rewrite H1, H2, K4, <- (mention_element t).
  unfold known_size in K5. destruct (checkTypeSize _ _ _) as [[size M]| | |]; try done. cbn [obind]. apply negb_true_iff in K5. rewrite K5.
  do 2 eexists. split; [reflexivity|]. split; [done|]. split; [done|]. cbn. by rewrite H2, H3.
Qed.
Lemma proto_reads p names a a' s t0 ts l : declare a (DProto p names) = Some a' -> decl_tokens (DProto p names) = t0 :: ts ->
  streams (lex s) ts l -> holds_api a (lex s) s -> (S (length ts) < fuel)%nat -> (10 + length (params_tokens (named_params p names)) < fuel)%nat ->
  exists t s', behind t0 s = Done (t, s') /\ proper t /\ holds_api a' l s'.
Proof.
  intros Ha E H (_ & H1 & H2 & H3) Hf Hf2. cbn [declare] in Ha. destruct (IfaceGen.ParseFunctionPrototype p) as [F|] eqn:EF; [|done].
  cbn [mbind option_bind] in Ha. unfold IfaceSpec.guard in Ha. destruct (_ && _) eqn:Hok; [|done]. injection Ha as <-.
  apply andb_true_iff in Hok as [Hok K5]. apply andb_true_iff in Hok as [Hok K4]. apply andb_true_iff in Hok as [Hok K3].
  apply andb_true_iff in Hok as [K1 K2]. apply Nat.leb_le in K2. apply negb_true_iff in K3, K4. cbn [forallb] in K1. apply andb_true_iff in K1 as [K0 K1].
  cbn [decl_tokens] in E. change (tok_String (p_name p) :: ?r) with ([tok_String (p_name p)] ++ r) in E. rewrite app_assoc in E.
  destruct (type_tokens (p_ret p) ++ [tok_String (p_name p)]) as [|t1 ts1] eqn:E1; [by destruct (type_tokens (p_ret p))|].
  cbn [app] in E. injection E as <- <-. apply streams_app in H as (l1 & H & H4). rewrite length_app in Hf. unfold behind.
  erewrite (declared_type_reads false (p_ret p) (tok_String (p_name p))); [|done|done|done|exact E1|exact H|lia]. cbn [obind].
  destruct H4 as (l2 & Hr & H4). match goal with |- context [IfaceParser.next _ _ _ ?S] => rewrite (next_reads S _ _ Hr) end. cbn [obind].
  assert (forall S, parseOptionalArraySize lang_keywords AddIncludeFile fuel tok_ParOpen (lower (p_ret p)) S = Done (tok_ParOpen, None, S)) as ->.
  { intros S. unfold parseOptionalArraySize. assert (exists n, fuel = Datatypes.S n) as [n Hn] by (exists (fuel - 1)%nat; lia). by rewrite Hn. }
  cbn [obind]. unfold declare_function. cbn [app] in H4.
  match goal with |- context [IfaceParser.ParseFunctionPrototype _ _ _ _ _ ?S] =>
    destruct (ParseFunctionPrototype_reads p names F S l EF K1 eq_refl H4 ltac:(lia)) as (s1 & -> & (L1 & L2 & L3 & L4) & L5) end.
  destruct (prototype_spec p F EF) as (_ & _ & _ & EF2). cbn [obind]. cbn in L2, L3, L4. rewrite H1 in L2. rewrite H2 in L3. rewrite H3 in L4.
  rewrite L4, K4, K3, L2. unfold mention_all in K5. cbn [fold_left] in K5. fold (mention_all (p_params p) (mention (p_ret p) (a_named a))) in K5.
  unfold known_params in K5. destruct (checkFuncParams _ _ _) as [valid| | |]; try done. subst valid.
  cbn [obind negb]. do 2 eexists. split; [reflexivity|]. split; [done|]. split; [done|].
  cbn [namedTypes globals functions add_function a_named a_globals a_functions]. rewrite L2, L3, L4, L5. split; [done|]. split; [done|]. by rewrite EF2.
Qed.
Lemma decl_reads d a a' s t0 ts l : declare a d = Some a' -> decl_tokens d = t0 :: ts ->
  streams (lex s) ts l -> holds_api a (lex s) s -> (10 + length (t0 :: ts) < fuel)%nat ->
  exists t s', behind t0 s = Done (t, s') /\ proper t /\ holds_api a' l s'.
Proof.
  intros Ha E H Hs Hf. cbn [length] in Hf. destruct d as [tag fields|ext x t|p names].
  - eapply struct_reads; [done|exact E|done|done|lia].
  - eapply global_reads; [done|exact E|done|done|lia].
  - eapply proto_reads; [done|exact E|done|done|lia|]. apply (f_equal length) in E. cbn [decl_tokens] in E.
    assert (length (params_tokens (named_params p names)) <= length ts)%nat; [|lia].
    repeat (progress (cbn [length] in E; rewrite ?length_app in E)). unfold named_params in *.
    destruct (p_params p) as [|t1 ps]; [cbn; lia|]. lia.
Qed.
Lemma decl_first d a a' : declare a d = Some a' -> exists t0 ts, decl_tokens d = t0 :: ts /\ t0 <> tok_Enum /\ t0 <> tok_End.
Proof.
  destruct d as [tag fields|ext x t|p names]; cbn [declare decl_tokens]; unfold IfaceSpec.guard; intros Ha.
  - by do 2 eexists.
  - destruct (_ && _) eqn:Hok; [|done]. do 4 (apply andb_true_iff in Hok as [Hok _]). unfold declarable in Hok.
    apply andb_true_iff in Hok as [Hok _]. destruct ext; [by do 2 eexists|]. unfold field_tokens. cbn [snd fst app].
    destruct (plain_tokens _ Hok) as (t0 & ts & -> & H1 & H2 & _). by do 2 eexists.
  - destruct (IfaceGen.ParseFunctionPrototype p); [|done]. cbn [mbind option_bind] in Ha. destruct (_ && _) eqn:Hok; [|done].
    do 4 (apply andb_true_iff in Hok as [Hok _]). cbn [forallb] in Hok. apply andb_true_iff in Hok as [Hok _].
    destruct (plain_tokens _ Hok) as (t0 & ts & -> & H1 & H2 & _). by do 2 eexists.
Qed.
Lemma enum_tokens_length es : (length es <= length (flat_map enum_tokens es))%nat.
Proof. induction es as [|e es IH]; [done|]. cbn [flat_map]. rewrite length_app. cbn [length enum_tokens]. lia. Qed.
Lemma declaration_reads es d a a' s l : Forall (fun e => Forall body_ok (e_body e)) es -> declare a d = Some a' ->
  streams (lex s) (flat_map enum_tokens es ++ decl_tokens d) l -> holds_api a (lex s) s ->
  (10 + length (flat_map enum_tokens es ++ decl_tokens d) < fuel)%nat ->
  exists t s', declaration lang_keywords AddIncludeFile fuel s = Done (t, s') /\ proper t /\ holds_api a' l s'.
Proof.
  intros Hes Ha H Hs Hf. destruct (decl_first _ _ _ Ha) as (t1 & rest & Ed & He & Hend). rewrite Ed in *.
  destruct (flat_map enum_tokens es ++ t1 :: rest) as [|t0 ts] eqn:E; [by destruct (flat_map enum_tokens es)|].
  destruct H as (l1 & Hr & H). unfold declaration. rewrite (next_reads s t0 l1 Hr). cbn [obind].
  rewrite bool_decide_false by (destruct es; cbn [flat_map app enum_tokens] in E; injection E as <- _; done).
  pose proof (enum_tokens_length es) as Hl. pose proof (f_equal length E) as El. rewrite length_app in El. cbn [length] in El, Hf.
  destruct (skip_enums_reads es fuel (with_lex l1 s) t0 ts t1 rest l Hes E He H ltac:(lia) ltac:(lia)) as (l2 & -> & H2). cbn [obind].
  apply (decl_reads d a a' (with_lex l2 (with_lex l1 s)) t1 rest l); try done; [|cbn [length]; lia].
  by destruct Hs as (_ & K2 & K3 & K4).
Qed.

Lemma unterminated_none s : Ifs (lex s) = [] -> unterminated s = s.
Proof. destruct s as [[p q i st lo ms] f fl m g fn]. cbn. by intros ->. Qed.
(** The rest of a file and of the files around it: [n] declarations, [nf] files. *)
Definition rest_of_files (n nf : nat) (s : parser) : outcome (bool * parser) :=
  let* (token, s) := declarations lang_keywords AddIncludeFile fuel n s in
  match token with
  | tok_Error => Done (false, s)
  | _ =>
      let s := unterminated s in
      match Locs (lex s), Ifstack (lex s) with
      | [], _ => Done (true, s)
      | p :: locs, ifs :: stack => parse_files lang_keywords AddIncludeFile fuel nf (leave_file p locs ifs stack s)
      | _ :: _, [] => AssertFailed "!Ifstack.empty()"
      end
  end.
Lemma end_reads n s l' : LexToken lang_keywords AddIncludeFile fuel (lex s) = Done (tok_End, l') ->
  declarations lang_keywords AddIncludeFile fuel (S n) s = Done (tok_End, with_lex l' s).
Proof. intros H. cbn [declarations]. unfold declaration, IfaceParser.next. rewrite H. cbn [obind]. by rewrite bool_decide_true. Qed.
Lemma spells_reads k l ds l' : spells lang_keywords AddIncludeFile fuel k l ds l' -> forall n nf a a' s, holds_api a l s ->
  declare_all a ds = Some a' -> (k < n)%nat -> (k <= nf)%nat -> (10 + k < fuel)%nat ->
  exists s', rest_of_files n nf s = Done (true, s') /\ holds_api a' l' s'.
Proof.
  induction 1 as [l l' H HL HI|k l l1 p locs ifs stack ds l' H HI HL HS Hsp IH|k l es d ds l1 l' Hes H Hsp IH];
    intros n nf a a' s Hs Ha Hn Hnf Hf; (destruct n as [|n]; [lia|]); pose proof Hs as (Hl & Hs2 & Hs3 & Hs4); unfold rest_of_files.
  - rewrite (end_reads n s l') by (by rewrite Hl). cbn [obind]. rewrite unterminated_none by done. cbn [lex with_lex]. rewrite HL.
    eexists. split; [reflexivity|]. injection Ha as <-. done.
  - rewrite (end_reads n s l1) by (by rewrite Hl). cbn [obind]. rewrite unterminated_none by done. cbn [lex with_lex]. rewrite HL, HS.
    destruct nf as [|nf]; [lia|]. apply (IH fuel nf a a'); [|done|lia..]. by split.
  - cbn [declare_all snd] in Ha. destruct (declare a d) as [a1|] eqn:Ed; [|done]. cbn [mbind option_bind] in Ha.
    assert (1 <= length (flat_map enum_tokens es ++ decl_tokens d))%nat as H1.
    { destruct (decl_first _ _ _ Ed) as (t0 & ts & -> & _). rewrite length_app. cbn [length]. lia. }
    destruct (declaration_reads es d a a1 s l1 Hes Ed) as (t & s1 & E & [Ht1 Ht2] & Hs1); [by rewrite Hl|by rewrite Hl|lia|].
    cbn [declarations]. rewrite E. cbn [obind]. destruct (IH n nf a1 a' s1 Hs1 Ha ltac:(lia) ltac:(lia) ltac:(lia)) as (s' & Hr & Hs').
    exists s'. split; [|done]. rewrite <- Hr. by destruct t.
Qed.
(** A text that spells declarations, whatever lies between its tokens, is
    accepted, and the interface the parser ends with is the one these
    declarations describe: their structures, globals and functions, in order,
    each function with its type and the flags of its types. *)
Lemma parse_declares text k ds l a : spells lang_keywords AddIncludeFile fuel k (initial text) ds l -> declare_all no_api ds = Some a ->
  (10 + k < fuel)%nat -> exists s, parse lang_keywords AddIncludeFile fuel text = Done (true, s) /\ holds_api a l s.
Proof.
  intros H Ha Hf. unfold parse. assert (exists n, fuel = S n) as [n Hn] by (exists (fuel - 1)%nat; lia).
  destruct (spells_reads k (initial text) ds l H fuel n no_api a (start text)) as (s & E & Hs); [done|done|lia..|].
  exists s. split; [|done]. rewrite <- E. rewrite Hn at 2. reflexivity.
Qed.
End parses.
