(* ===== verification/IfaceText.v ===== *)
(** * IfaceText: texts of declarations

    The texts a list of tokens may be written as, with blanks and comments
    anywhere between them: the lexer gives the tokens back, so the generator reads
    the declarations the text was written from. The declarations of the
    repository's header, in any such layout, lead to the tables of ApiDecl.v. *)
From S2P Require Import Prelude Enums Layout ApiHeader ApiDecl IfaceGen IfaceLexer IfaceParser IfaceSpec.
From stdpp Require Import pretty.
Local Open Scope string_scope.
Local Open Scope list_scope.
Local Open Scope Z_scope.
Local Open Scope outcome_scope.

(** ** Layouts *)

Definition newline : string := String.String "010" "".
(** Blanks and comments; the rest of a line comment has no newline. *)
Inductive gap : string -> Prop :=
| gap_nil : gap ""
| gap_space c w : isspace c = true -> gap w -> gap (String.String c w)
| gap_block b w : end_of_comment (b +:+ "*/") = Some "" -> gap w -> gap ("/*" +:+ b +:+ "*/" +:+ w)
| gap_line b w : end_of_line (b +:+ newline) = "" -> gap w -> gap ("//" +:+ b +:+ newline +:+ w).

Definition name_char (c : ascii) : bool := isalnum c || Ascii.eqb c "_"%char.
Fixpoint all_chars (f : ascii -> bool) (w : string) : bool :=
  match w with String.String c w => f c && all_chars f w | EmptyString => true end.
Definition is_name (w : string) : bool :=
  match w with String.String c _ => negb (isdigit c) && all_chars name_char w | EmptyString => false end.
Definition is_number (w : string) : bool := match w with EmptyString => false | _ => all_chars isdigit w end.
Fixpoint decimal (n : Z) (w : string) : Z :=
  match w with String.String c w => decimal (n * 10 + (Z.of_N (N_of_ascii c) - 48)) w | EmptyString => n end.

Section layout.
Context (lang_keywords : string -> option tok).
(** How a token can be written. *)
Definition spelled (t : tok) (w : string) : bool :=
  match t with
  | tok_Number n => is_number w && (decimal 0 w =? n) && (n <? 2 ^ 63)
  | tok_String x => is_name w && String.eqb x w && bool_decide (keyword lang_keywords w = None) && bool_decide (ignoreMacros w = None)
  | tok_Const | tok_Extern | tok_Enum | tok_Void | tok_Struct | tok_Int8 | tok_Int16 | tok_Int32 | tok_Int64
  | tok_UInt8 | tok_UInt16 | tok_UInt32 | tok_UInt64 => is_name w && bool_decide (keyword lang_keywords w = Some t)
  | _ => match w with String.String c "" => bool_decide (delimiters c = Some t) | _ => false end
  end.
Definition breaks (p : string) : bool :=
  match p with String.String c _ => isspace c || bool_decide (is_Some (delimiters c)) | EmptyString => true end.
Definition delimiter (w : string) : bool := match w with String.String c "" => bool_decide (is_Some (delimiters c)) | _ => false end.
Inductive typeset : list tok -> string -> Prop :=
| typeset_end g : gap g -> typeset [] g
| typeset_tok g w p t ts : gap g -> spelled t w = true -> delimiter w || breaks p = true -> typeset ts p -> typeset (t :: ts) (g +:+ w +:+ p).
End layout.

(** A plain way to write a token. *)
Definition written (t : tok) : string :=
  match t with
  | tok_BraceClose => "}" | tok_BraceOpen => "{" | tok_Comma => "," | tok_Const => "const" | tok_Enum => "enum" | tok_Equal => "="
  | tok_Extern => "extern" | tok_Number n => pretty n | tok_Int8 => "int8_t" | tok_Int16 => "int16_t" | tok_Int32 => "int32_t"
  | tok_Int64 => "int64_t" | tok_UInt8 => "uint8_t" | tok_UInt16 => "uint16_t" | tok_UInt32 => "uint32_t" | tok_UInt64 => "uint64_t"
  | tok_ParClose => ")" | tok_ParOpen => "(" | tok_Pointer => "*" | tok_SemiColon => ";" | tok_String s => s | tok_Struct => "struct"
  | tok_SquareBracketOpen => "[" | tok_SquareBracketClose => "]" | tok_Void => "void"
  | tok_End | tok_Error | tok_Reserved | tok_ReservedCXX | tok_ReservedType => ""
  end.
Fixpoint print (ts : list tok) : string := match ts with [] => "" | t :: ts => written t +:+ " " +:+ print ts end.

(** ** Characters *)

Lemma app_nil_str s : s +:+ "" = s.
Proof. induction s as [|c s IH]; [done|]. change (String.String c (s +:+ "") = String.String c s). by rewrite IH. Qed.
Lemma app_assoc_str (s t u : string) : (s +:+ t) +:+ u = s +:+ t +:+ u.
Proof. induction s as [|c s IH]; [done|]. change (String.String c ((s +:+ t) +:+ u) = String.String c (s +:+ t +:+ u)). by rewrite IH. Qed.
Lemma app_length_str s t : String.length (s +:+ t) = (String.length s + String.length t)%nat.
Proof. induction s as [|c s IH]; [done|]. change (S (String.length (s +:+ t)) = S (String.length s + String.length t)). by rewrite IH. Qed.
Lemma cons_app_str c s t : String.String c s +:+ t = String.String c (s +:+ t).
Proof. done. Qed.
Lemma all_ascii (P : ascii -> bool) : forallb P (map (fun n => ascii_of_nat n) (seq 0 256)) = true -> forall c, P c = true.
Proof.
  intros H c. rewrite forallb_forall in H. apply H. apply in_map_iff. exists (nat_of_ascii c). split; [apply ascii_nat_embedding|].
  apply in_seq. pose proof (nat_ascii_bounded c). lia.
Qed.
Definition starts_word (c : ascii) : bool := negb (isspace c) && negb (Ascii.eqb c "/"%char) && negb (Ascii.eqb c "#"%char) && bool_decide (delimiters c = None).
Lemma name_char_class c : name_char c = true -> starts_word c = true /\ Ascii.eqb c "-"%char = false.
Proof.
  intros H. assert (implb (name_char c) (starts_word c && negb (Ascii.eqb c "-"%char)) = true) as H1 by (revert c H; intros c _; revert c; by apply all_ascii).
  rewrite H in H1. cbn [implb] in H1. apply andb_true_iff in H1 as [H1 H2]. by apply negb_true_iff in H2.
Qed.
Lemma delimiter_class c k : delimiters c = Some k -> isspace c = false /\ Ascii.eqb c "/"%char = false /\ Ascii.eqb c "#"%char = false.
Proof. destruct c as [[] [] [] [] [] [] [] []]; by intros [= <-]. Qed.
Lemma digit_name c : isdigit c = true -> name_char c = true.
Proof. unfold name_char, isalnum. by intros ->. Qed.

(** ** The lexer on layouts *)

Lemma end_of_comment_app p q : forall r, end_of_comment p = Some r -> end_of_comment (p +:+ q) = Some (r +:+ q).
Proof.
  induction p as [|c p IH]; intros r; [done|]. rewrite cons_app_str.
  destruct (Ascii.eqb_spec c "*"%char) as [->|Hc].
  - destruct p as [|d p]; [done|]. destruct (Ascii.eqb_spec d "/"%char) as [->|Hd]; [by intros [= <-]|].
    assert (forall x, end_of_comment (String.String "*" (String.String d x)) = end_of_comment (String.String d x)) as E
      by (intros x; destruct d as [[] [] [] [] [] [] [] []]; first [reflexivity|by destruct Hd]).
    rewrite cons_app_str, !E, <- cons_app_str. apply IH.
  - assert (forall x, end_of_comment (String.String c x) = end_of_comment x) as E
      by (intros x; destruct c as [[] [] [] [] [] [] [] []]; first [reflexivity|by destruct Hc]).
    rewrite !E. apply IH.
Qed.
Lemma end_of_line_app b q : end_of_line (b +:+ newline) = "" -> end_of_line (b +:+ newline +:+ q) = q.
Proof.
  induction b as [|c b IH]; [done|]. rewrite !cons_app_str. cbn [end_of_line]. destruct (Ascii.eqb c _); [|exact IH].
  intros E. by destruct b.
Qed.
Lemma gap_app g g' : gap g -> gap g' -> gap (g +:+ g').
Proof.
  intros H H'. induction H as [|c w Hc H IH|b w Hb H IH|b w Hb H IH]; [done|..].
  - rewrite cons_app_str. by constructor.
  - rewrite !app_assoc_str. by constructor.
  - rewrite !app_assoc_str. by constructor.
Qed.

Section lexes.
Context (lang_keywords : string -> option tok) (AddIncludeFile : string -> option string).
Abbreviation Lex_from := (Lex_from lang_keywords AddIncludeFile).

Lemma skip_spaces_gap g p : gap g -> skip_spaces p = p -> exists g', gap g' /\ skip_spaces (g +:+ p) = g' +:+ p /\ (String.length g' <= String.length g)%nat.
Proof.
  intros H Hp. induction H as [|c w Hc H IH|b w Hb H IH|b w Hb H IH].
  - exists "". split; [constructor|]. by split.
  - destruct IH as (g' & H1 & H2 & H3). exists g'. rewrite cons_app_str. cbn [skip_spaces String.length]. rewrite Hc. split; [done|]. split; [done|lia].
  - eexists. split; [by apply (gap_block b w)|]. by split.
  - eexists. split; [by apply (gap_line b w)|]. by split.
Qed.
(** Over blanks and comments, with a step for each character at most. *)
Lemma Lex_gap n : forall g p k s, gap g -> skip_spaces p = p -> (String.length g <= n)%nat ->
  exists j q1 q2, Lex_from (n + k) (g +:+ p) s = Lex_from (j + k) p (at_ q1 (last_ q2 s)).
Proof.
  induction n as [|n IH]; intros g p k s H Hp Hn.
  { destruct g; [|cbn in Hn; lia]. exists 0%nat, (TokStart s), (LastTokStart s). by destruct s. }
  destruct H as [|c w Hc H|b w Hb H|b w Hb H].
  - exists (S n), (TokStart s), (LastTokStart s). by destruct s.
  - cbn [String.length] in Hn. rewrite cons_app_str. cbn [Nat.add IfaceLexer.Lex_from]. rewrite Hc.
    destruct (skip_spaces_gap w p H Hp) as (g' & Hg' & -> & Hl). apply IH; [done|done|lia].
  - rewrite !app_assoc_str. cbn [Nat.add]. change ("/*" +:+ b +:+ "*/" +:+ w +:+ p) with (String.String "/" (String.String "*" (b +:+ "*/" +:+ w +:+ p))).
    cbn [IfaceLexer.Lex_from]. replace (isspace "/") with false by reflexivity. cbv zeta. change (Ascii.eqb "/" "/"%char) with true. cbv iota.
    cbn [LexComment]. rewrite <- (app_assoc_str b). rewrite (end_of_comment_app _ (w +:+ p) _ Hb).
    rewrite !app_length_str in Hn. cbn [String.length] in Hn.
    destruct (IH w p k (at_ (String.String "/" (String.String "*" ((b +:+ "*/") +:+ w +:+ p))) (last_ (String.String "/" (String.String "*" ((b +:+ "*/") +:+ w +:+ p))) s)))
      as (j & q1 & q2 & E); [done|done|lia|]. exists j, q1, q2. exact E.
  - rewrite !app_assoc_str. cbn [Nat.add]. change ("//" +:+ b +:+ newline +:+ w +:+ p) with (String.String "/" (String.String "/" (b +:+ newline +:+ w +:+ p))).
    cbn [IfaceLexer.Lex_from]. replace (isspace "/") with false by reflexivity. cbv zeta. change (Ascii.eqb "/" "/"%char) with true. cbv iota.
    cbn [LexComment]. rewrite (end_of_line_app b (w +:+ p) Hb). rewrite !app_length_str in Hn. cbn [String.length] in Hn.
    destruct (IH w p k (at_ (String.String "/" (String.String "/" (b +:+ newline +:+ w +:+ p))) (last_ (String.String "/" (String.String "/" (b +:+ newline +:+ w +:+ p))) s)))
      as (j & q1 & q2 & E); [done|done|lia|]. exists j, q1, q2. exact E.
Qed.

Lemma identifier_name w p : all_chars name_char w = true -> breaks p = true -> identifier (w +:+ p) = Some (w, p).
Proof.
  induction w as [|c w IH]; intros Hw Hp.
  - change ("" +:+ p) with p. destruct p as [|c p]; [done|]. cbn [identifier breaks] in *. by rewrite Hp.
  - cbn [all_chars] in Hw. apply andb_true_iff in Hw as [Hc Hw]. rewrite cons_app_str. cbn [identifier].
    destruct (name_char_class c Hc) as [H1 _]. unfold starts_word in H1. repeat (apply andb_true_iff in H1 as [H1 ?]). apply negb_true_iff in H1. rewrite H1.
    match goal with H : bool_decide _ = true |- _ => apply bool_decide_eq_true in H; rewrite H end. cbn [orb].
    rewrite bool_decide_false by (by intros [? ?]). unfold name_char in Hc. rewrite Hc. by rewrite (IH Hw Hp).
Qed.
Lemma digit_range c : isdigit c = true -> 0 <= Z.of_N (N_of_ascii c) - 48 <= 9.
Proof.
  unfold isdigit, in_range. rewrite andb_true_iff. intros [H1 H2]. apply N.leb_le in H1, H2. lia.
Qed.
Lemma decimal_grows w : forall n, all_chars isdigit w = true -> 0 <= n -> n <= decimal n w.
Proof.
  induction w as [|c w IH]; intros n Hw Hn; cbn [decimal]; [lia|]. cbn [all_chars] in Hw. apply andb_true_iff in Hw as [Hc Hw].
  pose proof (digit_range c Hc). specialize (IH (n * 10 + (Z.of_N (N_of_ascii c) - 48)) Hw ltac:(lia)). lia.
Qed.
Lemma breaks_digits n p : breaks p = true -> digits n p = (n, p).
Proof.
  destruct p as [|c p]; [done|]. cbn [breaks digits]. intros H. destruct (isdigit c) eqn:E; [|done]. exfalso.
  destruct (name_char_class c (digit_name c E)) as [H1 _]. unfold starts_word in H1. repeat (apply andb_true_iff in H1 as [H1 ?]).
  apply negb_true_iff in H1. rewrite H1 in H. cbn [orb] in H. apply bool_decide_eq_true in H as [k Hk].
  match goal with H : bool_decide _ = true |- _ => apply bool_decide_eq_true in H; congruence end.
Qed.
Lemma digits_decimal w p : forall n, all_chars isdigit w = true -> breaks p = true -> 0 <= n -> decimal n w < 2 ^ 63 ->
  digits n (w +:+ p) = (decimal n w, p).
Proof.
  induction w as [|c w IH]; intros n Hw Hp Hn Hd; [by apply breaks_digits|]. cbn [all_chars] in Hw. apply andb_true_iff in Hw as [Hc Hw].
  rewrite cons_app_str. cbn [digits decimal] in *. rewrite Hc. pose proof (digit_range c Hc).
  pose proof (decimal_grows w (n * 10 + (Z.of_N (N_of_ascii c) - 48)) Hw ltac:(lia)).
  unfold u64. rewrite (wrap_small 64 (n * 10)), wrap_small by (unfold in_u; lia). apply IH; [done|done|lia|done].
Qed.
Lemma Lex_first_word f c p s : starts_word c = true -> Lex_from (S f) (String.String c p) s =
  let s := at_ (String.String c p) (last_ (String.String c p) s) in
  if isdigit c || Ascii.eqb c "-"%char then let '(n, r) := LexNumber (String.String c p) in Done (tok_Number n, at_ r s)
  else Done (word lang_keywords s).
Proof.
  unfold starts_word. intros H. apply andb_true_iff in H as [H H4]. apply andb_true_iff in H as [H H3]. apply andb_true_iff in H as [H1 H2].
  apply negb_true_iff in H1, H2, H3. apply bool_decide_eq_true in H4. cbn [IfaceLexer.Lex_from]. by rewrite H1, H2, H3, H4.
Qed.
Lemma word_name s w p : TokStart s = w +:+ p -> is_name w = true -> breaks p = true -> word lang_keywords s =
  match keyword lang_keywords w with
  | Some tok_ReservedType => printError "Using this type is not allowed (use a fixed-width integer type instead)!" (at_ p s)
  | Some tok_Reserved => printError "Using C/C99/GNUC/MSC keywords is not allowed!" (at_ p s)
  | Some tok_ReservedCXX => printError "Using C++/C++0x keywords is not allowed!" (at_ p s)
  | Some k => (k, at_ p s)
  | None => (tok_String w, at_ p s)
  end.
Proof.
  intros E Hw Hp. unfold word, LexIdentifier. rewrite E. destruct w as [|c w]; [done|]. cbn [is_name] in Hw. apply andb_true_iff in Hw as [Hd Hw].
  apply negb_true_iff in Hd. rewrite cons_app_str, Hd, <- cons_app_str, (identifier_name _ p Hw Hp). by destruct (keyword _ _).
Qed.
Lemma LexNumber_decimal w p : is_number w = true -> breaks p = true -> decimal 0 w < 2 ^ 63 -> LexNumber (w +:+ p) = (decimal 0 w, p).
Proof.
  intros Hw Hp Hd. assert (Hall : all_chars isdigit w = true) by (by destruct w). destruct w as [|c w]; [done|].
  pose proof (digits_decimal (String.String c w) p 0 Hall Hp ltac:(done) Hd) as E. pose proof (decimal_grows (String.String c w) 0 Hall ltac:(done)) as Hn.
  cbn [all_chars] in Hall. apply andb_true_iff in Hall as [Hc _].
  assert (LexNumber (String.String c w +:+ p) = let '(n, p) := digits 0 (String.String c w +:+ p) in (swrap 64 n, p)) as ->.
  { rewrite cons_app_str. unfold LexNumber. destruct c as [[] [] [] [] [] [] [] []]; first [reflexivity|discriminate Hc]. }
  rewrite E. f_equal. clear E. generalize dependent (decimal 0 (String.String c w)). intros v Hd Hv. cint.
Qed.
Lemma spelled_start t w p : spelled lang_keywords t w = true -> skip_spaces (w +:+ p) = w +:+ p /\ w <> "".
Proof.
  intros H. assert (exists c w', w = String.String c w' /\ isspace c = false) as (c & w' & -> & Hc).
  { assert (is_name w = true -> exists c w', w = String.String c w' /\ isspace c = false) as Hn.
    { destruct w as [|c w]; [done|]. intros Hw. exists c, w. split; [done|]. cbn [is_name all_chars] in Hw. apply andb_true_iff in Hw as [_ Hw].
      apply andb_true_iff in Hw as [Hw _]. apply name_char_class in Hw as [Hw _]. unfold starts_word in Hw. repeat (apply andb_true_iff in Hw as [Hw _]).
      by apply negb_true_iff in Hw. }
    unfold spelled in H. destruct t;
      try (apply Hn; repeat (apply andb_true_iff in H as [H _]); done);
      try (destruct w as [|c [|]]; [done| |done]; apply bool_decide_eq_true, delimiter_class in H as (H & _); by do 2 eexists).
    apply andb_true_iff in H as [H _]. apply andb_true_iff in H as [H _]. destruct w as [|c w]; [done|]. exists c, w. split; [done|].
    cbn [is_number all_chars] in H. apply andb_true_iff in H as [H _]. apply digit_name, name_char_class in H as [H _]. unfold starts_word in H.
    repeat (apply andb_true_iff in H as [H _]). by apply negb_true_iff in H. }
  split; [|done]. rewrite cons_app_str. cbn [skip_spaces]. by rewrite Hc.
Qed.
Lemma is_name_start w : is_name w = true -> exists c w', w = String.String c w' /\ starts_word c = true /\ isdigit c || Ascii.eqb c "-"%char = false.
Proof.
  destruct w as [|c w]; [done|]. cbn [is_name all_chars]. rewrite !andb_true_iff, negb_true_iff. intros (H1 & H2 & _). exists c, w. split; [done|].
  destruct (name_char_class c H2) as [H3 ->]. by rewrite H1.
Qed.
Lemma Lex_spelled f t w p s : spelled lang_keywords t w = true -> delimiter w || breaks p = true ->
  Lex_from (S f) (w +:+ p) s = Done (t, at_ p (last_ (w +:+ p) s)).
Proof.
  intros H Hd.
  assert (Hdelim : match w with String.String c "" => bool_decide (delimiters c = Some t) | _ => false end = true ->
    Lex_from (S f) (w +:+ p) s = Done (t, at_ p (last_ (w +:+ p) s))).
  { destruct w as [|c [|]]; try done. intros Hk%bool_decide_eq_true. destruct (delimiter_class c t Hk) as (H1 & H2 & H3).
    rewrite cons_app_str. cbn [IfaceLexer.Lex_from]. by rewrite H1, H2, H3, Hk. }
  assert (Hname : is_name w = true -> breaks p = true /\ exists c w', w = String.String c w' /\ starts_word c = true /\ isdigit c || Ascii.eqb c "-"%char = false).
  { intros Hw. destruct (is_name_start w Hw) as (c & w' & -> & H1 & H2). split; [|by exists c, w'].
    assert (delimiter (String.String c w') = false) as E; [|by rewrite E in Hd].
    unfold delimiter. destruct w'; [|done]. apply bool_decide_eq_false. unfold starts_word in H1. apply andb_true_iff in H1 as [_ H1].
    apply bool_decide_eq_true in H1. rewrite H1. by intros [? ?]. }
  assert (Hword : is_name w = true -> forall k, word lang_keywords (at_ (w +:+ p) (last_ (w +:+ p) s)) = k -> Lex_from (S f) (w +:+ p) s = Done k).
  { intros Hw k <-. destruct (Hname Hw) as (Hp & c & w' & -> & H1 & H2). rewrite cons_app_str, Lex_first_word by done. by rewrite H2. }
  unfold spelled in H. destruct t; try (by apply Hdelim);
    try (apply andb_true_iff in H as [Hw H]; apply bool_decide_eq_true in H; destruct (Hname Hw) as [Hp _]; apply (Hword Hw);
         by rewrite (word_name (at_ (w +:+ p) (last_ (w +:+ p) s)) w p eq_refl Hw Hp), H).
  - apply andb_true_iff in H as [H H3]. apply andb_true_iff in H as [H1 H2]. apply Z.eqb_eq in H2. apply Z.ltb_lt in H3. subst n.
    assert (exists c w', w = String.String c w' /\ isdigit c = true) as (c & w' & -> & Hc).
    { destruct w as [|c w]; [done|]. exists c, w. split; [done|]. cbn [is_number all_chars] in H1. by apply andb_true_iff in H1 as [H1 _]. }
    destruct (name_char_class c (digit_name c Hc)) as [Hs Hm].
    assert (breaks p = true) as Hp.
    { assert (delimiter (String.String c w') = false) as E; [|by rewrite E in Hd]. unfold delimiter. destruct w'; [|done].
      apply bool_decide_eq_false. unfold starts_word in Hs. apply andb_true_iff in Hs as [_ Hs]. apply bool_decide_eq_true in Hs. rewrite Hs. by intros [? ?]. }
    rewrite cons_app_str, Lex_first_word by done. rewrite Hc, Hm. cbn [orb]. rewrite <- cons_app_str, (LexNumber_decimal _ p H1 Hp H3). reflexivity.
  - apply andb_true_iff in H as [H H4]. apply andb_true_iff in H as [H H3]. apply andb_true_iff in H as [Hw H2].
    apply String.eqb_eq in H2 as ->. apply bool_decide_eq_true in H3. destruct (Hname Hw) as [Hp _]. apply (Hword Hw).
    by rewrite (word_name (at_ (w +:+ p) (last_ (w +:+ p) s)) w p eq_refl Hw Hp), H3.
Qed.
(** A token behind blanks and comments is read. *)
Lemma layout_reads fuel s g w p t : TokStart s = g +:+ w +:+ p -> gap g -> spelled lang_keywords t w = true -> delimiter w || breaks p = true ->
  (String.length g < fuel)%nat -> reads lang_keywords AddIncludeFile fuel s t (at_ p (last_ (w +:+ p) s)).
Proof.
  intros E Hg Ht Hd Hf. destruct (spelled_start t w p Ht) as [Hsk Hw].
  assert (HL : forall s0, TokStart s0 = g +:+ w +:+ p -> Lex lang_keywords AddIncludeFile fuel s0 = Done (t, at_ p (last_ (w +:+ p) s0))).
  { intros s0 E0. unfold Lex. rewrite E0. replace fuel with ((fuel - 1) + 1)%nat by lia.
    destruct (Lex_gap (fuel - 1) g (w +:+ p) 1 s0 Hg Hsk ltac:(lia)) as (j & q1 & q2 & ->). rewrite Nat.add_1_r. by rewrite (Lex_spelled j t w p _ Ht Hd). }
  split; [|intros n _; by apply HL]. unfold LexToken. rewrite HL by done. cbn [obind].
  assert (String.eqb (LastTokStart (at_ p (last_ (w +:+ p) (last_ (TokStart s) s)))) (TokStart (at_ p (last_ (w +:+ p) (last_ (TokStart s) s)))) = false) as ->.
  { cbn [LastTokStart TokStart at_ last_]. apply String.eqb_neq. intros El. apply (f_equal String.length) in El. rewrite app_length_str in El.
    destruct w; [done|]. cbn [String.length] in El. lia. }
  destruct t as [| | | | | | | | | | | | | | | | | | | | | | | | | x | | | |]; try done; try (by destruct fuel). cbn [spelled] in Ht.
  apply andb_true_iff in Ht as [Ht Hm]. apply andb_true_iff in Ht as [Ht _]. apply andb_true_iff in Ht as [_ Ht].
  apply String.eqb_eq in Ht as ->. apply bool_decide_eq_true in Hm. destruct fuel; cbn [drop_macros]; by rewrite Hm.
Qed.
Lemma layout_ends fuel s g : TokStart s = g -> gap g -> (String.length g < fuel)%nat ->
  exists q1 q2, LexToken lang_keywords AddIncludeFile fuel s = Done (tok_End, at_ q1 (last_ q2 s)).
Proof.
  intros E Hg Hf. destruct (Lex_gap (fuel - 1) g "" 1 (last_ (TokStart s) s) Hg eq_refl ltac:(lia)) as (j & q1 & q2 & H).
  exists q1, q2. unfold LexToken, Lex. change (TokStart (last_ (TokStart s) s)) with (TokStart s). rewrite E in *. rewrite app_nil_str in H.
  replace fuel with ((fuel - 1) + 1)%nat by lia. rewrite H, Nat.add_1_r. done.
Qed.
End lexes.

(** ** Texts of declarations *)

Definition tokens (ds : list (list enumeration * decl)) : list tok := flat_map (fun d => flat_map enum_tokens (fst d) ++ decl_tokens (snd d)) ds.
(** The bodies of enumerations, which are skipped, end with their brace. *)
Definition closed (ds : list (list enumeration * decl)) : Prop := Forall (fun d => Forall (fun e => Forall body_ok (e_body e)) (fst d)) ds.

Section texts.
Context (lang_keywords : string -> option tok) (AddIncludeFile : string -> option string) (fuel : nat).

Lemma typeset_streams ts1 : forall ts2 s, typeset lang_keywords (ts1 ++ ts2) (TokStart s) -> (String.length (TokStart s) < fuel)%nat ->
  exists p q, streams lang_keywords AddIncludeFile fuel s ts1 (at_ p (last_ q s)) /\ typeset lang_keywords ts2 p /\
    (String.length p + length ts1 <= String.length (TokStart s))%nat.
Proof.
  induction ts1 as [|t ts1 IH]; intros ts2 s H Hf.
  - exists (TokStart s), (LastTokStart s). split; [by destruct s|]. split; [done|]. cbn [length]. lia.
  - cbn [app] in H. inversion H as [|g w p t' ts' Hg Ht Hd Hp E1 E2]; subst. destruct (spelled_start _ t w p Ht) as [_ Hw].
    rewrite <- E2 in Hf. rewrite !app_length_str in Hf. assert (1 <= String.length w)%nat by (destruct w; [done|cbn; lia]).
    pose proof (layout_reads lang_keywords AddIncludeFile fuel s g w p t (eq_sym E2) Hg Ht Hd ltac:(lia)) as Hr.
    destruct (IH ts2 (at_ p (last_ (w +:+ p) s)) Hp) as (p2 & q & H1 & H2 & H3); [cbn [TokStart at_]; lia|]. cbn [TokStart at_] in H3.
    exists p2, q. split; [by exists (at_ p (last_ (w +:+ p) s))|]. split; [done|]. rewrite !app_length_str. cbn [length]. lia.
Qed.
Lemma typeset_spells ds : forall s, Locs s = [] -> Ifs s = [] -> closed ds -> typeset lang_keywords (tokens ds) (TokStart s) ->
  (String.length (TokStart s) < fuel)%nat ->
  exists k l, spells lang_keywords AddIncludeFile fuel k s ds l /\ (k <= String.length (TokStart s))%nat.
Proof.
  induction ds as [|[es d] ds IH]; intros s HL HI Hc H Hf.
  - inversion H as [g Hg E1 E2|]; subst. destruct (layout_ends lang_keywords AddIncludeFile fuel s (TokStart s) eq_refl Hg Hf) as (q1 & q2 & E).
    exists 0%nat, (at_ q1 (last_ q2 s)). split; [by constructor|lia].
  - apply Forall_cons in Hc as [Hc1 Hc]. cbn [tokens flat_map fst snd] in H. apply typeset_streams in H as (p & q & H1 & H2 & H3); [|done].
    destruct (IH (at_ p (last_ q s))) as (k & l & Hk & Hl); [done..|cbn [TokStart at_]; lia|]. cbn [TokStart at_] in Hl.
    eexists _, l. split; [by eapply spells_decl|]. lia.
Qed.
(** C33: However declarations are laid out, with blanks and comments anywhere
    between their tokens, any parameter names and enumerations among them, the
    interface generator accepts the text and keeps just what they declare: the
    structures with their fields, the globals, and the functions in order, each
    with its type and the flags of its types. The declarations must be ones the
    generator allows, which [declare_all] decides from their content alone: each
    structure is defined once, from fields other than void; each global and function
    is declared once, globals and only they with the prefix __clambc_; integers have
    8, 16, 32 or 64 bits and array sizes 1 to 2^32 - 1; globals and returned types
    have at most one star; functions have at most five parameters, integers or
    pointers, and return an integer or an i8* - not void ([void_function_refused]);
    and the layout check accepts the type of each global and what each parameter
    points to. Fuel for a few steps more than the characters is enough. *)
Theorem parse_layout ds text a : closed ds -> typeset lang_keywords (tokens ds) text -> declare_all no_api ds = Some a ->
  (10 + String.length text < fuel)%nat ->
  exists s, parse lang_keywords AddIncludeFile fuel text = Done (true, s) /\
    namedTypes s = a_named a /\ globals s = a_globals a /\ functions s = a_functions a.
Proof.
  intros Hc H Ha Hf. destruct (typeset_spells ds (initial text) eq_refl eq_refl Hc H) as (k & l & Hk & Hl); [cbn [TokStart initial]; lia|].
  cbn [TokStart initial] in Hl. destruct (parse_declares _ _ _ text k ds l a Hk Ha) as (s & E & _ & H1 & H2 & H3); [lia|]. by exists s.
Qed.

(** ** The repository's header *)

(** C places the qualifier of an array on its elements. *)
Fixpoint qualify (t : ctype) : ctype := match t with CArr n t => CArr n (qualify t) | t => CConst t end.
Definition declarator (t : ctype) : ctype := match t with CConst t => qualify t | t => t end.
Definition header_tags : list string :=
  ["cli_exe_section"; "pe_image_file_hdr"; "pe_image_data_dir"; "pe_image_optional_hdr32"; "pe_image_optional_hdr64";
   "pe_image_section_hdr"; "pe_certificate_hdr"; "cli_pe_hook_data"; "DISASM_RESULT"; "cli_environment"].
(** The declarations of bytecode_api.h and the files it includes; [names]: the
    names of the parameters. *)
Definition header_decls (names : prototype -> list (option string)) : list decl :=
  map (fun tag => DStruct tag (struct_fields tag)) header_tags ++
  map (fun g => DGlobal (negb (String.eqb (fst g) "__clambc_kind")) (fst g) (declarator (snd g))) api_globals ++
  map (fun p => DProto p (names p)) api_functions.
Fixpoint declare_list (a : api) (ds : list decl) : option api := match ds with [] => Some a | d :: ds => a ← declare a d; declare_list a ds end.
Lemma declare_all_list ds : forall a, declare_all a ds = declare_list a (map snd ds).
Proof. induction ds as [|d ds IH]; intros a; [done|]. cbn [declare_all map declare_list]. destruct (declare a (snd d)); [apply IH|done]. Qed.
Definition make_tables (m : gmap string (option (list ltype))) (globals : list (string * ltype)) (fns : list function) : option tables :=
  output (members m) 2000 fns (omap (fun g => t ← Enums.assoc g globals; Some (g, t)) global_order).
Definition all_tables (o : tables) := (o_protos o, o_globals o, o_tmp o, o_types o, (o_calls o, o_apicalls o)).
Lemma all_tables_spec o p g t y c d : all_tables o = (p, g, t, y, (c, d)) ->
  o_protos o = p /\ o_globals o = g /\ o_tmp o = t /\ o_types o = y /\ o_calls o = c /\ o_apicalls o = d.
Proof. unfold all_tables. by intros [= -> -> -> -> -> ->]. Qed.
Lemma header_tables_computed names :
  (a ← declare_list no_api (header_decls names); all_tables <$> make_tables (a_named a) (a_globals a) (a_functions a)) =
  Some (bcapi_protos, cli_globals, cli_tmp, cli_apicall_types, (cli_apicalls, cli_apicalls_tables)).
Proof. vm_cast_no_check (eq_refl (Some (bcapi_protos, cli_globals, cli_tmp, cli_apicall_types, (cli_apicalls, cli_apicalls_tables)))). Qed.
Lemma header_tables names : exists a o, declare_list no_api (header_decls names) = Some a /\
  make_tables (a_named a) (a_globals a) (a_functions a) = Some o /\
  o_protos o = bcapi_protos /\ o_globals o = cli_globals /\ o_tmp o = cli_tmp /\ o_types o = cli_apicall_types /\
  o_calls o = cli_apicalls /\ o_apicalls o = cli_apicalls_tables.
Proof.
  pose proof (header_tables_computed names) as H. apply bind_Some in H as (a & Ha & H). apply fmap_Some in H as (o & Ho & H).
  exists a, o. split; [exact Ha|]. split; [exact Ho|]. apply all_tables_spec. symmetry. exact H.
Qed.
(** C32: From the text of the declarations of bytecode_api.h to the tables: in
    whatever layout the structures, globals and functions of the repository's
    header are written, the generator accepts the text, and the tables it makes of
    what it has read are those checked in as bytecode_api_decl.c.h. *)
Theorem header_text_to_tables names ds text : map snd ds = header_decls names -> closed ds -> typeset lang_keywords (tokens ds) text ->
  (10 + String.length text < fuel)%nat ->
  exists s o, parse lang_keywords AddIncludeFile fuel text = Done (true, s) /\
    make_tables (namedTypes s) (globals s) (functions s) = Some o /\
    o_protos o = bcapi_protos /\ o_globals o = cli_globals /\ o_tmp o = cli_tmp /\ o_types o = cli_apicall_types /\
    o_calls o = cli_apicalls /\ o_apicalls o = cli_apicalls_tables.
Proof.
  intros Hd Hc H Hf. destruct (header_tables names) as (a & o & Ha & Ho). rewrite <- Hd, <- declare_all_list in Ha.
  destruct (typeset_spells ds (initial text) eq_refl eq_refl Hc H) as (k & l & Hk & Hl); [cbn [TokStart initial]; lia|].
  cbn [TokStart initial] in Hl. destruct (parse_declares _ _ _ text k ds l a Hk Ha) as (s & E & _ & H1 & H2 & H3); [lia|].
  exists s, o. split; [done|]. by rewrite H1, H2, H3.
Qed.
End texts.

(** ** Texts written plainly *)

Lemma print_typeset lang_keywords ts : forallb (fun t => spelled lang_keywords t (written t)) ts = true ->
  forall g, gap g -> typeset lang_keywords ts (g +:+ print ts).
Proof.
  induction ts as [|t ts IH]; intros H g Hg; cbn [print forallb] in *; [rewrite app_nil_str; by constructor|].
  apply andb_true_iff in H as [Ht H]. constructor; [done|done|by rewrite orb_true_r|]. apply (IH H " "). by repeat constructor.
Qed.
(** Some of clang's keywords. *)
Definition c_keywords (s : string) : option tok :=
  if existsb (String.eqb s) ["auto"; "break"; "case"; "char"; "do"; "else"; "for"; "goto"; "if"; "inline"; "return"; "sizeof"; "static";
                             "switch"; "typedef"; "union"; "volatile"; "while"] then Some tok_Reserved
  else if existsb (String.eqb s) ["class"; "delete"; "namespace"; "new"; "this"; "try"] then Some tok_ReservedCXX else None.
Definition demo_decls : list (list enumeration * decl) := [
  ([{| e_name := Some "kind"; e_body := [tok_String "A"; tok_Equal; tok_Number 256; tok_Comma; tok_String "B"] |}],
   DStruct "point" [("x", CUInt 32); ("y", CInt 32); ("tag", CArr 4 (CUInt 8))]);
  ([], DGlobal true "__clambc_sizes" (CArr 2 (CArr 3 (CConst (CUInt 16)))));
  ([], DProto (Proto "walk" (CInt 32) [CPtr (CStruct "point"); CPtr (CConst (CUInt 8)); CUInt 32]) [Some "p"; None; Some "len"]) ].
Definition demo_gap : string := "/* a demo * */ // of layout" +:+ newline.
Lemma demo_gap_ok : gap demo_gap.
Proof.
  apply (gap_block " a demo * " (" // of layout" +:+ newline)); [reflexivity|]. apply gap_space; [reflexivity|].
  apply (gap_line " of layout" ""); [reflexivity|constructor].
Qed.
Definition demo_api : option api := declare_all no_api demo_decls.
Lemma demo_closed : closed demo_decls.
Proof. repeat constructor; done. Qed.
Definition demo_text : string := demo_gap +:+ print (tokens demo_decls).
Lemma parse_layout_witness : exists s, parse c_keywords (fun _ => None) 1000 demo_text = Done (true, s) /\
  map f_name (functions s) = ["walk"] /\ globals s = [("__clambc_sizes", TArr 2 (TArr 3 (TInt 16)))] /\
  namedTypes s !! "point" = Some (Some [TInt 32; TInt 32; TArr 4 (TInt 8)]).
Proof.
  destruct (parse_layout c_keywords (fun _ => None) 1000 demo_decls demo_text
    {| a_named := {["point" := Some [TInt 32; TInt 32; TArr 4 (TInt 8)]]};
       a_globals := [("__clambc_sizes", TArr 2 (TArr 3 (TInt 16)))];
       a_functions := [Fn "walk" (TFun (TInt 32) [TPtr (TStruct "point"); TPtr (TInt 8); TInt 32]) [Flags false true; Flags false false; Flags true false; Flags false false]] |})
    as (s & E & H1 & H2 & H3).
  - exact demo_closed.
  - apply print_typeset; [vm_compute; reflexivity|exact demo_gap_ok].
  - vm_compute. reflexivity.
  - apply Nat.ltb_lt. vm_compute. reflexivity.
  - exists s. rewrite E, H1, H2, H3. repeat split; reflexivity.
Defined.

Definition header_enum : enumeration := {| e_name := Some "BytecodeKind"; e_body := [tok_String "BC_GENERIC"; tok_Equal; tok_Number 0] |}.
Definition header_rows : list (list enumeration * decl) :=
  match header_decls (fun _ => [Some "a"]) with [] => [] | d :: ds => ([header_enum], d) :: map (fun d => ([], d)) ds end.
Definition header_text : string := demo_gap +:+ print (tokens header_rows).
Lemma header_rows_closed : closed header_rows.
Proof.
  unfold header_rows. destruct (header_decls _) as [|d ds]; constructor; [by repeat constructor|]. apply Forall_forall.
  intros x (d' & -> & _)%list_elem_of_fmap. constructor.
Qed.
Lemma header_text_to_tables_witness : exists s o, parse c_keywords (fun _ => None) (11 + String.length header_text) header_text = Done (true, s) /\
  make_tables (namedTypes s) (globals s) (functions s) = Some o /\ o_calls o = cli_apicalls.
Proof.
  destruct (header_text_to_tables c_keywords (fun _ => None) (11 + String.length header_text) (fun _ => [Some "a"]) header_rows header_text)
    as (s & o & E & Ho & _ & _ & _ & _ & H & _).
  - reflexivity.
  - exact header_rows_closed.
  - apply print_typeset; [vm_compute; reflexivity|exact demo_gap_ok].
  - apply Nat.lt_succ_diag_r.
  - exists s, o. split; [exact E|]. split; [exact Ho|exact H].
Defined.

(** ** What the generator does not take, or takes *)

Definition read_text (text : string) : outcome (bool * list string) :=
  let* (ok, s) := parse c_keywords (fun _ => None) 200 text in Done (ok, messages (lex s)).
Definition read_globals (text : string) : outcome (bool * list (string * ltype)) :=
  let* (ok, s) := parse c_keywords (fun _ => None) 200 text in Done (ok, globals s).
(** A pragma, which bytecode_api.h has, is no directive the lexer knows. *)
Lemma pragma_refused : read_text ("#pragma GCC diagnostic push" +:+ newline +:+ "int32_t f(uint32_t);") =
  Done (false, ["Type name expected"; "Unexpected preprocessor directive"]).
Proof. vm_compute. reflexivity. Qed.
(** An enumeration must be followed by another declaration. *)
Lemma last_enum_refused : read_text "enum a { X };" = Done (false, ["Type name expected, but EOF encountered"]).
Proof. vm_compute. reflexivity. Qed.
(** A conditional left open is reported, and the text still accepted. *)
Lemma open_conditional_accepted : read_text ("#ifdef __CLAMBC__" +:+ newline) = Done (true, ["Unterminated #if"]).
Proof. vm_compute. reflexivity. Qed.
(** The test for sizes that are too large misses those of 33 to 63 bits, which
    lose their upper bits. *)
Lemma array_size_truncated : read_globals "uint8_t __clambc_x[4294967297];" = Done (true, [("__clambc_x", TArr 1 (TInt 8))]).
Proof. vm_compute. reflexivity. Qed.
(** The prototype check lets a function return nothing, the layout check does
    not. *)
Lemma void_function_refused : read_text "void f(uint32_t x);" = Done (false, ["Function f has unaccepted parameters!"]).
Proof. vm_compute. reflexivity. Qed.
(** Behind #ifndef __CLAMBC__ at the end of the text the search for #endif
    starts after the text's end. *)
Lemma ifndef_overrun : read_text "#ifndef __CLAMBC__" = Undefined overrun.
Proof. vm_compute. reflexivity. Qed.
(** A number that C reads as octal is read as decimal. *)
Lemma octal_read_as_decimal : read_globals "uint8_t __clambc_x[010];" = Done (true, [("__clambc_x", TArr 10 (TInt 8))]).
Proof. vm_compute. reflexivity. Qed.
(** A structure defined twice trips an assertion instead of an error. *)
Lemma struct_redefined : read_text "struct a { uint32_t x; }; struct a { uint32_t y; };" = AssertFailed "cast<OpaqueType>".
Proof. vm_compute. reflexivity. Qed.
