(* ===== verification/IR.v ===== *)
(** * IR: LLVM IR as the back end reads it

    The functions, instructions and types the register allocator and the writer
    (RegAlloc.v, Writer.v) work on, with the operands they look at. A local
    value is known by its name, which LLVM keeps unique in a function; a block's
    phi nodes, its other instructions and its terminator, which LLVM keeps in
    this order in one list, are kept apart. *)
From S2P Require Import Prelude.
Local Open Scope string_scope.
Local Set Warnings "-register-all".
Local Open Scope Z_scope.

(** ** Types *)

(** [TyNamed] is an identified struct: its elements are the module's, none if
    it is opaque. [TyStruct] is a literal one. *)
Inductive ty :=
| TyVoid
| TyInt (w : Z)
| TyFloat
| TyPtr (t : ty)
| TyArr (n : Z) (t : ty)
| TyStruct (packed : bool) (fields : list ty)
| TyNamed (s : string)
| TyFun (ret : ty) (params : list ty) (vararg : bool).

Fixpoint ty_eq (a b : ty) {struct a} : {a = b} + {a <> b}.
Proof.
  decide equality; try apply Z.eq_dec; try apply Bool.bool_dec; try apply String.string_dec;
    apply (List.list_eq_dec ty_eq).
Defined.
#[export] Instance ty_eq_dec : EqDecision ty := ty_eq.

(** Induction on types, through the lists. *)
Lemma ty_induction (P : ty -> Prop) :
  P TyVoid -> (forall w, P (TyInt w)) -> P TyFloat -> (forall t, P t -> P (TyPtr t)) ->
  (forall n t, P t -> P (TyArr n t)) -> (forall packed l, Forall P l -> P (TyStruct packed l)) ->
  (forall s, P (TyNamed s)) -> (forall r l va, P r -> Forall P l -> P (TyFun r l va)) ->
  forall t, P t.
Proof.
  intros H1 H2 H3 H4 H5 H6 H7 H8. fix IH 1. intros [].
  - exact H1.
  - apply H2.
  - exact H3.
  - apply H4, IH.
  - apply H5, IH.
  - apply H6. induction fields as [|t l IHl]; constructor; [apply IH|exact IHl].
  - apply H7.
  - apply H8; [apply IH|]. induction params as [|t l IHl]; constructor; [apply IH|exact IHl].
Qed.

Definition is_pointer (t : ty) : bool := match t with TyPtr _ => true | _ => false end.
Definition is_function (t : ty) : bool := match t with TyFun _ _ _ => true | _ => false end.

(** Elements of the identified structs that have a body. *)
Definition structs : Type := gmap string (bool * list ty).

(** ** Values *)

Inductive constexpr := CE_GetElementPtr | CE_BitCast | CE_IntToPtr | CE_Other.

(** An argument or instruction; integer constants; global variables and
    functions; constant expressions; the null pointer; undefined values; zero,
    array and struct initializers ([ConstantDataSequential] is LLVM's packed
    form of arrays of numbers); floating point; inline assembly; any other
    constant. *)
Inductive Value :=
| Local (x : string) (t : ty)
| ConstantInt (w v : Z)
| GlobalVariable (g : string) (t : ty)
| FunctionValue (f : string) (t : ty)
| ConstantExpr (op : constexpr) (ops : list Value) (t : ty)
| ConstantPointerNull (t : ty)
| UndefValue (t : ty)
| ConstantAggregateZero (t : ty)
| ConstantAggregate (l : list Value) (t : ty)
| ConstantDataSequential (l : list Value) (t : ty)
| ConstantFP (zero : bool) (t : ty)
| InlineAsm (t : ty)
| OtherConstant (t : ty).

Fixpoint value_eq (a b : Value) {struct a} : {a = b} + {a <> b}.
Proof.
  decide equality; try apply Z.eq_dec; try apply String.string_dec; try apply ty_eq;
    try (apply (List.list_eq_dec value_eq)); try apply Bool.bool_dec; decide equality.
Defined.
#[export] Instance value_eq_dec : EqDecision Value := value_eq.

Definition type_of (v : Value) : ty :=
  match v with
  | ConstantInt w _ => TyInt w
  | Local _ t | GlobalVariable _ t | FunctionValue _ t | ConstantExpr _ _ t | ConstantPointerNull t
  | UndefValue t | ConstantAggregateZero t | ConstantAggregate _ t | ConstantDataSequential _ t
  | ConstantFP _ t | InlineAsm t | OtherConstant t => t
  end.
Definition is_local (x : string) (v : Value) : bool :=
  match v with Local y _ => String.eqb x y | _ => false end.

(** ** Instructions *)

(** The comparisons of integers. *)
Inductive cmp_predicate :=
| ICMP_EQ | ICMP_NE | ICMP_UGT | ICMP_UGE | ICMP_ULT | ICMP_ULE
| ICMP_SGT | ICMP_SGE | ICMP_SLT | ICMP_SLE.

Inductive binop :=
| Add | Sub | Mul | UDiv | SDiv | URem | SRem | Shl | LShr | AShr | And | Or | Xor
| FloatBinary.
Inductive castop := Trunc | SExt | ZExt | PtrToInt | IntToPtr | BitCast | OtherCast.
Inductive intrinsic := memset | memcpy | memmove | bswap | OtherIntrinsic.

(** An allocation has the number of objects as its operand. *)
Inductive inst_kind :=
| Alloca (t : ty) (size : Value)
| Load (p : Value)
| Store (v p : Value)
| GetElementPtr (inbounds : bool) (p : Value) (indices : list Value)
| Binary (op : binop) (a b : Value)
| Cast (op : castop) (v : Value)
| ICmp (pred : cmp_predicate) (a b : Value)
| Select (c t f : Value)
| Call (callee : Value) (cc : Z) (args : list Value)
| DbgInfo
| Freeze (v : Value)
| OtherInst (args : list Value).

(** The type of an instruction is [TyVoid] when it has no result. *)
Record Inst := { i_name : string; i_type : ty; i_kind : inst_kind }.
Definition inst (x : string) (t : ty) (k : inst_kind) : Inst := {| i_name := x; i_type := t; i_kind := k |}.

Inductive Term :=
| Br (c : Value) (t f : string)
| Jmp (l : string)
| Ret (v : Value)
| RetVoid
| Switch (v : Value)
| Unreachable.

(** A phi node: the value and the predecessor it comes from. *)
Record Phi := { phi_name : string; phi_type : ty; phi_incoming : list (Value * string) }.

Record Block := {
  bb_name : string; bb_phis : list Phi; bb_insts : list Inst; bb_term : Term
}.

(** The first block is the entry block; a declaration has none. [f_cc] is the
    calling convention. *)
Record Function_ := {
  f_name : string; f_args : list (string * ty); f_ret : ty; f_vararg : bool; f_cc : Z;
  f_sret : bool; f_available_externally : bool; f_intrinsic : option intrinsic;
  f_blocks : list Block
}.
Definition with_blocks (f : Function_) (bs : list Block) : Function_ :=
  {| f_name := f_name f; f_args := f_args f; f_ret := f_ret f; f_vararg := f_vararg f; f_cc := f_cc f;
     f_sret := f_sret f; f_available_externally := f_available_externally f;
     f_intrinsic := f_intrinsic f; f_blocks := bs |}.
Definition isDeclaration (f : Function_) : bool := match f_blocks f with [] => true | _ => false end.
Definition f_type (f : Function_) : ty := TyFun (f_ret f) (map snd (f_args f)) (f_vararg f).

(** A call's last operand is what it calls. *)
Definition operands (k : inst_kind) : list Value :=
  match k with
  | Alloca _ size => [size]
  | DbgInfo => []
  | Load p => [p]
  | Store v p => [v; p]
  | GetElementPtr _ p indices => p :: indices
  | Binary _ a b | ICmp _ a b => [a; b]
  | Cast _ v | Freeze v => [v]
  | Select c t f => [c; t; f]
  | Call callee _ args => args ++ [callee]
  | OtherInst args => args
  end.
Definition term_operands (t : Term) : list Value :=
  match t with
  | Br c _ _ => [c]
  | Ret v | Switch v => [v]
  | _ => []
  end.

(** Value::replaceAllUsesWith *)
Definition map_operands (g : Value -> Value) (k : inst_kind) : inst_kind :=
  match k with
  | Alloca t size => Alloca t (g size)
  | Load p => Load (g p)
  | Store v p => Store (g v) (g p)
  | GetElementPtr inb p l => GetElementPtr inb (g p) (map g l)
  | Binary op a b => Binary op (g a) (g b)
  | Cast op v => Cast op (g v)
  | ICmp p a b => ICmp p (g a) (g b)
  | Select c t f => Select (g c) (g t) (g f)
  | Call callee cc args => Call (g callee) cc (map g args)
  | DbgInfo => DbgInfo
  | Freeze v => Freeze (g v)
  | OtherInst args => OtherInst (map g args)
  end.
Definition map_term (g : Value -> Value) (t : Term) : Term :=
  match t with
  | Br c t f => Br (g c) t f
  | Ret v => Ret (g v)
  | Switch v => Switch (g v)
  | t => t
  end.
Definition replace_value (x : string) (v : Value) (o : Value) : Value := if is_local x o then v else o.
Definition replace_uses (x : string) (v : Value) (f : Function_) : Function_ :=
  let g := replace_value x v in
  with_blocks f (map (fun b => {|
    bb_name := bb_name b;
    bb_phis := map (fun p => {| phi_name := phi_name p; phi_type := phi_type p;
                                phi_incoming := map (fun inc : Value * string => (g (fst inc), snd inc)) (phi_incoming p) |}) (bb_phis b);
    bb_insts := map (fun i => {| i_name := i_name i; i_type := i_type i; i_kind := map_operands g (i_kind i) |}) (bb_insts b);
    bb_term := map_term g (bb_term b) |}) (f_blocks f)).

(** All operands of a function, phi nodes included. *)
Definition block_operands (b : Block) : list Value :=
  flat_map (fun p => map fst (phi_incoming p)) (bb_phis b)
  ++ flat_map (fun i => operands (i_kind i)) (bb_insts b)
  ++ term_operands (bb_term b).
Definition all_operands (f : Function_) : list Value := flat_map block_operands (f_blocks f).

(** All names a function defines. *)
Definition block_names (b : Block) : list string :=
  map phi_name (bb_phis b) ++ map i_name (bb_insts b).
Definition all_names (f : Function_) : list string :=
  map fst (f_args f) ++ flat_map block_names (f_blocks f).

Definition all_insts (f : Function_) : list Inst := flat_map bb_insts (f_blocks f).

(** AllocaInst::isArrayAllocation *)
Definition isArrayAllocation (k : inst_kind) : bool :=
  match k with Alloca _ (ConstantInt _ 1) => false | Alloca _ _ => true | _ => false end.

(** The instruction a local value is the result of. *)
Definition def_of (f : Function_) (v : Value) : option Inst :=
  match v with
  | Local x _ => List.find (fun i => String.eqb (i_name i) x) (all_insts f)
  | _ => None
  end.

(** Value::use_empty *)
Definition use_empty (f : Function_) (x : string) : bool :=
  negb (existsb (is_local x) (all_operands f)).

Definition find_bb (bs : list Block) (l : string) : option Block :=
  List.find (fun b => String.eqb (bb_name b) l) bs.
Definition map_block (f : Block -> Block) (l : string) (b : Block) : Block :=
  if String.eqb (bb_name b) l then f b else b.

(** ** Modules *)

(** [g_init]: the definitive initializer. *)
Record Global := {
  g_name : string; g_value_type : ty; g_constant : bool; g_init : option Value;
  g_thread_local : bool; g_section : bool
}.
Definition global_ref (g : Global) : Value := GlobalVariable (g_name g) (TyPtr (g_value_type g)).

(** Named metadata: the strings and levels the logical compiler left. *)
Record Module_ := {
  m_structs : structs;
  m_globals : list Global;
  m_functions : list Function_;
  m_logicalsignature : option string;
  m_virusnames : option string;
  m_funcmin : option Z;
  m_funcmax : option Z
}.
Definition with_functions (m : Module_) (l : list Function_) : Module_ :=
  {| m_structs := m_structs m; m_globals := m_globals m; m_functions := l;
     m_logicalsignature := m_logicalsignature m; m_virusnames := m_virusnames m;
     m_funcmin := m_funcmin m; m_funcmax := m_funcmax m |}.
Definition find_function (m : Module_) (x : string) : option Function_ :=
  List.find (fun f => String.eqb (f_name f) x) (m_functions m).
Definition find_global (m : Module_) (x : string) : option Global :=
  List.find (fun g => String.eqb (g_name g) x) (m_globals m).
