(* ===== verification/Semantics.v ===== *)
(** * Semantics: what a function computes

    An interpreter of the functions of IR.v, against which the passes that
    rewrite them are proved. The meaning of single instructions is an interface,
    the class [Meaning]: a pass that only moves or replaces a few of them is
    right whatever the others do; the passes that change arithmetic are proved
    with the integers of Integers.v. *)
From S2P Require Import Prelude IR.
Local Open Scope string_scope.
Local Open Scope Z_scope.

(** ** Running a function

    The instructions but those on the new slots are interpreted by [sem], which
    also changes the rest of the world; a slot's address is only used to load
    and store it, so its content is kept apart. *)

(** The values of operands that are not local, of what is not defined, the
    conditions that hold, and what an instruction returns. *)
Class Meaning (V W : Type) := {
  constant_meaning : Value -> V;
  undefined : V;
  holds : V -> bool;
  sem : Inst -> list V -> W -> option (V * W)
}.

Section semantics.
Context {V W : Type} {M : Meaning V W}.
Abbreviation env := (gmap string V).

(** A definition dominates its uses, so [undefined] is never what is read. *)
Definition eval (e : env) (v : Value) : V :=
  match v with Local x _ => default undefined (e !! x) | _ => constant_meaning v end.

(** The slot an instruction is about. *)
Definition slot_of (slots : gset string) (v : Value) : option string :=
  match v with Local x _ => if decide (x ∈ slots) then Some x else None | _ => None end.

(** The values of local variables, the slots, the world. *)
Definition state : Type := env * env * W.

Definition exec_inst (slots : gset string) (i : Inst) (s : state) : option state :=
  let '(e, m, w) := s in
  let generic :=
    '(v, w) ← sem i (map (eval e) (operands (i_kind i))) w;
    Some (match i_type i with TyVoid => e | _ => <[i_name i := v]> e end, m, w) in
  match i_kind i with
  | Alloca _ _ => if decide (i_name i ∈ slots) then Some s else generic
  | Load p => match slot_of slots p with
              | Some x => v ← m !! x; Some (<[i_name i := v]> e, m, w)
              | None => generic
              end
  | Store v p => match slot_of slots p with
                 | Some x => Some (e, <[x := eval e v]> m, w)
                 | None => generic
                 end
  | _ => generic
  end.
Fixpoint exec_insts (slots : gset string) (l : list Inst) (s : state) : option state :=
  match l with
  | [] => Some s
  | i :: l => s ← exec_inst slots i s; exec_insts slots l s
  end.

(** All phi nodes of a block read the values before it is entered. *)
Definition incoming (p : Phi) (pred : string) : option Value :=
  fst <$> List.find (fun inc : Value * string => String.eqb (snd inc) pred) (phi_incoming p).
Fixpoint enter (e : env) (pred : option string) (ps : list Phi) : option env :=
  match ps with
  | [] => Some e
  | p :: ps =>
      l ← pred; v ← incoming p l; e' ← enter e pred ps;
      Some (<[phi_name p := eval e v]> e')
  end.

Inductive exit := Goto (l : string) | Returned (v : option V).
Definition leave (e : env) (t : Term) : option exit :=
  match t with
  | Br c t f => Some (Goto (if holds (eval e c) then t else f))
  | Jmp l => Some (Goto l)
  | Ret v => Some (Returned (Some (eval e v)))
  | RetVoid => Some (Returned None)
  | Switch _ | Unreachable => None
  end.

(** Run from block [l], entered from [pred]; at most [fuel] blocks. *)
Fixpoint run_blocks (slots : gset string) (fuel : nat) (bs : list Block) (l : string) (pred : option string)
    (s : state) : option (option V * W) :=
  match fuel with
  | O => None
  | S fuel =>
      b ← find_bb bs l;
      let '(e, m, w) := s in
      e ← enter e pred (bb_phis b);
      '(e, m, w) ← exec_insts slots (bb_insts b) (e, m, w);
      x ← leave e (bb_term b);
      match x with
      | Goto l' => run_blocks slots fuel bs l' (Some l) (e, m, w)
      | Returned v => Some (v, w)
      end
  end.

Lemma exec_insts_app S a b s : exec_insts S (a ++ b) s = s' ← exec_insts S a s; exec_insts S b s'.
Proof.
  revert s. induction a as [|i a IH]; intros s; [done|]. cbn [exec_insts app].
  destruct (exec_inst S i s); [apply IH|done].
Qed.
(** Without slots all instructions are the meaning's. *)
Lemma exec_inst_no_slots i e m w : exec_inst ∅ i (e, m, w) =
  '(v, w) ← sem i (map (eval e) (operands (i_kind i))) w;
  Some (match i_type i with TyVoid => e | _ => <[i_name i := v]> e end, m, w).
Proof.
  unfold exec_inst, slot_of. destruct (i_kind i) as [t n|p|v p| | | | | | | | |]; try done; destruct p; done.
Qed.
(** One block without phi nodes. *)
Lemma run_goto S fuel bs l pred s b e' m' w' l' : find_bb bs l = Some b -> bb_phis b = [] ->
  exec_insts S (bb_insts b) s = Some (e', m', w') -> leave e' (bb_term b) = Some (Goto l') ->
  run_blocks S (Datatypes.S fuel) bs l pred s = run_blocks S fuel bs l' (Some l) (e', m', w').
Proof.
  intros Hb Hp Hi Hl. cbn [run_blocks]. rewrite Hb. cbn [mbind option_bind]. destruct s as [[e m] w].
  rewrite Hp. cbn [enter mbind option_bind]. rewrite Hi. cbn [mbind option_bind]. by rewrite Hl.
Qed.
Lemma run_return S fuel bs l pred s b e' m' w' v : find_bb bs l = Some b -> bb_phis b = [] ->
  exec_insts S (bb_insts b) s = Some (e', m', w') -> leave e' (bb_term b) = Some (Returned v) ->
  run_blocks S (Datatypes.S fuel) bs l pred s = Some (v, w').
Proof.
  intros Hb Hp Hi Hl. cbn [run_blocks]. rewrite Hb. cbn [mbind option_bind]. destruct s as [[e m] w].
  rewrite Hp. cbn [enter mbind option_bind]. rewrite Hi. cbn [mbind option_bind]. by rewrite Hl.
Qed.
End semantics.

(** ** Running a module

    A call runs the body of the function called; [base] says what functions
    without a body do. *)

Section modules.
Context {V W : Type} (M : Meaning V W).
Context (base : string -> list V -> W -> option (option V * W)) (slots : string -> gset string).

Definition with_calls (callee : string -> list V -> W -> option (option V * W)) : Meaning V W := {|
  constant_meaning := constant_meaning;
  undefined := undefined;
  holds := holds;
  sem i vs w :=
    match i_kind i with
    | Call (FunctionValue g _) _ args => '(v, w) ← callee g (firstn (length args) vs) w; Some (default undefined v, w)
    | _ => sem i vs w
    end
|}.

(** At most [fuel] blocks of each function and calls within each other. *)
Fixpoint call_function (fuel : nat) (m : Module_) (g : string) (args : list V) (w : W) : option (option V * W) :=
  match fuel with
  | O => None
  | S fuel =>
      F ← find_function m g;
      match f_blocks F with
      | [] => base g args w
      | b :: _ => run_blocks (M := with_calls (call_function fuel m)) (slots g) fuel (f_blocks F) (bb_name b) None
                    (list_to_map (zip (map fst (f_args F)) args), ∅, w)
      end
  end.

(** An instruction does at least what another does. *)
Definition follows (c c' : string -> list V -> W -> option (option V * W)) (i i' : Inst) : Prop :=
  forall S s s1, exec_inst (M := with_calls c) S i s = Some s1 -> exec_inst (M := with_calls c') S i' s = Some s1.
Definition block_follows c c' (b b' : Block) : Prop :=
  bb_name b' = bb_name b /\ bb_phis b' = bb_phis b /\ bb_term b' = bb_term b /\ Forall2 (follows c c') (bb_insts b) (bb_insts b').

Lemma insts_follow c c' l l' S s s1 : Forall2 (follows c c') l l' ->
  exec_insts (M := with_calls c) S l s = Some s1 -> exec_insts (M := with_calls c') S l' s = Some s1.
Proof.
  intros H. revert s. induction H as [|i i' l l' Hi Hl IH]; intros s; [done|]. cbn [exec_insts].
  intros (s2 & E1 & E2)%bind_Some. apply bind_Some. exists s2. split; [by apply Hi|by apply IH].
Qed.
Lemma find_bb_follows c c' bs bs' l b : Forall2 (block_follows c c') bs bs' -> find_bb bs l = Some b ->
  exists b', find_bb bs' l = Some b' /\ block_follows c c' b b'.
Proof.
  intros H. unfold find_bb. induction H as [|x y bs bs' Hxy Hbs IH]; [done|]. cbn [List.find].
  destruct Hxy as (E & Hxy). rewrite E. destruct (String.eqb (bb_name x) l); [|done].
  intros [= <-]. exists y. split; [done|]. by split.
Qed.
Lemma run_blocks_follow c c' S bs bs' fuel fuel' l pred s r : Forall2 (block_follows c c') bs bs' -> (fuel <= fuel')%nat ->
  run_blocks (M := with_calls c) S fuel bs l pred s = Some r ->
  run_blocks (M := with_calls c') S fuel' bs' l pred s = Some r.
Proof.
  intros H. revert fuel' l pred s. induction fuel as [|fuel IH]; intros [|fuel'] l pred [[e mem] w] Hf; [done|done|lia|].
  cbn [run_blocks]. intros (b & Eb & E)%bind_Some. destruct (find_bb_follows c c' bs bs' l b H Eb) as (b' & Eb' & Hn & Hp & Ht & Hi).
  rewrite Eb'. cbn [mbind option_bind]. rewrite Hp, Ht. apply bind_Some in E as (e1 & Ee & E). apply bind_Some.
  exists e1. split; [exact Ee|]. apply bind_Some in E as ([[e2 m2] w2] & Ei & E). apply bind_Some. exists (e2, m2, w2).
  split; [by eapply insts_follow|]. apply bind_Some in E as (x & Ex & E). apply bind_Some. exists x. split; [exact Ex|].
  destruct x; [|done]. apply IH; [lia|exact E].
Qed.

(** The same instruction follows itself when its calls do. *)
Lemma follows_refl c c' i : (forall g args w r, c g args w = Some r -> c' g args w = Some r) -> follows c c' i i.
Proof.
  intros Hc S [[e mem] w] s1. unfold exec_inst.
  assert (Hs : forall vs r, sem (Meaning := with_calls c) i vs w = Some r -> sem (Meaning := with_calls c') i vs w = Some r).
  { intros vs r. cbn [sem with_calls]. destruct (i_kind i) as [| | | | | | | |callee cc args| | |]; try done.
    destruct callee; try done. intros ([v w'] & E1 & E2)%bind_Some. apply bind_Some. exists (v, w'). split; [by apply Hc|done]. }
  assert (G : forall k k' : V * W -> option (gmap string V * gmap string V * W), (forall x, k x = k' x) -> forall vs,
     sem (Meaning := with_calls c) i vs w ≫= k = Some s1 -> sem (Meaning := with_calls c') i vs w ≫= k' = Some s1).
  { intros k k' Hk vs (x & E1 & E2)%bind_Some. apply bind_Some. exists x. split; [by apply Hs|by rewrite <- Hk]. }
  destruct (i_kind i); try (by apply G); repeat (case_match; try done); by apply G.
Qed.
Lemma call_more m fuel : forall fuel' g args w r, (fuel <= fuel')%nat ->
  call_function fuel m g args w = Some r -> call_function fuel' m g args w = Some r.
Proof.
  induction fuel as [|fuel IH]; intros [|fuel'] g args w r Hf; [done|done|lia|]. cbn [call_function].
  intros (F & HF & H)%bind_Some. rewrite HF. cbn [mbind option_bind]. destruct (f_blocks F) as [|b bs]; [done|].
  eapply (run_blocks_follow _ _ _ _ _ fuel); [|lia|exact H]. apply Forall_Forall2_diag, Forall_forall. intros b' _.
  split; [done|]. split; [done|]. split; [done|]. apply Forall_Forall2_diag, Forall_forall. intros i _.
  apply follows_refl. intros g' args' w' r'. apply IH. lia.
Qed.
End modules.

(** ** Rewriting a module

    A pass that replaces instructions by others preserves what the functions
    compute if each replacement does; the replacement may write to names that
    are new in the function. *)

Section rewriting.
Context {V W : Type} (M : Meaning V W).
Context (base : string -> list V -> W -> option (option V * W)) (slots : string -> gset string).
Abbreviation functions := (string -> list V -> W -> option (option V * W)).
Abbreviation calls_follow c c' := (forall g args w r, (c : functions) g args w = Some r -> (c' : functions) g args w = Some r).

Section block.
Context (new : string -> Prop).
(** The same values but for the new names. *)
Definition agree_old (e e' : gmap string V) : Prop := forall y, ~ new y -> e' !! y = e !! y.
Definition mentions_no_new (v : Value) : Prop := forall y, new y -> is_local y v = false.

Lemma eval_agree_old e e' v : agree_old e e' -> mentions_no_new v -> eval e' v = eval e v.
Proof.
  intros He Hv. destruct v; try done. cbn [eval]. rewrite He; [done|]. intros Hx. specialize (Hv x Hx). cbn in Hv.
  by rewrite String.eqb_refl in Hv.
Qed.
Lemma eval_agree_old_list e e' vs : agree_old e e' -> Forall mentions_no_new vs -> map (eval e') vs = map (eval e) vs.
Proof.
  intros He. induction 1 as [|v vs Hv _ IH]; [done|]. cbn [map]. by rewrite IH, (eval_agree_old e e' v He Hv).
Qed.
Lemma agree_old_insert e e' x v : agree_old e e' -> agree_old (<[x := v]> e) (<[x := v]> e').
Proof. intros H y Hy. destruct (decide (y = x)) as [->|Hne]; [by rewrite !lookup_insert_eq|]. rewrite !lookup_insert_ne by done. by apply H. Qed.
Lemma agree_old_new e e' x v : new x -> agree_old e e' -> agree_old e (<[x := v]> e').
Proof. intros Hx H y Hy. rewrite lookup_insert_ne; [by apply H|]. by intros ->. Qed.

(** The instructions [l] in place of [i]. *)
Definition expands (c c' : functions) (i : Inst) (l : list Inst) : Prop :=
  forall S e e' m w e1 m1 w1, agree_old e e' -> exec_inst (M := with_calls M c) S i (e, m, w) = Some (e1, m1, w1) ->
  exists e1', exec_insts (M := with_calls M c') S l (e', m, w) = Some (e1', m1, w1) /\ agree_old e1 e1'.
Definition block_expands (c c' : functions) (b b' : Block) : Prop :=
  bb_name b' = bb_name b /\ bb_phis b' = bb_phis b /\ bb_term b' = bb_term b /\
  Forall (fun p => Forall (fun inc : Value * string => mentions_no_new (fst inc)) (phi_incoming p)) (bb_phis b) /\
  Forall mentions_no_new (term_operands (bb_term b)) /\
  exists ls, bb_insts b' = concat ls /\ Forall2 (expands c c') (bb_insts b) ls.

(** An instruction may also stay. *)
Lemma expands_refl c c' i : calls_follow c c' -> Forall mentions_no_new (operands (i_kind i)) -> expands c c' i [i].
Proof.
  intros Hc Hi S e e' m w e1 m1 w1 He H. cbn [exec_insts]. apply (follows_refl M c c' i Hc) in H.
  enough (exists e1', exec_inst (M := with_calls M c') S i (e', m, w) = Some (e1', m1, w1) /\ agree_old e1 e1') as (e1' & -> & ?) by by exists e1'.
  pose proof (eval_agree_old_list e e' _ He Hi) as Hv.
  change (map (@eval V W (with_calls M c') e') (operands (i_kind i)) = map (@eval V W (with_calls M c') e) (operands (i_kind i))) in Hv.
  assert (G : forall r, ('(v, w') ← sem (Meaning := with_calls M c') i (map (@eval V W (with_calls M c') e) (operands (i_kind i))) w;
      Some (match i_type i with TyVoid => e | _ => <[i_name i:=v]> e end, m, w')) = Some (e1, m1, w1) -> r = () ->
    exists e1', ('(v, w') ← sem (Meaning := with_calls M c') i (map (@eval V W (with_calls M c') e') (operands (i_kind i))) w;
      Some (match i_type i with TyVoid => e' | _ => <[i_name i:=v]> e' end, m, w')) = Some (e1', m1, w1) /\ agree_old e1 e1').
  { intros r G _. rewrite Hv. apply bind_Some in G as ([v w'] & -> & G). injection G as <- <- <-. cbn [mbind option_bind].
    eexists. split; [reflexivity|]. destruct (i_type i); by try apply agree_old_insert. }
  specialize (G ()). unfold exec_inst in *. destruct (i_kind i) as [t n|p|v p| | | | | | | | |] eqn:Ek; try (by apply G).
  - destruct (decide (i_name i ∈ S)); [|by apply G]. injection H as <- <- <-. by exists e'.
  - destruct (slot_of S p); [|by apply G]. apply bind_Some in H as (v & -> & H). injection H as <- <- <-. cbn [mbind option_bind].
    eexists. split; [reflexivity|]. by apply agree_old_insert.
  - destruct (slot_of S p); [|by apply G]. injection H as <- <- <-. cbn [operands] in Hi. apply Forall_cons in Hi as [Hi _].
    exists e'. by rewrite (@eval_agree_old e e' v He Hi : @eval V W (with_calls M c') e' v = @eval V W (with_calls M c') e v).
Qed.

Lemma insts_expand c c' S l ls : Forall2 (expands c c') l ls -> forall e e' m w e1 m1 w1, agree_old e e' ->
  exec_insts (M := with_calls M c) S l (e, m, w) = Some (e1, m1, w1) ->
  exists e1', exec_insts (M := with_calls M c') S (concat ls) (e', m, w) = Some (e1', m1, w1) /\ agree_old e1 e1'.
Proof.
  induction 1 as [|i l' l ls Hi _ IH]; intros e e' m w e1 m1 w1 He H; cbn [exec_insts concat] in *.
  { injection H as <- <- <-. by exists e'. }
  apply bind_Some in H as ([[e2 m2] w2] & E1 & E2). destruct (Hi S e e' m w e2 m2 w2 He E1) as (e2' & E1' & He2).
  destruct (IH e2 e2' m2 w2 e1 m1 w1 He2 E2) as (e1' & E2' & He1). exists e1'. split; [|done].
  rewrite exec_insts_app, E1'. exact E2'.
Qed.
Lemma enter_agree_old e e' pred ps e1 : agree_old e e' ->
  Forall (fun p => Forall (fun inc : Value * string => mentions_no_new (fst inc)) (phi_incoming p)) ps ->
  enter e pred ps = Some e1 -> exists e1', enter e' pred ps = Some e1' /\ agree_old e1 e1'.
Proof.
  intros He H. revert e1. induction H as [|p ps Hp _ IH]; intros e1 E; cbn [enter] in *; [injection E as <-; by exists e'|].
  apply bind_Some in E as (l & -> & E). apply bind_Some in E as (v & Ev & E). apply bind_Some in E as (e2 & E2 & E).
  injection E as <-. destruct (IH e2 E2) as (e2' & E2' & He2). cbn [mbind option_bind]. rewrite Ev. cbn [mbind option_bind].
  rewrite E2'. cbn [mbind option_bind]. eexists. split; [reflexivity|]. rewrite (eval_agree_old e e' v He); [by apply agree_old_insert|].
  unfold incoming in Ev. destruct (List.find _ (phi_incoming p)) as [inc|] eqn:Ef; [|done]. injection Ev as <-.
  apply List.find_some in Ef as [Ef _]. rewrite Forall_forall in Hp. apply Hp. by apply list_elem_of_In.
Qed.
Lemma leave_agree_old e e' t : agree_old e e' -> Forall mentions_no_new (term_operands t) -> leave e' t = leave e t.
Proof.
  intros He Ht. destruct t; try done; cbn [term_operands leave] in *; apply Forall_cons in Ht as [Ht _]; by rewrite (eval_agree_old e e' _ He Ht).
Qed.
Lemma run_blocks_expand c c' S bs bs' fuel : Forall2 (block_expands c c') bs bs' -> forall l pred e e' m w r, agree_old e e' ->
  run_blocks (M := with_calls M c) S fuel bs l pred (e, m, w) = Some r ->
  run_blocks (M := with_calls M c') S fuel bs' l pred (e', m, w) = Some r.
Proof.
  intros H. induction fuel as [|fuel IH]; intros l pred e e' m w r He; [done|]. cbn [run_blocks].
  intros (b & Eb & E)%bind_Some.
  assert (Hb : exists b', find_bb bs' l = Some b' /\ block_expands c c' b b').
  { clear E IH. unfold find_bb in *. induction H as [|x y bs bs' Hxy _ IH]; [done|]. cbn [List.find] in *. rewrite (proj1 Hxy).
    destruct (String.eqb (bb_name x) l); [|by apply IH]. injection Eb as <-. by exists y. }
  destruct Hb as (b' & -> & _ & Hp & Ht & Hpn & Htn & ls & Hl & Hls). cbn [mbind option_bind]. rewrite Hp, Ht, Hl.
  apply bind_Some in E as (e1 & Ee & E). destruct (enter_agree_old e e' pred _ e1 He Hpn Ee) as (e1' & E1 & He1).
  change (enter e' pred (bb_phis b)) with (@enter V W (with_calls M c') e' pred (bb_phis b)) in E1. rewrite E1. cbn [mbind option_bind].
  apply bind_Some in E as ([[e2 m2] w2] & Ei & E). destruct (insts_expand c c' S _ _ Hls e1 e1' m w e2 m2 w2 He1 Ei) as (e2' & E2 & He2).
  rewrite E2. cbn [mbind option_bind]. pose proof (leave_agree_old e2 e2' _ He2 Htn) as Hleave.
  change (@leave V W (with_calls M c') e2' (bb_term b) = @leave V W (with_calls M c) e2 (bb_term b)) in Hleave. rewrite Hleave.
  apply bind_Some in E as (x & -> & E). cbn [mbind option_bind]. destruct x; [|exact E]. by eapply IH.
Qed.
End block.

(** Every function keeps its name and arguments; the replacements may rely on
    what [extra] says of the functions called. *)
Lemma call_expand m m' (new : string -> string -> Prop) (extra : functions -> functions -> Prop) :
  (forall fuel, extra (call_function M base slots fuel m) (call_function M base slots fuel m')) ->
  (forall g F, find_function m g = Some F -> exists F', find_function m' g = Some F' /\ f_args F' = f_args F /\
     forall c c', calls_follow c c' -> extra c c' -> Forall2 (block_expands (new g) c c') (f_blocks F) (f_blocks F')) ->
  forall fuel, calls_follow (call_function M base slots fuel m) (call_function M base slots fuel m').
Proof.
  intros Hx H fuel. induction fuel as [|fuel IH]; intros g args w r; [done|]. cbn [call_function].
  intros (F & HF & E)%bind_Some. destruct (H g F HF) as (F' & -> & Ha & Hb). cbn [mbind option_bind].
  specialize (Hb _ _ IH (Hx fuel)). rewrite Ha. destruct Hb as [|b b' bs bs' Hbb Hbs] eqn:E0; [exact E|].
  rewrite (proj1 Hbb). eapply run_blocks_expand; [by constructor|by intros y _|exact E].
Qed.
End rewriting.
