(* ===== verification/Integers.v ===== *)
(** * Integers: LLVM's integer instructions

    The instructions on integers as the LLVM language reference defines them, on
    bit patterns: a value stands for its residue at the width of its type. They
    are the meaning by which the passes that replace arithmetic are judged. *)
From S2P Require Import Prelude IR Semantics.
Local Open Scope string_scope.
Local Open Scope Z_scope.

(** ** Instructions *)

(** Division by zero and shifts by the width or more have no meaning. *)
Definition binary_value (op : binop) (w x y : Z) : option Z :=
  let x := wrap w x in let y := wrap w y in
  match op with
  | Add => Some (wrap w (x + y))
  | Sub => Some (wrap w (x - y))
  | Mul => Some (wrap w (x * y))
  | UDiv => if y =? 0 then None else Some (x / y)
  | URem => if y =? 0 then None else Some (x mod y)
  | SDiv => if y =? 0 then None else Some (wrap w (Z.quot (swrap w x) (swrap w y)))
  | SRem => if y =? 0 then None else Some (wrap w (Z.rem (swrap w x) (swrap w y)))
  | Shl => if y <? w then Some (wrap w (Z.shiftl x y)) else None
  | LShr => if y <? w then Some (Z.shiftr x y) else None
  | AShr => if y <? w then Some (wrap w (Z.shiftr (swrap w x) y)) else None
  | And => Some (Z.land x y)
  | Or => Some (Z.lor x y)
  | Xor => Some (Z.lxor x y)
  | FloatBinary => None
  end.
Definition icmp_value (p : cmp_predicate) (w x y : Z) : bool :=
  let ux := wrap w x in let uy := wrap w y in
  let sx := swrap w x in let sy := swrap w y in
  match p with
  | ICMP_EQ => ux =? uy
  | ICMP_NE => negb (ux =? uy)
  | ICMP_UGT => uy <? ux
  | ICMP_UGE => uy <=? ux
  | ICMP_ULT => ux <? uy
  | ICMP_ULE => ux <=? uy
  | ICMP_SGT => sy <? sx
  | ICMP_SGE => sy <=? sx
  | ICMP_SLT => sx <? sy
  | ICMP_SLE => sx <=? sy
  end.
(** The integer a value of type [t] stands for; a pointer is an address. *)
Definition width (t : ty) : option Z :=
  match t with TyInt w => Some w | TyPtr _ => Some 64 | _ => None end.
Definition cast_value (op : castop) (from to x : Z) : option Z :=
  match op with
  | Trunc | PtrToInt | IntToPtr => Some (wrap to (wrap from x))
  | ZExt => Some (wrap from x)
  | SExt => Some (wrap to (swrap from x))
  | BitCast => Some x
  | OtherCast => None
  end.

Section integers.
Context {W : Type} (address_of : Value -> Z) (other : Inst -> list Z -> W -> option (Z * W)).

Definition constant_value (v : Value) : Z := match v with ConstantInt w v => wrap w v | v => address_of v end.
Definition integer_sem (i : Inst) (vs : list Z) (s : W) : option (Z * W) :=
  match i_kind i, vs with
  | Binary op a _, [x; y] => w ← width (type_of a); r ← binary_value op w x y; Some (r, s)
  | ICmp p a _, [x; y] => w ← width (type_of a); Some (if icmp_value p w x y then 1 else 0, s)
  | Cast op v, [x] => w ← width (type_of v); w' ← width (i_type i); r ← cast_value op w w' x; Some (r, s)
  | Select _ _ _, [c; x; y] => Some (if wrap 1 c =? 0 then y else x, s)
  | Freeze _, [x] => Some (x, s)
  | _, _ => other i vs s
  end.
(** A condition is a one-bit integer. *)
Definition integer_meaning : Meaning Z W := {|
  constant_meaning := constant_value; undefined := 0; holds c := negb (wrap 1 c =? 0); sem := integer_sem
|}.
End integers.

(** ConstantInt::getLimitedValue *)
Definition getLimitedValue (w v : Z) : Z := Z.min (wrap w v) (2 ^ 64 - 1).

(** ** Wrapping arithmetic *)

Lemma pow2_pos w : 0 <= w -> 0 < 2 ^ w.
Proof. intros Hw. by apply Z.pow_pos_nonneg. Qed.
Lemma swrap_mod w z : 1 <= w -> exists k, swrap w z = z + k * 2 ^ w.
Proof.
  intros Hw. unfold swrap. cbv zeta. pose proof (pow2_pos w ltac:(lia)). pose proof (Z.div_mod z (2 ^ w) ltac:(lia)).
  destruct (z mod 2 ^ w <? 2 ^ (w - 1)); [exists (- (z / 2 ^ w))|exists (- (z / 2 ^ w) - 1)]; lia.
Qed.
Lemma swrap_unique w z s : 1 <= w -> in_s w s -> (exists k, s = z + k * 2 ^ w) -> swrap w z = s.
Proof.
  intros Hw Hs (k & Hk). destruct (swrap_mod w z Hw) as (k' & Hk'). pose proof (swrap_range w z Hw) as Hr.
  unfold in_s in *. assert (E : 2 ^ w = 2 * 2 ^ (w - 1)) by (rewrite <- Z.pow_succ_r by lia; f_equal; lia).
  rewrite E in Hk, Hk'. clear E. remember (2 ^ (w - 1)) as b eqn:Eb. clear Eb.
  destruct (Z.lt_trichotomy k' k) as [Hlt|[->|Hlt]]; [|lia|]; exfalso.
  - assert (0 <= (k - k' - 1) * b) by (apply Z.mul_nonneg_nonneg; lia). lia.
  - assert (0 <= (k' - k - 1) * b) by (apply Z.mul_nonneg_nonneg; lia). lia.
Qed.
Lemma swrap_wrap w z : swrap w (wrap w z) = swrap w z.
Proof. unfold swrap, wrap. by rewrite Zmod_mod. Qed.
Lemma wrap_swrap w z : 1 <= w -> wrap w (swrap w z) = wrap w z.
Proof. intros Hw. destruct (swrap_mod w z Hw) as (k & ->). unfold wrap. by rewrite Z_mod_plus_full. Qed.
Lemma wrap_mod w z : 0 <= w -> exists k, wrap w z = z + k * 2 ^ w.
Proof. intros Hw. exists (- (z / 2 ^ w)). unfold wrap. pose proof (pow2_pos w Hw). rewrite Z.mod_eq by lia. lia. Qed.
(** A product that fits does not depend on where the factors were wrapped. *)
Lemma swrap_mul w c z : 1 <= w -> in_s w (c * swrap w z) ->
  swrap w (wrap w (wrap w c * wrap w z)) = c * swrap w z.
Proof.
  intros Hw H. rewrite swrap_wrap. apply swrap_unique; [done|done|].
  destruct (swrap_mod w z Hw) as (k & ->), (wrap_mod w z ltac:(lia)) as (k1 & ->), (wrap_mod w c ltac:(lia)) as (k2 & ->).
  exists (c * k - c * k1 - k2 * z - k2 * k1 * 2 ^ w). lia.
Qed.
(** Wrapping to fewer bits forgets wrapping to more. *)
Lemma wrap_narrow w w' z : 0 <= w <= w' -> wrap w (wrap w' z) = wrap w z.
Proof.
  intros [Hw Hle]. unfold wrap. replace (2 ^ w') with (2 ^ w * 2 ^ (w' - w)) by (rewrite <- Z.pow_add_r by lia; f_equal; lia).
  pose proof (pow2_pos w Hw). pose proof (pow2_pos (w' - w) ltac:(lia)).
  rewrite Z.rem_mul_r by lia. rewrite Z.mul_comm, Z_mod_plus_full. by rewrite Zmod_mod.
Qed.
