(* ===== verification/Dominance.v ===== *)
(** * Dominance: static single assignment

    Every use of a value in LLVM IR is dominated by its definition: on each way
    from the entry of the function to the use the definition is passed. Ways are
    sequences of instructions and branches of IR.v; what holds on all of them is
    shared by the passes that replace a value by another one everywhere. *)
From S2P Require Import Prelude IR Semantics Integers.
Local Open Scope string_scope.
Local Open Scope list_scope.
Local Open Scope Z_scope.

(** ** Definitions and ways *)

Definition has_result (i : Inst) : bool := match i_type i with TyVoid => false | _ => true end.
Definition defines (i : Inst) (x : string) : Prop := has_result i = true /\ i_name i = x.
Definition results (l : list Inst) : list string := map i_name (List.filter has_result l).
Definition block_defs (b : Block) : list string := map phi_name (bb_phis b) ++ results (bb_insts b).
Definition defs (F : Function_) : list string := map fst (f_args F) ++ flat_map block_defs (f_blocks F).
Definition branches_to (t : Term) (l : string) : Prop :=
  match t with Br _ a b => l = a \/ l = b | Jmp a => l = a | _ => False end.

Section ways.
Context (F : Function_).
Abbreviation block l b := (find_bb (f_blocks F) l = Some b).

(** There is a way to block [l] where the instructions [rest] are still to come
    that defines nothing in [A]. *)
Inductive free (A : string -> Prop) : string -> list Inst -> Prop :=
| free_entry b bs : f_blocks F = b :: bs -> (forall x, x ∈ map phi_name (bb_phis b) -> ~ A x) -> free A (bb_name b) (bb_insts b)
| free_step l i rest : free A l (i :: rest) -> (forall x, defines i x -> ~ A x) -> free A l rest
| free_branch l b l' b' : free A l [] -> block l b -> branches_to (bb_term b) l' -> block l' b' ->
    (forall x, x ∈ map phi_name (bb_phis b') -> ~ A x) -> free A l' (bb_insts b').
Definition reachable (l : string) (rest : list Inst) : Prop := free (fun _ => False) l rest.
Definition without (z : string) : string -> Prop := fun x => x = z.

(** Arguments are defined before the entry. *)
Definition dominated (v : Value) (l : string) (rest : list Inst) : Prop :=
  match v with Local z _ => z ∈ map fst (f_args F) \/ ~ free (without z) l rest | _ => True end.
(** An incoming value of a phi node is used at the end of the block it comes
    from. *)
Record ssa : Prop := {
  ssa_defs : NoDup (defs F);
  ssa_blocks : NoDup (map bb_name (f_blocks F));
  ssa_insts l b i rest v : block l b -> i :: rest `suffix_of` bb_insts b -> v ∈ operands (i_kind i) -> dominated v l (i :: rest);
  ssa_term l b v : block l b -> v ∈ term_operands (bb_term b) -> dominated v l [];
  ssa_phis l b p v pred : block l b -> p ∈ bb_phis b -> (v, pred) ∈ phi_incoming p -> dominated v pred []
}.

(** ** Ways *)

Lemma free_weaken A A' l rest : (forall x, A' x -> A x) -> free A l rest -> free A' l rest.
Proof. intros HA. induction 1; [eapply free_entry|eapply free_step|eapply free_branch]; naive_solver. Qed.
Lemma find_bb_self bs b bs' : bs = b :: bs' -> find_bb bs (bb_name b) = Some b.
Proof. intros ->. unfold find_bb. cbn [List.find]. by rewrite String.eqb_refl. Qed.
Lemma free_suffix A l rest : free A l rest -> exists b, block l b /\ rest `suffix_of` bb_insts b.
Proof.
  induction 1 as [b bs E _|l i rest _ (b & Hb & Hs) _|l b l' b' _ _ _ _ Hb' _].
  - exists b. split; [by eapply find_bb_self|done].
  - exists b. split; [done|]. by eapply suffix_cons_l.
  - exists b'. by split.
Qed.
(** A way to the start of block [l], before its phi nodes. *)
Definition arrives (A : string -> Prop) (l : string) : Prop :=
  (exists b bs, f_blocks F = b :: bs /\ l = bb_name b) \/ exists l0 b0, free A l0 [] /\ block l0 b0 /\ branches_to (bb_term b0) l.
Lemma arrives_free A l b : arrives A l -> block l b -> (forall x, x ∈ map phi_name (bb_phis b) -> ~ A x) -> free A l (bb_insts b).
Proof.
  intros [(b0 & bs & E & ->)|(l0 & b0 & H & H0 & Ht)] Hb Hp; [|by eapply free_branch].
  rewrite (find_bb_self _ _ _ E) in Hb. injection Hb as ->. by eapply free_entry.
Qed.
Lemma arrives_weaken A A' l : (forall x, A' x -> A x) -> arrives A l -> arrives A' l.
Proof. intros HA [H|(l0 & b0 & H & H0)]; [by left|]. right. exists l0, b0. split; [by eapply free_weaken|done]. Qed.
(** The definition of [z] on a way that has not met [A] and [z] before it. *)
Definition first_meets (A : string -> Prop) (z : string) : Prop :=
  (exists l i rest, free (fun x => A x \/ x = z) l (i :: rest) /\ defines i z) \/
  (exists l b, block l b /\ z ∈ map phi_name (bb_phis b) /\ arrives (fun x => A x \/ x = z) l /\
     forall x, x ∈ map phi_name (bb_phis b) -> ~ A x).
Lemma free_or_meets A z l rest : free A l rest -> free (fun x => A x \/ x = z) l rest \/ first_meets A z.
Proof.
  induction 1 as [b bs E Hp|l i rest _ IH Hi|l b l' b' _ IH Hb Ht Hb' Hp].
  - destruct (decide (z ∈ map phi_name (bb_phis b))) as [Hz|Hz].
    + right. right. exists (bb_name b), b. split; [by eapply find_bb_self|]. split; [done|]. split; [left; by exists b, bs|done].
    + left. eapply free_entry; [done|]. intros x Hx [HA| ->]; [by eapply Hp|done].
  - destruct IH as [IH|IH]; [|by right]. destruct (decide (has_result i = true /\ i_name i = z)) as [Hz|Hz].
    + right. left. by exists l, i, rest.
    + left. eapply free_step; [done|]. intros x Hx [HA| ->]; [by eapply Hi|done].
  - destruct IH as [IH|IH]; [|by right]. destruct (decide (z ∈ map phi_name (bb_phis b'))) as [Hz|Hz].
    + right. right. exists l', b'. split; [done|]. split; [done|]. split; [|done]. right. by exists l, b.
    + left. eapply free_branch; eauto. intros x Hx [HA| ->]; [by eapply Hp|done].
Qed.
Lemma arrives_or_meets A z l : arrives A l -> arrives (fun x => A x \/ x = z) l \/ first_meets A z.
Proof.
  intros [H|(l0 & b0 & H & H0)]; [by left; left|]. destruct (free_or_meets A z l0 [] H) as [H1|H1]; [|by right].
  left. right. by exists l0, b0.
Qed.

(** ** Unique definitions *)

Lemma NoDup_flat_map_eq {X Y} (f : X -> list Y) l a b y : NoDup (flat_map f l) -> a ∈ l -> b ∈ l -> y ∈ f a -> y ∈ f b -> a = b.
Proof.
  induction l as [|c l IH]; intros Hn Ha Hb Hya Hyb; [by apply not_elem_of_nil in Ha|]. cbn [flat_map] in Hn.
  apply NoDup_app in Hn as (_ & H & Hn).
  assert (Hin : forall d, d ∈ l -> y ∈ f d -> y ∈ flat_map f l) by (intros d Hd Hy; apply list_elem_of_In, in_flat_map; exists d; by rewrite <- !list_elem_of_In).
  apply elem_of_cons in Ha as [->|Ha], Hb as [->|Hb]; [done| | |by apply IH].
  - exfalso. by eapply H, Hin.
  - exfalso. by eapply H, Hin.
Qed.
Lemma results_suffix l l' x : l `suffix_of` l' -> x ∈ results l -> x ∈ results l'.
Proof. intros (k & ->) H. unfold results in *. rewrite List.filter_app, map_app. apply elem_of_app. by right. Qed.
Lemma results_head i rest x : defines i x -> x ∈ results (i :: rest).
Proof. intros [H <-]. unfold results. cbn [List.filter]. rewrite H. apply elem_of_cons. by left. Qed.
Lemma suffix_same l i rest j rest' x : NoDup (results l) -> i :: rest `suffix_of` l -> j :: rest' `suffix_of` l -> defines i x -> defines j x ->
  i :: rest = j :: rest'.
Proof.
  induction l as [|c l IH]; intros Hn Hi Hj Di Dj; [by apply suffix_nil_inv in Hi|].
  assert (Htail : NoDup (results l) /\ (defines c x -> x ∉ results l)).
  { unfold results in *. cbn [List.filter] in Hn. destruct (has_result c) eqn:Ec.
    - cbn [map] in Hn. apply NoDup_cons in Hn as [H1 H2]. split; [done|]. by intros [_ <-].
    - split; [done|]. intros [H _]. congruence. }
  destruct Htail as [Hn' Hc]. apply suffix_cons_inv in Hi as [Hi|Hi], Hj as [Hj|Hj].
  - congruence.
  - injection Hi as -> ->. exfalso. apply Hc; [done|]. eapply results_suffix; [exact Hj|]. by apply results_head.
  - injection Hj as -> ->. exfalso. apply Hc; [done|]. eapply results_suffix; [exact Hi|]. by apply results_head.
  - by apply IH.
Qed.

Section single.
Context (H : ssa).
Lemma find_bb_spec l b : block l b -> b ∈ f_blocks F /\ bb_name b = l.
Proof. unfold find_bb. intros [E1 E2]%List.find_some. apply String.eqb_eq in E2. by rewrite list_elem_of_In. Qed.
Lemma block_of_def l b l' b' x : block l b -> block l' b' -> x ∈ block_defs b -> x ∈ block_defs b' -> l = l' /\ b = b'.
Proof.
  intros [Hb <-]%find_bb_spec [Hb' <-]%find_bb_spec Hx Hx'. pose proof (ssa_defs H) as Hd. unfold defs in Hd. apply NoDup_app in Hd as (_ & _ & Hd).
  by rewrite (NoDup_flat_map_eq block_defs _ b b' x Hd).
Qed.
Lemma block_defs_nodup l b : block l b -> NoDup (block_defs b).
Proof.
  intros [Hb _]%find_bb_spec. pose proof (ssa_defs H) as Hd. unfold defs in Hd. apply NoDup_app in Hd as (_ & _ & Hd).
  induction (f_blocks F) as [|c bs IH]; [by apply not_elem_of_nil in Hb|]. cbn [flat_map] in Hd. apply NoDup_app in Hd as (H1 & _ & H2).
  apply elem_of_cons in Hb as [->|Hb]; [done|]. by apply IH.
Qed.
Lemma inst_in_defs b i rest x : i :: rest `suffix_of` bb_insts b -> defines i x -> x ∈ block_defs b.
Proof. intros Hs Hd. apply elem_of_app. right. eapply results_suffix; [done|]. by apply results_head. Qed.
Lemma def_unique l b i rest l' b' j rest' x : block l b -> i :: rest `suffix_of` bb_insts b -> defines i x ->
  block l' b' -> j :: rest' `suffix_of` bb_insts b' -> defines j x -> l = l' /\ i :: rest = j :: rest'.
Proof.
  intros Hb Hs Hd Hb' Hs' Hd'. destruct (block_of_def l b l' b' x) as [-> ->]; [done..|by eapply inst_in_defs|by eapply inst_in_defs|]. split; [done|].
  eapply suffix_same; [|exact Hs|exact Hs'|exact Hd|exact Hd']. pose proof (block_defs_nodup _ _ Hb) as Hn. unfold block_defs in Hn.
  by apply NoDup_app in Hn as (_ & _ & Hn).
Qed.
Lemma def_not_phi l b i rest l' b' x : block l b -> i :: rest `suffix_of` bb_insts b -> defines i x -> block l' b' -> x ∈ map phi_name (bb_phis b') -> False.
Proof.
  intros Hb Hs Hd Hb' Hx. destruct (block_of_def l b l' b' x) as [-> ->]; [done..|by eapply inst_in_defs|apply elem_of_app; by left|].
  pose proof (block_defs_nodup _ _ Hb) as Hn. unfold block_defs in Hn. apply NoDup_app in Hn as (_ & Hn & _). apply (Hn x Hx).
  eapply results_suffix; [done|]. by apply results_head.
Qed.
Lemma def_not_arg l b x : block l b -> x ∈ block_defs b -> x ∈ map fst (f_args F) -> False.
Proof.
  intros [Hb _]%find_bb_spec Hx Ha. pose proof (ssa_defs H) as Hd. unfold defs in Hd. apply NoDup_app in Hd as (_ & Hd & _).
  apply (Hd x Ha). apply list_elem_of_In, in_flat_map. exists b. by rewrite <- !list_elem_of_In.
Qed.

(** ** Copies

    An instruction whose result is one of its operands: wherever it dominates,
    its result is what the operand is. *)
Section copies.
Context (copy_of : Inst -> option Value) (Hcopy : forall i v, copy_of i = Some v -> v ∈ operands (i_kind i)).
Definition copy_at (y : string) (v : Value) (l : string) (i : Inst) (rest : list Inst) : Prop :=
  exists b, block l b /\ i :: rest `suffix_of` bb_insts b /\ defines i y /\ copy_of i = Some v.
Definition copies (y : string) (v : Value) : Prop := exists l i rest, copy_at y v l i rest.

Lemma copy_meets A y v l i rest : copy_at y v l i rest -> first_meets A y -> free (fun x => A x \/ x = y) l (i :: rest).
Proof.
  intros (b & Hb & Hs & Hd & _) [(l' & j & rest' & Hf & Hj)|(l' & b' & Hb' & Hy & _)].
  - destruct (free_suffix _ _ _ Hf) as (b' & Hb' & Hs'). by destruct (def_unique l b i rest l' b' j rest' y) as [-> ->].
  - exfalso. exact (def_not_phi l b i rest l' b' y Hb Hs Hd Hb' Hy).
Qed.
Lemma copy_dominated y v l i rest : copy_at y v l i rest -> dominated v l (i :: rest).
Proof. intros (b & Hb & Hs & _ & Hc). eapply (ssa_insts H); [done..|]. by apply Hcopy. Qed.
Lemma copy_not_arg y v l i rest : copy_at y v l i rest -> y ∉ map fst (f_args F).
Proof. intros (b & Hb & Hs & Hd & _) Hy. eapply def_not_arg; [exact Hb| |exact Hy]. by eapply inst_in_defs. Qed.
Lemma reaches_copy y v l i rest : copy_at y v l i rest -> reachable l (i :: rest) -> free (without y) l (i :: rest).
Proof.
  intros Hc Hr. apply (free_weaken (fun x => False \/ x = y)); [by right|].
  destruct (free_or_meets _ y _ _ Hr) as [Hf|Hm]; [done|by eapply copy_meets].
Qed.
Lemma copy_not_itself y l i rest t : copy_at y (Local y t) l i rest -> ~ reachable l (i :: rest).
Proof.
  intros Hc Hr. pose proof (reaches_copy _ _ _ _ _ Hc Hr) as Hf. pose proof (copy_not_arg _ _ _ _ _ Hc).
  destruct (copy_dominated _ _ _ _ _ Hc) as [|Hn]; [done|]. by apply Hn.
Qed.
(** Where the operand is defined again, the copy has not been passed. *)
Lemma operand_meets y x t : copies y (Local x t) -> x ∉ map fst (f_args F) -> forall A, first_meets A y -> first_meets (fun z => A z \/ z = y) x.
Proof.
  intros (l & i & rest & Hc) Hx A Hm. pose proof (copy_meets _ _ _ _ _ _ Hc Hm) as Hf. destruct (free_or_meets _ x _ _ Hf) as [Hn|Hn]; [|done].
  exfalso. destruct (copy_dominated _ _ _ _ _ Hc) as [|Hd]; [done|]. apply Hd. eapply free_weaken; [|exact Hn]. by right.
Qed.
Lemma operand_inst y x t l i rest : copies y (Local x t) -> reachable l (i :: rest) -> defines i x -> free (without y) l rest.
Proof.
  intros Hc Hr Hd. destruct (free_suffix _ _ _ Hr) as (b & Hb & Hs).
  assert (Hx : x ∉ map fst (f_args F)) by (intros Hx; eapply def_not_arg; [exact Hb| |exact Hx]; by eapply inst_in_defs).
  assert (Hf : free (without y) l (i :: rest)).
  { destruct (free_or_meets _ y _ _ Hr) as [Hf|Hm]; [eapply free_weaken; [|exact Hf]; by right|].
    destruct (operand_meets y x t Hc Hx _ Hm) as [(l' & j & rest' & Hf & Hj)|(l' & b' & Hb' & Hp & _)]; [|exfalso; exact (def_not_phi l b i rest l' b' x Hb Hs Hd Hb' Hp)].
    destruct (free_suffix _ _ _ Hf) as (b' & Hb' & Hs'). destruct (def_unique l b i rest l' b' j rest' x) as [-> ->]; [done..|].
    eapply free_weaken; [|exact Hf]. intros z ->. left. by right. }
  eapply free_step; [exact Hf|]. intros z Hz ->. destruct Hc as (l' & j & rest' & Hc). pose proof Hc as (b' & Hb' & Hs' & Hj & _).
  destruct Hd as [Hd1 Hd2], Hz as [_ Hz]. assert (x = y) as -> by congruence.
  destruct (def_unique l b i rest l' b' j rest' y) as [-> E]; [done..|]. rewrite E in Hr. by eapply copy_not_itself.
Qed.
Lemma operand_phi y x t l b : copies y (Local x t) -> arrives (fun _ => False) l -> block l b -> x ∈ map phi_name (bb_phis b) ->
  free (without y) l (bb_insts b).
Proof.
  intros Hc Hr Hb Hp.
  assert (Hx : x ∉ map fst (f_args F)) by (intros Hx; eapply def_not_arg; [exact Hb| |exact Hx]; apply elem_of_app; by left).
  assert (Hy : forall z, z ∈ map phi_name (bb_phis b) -> ~ without y z).
  { intros z Hz ->. destruct Hc as (l' & j & rest' & b' & Hb' & Hs' & Hj & _). exact (def_not_phi l' b' j rest' l b y Hb' Hs' Hj Hb Hz). }
  apply arrives_free; [|done|exact Hy].
  destruct (arrives_or_meets _ y _ Hr) as [Hf|Hm]; [eapply arrives_weaken; [|exact Hf]; by right|].
  destruct (operand_meets y x t Hc Hx _ Hm) as [(l' & j & rest' & Hf & Hj)|(l' & b' & Hb' & Hp' & Ha & _)].
  - exfalso. destruct (free_suffix _ _ _ Hf) as (b' & Hb' & Hs'). exact (def_not_phi l' b' j rest' l b x Hb' Hs' Hj Hb Hp).
  - destruct (block_of_def l b l' b' x) as [-> _]; [done..|apply elem_of_app; by left|apply elem_of_app; by left|].
    eapply arrives_weaken; [|exact Ha]. intros z ->. left. by right.
Qed.
(** What a copy dominates its operand dominates. *)
Lemma copy_chain y v t l rest : copies y v -> dominated (Local y t) l rest -> dominated v l rest.
Proof.
  intros (l' & i & rest' & Hc) [Hy|Hy]; [by apply copy_not_arg in Hc|]. destruct v as [x tx| | | | | | | | | | | |]; try done.
  destruct (decide (x ∈ map fst (f_args F))) as [|Hx]; [by left|]. right. intros Hf. destruct (free_or_meets _ y _ _ Hf) as [Hn|Hm].
  - apply Hy. eapply free_weaken; [|exact Hn]. by right.
  - pose proof (copy_meets _ _ _ _ _ _ Hc Hm) as Hn. destruct (copy_dominated _ _ _ _ _ Hc) as [|Hd]; [done|]. apply Hd.
    eapply free_weaken; [|exact Hn]. by left.
Qed.

(** ** What is known of the values *)

Section values.
Context {V W : Type} {M : Meaning V W}.
Definition fact (e : gmap string V) (y : string) (v : Value) : Prop := default undefined (e !! y) = eval e v.
Definition facts (l : string) (rest : list Inst) (e : gmap string V) : Prop :=
  forall y v, copies y v -> free (without y) l rest \/ fact e y v.
(** The values after an instruction. *)
Definition wrote (i : Inst) (e e1 : gmap string V) : Prop :=
  e1 = e /\ (has_result i = true -> copy_of i = None) \/
  has_result i = true /\ exists x, e1 = <[i_name i := x]> e /\ forall v, copy_of i = Some v -> x = eval e v.

Lemma facts_step l i rest e e1 : reachable l (i :: rest) -> facts l (i :: rest) e -> wrote i e e1 -> facts l rest e1.
Proof.
  intros Hr Hf Hw y v Hc. destruct (free_suffix _ _ _ Hr) as (b & Hb & Hs).
  assert (Hself : defines i y -> fact e1 y v).
  { intros Hd. destruct Hc as (l' & j & rest' & Hc). pose proof Hc as (b' & Hb' & Hs' & Hj & Ev).
    destruct (def_unique l b i rest l' b' j rest' y) as [-> E]; [done..|]. injection E as -> ->.
    destruct Hw as [[_ Hw]|(_ & x & -> & Hx)]; [destruct Hd as [Hd _]; specialize (Hw Hd); congruence|].
    destruct Hd as [_ <-]. specialize (Hx v Ev). unfold fact. rewrite lookup_insert_eq. cbn [default]. subst x.
    destruct v as [x tx| | | | | | | | | | | |]; try done. cbn [eval]. rewrite lookup_insert_ne; [done|].
    intros <-. by eapply copy_not_itself. }
  destruct (decide (has_result i = true /\ i_name i = y)) as [Hd|Hd]; [right; by apply Hself|].
  destruct (Hf y v Hc) as [Hy|Hy].
  - left. eapply free_step; [exact Hy|]. intros z Hz ->. by apply Hd.
  - destruct Hw as [[-> _]|(Hres & x & -> & _)]; [by right|]. assert (Hny : i_name i <> y) by (intros E; by apply Hd).
    unfold fact in *. rewrite lookup_insert_ne by done. destruct v as [z tz| | | | | | | | | | | |]; try (by right).
    destruct (decide (i_name i = z)) as [<-|Hz]; [left; by eapply operand_inst|]. right. cbn [eval]. by rewrite lookup_insert_ne.
Qed.
Lemma enter_other e pred ps e1 z : enter e pred ps = Some e1 -> z ∉ map phi_name ps -> e1 !! z = e !! z.
Proof.
  revert e1. induction ps as [|p ps IH]; intros e1 E Hz; cbn [enter map] in *; [by injection E as <-|].
  apply bind_Some in E as (l & _ & E). apply bind_Some in E as (v & _ & E). apply bind_Some in E as (e2 & E2 & E). injection E as <-.
  apply not_elem_of_cons in Hz as [Hz1 Hz2]. rewrite lookup_insert_ne by done. by apply IH.
Qed.
Lemma facts_enter l b e e1 pred : block l b -> arrives (fun _ => False) l ->
  (forall y v, copies y v -> arrives (without y) l \/ fact e y v) -> enter e pred (bb_phis b) = Some e1 -> facts l (bb_insts b) e1.
Proof.
  intros Hb Hr Hf He y v Hc.
  assert (Hy : y ∉ map phi_name (bb_phis b)) by (intros Hy; destruct Hc as (l' & j & rest' & b' & Hb' & Hs' & Hj & _); exact (def_not_phi l' b' j rest' l b y Hb' Hs' Hj Hb Hy)).
  destruct (Hf y v Hc) as [Ha|Ha].
  - left. apply arrives_free; [done|done|]. by intros z Hz ->.
  - unfold fact in *. rewrite (enter_other e pred (bb_phis b) e1) by done. destruct v as [x t| | | | | | | | | | | |]; try (by right).
    destruct (decide (x ∈ map phi_name (bb_phis b))) as [Hx|Hx]; [left; by eapply operand_phi|]. right. cbn [eval].
    by rewrite (enter_other e pred (bb_phis b) e1).
Qed.
End values.
End copies.
End single.
End ways.

(** ** Checking dominance

    [avail l]: names defined on every way to block [l]. A table that agrees with
    the branches shows that uses are dominated. *)
Section check.
Context (avail : string -> list string) (F : Function_).
Definition targets (t : Term) : list string := match t with Br _ a b => [a; b] | Jmp a => [a] | _ => [] end.
Definition subset_b (l l' : list string) : bool := forallb (fun x => bool_decide (x ∈ l')) l.
Definition known (defined : list string) (v : Value) : bool :=
  match v with Local z _ => bool_decide (z ∈ map fst (f_args F)) || bool_decide (z ∈ defined) | _ => true end.
Fixpoint insts_known (defined : list string) (l : list Inst) : bool :=
  match l with
  | [] => true
  | i :: l => forallb (known defined) (operands (i_kind i)) && insts_known (if has_result i then i_name i :: defined else defined) l
  end.
Definition phi_known (p : Phi) : bool :=
  forallb (fun inc : Value * string =>
    match find_bb (f_blocks F) (snd inc) with Some b => known (avail (snd inc) ++ block_defs b) (fst inc) | None => false end) (phi_incoming p).
Definition block_check (b : Block) : bool :=
  forallb (fun l => subset_b (avail l) (avail (bb_name b) ++ block_defs b)) (targets (bb_term b)) &&
  insts_known (avail (bb_name b) ++ map phi_name (bb_phis b)) (bb_insts b) &&
  forallb (known (avail (bb_name b) ++ block_defs b)) (term_operands (bb_term b)) && forallb phi_known (bb_phis b).
Definition ssa_check : bool :=
  bool_decide (NoDup (defs F)) && bool_decide (NoDup (map bb_name (f_blocks F))) &&
  match f_blocks F with b :: _ => bool_decide (avail (bb_name b) = []) | [] => true end && forallb block_check (f_blocks F).

Lemma ssa_check_spec : ssa_check = true -> NoDup (defs F) /\ NoDup (map bb_name (f_blocks F)) /\
  (forall b bs, f_blocks F = b :: bs -> avail (bb_name b) = []) /\ forall b, b ∈ f_blocks F -> block_check b = true.
Proof.
  unfold ssa_check. rewrite !andb_true_iff, !bool_decide_eq_true. intros (((H1 & H2) & H3) & H4). split; [done|]. split; [done|]. split.
  - intros b bs E. rewrite E in H3. by apply bool_decide_eq_true in H3.
  - intros b Hb. rewrite forallb_forall in H4. apply H4. by apply list_elem_of_In.
Qed.
(** On a way that avoids [z], [z] is in no list of defined names. *)
Lemma free_not_available z l rest b : ssa_check = true -> free F (without z) l rest -> find_bb (f_blocks F) l = Some b ->
  exists pre, bb_insts b = pre ++ rest /\ z ∉ avail l ++ map phi_name (bb_phis b) /\ z ∉ results pre.
Proof.
  intros Hc H. destruct (ssa_check_spec Hc) as (_ & _ & H3 & H4). revert b. induction H as [b0 bs E Hp|l i rest _ IH Hi|l b0 l' b' Hf IH Hb0 Ht Hb' Hp]; intros b Hb.
  - rewrite (find_bb_self _ _ _ E) in Hb. injection Hb as <-. exists []. split; [done|]. split; [|by apply not_elem_of_nil]. rewrite (H3 _ _ E).
    intros Hz. by eapply Hp.
  - destruct (IH b Hb) as (pre & E & H1 & H2). exists (pre ++ [i]). split; [by rewrite <- app_assoc|]. split; [done|]. unfold results in *. rewrite List.filter_app, map_app.
    intros [Hz|Hz]%elem_of_app; [done|]. cbn [List.filter] in Hz. destruct (has_result i) eqn:Er; [|by apply not_elem_of_nil in Hz].
    apply list_elem_of_singleton in Hz as ->. by apply (Hi (i_name i)).
  - rewrite Hb' in Hb. injection Hb as <-. exists []. split; [done|]. split; [|by apply not_elem_of_nil]. intros [Hz|Hz]%elem_of_app; [|by eapply Hp].
    destruct (IH b0 Hb0) as (pre & E & K1 & K2). rewrite app_nil_r in E. apply (find_bb_spec F) in Hb0 as [Hin <-]. specialize (H4 b0 Hin). unfold block_check in H4.
    rewrite !andb_true_iff in H4. destruct H4 as (((H4 & _) & _) & _). rewrite forallb_forall in H4. specialize (H4 l').
    assert (In l' (targets (bb_term b0))) as Hl by (destruct (bb_term b0); cbn [targets branches_to In] in *; intuition (subst; auto)). specialize (H4 Hl). unfold subset_b in H4. rewrite forallb_forall in H4.
    apply list_elem_of_In in Hz. specialize (H4 z Hz). apply bool_decide_eq_true in H4. unfold block_defs in H4. rewrite E in H4. set_solver.
Qed.
Lemma known_dominated v defined l rest b pre : ssa_check = true -> known defined v = true -> find_bb (f_blocks F) l = Some b -> bb_insts b = pre ++ rest ->
  (forall z, z ∈ defined -> z ∈ avail l ++ map phi_name (bb_phis b) \/ z ∈ results pre) -> dominated F v l rest.
Proof.
  intros Hc Hk Hb E Hd. destruct v as [z t| | | | | | | | | | | |]; try done. cbn [known] in Hk. apply orb_true_iff in Hk as [Hk|Hk]; apply bool_decide_eq_true in Hk; [by left|].
  right. intros Hf. destruct (free_not_available z l rest b Hc Hf Hb) as (pre' & E' & H1 & H2). rewrite E in E'. apply app_inv_tail in E' as <-.
  by destruct (Hd z Hk).
Qed.
Lemma insts_known_at l : forall defined pre i rest v, insts_known defined l = true -> l = pre ++ i :: rest -> v ∈ operands (i_kind i) ->
  exists defined', known defined' v = true /\ forall z, z ∈ defined' -> z ∈ defined \/ z ∈ results pre.
Proof.
  induction l as [|j l IH]; intros defined pre i rest v H E Hv; [by destruct pre|]. cbn [insts_known] in H. apply andb_true_iff in H as [H1 H2].
  destruct pre as [|k pre]; injection E as -> ->.
  - rewrite forallb_forall in H1. exists defined. split; [by apply H1, list_elem_of_In|]. by left.
  - destruct (IH _ pre i rest v H2 eq_refl Hv) as (d & Hd & Hz). exists d. split; [done|]. intros z Hz'. specialize (Hz z Hz'). unfold results in *. cbn [List.filter].
    destruct (has_result k); cbn [map]; set_solver.
Qed.
Lemma ssa_check_sound : ssa_check = true -> ssa F.
Proof.
  intros Hc. destruct (ssa_check_spec Hc) as (H1 & H2 & H3 & H4).
  assert (Hblock : forall l b, find_bb (f_blocks F) l = Some b -> block_check b = true /\ bb_name b = l) by (intros l b [Hb <-]%(find_bb_spec F); by split; [apply H4|]).
  split; [done|done|..].
  - intros l b i rest v Hb (pre & E) Hv. destruct (Hblock l b Hb) as [H <-]. unfold block_check in H. rewrite !andb_true_iff in H. destruct H as (((_ & H) & _) & _).
    destruct (insts_known_at _ _ pre i rest v H E Hv) as (d & Hd & Hz). by eapply known_dominated.
  - intros l b v Hb Hv. destruct (Hblock l b Hb) as [H <-]. unfold block_check in H. rewrite !andb_true_iff in H. destruct H as ((_ & H) & _).
    rewrite forallb_forall in H. eapply known_dominated; [done|by apply H, list_elem_of_In|exact Hb|by rewrite app_nil_r|]. unfold block_defs. set_solver.
  - intros l b p v pred Hb Hp Hv. destruct (Hblock l b Hb) as [H <-]. unfold block_check in H. rewrite !andb_true_iff in H. destruct H as (_ & H).
    rewrite forallb_forall in H. apply list_elem_of_In in Hp. specialize (H p Hp). unfold phi_known in H. rewrite forallb_forall in H. apply list_elem_of_In in Hv.
    specialize (H (v, pred) Hv). cbn [fst snd] in H. destruct (find_bb (f_blocks F) pred) as [b'|] eqn:Eb'; [|done].
    eapply known_dominated; [done|exact H|exact Eb'|by rewrite app_nil_r|]. unfold block_defs. set_solver.
Qed.
End check.

(** ** Running two functions side by side *)

Section simulation.
Context {V W : Type} (M M' : Meaning V W) (S : gset string) (bs bs' : list Block).
(** What relates the values before block [l] is entered from [pred]. *)
Context (P : option string -> string -> gmap string V -> gmap string V -> Prop).
Definition block_simulated (pred : option string) (l : string) (e e' : gmap string V) (b b' : Block) : Prop :=
  forall m w e1 e2 m2 w2 x, enter (M := M) e pred (bb_phis b) = Some e1 ->
    exec_insts (M := M) S (bb_insts b) (e1, m, w) = Some (e2, m2, w2) -> leave (M := M) e2 (bb_term b) = Some x ->
    exists e1' e2', enter (M := M') e' pred (bb_phis b') = Some e1' /\
      exec_insts (M := M') S (bb_insts b') (e1', m, w) = Some (e2', m2, w2) /\ leave (M := M') e2' (bb_term b') = Some x /\
      forall l', x = Goto l' -> P (Some l) l' e2 e2'.
Lemma run_blocks_simulated : (forall pred l e e' b, P pred l e e' -> find_bb bs l = Some b ->
    exists b', find_bb bs' l = Some b' /\ block_simulated pred l e e' b b') ->
  forall fuel pred l e e' m w r, P pred l e e' -> run_blocks (M := M) S fuel bs l pred (e, m, w) = Some r ->
    run_blocks (M := M') S fuel bs' l pred (e', m, w) = Some r.
Proof.
  intros H. induction fuel as [|fuel IH]; intros pred l e e' m w r HP; [done|]. cbn [run_blocks].
  intros (b & Eb & E)%bind_Some. destruct (H pred l e e' b HP Eb) as (b' & -> & Hb). cbn [mbind option_bind].
  apply bind_Some in E as (e1 & E1 & E). apply bind_Some in E as ([[e2 m2] w2] & E2 & E). apply bind_Some in E as (x & Ex & E).
  destruct (Hb m w e1 e2 m2 w2 x E1 E2 Ex) as (e1' & e2' & -> & E2' & Ex' & HP'). cbn [mbind option_bind]. rewrite E2'. cbn [mbind option_bind].
  rewrite Ex'. cbn [mbind option_bind]. destruct x as [l'|v]; [|done]. eapply IH; [by apply HP'|exact E].
Qed.
End simulation.

Section calls.
Context {V W : Type} (M : Meaning V W).
Context (base : string -> list V -> W -> option (option V * W)) (slots : string -> gset string).
(** Modules whose functions do the same, each with the same arguments. *)
Section on.
(** The arguments for which they do. *)
Context (ok : string -> list V -> Prop).
Lemma call_simulated_on m m' :
  (forall g F, find_function m g = Some F -> exists F', find_function m' g = Some F' /\ f_args F' = f_args F /\
     map bb_name (f_blocks F') = map bb_name (f_blocks F) /\
     forall fuel c', (forall h args w r, ok h args -> call_function M base slots fuel m h args w = Some r -> c' h args w = Some r) ->
       forall b bs args w r, ok g args -> f_blocks F = b :: bs ->
       run_blocks (M := with_calls M (call_function M base slots fuel m)) (slots g) fuel (f_blocks F) (bb_name b) None (list_to_map (zip (map fst (f_args F)) args), ∅, w) = Some r ->
       run_blocks (M := with_calls M c') (slots g) fuel (f_blocks F') (bb_name b) None (list_to_map (zip (map fst (f_args F)) args), ∅, w) = Some r) ->
  forall fuel g args w r, ok g args -> call_function M base slots fuel m g args w = Some r -> call_function M base slots fuel m' g args w = Some r.
Proof.
  intros H fuel. induction fuel as [|fuel IH]; intros g args w r Hok E; [done|]. cbn [call_function] in *.
  apply bind_Some in E as (F & HF & E). destruct (H g F HF) as (F' & -> & Ha & Hn & Hr). cbn [mbind option_bind]. rewrite Ha.
  destruct (f_blocks F) as [|b bs] eqn:Eb; destruct (f_blocks F') as [|b' bs'] eqn:Eb'; try discriminate Hn; [exact E|].
  cbn [map] in Hn. injection Hn as -> _. by eapply Hr.
Qed.
End on.
Lemma call_simulated m m' :
  (forall g F, find_function m g = Some F -> exists F', find_function m' g = Some F' /\ f_args F' = f_args F /\
     map bb_name (f_blocks F') = map bb_name (f_blocks F) /\
     forall c c', (forall h args w r, c h args w = Some r -> c' h args w = Some r) -> forall fuel b bs e w r, f_blocks F = b :: bs ->
       run_blocks (M := with_calls M c) (slots g) fuel (f_blocks F) (bb_name b) None (e, ∅, w) = Some r ->
       run_blocks (M := with_calls M c') (slots g) fuel (f_blocks F') (bb_name b) None (e, ∅, w) = Some r) ->
  forall fuel g args w r, call_function M base slots fuel m g args w = Some r -> call_function M base slots fuel m' g args w = Some r.
Proof.
  intros H fuel g args w r. apply (call_simulated_on (fun _ _ => True)); [|done]. intros h F HF. destruct (H h F HF) as (F' & H1 & H2 & H3 & H4). exists F'.
  split; [done|]. split; [done|]. split; [done|]. intros fuel' c' Hc b bs args' w' r' _ Eb. eapply H4; [|exact Eb]. intros k args'' w'' r''. by apply Hc.
Qed.
End calls.

(** ** Operands exchanged for others of the same value *)

(** Whether an instruction does something depends on the values of its operands
    and their types, and on what it calls. *)
Definition blank (v : Value) : Value := OtherConstant (type_of v).
Definition skeleton (k : inst_kind) : inst_kind :=
  match k with Call callee cc args => Call callee cc (map blank args) | k => map_operands blank k end.
Class Uniform {V W : Type} (M : Meaning V W) := {
  sem_uniform i i' vs w : i_name i = i_name i' -> i_type i = i_type i' -> skeleton (i_kind i) = skeleton (i_kind i') ->
    sem i vs w = sem i' vs w
}.
Definition map_inst (g : Value -> Value) (i : Inst) : Inst := {| i_name := i_name i; i_type := i_type i; i_kind := map_operands g (i_kind i) |}.
Definition map_phi (g : Value -> Value) (p : Phi) : Phi :=
  {| phi_name := phi_name p; phi_type := phi_type p;
     phi_incoming := map (fun inc : Value * string => (g (fst inc), snd inc)) (phi_incoming p) |}.
Lemma operands_map g k : operands (map_operands g k) = map g (operands k).
Proof. destruct k; cbn [map_operands operands map]; try done. by rewrite map_app. Qed.
Lemma skeleton_map g k : (forall callee cc args, k = Call callee cc args -> g callee = callee) ->
  (forall v, v ∈ operands k -> type_of (g v) = type_of v) -> skeleton (map_operands g k) = skeleton k.
Proof.
  intros Hc Ht.
  assert (Hl : forall l, (forall v, v ∈ l -> type_of (g v) = type_of v) -> map blank (map g l) = map blank l).
  { intros l H. induction l as [|v l IH]; [done|]. cbn [map]. unfold blank at 1 3. rewrite H by (apply elem_of_cons; by left).
    rewrite IH; [done|]. intros u Hu. apply H, elem_of_cons. by right. }
  assert (H1 : forall v, v ∈ operands k -> blank (g v) = blank v) by (intros v Hv; unfold blank; by rewrite Ht).
  destruct k as [t size|p|v p|inb p l|op a b|op v|pr a b|c t f|callee cc args| |v|args]; cbn [map_operands skeleton operands] in *;
    try (by rewrite !H1 by (rewrite ?elem_of_cons; tauto)); try done.
  - rewrite H1 by (apply elem_of_cons; by left). rewrite Hl; [done|]. intros v Hv. apply Ht, elem_of_cons. by right.
  - rewrite (Hc callee cc args eq_refl), Hl; [done|]. intros v Hv. apply Ht, elem_of_app. by left.
  - by rewrite Hl.
Qed.
Lemma exec_inst_exchanged {V W} (M : Meaning V W) `{!Uniform M} (c c' : string -> list V -> W -> option (option V * W)) S g i e e' m w e1 m1 w1 :
  (forall h t cc args w r, i_kind i = Call (FunctionValue h t) cc args ->
     c h (map (eval (M := M) e) args) w = Some r -> c' h (map (eval (M := M) e) args) w = Some r) ->
  (forall callee cc args, i_kind i = Call callee cc args -> g callee = callee) ->
  (forall v, v ∈ operands (i_kind i) -> type_of (g v) = type_of v /\ slot_of S (g v) = slot_of S v /\
     eval (M := M) e' (g v) = eval (M := M) e v) ->
  exec_inst (M := with_calls M c) S i (e, m, w) = Some (e1, m1, w1) ->
  exists e1', exec_inst (M := with_calls M c') S (map_inst g i) (e', m, w) = Some (e1', m1, w1) /\
    (e1 = e /\ e1' = e' \/ exists x, e1 = <[i_name i := x]> e /\ e1' = <[i_name i := x]> e').
Proof.
  intros Hc Hcall Hops H.
  assert (Hvals : map (eval (M := with_calls M c') e') (operands (i_kind (map_inst g i))) = map (eval (M := with_calls M c) e) (operands (i_kind i))).
  { cbn [map_inst i_kind]. rewrite operands_map, map_map. apply map_ext_in. intros v Hv. apply list_elem_of_In in Hv. by apply Hops. }
  assert (Hsem : forall r, sem (Meaning := with_calls M c) i (map (eval (M := M) e) (operands (i_kind i))) w = Some r ->
    sem (Meaning := with_calls M c') (map_inst g i) (map (eval (M := M) e) (operands (i_kind i))) w = Some r).
  { assert (Hu : forall vs, sem (Meaning := M) i vs w = sem (Meaning := M) (map_inst g i) vs w).
    { intros vs'. apply sem_uniform; [done|done|]. cbn [map_inst i_kind]. symmetry. apply skeleton_map; [done|]. intros v Hv. by apply Hops. }
    intros r. specialize (Hu (map (eval (M := M) e) (operands (i_kind i)))).
    assert (Hk : i_kind (map_inst g i) = map_operands g (i_kind i)) by done. cbn [sem with_calls]. rewrite Hk.
    destruct (i_kind i) as [| | | | | | | |callee cc args| | |] eqn:Ek; cbn [map_operands]; rewrite ?Ek in Hu; try (rewrite Hu; done).
    rewrite (Hcall callee cc args eq_refl). rewrite length_map. destruct callee; try (rewrite Hu; done).
    cbn [operands]. rewrite map_app, firstn_app, length_map, Nat.sub_diag, firstn_O, app_nil_r, firstn_all2 by (by rewrite length_map).
    intros ([v w'] & E1 & E2)%bind_Some. apply bind_Some. exists (v, w'). split; [by eapply Hc|done]. }
  assert (G : ('(v, w') ← sem (Meaning := with_calls M c) i (map (eval (M := with_calls M c) e) (operands (i_kind i))) w;
      Some (match i_type i with TyVoid => e | _ => <[i_name i:=v]> e end, m, w')) = Some (e1, m1, w1) ->
    exists e1', ('(v, w') ← sem (Meaning := with_calls M c') (map_inst g i) (map (eval (M := with_calls M c') e') (operands (i_kind (map_inst g i)))) w;
      Some (match i_type i with TyVoid => e' | _ => <[i_name i:=v]> e' end, m, w')) = Some (e1', m1, w1) /\
      (e1 = e /\ e1' = e' \/ exists x, e1 = <[i_name i := x]> e /\ e1' = <[i_name i := x]> e')).
  { intros G. rewrite Hvals. apply bind_Some in G as ([v w'] & Ev & G). injection G as <- <- <-. rewrite (Hsem _ Ev : sem (Meaning := with_calls M c') _ (map (eval (M := with_calls M c) e) _) _ = _). cbn [mbind option_bind].
    eexists. split; [reflexivity|]. destruct (i_type i); [by left|right; by exists v..]. }
  unfold exec_inst in *. cbn [map_inst i_kind i_type i_name] in *. destruct (i_kind i) as [t n|p|v p| | | | | | | | |] eqn:Ek; cbn [map_operands] in *; try (by apply G).
  - destruct (decide (i_name i ∈ S)); [|by apply G]. injection H as <- <- <-. exists e'. by split; [|left].
  - cbn [operands] in Hops. destruct (Hops p) as (_ & -> & _); [apply elem_of_cons; by left|]. destruct (slot_of S p); [|by apply G].
    apply bind_Some in H as (v & -> & H). injection H as <- <- <-. cbn [mbind option_bind]. eexists. split; [reflexivity|]. right. by exists v.
  - cbn [operands] in Hops. destruct (Hops p) as (_ & -> & _); [rewrite !elem_of_cons; tauto|].
    destruct (slot_of S p); [|by apply G]. destruct (Hops v) as (_ & _ & Hv); [rewrite !elem_of_cons; tauto|]. injection H as <- <- <-. exists e'. split; [|by left].
    by rewrite (Hv : eval (M := with_calls M c') e' (g v) = eval (M := with_calls M c) e v).
Qed.
(** Integer instructions depend on the types of their operands only. *)
#[export] Instance integer_uniform {W} address_of (other : Inst -> list Z -> W -> option (Z * W)) :
  (forall i i' vs w, i_name i = i_name i' -> i_type i = i_type i' -> skeleton (i_kind i) = skeleton (i_kind i') -> other i vs w = other i' vs w) ->
  Uniform (integer_meaning address_of other).
Proof.
  intros Ho. constructor. intros i i' vs w Hn Ht Hk. cbn [sem integer_meaning]. unfold integer_sem. pose proof (Ho i i' vs w Hn Ht Hk) as Ho'.
  destruct (i_kind i), (i_kind i'); try discriminate Hk; cbn [skeleton map_operands] in Hk; unfold blank in Hk; try (injection Hk as; subst);
    try exact Ho'; try congruence; destruct vs as [|x [|y [|z [|? ?]]]]; try exact Ho'; rewrite ?Ht; congruence.
Qed.
