(* ===== verification/Addresses.v ===== *)
(** * Addresses: the layout of types and what getelementptr computes

    The address arithmetic of the LLVM language reference, added to the integers
    of Integers.v: what the passes that take getelementptrs apart are judged by.
    The layout of structures is LLVM's, a parameter. *)
From S2P Require Import Prelude IR Semantics Integers.
Local Open Scope string_scope.
Local Open Scope list_scope.
Local Open Scope Z_scope.

Section addresses.
(** The bodies of the identified structs; the offsets of a struct's elements
    and its size, in bytes; the size of a pointer and of a floating point
    number. *)
Context (bodies : structs) (StructLayout : ty -> option (list Z * Z)) (pointer_size float_size : Z).

Definition fields_of (t : ty) : option (list ty) :=
  match t with TyStruct _ l => Some l | TyNamed s => snd <$> bodies !! s | _ => None end.

(** An integer takes a power of two of bytes. *)
Definition int_size (w : Z) : Z := 2 ^ Z.log2_up ((w + 7) / 8).
Fixpoint alloc_size (t : ty) : option Z :=
  match t with
  | TyInt w => Some (int_size w)
  | TyFloat => Some float_size
  | TyPtr _ => Some pointer_size
  | TyArr n t => s ← alloc_size t; Some (n * s)
  | TyStruct _ _ | TyNamed _ => snd <$> StructLayout t
  | TyVoid | TyFun _ _ _ => None
  end.

(** The indices after the first, with their values: elements of an array are
    counted by a signed integer, those of a struct by a constant. *)
Fixpoint offset_of (t : ty) (l : list (Value * Z)) : option Z :=
  match l with
  | [] => Some 0
  | (v, x) :: l =>
      match t with
      | TyArr _ t => w ← width (type_of v); s ← alloc_size t; o ← offset_of t l; Some (swrap w x * s + o)
      | TyStruct _ _ | TyNamed _ =>
          match v with
          | ConstantInt w k =>
              let k := Z.to_nat (wrap w k) in
              fs ← fields_of t; lay ← StructLayout t; t' ← fs !! k; off ← fst lay !! k; o ← offset_of t' l; Some (off + o)
          | _ => None
          end
      | _ => None
      end
  end.
(** The offset from the pointer, without wrapping. *)
Definition gep_offset (t : ty) (l : list (Value * Z)) : option Z :=
  match l with
  | [] => Some 0
  | (v, x) :: l => w ← width (type_of v); s ← alloc_size t; o ← offset_of t l; Some (swrap w x * s + o)
  end.
Definition address_sem (i : Inst) (vs : list Z) (u : unit) : option (Z * unit) :=
  match i_kind i, vs with
  | GetElementPtr _ p idx, a :: xs =>
      match type_of p with
      | TyPtr t => o ← gep_offset t (zip idx xs); Some (wrap 64 (a + o), u)
      | _ => None
      end
  | _, _ => None
  end.
Definition address_meaning (address_of : Value -> Z) : Meaning Z unit := integer_meaning address_of address_sem.
Definition run_insts (address_of : Value -> Z) (l : list Inst) (e : gmap string Z) : option (gmap string Z) :=
  '(e, _, _) ← exec_insts (M := address_meaning address_of) ∅ l (e, ∅, tt); Some e.
End addresses.

(** Running instructions one after the other. *)
Lemma run_insts_cons bodies lay ps fs ao i l e :
  run_insts bodies lay ps fs ao (i :: l) e =
  '(v, _) ← sem (Meaning := address_meaning bodies lay ps fs ao) i
    (map (eval (M := address_meaning bodies lay ps fs ao) e) (operands (i_kind i))) tt;
  run_insts bodies lay ps fs ao l (match i_type i with TyVoid => e | _ => <[i_name i := v]> e end).
Proof.
  unfold run_insts. cbn [exec_insts]. rewrite exec_inst_no_slots.
  destruct (sem _ _ _) as [[v []]|]; [|done]. by cbn [mbind option_bind].
Qed.
Lemma run_insts_app bodies lay ps fs ao l l' e :
  run_insts bodies lay ps fs ao (l ++ l') e = e ← run_insts bodies lay ps fs ao l e; run_insts bodies lay ps fs ao l' e.
Proof.
  revert e. induction l as [|i l IH]; intros e; [done|]. cbn [app]. rewrite !run_insts_cons.
  destruct (sem _ _ _) as [[v []]|]; [|done]. cbn [mbind option_bind]. apply IH.
Qed.

(** *** Single instructions *)

Section steps.
Context (bodies : structs) (StructLayout : ty -> option (list Z * Z)) (pointer_size float_size : Z) (address_of : Value -> Z).
Abbreviation run := (run_insts bodies StructLayout pointer_size float_size address_of).
Abbreviation gep_offset := (gep_offset bodies StructLayout pointer_size float_size).
Abbreviation M := (address_meaning bodies StructLayout pointer_size float_size address_of).
Abbreviation eval := (Semantics.eval (M := M)).

Lemma sem_getelementptr i inb p idx T a xs : i_kind i = GetElementPtr inb p idx -> type_of p = TyPtr T ->
  sem (Meaning := M) i (a :: xs) tt = o ← gep_offset T (zip idx xs); Some (wrap 64 (a + o), tt).
Proof.
  intros Hk Hp. unfold sem, address_meaning, integer_meaning, integer_sem, address_sem. rewrite Hk. cbv beta iota. by rewrite Hp.
Qed.
Lemma run_getelementptr x t t' e L inb p idx T o : type_of p = TyPtr T -> t = TyPtr t' ->
  gep_offset T (zip idx (map (eval e) idx)) = Some o ->
  run (inst x t (GetElementPtr inb p idx) :: L) e = run L (<[x := wrap 64 (eval e p + o)]> e).
Proof.
  intros Hp -> Ho. rewrite run_insts_cons.
  cbn [inst i_kind operands map i_name i_type]. by erewrite sem_getelementptr, Ho by done.
Qed.
Lemma run_bitcast x t t' e L p T : type_of p = TyPtr T -> t = TyPtr t' ->
  run (inst x t (Cast BitCast p) :: L) e = run L (<[x := eval e p]> e).
Proof.
  intros Hp ->. rewrite run_insts_cons. cbn [inst i_kind operands map i_name i_type].
  unfold sem, address_meaning, integer_meaning, integer_sem. cbn [inst i_kind i_type]. cbv beta iota. by rewrite Hp.
Qed.
Lemma sem_binary i op a b w x y : i_kind i = Binary op a b -> type_of a = TyInt w ->
  sem (Meaning := M) i [x; y] tt = r ← binary_value op w x y; Some (r, tt).
Proof.
  intros Hk Ha. unfold sem, address_meaning, integer_meaning, integer_sem. rewrite Hk. cbv beta iota. by rewrite Ha.
Qed.
Lemma run_binary x w op a b r e L : type_of a = TyInt w -> binary_value op w (eval e a) (eval e b) = Some r ->
  run (inst x (TyInt w) (Binary op a b) :: L) e = run L (<[x := r]> e).
Proof.
  intros Ha Hr. rewrite run_insts_cons. cbn [inst i_kind operands map i_name i_type].
  by erewrite sem_binary, Hr by done.
Qed.
Lemma run_mul x w a b e L : type_of a = TyInt w ->
  run (inst x (TyInt w) (Binary Mul a b) :: L) e = run L (<[x := wrap w (eval e a * eval e b)]> e).
Proof. intros Ha. apply run_binary; [done|]. cbn [binary_value]. unfold wrap. by rewrite <- Zmult_mod. Qed.
Lemma run_add x w a b e L : type_of a = TyInt w ->
  run (inst x (TyInt w) (Binary Add a b) :: L) e = run L (<[x := wrap w (eval e a + eval e b)]> e).
Proof. intros Ha. apply run_binary; [done|]. cbn [binary_value]. unfold wrap. by rewrite <- Zplus_mod. Qed.
(** One index over what the pointer points to. *)
Lemma gep_offset_one t v e w s : type_of v = TyInt w -> alloc_size StructLayout pointer_size float_size t = Some s ->
  gep_offset t (zip [v] (map (eval e) [v])) = Some (swrap w (eval e v) * s).
Proof.
  intros Hv Hs. unfold Addresses.gep_offset. cbn [zip zip_with map]. rewrite Hv, Hs. cbn [width mbind option_bind].
  destruct t; cbn [offset_of mbind option_bind]; by rewrite Z.add_0_r.
Qed.
End steps.
