(* ===== verification/Utilities.v ===== *)
(** * Utilities: what the passes share

    libclambcc/ClamBCUtilities.cpp: whether a function can call itself, and the
    replacement of calls to an intrinsic by calls to a function. *)
From S2P Require Import Prelude IR Semantics.
Local Open Scope string_scope.
Local Open Scope list_scope.
Local Open Scope Z_scope.
Local Open Scope outcome_scope.

(** ** Recursion *)

Section recursion.
Context (m : Module_).

(** The functions a function calls, in order; [None] is a call of anything but
    a function. *)
Definition inst_callee (i : Inst) : list (option string) :=
  match i_kind i with
  | Call (FunctionValue g _) _ _ => [Some g]
  | Call _ _ _ => [None]
  | _ => []
  end.
Definition callees (f : string) : list (option string) :=
  match find_function m f with
  | Some F => flat_map inst_callee (all_insts F)
  | None => []
  end.

(** functionRecurses with its list of visited functions, which it passes by
    reference; the depth of the recursion is at most [fuel]. *)
Section scan.
Context (recurses : string -> list string -> outcome (bool * list string)) (orig : string).
Fixpoint scan_calls (cs : list (option string)) (visited : list string) : outcome (bool * list string) :=
  match cs with
  | [] => Done (false, visited)
  | None :: _ => Stop "Calls to function pointers not allowed"
  | Some g :: cs =>
      if String.eqb g orig then Done (true, visited)
      else let* (b, visited) := recurses g visited in
           if b : bool then Done (true, visited) else scan_calls cs visited
  end.
End scan.
Fixpoint recurses (fuel : nat) (orig f : string) (visited : list string) : outcome (bool * list string) :=
  match fuel with
  | O => Undefined "fuel"
  | S fuel =>
      if bool_decide (f ∈ visited) then Done (false, visited)
      else scan_calls (recurses fuel orig) orig (callees f) (visited ++ [f])
  end.
(** Every level visits another of the module's functions. *)
Definition functionRecurses (f : string) : outcome bool :=
  let* (b, _) := recurses (length (m_functions m) + 2) f f [] in Done b.

(** *** A function recurses if a chain of calls leads back to it *)

Definition calls (f g : string) : Prop := Some g ∈ callees f.

(** Nothing visited is about to be reported: what a visited function calls is
    not [orig] and is visited too, except for those whose calls are being
    scanned. *)
Definition closed (orig : string) (open visited : list string) : Prop :=
  forall f, f ∈ visited -> f ∉ open -> forall c, c ∈ callees f -> exists g, c = Some g /\ g <> orig /\ g ∈ visited.

Lemma scan_true rec orig cs visited visited' :
  (forall g v v', Some g ∈ cs -> rec g v = Done (true, v') -> tc calls g orig) ->
  scan_calls rec orig cs visited = Done (true, visited') ->
  exists g, Some g ∈ cs /\ (g = orig \/ tc calls g orig).
Proof.
  revert visited. induction cs as [|[g|] cs IH]; intros visited Hrec H; cbn [scan_calls] in H; try done.
  destruct (String.eqb_spec g orig) as [->|Hne]; [exists orig; split; [left|by left]|].
  apply obind_Done in H as ([b v] & E & H). destruct b.
  - exists g. split; [left|right]. eapply Hrec; [left|exact E].
  - destruct (IH v) as (g' & Hg' & K); [|done|exists g'; split; [by right|done]].
    intros g' v1 v2 Hg'. apply Hrec. by right.
Qed.
Lemma recurses_true fuel orig : forall f visited visited',
  recurses fuel orig f visited = Done (true, visited') -> tc calls f orig.
Proof.
  induction fuel as [|fuel IH]; intros f visited visited' H; cbn [recurses] in H; [done|].
  case_bool_decide; [done|]. apply scan_true in H as (g & Hg & [->|K]); [| |intros; by eapply IH].
  - by apply tc_once.
  - by apply (tc_l _ _ g).
Qed.

(** What a search that fails leaves: it has visited [f], and everything it
    visited is closed. *)
Definition explored (orig f : string) (open visited visited' : list string) : Prop :=
  visited ⊆ visited' /\ f ∈ visited' /\ closed orig open visited'.

Lemma scan_false rec orig open cs : forall visited visited',
  (forall g v v', closed orig open v -> rec g v = Done (false, v') -> explored orig g open v v') ->
  closed orig open visited -> scan_calls rec orig cs visited = Done (false, visited') ->
  visited ⊆ visited' /\ closed orig open visited' /\ forall c, c ∈ cs -> exists g, c = Some g /\ g <> orig /\ g ∈ visited'.
Proof.
  induction cs as [|[g|] cs IH]; intros visited visited' Hrec Hc H; cbn [scan_calls] in H; try done.
  - injection H as <-. split; [done|]. split; [done|]. intros c Hc'. by apply not_elem_of_nil in Hc'.
  - destruct (String.eqb_spec g orig) as [->|Hne]; [done|]. apply obind_Done in H as ([b v] & E & H).
    destruct b; [done|]. destruct (Hrec g visited v Hc E) as (H1 & H2 & H3).
    destruct (IH v visited' Hrec H3 H) as (K1 & K2 & K3). split; [set_solver|]. split; [done|].
    intros c [->|Hc']%elem_of_cons; [|by apply K3]. exists g. split; [done|]. split; [done|set_solver].
Qed.
Lemma closed_open orig f open visited : closed orig open visited -> closed orig (f :: open) (visited ++ [f]).
Proof.
  intros H x Hx Ho c Hg. rewrite elem_of_app, list_elem_of_singleton in Hx. rewrite not_elem_of_cons in Ho.
  destruct Hx as [Hx| ->]; [|by destruct Ho]. destruct (H x Hx (proj2 Ho) c Hg) as (g & H1 & H2 & H3).
  exists g. split; [done|]. split; [done|]. apply elem_of_app. by left.
Qed.
Lemma recurses_false fuel orig : forall f open visited visited',
  closed orig open visited -> recurses fuel orig f visited = Done (false, visited') -> explored orig f open visited visited'.
Proof.
  induction fuel as [|fuel IH]; intros f open visited visited' Hc H; cbn [recurses] in H; [done|].
  case_bool_decide as Hf; [injection H as <-; by split|].
  apply (scan_false _ _ (f :: open)) in H as (H1 & H2 & H3); [|intros g v v'; apply IH|by apply closed_open].
  split; [set_solver|]. split; [apply H1, elem_of_app; right; left|].
  intros x Hx Ho c Hg. destruct (decide (x = f)) as [->|Hne]; [by apply H3|].
  apply (H2 x Hx); [|done]. rewrite not_elem_of_cons. done.
Qed.

(** *** The search ends *)

(** The functions of the module that have not been visited. *)
Definition unvisited (visited : list string) : nat :=
  length (List.filter (fun F => negb (bool_decide (f_name F ∈ visited))) (m_functions m)).
Lemma unvisited_mono v v' : v ⊆ v' -> (unvisited v' <= unvisited v)%nat.
Proof.
  intros H. unfold unvisited. induction (m_functions m) as [|F l IH]; [done|]. cbn [List.filter].
  repeat case_bool_decide; cbn [negb length]; try lia. exfalso. set_solver.
Qed.
Lemma unvisited_visit f v : f ∉ v -> callees f <> [] -> (unvisited (v ++ [f]) < unvisited v)%nat.
Proof.
  intros Hf Hc. unfold callees in Hc. destruct (find_function m f) as [F|] eqn:E; [|done]. clear Hc.
  unfold find_function in E. apply List.find_some in E as [Hin Hn]. apply String.eqb_eq in Hn as <-.
  unfold unvisited. induction (m_functions m) as [|G l IH]; [done|]. cbn [List.filter].
  assert (Hm : (length (List.filter (fun F0 => negb (bool_decide (f_name F0 ∈ v ++ [f_name F]))) l)
     <= length (List.filter (fun F0 => negb (bool_decide (f_name F0 ∈ v))) l))%nat).
  { clear. induction l as [|K l IH]; [done|]. cbn [List.filter].
    repeat case_bool_decide; cbn [negb length]; try lia. exfalso. set_solver. }
  destruct Hin as [->|Hin].
  - rewrite bool_decide_true by set_solver. rewrite bool_decide_false by done. cbn [negb length]. lia.
  - specialize (IH Hin). repeat case_bool_decide; cbn [negb length]; try lia. exfalso. set_solver.
Qed.

Lemma scan_ends rec orig cs : forall visited,
  (forall g v, visited ⊆ v -> exists r, rec g v = r /\ r <> Undefined "fuel" /\ forall b v', r = Done (b, v') -> v ⊆ v') ->
  scan_calls rec orig cs visited <> Undefined "fuel" /\
  forall b v', scan_calls rec orig cs visited = Done (b, v') -> visited ⊆ v'.
Proof.
  induction cs as [|[g|] cs IH]; intros visited Hrec; cbn [scan_calls].
  - split; [done|]. by intros b v' [= _ <-].
  - destruct (String.eqb g orig); [split; [done|by intros b v' [= _ <-]]|].
    destruct (Hrec g visited ltac:(done)) as (r & E & Hr & Hs). rewrite E.
    destruct r as [[b v]| | |]; cbn [obind]; [|done..|split; [exact Hr|done]]. specialize (Hs b v eq_refl).
    destruct b; [split; [done|by intros b v' [= _ <-]]|].
    destruct (IH v) as [K1 K2]; [intros g' v1 Hv1; apply Hrec; set_solver|].
    split; [done|]. intros b v' H. specialize (K2 _ _ H). set_solver.
  - done.
Qed.
Lemma recurses_ends fuel orig : forall f visited, (unvisited visited + 1 < fuel)%nat ->
  recurses fuel orig f visited <> Undefined "fuel" /\
  forall b v', recurses fuel orig f visited = Done (b, v') -> visited ⊆ v'.
Proof.
  induction fuel as [|fuel IH]; intros f visited Hf; [lia|]. cbn [recurses].
  case_bool_decide as Hv; [split; [done|by intros b v' [= _ <-]]|].
  destruct (decide (callees f = [])) as [E|E].
  { rewrite E. cbn [scan_calls]. split; [done|]. intros b v' [= _ <-]. set_solver. }
  pose proof (unvisited_visit f visited Hv E) as Hu.
  destruct (scan_ends (recurses fuel orig) orig (callees f) (visited ++ [f])) as [K1 K2].
  { intros g v Hgv. pose proof (unvisited_mono _ _ Hgv). destruct (IH g v ltac:(lia)) as [L1 L2].
    exists (recurses fuel orig g v). split; [done|]. split; [done|]. exact L2. }
  split; [done|]. intros b v' H. specialize (K2 _ _ H). set_solver.
Qed.

(** *** The compiler stops for a call of something else *)

Definition stops (f : string) (r : outcome (bool * list string)) : Prop :=
  match r with
  | Done _ => True
  | Stop msg => msg = "Calls to function pointers not allowed" /\ exists g, rtc calls f g /\ None ∈ callees g
  | Undefined msg => msg = "fuel"
  | AssertFailed _ => False
  end.
Lemma scan_stops rec orig f cs : forall visited, (forall c, c ∈ cs -> c ∈ callees f) -> (forall g v, stops g (rec g v)) ->
  stops f (scan_calls rec orig cs visited).
Proof.
  induction cs as [|[g|] cs IH]; intros visited Hcs Hrec; cbn [scan_calls]; [done| |].
  - destruct (String.eqb g orig); [done|]. specialize (Hrec g visited) as Hg.
    assert (Hc : calls f g) by (apply Hcs; left).
    destruct (rec g visited) as [[[|] v]|msg|msg|msg]; cbn [obind stops] in *; [done| | |done|done].
    + apply IH; [|done]. intros c Hin. apply Hcs. by right.
    + destruct Hg as (-> & h & H1 & H2). split; [done|]. exists h. split; [by apply (rtc_l _ _ g)|done].
  - split; [done|]. exists f. split; [done|]. apply Hcs. left.
Qed.
Lemma recurses_stops fuel orig : forall f visited, stops f (recurses fuel orig f visited).
Proof.
  induction fuel as [|fuel IH]; intros f visited; cbn [recurses]; [done|].
  case_bool_decide; [done|]. apply scan_stops; [done|]. intros g v. apply IH.
Qed.

Lemma tc_rtc_r x y : tc calls x y -> exists z, rtc calls x z /\ calls z y.
Proof.
  induction 1 as [x y H|x y z H _ (u & K1 & K2)]; [exists x; split; [done|exact H]|].
  exists u. split; [by apply (rtc_l _ _ y)|done].
Qed.

(** C31: [functionRecurses] always comes to an end. It is true only if a chain of
    calls leads from the function back to itself, and false only if none does
    and no function it can reach calls anything but a function; otherwise the
    compiler stops because of such a call. *)
Theorem functionRecurses_spec f :
  match functionRecurses f with
  | Done true => tc calls f f
  | Done false => ~ tc calls f f /\ forall g, rtc calls f g -> None ∉ callees g
  | Stop msg => msg = "Calls to function pointers not allowed" /\ exists g, rtc calls f g /\ None ∈ callees g
  | _ => False
  end.
Proof.
  unfold functionRecurses.
  assert (Hu : (unvisited [] <= length (m_functions m))%nat) by apply List.filter_length_le.
  destruct (recurses_ends (length (m_functions m) + 2) f f [] ltac:(lia)) as [He _].
  pose proof (recurses_stops (length (m_functions m) + 2) f f []) as Hs.
  destruct (recurses _ f f []) as [[[|] v]|msg|msg|msg] eqn:E; cbn [obind stops] in *; [| |done|done|congruence].
  - by apply recurses_true in E.
  - apply (recurses_false _ _ _ []) in E as (_ & Hf & Hc); [|intros x Hx; by apply not_elem_of_nil in Hx].
    assert (Hr : forall x y, rtc calls x y -> x ∈ v -> y ∈ v).
    { induction 1 as [|x y z Hxy _ IH]; [done|]. intros Hx. apply IH.
      destruct (Hc x Hx (not_elem_of_nil x) _ Hxy) as (g' & [= <-] & _ & K). exact K. }
    split.
    + intros (y & Hy & Hyf)%tc_rtc_r.
      destruct (Hc y (Hr _ _ Hy Hf) (not_elem_of_nil y) _ Hyf) as (g' & [= <-] & K & _). done.
    + intros g Hg Hn. destruct (Hc g (Hr _ _ Hg Hf) (not_elem_of_nil g) _ Hn) as (g' & K & _). done.
Qed.
End recursion.
