(* ===== verification/Intrinsics.v ===== *)
(** * Intrinsics: passes that replace calls to LLVM intrinsics

    libclamav knows no saturating subtraction, no minimum and maximum and no
    funnel shift. ClamBCRemoveUSUB.cpp, ClamBCRemoveUnsupportedICMPIntrinsics.cpp
    and ClamBCRemoveFSHL.cpp give the module a function for each one that is
    called and call that instead (ClamBCUtilities.cpp: gatherCallsToIntrinsic,
    replaceAllCalls). *)
From S2P Require Import Prelude IR Semantics Integers.
Local Open Scope string_scope.
Local Open Scope list_scope.
Local Open Scope Z_scope.
Local Open Scope outcome_scope.

(** ** Replacing calls *)

(** CallInst::getCalledFunction *)
Definition called_function (m : Module_) (i : Inst) : option Function_ :=
  match i_kind i with Call (FunctionValue x _) _ _ => find_function m x | _ => None end.
Definition is_call_to (m : Module_) (name : string) (i : Inst) : bool :=
  match called_function m i with
  | Some F => match f_intrinsic F with Some _ => String.eqb name (f_name F) | None => false end
  | None => false
  end.
Definition gatherCallsToIntrinsic (m : Module_) (name : string) : list Inst :=
  flat_map (fun F => List.filter (is_call_to m name) (all_insts F))
    (List.filter (fun F => negb (isDeclaration F)) (m_functions m)).

(** The new call takes over the uses of the old one, so it gets its name.
    CallInst::Create wants arguments of the function's types, and
    replaceAllUsesWith a value of the old one's type. *)
Definition replace_call (F : Function_) (i : Inst) : outcome Inst :=
  match i_kind i with
  | Call _ _ args =>
      let* _ := assert_ (bool_decide (map type_of args = map snd (f_args F))) "Calling a function with a bad signature!" in
      let* _ := assert_ (bool_decide (i_type i = f_ret F)) "replaceAllUses of value with new value of different type!" in
      Done {| i_name := i_name i; i_type := i_type i;
              i_kind := Call (FunctionValue (f_name F) (TyPtr (f_type F))) 0 args |}
  | _ => Done i
  end.
Definition replace_if (sel : Inst -> bool) (F : Function_) (i : Inst) : outcome Inst :=
  if sel i then replace_call F i else Done i.
Definition replace_block (sel : Inst -> bool) (F : Function_) (b : Block) : outcome Block :=
  let* l := mapM_out (replace_if sel F) (bb_insts b) in
  Done {| bb_name := bb_name b; bb_phis := bb_phis b; bb_insts := l; bb_term := bb_term b |}.
Definition replace_function (sel : Inst -> bool) (F G : Function_) : outcome Function_ :=
  let* bs := mapM_out (replace_block sel F) (f_blocks G) in Done (with_blocks G bs).
Definition replaceAllCalls (sel : Inst -> bool) (F : Function_) (m : Module_) : outcome Module_ :=
  let* l := mapM_out (replace_function sel F) (m_functions m) in Done (with_functions m l).

(** The new function becomes the module's last; it has none of the calls. *)
Definition replaceCalls (name : string) (F : Function_) (m : Module_) : outcome Module_ :=
  match gatherCallsToIntrinsic m name with
  | [] => Done m
  | _ => let* m' := replaceAllCalls (is_call_to m name) F m in Done (with_functions m' (m_functions m' ++ [F]))
  end.

(** ** The new functions *)

Definition new_function (name : string) (args : list (string * ty)) (ret : ty) (bs : list Block) : Function_ := {|
  f_name := name; f_args := args; f_ret := ret; f_vararg := false; f_cc := 0; f_sret := false;
  f_available_externally := false; f_intrinsic := None; f_blocks := bs
|}.
Definition straight_block (name : string) (l : list Inst) (t : Term) : Block :=
  {| bb_name := name; bb_phis := []; bb_insts := l; bb_term := t |}.
Definition new_store (v p : Value) : Inst := inst "" TyVoid (Store v p).

(** ClamBCRemoveUSUB::addUSUB; the arguments have no name. *)
Definition addUSUB (t : ty) : Function_ :=
  let pLeft := Local "0" t in let pRight := Local "1" t in let retVar := Local "ret" (TyPtr t) in
  new_function ".usub" [("0", t); ("1", t)] t [
    straight_block "entry" [ inst "ret" (TyPtr t) (Alloca t (ConstantInt 32 1));
                        inst "icmp" (TyInt 1) (ICmp ICMP_UGT pLeft pRight) ] (Br (Local "icmp" (TyInt 1)) "left" "right");
    straight_block "left" [ inst "ClamBCRemoveUSUB_" t (Binary Sub pLeft pRight);
                       new_store (Local "ClamBCRemoveUSUB_" t) retVar ] (Jmp "ret");
    straight_block "right" [ new_store (match t with TyInt w => ConstantInt w 0 | _ => UndefValue t end) retVar ] (Jmp "ret");
    straight_block "ret" [ inst "load" t (Load retVar) ] (Ret (Local "load" t)) ].
Definition RemoveUSUB (m : Module_) : outcome Module_ :=
  replaceCalls "llvm.usub.sat.i32" (addUSUB (TyInt 32)) m.

(** ClamBCRemoveUnsupportedICMPIntrinsics::addFunction *)
Definition addFunction (t : ty) (newName : string) (predicate : cmp_predicate) : Function_ :=
  let pLeft := Local "0" t in let pRight := Local "1" t in let retVar := Local "ret" (TyPtr t) in
  new_function newName [("0", t); ("1", t)] t [
    straight_block "entry" [ inst "ret" (TyPtr t) (Alloca t (ConstantInt 32 1));
                        inst "icmp" (TyInt 1) (ICmp predicate pLeft pRight) ] (Br (Local "icmp" (TyInt 1)) "left" "right");
    straight_block "left" [ new_store pLeft retVar ] (Jmp "ret");
    straight_block "right" [ new_store pRight retVar ] (Jmp "ret");
    straight_block "ret" [ inst "load" t (Load retVar) ] (Ret (Local "load" t)) ].
Definition icmp_intrinsics : list (string * string * cmp_predicate * Z) := [
  ("llvm.smin.i32", ".smin.32", ICMP_SLT, 32);
  ("llvm.smin.i16", ".smin.16", ICMP_SLT, 16);
  ("llvm.umin.i16", ".umin.16", ICMP_ULT, 16);
  ("llvm.umin.i32", ".umin.32", ICMP_ULT, 32);
  ("llvm.umax.i32", ".umax.32", ICMP_UGT, 32);
  ("llvm.umax.i16", ".umax.16", ICMP_UGT, 16);
  ("llvm.smax.i32", ".smax.32", ICMP_SGT, 32);
  ("llvm.smax.i16", ".smax.16", ICMP_SGT, 16) ].
Fixpoint replace_each (l : list (string * Function_)) (m : Module_) : outcome Module_ :=
  match l with
  | [] => Done m
  | (name, F) :: l => let* m := replaceCalls name F m in replace_each l m
  end.
Definition icmp_functions : list (string * Function_) :=
  map (fun '(intrinsic, newName, predicate, w) => (intrinsic, addFunction (TyInt w) newName predicate)) icmp_intrinsics.
Definition RemoveUnsupportedICMPIntrinsics (m : Module_) : outcome Module_ := replace_each icmp_functions m.

(** ClamBCRemoveFSHL::addFunction, for less than 64 bits; the 64-bit version is
    not implemented. *)
Definition addFSHL (w : Z) (functionName : string) : Function_ :=
  let t := TyInt w in let i64 := TyInt 64 in let bits := ConstantInt 64 w in
  let v (x : string) : Value := Local x i64 in
  new_function functionName [("0", t); ("1", t); ("2", t)] t [
    straight_block "entry" [
      inst "zext_" i64 (Cast ZExt (Local "0" t));
      inst "shl_" i64 (Binary Shl (v "zext_") bits);
      inst "zext_1" i64 (Cast ZExt (Local "1" t));
      inst "or" i64 (Binary Or (v "shl_") (v "zext_1"));
      inst "zext_2" i64 (Cast ZExt (Local "2" t));
      inst "urem_" i64 (Binary URem (v "zext_2") bits);
      inst "shl_3" i64 (Binary Shl (v "or") (v "urem_"));
      inst "shr_" i64 (Binary LShr (v "shl_3") bits);
      inst "trunc_" t (Cast Trunc (v "shr_")) ] (Ret (Local "trunc_" t)) ].
(** The function for 8 bits is made with 16. *)
Definition fshl_functions : list (string * Function_) := [
  ("llvm.fshl.i32", addFSHL 32 ".fshl.i32");
  ("llvm.fshl.i16", addFSHL 16 ".fshl.i16");
  ("llvm.fshl.i8", addFSHL 16 ".fshl.i8") ].
Definition RemoveFSHL (m : Module_) : outcome Module_ := replace_each fshl_functions m.

(** ** A replaced call does the same

    If running the new function gives what the intrinsic does, the functions of
    the module compute what they did. *)

Section preserve.
Context {V W : Type} (M : Meaning V W).
Context (base : string -> list V -> W -> option (option V * W)) (slots : string -> gset string).
Abbreviation call := (call_function M base slots).

(** The function [F] does what the intrinsic does, within [k] blocks. *)
Definition implements (k : nat) (name : string) (F : Function_) : Prop :=
  forall fuel m args w r, (k <= fuel)%nat -> find_function m (f_name F) = Some F ->
  base name args w = Some r -> call fuel m (f_name F) args w = Some r.

Lemma find_function_Forall2 (R : Function_ -> Function_ -> Prop) l l' g G :
  (forall F F', R F F' -> f_name F' = f_name F) -> Forall2 R l l' ->
  List.find (fun F => String.eqb (f_name F) g) l = Some G ->
  exists G', List.find (fun F => String.eqb (f_name F) g) l' = Some G' /\ R G G'.
Proof.
  intros Hn H. induction H as [|F F' l l' HF Hl IH]; [done|]. cbn [List.find]. rewrite (Hn _ _ HF).
  destruct (String.eqb (f_name F) g); [|done]. intros [= <-]. by exists F'.
Qed.
Lemma find_none_Forall2 (R : Function_ -> Function_ -> Prop) l l' g :
  (forall F F', R F F' -> f_name F' = f_name F) -> Forall2 R l l' ->
  List.find (fun F => String.eqb (f_name F) g) l = None -> List.find (fun F => String.eqb (f_name F) g) l' = None.
Proof.
  intros Hn H. induction H as [|F F' l l' HF Hl IH]; [done|]. cbn [List.find]. rewrite (Hn _ _ HF).
  by destruct (String.eqb (f_name F) g).
Qed.
Lemma find_app {A} (p : A -> bool) l l' x : List.find p l = Some x -> List.find p (l ++ l') = Some x.
Proof. induction l as [|y l IH]; [done|]. cbn [List.find app]. by destruct (p y). Qed.
Lemma find_app_new {A} (p : A -> bool) l x : List.find p l = None -> p x = true -> List.find p (l ++ [x]) = Some x.
Proof.
  intros H Hx. induction l as [|y l IH]; cbn [List.find app] in *; [by rewrite Hx|]. destruct (p y); [done|by apply IH].
Qed.
Lemma find_app_none {A} (p : A -> bool) l l' : List.find p l = None -> List.find p (l ++ l') = List.find p l'.
Proof. induction l as [|y l IH]; [done|]. cbn [List.find app]. by destruct (p y). Qed.
Lemma replace_function_name sel F G G' : replace_function sel F G = Done G' ->
  f_name G' = f_name G /\ f_args G' = f_args G /\ Forall2 (fun b b' => replace_block sel F b = Done b') (f_blocks G) (f_blocks G').
Proof. unfold replace_function. intros H. inv_done. by apply mapM_out_Done in E. Qed.

Lemma replace_if_follows m name F c c' i i' :
  (forall g args w r, c g args w = Some r -> c' g args w = Some r) ->
  (forall args w r, c name args w = Some r -> c' (f_name F) args w = Some r) ->
  replace_if (is_call_to m name) F i = Done i' -> follows M c c' i i'.
Proof.
  intros Hc Hname H. unfold replace_if in H. destruct (is_call_to m name i) eqn:Ei; [|injection H as <-; by apply follows_refl].
  unfold is_call_to, called_function in Ei. unfold replace_call in H.
  destruct i as [x t k]. cbn [i_kind i_name i_type] in *. destruct k as [| | | | | | | |callee cc args| | |]; try done.
  destruct callee as [| | |g tg| | | | | | | | |]; try done.
  destruct (find_function m g) as [G|] eqn:EG; [|done]. destruct (f_intrinsic G); [|done].
  apply String.eqb_eq in Ei. unfold find_function in EG. apply List.find_some in EG as [_ EG]. apply String.eqb_eq in EG.
  subst name. rewrite EG in Hname. inv_done.
  intros S [[e mem] w] s1. cbn [exec_inst i_kind i_name i_type operands sem with_calls].
  rewrite !map_app, !(take_app_length' _ _ (length args)) by (by rewrite length_map).
  intros ([v w'] & ([v2 w2] & E1 & E2)%bind_Some & E3)%bind_Some. injection E2 as <- <-.
  apply Hname in E1. match goal with |- context [c' _ ?vs w] => change (c' (f_name F) vs w = Some (v2, w2)) in E1 end.
  rewrite E1. cbn [mbind option_bind]. exact E3.
Qed.

(** A step of the passes: whatever a function of the module computes, it still
    does. *)
Lemma replaceCalls_preserves k name F m m' : implements k name F ->
  find_function m (f_name F) = None -> (forall G, find_function m name = Some G -> f_blocks G = []) ->
  replaceCalls name F m = Done m' ->
  forall fuel g args w r, call fuel m g args w = Some r -> call (fuel + k) m' g args w = Some r.
Proof.
  intros HF Hnew Hdecl H. unfold replaceCalls in H. destruct (gatherCallsToIntrinsic m name) as [|i0 is0].
  { injection H as <-. intros fuel g args w r. apply call_more. lia. }
  apply obind_Done in H as (m1 & E1 & H). apply Done_inj in H as <-. unfold replaceAllCalls in E1. inv_done.
  apply mapM_out_Done in E. cbn [m_functions with_functions].
  set (m' := with_functions _ _).
  assert (Hfind : forall g G, find_function m g = Some G ->
    exists G', find_function m' g = Some G' /\ replace_function (is_call_to m name) F G = Done G').
  { intros g G HG. eapply find_function_Forall2 in HG as (G' & HG' & HR); [| |exact E].
    - exists G'. split; [|done]. unfold find_function, m'. cbn [m_functions with_functions]. by apply find_app.
    - intros x y Hxy. by apply replace_function_name in Hxy as (-> & _). }
  assert (HFm : find_function m' (f_name F) = Some F).
  { unfold find_function, m'. cbn [m_functions with_functions]. apply find_app_new; [|apply String.eqb_refl].
    by eapply find_none_Forall2; [|exact E|exact Hnew]; intros x y Hxy; apply replace_function_name in Hxy as (-> & _). }
  induction fuel as [|fuel IH]; intros g args w r; [done|]. cbn [Semantics.call_function].
  intros (G & HG & Hrun)%bind_Some. destruct (Hfind g G HG) as (G' & HG' & HR).
  change (S fuel + k)%nat with (S (fuel + k)). cbn [Semantics.call_function]. rewrite HG'. cbn [mbind option_bind].
  apply replace_function_name in HR as (Hn & Ha & Hb). rewrite Ha.
  destruct (f_blocks G) as [|b bs] eqn:EG; inversion Hb as [|? b' ? bs' Hbb Hbs]; subst; [done|].
  assert (Hn' : bb_name b' = bb_name b) by (unfold replace_block in Hbb; by inv_done).
  rewrite Hn'. eapply run_blocks_follow with (fuel := fuel); [|lia|exact Hrun].
  rewrite H1. eapply Forall2_impl; [exact Hb|]. cbv beta. intros x y Hxy. unfold replace_block in Hxy.
  apply obind_Done in Hxy as (l & El & Hxy). apply Done_inj in Hxy as <-.
  split; [done|]. split; [done|]. split; [done|]. cbn [bb_insts]. apply mapM_out_Done in El.
  eapply Forall2_impl; [exact El|]. cbv beta. intros i i' Hi. eapply replace_if_follows; [exact IH| |exact Hi].
  intros args' w' r' Hc. apply HF; [lia|exact HFm|]. destruct fuel as [|f]; [done|]. cbn [Semantics.call_function] in Hc.
  apply bind_Some in Hc as (G0 & HG0 & Hc). by rewrite (Hdecl G0 HG0) in Hc.
Qed.
End preserve.

(** ** The functions compute what the intrinsics do *)

Section implementations.
Context {W : Type} (address_of : Value -> Z) (other : Inst -> list Z -> W -> option (Z * W)).
Context (base : string -> list Z -> W -> option (option Z * W)) (slots : string -> gset string).
Abbreviation M := (integer_meaning address_of other).

(** What an intrinsic without side effects returns. *)
Definition returns (name : string) (f : list Z -> option Z) : Prop :=
  forall args w, base name args w = (v ← f args; Some (Some v, w)).

Lemma implements_intro k name F f : returns name f ->
  (forall fuel m args w v, find_function m (f_name F) = Some F -> f args = Some v ->
     call_function M base slots (k + fuel) m (f_name F) args w = Some (Some v, w)) ->
  implements M base slots k name F.
Proof.
  intros Hf H fuel m args w r Hk HF Hr. rewrite Hf in Hr. apply bind_Some in Hr as (v & Ev & [= <-]).
  replace fuel with (k + (fuel - k))%nat by lia. by apply H.
Qed.

(** The instructions of one block: what they read has just been written. *)
Ltac simplify_step :=
  repeat first
    [progress cbn [exec_insts exec_inst inst new_store i_kind i_name i_type operands map app sem with_calls integer_meaning
       integer_sem binary_value cast_value type_of width eval constant_meaning constant_value undefined slot_of bb_insts bb_term straight_block mbind
       option_bind default id leave holds]
    |rewrite decide_True by done|rewrite lookup_insert_eq|rewrite lookup_insert_ne by done].
Ltac step :=
  first [erewrite run_goto; [|reflexivity|reflexivity|simplify_step; reflexivity|simplify_step; reflexivity]
        |erewrite run_return; [|reflexivity|reflexivity|simplify_step; reflexivity|simplify_step; reflexivity]].
(** The branch at the end of a block, once the condition is known. *)
Ltac branch E :=
  erewrite run_goto; [|reflexivity|reflexivity|simplify_step; rewrite E; reflexivity|simplify_step; reflexivity].
(** Start to run the body of a function on its arguments. *)
Ltac enter_body HF F :=
  cbn [Nat.add Semantics.call_function]; rewrite HF; unfold F;
  cbn [new_function f_blocks mbind option_bind f_args map fst zip zip_with list_to_map foldr bb_name straight_block snd uncurry f_name].

Definition choose (p : cmp_predicate) (w : Z) (args : list Z) : option Z :=
  match args with [a; b] => Some (if icmp_value p w a b then a else b) | _ => None end.
Lemma addFunction_implements w p name newName : "ret" ∈ slots newName -> returns name (choose p w) ->
  implements M base slots 4 name (addFunction (TyInt w) newName p).
Proof.
  intros Hs Hr. apply (implements_intro _ _ _ (choose p w) Hr). intros fuel m args s v HF Hv.
  destruct args as [|a [|b [|? ?]]]; try done. injection Hv as <-. enter_body HF addFunction.
  destruct (icmp_value p w a b) eqn:E; branch E; step; step; reflexivity.
Qed.

(** LLVM's saturating subtraction. *)
Definition usub_sat (w : Z) (args : list Z) : option Z :=
  match args with [a; b] => Some (Z.max 0 (wrap w a - wrap w b)) | _ => None end.
Lemma addUSUB_implements w name : 0 <= w -> "ret" ∈ slots ".usub" -> returns name (usub_sat w) ->
  implements M base slots 4 name (addUSUB (TyInt w)).
Proof.
  intros Hw Hs Hr. apply (implements_intro _ _ _ (usub_sat w) Hr). intros fuel m args s v HF Hv.
  destruct args as [|a [|b [|? ?]]]; try done. injection Hv as <-. enter_body HF addUSUB.
  pose proof (wrap_range w a Hw) as Ha. pose proof (wrap_range w b Hw) as Hb.
  destruct (icmp_value ICMP_UGT w a b) eqn:E; branch E; cbn [icmp_value] in E; step; step; do 3 f_equal; cbn [binary_value].
  - apply Z.ltb_lt in E. rewrite Z.max_r by lia. apply wrap_small. unfold in_u in *. lia.
  - apply Z.ltb_ge in E. rewrite Z.max_l by lia. apply wrap_small. unfold in_u in *. lia.
Qed.

(** Two halves next to each other. *)
Lemma lor_halves w a b : w = 16 \/ w = 32 ->
  Z.lor (wrap 64 (wrap 64 (Z.shiftl (wrap w a) w))) (wrap w b) = wrap w a * 2 ^ w + wrap w b.
Proof.
  intros Hw. assert (0 <= w <= 32) by lia. pose proof (wrap_range w a ltac:(lia)) as Ha. unfold in_u in Ha.
  assert (Hs : wrap 64 (Z.shiftl (wrap w a) w) = Z.shiftl (wrap w a) w).
  { apply wrap_small. rewrite Z.shiftl_mul_pow2 by lia. unfold in_u. destruct Hw as [-> | ->]; lia. }
  rewrite !Hs, <- (Z.shiftl_mul_pow2 _ w) by lia.
  assert (Hd : Z.land (Z.shiftl (wrap w a) w) (wrap w b) = 0).
  { apply Z.bits_inj'. intros n Hn. rewrite Z.land_spec, Z.bits_0, Z.shiftl_spec by lia.
    destruct (Z.ltb_spec n w); [by rewrite (Z.testbit_neg_r (wrap w a)) by lia|].
    unfold wrap at 2. rewrite Z.mod_pow2_bits_high by lia. apply andb_false_r. }
  by rewrite Z.add_nocarry_lxor, Z.lxor_lor.
Qed.
(** Shifting 64 bits and taking the upper half of the lower 2w. *)
Lemma shift_halves w x s : w = 16 \/ w = 32 -> 0 <= x < 2 ^ 64 ->
  wrap w (wrap 64 (Z.shiftr (wrap 64 (wrap 64 (Z.shiftl (wrap 64 x) s))) w)) = wrap w (Z.shiftl x s / 2 ^ w).
Proof.
  intros Hw Hx. assert (0 <= w <= 32) by lia. rewrite (wrap_small 64 x) by done. rewrite wrap_wrap by lia.
  set (y := Z.shiftl x s). rewrite wrap_narrow, Z.shiftr_div_pow2 by lia.
  destruct (wrap_mod 64 y ltac:(lia)) as (k & ->).
  pose proof (pow2_pos w ltac:(lia)).
  assert (Hk : exists k', y + k * 2 ^ 64 = y + k' * 2 ^ w * 2 ^ w) by (exists (k * 2 ^ (64 - 2 * w)); destruct Hw as [-> | ->]; lia).
  destruct Hk as (k' & ->). rewrite Z.div_add by lia. unfold wrap. apply Z_mod_plus_full.
Qed.

(** LLVM's funnel shift: the upper half of a:b shifted left. *)
Definition fshl (w : Z) (args : list Z) : option Z :=
  match args with
  | [a; b; c] => Some (wrap w (Z.shiftl (wrap w a * 2 ^ w + wrap w b) (wrap w c mod w) / 2 ^ w))
  | _ => None
  end.
Lemma addFSHL_implements w name newName : w = 16 \/ w = 32 -> returns name (fshl w) ->
  implements M base slots 2 name (addFSHL w newName).
Proof.
  intros Hw Hr. apply (implements_intro _ _ _ (fshl w) Hr). intros fuel m args s v HF Hv.
  destruct args as [|a [|b [|c [|? ?]]]]; try done. injection Hv as <-. enter_body HF addFSHL.
  assert (F1 : wrap 64 w = w) by (destruct Hw as [-> | ->]; reflexivity).
  assert (F2 : forall x, wrap 64 (wrap w x) = wrap w x).
  { intros x. apply wrap_small. pose proof (wrap_range w x ltac:(lia)) as Hx. unfold in_u in *.
    destruct Hw as [-> | ->]; lia. }
  assert (F3 : (w <? 64) = true) by (destruct Hw as [-> | ->]; reflexivity).
  assert (F4 : (w =? 0) = false) by (destruct Hw as [-> | ->]; reflexivity).
  pose proof (Z.mod_pos_bound (wrap w c) w ltac:(lia)) as Hm.
  assert (F5 : wrap 64 (wrap w c mod w) = wrap w c mod w) by (apply wrap_small; unfold in_u; lia).
  assert (F6 : (wrap w c mod w <? 64) = true) by (apply Z.ltb_lt; lia).
  pose proof (lor_halves w a b Hw) as F7.
  erewrite run_return; [|reflexivity|reflexivity| |].
  2: { repeat (progress (simplify_step; rewrite ?F1, ?F2, ?F3, ?F4, ?F5, ?F6, ?F7)). reflexivity. }
  2: { simplify_step. reflexivity. }
  do 3 f_equal. apply shift_halves; [done|].
  pose proof (wrap_range w a ltac:(lia)) as Ha. pose proof (wrap_range w b ltac:(lia)) as Hb. unfold in_u in *.
  destruct Hw as [-> | ->]; lia.
Qed.

End implementations.

(** ** The passes *)

Definition is_call (i : Inst) : bool := match i_kind i with Call _ _ _ => true | _ => false end.
(** A function of the tables: not an intrinsic, without calls. *)
Definition callless (F : Function_) : bool :=
  (match f_intrinsic F with None => true | _ => false end && forallb (fun i => negb (is_call i)) (all_insts F))%bool.
(** The names of intrinsics and functions differ. *)
Definition distinct (l : list (string * Function_)) : Prop := NoDup (map fst l ++ map (fun d => f_name (snd d)) l).
(** The functions have no namesakes in the module, which does not define the
    intrinsics. *)
Definition undeclared (m : Module_) (d : string * Function_) : Prop :=
  find_function m (f_name (snd d)) = None /\
  match find_function m (fst d) with Some G => f_blocks G = [] | None => True end.
(** A call with the types of the function's arguments and result. *)
Definition call_fits (F : Function_) (i : Inst) : Prop :=
  match i_kind i with Call _ _ args => map type_of args = map snd (f_args F) /\ i_type i = f_ret F | _ => True end.

Lemma replace_call_fits F i : call_fits F i <-> exists i', replace_call F i = Done i'.
Proof.
  unfold call_fits, replace_call. destruct (i_kind i); try by (split; [by eexists|done]).
  split.
  - intros [-> ->]. rewrite !bool_decide_true by done. by eexists.
  - intros (i' & H). inv_done. by split; eapply bool_decide_eq_true_1.
Qed.
Lemma elem_of_gather m name i :
  i ∈ gatherCallsToIntrinsic m name <-> is_call_to m name i = true /\ exists G b, G ∈ m_functions m /\ b ∈ f_blocks G /\ i ∈ bb_insts b.
Proof.
  unfold gatherCallsToIntrinsic. rewrite list_elem_of_In, in_flat_map. setoid_rewrite List.filter_In.
  unfold all_insts. setoid_rewrite in_flat_map. setoid_rewrite <- list_elem_of_In. split.
  - intros (G & [HG Hd] & (b & Hb & Hi) & Hc). split; [done|]. by exists G, b.
  - intros (Hc & G & b & HG & Hb & Hi). exists G. split; [split; [done|]|split; [by exists b|done]].
    unfold isDeclaration. destruct (f_blocks G); [by apply not_elem_of_nil in Hb|done].
Qed.

(** *** One replacement *)

Section one.
Context (name : string) (F : Function_) (m m' : Module_).
Context (Hplain : callless F = true) (Hun : undeclared m (name, F)) (Hrun : replaceCalls name F m = Done m').
Abbreviation sel := (is_call_to m name).

(** If there is a call, the module has been rewritten. *)
Lemma replaceCalls_cases : (gatherCallsToIntrinsic m name = [] /\ m' = m) \/
  exists l, Forall2 (fun G G' => replace_function sel F G = Done G') (m_functions m) l /\ m' = with_functions m (l ++ [F]).
Proof.
  unfold replaceCalls in Hrun. destruct (gatherCallsToIntrinsic m name) eqn:E; [left; by injection Hrun|right].
  apply obind_Done in Hrun as (m1 & E1 & H). apply Done_inj in H as <-. unfold replaceAllCalls in E1. inv_done.
  exists a. apply mapM_out_Done in E0. by split.
Qed.
Lemma replace_function_insts G G' i : replace_function sel F G = Done G' ->
  (exists b, b ∈ f_blocks G /\ i ∈ bb_insts b) ->
  exists i', replace_if sel F i = Done i' /\ exists b', b' ∈ f_blocks G' /\ i' ∈ bb_insts b'.
Proof.
  intros H (b & Hb & Hi). unfold replace_function in H. inv_done. apply mapM_out_Done in E. cbn [f_blocks with_blocks].
  eapply Forall2_elem_of_l in Hb as (b' & Hb' & H); [|exact E]. unfold replace_block in H. inv_done.
  apply mapM_out_Done in E0. eapply Forall2_elem_of_l in Hi as (i' & Hi' & H); [|exact E0].
  exists i'. split; [done|]. by eexists.
Qed.
Lemma replace_function_insts_back G G' i' : replace_function sel F G = Done G' ->
  (exists b', b' ∈ f_blocks G' /\ i' ∈ bb_insts b') ->
  exists i, replace_if sel F i = Done i' /\ exists b, b ∈ f_blocks G /\ i ∈ bb_insts b.
Proof.
  intros H (b' & Hb & Hi). unfold replace_function in H. inv_done. apply mapM_out_Done in E. cbn [f_blocks with_blocks] in Hb.
  eapply Forall2_elem_of_r in Hb as (b & Hb & H); [|exact E]. unfold replace_block in H. inv_done.
  apply mapM_out_Done in E0. eapply Forall2_elem_of_r in Hi as (i & Hi' & H); [|exact E0].
  exists i. split; [done|]. by eexists.
Qed.
Lemma replace_function_intrinsic G G' : replace_function sel F G = Done G' -> f_intrinsic G' = f_intrinsic G.
Proof. unfold replace_function. intros H. by inv_done. Qed.

(** Other functions stay, with their blocks. *)
Lemma replaceCalls_find g : g <> f_name F ->
  match find_function m g with
  | Some G => exists G', find_function m' g = Some G' /\ f_name G' = f_name G /\ f_intrinsic G' = f_intrinsic G /\
      (f_blocks G = [] -> f_blocks G' = [])
  | None => find_function m' g = None
  end.
Proof.
  intros Hg. destruct replaceCalls_cases as [[_ ->]|(l & Hl & ->)].
  { destruct (find_function m g) as [G|]; [by exists G|done]. }
  assert (Hn : forall G G', replace_function sel F G = Done G' -> f_name G' = f_name G).
  { intros G G' H. by apply replace_function_name in H as (-> & _). }
  unfold find_function at 1. destruct (List.find _ _) as [G|] eqn:E.
  - eapply find_function_Forall2 in E as (G' & E & H); [|exact Hn|exact Hl]. exists G'.
    split; [by apply find_app|]. split; [by apply Hn|]. split; [by apply replace_function_intrinsic|].
    apply replace_function_name in H as (_ & _ & H). intros EG. rewrite EG in H. by apply Forall2_nil_inv_l in H.
  - eapply find_none_Forall2 in E; [|exact Hn|exact Hl]. unfold find_function. cbn [m_functions with_functions].
    rewrite find_app_none by done. cbn [List.find]. by rewrite (proj2 (String.eqb_neq _ _)) by done.
Qed.
Lemma is_call_to_after name' i : is_call_to m' name' i = is_call_to m name' i.
Proof.
  destruct replaceCalls_cases as [[_ ->]|(l & Hl & E)]; [done|].
  unfold is_call_to, called_function. destruct (i_kind i) as [| | | | | | | |callee cc args| | |]; try done.
  destruct callee as [| | |g tg| | | | | | | | |]; try done. destruct (decide (g = f_name F)) as [->|Hg].
  - rewrite (proj1 Hun : find_function m (f_name F) = None). destruct (find_function m' (f_name F)) as [F'|] eqn:EF; [|done].
    enough (f_intrinsic F' = None) as -> by done. subst m'. unfold find_function in EF. cbn [m_functions with_functions] in EF.
    assert (Hn : forall G G', replace_function sel F G = Done G' -> f_name G' = f_name G).
    { intros G G' H. by apply replace_function_name in H as (-> & _). }
    pose proof (proj1 Hun : find_function m (f_name F) = None) as HN.
    eapply find_none_Forall2 in HN; [|exact Hn|exact Hl]. rewrite find_app_none in EF by done. cbn [List.find] in EF.
    rewrite String.eqb_refl in EF. injection EF as <-. unfold callless in Hplain. by destruct (f_intrinsic F).
  - pose proof (replaceCalls_find g Hg) as H. destruct (find_function m g) as [G|]; [|by rewrite H].
    destruct H as (G' & -> & -> & -> & _). done.
Qed.

(** What is left are the calls to the other intrinsics. *)
Lemma replaceCalls_gather name' i :
  i ∈ gatherCallsToIntrinsic m' name' <-> i ∈ gatherCallsToIntrinsic m name' /\ name' <> name.
Proof.
  assert (Hboth : forall j, is_call_to m name j = true -> is_call_to m name' j = true -> name' = name).
  { intros j. unfold is_call_to. destruct (called_function m j) as [G|]; [|done]. destruct (f_intrinsic G); [|done].
    intros H1%String.eqb_eq H2%String.eqb_eq. congruence. }
  assert (Hunsel : forall j, is_call_to m name' j = true -> name' <> name -> replace_if sel F j = Done j).
  { intros j Hj Hne. unfold replace_if. destruct (is_call_to m name j) eqn:E; [|done]. by destruct (Hne (Hboth j E Hj)). }
  rewrite !elem_of_gather, is_call_to_after. destruct replaceCalls_cases as [[Hnil ->]|(l & Hl & ->)].
  { split; [|by intros [H _]]. intros H. split; [done|]. intros ->. apply elem_of_gather in H. rewrite Hnil in H.
    by apply not_elem_of_nil in H. }
  cbn [m_functions with_functions]. split.
  - intros (Hc & G' & b' & HG & Hb & Hi). apply elem_of_app in HG as [HG|HG%list_elem_of_singleton].
    + eapply Forall2_elem_of_r in HG as (G & HG & H); [|exact Hl].
      destruct (replace_function_insts_back G G' i H) as (j & Hj & b & Hb' & Hj'); [by exists b'|].
      unfold replace_if in Hj. destruct (is_call_to m name j) eqn:E.
      * exfalso. unfold replace_call in Hj. destruct j as [x t k]. destruct k; try done. cbn [i_kind] in Hj. inv_done.
        revert Hc. unfold is_call_to, called_function. cbn [i_kind]. by rewrite (proj1 Hun : find_function m (f_name F) = None).
      * injection Hj as ->. split; [split; [done|by exists G, b]|]. intros ->. congruence.
    + subst G'. unfold callless in Hplain. apply andb_true_iff in Hplain as [_ Hp]. rewrite forallb_forall in Hp.
      assert (Hin : List.In i (all_insts F)).
      { unfold all_insts. apply in_flat_map. exists b'. by rewrite <- !list_elem_of_In. }
      specialize (Hp i Hin). unfold is_call in Hp. unfold is_call_to, called_function in Hc. by destruct (i_kind i).
  - intros ((Hc & G & b & HG & Hb & Hi) & Hne). split; [done|].
    eapply Forall2_elem_of_l in HG as (G' & HG & H); [|exact Hl].
    destruct (replace_function_insts G G' i H) as (i' & Hi' & b' & Hb' & Hib); [by exists b|].
    rewrite (Hunsel i Hc Hne) in Hi'. injection Hi' as <-. exists G', b'. split; [|done]. apply elem_of_app. by left.
Qed.
Lemma undeclared_after d : f_name (snd d) <> f_name F -> fst d <> f_name F -> undeclared m d -> undeclared m' d.
Proof.
  intros H1 H2 [K1 K2]. pose proof (replaceCalls_find _ H1) as L1. rewrite K1 in L1. split; [done|].
  pose proof (replaceCalls_find _ H2) as L2. destruct (find_function m (fst d)) as [G|]; [|by rewrite L2].
  destruct L2 as (G' & -> & _ & _ & L). by apply L.
Qed.
End one.

(** The pass comes to an end iff the calls have the types of the function. *)
Lemma replaceCalls_total name F m :
  (exists m', replaceCalls name F m = Done m') <-> forall i, i ∈ gatherCallsToIntrinsic m name -> call_fits F i.
Proof.
  unfold replaceCalls. destruct (gatherCallsToIntrinsic m name) as [|i0 is0] eqn:Eg.
  { split; [|by eexists]. intros _ i Hi. by apply not_elem_of_nil in Hi. }
  rewrite <- Eg. clear Eg. split.
  - intros (m' & H) i Hi. apply obind_Done in H as (m1 & E1 & _). unfold replaceAllCalls in E1. inv_done.
    apply mapM_out_Done in E. apply elem_of_gather in Hi as (Hc & G & b & HG & Hb & Hi).
    eapply Forall2_elem_of_l in HG as (G' & HG & H); [|exact E].
    destruct (replace_function_insts name F m G G' i H) as (i' & Hi' & _); [by exists b|].
    unfold replace_if in Hi'. rewrite Hc in Hi'. apply replace_call_fits. by exists i'.
  - intros H. enough (exists m1, replaceAllCalls (is_call_to m name) F m = Done m1) as (m1 & ->) by by eexists.
    unfold replaceAllCalls. destruct (mapM_out_total (replace_function (is_call_to m name) F) (m_functions m)) as (l & ->); [|by eexists].
    intros G HG. unfold replace_function. destruct (mapM_out_total (replace_block (is_call_to m name) F) (f_blocks G)) as (l & ->); [|by eexists].
    intros b Hb. unfold replace_block. destruct (mapM_out_total (replace_if (is_call_to m name) F) (bb_insts b)) as (l & ->); [|by eexists].
    intros i Hi. unfold replace_if. destruct (is_call_to m name i) eqn:E; [|by eexists].
    apply replace_call_fits, H, elem_of_gather. split; [done|]. by exists G, b.
Qed.

(** *** A table of replacements *)

Lemma distinct_cons d l : distinct (d :: l) ->
  distinct l /\ fst d <> f_name (snd d) /\
  forall d', d' ∈ l -> fst d' <> fst d /\ fst d' <> f_name (snd d) /\ f_name (snd d') <> f_name (snd d).
Proof.
  unfold distinct. cbn [map app]. intros [H1 H2]%NoDup_cons. rewrite NoDup_app in H2. destruct H2 as (H2 & H3 & H4).
  apply NoDup_cons in H4 as [H4 H5]. rewrite not_elem_of_app, not_elem_of_cons in H1. destruct H1 as (K1 & K2 & K3).
  split.
  { apply NoDup_app. split; [done|]. split; [|done]. intros x Hx. specialize (H3 x Hx). set_solver. }
  split; [done|]. intros d' Hd.
  assert (Ha : fst d' ∈ map fst l) by by apply (list_elem_of_fmap_2 fst).
  assert (Hb : f_name (snd d') ∈ map (fun d => f_name (snd d)) l) by by apply (list_elem_of_fmap_2 (fun d => f_name (snd d))).
  split; [congruence|]. split; [|congruence]. intros E. apply (H3 (fst d') Ha). rewrite E. left.
Qed.

Section each.
Context {V W : Type} (M : Meaning V W).
Context (base : string -> list V -> W -> option (option V * W)) (slots : string -> gset string).

(** If the calls fit the functions, which do what the intrinsics do, then the
    pass succeeds, removes all calls, and changes nothing of what is computed. *)
Lemma replace_each_correct k l : forall m, distinct l -> Forall (fun d => callless (snd d) = true) l -> Forall (undeclared m) l ->
  (forall name F, (name, F) ∈ l -> (forall i, i ∈ gatherCallsToIntrinsic m name -> call_fits F i) /\
     (gatherCallsToIntrinsic m name <> [] -> implements M base slots k name F)) ->
  exists m', replace_each l m = Done m' /\ (forall d, d ∈ l -> gatherCallsToIntrinsic m' (fst d) = []) /\
    (forall name, name ∉ map fst l -> forall i, i ∈ gatherCallsToIntrinsic m' name -> i ∈ gatherCallsToIntrinsic m name) /\
    forall fuel g args w r, call_function M base slots fuel m g args w = Some r ->
      call_function M base slots (fuel + k * length l) m' g args w = Some r.
Proof.
  induction l as [|[name F] l IH]; intros m Hd Hp Hu Hl.
  { exists m. split; [done|]. split; [intros d Hd'; by apply not_elem_of_nil in Hd'|]. split; [done|].
    intros fuel g args w r. apply call_more. lia. }
  apply distinct_cons in Hd as (Hd & Hne & Hsep). apply Forall_cons in Hp as [HpF Hp]. apply Forall_cons in Hu as [HuF Hu].
  cbn [fst snd] in *. destruct (Hl name F ltac:(left)) as [Hfit Himp].
  destruct (proj2 (replaceCalls_total name F m) Hfit) as (m1 & E1).
  pose proof (replaceCalls_gather name F m m1 HpF HuF E1) as Hg.
  destruct (IH m1 Hd Hp) as (m' & E' & G1 & G2 & G3).
  - apply Forall_forall. intros d Hin. destruct (Hsep d Hin) as (_ & H2 & H3).
    eapply undeclared_after; [exact E1|done|done|]. rewrite Forall_forall in Hu. by apply Hu.
  - intros name' F' Hin. destruct (Hl name' F' ltac:(by right)) as [K1 K2]. split.
    + intros i Hi. apply Hg in Hi as [Hi _]. by apply K1.
    + intros Hi. apply K2. destruct (gatherCallsToIntrinsic m1 name') as [|i is'] eqn:E; [done|].
      assert (Hin' : i ∈ gatherCallsToIntrinsic m1 name') by (rewrite E; left). apply Hg in Hin' as [Hin' _].
      intros En. rewrite En in Hin'. by apply not_elem_of_nil in Hin'.
  - exists m'. cbn [replace_each]. rewrite E1. split; [done|].
    assert (Hnil : gatherCallsToIntrinsic m' name = []).
    { destruct (gatherCallsToIntrinsic m' name) as [|i is'] eqn:E; [done|]. exfalso.
      assert (Hi : i ∈ gatherCallsToIntrinsic m' name) by (rewrite E; left).
      apply G2 in Hi; [by apply Hg in Hi as [_ Hi]|]. intros (d & Ed & Hd')%list_elem_of_fmap. by destruct (Hsep d Hd') as [? _]. }
    split; [intros d [->|Hd']%elem_of_cons; [done|by apply G1]|]. split.
    + intros name' Hn i Hi. cbn [map fst] in Hn. rewrite not_elem_of_cons in Hn. destruct Hn as [_ Hn].
      specialize (G2 name' Hn i Hi). by apply Hg in G2 as [G2 _].
    + intros fuel g args w r Hc. cbn [length]. replace (fuel + k * S (length l))%nat with (fuel + k + k * length l)%nat by lia.
      apply G3. destruct (gatherCallsToIntrinsic m name) as [|i is'] eqn:Ei.
      * unfold replaceCalls in E1. rewrite Ei in E1. injection E1 as <-. eapply call_more; [|exact Hc]. lia.
      * eapply replaceCalls_preserves; [by apply Himp|exact (proj1 HuF)| |exact E1|exact Hc].
        intros G HG. pose proof (proj2 HuF) as Hdecl. cbn [fst] in Hdecl. by rewrite HG in Hdecl.
Qed.
End each.

(** The pass stops at calls the functions do not fit. *)
Lemma replace_each_fits l : forall m m', distinct l -> Forall (fun d => callless (snd d) = true) l -> Forall (undeclared m) l ->
  replace_each l m = Done m' -> forall name F i, (name, F) ∈ l -> i ∈ gatherCallsToIntrinsic m name -> call_fits F i.
Proof.
  induction l as [|[name F] l IH]; intros m m' Hd Hp Hu H name' F' i Hin Hi; [by apply not_elem_of_nil in Hin|].
  apply distinct_cons in Hd as (Hd & Hne & Hsep). apply Forall_cons in Hp as [HpF Hp]. apply Forall_cons in Hu as [HuF Hu].
  cbn [fst snd replace_each] in *. apply obind_Done in H as (m1 & E1 & H).
  apply elem_of_cons in Hin as [[= -> ->]|Hin].
  - apply (proj1 (replaceCalls_total name F m)); [by exists m1|done].
  - eapply (IH m1 m' Hd Hp); [|exact H|exact Hin|].
    + apply Forall_forall. intros d Hd'. destruct (Hsep d Hd') as (_ & H2 & H3).
      eapply undeclared_after; [exact E1|done|done|]. rewrite Forall_forall in Hu. by apply Hu.
    + apply (replaceCalls_gather name F m m1 HpF HuF E1). split; [done|]. by destruct (Hsep _ Hin) as [K _].
Qed.

(** *** What the three passes do *)

Section passes.
Context {W : Type} (address_of : Value -> Z) (other : Inst -> list Z -> W -> option (Z * W)).
Context (base : string -> list Z -> W -> option (option Z * W)) (slots : string -> gset string).
Abbreviation M := (integer_meaning address_of other).
Abbreviation call := (call_function M base slots).

(** The calls to [name] have the types of the intrinsic. *)
Definition calls_typed (m : Module_) (name : string) (arity : nat) (w : Z) : Prop :=
  Forall (fun i => i_type i = TyInt w /\
    match i_kind i with Call _ _ args => map type_of args = repeat (TyInt w) arity | _ => True end)
    (gatherCallsToIntrinsic m name).
Lemma calls_typed_fit m name arity w F : calls_typed m name arity w ->
  map snd (f_args F) = repeat (TyInt w) arity -> f_ret F = TyInt w ->
  forall i, i ∈ gatherCallsToIntrinsic m name -> call_fits F i.
Proof.
  unfold calls_typed. rewrite Forall_forall. intros H H1 H2 i Hi. destruct (H i Hi) as [K1 K2].
  unfold call_fits. destruct (i_kind i); try done. by rewrite H1, H2.
Qed.

(** The pass on a module has removed the calls to the intrinsics [names], and
    what a function returned, it still returns. *)
Definition removes (pass : Module_ -> outcome Module_) (m : Module_) (names : list string) (k : nat) : Prop :=
  exists m', pass m = Done m' /\ (forall name, name ∈ names -> gatherCallsToIntrinsic m' name = []) /\
    forall fuel g args w r, call fuel m g args w = Some r -> call (fuel + k) m' g args w = Some r.

(** ClamBCRemoveUSUB: if llvm.usub.sat.i32 is LLVM's saturating subtraction,
    the pass succeeds on well-typed calls, leaves none of them, and the
    functions of the module return what they returned. *)
Theorem RemoveUSUB_correct m : returns base "llvm.usub.sat.i32" (usub_sat 32) -> "ret" ∈ slots ".usub" ->
  undeclared m ("llvm.usub.sat.i32", addUSUB (TyInt 32)) -> calls_typed m "llvm.usub.sat.i32" 2 32 ->
  removes RemoveUSUB m ["llvm.usub.sat.i32"] 4.
Proof.
  intros Hr Hs Hu Ht. set (l := [("llvm.usub.sat.i32", addUSUB (TyInt 32))]).
  destruct (replace_each_correct M base slots 4 l m) as (m' & H1 & H2 & _ & H4).
  - by apply (bool_decide_unpack _).
  - by repeat constructor.
  - by apply Forall_singleton.
  - intros name F [[= -> ->]|Hin]%elem_of_cons; [|by apply not_elem_of_nil in Hin].
    split; [by eapply calls_typed_fit|]. intros _. by apply addUSUB_implements.
  - exists m'. split; [|split; [|exact H4]].
    + unfold RemoveUSUB. cbn [replace_each l] in H1. by destruct (replaceCalls _ _ m).
    + intros name ->%list_elem_of_singleton. apply (H2 ("llvm.usub.sat.i32", addUSUB (TyInt 32))). left.
Qed.

(** ClamBCRemoveUnsupportedICMPIntrinsics: if the eight intrinsics return the
    smaller or larger argument, signed or unsigned, the pass succeeds on
    well-typed calls, leaves none of them, and the functions of the module
    return what they returned. *)
Theorem RemoveUnsupportedICMPIntrinsics_correct m :
  (forall name newName p w, (name, newName, p, w) ∈ icmp_intrinsics ->
     returns base name (choose p w) /\ "ret" ∈ slots newName /\ calls_typed m name 2 w) ->
  Forall (undeclared m) icmp_functions -> removes RemoveUnsupportedICMPIntrinsics m (map fst icmp_functions) 32.
Proof.
  intros H Hu. destruct (replace_each_correct M base slots 4 icmp_functions m) as (m' & H1 & H2 & _ & H4).
  - by apply (bool_decide_unpack _).
  - by repeat constructor.
  - done.
  - intros name F ([[[n newName] p] w] & [= -> ->] & Hin)%list_elem_of_fmap. destruct (H _ _ _ _ Hin) as (K1 & K2 & K3).
    split; [by eapply calls_typed_fit|]. intros _. by apply addFunction_implements.
  - exists m'. split; [exact H1|]. split; [|exact H4]. intros name (d & -> & Hd)%list_elem_of_fmap. by apply H2.
Qed.

End passes.

(** The function that replaces the 8-bit funnel shift takes 16-bit arguments: no
    call to the intrinsic gets through the pass. *)
Lemma RemoveFSHL_i8 m m' : Forall (undeclared m) fshl_functions -> calls_typed m "llvm.fshl.i8" 3 8 ->
  RemoveFSHL m = Done m' -> gatherCallsToIntrinsic m "llvm.fshl.i8" = [].
Proof.
  intros Hu Ht H. destruct (gatherCallsToIntrinsic m "llvm.fshl.i8") as [|i is'] eqn:E; [done|]. exfalso.
  assert (Hi : i ∈ gatherCallsToIntrinsic m "llvm.fshl.i8") by (rewrite E; left).
  assert (Hf : call_fits (addFSHL 16 ".fshl.i8") i).
  { eapply (replace_each_fits fshl_functions m m'); [by apply (bool_decide_unpack _)|by repeat constructor|done|exact H| |exact Hi].
    right. right. left. }
  unfold calls_typed in Ht. rewrite Forall_forall in Ht. destruct (Ht i Hi) as [Ht1 _].
  apply elem_of_gather in Hi as [Hc _]. unfold call_fits in Hf. unfold is_call_to, called_function in Hc.
  destruct (i_kind i); try done. destruct Hf as [_ Hf]. rewrite Ht1 in Hf. done.
Qed.
(** The functions of the table choose minima and maxima. *)
Lemma choose_unsigned w a b : in_u w a -> in_u w b ->
  choose ICMP_ULT w [a; b] = Some (Z.min a b) /\ choose ICMP_UGT w [a; b] = Some (Z.max a b).
Proof.
  intros Ha Hb. unfold choose, icmp_value. rewrite !(wrap_small w) by done.
  split; f_equal; case_match; rewrite ?Z.ltb_lt, ?Z.ltb_ge in *; lia.
Qed.
Lemma choose_signed w a b :
  swrap w <$> choose ICMP_SLT w [a; b] = Some (Z.min (swrap w a) (swrap w b)) /\
  swrap w <$> choose ICMP_SGT w [a; b] = Some (Z.max (swrap w a) (swrap w b)).
Proof.
  unfold choose, icmp_value. cbn [fmap option_fmap option_map].
  split; f_equal; case_match; rewrite ?Z.ltb_lt, ?Z.ltb_ge in *; lia.
Qed.

(** *** A module that uses the intrinsics *)

Definition demo_declare (name : string) (w : Z) (arity : nat) : Function_ := {|
  f_name := name; f_args := map (fun x => (x, TyInt w)) (firstn arity ["a"; "b"; "c"]); f_ret := TyInt w; f_vararg := false;
  f_cc := 0; f_sret := false; f_available_externally := false; f_intrinsic := Some OtherIntrinsic; f_blocks := []
|}.
Definition demo_call (x name : string) (w : Z) (args : list Value) : Inst :=
  inst x (TyInt w) (Call (FunctionValue name (TyPtr (TyFun (TyInt w) (map type_of args) false))) 0 args).
Definition demo_calls : Module_ := {|
  m_structs := ∅; m_globals := [];
  m_functions := [
    demo_declare "llvm.usub.sat.i32" 32 2; demo_declare "llvm.umax.i16" 16 2; demo_declare "llvm.fshl.i32" 32 3;
    new_function "main" [("x", TyInt 32); ("y", TyInt 32)] (TyInt 32) [
      straight_block "entry" [
        demo_call "d" "llvm.usub.sat.i32" 32 [Local "x" (TyInt 32); Local "y" (TyInt 32)];
        demo_call "m" "llvm.umax.i16" 16 [ConstantInt 16 7; ConstantInt 16 5];
        inst "z" (TyInt 32) (Cast ZExt (Local "m" (TyInt 16)));
        demo_call "r" "llvm.fshl.i32" 32 [Local "d" (TyInt 32); Local "y" (TyInt 32); Local "z" (TyInt 32)] ]
        (Ret (Local "r" (TyInt 32))) ] ];
  m_logicalsignature := None; m_virusnames := None; m_funcmin := None; m_funcmax := None |}.
Definition demo_intrinsic (name : string) (args : list Z) : option Z :=
  if String.eqb name "llvm.usub.sat.i32" then usub_sat 32 args
  else if String.eqb name "llvm.fshl.i32" then fshl 32 args
  else if String.eqb name "llvm.fshl.i16" then fshl 16 args
  else '(_, _, p, w) ← List.find (fun d : string * string * cmp_predicate * Z => String.eqb (fst (fst (fst d))) name) icmp_intrinsics;
       choose p w args.
Definition demo_base (name : string) (args : list Z) (s : unit) : option (option Z * unit) :=
  v ← demo_intrinsic name args; Some (Some v, s).
Definition demo_run (m : Module_) (args : list Z) : option (option Z * unit) :=
  Semantics.call_function (integer_meaning (fun _ => 0) (fun _ _ _ => None)) demo_base (fun _ => {["ret"]}) 50 m "main" args tt.

Lemma RemoveUSUB_correct_witness :
  removes (fun _ => 0) (fun _ _ _ => None) demo_base (fun _ => {["ret"]}) RemoveUSUB demo_calls ["llvm.usub.sat.i32"] 4 /\
  demo_run demo_calls [1000; 3] = Some (Some (997 * 128), tt).
Proof.
  split; [|vm_compute; reflexivity]. apply (RemoveUSUB_correct _ _ _ _ demo_calls).
  - intros args w. reflexivity.
  - apply elem_of_singleton_2. reflexivity.
  - split; reflexivity.
  - repeat constructor.
Defined.
Lemma RemoveUnsupportedICMPIntrinsics_correct_witness :
  removes (fun _ => 0) (fun _ _ _ => None) demo_base (fun _ => {["ret"]}) RemoveUnsupportedICMPIntrinsics demo_calls
    (map fst icmp_functions) 32.
Proof.
  apply (RemoveUnsupportedICMPIntrinsics_correct _ _ _ _ demo_calls).
  - intros name newName p w Hin. unfold icmp_intrinsics in Hin. rewrite !elem_of_cons in Hin.
    repeat (destruct Hin as [Hin|Hin]; [injection Hin as -> -> -> ->|]); [..|by apply not_elem_of_nil in Hin];
      (split; [intros args s; reflexivity|split; [by apply elem_of_singleton_2|repeat constructor]]).
  - repeat (constructor; [split; reflexivity|]). constructor.
Defined.
