(* ===== verification/Verifier.v ===== *)
(** * Verifier: which functions the compiler accepts

    libclambcc/ClamBCVerifier.cpp looks at the instructions of a function
    before it is compiled, and stops the compiler for what the bytecode has no
    instruction for. *)
From S2P Require Import Prelude IR.
Local Open Scope string_scope.
Local Open Scope list_scope.
Local Open Scope Z_scope.
Local Open Scope outcome_scope.

(** ** Undefined values *)

(** hasUndefsOrPoisonValues(ConstantExpr*, visited): constants are unique, so
    equal ones are the same object; the set of visited expressions comes back
    because it is passed by reference. *)
Definition isUndefOrPoisonValue (v : Value) : bool := match v with UndefValue _ => true | _ => false end.
Fixpoint hasUndefs_CE (v : Value) (visited : list Value) : bool * list Value :=
  match v with
  | ConstantExpr _ ops _ =>
      if bool_decide (v ∈ visited) then (false, visited)
      else (fix scan (l : list Value) (visited : list Value) : bool * list Value :=
        match l with
        | [] => (false, visited)
        | o :: l =>
            if isUndefOrPoisonValue o then (true, visited)
            else let '(b, visited) := hasUndefs_CE o visited in
                 if b : bool then (true, visited) else scan l visited
        end) ops (v :: visited)
  | _ => (false, visited)
  end.
(** An operand of an instruction; local values are skipped. *)
Definition hasUndefs (v : Value) : bool := (isUndefOrPoisonValue v || fst (hasUndefs_CE v []))%bool.

(** ** Instructions *)

(** The instructions of a block in their order. *)
Inductive item := PHINode (p : Phi) | Instruction (i : Inst) | Terminator (t : Term).
Definition items (b : Block) : list item :=
  map PHINode (bb_phis b) ++ map Instruction (bb_insts b) ++ [Terminator (bb_term b)].
Definition item_operands (x : item) : list Value :=
  match x with
  | PHINode p => map fst (phi_incoming p)
  | Instruction i => operands (i_kind i)
  | Terminator t => term_operands t
  end.
Definition hasUndefsOrPoisonValues (x : item) : bool := existsb hasUndefs (item_operands x).

Section verifier.
Context (m : Module_) (F : Function_).

(** BitCastOperator is the cast of a constant or of an instruction. *)
Definition getCalledFunctionFromCallInst (callee : Value) : outcome string :=
  let stop := Stop "Verifier unable to get called function from call instruction" in
  let casted v := match v with FunctionValue g _ => Done g | _ => stop end in
  match callee with
  | FunctionValue g _ => Done g
  | ConstantExpr CE_BitCast (v :: _) _ => casted v
  | Local _ _ => match def_of F callee with
                 | Some i => match i_kind i with Cast BitCast v => casted v | _ => stop end
                 | None => stop
                 end
  | _ => stop
  end.
(** The diagnostics are not kept. *)
Definition validateFunction (G : Function_) : bool := negb (f_vararg G).
Definition visitCallInst (callee : Value) (cc : Z) : outcome bool :=
  let* g := getCalledFunctionFromCallInst callee in
  match find_function m g with
  | Some G => Done (if f_cc G =? cc then validateFunction G else false)
  | None => Undefined "a function of the module"
  end.
(** Calls of debug intrinsics are calls like others. *)
Definition isHandled (k : inst_kind) : bool :=
  match k with
  | Store _ _ | Load _ | GetElementPtr _ _ _ | Freeze _ | ICmp _ _ _ | Binary _ _ _ | Select _ _ _ | Cast _ _ | Alloca _ _ => true
  | _ => false
  end.
Definition accepts (x : item) : outcome bool :=
  match x with
  | PHINode _ => Done true
  | Instruction i =>
      match i_kind i with
      | Call callee cc _ => visitCallInst callee cc
      | DbgInfo => Done true
      | k => Done (isHandled k)
      end
  | Terminator (Switch _) => Done false
  | Terminator _ => Done true
  end.

(** The loop over a block: [None] is the return in its middle, otherwise the
    value of bRet after it. *)
Fixpoint walk_items (l : list item) (bRet : bool) : outcome (option bool) :=
  match l with
  | [] => Done (Some bRet)
  | x :: l =>
      if hasUndefsOrPoisonValues x then Done None
      else let* b := accepts x in
           if b : bool then walk_items l true else Done (Some false)
  end.
(** [break] leaves the inner loop only. *)
Fixpoint walk_blocks (bs : list Block) (bRet : bool) : outcome bool :=
  match bs with
  | [] => Done bRet
  | b :: bs =>
      let* r := walk_items (items b) bRet in
      match r with None => Done false | Some bRet => walk_blocks bs bRet end
  end.
Definition walk : outcome bool := walk_blocks (f_blocks F) true.
Definition verify : outcome unit :=
  let* OK := (if validateFunction F then walk else Done false) in
  if OK : bool then Done tt else Stop "Verifier rejected bytecode function due to errors".
End verifier.

(** ** The search for undefined values *)

Inductive undef_beneath : Value -> Prop :=
| undef_here op ops t t' : UndefValue t' ∈ ops -> undef_beneath (ConstantExpr op ops t)
| undef_there op ops t v : v ∈ ops -> undef_beneath v -> undef_beneath (ConstantExpr op ops t).
Fixpoint expr_size (v : Value) : nat :=
  match v with ConstantExpr _ ops _ => S (list_sum (map expr_size ops)) | _ => 1 end.
Lemma expr_size_in v ops : v ∈ ops -> (expr_size v <= list_sum (map expr_size ops))%nat.
Proof. induction 1 as [v l|v w l _ IH]; cbn [map list_sum foldr]; unfold list_sum in *; lia. Qed.

(** What was visited has no undefined value beneath it, or is larger than
    anything the search still looks at. *)
Definition clean (visited : list Value) (n : nat) : Prop :=
  forall u, u ∈ visited -> undef_beneath u -> (n < expr_size u)%nat.
Definition searched (v : Value) (visited : list Value) (r : bool * list Value) : Prop :=
  if fst r then undef_beneath v
  else ~ undef_beneath v /\ forall u, u ∈ snd r -> u ∈ visited \/ ~ undef_beneath u.
Fixpoint scan_ops (l : list Value) (visited : list Value) : bool * list Value :=
  match l with
  | [] => (false, visited)
  | o :: l =>
      if isUndefOrPoisonValue o then (true, visited)
      else let '(b, visited) := hasUndefs_CE o visited in
           if b : bool then (true, visited) else scan_ops l visited
  end.
Lemma hasUndefs_CE_eq op ops t visited :
  hasUndefs_CE (ConstantExpr op ops t) visited =
  if bool_decide (ConstantExpr op ops t ∈ visited) then (false, visited) else scan_ops ops (ConstantExpr op ops t :: visited).
Proof. reflexivity. Qed.
Lemma scan_ops_spec op ops t l : forall visited, l ⊆ ops ->
  (forall o visited, o ∈ ops -> clean visited (expr_size o) -> searched o visited (hasUndefs_CE o visited)) ->
  clean visited (list_sum (map expr_size ops)) ->
  if fst (scan_ops l visited) then undef_beneath (ConstantExpr op ops t)
  else (forall o, o ∈ l -> isUndefOrPoisonValue o = false /\ ~ undef_beneath o) /\
    forall u, u ∈ snd (scan_ops l visited) -> u ∈ visited \/ ~ undef_beneath u.
Proof.
  induction l as [|o l IH]; intros visited Hl Hrec Hc; cbn [scan_ops].
  { cbn. split; [intros o Ho; by apply not_elem_of_nil in Ho|]. by left. }
  assert (Ho : o ∈ ops) by (apply Hl; left). destruct (isUndefOrPoisonValue o) eqn:Eo; cbn [fst].
  { destruct o; try done. by eapply undef_here. }
  pose proof (expr_size_in o ops Ho) as Hs.
  specialize (Hrec o visited Ho) as Hso. destruct (hasUndefs_CE o visited) as [b v'] eqn:E.
  assert (K : searched o visited (b, v')) by (apply Hso; intros u Hu Hb; specialize (Hc u Hu Hb); lia).
  unfold searched in K. cbn [fst snd] in K. destruct b; cbn [fst]; [by eapply undef_there|]. destruct K as [K1 K2].
  specialize (IH v' ltac:(set_solver) Hrec). destruct (scan_ops l v') as [b2 v2]. cbn [fst snd] in *.
  destruct b2; [apply IH|destruct IH as [IH1 IH2]].
  - intros u Hu Hb. destruct (K2 u Hu) as [Hv|Hv]; [by apply Hc|by destruct Hv].
  - intros u Hu Hb. destruct (K2 u Hu) as [Hv|Hv]; [by apply Hc|by destruct Hv].
  - split; [intros x [->|Hx]%elem_of_cons; [done|by apply IH1]|].
    intros u Hu. destruct (IH2 u Hu) as [H|H]; [by apply K2|by right].
Qed.
Lemma hasUndefs_CE_searched n : forall v visited, (expr_size v <= n)%nat -> clean visited (expr_size v) ->
  searched v visited (hasUndefs_CE v visited).
Proof.
  induction n as [|n IH]; intros v visited Hn Hc; [destruct v; cbn in Hn; lia|].
  destruct v as [| | | |op ops t| | | | | | | |]; try (split; [by inversion 1|by left]).
  rewrite hasUndefs_CE_eq. case_bool_decide as Hv.
  { split; [|by left]. intros Hb. specialize (Hc _ Hv Hb). lia. }
  cbn [expr_size] in *.
  pose proof (scan_ops_spec op ops t ops (ConstantExpr op ops t :: visited) ltac:(done)) as H.
  unfold searched. destruct (scan_ops ops _) as [b v']. cbn [fst snd] in *. destruct b.
  - apply H.
    + intros o vs Ho Hco. apply IH; [|done]. pose proof (expr_size_in o ops Ho). lia.
    + intros u [->|Hu]%elem_of_cons Hb; [cbn [expr_size]; lia|]. specialize (Hc u Hu Hb). lia.
  - destruct H as [H1 H2].
    + intros o vs Ho Hco. apply IH; [|done]. pose proof (expr_size_in o ops Ho). lia.
    + intros u [->|Hu]%elem_of_cons Hb; [cbn [expr_size]; lia|]. specialize (Hc u Hu Hb). lia.
    + assert (Hnot : ~ undef_beneath (ConstantExpr op ops t)).
      { inversion 1 as [? ? ? t' Hin|? ? ? v Hin Hv']; subst; [by apply H1 in Hin as [? _]|by apply H1 in Hin as [_ ?]]. }
      split; [done|]. intros u Hu. apply H2 in Hu as [[->|Hu]%elem_of_cons|Hu]; auto.
Qed.
(** The set of visited expressions does not hide any. *)
Lemma hasUndefs_spec v : hasUndefs v = true <-> (exists t, v = UndefValue t) \/ undef_beneath v.
Proof.
  unfold hasUndefs. pose proof (hasUndefs_CE_searched (expr_size v) v [] ltac:(lia)) as H. unfold searched in H.
  destruct (hasUndefs_CE v []) as [b v']. cbn [fst snd] in *.
  assert (Hc : clean [] (expr_size v)) by (intros u Hu; by apply not_elem_of_nil in Hu). specialize (H Hc).
  rewrite orb_true_iff. split.
  - intros [E| ->]; [left; destruct v; try done; by eexists|by right].
  - intros [[t ->]|Hb]; [by left|right]. destruct b; [done|]. by destruct H.
Qed.

(** ** What is accepted *)

Section accepted.
Context (m : Module_) (F : Function_).

Definition item_ok (x : item) : Prop :=
  (forall v, v ∈ item_operands x -> ~ (exists t, v = UndefValue t) /\ ~ undef_beneath v) /\ accepts m F x = Done true.
(** The walk leaves the block at an instruction that is not accepted. *)
Definition left_at (l : list item) : Prop :=
  exists l1 x l2, l = l1 ++ x :: l2 /\ Forall item_ok l1 /\ hasUndefsOrPoisonValues x = false /\ accepts m F x = Done false.

Lemma hasUndefsOrPoisonValues_spec x : hasUndefsOrPoisonValues x = false <->
  forall v, v ∈ item_operands x -> ~ (exists t, v = UndefValue t) /\ ~ undef_beneath v.
Proof.
  unfold hasUndefsOrPoisonValues. rewrite <- not_true_iff_false, existsb_exists. setoid_rewrite hasUndefs_spec. split.
  - intros H v Hv. split; intros Hb; apply H; exists v; rewrite <- list_elem_of_In; tauto.
  - intros H (v & Hv & Hb). apply list_elem_of_In, H in Hv. tauto.
Qed.
Lemma item_ok_iff x : item_ok x <-> hasUndefsOrPoisonValues x = false /\ accepts m F x = Done true.
Proof. unfold item_ok. by rewrite hasUndefsOrPoisonValues_spec. Qed.
Lemma left_at_cons x l : left_at (x :: l) <->
  (hasUndefsOrPoisonValues x = false /\ accepts m F x = Done false) \/ (item_ok x /\ left_at l).
Proof.
  unfold left_at. split.
  - intros (l1 & y & l2 & H & H1 & H2). destruct l1 as [|z l1]; cbn [app] in H; injection H as -> ->; [by left|].
    apply Forall_cons in H1 as [H1 H3]. right. split; [done|]. by exists l1, y, l2.
  - intros [H|[H (l1 & y & l2 & -> & H1 & H2)]]; [by exists [], x, l|]. exists (x :: l1), y, l2. split; [done|]. split; [by constructor|done].
Qed.
Lemma not_left_at_nil : ~ left_at [].
Proof. intros (l1 & x & l2 & H & _). by destruct l1. Qed.
(** The value of bRet after the loop over a block. *)
Lemma walk_items_true l b : walk_items m F l b = Done (Some true) <-> (b = true \/ l <> []) /\ Forall item_ok l.
Proof.
  revert b. induction l as [|x l IH]; intros b; cbn [walk_items].
  { split; [intros [= ->]; split; [by left|done]|by intros [[->|?] _]]. }
  rewrite Forall_cons, item_ok_iff. destruct (hasUndefsOrPoisonValues x); [split; [done|by intros [_ [[? _] _]]]|].
  destruct (accepts m F x) as [[|]|msg|msg|msg]; cbn [obind]; try (split; [done|by intros [_ [[_ ?] _]]]).
  rewrite IH. split; [intros [_ H]; split; [by right|done]|]. intros [_ [_ H]]. split; [by left|done].
Qed.
Lemma walk_items_false l b : walk_items m F l b = Done (Some false) <-> (b = false /\ l = []) \/ left_at l.
Proof.
  revert b. induction l as [|x l IH]; intros b; cbn [walk_items].
  { split; [intros [= ->]; by left|]. by intros [[-> _]|?%not_left_at_nil]. }
  rewrite left_at_cons, item_ok_iff. destruct (hasUndefsOrPoisonValues x); [naive_solver|].
  destruct (accepts m F x) as [[|]|msg|msg|msg]; cbn [obind]; try (rewrite IH); naive_solver.
Qed.
Lemma items_nonempty b : items b <> [].
Proof. unfold items. intros H. by apply (f_equal (@length _)) in H; rewrite !length_app in H; cbn in H; lia. Qed.

Definition block_ok (b : Block) : Prop := Forall item_ok (items b).
Lemma walk_blocks_spec bs : forall r, walk_blocks m F bs r = Done true <->
  Forall (fun b => block_ok b \/ left_at (items b)) bs /\
  match list.last bs with Some b => block_ok b | None => r = true end.
Proof.
  induction bs as [|b bs IH]; intros r; cbn [walk_blocks].
  { split; [by intros [= ->]|by intros [_ ->]]. }
  pose proof (items_nonempty b) as Hne. split.
  - intros (o & E & H)%obind_Done. destruct o as [r'|]; [|done]. apply IH in H as [H1 H2].
    rewrite list.last_cons. destruct r'; [apply walk_items_true in E as [_ E]|apply walk_items_false in E].
    + split; [constructor; [by left|done]|]. by destruct (list.last bs).
    + destruct E as [[_ E]|E]; [done|]. split; [constructor; [by right|done]|]. by destruct (list.last bs).
  - intros [[Hb H]%Forall_cons Hl]. rewrite list.last_cons in Hl.
    destruct Hb as [Hb|Hb].
    + rewrite (proj2 (walk_items_true (items b) r)) by (split; [by right|done]). cbn [obind]. apply IH. split; [done|].
      by destruct (list.last bs).
    + rewrite (proj2 (walk_items_false (items b) r)) by by right. cbn [obind]. apply IH. split; [done|].
      destruct (list.last bs) as [b'|]; [done|]. exfalso. destruct Hb as (l1 & x & l2 & E & _ & _ & Hx).
      unfold block_ok in Hl. rewrite E in Hl. apply Forall_app in Hl as [_ [[_ Hl] _]%Forall_cons]. congruence.
Qed.

End accepted.

(** A switch, which the bytecode does not have, in a block that is not the last. *)
Definition demo_switch : Function_ := {|
  f_name := "f"; f_args := [("x", TyInt 32)]; f_ret := TyVoid; f_vararg := false; f_cc := 0; f_sret := false;
  f_available_externally := false; f_intrinsic := None;
  f_blocks := [ {| bb_name := "entry"; bb_phis := []; bb_insts := []; bb_term := Switch (Local "x" (TyInt 32)) |};
                {| bb_name := "end"; bb_phis := []; bb_insts := []; bb_term := RetVoid |} ] |}.
Lemma verify_accepts_switch m :
  accepts m demo_switch (Terminator (Switch (Local "x" (TyInt 32)))) = Done false /\ verify m demo_switch = Done tt.
Proof. split; reflexivity. Qed.

(** A function that returns an aggregate with an undefined field. *)
Definition undef_field : Value := ConstantAggregate [UndefValue (TyInt 32)] (TyStruct false [TyInt 32]).
Definition demo_undef (v : Value) : Function_ := {|
  f_name := "f"; f_args := []; f_ret := type_of v; f_vararg := false; f_cc := 0; f_sret := false; f_available_externally := false; f_intrinsic := None;
  f_blocks := [ {| bb_name := "entry"; bb_phis := []; bb_insts := []; bb_term := Ret v |} ] |}.
Lemma verify_accepts_undef_field m :
  verify m (demo_undef undef_field) = Done tt /\
  verify m (demo_undef (UndefValue (TyInt 32))) = Stop "Verifier rejected bytecode function due to errors".
Proof. split; reflexivity. Qed.
