(* ===== verification/PrepareGEPs.v ===== *)
(** * PrepareGEPs: getelementptrs over structures and arrays become byte offsets

    libclambcc/ClamBCPrepareGEPsForWriter.cpp. The bytecode's pointer
    instructions count bytes; a getelementptr through a bitcast to a structure
    or an array is taken apart into the arithmetic for its offset, a
    getelementptr over bytes and a cast. The functions on types are also in
    libclambcc/ClamBCUtilities.cpp. *)
From S2P Require Import Prelude IR Semantics Integers Addresses.
Local Open Scope string_scope.
Local Open Scope list_scope.
Local Open Scope Z_scope.
Local Open Scope outcome_scope.

Definition is_struct (t : ty) : bool := match t with TyStruct _ _ | TyNamed _ => true | _ => false end.
(** ConstantInt::get and BinaryOperator::Create *)
Definition constant_of (t : ty) (v : Z) : Value := match t with TyInt w => ConstantInt w (wrap w v) | t => OtherConstant t end.
Definition create_binary (x : string) (op : binop) (a b : Value) : outcome Inst :=
  let* _ := assert_ (bool_decide (type_of a = type_of b)) "Cannot create binary operator with two operands of differing type!" in
  Done (inst x (type_of a) (Binary op a b)).
Definition value_of (i : Inst) : Value := Local (i_name i) (i_type i).
Definition pointee (t : ty) : outcome ty := match t with TyPtr t => Done t | _ => AssertFailed "getPointerElementType" end.

Section prepare.
Context (bodies : structs) (StructLayout : ty -> option (list Z * Z)) (pointer_size float_size : Z).
Abbreviation fields_of := (fields_of bodies).

(** ** Sizes and offsets *)

(** In bits; pointers have no scalar size. *)
Fixpoint getTypeSize (t : ty) : outcome Z :=
  match t with
  | TyInt w => Done w
  | TyFloat => Done (8 * float_size)
  | TyArr n t =>
      let* s := getTypeSize t in
      let size := swrap 64 (n * s) in
      if size =? 0 then AssertFailed "Size has not been computed" else Done size
  | TyStruct _ _ | TyNamed _ =>
      match StructLayout t with
      | Some (_, size) => Done (8 * size)
      | None => AssertFailed "Cannot get layout of opaque structs"
      end
  | _ => AssertFailed "Size has not been computed"
  end.
Definition getTypeSizeInBytes (t : ty) : outcome Z := let* s := getTypeSize t in Done (Z.quot s 8).
Definition computeOffsetInBytes (t : ty) (idx : Z) : outcome Z :=
  match t with
  | TyStruct _ _ | TyNamed _ =>
      match fields_of t, StructLayout t with
      | Some fs, Some (offsets, _) =>
          let* _ := assert_ (idx <=? Z.of_nat (length fs)) "Idx too high" in
          match offsets !! Z.to_nat idx with
          | Some o => Done (8 * o / 8)
          | None => AssertFailed "Invalid element idx!"
          end
      | _, _ => AssertFailed "Cannot get layout of opaque structs"
      end
  | TyArr n t =>
      let* _ := assert_ (idx <=? n) "Idx too high" in
      let* size := getTypeSizeInBytes t in
      Done (swrap 64 (idx * size))
  | _ => AssertFailed "pt must be a complex type"
  end.
Definition findTypeAtIndex (t : ty) (idx : Z) : outcome (option ty) :=
  match t with
  | TyStruct _ _ | TyNamed _ =>
      match fields_of t with
      | Some fs => match fs !! Z.to_nat idx with Some t => Done (Some t) | None => AssertFailed "Something went wrong" end
      | None => AssertFailed "Something went wrong"
      end
  | TyArr _ t => Done (Some t)
  | _ => Done None
  end.

(** ** The offset of a getelementptr *)

(** [fresh k]: the name of the k-th value made. *)
Section offsets.
Context (fresh : nat -> string).

(** The type that is indexed next: the same if the element is no aggregate. *)
Definition next_type (currType tmp : ty) : ty :=
  if (is_struct tmp || match tmp with TyArr _ _ => true | _ => false end)%bool then tmp else currType.
(** One turn of the first processGEPI's loop: the instructions made, the
    addend, the type. *)
Definition struct_addend (k : nat) (currType : ty) (vIdx : Value) : outcome (list Inst * Value * ty) :=
  match vIdx with
  | ConstantInt w v =>
      let idx := getLimitedValue w v in
      let* val := computeOffsetInBytes currType idx in
      let* tmp := findTypeAtIndex currType idx in
      match tmp with
      | Some tmp => Done ([], ConstantInt w (wrap w val), next_type currType tmp)
      | None => AssertFailed "Should always be defined"
      end
  | _ =>
      match currType with
      | TyArr _ t =>
          let* size := getTypeSizeInBytes t in
          let* mul := create_binary (fresh k) Mul (constant_of (type_of vIdx) size) vIdx in
          Done ([mul], value_of mul, next_type currType t)
      | _ => AssertFailed "Figure out what to do here"
      end
  end.
Fixpoint struct_loop (k : nat) (currType : ty) (vCnt : Value) (l : list Value) : outcome (list Inst * Value) :=
  match l with
  | [] => Done ([], vCnt)
  | vIdx :: l =>
      let* (muls, ciAddend, currType) := struct_addend k currType vIdx in
      let* add := create_binary (fresh (k + length muls)) Add vCnt ciAddend in
      let* (rest, vCnt) := struct_loop (k + length muls + 1) currType (value_of add) l in
      Done (muls ++ add :: rest, vCnt)
  end.
(** The end of both: the pointer to the bytes and the cast, which takes over the
    uses of the getelementptr. *)
Definition byte_pointer (underlyingObject vCnt : Value) (tIdx : ty) (pgepi : Inst) : outcome (list Inst) :=
  let Zero := constant_of tIdx 0 in
  let* t := pointee (type_of underlyingObject) in
  let first := match t with
    | TyArr _ t' => [inst (fresh 0) (TyPtr t') (GetElementPtr false underlyingObject [Zero; Zero])]
    | _ => []
    end in
  let gepiNew := match first with g :: _ => value_of g | [] => underlyingObject end in
  let gep := inst (fresh 1) (type_of gepiNew) (GetElementPtr false gepiNew [vCnt]) in
  Done (first ++ [gep; inst (i_name pgepi) (i_type pgepi) (Cast BitCast (value_of gep))]).
Definition processGEPI_struct (pgepi : Inst) (idx : list Value) (underlyingObject : Value) (gepiDstType : ty) : outcome (list Inst) :=
  let* size := getTypeSizeInBytes gepiDstType in
  let* _ := assert_ (negb (size =? 0)) "size not computed" in
  match idx with
  | [] => Undefined "idx_begin"
  | vIdx :: rest =>
      let* mul := create_binary (fresh 2) Mul (constant_of (type_of vIdx) size) vIdx in
      let* (l, vCnt) := struct_loop 3 gepiDstType (value_of mul) rest in
      let* tail := byte_pointer underlyingObject vCnt (type_of vIdx) pgepi in
      Done (mul :: l ++ tail)
  end.

(** The second processGEPI: its loop keeps the last structure seen, [None]
    before the first. *)
Fixpoint array_loop (k : nat) (currType : ty) (pCurrStruct : option ty) (vCnt : Value) (l : list Value) : outcome (list Inst * Value) :=
  match l with
  | [] => Done ([], vCnt)
  | vIdx :: l =>
      let pCurrStruct := match pCurrStruct with None => if is_struct currType then Some currType else None | s => s end in
      match vIdx with
      | ConstantInt w v =>
          let pc := getLimitedValue w v in
          let* pt := findTypeAtIndex currType pc in
          match pt with
          | None => array_loop k currType pCurrStruct vCnt l
          | Some pt =>
              let* (dead, addend, pCurrStruct) :=
                (if is_struct pt then
                   let* val := computeOffsetInBytes pt pc in Done ([], ConstantInt w (wrap w val), Some pt)
                 else match pCurrStruct with
                   | None => AssertFailed "isa<> used on a null pointer"
                   | Some s =>
                       let* val := computeOffsetInBytes s pc in
                       let ciAddend := ConstantInt w (wrap w val) in
                       let* dead := create_binary (fresh k) Add ciAddend vIdx in
                       Done ([dead], ciAddend, pCurrStruct)
                   end) in
              let* add := create_binary (fresh (k + length dead)) Add vCnt addend in
              let* (rest, vCnt) := array_loop (k + length dead + 1) pt pCurrStruct (value_of add) l in
              Done (dead ++ add :: rest, vCnt)
          end
      | _ =>
          let* size := getTypeSizeInBytes currType in
          let* mul := create_binary (fresh k) Mul (constant_of (type_of vIdx) size) vIdx in
          let* add := create_binary (fresh (k + 1)) Add vCnt (value_of mul) in
          let* (rest, vCnt) := array_loop (k + 2) currType pCurrStruct (value_of add) l in
          Done (mul :: add :: rest, vCnt)
      end
  end.
Definition processGEPI_array (pgepi : Inst) (idx : list Value) (underlyingObject : Value) (elementType : ty) : outcome (list Inst) :=
  let* size := getTypeSizeInBytes elementType in
  let* _ := assert_ (negb (size =? 0)) "size not computed" in
  match idx with
  | [] => Undefined "idx_begin"
  | vIdx :: rest =>
      let* mul := create_binary (fresh 2) Mul (constant_of (type_of vIdx) size) vIdx in
      let* (l, vCnt) := array_loop 3 elementType None (value_of mul) rest in
      let* tail := byte_pointer underlyingObject vCnt (type_of vIdx) pgepi in
      Done (mul :: l ++ tail)
  end.

End offsets.

(** ** The pass *)

Definition ignoreGEPI (p : Value) : bool :=
  match type_of p with
  | TyPtr (TyInt 8) | TyPtr (TyArr _ (TyInt 8)) => true
  | _ => false
  end.
(** stripBitCasts goes up the function; [fuel] is the number of its
    instructions. *)
Fixpoint stripBitCasts (f : Function_) (fuel : nat) (p : Value) : outcome Value :=
  match def_of f p with
  | Some {| i_kind := Cast BitCast v |} =>
      match fuel with O => Undefined "fuel" | S fuel => stripBitCasts f fuel v end
  | _ => Done p
  end.

(** [fresh x k]: the name of the k-th value made for the getelementptr [x]. *)
Context (fresh : string -> nat -> string).
Definition processGEPI (f : Function_) (i : Inst) : outcome (list Inst) :=
  match i_kind i with
  | GetElementPtr _ p idx =>
      match def_of f p with
      | Some {| i_kind := Cast BitCast v |} =>
          let* vPtr := stripBitCasts f (length (all_insts f)) v in
          let* ptrType := pointee (type_of vPtr) in
          let* _ := assert_ (match ptrType with TyArr _ t => bool_decide (t = TyInt 8) | t => bool_decide (t = TyInt 8) end)
                      "ClamBCLowering did not do it's job" in
          let* gepiDstType := pointee (type_of p) in
          match gepiDstType with
          | TyStruct _ _ | TyNamed _ => processGEPI_struct (fresh (i_name i)) i idx vPtr gepiDstType
          | TyArr _ t => processGEPI_array (fresh (i_name i)) i idx vPtr t
          | _ => Done [i]
          end
      | _ => Done [i]
      end
  | _ => Done [i]
  end.
(** The getelementptrs are found first, and replaced one after the other. *)
Definition replace_inst (x : string) (l : list Inst) (f : Function_) : Function_ :=
  with_blocks f (map (fun b => {| bb_name := bb_name b; bb_phis := bb_phis b;
    bb_insts := flat_map (fun i => if String.eqb (i_name i) x then l else [i]) (bb_insts b); bb_term := bb_term b |}) (f_blocks f)).
Definition gepis (f : Function_) : list Inst :=
  List.filter (fun i => match i_kind i with GetElementPtr _ p _ => negb (ignoreGEPI p) | _ => false end) (all_insts f).
Fixpoint process_all (l : list Inst) (f : Function_) : outcome Function_ :=
  match l with
  | [] => Done f
  | i :: l => let* is_ := processGEPI f i in process_all l (replace_inst (i_name i) is_ f)
  end.
Definition convertArrayStructGEPIsToI8 (f : Function_) : outcome Function_ := process_all (gepis f) f.

(** fixCasts: the casts stay, without uses. *)
Definition hasAllZeroIndices (l : list Value) : bool :=
  forallb (fun v => match v with ConstantInt w v => wrap w v =? 0 | _ => false end) l.
Definition useless_cast (f : Function_) (i : Inst) : option Value :=
  match i_kind i with
  | Cast _ v =>
      match def_of f v with
      | Some {| i_kind := GetElementPtr _ p idx |} =>
          match def_of f p with
          | Some {| i_kind := Alloca _ _; i_type := t |} =>
              if (hasAllZeroIndices idx && bool_decide (t = i_type i))%bool then Some p else None
          | _ => None
          end
      | _ => None
      end
  | _ => None
  end.
Definition fix_cast (f : Function_) (x : string) : Function_ :=
  match List.find (fun i => String.eqb (i_name i) x) (all_insts f) with
  | Some i => match useless_cast f i with Some p => replace_uses x p f | None => f end
  | None => f
  end.
Definition fixCasts (f : Function_) : Function_ :=
  fold_left fix_cast (map i_name (List.filter (fun i => match i_kind i with Cast _ _ => true | _ => false end) (all_insts f))) f.
Definition PrepareGEPsForWriter (m : Module_) : outcome Module_ :=
  let* l := mapM_out convertArrayStructGEPIsToI8 (m_functions m) in Done (with_functions m (map fixCasts l)).
End prepare.

(** ** The offset is the one of the getelementptr *)

Section correct.
Context (bodies : structs) (StructLayout : ty -> option (list Z * Z)) (pointer_size float_size : Z).
Context (address_of : Value -> Z) (fresh : nat -> string) (fresh_inj : forall a b, fresh a = fresh b -> a = b).
Abbreviation fields_of := (fields_of bodies).
Abbreviation alloc_size := (alloc_size StructLayout pointer_size float_size).
Abbreviation offset_of := (offset_of bodies StructLayout pointer_size float_size).
Abbreviation gep_offset := (gep_offset bodies StructLayout pointer_size float_size).
Abbreviation run := (run_insts bodies StructLayout pointer_size float_size address_of).
Abbreviation struct_loop := (struct_loop bodies StructLayout float_size fresh).
Abbreviation struct_addend := (struct_addend bodies StructLayout float_size fresh).
Abbreviation M := (address_meaning bodies StructLayout pointer_size float_size address_of).
Abbreviation eval := (Semantics.eval (M := M)).

(** The compiler computes sizes from the bits of a type: the integers must fill
    their bytes, and the sizes fit 64 bits. *)
Fixpoint regular (t : ty) : Prop :=
  match t with
  | TyInt w => 8 * int_size w = w
  | TyFloat => 0 <= float_size
  | TyArr n t => 0 <= n /\ regular t /\ forall s, alloc_size t = Some s -> 0 <= s /\ 8 * (n * s) < 2 ^ 63
  | TyStruct _ _ | TyNamed _ => forall lay, StructLayout t = Some lay -> 0 <= snd lay
  | _ => True
  end.
(** The elements of the arrays indexed are regular. *)
Fixpoint regular_path (t : ty) (l : list Value) : Prop :=
  match l with
  | [] => True
  | v :: l =>
      match t with
      | TyArr _ t => regular t /\ regular_path t l
      | TyStruct _ _ | TyNamed _ =>
          match v, fields_of t with
          | ConstantInt w k, Some fs => match fs !! Z.to_nat (wrap w k) with Some t => regular_path t l | None => True end
          | _, _ => True
          end
      | _ => True
      end
  end.

Lemma getTypeSize_alloc t : regular t -> forall s, getTypeSize StructLayout float_size t = Done s ->
  exists b, alloc_size t = Some b /\ s = 8 * b.
Proof.
  induction t as [|w| |t _|n t IH|packed l _|name|r l va _ _] using ty_induction; intros Hr s H; cbn [getTypeSize Addresses.alloc_size] in *; try done.
  - injection H as <-. exists (int_size w). split; [done|]. by rewrite Hr.
  - injection H as <-. by exists float_size.
  - destruct Hr as (Hn & Hr & Hs). apply obind_Done in H as (s1 & E & H). destruct (IH Hr s1 E) as (b & Eb & ->).
    rewrite Eb. cbn [mbind option_bind]. exists (n * b). split; [done|]. destruct (Hs b Eb) as [Hb Hlt].
    assert (Ew : swrap 64 (n * (8 * b)) = n * (8 * b)).
    { apply swrap_unique; [lia| |exists 0; lia]. unfold in_s. pow2. lia. }
    rewrite Ew in H. destruct (n * (8 * b) =? 0); [done|]. injection H as <-. lia.
  - destruct (StructLayout (TyStruct packed l)) as [[offs size]|]; [|done]. injection H as <-. by exists size.
  - destruct (StructLayout (TyNamed name)) as [[offs size]|]; [|done]. injection H as <-. by exists size.
Qed.
Lemma getTypeSizeInBytes_alloc t s : regular t -> getTypeSizeInBytes StructLayout float_size t = Done s -> alloc_size t = Some s.
Proof.
  intros Hr H. unfold getTypeSizeInBytes in H. apply obind_Done in H as (s1 & E & H). apply Done_inj in H as <-.
  destruct (getTypeSize_alloc t Hr s1 E) as (b & Eb & ->). rewrite Z.mul_comm, Z.quot_mul by lia. done.
Qed.

(** Values that differ only in what is new. *)
Definition old (e e' : gmap string Z) : Prop := forall y, (forall k, y <> fresh k) -> e' !! y = e !! y.
Definition not_fresh (v : Value) : Prop := forall k, is_local (fresh k) v = false.
Lemma old_eval e e' v : old e e' -> not_fresh v -> eval e' v = eval e v.
Proof.
  intros He Hv. destruct v; try done. cbn [eval]. rewrite He; [done|]. intros k ->. specialize (Hv k). cbn in Hv.
  by rewrite String.eqb_refl in Hv.
Qed.
Lemma old_insert e e' k z : old e e' -> old e (<[fresh k := z]> e').
Proof. intros He y Hy. rewrite lookup_insert_ne; [by apply He|]. by apply not_eq_sym. Qed.

(** The sum and product made, at the width of the index. *)
Lemma run_create_binary k op a b i e w :
  create_binary (fresh k) op a b = Done i -> type_of a = TyInt w -> (op = Mul \/ op = Add) ->
  type_of b = TyInt w /\ value_of i = Local (fresh k) (TyInt w) /\
  forall l, run (i :: l) e = run l (<[fresh k := wrap w (match op with Mul => eval e a * eval e b | _ => eval e a + eval e b end)]> e).
Proof.
  intros H Ha Hop. unfold create_binary in H. destruct (bool_decide (type_of a = type_of b)) eqn:E; [|done].
  apply bool_decide_eq_true_1 in E. cbn [assert_ obind] in H. injection H as <-. split; [congruence|].
  unfold value_of. cbn [inst i_name i_type]. rewrite Ha. split; [done|]. intros l.
  destruct Hop as [-> | ->]; [by rewrite run_mul|by rewrite run_add].
Qed.
Lemma eval_constant_of w z e : eval e (constant_of (TyInt w) z) = wrap w (wrap w z).
Proof. reflexivity. Qed.

(** What the next index is relative to. *)
Lemma next_type_offset t tmp l xs o : offset_of tmp (zip l xs) = Some o -> length xs = length l -> regular_path tmp l ->
  offset_of (next_type t tmp) (zip l xs) = Some o /\ regular_path (next_type t tmp) l.
Proof.
  intros H Hl Hr. unfold next_type. destruct (is_struct tmp || _)%bool eqn:E; [done|].
  destruct l as [|v l]; [by split|]. destruct xs as [|x xs]; [done|]. by destruct tmp.
Qed.

Section loop.
Context (wi : Z) (Hwi : 1 <= wi <= 64) (e : gmap string Z).
Abbreviation values := (map (eval e)).

Lemma getLimitedValue_int v : getLimitedValue wi v = wrap wi v.
Proof.
  unfold getLimitedValue. pose proof (wrap_range wi v ltac:(lia)) as H. unfold in_u in H.
  assert (2 ^ wi <= 2 ^ 64) by (apply Z.pow_le_mono_r; lia). lia.
Qed.
Lemma wrap_wrap64 z : wrap wi (swrap 64 z) = wrap wi z.
Proof. rewrite <- (wrap_narrow wi 64 (swrap 64 z)) by lia. rewrite wrap_swrap by lia. apply wrap_narrow. lia. Qed.
Lemma wrap_mul_swrap a b : wrap wi (swrap wi a * b) = wrap wi (a * b).
Proof. destruct (swrap_mod wi a ltac:(lia)) as (q & ->). unfold wrap. rewrite Z.mul_add_distr_r, <- Z.mul_assoc, (Z.mul_comm (2 ^ wi)), Z.mul_assoc. by rewrite Z_mod_plus_full. Qed.
Lemma wrap_mul_wrap a b : wrap wi (wrap wi a * b) = wrap wi (a * b).
Proof. unfold wrap. apply Zmult_mod_idemp_l. Qed.
Lemma wrap_add a a' b b' : wrap wi a = wrap wi a' -> wrap wi b = wrap wi b' -> wrap wi (a + b) = wrap wi (a' + b').
Proof. unfold wrap. intros Ha Hb. by rewrite Zplus_mod, Ha, Hb, <- Zplus_mod. Qed.

(** The elements of a structure and of an array. *)
Lemma computeOffset_struct t k z : is_struct t = true -> computeOffsetInBytes bodies StructLayout float_size t k = Done z ->
  exists lay, StructLayout t = Some lay /\ fst lay !! Z.to_nat k = Some z.
Proof.
  intros Ht H. destruct t; try done; cbn [computeOffsetInBytes] in H; (destruct (fields_of _); [|done]);
    (destruct (StructLayout _) as [[offs size]|] eqn:El; [|done]); apply obind_Done in H as (u & _ & H);
    (destruct (offs !! Z.to_nat k) as [o|] eqn:Eo; [|done]); apply Done_inj in H as <-; exists (offs, size); cbn [fst];
    rewrite Z.mul_comm, Z.div_mul by lia; done.
Qed.
Lemma findType_struct t k r : is_struct t = true -> findTypeAtIndex bodies t k = Done r ->
  exists fs t', fields_of t = Some fs /\ fs !! Z.to_nat k = Some t' /\ r = Some t'.
Proof.
  intros Ht H. destruct t; try done; cbn [findTypeAtIndex] in H; (destruct (fields_of _) as [fs|]; [|done]);
    (destruct (fs !! Z.to_nat k) as [t'|] eqn:E; [|done]); apply Done_inj in H as <-; by exists fs, t'.
Qed.

(** One index: what is added is its part of the offset. *)
Definition part (k : nat) (t : ty) (v : Value) (l : list Value) (e' : gmap string Z) (muls : list Inst) (addend : Value) (t' : ty) : Prop :=
  forall o, regular_path t (v :: l) -> offset_of t ((v, eval e v) :: zip l (values l)) = Some o ->
  exists o1 o2 e'', o = o1 + o2 /\ offset_of t' (zip l (values l)) = Some o2 /\ regular_path t' l /\
    (forall L, run (muls ++ L) e' = run L e'') /\ old e e'' /\ wrap wi (eval e'' addend) = wrap wi o1 /\
    (forall j, (j < k)%nat -> e'' !! fresh j = e' !! fresh j).
Lemma struct_addend_constant k t v l e' addend t' muls : old e e' -> type_of (ConstantInt wi v) = type_of addend ->
  struct_addend k t (ConstantInt wi v) = Done (muls, addend, t') -> part k t (ConstantInt wi v) l e' muls addend t'.
Proof.
  intros He Ht H o Hr Ho. cbn [PrepareGEPs.struct_addend] in H. rewrite getLimitedValue_int in H.
  apply obind_Done in H as (val & Ev & H). apply obind_Done in H as (tmp & Et & H).
  destruct tmp as [tmp|]; [|done]. injection H as <- <- <-.
  assert (Hev : forall e0, wrap wi (eval e0 (ConstantInt wi (wrap wi val))) = wrap wi val).
  { intros e0. cbn [eval constant_meaning address_meaning integer_meaning constant_value]. by rewrite !wrap_wrap by lia. }
  assert (Hlen : length (values l) = length l) by apply length_map.
  destruct (is_struct t) eqn:Es.
  - destruct (computeOffset_struct t _ _ Es Ev) as (lay & El & Eo). destruct (findType_struct t _ _ Es Et) as (fs & t1 & Ef & Et1 & [= ->]).
    assert (Ho' : exists o2, offset_of t1 (zip l (values l)) = Some o2 /\ o = val + o2 /\ regular_path t1 l).
    { destruct t; try done; cbn [Addresses.offset_of regular_path] in Ho, Hr; rewrite Ef in Ho, Hr; rewrite Et1 in Hr;
        rewrite El in Ho; cbn [mbind option_bind] in Ho; rewrite Et1, Eo in Ho; cbn [mbind option_bind] in Ho;
        apply bind_Some in Ho as (o2 & Eo2 & Ho); injection Ho as <-; by exists o2. }
    destruct Ho' as (o2 & Ho2 & -> & Hr2). destruct (next_type_offset t t1 l _ o2 Ho2 Hlen Hr2) as [H1 H2].
    exists val, o2, e'. by rewrite Hev.
  - destruct t as [| | | |n t| | |]; try done. cbn [computeOffsetInBytes findTypeAtIndex regular_path Addresses.offset_of] in *.
    apply Done_inj in Et as [= <-]. destruct Hr as [Hr Hr2]. apply obind_Done in Ev as (u & _ & Ev). apply obind_Done in Ev as (s & Es' & Ev).
    apply Done_inj in Ev as <-. apply (getTypeSizeInBytes_alloc t s Hr) in Es'. cbn [type_of width mbind option_bind] in Ho.
    rewrite Es' in Ho. cbn [mbind option_bind] in Ho. apply bind_Some in Ho as (o2 & Ho2 & Ho). injection Ho as <-.
    destruct (next_type_offset (TyArr n t) t l _ o2 Ho2 Hlen Hr2) as [H1 H2].
    exists (swrap wi (eval e (ConstantInt wi v)) * s), o2, e'. rewrite Hev, wrap_wrap64, wrap_mul_wrap, wrap_mul_swrap.
    cbn [eval constant_meaning address_meaning integer_meaning constant_value]. by rewrite wrap_mul_wrap.
Qed.
Lemma struct_addend_dynamic k t v l e' addend t' muls : old e e' -> not_fresh v -> (forall w c, v <> ConstantInt w c) ->
  type_of addend = TyInt wi ->
  struct_addend k t v = Done (muls, addend, t') -> part k t v l e' muls addend t'.
Proof.
  intros He Hv Hc Ht H o Hr Ho.
  assert (H' : exists n t1 size mul, t = TyArr n t1 /\ getTypeSizeInBytes StructLayout float_size t1 = Done size /\
    create_binary (fresh k) Mul (constant_of (type_of v) size) v = Done mul /\ muls = [mul] /\ addend = value_of mul /\ t' = next_type t t1).
  { unfold PrepareGEPs.struct_addend in H. destruct v; try (by destruct (Hc w v)); destruct t; try done;
      apply obind_Done in H as (size & Es & H); apply obind_Done in H as (mul & Em & H); injection H as <- <- <-;
      by do 4 eexists. }
  clear H. destruct H' as (n & t1 & size & mul & -> & Es & Em & -> & -> & ->).
  cbn [regular_path] in Hr. destruct Hr as [Hr Hr2]. apply (getTypeSizeInBytes_alloc t1 size Hr) in Es.
  cbn [Addresses.offset_of] in Ho. rewrite Es in Ho. apply bind_Some in Ho as (w & Ew & Ho). cbn [mbind option_bind] in Ho.
  apply bind_Some in Ho as (o2 & Ho2 & Ho). injection Ho as <-.
  assert (Hty : type_of v = TyInt wi).
  { unfold create_binary in Em. apply obind_Done in Em as (u & Eu & Em). injection Em as <-. cbn [value_of inst i_type type_of] in Ht.
    unfold assert_ in Eu. destruct (bool_decide _) eqn:Eb; [|done]. apply bool_decide_eq_true_1 in Eb. congruence. }
  rewrite Hty in Ew, Em. injection Ew as <-.
  destruct (run_create_binary k Mul _ v mul e' wi Em eq_refl (or_introl eq_refl)) as (_ & Hres & Hrun).
  assert (Hlen : length (values l) = length l) by apply length_map.
  destruct (next_type_offset (TyArr n t1) t1 l _ o2 Ho2 Hlen Hr2) as [H1 H2].
  eexists _, o2, _. split; [reflexivity|]. split; [exact H1|]. split; [exact H2|]. split; [intros L; apply Hrun|].
  split; [by apply old_insert|]. split.
  - rewrite Hres. cbn [eval]. rewrite lookup_insert_eq. cbn [default from_option id]. rewrite eval_constant_of, (old_eval e e' v He Hv).
    rewrite wrap_wrap by lia. rewrite !wrap_mul_wrap. rewrite wrap_mul_swrap. f_equal. apply Z.mul_comm.
  - intros j Hj. rewrite lookup_insert_ne; [done|]. intros Hjk%fresh_inj. lia.
Qed.

(** The loop adds up the offsets. *)
Lemma struct_loop_spec l : forall k t x is_ vCnt' e' o x0, (x < k)%nat -> e' !! fresh x = Some x0 ->
  struct_loop k t (Local (fresh x) (TyInt wi)) l = Done (is_, vCnt') -> old e e' -> Forall not_fresh l -> regular_path t l ->
  offset_of t (zip l (values l)) = Some o ->
  exists e'' j z, (forall L, run (is_ ++ L) e' = run L e'') /\ old e e'' /\ (x <= j)%nat /\ vCnt' = Local (fresh j) (TyInt wi) /\
    e'' !! fresh j = Some z /\ wrap wi z = wrap wi (x0 + o).
Proof.
  induction l as [|v l IH]; intros k t x is_ vCnt' e' o x0 Hx Hx0 H He Hl Hr Ho; cbn [PrepareGEPs.struct_loop] in H.
  { injection H as <- <-. cbn [zip zip_with map] in Ho. exists e', x, x0. do 5 (split; [done|]).
    destruct t; injection Ho as <-; by rewrite Z.add_0_r. }
  apply obind_Done in H as ([[muls addend] t'] & Ea & H). apply obind_Done in H as (add & Eadd & H).
  apply obind_Done in H as ([rest v''] & Er & H). injection H as <- <-. apply Forall_cons in Hl as [Hv Hl].
  destruct (run_create_binary _ Add (Local (fresh x) (TyInt wi)) addend add e' wi Eadd eq_refl (or_intror eq_refl)) as (Hta & Hres & _).
  assert (Hp : part k t v l e' muls addend t').
  { destruct v; try (apply struct_addend_dynamic; [exact He|exact Hv|by intros ? ?|exact Hta|exact Ea]).
    assert (w = wi) as ->.
    { cbn [PrepareGEPs.struct_addend] in Ea. apply obind_Done in Ea as (? & _ & Ea). apply obind_Done in Ea as (tmp & _ & Ea).
      destruct tmp; [|done]. injection Ea as _ <- _. cbn [type_of] in Hta. by injection Hta. }
    apply struct_addend_constant; [exact He|by rewrite Hta|exact Ea]. }
  cbn [zip zip_with map] in Ho. destruct (Hp o Hr Ho) as (o1 & o2 & e1 & -> & Ho2 & Hr2 & Hrun & He1 & Haddend & Hkeep).
  destruct (run_create_binary _ Add (Local (fresh x) (TyInt wi)) addend add e1 wi Eadd eq_refl (or_intror eq_refl)) as (_ & _ & Hadd).
  rewrite Hres in Er. rewrite <- Hkeep in Hx0 by done. assert (Hval : eval e1 (Local (fresh x) (TyInt wi)) = x0) by (cbn [eval]; by rewrite Hx0).
  rewrite Hval in Hadd.
  destruct (IH (k + length muls + 1)%nat t' (k + length muls)%nat rest v'' _ o2 _ ltac:(lia) (lookup_insert_eq e1 _ _) Er
    (old_insert e e1 (k + length muls) (wrap wi (x0 + eval e1 addend)) He1) Hl Hr2 Ho2) as (e'' & j & z & K1 & K2 & K3 & K4 & K5 & K6).
  exists e'', j, z. split; [|split; [exact K2|split; [lia|split; [exact K4|split; [exact K5|]]]]].
  - intros L. rewrite <- app_assoc, Hrun. cbn [app]. rewrite Hadd. apply K1.
  - rewrite K6. replace (x0 + (o1 + o2)) with (x0 + o1 + o2) by lia.
    apply wrap_add; [|done]. rewrite wrap_wrap by lia. by apply wrap_add.
Qed.
End loop.

(** The bytes at the offset. *)
Lemma zero_index e wi : 1 <= wi -> swrap wi (eval e (constant_of (TyInt wi) 0)) = 0.
Proof.
  intros Hwi. cbn [eval constant_of constant_meaning address_meaning integer_meaning constant_value]. rewrite !swrap_wrap.
  apply swrap_unique; [done| |exists 0; lia]. unfold in_s. pose proof (pow2_pos (wi - 1) ltac:(lia)). lia.
Qed.
Lemma run_byte_pointer e e' U wi j pgepi tail b t : 1 <= wi -> (2 <= j)%nat -> i_type pgepi = TyPtr t ->
  (type_of U = TyPtr (TyInt 8) \/ exists n, type_of U = TyPtr (TyArr n (TyInt 8))) ->
  byte_pointer fresh U (Local (fresh j) (TyInt wi)) (TyInt wi) pgepi = Done tail -> old e e' -> not_fresh U ->
  e' !! fresh j = Some b ->
  exists e1, run tail e' = Some e1 /\ e1 !! i_name pgepi = Some (wrap 64 (eval e U + swrap wi b)) /\
    forall y, (forall k, y <> fresh k) -> y <> i_name pgepi -> e1 !! y = e !! y.
Proof.
  intros Hwi Hj Ht HU H He HfU Hb. unfold byte_pointer in H.
  assert (Hbyte : forall v e2, type_of v = TyInt wi -> gep_offset (TyInt 8) (zip [v] (map (eval e2) [v])) = Some (swrap wi (eval e2 v))).
  { intros v e2 Hv. by rewrite (gep_offset_one _ _ _ _ address_of _ v e2 wi 1), Z.mul_1_r. }
  destruct HU as [HU|[n HU]]; rewrite HU in H; cbn [pointee obind app value_of inst i_name i_type] in H; apply Done_inj in H as <-.
  - rewrite HU. erewrite run_getelementptr, run_bitcast; [|done|exact Ht|exact HU|done|by apply Hbyte].
    cbn [eval value_of inst i_name i_type]. rewrite Hb, (old_eval e e' U He HfU), lookup_insert_eq. cbn [default from_option id].
    eexists. split; [reflexivity|]. split; [by rewrite lookup_insert_eq|].
    intros y Hy Hyn. rewrite !lookup_insert_ne by (try done; by apply not_eq_sym). by apply He.
  - assert (Hfirst : forall e2, gep_offset (TyArr n (TyInt 8)) (zip [constant_of (TyInt wi) 0; constant_of (TyInt wi) 0]
      (map (eval e2) [constant_of (TyInt wi) 0; constant_of (TyInt wi) 0])) = Some 0).
    { intros e2. unfold Addresses.gep_offset. cbn [map]. remember (constant_of (TyInt wi) 0) as z eqn:Ez.
      cbn [zip zip_with]. assert (type_of z = TyInt wi) as -> by by subst z.
      cbn [width mbind option_bind Addresses.alloc_size Addresses.offset_of]. assert (type_of z = TyInt wi) as -> by by subst z.
      cbn [width mbind option_bind]. subst z. by rewrite zero_index. }
    erewrite run_getelementptr, run_getelementptr, run_bitcast; [|done|exact Ht|done|done|by apply Hbyte|exact HU|done|by apply Hfirst].
    rewrite Z.add_0_r, (old_eval e e' U He HfU). cbn [eval value_of inst i_name i_type].
    rewrite lookup_insert_eq, (lookup_insert_eq e'), (lookup_insert_ne _ (fresh 0)), Hb by (intros ?%fresh_inj; lia). cbn [default from_option id].
    eexists. split; [reflexivity|]. split.
    + rewrite lookup_insert_eq. f_equal. unfold wrap. apply Zplus_mod_idemp_l.
    + intros y Hy Hyn. rewrite !lookup_insert_ne by (try done; by apply not_eq_sym). by apply He.
Qed.

(** C18: Given an object of bytes at the address of its pointer operand, which is
    that operand without its bitcasts ([stripBitCasts_eval]), and new names, the
    instructions [processGEPI] puts in place of a getelementptr on a structure compute the same address under the same name and leave all other
    values alone: the constant and computed indices, through nested structures
    and arrays, add up to the offset of the element. This is for indices of at most
    64 bits, an offset that is representable in the type of the first index, and
    arrays whose elements are [regular]: their integers fill the bytes they take, as
    8, 16, 32 and 64 bits do, and their bits are counted in 64 bits. For other
    widths, such as 24 bits, the pass takes the bits of an element for its size and
    computes other addresses ([odd_elements_misplaced]). *)
Theorem processGEPI_struct_correct pgepi inb p idx U T t wi e l o :
  i_kind pgepi = GetElementPtr inb p idx -> i_type pgepi = TyPtr t -> type_of p = TyPtr T -> is_struct T = true ->
  (type_of U = TyPtr (TyInt 8) \/ exists n, type_of U = TyPtr (TyArr n (TyInt 8))) -> eval e U = eval e p ->
  match idx with v :: _ => type_of v = TyInt wi | [] => False end -> 1 <= wi <= 64 ->
  regular T -> regular_path T (tail idx) ->
  not_fresh U -> Forall not_fresh idx -> (forall k, i_name pgepi <> fresh k) ->
  gep_offset T (zip idx (map (eval e) idx)) = Some o -> in_s wi o ->
  processGEPI_struct bodies StructLayout float_size fresh pgepi idx U T = Done l ->
  exists e0 e1, run [pgepi] e = Some e0 /\ run l e = Some e1 /\ forall y, (forall k, y <> fresh k) -> e1 !! y = e0 !! y.
Proof.
  intros Hk Ht Hp Hs HU HeU Hv0 Hwi HrT Hr HfU Hf Hname Ho Hos H. destruct idx as [|v0 idx]; [done|].
  apply Forall_cons in Hf as [Hf0 Hf]. unfold processGEPI_struct in H. apply obind_Done in H as (size & Esize & H).
  apply obind_Done in H as (u & _ & H). apply obind_Done in H as (mul & Emul & H). apply obind_Done in H as ([is_ vCnt] & Eloop & H).
  apply obind_Done in H as (tl & Etl & H). apply Done_inj in H as <-. rewrite Hv0 in Emul, Etl.
  apply (getTypeSizeInBytes_alloc T size HrT) in Esize.
  assert (Ho' : exists o2, offset_of T (zip idx (map (eval e) idx)) = Some o2 /\ o = swrap wi (eval e v0) * size + o2).
  { unfold Addresses.gep_offset in Ho. cbn [zip zip_with map] in Ho. rewrite Hv0, Esize in Ho. cbn [width mbind option_bind] in Ho.
    apply bind_Some in Ho as (o2 & Ho2 & Ho). injection Ho as <-. by exists o2. }
  destruct Ho' as (o2 & Ho2 & ->).
  destruct (run_create_binary 2 Mul _ v0 mul e wi Emul eq_refl (or_introl eq_refl)) as (_ & Hres & Hrun).
  rewrite Hres in Eloop. set (x0 := wrap wi _) in Hrun.
  destruct (struct_loop_spec wi Hwi e idx 3 T 2 is_ vCnt (<[fresh 2 := x0]> e) o2 x0 ltac:(lia) (lookup_insert_eq e _ _) Eloop (old_insert e e 2 x0 (fun _ _ => eq_refl)) Hf Hr Ho2)
    as (e2 & j & z & Hrun2 & He2 & Hj & -> & Hz & Hval).
  destruct (run_byte_pointer e e2 U wi j pgepi tl z t ltac:(lia) Hj Ht HU Etl He2 HfU Hz) as (e3 & Hrun3 & Hn & Hold).
  exists (<[i_name pgepi := wrap 64 (eval e p + (swrap wi (eval e v0) * size + o2))]> e), e3. split; [|split].
  - destruct pgepi as [x tx kx]. cbn [i_kind i_type i_name] in *. subst kx. change (run [inst x tx (GetElementPtr inb p (v0 :: idx))] e = Some
      (<[x := wrap 64 (eval e p + (swrap wi (eval e v0) * size + o2))]> e)).
    by erewrite run_getelementptr.
  - rewrite Hrun, Hrun2. exact Hrun3.
  - intros y Hy. destruct (decide (y = i_name pgepi)) as [->|Hne].
    + rewrite Hn, lookup_insert_eq, HeU. do 3 f_equal. rewrite <- swrap_wrap, Hval, swrap_wrap.
      apply swrap_unique; [lia|done|]. unfold x0. rewrite eval_constant_of, wrap_wrap by lia.
      destruct (wrap_mod wi (wrap wi size * eval e v0) ltac:(lia)) as (q1 & ->), (wrap_mod wi size ltac:(lia)) as (q2 & ->),
        (swrap_mod wi (eval e v0) ltac:(lia)) as (q3 & ->). exists (q3 * size - q1 - q2 * eval e v0). lia.
    + rewrite lookup_insert_ne by by apply not_eq_sym. by apply Hold.
Qed.
End correct.

(** Bitcasts do not change addresses. *)
Lemma stripBitCasts_eval {W} (M : Meaning Z W) f e :
  (forall x i v, def_of f x = Some i -> i_kind i = Cast BitCast v -> eval e x = eval e v) ->
  forall fuel p U, stripBitCasts f fuel p = Done U -> eval e U = eval e p.
Proof.
  intros He fuel. induction fuel as [|fuel IH]; intros p U H; cbn [stripBitCasts] in H;
    (destruct (def_of f p) as [[x t [| | | | |[] v| | | | | |]]|] eqn:E; try (by injection H as <-)); [done|].
  rewrite (IH _ _ H). symmetry. by apply (He p _ v E).
Qed.

(** ** Examples *)

(** struct { int a; struct { short x, y; } b[3]; } *)
Definition demo_point : ty := TyStruct false [TyInt 16; TyInt 16].
Definition demo_struct : ty := TyStruct false [TyInt 32; TyArr 3 demo_point].
Definition demo_layout (t : ty) : option (list Z * Z) :=
  if bool_decide (t = demo_struct) then Some ([0; 4], 16) else if bool_decide (t = demo_point) then Some ([0; 2], 4) else None.
Fixpoint demo_fresh (k : nat) : string := match k with O => "processGEPI_" | S k => String.String "x" (demo_fresh k) end.
Definition demo_index : list Value :=
  [Local "i" (TyInt 32); ConstantInt 32 1; Local "j" (TyInt 32); ConstantInt 32 1].
Definition demo_element : Inst :=
  inst "q" (TyPtr (TyInt 16)) (GetElementPtr true (Local "p" (TyPtr demo_struct)) demo_index).
Definition demo_values : gmap string Z := <["b" := 1000]> (<["p" := 1000]> (<["i" := 2 ^ 32 - 1]> (<["j" := 2]> ∅))).
Definition demo_bytes : list Inst :=
  match processGEPI_struct ∅ demo_layout 8 demo_fresh demo_element demo_index (Local "b" (TyPtr (TyArr 64 (TyInt 8)))) demo_struct with
  | Done l => l | _ => [] end.
Lemma demo_fresh_inj a b : demo_fresh a = demo_fresh b -> a = b.
Proof. revert b. induction a as [|a IH]; intros [|b]; [done|done|done|]. intros [= H%IH]. by f_equal. Qed.
Lemma processGEPI_struct_correct_witness :
  length demo_bytes = 8%nat /\
  exists e0 e1, run_insts ∅ demo_layout 8 8 (fun _ => 0) [demo_element] demo_values = Some e0 /\
    run_insts ∅ demo_layout 8 8 (fun _ => 0) demo_bytes demo_values = Some e1 /\
    e0 !! "q" = Some (1000 - 16 + 4 + 8 + 2) /\ e1 !! "q" = e0 !! "q".
Proof.
  split; [reflexivity|].
  destruct (processGEPI_struct_correct ∅ demo_layout 8 8 (fun _ => 0) demo_fresh demo_fresh_inj demo_element true
    (Local "p" (TyPtr demo_struct)) demo_index (Local "b" (TyPtr (TyArr 64 (TyInt 8)))) demo_struct (TyInt 16) 32 demo_values
    demo_bytes (- 16 + 4 + 8 + 2)) as (e0 & e1 & H0 & H1 & H2);
    [reflexivity|reflexivity|reflexivity|reflexivity|right; by exists 64|reflexivity|reflexivity|lia| | |intros [|k]; reflexivity| | |reflexivity| |reflexivity|].
  - intros lay [= <-]. cbn. lia.
  - cbn. split; [|exact I]. intros lay [= <-]. cbn. lia.
  - repeat constructor; by intros [|k].
  - by intros [|k].
  - unfold in_s. lia.
  - exists e0, e1. split; [done|]. split; [done|]. split; [vm_compute in H0; by injection H0 as <-|]. apply H2. by intros [|k].
Defined.

(** Through a pointer to an array the other function loses offsets: a constant
    index of an array of integers is dropped; one of an array of structures
    counts fields; the first index counts elements instead of arrays. *)
Definition demo_array_offset (t : ty) (idx : list Value) : option Z * option Z :=
  let p := Local "p" (TyPtr t) in let b := Local "b" (TyPtr (TyInt 8)) in
  let i := inst "q" (TyPtr (TyInt 32)) (GetElementPtr true p idx) in
  let e : gmap string Z := <["b" := 1000]> (<["p" := 1000]> ∅) in
  let offset l := '(e : gmap string Z) ← run_insts ∅ demo_layout 8 8 (fun _ => 0) l e; q ← e !! "q"; Some (q - 1000) in
  (offset [i],
   match t with
   | TyArr _ elementType => match processGEPI_array ∅ demo_layout 8 demo_fresh i idx b elementType with Done l => offset l | _ => None end
   | _ => None
   end).
Lemma array_offsets_lost :
  demo_array_offset (TyArr 4 (TyInt 32)) [ConstantInt 32 0; ConstantInt 32 3] = (Some 12, Some 0) /\
  demo_array_offset (TyArr 4 demo_point) [ConstantInt 32 0; ConstantInt 32 1] = (Some 4, Some 2) /\
  demo_array_offset (TyArr 4 (TyInt 32)) [ConstantInt 32 1; ConstantInt 32 0] = (Some 16, Some 4).
Proof. split; [|split]; vm_compute; reflexivity. Qed.

(** The elements of an array of 24-bit integers are four bytes apart; the pass puts
    them three bytes apart: in a structure that holds such an array, element 2 is at
    offset 8 and looked for at offset 6. *)
Definition odd_array : ty := TyStruct false [TyArr 4 (TyInt 24)].
Definition odd_layout (t : ty) : option (list Z * Z) := if bool_decide (t = odd_array) then Some ([0], 16) else None.
Definition odd_index : list Value := [ConstantInt 32 0; ConstantInt 32 0; ConstantInt 32 2].
Definition odd_element : Inst := inst "q" (TyPtr (TyInt 24)) (GetElementPtr true (Local "p" (TyPtr odd_array)) odd_index).
Definition odd_address (l : list Inst) : option Z :=
  '(e : gmap string Z) ← run_insts ∅ odd_layout 8 8 (fun _ => 0) l (<["b" := 1000]> (<["p" := 1000]> ∅)); e !! "q".
Lemma odd_elements_misplaced :
  odd_address [odd_element] = Some 1008 /\
  match processGEPI_struct ∅ odd_layout 8 demo_fresh odd_element odd_index (Local "b" (TyPtr (TyInt 8))) odd_array with
  | Done l => odd_address l = Some 1006 | _ => False end.
Proof. split; vm_compute; reflexivity. Qed.
