(* ===== verification/SmallPasses.v ===== *)
(** * SmallPasses: passes that rewrite single instructions

    ClamBCRemoveICMPSLE.cpp and ClamBCConvertIntrinsicsTo32Bit.cpp: the bytecode
    has no signed less-or-equal, and libclamav copies and fills memory with
    32-bit sizes. *)
From S2P Require Import Prelude IR Semantics Integers.
Local Open Scope string_scope.
Local Open Scope list_scope.
Local Open Scope Z_scope.
Local Open Scope outcome_scope.

(** What a pass reports: whether all analyses are preserved, and the module. *)
Definition pass_result : Type := bool * Module_.

(** ** Instructions in place of others *)

Definition with_insts (b : Block) (l : list Inst) : Block :=
  {| bb_name := bb_name b; bb_phis := bb_phis b; bb_insts := l; bb_term := bb_term b |}.
Definition no_new_operands (new : string -> Prop) (F : Function_) : Prop := Forall (mentions_no_new new) (all_operands F).

Lemma Forall_flat_map {A B} (P : B -> Prop) (f : A -> list B) l : Forall P (flat_map f l) <-> Forall (fun x => Forall P (f x)) l.
Proof. induction l as [|x l IH]; cbn [flat_map]; [done|]. by rewrite Forall_app, Forall_cons, IH. Qed.
Lemma concat_singletons {A B} (f : A -> B) l : concat (map (fun x => [f x]) l) = map f l.
Proof. induction l as [|x l IH]; [done|]. cbn [map concat app]. by rewrite IH. Qed.

Section expanding.
Context {V W : Type} (M : Meaning V W).
Context (base : string -> list V -> W -> option (option V * W)) (slots : string -> gset string).

Lemma blocks_expand (new : string -> Prop) c c' bs bs' :
  Forall (fun b => Forall (mentions_no_new new) (block_operands b)) bs ->
  Forall2 (fun b b' => exists ls, b' = with_insts b (concat ls) /\ Forall2 (expands M new c c') (bb_insts b) ls) bs bs' ->
  Forall2 (block_expands M new c c') bs bs'.
Proof.
  intros Hn H. induction H as [|b b' bs bs' (ls & -> & Hls) _ IH]; [constructor|].
  apply Forall_cons in Hn as [Hb Hn]. constructor; [|by apply IH]. unfold block_operands in Hb.
  rewrite !Forall_app in Hb. destruct Hb as (H1 & _ & H3). apply Forall_flat_map in H1.
  unfold block_expands. cbn [with_insts bb_name bb_phis bb_insts bb_term]. split; [reflexivity|]. split; [reflexivity|]. split; [reflexivity|].
  split; [|split; [exact H3|by exists ls]]. eapply Forall_impl; [exact H1|]. cbv beta. intros p Hp.
  exact (proj1 (List.Forall_map _ _ _) Hp).
Qed.
End expanding.

(** ** Signed less or equal *)

(** gatherInstructions and ICmpInst::swapOperands *)
Definition swap_sle (i : Inst) : Inst :=
  match i_kind i with
  | ICmp ICMP_SLE a b => inst (i_name i) (i_type i) (ICmp ICMP_SGE b a)
  | _ => i
  end.
Definition processFunction_sle (F : Function_) : Function_ :=
  with_blocks F (map (fun b => with_insts b (map swap_sle (bb_insts b))) (f_blocks F)).
(** bChanged is never set. *)
Definition RemoveICMPSLE (m : Module_) : pass_result := (true, with_functions m (map processFunction_sle (m_functions m))).

Lemma find_map_functions (g : Function_ -> Function_) m x F : (forall F, f_name (g F) = f_name F) ->
  find_function m x = Some F -> find_function (with_functions m (map g (m_functions m))) x = Some (g F).
Proof.
  intros Hg. unfold find_function. cbn [m_functions with_functions]. induction (m_functions m) as [|G l IH]; [done|].
  cbn [List.find map]. rewrite Hg. destruct (String.eqb (f_name G) x); [by intros [= ->]|apply IH].
Qed.
Lemma find_function_elem m x F : find_function m x = Some F -> F ∈ m_functions m.
Proof. unfold find_function. intros H. apply List.find_some in H as [H _]. by apply list_elem_of_In. Qed.

(** The operands of comparisons have the same type. *)
Definition compares_typed (m : Module_) : Prop :=
  Forall (fun F => Forall (fun i => match i_kind i with ICmp _ a b => type_of a = type_of b | _ => True end) (all_insts F)) (m_functions m).
Definition is_sle (i : Inst) : bool := match i_kind i with ICmp ICMP_SLE _ _ => true | _ => false end.

Section sle.
Context {W : Type} (address_of : Value -> Z) (other : Inst -> list Z -> W -> option (Z * W)).
Context (base : string -> list Z -> W -> option (option Z * W)) (slots : string -> gset string).
Abbreviation M := (integer_meaning address_of other).

Lemma swap_sle_follows c c' i : (forall g args w r, c g args w = Some r -> c' g args w = Some r) ->
  match i_kind i with ICmp _ a b => type_of a = type_of b | _ => True end -> follows M c c' i (swap_sle i).
Proof.
  intros Hc Ht. unfold swap_sle. destruct (i_kind i) as [| | | | | |p a b| | | | |] eqn:Ek; try by apply follows_refl.
  destruct p; try by apply follows_refl. intros S [[e mem] w] s1. unfold exec_inst. rewrite Ek. cbn [inst i_kind i_name i_type operands map].
  cbn [sem with_calls integer_meaning]. unfold integer_sem. rewrite Ek. cbn [inst i_kind]. cbv beta iota. by rewrite Ht.
Qed.

(** ClamBCRemoveICMPSLE leaves no signed less-or-equal, and the functions of
    the module return what they returned. *)
Theorem RemoveICMPSLE_correct m : compares_typed m ->
  Forall (fun F => Forall (fun i => is_sle i = false) (all_insts F)) (m_functions (snd (RemoveICMPSLE m))) /\
  forall fuel g args w r, call_function M base slots fuel m g args w = Some r ->
    call_function M base slots fuel (snd (RemoveICMPSLE m)) g args w = Some r.
Proof.
  intros Ht. split.
  - apply List.Forall_map, Forall_forall. intros F _. unfold all_insts, processFunction_sle. cbn [f_blocks with_blocks].
    apply Forall_flat_map, List.Forall_map, Forall_forall. intros b _. cbn [bb_insts with_insts]. apply List.Forall_map, Forall_forall.
    intros i _. unfold is_sle, swap_sle. destruct (i_kind i) as [| | | | | |p a b'| | | | |] eqn:Ek; rewrite ?Ek; try done.
    destruct p; rewrite ?Ek; done.
  - apply (call_expand M base slots m _ (fun _ _ => False) (fun _ _ => True)); [done|]. intros g F HF. exists (processFunction_sle F).
    split; [by apply find_map_functions|]. split; [done|]. intros c c' Hc _.
    pose proof (find_function_elem m g F HF) as Hin. unfold compares_typed in Ht. rewrite Forall_forall in Ht. specialize (Ht F Hin).
    unfold all_insts in Ht. apply Forall_flat_map in Ht. apply blocks_expand.
    + apply Forall_forall. intros b _. apply Forall_forall. intros v _ y [].
    + cbn [f_blocks processFunction_sle with_blocks]. apply Forall2_fmap_r, Forall_Forall2_diag.
      eapply Forall_impl; [exact Ht|]. cbv beta. intros b Hb. exists (map (fun i => [swap_sle i]) (bb_insts b)).
      rewrite (concat_singletons swap_sle). split; [done|]. apply Forall2_fmap_r, Forall_Forall2_diag. eapply Forall_impl; [exact Hb|]. cbv beta.
      intros i Hi S e e' mem w e1 m1 w1 He H. exists e1. split; [|done].
      assert (e' = e) as -> by (apply map_eq; intros y; apply He; intros []).
      cbn [exec_insts]. by rewrite (swap_sle_follows c c' i Hc Hi S _ _ H).
Qed.
End sle.

(** ** Memory intrinsics with 32-bit sizes *)

(** initializeReplacements, in its order. *)
Definition memory_replacements : list (string * string * intrinsic) := [
  ("llvm.memset.p0i8.i64", "llvm.memset.p0i8.i32", memset);
  ("llvm.memset.p0.i64", "llvm.memset.p0.i32", memset);
  ("llvm.memcpy.p0i8.p0i8.i64", "llvm.memcpy.p0i8.p0i8.i32", memcpy);
  ("llvm.memcpy.p0.p0.i64", "llvm.memcpy.p0.p0.i32", memcpy);
  ("llvm.memmove.p0.p0.i64", "llvm.memmove.p0.p0.i32", memmove);
  ("llvm.memmove.p0i8.p0i8.i64", "llvm.memmove.p0i8.p0i8.i32", memmove) ].
Definition i8ptr_ty : ty := TyPtr (TyInt 8).
(** getMemset32Type, getMemcpy32Type, getMemmove32Type: the parameters *)
Definition memory_params (k : intrinsic) : list ty :=
  [i8ptr_ty; match k with memset => TyInt 8 | _ => i8ptr_ty end; TyInt 32; TyInt 1].
Definition memory_type (k : intrinsic) : ty := TyFun TyVoid (memory_params k) false.
Definition memory_function (name : string) (k : intrinsic) : Function_ := {|
  f_name := name; f_args := map (fun t => ("", t)) (memory_params k); f_ret := TyVoid; f_vararg := false; f_cc := 0; f_sret := false;
  f_available_externally := false; f_intrinsic := Some k; f_blocks := []
|}.
(** Module::getOrInsertFunction: a function of another type is cast. *)
Definition getOrInsertFunction (name : string) (k : intrinsic) (m : Module_) : Module_ * Value :=
  match find_function m name with
  | Some F =>
      (m, if bool_decide (f_type F = memory_type k) then FunctionValue name (TyPtr (memory_type k))
          else ConstantExpr CE_BitCast [FunctionValue name (TyPtr (f_type F))] (TyPtr (memory_type k)))
  | None => (with_functions m (m_functions m ++ [memory_function name k]), FunctionValue name (TyPtr (memory_type k)))
  end.
Fixpoint initializeReplacements (l : list (string * string * intrinsic)) (m : Module_) : Module_ * list (string * Value) :=
  match l with
  | [] => (m, [])
  | (oldFunc, newFunc, k) :: l =>
      match find_function m oldFunc with
      | Some _ =>
          let '(m, rep) := getOrInsertFunction newFunc k m in
          let '(m, replacements) := initializeReplacements l m in (m, (oldFunc, rep) :: replacements)
      | None => initializeReplacements l m
      end
  end.

(** convertCall; [x] is the name of the truncated size. *)
Definition convert_size (x : string) (pv : Value) : outcome (list Inst * Value) :=
  match pv with
  | ConstantInt w v => Done ([], ConstantInt 32 (wrap 32 (getLimitedValue w v)))
  | _ =>
      match type_of pv with
      | TyInt w =>
          let* _ := assert_ (32 <=? w) "Illegal Trunc" in
          Done ([inst x (TyInt 32) (Cast (if w =? 32 then BitCast else Trunc) pv)], Local x (TyInt 32))
      | _ => AssertFailed "Illegal Trunc"
      end
  end.
Definition convertCall (x : string) (rep : Value) (i : Inst) (cc : Z) (args : list Value) : outcome (list Inst) :=
  match args with
  | a0 :: a1 :: pv :: rest =>
      let* (l, pv) := convert_size x pv in
      Done (l ++ [inst (i_name i) (i_type i) (Call rep cc (a0 :: a1 :: pv :: rest))])
  | _ => Done [inst (i_name i) (i_type i) (Call rep cc args)]
  end.
Definition find_replacement (replacements : list (string * Value)) (g : string) : option Value :=
  snd <$> List.find (fun r : string * Value => String.eqb (fst r) g) replacements.
Definition process_inst (replacements : list (string * Value)) (x : string) (i : Inst) : outcome (list Inst) :=
  match i_kind i with
  | Call (FunctionValue g _) cc args =>
      match find_replacement replacements g with Some rep => convertCall x rep i cc args | None => Done [i] end
  | _ => Done [i]
  end.
(** [fresh F b k]: the name LLVM gives the value made for the k-th instruction
    of the block. *)
Section convert.
Context (fresh : string -> string -> nat -> string).
Fixpoint processBasicBlock (replacements : list (string * Value)) (F b : string) (k : nat) (l : list Inst) : outcome (list (list Inst)) :=
  match l with
  | [] => Done []
  | i :: l =>
      let* new := process_inst replacements (fresh F b k) i in
      let* rest := processBasicBlock replacements F b (S k) l in Done (new :: rest)
  end.
Definition processFunction (replacements : list (string * Value)) (F : Function_) : outcome Function_ :=
  let* bs := mapM_out (fun b => let* ls := processBasicBlock replacements (f_name F) (bb_name b) 0 (bb_insts b) in
                                Done (with_insts b (concat ls))) (f_blocks F) in
  Done (with_blocks F bs).
(** bChanged is set to false and never to true. *)
Definition ConvertIntrinsicsTo32Bit (m : Module_) : outcome pass_result :=
  let '(m, replacements) := initializeReplacements memory_replacements m in
  let* l := mapM_out (processFunction replacements) (m_functions m) in Done (true, with_functions m l).
End convert.

(** *** What the functions of memory do *)

Section convert_correct.
Context {W : Type} (address_of : Value -> Z) (other : Inst -> list Z -> W -> option (Z * W)).
Context (base : string -> list Z -> W -> option (option Z * W)) (slots : string -> gset string).
Context (fresh : string -> string -> nat -> string).
Abbreviation M := (integer_meaning address_of other).
Abbreviation call := (call_function M base slots).

(** The intrinsics have no body, and those there already the right type. *)
Definition memory_declared (m : Module_) : Prop :=
  forall oldFunc newFunc k, (oldFunc, newFunc, k) ∈ memory_replacements ->
    (forall F, find_function m oldFunc = Some F -> f_blocks F = []) /\
    (forall F, find_function m newFunc = Some F -> f_blocks F = [] /\ f_type F = memory_type k).
(** A size of 2^32 or more has no meaning: no object is that large. *)
Definition narrow_sizes : Prop :=
  forall oldFunc newFunc k, (oldFunc, newFunc, k) ∈ memory_replacements ->
  forall args w r, base oldFunc args w = Some r ->
    exists a b n c, args = [a; b; n; c] /\ base newFunc [a; b; wrap 32 n; c] w = Some r.
Definition memory_calls_typed (m : Module_) : Prop :=
  forall F i g t cc args, F ∈ m_functions m -> i ∈ all_insts F -> i_kind i = Call (FunctionValue g t) cc args ->
  g ∈ map (fun d => fst (fst d)) memory_replacements ->
  exists a b n c, args = [a; b; n; c] /\ type_of n = TyInt 64.

Lemma new_not_old o n k : (o, n, k) ∈ memory_replacements -> n ∉ map (fun d => fst (fst d)) memory_replacements.
Proof.
  intros H Hin. assert (Hall : forallb (fun d => negb (existsb (String.eqb (snd (fst d))) (map (fun d => fst (fst d)) memory_replacements)))
    memory_replacements = true) by reflexivity.
  rewrite forallb_forall in Hall. specialize (Hall (o, n, k) (proj1 (list_elem_of_In _ _) H)). apply negb_true_iff in Hall.
  rewrite <- not_true_iff_false in Hall. apply Hall, existsb_exists. exists n. split; [by apply list_elem_of_In|apply String.eqb_refl].
Qed.
Lemma same_kind o1 o2 n k1 k2 : (o1, n, k1) ∈ memory_replacements -> (o2, n, k2) ∈ memory_replacements -> k1 = k2.
Proof.
  unfold memory_replacements. rewrite !elem_of_cons. intros H1 H2.
  repeat (destruct H1 as [H1|H1]; [injection H1 as -> -> ->;
    repeat (destruct H2 as [H2|H2]; [injection H2; intros; congruence|]); by apply not_elem_of_nil in H2|]); by apply not_elem_of_nil in H1.
Qed.
Lemma find_function_app m g F G : find_function m g = Some F -> find_function (with_functions m (m_functions m ++ [G])) g = Some F.
Proof.
  unfold find_function. cbn [m_functions with_functions]. induction (m_functions m) as [|H l IH]; [done|]. cbn [List.find app].
  by destruct (String.eqb (f_name H) g).
Qed.
Lemma find_function_app_none m g G : find_function m g = None ->
  find_function (with_functions m (m_functions m ++ [G])) g = if String.eqb (f_name G) g then Some G else None.
Proof.
  unfold find_function. cbn [m_functions with_functions]. induction (m_functions m) as [|H l IH]; cbn [List.find app]; [done|].
  by destruct (String.eqb (f_name H) g).
Qed.

(** The module gets declarations only. *)
Definition extends_by_declarations (m m1 : Module_) : Prop :=
  exists l, m_functions m1 = m_functions m ++ l /\ Forall (fun F => f_blocks F = []) l /\
    forall g F, find_function m g = Some F -> find_function m1 g = Some F.
Lemma getOrInsertFunction_spec o n k m m1 rep : (o, n, k) ∈ memory_replacements -> memory_declared m ->
  getOrInsertFunction n k m = (m1, rep) ->
  extends_by_declarations m m1 /\ memory_declared m1 /\ rep = FunctionValue n (TyPtr (memory_type k)) /\
  exists F, find_function m1 n = Some F /\ f_blocks F = [].
Proof.
  intros Hin Hm H. unfold getOrInsertFunction in H. destruct (Hm o n k Hin) as [_ Hn].
  destruct (find_function m n) as [F|] eqn:EF.
  - destruct (Hn F eq_refl) as [Hb Ht]. rewrite bool_decide_true in H by done. injection H as <- <-.
    split; [exists []; by rewrite app_nil_r|]. split; [done|]. split; [done|]. by exists F.
  - injection H as <- <-. split; [|split; [|split; [done|]]].
    + exists [memory_function n k]. split; [done|]. split; [by repeat constructor|]. intros g F. apply find_function_app.
    + intros o' n' k' Hin'. destruct (Hm o' n' k' Hin') as [H1 H2]. split.
      * intros F HF. destruct (find_function m o') as [G|] eqn:EG.
        { apply (find_function_app _ _ _ (memory_function n k)) in EG as EG'. rewrite EG' in HF. injection HF as <-. by apply H1. }
        rewrite (find_function_app_none _ _ _ EG) in HF. destruct (String.eqb _ o'); [|done]. by injection HF as <-.
      * intros F HF. destruct (find_function m n') as [G|] eqn:EG.
        { apply (find_function_app _ _ _ (memory_function n k)) in EG as EG'. rewrite EG' in HF. injection HF as <-. by apply H2. }
        rewrite (find_function_app_none _ _ _ EG) in HF. destruct (String.eqb (f_name (memory_function n k)) n') eqn:En; [|done].
        injection HF as <-. apply String.eqb_eq in En. cbn [f_name memory_function] in En. subst n'.
        by rewrite (same_kind o' o n k' k Hin' Hin).
    + exists (memory_function n k). rewrite (find_function_app_none _ _ _ EF). cbn [f_name memory_function]. by rewrite String.eqb_refl.
Qed.
Lemma extends_by_trans m1 m2 m3 : extends_by_declarations m1 m2 -> extends_by_declarations m2 m3 -> extends_by_declarations m1 m3.
Proof.
  intros (l1 & E1 & F1 & H1) (l2 & E2 & F2 & H2). exists (l1 ++ l2). rewrite E2, E1, app_assoc. split; [done|].
  split; [by apply Forall_app|]. intros g F HF. by apply H2, H1.
Qed.
Lemma initializeReplacements_spec l : forall m m1 reps, (forall d, d ∈ l -> d ∈ memory_replacements) -> memory_declared m ->
  initializeReplacements l m = (m1, reps) ->
  extends_by_declarations m m1 /\ memory_declared m1 /\
  forall g, match find_replacement reps g with
    | Some rep => exists n k F, (g, n, k) ∈ l /\ rep = FunctionValue n (TyPtr (memory_type k)) /\ find_function m1 n = Some F /\ f_blocks F = []
    | None => g ∈ map (fun d => fst (fst d)) l -> find_function m g = None
    end.
Proof.
  induction l as [|[[o n] k] l IH]; intros m m1 reps Hl Hm H; cbn [initializeReplacements] in H.
  { injection H as <- <-. split; [exists []; by rewrite app_nil_r|]. split; [done|]. intros g Hg. by apply not_elem_of_nil in Hg. }
  assert (Hl' : forall d, d ∈ l -> d ∈ memory_replacements) by (intros d Hd; apply Hl; by right).
  destruct (find_function m o) as [Fo|] eqn:Eo.
  - destruct (getOrInsertFunction n k m) as [m2 rep] eqn:Eg. destruct (initializeReplacements l m2) as [m3 reps'] eqn:Ei.
    injection H as <- <-. destruct (getOrInsertFunction_spec o n k m m2 rep (Hl _ ltac:(left)) Hm Eg) as (X1 & D1 & -> & F & HF & HFb).
    destruct (IH m2 m3 reps' Hl' D1 Ei) as (X2 & D2 & R). split; [by eapply extends_by_trans|]. split; [done|].
    intros g. unfold find_replacement. cbn [List.find fst]. destruct (String.eqb_spec o g) as [->|Hne].
    + cbn [fmap option_fmap option_map snd]. exists n, k, F. split; [left|]. split; [done|]. split; [|done].
      destruct X2 as (_ & _ & _ & X2). by apply X2.
    + specialize (R g). unfold find_replacement in R. destruct (List.find _ reps') as [d|]; cbn [fmap option_fmap option_map] in *.
      * destruct R as (n' & k' & F' & R1 & R2). exists n', k', F'. split; [by right|done].
      * intros [E|Hg]%elem_of_cons; [by destruct Hne|]. specialize (R Hg). destruct (find_function m g) as [G|] eqn:EG; [|done].
        destruct X1 as (_ & _ & _ & X1). by rewrite (X1 g G EG) in R.
  - destruct (IH m m1 reps Hl' Hm H) as (X & D & R). split; [done|]. split; [done|]. intros g. specialize (R g).
    destruct (find_replacement reps g).
    + destruct R as (n' & k' & F' & R1 & R2). exists n', k', F'. split; [by right|done].
    + intros [->|Hg]%elem_of_cons; [done|by apply R].
Qed.

(** Sizes of 64 bits can be converted. *)
Lemma process_inst_total replacements x i : (forall g t cc args, i_kind i = Call (FunctionValue g t) cc args -> find_replacement replacements g <> None ->
    exists a b n d, args = [a; b; n; d] /\ type_of n = TyInt 64) -> exists l, process_inst replacements x i = Done l.
Proof.
  intros Ht. unfold process_inst. destruct (i_kind i) as [| | | | | | | |callee cc args| | |] eqn:Ek; try by eexists.
  destruct callee as [| | |g t| | | | | | | | |]; try by eexists. destruct (find_replacement replacements g) as [rep|] eqn:Er; [|by eexists].
  destruct (Ht g t cc args eq_refl ltac:(by rewrite Er)) as (a & b & n & d & -> & Hn). cbn [convertCall]. unfold convert_size. destruct n; cbn [type_of] in *; rewrite ?Hn; by eexists.
Qed.
Lemma processFunction_total replacements F : (forall i g t cc args, i ∈ all_insts F -> i_kind i = Call (FunctionValue g t) cc args ->
    find_replacement replacements g <> None -> exists a b n d, args = [a; b; n; d] /\ type_of n = TyInt 64) ->
  exists F', processFunction fresh replacements F = Done F'.
Proof.
  intros Ht. unfold processFunction. set (body := fun b : Block => _).
  enough (exists bs, mapM_out body (f_blocks F) = Done bs) as (bs & ->) by by eexists. apply mapM_out_total. intros b Hb. unfold body.
  assert (H : forall l k, (forall i, i ∈ l -> i ∈ all_insts F) -> exists ls, processBasicBlock fresh replacements (f_name F) (bb_name b) k l = Done ls).
  { induction l as [|i l IH]; intros k Hl; [by eexists|]. cbn [processBasicBlock].
    destruct (process_inst_total replacements (fresh (f_name F) (bb_name b) k) i) as (li & ->); [intros g t cc args; apply Ht, Hl; by left|]. cbn [obind].
    destruct (IH (S k)) as (ls & ->); [intros j Hj; apply Hl; by right|]. by eexists. }
  destruct (H (bb_insts b) O) as (ls & ->); [|by eexists]. intros i Hi. apply elem_of_flat_map. by exists b.
Qed.

(** The converted call computes what the call did, on the narrowed size. *)
Definition narrowed (replacements : list (string * Value)) (c c' : string -> list Z -> W -> option (option Z * W)) : Prop :=
  forall o n t, find_replacement replacements o = Some (FunctionValue n t) ->
  forall args w r, c o args w = Some r -> exists a b s d, args = [a; b; s; d] /\ c' n [a; b; wrap 32 s; d] w = Some r.

Lemma convert_size_value (N : Meaning Z W) new x pv is_ pv' : new x -> mentions_no_new new pv -> type_of pv = TyInt 64 ->
  (forall v, constant_meaning v = constant_value address_of v) ->
  (forall i v w, i_kind i = Cast Trunc v -> type_of v = TyInt 64 -> i_type i = TyInt 32 -> forall z, sem i [z] w = Some (wrap 32 (wrap 64 z), w)) ->
  convert_size x pv = Done (is_, pv') ->
  forall S e e' m w, agree_old new e e' -> exists e1, exec_insts S is_ (e', m, w) = Some (e1, m, w) /\ agree_old new e e1 /\
    eval e1 pv' = wrap 32 (eval e pv).
Proof.
  intros Hx Hn Ht Hc Hs H S e e' m w He.
  assert (Hcases : (exists w0 v, pv = ConstantInt w0 v) \/ (is_ = [inst x (TyInt 32) (Cast Trunc pv)] /\ pv' = Local x (TyInt 32))).
  { unfold convert_size in H. rewrite Ht in H. cbn in H. destruct pv; try (injection H as <- <-; by right). left. by eexists _, _. }
  destruct Hcases as [(w0 & v & ->)|[-> ->]].
  - cbn [convert_size type_of] in *. injection H as <- <-. injection Ht as ->. exists e'. split; [done|]. split; [done|].
    cbn [eval]. rewrite !Hc. cbn [constant_value]. unfold getLimitedValue.
    pose proof (wrap_range 64 v ltac:(lia)) as Hr. unfold in_u in Hr. rewrite Z.min_l by lia. by rewrite wrap_wrap by lia.
  - exists (<[x := wrap 32 (wrap 64 (eval e' pv))]> e'). cbn [exec_insts exec_inst inst i_kind operands map i_type i_name].
    rewrite (Hs _ pv) by done. split; [done|]. split; [by apply agree_old_new|]. cbn [eval]. rewrite lookup_insert_eq. cbn [default from_option id].
    rewrite (eval_agree_old N new e e' pv He Hn). apply wrap_narrow. lia.
Qed.
Lemma process_inst_expands replacements new c c' x i l : new x -> (forall g args w r, c g args w = Some r -> c' g args w = Some r) ->
  narrowed replacements c c' -> Forall (mentions_no_new new) (operands (i_kind i)) ->
  (forall g rep, find_replacement replacements g = Some rep -> exists n t, rep = FunctionValue n t) ->
  (forall g t cc args, i_kind i = Call (FunctionValue g t) cc args -> find_replacement replacements g <> None ->
     exists a b n d, args = [a; b; n; d] /\ type_of n = TyInt 64) ->
  process_inst replacements x i = Done l -> expands M new c c' i l.
Proof.
  intros Hx Hc Hnar Hn Hrep Ht H. unfold process_inst in H.
  destruct i as [y ty k]. cbn [i_kind i_name i_type] in *.
  destruct k as [| | | | | | | |callee cc args| | |]; try (injection H as <-; by apply expands_refl).
  destruct callee as [| | |g tg| | | | | | | | |]; try (injection H as <-; by apply expands_refl).
  destruct (find_replacement replacements g) as [rep|] eqn:Er; [|injection H as <-; by apply expands_refl].
  destruct (Hrep g rep Er) as (n & t & ->). destruct (Ht g tg cc args eq_refl ltac:(by rewrite Er)) as (a & b & pv & d & -> & Hpv).
  cbn [convertCall] in H. apply obind_Done in H as ([is_ pv'] & Es & H). apply Done_inj in H as <-.
  cbn [operands app] in Hn. rewrite !Forall_cons in Hn. destruct Hn as (Ha & Hb & Hp & Hd & _ & _).
  intros S e e' m w e1 m1 w1 He E. cbn [exec_inst i_kind i_name i_type operands app map sem with_calls length firstn] in E.
  apply bind_Some in E as ([v w'] & E & E2). apply bind_Some in E as ([v2 w2] & E & E3). injection E3 as <- <-. injection E2 as <- <- <-.
  apply (Hnar g n t Er) in E as (a1 & b1 & s1 & d1 & Eargs & E). injection Eargs as <- <- <- <-.
  destruct (convert_size_value (with_calls M c') new x pv is_ pv' Hx Hp Hpv) with (S := S) (e := e) (e' := e') (m := m) (w := w)
    as (e2 & Erun & He2 & Epv); [done| |exact Es|exact He|].
  { intros j v w0 Hj Hv Ht' z. cbn [sem with_calls integer_meaning]. unfold integer_sem. rewrite Hj. cbv beta iota. by rewrite Hv, Ht'. }
  rewrite exec_insts_app, Erun. cbn [mbind option_bind exec_insts exec_inst inst i_kind i_name i_type operands app map sem with_calls length firstn].
  rewrite Epv. change (@eval Z W (with_calls M c') e2) with (@eval Z W M e2). change (@eval Z W (with_calls M c') e) with (@eval Z W M e).
  rewrite (eval_agree_old M new e e2 a He2 Ha), (eval_agree_old M new e e2 b He2 Hb), (eval_agree_old M new e e2 d He2 Hd).
  match goal with |- context [c' n ?vs w] => change (c' n vs w = Some (v2, w2)) in E end. rewrite E. cbn [mbind option_bind]. eexists. split; [reflexivity|]. destruct ty; by try apply agree_old_insert.
Qed.

Lemma processBasicBlock_expands replacements new c c' F b l : forall k ls,
  (forall k, new (fresh F b k)) -> (forall g args w r, c g args w = Some r -> c' g args w = Some r) -> narrowed replacements c c' ->
  (forall g rep, find_replacement replacements g = Some rep -> exists n t, rep = FunctionValue n t) ->
  Forall (fun i => Forall (mentions_no_new new) (operands (i_kind i)) /\
    forall g t cc args, i_kind i = Call (FunctionValue g t) cc args -> find_replacement replacements g <> None ->
      exists a b n d, args = [a; b; n; d] /\ type_of n = TyInt 64) l ->
  processBasicBlock fresh replacements F b k l = Done ls -> Forall2 (expands M new c c') l ls.
Proof.
  induction l as [|i l IH]; intros k ls Hnew Hc Hn Hr Hl H; cbn [processBasicBlock] in H; [by injection H as <-|].
  apply obind_Done in H as (l' & E & H). apply obind_Done in H as (rest & Er & H). apply Done_inj in H as <-.
  apply Forall_cons in Hl as [[Hi Hi2] Hl]. constructor; [|by eapply IH]. by eapply process_inst_expands.
Qed.
(** Every call of the rewritten function was there or is a replacement. *)
Lemma processBasicBlock_calls replacements F b l i : forall k ls,
  processBasicBlock fresh replacements F b k l = Done ls -> i ∈ concat ls ->
  forall g t cc args, i_kind i = Call (FunctionValue g t) cc args ->
  find_replacement replacements g = None \/ exists o, find_replacement replacements o = Some (FunctionValue g t).
Proof.
  induction l as [|j l IH]; intros k ls H Hi g t cc args Hk; cbn [processBasicBlock] in H; [injection H as <-; by apply not_elem_of_nil in Hi|].
  apply obind_Done in H as (l' & E & H). apply obind_Done in H as (rest & Er & H). apply Done_inj in H as <-.
  cbn [concat] in Hi. apply elem_of_app in Hi as [Hi|Hi]; [|by eapply IH].
  unfold process_inst in E. destruct (i_kind j) as [| | | | | | | |callee cc' args'| | |] eqn:Ej;
    try (injection E as <-; apply list_elem_of_singleton in Hi as ->; congruence).
  destruct callee as [| | |g' t'| | | | | | | | |]; try (injection E as <-; apply list_elem_of_singleton in Hi as ->; congruence).
  destruct (find_replacement replacements g') as [rep|] eqn:Eg;
    [|injection E as <-; apply list_elem_of_singleton in Hi as ->; left; congruence].
  right. exists g'. rewrite Eg. f_equal. unfold convertCall in E.
  assert (Hsize : forall x pv is_ pv', convert_size x pv = Done (is_, pv') -> i ∉ is_).
  { intros x pv is_ pv' Hs Hin. unfold convert_size in Hs. destruct pv; try (injection Hs as <- _; by apply not_elem_of_nil in Hin);
      cbn [type_of] in Hs; (destruct t0; try done); apply obind_Done in Hs as (? & _ & Hs); injection Hs as <- _;
      apply list_elem_of_singleton in Hin as ->; done. }
  destruct args' as [|a0 [|a1 [|pv args']]];
    try (injection E as <-; apply list_elem_of_singleton in Hi as ->; cbn [inst i_kind] in Hk; congruence).
  apply obind_Done in E as ([is_ pv'] & Es & E). apply Done_inj in E as <-. apply elem_of_app in Hi as [Hi|Hi].
  - by apply Hsize in Es.
  - apply list_elem_of_singleton in Hi as ->. cbn [inst i_kind] in Hk. congruence.
Qed.

Lemma processed_find reps m1 l : Forall2 (fun F F' => processFunction fresh reps F = Done F') (m_functions m1) l ->
  forall g F, find_function m1 g = Some F ->
  exists F', find_function (with_functions m1 l) g = Some F' /\ processFunction fresh reps F = Done F'.
Proof.
  intros El g F HF. unfold find_function in *. cbn [m_functions with_functions]. revert HF.
  induction El as [|F0 F0' l0 l0' H0 _ IH]; [done|]. cbn [List.find].
  assert (En : f_name F0' = f_name F0) by (unfold processFunction in H0; apply obind_Done in H0 as (bs & _ & H0); by apply Done_inj in H0 as <-).
  rewrite En. destruct (String.eqb (f_name F0) g); [|done]. intros [= <-]. by exists F0'.
Qed.
Lemma processed_calls reps F F' i g t cc args : processFunction fresh reps F = Done F' -> i ∈ all_insts F' ->
  i_kind i = Call (FunctionValue g t) cc args ->
  find_replacement reps g = None \/ exists o, find_replacement reps o = Some (FunctionValue g t).
Proof.
  intros E Hi Hk. unfold processFunction in E. apply obind_Done in E as (bs & E & E'). apply Done_inj in E' as <-.
  unfold all_insts in Hi. cbn [f_blocks with_blocks] in Hi. apply list_elem_of_In, in_flat_map in Hi as (b' & Hb & Hi).
  apply list_elem_of_In in Hb, Hi. apply mapM_out_Done in E. eapply Forall2_elem_of_r in Hb as (b & _ & E2); [|exact E].
  apply obind_Done in E2 as (ls & Els & E2). apply Done_inj in E2 as <-. cbn [bb_insts with_insts] in Hi.
  by eapply processBasicBlock_calls.
Qed.
Lemma processed_expands reps F F' new c c' : processFunction fresh reps F = Done F' -> (forall G b k, new (fresh G b k)) ->
  Forall (mentions_no_new new) (all_operands F) -> (forall g args w r, c g args w = Some r -> c' g args w = Some r) -> narrowed reps c c' ->
  (forall g rep, find_replacement reps g = Some rep -> exists n t, rep = FunctionValue n t) ->
  (forall i g t cc args, i ∈ all_insts F -> i_kind i = Call (FunctionValue g t) cc args -> find_replacement reps g <> None ->
     exists a b n d, args = [a; b; n; d] /\ type_of n = TyInt 64) ->
  Forall2 (block_expands M new c c') (f_blocks F) (f_blocks F').
Proof.
  intros E Hnew Hops Hc Hnar Hreps Hty. unfold processFunction in E. apply obind_Done in E as (bs & E & E'). apply Done_inj in E' as <-.
  cbn [f_blocks with_blocks]. apply mapM_out_Done in E. unfold all_operands in Hops. apply Forall_flat_map in Hops. apply blocks_expand; [exact Hops|].
  assert (Hin : Forall (fun b => forall i, i ∈ bb_insts b -> i ∈ all_insts F) (f_blocks F)).
  { apply Forall_forall. intros b Hb i Hi. unfold all_insts. apply list_elem_of_In, in_flat_map. exists b. by rewrite <- !list_elem_of_In. }
  induction E as [|b b' bs0 bs' Eb _ IH]; [constructor|].
  apply Forall_cons in Hops as [Hob Hops]. apply Forall_cons in Hin as [Hib Hin]. constructor; [|by apply IH].
  apply obind_Done in Eb as (ls & Els & Eb). apply Done_inj in Eb as <-. exists ls. split; [done|].
  eapply processBasicBlock_expands; [by intros k; apply Hnew|exact Hc|exact Hnar|exact Hreps| |exact Els].
  unfold block_operands in Hob. rewrite !Forall_app in Hob. destruct Hob as (_ & Hob & _). apply Forall_flat_map in Hob.
  rewrite Forall_forall in Hob. apply Forall_forall. intros i Hi. split; [by apply Hob|]. intros g t cc args Hk. by eapply Hty, Hk; apply Hib.
Qed.

(** What the pass makes of a module. *)
Lemma converted_module m p m' : memory_declared m -> ConvertIntrinsicsTo32Bit fresh m = Done (p, m') ->
  exists m1 reps, Forall2 (fun F F' => processFunction fresh reps F = Done F') (m_functions m1) (m_functions m') /\
    (forall g F, find_function m1 g = Some F -> exists F', find_function m' g = Some F' /\ processFunction fresh reps F = Done F') /\
    (forall g F, find_function m g = Some F -> find_function m1 g = Some F) /\
    Forall (fun F => F ∈ m_functions m \/ f_blocks F = []) (m_functions m1) /\
    (forall g rep, find_replacement reps g = Some rep -> exists n t, rep = FunctionValue n t) /\
    forall g, match find_replacement reps g with
      | Some rep => exists n k F, (g, n, k) ∈ memory_replacements /\ rep = FunctionValue n (TyPtr (memory_type k)) /\ find_function m1 n = Some F /\ f_blocks F = []
      | None => g ∈ map (fun d => fst (fst d)) memory_replacements -> find_function m g = None
      end.
Proof.
  intros Hm H. unfold ConvertIntrinsicsTo32Bit in H.
  destruct (initializeReplacements memory_replacements m) as [m1 reps] eqn:Ei.
  apply obind_Done in H as (l & El & H). injection H as <- <-. apply mapM_out_Done in El.
  destruct (initializeReplacements_spec memory_replacements m m1 reps ltac:(done) Hm Ei) as ((decls & Em1 & Hdecls & Hfind) & Hm1 & Hreps).
  exists m1, reps. split; [exact El|]. split; [intros g F; by apply processed_find|]. split; [done|]. split; [|split; [|done]].
  { rewrite Em1. apply Forall_app. split; [apply Forall_forall; by left|]. eapply Forall_impl; [exact Hdecls|]. by right. }
  intros g rep E. specialize (Hreps g). rewrite E in Hreps. destruct Hreps as (n & k & _ & _ & -> & _). by eexists _, _.
Qed.
Lemma converted_total m : memory_declared m -> memory_calls_typed m -> exists m', ConvertIntrinsicsTo32Bit fresh m = Done (true, m').
Proof.
  intros Hm Ht. unfold ConvertIntrinsicsTo32Bit. destruct (initializeReplacements memory_replacements m) as [m1 reps] eqn:Ei.
  destruct (initializeReplacements_spec memory_replacements m m1 reps ltac:(done) Hm Ei) as ((decls & Em1 & Hdecls & _) & _ & Hreps).
  destruct (mapM_out_total (processFunction fresh reps) (m_functions m1)) as (l & ->); [|by eexists]. rewrite Em1. intros F [HF|HF]%elem_of_app; apply processFunction_total; intros i g t cc args Hi Hk Hg.
  - eapply (Ht F i g t cc args HF Hi Hk). specialize (Hreps g). destruct (find_replacement reps g); [|done]. destruct Hreps as (n & k & _ & Hin & _).
    by apply (list_elem_of_fmap_2 (fun d : string * string * intrinsic => fst (fst d))) in Hin.
  - rewrite Forall_forall in Hdecls. unfold all_insts in Hi. rewrite (Hdecls F HF) in Hi. by apply not_elem_of_nil in Hi.
Qed.
Lemma converted_calls m p m' F' i g t cc args : memory_declared m -> ConvertIntrinsicsTo32Bit fresh m = Done (p, m') ->
  F' ∈ m_functions m' -> i ∈ all_insts F' -> i_kind i = Call (FunctionValue g t) cc args ->
  find_function m g <> None -> g ∉ map (fun d => fst (fst d)) memory_replacements.
Proof.
  intros Hm H HF Hi Hk Hg Hin. destruct (converted_module m p m' Hm H) as (m1 & reps & El & _ & _ & _ & _ & Hreps). eapply Forall2_elem_of_r in HF as (F & HF & E); [|exact El].
  destruct (processed_calls reps F F' i g t cc args E Hi Hk) as [E0|(o & E0)].
  - specialize (Hreps g). rewrite E0 in Hreps. by apply Hg, Hreps.
  - specialize (Hreps o). rewrite E0 in Hreps. destruct Hreps as (n & k & F0 & Hn & [= -> _] & _). by apply (new_not_old o n k).
Qed.
Lemma converted_preserves m p m' : memory_declared m -> narrow_sizes -> memory_calls_typed m ->
  (forall F v G b k, F ∈ m_functions m -> v ∈ all_operands F -> is_local (fresh G b k) v = false) ->
  ConvertIntrinsicsTo32Bit fresh m = Done (p, m') ->
  forall fuel g args w r, call fuel m g args w = Some r -> call fuel m' g args w = Some r.
Proof.
  intros Hm Hbase Htyped Hfresh H. destruct (converted_module m p m' Hm H) as (m1 & reps & El & Hproc & Hfind & _ & Hreps2 & Hreps).
  apply (call_expand M base slots m _ (fun _ y => exists G b k, y = fresh G b k) (narrowed reps)).
  - intros [|fuel] o n t Eo args w r Hc; [done|]. cbn [call_function] in Hc. apply bind_Some in Hc as (F & HF & Hc).
    specialize (Hreps o). rewrite Eo in Hreps. destruct Hreps as (n' & k & F0 & Hin & [= <- _] & HF0 & Hb0).
    rewrite (proj1 (Hm o n k Hin) F HF) in Hc. destruct (Hbase o n k Hin args w r Hc) as (a & b & s & d & -> & Hc').
    exists a, b, s, d. split; [done|]. cbn [call_function]. destruct (Hproc n F0 HF0) as (F' & -> & E).
    unfold processFunction in E. rewrite Hb0 in E. injection E as <-. exact Hc'.
  - intros g F HF. destruct (Hproc g F (Hfind g F HF)) as (F' & HF' & E). exists F'. split; [done|].
    split; [unfold processFunction in E; apply obind_Done in E as (bs & _ & E); by apply Done_inj in E as <-|].
    intros c c' Hc Hnar. apply find_function_elem in HF.
    eapply processed_expands; [exact E|by intros; do 3 eexists| |exact Hc|exact Hnar|exact Hreps2|].
    + apply Forall_forall. intros v Hv y (G & b & k & ->). by eapply Hfresh.
    + intros i g0 t cc args Hi Hk Hg0. eapply (Htyped F i g0 t cc args HF Hi Hk). specialize (Hreps g0).
      destruct (find_replacement reps g0); [|done]. destruct Hreps as (n & k & _ & Hin & _).
      by apply (list_elem_of_fmap_2 (fun d : string * string * intrinsic => fst (fst d))) in Hin.
Qed.

(** ClamBCConvertIntrinsicsTo32Bit leaves no call to a memory intrinsic with
    a 64-bit size, and the functions of the module return what they returned,
    if the intrinsics with 32-bit sizes do the same for the sizes objects can
    have. *)
Theorem ConvertIntrinsicsTo32Bit_correct m p m' : memory_declared m -> narrow_sizes -> memory_calls_typed m ->
  (forall F v G b k, F ∈ m_functions m -> v ∈ all_operands F -> is_local (fresh G b k) v = false) ->
  ConvertIntrinsicsTo32Bit fresh m = Done (p, m') ->
  (forall F i g t cc args, F ∈ m_functions m' -> i ∈ all_insts F -> i_kind i = Call (FunctionValue g t) cc args ->
     find_function m g <> None -> g ∉ map (fun d => fst (fst d)) memory_replacements) /\
  forall fuel g args w r, call fuel m g args w = Some r -> call fuel m' g args w = Some r.
Proof.
  intros Hm Hbase Htyped Hfresh H. split; [|by eapply converted_preserves]. intros F i g t cc args. by eapply converted_calls.
Qed.
End convert_correct.

(** ** Examples *)

Definition demo_le : Module_ := {|
  m_structs := ∅; m_globals := [];
  m_functions := [ {|
    f_name := "le"; f_args := [("a", TyInt 8); ("b", TyInt 8)]; f_ret := TyInt 1; f_vararg := false; f_cc := 0; f_sret := false;
    f_available_externally := false; f_intrinsic := None;
    f_blocks := [ {| bb_name := "entry"; bb_phis := [];
      bb_insts := [inst "c" (TyInt 1) (ICmp ICMP_SLE (Local "a" (TyInt 8)) (Local "b" (TyInt 8)))];
      bb_term := Ret (Local "c" (TyInt 1)) |} ] |} ];
  m_logicalsignature := None; m_virusnames := None; m_funcmin := None; m_funcmax := None |}.
Definition demo_call_le (m : Module_) (a b : Z) : option (option Z * unit) :=
  call_function (integer_meaning (fun _ => 0) (fun _ _ _ => None)) (fun _ _ _ => None) (fun _ => ∅) 3 m "le" [a; b] tt.
Lemma RemoveICMPSLE_correct_witness :
  Forall (fun F => Forall (fun i => is_sle i = false) (all_insts F)) (m_functions (snd (RemoveICMPSLE demo_le))) /\
  demo_call_le (snd (RemoveICMPSLE demo_le)) 255 1 = Some (Some 1, tt).
Proof.
  destruct (RemoveICMPSLE_correct (W := unit) (fun _ => 0) (fun _ _ _ => None) (fun _ _ _ => None) (fun _ => ∅) demo_le) as [H1 H2].
  - repeat constructor.
  - split; [exact H1|]. apply (H2 3%nat). vm_compute. reflexivity.
Defined.
(** The pass reports that it has changed nothing. *)
Lemma RemoveICMPSLE_reports_no_change : fst (RemoveICMPSLE demo_le) = true /\ snd (RemoveICMPSLE demo_le) <> demo_le.
Proof. split; [reflexivity|]. intros H. apply (f_equal (fun m => existsb is_sle (flat_map all_insts (m_functions m)))) in H. discriminate. Qed.

(** A module that copies [n] bytes and then five; the world is what was copied. *)
Definition demo_memcpy (size : Value) : Inst :=
  inst "" TyVoid (Call (FunctionValue "llvm.memcpy.p0.p0.i64" (TyPtr (TyFun TyVoid [i8ptr_ty; i8ptr_ty; TyInt 64; TyInt 1] false))) 0
    [Local "p" i8ptr_ty; Local "q" i8ptr_ty; size; ConstantInt 1 0]).
Definition demo_copies : Module_ := {|
  m_structs := ∅; m_globals := [];
  m_functions := [ {|
    f_name := "copy"; f_args := [("p", i8ptr_ty); ("q", i8ptr_ty); ("n", TyInt 64)]; f_ret := TyVoid; f_vararg := false; f_cc := 0;
    f_sret := false; f_available_externally := false; f_intrinsic := None;
    f_blocks := [ {| bb_name := "entry"; bb_phis := [];
      bb_insts := [demo_memcpy (Local "n" (TyInt 64)); demo_memcpy (ConstantInt 64 5)]; bb_term := RetVoid |} ] |};
    {| f_name := "llvm.memcpy.p0.p0.i64"; f_args := [("", i8ptr_ty); ("", i8ptr_ty); ("", TyInt 64); ("", TyInt 1)]; f_ret := TyVoid;
       f_vararg := false; f_cc := 0; f_sret := false; f_available_externally := false; f_intrinsic := Some memcpy; f_blocks := [] |} ];
  m_logicalsignature := None; m_virusnames := None; m_funcmin := None; m_funcmax := None |}.
Definition demo_memory (name : string) (args : list Z) (copied : list Z) : option (option Z * list Z) :=
  match args with
  | [_; _; n; _] => if (String.eqb name "llvm.memcpy.p0.p0.i32" || String.eqb name "llvm.memcpy.p0.p0.i64" && (n <? 2 ^ 32))%bool
                    then Some (None, wrap 32 n :: copied) else None
  | _ => None
  end.
Definition demo_name (G b : string) (k : nat) : string := String.String "#" (String.append G (if k is O then "0" else "1")).
Definition demo_converted : Module_ :=
  match ConvertIntrinsicsTo32Bit demo_name demo_copies with Done (_, m) => m | _ => demo_copies end.
Definition demo_copy (m : Module_) (n : Z) : option (option Z * list Z) :=
  call_function (integer_meaning (fun _ => 0) (fun _ _ _ => None)) demo_memory (fun _ => ∅) 3 m "copy" [10; 20; n] [].
Lemma ConvertIntrinsicsTo32Bit_correct_witness :
  demo_copy demo_copies 77 = Some (None, [5; 77]) /\ demo_copy demo_converted 77 = Some (None, [5; 77]).
Proof.
  assert (H : demo_copy demo_copies 77 = Some (None, [5; 77])) by (vm_compute; reflexivity). split; [exact H|].
  refine (proj2 (ConvertIntrinsicsTo32Bit_correct (fun _ => 0) (fun _ _ _ => None) demo_memory (fun _ => ∅) demo_name demo_copies true
    demo_converted _ _ _ _ eq_refl) 3%nat "copy" [10; 20; 77] [] _ H).
  - intros o n k Hin. unfold memory_replacements in Hin. rewrite !elem_of_cons in Hin.
    repeat (destruct Hin as [Hin|Hin]; [injection Hin as -> -> ->; split; intros F HF; vm_compute in HF; first [discriminate HF|by injection HF as <-]|]).
    by apply not_elem_of_nil in Hin.
  - intros o n k Hin args w r Hr. unfold demo_memory in Hr. destruct args as [|a [|b [|s [|d [|? ?]]]]]; try discriminate Hr.
    exists a, b, s, d. split; [reflexivity|]. unfold memory_replacements in Hin. rewrite !elem_of_cons in Hin.
    repeat (destruct Hin as [Hin|Hin]; [injection Hin as -> -> ->; simpl in Hr;
      first [discriminate Hr|destruct (s <? _); [rewrite <- Hr; simpl; by rewrite wrap_wrap by lia|discriminate Hr]]|]).
    by apply not_elem_of_nil in Hin.
  - intros F i g t cc args HF Hi Hk _. cbn [demo_copies m_functions] in HF. rewrite !elem_of_cons in HF.
    destruct HF as [->|[->|HF]]; [| |by apply not_elem_of_nil in HF]; unfold all_insts in Hi; cbn [flat_map f_blocks bb_insts app] in Hi;
      rewrite ?elem_of_cons in Hi; [|by apply not_elem_of_nil in Hi].
    destruct Hi as [->|[->|Hi]]; [injection Hk as <- <- <- <-; by do 4 eexists..|by apply not_elem_of_nil in Hi].
  - intros F v G b k HF Hv. cbn [demo_copies m_functions] in HF. rewrite !elem_of_cons in HF.
    destruct HF as [->|[->|HF]]; [| |by apply not_elem_of_nil in HF].
    + assert (Hall : Forall (fun v => is_local (demo_name G b k) v = false) (all_operands (nth 0 (m_functions demo_copies) (memory_function "" memset))))
        by (repeat constructor).
      rewrite Forall_forall in Hall. by apply Hall.
    + by apply not_elem_of_nil in Hv.
Defined.
(** A constant size of 2^32 + 5 becomes 5. *)
Lemma convert_size_truncates : convert_size "x" (ConstantInt 64 (2 ^ 32 + 5)) = Done ([], ConstantInt 32 5).
Proof. reflexivity. Qed.
