(* ===== verification/RemoveFreeze.v ===== *)
(** * RemoveFreeze: freeze instructions

    libclambcc/ClamBCRemoveFreezeInsts.cpp: the bytecode has no freeze, so each
    is replaced, everywhere, by its operand. That is right because a definition
    dominates its uses (Dominance.v), for values that are not undefined: the
    semantics gives those one value, as libclamav does. *)
From S2P Require Import Prelude IR Semantics Integers SmallPasses Dominance.
Local Open Scope string_scope.
Local Open Scope list_scope.
Local Open Scope Z_scope.
Local Open Scope outcome_scope.

(** ** The pass *)

Definition is_freeze (i : Inst) : bool := match i_kind i with Freeze _ => true | _ => false end.
Definition gatherFreezeInsts (F : Function_) : list string := map i_name (List.filter is_freeze (all_insts F)).
(** The freeze instruction of a name, and its operand. *)
Definition is_freeze_of (y : string) (i : Inst) : bool := is_freeze i && String.eqb (i_name i) y.
Definition freeze_operand (y : string) (F : Function_) : option Value :=
  i ← List.find (is_freeze_of y) (all_insts F); match i_kind i with Freeze v => Some v | _ => None end.
Definition erase_freeze (y : string) (F : Function_) : Function_ :=
  with_blocks F (map (fun b => with_insts b (List.filter (fun i => negb (is_freeze_of y i)) (bb_insts b))) (f_blocks F)).
(** replaceAllUsesWith and eraseFromParent *)
Definition remove_freeze (y : string) (F : Function_) : outcome Function_ :=
  match freeze_operand y F with
  | Some v =>
      let* _ := assert_ (negb (is_local y v)) "this->replaceAllUsesWith(expr(this)) is NOT valid!" in
      Done (erase_freeze y (replace_uses y v F))
  | None => Done F
  end.
Fixpoint remove_freezes (l : list string) (F : Function_) : outcome Function_ :=
  match l with [] => Done F | y :: l => let* F := remove_freeze y F in remove_freezes l F end.
Definition processFunction_freeze (F : Function_) : outcome Function_ :=
  if isDeclaration F then Done F else remove_freezes (gatherFreezeInsts F) F.
(** bChanged is set for the first freeze. *)
Definition RemoveFreezeInsts (m : Module_) : outcome pass_result :=
  let* l := mapM_out processFunction_freeze (m_functions m) in
  Done (negb (existsb (fun F => existsb is_freeze (all_insts F)) (m_functions m)), with_functions m l).

(** ** What has been replaced so far

    [g] is what each operand has become, [D] are the freeze instructions that
    are gone. *)

Definition copy_of (i : Inst) : option Value := match i_kind i with Freeze v => Some v | _ => None end.
Lemma copy_of_operand i v : copy_of i = Some v -> v ∈ operands (i_kind i).
Proof. unfold copy_of. destruct (i_kind i); try done. intros [= ->]. cbn [operands]. apply elem_of_cons. by left. Qed.

Definition gone (D : list string) (i : Inst) : bool := is_freeze i && bool_decide (i_name i ∈ D).
Definition reduce_block (D : list string) (g : Value -> Value) (b : Block) : Block :=
  {| bb_name := bb_name b; bb_phis := map (map_phi g) (bb_phis b);
     bb_insts := map (map_inst g) (List.filter (fun i => negb (gone D i)) (bb_insts b)); bb_term := map_term g (bb_term b) |}.
Definition reduce (D : list string) (g : Value -> Value) (F : Function_) : Function_ := with_blocks F (map (reduce_block D g) (f_blocks F)).

Section chains.
Context (F : Function_).
Abbreviation copies := (copies F copy_of).
Inductive chain : Value -> Value -> Prop :=
| chain_refl v : chain v v
| chain_copy y t v v' : copies y v -> chain v v' -> chain (Local y t) v'.
Lemma chain_trans u v w : chain u v -> chain v w -> chain u w.
Proof. induction 1; [done|]. intros H1. eapply chain_copy; eauto. Qed.
Definition replacing (D : list string) (g : Value -> Value) : Prop :=
  (forall o, chain o (g o)) /\ forall o y, y ∈ D -> is_local y (g o) = false.

Lemma map_inst_id i : map_inst (fun v => v) i = i.
Proof. destruct i as [x t k]. unfold map_inst. cbn. f_equal. destruct k; cbn [map_operands]; rewrite ?map_id; done. Qed.
Lemma reduce_start : reduce [] (fun v => v) F = F.
Proof.
  destruct F as [n args ret va cc sr ae it bs]. unfold reduce. cbn [f_blocks]. unfold with_blocks. cbn. f_equal.
  induction bs as [|b bs IH]; [done|]. cbn [map]. rewrite IH. f_equal. destruct b as [bn ps is_ t]. unfold reduce_block. cbn.
  assert (map (map_phi (fun v => v)) ps = ps) as ->.
  { induction ps as [|[pn pt pi] ps IHp]; [done|]. cbn [map]. rewrite IHp. f_equal. unfold map_phi. cbn. f_equal.
    induction pi as [|[v l] pi IHi]; [done|]. cbn [map fst snd]. by rewrite IHi. }
  assert (List.filter (fun i => negb (gone [] i)) is_ = is_) as ->.
  { induction is_ as [|i is_ IHi]; [done|]. cbn [List.filter]. unfold gone at 1. rewrite bool_decide_false by apply not_elem_of_nil.
    rewrite andb_false_r. cbn [negb]. by rewrite IHi. }
  f_equal; [|by destruct t]. induction is_ as [|i is_ IHi]; [done|]. cbn [map]. by rewrite IHi, map_inst_id.
Qed.
Lemma map_operands_map g h k : map_operands h (map_operands g k) = map_operands (fun v => h (g v)) k.
Proof. destruct k; cbn [map_operands]; rewrite ?map_map; done. Qed.
Lemma is_freeze_map g i : is_freeze (map_inst g i) = is_freeze i.
Proof. unfold is_freeze. cbn [map_inst i_kind]. by destruct (i_kind i). Qed.
Lemma filter_map_gone y D g l :
  List.filter (fun i => negb (is_freeze_of y i)) (map (map_inst g) (List.filter (fun i => negb (gone D i)) l)) =
  map (map_inst g) (List.filter (fun i => negb (gone (y :: D) i)) l).
Proof.
  induction l as [|i l IH]; [done|]. cbn [List.filter].
  assert (E : negb (gone (y :: D) i) = negb (gone D i) && negb (is_freeze_of y (map_inst g i))).
  { unfold gone, is_freeze_of. rewrite is_freeze_map. cbn [map_inst i_name]. destruct (is_freeze i); [|done]. cbn [andb].
    rewrite <- negb_orb. f_equal. rewrite (bool_decide_ext _ (i_name i = y \/ i_name i ∈ D)) by apply elem_of_cons.
    rewrite bool_decide_or, orb_comm. f_equal. destruct (String.eqb_spec (i_name i) y); by case_bool_decide. }
  rewrite E. destruct (gone D i); cbn [negb andb]; [exact IH|]. cbn [map List.filter]. destruct (is_freeze_of y _); cbn [negb]; [exact IH|].
  cbn [map]. by rewrite IH.
Qed.
Lemma reduce_more D g y v : erase_freeze y (replace_uses y v (reduce D g F)) = reduce (y :: D) (fun o => replace_value y v (g o)) F.
Proof.
  unfold erase_freeze, replace_uses, reduce. cbn [f_blocks with_blocks]. unfold with_blocks. cbn. f_equal. rewrite !map_map.
  apply map_ext. intros b. unfold reduce_block, with_insts. cbn [bb_name bb_phis bb_insts bb_term]. f_equal.
  - rewrite !map_map. apply map_ext. intros p. unfold map_phi. cbn. f_equal. by rewrite map_map.
  - rewrite <- (filter_map_gone y D (fun o => replace_value y v (g o))). f_equal. rewrite map_map. apply map_ext. intros i. unfold map_inst. cbn. f_equal.
    apply map_operands_map.
  - by destruct (bb_term b).
Qed.
End chains.

(** What is known of a function before the pass; LLVM's verifier sees to it,
    but for the slots, which are not copied. *)
Record freezable (S : gset string) (F : Function_) : Prop := {
  fz_ssa : ssa F;
  fz_result i : i ∈ all_insts F -> match i_kind i with Freeze _ | Load _ => has_result i = true | _ => True end;
  fz_types y t v : Local y t ∈ all_operands F -> copies F copy_of y v -> type_of v = t;
  fz_direct i callee cc args : i ∈ all_insts F -> i_kind i = Call callee cc args -> forall x t, callee <> Local x t;
  fz_slots y v : copies F copy_of y v -> y ∉ S /\ slot_of S v = None
}.
Definition all_reachable (F : Function_) : Prop := forall b, b ∈ f_blocks F -> reachable F (bb_name b) (bb_insts b).

Section one_function.
Context (S : gset string) (F : Function_) (H : freezable S F).
Abbreviation copies := (copies F copy_of).
Let Hssa := fz_ssa S F H.

Lemma find_bb_unique b : b ∈ f_blocks F -> find_bb (f_blocks F) (bb_name b) = Some b.
Proof.
  pose proof (ssa_blocks F Hssa) as Hn. unfold find_bb. induction (f_blocks F) as [|c bs IH]; intros Hb; [by apply not_elem_of_nil in Hb|].
  cbn [map] in Hn. apply NoDup_cons in Hn as [Hc Hn]. cbn [List.find]. apply elem_of_cons in Hb as [->|Hb]; [by rewrite String.eqb_refl|].
  destruct (String.eqb_spec (bb_name c) (bb_name b)) as [E|_]; [|by apply IH]. exfalso. apply Hc. rewrite E. by apply list_elem_of_fmap_2.
Qed.
Lemma inst_block i : i ∈ all_insts F -> exists b rest, b ∈ f_blocks F /\ i :: rest `suffix_of` bb_insts b.
Proof.
  unfold all_insts. intros Hi. apply list_elem_of_In, in_flat_map in Hi as (b & Hb & Hi). apply list_elem_of_In in Hb, Hi.
  apply list_elem_of_split in Hi as (l1 & rest & E). exists b, rest. split; [done|]. exists l1. exact E.
Qed.
Lemma freeze_copies i v : i ∈ all_insts F -> i_kind i = Freeze v ->
  exists b rest, b ∈ f_blocks F /\ copy_at F copy_of (i_name i) v (bb_name b) i rest.
Proof.
  intros Hi Hk. destruct (inst_block i Hi) as (b & rest & Hb & Hs). exists b, rest. split; [done|]. exists b. split; [by apply find_bb_unique|].
  split; [done|]. split; [split; [|done]|unfold copy_of; by rewrite Hk]. pose proof (fz_result S F H i Hi) as Hr. by rewrite Hk in Hr.
Qed.
Lemma flat_map_map {A B C} (f : B -> C) (h : A -> list B) l : flat_map (fun x => map f (h x)) l = map f (flat_map h l).
Proof. induction l as [|x l IH]; [done|]. cbn [flat_map]. by rewrite map_app, IH. Qed.
Lemma reduce_insts D g : all_insts (reduce D g F) = map (map_inst g) (List.filter (fun i => negb (gone D i)) (all_insts F)).
Proof.
  unfold all_insts, reduce. cbn [f_blocks with_blocks]. induction (f_blocks F) as [|b bs IH]; [done|]. cbn [map flat_map]. rewrite IH.
  by rewrite List.filter_app, map_app.
Qed.
Lemma find_reduced D g y l : y ∉ D ->
  List.find (is_freeze_of y) (map (map_inst g) (List.filter (fun i => negb (gone D i)) l)) = option_map (map_inst g) (List.find (is_freeze_of y) l).
Proof.
  intros Hy. assert (E : forall i, is_freeze_of y (map_inst g i) = is_freeze_of y i) by (intros i; unfold is_freeze_of; by rewrite is_freeze_map).
  induction l as [|i l IH]; [done|]. cbn [List.filter List.find]. destruct (gone D i) eqn:Eg; cbn [negb].
  - rewrite IH. destruct (is_freeze_of y i) eqn:Ei; [|done]. exfalso. unfold gone, is_freeze_of in *. apply andb_true_iff in Eg as [_ Eg], Ei as [_ Ei].
    apply bool_decide_eq_true in Eg. apply String.eqb_eq in Ei. congruence.
  - cbn [map List.find]. rewrite E. by destruct (is_freeze_of y i).
Qed.
Lemma freeze_operand_reduced D g y v : y ∉ D -> freeze_operand y (reduce D g F) = Some v ->
  exists i v0, i ∈ all_insts F /\ i_kind i = Freeze v0 /\ i_name i = y /\ v = g v0.
Proof.
  intros Hy. unfold freeze_operand. rewrite reduce_insts, find_reduced by done. intros (j & Ej & E)%bind_Some.
  destruct (List.find (is_freeze_of y) (all_insts F)) as [i|] eqn:Ei; [|done]. injection Ej as <-. apply List.find_some in Ei as [Hi Ei].
  apply list_elem_of_In in Hi. unfold is_freeze_of in Ei. apply andb_true_iff in Ei as [Ef En]. apply String.eqb_eq in En. unfold is_freeze in Ef.
  cbn [map_inst i_kind] in E. destruct (i_kind i) as [| | | | | | | | | |v0|] eqn:Ek; try done. cbn [map_operands] in E. injection E as <-.
  by exists i, v0.
Qed.
(** One freeze instruction gone. *)
Lemma remove_freeze_reduces D g y F2 : replacing F D g -> (exists i, i ∈ all_insts F /\ is_freeze i = true /\ i_name i = y) ->
  remove_freeze y (reduce D g F) = Done F2 -> exists D2 g2, F2 = reduce D2 g2 F /\ replacing F D2 g2 /\ forall z, z = y \/ z ∈ D -> z ∈ D2.
Proof.
  intros [Hg1 Hg2] (i0 & Hi0 & Hf0 & Hn0) E. unfold remove_freeze in E. destruct (decide (y ∈ D)) as [Hy|Hy].
  - assert (freeze_operand y (reduce D g F) = None) as E0.
    { unfold freeze_operand. rewrite reduce_insts. destruct (List.find _ _) as [j|] eqn:Ej; [|done]. apply List.find_some in Ej as [Hj Ej]. exfalso.
      apply in_map_iff in Hj as (i & <- & Hi). apply filter_In in Hi as [_ Hi]. unfold is_freeze_of in Ej. rewrite is_freeze_map in Ej.
      apply andb_true_iff in Ej as [Ef En]. apply String.eqb_eq in En. cbn [map_inst i_name] in En. unfold gone in Hi. rewrite Ef, En in Hi.
      by rewrite bool_decide_true in Hi. }
    rewrite E0 in E. injection E as <-. exists D, g. split; [done|]. split; [done|]. intros z [->|Hz]; done.
  - destruct (freeze_operand y (reduce D g F)) as [v|] eqn:Ev.
    + apply obind_Done in E as (u & Ea & E). apply Done_inj in E as <-. unfold assert_ in Ea. destruct (is_local y v) eqn:El; [done|].
      destruct (freeze_operand_reduced D g y v Hy Ev) as (i & v0 & Hi & Hk & Hn & ->). rewrite reduce_more.
      exists (y :: D), (fun o => replace_value y (g v0) (g o)). split; [done|]. split; [|intros z Hz; by apply elem_of_cons].
      split; [intros o|intros o z Hz]; unfold replace_value.
      * destruct (is_local y (g o)) eqn:Eo; [|done]. eapply chain_trans; [apply Hg1|]. destruct (g o) as [x t| | | | | | | | | | | |]; try done. cbn in Eo.
        apply String.eqb_eq in Eo as <-. eapply chain_copy; [|apply Hg1]. destruct (freeze_copies i v0 Hi Hk) as (b & rest & _ & Hc). rewrite Hn in Hc. by exists (bb_name b), i, rest.
      * apply elem_of_cons in Hz as [->|Hz]; destruct (is_local y (g o)) eqn:Eo; try done; by apply Hg2.
    + exfalso. unfold freeze_operand in Ev. rewrite reduce_insts, find_reduced in Ev by done.
      destruct (List.find (is_freeze_of y) (all_insts F)) as [i|] eqn:Ei.
      * apply List.find_some in Ei as [_ Ei]. cbn [option_map mbind option_bind map_inst i_kind] in Ev. unfold is_freeze_of, is_freeze in Ei.
        by destruct (i_kind i).
      * apply list_elem_of_In in Hi0. eapply List.find_none in Ei; [|exact Hi0]. unfold is_freeze_of in Ei. rewrite Hf0, Hn0, String.eqb_refl in Ei. done.
Qed.
Lemma remove_freezes_reduces l : forall D g F2, replacing F D g -> (forall y, y ∈ l -> exists i, i ∈ all_insts F /\ is_freeze i = true /\ i_name i = y) ->
  remove_freezes l (reduce D g F) = Done F2 -> exists D2 g2, F2 = reduce D2 g2 F /\ replacing F D2 g2 /\ forall z, z ∈ l \/ z ∈ D -> z ∈ D2.
Proof.
  induction l as [|y l IH]; intros D g F2 Hg Hl E; cbn [remove_freezes] in E.
  - injection E as <-. exists D, g. split; [done|]. split; [done|]. intros z [Hz|Hz]; [by apply not_elem_of_nil in Hz|done].
  - apply obind_Done in E as (F1 & E1 & E). destruct (remove_freeze_reduces D g y F1 Hg) as (D1 & g1 & -> & Hg1 & HD1); [apply Hl, elem_of_cons; by left|done|].
    destruct (IH D1 g1 F2 Hg1) as (D2 & g2 & -> & Hg2 & HD2); [intros z Hz; apply Hl, elem_of_cons; by right|done|].
    exists D2, g2. split; [done|]. split; [done|]. intros z [Hz|Hz]; [|by apply HD2; right; apply HD1; right].
    apply elem_of_cons in Hz as [->|Hz]; [by apply HD2; right; apply HD1; left|by apply HD2; left].
Qed.
(** No freeze instruction of itself, in code that can be reached. *)
Lemma remove_freezes_total l : all_reachable F -> forall D g, replacing F D g ->
  (forall y, y ∈ l -> exists i, i ∈ all_insts F /\ is_freeze i = true /\ i_name i = y) -> exists F2, remove_freezes l (reduce D g F) = Done F2.
Proof.
  intros Hr. induction l as [|y l IH]; intros D g Hg Hl; cbn [remove_freezes]; [by eexists|].
  assert (exists F1, remove_freeze y (reduce D g F) = Done F1) as (F1 & E1).
  { unfold remove_freeze. destruct (freeze_operand y (reduce D g F)) as [v|] eqn:Ev; [|by eexists].
    assert (is_local y v = false) as ->; [|by eexists]. destruct (decide (y ∈ D)) as [Hy|Hy].
    { exfalso. unfold freeze_operand in Ev. apply bind_Some in Ev as (j & Ej & _). rewrite reduce_insts in Ej. apply List.find_some in Ej as [Hj Ej].
      apply in_map_iff in Hj as (i & <- & Hi). apply filter_In in Hi as [_ Hi]. unfold is_freeze_of in Ej. rewrite is_freeze_map in Ej.
      apply andb_true_iff in Ej as [Ef En]. apply String.eqb_eq in En. cbn [map_inst i_name] in En. unfold gone in Hi. rewrite Ef, En in Hi.
      by rewrite bool_decide_true in Hi. }
    destruct (freeze_operand_reduced D g y v Hy Ev) as (i & v0 & Hi & Hk & Hn & ->). destruct (freeze_copies i v0 Hi Hk) as (b & rest & Hb & Hc). rewrite Hn in Hc.
    destruct (is_local y (g v0)) eqn:El; [|done]. exfalso. destruct (g v0) as [x t| | | | | | | | | | | |] eqn:Eg; try done. cbn in El. apply String.eqb_eq in El as ->.
    pose proof Hc as (b' & Hb' & Hs & _). assert (b' = b) as -> by (rewrite (find_bb_unique b Hb) in Hb'; congruence).
    assert (Hri : reachable F (bb_name b) (i :: rest)).
    { specialize (Hr b Hb). destruct Hs as (pre & Es). rewrite Es in Hr. clear - Hr. induction pre as [|j pre IHp]; [done|]. apply IHp. cbn [app] in Hr.
      eapply free_step; [exact Hr|]. by intros ? _ []. }
    assert (Hd : dominated F (Local x t) (bb_name b) (i :: rest)).
    { pose proof (copy_dominated F Hssa copy_of copy_of_operand _ _ _ _ _ Hc) as Hd. pose proof (proj1 Hg v0) as Hch. rewrite Eg in Hch. clear - Hd Hch Hssa.
      induction Hch as [|y0 t0 v v' Hcp Hch IH]; [done|]. apply IH. by eapply copy_chain; [exact Hssa|exact copy_of_operand|exact Hcp|]. }
    destruct Hd as [Hd|Hd]; [by eapply copy_not_arg in Hc|]. by apply Hd, (reaches_copy F Hssa copy_of _ _ _ _ _ Hc). }
  rewrite E1. cbn [obind]. destruct (remove_freeze_reduces D g y F1 Hg) as (D1 & g1 & -> & Hg1 & _); [apply Hl, elem_of_cons; by left|done|].
  apply IH; [done|]. intros z Hz. apply Hl, elem_of_cons. by right.
Qed.
End one_function.

(** ** The function does the same *)

Section simulate.
Context {V W : Type} (M : Meaning V W) `{!Uniform M}.
Context (Hfreeze : forall i v x w, i_kind i = Freeze v -> sem (Meaning := M) i [x] w = Some (x, w)).
Context (S : gset string) (F : Function_) (H : freezable S F) (D : list string) (g : Value -> Value).
Context (Hg : replacing F D g) (HD : forall i, i ∈ all_insts F -> is_freeze i = true -> i_name i ∈ D).
Context (c c' : string -> list V -> W -> option (option V * W)) (Hc : forall h args w r, c h args w = Some r -> c' h args w = Some r).
Abbreviation copies := (copies F copy_of).
Abbreviation facts := (facts F copy_of (M := M)).
Let Hssa := fz_ssa S F H.

Definition agree_kept (e e' : gmap string V) : Prop := forall z, z ∉ D -> e' !! z = e !! z.
Lemma value_reduced o l rest e e' : agree_kept e e' -> facts l rest e -> dominated F o l rest -> eval e' (g o) = eval e o.
Proof.
  intros He Hf Hd. transitivity (eval e (g o)).
  { pose proof (proj2 Hg o) as Hn. destruct (g o) as [x t| | | | | | | | | | | |]; try done. cbn [eval]. rewrite He; [done|]. intros Hx.
    specialize (Hn x Hx). cbn in Hn. by rewrite String.eqb_refl in Hn. }
  pose proof (proj1 Hg o) as Hch. induction Hch as [v|y t v v' Hcp Hch IH]; [done|]. rewrite IH.
  - destruct (Hf y v Hcp) as [Hy|Hy]; [|by rewrite <- Hy]. destruct Hcp as (l' & i & rest' & Hca). destruct Hd as [Hd|Hd]; [by apply (copy_not_arg F Hssa) in Hca|done].
  - by eapply copy_chain; [exact Hssa|exact copy_of_operand|exact Hcp|].
Qed.
Lemma slot_reduced o : slot_of S (g o) = slot_of S o.
Proof.
  pose proof (proj1 Hg o) as Hch. induction Hch as [v|y t v v' Hcp Hch IH]; [done|]. rewrite IH. destruct (fz_slots S F H y v Hcp) as [Hy ->].
  cbn [slot_of]. by rewrite decide_False.
Qed.
Lemma type_reduced o : o ∈ all_operands F -> type_of (g o) = type_of o.
Proof.
  pose proof (proj1 Hg o) as Hch. induction Hch as [v|y t v v' Hcp Hch IH]; [done|]. intros Ho. rewrite IH; [by rewrite (fz_types S F H y t v)|].
  destruct Hcp as (l & i & rest & b & Hb & Hs & _ & Hi). apply copy_of_operand in Hi. unfold all_operands. apply list_elem_of_In, in_flat_map. exists b.
  apply (find_bb_spec F) in Hb as [Hb _]. rewrite <- list_elem_of_In. split; [done|]. unfold block_operands. rewrite <- list_elem_of_In, !elem_of_app.
  right. left. apply list_elem_of_In, in_flat_map. exists i. rewrite <- !list_elem_of_In. split; [|done]. destruct Hs as (k & ->). apply elem_of_app. right.
  apply elem_of_cons. by left.
Qed.
Lemma inst_wrote i e m w e1 m1 w1 : i ∈ all_insts F -> exec_inst (M := with_calls M c) S i (e, m, w) = Some (e1, m1, w1) ->
  wrote (M := M) copy_of i e e1 /\ (is_freeze i = true -> m1 = m /\ w1 = w).
Proof.
  intros Hi E. pose proof (fz_result S F H i Hi) as Hres. unfold exec_inst in E.
  assert (G : copy_of i = None -> ('(v, w') ← sem (Meaning := with_calls M c) i (map (eval (M := with_calls M c) e) (operands (i_kind i))) w;
     Some (match i_type i with TyVoid => e | _ => <[i_name i:=v]> e end, m, w')) = Some (e1, m1, w1) -> wrote (M := M) copy_of i e e1).
  { intros Hn G. apply bind_Some in G as ([v w'] & _ & G). injection G as <- _ _. unfold wrote, has_result.
    destruct (i_type i); [by left|right; split; [done|]; exists v; split; [done|]; intros u Hu; congruence..]. }
  unfold is_freeze, copy_of in *. destruct (i_kind i) as [t n|p|v p| | | | | | | |v|] eqn:Ek; try (split; [by apply G|done]).
  - destruct (decide (i_name i ∈ S)); [|split; [by apply G|done]]. injection E as <- _ _. split; [left|done]. split; [done|]. unfold copy_of. by rewrite Ek.
  - destruct (slot_of S p); [|split; [by apply G|done]]. apply bind_Some in E as (v & _ & E). injection E as <- _ _. split; [right|done]. split; [done|].
    exists v. split; [done|]. unfold copy_of. by rewrite Ek.
  - destruct (slot_of S p); [|split; [by apply G|done]]. injection E as <- _ _. split; [left|done]. split; [done|]. unfold copy_of. by rewrite Ek.
  - cbn [operands map sem with_calls] in E. rewrite Ek in E. rewrite (Hfreeze i v _ w Ek) in E. cbn [mbind option_bind] in E. injection E as E <- <-.
    split; [|done]. right. split; [done|]. exists (eval e v). unfold has_result in Hres. split; [by destruct (i_type i)|]. unfold copy_of. rewrite Ek. by intros u [= ->].
Qed.
Lemma insts_reduced l b rest : find_bb (f_blocks F) l = Some b -> rest `suffix_of` bb_insts b -> forall e e' m w e1 m1 w1, agree_kept e e' -> reachable F l rest -> facts l rest e ->
  exec_insts (M := with_calls M c) S rest (e, m, w) = Some (e1, m1, w1) ->
  exists e1', exec_insts (M := with_calls M c') S (map (map_inst g) (List.filter (fun i => negb (gone D i)) rest)) (e', m, w) = Some (e1', m1, w1) /\
    agree_kept e1 e1' /\ reachable F l [] /\ facts l [] e1.
Proof.
  intros Hb. induction rest as [|i rest IH]; intros Hs e e' m w e1 m1 w1 He Hr Hf E; cbn [exec_insts] in E; [injection E as <- <- <-; by exists e'|].
  apply bind_Some in E as ([[e2 m2] w2] & E1 & E).
  assert (Hin : i ∈ all_insts F).
  { unfold all_insts. apply list_elem_of_In, in_flat_map. exists b. apply (find_bb_spec F) in Hb as [Hb _]. rewrite <- !list_elem_of_In. split; [done|].
    destruct Hs as (k & ->). apply elem_of_app. right. apply elem_of_cons. by left. }
  destruct (inst_wrote i e m w e2 m2 w2 Hin E1) as [Hw Hfr].
  assert (Hs' : rest `suffix_of` bb_insts b) by (by eapply suffix_cons_l).
  assert (Hr' : reachable F l rest) by (eapply free_step; [exact Hr|]; by intros ? _ []).
  assert (Hf' : facts l rest e2) by (by eapply (facts_step F Hssa); [exact copy_of_operand|..]).
  cbn [List.filter]. destruct (gone D i) eqn:Eg; cbn [negb].
  - unfold gone in Eg. apply andb_true_iff in Eg as [Ef En]. apply bool_decide_eq_true in En. destruct (Hfr Ef) as [-> ->].
    eapply (IH Hs' e2 e'); [|exact Hr'|exact Hf'|exact E]. destruct Hw as [[-> _]|(_ & x & -> & _)]; [done|]. intros z Hz. rewrite lookup_insert_ne; [by apply He|].
    by intros <-.
  - assert (Hops : forall v, v ∈ operands (i_kind i) -> dominated F v l (i :: rest)) by (intros v Hv; by eapply (ssa_insts F Hssa)).
    destruct (exec_inst_exchanged M c c' S g i e e' m w e2 m2 w2) as (e2' & E1' & He2); [by intros h t cc args w0 r _; apply Hc| | |exact E1|].
    + intros callee cc args Hk. pose proof (proj1 Hg callee) as Hch. inversion Hch as [v E2|y t v v' Hcp Hch' E2 E3]; [congruence|]. subst callee.
      exfalso. by eapply (fz_direct S F H i).
    + intros v Hv. split; [apply type_reduced|split; [apply slot_reduced|by eapply value_reduced, Hops]].
      unfold all_operands. apply list_elem_of_In, in_flat_map. exists b. apply (find_bb_spec F) in Hb as [Hb _]. rewrite <- list_elem_of_In. split; [done|].
      unfold block_operands. rewrite <- list_elem_of_In, !elem_of_app. right. left. apply list_elem_of_In, in_flat_map. exists i. rewrite <- !list_elem_of_In. split; [|done].
      destruct Hs as (k & ->). apply elem_of_app. right. apply elem_of_cons. by left.
    + cbn [map exec_insts]. rewrite E1'. cbn [mbind option_bind]. eapply (IH Hs' e2 e2'); [|exact Hr'|exact Hf'|exact E].
      destruct He2 as [[-> ->]|(x & -> & ->)]; [done|]. intros z Hz. destruct (decide (i_name i = z)) as [->|Hne]; [by rewrite !lookup_insert_eq|].
      rewrite !lookup_insert_ne by done. by apply He.
Qed.
(** Before block [l] is entered. *)
Definition entering (pred : option string) (l : string) (e e' : gmap string V) : Prop :=
  agree_kept e e' /\
  match pred with
  | None => exists b bs, f_blocks F = b :: bs /\ l = bb_name b
  | Some l0 => exists b0, find_bb (f_blocks F) l0 = Some b0 /\ reachable F l0 [] /\ facts l0 [] e /\ branches_to (bb_term b0) l
  end.
Lemma entering_arrives pred l e e' : entering pred l e e' ->
  arrives F (fun _ => False) l /\ forall y v, copies y v -> arrives F (without y) l \/ fact (M := M) e y v.
Proof.
  intros [_ He]. destruct pred as [l0|].
  - destruct He as (b0 & Hb0 & Hr & Hf & Ht). split; [right; by exists l0, b0|]. intros y v Hcp. destruct (Hf y v Hcp); [|by right].
    left. right. by exists l0, b0.
  - split; [by left|]. intros y v _. left. by left.
Qed.
Lemma enter_reduced pred l b e e' e1 : find_bb (f_blocks F) l = Some b -> entering pred l e e' -> enter (M := M) e pred (bb_phis b) = Some e1 ->
  exists e1', enter (M := M) e' pred (map (map_phi g) (bb_phis b)) = Some e1' /\ agree_kept e1 e1'.
Proof.
  intros Hb [He Hp]. assert (Hsub : forall p, p ∈ bb_phis b -> p ∈ bb_phis b) by done. revert e1 Hsub. generalize (bb_phis b) at 1 3 4 as ps.
  induction ps as [|p ps IH]; intros e1 Hsub E; cbn [enter map] in *; [injection E as <-; by exists e'|].
  apply bind_Some in E as (l0 & -> & E). apply bind_Some in E as (v & Ev & E). apply bind_Some in E as (e2 & E2 & E). injection E as <-.
  destruct (IH e2) as (e2' & E2' & He2); [intros q Hq; apply Hsub, elem_of_cons; by right|exact E2|]. cbn [mbind option_bind].
  assert (incoming (map_phi g p) l0 = Some (g v)) as ->.
  { unfold incoming in *. cbn [map_phi phi_incoming]. induction (phi_incoming p) as [|[u q] inc IHi]; [done|]. cbn [List.find map fst snd] in *.
    destruct (String.eqb q l0); [by injection Ev as ->|by apply IHi]. }
  cbn [mbind option_bind]. rewrite E2'. cbn [mbind option_bind]. eexists. split; [reflexivity|].
  destruct Hp as (b0 & Hb0 & Hr & Hf & Ht). assert (Hd : dominated F v l0 []).
  { eapply (ssa_phis F Hssa); [exact Hb|apply Hsub, elem_of_cons; by left|]. unfold incoming in Ev. destruct (List.find _ (phi_incoming p)) as [[u q]|] eqn:Ef; [|done].
    injection Ev as ->. apply List.find_some in Ef as [Ef Eq]. apply String.eqb_eq in Eq. cbn [snd] in Eq. subst q. by apply list_elem_of_In. }
  intros z Hz. cbn [map_phi phi_name]. destruct (decide (phi_name p = z)) as [->|Hne].
  - rewrite !lookup_insert_eq. by rewrite (value_reduced v l0 [] e e').
  - rewrite !lookup_insert_ne by done. by apply He2.
Qed.
Lemma reduced_runs fuel b bs e w r : f_blocks F = b :: bs ->
  run_blocks (M := with_calls M c) S fuel (f_blocks F) (bb_name b) None (e, ∅, w) = Some r ->
  run_blocks (M := with_calls M c') S fuel (f_blocks (reduce D g F)) (bb_name b) None (e, ∅, w) = Some r.
Proof.
  intros Eb. apply (run_blocks_simulated _ _ S (f_blocks F) (f_blocks (reduce D g F)) entering).
  2: { split; [by intros z _|]. by exists b, bs. }
  clear e w r fuel Eb b bs. intros pred l e e' b HP Hb. exists (reduce_block D g b). split.
  { unfold reduce. cbn [f_blocks with_blocks]. unfold find_bb in *. induction (f_blocks F) as [|b1 bs IH]; [done|]. cbn [List.find map reduce_block bb_name] in *.
    destruct (String.eqb (bb_name b1) l); [by injection Hb as ->|by apply IH]. }
  intros m w e1 e2 m2 w2 x E1 E2 Ex. destruct (enter_reduced pred l b e e' e1 Hb HP E1) as (e1' & E1' & He1).
  destruct (entering_arrives pred l e e' HP) as [Ha Hfa].
  assert (Hr : reachable F l (bb_insts b)) by (apply arrives_free; [done|done|by intros ? _ []]).
  assert (Hf : facts l (bb_insts b) e1) by (by eapply (facts_enter F Hssa); [exact copy_of_operand|exact Hb|..]).
  destruct (insts_reduced l b (bb_insts b) Hb ltac:(done) e1 e1' m w e2 m2 w2 He1 Hr Hf E2) as (e2' & E2' & He2 & Hr2 & Hf2).
  exists e1', e2'. split; [exact E1'|]. split; [exact E2'|].
  assert (Hv : forall v, v ∈ term_operands (bb_term b) -> eval e2' (g v) = eval e2 v).
  { intros v Hv. eapply value_reduced; [done|exact Hf2|]. by eapply (ssa_term F Hssa). }
  split.
  - rewrite <- Ex. cbn [reduce_block bb_term]. destruct (bb_term b) as [cv tl fl|l1|v| |v|]; cbn [map_term leave term_operands] in *; try done.
    + by rewrite (Hv cv ltac:(apply elem_of_cons; by left) : eval (M := with_calls M c') e2' (g cv) = eval (M := with_calls M c) e2 cv).
    + by rewrite (Hv v ltac:(apply elem_of_cons; by left) : eval (M := with_calls M c') e2' (g v) = eval (M := with_calls M c) e2 v).
  - intros l' ->. split; [done|]. exists b. split; [done|]. split; [done|]. split; [done|].
    destruct (bb_term b) as [cv tl fl|l1|v| |v|]; cbn [leave branches_to] in *; try discriminate Ex.
    + injection Ex as <-. destruct (holds _); [by left|by right].
    + by injection Ex as <-.
Qed.
End simulate.

(** ** Modules *)

Lemma processFunction_reduces S F : freezable S F -> all_reachable F -> exists D g, processFunction_freeze F = Done (reduce D g F) /\ replacing F D g /\
  forall i, i ∈ all_insts F -> is_freeze i = true -> i_name i ∈ D.
Proof.
  intros H Hr. assert (Hg : replacing F [] (fun v => v)) by (split; [intros o; constructor|intros o y Hy; by apply not_elem_of_nil in Hy]).
  unfold processFunction_freeze. unfold isDeclaration. destruct (f_blocks F) as [|b bs] eqn:Eb.
  { exists [], (fun v => v). rewrite reduce_start. split; [done|]. split; [done|]. intros i Hi. unfold all_insts in Hi. rewrite Eb in Hi. by apply not_elem_of_nil in Hi. }
  clear Eb b bs.
  assert (Hl : forall y, y ∈ gatherFreezeInsts F -> exists i, i ∈ all_insts F /\ is_freeze i = true /\ i_name i = y).
  { intros y Hy. unfold gatherFreezeInsts in Hy. apply list_elem_of_In, in_map_iff in Hy as (i & Hn & Hi). apply filter_In in Hi as [Hi Hf].
    apply list_elem_of_In in Hi. by exists i. }
  destruct (remove_freezes_total S F H (gatherFreezeInsts F) Hr [] (fun v => v) Hg Hl) as (F2 & E).
  destruct (remove_freezes_reduces S F H (gatherFreezeInsts F) [] (fun v => v) F2 Hg Hl E) as (D & g & -> & Hg2 & HD). exists D, g.
  rewrite reduce_start in E. split; [exact E|]. split; [done|]. intros i Hi Hf. apply HD. left. unfold gatherFreezeInsts. apply list_elem_of_In, in_map, filter_In. by rewrite <- list_elem_of_In.
Qed.
Lemma reduced_has_no_freeze F D g : (forall i, i ∈ all_insts F -> is_freeze i = true -> i_name i ∈ D) -> existsb is_freeze (all_insts (reduce D g F)) = false.
Proof.
  intros HD. rewrite reduce_insts. apply not_true_iff_false. intros (j & Hj & Hf)%existsb_exists. apply in_map_iff in Hj as (i & <- & Hi).
  apply filter_In in Hi as [Hi Hg]. rewrite is_freeze_map in Hf. apply list_elem_of_In in Hi. specialize (HD i Hi Hf). unfold gone in Hg.
  rewrite Hf, bool_decide_true in Hg by done. done.
Qed.

Section modules.
Context {V W : Type} (M : Meaning V W) `{!Uniform M}.
Context (base : string -> list V -> W -> option (option V * W)) (slots : string -> gset string).
(** What freeze does to a value that is not undefined. *)
Context (Hfreeze : forall i v x w, i_kind i = Freeze v -> sem (Meaning := M) i [x] w = Some (x, w)).

Lemma processFunction_freeze_name F F' : processFunction_freeze F = Done F' -> f_name F' = f_name F.
Proof.
  unfold processFunction_freeze. destruct (isDeclaration F); [by intros E%Done_inj; subst|]. generalize (gatherFreezeInsts F) as ys. intros ys. revert F.
  induction ys as [|y ys IHy]; intros F E; cbn [remove_freezes] in E; [by apply Done_inj in E as <-|].
  apply obind_Done in E as (F1 & E1 & E). rewrite (IHy F1 E). unfold remove_freeze in E1. destruct (freeze_operand y F); [|by apply Done_inj in E1 as <-].
  apply obind_Done in E1 as (u & _ & E1). by apply Done_inj in E1 as <-.
Qed.
(** C22: ClamBCRemoveFreezeInsts leaves no freeze instruction, reports that all is
    preserved only if it has changed nothing, and never fails: in a function whose
    definitions dominate their uses and whose blocks can be reached no freeze is
    its own operand, directly or through others. The functions of the module
    return what they returned, with the same effects, also where freezes feed each
    other and in loops. *)
Theorem RemoveFreezeInsts_correct m : Forall (fun F => freezable (slots (f_name F)) F /\ all_reachable F) (m_functions m) ->
  exists preserved m', RemoveFreezeInsts m = Done (preserved, m') /\
    Forall (fun F => existsb is_freeze (all_insts F) = false) (m_functions m') /\
    (preserved = true -> m' = m) /\
    forall fuel g args w r, call_function M base slots fuel m g args w = Some r -> call_function M base slots fuel m' g args w = Some r.
Proof.
  intros Hm. unfold RemoveFreezeInsts.
  assert (Hp : Forall (fun F => exists D g, processFunction_freeze F = Done (reduce D g F) /\ replacing F D g /\
    forall i, i ∈ all_insts F -> is_freeze i = true -> i_name i ∈ D) (m_functions m)).
  { eapply Forall_impl; [exact Hm|]. intros F [H Hr]. by eapply processFunction_reduces. }
  destruct (mapM_out_total processFunction_freeze (m_functions m)) as (l & El).
  { intros F HF. rewrite Forall_forall in Hp. destruct (Hp F HF) as (D & g & E & _). by eexists. }
  rewrite El. cbn [obind]. eexists _, _. split; [reflexivity|]. apply mapM_out_Done in El. cbn [m_functions with_functions]. split; [|split].
  - apply Forall_forall. intros F' HF'. eapply Forall2_elem_of_r in HF' as (F & HF & E); [|exact El]. rewrite Forall_forall in Hp.
    destruct (Hp F HF) as (D & g & E' & _ & HD). change (processFunction_freeze F = Done F') in E. rewrite E' in E. apply Done_inj in E as <-. by apply reduced_has_no_freeze.
  - intros Hnone. apply negb_true_iff in Hnone. assert (l = m_functions m) as ->; [|by destruct m].
    clear Hm Hp. induction El as [|F F' fs fs' E _ IH]; [done|]. cbn [existsb] in Hnone. apply orb_false_iff in Hnone as [Hn1 Hn2].
    rewrite (IH Hn2). f_equal. unfold processFunction_freeze in E. destruct (isDeclaration F); [by apply Done_inj in E|].
    assert (gatherFreezeInsts F = []) as E0; [|rewrite E0 in E; by apply Done_inj in E].
    unfold gatherFreezeInsts. clear - Hn1. induction (all_insts F) as [|i is_ IH]; [done|]. cbn [existsb List.filter] in *. apply orb_false_iff in Hn1 as [-> Hn1]. by apply IH.
  - apply call_simulated. intros g F HF. pose proof (find_function_elem m g F HF) as Hin. rewrite Forall_forall in Hm, Hp.
    destruct (Hm F Hin) as [H Hr]. destruct (Hp F Hin) as (D & h & E & Hh & HD). exists (reduce D h F).
    assert (Hn : f_name F = g) by (unfold find_function in HF; apply List.find_some in HF as [_ HF]; by apply String.eqb_eq in HF). rewrite Hn in H.
    split; [|split; [done|split; [|by intros c c' Hc fuel b bs e w r; eapply reduced_runs]]].
    + unfold find_function in *. cbn [m_functions with_functions]. clear - El HF E. induction El as [|F0 F0' fs fs' E0 _ IH]; [done|]. cbn [List.find] in *.
      rewrite (processFunction_freeze_name F0 F0' E0).
      destruct (String.eqb (f_name F0) g); [|by apply IH]. injection HF as ->. rewrite E in E0. by apply Done_inj in E0 as <-.
    + unfold reduce. cbn [f_blocks with_blocks]. by rewrite map_map.
Qed.
End modules.

(** ** Checking the hypotheses *)

(** [avail] is the table of [ssa_check]; in [reach_check] a block has a
    predecessor among those before it. *)
Section check.
Context (avail : string -> list string) (S : gset string) (F : Function_).
Definition is_local_value (v : Value) : bool := match v with Local _ _ => true | _ => false end.
Definition freezable_inst (i : Inst) : bool :=
  match i_kind i with
  | Load _ => has_result i
  | Call callee _ _ => negb (is_local_value callee)
  | Freeze v =>
      has_result i && bool_decide (i_name i ∉ S) && bool_decide (slot_of S v = None) &&
      forallb (fun o => match o with Local y t => negb (String.eqb y (i_name i)) || bool_decide (type_of v = t) | _ => true end) (all_operands F)
  | _ => true
  end.
Definition freezable_check : bool := ssa_check avail F && forallb freezable_inst (all_insts F).
Fixpoint reach_from (seen : list string) (bs : list Block) : bool :=
  match bs with
  | [] => true
  | b :: bs =>
      existsb (fun l => match find_bb (f_blocks F) l with Some b0 => bool_decide (bb_name b ∈ targets (bb_term b0)) | None => false end) seen &&
      reach_from (bb_name b :: seen) bs
  end.
Definition reach_check : bool :=
  bool_decide (NoDup (map bb_name (f_blocks F))) && match f_blocks F with [] => true | b :: bs => reach_from [bb_name b] bs end.

Lemma copies_inst y v : copies F copy_of y v -> exists i, i ∈ all_insts F /\ i_kind i = Freeze v /\ i_name i = y.
Proof.
  intros (l & i & rest & b & Hb & (k & E) & [_ Hn] & Hc). exists i. apply (find_bb_spec F) in Hb as [Hb _]. split.
  - unfold all_insts. apply list_elem_of_In, in_flat_map. exists b. rewrite <- !list_elem_of_In. split; [done|]. rewrite E. set_solver.
  - split; [|done]. unfold copy_of in Hc. destruct (i_kind i); try done. congruence.
Qed.
Lemma freezable_check_sound : freezable_check = true -> freezable S F.
Proof.
  intros [Hs Hi]%andb_true_iff. rewrite forallb_forall in Hi.
  assert (Hf : forall y v, copies F copy_of y v -> y ∉ S /\ slot_of S v = None /\
    forall t, Local y t ∈ all_operands F -> type_of v = t).
  { intros y v (i & Hin & Ek & <-)%copies_inst. apply list_elem_of_In in Hin. specialize (Hi i Hin). unfold freezable_inst in Hi. rewrite Ek in Hi.
    rewrite !andb_true_iff, !bool_decide_eq_true, forallb_forall in Hi. destruct Hi as (((_ & H1) & H2) & H3). split; [done|]. split; [done|].
    intros t Ht. apply list_elem_of_In in Ht. specialize (H3 _ Ht). cbn in H3. rewrite String.eqb_refl in H3. by apply bool_decide_eq_true in H3. }
  split.
  - by apply (ssa_check_sound avail).
  - intros i Hin. apply list_elem_of_In in Hin. specialize (Hi i Hin). unfold freezable_inst in Hi. destruct (i_kind i); try done.
    rewrite !andb_true_iff in Hi. tauto.
  - intros y t v Ho Hc. by apply (Hf y v Hc).
  - intros i callee cc args Hin Ek x t ->. apply list_elem_of_In in Hin. specialize (Hi i Hin). unfold freezable_inst in Hi. by rewrite Ek in Hi.
  - intros y v Hc. destruct (Hf y v Hc) as (H1 & H2 & _). done.
Qed.
Lemma reachable_end l is_ : reachable F l is_ -> reachable F l [].
Proof. induction is_ as [|i is_ IH]; [done|]. intros H. apply IH. eapply free_step; [exact H|]. by intros ? _ []. Qed.
Lemma reach_check_sound : reach_check = true -> all_reachable F.
Proof.
  unfold reach_check. intros [Hn H]%andb_true_iff. apply bool_decide_eq_true in Hn.
  assert (Hfind : forall b, b ∈ f_blocks F -> find_bb (f_blocks F) (bb_name b) = Some b).
  { clear H. unfold find_bb. induction (f_blocks F) as [|c bs IH]; intros b Hb; [by apply not_elem_of_nil in Hb|].
    cbn [map] in Hn. apply NoDup_cons in Hn as [Hc Hn]. cbn [List.find]. apply elem_of_cons in Hb as [->|Hb]; [by rewrite String.eqb_refl|].
    destruct (String.eqb_spec (bb_name c) (bb_name b)) as [E|_]; [|by apply IH]. exfalso. apply Hc. rewrite E. by apply list_elem_of_fmap_2. }
  assert (Hgo : forall bs seen, (forall b, b ∈ bs -> b ∈ f_blocks F) -> (forall l, l ∈ seen -> reachable F l []) -> reach_from seen bs = true ->
    forall b, b ∈ bs -> reachable F (bb_name b) (bb_insts b)).
  { induction bs as [|b bs IH]; intros seen Hin Hseen E c Hc; [by apply not_elem_of_nil in Hc|]. cbn [reach_from] in E. apply andb_true_iff in E as [E1 E2].
    assert (Hb : reachable F (bb_name b) (bb_insts b)).
    { apply existsb_exists in E1 as (l & Hl & E1). apply list_elem_of_In in Hl. destruct (find_bb (f_blocks F) l) as [b0|] eqn:Eb0; [|done]. apply bool_decide_eq_true in E1.
      eapply free_branch; [by apply Hseen|exact Eb0| |apply Hfind, Hin, elem_of_cons; by left|by intros ? _ []].
      destruct (bb_term b0); cbn [targets branches_to] in *; try (by apply not_elem_of_nil in E1).
      - rewrite !elem_of_cons in E1. destruct E1 as [E1|[E1|E1]]; [by left|by right|by apply not_elem_of_nil in E1].
      - by apply list_elem_of_singleton in E1. }
    apply elem_of_cons in Hc as [->|Hc]; [done|]. eapply (IH (bb_name b :: seen)); [|..|exact E2|exact Hc].
    - intros d Hd. apply Hin, elem_of_cons. by right.
    - intros l [->|Hl]%elem_of_cons; [by eapply reachable_end|by apply Hseen]. }
  destruct (f_blocks F) as [|b bs] eqn:Eb; intros c Hc; rewrite Eb in Hc; [by apply not_elem_of_nil in Hc|].
  assert (Hb : reachable F (bb_name b) (bb_insts b)) by (eapply free_entry; [exact Eb|by intros ? _ []]).
  apply elem_of_cons in Hc as [->|Hc]; [done|]. eapply (Hgo bs [bb_name b]); [|..|exact H|exact Hc].
  - intros d Hd. apply elem_of_cons. by right.
  - intros l ->%list_elem_of_singleton. by eapply reachable_end.
Qed.
End check.

(** ** An example: freezes that feed each other around a loop *)

#[local] Abbreviation i32 := (TyInt 32).
Definition demo_freeze : Function_ := {|
  f_name := "count"; f_args := [("n", i32)]; f_ret := i32; f_vararg := false; f_cc := 0; f_sret := false; f_available_externally := false;
  f_intrinsic := None;
  f_blocks := [
    {| bb_name := "entry"; bb_phis := []; bb_insts := [inst "m" i32 (Freeze (Local "n" i32))]; bb_term := Jmp "loop" |};
    {| bb_name := "loop"; bb_phis := [{| phi_name := "i"; phi_type := i32; phi_incoming := [(ConstantInt 32 0, "entry"); (Local "k" i32, "loop")] |}];
       bb_insts := [
         inst "a" i32 (Freeze (Local "i" i32)); inst "b" i32 (Freeze (Local "a" i32)); inst "j" i32 (Binary Add (Local "b" i32) (ConstantInt 32 3));
         inst "k" i32 (Freeze (Local "j" i32)); inst "c" (TyInt 1) (ICmp ICMP_ULT (Local "k" i32) (Local "m" i32))];
       bb_term := Br (Local "c" (TyInt 1)) "loop" "exit" |};
    {| bb_name := "exit"; bb_phis := []; bb_insts := []; bb_term := Ret (Local "b" i32) |} ] |}.
Definition demo_freezes : Module_ := {|
  m_structs := ∅; m_globals := []; m_functions := [demo_freeze]; m_logicalsignature := None; m_virusnames := None; m_funcmin := None;
  m_funcmax := None |}.
Definition demo_avail (l : string) : list string :=
  if String.eqb l "loop" then ["m"] else if String.eqb l "exit" then ["m"; "b"] else [].
Definition demo_call_freeze (m : Module_) (n : Z) : option (option Z * unit) :=
  call_function (integer_meaning (fun _ => 0) (fun _ _ _ => None)) (fun _ _ _ => None) (fun _ => ∅) 9 m "count" [n] tt.
Definition freeze_result : Module_ := match RemoveFreezeInsts demo_freezes with Done (_, m) => m | _ => demo_freezes end.
Lemma RemoveFreezeInsts_correct_witness :
  existsb is_freeze (all_insts demo_freeze) = true /\ Forall (fun F => existsb is_freeze (all_insts F) = false) (m_functions freeze_result) /\
  demo_call_freeze demo_freezes 8 = Some (Some 6, tt) /\ demo_call_freeze freeze_result 8 = Some (Some 6, tt).
Proof.
  pose (M := integer_meaning (fun _ => 0) (fun (_ : Inst) (_ : list Z) (_ : unit) => None)).
  assert (Uniform M) by (apply integer_uniform; reflexivity).
  destruct (RemoveFreezeInsts_correct M (fun _ _ _ => None) (fun _ => ∅)) with (m := demo_freezes) as (p & m' & E & H1 & _ & H2).
  - intros i v x w Hi. cbn [M sem integer_meaning]. unfold integer_sem. now rewrite Hi.
  - constructor; [split|constructor].
    + apply (freezable_check_sound demo_avail). vm_compute. reflexivity.
    + apply reach_check_sound. vm_compute. reflexivity.
  - assert (freeze_result = m') as -> by (unfold freeze_result; rewrite E; reflexivity).
    split; [reflexivity|]. split; [exact H1|]. split; [vm_compute; reflexivity|]. apply (H2 9%nat). vm_compute. reflexivity.
Defined.
(** In a block that is never reached a freeze may be its own operand, and LLVM's
    assertion stops the compiler. *)
Definition unreached : Function_ :=
  with_blocks demo_freeze [
    {| bb_name := "entry"; bb_phis := []; bb_insts := []; bb_term := Ret (Local "n" i32) |};
    {| bb_name := "dead"; bb_phis := []; bb_insts := [inst "x" i32 (Freeze (Local "x" i32))]; bb_term := Jmp "dead" |} ].
Lemma unreached_freeze : freezable ∅ unreached /\ exists why, processFunction_freeze unreached = AssertFailed why.
Proof.
  split; [|eexists; vm_compute; reflexivity]. apply (freezable_check_sound (fun l => if String.eqb l "dead" then ["x"] else [])). vm_compute. reflexivity.
Qed.
