(* ===== verification/Typing.v ===== *)
(** * Typing: well-typed functions

    The typing rules of LLVM's instructions, as a check, and what they are for:
    in a well-typed module an integer never leaves the range of its type. The
    passes that change the widths of integers keep modules well typed. *)
From S2P Require Import Prelude IR Semantics Integers Dominance SmallPasses.
Local Open Scope string_scope.
Local Open Scope list_scope.
Local Open Scope Z_scope.

(** ** The rules *)

Definition valid_ty (t : ty) : bool := match t with TyInt w => 1 <=? w | _ => true end.
Definition same_type (v : Value) (t : ty) : bool := bool_decide (type_of v = t).
(** What a function defines, with the types. *)
Definition inst_defs (i : Inst) : list (string * ty) := if has_result i then [(i_name i, i_type i)] else [].
Definition phi_def (p : Phi) : string * ty := (phi_name p, phi_type p).
Definition typed_block_defs (b : Block) : list (string * ty) := map phi_def (bb_phis b) ++ flat_map inst_defs (bb_insts b).
Definition typed_defs (F : Function_) : list (string * ty) := f_args F ++ flat_map typed_block_defs (f_blocks F).

Section rules.
Context (m : Module_) (ret : ty) (types : list (string * ty)).
(** A value is used at the type it is defined with. *)
Definition value_typed (v : Value) : bool :=
  valid_ty (type_of v) &&
  match v with
  | Local z t => bool_decide ((z, t) ∈ types)
  | FunctionValue f t => match find_function m f with Some G => bool_decide (t = TyPtr (f_type G)) | None => false end
  | _ => true
  end.
Definition cast_typed (op : castop) (t t' : ty) : bool :=
  match op, t, t' with
  | Trunc, TyInt w, TyInt w' => w' <? w
  | (SExt | ZExt), TyInt w, TyInt w' => w <? w'
  | PtrToInt, TyPtr _, TyInt _ | IntToPtr, TyInt _, TyPtr _ => true
  | BitCast, TyInt w, TyInt w' => w =? w'
  | BitCast, TyPtr _, TyPtr _ => true
  | OtherCast, _, _ => true
  | _, _, _ => false
  end.
Definition call_typed (callee : Value) (args : list Value) (t : ty) : bool :=
  match type_of callee with
  | TyPtr (TyFun r ps va) => bool_decide (r = t) && (if va then bool_decide (ps `prefix_of` map type_of args) else bool_decide (ps = map type_of args))
  | _ => false
  end.
Definition inst_typed (i : Inst) : bool :=
  let t := i_type i in
  valid_ty t && forallb value_typed (operands (i_kind i)) &&
  match i_kind i with
  | Alloca t0 _ => bool_decide (t = TyPtr t0)
  | Load p => same_type p (TyPtr t)
  | Store v p => bool_decide (t = TyVoid) && same_type p (TyPtr (type_of v))
  | Binary _ a b => same_type a t && same_type b t
  | Cast op v => cast_typed op (type_of v) t
  | ICmp _ a b => bool_decide (t = TyInt 1) && same_type a (type_of b)
  | Select c a b => same_type c (TyInt 1) && same_type a t && same_type b t
  | Call callee _ args => call_typed callee args t
  | Freeze v => same_type v t
  | _ => true
  end.
Definition phi_typed (p : Phi) : bool :=
  valid_ty (phi_type p) && forallb (fun inc : Value * string => value_typed (fst inc) && same_type (fst inc) (phi_type p)) (phi_incoming p).
Definition term_typed (t : Term) : bool :=
  forallb value_typed (term_operands t) &&
  match t with Br c _ _ => same_type c (TyInt 1) | Ret v => same_type v ret | RetVoid => bool_decide (ret = TyVoid) | _ => true end.
Definition block_typed (b : Block) : bool := forallb phi_typed (bb_phis b) && forallb inst_typed (bb_insts b) && term_typed (bb_term b).
End rules.
(** Phi nodes are about blocks of the function. *)
Definition labels_known (F : Function_) : bool :=
  bool_decide (NoDup (map bb_name (f_blocks F))) &&
  forallb (fun p => forallb (fun inc : Value * string => bool_decide (snd inc ∈ map bb_name (f_blocks F))) (phi_incoming p)) (flat_map bb_phis (f_blocks F)).
Definition function_typed (m : Module_) (F : Function_) : bool :=
  isDeclaration F ||
  labels_known F && bool_decide (NoDup (map fst (typed_defs F))) && forallb (fun a : string * ty => valid_ty (snd a)) (f_args F) &&
  forallb (block_typed m (f_ret F) (typed_defs F)) (f_blocks F).
Definition module_typed (m : Module_) : bool := forallb (function_typed m) (m_functions m).

(** ** Integers stay in range *)

Definition in_ty (t : ty) (x : Z) : Prop := match t with TyInt w => in_u w x | _ => True end.
Definition args_in (F : Function_) (args : list Z) : Prop :=
  forall k t x, map snd (f_args F) !! k = Some t -> args !! k = Some x -> in_ty t x.
Definition result_in (t : ty) (v : option Z) : Prop := forall x, v = Some x -> in_ty t x.
Definition env_in (types : list (string * ty)) (e : gmap string Z) : Prop := forall z t x, (z, t) ∈ types -> e !! z = Some x -> in_ty t x.

Lemma in_u_zero w : 0 <= w -> in_u w 0.
Proof. unfold in_u. intros Hw. by pose proof (pow2_pos w Hw). Qed.
Lemma in_ty_zero t : valid_ty t = true -> in_ty t 0.
Proof. destruct t; try done. cbn [valid_ty in_ty]. intros H%Z.leb_le. apply in_u_zero. lia. Qed.
Lemma in_u_bits w x : 0 <= w -> 0 <= x -> (forall k, w <= k -> Z.testbit x k = false) -> in_u w x.
Proof.
  intros Hw Hx H. assert (x mod 2 ^ w = x) as <-; [|by apply wrap_range]. apply Z.bits_inj'. intros k Hk.
  destruct (Z.lt_ge_cases k w); [by rewrite Z.mod_pow2_bits_low|]. rewrite Z.mod_pow2_bits_high by lia. symmetry. by apply H.
Qed.
Lemma bits_in_u w x k : 0 <= w -> in_u w x -> w <= k -> Z.testbit x k = false.
Proof. intros Hw Hx Hk. rewrite <- (wrap_small w x Hx). unfold wrap. apply Z.mod_pow2_bits_high. lia. Qed.
Lemma binary_in op w x y r : 1 <= w -> binary_value op w x y = Some r -> in_u w r.
Proof.
  intros Hw. unfold binary_value. pose proof (wrap_range w x ltac:(lia)) as Hx. pose proof (wrap_range w y ltac:(lia)) as Hy.
  assert (Hwrap : forall z, Some (wrap w z) = Some r -> in_u w r) by (intros z [= <-]; apply wrap_range; lia).
  assert (Hbits : forall f, (forall a b k, Z.testbit (f a b) k = true -> Z.testbit a k || Z.testbit b k = true) ->
    (forall a b, 0 <= a -> 0 <= b -> 0 <= f a b) -> in_u w (f (wrap w x) (wrap w y))).
  { intros f Hf Hp. apply in_u_bits; [lia|apply Hp; [apply Hx|apply Hy]|]. intros k Hk. apply not_true_iff_false. intros H%Hf.
    by rewrite !(bits_in_u w) in H by first [done|lia]. }
  destruct op; try (by apply Hwrap); try done.
  - destruct (_ =? 0) eqn:E; [done|]. intros [= <-]. apply Z.eqb_neq in E. unfold in_u in *. split; [apply Z.div_pos; lia|].
    eapply Z.le_lt_trans; [|apply Hx]. apply Z.div_le_upper_bound; nia.
  - destruct (_ =? 0); [done|]. by apply Hwrap.
  - destruct (_ =? 0) eqn:E; [done|]. intros [= <-]. apply Z.eqb_neq in E. unfold in_u in *. pose proof (Z.mod_pos_bound (wrap w x) (wrap w y) ltac:(lia)). lia.
  - destruct (_ =? 0); [done|]. by apply Hwrap.
  - destruct (_ <? w); [by apply Hwrap|done].
  - destruct (_ <? w); [|done]. intros [= <-]. rewrite Z.shiftr_div_pow2 by apply Hy. unfold in_u in *. split; [apply Z.div_pos; [apply Hx|apply Z.pow_pos_nonneg; lia]|].
    eapply Z.le_lt_trans; [|apply Hx]. pose proof (Z.pow_pos_nonneg 2 (wrap w y) ltac:(lia) ltac:(lia)). apply Z.div_le_upper_bound; nia.
  - destruct (_ <? w); [by apply Hwrap|done].
  - intros [= <-]. apply Hbits; [|intros; by apply Z.land_nonneg; left]. intros a b k. rewrite Z.land_spec. by destruct (Z.testbit a k).
  - intros [= <-]. apply Hbits; [|intros; by apply Z.lor_nonneg]. intros a b k. by rewrite Z.lor_spec.
  - intros [= <-]. apply Hbits; [|intros; apply Z.lxor_nonneg; lia]. intros a b k. rewrite Z.lxor_spec. by destruct (Z.testbit a k), (Z.testbit b k).
Qed.
Lemma cast_in op t t' w w' x r : valid_ty t' = true -> cast_typed op t t' = true -> width t = Some w -> width t' = Some w' ->
  in_ty t x -> cast_value op w w' x = Some r -> in_ty t' r.
Proof.
  destruct t' as [|n'| | | | | |]; try done. cbn [valid_ty width in_ty]. intros Hv%Z.leb_le Hc Hw [= <-] Hx.
  assert (Hwrap : forall z, Some (wrap n' z) = Some r -> in_u n' r) by (intros z [= <-]; apply wrap_range; lia).
  destruct op; cbn [cast_value]; try (by apply Hwrap); try done; destruct t as [|n| | | | | |]; try done; cbn [cast_typed width in_ty] in *; injection Hw as <-.
  - apply Z.ltb_lt in Hc. intros [= <-]. rewrite wrap_small by done. unfold in_u in *. pose proof (Z.pow_le_mono_r 2 n n' ltac:(lia) ltac:(lia)). lia.
  - apply Z.eqb_eq in Hc as ->. by intros [= <-].
Qed.

(** ** What typed functions have *)

Lemma forallb_elem {A} (f : A -> bool) l x : forallb f l = true -> x ∈ l -> f x = true.
Proof. rewrite forallb_forall. intros H Hx. by apply H, list_elem_of_In. Qed.
Record typed_facts (m : Module_) (F : Function_) : Prop := {
  ty_blocks : NoDup (map bb_name (f_blocks F));
  ty_labels b p v l : b ∈ f_blocks F -> p ∈ bb_phis b -> (v, l) ∈ phi_incoming p -> l ∈ map bb_name (f_blocks F);
  ty_unique : NoDup (map fst (typed_defs F));
  ty_args a : a ∈ f_args F -> valid_ty (snd a) = true;
  ty_phis b p : b ∈ f_blocks F -> p ∈ bb_phis b -> phi_typed m (typed_defs F) p = true;
  ty_insts b i : b ∈ f_blocks F -> i ∈ bb_insts b -> inst_typed m (typed_defs F) i = true;
  ty_term b : b ∈ f_blocks F -> term_typed m (f_ret F) (typed_defs F) (bb_term b) = true
}.
Lemma labels_known_spec F : labels_known F = true <-> NoDup (map bb_name (f_blocks F)) /\
  forall b p v l, b ∈ f_blocks F -> p ∈ bb_phis b -> (v, l) ∈ phi_incoming p -> l ∈ map bb_name (f_blocks F).
Proof.
  unfold labels_known. rewrite andb_true_iff, bool_decide_eq_true, forallb_forall. split; intros [Hn H]; (split; [done|]).
  - intros b p v l Hb Hp Hv. assert (Hin : In p (flat_map bb_phis (f_blocks F))) by (apply list_elem_of_In, elem_of_flat_map; by exists b).
    specialize (H p Hin). apply (forallb_elem _ _ (v, l)) in H; [|done]. by apply bool_decide_eq_true in H.
  - intros p Hp. apply list_elem_of_In, elem_of_flat_map in Hp as (b & Hb & Hp). apply forallb_forall. intros [v l] Hv. apply bool_decide_eq_true. cbn [snd].
    eapply H; [exact Hb|exact Hp|by apply list_elem_of_In].
Qed.
Lemma function_typed_facts m F : isDeclaration F = false -> function_typed m F = true <-> typed_facts m F.
Proof.
  intros Hd. unfold function_typed. rewrite Hd. cbn [orb]. rewrite !andb_true_iff, bool_decide_eq_true, labels_known_spec, !forallb_forall. split.
  - intros ((([K1 K2] & H1) & H2) & H3). unfold block_typed in H3.
    assert (H : forall b, b ∈ f_blocks F -> forallb (phi_typed m (typed_defs F)) (bb_phis b) = true /\ forallb (inst_typed m (typed_defs F)) (bb_insts b) = true /\
      term_typed m (f_ret F) (typed_defs F) (bb_term b) = true).
    { intros b Hb. apply list_elem_of_In in Hb. specialize (H3 b Hb). rewrite !andb_true_iff in H3. tauto. }
    split; [done|done|done|..].
    + intros a Ha. by apply H2, list_elem_of_In.
    + intros b p Hb. apply forallb_elem. by apply H.
    + intros b i Hb. apply forallb_elem. by apply H.
    + intros b Hb. by apply H.
  - intros [K1 K2 H1 H2 H3 H4 H5]. split; [split; [done|]|].
    + intros a Ha. by apply H2, list_elem_of_In.
    + intros b Hb. apply list_elem_of_In in Hb. unfold block_typed. rewrite !andb_true_iff, !forallb_forall. split; [split|by apply H5].
      * intros p Hp. apply (H3 b); [done|by apply list_elem_of_In].
      * intros i Hi. apply (H4 b); [done|by apply list_elem_of_In].
Qed.
Lemma inst_not_declared F b : b ∈ f_blocks F -> isDeclaration F = false.
Proof. unfold isDeclaration. destruct (f_blocks F); [by intros H%not_elem_of_nil|done]. Qed.
Lemma typed_once (types : list (string * ty)) z t t' : NoDup (map fst types) -> (z, t) ∈ types -> (z, t') ∈ types -> t = t'.
Proof.
  induction types as [|[y u] types IH]; intros Hn H1 H2; [by apply not_elem_of_nil in H1|]. cbn [map fst] in Hn. apply NoDup_cons in Hn as [Hy Hn].
  assert (Hno : forall v, (y, v) ∉ types) by (intros v Hv; apply Hy; by apply (list_elem_of_fmap_2 fst) in Hv).
  apply elem_of_cons in H1 as [H1|H1], H2 as [H2|H2]; [congruence|injection H1 as -> ->; by apply Hno in H2|injection H2 as -> ->; by apply Hno in H1|by apply IH].
Qed.
Lemma phi_def_in F b p : b ∈ f_blocks F -> p ∈ bb_phis b -> phi_def p ∈ typed_defs F.
Proof.
  intros Hb Hp. apply elem_of_app. right. apply elem_of_flat_map. exists b. split; [done|].
  apply elem_of_app. left. by apply (list_elem_of_fmap_2 phi_def).
Qed.
Lemma inst_def_in F b i : b ∈ f_blocks F -> i ∈ bb_insts b -> has_result i = true -> (i_name i, i_type i) ∈ typed_defs F.
Proof.
  intros Hb Hi Hr. apply elem_of_app. right. apply elem_of_flat_map. exists b. split; [done|].
  apply elem_of_app. right. apply elem_of_flat_map. exists i. split; [done|]. unfold inst_defs. rewrite Hr. by left.
Qed.
Lemma env_in_write types e x t v : NoDup (map fst types) -> env_in types e -> (x, t) ∈ types -> in_ty t v -> env_in types (<[x := v]> e).
Proof.
  intros Hn He Hx Hv z u y Hz Hy. destruct (decide (x = z)) as [<-|Hne]; [|rewrite lookup_insert_ne in Hy by done; by eapply He].
  rewrite lookup_insert_eq in Hy. injection Hy as <-. by rewrite <- (typed_once types x t u).
Qed.

(** ** Soundness *)

Section soundness.
Context {W : Type} (address_of : Value -> Z) (other : Inst -> list Z -> W -> option (Z * W)).
Abbreviation M := (integer_meaning address_of other).
(** Constants that are no numbers, and the other instructions. *)
Context (Haddr : forall v, valid_ty (type_of v) = true -> in_ty (type_of v) (address_of v)).
Context (Hother : forall i vs w x w', other i vs w = Some (x, w') -> in_ty (i_type i) x).
Context (m : Module_).
(** Calls of the functions of the module stay in range. *)
Definition calls_in (c : string -> list Z -> W -> option (option Z * W)) : Prop :=
  forall g G args w v w', find_function m g = Some G -> args_in G args -> c g args w = Some (v, w') -> result_in (f_ret G) v.

Section one_function.
Context (F : Function_) (Htyped : typed_facts m F) (c : string -> list Z -> W -> option (option Z * W)) (Hc : calls_in c).
Abbreviation types := (typed_defs F).

Lemma eval_in e v : env_in types e -> value_typed m types v = true -> in_ty (type_of v) (eval (M := M) e v).
Proof.
  intros He [Ht Hv]%andb_true_iff. destruct v; cbn [eval constant_meaning integer_meaning constant_value]; try (by apply Haddr).
  - apply bool_decide_eq_true in Hv. cbn [type_of] in *. destruct (e !! x) as [y|] eqn:Ey; cbn [default]; [by eapply He|by apply in_ty_zero].
  - cbn [type_of valid_ty in_ty] in *. apply Z.leb_le in Ht. apply wrap_range. lia.
Qed.
Lemma args_in_operands e h t r ps va G args x : find_function m h = Some G -> t = TyPtr (f_type G) -> t = TyPtr (TyFun r ps va) ->
  (if va then bool_decide (ps `prefix_of` map type_of args) else bool_decide (ps = map type_of args)) = true ->
  env_in types e -> forallb (value_typed m types) (args ++ x) = true -> args_in G (map (eval (M := M) e) args).
Proof.
  intros HG -> E Hp He Hargs k u y Hk Hy. unfold f_type in E. injection E as E1 E2 E3.
  rewrite list_lookup_fmap in Hy. destruct (args !! k) as [a|] eqn:Ea; [|done]. injection Hy as <-.
  assert (Hu : type_of a = u).
  { assert (map type_of args !! k = Some (type_of a)) as Hka by (rewrite list_lookup_fmap, Ea; done). rewrite E2 in Hk.
    destruct va; apply bool_decide_eq_true in Hp; [destruct Hp as (l & Hp)|]; rewrite Hp in Hka || rewrite Hp in Hk.
    - rewrite lookup_app_l in Hka by (by eapply lookup_lt_Some). congruence.
    - congruence. }
  rewrite <- Hu. apply eval_in; [done|]. eapply forallb_elem; [exact Hargs|]. apply elem_of_app. left. by eapply list_elem_of_lookup_2.
Qed.
Lemma sem_in i e w x w' : inst_typed m types i = true -> env_in types e ->
  sem (Meaning := with_calls M c) i (map (eval (M := M) e) (operands (i_kind i))) w = Some (x, w') -> in_ty (i_type i) x.
Proof.
  unfold inst_typed. rewrite !andb_true_iff. intros ((Ht & Hops) & Hk) He.
  assert (Hv : forall v, v ∈ operands (i_kind i) -> in_ty (type_of v) (eval (M := M) e v)) by (intros v Hv; apply eval_in; [done|by eapply forallb_elem]).
  cbn [sem with_calls integer_meaning]. unfold integer_sem. destruct (i_kind i) as [t n|p|v p|inb p l|op a b|op v|pr a b|k a b|callee cc args| |v|args] eqn:Ek;
    cbn [operands map] in *; try (by apply Hother).
  - apply andb_true_iff in Hk as [Ha _]. apply bool_decide_eq_true in Ha. rewrite Ha. destruct (i_type i) as [|n| | | | | |] eqn:Et; try done. cbn [width mbind option_bind].
    intros (r & Hr & [= <- <-])%bind_Some. cbn [valid_ty in_ty] in *. apply Z.leb_le in Ht. by eapply binary_in.
  - intros (n & Hn & (n' & Hn' & (r & Hr & [= <- <-])%bind_Some)%bind_Some)%bind_Some. eapply cast_in; [exact Ht|exact Hk|exact Hn|exact Hn'| |exact Hr].
    apply Hv, list_elem_of_singleton. done.
  - apply andb_true_iff in Hk as [Hi _]. apply bool_decide_eq_true in Hi. rewrite Hi. intros (n & Hn & [= <- <-])%bind_Some. cbn [in_ty]. unfold in_u.
    destruct (icmp_value _ _ _ _); lia.
  - rewrite !andb_true_iff in Hk. destruct Hk as ((_ & Ha) & Hb). apply bool_decide_eq_true in Ha, Hb. intros [= <- <-].
    destruct (_ =? 0); [rewrite <- Hb|rewrite <- Ha]; apply Hv; set_solver.
  - assert (Hcallee : value_typed m types callee = true) by (eapply forallb_elem; [exact Hops|set_solver]).
    unfold call_typed in Hk. destruct callee as [|?|?|h t| | | | | | | | |]; try (by apply Hother).
    unfold value_typed in Hcallee. apply andb_true_iff in Hcallee as [_ Hcallee]. destruct (find_function m h) as [G|] eqn:EG; [|done].
    apply bool_decide_eq_true in Hcallee. cbn [type_of] in Hk. destruct t as [| | |t| | | |]; try done. destruct t as [| | | | | | |r ps va]; try done.
    apply andb_true_iff in Hk as [Hr Hp]. apply bool_decide_eq_true in Hr.
    rewrite map_app, firstn_app, length_map, Nat.sub_diag, firstn_O, app_nil_r. rewrite firstn_all2 by (by rewrite length_map).
    intros ([v w1] & E & [= <- <-])%bind_Some. unfold f_type in Hcallee. injection Hcallee as H1 H2 H3.
    assert (Hin : result_in (f_ret G) v) by (eapply (Hc h G); [done| |exact E]; eapply (args_in_operands e h _ r ps va); [exact EG|reflexivity|unfold f_type; congruence|exact Hp|exact He|exact Hops]).
    destruct v as [v|]; cbn [default]; [rewrite <- Hr, H1; by apply Hin|]. by apply in_ty_zero.
  - apply bool_decide_eq_true in Hk. rewrite <- Hk. intros [= <- <-]. apply Hv, list_elem_of_singleton. done.
Qed.
Lemma exec_inst_in b i e mem w e1 m1 w1 : b ∈ f_blocks F -> i ∈ bb_insts b -> env_in types e ->
  exec_inst (M := with_calls M c) ∅ i (e, mem, w) = Some (e1, m1, w1) -> env_in types e1 /\ m1 = mem.
Proof.
  intros Hb Hi He. rewrite exec_inst_no_slots. intros ([v w'] & E & [= <- <- <-])%bind_Some. split; [|done]. pose proof (ty_insts m F Htyped b i Hb Hi) as Ht.
  pose proof (sem_in i e w v w' Ht He E) as Hv. pose proof (inst_def_in F b i Hb Hi) as Hd. unfold has_result in Hd.
  destruct (i_type i) eqn:Et; [done|..]; (eapply env_in_write; [apply (ty_unique m F Htyped)|done|by apply Hd|done]).
Qed.
Lemma exec_insts_in b l e mem w e1 m1 w1 : b ∈ f_blocks F -> (forall i, i ∈ l -> i ∈ bb_insts b) -> env_in types e ->
  exec_insts (M := with_calls M c) ∅ l (e, mem, w) = Some (e1, m1, w1) -> env_in types e1 /\ m1 = mem.
Proof.
  intros Hb. revert e w. induction l as [|i l IH]; intros e w Hl He; cbn [exec_insts]; [by intros [= <- <- <-]|].
  intros ([[e2 m2] w2] & E1 & E)%bind_Some. destruct (exec_inst_in b i e mem w e2 m2 w2 Hb (Hl i ltac:(by left)) He E1) as [He2 ->].
  eapply IH; [|exact He2|exact E]. intros j Hj. apply Hl. by right.
Qed.
Lemma enter_in b pred e e1 : b ∈ f_blocks F -> env_in types e -> enter (M := M) e pred (bb_phis b) = Some e1 -> env_in types e1.
Proof.
  intros Hb He. assert (Hsub : forall p, p ∈ bb_phis b -> p ∈ bb_phis b) by done. revert e1 Hsub. generalize (bb_phis b) at 1 3 as ps.
  induction ps as [|p ps IH]; intros e1 Hsub E; cbn [enter] in E; [by injection E as <-|].
  apply bind_Some in E as (l0 & -> & E). apply bind_Some in E as (v & Ev & E). apply bind_Some in E as (e2 & E2 & E). injection E as <-.
  pose proof (ty_phis m F Htyped b p Hb (Hsub p ltac:(by left))) as Hp. unfold phi_typed in Hp. apply andb_true_iff in Hp as [_ Hp].
  eapply env_in_write; [apply (ty_unique m F Htyped)|apply IH; [|done]; intros q Hq; apply Hsub; by right|apply (phi_def_in F b p Hb), Hsub; by left|].
  unfold incoming in Ev. destruct (List.find _ (phi_incoming p)) as [[u q]|] eqn:Ef; [|done]. injection Ev as ->. apply List.find_some in Ef as [Ef _].
  apply list_elem_of_In in Ef. pose proof (forallb_elem _ _ _ Hp Ef) as [H1 H2]%andb_true_iff. cbn [fst] in *. apply bool_decide_eq_true in H2. rewrite <- H2. by apply eval_in.
Qed.
Lemma run_blocks_in fuel l pred e w v w' : env_in types e ->
  run_blocks (M := with_calls M c) ∅ fuel (f_blocks F) l pred (e, ∅, w) = Some (v, w') -> result_in (f_ret F) v.
Proof.
  revert l pred e w. induction fuel as [|fuel IH]; intros l pred e w He; [done|]. cbn [run_blocks]. intros (b & Eb & E)%bind_Some.
  apply (find_bb_spec F) in Eb as [Hb _]. apply bind_Some in E as (e1 & E1 & E). apply bind_Some in E as ([[e2 m2] w2] & E2 & E). apply bind_Some in E as (x & Ex & E).
  pose proof (enter_in b pred e e1 Hb He E1) as He1. destruct (exec_insts_in b (bb_insts b) e1 ∅ w e2 m2 w2 Hb ltac:(done) He1 E2) as [He2 ->].
  destruct x as [l'|u]; [by eapply IH|]. injection E as -> ->. pose proof (ty_term m F Htyped b Hb) as Ht. unfold term_typed in Ht. apply andb_true_iff in Ht as [Ho Ht].
  destruct (bb_term b) as [cv tl fl|l1|rv| |sv|]; try discriminate Ex; cbn [leave term_operands] in *; injection Ex as <-; [|by intros ? ?].
  intros y [= <-]. apply bool_decide_eq_true in Ht. rewrite <- Ht. apply (eval_in e2 rv); [done|]. eapply forallb_elem; [exact Ho|]. by left.
Qed.
(** A call passes arguments in range. *)
Lemma call_args_in i h t cc args e : inst_typed m types i = true -> i_kind i = Call (FunctionValue h t) cc args -> env_in types e ->
  exists G, find_function m h = Some G /\ args_in G (map (eval (M := M) e) args).
Proof.
  unfold inst_typed. rewrite !andb_true_iff. intros ((_ & Hops) & Hk) Ek He. rewrite Ek in Hk, Hops. cbn [operands] in Hops.
  assert (Hcallee : value_typed m types (FunctionValue h t) = true) by (eapply forallb_elem; [exact Hops|set_solver]).
  unfold value_typed in Hcallee. apply andb_true_iff in Hcallee as [_ Hcallee]. destruct (find_function m h) as [G|] eqn:EG; [|done]. apply bool_decide_eq_true in Hcallee.
  exists G. split; [done|]. unfold call_typed in Hk. cbn [type_of] in Hk. destruct t as [| | |t| | | |]; try done. destruct t as [| | | | | | |r ps va]; try done.
  apply andb_true_iff in Hk as [_ Hk]. eapply (args_in_operands e h _ r ps va G); [exact EG|exact Hcallee|done|exact Hk|exact He|exact Hops].
Qed.
(** Functions called that do more let a function do more. *)
Section follow.
Context (c' : string -> list Z -> W -> option (option Z * W)).
Context (Hfollow : forall h G args w r, find_function m h = Some G -> args_in G args -> c h args w = Some r -> c' h args w = Some r).
Lemma exec_inst_follows i e mem w s : inst_typed m types i = true -> env_in types e ->
  exec_inst (M := with_calls M c) ∅ i (e, mem, w) = Some s -> exec_inst (M := with_calls M c') ∅ i (e, mem, w) = Some s.
Proof.
  intros Hi He. rewrite !exec_inst_no_slots. intros ([v w'] & E & E')%bind_Some. apply bind_Some. exists (v, w'). split; [|exact E'].
  change (map (eval (M := with_calls M c') e)) with (map (eval (M := M) e)). change (map (eval (M := with_calls M c) e)) with (map (eval (M := M) e)) in E.
  cbn [sem with_calls] in *. destruct (i_kind i) as [| | | | | | | |callee cc args| | |] eqn:Ek; try exact E. destruct callee as [| | |h t| | | | | | | | |]; try exact E.
  destruct (call_args_in i h t cc args e Hi Ek He) as (G & HG & Ha). cbn [operands] in *.
  rewrite map_app, firstn_app, length_map, Nat.sub_diag, firstn_O, app_nil_r, firstn_all2 in * by (by rewrite length_map).
  apply bind_Some in E as (r & E & E2). apply bind_Some. exists r. split; [by eapply Hfollow|exact E2].
Qed.
Lemma exec_insts_follow b l e mem w s : b ∈ f_blocks F -> (forall i, i ∈ l -> i ∈ bb_insts b) -> env_in types e ->
  exec_insts (M := with_calls M c) ∅ l (e, mem, w) = Some s -> exec_insts (M := with_calls M c') ∅ l (e, mem, w) = Some s.
Proof.
  intros Hb. revert e mem w. induction l as [|i l IH]; intros e mem w Hl He; [done|]. cbn [exec_insts]. intros ([[e1 m1] w1] & E1 & E)%bind_Some.
  assert (Hi : i ∈ bb_insts b) by (apply Hl; by left). rewrite (exec_inst_follows i e mem w _ (ty_insts m F Htyped b i Hb Hi) He E1). cbn [mbind option_bind].
  destruct (exec_inst_in b i e mem w e1 m1 w1 Hb Hi He E1) as [He1 _]. apply IH; [|done|exact E]. intros j Hj. apply Hl. by right.
Qed.
Lemma run_follows fuel l pred e mem w r : env_in types e ->
  run_blocks (M := with_calls M c) ∅ fuel (f_blocks F) l pred (e, mem, w) = Some r ->
  run_blocks (M := with_calls M c') ∅ fuel (f_blocks F) l pred (e, mem, w) = Some r.
Proof.
  intros He. apply (run_blocks_simulated _ _ ∅ (f_blocks F) (f_blocks F) (fun _ _ e e' => e' = e /\ env_in types e)); [|done].
  clear fuel l pred e mem w r He. intros pred l e e' b [-> He] Eb. exists b. split; [done|]. apply (find_bb_spec F) in Eb as [Hb _].
  intros mem w e1 e2 m2 w2 x E1 E2 Ex. pose proof (enter_in b pred e e1 Hb He E1) as He1. exists e1, e2. split; [exact E1|].
  destruct (exec_insts_in b (bb_insts b) e1 mem w e2 m2 w2 Hb ltac:(done) He1 E2) as [He2 _]. split; [|split; [exact Ex|done]].
  by eapply exec_insts_follow.
Qed.
End follow.
Lemma zip_map_lookup {B} (l : list string) (xs : list B) z x : (list_to_map (zip l xs) : gmap string B) !! z = Some x -> exists k, l !! k = Some z /\ xs !! k = Some x.
Proof.
  revert xs. induction l as [|y l IH]; intros [|a xs]; cbn [zip zip_with list_to_map foldr fst snd]; try (by rewrite lookup_empty).
  destruct (decide (y = z)) as [<-|Hne].
  - rewrite lookup_insert_eq. intros [= <-]. by exists O.
  - rewrite lookup_insert_ne by done. intros (k & Hk)%IH. by exists (Datatypes.S k).
Qed.
Lemma initial_env_in args : args_in F args -> env_in types (list_to_map (zip (map fst (f_args F)) args)).
Proof.
  intros Ha z t x Hz (k & Hk & Hx)%zip_map_lookup. rewrite list_lookup_fmap in Hk. destruct (f_args F !! k) as [[y u]|] eqn:Ek; [|done]. injection Hk as ->.
  assert (u = t) as <-.
  { eapply (typed_once types); [apply (ty_unique m F Htyped)| |exact Hz]. apply elem_of_app. left. by eapply list_elem_of_lookup_2. }
  eapply (Ha k); [|done]. by rewrite list_lookup_fmap, Ek.
Qed.
End one_function.

(** What a typed module returns is in the range of its type. *)
Context (base : string -> list Z -> W -> option (option Z * W)).
Context (Hm : module_typed m = true).
Context (Hbase : forall g G args w v w', find_function m g = Some G -> f_blocks G = [] -> base g args w = Some (v, w') -> result_in (f_ret G) v).
Lemma calls_stay_in fuel : calls_in (call_function M base (fun _ => ∅) fuel m).
Proof.
  induction fuel as [|fuel IH]; intros g G args w v w' HG Ha; [done|]. cbn [call_function]. rewrite HG. cbn [mbind option_bind].
  destruct (f_blocks G) as [|b bs] eqn:Eb; [by apply Hbase|]. rewrite <- Eb.
  assert (HF : typed_facts m G) by (apply function_typed_facts; [by unfold isDeclaration; rewrite Eb|eapply forallb_elem; [exact Hm|by eapply find_function_elem]]).
  eapply (run_blocks_in G HF); [exact IH|by apply initial_env_in].
Qed.
End soundness.

(** ** Modules with more functions *)

Section signatures.
Context (m m' : Module_) (Hmore : forall f G, find_function m f = Some G -> exists G', find_function m' f = Some G' /\ f_type G' = f_type G).
Lemma value_typed_more T v : value_typed m T v = true -> value_typed m' T v = true.
Proof.
  unfold value_typed. rewrite !andb_true_iff. intros [H1 H2]. split; [done|]. destruct v as [| | |f t| | | | | | | | |]; try done.
  destruct (find_function m f) as [G|] eqn:EG; [|done]. by destruct (Hmore f G EG) as (G' & -> & ->).
Qed.
Lemma forallb_more {A} (f f' : A -> bool) l : (forall x, f x = true -> f' x = true) -> forallb f l = true -> forallb f' l = true.
Proof. intros E. rewrite !forallb_forall. intros H x Hx. by apply E, H. Qed.
Lemma inst_typed_more T i : inst_typed m T i = true -> inst_typed m' T i = true.
Proof. unfold inst_typed. rewrite !andb_true_iff. intros ((H1 & H2) & H3). split; [split; [done|]|done]. by eapply forallb_more, H2; intros v; apply value_typed_more. Qed.
Lemma function_typed_more F : function_typed m F = true -> function_typed m' F = true.
Proof.
  unfold function_typed. destruct (isDeclaration F); [done|]. cbn [orb]. rewrite !andb_true_iff. intros (H1 & H2). split; [done|]. revert H2. apply forallb_more. intros b. unfold block_typed. rewrite !andb_true_iff.
  intros ((H2 & H3) & H4). split; [split|].
  - revert H2. apply forallb_more. intros p. unfold phi_typed. rewrite !andb_true_iff. intros [H5 H6]. split; [done|]. revert H6. apply forallb_more.
    intros x. rewrite !andb_true_iff. intros [H7 H8]. split; [by apply value_typed_more|done].
  - revert H3. apply forallb_more, inst_typed_more.
  - unfold term_typed in *. rewrite !andb_true_iff in *. destruct H4 as [H4 H5]. split; [|done]. revert H4. apply forallb_more. intros v. apply value_typed_more.
Qed.
End signatures.
