(* ===== verification/ExtendPHIs.v ===== *)
(** * ExtendPHIs: phi nodes of 64 bits

    libclambcc/ClamBCExtendPHIsTo64Bit.cpp: libclamav keeps phi nodes in 64 bits,
    so each integer phi node of another width is replaced by one of 64 bits,
    which gets its values sign extended at the end of the blocks they come from
    and is cast back at the start of its own block. What is replaced has the
    value it had, as long as it fits 64 bits; the function stays well typed. *)
From S2P Require Import Prelude IR Semantics Integers Dominance SmallPasses Typing.
Local Open Scope string_scope.
Local Open Scope list_scope.
Local Open Scope Z_scope.

(** ** The pass *)

Abbreviation i64 := (TyInt 64).
Definition with_phis (b : Block) (ps : list Phi) : Block :=
  {| bb_name := bb_name b; bb_phis := ps; bb_insts := bb_insts b; bb_term := bb_term b |}.
Definition map_blocks (f : Block -> Block) (F : Function_) : Function_ := with_blocks F (map f (f_blocks F)).
Definition is_phi_of (y : string) (p : Phi) : bool := String.eqb (phi_name p) y.
Definition has_phi (y : string) (b : Block) : bool := existsb (is_phi_of y) (bb_phis b).
Definition all_phis (F : Function_) : list Phi := flat_map bb_phis (f_blocks F).
Definition find_phi (y : string) (F : Function_) : option Phi := List.find (is_phi_of y) (all_phis F).
(** PHINode::Create(..., pn): in front of [y]. *)
Definition insert_phi (n : Phi) (y : string) (b : Block) : Block :=
  with_phis b (flat_map (fun p => if is_phi_of y p then [n; p] else [p]) (bb_phis b)).
Definition addIncoming (n : string) (inc : Value * string) (b : Block) : Block :=
  with_phis b (map (fun p => if is_phi_of n p
    then {| phi_name := phi_name p; phi_type := phi_type p; phi_incoming := phi_incoming p ++ [inc] |} else p) (bb_phis b)).
(** CastInst::CreateIntegerCast, signed *)
Definition CreateIntegerCast (w w' : Z) (v : Value) : inst_kind :=
  Cast (if w =? w' then BitCast else if w' <? w then Trunc else SExt) v.
(** In front of the terminator. *)
Definition append_inst (i : Inst) (b : Block) : Block := with_insts b (bb_insts b ++ [i]).
(** After the phi nodes of the block of [y]. *)
Definition insert_first (i : Inst) (y : string) (b : Block) : Block := if has_phi y b then with_insts b (i :: bb_insts b) else b.
Definition erase_phi (y : string) (b : Block) : Block := with_phis b (List.filter (fun p => negb (is_phi_of y p)) (bb_phis b)).

Section pass.
(** The name LLVM makes for a new value of the function. *)
Context (fresh : Function_ -> string).
(** One incoming value of the phi node that is replaced, whose width is [w]. *)
Definition convert_incoming (w : Z) (n : string) (inc : Value * string) (F : Function_) : Function_ :=
  let '(incomingValue, incomingBlock) := inc in
  match incomingValue with
  | ConstantInt w0 c => map_blocks (addIncoming n (ConstantInt 64 (getLimitedValue w0 c), incomingBlock)) F
  | _ =>
      let s := fresh F in
      let F := map_blocks (map_block (append_inst (inst s i64 (CreateIntegerCast w 64 incomingValue))) incomingBlock) F in
      map_blocks (addIncoming n (Local s i64, incomingBlock)) F
  end.
Definition convert_incomings (w : Z) (n : string) (l : list (Value * string)) (F : Function_) : Function_ :=
  fold_left (fun F inc => convert_incoming w n inc F) l F.
Definition convertPHI (y : string) (F : Function_) : Function_ :=
  match find_phi y F with
  | Some pn =>
      match phi_type pn with
      | TyInt w =>
          if w =? 64 then F else
          let n := fresh F in
          let F := map_blocks (insert_phi {| phi_name := n; phi_type := i64; phi_incoming := [] |} y) F in
          let F := convert_incomings w n (phi_incoming pn) F in
          let c := fresh F in
          let F := map_blocks (insert_first (inst c (TyInt w) (CreateIntegerCast 64 w (Local n i64))) y) F in
          map_blocks (erase_phi y) (replace_uses y (Local c (TyInt w)) F)
      | _ => F
      end
  | None => F
  end.
Definition convertPHIs (F : Function_) : Function_ := fold_left (fun F y => convertPHI y F) (map phi_name (all_phis F)) F.
(** An integer that has not 64 bits. *)
Definition narrow (t : ty) : bool := match t with TyInt w => negb (w =? 64) | _ => false end.
(** bChanged is set for the first phi node that is replaced. *)
Definition ExtendPHIsTo64Bit (m : Module_) : pass_result :=
  (negb (existsb (fun F => existsb (fun p => narrow (phi_type p)) (all_phis F)) (m_functions m)), with_functions m (map convertPHIs (m_functions m))).
End pass.

(** ** What becomes of a phi node *)

(** The incoming values of the new node and the casts at the end of their
    blocks. *)
Inductive converted (w : Z) : list (Value * string) -> list (Value * string) -> list (string * Inst) -> Prop :=
| converted_nil : converted w [] [] []
| converted_constant w0 c l inc inc' news : converted w inc inc' news ->
    converted w ((ConstantInt w0 c, l) :: inc) ((ConstantInt 64 (getLimitedValue w0 c), l) :: inc') news
| converted_cast v l s inc inc' news : (forall w0 c, v <> ConstantInt w0 c) -> converted w inc inc' news ->
    converted w ((v, l) :: inc) ((Local s i64, l) :: inc') ((l, inst s i64 (CreateIntegerCast w 64 v)) :: news).
Definition new_names (news : list (string * Inst)) : list string := map (fun x => i_name (snd x)) news.
Definition news_of (news : list (string * Inst)) (l : string) : list Inst :=
  map snd (List.filter (fun x => String.eqb l (fst x)) news).
(** While the new node is made. *)
Definition building (y n : string) (inc : list (Value * string)) (news : list (string * Inst)) (b : Block) : Block :=
  with_insts (insert_phi {| phi_name := n; phi_type := i64; phi_incoming := inc |} y b) (bb_insts b ++ news_of news (bb_name b)).
Definition build (y n : string) (inc : list (Value * string)) (news : list (string * Inst)) (F : Function_) : Function_ :=
  map_blocks (building y n inc news) F.
Definition new_phi (g : Value -> Value) (n : string) (inc : list (Value * string)) : Phi :=
  map_phi g {| phi_name := n; phi_type := i64; phi_incoming := inc |}.
Definition new_cast (n c : string) (w : Z) : Inst := inst c (TyInt w) (CreateIntegerCast 64 w (Local n i64)).
(** A block after the phi node [y] was replaced. *)
Definition extended (g : Value -> Value) (y n c : string) (w : Z) (inc : list (Value * string)) (news : list (string * Inst)) (b : Block) : Block :=
  {| bb_name := bb_name b;
     bb_phis := map (fun p => if is_phi_of y p then new_phi g n inc else map_phi g p) (bb_phis b);
     bb_insts := (if has_phi y b then [new_cast n c w] else []) ++ map (map_inst g) (bb_insts b ++ news_of news (bb_name b));
     bb_term := map_term g (bb_term b) |}.

Lemma map_blocks_map f g F : map_blocks f (map_blocks g F) = map_blocks (fun b => f (g b)) F.
Proof. unfold map_blocks. cbn [f_blocks with_blocks]. unfold with_blocks. cbn. by rewrite map_map. Qed.
Lemma map_blocks_ext f g F : (forall b, b ∈ f_blocks F -> f b = g b) -> map_blocks f F = map_blocks g F.
Proof. intros H. unfold map_blocks. f_equal. apply map_ext_in. intros b Hb. by apply H, list_elem_of_In. Qed.
Lemma build_start y n F : map_blocks (insert_phi {| phi_name := n; phi_type := i64; phi_incoming := [] |} y) F = build y n [] [] F.
Proof. apply map_blocks_ext. intros b _. unfold building, with_insts, news_of. cbn. by rewrite app_nil_r. Qed.
Lemma build_incoming y n inc news x F : n ∉ map phi_name (all_phis F) ->
  map_blocks (addIncoming n x) (build y n inc news F) = build y n (inc ++ [x]) news F.
Proof.
  intros Hn. unfold build. rewrite map_blocks_map. apply map_blocks_ext. intros b Hb. unfold addIncoming, building, insert_phi, with_phis, with_insts. cbn. f_equal.
  assert (H : forall p, p ∈ bb_phis b -> is_phi_of n p = false).
  { intros p Hp. apply String.eqb_neq. intros <-. apply Hn, list_elem_of_fmap_2. apply elem_of_flat_map. by exists b. }
  induction (bb_phis b) as [|p ps IH]; [done|]. cbn [flat_map]. rewrite map_app, IH by (intros q Hq; apply H; by right). f_equal.
  destruct (is_phi_of y p); cbn [map]; rewrite (H p ltac:(by left)); [|done]. unfold is_phi_of. cbn. by rewrite String.eqb_refl.
Qed.
Lemma build_append y n inc news i l F :
  map_blocks (map_block (append_inst i) l) (build y n inc news F) = build y n inc (news ++ [(l, i)]) F.
Proof.
  unfold build. rewrite map_blocks_map. apply map_blocks_ext. intros b _. unfold map_block. cbn [building bb_name with_insts insert_phi with_phis].
  unfold building, append_inst, with_insts, insert_phi, with_phis, news_of. cbn. rewrite List.filter_app, map_app. cbn [List.filter fst].
  destruct (String.eqb (bb_name b) l); cbn [map]; [by rewrite app_assoc|by rewrite app_nil_r].
Qed.
Lemma build_end g y n c w inc news F : n <> y -> (forall v, g v = replace_value y (Local c (TyInt w)) v) ->
  map_blocks (erase_phi y) (replace_uses y (Local c (TyInt w)) (map_blocks (insert_first (new_cast n c w) y) (build y n inc news F))) =
  map_blocks (extended g y n c w inc news) F.
Proof.
  intros Hn Hg. unfold build. rewrite map_blocks_map. change (replace_uses ?x ?v (map_blocks ?f F)) with
    (map_blocks (fun b => {| bb_name := bb_name b; bb_phis := map (map_phi (replace_value x v)) (bb_phis b);
       bb_insts := map (map_inst (replace_value x v)) (bb_insts b); bb_term := map_term (replace_value x v) (bb_term b) |}) (map_blocks f F)).
  rewrite !map_blocks_map. apply map_blocks_ext. intros b _.
  assert (Hext : forall k, map_operands g k = map_operands (replace_value y (Local c (TyInt w))) k).
  { intros k. assert (Hl : forall l, map g l = map (replace_value y (Local c (TyInt w))) l) by (intros l; by apply map_ext). destruct k; cbn [map_operands]; by rewrite ?Hg, ?Hl. }
  assert (Hinst : forall i, map_inst g i = map_inst (replace_value y (Local c (TyInt w))) i) by (intros i; unfold map_inst; by rewrite Hext).
  assert (Hphi : forall p, map_phi g p = map_phi (replace_value y (Local c (TyInt w))) p).
  { intros p. unfold map_phi. f_equal. apply map_ext. intros x. by rewrite Hg. }
  assert (Hterm : map_term g (bb_term b) = map_term (replace_value y (Local c (TyInt w))) (bb_term b)) by (destruct (bb_term b); cbn [map_term]; by rewrite ?Hg).
  assert (Hhas : has_phi y (building y n inc news b) = has_phi y b).
  { unfold has_phi, building, insert_phi. cbn [bb_phis with_insts with_phis]. induction (bb_phis b) as [|p ps IH]; [done|]. cbn [flat_map existsb].
    rewrite existsb_app, IH. destruct (is_phi_of y p) eqn:Ep; cbn [existsb]; rewrite Ep, ?orb_true_r; done. }
  unfold insert_first. rewrite Hhas. unfold extended. rewrite Hterm.
  assert (Hcast : map_inst g (new_cast n c w) = new_cast n c w).
  { unfold map_inst, new_cast, CreateIntegerCast. cbn. rewrite Hg. unfold replace_value. cbn. by rewrite (proj2 (String.eqb_neq _ _)) by done. }
  destruct (has_phi y b); cbn [building with_insts bb_name bb_phis bb_insts bb_term insert_phi with_phis erase_phi]; unfold erase_phi, with_phis; cbn; f_equal.
  2: f_equal; [by rewrite <- Hinst|apply map_ext; intros i; by rewrite Hinst].
  3: apply map_ext; intros i; by rewrite Hinst.
  all: clear - Hn Hphi; induction (bb_phis b) as [|p ps IH]; [done|]; cbn [flat_map map]; rewrite map_app, List.filter_app, IH; unfold new_phi; rewrite !Hphi;
    unfold is_phi_of in *; destruct (String.eqb (phi_name p) y) eqn:Ep; cbn [map List.filter map_phi phi_name]; rewrite ?Ep, ?(proj2 (String.eqb_neq n y) Hn); done.
Qed.

(** ** New names *)

Lemma all_names_elem F x : x ∈ all_names F <-> x ∈ map fst (f_args F) \/
  exists b, b ∈ f_blocks F /\ ((exists p, p ∈ bb_phis b /\ phi_name p = x) \/ exists i, i ∈ bb_insts b /\ i_name i = x).
Proof.
  unfold all_names. rewrite elem_of_app, elem_of_flat_map. f_equiv. f_equiv. intros b. f_equiv. unfold block_names.
  rewrite elem_of_app, !list_elem_of_In, !in_map_iff. setoid_rewrite list_elem_of_In. split; (intros [(p & H1 & H2)|(p & H1 & H2)]; [left|right]; exists p; by split).
Qed.
Lemma has_phi_elem y b : has_phi y b = true <-> exists p, p ∈ bb_phis b /\ phi_name p = y.
Proof.
  unfold has_phi. rewrite existsb_exists. setoid_rewrite <- list_elem_of_In. unfold is_phi_of. by setoid_rewrite String.eqb_eq.
Qed.
Lemma news_of_elem news l i : i ∈ news_of news l <-> (l, i) ∈ news.
Proof.
  unfold news_of. rewrite list_elem_of_In, in_map_iff. setoid_rewrite filter_In. split.
  - intros ([k j] & <- & H & E). cbn [fst snd] in *. apply String.eqb_eq in E as ->. by apply list_elem_of_In.
  - intros H. exists (l, i). cbn. rewrite String.eqb_refl. split; [done|]. by rewrite <- list_elem_of_In.
Qed.
Section build_names.
Context (y n : string) (inc : list (Value * string)) (news : list (string * Inst)) (F : Function_).
Lemma build_block b : b ∈ f_blocks F -> building y n inc news b ∈ f_blocks (build y n inc news F).
Proof. intros Hb. unfold build, map_blocks. cbn [f_blocks with_blocks]. by apply list_elem_of_fmap_2. Qed.
Lemma building_phi b p : p ∈ bb_phis b -> p ∈ bb_phis (building y n inc news b).
Proof.
  intros Hp. unfold building, insert_phi. cbn [bb_phis with_insts with_phis]. apply elem_of_flat_map. exists p. split; [done|]. destruct (is_phi_of y p); set_solver.
Qed.
Lemma build_keeps x : x ∈ all_names F -> x ∈ all_names (build y n inc news F).
Proof.
  rewrite !all_names_elem. intros [Hx|(b & Hb & Hx)]; [by left|right]. exists (building y n inc news b). split; [by apply build_block|].
  destruct Hx as [(p & Hp & <-)|(i & Hi & <-)]; [left; exists p|right; exists i]; (split; [|done]); [by apply building_phi|].
  cbn [building bb_insts with_insts]. apply elem_of_app. by left.
Qed.
Lemma build_has_phi b : b ∈ f_blocks F -> has_phi y b = true -> n ∈ all_names (build y n inc news F).
Proof.
  intros Hb (p & Hp & Ep)%has_phi_elem. apply all_names_elem. right. exists (building y n inc news b). split; [by apply build_block|]. left.
  exists {| phi_name := n; phi_type := i64; phi_incoming := inc |}. split; [|done]. unfold building, insert_phi. cbn [bb_phis with_insts with_phis].
  apply elem_of_flat_map. exists p. split; [done|]. unfold is_phi_of. rewrite (proj2 (String.eqb_eq _ _) Ep). by left.
Qed.
Lemma build_has_news x : (forall k, k ∈ map fst news -> k ∈ map bb_name (f_blocks F)) -> x ∈ new_names news -> x ∈ all_names (build y n inc news F).
Proof.
  intros Hl Hx. unfold new_names in Hx. apply list_elem_of_In, in_map_iff in Hx as ([l i] & <- & Hi). apply list_elem_of_In in Hi.
  assert (Hb : l ∈ map bb_name (f_blocks F)) by (apply Hl; by apply (list_elem_of_fmap_2 fst) in Hi).
  apply list_elem_of_In, in_map_iff in Hb as (b & <- & Hb). apply list_elem_of_In in Hb. apply all_names_elem. right. exists (building y n inc news b).
  split; [by apply build_block|]. right. exists i. split; [|done]. cbn [building bb_insts with_insts]. apply elem_of_app. right. by apply news_of_elem.
Qed.
End build_names.

(** ** The new node is made *)

Section made.
Context (fresh : Function_ -> string) (Hfresh : forall F, fresh F ∉ all_names F).
Context (F : Function_) (y : string) (w : Z).

Lemma convert_incomings_build n b0 : b0 ∈ f_blocks F -> has_phi y b0 = true -> n ∉ all_names F -> forall l inc news,
  (forall k, k ∈ map snd l -> k ∈ map bb_name (f_blocks F)) -> (forall k, k ∈ map fst news -> k ∈ map bb_name (f_blocks F)) ->
  exists inc' news', convert_incomings fresh w n l (build y n inc news F) = build y n (inc ++ inc') (news ++ news') F /\ converted w l inc' news' /\
    NoDup (new_names news') /\ (forall x, x ∈ new_names news' -> x ∉ all_names F /\ x <> n /\ x ∉ new_names news) /\
    forall k, k ∈ map fst news' -> k ∈ map bb_name (f_blocks F).
Proof.
  intros Hb0 Hy Hn. assert (Hphi : n ∉ map phi_name (all_phis F)).
  { intros Hin. apply Hn, all_names_elem. right. apply list_elem_of_In, in_map_iff in Hin as (p & E & Hp). apply list_elem_of_In, elem_of_flat_map in Hp as (b & Hb & Hp).
    exists b. split; [done|]. left. by exists p. }
  induction l as [|[v k] l IH]; intros inc news Hl Hnews.
  - exists [], []. rewrite !app_nil_r. split; [done|]. split; [constructor|]. split; [constructor|]. by split; intros x Hx%not_elem_of_nil.
  - assert (Hl' : forall k, k ∈ map snd l -> k ∈ map bb_name (f_blocks F)) by (intros j Hj; apply Hl; by right).
    change (convert_incomings fresh w n ((v, k) :: l) ?G) with (convert_incomings fresh w n l (convert_incoming fresh w n (v, k) G)).
    assert (Hconst : (exists w0 c, v = ConstantInt w0 c) \/ forall w0 c, v <> ConstantInt w0 c) by (destruct v; try (by right); left; by eexists _, _).
    destruct Hconst as [(w0 & c & ->)|Hv].
    + cbn [convert_incoming]. rewrite build_incoming by done. destruct (IH (inc ++ [(ConstantInt 64 (getLimitedValue w0 c), k)]) news Hl' Hnews) as (inc' & news' & -> & H1 & H2).
      exists ((ConstantInt 64 (getLimitedValue w0 c), k) :: inc'), news'. rewrite <- app_assoc. split; [done|]. split; [by constructor|done].
    + remember (fresh (build y n inc news F)) as s eqn:Es.
      assert (E : convert_incoming fresh w n (v, k) (build y n inc news F) =
        build y n (inc ++ [(Local s i64, k)]) (news ++ [(k, inst s i64 (CreateIntegerCast w 64 v))]) F).
      { rewrite <- build_incoming, <- build_append by done. subst s. unfold convert_incoming. by destruct v; try (by exfalso; eapply Hv). }
      assert (Hs : s ∉ all_names (build y n inc news F)) by (subst s; apply Hfresh). rewrite E. clear E Es.
      destruct (IH (inc ++ [(Local s i64, k)]) (news ++ [(k, inst s i64 (CreateIntegerCast w 64 v))]) Hl') as (inc' & news' & -> & H1 & H2 & H3 & H4).
      { rewrite map_app. intros j [Hj|Hj]%elem_of_app; [by apply Hnews|]. apply list_elem_of_singleton in Hj as ->. apply Hl. by left. }
      exists ((Local s i64, k) :: inc'), ((k, inst s i64 (CreateIntegerCast w 64 v)) :: news'). rewrite <- !app_assoc. split; [done|]. split; [by constructor|].
      assert (Hsnew : s ∉ new_names news') by (intros Hin; destruct (H3 s Hin) as (_ & _ & H5); apply H5; unfold new_names; rewrite map_app; apply elem_of_app; right; by left).
      split; [by apply NoDup_cons|]. split.
      * intros x [->|Hx]%elem_of_cons; cbn [snd inst i_name].
        -- split; [intros Hx; by apply Hs, build_keeps|]. split; [intros ->; by eapply Hs, build_has_phi|]. intros Hx. by apply Hs, build_has_news.
        -- destruct (H3 x Hx) as (H5 & H6 & H7). split; [done|]. split; [done|]. intros H8. apply H7. unfold new_names. rewrite map_app. apply elem_of_app. by left.
      * intros j [->|Hj]%elem_of_cons; [apply Hl; by left|by apply H4].
Qed.
Lemma find_phi_spec pn : find_phi y F = Some pn -> exists b, b ∈ f_blocks F /\ pn ∈ bb_phis b /\ phi_name pn = y.
Proof.
  unfold find_phi. intros [H E]%List.find_some. apply String.eqb_eq in E. apply list_elem_of_In, elem_of_flat_map in H as (b & Hb & Hp). by exists b.
Qed.
(** What is made of the function. *)
Record makes (pn : Phi) (F' : Function_) (n c : string) (inc : list (Value * string)) (news : list (string * Inst)) : Prop := {
  mk_function : F' = map_blocks (extended (replace_value y (Local c (TyInt w))) y n c w inc news) F;
  mk_converted : converted w (phi_incoming pn) inc news;
  mk_distinct : NoDup (n :: c :: new_names news);
  mk_new x : x ∈ n :: c :: new_names news -> x ∉ all_names F;
  mk_labels k : k ∈ map fst news -> k ∈ map bb_name (f_blocks F)
}.
Lemma convertPHI_makes m pn : typed_facts m F -> find_phi y F = Some pn -> phi_type pn = TyInt w -> w <> 64 ->
  exists n c inc news, makes pn (convertPHI fresh y F) n c inc news.
Proof.
  intros Ht Hp Hw Hw64. destruct (find_phi_spec pn Hp) as (b & Hb & Hin & Ey).
  unfold convertPHI. rewrite Hp, Hw. rewrite (proj2 (Z.eqb_neq _ _) Hw64). cbv zeta. remember (fresh F) as n eqn:En.
  assert (Hn : n ∉ all_names F) by (subst n; apply Hfresh). rewrite build_start.
  assert (Hhas : has_phi y b = true) by (apply has_phi_elem; by exists pn).
  destruct (convert_incomings_build n b Hb Hhas Hn (phi_incoming pn) [] []) as (inc & news & -> & H1 & H2 & H3 & H4).
  { intros k Hk. apply list_elem_of_In, in_map_iff in Hk as ([v j] & <- & Hk). apply list_elem_of_In in Hk. by eapply (ty_labels m F Ht). }
  { by intros k Hk%not_elem_of_nil. }
  cbn [app]. remember (fresh (build y n inc news F)) as c eqn:Ec. assert (Hc : c ∉ all_names (build y n inc news F)) by (subst c; apply Hfresh).
  exists n, c, inc, news. assert (Hny : n <> y).
  { intros ->. apply Hn, all_names_elem. right. exists b. split; [done|]. left. by exists pn. }
  split.
  - change (inst c (TyInt w) (CreateIntegerCast 64 w (Local n i64))) with (new_cast n c w). by apply build_end.
  - done.
  - constructor; [|constructor; [|done]].
    + intros [->|Hx]%elem_of_cons; [by eapply Hc, build_has_phi|]. by destruct (H3 n Hx) as (_ & H5 & _).
    + intros Hx. by apply Hc, build_has_news.
  - intros x [->|[->|Hx]%elem_of_cons]%elem_of_cons; [done| |by apply H3]. intros Hx. by apply Hc, build_keeps.
  - done.
Qed.
End made.

(** ** The names of the new function *)

Lemma flat_map_app_perm {A B} (f g : A -> list B) l : flat_map (fun x => f x ++ g x) l ≡ₚ flat_map f l ++ flat_map g l.
Proof. induction l as [|x l IH]; [done|]. cbn [flat_map]. rewrite IH. solve_Permutation. Qed.
Definition phi_names (F : Function_) : list string := flat_map (fun b => map phi_name (bb_phis b)) (f_blocks F).
Definition inst_results (F : Function_) : list string := flat_map (fun b => results (bb_insts b)) (f_blocks F).
Lemma results_defs l : results l = map fst (flat_map inst_defs l).
Proof. unfold results. induction l as [|i l IH]; [done|]. cbn [List.filter flat_map]. rewrite map_app, <- IH. unfold inst_defs. by destruct (has_result i). Qed.
Lemma typed_names F : map fst (typed_defs F) ≡ₚ map fst (f_args F) ++ phi_names F ++ inst_results F.
Proof.
  unfold typed_defs. rewrite map_app. f_equiv. unfold phi_names, inst_results. rewrite <- flat_map_app_perm.
  induction (f_blocks F) as [|b bs IH]; [done|]. cbn [flat_map]. rewrite map_app, IH. f_equiv. unfold typed_block_defs. by rewrite map_app, map_map, results_defs.
Qed.
Lemma typed_names_all F x : x ∈ map fst (typed_defs F) -> x ∈ all_names F.
Proof.
  rewrite typed_names, all_names_elem, !elem_of_app. unfold phi_names, inst_results. rewrite !elem_of_flat_map. intros [H|[(b & Hb & H)|(b & Hb & H)]]; [by left|right; exists b..].
  - split; [done|]. left. apply list_elem_of_In, in_map_iff in H as (p & E & H). exists p. by rewrite list_elem_of_In.
  - split; [done|]. right. unfold results in H. apply list_elem_of_In, in_map_iff in H as (i & E & H). apply filter_In in H as [H _]. exists i. by rewrite list_elem_of_In.
Qed.
Lemma NoDup_rename (n y : string) l : NoDup l -> n ∉ l -> NoDup (map (fun x => if String.eqb x y then n else x) l).
Proof.
  induction l as [|x l IH]; intros Hl Hn; cbn [map]; [constructor|]. apply NoDup_cons in Hl as [Hx Hl]. apply not_elem_of_cons in Hn as [Hn1 Hn2].
  apply NoDup_cons. split; [|by apply IH]. intros Hin. apply list_elem_of_In, in_map_iff in Hin as (z & E & Hz). apply list_elem_of_In in Hz.
  destruct (String.eqb_spec z y), (String.eqb_spec x y); congruence.
Qed.
Lemma NoDup_has_phi {A} y (c : A) bs : NoDup (flat_map (fun b => map phi_name (bb_phis b)) bs) -> NoDup (flat_map (fun b => if has_phi y b then [c] else []) bs).
Proof.
  induction bs as [|b bs IH]; cbn [flat_map]; [constructor|]. intros (_ & Hd & Hn)%NoDup_app. destruct (has_phi y b) eqn:Eb; [|by apply IH].
  apply NoDup_app. split; [apply NoDup_singleton|]. split; [|by apply IH]. intros x _ (b' & Hb' & Hx)%elem_of_flat_map.
  destruct (has_phi y b') eqn:Eb'; [|by apply not_elem_of_nil in Hx]. apply has_phi_elem in Eb as (p & Hp & Ep), Eb' as (p' & Hp' & Ep').
  apply (Hd y); [rewrite <- Ep; by apply list_elem_of_fmap_2|]. apply elem_of_flat_map. exists b'. split; [done|]. rewrite <- Ep'. by apply list_elem_of_fmap_2.
Qed.
Lemma NoDup_filter_map {A B} (f : A -> B) (P : A -> bool) l : NoDup (map f l) -> NoDup (map f (List.filter P l)).
Proof.
  induction l as [|x l IH]; [done|]. cbn [map List.filter]. intros [Hx Hn]%NoDup_cons. destruct (P x); [|by apply IH]. cbn [map]. apply NoDup_cons. split; [|by apply IH].
  intros Hin. apply Hx. apply list_elem_of_In, in_map_iff in Hin as (z & E & Hz). apply filter_In in Hz as [Hz _]. rewrite <- E. apply list_elem_of_fmap_2. by apply list_elem_of_In.
Qed.
Lemma news_of_names news l : map i_name (news_of news l) = map (fun x => i_name (snd x)) (List.filter (fun x => String.eqb l (fst x)) news).
Proof. unfold news_of. by rewrite map_map. Qed.
Lemma news_same news k k' i i' : NoDup (new_names news) -> (k, i) ∈ news -> (k', i') ∈ news -> i_name i = i_name i' -> k = k' /\ i = i'.
Proof.
  unfold new_names. induction news as [|[l j] news IH]; intros Hn H1 H2 E; [by apply not_elem_of_nil in H1|]. cbn [map snd] in Hn. apply NoDup_cons in Hn as [Hj Hn].
  assert (Hno : forall k i, (k, i) ∈ news -> i_name i <> i_name j).
  { intros k0 i0 H0 E0. apply Hj. rewrite <- E0. by apply (list_elem_of_fmap_2 (fun x => i_name (snd x))) in H0. }
  apply elem_of_cons in H1 as [H1|H1], H2 as [H2|H2].
  - by split; congruence.
  - injection H1 as -> ->. by destruct (Hno _ _ H2).
  - injection H2 as -> ->. by destruct (Hno _ _ H1).
  - by apply IH.
Qed.
Lemma NoDup_news news bs : NoDup (map bb_name bs) -> NoDup (new_names news) -> NoDup (flat_map (fun b => map i_name (news_of news (bb_name b))) bs).
Proof.
  intros Hb Hn. induction bs as [|b bs IH]; cbn [flat_map]; [constructor|]. cbn [map] in Hb. apply NoDup_cons in Hb as [Hb Hbs].
  apply NoDup_app. split; [rewrite news_of_names; by apply NoDup_filter_map|]. split; [|by apply IH].
  intros x Hx (b' & Hb' & Hx')%elem_of_flat_map. apply list_elem_of_In, in_map_iff in Hx as (i & E & Hi), Hx' as (i' & E' & Hi').
  apply list_elem_of_In, news_of_elem in Hi, Hi'. destruct (news_same news _ _ _ _ Hn Hi Hi') as [Ek _]; [congruence|].
  apply Hb. rewrite Ek. by apply list_elem_of_fmap_2.
Qed.
Lemma converted_news w l inc news k i : converted w l inc news -> (k, i) ∈ news ->
  exists v, (v, k) ∈ l /\ i = inst (i_name i) i64 (CreateIntegerCast w 64 v).
Proof.
  induction 1 as [|w0 c k' l inc news _ IH|v k' s l inc news _ _ IH]; intros Hi; [by apply not_elem_of_nil in Hi| |].
  - destruct (IH Hi) as (v & Hv & E). exists v. split; [by right|done].
  - apply elem_of_cons in Hi as [[= -> ->]|Hi]; [exists v; split; [by left|done]|]. destruct (IH Hi) as (u & Hu & E). exists u. split; [by right|done].
Qed.
Lemma converted_incoming w l inc news v k : converted w l inc news -> (v, k) ∈ inc ->
  (exists w0 c, v = ConstantInt 64 (getLimitedValue w0 c) /\ (ConstantInt w0 c, k) ∈ l) \/
  (exists s u, v = Local s i64 /\ (k, inst s i64 (CreateIntegerCast w 64 u)) ∈ news /\ (u, k) ∈ l).
Proof.
  induction 1 as [|w0 c k' l inc news _ IH|u k' s l inc news _ _ IH]; intros Hi; [by apply not_elem_of_nil in Hi| |].
  - apply elem_of_cons in Hi as [[= -> ->]|Hi]; [left; exists w0, c; split; [done|by left]|].
    destruct (IH Hi) as [(w1 & c1 & E & H)|(s & u & E & H1 & H2)]; [left; exists w1, c1|right; exists s, u]; (split; [done|]); [by right|split; [done|by right]].
  - apply elem_of_cons in Hi as [[= -> ->]|Hi]; [right; exists s, u; split; [done|]; split; by left|].
    destruct (IH Hi) as [(w1 & c1 & E & H)|(s1 & u1 & E & H1 & H2)]; [left; exists w1, c1|right; exists s1, u1]; (split; [done|]); [by right|split; by right].
Qed.

Section typing.
Context (m : Module_) (F : Function_) (Ht : typed_facts m F) (y : string) (w : Z) (pn : Phi) (F' : Function_) (n c : string)
  (inc : list (Value * string)) (news : list (string * Inst)).
Context (Hp : find_phi y F = Some pn) (Hw : phi_type pn = TyInt w) (Hw64 : w <> 64) (H : makes F y w pn F' n c inc news).
Abbreviation g := (replace_value y (Local c (TyInt w))).

Lemma has_result_map f i : has_result (map_inst f i) = has_result i.
Proof. done. Qed.
Lemma news_have_result k i : (k, i) ∈ news -> has_result i = true.
Proof. intros Hi. destruct (converted_news _ _ _ _ _ _ (mk_converted _ _ _ _ _ _ _ _ _ H) Hi) as (v & _ & ->). done. Qed.
Lemma results_extended b : results (bb_insts (extended g y n c w inc news b)) =
  (if has_phi y b then [c] else []) ++ results (bb_insts b) ++ map i_name (news_of news (bb_name b)).
Proof.
  unfold results. cbn [extended bb_insts]. rewrite List.filter_app, map_app. f_equal; [by destruct (has_phi y b)|].
  assert (E : forall l, map i_name (List.filter has_result (map (map_inst g) l)) = map i_name (List.filter has_result l)).
  { intros l. induction l as [|i l IH]; [done|]. cbn [map List.filter]. rewrite has_result_map. by destruct (has_result i); cbn [map]; rewrite IH. }
  rewrite E, List.filter_app, map_app. f_equal. f_equal. assert (Hall : forall i, i ∈ news_of news (bb_name b) -> has_result i = true) by (intros i Hi%news_of_elem; by eapply news_have_result).
  induction (news_of news (bb_name b)) as [|i l IH]; [done|]. cbn [List.filter]. rewrite Hall by (by left). f_equal. apply IH. intros j Hj. apply Hall. by right.
Qed.
Lemma phi_names_extended b : map phi_name (bb_phis (extended g y n c w inc news b)) = map (fun x => if String.eqb x y then n else x) (map phi_name (bb_phis b)).
Proof. cbn [extended bb_phis]. rewrite !map_map. apply map_ext. intros p. unfold is_phi_of. by destruct (String.eqb (phi_name p) y). Qed.
Lemma old_names x : x ∈ map fst (f_args F) ++ phi_names F ++ inst_results F -> x ∈ all_names F.
Proof. rewrite <- typed_names. apply typed_names_all. Qed.
Lemma names_extended : NoDup (map fst (typed_defs F')).
Proof.
  pose proof (ty_unique m F Ht) as Hn. rewrite typed_names in *. pose proof (mk_distinct _ _ _ _ _ _ _ _ _ H) as Hd. pose proof (mk_new _ _ _ _ _ _ _ _ _ H) as Hnew.
  assert (E : map fst (f_args F') ++ phi_names F' ++ inst_results F' ≡ₚ
    map fst (f_args F) ++ map (fun x => if String.eqb x y then n else x) (phi_names F) ++ inst_results F ++
    flat_map (fun b => if has_phi y b then [c] else []) (f_blocks F) ++ flat_map (fun b => map i_name (news_of news (bb_name b))) (f_blocks F)).
  { rewrite (mk_function _ _ _ _ _ _ _ _ _ H). unfold map_blocks, phi_names, inst_results. cbn [f_args f_blocks with_blocks]. f_equiv. rewrite !flat_map_concat_map, !map_map, <- !flat_map_concat_map. f_equiv.
    - rewrite (flat_map_ext _ _ phi_names_extended). induction (f_blocks F) as [|b bs IH]; [done|]. cbn [flat_map]. by rewrite IH, map_app.
    - rewrite (flat_map_ext _ _ results_extended), !flat_map_app_perm. solve_Permutation. }
  rewrite E. apply NoDup_app in Hn as (N1 & N2 & Hn). apply NoDup_app in Hn as (N3 & N4 & N5). apply NoDup_cons in Hd as [D1 Hd]. apply NoDup_cons in Hd as [D2 D3].
  assert (Hnn : n ∉ map fst (f_args F) ++ phi_names F ++ inst_results F) by (intros Hx%old_names; eapply Hnew; [by left|done]).
  assert (Hren : forall x, x ∈ map (fun x => if String.eqb x y then n else x) (phi_names F) -> x = n \/ x ∈ phi_names F).
  { intros x Hx. apply list_elem_of_In, in_map_iff in Hx as (z & Ez & Hz). apply list_elem_of_In in Hz. destruct (String.eqb z y); [by left|right; congruence]. }
  assert (Hcs : forall x, x ∈ flat_map (fun b => if has_phi y b then [c] else []) (f_blocks F) -> x = c).
  { intros x (b & _ & Hx)%elem_of_flat_map. destruct (has_phi y b); [by apply list_elem_of_singleton in Hx|by apply not_elem_of_nil in Hx]. }
  assert (Hns : forall x, x ∈ flat_map (fun b => map i_name (news_of news (bb_name b))) (f_blocks F) -> x ∈ new_names news).
  { intros x (b & _ & Hx)%elem_of_flat_map. apply list_elem_of_In, in_map_iff in Hx as (i & <- & Hi). apply list_elem_of_In, news_of_elem in Hi.
    by apply (list_elem_of_fmap_2 (fun x => i_name (snd x))) in Hi. }
  assert (Hfar : forall x, x = c \/ x ∈ new_names news -> x <> n /\ x ∉ map fst (f_args F) ++ phi_names F ++ inst_results F).
  { intros x Hx. split; [intros ->; apply D1; destruct Hx as [->|Hx]; [by left|by right]|]. intros Hx'%old_names. eapply Hnew; [|done]. destruct Hx as [->|Hx]; set_solver. }
  rewrite !elem_of_app in Hnn. setoid_rewrite elem_of_app in Hfar. setoid_rewrite elem_of_app in Hfar.
  setoid_rewrite elem_of_app in N2.
  apply NoDup_app. split; [done|]. split.
  { intros x Hx. rewrite !elem_of_app. intros [Hx'%Hren|[Hx'|[Hx'%Hcs|Hx'%Hns]]]; [destruct Hx' as [->|Hx']; naive_solver|naive_solver|..]; destruct (Hfar x); naive_solver. }
  apply NoDup_app. split; [apply NoDup_rename; naive_solver|]. split.
  { intros x Hx%Hren. rewrite !elem_of_app. intros [Hx'|[Hx'%Hcs|Hx'%Hns]]; [naive_solver|..]; destruct (Hfar x); naive_solver. }
  apply NoDup_app. split; [done|]. split.
  { intros x Hx. rewrite !elem_of_app. intros [Hx'%Hcs|Hx'%Hns]; destruct (Hfar x); naive_solver. }
  apply NoDup_app. split; [by apply NoDup_has_phi|]. split; [|apply NoDup_news; [by apply (ty_blocks m F Ht)|done]].
  intros x ->%Hcs Hx%Hns. done.
Qed.

(** ** The new function is typed *)

Abbreviation types := (typed_defs F).
Abbreviation types' := (typed_defs F').
Lemma extended_block b : b ∈ f_blocks F -> extended g y n c w inc news b ∈ f_blocks F'.
Proof. intros Hb. rewrite (mk_function _ _ _ _ _ _ _ _ _ H). unfold map_blocks. cbn [f_blocks with_blocks]. by apply list_elem_of_fmap_2. Qed.
Lemma extended_blocks b' : b' ∈ f_blocks F' -> exists b, b ∈ f_blocks F /\ b' = extended g y n c w inc news b.
Proof.
  rewrite (mk_function _ _ _ _ _ _ _ _ _ H). unfold map_blocks. cbn [f_blocks with_blocks]. intros Hb. apply list_elem_of_In, in_map_iff in Hb as (b & <- & Hb).
  exists b. by rewrite list_elem_of_In.
Qed.
Lemma phi_block : exists b, b ∈ f_blocks F /\ pn ∈ bb_phis b /\ phi_name pn = y.
Proof. by apply find_phi_spec. Qed.
Lemma phi_typed_pn : phi_typed m types pn = true.
Proof. destruct phi_block as (b & Hb & Hin & _). by apply (ty_phis m F Ht b). Qed.
Lemma width_pos : 1 <= w.
Proof. pose proof phi_typed_pn as E. unfold phi_typed in E. apply andb_true_iff in E as [E _]. rewrite Hw in E. by apply Z.leb_le. Qed.
Lemma type_y t : (y, t) ∈ types -> t = TyInt w.
Proof.
  destruct phi_block as (b & Hb & Hin & Ey). intros Hy. eapply (typed_once types); [apply (ty_unique m F Ht)|exact Hy|]. rewrite <- Hw, <- Ey. by apply (phi_def_in F b).
Qed.
Lemma only_phi b p : b ∈ f_blocks F -> p ∈ bb_phis b -> is_phi_of y p = true -> phi_type p = TyInt w.
Proof. intros Hb Hin E. apply String.eqb_eq in E. apply type_y. rewrite <- E. by apply (phi_def_in F b). Qed.
Lemma types_kept z t : (z, t) ∈ types -> z <> y -> (z, t) ∈ types'.
Proof.
  intros Hz Hy. apply elem_of_app in Hz as [Hz|Hz].
  - apply elem_of_app. left. by rewrite (mk_function _ _ _ _ _ _ _ _ _ H).
  - apply elem_of_flat_map in Hz as (b & Hb & Hz). apply elem_of_app. right. apply elem_of_flat_map. exists (extended g y n c w inc news b). split; [by apply extended_block|].
    apply elem_of_app in Hz as [Hz|Hz]; apply elem_of_app; [left|right].
    + apply list_elem_of_In, in_map_iff in Hz as (p & E & Hz). apply list_elem_of_In in Hz. cbn [extended bb_phis]. rewrite map_map.
      assert (E2 : (z, t) = phi_def (if is_phi_of y p then new_phi g n inc else map_phi g p)).
      { unfold is_phi_of. rewrite (proj2 (String.eqb_neq (phi_name p) y)); [done|]. injection E as -> _. done. }
      rewrite E2. by apply (list_elem_of_fmap_2 (fun p => phi_def (if is_phi_of y p then new_phi g n inc else map_phi g p))).
    + apply elem_of_flat_map in Hz as (i & Hi & Hz). apply elem_of_flat_map. exists (map_inst g i). split; [|done]. cbn [extended bb_insts].
      apply elem_of_app. right. apply list_elem_of_fmap_2. apply elem_of_app. by left.
Qed.
Lemma type_n : (n, i64) ∈ types'.
Proof.
  destruct phi_block as (b & Hb & Hin & Ey). apply (phi_def_in F' (extended g y n c w inc news b) (new_phi g n inc)); [by apply extended_block|].
  cbn [extended bb_phis]. assert (E : is_phi_of y pn = true) by (by apply String.eqb_eq).
  apply (list_elem_of_fmap_2 (fun p => if is_phi_of y p then new_phi g n inc else map_phi g p)) in Hin. by rewrite E in Hin.
Qed.
Lemma type_c : (c, TyInt w) ∈ types'.
Proof.
  destruct phi_block as (b & Hb & Hin & Ey). apply (inst_def_in F' (extended g y n c w inc news b) (new_cast n c w)); [by apply extended_block| |done].
  cbn [extended bb_insts]. rewrite (proj2 (has_phi_elem y b)) by (by exists pn). by left.
Qed.
Lemma type_news k i : (k, i) ∈ news -> (i_name i, i64) ∈ types'.
Proof.
  intros Hi. assert (Hk : k ∈ map bb_name (f_blocks F)) by (eapply (mk_labels _ _ _ _ _ _ _ _ _ H); by apply (list_elem_of_fmap_2 fst) in Hi).
  apply list_elem_of_In, in_map_iff in Hk as (b & <- & Hb). apply list_elem_of_In in Hb.
  destruct (converted_news _ _ _ _ _ _ (mk_converted _ _ _ _ _ _ _ _ _ H) Hi) as (v & _ & E).
  assert (E2 : i_type (map_inst g i) = i64) by (by rewrite E). rewrite <- E2.
  apply (inst_def_in F' (extended g y n c w inc news b) (map_inst g i)); [by apply extended_block| |by rewrite E].
  cbn [extended bb_insts]. apply elem_of_app. right. apply list_elem_of_fmap_2, elem_of_app. right. by apply news_of_elem.
Qed.
Lemma value_extended v : value_typed m types v = true -> value_typed m types' (g v) = true /\ type_of (g v) = type_of v.
Proof.
  intros Hv. unfold replace_value. destruct v as [z t| | | | | | | | | | | |]; try done. cbn [is_local]. unfold value_typed in *. apply andb_true_iff in Hv as [Hv Hz].
  apply bool_decide_eq_true in Hz. destruct (String.eqb_spec y z) as [<-|Hne].
  - cbn [type_of] in *. rewrite (type_y t Hz) in *. split; [|done]. rewrite Hv. apply bool_decide_eq_true, type_c.
  - split; [|done]. cbn [type_of] in *. rewrite Hv. apply bool_decide_eq_true. by apply types_kept.
Qed.
Lemma values_extended l : forallb (value_typed m types) l = true -> forallb (value_typed m types') (map g l) = true /\ map type_of (map g l) = map type_of l.
Proof.
  induction l as [|v l IH]; [done|]. cbn [forallb map]. intros [Hv Hl]%andb_true_iff. destruct (value_extended v Hv) as [-> ->], (IH Hl) as [-> ->]. done.
Qed.
Lemma inst_extended i : inst_typed m types i = true -> inst_typed m types' (map_inst g i) = true.
Proof.
  unfold inst_typed. rewrite !andb_true_iff. intros ((H1 & H2) & H3). cbn [map_inst i_type i_kind]. rewrite operands_map.
  destruct (values_extended _ H2) as [H2' Hty]. split; [split; [done|exact H2']|].
  destruct (i_kind i) as [t0 s|p|v p|inb p l|op a b|op v|pr a b|k a b|callee cc args| |v|args]; cbn [map_operands operands map] in *; unfold same_type in *;
    try done; try (injection Hty as E1 E2 E3 || injection Hty as E1 E2 || injection Hty as E1; by rewrite ?E1, ?E2, ?E3).
  unfold call_typed in *. rewrite !map_app in Hty. cbn [map] in Hty. apply app_inj_tail in Hty as [-> ->]. done.
Qed.
Lemma phi_extended p : phi_typed m types p = true -> phi_typed m types' (map_phi g p) = true.
Proof.
  unfold phi_typed. intros [H1 H2]%andb_true_iff. cbn [map_phi phi_type phi_incoming]. rewrite H1. cbn [andb]. rewrite forallb_forall in *.
  intros [v k] Hv. apply in_map_iff in Hv as ([u k'] & [= <- <-] & Hu). specialize (H2 _ Hu). cbn [fst snd] in *. apply andb_true_iff in H2 as [H2 H3].
  destruct (value_extended u H2) as [-> E]. unfold same_type in *. by rewrite E.
Qed.
Lemma cast_to_64 v : CreateIntegerCast w 64 v = Cast (if 64 <? w then Trunc else SExt) v.
Proof. unfold CreateIntegerCast. by rewrite (proj2 (Z.eqb_neq _ _) Hw64). Qed.
Lemma cast_from_64 v : CreateIntegerCast 64 w v = Cast (if w <? 64 then Trunc else SExt) v.
Proof. unfold CreateIntegerCast. by rewrite (proj2 (Z.eqb_neq 64 w)). Qed.
Lemma cast_ok v : type_of v = TyInt w -> value_typed m types v = true -> forall s, inst_typed m types (inst s i64 (CreateIntegerCast w 64 v)) = true.
Proof.
  intros Hv Hval s. rewrite cast_to_64. unfold inst_typed. cbn [inst i_type i_kind operands forallb valid_ty]. rewrite Hval, Hv.
  destruct (Z.ltb_spec 64 w); cbn; apply Z.ltb_lt; lia.
Qed.
Lemma incoming_typed v k : (v, k) ∈ phi_incoming pn -> value_typed m types v = true /\ type_of v = TyInt w.
Proof.
  intros Hv. pose proof phi_typed_pn as E. unfold phi_typed in E. apply andb_true_iff in E as [_ E]. apply (forallb_elem _ _ _ E) in Hv. apply andb_true_iff in Hv as [H1 H2].
  apply bool_decide_eq_true in H2. split; [done|]. by rewrite <- Hw.
Qed.
Lemma new_inst_typed k i : (k, i) ∈ news -> inst_typed m types i = true.
Proof.
  intros Hi. destruct (converted_news _ _ _ _ _ _ (mk_converted _ _ _ _ _ _ _ _ _ H) Hi) as (v & Hv & ->). destruct (incoming_typed v k Hv). by apply cast_ok.
Qed.
Lemma new_is_not_y x : x ∈ n :: c :: new_names news -> x <> y.
Proof.
  intros Hx ->. apply (mk_new _ _ _ _ _ _ _ _ _ H y Hx). destruct phi_block as (b & Hb & Hin & Ey). apply all_names_elem. right. exists b. split; [done|]. left. by exists pn.
Qed.
Lemma g_new x t : x ∈ n :: c :: new_names news -> g (Local x t) = Local x t.
Proof. intros Hx%new_is_not_y. unfold replace_value. cbn [is_local]. by rewrite (proj2 (String.eqb_neq y x)). Qed.
Lemma news_names k i : (k, i) ∈ news -> i_name i ∈ n :: c :: new_names news.
Proof. intros Hi. right. right. by apply (list_elem_of_fmap_2 (fun x => i_name (snd x))) in Hi. Qed.
Lemma new_phi_typed : phi_typed m types' (new_phi g n inc) = true.
Proof.
  unfold phi_typed. cbn [new_phi map_phi phi_type phi_incoming valid_ty]. apply forallb_forall. intros [v k] Hv. apply in_map_iff in Hv as ([u k'] & [= <- <-] & Hu).
  cbn [fst snd]. apply list_elem_of_In in Hu. destruct (converted_incoming _ _ _ _ _ _ (mk_converted _ _ _ _ _ _ _ _ _ H) Hu) as [(w0 & c0 & -> & _)|(s & u0 & -> & Hi & _)].
  - cbn. by apply bool_decide_eq_true.
  - rewrite g_new by (by apply (news_names k' _ Hi)). unfold value_typed, same_type. cbn [type_of valid_ty].
    apply andb_true_iff. split; [|by apply bool_decide_eq_true]. apply andb_true_iff. split; [done|]. apply bool_decide_eq_true. by apply (type_news k' _ Hi).
Qed.
Lemma convertPHI_typed : typed_facts m F'.
Proof.
  assert (En : map bb_name (f_blocks F') = map bb_name (f_blocks F)).
  { rewrite (mk_function _ _ _ _ _ _ _ _ _ H). unfold map_blocks. cbn [f_blocks with_blocks]. by rewrite map_map. }
  split.
  - rewrite En. apply (ty_blocks m F Ht).
  - rewrite En. intros b' p v k (b & Hb & ->)%extended_blocks Hin Hv. cbn [extended bb_phis] in Hin. apply list_elem_of_In, in_map_iff in Hin as (q & <- & Hq). apply list_elem_of_In in Hq.
    assert (Hinc : forall l, (v, k) ∈ map (fun x : Value * string => (g (fst x), snd x)) l -> exists u, (u, k) ∈ l).
    { intros l Hl. apply list_elem_of_In, in_map_iff in Hl as ([u j] & [= <- <-] & Hl). exists u. by apply list_elem_of_In. }
    destruct (is_phi_of y q); apply Hinc in Hv as (u & Hu); [|by eapply (ty_labels m F Ht)].
    destruct phi_block as (b0 & Hb0 & Hin0 & _). cbn [phi_incoming] in Hu.
    destruct (converted_incoming _ _ _ _ _ _ (mk_converted _ _ _ _ _ _ _ _ _ H) Hu) as [(? & ? & _ & Hx)|(? & ? & _ & _ & Hx)]; by eapply (ty_labels m F Ht b0 pn).
  - apply names_extended.
  - intros a Ha. apply (ty_args m F Ht). by rewrite (mk_function _ _ _ _ _ _ _ _ _ H) in Ha.
  - intros b' p (b & Hb & ->)%extended_blocks Hin. cbn [extended bb_phis] in Hin. apply list_elem_of_In, in_map_iff in Hin as (q & <- & Hq). apply list_elem_of_In in Hq.
    destruct (is_phi_of y q); [apply new_phi_typed|]. by apply phi_extended, (ty_phis m F Ht b).
  - intros b' i (b & Hb & ->)%extended_blocks Hin. cbn [extended bb_insts] in Hin. apply elem_of_app in Hin as [Hin|Hin].
    + destruct (has_phi y b); [|by apply not_elem_of_nil in Hin]. apply list_elem_of_singleton in Hin as ->. unfold new_cast. rewrite cast_from_64. unfold inst_typed.
      cbn [inst i_type i_kind operands forallb valid_ty value_typed type_of]. rewrite (proj2 (Z.leb_le _ _) width_pos).
      assert (value_typed m types' (Local n i64) = true) as -> by (unfold value_typed; apply andb_true_iff; split; [done|]; apply bool_decide_eq_true, type_n).
      destruct (Z.ltb_spec w 64); cbn; apply Z.ltb_lt; lia.
    + apply list_elem_of_In, in_map_iff in Hin as (j & <- & Hj). apply list_elem_of_In in Hj. apply inst_extended. apply elem_of_app in Hj as [Hj|Hj]; [by apply (ty_insts m F Ht b)|].
      apply news_of_elem in Hj. by eapply new_inst_typed.
  - intros b' (b & Hb & ->)%extended_blocks. pose proof (ty_term m F Ht b Hb) as E. unfold term_typed in *. assert (Er : f_ret F' = f_ret F) by (by rewrite (mk_function _ _ _ _ _ _ _ _ _ H)).
    rewrite Er. cbn [extended bb_term]. apply andb_true_iff in E as [E1 E2].
    assert (Ho : term_operands (map_term g (bb_term b)) = map g (term_operands (bb_term b))) by (by destruct (bb_term b)).
    rewrite Ho. destruct (values_extended _ E1) as [-> Hty]. cbn [andb]. unfold same_type in *.
    destruct (bb_term b); cbn [map_term term_operands map] in *; try done; injection Hty as Hty; by rewrite Hty.
Qed.

(** ** The new function does the same *)

Lemma phi_unique b p : b ∈ f_blocks F -> p ∈ bb_phis b -> phi_name p = y -> p = pn.
Proof.
  intros Hb Hin E. destruct phi_block as (b0 & Hb0 & Hin0 & E0). pose proof (ty_unique m F Ht) as Hn. rewrite typed_names in Hn. apply NoDup_app in Hn as (_ & _ & Hn).
  apply NoDup_app in Hn as (Hn & _). assert (Hmap : phi_names F = map phi_name (all_phis F)).
  { unfold phi_names, all_phis. clear. induction (f_blocks F) as [|b1 bs IH]; [done|]. cbn [flat_map]. rewrite map_app, IH. done. }
  rewrite Hmap in Hn. apply (NoDup_map_eq phi_name (all_phis F)); [done|apply elem_of_flat_map; by exists b|apply elem_of_flat_map; by exists b0|congruence].
Qed.
Lemma incoming_converted l inc0 news0 k v : converted w l inc0 news0 -> fst <$> List.find (fun x : Value * string => String.eqb (snd x) k) l = Some v ->
  exists u, fst <$> List.find (fun x : Value * string => String.eqb (snd x) k) inc0 = Some u /\
    ((exists w0 c0, v = ConstantInt w0 c0 /\ u = ConstantInt 64 (getLimitedValue w0 c0)) \/
     exists s, u = Local s i64 /\ (k, inst s i64 (CreateIntegerCast w 64 v)) ∈ news0).
Proof.
  induction 1 as [|w0 c0 k' l inc0 news0 _ IH|u k' s l inc0 news0 _ _ IH]; [done|..]; cbn [List.find snd]; destruct (String.eqb_spec k' k) as [->|]; try (by apply IH).
  - intros [= <-]. eexists. split; [reflexivity|]. left. by eexists _, _.
  - intros [= <-]. eexists. split; [reflexivity|]. right. exists s. split; [done|by left].
  - intros E. destruct (IH E) as (u' & E' & [Hu|(s' & -> & Hs)]); eexists; (split; [exact E'|]); [by left|right]. exists s'. split; [done|by right].
Qed.
Lemma find_map_incoming k (l : list (Value * string)) :
  fst <$> List.find (fun x : Value * string => String.eqb (snd x) k) (map (fun x : Value * string => (g (fst x), snd x)) l) =
  g <$> (fst <$> List.find (fun x : Value * string => String.eqb (snd x) k) l).
Proof. induction l as [|[v j] l IH]; [done|]. cbn [map List.find fst snd]. by destruct (String.eqb j k). Qed.

Section simulation.
Context {W : Type} (address_of : Value -> Z) (other : Inst -> list Z -> W -> option (Z * W)).
Abbreviation M := (integer_meaning address_of other).
Context `{!Uniform M}.
Context (Haddr : forall v, valid_ty (type_of v) = true -> in_ty (type_of v) (address_of v)).
Context (Hother : forall i vs w x w', other i vs w = Some (x, w') -> in_ty (i_type i) x).
Context (Hsmall : w <= 64) (calls calls' : string -> list Z -> W -> option (option Z * W)) (Hcalls : calls_in m calls).
Context (Hfollow : forall h G args w r, find_function m h = Some G -> args_in G args -> calls h args w = Some r -> calls' h args w = Some r).
Abbreviation new x := (x ∈ n :: c :: new_names news).
Abbreviation eval := (eval (M := M)).
Definition agree_others (e e' : gmap string Z) : Prop := forall z, z <> y -> ~ new z -> e' !! z = e !! z.
Definition agrees (e e' : gmap string Z) : Prop := agree_others e e' /\ e' !! c = e !! y.

Lemma typed_not_new z t : (z, t) ∈ types -> ~ new z.
Proof. intros Hz Hnew. apply (mk_new _ _ _ _ _ _ _ _ _ H z Hnew), typed_names_all. by apply (list_elem_of_fmap_2 fst) in Hz. Qed.
Lemma eval_agrees e e' v : agrees e e' -> value_typed m types v = true -> eval e' (g v) = eval e v.
Proof.
  intros [H1 H2] Hv. destruct v as [z t| | | | | | | | | | | |]; try done. unfold value_typed in Hv. apply andb_true_iff in Hv as [_ Hv]. apply bool_decide_eq_true in Hv.
  unfold replace_value. cbn [is_local]. destruct (String.eqb_spec y z) as [<-|Hne]; cbn [Semantics.eval]; [by rewrite H2|]. rewrite H1; [done|done|by eapply typed_not_new].
Qed.
(** The value of the new node, cast back, is the value of the old one. *)
Lemma wrap_below z : wrap w (wrap 64 z) = wrap w z.
Proof. pose proof width_pos. apply wrap_narrow. lia. Qed.
Lemma narrowed x : in_u w x -> wrap w (wrap 64 (wrap 64 (swrap w x))) = x.
Proof. intros Hx. pose proof width_pos. by rewrite wrap_wrap, wrap_below, wrap_swrap, wrap_small by first [lia|done]. Qed.
Lemma narrowed_constant z : wrap w (wrap 64 (wrap 64 (getLimitedValue w z))) = wrap w z.
Proof.
  pose proof width_pos. rewrite wrap_wrap, wrap_below by lia. unfold getLimitedValue. pose proof (wrap_range w z ltac:(lia)) as Hr. unfold in_u in Hr.
  pose proof (Z.pow_le_mono_r 2 w 64 ltac:(lia) Hsmall). rewrite Z.min_l by lia. apply wrap_wrap. lia.
Qed.
Lemma cast_up v e s world : type_of v = TyInt w ->
  sem (Meaning := with_calls M calls') (inst s i64 (CreateIntegerCast w 64 v)) [e] world = Some (wrap 64 (swrap w e), world).
Proof. intros Hv. rewrite cast_to_64. cbn. rewrite Hv. by rewrite (proj2 (Z.ltb_ge 64 w)) by lia. Qed.
Lemma cast_down x world : sem (Meaning := with_calls M calls') (new_cast n c w) [x] world = Some (wrap w (wrap 64 x), world).
Proof. unfold new_cast. rewrite cast_from_64. cbn. by rewrite (proj2 (Z.ltb_lt w 64)) by lia. Qed.

(** At the end of block [l]. *)
Definition ready (l : string) (e e' : gmap string Z) : Prop :=
  forall s v, (l, inst s i64 (CreateIntegerCast w 64 v)) ∈ news -> e' !! s = Some (wrap 64 (swrap w (eval e v))).
Definition before (pred : option string) (l : string) (e e' : gmap string Z) : Prop :=
  agrees e e' /\ env_in types e /\ match pred with Some l0 => ready l0 e e' | None => True end.
Lemma enter_extended b ps e e' pred l e1 : b ∈ f_blocks F -> (forall p, p ∈ ps -> p ∈ bb_phis b) -> before pred l e e' ->
  enter (M := M) e pred ps = Some e1 ->
  exists e1', enter (M := M) e' pred (map (fun p => if is_phi_of y p then new_phi g n inc else map_phi g p) ps) = Some e1' /\ agree_others e1 e1' /\ e1' !! c = e' !! c /\
    if existsb (is_phi_of y) ps then exists x, e1' !! n = Some x /\ e1 !! y = Some (wrap w (wrap 64 x)) else e1 !! y = e !! y.
Proof.
  intros Hb Hsub (Hag & Hin & Hr). revert e1. induction ps as [|p ps IH]; intros e1 E; cbn [enter map existsb] in *.
  { injection E as <-. exists e'. split; [done|]. split; [apply Hag|done]. }
  apply bind_Some in E as (l0 & -> & E). apply bind_Some in E as (v & Ev & E). apply bind_Some in E as (e2 & E2 & E). injection E as <-.
  destruct (IH (fun q Hq => Hsub q ltac:(by right)) e2 E2) as (e2' & E2' & H1 & H2 & H3). cbn [mbind option_bind]. unfold incoming in *.
  pose proof (mk_distinct _ _ _ _ _ _ _ _ _ H) as Hd. assert (Hnc : n <> c) by (intros ->; apply NoDup_cons in Hd as [Hd _]; apply Hd; by left).
  assert (Hpt : phi_typed m types p = true) by (by apply (ty_phis m F Ht b), Hsub; [|left]).
  assert (Hvin : exists k, (v, k) ∈ phi_incoming p).
  { destruct (List.find _ (phi_incoming p)) as [[u q]|] eqn:Ef; [|done]. injection Ev as ->. apply List.find_some in Ef as [Ef _]. exists q. by apply list_elem_of_In. }
  destruct Hvin as (k & Hvin). unfold phi_typed in Hpt. apply andb_true_iff in Hpt as [_ Hpt]. apply (forallb_elem _ _ _ Hpt) in Hvin. cbn [fst] in Hvin. apply andb_true_iff in Hvin as [Hvt Hsame].
  apply bool_decide_eq_true in Hsame. destruct (is_phi_of y p) eqn:Ep; cbn [orb].
  - apply String.eqb_eq in Ep. assert (p = pn) as -> by (apply (phi_unique b); [done|apply Hsub; by left|done]).
    destruct (incoming_converted _ _ _ _ _ (mk_converted _ _ _ _ _ _ _ _ _ H) Ev) as (u & Eu & Hu). cbn [new_phi map_phi phi_incoming phi_name].
    rewrite find_map_incoming, Eu. cbn [fmap option_fmap option_map mbind option_bind]. rewrite E2'. cbn [mbind option_bind]. eexists. split; [reflexivity|]. split; [|split].
    + intros z Hz Hnew. rewrite !lookup_insert_ne; [by apply H1| |]; intros E; [by rewrite Ep in E|]. apply Hnew. rewrite <- E. by left.
    + by rewrite lookup_insert_ne.
    + eexists. rewrite lookup_insert_eq. split; [reflexivity|]. rewrite Ep, lookup_insert_eq. f_equal.
      rewrite Hw in Hsame. destruct Hu as [(w0 & c0 & -> & ->)|(s & -> & Hs)].
      * cbn [type_of] in Hsame. injection Hsame as ->. cbn. by rewrite narrowed_constant.
      * rewrite g_new by (by apply (news_names l0 _ Hs)). cbn [Semantics.eval]. rewrite (Hr s v Hs). symmetry. apply narrowed.
        pose proof (eval_in address_of other Haddr m F e v Hin Hvt) as Hx. by rewrite Hsame in Hx.
  - cbn [map_phi phi_incoming phi_name]. rewrite find_map_incoming, Ev. cbn [fmap option_fmap option_map mbind option_bind]. rewrite E2'. cbn [mbind option_bind].
    rewrite (eval_agrees e e' v Hag Hvt). assert (Hpy : phi_name p <> y) by (by apply String.eqb_neq).
    assert (Hpn : ~ new (phi_name p)) by (eapply typed_not_new, (phi_def_in F b p Hb), Hsub; by left).
    eexists. split; [reflexivity|]. split; [|split].
    + intros z Hz Hnew. destruct (decide (phi_name p = z)) as [->|Hne]; [by rewrite !lookup_insert_eq|]. rewrite !lookup_insert_ne by done. by apply H1.
    + rewrite lookup_insert_ne; [done|]. intros E. apply Hpn. rewrite E. right. by left.
    + destruct (existsb (is_phi_of y) ps); [|by rewrite lookup_insert_ne]. destruct H3 as (x & H3 & H4). exists x. split; [|by rewrite lookup_insert_ne].
      rewrite lookup_insert_ne; [done|]. intros E. apply Hpn. rewrite E. by left.
Qed.

Lemma insts_extended b l e e' mem world e1 m1 w1 : b ∈ f_blocks F -> (forall i, i ∈ l -> i ∈ bb_insts b) -> agrees e e' -> env_in types e ->
  exec_insts (M := with_calls M calls) ∅ l (e, mem, world) = Some (e1, m1, w1) ->
  exists e1', exec_insts (M := with_calls M calls') ∅ (map (map_inst g) l) (e', mem, world) = Some (e1', m1, w1) /\ agrees e1 e1' /\ env_in types e1.
Proof.
  intros Hb. revert e e' mem world. induction l as [|i l IH]; intros e e' mem world Hl Hag Hin E; cbn [exec_insts map] in *; [injection E as <- <- <-; by exists e'|].
  apply bind_Some in E as ([[e2 m2] w2] & E1 & E). assert (Hi : i ∈ bb_insts b) by (apply Hl; by left).
  pose proof (ty_insts m F Ht b i Hb Hi) as Hti. pose proof Hti as Hops. unfold inst_typed in Hops. rewrite !andb_true_iff in Hops. destruct Hops as ((_ & Hops) & Hk).
  destruct (exec_inst_in address_of other Haddr Hother m F Ht calls Hcalls b i e mem world e2 m2 w2 Hb Hi Hin E1) as [Hin2 Hm2].
  destruct (exec_inst_exchanged M calls calls' ∅ g i e e' mem world e2 m2 w2) as (e2' & E1' & He2); [..|exact E1|].
  - intros h t cc args w0 r Ek. assert (exists G, find_function m h = Some G /\ args_in G (map (eval e) args)) as (G & HG & Ha) by (by eapply call_args_in). by apply (Hfollow h G).
  - intros callee cc args Ek. rewrite Ek in Hk, Hops. cbn [operands] in Hops. assert (Hcallee : value_typed m types callee = true) by (eapply forallb_elem; [exact Hops|set_solver]).
    unfold replace_value. destruct callee as [z t| | | | | | | | | | | |]; try done. cbn [is_local]. destruct (String.eqb_spec y z) as [<-|]; [|done]. exfalso.
    unfold value_typed in Hcallee. apply andb_true_iff in Hcallee as [_ Hcallee]. apply bool_decide_eq_true in Hcallee. unfold call_typed in Hk. cbn [type_of] in Hk. by rewrite (type_y t Hcallee) in Hk.
  - intros v Hv. assert (Hvt : value_typed m types v = true) by (by eapply forallb_elem). split; [by apply value_extended|]. split; [|by apply eval_agrees].
    unfold slot_of, replace_value. by destruct (is_local y v), v.
  - cbn [exec_insts]. rewrite E1'. cbn [mbind option_bind]. apply (IH e2 e2'); [intros j Hj; apply Hl; by right| |done|done].
    destruct (has_result i) eqn:Er.
    + pose proof (inst_def_in F b i Hb Hi Er) as Hd. pose proof (typed_not_new _ _ Hd) as Hnew. destruct Hag as [A1 A2]. destruct He2 as [[-> ->]|(x & -> & ->)]; [by split|].
      assert (Hiy : i_name i <> y).
      { intros E2. destruct phi_block as (b0 & Hb0 & Hin0 & E0). pose proof (ty_unique m F Ht) as Hn. rewrite typed_names in Hn. apply NoDup_app in Hn as (_ & _ & Hn).
        apply NoDup_app in Hn as (_ & Hn & _). apply (Hn y).
        - apply elem_of_flat_map. exists b0. split; [done|]. rewrite <- E0. by apply list_elem_of_fmap_2.
        - apply elem_of_flat_map. exists b. split; [done|]. rewrite <- E2. unfold results. apply list_elem_of_fmap_2, list_elem_of_In, filter_In. by rewrite <- list_elem_of_In. }
      split; [|rewrite !lookup_insert_ne; [done|done|intros E2; apply Hnew; rewrite E2; right; by left]].
      intros z Hz Hzn. destruct (decide (i_name i = z)) as [->|Hne]; [by rewrite !lookup_insert_eq|]. rewrite !lookup_insert_ne by done. by apply A1.
    + assert (Hvoid : i_type i = TyVoid) by (unfold has_result in Er; by destruct (i_type i)). rewrite exec_inst_no_slots in E1. rewrite exec_inst_no_slots in E1'. cbn [map_inst i_type] in E1'. rewrite Hvoid in E1, E1'.
      apply bind_Some in E1 as ([? ?] & _ & E1), E1' as ([? ?] & _ & E1'). by simplify_eq.
Qed.
(** The casts at the end of a block. *)
Lemma news_run l e e' mem world : (forall i, i ∈ l -> exists k, (k, i) ∈ news) -> NoDup (map i_name l) -> agrees e e' ->
  exists e1', exec_insts (M := with_calls M calls') ∅ (map (map_inst g) l) (e', mem, world) = Some (e1', mem, world) /\ agrees e e1' /\
    (forall z, z ∉ map i_name l -> e1' !! z = e' !! z) /\
    forall s v, inst s i64 (CreateIntegerCast w 64 v) ∈ l -> e1' !! s = Some (wrap 64 (swrap w (eval e v))).
Proof.
  revert e'. induction l as [|i l IH]; intros e' Hl Hn Hag; cbn [map exec_insts] in *.
  { exists e'. split; [done|]. split; [done|]. split; [done|]. by intros s v Hs%not_elem_of_nil. }
  apply NoDup_cons in Hn as [Hi Hn]. destruct (Hl i ltac:(by left)) as (k & Hk). destruct (converted_news _ _ _ _ _ _ (mk_converted _ _ _ _ _ _ _ _ _ H) Hk) as (v & Hv & Ei).
  destruct (incoming_typed v k Hv) as [Hvt Hty]. destruct (value_extended v Hvt) as [_ Hgt]. pose proof (news_names k i Hk) as Hnew.
  assert (Eg : map_inst g i = inst (i_name i) i64 (CreateIntegerCast w 64 (g v))) by (by rewrite Ei).
  rewrite exec_inst_no_slots, Eg. change (map _ (operands (i_kind (inst (i_name i) i64 (CreateIntegerCast w 64 (g v)))))) with [eval e' (g v)].
  rewrite (eval_agrees e e' v Hag Hvt), cast_up by (by rewrite Hgt). cbn [mbind option_bind i_type i_name].
  destruct (IH (<[i_name i := wrap 64 (swrap w (eval e v))]> e')) as (e1' & E1 & H1 & H2 & H3); [intros j Hj; apply Hl; by right|done| |].
  - destruct Hag as [A1 A2]. pose proof (mk_distinct _ _ _ _ _ _ _ _ _ H) as Hd. apply NoDup_cons in Hd as [_ Hd]. apply NoDup_cons in Hd as [Hd _]. split.
    + intros z Hz Hzn. rewrite lookup_insert_ne; [by apply A1|]. by intros <-.
    + rewrite lookup_insert_ne; [done|]. intros E. apply Hd. rewrite <- E. by apply (list_elem_of_fmap_2 (fun x => i_name (snd x))) in Hk.
  - exists e1'. split; [exact E1|]. split; [done|]. split.
    + intros z Hz. apply not_elem_of_cons in Hz as [Hz1 Hz2]. rewrite H2 by done. by rewrite lookup_insert_ne.
    + intros s u [E|Hs]%elem_of_cons; [|by apply H3]. rewrite <- E in Hi. cbn [inst i_name] in Hi. rewrite H2 by done. rewrite Ei in E. 
      assert (s = i_name i /\ u = v) as [-> ->] by (unfold CreateIntegerCast in E; by injection E).
      by rewrite lookup_insert_eq.
Qed.
Lemma block_extended b e1 e1' mem world e2 m2 w2 : b ∈ f_blocks F -> agree_others e1 e1' ->
  (if has_phi y b then exists x, e1' !! n = Some x /\ e1 !! y = Some (wrap w (wrap 64 x)) else e1' !! c = e1 !! y) -> env_in types e1 ->
  exec_insts (M := with_calls M calls) ∅ (bb_insts b) (e1, mem, world) = Some (e2, m2, w2) ->
  exists e2', exec_insts (M := with_calls M calls') ∅ (bb_insts (extended g y n c w inc news b)) (e1', mem, world) = Some (e2', m2, w2) /\
    agrees e2 e2' /\ env_in types e2 /\ ready (bb_name b) e2 e2'.
Proof.
  intros Hb Hag Hcast Hin E. cbn [extended bb_insts]. rewrite map_app, !exec_insts_app.
  assert (exists e', exec_insts (M := with_calls M calls') ∅ (if has_phi y b then [new_cast n c w] else []) (e1', mem, world) = Some (e', mem, world) /\ agrees e1 e') as (e' & -> & Hag').
  { destruct (has_phi y b); [|exists e1'; by split]. destruct Hcast as (x & Hx & Hy). cbn [exec_insts]. rewrite exec_inst_no_slots.
    change (map _ (operands (i_kind (new_cast n c w)))) with [eval e1' (Local n i64)]. cbn [Semantics.eval]. rewrite Hx. cbn [default from_option id]. rewrite cast_down.
    cbn [mbind option_bind new_cast inst i_type i_name]. eexists. split; [reflexivity|]. split; [|by rewrite lookup_insert_eq, Hy].
    intros z Hz Hzn. rewrite lookup_insert_ne; [by apply Hag|]. intros <-. apply Hzn. right. by left. }
  cbn [mbind option_bind]. rewrite exec_insts_app.
  destruct (insts_extended b (bb_insts b) e1 e' mem world e2 m2 w2 Hb ltac:(done) Hag' Hin E) as (e2' & -> & Hag2 & Hin2). cbn [mbind option_bind].
  destruct (news_run (news_of news (bb_name b)) e2 e2' m2 w2) as (e3' & -> & Hag3 & _ & Hready); [| |done|].
  - intros i Hi. exists (bb_name b). by apply news_of_elem.
  - rewrite news_of_names. apply NoDup_filter_map. pose proof (mk_distinct _ _ _ _ _ _ _ _ _ H) as Hd. apply NoDup_cons in Hd as [_ Hd]. by apply NoDup_cons in Hd as [_ Hd].
  - exists e3'. split; [done|]. split; [done|]. split; [done|]. intros s v Hs. apply Hready. by apply news_of_elem.
Qed.
Lemma runs_extended fuel l pred e e' mem world r : before pred l e e' ->
  run_blocks (M := with_calls M calls) ∅ fuel (f_blocks F) l pred (e, mem, world) = Some r ->
  run_blocks (M := with_calls M calls') ∅ fuel (f_blocks F') l pred (e', mem, world) = Some r.
Proof.
  apply (run_blocks_simulated _ _ ∅ (f_blocks F) (f_blocks F') before). clear fuel l pred e e' mem world r.
  intros pred l e e' b Hbef Eb. exists (extended g y n c w inc news b). split.
  { rewrite (mk_function _ _ _ _ _ _ _ _ _ H). unfold map_blocks. cbn [f_blocks with_blocks]. unfold find_bb in *. induction (f_blocks F) as [|b1 bs IH]; [done|].
    cbn [map List.find extended bb_name] in *. destruct (String.eqb (bb_name b1) l); [by injection Eb as ->|by apply IH]. }
  apply (find_bb_spec F) in Eb as [Hb El]. intros mem world e1 e2 m2 w2 x E1 E2 Ex.
  destruct (enter_extended b (bb_phis b) e e' pred l e1 Hb ltac:(done) Hbef E1) as (e1' & E1' & Hag & Hc1 & Hy1). destruct Hbef as ((_ & Hcy) & Hin & _).
  pose proof (enter_in address_of other Haddr m F Ht b pred e e1 Hb Hin E1) as Hin1.
  destruct (block_extended b e1 e1' mem world e2 m2 w2) as (e2' & E2' & Hag2 & Hin2 & Hready); [done|done| |done|exact E2|].
  { unfold has_phi. destruct (existsb (is_phi_of y) (bb_phis b)); [done|]. by rewrite Hc1, Hcy, Hy1. }
  exists e1', e2'. split; [exact E1'|]. split; [exact E2'|]. pose proof (ty_term m F Ht b Hb) as Hterm. unfold term_typed in Hterm. apply andb_true_iff in Hterm as [Hterm _].
  assert (Hv : forall v, v ∈ term_operands (bb_term b) -> eval e2' (g v) = eval e2 v) by (intros v Hv; apply eval_agrees; [done|by eapply forallb_elem]).
  split.
  - rewrite <- Ex. cbn [extended bb_term]. destruct (bb_term b) as [cv tl fl|l1|v| |v|]; cbn [map_term leave term_operands] in *; try done.
    + by rewrite (Hv cv ltac:(by left) : Semantics.eval (M := with_calls M calls') e2' (g cv) = Semantics.eval (M := with_calls M calls) e2 cv).
    + by rewrite (Hv v ltac:(by left) : Semantics.eval (M := with_calls M calls') e2' (g v) = Semantics.eval (M := with_calls M calls) e2 v).
  - intros l' _. split; [done|]. split; [done|]. by rewrite <- El.
Qed.
Lemma function_extended fuel b bs args world r : args_in F args -> f_blocks F = b :: bs ->
  run_blocks (M := with_calls M calls) ∅ fuel (f_blocks F) (bb_name b) None (list_to_map (zip (map fst (f_args F)) args), ∅, world) = Some r ->
  run_blocks (M := with_calls M calls') ∅ fuel (f_blocks F') (bb_name b) None (list_to_map (zip (map fst (f_args F)) args), ∅, world) = Some r.
Proof.
  intros Ha _. apply runs_extended. split; [|split; [by apply (initial_env_in m F Ht)|done]]. split; [done|].
  assert (Hnone : forall z, z ∉ map fst (f_args F) -> (list_to_map (zip (map fst (f_args F)) args) : gmap string Z) !! z = None).
  { intros z Hz. destruct (_ !! z) as [x|] eqn:E; [|done]. apply zip_map_lookup in E as (k & Hk & _). exfalso. apply Hz. by eapply list_elem_of_lookup_2. }
  rewrite !Hnone; [done|..].
  - intros Hy. destruct phi_block as (b0 & Hb0 & Hin0 & E0). pose proof (ty_unique m F Ht) as Hn. rewrite typed_names in Hn. apply NoDup_app in Hn as (_ & Hn & _).
    apply (Hn y Hy). apply elem_of_app. left. apply elem_of_flat_map. exists b0. split; [done|]. rewrite <- E0. by apply list_elem_of_fmap_2.
  - intros Hcin. apply (mk_new _ _ _ _ _ _ _ _ _ H c); [right; by left|]. apply all_names_elem. by left.
Qed.
End simulation.
End typing.

(** ** All phi nodes of a function *)

(** Integer phi nodes that 64 bits can hold. *)
Definition phi_fits (p : Phi) : Prop := match phi_type p with TyInt w => w <= 64 | _ => True end.
Section functions.
Context (fresh : Function_ -> string) (Hfresh : forall F, fresh F ∉ all_names F) (m : Module_).

Lemma phi_cases F y : convertPHI fresh y F = F /\ (forall p, find_phi y F = Some p -> narrow (phi_type p) = false) \/
  exists w pn, find_phi y F = Some pn /\ phi_type pn = TyInt w /\ w <> 64.
Proof.
  unfold convertPHI. destruct (find_phi y F) as [pn|]; [|by left]. destruct (phi_type pn) as [|w| | | | | |] eqn:Ew; try (left; split; [done|]; by intros p [= <-]; rewrite Ew).
  destruct (Z.eqb_spec w 64) as [->|Hw]; [|right; by exists w, pn]. left. split; [done|]. intros p [= <-]. by rewrite Ew.
Qed.
Lemma find_phi_some F p : p ∈ all_phis F -> exists q, find_phi (phi_name p) F = Some q.
Proof.
  intros Hp. unfold find_phi. destruct (List.find _ (all_phis F)) as [q|] eqn:E; [by exists q|]. apply list_elem_of_In in Hp. apply (List.find_none _ _ E) in Hp.
  unfold is_phi_of in Hp. by rewrite String.eqb_refl in Hp.
Qed.
(** What one step keeps: the phi nodes are those of before but for [y], or have
    64 bits. *)
Record step_facts (y : string) (F F' : Function_) : Prop := {
  st_typed : typed_facts m F';
  st_name : f_name F' = f_name F;
  st_type : f_type F' = f_type F;
  st_args : f_args F' = f_args F;
  st_blocks : map bb_name (f_blocks F') = map bb_name (f_blocks F);
  st_phis p : p ∈ all_phis F' -> phi_type p = i64 \/ exists q, q ∈ all_phis F /\ phi_name q = phi_name p /\ phi_type q = phi_type p /\ (phi_name p = y -> narrow (phi_type p) = false)
}.
Lemma convertPHI_step F y : typed_facts m F -> step_facts y F (convertPHI fresh y F).
Proof.
  intros Ht. destruct (phi_cases F y) as [[-> Hy]|(w & pn & Hp & Hw & Hw64)].
  - split; try done. intros p Hp. right. exists p. split; [done|]. split; [done|]. split; [done|]. intros E. destruct (find_phi_some F p Hp) as (q & Hq). rewrite E in Hq.
    specialize (Hy q Hq). destruct (find_phi_spec F y q Hq) as (b & Hb & Hin & Eq). apply elem_of_flat_map in Hp as (b' & Hb' & Hin').
    assert (phi_type p = phi_type q) as ->; [|done]. eapply (typed_once (typed_defs F)); [apply (ty_unique m F Ht)|by apply (phi_def_in F b')|].
    rewrite E, <- Eq. by apply (phi_def_in F b).
  - destruct (convertPHI_makes fresh Hfresh F y w m pn Ht Hp Hw Hw64) as (n & c & inc & news & H). pose proof (mk_function _ _ _ _ _ _ _ _ _ H) as E.
    split; [by eapply convertPHI_typed|by rewrite E|by rewrite E|by rewrite E|..].
    + rewrite E. unfold map_blocks. cbn [f_blocks with_blocks]. by rewrite map_map.
    + intros p Hin. apply elem_of_flat_map in Hin as (b' & Hb' & Hin). rewrite E in Hb'. unfold map_blocks in Hb'. cbn [f_blocks with_blocks] in Hb'.
      apply list_elem_of_In, in_map_iff in Hb' as (b & <- & Hb). apply list_elem_of_In in Hb. cbn [extended bb_phis] in Hin.
      apply list_elem_of_In, in_map_iff in Hin as (q & <- & Hq). apply list_elem_of_In in Hq. destruct (is_phi_of y q) eqn:Eq; [by left|]. right. exists q.
      split; [apply elem_of_flat_map; by exists b|]. split; [done|]. split; [done|]. apply String.eqb_neq in Eq. by intros Ey.
Qed.
Lemma convert_all l F : typed_facts m F -> let F' := fold_left (fun F y => convertPHI fresh y F) l F in
  typed_facts m F' /\ f_name F' = f_name F /\ f_type F' = f_type F /\ f_args F' = f_args F /\ map bb_name (f_blocks F') = map bb_name (f_blocks F) /\
  forall p, p ∈ all_phis F' -> phi_type p = i64 \/ exists q, q ∈ all_phis F /\ phi_name q = phi_name p /\ phi_type q = phi_type p /\ (phi_name p ∈ l -> narrow (phi_type p) = false).
Proof.
  revert F. induction l as [|y l IH]; intros F Ht; cbn [fold_left].
  - split; [done|]. do 4 (split; [done|]). intros p Hp. right. exists p. split; [done|]. split; [done|]. split; [done|]. by intros Hy%not_elem_of_nil.
  - destruct (convertPHI_step F y Ht) as [S1 S2 S3 S4 S5 S6]. destruct (IH _ S1) as (H1 & H2 & H3 & H4 & H5 & H6). split; [done|]. do 4 (split; [congruence|]).
    intros p Hp. destruct (H6 p Hp) as [E|(q & Hq & E1 & E2 & E3)]; [by left|]. destruct (S6 q Hq) as [E|(q0 & Hq0 & E4 & E5 & E6)]; [left; congruence|]. right. exists q0.
    split; [done|]. split; [congruence|]. split; [congruence|]. intros [Hy|Hy]%elem_of_cons; [|by apply E3]. rewrite <- E2. apply E6. congruence.
Qed.
Lemma convertPHI_wide F y : (forall p, p ∈ all_phis F -> narrow (phi_type p) = false) -> convertPHI fresh y F = F.
Proof.
  intros H. destruct (phi_cases F y) as [[? _]|(w & pn & Hp & Hw & Hw64)]; [done|]. exfalso. destruct (find_phi_spec F y pn Hp) as (b & Hb & Hin & _).
  assert (Hn : narrow (phi_type pn) = false) by (apply H, elem_of_flat_map; by exists b). rewrite Hw in Hn. cbn [narrow] in Hn.
  apply negb_false_iff, Z.eqb_eq in Hn. done.
Qed.
Lemma convertPHIs_wide F : (forall p, p ∈ all_phis F -> narrow (phi_type p) = false) -> convertPHIs fresh F = F.
Proof.
  intros H. unfold convertPHIs. generalize (map phi_name (all_phis F)) as l. induction l as [|y l IH]; [done|]. cbn [fold_left]. by rewrite convertPHI_wide.
Qed.

(** A declaration stays as it is. *)
Lemma convertPHIs_spec F : function_typed m F = true -> function_typed m (convertPHIs fresh F) = true /\ f_name (convertPHIs fresh F) = f_name F /\
  f_type (convertPHIs fresh F) = f_type F /\ f_args (convertPHIs fresh F) = f_args F /\ map bb_name (f_blocks (convertPHIs fresh F)) = map bb_name (f_blocks F) /\
  forall p, p ∈ all_phis (convertPHIs fresh F) -> narrow (phi_type p) = false.
Proof.
  intros Ht. destruct (isDeclaration F) eqn:Ed.
  { assert (Hp : forall p, p ∈ all_phis F -> narrow (phi_type p) = false).
    { intros p Hp. unfold all_phis, isDeclaration in *. destruct (f_blocks F); [by apply not_elem_of_nil in Hp|done]. }
    by rewrite (convertPHIs_wide F Hp). }
  apply function_typed_facts in Ht; [|done]. destruct (convert_all (map phi_name (all_phis F)) F Ht) as (H1 & H2 & H3 & H4 & H5 & H6). fold (convertPHIs fresh F) in *.
  assert (Ed' : isDeclaration (convertPHIs fresh F) = false) by (unfold isDeclaration in *; by destruct (f_blocks F), (f_blocks (convertPHIs fresh F))).
  split; [by apply function_typed_facts|]. do 4 (split; [done|]).
  intros p Hp. destruct (H6 p Hp) as [->|(q & Hq & E1 & E2 & E3)]; [done|]. apply E3. rewrite <- E1. by apply list_elem_of_fmap_2.
Qed.

Section runs.
Context {W : Type} (address_of : Value -> Z) (other : Inst -> list Z -> W -> option (Z * W)).
Abbreviation M := (integer_meaning address_of other).
Context `{!Uniform M}.
Context (Haddr : forall v, valid_ty (type_of v) = true -> in_ty (type_of v) (address_of v)).
Context (Hother : forall i vs w x w', other i vs w = Some (x, w') -> in_ty (i_type i) x).
Context (calls calls' : string -> list Z -> W -> option (option Z * W)) (Hcalls : calls_in m calls).
Context (Hfollow : forall h G args w r, find_function m h = Some G -> args_in G args -> calls h args w = Some r -> calls' h args w = Some r).
Lemma convert_runs l F : typed_facts m F -> (forall p, p ∈ all_phis F -> phi_fits p) -> forall fuel b bs args world r, args_in F args -> f_blocks F = b :: bs ->
  run_blocks (M := with_calls M calls) ∅ fuel (f_blocks F) (bb_name b) None (list_to_map (zip (map fst (f_args F)) args), ∅, world) = Some r ->
  run_blocks (M := with_calls M calls') ∅ fuel (f_blocks (fold_left (fun F y => convertPHI fresh y F) l F)) (bb_name b) None
    (list_to_map (zip (map fst (f_args F)) args), ∅, world) = Some r.
Proof.
  revert F. induction l as [|y l IH]; intros F Ht Hfit fuel b bs args world r Ha Eb E; cbn [fold_left].
  - eapply (run_follows address_of other Haddr Hother m F Ht calls Hcalls calls' Hfollow); [|exact E]. by apply (initial_env_in m F Ht).
  - destruct (convertPHI_step F y Ht) as [S1 S2 S3 S4 S5 S6]. assert (Hb : exists b' bs', f_blocks (convertPHI fresh y F) = b' :: bs' /\ bb_name b' = bb_name b).
    { rewrite Eb in S5. destruct (f_blocks (convertPHI fresh y F)) as [|b' bs']; [done|]. cbn [map] in S5. injection S5 as S5 _. by exists b', bs'. }
    destruct Hb as (b' & bs' & Eb' & En). rewrite <- S4, <- En. eapply IH; [done| |by unfold args_in; rewrite S4|exact Eb'|].
    { intros p Hp. destruct (S6 p Hp) as [E6|(q & Hq & _ & E6 & _)]; [unfold phi_fits; by rewrite E6|]. unfold phi_fits. rewrite <- E6. by apply Hfit. }
    rewrite S4, En. destruct (phi_cases F y) as [[E0 _]|(w & pn & Hp & Hw & Hw64)]; [by rewrite E0|].
    destruct (convertPHI_makes fresh Hfresh F y w m pn Ht Hp Hw Hw64) as (n & c & inc & news & H).
    assert (Hsmall : w <= 64).
    { destruct (find_phi_spec F y pn Hp) as (b0 & Hb0 & Hin0 & _). specialize (Hfit pn ltac:(apply elem_of_flat_map; by exists b0)). unfold phi_fits in Hfit. by rewrite Hw in Hfit. }
    eapply (function_extended m F Ht y w pn _ n c inc news Hp Hw Hw64 H address_of other Haddr Hother Hsmall calls calls Hcalls); [done|exact Ha|exact Eb|exact E].
Qed.
End runs.
End functions.

(** ** Modules *)

Section modules.
Context (fresh : Function_ -> string) (Hfresh : forall F, fresh F ∉ all_names F) (m : Module_) (Hm : module_typed m = true).
Abbreviation m' := (snd (ExtendPHIsTo64Bit fresh m)).
Lemma module_facts F : F ∈ m_functions m -> function_typed m F = true.
Proof. intros HF. by eapply forallb_elem. Qed.
Lemma find_converted f : find_function m' f = convertPHIs fresh <$> find_function m f.
Proof.
  unfold find_function. cbn [snd ExtendPHIsTo64Bit m_functions with_functions]. pose proof module_facts as Hf. induction (m_functions m) as [|F l IH]; [done|]. cbn [map List.find].
  destruct (convertPHIs_spec fresh Hfresh m F (Hf F ltac:(by left))) as (_ & -> & _). destruct (String.eqb (f_name F) f); [done|]. apply IH. intros G HG. apply Hf. by right.
Qed.
Lemma extended_typed : module_typed m' = true.
Proof.
  apply forallb_forall. intros F' HF'. cbn [snd ExtendPHIsTo64Bit m_functions with_functions] in HF'. apply in_map_iff in HF' as (F & <- & HF). apply list_elem_of_In in HF.
  apply (function_typed_more m); [|by apply convertPHIs_spec, module_facts].
  intros f G EG. exists (convertPHIs fresh G). rewrite find_converted, EG. split; [done|]. apply find_function_elem in EG.
  by destruct (convertPHIs_spec fresh Hfresh m G (module_facts G EG)) as (_ & _ & E & _).
Qed.
Lemma extended_wide : Forall (fun F => Forall (fun p => narrow (phi_type p) = false) (all_phis F)) (m_functions m').
Proof.
  apply Forall_forall. intros F' HF'. cbn [snd ExtendPHIsTo64Bit m_functions with_functions] in HF'. apply list_elem_of_In, in_map_iff in HF' as (F & <- & HF). apply list_elem_of_In in HF.
  apply Forall_forall. by apply (convertPHIs_spec fresh Hfresh m F), module_facts.
Qed.
(** C24: in a well-typed module ClamBCExtendPHIsTo64Bit leaves no integer phi node
    of a width other than 64, the module it makes is well typed (every value is
    used at the type it is defined with, each name is defined once, phi nodes get
    values of their type from blocks of the function, instructions obey their
    typing rules), and it reports that all is preserved only if it has changed
    nothing. *)
Theorem ExtendPHIsTo64Bit_typed : module_typed m' = true /\
  Forall (fun F => Forall (fun p => narrow (phi_type p) = false) (all_phis F)) (m_functions m') /\
  (fst (ExtendPHIsTo64Bit fresh m) = true -> m' = m).
Proof.
  split; [exact extended_typed|]. split; [exact extended_wide|].
  cbn [fst snd ExtendPHIsTo64Bit]. intros Hn%negb_true_iff. assert (Hid : map (convertPHIs fresh) (m_functions m) = m_functions m).
  { rewrite <- (map_id (m_functions m)) at 2. apply map_ext_in. intros F HF. apply convertPHIs_wide. intros p Hp. apply not_true_iff_false. intros Hnarrow.
    apply not_true_iff_false in Hn. apply Hn, existsb_exists. exists F. split; [done|]. apply existsb_exists. exists p. by rewrite <- list_elem_of_In. }
  rewrite Hid. by destruct m.
Qed.

Context {W : Type} (address_of : Value -> Z) (other : Inst -> list Z -> W -> option (Z * W)).
Abbreviation M := (integer_meaning address_of other).
Context `{!Uniform M}.
Context (base : string -> list Z -> W -> option (option Z * W)).
Context (Haddr : forall v, valid_ty (type_of v) = true -> in_ty (type_of v) (address_of v)).
Context (Hother : forall i vs w x w', other i vs w = Some (x, w') -> in_ty (i_type i) x).
Context (Hbase : forall g G args w v w', find_function m g = Some G -> f_blocks G = [] -> base g args w = Some (v, w') -> result_in (f_ret G) v).
Lemma extended_preserves : Forall (fun F => Forall phi_fits (all_phis F)) (m_functions m) ->
  forall fuel g F args w r, find_function m g = Some F -> args_in F args ->
    call_function M base (fun _ => ∅) fuel m g args w = Some r -> call_function M base (fun _ => ∅) fuel m' g args w = Some r.
Proof.
  intros Hfit fuel g F args w r HF Ha.
  apply (call_simulated_on M base (fun _ => ∅) (fun g args => forall F, find_function m g = Some F -> args_in F args)); [|by intros G HG; rewrite HG in HF; injection HF as <-].
  clear fuel g F args w r HF Ha. intros g F HF. pose proof (find_function_elem m g F HF) as Hin. exists (convertPHIs fresh F). split; [by rewrite find_converted, HF|].
  destruct (convertPHIs_spec fresh Hfresh m F (module_facts F Hin)) as (_ & _ & _ & H4 & H5 & _). split; [done|]. split; [done|].
  intros fuel c' Hc b bs args w r Hok Eb. eapply (convert_runs fresh Hfresh m address_of other Haddr Hother); [|..|by apply Hok|exact Eb].
  - by eapply calls_stay_in.
  - intros h G args' w' r' HG Ha. apply Hc. intros G' HG'. rewrite HG in HG'. by injection HG' as <-.
  - apply function_typed_facts; [by unfold isDeclaration; rewrite Eb|by apply module_facts].
  - rewrite Forall_forall in Hfit. specialize (Hfit F Hin). by apply Forall_forall.
Qed.
(** C23: the functions of a well-typed module return what they returned, with the
    same effects, after ClamBCExtendPHIsTo64Bit, for all arguments in the range of
    their types, if the integer phi nodes have at most 64 bits: constants and
    values of either sign, loops in which phi nodes feed each other, several phi
    nodes of a block and calls are covered. What is returned is in the range of its
    type. *)
Theorem ExtendPHIsTo64Bit_correct : Forall (fun F => Forall phi_fits (all_phis F)) (m_functions m) ->
  forall fuel g F args w v w', find_function m g = Some F -> args_in F args ->
    call_function M base (fun _ => ∅) fuel m g args w = Some (v, w') ->
    call_function M base (fun _ => ∅) fuel m' g args w = Some (v, w') /\ result_in (f_ret F) v.
Proof.
  intros Hfit fuel g F args w v w' HF Ha E. split; [by eapply extended_preserves|]. by eapply (calls_stay_in address_of other Haddr Hother m base Hm Hbase fuel g F).
Qed.
End modules.

(** ** An example: phi nodes that feed each other *)

(** A name that is longer than all others. *)
Definition longer_name (F : Function_) : string := String.String "#" (foldr String.append "" (all_names F)).
Lemma longer_name_new F : longer_name F ∉ all_names F.
Proof.
  unfold longer_name. assert (H : forall l x, x ∈ l -> (String.length x <= String.length (foldr String.append "" l))%nat).
  { intros l x. induction l as [|z l IH]; [by intros H%not_elem_of_nil|]. cbn [foldr]. assert (Hl : forall a b, String.length (String.append a b) = (String.length a + String.length b)%nat).
    { intros a b. induction a as [|ch a IHa]; [done|]. simpl. congruence. }
    rewrite Hl. intros [->|Hx]%elem_of_cons; [lia|]. specialize (IH Hx). lia. }
  intros Hin. specialize (H _ _ Hin). cbn [String.length] in H. lia.
Qed.
#[local] Abbreviation i8 := (TyInt 8).
#[local] Abbreviation i1 := (TyInt 1).
Definition demo_phi (x : string) (t : ty) (v v' : Value) : Phi := {| phi_name := x; phi_type := t; phi_incoming := [(v, "entry"); (v', "loop")] |}.
Definition demo_function (f : string) (bs : list Block) : Function_ := {|
  f_name := f; f_args := [("n", i8)]; f_ret := i8; f_vararg := false; f_cc := 0; f_sret := false; f_available_externally := false; f_intrinsic := None; f_blocks := bs |}.
Definition demo_loop : Function_ := demo_function "loop" [
  {| bb_name := "entry"; bb_phis := []; bb_insts := []; bb_term := Jmp "loop" |};
  {| bb_name := "loop";
     bb_phis := [
       demo_phi "i" i8 (ConstantInt 8 251) (Local "j" i8); demo_phi "a" i8 (ConstantInt 8 1) (Local "b" i8);
       demo_phi "b" i8 (Local "n" i8) (Local "a" i8); demo_phi "last" i1 (ConstantInt 1 1) (Local "c" i1)];
     bb_insts := [inst "j" i8 (Binary Add (Local "i" i8) (ConstantInt 8 1)); inst "c" i1 (ICmp ICMP_SLT (Local "j" i8) (Local "n" i8))];
     bb_term := Br (Local "c" i1) "loop" "exit" |};
  {| bb_name := "exit"; bb_phis := [];
     bb_insts := [inst "s" i8 (Select (Local "last" i1) (Local "a" i8) (ConstantInt 8 0)); inst "t" i8 (Binary Sub (Local "s" i8) (Local "i" i8))];
     bb_term := Ret (Local "t" i8) |} ].
Definition demo_main : Function_ := demo_function "main" [
  {| bb_name := "entry"; bb_phis := []; bb_insts := [inst "r" i8 (Call (FunctionValue "loop" (TyPtr (TyFun i8 [i8] false))) 0 [Local "n" i8])];
     bb_term := Ret (Local "r" i8) |} ].
Definition demo_phis : Module_ := {|
  m_structs := ∅; m_globals := []; m_functions := [demo_loop; demo_main]; m_logicalsignature := None; m_virusnames := None; m_funcmin := None; m_funcmax := None |}.
Definition demo_call_phis (m : Module_) (n : Z) : option (option Z * unit) :=
  call_function (integer_meaning (fun _ => 0) (fun _ _ _ => None)) (fun _ _ _ => None) (fun _ => ∅) 12 m "main" [n] tt.
Definition extended_phis : Module_ := snd (ExtendPHIsTo64Bit longer_name demo_phis).
Lemma ExtendPHIsTo64Bit_typed_witness : module_typed demo_phis = true /\ module_typed extended_phis = true /\
  Forall (fun F => Forall (fun p => narrow (phi_type p) = false) (all_phis F)) (m_functions extended_phis) /\ fst (ExtendPHIsTo64Bit longer_name extended_phis) = true.
Proof.
  assert (H : module_typed demo_phis = true) by (vm_compute; reflexivity). split; [exact H|].
  destruct (ExtendPHIsTo64Bit_typed longer_name longer_name_new demo_phis H) as (H1 & H2 & _). split; [exact H1|]. split; [exact H2|]. vm_compute. reflexivity.
Defined.
Lemma ExtendPHIsTo64Bit_correct_witness :
  demo_call_phis demo_phis 253 = Some (Some 1, tt) /\ demo_call_phis extended_phis 253 = Some (Some 1, tt).
Proof.
  split; [vm_compute; reflexivity|].
  assert (Uniform (integer_meaning (fun _ => 0) (fun (_ : Inst) (_ : list Z) (_ : unit) => None))) by (apply integer_uniform; reflexivity).
  apply (ExtendPHIsTo64Bit_correct longer_name longer_name_new demo_phis ltac:(vm_compute; reflexivity) (fun _ => 0) (fun _ _ _ => None) (fun _ _ _ => None)) with (F := demo_main) (fuel := 12%nat).
  - intros v Hv. now apply in_ty_zero.
  - intros i vs w x w' E. discriminate E.
  - intros g G args w v w' _ _ E. discriminate E.
  - repeat constructor; vm_compute; discriminate.
  - reflexivity.
  - intros k t x Ht Hx. destruct k as [|[|k]]; try discriminate Hx. injection Ht as <-. injection Hx as <-. vm_compute. split; [discriminate|reflexivity].
  - vm_compute. reflexivity.
Defined.
(** Phi nodes of more than 64 bits lose bits. *)
Definition wide_phi : Function_ := {|
  f_name := "main"; f_args := [("n", TyInt 128)]; f_ret := TyInt 128; f_vararg := false; f_cc := 0; f_sret := false; f_available_externally := false; f_intrinsic := None;
  f_blocks := [
    {| bb_name := "entry"; bb_phis := []; bb_insts := []; bb_term := Jmp "next" |};
    {| bb_name := "next"; bb_phis := [{| phi_name := "x"; phi_type := TyInt 128; phi_incoming := [(Local "n" (TyInt 128), "entry")] |}]; bb_insts := [];
       bb_term := Ret (Local "x" (TyInt 128)) |} ] |}.
Definition wide_phis : Module_ := {|
  m_structs := ∅; m_globals := []; m_functions := [wide_phi]; m_logicalsignature := None; m_virusnames := None; m_funcmin := None; m_funcmax := None |}.
Lemma wide_phi_loses_bits : module_typed wide_phis = true /\ demo_call_phis wide_phis (2 ^ 64) = Some (Some (2 ^ 64), tt) /\
  demo_call_phis (snd (ExtendPHIsTo64Bit longer_name wide_phis)) (2 ^ 64) = Some (Some 0, tt).
Proof. vm_compute. done. Qed.
