(* ===== verification/Outline.v ===== *)
(** * Outline: calls of __is_bigendian

    libclambcc/ClamBCOutlineEndiannessCalls.cpp: the optimizer must not fold the
    byte order of the machine the signature runs on, so all calls of
    __is_bigendian go through one new function that is not inlined. It costs one
    more call and changes nothing else. *)
From S2P Require Import Prelude IR Semantics Integers Intrinsics SmallPasses.
Local Open Scope string_scope.
Local Open Scope list_scope.
Local Open Scope outcome_scope.

(** ** The pass *)

Definition is_bigendian : string := "__is_bigendian".
(** getCalledFunction is null for an indirect call, and its name is asked for. *)
Definition endian_call (i : Inst) : outcome bool :=
  match i_kind i with
  | Call (FunctionValue x _) _ _ => Done (String.eqb is_bigendian x)
  | Call _ _ _ => Undefined "null pointer"
  | _ => Done false
  end.
Fixpoint findCalls_insts (l : list Inst) : outcome (list Inst) :=
  match l with
  | [] => Done []
  | i :: l => let* found := endian_call i in let* calls := findCalls_insts l in Done (if found then i :: calls else calls)
  end.
Definition findCalls (m : Module_) : outcome (list Inst) := findCalls_insts (flat_map all_insts (m_functions m)).

(** CallInst::Create without arguments. *)
Definition call_without_arguments (x : string) (F : Function_) : outcome Inst :=
  let* _ := assert_ (bool_decide (f_args F = [])) "Calling a function with bad signature!" in
  Done (inst x (f_ret F) (Call (FunctionValue (f_name F) (TyPtr (f_type F))) 0 [])).
(** Its body is a call of the function that is outlined; that it is neither
    inlined nor optimized is an attribute. *)
Definition outlined (name : string) (func : Function_) : outcome Function_ :=
  let* pCallInst := call_without_arguments "newCall" func in
  Done {| f_name := name; f_args := f_args func; f_ret := f_ret func; f_vararg := f_vararg func; f_cc := 0; f_sret := false;
          f_available_externally := false; f_intrinsic := None;
          f_blocks := [straight_block "entry" [pCallInst] (Ret (Local "newCall" (f_ret func)))] |}.
Definition getNewEndiannessFunction (name : string) (m : Module_) (ci : Inst) : outcome Function_ :=
  match called_function m ci with
  | Some func => outlined name func
  | None => AssertFailed "HOW DID WE GET HERE?"
  end.
(** The new call takes over the uses of the old one, so it gets its name. *)
Definition outline_inst (pNew : Function_) (i : Inst) : outcome Inst :=
  let* found := endian_call i in
  if found then
    let* _ := assert_ (bool_decide (i_type i = f_ret pNew)) "replaceAllUses of value with new value of different type!" in
    call_without_arguments (i_name i) pNew
  else Done i.
Definition outline_block (pNew : Function_) (b : Block) : outcome Block :=
  let* l := mapM_out (outline_inst pNew) (bb_insts b) in Done (with_insts b l).
Definition outline_function (pNew F : Function_) : outcome Function_ :=
  let* bs := mapM_out (outline_block pNew) (f_blocks F) in Done (with_blocks F bs).

Section pass.
(** What LLVM makes of the name new__is_bigendian. *)
Context (fresh : Module_ -> string).
(** bChanged is never set. *)
Definition OutlineEndiannessCalls (m : Module_) : outcome pass_result :=
  let* calls := findCalls m in
  match calls with
  | [] => Done (true, m)
  | ci :: _ =>
      let* pNew := getNewEndiannessFunction (fresh m) m ci in
      let* l := mapM_out (outline_function pNew) (m_functions m) in
      Done (true, with_functions m (l ++ [pNew]))
  end.
End pass.

(** ** What calls what *)

Definition calls_of (F : Function_) : nat := length (List.filter (fun i => match endian_call i with Done true => true | _ => false end) (all_insts F)).
(** Calls are direct, and those of __is_bigendian have no arguments and the type
    of what they return. *)
Definition direct (i : Inst) : Prop := match i_kind i with Call (FunctionValue _ _) _ _ => True | Call _ _ _ => False | _ => True end.
Definition endian_call_ok (D : Function_) (i : Inst) : Prop := endian_call i = Done true -> i_type i = f_ret D /\ forall callee cc args, i_kind i = Call callee cc args -> args = [].
Definition endian_declared (m : Module_) : Prop :=
  exists D, find_function m is_bigendian = Some D /\ f_blocks D = [] /\ f_args D = [] /\ f_ret D <> TyVoid /\
    Forall (fun F => Forall (fun i => direct i /\ endian_call_ok D i) (all_insts F)) (m_functions m).

Lemma endian_call_direct i : direct i -> exists found, endian_call i = Done found.
Proof. unfold direct, endian_call. destruct (i_kind i) as [| | | | | | | |[]| | |]; try done; by eexists. Qed.
Lemma endian_call_true i : endian_call i = Done true -> exists t cc args, i_kind i = Call (FunctionValue is_bigendian t) cc args.
Proof.
  unfold endian_call. destruct (i_kind i) as [| | | | | | | |callee cc args| | |]; try done. destruct callee as [| | |x t| | | | | | | | |]; try done.
  intros H%Done_inj. apply String.eqb_eq in H as <-. by exists t, cc, args.
Qed.
Lemma findCalls_insts_spec l : Forall direct l ->
  findCalls_insts l = Done (List.filter (fun i => match endian_call i with Done true => true | _ => false end) l).
Proof.
  induction 1 as [|i l Hi _ IH]; [done|]. cbn [findCalls_insts List.filter]. destruct (endian_call_direct i Hi) as (found & ->). cbn [obind]. rewrite IH. by destruct found.
Qed.

(** ** The calls are outlined *)

Section preserve.
Context {V W : Type} (M : Meaning V W).
Context (base : string -> list V -> W -> option (option V * W)) (slots : string -> gset string).
Abbreviation call := (call_function M base slots).
Context (fresh : Module_ -> string) (m : Module_) (D : Function_).
Context (Hnew : find_function m (fresh m) = None) (HD : find_function m is_bigendian = Some D) (Hdecl : f_blocks D = []) (Hargs : f_args D = []) (Hret : f_ret D <> TyVoid).
Context (Hcalls : Forall (fun F => Forall (fun i => direct i /\ endian_call_ok D i) (all_insts F)) (m_functions m)).

Lemma declared_name : f_name D = is_bigendian.
Proof. unfold find_function in HD. apply List.find_some in HD as [_ E]. by apply String.eqb_eq in E. Qed.
Definition new_call : Inst := inst "newCall" (f_ret D) (Call (FunctionValue is_bigendian (TyPtr (f_type D))) 0 []).
Definition pNew : Function_ := {|
  f_name := fresh m; f_args := []; f_ret := f_ret D; f_vararg := f_vararg D; f_cc := 0; f_sret := false; f_available_externally := false; f_intrinsic := None;
  f_blocks := [straight_block "entry" [new_call] (Ret (Local "newCall" (f_ret D)))] |}.
Definition outline (i : Inst) : Inst :=
  match endian_call i with
  | Done true => inst (i_name i) (f_ret D) (Call (FunctionValue (fresh m) (TyPtr (f_type pNew))) 0 [])
  | _ => i
  end.
Definition outlined_function (F : Function_) : Function_ := with_blocks F (map (fun b => with_insts b (map outline (bb_insts b))) (f_blocks F)).
Definition outlined_module : Module_ := with_functions m (map outlined_function (m_functions m) ++ [pNew]).

Lemma ok_inst F i : F ∈ m_functions m -> i ∈ all_insts F -> direct i /\ endian_call_ok D i.
Proof. intros HF Hi. rewrite Forall_forall in Hcalls. specialize (Hcalls F HF). rewrite Forall_forall in Hcalls. by apply Hcalls. Qed.
Lemma outline_inst_spec i : direct i -> endian_call_ok D i -> outline_inst pNew i = Done (outline i).
Proof.
  intros H1 H2. unfold outline_inst, outline. destruct (endian_call_direct i H1) as (found & E). rewrite E. cbn [obind]. destruct found; [|done].
  destruct (H2 E) as [-> _]. unfold assert_. rewrite bool_decide_true by done. cbn [obind]. unfold call_without_arguments, assert_. by rewrite bool_decide_true.
Qed.
Lemma mapM_out_map {A B} (f : A -> outcome B) (g : A -> B) l : (forall x, x ∈ l -> f x = Done (g x)) -> mapM_out f l = Done (map g l).
Proof.
  induction l as [|x l IH]; intros H; [done|]. cbn [mapM_out map]. rewrite (H x ltac:(by left)). cbn [obind]. by rewrite IH by (intros y Hy; apply H; by right).
Qed.
Lemma outline_function_spec F : F ∈ m_functions m -> outline_function pNew F = Done (outlined_function F).
Proof.
  intros HF. unfold outline_function, outlined_function. erewrite mapM_out_map; [reflexivity|]. intros b Hb. unfold outline_block. erewrite mapM_out_map; [reflexivity|].
  intros i Hi. apply outline_inst_spec; apply (ok_inst F); try done; apply elem_of_flat_map; by exists b.
Qed.
Lemma outline_result : exists calls, findCalls m = Done calls /\
  OutlineEndiannessCalls fresh m = Done (true, match calls with [] => m | _ => outlined_module end) /\
  (calls = [] -> Forall (fun F => calls_of F = O) (m_functions m)).
Proof.
  assert (Hd : Forall direct (flat_map all_insts (m_functions m))).
  { apply Forall_flat_map. eapply Forall_impl; [exact Hcalls|]. intros F H. eapply Forall_impl; [exact H|]. by intros i [? _]. }
  unfold findCalls, OutlineEndiannessCalls, findCalls. rewrite (findCalls_insts_spec _ Hd). cbn [obind]. eexists. split; [reflexivity|]. split.
  - destruct (List.filter _ _) as [|ci cs] eqn:E; [done|]. assert (Hci : ci ∈ ci :: cs) by (by left). rewrite <- E in Hci. apply list_elem_of_In, filter_In in Hci as [_ Hci].
    destruct (endian_call ci) as [[]| | |] eqn:Ec; try done. apply endian_call_true in Ec as (t & cc & args & Ek). unfold getNewEndiannessFunction, called_function. rewrite Ek, HD.
    unfold outlined, call_without_arguments, assert_. rewrite Hargs, bool_decide_true by done. cbn [obind]. rewrite declared_name. fold new_call. fold pNew.
    erewrite mapM_out_map; [reflexivity|]. apply outline_function_spec.
  - intros E. apply Forall_forall. intros F HF. unfold calls_of. apply length_zero_iff_nil. destruct (List.filter _ (all_insts F)) as [|i l] eqn:Ei; [done|]. exfalso.
    assert (Hi : In i (i :: l)) by (by left). rewrite <- Ei in Hi. apply filter_In in Hi as [Hi Hc]. eapply in_nil. rewrite <- E. apply filter_In. split; [|exact Hc].
    apply in_flat_map. exists F. by rewrite <- list_elem_of_In.
Qed.
Lemma outline_not_endian i : endian_call (outline i) <> Done true.
Proof.
  unfold outline. destruct (endian_call i) as [[]| | |] eqn:E; rewrite ?E; try done. intros H.
  assert (H2 : Done (String.eqb is_bigendian (fresh m)) = Done true) by exact H. apply Done_inj, String.eqb_eq in H2. by rewrite <- H2, HD in Hnew.
Qed.
Lemma outlined_calls F : calls_of (outlined_function F) = O.
Proof.
  unfold calls_of. apply length_zero_iff_nil. unfold all_insts, outlined_function. cbn [f_blocks with_blocks].
  destruct (List.filter _ _) as [|i l] eqn:Ei; [done|]. exfalso. assert (Hi : In i (i :: l)) by (by left). rewrite <- Ei in Hi. apply filter_In in Hi as [Hi Hc].
  apply in_flat_map in Hi as (b & Hb & Hi). apply in_map_iff in Hb as (b0 & <- & _). cbn [bb_insts with_insts] in Hi. apply in_map_iff in Hi as (j & <- & _).
  pose proof (outline_not_endian j). by destruct (endian_call (outline j)) as [[]| | |].
Qed.

Lemma find_outlined g F : find_function m g = Some F -> find_function outlined_module g = Some (outlined_function F).
Proof.
  intros H. unfold find_function, outlined_module. cbn [m_functions with_functions]. apply find_app. unfold find_function in H. clear - H. induction (m_functions m) as [|G l IH]; [done|].
  cbn [map List.find outlined_function f_name with_blocks] in *. destruct (String.eqb (f_name G) g); [by injection H as ->|by apply IH].
Qed.
Lemma find_new : find_function outlined_module (fresh m) = Some pNew.
Proof.
  unfold find_function, outlined_module. cbn [m_functions with_functions]. apply find_app_new; [|apply String.eqb_refl]. unfold find_function in Hnew. clear - Hnew. revert Hnew. generalize (fresh m) as x. intros x Hnew.
  induction (m_functions m) as [|G l IH]; [done|]. cbn [map List.find outlined_function f_name with_blocks] in *. by destruct (String.eqb (f_name G) x); [|apply IH].
Qed.
(** What a call of the new function does. *)
Lemma call_new fuel w v w' : call fuel m is_bigendian [] w = Some (v, w') ->
  call (Datatypes.S fuel) outlined_module (fresh m) [] w = Some (Some (default undefined v), w').
Proof.
  destruct fuel as [|fuel]; [done|]. cbn [call_function]. rewrite HD. cbn [mbind option_bind]. rewrite Hdecl. intros Hb.
  rewrite find_new. cbn [mbind option_bind pNew f_blocks f_args straight_block bb_name map zip zip_with list_to_map]. cbn [run_blocks].
  unfold find_bb. cbn [List.find bb_name]. rewrite String.eqb_refl. cbn [mbind option_bind straight_block bb_phis enter bb_insts]. cbn [exec_insts exec_inst new_call inst i_kind i_type i_name operands sem with_calls length map firstn app].
  pose proof (find_outlined _ _ HD) as Hf. cbn [call_function]. rewrite Hf. cbn [mbind option_bind outlined_function f_blocks with_blocks]. rewrite Hdecl. cbn [map]. rewrite Hb. cbn [mbind option_bind bb_term leave].
  destruct (f_ret D) eqn:Er; try done; cbn [eval]; rewrite lookup_insert_eq; done.
Qed.
Lemma outline_follows fuel i : (forall g args w r, call fuel m g args w = Some r -> call (Datatypes.S fuel) outlined_module g args w = Some r) -> endian_call_ok D i ->
  follows M (call fuel m) (call (Datatypes.S fuel) outlined_module) i (outline i).
Proof.
  intros Hc Hok. unfold outline. destruct (endian_call i) as [[]| | |] eqn:E; try (by apply follows_refl).
  destruct (Hok E) as [Ht Ha]. destruct (endian_call_true i E) as (t & cc & args & Ek). specialize (Ha _ _ _ Ek) as ->. destruct i as [x ty k]. cbn [i_name i_type i_kind] in *. subst k ty.
  intros S [[e mem] w] s1. cbn [exec_inst inst i_kind i_name i_type operands sem with_calls length map firstn app].
  intros ([v w'] & ([v2 w2] & E1 & E2)%bind_Some & E3)%bind_Some. injection E2 as <- <-. rewrite (call_new fuel w v2 w2 E1). cbn [mbind option_bind default from_option id]. exact E3.
Qed.
Lemma outlined_preserves fuel g args w r : call fuel m g args w = Some r -> call (Datatypes.S fuel) outlined_module g args w = Some r.
Proof.
  revert g args w r. induction fuel as [|fuel IH]; intros g args w r; [done|]. intros E. change (call (Datatypes.S fuel) m g args w) with (
    F ← find_function m g; match f_blocks F with [] => base g args w | b :: _ => run_blocks (M := with_calls M (call fuel m)) (slots g) fuel (f_blocks F) (bb_name b) None (list_to_map (zip (map fst (f_args F)) args), ∅, w) end) in E.
  apply bind_Some in E as (F & HF & E). remember (Datatypes.S fuel) as fuel' eqn:Ef. cbn [call_function]. rewrite (find_outlined g F HF). cbn [mbind option_bind outlined_function f_blocks f_args with_blocks].
  destruct (f_blocks F) as [|b bs] eqn:Eb; [done|]. cbn [map with_insts bb_name]. eapply (run_blocks_follow M (call fuel m) _ _ (b :: bs) _ fuel); [|lia|exact E]. rewrite <- Eb.
  change (with_insts b (map outline (bb_insts b)) :: map _ bs) with (map (fun b => with_insts b (map outline (bb_insts b))) (b :: bs)). rewrite <- Eb.
  apply Forall2_fmap_r, Forall_Forall2_diag, Forall_forall. intros b' Hb'. split; [done|]. split; [done|]. split; [done|]. cbn [bb_insts with_insts].
  apply Forall2_fmap_r, Forall_Forall2_diag, Forall_forall. intros i Hi. subst fuel'. apply outline_follows; [done|].
  apply (ok_inst F); [by eapply find_function_elem|]. apply elem_of_flat_map. by exists b'.
Qed.
End preserve.

(** C27: ClamBCOutlineEndiannessCalls succeeds when __is_bigendian is declared without
    parameters and with a result, its calls are calls of that type, every other call
    of the module is direct as well - the pass dereferences the missing callee of an
    indirect call ([outline_indirect]) - and the name of the new function is not
    taken; after it the only call of __is_bigendian, if there was one, is that
    of the new function, and the functions of the module return what they
    returned, with the same effects, within one more call. *)
Theorem OutlineEndiannessCalls_correct {V W : Type} (M : Meaning V W) (base : string -> list V -> W -> option (option V * W)) (slots : string -> gset string)
    (fresh : Module_ -> string) m : find_function m (fresh m) = None -> endian_declared m ->
  exists m', OutlineEndiannessCalls fresh m = Done (true, m') /\
    Forall (fun F => calls_of F = if String.eqb (f_name F) (fresh m) then 1%nat else O) (m_functions m') /\
    forall fuel g args w r, call_function M base slots fuel m g args w = Some r -> call_function M base slots (Datatypes.S fuel) m' g args w = Some r.
Proof.
  intros Hnew (D & HD & Hdecl & Hargs & Hret & Hcalls). destruct (outline_result fresh m D HD Hargs Hcalls) as (calls & _ & E & Hnone). eexists. split; [exact E|].
  assert (Hold : forall F, F ∈ m_functions m -> String.eqb (f_name F) (fresh m) = false).
  { intros F HF. apply not_true_iff_false. intros H. unfold find_function in Hnew. apply list_elem_of_In in HF. apply (List.find_none _ _ Hnew) in HF. congruence. }
  destruct calls as [|ci cs]; split.
  - specialize (Hnone eq_refl). rewrite Forall_forall in *. intros F HF. rewrite (Hold F HF). by apply Hnone.
  - intros fuel g args w r. apply call_more. lia.
  - cbn [outlined_module m_functions with_functions]. apply Forall_app. split; [|constructor; [|constructor]].
    + apply List.Forall_map, Forall_forall. intros F HF. cbn [outlined_function f_name with_blocks]. rewrite (Hold F HF). by apply (outlined_calls fresh m D Hnew HD).
    + cbn [pNew f_name]. by rewrite String.eqb_refl.
  - by apply outlined_preserves.
Qed.

(** ** An example *)

Definition demo_endian : Module_ := {|
  m_structs := ∅; m_globals := [];
  m_functions := [
    {| f_name := "entrypoint"; f_args := []; f_ret := TyInt 32; f_vararg := false; f_cc := 0; f_sret := false; f_available_externally := false; f_intrinsic := None;
       f_blocks := [straight_block "entry" [
         inst "a" (TyInt 32) (Call (FunctionValue is_bigendian (TyPtr (TyFun (TyInt 32) [] false))) 0 []);
         inst "b" (TyInt 32) (Call (FunctionValue is_bigendian (TyPtr (TyFun (TyInt 32) [] false))) 0 []);
         inst "c" (TyInt 32) (Binary Add (Local "a" (TyInt 32)) (Local "b" (TyInt 32)))] (Ret (Local "c" (TyInt 32)))] |};
    {| f_name := is_bigendian; f_args := []; f_ret := TyInt 32; f_vararg := false; f_cc := 0; f_sret := false; f_available_externally := false; f_intrinsic := None;
       f_blocks := [] |} ];
  m_logicalsignature := None; m_virusnames := None; m_funcmin := None; m_funcmax := None |}.
(** The world counts the calls. *)
Definition demo_order (name : string) (args : list Z) (calls : nat) : option (option Z * nat) :=
  if String.eqb name is_bigendian then Some (Some 1%Z, Datatypes.S calls) else None.
Definition outlined_demo : Module_ := match OutlineEndiannessCalls (fun _ => "new__is_bigendian") demo_endian with Done (_, m) => m | _ => demo_endian end.
Definition demo_call_endian (fuel : nat) (m : Module_) : option (option Z * nat) :=
  call_function (integer_meaning (fun _ => 0%Z) (fun _ _ _ => None)) demo_order (fun _ => ∅) fuel m "entrypoint" [] O.
Lemma OutlineEndiannessCalls_correct_witness : map calls_of (m_functions demo_endian) = [2; O]%nat /\ map calls_of (m_functions outlined_demo) = [O; O; 1]%nat /\
  demo_call_endian 2 demo_endian = Some (Some 2%Z, 2%nat) /\ demo_call_endian 3 outlined_demo = Some (Some 2%Z, 2%nat).
Proof.
  destruct (OutlineEndiannessCalls_correct (integer_meaning (fun _ => 0%Z) (fun _ _ _ => None)) demo_order (fun _ => ∅) (fun _ => "new__is_bigendian") demo_endian) as (m' & E & H1 & H2).
  - reflexivity.
  - eexists. split; [reflexivity|]. split; [reflexivity|]. split; [reflexivity|]. split; [discriminate|].
    apply Forall_cons_2; [cbn [all_insts f_blocks flat_map bb_insts straight_block app]|apply Forall_cons_2; [constructor|constructor]].
    repeat (apply Forall_cons_2; [split; [exact I|]|]); [intros _; split; [reflexivity|intros callee cc args Ek; injection Ek as _ _ <-; reflexivity]..|intros H; discriminate H|constructor].
  - assert (outlined_demo = m') as -> by (unfold outlined_demo; rewrite E; reflexivity). split; [reflexivity|]. split.
    + vm_compute in E. injection E as <-. vm_compute. reflexivity.
    + split; [vm_compute; reflexivity|]. apply H2. vm_compute. reflexivity.
Defined.
(** The pass reports that it has changed nothing, and an indirect call stops it. *)
Lemma outline_reports_no_change : outlined_demo <> demo_endian /\ exists m, OutlineEndiannessCalls (fun _ => "new__is_bigendian") demo_endian = Done (true, m).
Proof. split; [|eexists; vm_compute; reflexivity]. intros H. apply (f_equal (fun m => length (m_functions m))) in H. discriminate. Qed.
Definition demo_indirect : Module_ := with_functions demo_endian [
  {| f_name := "entrypoint"; f_args := [("f", TyPtr (TyFun TyVoid [] false))]; f_ret := TyVoid; f_vararg := false; f_cc := 0; f_sret := false; f_available_externally := false;
     f_intrinsic := None; f_blocks := [straight_block "entry" [inst "" TyVoid (Call (Local "f" (TyPtr (TyFun TyVoid [] false))) 0 [])] RetVoid] |} ].
Lemma outline_indirect : exists why, OutlineEndiannessCalls (fun _ => "new__is_bigendian") demo_indirect = Undefined why.
Proof. eexists. reflexivity. Qed.
