(* ===== verification/Pipeline.v ===== *)
(** * Pipeline: the last passes together

    clambcc/clambc-compiler.py runs ClamBCOutlineEndiannessCalls,
    ClamBCExtendPHIsTo64Bit and ClamBCConvertIntrinsicsTo32Bit one after the
    other, with LLVM's verifier in between. Each pass keeps what the next one
    relies on, so together they preserve what the module computes. *)
From S2P Require Import Prelude IR Semantics Integers Dominance Intrinsics SmallPasses Typing ExtendPHIs Outline.
Local Open Scope string_scope.
Local Open Scope list_scope.
Local Open Scope Z_scope.
Local Open Scope outcome_scope.

(** ** The passes *)

(** [name_function], [name_value] and [name_size] are the names LLVM makes. *)
Definition last_passes (name_function : Module_ -> string) (name_value : Function_ -> string) (name_size : string -> string -> nat -> string) (m : Module_) : outcome Module_ :=
  let* r := OutlineEndiannessCalls name_function m in
  let* r := ConvertIntrinsicsTo32Bit name_size (snd (ExtendPHIsTo64Bit name_value (snd r))) in
  Done (snd r).

(** ** Outlining keeps a module typed *)

Section outlined.
Context (fresh : Module_ -> string) (m : Module_) (D : Function_).
Context (Hnew : find_function m (fresh m) = None) (HD : find_function m is_bigendian = Some D) (Hargs : f_args D = []) (Hret : f_ret D <> TyVoid).
Context (Hcalls : Forall (fun F => Forall (fun i => direct i /\ endian_call_ok D i) (all_insts F)) (m_functions m)).
Context (Hm : module_typed m = true) (Hvalid : valid_ty (f_ret D) = true).
Abbreviation m1 := (outlined_module fresh m D).
Abbreviation out := (outline fresh m D).

Lemma outlined_more f G : find_function m f = Some G -> exists G', find_function m1 f = Some G' /\ f_type G' = f_type G.
Proof. intros HG. exists (outlined_function fresh m D G). by rewrite (find_outlined fresh m D f G HG). Qed.
Lemma outlined_block_types F : F ∈ m_functions m -> typed_defs (outlined_function fresh m D F) = typed_defs F.
Proof.
  intros HF. unfold typed_defs. cbn [outlined_function f_args f_blocks with_blocks]. f_equal.
  assert (H : forall b, b ∈ f_blocks F -> typed_block_defs (with_insts b (map out (bb_insts b))) = typed_block_defs b).
  { intros b Hb. unfold typed_block_defs. cbn [with_insts bb_phis bb_insts]. f_equal.
    assert (Hi : forall i, i ∈ bb_insts b -> inst_defs (out i) = inst_defs i).
    { intros i Hi. unfold outline. destruct (endian_call i) as [[]| | |] eqn:E; try done. unfold inst_defs, has_result. cbn [inst i_type i_name].
      destruct (ok_inst m D Hcalls F i HF) as [_ Hok]; [apply elem_of_flat_map; by exists b|]. by destruct (Hok E) as [-> _]. }
    induction (bb_insts b) as [|i l IH]; [done|]. cbn [map flat_map]. rewrite Hi by (by left). f_equal. apply IH. intros j Hj. apply Hi. by right. }
  induction (f_blocks F) as [|b bs IH]; [done|]. cbn [map flat_map]. rewrite H by (by left). f_equal. apply IH. intros b' Hb'. apply H. by right.
Qed.
Lemma outlined_inst_typed F T i : F ∈ m_functions m -> i ∈ all_insts F -> inst_typed m T i = true -> inst_typed m1 T (out i) = true.
Proof.
  intros HF Hi Ht. unfold outline. destruct (endian_call i) as [[]| | |] eqn:E; try (by apply (inst_typed_more m); [apply outlined_more|]).
  unfold inst_typed. cbn [inst i_type i_kind operands app forallb]. rewrite Hvalid. unfold value_typed. cbn [type_of valid_ty]. rewrite (find_new fresh m D Hnew).
  rewrite bool_decide_true by done. cbn [andb]. unfold call_typed, f_type. cbn [type_of pNew f_ret f_args f_vararg map]. rewrite bool_decide_true by done. cbn [andb].
  destruct (f_vararg D); by apply bool_decide_eq_true.
Qed.
Lemma outlined_function_typed F : F ∈ m_functions m -> function_typed m1 (outlined_function fresh m D F) = true.
Proof.
  intros HF. pose proof (forallb_elem _ _ _ Hm HF) as Ht. apply (function_typed_more m m1 outlined_more) in Ht as Ht1. unfold function_typed in *.
  assert (Ed : isDeclaration (outlined_function fresh m D F) = isDeclaration F) by (unfold isDeclaration, outlined_function; cbn [f_blocks with_blocks]; by destruct (f_blocks F)).
  rewrite Ed. destruct (isDeclaration F); [done|]. cbn [orb] in *.
  rewrite (outlined_block_types F HF). cbn [outlined_function f_args f_ret with_blocks]. rewrite !andb_true_iff in *. destruct Ht as (((_ & H2) & H3) & H4), Ht1 as (((H1 & _) & _) & H5).
  split; [split; [split; [|done]|done]|].
  - unfold labels_known, outlined_function in *. cbn [f_blocks with_blocks]. rewrite map_map. cbn [with_insts bb_name]. rewrite andb_true_iff in *. destruct H1 as [H1 H1']. split; [done|].
    assert (E : flat_map bb_phis (map (fun b => with_insts b (map out (bb_insts b))) (f_blocks F)) = flat_map bb_phis (f_blocks F)).
    { clear. induction (f_blocks F) as [|b bs IH]; [done|]. cbn [map flat_map]. by rewrite IH. }
    by rewrite E.
  - unfold outlined_function. cbn [f_blocks with_blocks]. apply forallb_forall. intros b' Hb'. apply in_map_iff in Hb' as (b & <- & Hb). rewrite forallb_forall in H4, H5. specialize (H4 b Hb). specialize (H5 b Hb).
    unfold block_typed in *. cbn [with_insts bb_phis bb_insts bb_term]. rewrite !andb_true_iff in *. destruct H4 as ((_ & H4) & _), H5 as ((H6 & _) & H7). split; [split; [done|]|done].
    apply forallb_forall. intros i' Hi'. apply in_map_iff in Hi' as (i & <- & Hi). apply (outlined_inst_typed F); [done|apply elem_of_flat_map; exists b; by rewrite !list_elem_of_In|].
    rewrite forallb_forall in H4. by apply H4.
Qed.
Lemma new_function_typed : function_typed m1 (pNew fresh m D) = true.
Proof.
  assert (Hd : inst_defs (new_call D) = [("newCall", f_ret D)]) by (unfold inst_defs, has_result; cbn; by destruct (f_ret D)).
  assert (Hdefs : typed_defs (pNew fresh m D) = [("newCall", f_ret D)]).
  { unfold typed_defs, typed_block_defs. cbn [pNew f_args f_blocks flat_map straight_block bb_phis bb_insts map app]. by rewrite Hd. }
  unfold function_typed. rewrite Hdefs. cbn [isDeclaration pNew f_blocks orb]. rewrite !andb_true_iff. split; [split; [split|done]|].
  - unfold labels_known. cbn. rewrite andb_true_r. apply bool_decide_eq_true. apply NoDup_singleton.
  - apply bool_decide_eq_true. apply NoDup_singleton.
  - cbn [pNew f_blocks f_ret forallb]. rewrite andb_true_r. unfold block_typed, straight_block. cbn [bb_phis bb_insts bb_term forallb]. rewrite andb_true_r.
    apply andb_true_iff. split; cbn [andb].
    + unfold inst_typed, new_call. cbn [inst i_type i_kind operands app forallb]. rewrite Hvalid. unfold value_typed. cbn [type_of valid_ty]. rewrite (find_outlined fresh m D _ _ HD).
      rewrite bool_decide_true by done. cbn [andb]. unfold call_typed, f_type. cbn [type_of]. rewrite Hargs. cbn [map]. rewrite bool_decide_true by done. cbn [andb].
      destruct (f_vararg D); by apply bool_decide_eq_true.
    + unfold term_typed, same_type, value_typed. cbn [term_operands forallb type_of]. rewrite Hvalid. rewrite !bool_decide_true; [done|done|by left].
Qed.
Lemma outlined_module_typed : module_typed m1 = true.
Proof.
  unfold module_typed. cbn [outlined_module m_functions with_functions]. rewrite forallb_app. cbn [forallb]. rewrite new_function_typed, !andb_true_r.
  apply forallb_forall. intros F' HF'. apply in_map_iff in HF' as (F & <- & HF). apply outlined_function_typed. by apply list_elem_of_In.
Qed.
Lemma find_outlined_back g G' : find_function m1 g = Some G' -> (exists G, find_function m g = Some G /\ G' = outlined_function fresh m D G) \/ (g = fresh m /\ G' = pNew fresh m D).
Proof.
  intros HG. destruct (find_function m g) as [G|] eqn:EG; [left; exists G; rewrite (find_outlined fresh m D g G EG) in HG; by injection HG as <-|]. right.
  unfold find_function, outlined_module in *. cbn [m_functions with_functions] in HG. rewrite find_app_none in HG.
  - cbn [List.find pNew f_name] in HG. destruct (String.eqb_spec (fresh m) g); [|done]. by injection HG as <-.
  - clear - EG. induction (m_functions m) as [|F l IH]; [done|]. cbn [map List.find outlined_function f_name with_blocks] in *. by destruct (String.eqb (f_name F) g); [|apply IH].
Qed.
End outlined.

(** ** What the passes rely on *)

Definition memory_names : list string := flat_map (fun d : string * string * intrinsic => [fst (fst d); snd (fst d)]) memory_replacements.
(** The memory intrinsics of a module have the types LLVM gives them. *)
Definition memory_type64 (k : intrinsic) : ty := TyFun TyVoid [i8ptr_ty; match k with memset => TyInt 8 | _ => i8ptr_ty end; TyInt 64; TyInt 1] false.
Definition memory_signatures (m : Module_) : Prop :=
  forall oldFunc newFunc k, (oldFunc, newFunc, k) ∈ memory_replacements ->
    (forall F, find_function m oldFunc = Some F -> f_blocks F = [] /\ f_type F = memory_type64 k) /\
    (forall F, find_function m newFunc = Some F -> f_blocks F = [] /\ f_type F = memory_type k).
Lemma signatures_declared m : memory_signatures m -> memory_declared m.
Proof. intros H o n k Hin. destruct (H o n k Hin) as [H1 H2]. split; [|done]. intros F HF. by apply H1. Qed.
Lemma memory_name o n k : (o, n, k) ∈ memory_replacements -> o ∈ memory_names /\ n ∈ memory_names.
Proof. intros H. split; apply elem_of_flat_map; exists (o, n, k); (split; [done|]); [by left|right; by left]. Qed.
(** Well-typed calls of them have four arguments. *)
Lemma signatures_calls m : module_typed m = true -> memory_signatures m -> memory_calls_typed m.
Proof.
  intros Hm Hs F i g t cc args HF Hi Hk Hg. apply list_elem_of_In, in_map_iff in Hg as ([[o n] k] & <- & Hin). apply list_elem_of_In in Hin. cbn [fst snd] in *.
  pose proof (forallb_elem _ _ _ Hm HF) as Ht. apply elem_of_flat_map in Hi as (b & Hb & Hi). apply function_typed_facts in Ht; [|by eapply inst_not_declared]. pose proof (ty_insts m F Ht b i Hb Hi) as E.
  unfold inst_typed in E. rewrite Hk in E. cbn [operands] in E. rewrite !andb_true_iff in E. destruct E as ((_ & Hops) & Hcall).
  assert (Hcallee : value_typed m (typed_defs F) (FunctionValue o t) = true) by (eapply forallb_elem; [exact Hops|set_solver]).
  unfold value_typed in Hcallee. apply andb_true_iff in Hcallee as [_ Hcallee]. destruct (find_function m o) as [G|] eqn:EG; [|done]. apply bool_decide_eq_true in Hcallee.
  destruct (proj1 (Hs o n k Hin) G EG) as [_ Hty]. rewrite Hcallee, Hty in Hcall. unfold call_typed in Hcall. cbn [type_of memory_type64] in Hcall.
  apply andb_true_iff in Hcall as [_ Hcall]. apply bool_decide_eq_true in Hcall. destruct args as [|a [|b0 [|s [|d [|]]]]]; try discriminate Hcall. cbn [map] in Hcall.
  exists a, b0, s, d. split; [done|]. congruence.
Qed.
Lemma signatures_outlined fresh m D : fresh m ∉ memory_names -> memory_signatures m -> memory_signatures (outlined_module fresh m D).
Proof.
  intros Hf Hs o n k Hin. destruct (memory_name o n k Hin) as [Ho Hn]. destruct (Hs o n k Hin) as [H1 H2].
  split; intros G' [(G & HG & ->)|[E _]]%find_outlined_back; try congruence; unfold outlined_function; cbn [f_blocks with_blocks].
  - destruct (H1 G HG) as [-> Ht]. by split.
  - destruct (H2 G HG) as [-> Ht]. by split.
Qed.
Lemma signatures_extended fresh m : (forall F, fresh F ∉ all_names F) -> module_typed m = true -> memory_signatures m -> memory_signatures (snd (ExtendPHIsTo64Bit fresh m)).
Proof.
  intros Hf Hm Hs o n k Hin. destruct (Hs o n k Hin) as [H1 H2].
  assert (H : forall G, f_blocks G = [] -> convertPHIs fresh G = G).
  { intros G HG. apply convertPHIs_wide. intros p Hp. unfold all_phis in Hp. rewrite HG in Hp. by apply not_elem_of_nil in Hp. }
  split; intros G'; rewrite (find_converted fresh Hf m Hm); intros (G & HG & ->)%fmap_Some.
  - destruct (H1 G HG) as [Hb Ht]. by rewrite H.
  - destruct (H2 G HG) as [Hb Ht]. by rewrite H.
Qed.

(** ** The passes together *)

Section together.
Context (name_function : Module_ -> string) (name_value : Function_ -> string) (name_size : string -> string -> nat -> string) (m : Module_).
Context (Hm : module_typed m = true) (Hend : endian_declared m) (Hsig : memory_signatures m) (Hfit : Forall (fun F => Forall phi_fits (all_phis F)) (m_functions m)).
Context (Hfunction : find_function m (name_function m) = None) (Hmemory : name_function m ∉ memory_names) (Hvalue : forall F, name_value F ∉ all_names F).

(** What is known of the module after the first pass. *)
Record outlined_facts (m1 : Module_) : Prop := {
  of_typed : module_typed m1 = true;
  of_signatures : memory_signatures m1;
  of_fit : Forall (fun F => Forall phi_fits (all_phis F)) (m_functions m1);
  of_find g F : find_function m g = Some F -> exists F1, find_function m1 g = Some F1 /\ f_args F1 = f_args F;
  of_back g F1 : find_function m1 g = Some F1 -> f_blocks F1 = [] -> exists F, find_function m g = Some F /\ f_blocks F = [] /\ f_ret F1 = f_ret F
}.
Lemma first_pass : exists m1, OutlineEndiannessCalls name_function m = Done (true, m1) /\ outlined_facts m1 /\
  forall V W (M : Meaning V W) base slots fuel g args w r, call_function M base slots fuel m g args w = Some r ->
    call_function M base slots (Datatypes.S fuel) m1 g args w = Some r.
Proof.
  destruct Hend as (D & HD & Hdecl & Hargs & Hret & Hcalls). destruct (outline_result name_function m D HD Hargs Hcalls) as (calls & Ecalls & E & _). eexists. split; [exact E|].
  destruct calls as [|ci cs].
  - split; [|intros V W M base slots fuel g args w r; apply call_more; lia]. split; [done|done|done|intros g F HF; by exists F|intros g F HF Hb; by exists F].
  - assert (Hvalid : valid_ty (f_ret D) = true).
    { assert (Hd : Forall direct (flat_map all_insts (m_functions m))).
      { apply Forall_flat_map. eapply Forall_impl; [exact Hcalls|]. intros F H. eapply Forall_impl; [exact H|]. by intros i [? _]. }
      unfold findCalls in Ecalls. rewrite (findCalls_insts_spec _ Hd) in Ecalls. apply Done_inj in Ecalls. assert (Hci : In ci (ci :: cs)) by (by left). rewrite <- Ecalls in Hci.
      apply filter_In in Hci as [Hci Ec]. apply list_elem_of_In, elem_of_flat_map in Hci as (F & HF & Hci). destruct (ok_inst m D Hcalls F ci HF Hci) as [_ Hok].
      destruct (endian_call ci) as [[]| | |] eqn:Eci; try done. destruct (Hok Eci) as [<- _]. pose proof (forallb_elem _ _ _ Hm HF) as Ht. apply elem_of_flat_map in Hci as (b & Hb & Hci).
      apply function_typed_facts in Ht; [|by eapply inst_not_declared]. pose proof (ty_insts m F Ht b ci Hb Hci) as Hi. unfold inst_typed in Hi. rewrite !andb_true_iff in Hi. tauto. }
    split; [|by intros V W M base slots; apply (outlined_preserves M base slots name_function m D)]. split.
    + by apply outlined_module_typed.
    + by apply signatures_outlined.
    + cbn [outlined_module m_functions with_functions]. apply Forall_app. split; [|repeat constructor]. apply List.Forall_map. eapply Forall_impl; [exact Hfit|].
      intros F HF. assert (Ep : all_phis (outlined_function name_function m D F) = all_phis F); [|by rewrite Ep].
      unfold all_phis, outlined_function. cbn [f_blocks with_blocks]. clear. induction (f_blocks F) as [|b bs IH]; [done|]. cbn [map flat_map]. by rewrite IH.
    + intros g F HF. exists (outlined_function name_function m D F). split; [by apply find_outlined|done].
    + intros g F1 [(F & HF & ->)|[_ ->]]%find_outlined_back Hb; [|done]. exists F. split; [done|]. split; [|done]. unfold outlined_function in Hb. cbn [f_blocks with_blocks] in Hb.
      by destruct (f_blocks F).
Qed.

Context {W : Type} (address_of : Value -> Z) (other : Inst -> list Z -> W -> option (Z * W)).
Abbreviation M := (integer_meaning address_of other).
Context `{!Uniform M}.
Context (base : string -> list Z -> W -> option (option Z * W)).
Context (Haddr : forall v, valid_ty (type_of v) = true -> in_ty (type_of v) (address_of v)).
Context (Hother : forall i vs w x w', other i vs w = Some (x, w') -> in_ty (i_type i) x).
Context (Hbase : forall g G args w v w', find_function m g = Some G -> f_blocks G = [] -> base g args w = Some (v, w') -> result_in (f_ret G) v).
Context (Hnarrow : narrow_sizes base).
(** The names of the sizes are used by no instruction. *)
Context (Hsize : forall m1, OutlineEndiannessCalls name_function m = Done (true, m1) -> forall F v G b k,
  F ∈ m_functions (snd (ExtendPHIsTo64Bit name_value m1)) -> v ∈ all_operands F -> is_local (name_size G b k) v = false).

(** C28: the three passes between ClamBCTrace and the writer's preparation succeed on a
    well-typed module that declares __is_bigendian and the memory intrinsics with
    their types, has only direct calls - an indirect one stops the first pass
    ([outline_indirect] in Outline.v) -, phi nodes of at most 64 bits, and none of
    the names the passes make up. After them integer phi nodes have 64 bits, no memory intrinsic
    with a 64-bit size is called, and each function returns what it returned
    before the three passes, with the same effects, for all arguments in the range
    of their types, within one more call. For the last this takes the functions
    outside the module, the instructions the integers leave open and the addresses of
    globals to have values of their types, and a memory intrinsic,
    wherever it does anything, to do the same in its 32-bit form with the size
    modulo 2^32 ([narrow_sizes]): the third pass truncates the sizes, so no object
    of 2^32 bytes is copied or filled. *)
Theorem last_passes_correct : exists m', last_passes name_function name_value name_size m = Done m' /\
  Forall (fun F => Forall (fun p => narrow (phi_type p) = false) (all_phis F)) (m_functions m') /\
  (forall F i g t cc args, F ∈ m_functions m' -> i ∈ all_insts F -> i_kind i = Call (FunctionValue g t) cc args ->
     find_function m g <> None -> g ∉ map (fun d => fst (fst d)) memory_replacements) /\
  forall fuel g F args w r, find_function m g = Some F -> args_in F args ->
    call_function M base (fun _ => ∅) fuel m g args w = Some r -> call_function M base (fun _ => ∅) (Datatypes.S fuel) m' g args w = Some r.
Proof.
  destruct first_pass as (m1 & E1 & [T1 S1 P1 F1 B1] & R1). set (m2 := snd (ExtendPHIsTo64Bit name_value m1)).
  assert (T2 : module_typed m2 = true) by (by apply extended_typed). assert (S2 : memory_signatures m2) by (by apply signatures_extended).
  assert (D2 : memory_declared m2) by (by apply signatures_declared). assert (C2 : memory_calls_typed m2) by (by apply signatures_calls).
  assert (F2 : forall g F, find_function m g = Some F -> find_function m2 g <> None).
  { intros g F HF. destruct (F1 g F HF) as (G & HG & _). unfold m2. by rewrite (find_converted name_value Hvalue m1 T1), HG. }
  destruct (converted_total name_size m2 D2 C2) as (m' & E3). exists m'. split; [|split; [|split]].
  - unfold last_passes. rewrite E1. cbn [obind snd]. fold m2. by rewrite E3.
  - destruct (converted_module name_size m2 true m' D2 E3) as (m3 & reps & El & _ & _ & Hin & _). apply Forall_forall. intros F' HF'.
    eapply Forall2_elem_of_r in HF' as (F & HF & E); [|exact El]. rewrite Forall_forall in Hin.
    assert (Ep : all_phis F' = all_phis F).
    { change (processFunction name_size reps F = Done F') in E. unfold processFunction in E. apply obind_Done in E as (bs & Ebs & E). apply Done_inj in E as <-. unfold all_phis. cbn [f_blocks with_blocks].
      apply mapM_out_Done in Ebs. clear - Ebs. induction Ebs as [|b b' l l' Hb _ IH]; [done|]. cbn [flat_map]. rewrite IH. f_equal. apply obind_Done in Hb as (ls & _ & Hb). by apply Done_inj in Hb as <-. }
    rewrite Ep. destruct (Hin F HF) as [H|H]; [|unfold all_phis; rewrite H; constructor]. pose proof (extended_wide name_value Hvalue m1 T1) as Hw. rewrite Forall_forall in Hw. by apply Hw.
  - intros F i g t cc args HF Hi Hk Hg. eapply (converted_calls name_size m2 true m' F i g t cc args D2 E3 HF Hi Hk). destruct (find_function m g) as [G|] eqn:EG; [|done]. by eapply F2.
  - intros fuel g F args w r HF Ha E. destruct (F1 g F HF) as (G1 & HG1 & Ea).
    eapply (converted_preserves address_of other base (fun _ => ∅) name_size m2 true m' D2 Hnarrow C2); [by apply Hsize|exact E3|].
    eapply (extended_preserves name_value Hvalue m1 T1 address_of other base Haddr Hother); [|exact P1|exact HG1|by unfold args_in; rewrite Ea|by apply R1].
    intros h H args' w0 v w' HH Hb Hbs. destruct (B1 h H HH Hb) as (H0 & HH0 & Hb0 & Er). rewrite Er. by eapply Hbase.
Qed.
End together.

(** ** An example *)

#[local] Abbreviation i8 := (TyInt 8).
#[local] Abbreviation i32 := (TyInt 32).
Definition demo_declared (f : string) (args : list ty) (ret : ty) : Function_ := {|
  f_name := f; f_args := map (fun t => ("", t)) args; f_ret := ret; f_vararg := false; f_cc := 0; f_sret := false; f_available_externally := false;
  f_intrinsic := None; f_blocks := [] |}.
Definition demo_copy : Function_ := {|
  f_name := "main"; f_args := [("n", i8); ("p", i8ptr_ty); ("q", i8ptr_ty)]; f_ret := i8; f_vararg := false; f_cc := 0; f_sret := false; f_available_externally := false;
  f_intrinsic := None;
  f_blocks := [
    {| bb_name := "entry"; bb_phis := [];
       bb_insts := [inst "order" i32 (Call (FunctionValue is_bigendian (TyPtr (TyFun i32 [] false))) 0 [])]; bb_term := Jmp "loop" |};
    {| bb_name := "loop"; bb_phis := [{| phi_name := "i"; phi_type := i8; phi_incoming := [(ConstantInt 8 254, "entry"); (Local "j" i8, "loop")] |}];
       bb_insts := [
         inst "size" i64 (Cast ZExt (Local "i" i8));
         inst "" TyVoid (Call (FunctionValue "llvm.memcpy.p0.p0.i64" (TyPtr (memory_type64 memcpy))) 0 [Local "p" i8ptr_ty; Local "q" i8ptr_ty; Local "size" i64; ConstantInt 1 0]);
         inst "j" i8 (Binary Add (Local "i" i8) (ConstantInt 8 1)); inst "c" (TyInt 1) (ICmp ICMP_SLT (Local "j" i8) (Local "n" i8))];
       bb_term := Br (Local "c" (TyInt 1)) "loop" "exit" |};
    {| bb_name := "exit"; bb_phis := []; bb_insts := [inst "r" i8 (Cast Trunc (Local "order" i32))]; bb_term := Ret (Local "r" i8) |} ] |}.
Definition demo_last : Module_ := {|
  m_structs := ∅; m_globals := [];
  m_functions := [demo_copy; demo_declared is_bigendian [] i32; demo_declared "llvm.memcpy.p0.p0.i64" [i8ptr_ty; i8ptr_ty; i64; TyInt 1] TyVoid];
  m_logicalsignature := None; m_virusnames := None; m_funcmin := None; m_funcmax := None |}.
(** The world is the list of the sizes copied. *)
Definition demo_world (f : string) (args : list Z) (copied : list Z) : option (option Z * list Z) :=
  if String.eqb f is_bigendian then Some (Some 1, copied)
  else match args with
       | [a; b; n; c] =>
           if String.eqb f "llvm.memcpy.p0.p0.i32" then Some (None, n :: copied)
           else if String.eqb f "llvm.memcpy.p0.p0.i64" then if (0 <=? n) && (n <? 2 ^ 32) then Some (None, n :: copied) else None else None
       | _ => None
       end.
Definition demo_call_last (fuel : nat) (m : Module_) : option (option Z * list Z) :=
  call_function (integer_meaning (fun _ => 0) (fun _ _ _ => None)) demo_world (fun _ => ∅) fuel m "main" [1; 16; 32] [].
Definition demo_passed : outcome Module_ := last_passes (fun _ => "new__is_bigendian") longer_name (fun _ _ _ => "clambc_size") demo_last.
Lemma demo_signatures : memory_signatures demo_last.
Proof.
  intros o n k Hin. unfold memory_replacements in Hin. rewrite !elem_of_cons in Hin.
  repeat (destruct Hin as [E|Hin]; [injection E as -> -> ->; split; intros F HF; first [discriminate HF|injection HF as <-; split; reflexivity]|]). by apply not_elem_of_nil in Hin.
Qed.
Lemma demo_narrow : narrow_sizes demo_world.
Proof.
  intros o n k Hin args w r Hr. unfold memory_replacements in Hin. rewrite !elem_of_cons in Hin. unfold demo_world in *.
  repeat (destruct Hin as [E|Hin]; [injection E as -> -> ->; cbn in Hr; destruct args as [|a [|b [|c [|d [|]]]]]; try discriminate Hr|]); [|by apply not_elem_of_nil in Hin].
  exists a, b, c, d. split; [done|]. change (String.eqb "llvm.memcpy.p0.p0.i32" is_bigendian) with false. cbn [String.eqb Ascii.eqb Bool.eqb].
  destruct ((0 <=? c) && (c <? 2 ^ 32)) eqn:Ec; [|done]. apply andb_true_iff in Ec as [E1%Z.leb_le E2%Z.ltb_lt]. injection Hr as <-. rewrite wrap_small by (unfold in_u; lia). done.
Qed.
Lemma last_passes_correct_witness : module_typed demo_last = true /\ demo_call_last 9 demo_last = Some (Some 1, [0; 255; 254]) /\
  exists m', demo_passed = Done m' /\ Forall (fun F => Forall (fun p => narrow (phi_type p) = false) (all_phis F)) (m_functions m') /\
    demo_call_last 10 m' = Some (Some 1, [0; 255; 254]).
Proof.
  assert (Hm : module_typed demo_last = true) by (vm_compute; reflexivity). split; [exact Hm|]. split; [vm_compute; reflexivity|].
  assert (Uniform (integer_meaning (fun _ => 0) (fun (_ : Inst) (_ : list Z) (_ : list Z) => None))) by (apply integer_uniform; reflexivity).
  destruct (last_passes_correct (fun _ => "new__is_bigendian") longer_name (fun _ _ _ => "clambc_size") demo_last Hm) with
    (address_of := fun _ : Value => 0) (other := fun (_ : Inst) (_ : list Z) (_ : list Z) => @None (Z * list Z)) (base := demo_world) as (m' & E & H1 & _ & H2).
  - eexists. split; [reflexivity|]. split; [reflexivity|]. split; [reflexivity|]. split; [discriminate|].
    apply Forall_cons_2; [|repeat constructor].
    repeat (apply Forall_cons_2; [split; [exact I|]|]); [intros _; split; [reflexivity|intros callee cc args Ek; injection Ek as _ _ <-; reflexivity]|intros Ec; discriminate Ec..|constructor].
  - exact demo_signatures.
  - repeat constructor; vm_compute; discriminate.
  - reflexivity.
  - apply (bool_decide_unpack ("new__is_bigendian" ∉ memory_names)). vm_compute. exact I.
  - exact longer_name_new.
  - assumption.
  - intros v Hv. now apply in_ty_zero.
  - intros i vs w x w' Ei. discriminate Ei.
  - intros g G args w v w' HG Hb Er x ->. unfold demo_world in Er. destruct (String.eqb_spec g is_bigendian) as [->|_].
    + injection Er as <- <-. injection HG as <-. vm_compute. split; [discriminate|reflexivity].
    + exfalso. destruct args as [|a [|b [|s [|d [|]]]]]; try discriminate Er. destruct (String.eqb g _); [discriminate Er|]. destruct (String.eqb g _); [|discriminate Er].
      destruct (_ && _); discriminate Er.
  - exact demo_narrow.
  - intros m1 E F v G b k HF Hv. assert (Hall : forallb (fun F => forallb (fun v => negb (is_local "clambc_size" v)) (all_operands F))
      (m_functions (snd (ExtendPHIsTo64Bit longer_name m1))) = true) by (vm_compute in E; injection E as <-; vm_compute; reflexivity).
    apply negb_true_iff. exact (forallb_elem _ _ _ (forallb_elem _ _ _ Hall HF) Hv).
  - exists m'. split; [exact E|]. split; [exact H1|]. apply (H2 9%nat "main" demo_copy).
    + reflexivity.
    + intros [|[|[|k]]] t x Ht Hx; try discriminate Hx; injection Ht as <-; injection Hx as <-; vm_compute; [split; [discriminate|reflexivity]|exact I|exact I].
    + vm_compute. reflexivity.
Defined.
