(* ===== verification/Lowering.v ===== *)
(** * Lowering: pointer arithmetic before the rebuilding of functions

    libclambcc/ClamBCLowering.cpp as ClamBCLoweringNF.cpp runs it: indices of
    getelementptrs become 32-bit integers, pointers compared with integer
    constants are compared as integers, and addresses of bytes converted to
    integers are computed on integers. The rest of ClamBCLowering.cpp runs for
    the final lowering only, which clambcc/clambc-compiler.py does not use. *)
From S2P Require Import Prelude IR Semantics Integers Addresses Typing.
Local Open Scope string_scope.
Local Open Scope list_scope.
Local Open Scope Z_scope.
Local Open Scope outcome_scope.

#[local] Abbreviation i8 := (TyInt 8).
#[local] Abbreviation i32 := (TyInt 32).
#[local] Abbreviation i64 := (TyInt 64).

(** Constants are folded when an instruction is created. *)
Definition is_constant (v : Value) : bool := match v with Local _ _ | InlineAsm _ => false | _ => true end.

Section lowering.
(** [fresh x k]: the name of the k-th value made for instruction [x]. The folding
    of constants is LLVM's; [float_bits] is the size of [TyFloat]. *)
Context (fresh : string -> nat -> string) (float_bits : Z).
Context (fold_cast : castop -> Value -> ty -> Value) (fold_binary : binop -> Value -> Value -> Value) (fold_icmp : cmp_predicate -> Value -> Value -> Value).

(** ** Creating instructions

    Each returns the instructions made and the value. *)

Definition CreateCast (x : string) (op : castop) (v : Value) (t : ty) : outcome (list Inst * Value) :=
  if decide (type_of v = t) then Done ([], v)
  else
    let* _ := assert_ (cast_typed op (type_of v) t) "Invalid cast!" in
    if is_constant v then Done ([], fold_cast op v t) else Done ([inst x t (Cast op v)], Local x t).
Definition getScalarSizeInBits (t : ty) : Z := match t with TyInt w => w | TyFloat => float_bits | _ => 0 end.
Definition CreateZExtOrBitCast (x : string) (v : Value) (t : ty) : outcome (list Inst * Value) :=
  CreateCast x (if getScalarSizeInBits (type_of v) =? getScalarSizeInBits t then BitCast else ZExt) v t.
Definition CreateGEP (x : string) (source : ty) (p idx : Value) : outcome (list Inst * Value) :=
  let* _ := assert_ (bool_decide (type_of p = TyPtr source)) "isOpaqueOrPointeeTypeMatches" in
  Done ([inst x (type_of p) (GetElementPtr false p [idx])], Local x (type_of p)).
Definition CreateAdd (x : string) (a b : Value) : outcome (list Inst * Value) :=
  let* _ := assert_ (bool_decide (type_of a = type_of b)) "Cannot create binary operator with two operands of differing type!" in
  if is_constant a && is_constant b then Done ([], fold_binary Add a b) else Done ([inst x (type_of a) (Binary Add a b)], Local x (type_of a)).
Definition CreateICmp (x : string) (p : cmp_predicate) (a b : Value) : outcome (list Inst * Value) :=
  let* _ := assert_ (bool_decide (type_of a = type_of b)) "Both operands to ICmp instruction are not of the same type!" in
  if is_constant a && is_constant b then Done ([], fold_icmp p a b) else Done ([inst x (TyInt 1) (ICmp p a b)], Local x (TyInt 1)).

(** ** One instruction *)

Section one.
Context (F : Function_).

(** dyn_cast<PtrToIntInst>: the pointer. *)
Definition converted_pointer (v : Value) : option Value :=
  match def_of F v with Some j => match i_kind j with Cast PtrToInt p => Some p | _ => None end | None => None end.

(** What is made and put at the insertion point; the instruction afterwards, if it
    stays; what its uses are replaced by. *)
Record lowered := { before : list Inst; kept : option Inst; replacement : option Value }.
Definition unchanged (i : Inst) : lowered := {| before := []; kept := Some i; replacement := None |}.

Definition lower_add (i : Inst) (a b : Value) : outcome lowered :=
  match match converted_pointer a with Some p => Some (p, b) | None => match converted_pointer b with Some p => Some (p, a) | None => None end end with
  | None => Done (unchanged i)
  | Some (p, Idx) =>
      if negb (match type_of Idx with TyInt _ => true | _ => false end) || bool_decide (is_Some (converted_pointer Idx)) || bool_decide (type_of Idx = i64)
      then Done (unchanged i)
      else
        let* (l1, V) := CreateCast (fresh (i_name i) 0) BitCast p (TyPtr i8) in
        let* (l2, V) := CreateGEP (fresh (i_name i) 1) (type_of V) V Idx in
        let* (l3, V) := CreateCast (fresh (i_name i) 2) PtrToInt V (i_type i) in
        Done {| before := l1 ++ l2 ++ l3; kept := Some i; replacement := Some V |}
  end.

(** The value an index is made of: the operand of a cast, if it is one. *)
Definition index_source (v : Value) : option Value :=
  match def_of F v with
  | Some j => match i_kind j with Binary Sub _ _ | Binary Mul _ _ => None | Cast _ u => Some u | _ => Some v end
  | None => Some v
  end.
Definition lower_index (x : string) (v : Value) : outcome (list Inst * Value) :=
  if decide (type_of v = i32) then Done ([], v)
  else
    match index_source v with
    | None => Done ([], v)
    | Some u =>
        let VSz := getScalarSizeInBits (type_of u) in
        if VSz <? 32 then CreateZExtOrBitCast x u i32
        else if VSz =? 32 then Done ([], u)
        else CreateCast x Trunc u i32
    end.
Fixpoint lower_indices (x : string) (k : nat) (l : list Value) : outcome (list Inst * list Value) :=
  match l with
  | [] => Done ([], [])
  | v :: l =>
      let* (is_, v) := lower_index (fresh x k) v in
      let* (rest, l) := lower_indices x (S k) l in
      Done (is_ ++ rest, v :: l)
  end.
Definition lower_gep (i : Inst) (inb : bool) (p : Value) (idx : list Value) : outcome lowered :=
  let* (is_, idx) := lower_indices (i_name i) 0 idx in
  Done {| before := is_; kept := Some (inst (i_name i) (i_type i) (GetElementPtr inb p idx)); replacement := None |}.

Definition lower_icmp (i : Inst) (pr : cmp_predicate) (a r : Value) : outcome lowered :=
  let* (l1, L) := CreateCast (fresh (i_name i) 0) PtrToInt a (type_of r) in
  let* (l2, ICI2) := CreateICmp (fresh (i_name i) 1) pr L r in
  Done {| before := l1 ++ l2; kept := Some i; replacement := Some ICI2 |}.

(** The getelementptr with one index a pointer is the result of. *)
Definition byte_gep (p : Value) : option (Value * Value) :=
  match def_of F p with Some j => match i_kind j with GetElementPtr _ q [v] => Some (q, v) | _ => None end | None => None end.
Definition lower_ptrtoint (i : Inst) (q V1 : Value) : outcome lowered :=
  let* _ := assert_ (bool_decide (type_of q = TyPtr i8)) "Check out why this check failed.  It may not be an error" in
  let* (l1, P0) := CreateCast (fresh (i_name i) 0) PtrToInt q (type_of V1) in
  let* (l2, A) := CreateAdd (fresh (i_name i) 1) P0 V1 in
  let* (l3, A) := CreateCast (fresh (i_name i) 2) ZExt A (i_type i) in
  Done {| before := l1 ++ l2 ++ l3; kept := None; replacement := Some A |}.

(** The instruction lowered, and whether the builder's insertion point is moved to
    it. *)
Definition lower_inst (i : Inst) : outcome (bool * lowered) :=
  match i_kind i with
  | Binary Add a b => let* r := lower_add i a b in Done (bool_decide (is_Some (replacement r)), r)
  | GetElementPtr inb p idx => let* r := lower_gep i inb p idx in Done (true, r)
  | ICmp pr a (ConstantExpr CE_IntToPtr (r :: _) _) => let* r := lower_icmp i pr a r in Done (true, r)
  | Cast PtrToInt p => match byte_gep p with Some (q, v) => let* r := lower_ptrtoint i q v in Done (false, r) | None => Done (false, unchanged i) end
  | _ => Done (false, unchanged i)
  end.
End one.

(** ** The function *)

Definition named (x : string) (i : Inst) : bool := (match i_type i with TyVoid => false | _ => true end) && String.eqb (i_name i) x.
Definition map_insts (f : Inst -> list Inst) (F : Function_) : Function_ :=
  with_blocks F (map (fun b => {| bb_name := bb_name b; bb_phis := bb_phis b; bb_insts := flat_map f (bb_insts b); bb_term := bb_term b |}) (f_blocks F)).
(** Before the first insertion point is set nothing is put into the function. *)
Definition put_before (ip : option string) (l : list Inst) (F : Function_) : Function_ :=
  match ip with Some y => map_insts (fun i => if named y i then l ++ [i] else [i]) F | None => F end.
Definition put_back (x : string) (k : option Inst) (F : Function_) : Function_ :=
  map_insts (fun i => if named x i then match k with Some i' => [i'] | None => [] end else [i]) F.
(** One turn of the loop; the state is the insertion point and the function. *)
Definition lower_turn (x : string) (s : option string * Function_) : outcome (option string * Function_) :=
  let '(ip, F) := s in
  match List.find (named x) (all_insts F) with
  | None => Done s
  | Some i =>
      let* (here, r) := lower_inst F i in
      let ip := if here : bool then Some x else ip in
      let F := put_before ip (before r) F in
      let F := match replacement r with Some v => replace_uses x v F | None => F end in
      Done (ip, put_back x (kept r) F)
  end.
Fixpoint lower_turns (l : list string) (s : option string * Function_) : outcome (option string * Function_) :=
  match l with [] => Done s | x :: l => let* s := lower_turn x s in lower_turns l s end.
(** The instructions visited are those of the start: what is inserted comes before
    the one it is made for. *)
Definition lowerIntrinsics (F : Function_) : outcome Function_ :=
  let* s := lower_turns (map i_name (List.filter (fun i => match i_type i with TyVoid => false | _ => true end) (all_insts F))) (None, F) in
  Done (snd s).
Definition LoweringNF (m : Module_) : outcome Module_ :=
  let* fs := mapM_out (fun F => if isDeclaration F then Done F else lowerIntrinsics F) (m_functions m) in
  Done (with_functions m fs).
End lowering.

(** ** What the addresses are *)

(** LLVM's rule for the indices of structures. *)
Section struct_indices.
Context (bodies : structs).
Fixpoint struct_indices (t : ty) (l : list Value) : bool :=
  match l with
  | [] => true
  | v :: l =>
      match t with
      | TyArr _ t => struct_indices t l
      | TyStruct _ _ | TyNamed _ =>
          match v with
          | ConstantInt w k =>
              bool_decide (w = 32) && match fields_of bodies t ≫= (.!! Z.to_nat (wrap w k)) with Some t => struct_indices t l | None => false end
          | _ => false
          end
      | _ => false
      end
  end.
End struct_indices.

(** What LLVM's folding promises: a constant with the value the instruction has. *)
Record folding (address_of : Value -> Z) (fold_cast : castop -> Value -> ty -> Value) (fold_binary : binop -> Value -> Value -> Value)
    (fold_icmp : cmp_predicate -> Value -> Value -> Value) : Prop := {
  fold_cast_ok op v t w w' r : is_constant v = true -> width (type_of v) = Some w -> width t = Some w' -> 1 <= w -> 1 <= w' -> cast_typed op (type_of v) t = true ->
    cast_value op w w' (constant_value address_of v) = Some r ->
    is_constant (fold_cast op v t) = true /\ type_of (fold_cast op v t) = t /\ constant_value address_of (fold_cast op v t) = r;
  fold_binary_ok op a b w r : is_constant a = true -> is_constant b = true -> type_of a = TyInt w -> type_of b = TyInt w -> 1 <= w ->
    binary_value op w (constant_value address_of a) (constant_value address_of b) = Some r ->
    is_constant (fold_binary op a b) = true /\ type_of (fold_binary op a b) = TyInt w /\ constant_value address_of (fold_binary op a b) = r;
  fold_icmp_ok p a b w : is_constant a = true -> is_constant b = true -> type_of a = TyInt w -> type_of b = TyInt w -> 1 <= w ->
    is_constant (fold_icmp p a b) = true /\ type_of (fold_icmp p a b) = TyInt 1 /\
    constant_value address_of (fold_icmp p a b) = if icmp_value p w (constant_value address_of a) (constant_value address_of b) then 1 else 0
}.

(** *** Congruences *)

Lemma fewer_bits w v a b : 0 <= v <= w -> (exists k, a = b + k * 2 ^ w) -> exists k, a = b + k * 2 ^ v.
Proof.
  intros Hv (k & ->). exists (k * 2 ^ (w - v)). rewrite <- Z.mul_assoc, <- Z.pow_add_r by lia. do 2 f_equal. f_equal. lia.
Qed.
Lemma congruent_trans m a b c : (exists k, a = b + k * m) -> (exists k, b = c + k * m) -> exists k, a = c + k * m.
Proof. intros (k & ->) (k' & ->). exists (k + k'). lia. Qed.
Lemma congruent_sym m a b : (exists k, a = b + k * m) -> exists k, b = a + k * m.
Proof. intros (k & ->). exists (- k). lia. Qed.
Lemma swrap_nonneg w z : 1 <= w -> 0 <= swrap w z -> swrap w z = wrap w z.
Proof.
  intros Hw H. pose proof (swrap_range w z Hw) as Hr. rewrite <- (wrap_swrap w z Hw). symmetry. apply wrap_small. unfold in_u, in_s in *.
  pose proof (Z.pow_lt_mono_r 2 (w - 1) w ltac:(lia) ltac:(lia)). lia.
Qed.
Lemma swrap_of_wrap n w z : 1 <= n < w -> swrap w (wrap n z) = wrap n z.
Proof.
  intros Hn. apply swrap_unique; [lia| |by exists 0; lia]. pose proof (wrap_range n z ltac:(lia)) as H. unfold in_u, in_s in *.
  pose proof (Z.pow_le_mono_r 2 n (w - 1) ltac:(lia) ltac:(lia)). pose proof (pow2_pos (w - 1) ltac:(lia)). lia.
Qed.
Lemma swrap_of_swrap n w z : 1 <= n <= w -> swrap w (wrap w (swrap n z)) = swrap n z.
Proof.
  intros Hn. rewrite swrap_wrap. apply swrap_unique; [lia| |by exists 0; lia]. pose proof (swrap_range n z ltac:(lia)) as H. unfold in_s in *.
  pose proof (Z.pow_le_mono_r 2 (n - 1) (w - 1) ltac:(lia) ltac:(lia)). lia.
Qed.
(** The source of an index has the value of the index, as far as 32 bits are
    concerned. *)
Lemma cast_source op n w y x : cast_typed op (TyInt n) (TyInt w) = true -> cast_value op n w y = Some x -> 1 <= n -> 1 <= w -> n <= w \/ 32 <= w ->
  0 <= swrap w x \/ 32 <= n ->
  if n <? 32 then wrap n y = swrap w x else w <> 32 -> exists k, swrap w x = y + k * 2 ^ 32.
Proof.
  intros Ht Hx Hn Hw Hlow Hneg.
  assert (Hself : (if n <? 32 then wrap n y = swrap n y else n <> 32 -> exists k, swrap n y = y + k * 2 ^ 32) \/ ~ (0 <= swrap n y \/ 32 <= n)).
  { destruct (n <? 32) eqn:E.
    - apply Z.ltb_lt in E. destruct (Z.le_gt_cases 0 (swrap n y)); [left; by rewrite swrap_nonneg|right; lia].
    - apply Z.ltb_ge in E. left. intros _. apply (fewer_bits n); [lia|]. by apply swrap_mod. }
  destruct op; cbn [cast_typed cast_value] in *; try done.
  - apply Z.ltb_lt in Ht. injection Hx as <-. assert (E : (n <? 32) = false) by (apply Z.ltb_ge; lia). rewrite E. intros Hne.
    apply (congruent_trans _ _ (wrap w (wrap n y))); [apply (fewer_bits w); [lia|by apply swrap_mod]|].
    rewrite wrap_narrow by lia. apply (fewer_bits w); [lia|]. apply wrap_mod. lia.
  - apply Z.ltb_lt in Ht. injection Hx as <-. rewrite swrap_of_swrap in * by lia. destruct (n <? 32) eqn:E.
    + apply Z.ltb_lt in E. symmetry. apply swrap_nonneg; lia.
    + apply Z.ltb_ge in E. intros _. apply (fewer_bits n); [lia|]. by apply swrap_mod.
  - apply Z.ltb_lt in Ht. injection Hx as <-. rewrite swrap_of_wrap by lia. destruct (n <? 32) eqn:E; [done|].
    apply Z.ltb_ge in E. intros _. apply (fewer_bits n); [lia|]. apply wrap_mod. lia.
  - apply Z.eqb_eq in Ht as ->. injection Hx as <-. destruct Hself as [H|H]; [exact H|done].
Qed.

Section semantics.
Context (bodies : structs) (StructLayout : ty -> option (list Z * Z)) (pointer_size float_size : Z) (address_of : Value -> Z).
Context (fresh : string -> nat -> string) (float_bits : Z).
Context (fold_cast : castop -> Value -> ty -> Value) (fold_binary : binop -> Value -> Value -> Value) (fold_icmp : cmp_predicate -> Value -> Value -> Value).
Context (Hfold : folding address_of fold_cast fold_binary fold_icmp).
Abbreviation run := (run_insts bodies StructLayout pointer_size float_size address_of).
Abbreviation M := (address_meaning bodies StructLayout pointer_size float_size address_of).
Abbreviation eval := (Semantics.eval (M := M)).
Abbreviation offset_of := (offset_of bodies StructLayout pointer_size float_size).
Abbreviation gep_offset := (gep_offset bodies StructLayout pointer_size float_size).
Abbreviation CreateCast := (CreateCast fold_cast).

(** *** What is created has the value asked for *)

Definition fresh_in (x : string) (v : Value) : Prop := is_local x v = false.
Lemma eval_insert_fresh e x n v : is_local x v = false -> eval (<[x := n]> e) v = eval e v.
Proof.
  destruct v; try done. cbn [is_local Semantics.eval]. intros H. rewrite lookup_insert_ne; [done|]. intros ->. by rewrite String.eqb_refl in H.
Qed.
Lemma eval_constant e v : is_constant v = true -> eval e v = constant_value address_of v.
Proof. by destruct v. Qed.
(** The environments differ at [x] only. *)
Definition only (x : string) (e e1 : gmap string Z) : Prop := forall y, y <> x -> e1 !! y = e !! y.
Lemma only_eval x e e1 v : only x e e1 -> is_local x v = false -> eval e1 v = eval e v.
Proof.
  intros He Hv. destruct v as [y t| | | | | | | | | | | |]; try done. cbn [Semantics.eval]. rewrite He; [done|]. intros ->. cbn in Hv. by rewrite String.eqb_refl in Hv.
Qed.
Lemma width_result t : is_Some (width t) -> forall {A} (a b : A), match t with TyVoid => a | _ => b end = b.
Proof. intros [w H]. by destruct t. Qed.
Lemma run_cast x t op v w w' r e L : width (type_of v) = Some w -> width t = Some w' -> cast_value op w w' (eval e v) = Some r ->
  run (inst x t (Cast op v) :: L) e = run L (<[x := r]> e).
Proof.
  intros Hw Hw' Hr. rewrite run_insts_cons. cbn [inst i_kind i_type i_name operands map]. cbn [sem address_meaning integer_meaning]. unfold integer_sem.
  cbn [inst i_kind i_type]. rewrite Hw, Hw'. cbn [mbind option_bind]. rewrite Hr. cbn [mbind option_bind]. rewrite width_result by (by eexists). done.
Qed.
Lemma CreateCast_value x op v t l V w w' r e : CreateCast x op v t = Done (l, V) -> width (type_of v) = Some w -> width t = Some w' -> 1 <= w -> 1 <= w' ->
  (type_of v = t -> eval e v = r) -> (cast_typed op (type_of v) t = true -> cast_value op w w' (eval e v) = Some r) ->
  type_of V = t /\ (V = v \/ V = Local x t \/ is_constant V = true) /\ exists e1, run l e = Some e1 /\ only x e e1 /\ eval e1 V = r.
Proof.
  unfold Lowering.CreateCast. intros H Hw Hw' H1w H1w' Hsame Hr. destruct (decide (type_of v = t)) as [<-|_].
  - injection H as <- <-. split; [done|]. split; [by left|]. exists e. by split; [|split; [|apply Hsame]].
  - inv_done. specialize (Hr ltac:(done)). destruct (is_constant v) eqn:Ec; injection H as <- <-.
    + rewrite eval_constant in Hr by done. destruct (fold_cast_ok _ _ _ _ Hfold op v t w w' r) as (H1 & H2 & H3); [done..|]. split; [done|].
      split; [by right; right|]. exists e. split; [done|]. split; [done|]. by rewrite eval_constant.
    + split; [done|]. split; [by right; left|]. exists (<[x := r]> e). split; [by erewrite run_cast|]. split; [intros y Hy; by rewrite lookup_insert_ne|]. cbn [Semantics.eval]. by rewrite lookup_insert_eq.
Qed.

(** *** Indices *)

Section one.
Context (F : Function_) (e : gmap string Z).
(** A cast the value is the result of has been executed. *)
Definition cast_done (v : Value) : Prop :=
  forall j op u, def_of F v = Some j -> i_kind j = Cast op u ->
    cast_typed op (type_of u) (type_of v) = true /\
    exists w w', width (type_of u) = Some w /\ width (type_of v) = Some w' /\ cast_value op w w' (eval e u) = Some (eval e v).
(** An index keeps its value: it is made of an integer, it fits 32 bits, it is not
    negative if it is made of fewer bits, and it has not lost bits the lowered
    index will have. *)
Definition index_fits (v : Value) : Prop :=
  exists w, type_of v = TyInt w /\ 1 <= w /\ cast_done v /\
    forall u, type_of v <> i32 -> index_source F v = Some u ->
      exists n, type_of u = TyInt n /\ 1 <= n /\ in_s 32 (swrap w (eval e v)) /\ (0 <= swrap w (eval e v) \/ 32 <= n) /\ (n <= w \/ 32 <= w).

(** What is made of an index. *)
Definition kept_value (e1 : gmap string Z) (v V : Value) : Prop :=
  (type_of v = i32 -> V = v) /\ (type_of V = i32 \/ V = v /\ index_source F v = None) /\
  exists w w', type_of v = TyInt w /\ type_of V = TyInt w' /\ swrap w' (eval e1 V) = swrap w (eval e v).
Lemma source_operand v u : v ∈ all_operands F -> index_source F v = Some u -> u ∈ all_operands F.
Proof.
  intros Hv. unfold index_source. destruct (def_of F v) as [j|] eqn:Ej; [|by intros [= <-]].
  assert (Hj : forall op u, i_kind j = Cast op u -> u ∈ all_operands F).
  { intros op u' Ek. destruct v as [x t| | | | | | | | | | | |]; try done. apply List.find_some in Ej as [Ej _]. unfold all_insts in Ej. apply in_flat_map in Ej as (b & Hb & Hj).
    apply list_elem_of_In, in_flat_map. exists b. split; [done|]. unfold block_operands. rewrite !in_app_iff. right. left. apply in_flat_map. exists j. split; [done|].
    rewrite Ek. by left. }
  destruct (i_kind j) as [| | | |op ? ?|op u'| | | | | |] eqn:Ek; try (by intros [= <-]); [destruct op; try done; by intros [= <-]|]. intros [= <-]. by eapply Hj.
Qed.
Lemma lower_index_value x v : index_fits v ->
  exists l V, lower_index float_bits fold_cast F x v = Done (l, V) /\
  (V = v \/ index_source F v = Some V \/ V = Local x i32 \/ is_constant V = true) /\
  exists e1, run l e = Some e1 /\ only x e e1 /\ kept_value e1 v V.
Proof.
  intros (w & Hv & Hw & Hcast & Hfit). unfold lower_index, kept_value. destruct (decide (type_of v = i32)) as [Hi|Hi].
  { exists [], v. split; [done|]. split; [by left|]. exists e. split; [done|]. split; [done|]. split; [done|]. split; [by left|]. by exists w, w. }
  destruct (index_source F v) as [u|] eqn:Eu.
  2: { exists [], v. split; [done|]. split; [by left|]. exists e. split; [done|]. split; [done|]. split; [done|]. split; [by right|]. by exists w, w. }
  destruct (Hfit u Hi eq_refl) as (n & Hn & Hn1 & H32 & Hneg & Hlow). clear Hfit. assert (Hne : w <> 32) by (intros ->; by apply Hi).
  assert (Hu : if n <? 32 then wrap n (eval e u) = swrap w (eval e v) else w <> 32 -> exists k, swrap w (eval e v) = eval e u + k * 2 ^ 32).
  { assert (Hself : u = v -> if n <? 32 then wrap n (eval e u) = swrap w (eval e v) else w <> 32 -> exists k, swrap w (eval e v) = eval e u + k * 2 ^ 32).
    { intros ->. rewrite Hv in Hn. injection Hn as <-. apply (cast_source BitCast w w (eval e v) (eval e v)); cbn [cast_typed cast_value]; [by apply Z.eqb_refl|done|lia..]. }
    unfold index_source in Eu. destruct (def_of F v) as [j|] eqn:Ej; [|apply Hself; congruence].
    destruct (i_kind j) as [| | | |op ? ?|op u'| | | | | |] eqn:Ek; try (apply Hself; congruence); [destruct op; try (apply Hself; congruence); done|].
    injection Eu as ->. destruct (Hcast j op u Ej Ek) as (Ht & n' & w' & Hn' & Hw' & Hval). rewrite Hn, Hv in Ht. rewrite Hv in Hw'. rewrite Hn in Hn'. injection Hw' as <-. injection Hn' as <-.
    by eapply cast_source. }
  rewrite Hn. cbn [getScalarSizeInBits].
  assert (Hdone : forall V e1 r, type_of V = i32 -> eval e1 V = r -> (exists k, swrap w (eval e v) = r + k * 2 ^ 32) ->
    (type_of v = i32 -> V = v) /\ (type_of V = i32 \/ V = v /\ Some u = None) /\ exists w0 w', type_of v = TyInt w0 /\ type_of V = TyInt w' /\ swrap w' (eval e1 V) = swrap w0 (eval e v)).
  { intros V0 e1 r HV0 Hr Hk. split; [done|]. split; [by left|]. exists w, 32. split; [done|]. split; [done|]. rewrite Hr. by apply swrap_unique. }
  assert (Hmake : forall op r, (exists k, swrap w (eval e v) = r + k * 2 ^ 32) -> n <> 32 -> cast_typed op (TyInt n) i32 = true -> cast_value op n 32 (eval e u) = Some r ->
    exists l V, CreateCast x op u i32 = Done (l, V) /\ (V = v \/ Some u = Some V \/ V = Local x i32 \/ is_constant V = true) /\
      exists e1, run l e = Some e1 /\ only x e e1 /\ (type_of v = i32 -> V = v) /\ (type_of V = i32 \/ V = v /\ Some u = None) /\
        exists w0 w', type_of v = TyInt w0 /\ type_of V = TyInt w' /\ swrap w' (eval e1 V) = swrap w0 (eval e v)).
  { intros op r Hr Hne32 Ht Hval. assert (exists l V, CreateCast x op u i32 = Done (l, V)) as (l & V & E).
    { unfold Lowering.CreateCast. rewrite Hn, Ht. destruct (decide _); [by do 2 eexists|]. cbn [assert_ obind]. destruct (is_constant u); by do 2 eexists. }
    exists l, V. split; [exact E|]. destruct (CreateCast_value x op u i32 l V n 32 r e E) as (HV & Hnm & e1 & E1 & Ho & Hev);
      [by rewrite Hn|done|done|done|rewrite Hn; intros [= ->]; done|done|]. split; [destruct Hnm as [->|Hnm]; [by right; left|by right; right]|].
    exists e1. split; [done|]. split; [done|]. by eapply Hdone. }
  destruct (n <? 32) eqn:E32; [|destruct (n =? 32) eqn:En].
  - apply Z.ltb_lt in E32. unfold CreateZExtOrBitCast. rewrite Hn. cbn [getScalarSizeInBits]. rewrite (proj2 (Z.eqb_neq n 32)) by lia.
    apply (Hmake ZExt (wrap n (eval e u))); [exists 0; lia|lia|by apply Z.ltb_lt|done].
  - apply Z.eqb_eq in En as ->. exists [], u. split; [done|]. split; [by right; left|]. exists e. split; [done|]. split; [done|]. eapply Hdone; [done|done|by apply Hu].
  - apply Z.ltb_ge in E32. apply Z.eqb_neq in En. apply (Hmake Trunc (wrap 32 (wrap n (eval e u)))); [|done|apply Z.ltb_lt; lia|done].
    rewrite wrap_narrow by lia. apply (congruent_trans _ _ (eval e u)); [by apply Hu|]. apply congruent_sym, wrap_mod. lia.
Qed.
End one.

(** *** Getelementptrs *)

Section geps.
Context (F : Function_) (x : string).
Context (Hinj : forall k k', fresh x k = fresh x k' -> k = k') (Hnew : forall k o, o ∈ all_operands F -> is_local (fresh x k) o = false).
Abbreviation lower_indices := (lower_indices fresh float_bits fold_cast F x).
(** The environments differ at names that are made from the [k]-th on. *)
Definition grown (k : nat) (e e1 : gmap string Z) : Prop := forall y, (forall k', (k <= k')%nat -> y <> fresh x k') -> e1 !! y = e !! y.
Lemma grown_eval k e e1 v : grown k e e1 -> (forall k', (k <= k')%nat -> is_local (fresh x k') v = false) -> eval e1 v = eval e v.
Proof.
  intros He Hv. destruct v as [y t| | | | | | | | | | | |]; try done. cbn [Semantics.eval]. rewrite He; [done|]. intros k' Hk ->. specialize (Hv k' Hk). cbn in Hv.
  by rewrite String.eqb_refl in Hv.
Qed.
Lemma index_fits_only k e e1 v : v ∈ all_operands F -> only (fresh x k) e e1 -> index_fits F e v -> index_fits F e1 v.
Proof.
  intros Hv He (w & Ht & Hw & Hcast & Hfit). assert (Ev : forall o, o ∈ all_operands F -> eval e1 o = eval e o) by (intros o Ho; eapply only_eval; [exact He|by apply Hnew]).
  exists w. split; [done|]. split; [done|]. split.
  - intros j op u Ej Ek. destruct (Hcast j op u Ej Ek) as (H1 & w1 & w2 & H2 & H3 & H4). split; [done|]. exists w1, w2. rewrite (Ev v Hv).
    rewrite (Ev u); [done|]. destruct v as [z t| | | | | | | | | | | |]; try done. apply List.find_some in Ej as [Ej _]. unfold all_insts in Ej. apply in_flat_map in Ej as (b & Hb & Hj).
    apply list_elem_of_In, in_flat_map. exists b. split; [done|]. unfold block_operands. rewrite !in_app_iff. right. left. apply in_flat_map. exists j. split; [done|].
    rewrite Ek. by left.
  - intros u Hne Eu. rewrite (Ev v Hv). by apply Hfit.
Qed.
Lemma kept_from e e1 e2 l l' : (forall o, o ∈ l -> eval e1 o = eval e o) -> Forall2 (kept_value F e1 e2) l l' -> Forall2 (kept_value F e e2) l l'.
Proof.
  intros He. induction 1 as [|o O l l' Ho _ IH]; constructor; [|apply IH; intros o' Ho'; apply He; by right].
  unfold kept_value in *. by rewrite <- (He o) by (by left).
Qed.
Lemma lower_indices_value l : forall k e, (forall v, v ∈ l -> v ∈ all_operands F) -> Forall (index_fits F e) l ->
  exists is_ l', lower_indices k l = Done (is_, l') /\ exists e1, run is_ e = Some e1 /\ grown k e e1 /\ Forall2 (kept_value F e e1) l l'.
Proof.
  induction l as [|v l IH]; intros k e Hops Hfit; cbn [Lowering.lower_indices].
  { exists [], []. split; [done|]. exists e. split; [done|]. split; [by intros y _|constructor]. }
  apply Forall_cons in Hfit as [Hv Hfit]. assert (Hov : v ∈ all_operands F) by (apply Hops; by left).
  destruct (lower_index_value F e (fresh x k) v Hv) as (is1 & V & E1 & Hnm & e1 & R1 & Ho & K1). rewrite E1. cbn [obind].
  destruct (IH (S k) e1) as (is2 & l' & E2 & e2 & R2 & Hg & K2).
  { intros o Hin. apply Hops. by right. }
  { apply Forall_forall. intros o Hin. eapply index_fits_only; [apply Hops; by right|exact Ho|]. rewrite Forall_forall in Hfit. by apply Hfit. }
  rewrite E2. cbn [obind]. do 2 eexists. split; [reflexivity|]. exists e2. split; [rewrite run_insts_app, R1; exact R2|]. split.
  - intros y Hy. rewrite Hg by (intros k' Hk; apply Hy; lia). apply Ho. apply Hy. lia.
  - assert (EV : eval e2 V = eval e1 V).
    { eapply grown_eval; [exact Hg|]. intros k' Hk. destruct Hnm as [->|[Hu|[->|Hc]]]; [by apply Hnew|apply Hnew; by eapply source_operand| |by destruct V].
      cbn [is_local]. apply String.eqb_neq. intros E%Hinj. lia. }
    constructor; [unfold kept_value in *; by rewrite EV|]. eapply kept_from; [|exact K2]. intros o Ho'. eapply only_eval; [exact Ho|]. apply Hnew, Hops. by right.
Qed.
End geps.

(** The offset does not depend on the widths of the indices, where indices of
    structures are kept. *)
Lemma offset_kept F e e1 l l' : Forall2 (kept_value F e e1) l l' -> forall t o, struct_indices bodies t l = true ->
  offset_of t (zip l (map (eval e) l)) = Some o -> offset_of t (zip l' (map (eval e1) l')) = Some o.
Proof.
  induction 1 as [|v V l l' (H1 & _ & w & w' & Hw & Hw' & Hs) _ IH]; intros t o Ht Ho; [done|]. cbn [map zip zip_with Addresses.offset_of struct_indices] in *.
  destruct t as [| | | |n t|pk fs|nm|]; try done.
  { rewrite Hw in Ho. rewrite Hw'. cbn [width mbind option_bind] in *. apply bind_Some in Ho as (s & -> & Ho). apply bind_Some in Ho as (o' & Ho' & Ho). cbn [mbind option_bind].
    rewrite (IH t o' Ht Ho'). cbn [mbind option_bind]. by rewrite Hs. }
  all: destruct v as [|w0 z| | | | | | | | | | |]; try done; apply andb_true_iff in Ht as [->%bool_decide_eq_true Ht]; rewrite H1 by done;
    apply bind_Some in Ho as (fs' & Ef & Ho); rewrite Ef in Ht |- *; cbn [mbind option_bind] in *;
    apply bind_Some in Ho as (lay & -> & Ho); cbn [mbind option_bind]; apply bind_Some in Ho as (t' & Et & Ho); rewrite Et in Ht |- *; cbn [mbind option_bind];
    apply bind_Some in Ho as (off & -> & Ho); cbn [mbind option_bind]; apply bind_Some in Ho as (o' & Ho' & Ho); by rewrite (IH t' o' Ht Ho').
Qed.


(** *** Addresses as integers *)

Lemma CreateAdd_value x a b l V w e : CreateAdd fold_binary x a b = Done (l, V) -> type_of a = TyInt w -> 1 <= w ->
  type_of V = TyInt w /\ exists e1, run l e = Some e1 /\ only x e e1 /\ eval e1 V = wrap w (eval e a + eval e b).
Proof.
  unfold CreateAdd. intros H Ha Hw. inv_done. match goal with E : bool_decide _ = true |- _ => apply bool_decide_eq_true in E; rename E into Eb end.
  assert (Hv : binary_value Add w (eval e a) (eval e b) = Some (wrap w (eval e a + eval e b))) by (cbn [binary_value]; unfold wrap; by rewrite <- Zplus_mod).
  destruct (is_constant a && is_constant b) eqn:Ec; injection H as <- <-.
  - apply andb_true_iff in Ec as [Ca Cb]. rewrite !eval_constant in Hv by done.
    destruct (fold_binary_ok _ _ _ _ Hfold Add a b w _ Ca Cb Ha ltac:(congruence) Hw Hv) as (H1 & H2 & H3). split; [done|]. exists e. split; [done|]. split; [done|].
    rewrite (eval_constant e (fold_binary Add a b)) by done. by rewrite H3, !eval_constant.
  - rewrite Ha. split; [done|]. eexists. split; [by rewrite run_add|]. split; [intros y Hy; by rewrite lookup_insert_ne|]. cbn [Semantics.eval]. by rewrite lookup_insert_eq.
Qed.
(** The sum made of the base and the index is the address as an integer, if the
    address fits the index's type or no extension is needed. *)
Lemma lower_ptrtoint_value i q V1 w t r e : lower_ptrtoint fresh fold_cast fold_binary i q V1 = Done r -> type_of V1 = TyInt w -> 1 <= w <= 64 -> i_type i = TyInt t -> 1 <= t ->
  (forall k, is_local (fresh (i_name i) k) V1 = false) ->
  w = t \/ in_u w (wrap 64 (eval e q + swrap w (eval e V1))) ->
  exists V e1, r = {| before := before r; kept := None; replacement := Some V |} /\ run (before r) e = Some e1 /\ type_of V = i_type i /\
    cast_value PtrToInt 64 t (wrap 64 (eval e q + swrap w (eval e V1))) = Some (eval e1 V).
Proof.
  intros H HV1 Hw Ht Ht1 Hf Hfit. unfold lower_ptrtoint in H. inv_done. match goal with E : bool_decide _ = true |- _ => apply bool_decide_eq_true in E; rename E into Hq end.
  destruct a0 as [l1 P0]. rename E0 into C1. apply obind_Done in H as ([l2 A] & C2 & H). apply obind_Done in H as ([l3 A3] & C3 & H). apply Done_inj in H as <-.
  eapply (CreateCast_value _ _ _ _ _ _ 64 w (wrap w (wrap 64 (eval e q))) e) in C1 as (T1 & _ & e1 & R1 & O1 & V1'); [|by rewrite Hq|by rewrite HV1|lia|lia|by rewrite Hq, HV1|done].
  eapply (CreateAdd_value _ _ _ _ _ w e1) in C2 as (T2 & e2 & R2 & O2 & V2'); [|by rewrite T1|lia].
  rewrite Ht in C3. eapply (CreateCast_value _ _ _ _ _ _ w t (wrap t (wrap w (eval e q + swrap w (eval e V1)))) e2) in C3 as (T3 & _ & e3 & R3 & O3 & V3'); [|by rewrite T2|done|lia|lia|..].
  - do 2 eexists. split; [reflexivity|]. cbn [before]. split; [rewrite run_insts_app, R1; cbn [mbind option_bind]; rewrite run_insts_app, R2; exact R3|]. split; [by rewrite Ht|].
    cbn [cast_value]. rewrite V3', wrap_wrap by lia. f_equal.
    assert (E : wrap w (wrap 64 (eval e q + swrap w (eval e V1))) = wrap w (eval e q + swrap w (eval e V1))) by (apply wrap_narrow; lia). rewrite <- E.
    destruct Hfit as [->|Hfit]; [by rewrite wrap_wrap by lia|]. by rewrite (wrap_small w _ Hfit).
  - intros Hwt. rewrite T2 in Hwt. injection Hwt as <-. rewrite V2', wrap_wrap by lia. rewrite V1', (only_eval _ _ _ V1 O1 (Hf _)). rewrite wrap_narrow by lia.
    destruct (swrap_mod w (eval e V1) ltac:(lia)) as (k & ->). unfold wrap. rewrite Zplus_mod_idemp_l, Z.add_assoc. by rewrite Z_mod_plus_full.
  - rewrite T2. cbn [cast_typed cast_value]. intros Hlt%Z.ltb_lt. rewrite V2', wrap_wrap by lia. rewrite V1', (only_eval _ _ _ V1 O1 (Hf _)). rewrite wrap_narrow by lia. f_equal.
    assert (E : wrap w (wrap w (eval e q) + eval e V1) = wrap w (eval e q + swrap w (eval e V1))).
    { destruct (swrap_mod w (eval e V1) ltac:(lia)) as (k & ->). unfold wrap. rewrite Zplus_mod_idemp_l, Z.add_assoc. by rewrite Z_mod_plus_full. }
    rewrite E. symmetry. apply wrap_small. pose proof (wrap_range w (eval e q + swrap w (eval e V1)) ltac:(lia)) as Hr. unfold in_u in *.
    pose proof (Z.pow_le_mono_r 2 w t ltac:(lia) ltac:(lia)). lia.
Qed.

(** A pointer compared with an integer made a pointer: the integers compare alike,
    unless the integer is narrower and the address or the sign needs the bits. *)
Definition unsigned_predicate (p : cmp_predicate) : bool :=
  match p with ICMP_SGT | ICMP_SGE | ICMP_SLT | ICMP_SLE => false | _ => true end.
Lemma icmp_narrow p w x y : 0 <= w <= 64 -> unsigned_predicate p = true -> in_u w (wrap 64 x) -> icmp_value p w (wrap w (wrap 64 x)) y = icmp_value p 64 x (wrap w y).
Proof.
  intros Hw Hp Hx. unfold icmp_value. assert (E : wrap 64 (wrap w y) = wrap w y).
  { apply wrap_small. pose proof (wrap_range w y ltac:(lia)) as Hy. unfold in_u in *. pose proof (Z.pow_le_mono_r 2 w 64 ltac:(lia) ltac:(lia)). lia. }
  rewrite E, wrap_wrap by lia. rewrite (wrap_small w (wrap 64 x)) by done. by destruct p.
Qed.
Lemma icmp_whole p x y : icmp_value p 64 (wrap 64 (wrap 64 x)) y = icmp_value p 64 x (wrap 64 y).
Proof. unfold icmp_value. rewrite !swrap_wrap, !wrap_wrap by lia. done. Qed.
Lemma lower_icmp_value i pr a r t w s e : lower_icmp fresh fold_cast fold_icmp i pr a r = Done s -> type_of a = TyPtr t -> type_of r = TyInt w -> 1 <= w <= 64 ->
  is_constant r = true -> w = 64 \/ unsigned_predicate pr = true /\ in_u w (wrap 64 (eval e a)) ->
  exists V e1, replacement s = Some V /\ kept s = Some i /\ run (before s) e = Some e1 /\ type_of V = TyInt 1 /\
    eval e1 V = if icmp_value pr 64 (eval e a) (wrap w (constant_value address_of r)) then 1 else 0.
Proof.
  intros H Ha Hr Hw Hc Hfit. unfold lower_icmp in H. apply obind_Done in H as ([l1 L] & C1 & H). apply obind_Done in H as ([l2 V] & C2 & H). apply Done_inj in H as <-.
  rewrite Hr in C1. eapply (CreateCast_value _ _ _ _ _ _ 64 w (wrap w (wrap 64 (eval e a))) e) in C1 as (T1 & _ & e1 & R1 & O1 & V1); [|by rewrite Ha|done|lia|lia|by rewrite Ha|done].
  assert (Ev : icmp_value pr w (eval e1 L) (constant_value address_of r) = icmp_value pr 64 (eval e a) (wrap w (constant_value address_of r))).
  { rewrite V1. destruct Hfit as [->|[Hp Hx]]; [apply icmp_whole|apply icmp_narrow; [lia|done|done]]. }
  cbn [replacement kept before]. unfold CreateICmp in C2. apply obind_Done in C2 as (u & _ & C2). destruct (is_constant L && is_constant r) eqn:Ec; apply Done_inj in C2; injection C2 as <- <-.
  - apply andb_true_iff in Ec as [Cl _]. destruct (fold_icmp_ok _ _ _ _ Hfold pr L r w Cl Hc T1 Hr (proj1 Hw)) as (H1 & H2 & H3). exists (fold_icmp pr L r), e1. split; [done|]. split; [done|].
    split; [by rewrite app_nil_r|]. split; [done|]. by rewrite (eval_constant e1 (fold_icmp pr L r)), H3, <- (eval_constant e1 L), Ev.
  - eexists _, _. split; [done|]. split; [done|]. split.
    + rewrite run_insts_app, R1. cbn [mbind option_bind]. rewrite run_insts_cons. cbn [inst i_kind i_type i_name operands map]. cbn [sem address_meaning integer_meaning]. unfold integer_sem.
      cbn [inst i_kind i_type]. rewrite T1. cbn [width mbind option_bind]. rewrite (eval_constant e1 r) by done. by rewrite Ev.
    + split; [done|]. cbn [Semantics.eval]. by rewrite lookup_insert_eq.
Qed.
End semantics.

(** ** Where lowering goes wrong *)

(** The getelementptr made of an addition to an address is given the type of the
    pointer, not of what it points to: LLVM's assertion always fails. *)
Lemma lower_add_stops fresh fold_cast F i a b p w : converted_pointer F a = Some p -> type_of b = TyInt w -> w <> 64 -> converted_pointer F b = None ->
  exists why, lower_add fresh fold_cast F i a b = AssertFailed why.
Proof.
  intros Ha Hb Hw Hn. unfold lower_add. rewrite Ha, Hb, Hn. cbn [negb orb]. rewrite !bool_decide_false by (first [by intros [? ?]|congruence]). cbn [orb].
  assert (H : forall V : Value, type_of V <> TyPtr (type_of V)) by (intros V; generalize (type_of V); intros t; induction t; congruence).
  destruct (CreateCast fold_cast (fresh (i_name i) 0%nat) BitCast p (TyPtr i8)) as [[l V]|why|why|why] eqn:E; cbn [obind].
  - unfold CreateGEP. rewrite bool_decide_false by apply H. cbn [assert_ obind]. by eexists.
  - unfold CreateCast in E. destruct (decide _); [done|]. destruct (cast_typed _ _ _), (is_constant p); done.
  - by eexists.
  - unfold CreateCast in E. destruct (decide _); [done|]. destruct (cast_typed _ _ _), (is_constant p); done.
Qed.

(** *** Examples *)

(** LLVM's folding, with the addresses that integers are made of. *)
Definition demo_address (v : Value) : Z := match v with ConstantExpr CE_IntToPtr [ConstantInt _ z] (TyPtr _) => wrap 64 z | _ => 0 end.
Definition demo_constant (t : ty) (r : Z) : Value :=
  match t with TyInt w => ConstantInt w r | _ => ConstantExpr CE_IntToPtr [ConstantInt 64 r] t end.
Definition demo_fold_cast (op : castop) (v : Value) (t : ty) : Value :=
  match width (type_of v), width t with
  | Some w, Some w' => demo_constant t (default 0 (cast_value op w w' (constant_value demo_address v)))
  | _, _ => v
  end.
Definition demo_fold_binary (op : binop) (a b : Value) : Value :=
  match type_of a with TyInt w => ConstantInt w (default 0 (binary_value op w (constant_value demo_address a) (constant_value demo_address b))) | _ => a end.
Definition demo_fold_icmp (p : cmp_predicate) (a b : Value) : Value :=
  match type_of a with
  | TyInt w => ConstantInt 1 (if icmp_value p w (constant_value demo_address a) (constant_value demo_address b) then 1 else 0)
  | _ => a
  end.
Lemma demo_constant_in v w : is_constant v = true -> width (type_of v) = Some w -> 1 <= w -> in_u w (constant_value demo_address v).
Proof.
  intros _ Hw H1. pose proof (in_u_zero w ltac:(lia)) as H0. destruct v as [| | | |op l t| | | | | | | |]; try exact H0.
  - cbn [type_of width constant_value] in *. injection Hw as ->. apply wrap_range. lia.
  - cbn [type_of constant_value] in *. unfold demo_address. destruct op; try exact H0. destruct l as [|o [|]]; try exact H0; destruct o; try exact H0.
    destruct t; try exact H0. cbn [width] in Hw. injection Hw as <-. by apply wrap_range.
Qed.
Lemma demo_folding : folding demo_address demo_fold_cast demo_fold_binary demo_fold_icmp.
Proof.
  split.
  - intros op v t w w' r Hc Hw Hw' H1 H1' Ht Hr. unfold demo_fold_cast. rewrite Hw, Hw', Hr. cbn [default from_option id].
    pose proof (demo_constant_in v w Hc Hw H1) as Hin. destruct t as [|n| |t| | | |]; try discriminate Hw'; cbn [width] in Hw'; injection Hw' as <-; cbn [demo_constant is_constant type_of constant_value].
    + split; [done|]. split; [done|]. apply wrap_small. change (in_ty (TyInt n) r). eapply cast_in; [by apply Z.leb_le|exact Ht|exact Hw|done| |exact Hr].
      destruct (type_of v); try done. cbn [width] in Hw. by injection Hw as ->.
    + split; [done|]. split; [done|]. cbn [demo_address]. apply wrap_small. destruct op; cbn [cast_typed cast_value] in *; try done; try (by destruct (type_of v)).
      * injection Hr as <-. by apply wrap_range.
      * destruct (type_of v); try done. cbn [width] in Hw. injection Hw as <-. by injection Hr as <-.
  - intros op a b w r _ _ Ha _ Hw Hr. unfold demo_fold_binary. rewrite Ha, Hr. cbn [default from_option id is_constant type_of constant_value].
    split; [done|]. split; [done|]. apply wrap_small. by eapply binary_in.
  - intros pr a b w _ _ Ha _ _. unfold demo_fold_icmp. rewrite Ha. split; [done|]. split; [done|]. cbn [constant_value]. by case_match.
Qed.

#[local] Abbreviation bytes := (TyPtr i8).
#[local] Abbreviation table := (TyPtr (TyArr 4 (TyStruct false [i8; i32]))).
Fixpoint tally (k : nat) : string := match k with O => "" | S k => String "i" (tally k) end.
Definition demo_fresh (x : string) (k : nat) : string := (x ++ "." ++ tally k)%string.
Definition demo_struct (t : ty) : option (list Z * Z) := Some ([0; 4], 8).
Definition demo_function (insts : list Inst) (t : ty) (r : Value) : Function_ := {|
  f_name := "f"; f_args := [("p", bytes); ("q", table); ("b", i8); ("n", i64)]; f_ret := t; f_vararg := false; f_cc := 0; f_sret := false; f_available_externally := false;
  f_intrinsic := None; f_blocks := [{| bb_name := "entry"; bb_phis := []; bb_insts := insts; bb_term := Ret r |}] |}.
Definition demo_lower : Function_ -> outcome Function_ := lowerIntrinsics demo_fresh 32 demo_fold_cast demo_fold_binary demo_fold_icmp.
Definition demo_run (F : Function_) (args : list Z) : option (option Z) :=
  fst <$> run_blocks (M := address_meaning ∅ demo_struct 8 8 demo_address) ∅ 9 (f_blocks F) "entry" None (list_to_map (zip (map fst (f_args F)) args), ∅, tt).
Definition lowered_run (F : Function_) (args : list Z) : option (option Z) := match demo_lower F with Done F' => demo_run F' args | _ => None end.

(** q[b][n].second, with a byte and a 64-bit integer as indices. *)
Definition demo_wide : Inst := inst "w" i64 (Cast SExt (Local "b" i8)).
Definition demo_element : Inst :=
  inst "g" (TyPtr i32) (GetElementPtr true (Local "q" table) [Local "w" i64; Local "n" i64; ConstantInt 32 1]).
Definition demo_indices : Function_ := demo_function [demo_wide; demo_element] (TyPtr i32) (Local "g" (TyPtr i32)).
Definition demo_values : gmap string Z := list_to_map [("p", 16); ("q", 4096); ("b", 5); ("w", 5); ("n", 3)].
Lemma demo_element_runs : demo_run demo_indices [16; 4096; 5; 3] = Some (Some 4284) /\ lowered_run demo_indices [16; 4096; 5; 3] = Some (Some 4284).
Proof. split; vm_compute; reflexivity. Qed.

(** An index of -1 in a byte becomes 255. *)
Lemma negative_index : demo_run demo_indices [16; 4096; 255; 3] = Some (Some 4092) /\ lowered_run demo_indices [16; 4096; 255; 3] = Some (Some 12284).
Proof. split; vm_compute; reflexivity. Qed.
(** A truncated index is taken from before the truncation. *)
Definition demo_truncated : Function_ :=
  demo_function [inst "w" (TyInt 16) (Cast Trunc (Local "n" i64)); inst "g" bytes (GetElementPtr true (Local "p" bytes) [Local "w" (TyInt 16)])] bytes (Local "g" bytes).
Lemma truncated_index : demo_run demo_truncated [16; 0; 0; 65539] = Some (Some 19) /\ lowered_run demo_truncated [16; 0; 0; 65539] = Some (Some 65555).
Proof. split; vm_compute; reflexivity. Qed.
(** The address of a byte is computed on 32 bits. *)
Definition demo_converted : Function_ :=
  demo_function [inst "g" bytes (GetElementPtr true (Local "p" bytes) [Local "n" i64]); inst "r" i64 (Cast PtrToInt (Local "g" bytes))] i64 (Local "r" i64).
Lemma address_bits_lost : demo_run demo_converted [2 ^ 32; 0; 0; 5] = Some (Some (2 ^ 32 + 5)) /\ lowered_run demo_converted [2 ^ 32; 0; 0; 5] = Some (Some 5).
Proof. split; vm_compute; reflexivity. Qed.
(** What a conversion is replaced by goes where the last getelementptr was, here
    into a branch that is not taken. *)
Definition demo_branches : Function_ :=
  with_blocks (demo_function [] i64 (Local "r" i64)) [
    {| bb_name := "entry"; bb_phis := [];
       bb_insts := [inst "g" bytes (GetElementPtr true (Local "p" bytes) [Local "n" i64]); inst "c" (TyInt 1) (ICmp ICMP_EQ (Local "n" i64) (ConstantInt 64 0))];
       bb_term := Br (Local "c" (TyInt 1)) "then" "end" |};
    {| bb_name := "then"; bb_phis := []; bb_insts := [inst "h" bytes (GetElementPtr true (Local "p" bytes) [ConstantInt 32 1]); inst "" TyVoid (Store (ConstantInt 8 0) (Local "h" bytes))]; bb_term := Jmp "end" |};
    {| bb_name := "end"; bb_phis := []; bb_insts := [inst "r" i64 (Cast PtrToInt (Local "g" bytes))]; bb_term := Ret (Local "r" i64) |} ].
Definition demo_placed : Function_ := match demo_lower demo_branches with Done F => F | _ => demo_branches end.
Lemma wrong_insertion_point : demo_run demo_branches [16; 0; 0; 5] = Some (Some 21) /\ demo_run demo_placed [16; 0; 0; 5] = Some (Some 0) /\
  map (fun b => (bb_name b, map i_name (bb_insts b))) (f_blocks demo_placed) = [("entry", ["g."; "g"; "c"]); ("then", ["r."; "r.i"; "r.ii"; "h"; ""]); ("end", [])].
Proof. repeat split; vm_compute; reflexivity. Qed.
