(* ===== verification/Dependents.v ===== *)
(** * Dependents: what uses a value

    getDependentValues of libclambcc/ClamBCUtilities.cpp: the instructions and
    global variables that depend on a value, through any number of uses. Uses are
    a graph over the module: constants are shared by all functions, instructions
    are known by their place. *)
From S2P Require Import Prelude IR.
Local Open Scope string_scope.
Local Open Scope list_scope.
Local Open Scope Z_scope.
Local Open Scope outcome_scope.

(** ** Depth-first search

    [next] may treat the node the search starts from differently. *)

Section search.
Context {A : Type} `{!EqDecision A} (next : bool -> A -> list A).
Section each.
Context (search : A -> list A -> outcome (list A)).
Fixpoint search_all (l : list A) (visited : list A) : outcome (list A) :=
  match l with
  | [] => Done visited
  | n :: l => let* visited := search n visited in search_all l visited
  end.
End each.
Fixpoint search (fuel : nat) (n : A) (visited : list A) : outcome (list A) :=
  match fuel with
  | O => Undefined "fuel"
  | S fuel =>
      if bool_decide (n ∈ visited) then Done visited
      else search_all (search fuel) (next (match visited with [] => true | _ => false end) n) (visited ++ [n])
  end.

(** *** It finds what can be reached *)

Context (start : A).
Definition follows_from (n n' : A) : Prop := n' ∈ next (bool_decide (n = start)) n.
(** Visited nodes start with [start]; those that are not still open have all
    their successors visited. *)
Definition explored (open visited : list A) : Prop :=
  forall n n', n ∈ visited -> n ∉ open -> follows_from n n' -> n' ∈ visited.
Definition begun (visited : list A) : Prop := exists l, visited = start :: l.
Definition found (visited visited' : list A) (from : list A) : Prop :=
  (exists l, visited' = visited ++ l) /\ forall n, n ∈ visited' -> n ∈ visited \/ exists r, r ∈ from /\ rtc follows_from r n.

Lemma search_all_spec (rec : A -> list A -> outcome (list A)) open l :
  (forall n v v', rec n v = Done v' -> begun v -> explored open v -> n ∈ v' /\ explored open v' /\ found v v' [n]) ->
  forall v v', search_all rec l v = Done v' -> begun v -> explored open v ->
    (forall n, n ∈ l -> n ∈ v') /\ explored open v' /\ found v v' l.
Proof.
  intros Hrec. induction l as [|n l IH]; intros v v' H Hb He; cbn [search_all] in H.
  - apply Done_inj in H as <-. split; [by intros n Hn%not_elem_of_nil|]. split; [done|]. split; [exists []; by rewrite app_nil_r|by left].
  - apply obind_Done in H as (v1 & E & H). destruct (Hrec n v v1 E Hb He) as (H1 & H2 & (l1 & ->) & H3).
    destruct (IH _ v' H) as (K1 & K2 & (l2 & ->) & K3); [destruct Hb as (l0 & ->); by eexists|done|].
    split; [intros m [->|Hm]%elem_of_cons; [set_solver|by apply K1]|]. split; [done|]. split; [exists (l1 ++ l2); by rewrite app_assoc|].
    intros m Hm. destruct (K3 m Hm) as [Hm1|(r & Hr & Hp)]; [|right; exists r; split; [by right|done]].
    destruct (H3 m Hm1) as [|(r & ->%list_elem_of_singleton & Hp)]; [by left|]. right. exists n. split; [by left|done].
Qed.
Lemma search_spec fuel : forall open n v v', search fuel n v = Done v' -> begun v -> explored open v ->
  n ∈ v' /\ explored open v' /\ found v v' [n].
Proof.
  induction fuel as [|fuel IH]; intros open n v v' H Hb He; cbn [search] in H; [done|].
  destruct (bool_decide (n ∈ v)) eqn:En; [apply bool_decide_eq_true in En|apply bool_decide_eq_false in En].
  { apply Done_inj in H as <-. split; [done|]. split; [done|]. split; [exists []; by rewrite app_nil_r|by left]. }
  assert (Hns : n <> start) by (intros ->; destruct Hb as (l & ->); apply En; by left).
  assert (Hnext : next (match v with [] => true | _ => false end) n = next (bool_decide (n = start)) n) by (rewrite bool_decide_false by done; by destruct Hb as (l & ->)).
  rewrite Hnext in H. destruct (search_all_spec (search fuel) (n :: open) _ (IH (n :: open)) _ _ H) as (K1 & K2 & (l & ->) & K3).
  { destruct Hb as (l & ->). by eexists. }
  { intros a b [Ha|Ha]%elem_of_app Hopen Hab; [apply not_elem_of_cons in Hopen as [_ Hopen]; apply elem_of_app; left; by eapply He|].
    apply list_elem_of_singleton in Ha as ->. exfalso. apply Hopen. by left. }
  split; [set_solver|]. split.
  - intros a b Ha Hopen Hab. destruct (decide (a = n)) as [->|Hne]; [by apply K1|]. eapply K2; [done| |done]. by apply not_elem_of_cons.
  - split; [exists ([n] ++ l); by rewrite app_assoc|]. intros a Ha. destruct (K3 a Ha) as [[Hv|Hn]%elem_of_app|(r & Hr & Hp)]; [by left|right..].
    + apply list_elem_of_singleton in Hn as ->. exists n. split; [by left|done].
    + exists n. split; [by left|]. by eapply rtc_l.
Qed.
(** Starting with nothing visited. *)
Lemma search_start fuel v' : search fuel start [] = Done v' -> (exists l, v' = start :: l) /\ forall n, n ∈ v' <-> rtc follows_from start n.
Proof.
  destruct fuel as [|fuel]; cbn [search]; [done|]. rewrite bool_decide_false by apply not_elem_of_nil. cbn [app]. intros H.
  assert (Hnext : next true start = next (bool_decide (start = start)) start) by (by rewrite bool_decide_true). rewrite Hnext in H.
  destruct (search_all_spec (search fuel) [start] _ (search_spec fuel [start]) _ _ H) as (K1 & K2 & (l & ->) & K3).
  { by exists []. }
  { intros a b ->%list_elem_of_singleton Hopen. exfalso. apply Hopen. by left. }
  split; [by exists l|]. intros n. split.
  - intros Hn. destruct (K3 n Hn) as [->%list_elem_of_singleton|(r & Hr & Hp)]; [done|]. by eapply rtc_l.
  - intros Hp. revert n Hp. apply rtc_ind_r; [set_solver|]. intros a b _ Hab Ha.
    destruct (decide (a = start)) as [->|Hne]; [by apply K1|]. eapply K2; [exact Ha| |exact Hab]. by apply not_elem_of_cons; split; [|apply not_elem_of_nil].
Qed.

Lemma search_nodup fuel : forall n v v', search fuel n v = Done v' -> NoDup v -> NoDup v'.
Proof.
  induction fuel as [|fuel IH]; intros n v v' H Hv; cbn [search] in H; [done|]. destruct (bool_decide (n ∈ v)) eqn:En; [by apply Done_inj in H as <-|].
  apply bool_decide_eq_false in En. assert (Hv1 : NoDup (v ++ [n])).
  { apply NoDup_app. split; [done|]. split; [|apply NoDup_singleton]. intros x Hx ->%list_elem_of_singleton. done. }
  revert H Hv1. generalize (next (match v with [] => true | _ => false end) n) (v ++ [n]). intros l. induction l as [|x l IHl]; intros w H Hw; cbn [search_all] in H; [by apply Done_inj in H as <-|].
  apply obind_Done in H as (w1 & E & H). eapply IHl; [exact H|]. by eapply IH.
Qed.

(** *** It ends *)

Context (universe : list A) (Hclosed : forall b n n', n ∈ universe -> n' ∈ next b n -> n' ∈ universe).
Definition unvisited (visited : list A) : nat := length (List.filter (fun n => negb (bool_decide (n ∈ visited))) universe).
Lemma unvisited_more v v' : (forall n, n ∈ v -> n ∈ v') -> (unvisited v' <= unvisited v)%nat.
Proof.
  intros H. unfold unvisited. clear Hclosed. induction universe as [|n l IH]; [done|]. cbn [List.filter].
  destruct (bool_decide (n ∈ v)) eqn:E1, (bool_decide (n ∈ v')) eqn:E2; cbn [negb length]; try lia; try exact IH.
  apply bool_decide_eq_true in E1. apply bool_decide_eq_false in E2. exfalso. by apply E2, H.
Qed.
Lemma unvisited_less v n : n ∈ universe -> n ∉ v -> (unvisited (v ++ [n]) < unvisited v)%nat.
Proof.
  intros Hn Hv. unfold unvisited. clear Hclosed. induction universe as [|m l IH]; [by apply not_elem_of_nil in Hn|]. cbn [List.filter].
  assert (Hle : (length (List.filter (fun n0 => negb (bool_decide (n0 ∈ v ++ [n]))) l) <= length (List.filter (fun n0 => negb (bool_decide (n0 ∈ v))) l))%nat).
  { clear. induction l as [|x l IH]; [done|]. cbn [List.filter]. destruct (bool_decide (x ∈ v)) eqn:E1, (bool_decide (x ∈ v ++ [n])) eqn:E2; cbn [negb length]; try lia.
    apply bool_decide_eq_true in E1. apply bool_decide_eq_false in E2. exfalso. apply E2. set_solver. }
  destruct (decide (m = n)) as [->|Hne].
  - rewrite (bool_decide_true (n ∈ v ++ [n])) by set_solver. rewrite (bool_decide_false (n ∈ v)) by done. cbn [negb length]. lia.
  - apply elem_of_cons in Hn as [->|Hn]; [done|]. specialize (IH Hn). destruct (bool_decide (m ∈ v)) eqn:E1, (bool_decide (m ∈ v ++ [n])) eqn:E2; cbn [negb length]; try lia.
    apply bool_decide_eq_true in E1. apply bool_decide_eq_false in E2. exfalso. apply E2. set_solver.
Qed.
Lemma search_ends fuel : forall n v, n ∈ universe -> (unvisited v < fuel)%nat -> exists v', search fuel n v = Done v' /\ exists l, v' = v ++ l.
Proof.
  induction fuel as [|fuel IH]; intros n v Hn Hf; [lia|]. cbn [search]. destruct (bool_decide (n ∈ v)) eqn:En; [exists v; split; [done|]; exists []; by rewrite app_nil_r|].
  apply bool_decide_eq_false in En. pose proof (unvisited_less v n Hn En) as Hless.
  assert (Hall : forall l w, (forall x, x ∈ l -> x ∈ universe) -> (unvisited w < fuel)%nat -> exists v', search_all (search fuel) l w = Done v' /\ exists l', v' = w ++ l').
  { induction l as [|x l IHl]; intros w Hl Hw; cbn [search_all]; [exists w; split; [done|]; exists []; by rewrite app_nil_r|].
    destruct (IH x w) as (w1 & -> & l1 & ->); [apply Hl; by left|done|]. cbn [obind].
    destruct (IHl (w ++ l1)) as (w2 & -> & l2 & ->); [intros y Hy; apply Hl; by right|pose proof (unvisited_more w (w ++ l1) ltac:(set_solver)); lia|].
    eexists. split; [done|]. exists (l1 ++ l2). by rewrite app_assoc. }
  destruct (Hall (next (match v with [] => true | _ => false end) n) (v ++ [n])) as (v' & E & l & ->); [intros x Hx; by eapply Hclosed|lia|].
  eexists. split; [exact E|]. exists ([n] ++ l). by rewrite app_assoc.
Qed.
End search.

(** ** Uses *)

(** A constant, with functions and global variables; an argument; the k-th
    instruction of a block, phi nodes and the terminator included. *)
Inductive node :=
| ConstantNode (v : Value)
| ArgNode (F x : string)
| InstNode (F b : string) (k : nat).
#[export] Instance node_eq_dec : EqDecision node.
Proof. solve_decision. Defined.
Definition is_inst (n : node) : bool := match n with InstNode _ _ _ => true | _ => false end.

Inductive slot := SPhi (p : Phi) | SInst (i : Inst) | STerm (t : Term).
Definition slots_of (b : Block) : list slot := map SPhi (bb_phis b) ++ map SInst (bb_insts b) ++ [STerm (bb_term b)].
Definition slot_operands (s : slot) : list Value :=
  match s with SPhi p => map fst (phi_incoming p) | SInst i => operands (i_kind i) | STerm t => term_operands t end.
Definition slot_result (s : slot) : option string :=
  match s with SPhi p => Some (phi_name p) | SInst i => match i_type i with TyVoid => None | _ => Some (i_name i) end | STerm _ => None end.
Definition numbered (F b : string) (l : list slot) : list (node * slot) := imap (fun k s => (InstNode F b k, s)) l.
Definition places_in (F : Function_) : list (node * slot) := flat_map (fun b => numbered (f_name F) (bb_name b) (slots_of b)) (f_blocks F).

Definition direct_operands (v : Value) : list Value :=
  match v with ConstantExpr _ l _ | ConstantAggregate l _ | ConstantDataSequential l _ => l | _ => [] end.
Fixpoint parts (v : Value) : list Value :=
  v :: match v with ConstantExpr _ l _ | ConstantAggregate l _ | ConstantDataSequential l _ => flat_map parts l | _ => [] end.
Definition init_of (g : Global) : list Value := match g_init g with Some v => [v] | None => [] end.

Section uses.
Context (m : Module_).
Definition places : list (node * slot) := flat_map places_in (m_functions m).
(** The constants of the module. *)
Definition constants : list Value := flat_map parts (flat_map all_operands (m_functions m) ++ flat_map init_of (m_globals m)).

Definition uses_of_local (F x : string) : list node :=
  flat_map (fun G => if String.eqb (f_name G) F then map fst (List.filter (fun p : node * slot => existsb (is_local x) (slot_operands (snd p))) (places_in G)) else []) (m_functions m).
Definition result_at (n : node) : option string := match List.find (fun p : node * slot => bool_decide (fst p = n)) places with Some (_, s) => slot_result s | None => None end.
(** Value::users *)
Definition users (n : node) : list node :=
  match n with
  | ConstantNode v =>
      map fst (List.filter (fun p : node * slot => bool_decide (v ∈ slot_operands (snd p))) places)
      ++ map ConstantNode (List.filter (fun c => bool_decide (v ∈ direct_operands c)) constants)
      ++ map (fun g => ConstantNode (global_ref g)) (List.filter (fun g => bool_decide (v ∈ init_of g)) (m_globals m))
  | ArgNode F x => uses_of_local F x
  | InstNode F _ _ => match result_at n with Some x => uses_of_local F x | None => [] end
  end.
(** But for the value asked about, a constant expression also leads to its first
    operand. *)
Definition dependents (first : bool) (n : node) : list node :=
  (if first then [] else match n with ConstantNode (ConstantExpr _ (o :: _) _) => [ConstantNode o] | _ => [] end) ++ users n.
Definition all_nodes (start : node) : list node :=
  start :: match start with ConstantNode v => map ConstantNode (parts v) | _ => [] end
  ++ map fst places ++ map ConstantNode constants ++ map (fun g => ConstantNode (global_ref g)) (m_globals m).
Definition globals_of (l : list node) : list string := flat_map (fun n => match n with ConstantNode (GlobalVariable g _) => [g] | _ => [] end) l.
(** The instructions and the global variables found. *)
Definition getDependentValues (pv : node) : outcome (list node * list string) :=
  let* visited := search dependents (S (length (all_nodes pv))) pv [] in
  Done (List.filter is_inst (tail visited), globals_of (tail visited)).

(** *** What it finds *)

Definition depends : node -> node -> node -> Prop := follows_from dependents.

Lemma parts_whole v : v ∈ parts v.
Proof. destruct v; by left. Qed.
Lemma parts_direct v : forall c o, c ∈ parts v -> o ∈ direct_operands c -> o ∈ parts v.
Proof.
  revert v. fix IH 1. intros v c o Hc Ho.
  assert (Hself : forall l, o ∈ l -> o ∈ flat_map parts l) by (intros l Hin; apply list_elem_of_In, in_flat_map; exists o; rewrite <- !list_elem_of_In; split; [done|apply parts_whole]).
  destruct v; cbn [parts] in *; apply elem_of_cons in Hc as [->|Hc]; try (by apply not_elem_of_nil in Ho); try (by apply not_elem_of_nil in Hc); right; try (by apply Hself); clear Hself;
    match goal with H : c ∈ flat_map parts ?l |- _ => revert H; induction l as [|x l IHl]; intros H; [by apply not_elem_of_nil in H|]; cbn [flat_map] in *; apply elem_of_app in H as [H|H]; apply elem_of_app;
      [left; exact (IH x c o H Ho)|right; by apply IHl] end.
Qed.
Lemma constants_direct c o : c ∈ constants -> o ∈ direct_operands c -> o ∈ constants.
Proof.
  unfold constants. intros Hc Ho. apply list_elem_of_In, in_flat_map in Hc as (v & Hv & Hc). apply list_elem_of_In, in_flat_map. exists v. split; [done|].
  apply list_elem_of_In. eapply parts_direct; [by apply list_elem_of_In|done].
Qed.
Lemma uses_of_local_places F x n : n ∈ uses_of_local F x -> n ∈ map fst places.
Proof.
  unfold uses_of_local, places. intros Hn. apply list_elem_of_In, in_flat_map in Hn as (G & HG & Hn). destruct (String.eqb _ _); [|done].
  apply in_map_iff in Hn as (p & <- & Hp). apply filter_In in Hp as [Hp _]. apply list_elem_of_In, in_map, in_flat_map. by exists G.
Qed.
Lemma all_nodes_closed start b n n' : n ∈ all_nodes start -> n' ∈ dependents b n -> n' ∈ all_nodes start.
Proof.
  intros Hn Hn'. unfold dependents in Hn'. apply elem_of_app in Hn' as [Hn'|Hn'].
  - destruct b; [by apply not_elem_of_nil in Hn'|]. destruct n as [c|F x|F l k]; try (by apply not_elem_of_nil in Hn'). destruct c as [| | | |op l t| | | | | | | |]; try (by apply not_elem_of_nil in Hn').
    destruct l as [|o l]; [by apply not_elem_of_nil in Hn'|]. apply list_elem_of_singleton in Hn' as ->. set (c := ConstantExpr op (o :: l) t) in *.
    assert (Ho : o ∈ direct_operands c) by (by left). unfold all_nodes in *. rewrite elem_of_cons, !elem_of_app in Hn. rewrite elem_of_cons, !elem_of_app.
    destruct Hn as [<-|[Hn|[Hn|[Hn|Hn]]]].
    + right. left. apply list_elem_of_fmap_2. eapply parts_direct; [apply parts_whole|done].
    + right. left. destruct start as [v| |]; try (by apply not_elem_of_nil in Hn). apply list_elem_of_fmap in Hn as (c' & [= <-] & Hn). apply list_elem_of_fmap_2. by eapply parts_direct.
    + exfalso. apply list_elem_of_In, in_map_iff in Hn as (p & Ep & Hp). unfold places in Hp. apply in_flat_map in Hp as (G & _ & Hp). unfold places_in in Hp. apply in_flat_map in Hp as (bl & _ & Hp).
      unfold numbered in Hp. apply list_elem_of_In, elem_of_lookup_imap in Hp as (k & s & -> & _). done.
    + right. right. right. left. apply list_elem_of_fmap in Hn as (c' & [= <-] & Hn). apply list_elem_of_fmap_2. by eapply constants_direct.
    + exfalso. apply list_elem_of_fmap in Hn as (g & [=] & _).
  - unfold all_nodes. rewrite elem_of_cons, !elem_of_app. destruct n as [c|F x|F l k]; cbn [users] in Hn'.
    + rewrite !elem_of_app in Hn'. destruct Hn' as [Hn'|[Hn'|Hn']]; apply list_elem_of_In, in_map_iff in Hn' as (p & <- & Hp); apply filter_In in Hp as [Hp _]; apply list_elem_of_In in Hp.
      * right. right. left. by apply list_elem_of_fmap_2.
      * right. right. right. left. by apply list_elem_of_fmap_2.
      * right. right. right. right. by apply (list_elem_of_fmap_2 (fun g => ConstantNode (global_ref g))).
    + right. right. left. by eapply uses_of_local_places.
    + destruct (result_at _); [|by apply not_elem_of_nil in Hn']. right. right. left. by eapply uses_of_local_places.
Qed.

Lemma getDependentValues_finds pv : exists insts globs, getDependentValues pv = Done (insts, globs) /\ NoDup insts /\
  (forall n, n ∈ insts <-> is_inst n = true /\ n <> pv /\ rtc (depends pv) pv n) /\
  forall g, g ∈ globs <-> exists t, ConstantNode (GlobalVariable g t) <> pv /\ rtc (depends pv) pv (ConstantNode (GlobalVariable g t)).
Proof.
  unfold getDependentValues. destruct (search_ends dependents (all_nodes pv) (all_nodes_closed pv) (S (length (all_nodes pv))) pv []) as (v & E & _); [by left| |].
  { unfold unvisited. pose proof (filter_length_le (fun n => negb (bool_decide (n ∈ []))) (all_nodes pv)). lia. }
  rewrite E. cbn [obind]. do 2 eexists. split; [reflexivity|]. destruct (search_start dependents pv _ v E) as ((l & ->) & Hl).
  pose proof (search_nodup dependents _ _ _ _ E (NoDup_nil_2)) as Hn. apply NoDup_cons in Hn as [Hpv Hn]. cbn [tail].
  assert (Htail : forall n, n ∈ l <-> n <> pv /\ rtc (depends pv) pv n).
  { intros n. unfold depends. rewrite <- Hl, elem_of_cons. split; [|naive_solver]. intros H. split; [by intros ->|by right]. }
  split; [by apply NoDup_ListNoDup, List.NoDup_filter, NoDup_ListNoDup|]. split.
  - intros n. rewrite <- Htail, !list_elem_of_In, filter_In. tauto.
  - intros g. unfold globals_of. setoid_rewrite <- Htail. split.
    + intros H. apply list_elem_of_In, in_flat_map in H as (n & H1 & H2). destruct n as [v| |]; try done. destruct v as [| |g' t| | | | | | | | | |]; try done. destruct H2 as [->|[]].
      exists t. by apply list_elem_of_In.
    + intros (t & H). apply list_elem_of_In, in_flat_map. exists (ConstantNode (GlobalVariable g t)). split; [by apply list_elem_of_In|by left].
Qed.
(** getDependentValues always comes to an end, also where values depend on
    themselves through phi nodes. The instructions it collects are those that
    depend on the value, through any chain of uses, without the value itself; each
    is collected once, and likewise the global variables, those a constant
    expression is about included. *)
Theorem getDependentValues_spec pv : exists insts globs, getDependentValues pv = Done (insts, globs) /\ NoDup insts /\
  (forall n, n ∈ insts <-> is_inst n = true /\ n <> pv /\ rtc (depends pv) pv n) /\
  forall g, g ∈ globs <-> exists t, ConstantNode (GlobalVariable g t) <> pv /\ rtc (depends pv) pv (ConstantNode (GlobalVariable g t)).
Proof. exact (getDependentValues_finds pv). Qed.
End uses.
