(* ===== verification/PreserveABIs.v ===== *)
(** * PreserveABIs: calls that keep arguments alive

    libclambcc/ClamBCPreserveABIs.cpp runs twice around the optimizer. The first
    run gives each function a call of a function of its own type, which only
    exists to use all arguments, and makes internal functions external; the second
    run, which finds the list the first one left, takes the calls and the functions
    away. *)
From S2P Require Import Prelude IR Semantics Integers Dominance Intrinsics SmallPasses Dependents.
Local Open Scope string_scope.
Local Open Scope list_scope.
Local Open Scope Z_scope.
Local Open Scope outcome_scope.

(** What the pass reads and changes: the module, the operands of the named metadata
    clambc.fakefunctions, if there is one, and the linkage of functions, as the
    names of those whose linkage is internal. *)
Record annotated := { an_module : Module_; an_fakes : option (list string); an_internal : gset string }.

Section pass.
(** The names LLVM gives a new function and a new value that ask for a name; the
    order in which a set of instructions is visited. *)
Context (function_name : Module_ -> string -> string) (value_name : Function_ -> string -> string) (order : list node -> list node).

(** ** Adding the calls *)

(** Allocations at the start of the block stay where they are. *)
Fixpoint insert_after_allocas (c : Inst) (l : list Inst) : list Inst :=
  match l with
  | i :: l' => match i_kind i with Alloca _ _ => i :: insert_after_allocas c l' | _ => c :: l end
  | [] => [c]
  end.
Definition fakeFunction (newname : string) (F : Function_) : Function_ := {|
  f_name := newname; f_args := map (fun a => ("", snd a)) (f_args F); f_ret := f_ret F; f_vararg := f_vararg F; f_cc := 0; f_sret := false;
  f_available_externally := false; f_intrinsic := None; f_blocks := [] |}.
Definition fake_call (newname x : string) (F : Function_) : Inst :=
  inst x (f_ret F) (Call (FunctionValue newname (TyPtr (f_type F))) 0 (map (fun a => Local (fst a) (snd a)) (f_args F))).
Definition in_entry (f : list Inst -> list Inst) (F : Function_) : Function_ :=
  with_blocks F (match f_blocks F with b :: bs => with_insts b (f (bb_insts b)) :: bs | [] => [] end).
Definition change_function (g : string) (f : Function_ -> Function_) (m : Module_) : Module_ :=
  with_functions m (map (fun F => if String.eqb (f_name F) g then f F else F) (m_functions m)).
Definition processFunction_abi (g : string) (s : Module_ * list string) : Module_ * list string :=
  let '(m, fakeFunctions) := s in
  match find_function m g with
  | Some pFunc =>
      match f_args pFunc with
      | [] => s
      | _ =>
          let newname := function_name m (g ++ "_fake") in
          let x := match f_ret pFunc with TyVoid => "" | _ => value_name pFunc "a" end in
          let m := change_function g (in_entry (insert_after_allocas (fake_call newname x pFunc))) m in
          (with_functions m (m_functions m ++ [fakeFunction newname pFunc]), fakeFunctions ++ [newname])
      end
  | None => s
  end.

(** ** Removing them *)

Definition is_call_slot (s : slot) : bool := match s with SInst {| i_kind := Call _ _ _ |} => true | _ => false end.
Definition slot_at (m : Module_) (n : node) : option slot := snd <$> List.find (fun p : node * slot => bool_decide (fst p = n)) (places m).
(** An instruction is erased when nothing uses its result any more. *)
Fixpoint erase_calls (m : Module_) (erased : list node) (l : list node) : outcome (list node) :=
  match l with
  | [] => Done erased
  | n :: l =>
      match slot_at m n with
      | Some s =>
          if is_call_slot s then
            let* _ := assert_ (forallb (fun u => bool_decide (u ∈ erased)) (users m n)) "Uses remain when a value is destroyed!" in
            erase_calls m (n :: erased) l
          else AssertFailed "WHAT HAPPENED"
      | None => AssertFailed "WHAT HAPPENED"
      end
  end.
(** Without the instructions erased. *)
Fixpoint keep_insts (erased : list node) (F b : string) (k : nat) (l : list Inst) : list Inst :=
  match l with
  | [] => []
  | i :: l => (if bool_decide (InstNode F b k ∈ erased) then [] else [i]) ++ keep_insts erased F b (S k) l
  end.
Definition without_insts (erased : list node) (F : Function_) : Function_ :=
  with_blocks F (map (fun b => with_insts b (keep_insts erased (f_name F) (bb_name b) (length (bb_phis b)) (bb_insts b))) (f_blocks F)).
Definition removeFakeFunction (g : string) (m : Module_) : outcome Module_ :=
  match find_function m g with
  | None => Undefined "getDependentValues of a null pointer"
  | Some pf =>
      let* (insts, globs) := getDependentValues m (ConstantNode (FunctionValue g (TyPtr (f_type pf)))) in
      let* _ := assert_ (match globs with [] => true | _ => false end) "what globals" in
      let* erased := erase_calls m [] (order insts) in
      let m := with_functions m (map (without_insts erased) (m_functions m)) in
      let* _ := assert_ (match users m (ConstantNode (FunctionValue g (TyPtr (f_type pf)))) with [] => true | _ => false end) "Uses remain when a value is destroyed!" in
      Done (with_functions m (List.filter (fun F => negb (String.eqb (f_name F) g)) (m_functions m)))
  end.
Fixpoint removeFakeFunctions (l : list string) (m : Module_) : outcome Module_ :=
  match l with [] => Done m | g :: l => let* m := removeFakeFunction g m in removeFakeFunctions l m end.

(** setLinkage(ExternalLinkage), and a new function is external. *)
Definition set_external (g : string) (internal : gset string) : gset string := internal ∖ {[ g ]}.
(** The first run goes through the functions that have a body; those it adds have
    none. *)
Definition add_fakes (s : Module_ * list string * gset string) (F : Function_) : Module_ * list string * gset string :=
  if isDeclaration F then s
  else let '(added, internal) := s in
    (processFunction_abi (f_name F) added, if decide (f_name F ∈ internal) then set_external (f_name F) internal else internal).
(** All preserved is never reported: writeMetadata sets bChanged. *)
Definition PreserveABIs (a : annotated) : outcome annotated :=
  match an_fakes a with
  | Some fakes =>
      let* m := removeFakeFunctions fakes (an_module a) in
      Done {| an_module := m; an_fakes := None; an_internal := an_internal a |}
  | None =>
      let '(m, fakes, internal) := fold_left add_fakes (m_functions (an_module a)) (an_module a, [], an_internal a) in
      Done {| an_module := m; an_fakes := Some fakes; an_internal := internal |}
  end.
End pass.

Lemma set_external_more g (internal X : gset string) :
  (if decide (g ∈ internal) then set_external g internal else internal) ∖ X = internal ∖ ({[ g ]} ∪ X).
Proof. unfold set_external. destruct (decide (g ∈ internal)); set_solver. Qed.

(** ** Taking away what was added *)

(** The instructions in front of the new call. *)
Fixpoint leading_allocas (l : list Inst) : nat :=
  match l with i :: l => match i_kind i with Alloca _ _ => S (leading_allocas l) | _ => O end | [] => O end.
Lemma insert_after_allocas_split c l : insert_after_allocas c l = take (leading_allocas l) l ++ c :: drop (leading_allocas l) l.
Proof. induction l as [|i l IH]; [done|]. cbn [insert_after_allocas leading_allocas]. destruct (i_kind i); try done. cbn [take drop app]. by rewrite IH. Qed.
Lemma keep_all erased F b l : forall k, (forall j, InstNode F b j ∉ erased) -> keep_insts erased F b k l = l.
Proof. induction l as [|i l IH]; intros k H; [done|]. cbn [keep_insts]. rewrite bool_decide_false by apply H. cbn [app]. by rewrite IH. Qed.
Lemma keep_others F b j l : forall k, (j < k)%nat -> keep_insts [InstNode F b j] F b k l = l.
Proof.
  induction l as [|i l IH]; intros k H; [done|]. cbn [keep_insts]. rewrite bool_decide_false by (intros [= ->]%list_elem_of_singleton; lia). cbn [app]. by rewrite IH by lia.
Qed.
Lemma keep_insts_one F b c l1 l2 : forall k, keep_insts [InstNode F b (k + length l1)] F b k (l1 ++ c :: l2) = l1 ++ l2.
Proof.
  induction l1 as [|i l1 IH]; intros k; cbn [app keep_insts length].
  - replace (k + 0)%nat with k by lia. rewrite bool_decide_true by (by left). cbn [app]. apply keep_others. lia.
  - rewrite bool_decide_false by (intros [= E]%list_elem_of_singleton; lia). cbn [app]. f_equal. rewrite <- (IH (S k)). by replace (S k + length l1)%nat with (k + S (length l1))%nat by lia.
Qed.
Lemma only_one {A} (l : list A) a : NoDup l -> (forall x, x ∈ l <-> x = a) -> l = [a].
Proof.
  intros Hn H. destruct l as [|b l]; [exfalso; apply (not_elem_of_nil a), H; done|]. assert (b = a) as -> by (apply H; by left).
  destruct l as [|c l]; [done|]. assert (c = a) as -> by (apply H; right; by left). clear H. apply NoDup_cons in Hn as [Hn _]. exfalso. apply Hn. by left.
Qed.

Section twice.
Context (m : Module_).
(** What LLVM's verifier sees to: names are unique, and what is mentioned is
    there. *)
Record named : Prop := {
  nm_functions : NoDup (map f_name (m_functions m));
  nm_blocks F : F ∈ m_functions m -> NoDup (map bb_name (f_blocks F));
  nm_known f t : FunctionValue f t ∈ constants m -> f ∈ map f_name (m_functions m);
  nm_locals F x t : F ∈ m_functions m -> Local x t ∈ all_operands F -> x ∈ all_names F
}.
Context (Hm : named).

(** The functions that have a fake call, with the names of the fake function and
    of its result. *)
Record fake := { fk_function : Function_; fk_name : string; fk_value : string }.
Definition fk_key (s : fake) : string := f_name (fk_function s).
Definition fk_call (s : fake) : Inst := fake_call (fk_name s) (fk_value s) (fk_function s).
Definition fk_decl (s : fake) : Function_ := fakeFunction (fk_name s) (fk_function s).
Definition staged (S : list fake) (F : Function_) : Function_ :=
  match List.find (fun s => String.eqb (fk_key s) (f_name F)) S with Some s => in_entry (insert_after_allocas (fk_call s)) F | None => F end.
Definition stage (S : list fake) : Module_ := with_functions m (map (staged S) (m_functions m) ++ map fk_decl S).
Record fakes_ok (S : list fake) : Prop := {
  fo_keys : NoDup (map fk_key S);
  fo_names : NoDup (map fk_name S);
  fo_in s : s ∈ S -> fk_function s ∈ m_functions m /\ f_blocks (fk_function s) <> [] /\ fk_name s ∉ map f_name (m_functions m);
  fo_value s : s ∈ S -> f_ret (fk_function s) <> TyVoid -> fk_value s ∉ all_names (fk_function s)
}.

Lemma staged_name S F : f_name (staged S F) = f_name F.
Proof. unfold staged. by destruct (List.find _ S). Qed.
Lemma staged_here s S F : f_name F = fk_key s -> staged (s :: S) F = in_entry (insert_after_allocas (fk_call s)) F.
Proof. intros E. unfold staged. cbn [List.find]. by rewrite E, String.eqb_refl. Qed.
Lemma staged_other s S F : f_name F <> fk_key s -> staged (s :: S) F = staged S F.
Proof. intros E. unfold staged. cbn [List.find]. destruct (String.eqb_spec (fk_key s) (f_name F)); [congruence|done]. Qed.
Lemma staged_none S F : f_name F ∉ map fk_key S -> staged S F = F.
Proof.
  intros H. unfold staged. destruct (List.find _ S) as [s|] eqn:E; [|done]. apply List.find_some in E as [Hs E]. apply String.eqb_eq in E. exfalso. apply H.
  rewrite <- E. apply list_elem_of_fmap_2. by apply list_elem_of_In.
Qed.
Lemma same_function F G : F ∈ m_functions m -> G ∈ m_functions m -> f_name F = f_name G -> F = G.
Proof. intros HF HG E. eapply (NoDup_map_eq f_name); [apply (nm_functions Hm)|done..]. Qed.
Lemma function_of_stage S G : G ∈ m_functions (stage S) -> (exists F, F ∈ m_functions m /\ G = staged S F) \/ exists s, s ∈ S /\ G = fk_decl s.
Proof.
  unfold stage. cbn [m_functions with_functions]. intros [HG|HG]%elem_of_app; apply list_elem_of_fmap in HG as (x & -> & Hx); [left|right]; by exists x.
Qed.
Lemma find_fake s S : fakes_ok (s :: S) -> find_function (stage (s :: S)) (fk_name s) = Some (fk_decl s).
Proof.
  intros HS. destruct (fo_in _ HS s) as (_ & _ & Hn); [by left|]. unfold find_function, stage. cbn [m_functions with_functions].
  assert (E : List.find (fun F => String.eqb (f_name F) (fk_name s)) (map (staged (s :: S)) (m_functions m)) = None).
  { clear - Hn. induction (m_functions m) as [|F l IH]; [done|]. cbn [map List.find] in *. apply not_elem_of_cons in Hn as [H1 H2]. rewrite staged_name.
    destruct (String.eqb_spec (f_name F) (fk_name s)); [congruence|by apply IH]. }
  rewrite find_app_none by done. cbn [map List.find fk_decl fakeFunction f_name]. by rewrite String.eqb_refl.
Qed.

(** *** What mentions the fake function *)

Definition fk_callee (s : fake) : Value := FunctionValue (fk_name s) (TyPtr (f_type (fk_decl s))).
Lemma callee_of_call s : i_kind (fk_call s) = Call (fk_callee s) 0 (map (fun a => Local (fst a) (snd a)) (f_args (fk_function s))).
Proof. unfold fk_callee, f_type, fk_decl, fakeFunction. cbn [f_ret f_args f_vararg]. by rewrite map_map. Qed.
Lemma callee_new s v : fk_name s ∉ map f_name (m_functions m) -> v = fk_callee s -> v ∉ constants m.
Proof. intros Hn -> Hv. apply Hn. by eapply (nm_known Hm). Qed.
Lemma operand_constant F v : F ∈ m_functions m -> v ∈ all_operands F -> v ∈ constants m.
Proof.
  intros HF Hv. unfold constants. apply list_elem_of_In, in_flat_map. exists v. split; [|by apply list_elem_of_In, parts_whole]. apply in_app_iff. left. apply in_flat_map. exists F.
  by rewrite <- !list_elem_of_In.
Qed.
Lemma init_constant g v : g ∈ m_globals m -> v ∈ init_of g -> v ∈ constants m.
Proof.
  intros HF Hv. unfold constants. apply list_elem_of_In, in_flat_map. exists v. split; [|by apply list_elem_of_In, parts_whole]. apply in_app_iff. right. apply in_flat_map. exists g.
  by rewrite <- !list_elem_of_In.
Qed.
Lemma slot_operand b s v : s ∈ slots_of b -> v ∈ slot_operands s -> v ∈ block_operands b.
Proof.
  unfold slots_of, block_operands. rewrite !elem_of_app. intros [Hs|[Hs|Hs]] Hv.
  - left. apply list_elem_of_fmap in Hs as (p & -> & Hp). apply elem_of_flat_map. by exists p.
  - right. left. apply list_elem_of_fmap in Hs as (i & -> & Hi). apply elem_of_flat_map. by exists i.
  - right. right. by apply list_elem_of_singleton in Hs as ->.
Qed.
(** The slots of a block into which a call has been put. *)
Definition entry_slots (b : Block) (c : Inst) : list slot * list slot :=
  let n := leading_allocas (bb_insts b) in
  (map SPhi (bb_phis b) ++ map SInst (take n (bb_insts b)), map SInst (drop n (bb_insts b)) ++ [STerm (bb_term b)]).
Lemma slots_inserted b c : slots_of (with_insts b (insert_after_allocas c (bb_insts b))) = fst (entry_slots b c) ++ SInst c :: snd (entry_slots b c).
Proof.
  unfold slots_of, entry_slots. cbn [with_insts bb_phis bb_insts bb_term fst snd]. rewrite insert_after_allocas_split, map_app. cbn [map]. by rewrite <- !app_assoc.
Qed.
Lemma slots_split b c : slots_of b = fst (entry_slots b c) ++ snd (entry_slots b c).
Proof.
  unfold slots_of, entry_slots. cbn [fst snd]. rewrite <- app_assoc. f_equal. rewrite app_assoc, <- map_app. by rewrite take_drop.
Qed.
Definition fk_place (s : fake) : node :=
  match f_blocks (fk_function s) with
  | b :: _ => InstNode (fk_key s) (bb_name b) (length (bb_phis b) + leading_allocas (bb_insts b))
  | [] => ArgNode "" ""
  end.
Lemma leading_length l : (leading_allocas l <= length l)%nat.
Proof. induction l as [|i l IH]; [done|]. cbn [leading_allocas length]. destruct (i_kind i); lia. Qed.
Lemma length_entry_slots b c : length (fst (entry_slots b c)) = (length (bb_phis b) + leading_allocas (bb_insts b))%nat.
Proof. unfold entry_slots. cbn [fst]. rewrite length_app, !length_map, length_take. pose proof (leading_length (bb_insts b)). lia. Qed.
(** A place of a staged module: one of a slot of the module, or of a fake call. *)
Lemma place_cases S n sl : fakes_ok S -> (n, sl) ∈ places (stage S) ->
  exists F b k, F ∈ m_functions m /\ n = InstNode (f_name F) (bb_name b) k /\ b ∈ f_blocks F /\
    (sl ∈ slots_of b \/ exists s, s ∈ S /\ fk_function s = F /\ sl = SInst (fk_call s) /\ n = fk_place s).
Proof.
  intros HS Hp. unfold places in Hp. apply elem_of_flat_map in Hp as (G & HG & Hp). apply function_of_stage in HG as [(F & HF & ->)|(s & _ & ->)].
  2: { unfold places_in, fk_decl, fakeFunction in Hp. cbn [f_blocks flat_map] in Hp. by apply not_elem_of_nil in Hp. }
  unfold places_in in Hp. rewrite staged_name in Hp. apply elem_of_flat_map in Hp as (b' & Hb' & Hp). unfold numbered in Hp. apply elem_of_lookup_imap in Hp as (k & s0 & [= -> ->] & Hk).
  unfold staged in Hb'. destruct (List.find (fun s => String.eqb (fk_key s) (f_name F)) S) as [s|] eqn:Es.
  2: { exists F, b', k. split; [done|]. split; [done|]. split; [done|]. left. by eapply list_elem_of_lookup_2. }
  apply List.find_some in Es as [Hs Es]. apply list_elem_of_In in Hs. apply String.eqb_eq in Es. destruct (fo_in S HS s Hs) as (HsF & Hne & _).
  assert (EF : fk_function s = F) by (by apply same_function). unfold in_entry in Hb'. cbn [f_blocks with_blocks] in Hb'. destruct (f_blocks F) as [|b bs] eqn:Eb; [by rewrite EF in Hne|].
  apply elem_of_cons in Hb' as [->|Hb']; [|exists F, b', k; rewrite Eb; split; [done|]; split; [done|]; split; [by right|]; left; by eapply list_elem_of_lookup_2].
  cbn [with_insts bb_name]. exists F, b, k. rewrite Eb. split; [done|]. split; [done|]. split; [by left|]. rewrite slots_inserted in Hk.
  apply lookup_app_Some in Hk as [Hk|[Hle Hk]]; [left; rewrite (slots_split b (fk_call s)); apply elem_of_app; left; by eapply list_elem_of_lookup_2|].
  destruct (k - length (fst (entry_slots b (fk_call s))))%nat as [|j] eqn:Ej; cbn [lookup list_lookup] in Hk.
  - right. exists s. injection Hk as <-. split; [done|]. split; [done|]. split; [done|]. unfold fk_place. rewrite EF, Eb. rewrite Es, length_entry_slots in *. f_equal. lia.
  - left. rewrite (slots_split b (fk_call s)). apply elem_of_app. right. by eapply list_elem_of_lookup_2.
Qed.
Lemma staged_at S s : fakes_ok S -> s ∈ S -> staged S (fk_function s) = in_entry (insert_after_allocas (fk_call s)) (fk_function s).
Proof.
  intros HS Hs. unfold staged. destruct (List.find _ S) as [s'|] eqn:Es.
  - apply List.find_some in Es as [Hs' Es]. apply list_elem_of_In in Hs'. apply String.eqb_eq in Es. f_equal. by rewrite (NoDup_map_eq fk_key S s' s (fo_keys S HS) Hs' Hs Es).
  - apply list_elem_of_In in Hs. eapply List.find_none in Es; [|exact Hs]. unfold fk_key in Es. by rewrite String.eqb_refl in Es.
Qed.
Lemma place_there S s : fakes_ok S -> s ∈ S -> (fk_place s, SInst (fk_call s)) ∈ places (stage S).
Proof.
  intros HS Hs. destruct (fo_in S HS s Hs) as (HF & Hne & _). unfold places. apply elem_of_flat_map. exists (staged S (fk_function s)). split.
  { unfold stage. cbn [m_functions with_functions]. apply elem_of_app. left. by apply list_elem_of_fmap_2. }
  unfold places_in. rewrite staged_name. apply elem_of_flat_map. unfold fk_place. rewrite (staged_at S s HS Hs). unfold in_entry. cbn [f_blocks with_blocks]. destruct (f_blocks (fk_function s)) as [|b bs]; [done|]. eexists. split; [by left|].
  cbn [with_insts bb_name]. unfold numbered. apply elem_of_lookup_imap. exists (length (bb_phis b) + leading_allocas (bb_insts b))%nat, (SInst (fk_call s)). split; [done|].
  rewrite slots_inserted, <- (length_entry_slots b (fk_call s)). by apply list_lookup_middle.
Qed.
Lemma staged_operands S F o : fakes_ok S -> F ∈ m_functions m -> o ∈ all_operands (staged S F) ->
  o ∈ all_operands F \/ exists s, s ∈ S /\ fk_function s = F /\ o ∈ operands (i_kind (fk_call s)).
Proof.
  intros HS HF Ho. unfold staged in Ho. destruct (List.find (fun s => String.eqb (fk_key s) (f_name F)) S) as [s|] eqn:Es; [|by left].
  apply List.find_some in Es as [Hs Es]. apply list_elem_of_In in Hs. apply String.eqb_eq in Es. destruct (fo_in S HS s Hs) as (HsF & Hne & _).
  assert (EF : fk_function s = F) by (by apply same_function). unfold all_operands, in_entry in *. cbn [f_blocks with_blocks] in Ho.
  destruct (f_blocks F) as [|b bs]; [by apply not_elem_of_nil in Ho|]. cbn [flat_map] in *. rewrite elem_of_app in *. destruct Ho as [Ho|Ho]; [|by left; right].
  unfold block_operands in *. cbn [with_insts bb_phis bb_insts bb_term] in Ho. rewrite insert_after_allocas_split, flat_map_app in Ho. cbn [flat_map] in Ho.
  rewrite <- (take_drop (leading_allocas (bb_insts b)) (bb_insts b)) at 1. rewrite flat_map_app. rewrite !elem_of_app in *. naive_solver.
Qed.
Lemma call_operand s o : o ∈ operands (i_kind (fk_call s)) -> (exists a, a ∈ f_args (fk_function s) /\ o = Local (fst a) (snd a)) \/ o = fk_callee s.
Proof.
  rewrite callee_of_call. cbn [operands]. intros [Ho|Ho]%elem_of_app; [left|right; by apply list_elem_of_singleton in Ho]. apply list_elem_of_fmap in Ho as (a & -> & Ha). by exists a.
Qed.
Lemma users_only S s n : fakes_ok S -> fk_name s ∉ map f_name (m_functions m) -> n ∈ users (stage S) (ConstantNode (fk_callee s)) ->
  exists s', s' ∈ S /\ fk_name s' = fk_name s /\ n = fk_place s'.
Proof.
  intros HS Hnew Hn. pose proof (callee_new s _ Hnew eq_refl) as Hno. cbn [users] in Hn. rewrite !elem_of_app in Hn.
  destruct Hn as [Hn|[Hn|Hn]]; apply list_elem_of_In, in_map_iff in Hn as (p & <- & Hp); apply filter_In in Hp as [Hp Hv]; apply list_elem_of_In in Hp; apply bool_decide_eq_true in Hv.
  - destruct p as [n sl]. cbn [fst snd] in *. destruct (place_cases S n sl HS Hp) as (F & b & k & HF' & -> & Hb & [Hsl|(s' & Hs' & EF & -> & En)]).
    + exfalso. apply Hno. eapply operand_constant; [exact HF'|]. apply elem_of_flat_map. exists b. split; [done|]. by eapply slot_operand.
    + exists s'. split; [done|]. split; [|done]. cbn [slot_operands] in Hv. destruct (call_operand s' _ Hv) as [(a & _ & [=])|E]. by injection E as E _.
  - exfalso. unfold constants in Hp. apply list_elem_of_In, in_flat_map in Hp as (o & Ho & Hc). apply in_app_iff in Ho as [Ho|Ho].
    + apply in_flat_map in Ho as (G & HG & Ho). apply list_elem_of_In in HG, Ho, Hc. apply function_of_stage in HG as [(F & HF' & ->)|(s' & _ & ->)]; [|by apply not_elem_of_nil in Ho].
      destruct (staged_operands S F o HS HF' Ho) as [Ho'|(s' & _ & _ & Ho')].
      * apply Hno. eapply constants_direct; [|exact Hv]. unfold constants. apply list_elem_of_In, in_flat_map. exists o. rewrite <- !list_elem_of_In. split; [|exact Hc].
        apply elem_of_app. left. apply elem_of_flat_map. by exists F.
      * destruct (call_operand s' o Ho') as [(a & _ & ->)| ->]; cbn [parts fk_callee] in Hc; apply list_elem_of_singleton in Hc as ->; by apply not_elem_of_nil in Hv.
    + apply Hno. eapply constants_direct; [|exact Hv]. unfold constants. apply list_elem_of_In, in_flat_map. exists o. split; [apply in_app_iff; by right|exact Hc].
  - exfalso. apply Hno. by eapply init_constant.
Qed.
Lemma users_callee S s n : fakes_ok S -> s ∈ S -> n ∈ users (stage S) (ConstantNode (fk_callee s)) <-> n = fk_place s.
Proof.
  intros HS Hs. destruct (fo_in S HS s Hs) as (HF & Hne & Hnew). split.
  - intros Hn. destruct (users_only S s n HS Hnew Hn) as (s' & Hs' & E & ->). by rewrite (NoDup_map_eq fk_name S s' s (fo_names S HS) Hs' Hs E).
  - intros ->. cbn [users]. rewrite !elem_of_app. left. apply list_elem_of_In, in_map_iff. exists (fk_place s, SInst (fk_call s)). split; [done|].
    apply filter_In. split; [apply list_elem_of_In; by apply place_there|].
    apply bool_decide_eq_true. cbn [snd slot_operands]. rewrite callee_of_call. cbn [operands]. apply elem_of_app. right. by left.
Qed.
(** Places are numbered without ambiguity. *)
Lemma stage_names S : map f_name (m_functions (stage S)) = map f_name (m_functions m) ++ map fk_name S.
Proof.
  unfold stage. cbn [m_functions with_functions]. rewrite map_app, !map_map. f_equal. apply map_ext. intros F. apply staged_name.
Qed.
Lemma stage_names_nodup S : fakes_ok S -> NoDup (map f_name (m_functions (stage S))).
Proof.
  intros HS. rewrite stage_names. apply NoDup_app. split; [apply (nm_functions Hm)|]. split; [|apply (fo_names S HS)].
  intros f Hf Hf'. apply list_elem_of_fmap in Hf' as (s & -> & Hs). by destruct (fo_in S HS s Hs) as (_ & _ & Hn).
Qed.
Lemma stage_blocks S G : G ∈ m_functions (stage S) -> NoDup (map bb_name (f_blocks G)).
Proof.
  intros HG. apply function_of_stage in HG as [(F & HF & ->)|(s & _ & ->)]; [|constructor]. pose proof (nm_blocks Hm F HF) as Hn. unfold staged, in_entry.
  destruct (List.find _ S) as [s|]; [|done]. cbn [f_blocks with_blocks]. by destruct (f_blocks F).
Qed.
Lemma places_once S n sl sl' : fakes_ok S -> (n, sl) ∈ places (stage S) -> (n, sl') ∈ places (stage S) -> sl = sl'.
Proof.
  intros HS H H'. unfold places in *. apply elem_of_flat_map in H as (G & HG & H), H' as (G' & HG' & H'). unfold places_in, numbered in *.
  apply elem_of_flat_map in H as (b & Hb & H), H' as (b' & Hb' & H'). apply elem_of_lookup_imap in H as (k & s0 & [= -> ->] & Hk), H' as (k' & s0' & [= E1 E2 E3 ->] & Hk').
  assert (G = G') as <- by (eapply (NoDup_map_eq f_name); [by apply stage_names_nodup|done..]).
  assert (b = b') as <- by (eapply (NoDup_map_eq bb_name); [by eapply stage_blocks|done..]). subst k'. congruence.
Qed.
Lemma find_place S n sl : fakes_ok S -> (n, sl) ∈ places (stage S) -> List.find (fun p : node * slot => bool_decide (fst p = n)) (places (stage S)) = Some (n, sl).
Proof.
  intros HS Hp. destruct (List.find _ _) as [[n' sl']|] eqn:E.
  - apply List.find_some in E as [Hp' E]. apply bool_decide_eq_true in E. cbn [fst] in E. subst n'. apply list_elem_of_In in Hp'. do 2 f_equal. by eapply places_once.
  - apply list_elem_of_In in Hp. eapply List.find_none in E; [|exact Hp]. by rewrite bool_decide_true in E.
Qed.
Lemma users_place S s : fakes_ok S -> s ∈ S -> users (stage S) (fk_place s) = [].
Proof.
  intros HS Hs. destruct (fo_in S HS s Hs) as (HF & Hne & Hnew). pose proof (place_there S s HS Hs) as Hp. pose proof (find_place S _ _ HS Hp) as Hfind.
  unfold fk_place in *. destruct (f_blocks (fk_function s)) as [|b bs] eqn:Eb; [done|]. cbn [users]. unfold result_at. rewrite Hfind. cbn [slot_result]. unfold fk_call, fake_call at 1. cbn [inst i_type].
  assert (Hnone : f_ret (fk_function s) <> TyVoid -> uses_of_local (stage S) (fk_key s) (fk_value s) = []).
  { intros Hret. pose proof (fo_value S HS s Hs Hret) as Hx. destruct (uses_of_local _ _ _) as [|u l] eqn:El; [done|]. exfalso.
    assert (Hu : u ∈ uses_of_local (stage S) (fk_key s) (fk_value s)) by (rewrite El; by left). unfold uses_of_local in Hu. apply elem_of_flat_map in Hu as (G & HG & Hu).
    destruct (String.eqb_spec (f_name G) (fk_key s)) as [Ek|_]; [|by apply not_elem_of_nil in Hu]. apply list_elem_of_In, in_map_iff in Hu as (p & _ & Hp'). apply filter_In in Hp' as [Hp' Hx'].
    apply function_of_stage in HG as [(F & HF' & ->)|(s' & _ & ->)]; [|done]. rewrite staged_name in Ek. assert (F = fk_function s) as -> by (by apply same_function).
    apply existsb_exists in Hx' as (o & Ho & Hl). apply list_elem_of_In in Hp', Ho. assert (Hop : o ∈ all_operands (staged S (fk_function s))).
    { unfold places_in, numbered in Hp'. apply elem_of_flat_map in Hp' as (b' & Hb' & Hp'). apply elem_of_lookup_imap in Hp' as (k & s0 & -> & Hk). apply elem_of_flat_map. exists b'. split; [done|].
      eapply slot_operand; [by eapply list_elem_of_lookup_2|done]. }
    destruct o as [y t| | | | | | | | | | | |]; try done. cbn [is_local] in Hl. apply String.eqb_eq in Hl as <-.
    destruct (staged_operands S _ _ HS HF Hop) as [Ho'|(s' & Hs' & EF & Ho')]; [apply Hx; by eapply (nm_locals Hm)|].
    destruct (call_operand s' _ Ho') as [(a & Ha & [= E _])|[=]]. apply Hx. rewrite E. unfold all_names. apply elem_of_app. left. rewrite EF in Ha. by apply list_elem_of_fmap_2. }
  destruct (f_ret (fk_function s)) eqn:Er; try done; apply Hnone; congruence.
Qed.
Lemma dependents_of_fake S s : fakes_ok S -> s ∈ S -> getDependentValues (stage S) (ConstantNode (fk_callee s)) = Done ([fk_place s], []).
Proof.
  intros HS Hs. destruct (getDependentValues_finds (stage S) (ConstantNode (fk_callee s))) as (insts & globs & E & Hn & Hi & Hg). rewrite E.
  assert (Hplace : is_inst (fk_place s) = true) by (unfold fk_place; destruct (fo_in S HS s Hs) as (_ & Hne & _); by destruct (f_blocks (fk_function s))).
  assert (Hreach : forall n, rtc (depends (stage S) (ConstantNode (fk_callee s))) (ConstantNode (fk_callee s)) n -> n = ConstantNode (fk_callee s) \/ n = fk_place s).
  { apply rtc_ind_r; [by left|]. intros a b _ Hab [->| ->]; right; unfold depends, follows_from, dependents in Hab; apply elem_of_app in Hab as [Hab|Hab].
    - destruct (bool_decide _); by apply not_elem_of_nil in Hab.
    - by apply (users_callee S s b HS Hs) in Hab.
    - destruct (fk_place s); [done|..]; destruct (bool_decide _); by apply not_elem_of_nil in Hab.
    - rewrite (users_place S s HS Hs) in Hab. by apply not_elem_of_nil in Hab. }
  assert (Hto : rtc (depends (stage S) (ConstantNode (fk_callee s))) (ConstantNode (fk_callee s)) (fk_place s)).
  { apply rtc_once. unfold depends, follows_from, dependents. apply elem_of_app. right. by apply (users_callee S s _ HS Hs). }
  f_equal. f_equal.
  - apply only_one; [done|]. intros n. rewrite Hi. split; [|intros ->; split; [done|split; [by destruct (fk_place s)|done]]].
    intros (_ & Hne & Hr). by destruct (Hreach n Hr).
  - destruct globs as [|g globs]; [done|]. exfalso. destruct (proj1 (Hg g) ltac:(by left)) as (t & Hne & Hr). destruct (Hreach _ Hr) as [H|H]; [done|]. by rewrite <- H in Hplace.
Qed.

(** *** One function taken away *)

Context (order : list node -> list node) (Horder : forall l, order l ≡ₚ l).
Lemma without_one s F b k : fk_place s = InstNode (fk_key s) b k -> f_name F <> fk_key s -> without_insts [fk_place s] F = F.
Proof.
  intros Hp Hne. unfold without_insts. destruct F as [n args ret va cc sr ae it bs]. unfold with_blocks. cbn [f_name f_blocks f_args f_ret f_vararg f_cc f_sret f_available_externally f_intrinsic] in *.
  f_equal. induction bs as [|c bs IH]; [done|]. cbn [map]. rewrite IH. f_equal. rewrite keep_all; [by destruct c|]. intros j Hj%list_elem_of_singleton. rewrite Hp in Hj. by injection Hj.
Qed.
Lemma without_call s S : fakes_ok (s :: S) -> without_insts [fk_place s] (in_entry (insert_after_allocas (fk_call s)) (fk_function s)) = fk_function s.
Proof.
  intros HS. destruct (fo_in _ HS s ltac:(by left)) as (HF & Hne & _). pose proof (nm_blocks Hm _ HF) as Hn. unfold fk_place, fk_key, fk_call.
  destruct (fk_function s) as [n args ret va cc sr ae it bs] eqn:EF. cbn [f_blocks f_name] in *. destruct bs as [|b bs]; [done|]. clear EF. set (c := fake_call _ _ _). clearbody c.
  unfold without_insts, in_entry, with_blocks. cbn [f_name f_blocks f_args f_ret f_vararg f_cc f_sret f_available_externally f_intrinsic map]. f_equal. cbn [map] in Hn. apply NoDup_cons in Hn as [Hb Hn]. f_equal.
  - cbn [with_insts bb_name bb_phis bb_insts]. rewrite insert_after_allocas_split. pose proof (leading_length (bb_insts b)).
    pose proof (keep_insts_one n (bb_name b) c (take (leading_allocas (bb_insts b)) (bb_insts b)) (drop (leading_allocas (bb_insts b)) (bb_insts b)) (length (bb_phis b))) as E.
    rewrite length_take, Nat.min_l in E by done. rewrite E, take_drop. by destruct b.
  - clear HF Hne. induction bs as [|d bs IH]; [done|]. cbn [map] in *. apply not_elem_of_cons in Hb as [Hd Hb]. apply NoDup_cons in Hn as [_ Hn]. rewrite (IH Hb Hn). f_equal.
    rewrite keep_all; [by destruct d|]. intros j [= E _]%list_elem_of_singleton. by apply Hd.
Qed.
Lemma fakes_tail s S : fakes_ok (s :: S) -> fakes_ok S /\ fk_key s ∉ map fk_key S /\ fk_name s ∉ map fk_name S.
Proof.
  intros [H1 H2 H3 H4]. cbn [map] in H1, H2. apply NoDup_cons in H1 as [H1 H1'], H2 as [H2 H2']. split; [|done]. split; [done|done|..]; intros s' Hs'; [apply H3|apply H4]; by right.
Qed.
Lemma remove_one s S : fakes_ok (s :: S) -> removeFakeFunction order (fk_name s) (stage (s :: S)) = Done (stage S).
Proof.
  intros HS. destruct (fo_in _ HS s ltac:(by left)) as (HF & Hne & Hnew). destruct (fakes_tail s S HS) as (HS' & Hkey & Hname). unfold removeFakeFunction. rewrite find_fake by done.
  change (FunctionValue (fk_name s) (TyPtr (f_type (fk_decl s)))) with (fk_callee s). rewrite (dependents_of_fake (s :: S) s HS) by (by left). cbn [obind assert_].
  assert (Eo : order [fk_place s] = [fk_place s]) by (apply Permutation_singleton_r; apply Horder). rewrite Eo. cbn [erase_calls].
  assert (Hslot : slot_at (stage (s :: S)) (fk_place s) = Some (SInst (fk_call s))) by (unfold slot_at; rewrite (find_place _ _ _ HS (place_there _ s HS ltac:(by left))); done).
  rewrite Hslot. cbn [is_call_slot fk_call fake_call inst]. rewrite (users_place _ s HS) by (by left). cbn [forallb assert_ obind].
  assert (Hplace : exists b k, fk_place s = InstNode (fk_key s) b k) by (unfold fk_place; destruct (f_blocks (fk_function s)); [done|by do 2 eexists]). destruct Hplace as (b0 & k0 & Hplace).
  assert (Em : with_functions (stage (s :: S)) (map (without_insts [fk_place s]) (m_functions (stage (s :: S)))) = with_functions m (map (staged S) (m_functions m) ++ fk_decl s :: map fk_decl S)).
  { unfold stage, with_functions. cbn [m_structs m_globals m_functions m_logicalsignature m_virusnames m_funcmin m_funcmax map]. f_equal. rewrite map_app. cbn [map]. f_equal; [|f_equal].
    - rewrite map_map. apply map_ext_in. intros F HF'. apply list_elem_of_In in HF'. destruct (decide (f_name F = fk_key s)) as [E|E].
      + rewrite staged_here by done. assert (F = fk_function s) as -> by (by apply same_function). rewrite (without_call s S HS). symmetry. by apply staged_none.
      + rewrite staged_other by done. apply (without_one s _ b0 k0); [done|]. by rewrite staged_name.
    - rewrite map_map. by apply map_ext. }
  rewrite Em. clear Em. set (X := with_functions m (map (staged S) (m_functions m) ++ fk_decl s :: map fk_decl S)).
  assert (Eu : users X (ConstantNode (fk_callee s)) = users (stage S) (ConstantNode (fk_callee s))).
  { cbn [users]. unfold X, places, constants, stage. cbn [m_functions m_globals with_functions]. rewrite !flat_map_app. cbn [flat_map]. done. }
  rewrite Eu. destruct (users (stage S) (ConstantNode (fk_callee s))) as [|u us] eqn:Eus.
  2: { exfalso. destruct (users_only S s u HS' Hnew) as (s' & Hs' & E & _); [rewrite Eus; by left|]. apply Hname. rewrite <- E. by apply list_elem_of_fmap_2. }
  cbn [assert_ obind]. unfold X, stage, with_functions. cbn [m_structs m_globals m_functions m_logicalsignature m_virusnames m_funcmin m_funcmax]. do 2 f_equal.
  assert (Hkeep : forall l, fk_name s ∉ map f_name l -> List.filter (fun F => negb (String.eqb (f_name F) (fk_name s))) l = l).
  { intros l. induction l as [|F l IH]; intros Hl; [done|]. cbn [map List.filter] in *. apply not_elem_of_cons in Hl as [H1 H2].
    destruct (String.eqb_spec (f_name F) (fk_name s)); [congruence|]. cbn [negb]. by rewrite IH. }
  rewrite List.filter_app. cbn [List.filter fk_decl fakeFunction f_name]. rewrite String.eqb_refl. cbn [negb]. rewrite !Hkeep; [done|..].
  - rewrite map_map. exact Hname.
  - rewrite map_map. erewrite map_ext; [exact Hnew|]. apply staged_name.
Qed.
Lemma remove_all S : fakes_ok S -> removeFakeFunctions order (map fk_name S) (stage S) = Done m.
Proof.
  induction S as [|s S IH]; intros HS; cbn [map removeFakeFunctions].
  - unfold stage. cbn [map]. rewrite app_nil_r. assert (map (staged []) (m_functions m) = m_functions m) as -> by (apply map_id). by destruct m.
  - rewrite (remove_one s S HS). cbn [obind]. apply IH. by destruct (fakes_tail s S HS).
Qed.

(** *** The first run *)

Context (function_name : Module_ -> string -> string) (value_name : Function_ -> string -> string).
Context (Hfunction : forall m w, find_function m (function_name m w) = None) (Hvalue : forall F w, F ∈ m_functions m -> value_name F w ∉ all_names F).
Abbreviation add := (processFunction_abi function_name value_name).
Lemma find_none_name M f : find_function M f = None -> f ∉ map f_name (m_functions M).
Proof.
  unfold find_function. intros H (F & -> & HF)%list_elem_of_fmap. apply list_elem_of_In in HF. eapply List.find_none in H; [|exact HF]. by rewrite String.eqb_refl in H.
Qed.
Lemma find_staged S F : F ∈ m_functions m -> find_function (stage S) (f_name F) = Some (staged S F).
Proof.
  intros HF. unfold find_function, stage. cbn [m_functions with_functions]. apply find_app. pose proof (nm_functions Hm) as Hn. revert HF Hn. generalize (m_functions m). clear.
  intros l. induction l as [|G l IH]; intros HF Hn; [by apply not_elem_of_nil in HF|]. cbn [map List.find] in *. apply NoDup_cons in Hn as [HG Hn]. rewrite staged_name.
  apply elem_of_cons in HF as [->|HF]; [by rewrite String.eqb_refl|]. destruct (String.eqb_spec (f_name G) (f_name F)) as [E|_]; [|by apply IH].
  exfalso. apply HG. rewrite E. by apply list_elem_of_fmap_2.
Qed.
Lemma staged_more S s F : f_name F <> fk_key s -> staged (S ++ [s]) F = staged S F.
Proof.
  intros Hne. unfold staged. induction S as [|s' S IH]; cbn [app List.find]; [|by destruct (String.eqb _ _)]. destruct (String.eqb_spec (fk_key s) (f_name F)); [congruence|done].
Qed.
Lemma staged_last S s F : f_name F = fk_key s -> fk_key s ∉ map fk_key S -> staged (S ++ [s]) F = in_entry (insert_after_allocas (fk_call s)) F.
Proof.
  intros E. unfold staged. induction S as [|s' S IH]; cbn [app List.find map]; [by rewrite E, String.eqb_refl|]. intros [H1 H2]%not_elem_of_cons.
  destruct (String.eqb_spec (fk_key s') (f_name F)); [congruence|by apply IH].
Qed.
(** The names of the functions with a body. *)
Definition defined (l : list Function_) : gset string := list_to_set (map f_name (List.filter (fun F => negb (isDeclaration F)) l)).
Definition faked (F : Function_) : bool := negb (isDeclaration F) && match f_args F with [] => false | _ => true end.
Lemma add_one S F : fakes_ok S -> F ∈ m_functions m -> isDeclaration F = false -> f_name F ∉ map fk_key S ->
  exists S', add (f_name F) (stage S, map fk_name S) = (stage (S ++ S'), map fk_name (S ++ S')) /\ fakes_ok (S ++ S') /\
    map fk_function S' = if faked F then [F] else [].
Proof.
  intros HS HF Hd Hkey. unfold processFunction_abi, faked. rewrite find_staged, staged_none, Hd by done. destruct (f_args F) as [|a args] eqn:Ea.
  { exists []. by rewrite app_nil_r. }
  set (n := function_name (stage S) (f_name F ++ "_fake")). set (x := match f_ret F with TyVoid => "" | _ => value_name F "a" end).
  pose (s := {| fk_function := F; fk_name := n; fk_value := x |}). exists [s].
  assert (Hn : n ∉ map f_name (m_functions m) /\ n ∉ map fk_name S).
  { pose proof (find_none_name _ _ (Hfunction (stage S) (f_name F ++ "_fake"))) as Hn. rewrite stage_names in Hn. by apply not_elem_of_app in Hn. }
  split; [|split; [|done]].
  - f_equal; [|by rewrite map_app]. unfold stage, change_function, with_functions. cbn [m_structs m_globals m_functions m_logicalsignature m_virusnames m_funcmin m_funcmax]. f_equal.
    rewrite !map_app, map_map, <- app_assoc. f_equal; [|f_equal].
    + apply map_ext_in. intros G HG. apply list_elem_of_In in HG. rewrite staged_name. destruct (String.eqb_spec (f_name G) (f_name F)) as [E|E].
      * rewrite (staged_last S s G) by done. rewrite (staged_none S G) by (by rewrite E). by rewrite (same_function G F HG HF E).
      * by rewrite (staged_more S s G).
    + rewrite map_map. apply map_ext_in. intros s' Hs'. apply list_elem_of_In in Hs'. cbn [fk_decl fakeFunction f_name]. destruct (String.eqb_spec (fk_name s') (f_name F)) as [E|_]; [|done].
      exfalso. destruct (fo_in S HS s' Hs') as (_ & _ & Hno). apply Hno. rewrite E. by apply list_elem_of_fmap_2.
  - destruct HS as [H1 H2 H3 H4]. split.
    + rewrite map_app. apply NoDup_app. split; [done|]. split; [|apply NoDup_singleton]. intros k Hk ->%list_elem_of_singleton. by apply Hkey.
    + rewrite map_app. apply NoDup_app. split; [done|]. split; [|apply NoDup_singleton]. intros k Hk ->%list_elem_of_singleton. by apply Hn.
    + intros s' [Hs'|Hs']%elem_of_app; [by apply H3|]. apply list_elem_of_singleton in Hs' as ->. cbn [s fk_function fk_name]. split; [done|]. split; [|apply Hn].
      unfold isDeclaration in Hd. by destruct (f_blocks F).
    + intros s' [Hs'|Hs']%elem_of_app; [by apply H4|]. apply list_elem_of_singleton in Hs' as ->. cbn [s fk_function fk_value]. intros Hr. unfold x.
      destruct (f_ret F); try done; by apply Hvalue.
Qed.
Lemma add_all L : forall S, fakes_ok S -> (forall F, F ∈ L -> F ∈ m_functions m /\ f_name F ∉ map fk_key S) -> NoDup (map f_name L) ->
  exists S', fold_left (fun s F => if isDeclaration F then s else add (f_name F) s) L (stage S, map fk_name S) = (stage (S ++ S'), map fk_name (S ++ S')) /\
    fakes_ok (S ++ S') /\ map fk_function S' = List.filter faked L.
Proof.
  induction L as [|F L IH]; intros S HS HL Hn; cbn [fold_left List.filter].
  { exists []. by rewrite app_nil_r. }
  cbn [map] in Hn. apply NoDup_cons in Hn as [HFn Hn]. destruct (HL F ltac:(by left)) as [HF Hk].
  assert (Hstep : exists S1, (if isDeclaration F then (stage S, map fk_name S) else add (f_name F) (stage S, map fk_name S)) = (stage (S ++ S1), map fk_name (S ++ S1)) /\
    fakes_ok (S ++ S1) /\ map fk_function S1 = if faked F then [F] else []).
  { destruct (isDeclaration F) eqn:Ed; [exists []; rewrite app_nil_r; unfold faked; by rewrite Ed|by apply add_one]. }
  destruct Hstep as (S1 & -> & HS1 & E1). destruct (IH (S ++ S1) HS1) as (S2 & E & HS2 & E2); [|done|].
  - intros G HG. destruct (HL G ltac:(by right)) as [HG1 HG2]. split; [done|]. rewrite map_app. apply not_elem_of_app. split; [done|].
    unfold fk_key. rewrite <- map_map. rewrite E1. destruct (faked F); [|by apply not_elem_of_nil]. intros Hin%list_elem_of_singleton. apply HFn. rewrite <- Hin. by apply list_elem_of_fmap_2.
  - exists (S1 ++ S2). rewrite !app_assoc. split; [exact E|]. split; [done|]. rewrite map_app, E1, E2. by destruct (faked F).
Qed.
Lemma add_fakes_all L : forall s internal,
  fold_left (add_fakes function_name value_name) L (s, internal) =
  (fold_left (fun s F => if isDeclaration F then s else add (f_name F) s) L s, internal ∖ defined L).
Proof.
  induction L as [|F L IH]; intros s internal; cbn [fold_left defined List.filter map list_to_set]; [by rewrite difference_empty_L|].
  unfold add_fakes at 2. unfold defined in *. cbn [List.filter]. destruct (isDeclaration F); cbn [negb map list_to_set]; rewrite IH; [done|].
  by rewrite set_external_more.
Qed.
Lemma first_run internal : exists S,
  PreserveABIs function_name value_name order {| an_module := m; an_fakes := None; an_internal := internal |} =
    Done {| an_module := stage S; an_fakes := Some (map fk_name S); an_internal := internal ∖ defined (m_functions m) |} /\
  fakes_ok S /\ map fk_function S = List.filter faked (m_functions m).
Proof.
  destruct (add_all (m_functions m) []) as (S & E & HS & Ef); [split; [apply NoDup_nil_2|apply NoDup_nil_2|by intros s Hs%not_elem_of_nil..]| |apply (nm_functions Hm)|].
  { intros F HF. split; [done|]. by apply not_elem_of_nil. }
  exists S. split; [|done]. unfold PreserveABIs. cbn [an_fakes an_module an_internal]. rewrite add_fakes_all. assert (E0 : stage [] = m).
  { unfold stage. cbn [map]. rewrite app_nil_r. assert (map (staged []) (m_functions m) = m_functions m) as -> by (apply map_id). by destruct m. }
  cbn [map app] in E. rewrite E0 in E. by rewrite E.
Qed.

Lemma find_fake_in S s : fakes_ok S -> s ∈ S -> find_function (stage S) (fk_name s) = Some (fk_decl s).
Proof.
  intros HS Hs. pose proof (stage_names_nodup S HS) as Hn. assert (Hin : fk_decl s ∈ m_functions (stage S)).
  { unfold stage. cbn [m_functions with_functions]. apply elem_of_app. right. by apply list_elem_of_fmap_2. }
  unfold find_function. destruct (List.find _ _) as [G|] eqn:E.
  - apply List.find_some in E as [HG E]. apply list_elem_of_In in HG. apply String.eqb_eq in E. f_equal. by eapply (NoDup_map_eq f_name).
  - apply list_elem_of_In in Hin. eapply List.find_none in E; [|exact Hin]. cbn [fk_decl fakeFunction f_name] in E. by rewrite String.eqb_refl in E.
Qed.
(** A function whose arguments a call uses: the call stands behind the first
    allocations and passes all of them to a function without a body. *)
Definition kept_alive (m1 : Module_) (g : string) (F : Function_) : Prop :=
  exists F1 D x b bs l1 l2, find_function m1 (f_name F) = Some F1 /\ f_blocks F1 = b :: bs /\ find_function m1 g = Some D /\ isDeclaration D = true /\ f_type D = f_type F /\
    bb_insts b = l1 ++ inst x (f_ret F) (Call (FunctionValue g (TyPtr (f_type F))) 0 (map (fun a => Local (fst a) (snd a)) (f_args F))) :: l2 /\
    Forall (fun i => match i_kind i with Alloca _ _ => True | _ => False end) l1 /\ f_blocks F = with_insts b (l1 ++ l2) :: bs.
Lemma taken_allocas l : Forall (fun i => match i_kind i with Alloca _ _ => True | _ => False end) (take (leading_allocas l) l).
Proof. induction l as [|i l IH]; [constructor|]. cbn [leading_allocas]. destruct (i_kind i) eqn:Ek; try constructor; [by rewrite Ek|done]. Qed.
Lemma stage_keeps S s : fakes_ok S -> s ∈ S -> kept_alive (stage S) (fk_name s) (fk_function s).
Proof.
  intros HS Hs. destruct (fo_in S HS s Hs) as (HF & Hne & _). destruct (f_blocks (fk_function s)) as [|b bs] eqn:Eb; [done|].
  exists (staged S (fk_function s)), (fk_decl s), (fk_value s), (with_insts b (insert_after_allocas (fk_call s) (bb_insts b))), bs,
    (take (leading_allocas (bb_insts b)) (bb_insts b)), (drop (leading_allocas (bb_insts b)) (bb_insts b)).
  split; [by apply find_staged|]. split; [rewrite (staged_at S s) by done; unfold in_entry; cbn [f_blocks with_blocks]; by rewrite Eb|].
  split; [by apply find_fake_in|]. split; [done|]. split; [unfold fk_decl, fakeFunction, f_type; cbn [f_ret f_args f_vararg]; by rewrite map_map|].
  split; [cbn [with_insts bb_insts]; apply insert_after_allocas_split|]. split; [apply taken_allocas|]. rewrite take_drop. by destruct b.
Qed.
End twice.

(** C29: ClamBCPreserveABIs, run twice on a module whose names are distinct and
    defined, leaves it as it was and makes its internal functions external: the first run puts into each function with a body
    and arguments a call that passes all of them to a new function without a body,
    behind the first allocations, and changes the linkage of every internal function,
    which all have a body; the second run, which is given the names the first one
    left, finds exactly these calls whatever the order in which it visits the uses,
    none of its assertions fails, and the functions and the metadata are what they
    were. The linkage it does not restore. *)
Theorem PreserveABIs_twice m internal (function_name : Module_ -> string -> string) (value_name : Function_ -> string -> string) (order : list node -> list node) :
  named m -> internal ⊆ defined (m_functions m) -> (forall l, order l ≡ₚ l) -> (forall M w, find_function M (function_name M w) = None) ->
  (forall F w, F ∈ m_functions m -> value_name F w ∉ all_names F) ->
  exists m1 fakes,
    PreserveABIs function_name value_name order {| an_module := m; an_fakes := None; an_internal := internal |} =
      Done {| an_module := m1; an_fakes := Some fakes; an_internal := ∅ |} /\
    Forall2 (kept_alive m1) fakes (List.filter faked (m_functions m)) /\ Forall (fun g => g ∉ map f_name (m_functions m)) fakes /\
    PreserveABIs function_name value_name order {| an_module := m1; an_fakes := Some fakes; an_internal := ∅ |} =
      Done {| an_module := m; an_fakes := None; an_internal := ∅ |}.
Proof.
  intros Hm Hinternal Horder Hfunction Hvalue. destruct (first_run m Hm order function_name value_name Hfunction Hvalue internal) as (S & E & HS & Ef).
  assert (Hall : internal ∖ defined (m_functions m) = ∅) by set_solver. rewrite Hall in E.
  exists (stage m S), (map fk_name S). split; [exact E|]. rewrite <- Ef. split; [|split].
  - apply Forall2_fmap, Forall_Forall2_diag, Forall_forall. intros s Hs. by apply stage_keeps.
  - apply List.Forall_map, Forall_forall. intros s Hs. by destruct (fo_in m S HS s Hs) as (_ & _ & ?).
  - unfold PreserveABIs. cbn [an_fakes an_module an_internal]. by rewrite (remove_all m Hm order Horder S HS).
Qed.

(** When the function of a listed name is gone, the second run follows a null
    pointer. *)
Lemma fake_function_gone function_name value_name order m g fakes internal : find_function m g = None ->
  PreserveABIs function_name value_name order {| an_module := m; an_fakes := Some (g :: fakes); an_internal := internal |} =
    Undefined "getDependentValues of a null pointer".
Proof. intros H. unfold PreserveABIs. cbn [an_fakes an_module removeFakeFunctions]. unfold removeFakeFunction. by rewrite H. Qed.

(** ** An example: functions that call each other *)

Definition named_check (m : Module_) : bool :=
  bool_decide (NoDup (map f_name (m_functions m))) && forallb (fun F => bool_decide (NoDup (map bb_name (f_blocks F)))) (m_functions m) &&
  forallb (fun c => match c with FunctionValue f _ => bool_decide (f ∈ map f_name (m_functions m)) | _ => true end) (constants m) &&
  forallb (fun F => forallb (fun o => match o with Local x _ => bool_decide (x ∈ all_names F) | _ => true end) (all_operands F)) (m_functions m).
Lemma named_check_sound m : named_check m = true -> named m.
Proof.
  unfold named_check. intros (((H1%bool_decide_eq_true & H2)%andb_prop & H3)%andb_prop & H4)%andb_prop. rewrite forallb_forall in H2, H3, H4. split.
  - exact H1.
  - intros F HF%list_elem_of_In. eapply bool_decide_eq_true_1, H2, HF.
  - intros f t Hf%list_elem_of_In. eapply bool_decide_eq_true_1, (H3 _ Hf).
  - intros F x t HF%list_elem_of_In Hx%list_elem_of_In. specialize (H4 F HF). rewrite forallb_forall in H4. eapply bool_decide_eq_true_1, (H4 _ Hx).
Qed.
(** Names longer than those in use. *)
Definition longest (l : list string) : string := String.String "#" (foldr String.append "" l).
Lemma longest_new l : longest l ∉ l.
Proof.
  unfold longest. assert (Happ : forall a b, String.length (a ++ b)%string = (String.length a + String.length b)%nat) by (induction a as [|c a IH]; intros b; [done|exact (f_equal S (IH b))]).
  intros H. assert (Hle : forall l x, x ∈ l -> (String.length x <= String.length (foldr String.append "" l))%nat).
  { induction l0 as [|y l0 IH]; intros x Hx; [by apply not_elem_of_nil in Hx|]. cbn [foldr]. rewrite Happ. apply elem_of_cons in Hx as [->|Hx]; [lia|]. specialize (IH x Hx). lia. }
  apply Hle in H. cbn [String.length] in H. lia.
Qed.
Definition demo_function_name (m : Module_) (wanted : string) : string := longest (wanted :: map f_name (m_functions m)).
Definition demo_value_name (F : Function_) (wanted : string) : string := longest (wanted :: all_names F).
Lemma demo_function_new m w : find_function m (demo_function_name m w) = None.
Proof.
  destruct (find_function m (demo_function_name m w)) as [F|] eqn:E; [|done]. exfalso. unfold find_function in E. apply List.find_some in E as [HF E]. apply String.eqb_eq in E.
  apply (longest_new (w :: map f_name (m_functions m))). right. unfold demo_function_name in E. rewrite <- E. apply list_elem_of_fmap_2. by apply list_elem_of_In.
Qed.
#[local] Abbreviation i32 := (TyInt 32).
Definition demo_abi : Module_ := {|
  m_structs := ∅; m_globals := [{| g_name := "table"; g_value_type := TyPtr (TyFun i32 [i32; i32] false); g_constant := true;
    g_init := Some (FunctionValue "scan" (TyPtr (TyFun i32 [i32; i32] false))); g_thread_local := false; g_section := false |}];
  m_functions := [
    {| f_name := "scan"; f_args := [("n", i32); ("unused", i32)]; f_ret := i32; f_vararg := false; f_cc := 0; f_sret := false; f_available_externally := false; f_intrinsic := None;
       f_blocks := [
         {| bb_name := "entry"; bb_phis := [];
            bb_insts := [inst "slot" (TyPtr i32) (Alloca i32 (ConstantInt 32 1)); inst "c" (TyInt 1) (ICmp ICMP_EQ (Local "n" i32) (ConstantInt 32 0))];
            bb_term := Br (Local "c" (TyInt 1)) "done" "again" |};
         {| bb_name := "again"; bb_phis := [];
            bb_insts := [inst "m" i32 (Binary Sub (Local "n" i32) (ConstantInt 32 1));
              inst "r" i32 (Call (FunctionValue "scan" (TyPtr (TyFun i32 [i32; i32] false))) 0 [Local "m" i32; ConstantInt 32 7])];
            bb_term := Ret (Local "r" i32) |};
         {| bb_name := "done"; bb_phis := []; bb_insts := []; bb_term := Ret (ConstantInt 32 0) |} ] |};
    {| f_name := "scan_fake"; f_args := [("x", i32)]; f_ret := TyVoid; f_vararg := false; f_cc := 0; f_sret := false; f_available_externally := false; f_intrinsic := None;
       f_blocks := [{| bb_name := "entry"; bb_phis := []; bb_insts := []; bb_term := RetVoid |}] |};
    {| f_name := "entrypoint"; f_args := []; f_ret := i32; f_vararg := false; f_cc := 0; f_sret := false; f_available_externally := false; f_intrinsic := None;
       f_blocks := [{| bb_name := "entry"; bb_phis := []; bb_insts := [inst "r" i32 (Call (FunctionValue "scan" (TyPtr (TyFun i32 [i32; i32] false))) 0 [ConstantInt 32 3; ConstantInt 32 4])];
         bb_term := Ret (Local "r" i32) |}] |} ];
  m_logicalsignature := None; m_virusnames := None; m_funcmin := None; m_funcmax := None |}.
(** scan is internal, as the functions of a program linked from several files are. *)
Definition demo_annotated (m : Module_) (fakes : option (list string)) (internal : gset string) : annotated :=
  {| an_module := m; an_fakes := fakes; an_internal := internal |}.
Lemma PreserveABIs_twice_witness : named demo_abi /\ exists m1 fakes,
  PreserveABIs demo_function_name demo_value_name (@rev node) (demo_annotated demo_abi None {[ "scan" ]}) = Done (demo_annotated m1 (Some fakes) ∅) /\
  length fakes = 2%nat /\ m1 <> demo_abi /\
  PreserveABIs demo_function_name demo_value_name (@rev node) (demo_annotated m1 (Some fakes) ∅) = Done (demo_annotated demo_abi None ∅).
Proof.
  assert (Hm : named demo_abi) by (apply named_check_sound; vm_compute; reflexivity). split; [exact Hm|].
  destruct (PreserveABIs_twice demo_abi {[ "scan" ]} demo_function_name demo_value_name (@rev node)) as (m1 & fakes & E1 & H & _ & E2).
  - exact Hm.
  - apply singleton_subseteq_l. vm_compute. reflexivity.
  - intros l. symmetry; apply Permutation_rev.
  - exact demo_function_new.
  - intros F w _ Hin. apply (longest_new (w :: all_names F)). right. exact Hin.
  - exists m1, fakes. split; [exact E1|]. split; [apply Forall2_length in H; exact H|]. split; [|exact E2].
    intros ->. vm_compute in E1. discriminate E1.
Defined.
