(* ===== verification/Rebuild.v ===== *)
(** * Rebuild: functions over byte pointers

    ClamBCRebuild.cpp copies every function into one whose memory is arrays of
    bytes: allocations become arrays of i8, pointers that are computed become
    pointers to i8, and casts give them the type an access needs. [rebuilding] is
    the state of the pass: the maps VMap and CastMap, the blocks of the new
    function, the blocks visited. Where C++ leaves the order in which arguments
    are evaluated open, it is from left to right here. *)
From S2P Require Import Prelude IR Semantics Integers Dominance SmallPasses Dependents PreserveABIs.
Local Open Scope string_scope.
Local Open Scope list_scope.
Local Open Scope Z_scope.
Local Open Scope outcome_scope.

(** ** The state *)

(** A block of the new function; it gets its terminator last. *)
Record building := { nb_phis : list Phi; nb_insts : list Inst; nb_term : option Term }.
(** [newBlocks]: the blocks of the new function in its order, BBMap by their names. *)
Record rebuilding := {
  VMap : gmap string Value;
  CastMap : list (Value * ty * Value);
  newBlocks : list (string * building);
  visitedBB : list string
}.
Definition building_names (b : building) : list string := map phi_name (nb_phis b) ++ results (nb_insts b).
Definition map_new (l : string) (f : building -> building) (st : rebuilding) : rebuilding := {|
  VMap := VMap st; CastMap := CastMap st;
  newBlocks := map (fun p : string * building => if String.eqb (fst p) l then (fst p, f (snd p)) else p) (newBlocks st); visitedBB := visitedBB st |}.
Definition with_VMap (x : string) (v : Value) (st : rebuilding) : rebuilding := {|
  VMap := <[x := v]> (VMap st); CastMap := CastMap st; newBlocks := newBlocks st; visitedBB := visitedBB st |}.
Definition with_cast (v : Value) (t : ty) (r : Value) (st : rebuilding) : rebuilding := {|
  VMap := VMap st; CastMap := (v, t, r) :: CastMap st; newBlocks := newBlocks st; visitedBB := visitedBB st |}.
Definition with_visited (l : string) (st : rebuilding) : rebuilding := {|
  VMap := VMap st; CastMap := CastMap st; newBlocks := newBlocks st; visitedBB := l :: visitedBB st |}.
Definition add_phi (p : Phi) (b : building) : building := {| nb_phis := nb_phis b ++ [p]; nb_insts := nb_insts b; nb_term := nb_term b |}.
Definition add_inst (i : Inst) (b : building) : building := {| nb_phis := nb_phis b; nb_insts := nb_insts b ++ [i]; nb_term := nb_term b |}.
Definition set_insts (l : list Inst) (b : building) : building := {| nb_phis := nb_phis b; nb_insts := l; nb_term := nb_term b |}.
Definition set_phis (l : list Phi) (b : building) : building := {| nb_phis := l; nb_insts := nb_insts b; nb_term := nb_term b |}.
Definition set_term (t : Term) (b : building) : building := {| nb_phis := nb_phis b; nb_insts := nb_insts b; nb_term := Some t |}.
(** The new instruction that computes a value, and its block. *)
Definition new_inst (x : string) (st : rebuilding) : option Inst :=
  List.find (fun i => has_result i && String.eqb (i_name i) x) (flat_map (fun p : string * building => nb_insts (snd p)) (newBlocks st)).
Definition home (x : string) (st : rebuilding) : option (string * building) :=
  List.find (fun p : string * building => bool_decide (x ∈ building_names (snd p))) (newBlocks st).
Definition is_constant_value (v : Value) : bool := match v with Local _ _ => false | _ => true end.
Definition is_integer_ty (t : ty) : bool := match t with TyInt _ => true | _ => false end.
Definition zero_index (v : Value) : bool := match v with ConstantInt _ n => n =? 0 | _ => false end.

Definition i8Ty : ty := TyInt 8.
Definition i8pTy : ty := TyPtr i8Ty.

Section rebuild.
(** DataLayout::getTypeAllocSize; the names LLVM gives new values, those of its
    function in use and the one asked for being given; what the TargetFolder makes
    of an instruction on constants; Value::stripPointerCasts on constants; the
    calling conventions of the functions of the module. *)
Context (type_alloc_size : ty -> Z) (value_name : list string -> string -> string) (folded : Inst -> option Value) (strip_constant : Value -> Value).
Context (cc_of : string -> Z) (F : Function_).

(** unsigned bytes *)
Definition rebuildType (i8only : bool) (Ty : ty) : ty :=
  if negb i8only && is_integer_ty Ty then Ty
  else if is_pointer Ty then i8pTy
  else if bool_decide (Ty = TyVoid) || bool_decide (Ty = i8Ty) then Ty
  else TyArr (wrap 32 (type_alloc_size Ty)) i8Ty.
Definition names_in_use (st : rebuilding) : list string := map fst (f_args F) ++ flat_map (fun p : string * building => building_names (snd p)) (newBlocks st).

(** ** IRBuilder *)

(** The builder adds to the end of block [here]. *)
Definition insert_inst (here x : string) (t : ty) (k : inst_kind) (st : rebuilding) : Value * rebuilding :=
  (Local x t, map_new here (add_inst (inst x t k)) st).
Definition create (here wanted : string) (t : ty) (k : inst_kind) (st : rebuilding) : Value * rebuilding :=
  insert_inst here (value_name (names_in_use st) wanted) t k st.
Definition create_folded (here wanted : string) (t : ty) (k : inst_kind) (st : rebuilding) : Value * rebuilding :=
  match (if forallb is_constant_value (operands k) then folded (inst "" t k) else None) with
  | Some v => (v, st)
  | None => create here wanted t k st
  end.
Definition build_cast (here : string) (op : castop) (v : Value) (t : ty) (wanted : string) (st : rebuilding) : Value * rebuilding :=
  if bool_decide (type_of v = t) then (v, st) else create_folded here wanted t (Cast op v) st.
Definition pointer_cast_op (t : ty) : castop := if is_integer_ty t then PtrToInt else BitCast.
Definition build_pointer_cast (here : string) (v : Value) (t : ty) (wanted : string) (st : rebuilding) : outcome (Value * rebuilding) :=
  if bool_decide (type_of v = t) then Done (v, st)
  else let* _ := assert_ (is_pointer (type_of v)) "Invalid cast" in Done (create_folded here wanted t (Cast (pointer_cast_op t) v) st).

(** ** Casts of pointers *)

(** Enough to follow every chain of new instructions. *)
Definition enough (st : rebuilding) : nat := S (length (names_in_use st)).
Fixpoint findDuplicateType (fuel : nat) (st : rebuilding) (v : Value) (t : ty) : option Value :=
  match fuel, v with
  | S fuel, Local x _ =>
      match new_inst x st with
      | Some {| i_kind := Cast BitCast u |} => if bool_decide (type_of u = t) then Some u else findDuplicateType fuel st u t
      | _ => None
      end
  | _, _ => None
  end.
(** Value::stripPointerCasts, with typed pointers; attributes of arguments are not
    part of the IR model. *)
Fixpoint strip_pointer_casts (fuel : nat) (st : rebuilding) (v : Value) : Value :=
  match fuel, v with
  | S fuel, Local x t =>
      if is_pointer t then
        match new_inst x st with
        | Some {| i_kind := Cast BitCast u |} => strip_pointer_casts fuel st u
        | Some {| i_kind := GetElementPtr _ u l |} => if forallb zero_index l then strip_pointer_casts fuel st u else v
        | _ => v
        end
      else v
  | O, Local _ _ => v
  | _, _ => if is_pointer (type_of v) then strip_constant v else v
  end.
Definition is_new_alloca (v : Value) (st : rebuilding) : bool :=
  match v with Local x _ => match new_inst x st with Some {| i_kind := Alloca _ _ |} => true | _ => false end | _ => false end.

(** Behind the definition of [x] and the allocations that follow it. The iterator
    that skips allocations may not reach the end of the block; a cast between phi
    nodes is refused by LLVM's verifier. *)
Fixpoint skip_allocas (c : Inst) (l : list Inst) : option (list Inst) :=
  match l with
  | i :: l' => match i_kind i with Alloca _ _ => cons i <$> skip_allocas c l' | _ => Some (c :: l) end
  | [] => None
  end.
Fixpoint insert_behind (x : string) (c : Inst) (l : list Inst) : option (list Inst) :=
  match l with
  | i :: l' => cons i <$> (if has_result i && String.eqb (i_name i) x then skip_allocas c l' else insert_behind x c l')
  | [] => None
  end.
Definition or_at_end (b : building) (l : list Inst) (c : Inst) (r : option (list Inst)) : outcome (list Inst) :=
  match r, nb_term b with
  | Some l', _ => Done l'
  | None, Some _ => Done (l ++ [c])
  | None, None => Undefined "the end of the block"
  end.
Definition place_behind (x : string) (c : Inst) (b : building) : outcome building :=
  if bool_decide (x ∈ map phi_name (nb_phis b)) then
    let* _ := assert_ (bool_decide (last (map phi_name (nb_phis b)) = Some x)) "PHI nodes not grouped at top of basic block!" in
    let* l := or_at_end b (nb_insts b) c (skip_allocas c (nb_insts b)) in Done (set_insts l b)
  else let* l := or_at_end b (nb_insts b) c (insert_behind x c (nb_insts b)) in Done (set_insts l b).
Definition find_cast (v : Value) (t : ty) (st : rebuilding) : option Value :=
  snd <$> List.find (fun p : Value * ty * Value => bool_decide (fst p = (v, t))) (CastMap st).
Definition makeCast (here : string) (V : Value) (Ty : ty) (st : rebuilding) : outcome (Value * rebuilding) :=
  match findDuplicateType (enough st) st V Ty with
  | Some v => Done (v, st)
  | None =>
      if bool_decide (type_of V = Ty) then Done (V, st)
      else match match V with Local x _ => home x st | _ => None end, V with
      | Some (targetBB, b), Local x _ =>
          match find_cast V Ty st with
          | Some R => Done (R, st)
          | None =>
              let* _ := assert_ (is_pointer (type_of V)) "Invalid cast" in
              let n := value_name (names_in_use st) "ClamBCRebuild_castp" in
              let c := inst n Ty (Cast (pointer_cast_op Ty) V) in
              let* st := if String.eqb targetBB here then Done (map_new here (add_inst c) st)
                         else let* b := place_behind x c b in Done (map_new targetBB (fun _ => b) st) in
              Done (Local n Ty, with_cast V Ty (Local n Ty) st)
          end
      | _, _ => build_pointer_cast here V Ty "ClamBCRebuild_castc" st
      end
  end.

(** ** Values *)

(** The block of the function that defines a value. *)
Definition parent (x : string) : option string := bb_name <$> List.find (fun b => bool_decide (x ∈ block_defs b)) (f_blocks F).

Section visitors.
Context (runOnBasicBlock : string -> rebuilding -> outcome rebuilding).
Definition mapValue (V : Value) (st : rebuilding) : outcome (Value * rebuilding) :=
  match V with
  | Local x _ =>
      match VMap st !! x with
      | Some NV => Done (NV, st)
      | None =>
          match parent x with
          | None => AssertFailed "cast<Ty>() argument of incompatible type!"
          | Some IBB =>
              let* st := runOnBasicBlock IBB st in
              match VMap st !! x with Some NV => Done (NV, st) | None => AssertFailed "NV" end
          end
      end
  | C => Done (C, st)
  end.
Fixpoint mapValues (l : list Value) (st : rebuilding) : outcome (list Value * rebuilding) :=
  match l with
  | [] => Done ([], st)
  | V :: l => let* (v, st) := mapValue V st in let* (vs, st) := mapValues l st in Done (v :: vs, st)
  end.
Definition mapPointer (here : string) (P : Value) (Ty : ty) (st : rebuilding) : outcome (Value * rebuilding) :=
  let* (PV, st) := mapValue P st in
  if bool_decide (type_of PV = Ty) && negb (is_new_alloca PV st) then Done (PV, st)
  else
    let PV := strip_pointer_casts (enough st) st PV in
    let* (PV, st) := if is_new_alloca PV st then makeCast here PV i8pTy st else Done (PV, st) in
    makeCast here PV Ty st.

(** ** Instructions

    What is mapped to is remembered for instructions with a result. The assertions
    of LLVM's constructors are those that the new types of the operands can break. *)
Definition remember (i : Inst) (r : Value * rebuilding) : rebuilding := if has_result i then with_VMap (i_name i) (fst r) (snd r) else snd r.

(** uint32_t n *)
Definition rebuilt_alloca (t : ty) (z : Z) : ty :=
  let n := wrap 32 z in
  let '(Ty, n) := match rebuildType true t with TyArr k e => (e, wrap 32 (n * k)) | Ty => (Ty, n) end in
  if n =? 1 then Ty else TyArr n Ty.
Definition visitAllocaInst (here : string) (i : Inst) (t : ty) (size : Value) (st : rebuilding) : outcome rebuilding :=
  match size with
  | ConstantInt _ z => let Ty := rebuilt_alloca t z in Done (remember i (create here (i_name i) (TyPtr Ty) (Alloca Ty (ConstantInt 32 1)) st))
  | _ => Stop "VLA not supported"
  end.
Definition visitLoadInst_rebuild (here : string) (i : Inst) (p : Value) (st : rebuilding) : outcome rebuilding :=
  let* (p', st) := mapPointer here p (type_of p) st in Done (remember i (create here (i_name i) (i_type i) (Load p') st)).
Definition visitStoreInst_rebuild (here : string) (v p : Value) (st : rebuilding) : outcome rebuilding :=
  let* (v', st) := mapValue v st in
  let* (p', st) := mapPointer here p (type_of p) st in
  let* _ := assert_ (bool_decide (type_of p' = TyPtr (type_of v'))) "Ptr must be a pointer to Val type!" in
  Done (map_new here (add_inst (inst "" TyVoid (Store v' p'))) st).
Definition visitGetElementPtrInst_rebuild (here : string) (i : Inst) (inb : bool) (p : Value) (l : list Value) (st : rebuilding) : outcome rebuilding :=
  if forallb zero_index l then
    let* r := mapPointer here p (rebuildType false (i_type i)) st in Done (remember i r)
  else
    let* (P, st) := mapPointer here p (type_of p) st in
    let* (idxs, st) := mapValues l st in
    let '(P, st) := create_folded here (if inb then "clambcRebuildInboundsGEP" else "clambcRebuildGEP") (i_type i) (GetElementPtr inb P idxs) st in
    let* r := makeCast here P (rebuildType false (i_type i)) st in Done (remember i r).
Definition visitICmpInst_rebuild (here : string) (i : Inst) (pr : cmp_predicate) (a b : Value) (st : rebuilding) : outcome rebuilding :=
  let* (op0, st) := mapValue a st in
  let* (op1, st) := mapValue b st in
  let* (op0, op1, st) :=
    if bool_decide (type_of op0 = type_of op1) then Done (op0, op1, st)
    else if is_constant_value op0 then let* (op0, st) := makeCast here op0 (type_of op1) st in Done (op0, op1, st)
    else if is_constant_value op1 then let* (op1, st) := makeCast here op1 (type_of op0) st in Done (op0, op1, st)
    else Done (op0, op1, st) in
  let* _ := assert_ (bool_decide (type_of op0 = type_of op1)) "Both operands to ICmp instruction are not of the same type!" in
  Done (remember i (create_folded here (i_name i) (i_type i) (ICmp pr op0 op1) st)).
Definition visitCastInst_rebuild (here : string) (i : Inst) (op : castop) (v : Value) (st : rebuilding) : outcome rebuilding :=
  let* (v', st) := mapValue v st in Done (remember i (build_cast here op v' (rebuildType false (i_type i)) (i_name i) st)).
Definition visitSelectInst (here : string) (i : Inst) (c t f : Value) (st : rebuilding) : outcome rebuilding :=
  let* (c', st) := mapValue c st in
  let* (t', st) := mapValue t st in
  let* (f', st) := mapValue f st in
  let* _ := assert_ (bool_decide (type_of t' = type_of f')) "Invalid operands for select" in
  Done (remember i (create_folded here (i_name i) (type_of t') (Select c' t' f') st)).
Definition visitBinaryOperator_rebuild (here : string) (i : Inst) (op : binop) (a b : Value) (st : rebuilding) : outcome rebuilding :=
  let* (a', st) := mapValue a st in
  let* (b', st) := mapValue b st in
  Done (remember i (create_folded here (i_name i) (type_of a') (Binary op a' b') st)).
(** The loop over the parameters of the function called. *)
Fixpoint call_params (here : string) (params : list ty) (ops : list Value) (st : rebuilding) : outcome (list Value * rebuilding) :=
  match params, ops with
  | [], _ => Done ([], st)
  | _ :: _, [] => AssertFailed "getOperand() out of range!"
  | Ty :: params, o :: ops =>
      let* (V, st) := mapValue o st in
      let* (V, st) :=
        if bool_decide (type_of V = Ty) then Done (V, st)
        else if is_integer_ty Ty then Done (build_cast here BitCast V Ty "ClamBCRebuild_cast" st)
        else if is_pointer Ty then
          let* (V, st) := if bool_decide (Ty = i8pTy) then Done (V, st) else build_pointer_cast here V i8pTy "ClamBCRebuild" st in
          build_pointer_cast here V Ty "ClamBCRebuild" st
        else Stop "Type conversion unhandled in ClamAV Bytecode Backend Rebuilder" in
      let* (Vs, st) := call_params here params ops st in
      Done (V :: Vs, st)
  end.
Definition visitCallInst_rebuild (here : string) (i : Inst) (callee : Value) (args : list Value) (st : rebuilding) : outcome rebuilding :=
  match callee with
  | FunctionValue g (TyPtr (TyFun ret params vararg)) =>
      let* _ := assert_ (negb vararg) "!FTy->isVarArg()" in
      let* (params, st) := call_params here params (args ++ [callee]) st in
      let k := Call callee (cc_of g) params in
      Done (if has_result i then remember i (create here (i_name i) ret k st) else map_new here (add_inst (inst "" ret k)) st)
  | _ => Undefined "getFunctionType of a null pointer"
  end.
(** InstVisitor::visit *)
Definition visit_inst (here : string) (i : Inst) (st : rebuilding) : outcome rebuilding :=
  match i_kind i with
  | Alloca t size => visitAllocaInst here i t size st
  | Load p => visitLoadInst_rebuild here i p st
  | Store v p => visitStoreInst_rebuild here v p st
  | GetElementPtr inb p l => visitGetElementPtrInst_rebuild here i inb p l st
  | Binary op a b => visitBinaryOperator_rebuild here i op a b st
  | Cast op v => visitCastInst_rebuild here i op v st
  | ICmp pr a b => visitICmpInst_rebuild here i pr a b st
  | Select c t f => visitSelectInst here i c t f st
  | Call callee _ args => visitCallInst_rebuild here i callee args st
  | DbgInfo => AssertFailed "cast<Ty>() argument of incompatible type!"
  | Freeze _ | OtherInst _ => Stop "ClamAV bytecode backend rebuilder does not know about "
  end.
Fixpoint visit_insts (here : string) (l : list Inst) (st : rebuilding) : outcome rebuilding :=
  match l with [] => Done st | i :: l => let* st := visit_inst here i st in visit_insts here l st end.
Definition mapBlock (l : string) (st : rebuilding) : outcome string :=
  let* _ := assert_ (bool_decide (l ∈ map fst (newBlocks st))) "NBB" in Done l.
(** The cases of a switch are not part of the IR model: lowerswitch has run, so
    that none is left. *)
Definition visit_term (here : string) (t : Term) (st : rebuilding) : outcome rebuilding :=
  match t with
  | Br c l l' =>
      let* (c', st) := mapValue c st in let* l := mapBlock l st in let* l' := mapBlock l' st in Done (map_new here (set_term (Br c' l l')) st)
  | Jmp l => let* l := mapBlock l st in Done (map_new here (set_term (Jmp l)) st)
  | Ret v => let* (v', st) := mapValue v st in Done (map_new here (set_term (Ret v')) st)
  | RetVoid => Done (map_new here (set_term RetVoid) st)
  | Switch _ => Undefined "a switch after lowerswitch"
  | Unreachable => Done (map_new here (set_term Unreachable) st)
  end.
Definition visitPHINode (here : string) (st : rebuilding) (p : Phi) : rebuilding :=
  let n := value_name (names_in_use st) "ClamBCRebuild_phi_visitPHINode_" in
  with_VMap (phi_name p) (Local n (phi_type p)) (map_new here (add_phi {| phi_name := n; phi_type := phi_type p; phi_incoming := [] |}) st).
Definition visit_block (here : string) (b : Block) (st : rebuilding) : outcome rebuilding :=
  let* st := visit_insts here (bb_insts b) (fold_left (visitPHINode here) (bb_phis b) st) in visit_term here (bb_term b) st.
End visitors.

(** A block is visited when its number comes or when a value it defines is needed;
    [fuel] bounds the blocks being visited at the same time. *)
Fixpoint runOnBasicBlock (fuel : nat) (l : string) (st : rebuilding) : outcome rebuilding :=
  match fuel with
  | O => Undefined "fuel"
  | S fuel =>
      let* _ := assert_ (bool_decide (l ∈ map fst (newBlocks st))) "NBB" in
      if bool_decide (l ∈ visitedBB st) then Done st
      else match find_bb (f_blocks F) l with
      | Some b => visit_block (runOnBasicBlock fuel) l b (with_visited l st)
      | None => AssertFailed "NBB"
      end
  end.
Definition rebuild_fuel : nat := S (S (length (f_blocks F))).

(** ** The second phase *)

(** mapPHIValue: all phi nodes have been visited by now. *)
Definition map_incoming (inc : Value * string) (t : ty) (st : rebuilding) : outcome (Value * rebuilding) :=
  let* (V, st) := mapValue (runOnBasicBlock rebuild_fuel) (fst inc) st in
  let* BB := mapBlock (snd inc) st in
  if negb (bool_decide (type_of V = t)) && is_pointer (type_of V) && is_pointer t then
    Done (create BB "ClamBCRebuild_fixCast_" t (Cast BitCast V) st)
  else Done (V, st).
Definition add_incoming (n : string) (v : Value) (l : string) (b : building) : building :=
  set_phis (map (fun p => if String.eqb (phi_name p) n then
    {| phi_name := phi_name p; phi_type := phi_type p; phi_incoming := phi_incoming p ++ [(v, l)] |} else p) (nb_phis b)) b.
Fixpoint map_incomings (here n : string) (t : ty) (l : list (Value * string)) (st : rebuilding) : outcome rebuilding :=
  match l with
  | [] => Done st
  | inc :: l =>
      let* (V, st) := map_incoming inc t st in
      let* _ := assert_ (bool_decide (type_of V = t)) "All operands to PHI node must be the same type as the PHI node!" in
      map_incomings here n t l (map_new here (add_incoming n V (snd inc)) st)
  end.
Definition map_phi_operands (here : string) (N : Phi) (st : rebuilding) : outcome rebuilding :=
  match VMap st !! phi_name N with
  | Some (Local n _) =>
      let* st := map_incomings here n (phi_type N) (phi_incoming N) st in
      let* _ := assert_ (negb (bool_decide (phi_incoming N = []))) "PN->getNumIncomingValues() > 0" in
      Done st
  | _ => AssertFailed "PN"
  end.
Fixpoint map_block_phis (here : string) (l : list Phi) (st : rebuilding) : outcome rebuilding :=
  match l with [] => Done st | N :: l => let* st := map_phi_operands here N st in map_block_phis here l st end.
Fixpoint map_phis (bs : list Block) (st : rebuilding) : outcome rebuilding :=
  match bs with [] => Done st | b :: bs => let* st := map_block_phis (bb_name b) (bb_phis b) st in map_phis bs st end.

(** ** The function *)

Definition rebuilt_args : list (string * ty) := map (fun a : string * ty => (fst a, rebuildType false (snd a))) (f_args F).
(** visitFunction and the new blocks *)
Definition start_rebuild : rebuilding := {|
  VMap := list_to_map (map (fun a : string * ty => (fst a, Local (fst a) (rebuildType false (snd a)))) (f_args F));
  CastMap := [];
  newBlocks := map (fun b => (bb_name b, {| nb_phis := []; nb_insts := []; nb_term := None |})) (f_blocks F);
  visitedBB := [] |}.
Fixpoint runOnBlocks (bs : list Block) (st : rebuilding) : outcome rebuilding :=
  match bs with [] => Done st | b :: bs => let* st := runOnBasicBlock rebuild_fuel (bb_name b) st in runOnBlocks bs st end.
Definition finished (p : string * building) : outcome Block :=
  match nb_term (snd p) with
  | Some t => Done {| bb_name := fst p; bb_phis := nb_phis (snd p); bb_insts := nb_insts (snd p); bb_term := t |}
  | None => AssertFailed "Basic Block does not have terminator!"
  end.
Definition createFunction (bs : list Block) : Function_ := {|
  f_name := f_name F; f_args := rebuilt_args; f_ret := rebuildType false (f_ret F); f_vararg := false; f_cc := f_cc F; f_sret := false;
  f_available_externally := f_available_externally F; f_intrinsic := None; f_blocks := bs |}.
(** runOnFunction up to fixupCalls *)
Definition rebuildFunction : outcome Function_ :=
  let* st := runOnBlocks (f_blocks F) start_rebuild in
  let* st := map_phis (f_blocks F) st in
  let* bs := mapM_out finished (newBlocks st) in
  Done (createFunction bs).
End rebuild.
