(* ===== verification/RebuildSpec.v ===== *)
(** * RebuildSpec: how the functions ClamBCRebuild makes compute what they replace

    The new function computes the values of the old one, some of them under other
    types, with casts in between. Every new name stands for one value, its root:
    casts share the root of what they cast, other instructions are their own.
    [matches] relates the instructions of a block to the new ones; [matches_run]
    runs them side by side. *)
From S2P Require Import Prelude IR Semantics Integers Dominance SmallPasses Dependents PreserveABIs Rebuild.
Local Open Scope string_scope.
Local Open Scope list_scope.
Local Open Scope Z_scope.
Local Open Scope outcome_scope.

(** ** What instructions mean when pointers are opaque *)

(** The type a pointer points to is not part of its value. *)
Definition alike (t t' : ty) : Prop := t = t' \/ is_pointer t = true /\ is_pointer t' = true.
Definition alikes (l l' : list Value) : Prop := Forall2 (fun v v' => alike (type_of v) (type_of v')) l l'.
(** The same operation on other operands of like types; an access through a
    pointer is known by the type of the pointer. *)
Definition same_op (i i' : Inst) : Prop :=
  alike (i_type i) (i_type i') /\
  match i_kind i, i_kind i' with
  | Load p, Load p' => i_type i = i_type i' /\ type_of p = type_of p'
  | Store v p, Store v' p' => type_of p = type_of p' /\ alike (type_of v) (type_of v')
  | GetElementPtr inb p l, GetElementPtr inb' p' l' => inb = inb' /\ type_of p = type_of p' /\ alikes l l'
  | Binary op a b, Binary op' a' b' => op = op' /\ alikes [a; b] [a'; b']
  | Cast op v, Cast op' v' => op = op' /\ alikes [v] [v']
  | ICmp p a b, ICmp p' a' b' => p = p' /\ alikes [a; b] [a'; b']
  | Select c t f, Select c' t' f' => alikes [c; t; f] [c'; t'; f']
  | _, _ => False
  end.
(** The sizes of types, in bytes. *)
Class ByteSizes (type_alloc_size : ty -> Z) := {
  bs_i8 : type_alloc_size i8Ty = 1;
  bs_array n t : type_alloc_size (TyArr n t) = n * type_alloc_size t;
  bs_pointer t t' : type_alloc_size (TyPtr t) = type_alloc_size (TyPtr t')
}.
Class BytePointers {V W : Type} (M : Meaning V W) (type_alloc_size : ty -> Z) (folded : Inst -> option Value) (strip_constant : Value -> Value) := {
  bp_same i i' vs w : same_op i i' -> sem (Meaning := M) i vs w = sem (Meaning := M) i' vs w;
  bp_cast x t v z w : is_pointer t = true -> is_pointer (type_of v) = true -> sem (Meaning := M) (inst x t (Cast BitCast v)) [z] w = Some (z, w);
  bp_zero x t inb p l z w : is_pointer (type_of p) = true -> forallb zero_index l = true -> sem (Meaning := M) (inst x t (GetElementPtr inb p l)) (z :: map constant_meaning l) w = Some (z, w);
  bp_alloca x x' t t' k k' n n' w : in_u k n -> in_u k' n' -> type_alloc_size t * n = type_alloc_size t' * n' ->
    sem (Meaning := M) (inst x (TyPtr t) (Alloca t (ConstantInt k n))) [constant_meaning (ConstantInt k n)] w =
    sem (Meaning := M) (inst x' (TyPtr t') (Alloca t' (ConstantInt k' n'))) [constant_meaning (ConstantInt k' n')] w;
  bp_folded i v w : folded i = Some v -> forallb is_constant_value (operands (i_kind i)) = true ->
    sem (Meaning := M) i (map constant_meaning (operands (i_kind i))) w = Some (constant_meaning v, w);
  bp_folded_type i v : folded i = Some v -> type_of v = i_type i /\ is_constant_value v = true;
  bp_folded_cast v t : is_constant_value v = true -> is_pointer (type_of v) = true -> is_pointer t = true ->
    exists v', folded (inst "" t (Cast BitCast v)) = Some v' /\ constant_meaning v' = constant_meaning v;
  bp_strip v : is_constant_value v = true -> is_pointer (type_of v) = true ->
    is_constant_value (strip_constant v) = true /\ is_pointer (type_of (strip_constant v)) = true /\ constant_meaning (strip_constant v) = constant_meaning v;
  bp_sizes :: ByteSizes type_alloc_size
}.

(** ** The size of an allocation *)

Section sizes.
Context (type_alloc_size : ty -> Z) `{!ByteSizes type_alloc_size}.
Abbreviation size := type_alloc_size.
Lemma rebuilt_alloca_pointer t z : is_pointer t = true -> size (rebuilt_alloca size t z) = wrap 32 z * size t.
Proof.
  intros Hp. unfold rebuilt_alloca, rebuildType. rewrite Hp. destruct t as [| | |t| | | |]; try done. cbn [negb andb i8pTy]. pose proof (bs_pointer i8Ty t) as E.
  destruct (Z.eqb_spec (wrap 32 z) 1) as [->|_]; [rewrite <- E; unfold i8pTy; lia|]. rewrite bs_array. by rewrite <- E.
Qed.
Lemma rebuilt_alloca_bytes t z : is_pointer t = false -> t <> TyVoid -> size (rebuilt_alloca size t z) = wrap 32 (z * size t).
Proof.
  intros Hp Hv. unfold rebuilt_alloca, rebuildType. rewrite Hp. cbn [negb andb]. rewrite (bool_decide_false (t = TyVoid)) by done. cbn [orb].
  assert (Hall : forall n, size (if n =? 1 then i8Ty else TyArr n i8Ty) = n).
  { intros n. destruct (Z.eqb_spec n 1) as [->|_]; [apply bs_i8|]. rewrite bs_array, bs_i8. lia. }
  destruct (bool_decide (t = i8Ty)) eqn:E.
  - apply bool_decide_eq_true in E as ->. rewrite bs_i8, Z.mul_1_r. apply Hall.
  - rewrite Hall. unfold wrap. by rewrite Zmult_mod_idemp_l, Zmult_mod_idemp_r.
Qed.
Lemma rebuilt_alloca_i8 t z : is_pointer t = false -> t <> TyVoid -> rebuilt_alloca size t z = i8Ty \/ exists n, rebuilt_alloca size t z = TyArr n i8Ty.
Proof.
  intros Hp Hv. unfold rebuilt_alloca, rebuildType. rewrite Hp. cbn [negb andb]. rewrite (bool_decide_false (t = TyVoid)) by done. cbn [orb].
  assert (Hall : forall n, (if n =? 1 then i8Ty else TyArr n i8Ty) = i8Ty \/ exists n', (if n =? 1 then i8Ty else TyArr n i8Ty) = TyArr n' i8Ty) by (intros n; destruct (n =? 1); [by left|right; by exists n]).
  destruct (bool_decide (t = i8Ty)) eqn:E; [apply bool_decide_eq_true in E as ->|]; apply Hall.
Qed.
Lemma rebuilt_alloca_i8p t z : is_pointer t = true -> rebuilt_alloca size t z = i8pTy \/ exists n, rebuilt_alloca size t z = TyArr n i8pTy.
Proof.
  intros Hp. unfold rebuilt_alloca, rebuildType. rewrite Hp. cbn [negb andb]. cbn. destruct (_ =? 1); [by left|right; eauto].
Qed.
(** Nothing is lost when the number of bytes is one of 32 bits. *)
Definition bytes_fit (t : ty) (n : Z) : Prop := in_u 32 n /\ in_u 32 (n * size t).
Lemma rebuilt_alloca_fits t z : t <> TyVoid -> bytes_fit t z -> size (rebuilt_alloca size t z) = z * size t.
Proof.
  intros Hv [H1 H2]. destruct (is_pointer t) eqn:E; [by rewrite rebuilt_alloca_pointer, wrap_small|]. by rewrite rebuilt_alloca_bytes, wrap_small.
Qed.
End sizes.

Lemma alike_refl t : alike t t.
Proof. by left. Qed.
Lemma alike_sym t t' : alike t t' -> alike t' t.
Proof. intros [->|[H1 H2]]; [by left|by right]. Qed.
Lemma alike_trans t1 t2 t3 : alike t1 t2 -> alike t2 t3 -> alike t1 t3.
Proof. intros [->|[H1 H2]] [->|[H3 H4]]; [by left|by right..]. Qed.
Lemma alike_pointer t t' : alike t t' -> is_pointer t = is_pointer t'.
Proof. intros [->|[-> ->]]; done. Qed.
Lemma alike_integer t t' : alike t t' -> is_integer_ty t = true -> t' = t.
Proof. intros [->|[H1 _]] H; [done|]. destruct t; done. Qed.
Lemma alikes_refl l : alikes l l.
Proof. apply Forall_Forall2_diag, Forall_forall. intros v _. apply alike_refl. Qed.

(** ** The old and the new function side by side *)

Section sides.
Context {V W : Type} (M : Meaning V W).
Context (args : list string) (before : string -> string -> Prop).

(** What is known of the new function: the roots of what old names are mapped to,
    the names of its blocks, the roots of its names. *)
Record view := { vw_old : string -> option (string + V); vw_has : string -> string -> Prop; vw_root : gmap string (string + V) }.
Record grows (v v' : view) : Prop := {
  gr_old x ρ : vw_old v x = Some ρ -> vw_old v' x = Some ρ; gr_has l r : vw_has v l r -> vw_has v' l r; gr_root : vw_root v ⊆ vw_root v'
}.
Definition root (v : view) (x : Value) : option (string + V) := match x with Local r _ => vw_root v !! r | c => Some (inr (constant_meaning c)) end.
Definition old_root (v : view) (x : Value) : option (string + V) := match x with Local y _ => vw_old v y | c => Some (inr (constant_meaning c)) end.
Definition value_at (f : string -> V) (o : option (string + V)) : V := match o with Some (inl y) => f y | Some (inr c) => c | None => undefined end.

Lemma view_grows_refl v : grows v v.
Proof. by constructor. Qed.
Lemma view_grows_trans v1 v2 v3 : grows v1 v2 -> grows v2 v3 -> grows v1 v3.
Proof. intros [A1 A2 A3] [B1 B2 B3]. constructor; [naive_solver|naive_solver|by etrans]. Qed.
Lemma root_grows v v' x ρ : grows v v' -> root v x = Some ρ -> root v' x = Some ρ.
Proof. intros Hg H. destruct x; try exact H. cbn [root] in *. eapply lookup_weaken; [exact H|apply (gr_root _ _ Hg)]. Qed.
Lemma old_root_grows v v' x ρ : grows v v' -> old_root v x = Some ρ -> old_root v' x = Some ρ.
Proof.
  intros Hg H. destruct x as [y t| | | | | | | | | | | |]; try exact H. by apply (gr_old _ _ Hg).
Qed.

Section block.
Context (B : string).
(** The names that have been given a value when [P] of the block's have. *)
Definition given (v : view) (P : list string) (r : string) : Prop := r ∈ args \/ r ∈ P \/ exists l, before l B /\ vw_has v l r.
Definition usable (v : view) (P : list string) (x : Value) : Prop := match x with Local r _ => given v P r | _ => True end.
Definition rooted (v : view) (P : list string) (ρ : string + V) : Prop := match ρ with inl y => given v P y | inr _ => True end.
Definition is_call_inst (i : Inst) : bool := match i_kind i with Call _ _ _ => true | _ => false end.
Definition known_old (v : view) (l : list Value) : Prop := Forall (fun o => is_Some (old_root v o)) l.
Definition usables (v : view) (P : list string) (l : list Value) : Prop := Forall (fun o => usable v P o /\ is_Some (root v o)) l.
(** An old instruction whose value is already there; a new one that only casts; an
    instruction and its image. *)
Definition old_step (v : view) (P : list string) (i : Inst) : Prop :=
  has_result i = true /\ is_call_inst i = false /\ known_old v (operands (i_kind i)) /\
  exists ρ, old_root v (Local (i_name i) (i_type i)) = Some ρ /\ rooted v P ρ /\
    forall f w, sem (Meaning := M) i (map (fun o => value_at f (old_root v o)) (operands (i_kind i))) w = Some (value_at f (Some ρ), w).
Definition new_step (v : view) (P : list string) (c : Inst) : Prop :=
  has_result c = true /\ is_call_inst c = false /\ usables v P (operands (i_kind c)) /\
  exists ρ, vw_root v !! i_name c = Some ρ /\ rooted v P ρ /\
    forall f w, sem (Meaning := M) c (map (fun o => value_at f (root v o)) (operands (i_kind c))) w = Some (value_at f (Some ρ), w).
Definition both_step (v : view) (P : list string) (i c : Inst) : Prop :=
  has_result c = has_result i /\ known_old v (operands (i_kind i)) /\ usables v P (operands (i_kind c)) /\
  (has_result i = true -> vw_root v !! i_name c = Some (inl (i_name c)) /\ old_root v (Local (i_name i) (i_type i)) = Some (inl (i_name c))) /\
  forall calls calls', (forall g args w r, calls g args w = Some r -> calls' g args w = Some r) -> forall f w r,
    sem (Meaning := with_calls M calls) i (map (fun o => value_at f (old_root v o)) (operands (i_kind i))) w = Some r ->
    sem (Meaning := with_calls M calls') c (map (fun o => value_at f (root v o)) (operands (i_kind c))) w = Some r.
Inductive matches (v : view) : list string -> list Inst -> list Inst -> Prop :=
| m_nil P : matches v P [] []
| m_old P i olds news : old_step v P i -> matches v P olds news -> matches v P (i :: olds) news
| m_new P c olds news : new_step v P c -> matches v (P ++ results [c]) olds news -> matches v P olds (c :: news)
| m_both P i c olds news : both_step v P i c -> matches v (P ++ results [c]) olds news -> matches v P (i :: olds) (c :: news).

(** *** More names, more of the function *)

Lemma given_more v v' P P' r : grows v v' -> (forall x, x ∈ P -> x ∈ P') -> given v P r -> given v' P' r.
Proof. intros Hg HP [H|[H|(l & H1 & H2)]]; [by left|right; left; by apply HP|right; right; exists l; split; [done|by eapply gr_has]]. Qed.
Lemma usable_more v v' P P' x : grows v v' -> (forall x, x ∈ P -> x ∈ P') -> usable v P x -> usable v' P' x.
Proof. intros Hg HP. destruct x; try done. by apply given_more. Qed.
Lemma rooted_more v v' P P' ρ : grows v v' -> (forall x, x ∈ P -> x ∈ P') -> rooted v P ρ -> rooted v' P' ρ.
Proof. intros Hg HP. destruct ρ; try done. by apply given_more. Qed.
Lemma usables_more v v' P P' l : grows v v' -> (forall x, x ∈ P -> x ∈ P') -> usables v P l -> usables v' P' l.
Proof.
  intros Hg HP H. eapply Forall_impl; [exact H|]. cbv beta. intros o [H1 (ρ & H2)]. split; [by eapply usable_more|]. exists ρ. by eapply root_grows.
Qed.
Lemma known_old_grows v v' l : grows v v' -> known_old v l -> known_old v' l.
Proof. intros Hg H. eapply Forall_impl; [exact H|]. cbv beta. intros o (ρ & Ho). exists ρ. by eapply old_root_grows. Qed.
Lemma old_values_grow v v' f l : grows v v' -> known_old v l -> map (fun o => value_at f (old_root v' o)) l = map (fun o => value_at f (old_root v o)) l.
Proof.
  intros Hg H. apply map_ext_in. intros o Ho. apply list_elem_of_In in Ho. unfold known_old in H. rewrite Forall_forall in H. destruct (H o Ho) as (ρ & E).
  by rewrite E, (old_root_grows v v' o ρ Hg E).
Qed.
Lemma values_grow v v' P f l : grows v v' -> usables v P l -> map (fun o => value_at f (root v' o)) l = map (fun o => value_at f (root v o)) l.
Proof.
  intros Hg H. apply map_ext_in. intros o Ho. apply list_elem_of_In in Ho. unfold usables in H. rewrite Forall_forall in H. destruct (H o Ho) as (_ & ρ & E).
  by rewrite E, (root_grows v v' o ρ Hg E).
Qed.
Lemma old_step_more v v' P P' i : grows v v' -> (forall x, x ∈ P -> x ∈ P') -> old_step v P i -> old_step v' P' i.
Proof.
  intros Hg HP (H1 & H2 & H3 & ρ & H4 & H5 & H6). split; [done|]. split; [done|]. split; [by eapply known_old_grows|]. exists ρ. split; [by eapply old_root_grows|].
  split; [by eapply rooted_more|]. intros f w. by rewrite (old_values_grow v v').
Qed.
Lemma new_step_more v v' P P' i : grows v v' -> (forall x, x ∈ P -> x ∈ P') -> new_step v P i -> new_step v' P' i.
Proof.
  intros Hg HP (H1 & H2 & H3 & ρ & H4 & H5 & H6). split; [done|]. split; [done|]. split; [by eapply usables_more|]. exists ρ.
  split; [eapply lookup_weaken; [exact H4|apply (gr_root _ _ Hg)]|]. split; [by eapply rooted_more|]. intros f w. by rewrite (values_grow v v' P).
Qed.
Lemma both_step_more v v' P P' i c : grows v v' -> (forall x, x ∈ P -> x ∈ P') -> both_step v P i c -> both_step v' P' i c.
Proof.
  intros Hg HP (H1 & H2 & H3 & H4 & H5). split; [done|]. split; [by eapply known_old_grows|]. split; [by eapply usables_more|]. split.
  - intros Hr. destruct (H4 Hr) as [H6 H7]. split; [eapply lookup_weaken; [exact H6|apply (gr_root _ _ Hg)]|by eapply old_root_grows].
  - intros calls calls' Hc f w r. rewrite (old_values_grow v v') by done. rewrite (values_grow v v' P) by done. by apply H5.
Qed.
Lemma matches_more v v' P olds news : grows v v' -> matches v P olds news -> forall P', (forall x, x ∈ P -> x ∈ P') -> matches v' P' olds news.
Proof.
  intros Hg. induction 1 as [P|P i olds news Hs _ IH|P c olds news Hs _ IH|P i c olds news Hs _ IH]; intros P' HP.
  - constructor.
  - apply m_old; [by eapply old_step_more|by apply IH].
  - apply m_new; [by eapply new_step_more|]. apply IH. intros x. rewrite !elem_of_app. intros [Hx|Hx]; [left; by apply HP|by right].
  - apply m_both; [by eapply both_step_more|]. apply IH. intros x. rewrite !elem_of_app. intros [Hx|Hx]; [left; by apply HP|by right].
Qed.
Lemma matches_app v P olds news olds2 news2 : matches v P olds news -> matches v (P ++ results news) olds2 news2 -> matches v P (olds ++ olds2) (news ++ news2).
Proof.
  assert (Happ : forall c l, results (c :: l) = results [c] ++ results l) by (intros c l; unfold results; cbn [List.filter]; by destruct (has_result c)).
  induction 1 as [P|P i olds news Hs _ IH|P c olds news Hs _ IH|P i c olds news Hs _ IH]; intros H2; cbn [app] in *.
  - eapply matches_more; [apply view_grows_refl|exact H2|]. intros x. unfold results. cbn [List.filter map]. by rewrite app_nil_r.
  - apply m_old; [done|by apply IH].
  - apply m_new; [done|]. apply IH. by rewrite Happ, app_assoc in H2.
  - apply m_both; [done|]. apply IH. by rewrite Happ, app_assoc in H2.
Qed.
(** A cast may be put anywhere behind what it casts. *)
Lemma matches_insert v P olds news1 news2 c : matches v P olds (news1 ++ news2) -> new_step v (P ++ results news1) c -> matches v P olds (news1 ++ c :: news2).
Proof.
  assert (Happ : forall c l, results (c :: l) = results [c] ++ results l) by (intros c0 l; unfold results; cbn [List.filter]; by destruct (has_result c0)).
  revert P olds. induction news1 as [|a news1 IH]; intros P olds Hm Hs; cbn [app] in *.
  - unfold results in Hs. cbn [List.filter map] in Hs. rewrite app_nil_r in Hs. apply m_new; [done|]. eapply matches_more; [apply view_grows_refl|exact Hm|]. intros x. rewrite elem_of_app. by left.
  - rewrite Happ, app_assoc in Hs. remember (a :: news1 ++ news2) as news eqn:En.
    assert (Hgo : forall P olds news, matches v P olds news -> news = a :: news1 ++ news2 -> new_step v ((P ++ results [a]) ++ results news1) c -> matches v P olds (a :: news1 ++ c :: news2)).
    { clear Hm Hs En P olds news. intros P olds news. induction 1 as [P|P i olds news Hi _ IHm|P c' olds news Hi Hm _|P i c' olds news Hi Hm _]; intros E Hs.
      - done.
      - apply m_old; [done|]. by apply IHm.
      - injection E as -> ->. apply m_new; [done|]. by apply IH.
      - injection E as -> ->. apply m_both; [done|]. by apply IH. }
    by eapply Hgo.
Qed.

(** *** Running them *)

Definition values (e' : gmap string V) (y : string) : V := default undefined (e' !! y).
(** New names have the value of their root, old ones that of what they are mapped to. *)
Definition new_ok (v : view) (P : list string) (e' : gmap string V) : Prop :=
  forall r, given v P r -> exists ρ, vw_root v !! r = Some ρ /\ rooted v P ρ /\ default undefined (e' !! r) = value_at (values e') (Some ρ).
Definition old_ok (v : view) (P A : list string) (e e' : gmap string V) : Prop :=
  forall x, x ∈ A -> exists ρ, vw_old v x = Some ρ /\ rooted v P ρ /\ default undefined (e !! x) = value_at (values e') (Some ρ).
Fixpoint operands_in (A : list string) (l : list Inst) : Prop :=
  match l with
  | [] => True
  | i :: l => (forall x t, Local x t ∈ operands (i_kind i) -> x ∈ A) /\ operands_in (A ++ results [i]) l
  end.
Definition apart (A : list string) (l : list Inst) : Prop := NoDup (results l) /\ forall x, x ∈ results l -> x ∉ A.
Definition unused (v : view) (P : list string) (news : list Inst) : Prop :=
  NoDup (P ++ results news) /\ forall r, r ∈ results news -> r ∉ args /\ forall l, before l B -> ~ vw_has v l r.

Lemma results_cons c l : results (c :: l) = results [c] ++ results l.
Proof. unfold results. cbn [List.filter]. by destruct (has_result c). Qed.
Lemma results_result c : has_result c = true -> results [c] = [i_name c].
Proof. unfold results. cbn [List.filter]. by intros ->. Qed.
Lemma results_none c : has_result c = false -> results [c] = [].
Proof. unfold results. cbn [List.filter]. by intros ->. Qed.
Lemma has_result_void i : has_result i = match i_type i with TyVoid => false | _ => true end.
Proof. done. Qed.
Lemma result_env i (z : V) (e : gmap string V) : match i_type i with TyVoid => e | _ => <[i_name i := z]> e end = if has_result i then <[i_name i := z]> e else e.
Proof. rewrite has_result_void. by destruct (i_type i). Qed.
Lemma unused_head v P c news : unused v P (c :: news) -> has_result c = true -> ~ given v P (i_name c).
Proof.
  intros [Hn Hu] Hc. rewrite (results_cons c news), (results_result c Hc) in Hn, Hu. destruct (Hu (i_name c)) as [H1 H2]; [by left|].
  intros [H|[H|(l & Hl & H)]]; [done| |by eapply H2]. apply NoDup_app in Hn as (_ & Hn & _). apply (Hn _ H). by left.
Qed.
Lemma unused_tail v P c news : unused v P (c :: news) -> unused v (P ++ results [c]) news.
Proof.
  intros [Hn Hu]. rewrite (results_cons c news) in Hn, Hu. split; [by rewrite <- app_assoc|]. intros r Hr. apply Hu. apply elem_of_app. by right.
Qed.
Lemma value_eq_written f r z ρ : ρ <> inl r -> value_at (values (<[r := z]> f)) (Some ρ) = value_at (values f) (Some ρ).
Proof. intros H. destruct ρ as [y|c]; [|done]. cbn [value_at]. unfold values. rewrite lookup_insert_ne; [done|]. by intros ->. Qed.
Lemma rooted_not v P ρ r : rooted v P ρ -> ~ given v P r -> ρ <> inl r.
Proof. intros H Hr ->. by apply Hr. Qed.
Lemma old_ok_written v P A e e' r z : old_ok v P A e e' -> ~ given v P r -> old_ok v P A e (<[r := z]> e').
Proof.
  intros H Hr x Hx. destruct (H x Hx) as (ρ & H1 & H2 & H3). exists ρ. split; [done|]. split; [done|]. rewrite H3. symmetry. apply value_eq_written. by eapply rooted_not.
Qed.
Lemma old_ok_more v P P' A e e' : (forall x, x ∈ P -> x ∈ P') -> old_ok v P A e e' -> old_ok v P' A e e'.
Proof.
  intros HP H x Hx. destruct (H x Hx) as (ρ & H1 & H2 & H3). exists ρ. split; [done|]. split; [|done]. eapply rooted_more; [apply view_grows_refl|exact HP|exact H2].
Qed.
Lemma old_ok_insert v P A e e' x z ρ : old_ok v P A e e' -> vw_old v x = Some ρ -> rooted v P ρ -> z = value_at (values e') (Some ρ) -> x ∉ A ->
  old_ok v P (A ++ [x]) (<[x := z]> e) e'.
Proof.
  intros H H1 H2 H3 Hx y [Hy|Hy]%elem_of_app.
  - destruct (H y Hy) as (ρ' & K1 & K2 & K3). exists ρ'. split; [done|]. split; [done|]. rewrite lookup_insert_ne; [done|]. by intros ->.
  - apply list_elem_of_singleton in Hy as ->. exists ρ. rewrite lookup_insert_eq. by split.
Qed.
(** A new name is written. *)
Lemma new_ok_insert v P e' r z ρ : new_ok v P e' -> ~ given v P r -> vw_root v !! r = Some ρ -> (ρ = inl r \/ rooted v P ρ /\ z = value_at (values e') (Some ρ)) ->
  new_ok v (P ++ [r]) (<[r := z]> e').
Proof.
  intros H Hr H1 H2 y Hy. assert (HP : forall x, x ∈ P -> x ∈ P ++ [r]) by (intros x Hx; apply elem_of_app; by left).
  destruct (decide (y = r)) as [->|Hne].
  - exists ρ. split; [done|]. rewrite lookup_insert_eq. cbn [default]. destruct H2 as [->|[H2 H3]].
    + split; [right; left; apply elem_of_app; right; by left|]. cbn [value_at]. unfold values. by rewrite lookup_insert_eq.
    + split; [eapply rooted_more; [apply view_grows_refl|exact HP|exact H2]|]. rewrite value_eq_written; [done|]. by eapply rooted_not.
  - assert (Hy' : given v P y).
    { destruct Hy as [Hy|[Hy|Hy]]; [by left| |by right; right]. apply elem_of_app in Hy as [Hy|Hy]; [by right; left|]. by apply list_elem_of_singleton in Hy. }
    destruct (H y Hy') as (ρ' & K1 & K2 & K3). exists ρ'. split; [done|]. split; [eapply rooted_more; [apply view_grows_refl|exact HP|exact K2]|].
    rewrite lookup_insert_ne by done. rewrite K3. symmetry. apply value_eq_written. by eapply rooted_not.
Qed.
Lemma eval_old v P A e e' o : old_ok v P A e e' -> (forall x t, o = Local x t -> x ∈ A) -> eval (M := M) e o = value_at (values e') (old_root v o).
Proof. intros H Ho. destruct o as [x t| | | | | | | | | | | |]; try done. destruct (H x (Ho x t eq_refl)) as (ρ & H1 & _ & H2). cbn [old_root eval]. by rewrite H1. Qed.
Lemma eval_new v P e' o : new_ok v P e' -> usable v P o -> eval (M := M) e' o = value_at (values e') (root v o).
Proof. intros H Ho. destruct o as [x t| | | | | | | | | | | |]; try done. destruct (H x Ho) as (ρ & H1 & _ & H2). cbn [root eval]. by rewrite H1. Qed.
Lemma evals_old v P A e e' l : old_ok v P A e e' -> (forall x t, Local x t ∈ l -> x ∈ A) ->
  map (eval (M := M) e) l = map (fun o => value_at (values e') (old_root v o)) l.
Proof. intros H Hl. apply map_ext_in. intros o Ho. apply list_elem_of_In in Ho. eapply eval_old; [exact H|]. intros x t ->. by eapply Hl. Qed.
Lemma evals_new v P e' l : new_ok v P e' -> usables v P l -> map (eval (M := M) e') l = map (fun o => value_at (values e') (root v o)) l.
Proof. intros H Hl. apply map_ext_in. intros o Ho. apply list_elem_of_In in Ho. unfold usables in Hl. rewrite Forall_forall in Hl. eapply eval_new; [exact H|]. by apply Hl. Qed.
Lemma sem_no_call calls i vs w : is_call_inst i = false -> sem (Meaning := with_calls M calls) i vs w = sem (Meaning := M) i vs w.
Proof. unfold is_call_inst. cbn [sem with_calls]. by destruct (i_kind i). Qed.

Context (calls calls' : string -> list V -> W -> option (option V * W)) (Hcalls : forall g args w r, calls g args w = Some r -> calls' g args w = Some r).
Abbreviation old_exec := (exec_inst (M := with_calls M calls) ∅).
Abbreviation new_exec := (exec_inst (M := with_calls M calls') ∅).
Lemma exec_result (c : string -> list V -> W -> option (option V * W)) i e m w s : exec_inst (M := with_calls M c) ∅ i (e, m, w) = Some s <->
  exists z w', sem (Meaning := with_calls M c) i (map (eval (M := M) e) (operands (i_kind i))) w = Some (z, w') /\ s = (if has_result i then <[i_name i := z]> e else e, m, w').
Proof.
  rewrite exec_inst_no_slots. split.
  - intros ([z w'] & E & H)%bind_Some. injection H as <-. exists z, w'. split; [exact E|]. by rewrite result_env.
  - intros (z & w' & E & ->). apply bind_Some. exists (z, w'). split; [exact E|]. by rewrite result_env.
Qed.
Lemma old_step_run v P A i e e' m w e1 m1 w1 : old_step v P i -> old_exec i (e, m, w) = Some (e1, m1, w1) -> old_ok v P A e e' ->
  (forall x t, Local x t ∈ operands (i_kind i) -> x ∈ A) -> i_name i ∉ A -> m1 = m /\ w1 = w /\ old_ok v P (A ++ results [i]) e1 e'.
Proof.
  intros (H1 & H2 & _ & ρ & H3 & H4 & H5) H Ho Hin Hi. apply exec_result in H as (z & w' & E & H). injection H as -> -> ->. rewrite (evals_old v P A e e') in E by done.
  rewrite sem_no_call, H5 in E by done. injection E as <- <-. split; [done|]. split; [done|]. rewrite H1, (results_result i H1). by apply (old_ok_insert _ _ _ _ _ _ _ ρ).
Qed.
Lemma new_step_run v P A c news e e' m w : new_step v P c -> old_ok v P A e e' -> new_ok v P e' -> unused v P (c :: news) ->
  exists e1', new_exec c (e', m, w) = Some (e1', m, w) /\ old_ok v (P ++ results [c]) A e e1' /\ new_ok v (P ++ results [c]) e1'.
Proof.
  intros (H1 & H2 & H3 & ρ & H4 & H5 & H6) Ho Hn Hu. pose proof (unused_head v P c news Hu H1) as Hc. eexists. split.
  - apply exec_result. do 2 eexists. split; [|reflexivity]. rewrite (evals_new v P e') by done. rewrite sem_no_call by done. by rewrite H6.
  - rewrite H1, (results_result c H1). split.
    + eapply old_ok_more; [|by apply old_ok_written]. intros x Hx. apply elem_of_app. by left.
    + apply (new_ok_insert _ _ _ _ _ ρ); [done..|]. by right.
Qed.
Lemma both_step_run v P A i c news e e' m w e1 m1 w1 : both_step v P i c -> old_exec i (e, m, w) = Some (e1, m1, w1) -> old_ok v P A e e' -> new_ok v P e' ->
  unused v P (c :: news) -> (forall x t, Local x t ∈ operands (i_kind i) -> x ∈ A) -> (has_result i = true -> i_name i ∉ A) ->
  exists e1', new_exec c (e', m, w) = Some (e1', m1, w1) /\ old_ok v (P ++ results [c]) (A ++ results [i]) e1 e1' /\ new_ok v (P ++ results [c]) e1'.
Proof.
  intros (H1 & H2 & H3 & H4 & H5) H Ho Hn Hu Hin Hi. apply exec_result in H as (z & w' & E & H). injection H as -> -> ->. rewrite (evals_old v P A e e') in E by done.
  apply (H5 calls calls' Hcalls) in E. eexists. split.
  - apply exec_result. do 2 eexists. split; [|reflexivity]. rewrite (evals_new v P e') by done. exact E.
  - rewrite H1. destruct (has_result i) eqn:Er.
    + destruct (H4 eq_refl) as [H6 H7]. pose proof (unused_head v P c news Hu ltac:(by rewrite H1)) as Hc. rewrite (results_result i Er), (results_result c) by done.
      assert (HP : forall x, x ∈ P -> x ∈ P ++ [i_name c]) by (intros x Hx; apply elem_of_app; by left). split.
      * apply (old_ok_insert _ _ _ _ _ _ _ (inl (i_name c))); [| |right; left; apply elem_of_app; right; by left| |by apply Hi].
        -- eapply old_ok_more; [exact HP|]. by apply old_ok_written.
        -- exact H7.
        -- cbn [value_at]. unfold values. by rewrite lookup_insert_eq.
      * apply (new_ok_insert _ _ _ _ _ (inl (i_name c))); [done..|]. by left.
    + rewrite (results_none i Er), (results_none c) by done. rewrite !app_nil_r. by split.
Qed.
Lemma apart_head A i l : apart A (i :: l) -> has_result i = true -> i_name i ∉ A.
Proof. intros [_ H] Hi. apply H. rewrite results_cons, (results_result i Hi). by left. Qed.
Lemma apart_tail A i l : apart A (i :: l) -> apart (A ++ results [i]) l.
Proof.
  intros [H1 H2]. rewrite (results_cons i l) in H1, H2. apply NoDup_app in H1 as (_ & H3 & H1). split; [done|]. intros x Hx [HA|Hi]%elem_of_app.
  - apply (H2 x); [apply elem_of_app; by right|done].
  - by apply (H3 x).
Qed.
Lemma matches_run v P olds news : matches v P olds news -> forall A e e' m w e1 m1 w1, exec_insts (M := with_calls M calls) ∅ olds (e, m, w) = Some (e1, m1, w1) ->
  old_ok v P A e e' -> new_ok v P e' -> unused v P news -> operands_in A olds -> apart A olds ->
  exists e1', exec_insts (M := with_calls M calls') ∅ news (e', m, w) = Some (e1', m1, w1) /\
    old_ok v (P ++ results news) (A ++ results olds) e1 e1' /\ new_ok v (P ++ results news) e1'.
Proof.
  induction 1 as [P|P i olds news Hs _ IH|P c olds news Hs _ IH|P i c olds news Hs _ IH]; intros A e e' m w e1 m1 w1 H Ho Hn Hu Hin Hd.
  - cbn [exec_insts] in *. injection H as <- <- <-. exists e'. unfold results. cbn [List.filter map]. rewrite !app_nil_r. by split.
  - cbn [exec_insts] in H. apply bind_Some in H as ([[e2 m2] w2] & E & H). destruct Hin as [Hin1 Hin2].
    destruct (old_step_run v P A i e e' m w e2 m2 w2 Hs E Ho Hin1) as (-> & -> & Ho2); [apply (apart_head A i olds Hd), Hs|].
    rewrite (results_cons i), app_assoc. apply apart_tail in Hd. by eapply IH.
  - destruct (new_step_run v P A c news e e' m w Hs Ho Hn Hu) as (e2' & E & Ho2 & Hn2). destruct (IH A e e2' m w e1 m1 w1 H Ho2 Hn2) as (e1' & E1 & K1 & K2); [by apply unused_tail|done..|].
    exists e1'. split; [cbn [exec_insts]; rewrite E; exact E1|]. by rewrite (results_cons c), !app_assoc.
  - cbn [exec_insts] in H. apply bind_Some in H as ([[e2 m2] w2] & E & H). destruct Hin as [Hin1 Hin2].
    destruct (both_step_run v P A i c news e e' m w e2 m2 w2 Hs E Ho Hn Hu Hin1) as (e2' & E' & Ho2 & Hn2); [by apply (apart_head A i olds)|].
    apply apart_tail in Hd. destruct (IH _ e2 e2' m2 w2 e1 m1 w1 H Ho2 Hn2) as (e1' & E1 & K1 & K2); [by apply unused_tail|done..|].
    exists e1'. split; [cbn [exec_insts]; rewrite E'; exact E1|]. by rewrite (results_cons c), (results_cons i), !app_assoc.
Qed.
End block.
End sides.

(** ** Scopes

    [avail l]: the names that are defined on every way to block [l]; they are what
    the definitions of the blocks that dominate [l] give. LLVM's verifier and its
    dominator tree see to this; [scoped_check] decides it. *)
Section scopes.
Context (F : Function_) (avail : string -> list string).
Abbreviation arg_names := (map fst (f_args F)).
Definition before (l l' : string) : Prop := exists b x, b ∈ f_blocks F /\ bb_name b = l /\ x ∈ block_defs b /\ x ∈ avail l'.
Definition in_scope (A : list string) (l : list Value) : Prop := forall x t, Local x t ∈ l -> x ∈ A.
Record scoped : Prop := {
  sc_defs : NoDup (defs F);
  sc_blocks : NoDup (map bb_name (f_blocks F));
  sc_entry b bs : f_blocks F = b :: bs -> avail (bb_name b) = [];
  sc_edge b l x : b ∈ f_blocks F -> l ∈ targets (bb_term b) -> x ∈ avail l -> x ∈ avail (bb_name b) ++ block_defs b;
  sc_own b x : b ∈ f_blocks F -> x ∈ avail (bb_name b) -> x ∉ block_defs b;
  sc_closed b b' x y : b ∈ f_blocks F -> b' ∈ f_blocks F -> x ∈ block_defs b -> x ∈ avail (bb_name b') -> y ∈ avail (bb_name b) -> y ∈ avail (bb_name b');
  sc_defined b x : b ∈ f_blocks F -> x ∈ avail (bb_name b) -> exists b', b' ∈ f_blocks F /\ x ∈ block_defs b';
  sc_targets b l : b ∈ f_blocks F -> l ∈ targets (bb_term b) -> l ∈ map bb_name (f_blocks F);
  sc_insts b : b ∈ f_blocks F -> operands_in (arg_names ++ avail (bb_name b) ++ map phi_name (bb_phis b)) (bb_insts b);
  sc_term b : b ∈ f_blocks F -> in_scope (arg_names ++ avail (bb_name b) ++ block_defs b) (term_operands (bb_term b));
  sc_phis b p o pred : b ∈ f_blocks F -> p ∈ bb_phis b -> (o, pred) ∈ phi_incoming p ->
    exists b', b' ∈ f_blocks F /\ bb_name b' = pred /\ in_scope (arg_names ++ avail pred ++ block_defs b') [o]
}.
Context (Hs : scoped).
Lemma same_block b b' : b ∈ f_blocks F -> b' ∈ f_blocks F -> bb_name b = bb_name b' -> b = b'.
Proof. intros Hb Hb' E. by eapply (NoDup_map_eq bb_name); [apply (sc_blocks Hs)|..]. Qed.
Lemma block_of_def_eq b b' x : b ∈ f_blocks F -> b' ∈ f_blocks F -> x ∈ block_defs b -> x ∈ block_defs b' -> b = b'.
Proof.
  intros Hb Hb' Hx Hx'. pose proof (sc_defs Hs) as Hd. unfold defs in Hd. apply NoDup_app in Hd as (_ & _ & Hd). by eapply (NoDup_flat_map_eq block_defs).
Qed.
Lemma def_not_arg_name b x : b ∈ f_blocks F -> x ∈ block_defs b -> x ∉ arg_names.
Proof.
  intros Hb Hx Ha. pose proof (sc_defs Hs) as Hd. unfold defs in Hd. apply NoDup_app in Hd as (_ & Hd & _). apply (Hd x Ha). apply elem_of_flat_map. by exists b.
Qed.
Lemma before_trans b l l' : b ∈ f_blocks F -> before l (bb_name b) -> l' ∈ map bb_name (f_blocks F) -> before (bb_name b) l' -> before l l'.
Proof.
  intros Hb (b1 & x & Hb1 & E1 & Hx & Hxa) Hl' (b2 & y & Hb2 & E2 & Hy & Hya). apply list_elem_of_fmap in Hl' as (b' & -> & Hb').
  assert (b2 = b) as -> by (by apply same_block). exists b1, x. split; [done|]. split; [done|]. split; [done|]. by eapply (sc_closed Hs b b' y x).
Qed.
Lemma before_irrefl l : l ∈ map bb_name (f_blocks F) -> ~ before l l.
Proof.
  intros Hl (b & x & Hb & E & Hx & Ha). subst l. by eapply (sc_own Hs b x).
Qed.
Lemma block_defs_NoDup b : b ∈ f_blocks F -> NoDup (block_defs b).
Proof.
  intros Hb. pose proof (sc_defs Hs) as Hd. unfold defs in Hd. apply NoDup_app in Hd as (_ & _ & Hd). clear Hs.
  induction (f_blocks F) as [|c bs IH]; [by apply not_elem_of_nil in Hb|]. cbn [flat_map] in Hd. apply NoDup_app in Hd as (H1 & _ & H2).
  apply elem_of_cons in Hb as [->|Hb]; [done|]. by apply IH.
Qed.
Lemma available_not_own b x : b ∈ f_blocks F -> x ∈ arg_names ++ avail (bb_name b) -> x ∉ block_defs b.
Proof. intros Hb [Hx|Hx]%elem_of_app Hd; [by eapply def_not_arg_name|by eapply (sc_own Hs b x)]. Qed.
End scopes.

(** ** A rebuilt function *)

Section function.
Context {V W : Type} (M : Meaning V W) (F : Function_) (avail : string -> list string) (Hs : scoped F avail).
Abbreviation arg_names := (map fst (f_args F)).
Abbreviation before := (before F avail).
Abbreviation given := (given arg_names before).
Abbreviation usable := (usable arg_names before).
Abbreviation rooted := (rooted arg_names before).
Abbreviation new_ok := (new_ok M arg_names before).
Abbreviation old_ok := (old_ok M arg_names before).
Abbreviation root := (root M).
Abbreviation old_root := (old_root M).
(** [ends l]: the names of the new block [l]. *)
Context (v : view (V := V)) (ends : string -> list string) (Hhas : forall l r, vw_has v l r <-> r ∈ ends l).

(** Phi nodes side by side: each incoming value is that of the same block. *)
Definition incoming_rel (inc inc' : Value * string) : Prop :=
  snd inc' = snd inc /\ usable (snd inc) v (ends (snd inc)) (fst inc') /\ root v (fst inc') = old_root v (fst inc) /\ is_Some (old_root v (fst inc)).
Definition phi_rel (p p' : Phi) : Prop :=
  vw_root v !! phi_name p' = Some (inl (phi_name p')) /\ vw_old v (phi_name p) = Some (inl (phi_name p')) /\
  Forall2 incoming_rel (phi_incoming p) (phi_incoming p').
Definition term_rel (B : string) (t t' : Term) : Prop :=
  match t, t' with
  | Br c l1 l2, Br c' l1' l2' => l1' = l1 /\ l2' = l2 /\ usable B v (ends B) c' /\ root v c' = old_root v c
  | Jmp l, Jmp l' => l' = l
  | Ret x, Ret x' => usable B v (ends B) x' /\ root v x' = old_root v x
  | RetVoid, RetVoid | Unreachable, Unreachable => True
  | _, _ => False
  end.
Record block_rel (b b' : Block) : Prop := {
  br_name : bb_name b' = bb_name b;
  br_ends : ends (bb_name b) = block_defs b';
  br_phis : Forall2 phi_rel (bb_phis b) (bb_phis b');
  br_insts : matches M arg_names before (bb_name b) v (map phi_name (bb_phis b')) (bb_insts b) (bb_insts b');
  br_term : term_rel (bb_name b) (bb_term b) (bb_term b');
  br_nodup : NoDup (ends (bb_name b));
  br_fresh r : r ∈ ends (bb_name b) -> r ∉ arg_names /\ forall l, r ∈ ends l -> l = bb_name b;
  br_roots r : r ∈ ends (bb_name b) -> exists ρ, vw_root v !! r = Some ρ /\ rooted (bb_name b) v (ends (bb_name b)) ρ;
  br_map x : x ∈ block_defs b -> exists ρ, vw_old v x = Some ρ /\ rooted (bb_name b) v (ends (bb_name b)) ρ
}.
Context (bs' : list Block) (Hblocks : Forall2 block_rel (f_blocks F) bs').
Context (Hargs : forall a, a ∈ arg_names -> vw_old v a = Some (inl a) /\ vw_root v !! a = Some (inl a)).

Lemma find_rebuilt_block b : b ∈ f_blocks F -> exists b', find_bb bs' (bb_name b) = Some b' /\ block_rel b b'.
Proof.
  intros Hb. assert (Hf : find_bb (f_blocks F) (bb_name b) = Some b).
  { pose proof (sc_blocks _ _ Hs) as Hn. clear Hblocks. unfold find_bb. induction (f_blocks F) as [|c bs IH]; [by apply not_elem_of_nil in Hb|]. cbn [map List.find] in *.
    apply NoDup_cons in Hn as [Hc Hn]. apply elem_of_cons in Hb as [->|Hb]; [by rewrite String.eqb_refl|]. destruct (String.eqb_spec (bb_name c) (bb_name b)) as [E|_]; [|by apply IH].
    exfalso. apply Hc. rewrite E. by apply list_elem_of_fmap_2. }
  clear Hb. revert Hf. pose proof Hblocks as H. clear Hblocks. unfold find_bb. induction H as [|c c' bs cs Hc _ IH]; [done|]. cbn [List.find]. rewrite (br_name _ _ Hc).
  destruct (String.eqb (bb_name c) (bb_name b)); [|exact IH]. intros [= <-]. by exists c'.
Qed.
Lemma block_label b : b ∈ f_blocks F -> bb_name b ∈ map bb_name (f_blocks F).
Proof. intros Hb. by apply list_elem_of_fmap_2. Qed.
(** What is given at the end of a block that dominates another is given there. *)
Lemma given_later b l r : b ∈ f_blocks F -> l ∈ map bb_name (f_blocks F) -> before (bb_name b) l -> given (bb_name b) v (ends (bb_name b)) r -> given l v [] r.
Proof.
  intros Hb Hl Hbl [Hr|[Hr|(l0 & H1 & H2)]]; [by left|right; right; exists (bb_name b); split; [done|by apply Hhas]|].
  right. right. exists l0. split; [|done]. by eapply before_trans.
Qed.
Lemma given_edge b l r : b ∈ f_blocks F -> l ∈ targets (bb_term b) -> given l v [] r -> given (bb_name b) v (ends (bb_name b)) r.
Proof.
  intros Hb Hl [Hr|[Hr|(l0 & (b0 & y & Hb0 & <- & Hy & Ha) & H)]]; [by left|by apply not_elem_of_nil in Hr|].
  apply (sc_edge _ _ Hs b l y Hb Hl) in Ha as [Ha|Ha]%elem_of_app.
  - right. right. exists (bb_name b0). split; [|done]. by exists b0, y.
  - right. left. assert (b0 = b) as -> by (by eapply (block_of_def_eq F avail Hs)). by apply Hhas.
Qed.
Lemma rooted_later b l ρ : b ∈ f_blocks F -> l ∈ map bb_name (f_blocks F) -> before (bb_name b) l -> rooted (bb_name b) v (ends (bb_name b)) ρ -> rooted l v [] ρ.
Proof. intros Hb Hl Hbl H. destruct ρ; [|done]. by eapply given_later. Qed.

(** The values on both sides when block [l] is about to be entered. *)
Definition ready (l : string) (pred : option string) (e e' : gmap string V) : Prop :=
  match pred with
  | None => new_ok l v [] e' /\ old_ok l v [] (arg_names ++ avail l) e e'
  | Some l0 => exists b0, b0 ∈ f_blocks F /\ bb_name b0 = l0 /\ l ∈ targets (bb_term b0) /\
      new_ok l0 v (ends l0) e' /\ old_ok l0 v (ends l0) (arg_names ++ avail l0 ++ block_defs b0) e e'
  end.
Lemma ready_start l pred e e' : l ∈ map bb_name (f_blocks F) -> ready l pred e e' -> new_ok l v [] e' /\ old_ok l v [] (arg_names ++ avail l) e e'.
Proof.
  destruct pred as [l0|]; [|done]. intros Hl (b0 & Hb0 & <- & Ht & Hn & Ho). split.
  - intros r Hr. destruct (Hn r) as (ρ & H1 & H2 & H3); [by eapply given_edge|]. exists ρ. split; [done|]. split; [|done].
    destruct Hr as [Hr|[Hr|(l1 & (b1 & y & Hb1 & <- & Hy & Ha) & H)]]; [|by apply not_elem_of_nil in Hr|].
    + destruct (Hargs r Hr) as [_ E]. rewrite E in H1. injection H1 as <-. by left.
    + destruct (find_rebuilt_block b1 Hb1) as (b1' & _ & Hr1). apply Hhas in H. destruct (br_roots _ _ Hr1 r H) as (ρ' & K1 & K2). rewrite K1 in H1. injection H1 as ->.
      eapply (rooted_later b1); [done|done| |done]. by exists b1, y.
  - intros x Hx. destruct (Ho x) as (ρ & H1 & H2 & H3).
    { apply elem_of_app in Hx as [Hx|Hx]; [apply elem_of_app; by left|]. apply elem_of_app. right. by eapply (sc_edge _ _ Hs). }
    exists ρ. split; [done|]. split; [|done]. apply elem_of_app in Hx as [Hx|Hx].
    + destruct (Hargs x Hx) as [E _]. rewrite E in H1. injection H1 as <-. by left.
    + apply list_elem_of_fmap in Hl as (b & -> & Hb). destruct (sc_defined _ _ Hs b x Hb Hx) as (b1 & Hb1 & Hx1). destruct (find_rebuilt_block b1 Hb1) as (b1' & _ & Hr1).
      destruct (br_map _ _ Hr1 x Hx1) as (ρ' & K1 & K2). rewrite K1 in H1. injection H1 as ->. eapply (rooted_later b1); [done|by apply block_label| |done]. by exists b1, x.
Qed.

(** *** Entering a block *)

Lemma new_ok_permute B P P' e' : (forall r, r ∈ P <-> r ∈ P') -> new_ok B v P e' -> new_ok B v P' e'.
Proof.
  intros HP H r Hr. assert (Hback : given B v P r) by (eapply given_more; [apply view_grows_refl|intros x Hx; by apply HP|exact Hr]).
  destruct (H r Hback) as (ρ & H1 & H2 & H3). exists ρ. split; [done|]. split; [|done]. eapply rooted_more; [apply view_grows_refl|intros x Hx; by apply HP|exact H2].
Qed.
Lemma old_ok_permute B P P' A A' e e' : (forall r, r ∈ P <-> r ∈ P') -> (forall x, x ∈ A <-> x ∈ A') -> old_ok B v P A e e' -> old_ok B v P' A' e e'.
Proof.
  intros HP HA H x Hx. destruct (H x) as (ρ & H1 & H2 & H3); [by apply HA|]. exists ρ. split; [done|]. split; [|done]. eapply rooted_more; [apply view_grows_refl|intros y Hy; by apply HP|exact H2].
Qed.
Lemma incoming_found (p p' : Phi) l o : phi_rel p p' -> incoming p l = Some o ->
  exists o', incoming p' l = Some o' /\ usable l v (ends l) o' /\ root v o' = old_root v o /\ is_Some (old_root v o).
Proof.
  intros (_ & _ & H). unfold incoming. induction H as [|inc inc' l1 l2 (H1 & H2 & H3 & H4) _ IH]; [done|]. cbn [List.find]. rewrite H1.
  destruct (String.eqb_spec (snd inc) l) as [<-|]; [|exact IH]. intros [= <-]. exists (fst inc'). by split.
Qed.
Lemma incoming_elem (p : Phi) l o : incoming p l = Some o -> (o, l) ∈ phi_incoming p.
Proof.
  unfold incoming. intros H. destruct (List.find _ _) as [inc|] eqn:E; [|done]. injection H as <-. apply List.find_some in E as [E1 E2]. apply String.eqb_eq in E2. subst l.
  destruct inc. by apply list_elem_of_In.
Qed.
Lemma enter_run b pred e e' ps ps' e1 : b ∈ f_blocks F -> ready (bb_name b) pred e e' -> Forall2 phi_rel ps ps' -> (forall p, p ∈ ps -> p ∈ bb_phis b) ->
  NoDup (map phi_name ps') -> (forall r, r ∈ map phi_name ps' -> ~ given (bb_name b) v [] r) -> NoDup (map phi_name ps) ->
  enter (M := M) e pred ps = Some e1 ->
  exists e1', enter (M := M) e' pred ps' = Some e1' /\ new_ok (bb_name b) v (map phi_name ps') e1' /\
    old_ok (bb_name b) v (map phi_name ps') (arg_names ++ avail (bb_name b) ++ map phi_name ps) e1 e1'.
Proof.
  intros Hb Hready H. destruct (ready_start _ _ _ _ (block_label b Hb) Hready) as [Hn0 Ho0]. revert e1. induction H as [|p p' ps ps' Hp _ IH]; intros e1 Hin Hd Hnew Hd0 E; cbn [enter] in *.
  - injection E as <-. exists e'. split; [done|]. cbn [map]. rewrite app_nil_r. by split.
  - apply bind_Some in E as (l & -> & E). apply bind_Some in E as (o & Eo & E). apply bind_Some in E as (e2 & E2 & E). injection E as <-. cbn [map] in Hd, Hd0.
    apply NoDup_cons in Hd as [Hd1 Hd2]. apply NoDup_cons in Hd0 as [Hd3 Hd4].
    destruct (IH e2) as (e2' & K1 & K2 & K3); [intros q Hq; apply Hin; by right|done|intros r Hr; apply Hnew; cbn [map]; by right|done|exact E2|].
    destruct (incoming_found p p' l o Hp Eo) as (o' & Eo' & Hu & Hroot & Hsome). destruct Hp as (Hp1 & Hp2 & _). cbn [mbind option_bind]. rewrite Eo'. cbn [mbind option_bind]. rewrite K1. cbn [mbind option_bind].
    assert (Ev : eval (M := M) e o = eval (M := M) e' o').
    { destruct Hready as (b0 & Hb0 & <- & _ & Hn & Ho). destruct (sc_phis _ _ Hs b p o (bb_name b0) Hb) as (b1 & Hb1 & E1 & Hsc); [apply Hin; by left|by apply incoming_elem|].
      assert (b1 = b0) as -> by (by apply (same_block F avail Hs)). rewrite (eval_old M arg_names before (bb_name b0) v (ends (bb_name b0)) (arg_names ++ avail (bb_name b0) ++ block_defs b0) e e' o Ho).
      - rewrite (eval_new M arg_names before (bb_name b0) v (ends (bb_name b0)) e' o' Hn Hu). by rewrite Hroot.
      - intros x t ->. apply (Hsc x t). by left. }
    assert (Hnot : ~ given (bb_name b) v (map phi_name ps') (phi_name p')).
    { intros [Hg|[Hg|Hg]]; [|done|]; (apply (Hnew (phi_name p')); [cbn [map]; by left|]); [by left|by right; right]. }
    assert (Hx : phi_name p ∉ arg_names ++ avail (bb_name b) ++ map phi_name ps).
    { rewrite app_assoc. intros [Hx|Hx]%elem_of_app; [|done]. eapply (available_not_own F avail Hs b); [done|exact Hx|]. apply elem_of_app. left. apply list_elem_of_fmap_2. apply Hin. by left. }
    rewrite Ev. eexists. split; [reflexivity|]. split.
    + eapply (new_ok_permute _ (map phi_name ps' ++ [phi_name p'])); [intros r; cbn [map]; set_solver|]. apply (new_ok_insert M _ _ _ _ _ _ _ _ (inl (phi_name p'))); [done..|]. by left.
    + eapply (old_ok_permute _ (map phi_name ps' ++ [phi_name p']) _ ((arg_names ++ avail (bb_name b) ++ map phi_name ps) ++ [phi_name p])); [intros r; cbn [map]; set_solver|intros r; cbn [map]; set_solver|].
      apply (old_ok_insert M _ _ _ _ _ _ _ _ _ _ (inl (phi_name p'))); [|exact Hp2|right; left; apply elem_of_app; right; by left| |done].
      * eapply old_ok_more; [|by apply old_ok_written]. intros r Hr. apply elem_of_app. by left.
      * cbn [value_at]. unfold values. by rewrite lookup_insert_eq.
Qed.

(** *** Running the function *)

Lemma leave_run b A t t' e e' : term_rel (bb_name b) t t' -> new_ok (bb_name b) v (ends (bb_name b)) e' -> old_ok (bb_name b) v (ends (bb_name b)) A e e' ->
  in_scope A (term_operands t) -> leave (M := M) e' t' = leave (M := M) e t.
Proof.
  intros Ht Hn Ho Hsc. assert (Hev : forall o o', In o (term_operands t) -> usable (bb_name b) v (ends (bb_name b)) o' -> root v o' = old_root v o -> eval (M := M) e' o' = eval (M := M) e o).
  { intros o o' Hin Hu E. rewrite (eval_new M arg_names before (bb_name b) v (ends (bb_name b)) e' o' Hn Hu), E. symmetry.
    eapply eval_old; [exact Ho|]. intros x tx ->. apply (Hsc x tx). by apply list_elem_of_In. }
  destruct t, t'; try done; cbn [term_rel leave term_operands In] in *.
  - destruct Ht as (-> & -> & Hu & E). rewrite (Hev c c0); [done|by left|done..].
  - by rewrite Ht.
  - destruct Ht as (Hu & E). rewrite (Hev v0 v1); [done|by left|done..].
Qed.
Lemma leave_target (e : gmap string V) t l : leave (M := M) e t = Some (Goto l) -> l ∈ targets t.
Proof. destruct t; try done; cbn [leave targets]; intros [= <-]; [destruct (holds _); set_solver|by left]. Qed.

Context (calls calls' : string -> list V -> W -> option (option V * W)) (Hcalls : forall g args w r, calls g args w = Some r -> calls' g args w = Some r).
Lemma block_run b b' pred e e' m w e1 m1 w1 e2 : b ∈ f_blocks F -> block_rel b b' -> ready (bb_name b) pred e e' -> enter (M := M) e pred (bb_phis b) = Some e1 ->
  exec_insts (M := with_calls M calls) ∅ (bb_insts b) (e1, m, w) = Some (e2, m1, w1) ->
  exists e1' e2', enter (M := M) e' pred (bb_phis b') = Some e1' /\ exec_insts (M := with_calls M calls') ∅ (bb_insts b') (e1', m, w) = Some (e2', m1, w1) /\
    new_ok (bb_name b) v (ends (bb_name b)) e2' /\ old_ok (bb_name b) v (ends (bb_name b)) (arg_names ++ avail (bb_name b) ++ block_defs b) e2 e2'.
Proof.
  intros Hb Hr Hready Ee Ei. pose proof (block_defs_NoDup F avail Hs b Hb) as Hd. unfold block_defs in Hd. apply NoDup_app in Hd as (Hd1 & Hd2 & Hd3).
  pose proof (br_nodup _ _ Hr) as Hn. rewrite (br_ends _ _ Hr) in Hn. unfold block_defs in Hn. pose proof Hn as (Hn1 & Hn2 & Hn3)%NoDup_app.
  destruct (enter_run b pred e e' (bb_phis b) (bb_phis b') e1 Hb Hready (br_phis _ _ Hr)) as (e1' & E1 & K1 & K2); [done|done| |done|exact Ee|].
  { intros r Hr' [Hg|[Hg|(l & Hl & Hg)]]; [|by apply not_elem_of_nil in Hg|].
    - apply (br_fresh _ _ Hr r); [|done]. rewrite (br_ends _ _ Hr). apply elem_of_app. by left.
    - apply Hhas in Hg. destruct (br_fresh _ _ Hr r) as [_ Hf]; [rewrite (br_ends _ _ Hr); apply elem_of_app; by left|]. apply Hf in Hg as ->.
      eapply (before_irrefl F avail Hs); [|exact Hl]. by apply block_label. }
  destruct (matches_run M arg_names before (bb_name b) calls calls' Hcalls v (map phi_name (bb_phis b')) (bb_insts b) (bb_insts b') (br_insts _ _ Hr) _ e1 e1' m w e2 m1 w1 Ei K2 K1) as (e2' & E2 & K3 & K4).
  - split; [exact Hn|]. intros r Hr'. destruct (br_fresh _ _ Hr r) as [Hf1 Hf2]; [rewrite (br_ends _ _ Hr); apply elem_of_app; by right|]. split; [done|].
    intros l Hl Hg. apply Hhas, Hf2 in Hg as ->. eapply (before_irrefl F avail Hs); [|exact Hl]. by apply block_label.
  - by apply (sc_insts _ _ Hs).
  - split; [done|]. intros x Hx. rewrite app_assoc. intros [HA|Hp]%elem_of_app.
    + eapply (available_not_own F avail Hs b); [done|exact HA|]. apply elem_of_app. by right.
    + by apply (Hd2 x).
  - exists e1', e2'. split; [exact E1|]. split; [exact E2|]. rewrite (br_ends _ _ Hr). split; [exact K4|]. unfold block_defs at 2. rewrite !app_assoc in *. exact K3.
Qed.
Lemma run_rebuilt fuel : forall l pred e e' m w r, l ∈ map bb_name (f_blocks F) -> ready l pred e e' ->
  run_blocks (M := with_calls M calls) ∅ fuel (f_blocks F) l pred (e, m, w) = Some r ->
  run_blocks (M := with_calls M calls') ∅ fuel bs' l pred (e', m, w) = Some r.
Proof.
  induction fuel as [|fuel IH]; intros l pred e e' m w r Hl Hready; [done|]. cbn [run_blocks]. intros (b & Eb & H)%bind_Some. apply (find_bb_spec F) in Eb as [Hb <-].
  destruct (find_rebuilt_block b Hb) as (b' & -> & Hr). cbn [mbind option_bind]. apply bind_Some in H as (e1 & Ee & H). apply bind_Some in H as ([[e2 m2] w2] & Ei & H). apply bind_Some in H as (x & Ex & H).
  destruct (block_run b b' pred e e' m w e1 m2 w2 e2 Hb Hr Hready Ee Ei) as (e1' & e2' & E1 & E2 & Hn & Ho).
  rewrite (E1 : enter (M := with_calls M calls') e' pred (bb_phis b') = Some e1'). cbn [mbind option_bind]. rewrite E2. cbn [mbind option_bind].
  pose proof (leave_run b _ _ _ e2 e2' (br_term _ _ Hr) Hn Ho (sc_term _ _ Hs b Hb)) as El.
  rewrite (El : leave (M := with_calls M calls') e2' (bb_term b') = leave (M := with_calls M calls) e2 (bb_term b)). rewrite Ex. cbn [mbind option_bind].
  destruct x as [l'|]; [|exact H]. pose proof (leave_target e2 _ _ Ex) as Ht. eapply IH; [|exists b; split; [done|]; split; [done|]; split; [exact Ht|by split]|exact H].
  by eapply (sc_targets _ _ Hs b).
Qed.
(** Where the arguments are the values both sides start with. *)
Lemma ready_entry b bs e : f_blocks F = b :: bs -> ready (bb_name b) None e e.
Proof.
  intros Eb. assert (Hgiven : forall r, given (bb_name b) v [] r -> r ∈ arg_names).
  { intros r [Hr|[Hr|(l & (b0 & x & _ & _ & _ & Hx) & _)]]; [done|by apply not_elem_of_nil in Hr|]. rewrite (sc_entry _ _ Hs b bs Eb) in Hx. by apply not_elem_of_nil in Hx. }
  split.
  - intros r Hr%Hgiven. destruct (Hargs r Hr) as [_ E]. exists (inl r). split; [exact E|]. split; [by left|done].
  - intros x Hx. rewrite (sc_entry _ _ Hs b bs Eb), app_nil_r in Hx. destruct (Hargs x Hx) as [E _]. exists (inl x). split; [exact E|]. split; [by left|done].
Qed.
End function.
