(* ===== verification/RebuildInv.v ===== *)
(** * RebuildInv: what ClamBCRebuild keeps true while it builds a function

    [Inv] relates the state of the pass to the function read: blocks that are
    finished match, what is mapped is typed and in scope, casts share the root of
    what they cast. Every step of the pass keeps it, and none fails. *)
From S2P Require Import Prelude IR Semantics Integers Dominance SmallPasses Dependents PreserveABIs Typing Rebuild RebuildSpec.
Local Open Scope string_scope.
Local Open Scope list_scope.
Local Open Scope Z_scope.
Local Open Scope outcome_scope.

(** ** The blocks of the new function *)

Definition block_at (st : rebuilding) (l : string) : option building := snd <$> List.find (fun p : string * building => String.eqb (fst p) l) (newBlocks st).
Definition names_at (st : rebuilding) (l : string) : list string := match block_at st l with Some nb => building_names nb | None => [] end.
Definition term_at (st : rebuilding) (l : string) : option Term := block_at st l ≫= nb_term.
Definition labels (st : rebuilding) : list string := map fst (newBlocks st).

Lemma block_at_map_new l f st l' : block_at (map_new l f st) l' = if String.eqb l l' then f <$> block_at st l else block_at st l'.
Proof.
  unfold block_at, map_new. cbn [newBlocks]. induction (newBlocks st) as [|[k nb] bs IH]; [by destruct (String.eqb l l')|]. cbn [map List.find fst snd].
  destruct (String.eqb_spec k l) as [->|Hk]; cbn [fst snd].
  - destruct (String.eqb_spec l l') as [->|Hl]; cbn [fmap option_fmap option_map snd]; [done|]. exact IH.
  - destruct (String.eqb_spec l l') as [->|Hl]; [destruct (String.eqb_spec k l') as [->|]; [done|exact IH]|]. destruct (String.eqb_spec k l'); [done|exact IH].
Qed.
Lemma labels_map_new l f st : labels (map_new l f st) = labels st.
Proof. unfold labels, map_new. cbn [newBlocks]. rewrite map_map. apply map_ext. intros [k nb]. by destruct (String.eqb _ _). Qed.
Lemma block_at_elem st l nb : block_at st l = Some nb -> (l, nb) ∈ newBlocks st.
Proof.
  unfold block_at. intros H. destruct (List.find _ _) as [[k nb']|] eqn:E; [|done]. injection H as <-. apply List.find_some in E as [E1 E2]. apply String.eqb_eq in E2.
  cbn [fst] in E2. subst k. by apply list_elem_of_In.
Qed.
Lemma elem_block_at st l nb : NoDup (labels st) -> (l, nb) ∈ newBlocks st -> block_at st l = Some nb.
Proof.
  unfold labels, block_at. induction (newBlocks st) as [|[k nb'] bs IH]; intros Hn H; [by apply not_elem_of_nil in H|]. cbn [map List.find fst] in *. apply NoDup_cons in Hn as [Hk Hn].
  apply elem_of_cons in H as [[= -> ->]|H]; [by rewrite String.eqb_refl|]. destruct (String.eqb_spec k l) as [->|]; [|by apply IH].
  exfalso. apply Hk. by apply (list_elem_of_fmap_2 fst bs (l, nb)).
Qed.
Lemma block_at_label st l : l ∈ labels st -> exists nb, block_at st l = Some nb.
Proof.
  unfold labels, block_at. intros H. destruct (List.find _ _) as [p|] eqn:E; [by eexists|]. exfalso. apply list_elem_of_fmap in H as (p & -> & Hp). apply list_elem_of_In in Hp.
  eapply List.find_none in E; [|exact Hp]. by rewrite String.eqb_refl in E.
Qed.
(** One block gets more names. *)
Lemma all_names_map_new l f st nb extra : NoDup (labels st) -> block_at st l = Some nb -> building_names (f nb) ≡ₚ extra ++ building_names nb ->
  flat_map (fun p : string * building => building_names (snd p)) (newBlocks (map_new l f st)) ≡ₚ extra ++ flat_map (fun p : string * building => building_names (snd p)) (newBlocks st).
Proof.
  unfold labels, block_at, map_new. cbn [newBlocks]. induction (newBlocks st) as [|[k nb'] bs IH]; intros Hn H Hf; [done|]. cbn [map List.find fst snd flat_map] in *. apply NoDup_cons in Hn as [Hk Hn].
  destruct (String.eqb_spec k l) as [->|Hkl]; cbn [fst snd].
  - cbn in H. injection H as ->. rewrite Hf, <- app_assoc. do 2 apply Permutation_app_head. enough (map (fun p : string * building => if String.eqb (fst p) l then (fst p, f (snd p)) else p) bs = bs) as -> by done.
    clear -Hk. induction bs as [|[k' b'] bs IH]; [done|]. cbn [map fst snd] in *. apply not_elem_of_cons in Hk as [H1 H2]. destruct (String.eqb_spec k' l); [congruence|]. by rewrite IH.
  - rewrite (IH Hn H Hf). rewrite !app_assoc. apply Permutation_app_tail. apply Permutation_app_comm.
Qed.
Lemma names_at_elem st l r : r ∈ names_at st l -> exists nb, (l, nb) ∈ newBlocks st /\ r ∈ building_names nb.
Proof. unfold names_at. destruct (block_at st l) as [nb|] eqn:E; [|by intros H%not_elem_of_nil]. intros H. exists nb. split; [by apply block_at_elem|done]. Qed.
Lemma new_names_at F st l r : r ∈ names_at st l -> r ∈ names_in_use F st.
Proof. intros (nb & H1 & H2)%names_at_elem. unfold names_in_use. apply elem_of_app. right. apply elem_of_flat_map. by exists (l, nb). Qed.
(** Every name is in one place. *)
Lemma name_in_one F st l l' r : NoDup (labels st) -> NoDup (names_in_use F st) -> r ∈ names_at st l -> r ∈ names_at st l' -> l = l'.
Proof.
  intros Hl Hn (nb & H1 & H2)%names_at_elem (nb' & H3 & H4)%names_at_elem. unfold names_in_use in Hn. apply NoDup_app in Hn as (_ & _ & Hn).
  pose proof (NoDup_flat_map_eq (fun p : string * building => building_names (snd p)) _ (l, nb) (l', nb') r Hn H1 H3 H2 H4) as E. by injection E.
Qed.
Lemma name_not_arg F st l r : NoDup (names_in_use F st) -> r ∈ names_at st l -> r ∉ map fst (f_args F).
Proof.
  intros Hn (nb & H1 & H2)%names_at_elem Ha. unfold names_in_use in Hn. apply NoDup_app in Hn as (_ & Hn & _). apply (Hn r Ha). apply elem_of_flat_map. by exists (l, nb).
Qed.
Lemma home_spec F st r : NoDup (labels st) -> NoDup (names_in_use F st) -> match home r st with
  | Some (l, nb) => block_at st l = Some nb /\ r ∈ building_names nb /\ r ∈ names_at st l
  | None => forall l, r ∉ names_at st l end.
Proof.
  intros Hl Hn. unfold home. destruct (List.find _ _) as [[l nb]|] eqn:E.
  - apply List.find_some in E as [E1 E2]. apply bool_decide_eq_true in E2. apply list_elem_of_In in E1. pose proof (elem_block_at st l nb Hl E1) as Hb. split; [done|]. split; [done|].
    unfold names_at. by rewrite Hb.
  - intros l (nb & H1 & H2)%names_at_elem. apply list_elem_of_In in H1. eapply List.find_none in E; [|exact H1]. apply bool_decide_eq_false in E. by apply E.
Qed.
Definition inst_at (st : rebuilding) (l : string) (c : Inst) : Prop := exists nb, block_at st l = Some nb /\ c ∈ nb_insts nb.
Lemma new_inst_spec st x c : NoDup (labels st) -> new_inst x st = Some c -> i_name c = x /\ has_result c = true /\ exists l, inst_at st l c /\ x ∈ names_at st l.
Proof.
  unfold new_inst. intros Hl H. apply List.find_some in H as [H1 H2]. apply andb_prop in H2 as [H2 H3]. apply String.eqb_eq in H3. split; [done|]. split; [done|].
  apply in_flat_map in H1 as ([l nb] & H4 & H5). cbn [snd] in H5. apply list_elem_of_In in H4, H5. pose proof (elem_block_at st l nb Hl H4) as Hb. exists l. split; [by exists nb|].
  unfold names_at. rewrite Hb. unfold building_names. apply elem_of_app. right. unfold results. apply list_elem_of_In, in_map_iff. exists c. split; [done|]. apply filter_In. by rewrite <- list_elem_of_In.
Qed.

(** An instruction is put somewhere into a block. *)
Record put (st st' : rebuilding) (l : string) (nb : building) (n1 : list Inst) (c : Inst) (n2 : list Inst) : Prop := {
  pt_block : block_at st l = Some nb;
  pt_insts : nb_insts nb = n1 ++ n2;
  pt_vmap : VMap st' = VMap st;
  pt_casts : CastMap st' = CastMap st;
  pt_visited : visitedBB st' = visitedBB st;
  pt_labels : labels st' = labels st;
  pt_at l' : block_at st' l' = if String.eqb l l' then Some (set_insts (n1 ++ c :: n2) nb) else block_at st l';
  pt_names F : names_in_use F st' ≡ₚ results [c] ++ names_in_use F st
}.
Lemma results_app l1 l2 : results (l1 ++ l2) = results l1 ++ results l2.
Proof. unfold results. by rewrite List.filter_app, map_app. Qed.
Lemma map_new_put st l nb n1 c n2 f : NoDup (labels st) -> block_at st l = Some nb -> nb_insts nb = n1 ++ n2 -> f nb = set_insts (n1 ++ c :: n2) nb ->
  put st (map_new l f st) l nb n1 c n2.
Proof.
  intros Hn Hb Hi Hf. split; try done.
  - apply labels_map_new.
  - intros l'. rewrite block_at_map_new, Hb. destruct (String.eqb l l'); [|done]. cbn [fmap option_fmap option_map]. by rewrite Hf.
  - intros F. unfold names_in_use. rewrite (all_names_map_new l f st nb (results [c])); [|done|done|].
    + rewrite !app_assoc. apply Permutation_app_tail, Permutation_app_comm.
    + rewrite Hf. unfold building_names. cbn [set_insts nb_phis nb_insts]. rewrite Hi, (results_app n1 n2). change (c :: n2) with ([c] ++ n2). rewrite !results_app.
      rewrite (Permutation_app_comm (results n1)), !app_assoc. rewrite <- !app_assoc. rewrite (Permutation_app_swap_app (map phi_name (nb_phis nb)) (results [c])).
      apply Permutation_app_head, Permutation_app_head. rewrite Permutation_app_comm. done.
Qed.
Lemma put_names st st' l nb n1 c n2 : put st st' l nb n1 c n2 -> forall l' r, r ∈ names_at st' l' <-> r ∈ names_at st l' \/ l' = l /\ r ∈ results [c].
Proof.
  intros [H1 H2 _ _ _ _ H3 _] l' r. unfold names_at. rewrite H3. destruct (String.eqb_spec l l') as [<-|Hne]; [|naive_solver]. rewrite H1. unfold building_names.
  cbn [set_insts nb_phis nb_insts]. rewrite H2. change (c :: n2) with ([c] ++ n2). rewrite !results_app, !elem_of_app. tauto.
Qed.
Lemma put_insts st st' l nb n1 c n2 : put st st' l nb n1 c n2 -> forall l' d, inst_at st' l' d -> inst_at st l' d \/ l' = l /\ d = c.
Proof.
  intros [H1 H2 _ _ _ _ H3 _] l' d (nb' & Hb & Hd). rewrite H3 in Hb. destruct (String.eqb_spec l l') as [<-|Hne]; [|left; by exists nb'].
  injection Hb as <-. cbn [set_insts nb_insts] in Hd. rewrite elem_of_app, elem_of_cons in Hd. destruct Hd as [Hd|[->|Hd]]; [left|by right|left].
  - exists nb. split; [done|]. rewrite H2. apply elem_of_app. by left.
  - exists nb. split; [done|]. rewrite H2. apply elem_of_app. by right.
Qed.
Lemma put_term st st' l nb n1 c n2 : put st st' l nb n1 c n2 -> forall l', term_at st' l' = term_at st l'.
Proof. intros [H1 _ _ _ _ _ H3 _] l'. unfold term_at. rewrite H3. destruct (String.eqb_spec l l') as [<-|Hne]; [|done]. by rewrite H1. Qed.

(** The names of a block with their types. *)
Definition building_typed (b : building) : list (string * ty) := map phi_def (nb_phis b) ++ flat_map inst_defs (nb_insts b).
Lemma building_typed_names b : map fst (building_typed b) = building_names b.
Proof.
  unfold building_typed, building_names. rewrite map_app, map_map. f_equal. induction (nb_insts b) as [|i l IH]; [done|]. cbn [flat_map]. rewrite map_app, IH, (results_cons i l).
  f_equal. unfold inst_defs, results. cbn [List.filter]. by destruct (has_result i).
Qed.

(** ** The invariant *)

Definition simple_ty (t : ty) : bool := is_integer_ty t || is_pointer t.
Definition empty_building : building := {| nb_phis := []; nb_insts := []; nb_term := None |}.

Section invariant.
Context {V W : Type} (M : Meaning V W) (type_alloc_size : ty -> Z) (value_name : list string -> string -> string) (folded : Inst -> option Value) (strip_constant : Value -> Value).
Context `{!BytePointers M type_alloc_size folded strip_constant} (Hvalue_name : forall used w, value_name used w ∉ used).
Context (F : Function_) (avail : string -> list string) (Hs : scoped F avail).
Abbreviation arg_names := (map fst (f_args F)).
Abbreviation before := (before F avail).
Abbreviation roots := (gmap string (string + V)).

Definition root_of (G : roots) (u : Value) : option (string + V) := match u with Local r _ => G !! r | c => Some (inr (constant_meaning c)) end.
Definition look (st : rebuilding) (G : roots) : view := {| vw_old x := VMap st !! x ≫= root_of G; vw_has l r := r ∈ names_at st l; vw_root := G |}.
Abbreviation given_at st G l := (given arg_names before l (look st G) (names_at st l)).
Abbreviation usable_at st G l := (usable arg_names before l (look st G) (names_at st l)).
Abbreviation rooted_at st G l := (rooted arg_names before l (look st G) (names_at st l)).
Lemma root_look st G u : root M (look st G) u = root_of G u.
Proof. by destruct u. Qed.

(** A new value is used at the type it is defined with. *)
Definition typed_in (st : rebuilding) (r : string) (t : ty) : Prop :=
  (exists t0, (r, t0) ∈ f_args F /\ t = rebuildType type_alloc_size false t0) \/ exists l nb, block_at st l = Some nb /\ (r, t) ∈ building_typed nb.
Definition typed_value (st : rebuilding) (u : Value) : Prop := match u with Local r t => typed_in st r t | _ => True end.
Definition phi_start (st : rebuilding) (G : roots) (p p' : Phi) : Prop :=
  phi_type p' = phi_type p /\ VMap st !! phi_name p = Some (Local (phi_name p') (phi_type p)) /\ G !! phi_name p' = Some (inl (phi_name p')).
(** The first instructions of a block have been visited. *)
Definition partial (st : rebuilding) (G : roots) (b : Block) (olds : list Inst) : Prop :=
  exists nb, block_at st (bb_name b) = Some nb /\ Forall2 (phi_start st G) (bb_phis b) (nb_phis nb) /\
    matches M arg_names before (bb_name b) (look st G) (map phi_name (nb_phis nb)) olds (nb_insts nb).
Definition open (st : rebuilding) (l : string) : Prop := l ∈ visitedBB st /\ term_at st l = None.
(** A new instruction that only casts has the root of what it casts. *)
Definition source_ok (st : rebuilding) (G : roots) (l : string) (c : Inst) (u : Value) : Prop :=
  usable_at st G l u /\ root_of G u = G !! i_name c /\ is_pointer (type_of u) = true /\ typed_value st u.
Definition cast_ok (st : rebuilding) (G : roots) (l : string) (c : Inst) : Prop :=
  match i_kind c with
  | Cast BitCast u => source_ok st G l c u
  | GetElementPtr _ u idx => forallb zero_index idx = true -> source_ok st G l c u
  | _ => True
  end.
Record Inv (st : rebuilding) (G : roots) : Prop := {
  iv_labels : labels st = map bb_name (f_blocks F);
  iv_names : NoDup (names_in_use F st);
  iv_unvisited b : b ∈ f_blocks F -> bb_name b ∉ visitedBB st -> block_at st (bb_name b) = Some empty_building;
  iv_complete b t' : b ∈ f_blocks F -> term_at st (bb_name b) = Some t' ->
    bb_name b ∈ visitedBB st /\ partial st G b (bb_insts b) /\ term_rel M F avail (look st G) (names_at st) (bb_name b) (bb_term b) t';
  iv_args a t : (a, t) ∈ f_args F -> VMap st !! a = Some (Local a (rebuildType type_alloc_size false t)) /\ G !! a = Some (inl a);
  iv_roots l r : r ∈ names_at st l -> exists ρ, G !! r = Some ρ /\ rooted_at st G l ρ;
  iv_map x u : VMap st !! x = Some u -> x ∈ arg_names \/ exists b t, b ∈ f_blocks F /\ (x, t) ∈ typed_block_defs b /\ usable_at st G (bb_name b) u /\ alike t (type_of u) /\ typed_value st u;
  iv_casts v t r : (v, t, r) ∈ CastMap st -> exists x tx y l, v = Local x tx /\ r = Local y t /\ x ∈ names_at st l /\ y ∈ names_at st l /\ G !! y = G !! x /\ typed_in st y t;
  iv_insts l c : inst_at st l c -> has_result c = true -> cast_ok st G l c;
  iv_roots_new r ρ : G !! r = Some ρ -> r ∈ names_in_use F st;
  iv_visited l : l ∈ visitedBB st -> l ∈ map bb_name (f_blocks F);
  iv_mapped b x : b ∈ f_blocks F -> x ∈ block_defs b -> is_Some (VMap st !! x) -> bb_name b ∈ visitedBB st
}.
(** What a step that does not concern the blocks outside [keep] leaves. *)
Record ext (keep : string -> Prop) (st : rebuilding) (G : roots) (st' : rebuilding) (G' : roots) : Prop := {
  ex_vmap : VMap st ⊆ VMap st';
  ex_root : G ⊆ G';
  ex_names l r : r ∈ names_at st l -> r ∈ names_at st' l;
  ex_types r t : typed_in st r t -> typed_in st' r t;
  ex_visited l : l ∈ visitedBB st -> l ∈ visitedBB st';
  ex_open l : open st' l <-> open st l;
  ex_partial b olds : b ∈ f_blocks F -> bb_name b ∈ visitedBB st -> keep (bb_name b) -> partial st G b olds -> partial st' G' b olds;
  ex_fresh x : is_Some (VMap st' !! x) -> is_Some (VMap st !! x) \/ exists b, b ∈ f_blocks F /\ x ∈ block_defs b /\ (bb_name b ∉ visitedBB st \/ ~ keep (bb_name b))
}.
Definition all_blocks (l : string) : Prop := True.

Lemma look_grows st G st' G' : VMap st ⊆ VMap st' -> G ⊆ G' -> (forall l r, r ∈ names_at st l -> r ∈ names_at st' l) -> grows (look st G) (look st' G').
Proof.
  intros Hv HG Hn. constructor; [|exact Hn|exact HG]. intros x ρ. cbn [look vw_old]. intros (u & Hu & Hr)%bind_Some. apply bind_Some. exists u.
  split; [by eapply lookup_weaken|]. destruct u; try exact Hr. cbn [root_of] in *. by eapply lookup_weaken.
Qed.
Lemma ext_grows keep st G st' G' : ext keep st G st' G' -> grows (look st G) (look st' G').
Proof. intros [H1 H2 H3 _ _ _ _ _]. by apply look_grows. Qed.
Lemma ext_refl keep st G : ext keep st G st G.
Proof. constructor; try done. by left. Qed.
Lemma ext_trans keep st1 G1 st2 G2 st3 G3 : ext keep st1 G1 st2 G2 -> ext keep st2 G2 st3 G3 -> ext keep st1 G1 st3 G3.
Proof.
  intros [A1 A2 A3 AT A4 A5 A6 A7] [B1 B2 B3 BT B4 B5 B6 B7]. constructor; [by etrans|by etrans|by intros l r H; apply B3, A3|by intros r t H; apply BT, AT|by intros l H; apply B4, A4|intros l; by rewrite B5|..].
  - intros b olds Hb Hv Hk Hp. apply B6; [done|by apply A4|done|]. by apply A6.
  - intros x Hx. destruct (B7 x Hx) as [Hx2|(b & Hb & Hxb & Hc)]; [by apply A7|]. right. exists b. split; [done|]. split; [done|]. destruct Hc as [Hc|Hc]; [left|by right]. intros Hv. by apply Hc, A4.
Qed.
Lemma ext_weaken (keep keep' : string -> Prop) st G st' G' : (forall l, keep' l -> keep l) -> ext keep st G st' G' -> ext keep' st G st' G'.
Proof.
  intros Hk [A1 A2 A3 AT A4 A5 A6 A7]. constructor; try done.
  - intros b olds Hb Hv Hk' Hp. by apply A6; [..|apply Hk|].
  - intros x Hx. destruct (A7 x Hx) as [Hx2|(b & Hb & Hxb & Hc)]; [by left|]. right. exists b. split; [done|]. split; [done|]. destruct Hc as [Hc|Hc]; [by left|right]. intros Hk'. by apply Hc, Hk.
Qed.
Lemma usable_ext keep st G st' G' l u : ext keep st G st' G' -> usable_at st G l u -> usable_at st' G' l u.
Proof. intros H Hu. eapply usable_more; [by eapply ext_grows|apply (ex_names _ _ _ _ _ H)|exact Hu]. Qed.
Lemma typed_ext keep st G st' G' u : ext keep st G st' G' -> typed_value st u -> typed_value st' u.
Proof. intros H. destruct u; try done. apply (ex_types _ _ _ _ _ H). Qed.
Lemma root_of_ext keep st G st' G' u ρ : ext keep st G st' G' -> root_of G u = Some ρ -> root_of G' u = Some ρ.
Proof. intros H Hr. destruct u; try exact Hr. cbn [root_of] in *. eapply lookup_weaken; [exact Hr|apply (ex_root _ _ _ _ _ H)]. Qed.
Lemma given_names st G l r : given_at st G l r <-> r ∈ arg_names \/ r ∈ names_at st l \/ exists l0, before l0 l /\ r ∈ names_at st l0.
Proof. done. Qed.
Lemma given_here st G l P r : (forall x, x ∈ P -> x ∈ names_at st l) -> given arg_names before l (look st G) P r -> given_at st G l r.
Proof. intros HP. apply given_more; [apply view_grows_refl|exact HP]. Qed.

Section facts.
Context (st : rebuilding) (G : roots) (H : Inv st G).
Lemma inv_labels : NoDup (labels st).
Proof. rewrite (iv_labels _ _ H). apply (sc_blocks _ _ Hs). Qed.
Lemma inv_block b : b ∈ f_blocks F -> exists nb, block_at st (bb_name b) = Some nb.
Proof. intros Hb. apply block_at_label. rewrite (iv_labels _ _ H). by apply list_elem_of_fmap_2. Qed.
Lemma before_block l l' : before l l' -> exists b, b ∈ f_blocks F /\ l = bb_name b.
Proof. intros (b & x & Hb & <- & _). by exists b. Qed.
Lemma names_label l r : r ∈ names_at st l -> l ∈ map bb_name (f_blocks F).
Proof.
  intros (nb & Hn & _)%names_at_elem. rewrite <- (iv_labels _ _ H). unfold labels. by apply (list_elem_of_fmap_2 fst _ (l, nb)).
Qed.
(** What is given at the end of a block is given at the blocks it dominates. *)
Lemma given_dominated b l r : b ∈ f_blocks F -> l ∈ map bb_name (f_blocks F) -> before (bb_name b) l -> given_at st G (bb_name b) r -> given_at st G l r.
Proof.
  intros Hb Hl Hbl [Hr|[Hr|(l0 & H1 & H2)]]; [by left|right; right; by exists (bb_name b)|]. right. right. exists l0. split; [|done]. by eapply before_trans.
Qed.
Lemma given_rooted l r : l ∈ map bb_name (f_blocks F) -> given_at st G l r -> exists ρ, G !! r = Some ρ /\ rooted_at st G l ρ.
Proof.
  intros Hl [Hr|[Hr|(l0 & Hl0 & Hr)]].
  - apply list_elem_of_fmap in Hr as ([a t] & -> & Ha). destruct (iv_args _ _ H a t Ha) as [_ E]. exists (inl a). split; [exact E|]. left. by apply (list_elem_of_fmap_2 fst _ (a, t)).
  - by apply (iv_roots _ _ H).
  - destruct (iv_roots _ _ H l0 r Hr) as (ρ & E & Hρ). exists ρ. split; [done|]. destruct (before_block _ _ Hl0) as (b & Hb & ->). destruct ρ; [|done]. by eapply given_dominated.
Qed.
Lemma usable_root l u : l ∈ map bb_name (f_blocks F) -> usable_at st G l u -> exists ρ, root_of G u = Some ρ /\ rooted_at st G l ρ.
Proof. intros Hl Hu. destruct u as [r t| | | | | | | | | | | |]; try (by eexists). by apply given_rooted. Qed.
Lemma given_new l r : given_at st G l r -> r ∈ names_in_use F st.
Proof. intros [Hr|[Hr|(l0 & _ & Hr)]]; [apply elem_of_app; by left|exact (new_names_at F st _ _ Hr)..]. Qed.
End facts.

Lemma term_rel_grows st G st' G' b t' : Inv st G -> b ∈ f_blocks F -> grows (look st G) (look st' G') -> (forall l r, r ∈ names_at st l -> r ∈ names_at st' l) ->
  term_rel M F avail (look st G) (names_at st) (bb_name b) (bb_term b) t' -> term_rel M F avail (look st' G') (names_at st') (bb_name b) (bb_term b) t'.
Proof.
  intros H Hb Hg Hn. unfold term_rel. assert (Hterm : forall o o', usable arg_names before (bb_name b) (look st G) (names_at st (bb_name b)) o' /\ root M (look st G) o' = old_root M (look st G) o ->
      usable arg_names before (bb_name b) (look st' G') (names_at st' (bb_name b)) o' /\ root M (look st' G') o' = old_root M (look st' G') o).
  { intros o o' [Hu Hr]. split; [eapply usable_more; [exact Hg|apply Hn|exact Hu]|]. destruct (usable_root st G H (bb_name b) o') as (r & Er & _); [by apply list_elem_of_fmap_2|done|].
    rewrite <- (root_look st G o') in Er. rewrite (root_grows M _ _ _ _ Hg Er). rewrite Er in Hr. symmetry. eapply old_root_grows; [exact Hg|by symmetry]. }
  destruct (bb_term b), t'; try done; naive_solver.
Qed.

(** *** Instructions are added *)

Definition root_added (G : roots) (c : Inst) (ρ : string + V) : roots := if has_result c then <[i_name c := ρ]> G else G.
Lemma phi_start_more st G st' G' p p' : VMap st ⊆ VMap st' -> G ⊆ G' -> phi_start st G p p' -> phi_start st' G' p p'.
Proof. intros Hv HG (H1 & H2 & H3). split; [done|]. split; by eapply lookup_weaken. Qed.
Lemma same_block_partial st G st' G' b olds : grows (look st G) (look st' G') -> VMap st ⊆ VMap st' -> G ⊆ G' -> block_at st' (bb_name b) = block_at st (bb_name b) ->
  partial st G b olds -> partial st' G' b olds.
Proof.
  intros Hg Hv HG Hb (nb & H1 & H2 & H3). exists nb. split; [by rewrite Hb|]. split.
  - eapply Forall2_impl; [exact H2|]. intros p p'. by apply phi_start_more.
  - eapply matches_more; [exact Hg|exact H3|done].
Qed.
Lemma results_one c r : r ∈ results [c] <-> has_result c = true /\ r = i_name c.
Proof.
  destruct (has_result c) eqn:E; [rewrite (results_result c E)|rewrite (results_none c E)]; rewrite ?elem_of_cons, elem_of_nil; naive_solver.
Qed.
Section adding.
Context (st st' : rebuilding) (G : roots) (b : Block) (nb : building) (n1 : list Inst) (c : Inst) (n2 : list Inst) (ρ : string + V).
Context (H : Inv st G) (Hb : b ∈ f_blocks F) (Hput : put st st' (bb_name b) nb n1 c n2) (Hvis : bb_name b ∈ visitedBB st).
Context (Hnew : has_result c = true -> i_name c ∉ names_in_use F st).
Abbreviation G' := (root_added G c ρ).
Lemma root_added_more : G ⊆ G'.
Proof.
  unfold root_added. destruct (has_result c) eqn:E; [|done]. apply insert_subseteq. destruct (G !! i_name c) as [ρ'|] eqn:Eg; [|done].
  exfalso. apply (Hnew eq_refl). by eapply iv_roots_new.
Qed.
Lemma put_grows : grows (look st G) (look st' G').
Proof. apply look_grows; [by rewrite (pt_vmap _ _ _ _ _ _ _ Hput)|apply root_added_more|]. intros l r Hr. apply (put_names _ _ _ _ _ _ _ Hput). by left. Qed.
Lemma put_types r t : typed_in st r t -> typed_in st' r t.
Proof.
  intros [Ha|(l & nb' & Hl & Hr)]; [by left|right]. exists l. rewrite (pt_at _ _ _ _ _ _ _ Hput). destruct (String.eqb_spec (bb_name b) l) as [<-|]; [|by exists nb'].
  rewrite (pt_block _ _ _ _ _ _ _ Hput) in Hl. injection Hl as <-. eexists. split; [reflexivity|]. unfold building_typed in *. cbn [set_insts nb_phis nb_insts]. rewrite (pt_insts _ _ _ _ _ _ _ Hput) in Hr.
  rewrite flat_map_app in *. cbn [flat_map]. rewrite !elem_of_app in *. tauto.
Qed.
Lemma put_typed_new : has_result c = true -> typed_in st' (i_name c) (i_type c).
Proof.
  intros Hres. right. exists (bb_name b). rewrite (pt_at _ _ _ _ _ _ _ Hput), String.eqb_refl. eexists. split; [reflexivity|]. unfold building_typed. cbn [set_insts nb_phis nb_insts].
  rewrite flat_map_app. cbn [flat_map]. unfold inst_defs at 2. rewrite Hres, !elem_of_app. right. right. left. by left.
Qed.
Lemma put_ext : ext (fun l => l <> bb_name b) st G st' G'.
Proof.
  constructor.
  - by rewrite (pt_vmap _ _ _ _ _ _ _ Hput).
  - apply root_added_more.
  - intros l r Hr. apply (put_names _ _ _ _ _ _ _ Hput). by left.
  - apply put_types.
  - by rewrite (pt_visited _ _ _ _ _ _ _ Hput).
  - intros l. unfold open. by rewrite (pt_visited _ _ _ _ _ _ _ Hput), (put_term _ _ _ _ _ _ _ Hput).
  - intros b' olds _ _ Hne. apply same_block_partial; [apply put_grows|by rewrite (pt_vmap _ _ _ _ _ _ _ Hput)|apply root_added_more|].
    rewrite (pt_at _ _ _ _ _ _ _ Hput). destruct (String.eqb_spec (bb_name b) (bb_name b')); [congruence|done].
  - intros x. rewrite (pt_vmap _ _ _ _ _ _ _ Hput). by left.
Qed.
Lemma put_usable l u : usable_at st G l u -> usable_at st' G' l u.
Proof. apply (usable_ext _ _ _ _ _ _ _ put_ext). Qed.
Lemma put_rooted l r : rooted_at st G l r -> rooted_at st' G' l r.
Proof. intros Hr. destruct r as [y|]; [|done]. by apply (put_usable l (Local y TyVoid)). Qed.
Lemma put_root u r : root_of G u = Some r -> root_of G' u = Some r.
Proof. apply (root_of_ext _ _ _ _ _ _ _ put_ext). Qed.
Lemma put_inv : (open st (bb_name b) \/ forall olds, partial st G b olds -> partial st' G' b olds) ->
  (ρ = inl (i_name c) \/ rooted_at st G (bb_name b) ρ) -> (has_result c = true -> cast_ok st' G' (bb_name b) c) -> Inv st' G'.
Proof.
  intros Hpart Hρ Hcast. assert (Hb0 : Some nb = block_at st (bb_name b)) by (by rewrite (pt_block _ _ _ _ _ _ _ Hput)). constructor.
  - by rewrite (pt_labels _ _ _ _ _ _ _ Hput), (iv_labels _ _ H).
  - rewrite (pt_names _ _ _ _ _ _ _ Hput F). destruct (has_result c) eqn:E; [rewrite (results_result c E)|rewrite (results_none c E)]; [|exact (iv_names _ _ H)].
    apply NoDup_cons. split; [by apply Hnew|exact (iv_names _ _ H)].
  - intros b' Hb' Hv. rewrite (pt_visited _ _ _ _ _ _ _ Hput) in Hv. rewrite (pt_at _ _ _ _ _ _ _ Hput). destruct (String.eqb_spec (bb_name b) (bb_name b')) as [E|]; [congruence|]. by apply (iv_unvisited _ _ H).
  - intros b' t' Hb' Ht. rewrite (put_term _ _ _ _ _ _ _ Hput) in Ht. destruct (iv_complete _ _ H b' t' Hb' Ht) as (K1 & K2 & K3). split; [by rewrite (pt_visited _ _ _ _ _ _ _ Hput)|]. split.
    + destruct (decide (bb_name b' = bb_name b)) as [E|Hne].
      * assert (b' = b) as -> by (by apply (same_block F avail Hs)). destruct Hpart as [[_ Ho]|Hpart]; [congruence|by apply Hpart].
      * apply (ex_partial _ _ _ _ _ put_ext); [done|done|done|done].
    + eapply term_rel_grows; [exact H|done|apply put_grows| |exact K3]. apply (ex_names _ _ _ _ _ put_ext).
  - intros a t Ha. rewrite (pt_vmap _ _ _ _ _ _ _ Hput). destruct (iv_args _ _ H a t Ha) as [K1 K2]. split; [done|]. eapply lookup_weaken; [exact K2|apply root_added_more].
  - intros l r Hr. apply (put_names _ _ _ _ _ _ _ Hput) in Hr as [Hr|[-> [Hres ->]%results_one]].
    + destruct (iv_roots _ _ H l r Hr) as (r' & K1 & K2). exists r'. split; [eapply lookup_weaken; [exact K1|apply root_added_more]|by apply put_rooted].
    + exists ρ. unfold root_added at 1. rewrite Hres, lookup_insert_eq. split; [done|]. destruct Hρ as [->|Hρ]; [|by apply put_rooted].
      right. left. apply (put_names _ _ _ _ _ _ _ Hput). right. split; [done|]. by apply results_one.
  - intros x u Hx. rewrite (pt_vmap _ _ _ _ _ _ _ Hput) in Hx. destruct (iv_map _ _ H x u Hx) as [Hx'|(b' & t & K1 & K2 & K3 & K4)]; [by left|right]. exists b', t. split; [done|]. split; [done|]. split; [by apply put_usable|]. destruct K4 as [K4 K5]. split; [done|]. by eapply typed_ext; [apply put_ext|].
  - intros v t r Hv. rewrite (pt_casts _ _ _ _ _ _ _ Hput) in Hv. destruct (iv_casts _ _ H v t r Hv) as (x & tx & y & l & -> & -> & K1 & K2 & K3 & K4). exists x, tx, y, l.
    split; [done|]. split; [done|]. split; [by apply (ex_names _ _ _ _ _ put_ext)|]. split; [by apply (ex_names _ _ _ _ _ put_ext)|].
    split; [|by apply put_types]. destruct (iv_roots _ _ H l x K1) as (r & Er & _). rewrite Er in K3. etransitivity; [eapply lookup_weaken; [exact K3|apply root_added_more]|]. symmetry. eapply lookup_weaken; [exact Er|apply root_added_more].
  - intros l d Hd Hres. destruct (put_insts _ _ _ _ _ _ _ Hput l d Hd) as [Hd'|[-> ->]]; [|by apply Hcast]. pose proof (iv_insts _ _ H l d Hd' Hres) as K.
    assert (Hcopy : forall u, source_ok st G l d u -> source_ok st' G' l d u).
    { intros u (U1 & U2 & U3 & U4). split; [by apply put_usable|]. split; [|split; [done|by eapply typed_ext; [apply put_ext|]]]. assert (Hl : l ∈ map bb_name (f_blocks F)).
      { destruct Hd' as (nb' & Hd' & _). rewrite <- (iv_labels _ _ H). apply block_at_elem in Hd'. by apply (list_elem_of_fmap_2 fst _ (l, nb')). }
      destruct (usable_root st G H l u Hl U1) as (r & Er & _). rewrite (put_root _ _ Er). rewrite Er in U2. symmetry. eapply lookup_weaken; [by symmetry|apply root_added_more]. }
    unfold cast_ok in *. destruct (i_kind d) as [| | |inb p l'|op a b'|op v| | | | | |]; try done.
    + intros Hz. by apply Hcopy, K.
    + destruct op; try done. by apply Hcopy.
  - intros r r' Hr. rewrite (pt_names _ _ _ _ _ _ _ Hput F). unfold root_added in Hr. destruct (has_result c) eqn:E; [rewrite (results_result c E)|rewrite (results_none c E)].
    + apply lookup_insert_Some in Hr as [[<- _]|[_ Hr]]; [by left|right]. by eapply iv_roots_new.
    + by eapply iv_roots_new.
  - intros l. rewrite (pt_visited _ _ _ _ _ _ _ Hput). apply (iv_visited _ _ H).
  - intros b' x. rewrite (pt_visited _ _ _ _ _ _ _ Hput), (pt_vmap _ _ _ _ _ _ _ Hput). apply (iv_mapped _ _ H).
Qed.
(** A cast goes anywhere behind what it casts. *)
Definition copy_step (P : list string) : Prop :=
  has_result c = true /\ is_call_inst c = false /\ usables M arg_names before (bb_name b) (look st G) P (operands (i_kind c)) /\
  rooted arg_names before (bb_name b) (look st G) P ρ /\
  forall f w, sem (Meaning := M) c (map (fun o => value_at M f (root M (look st G) o)) (operands (i_kind c))) w = Some (value_at M f (Some ρ), w).
Abbreviation P1 := (map phi_name (nb_phis nb) ++ results n1).
Lemma put_partial_new : copy_step P1 -> forall olds, partial st G b olds -> partial st' G' b olds.
Proof.
  intros (C1 & C2 & C3 & C4 & C5) olds (nb' & K1 & K2 & K3). rewrite (pt_block _ _ _ _ _ _ _ Hput) in K1. injection K1 as <-. exists (set_insts (n1 ++ c :: n2) nb).
  split; [by rewrite (pt_at _ _ _ _ _ _ _ Hput), String.eqb_refl|]. cbn [set_insts nb_phis nb_insts]. split.
  - eapply Forall2_impl; [exact K2|]. intros p p'. apply phi_start_more; [by rewrite (pt_vmap _ _ _ _ _ _ _ Hput)|apply root_added_more].
  - apply matches_insert.
    + rewrite <- (pt_insts _ _ _ _ _ _ _ Hput). eapply matches_more; [apply put_grows|exact K3|done].
    + split; [done|]. split; [done|]. split; [eapply usables_more; [apply put_grows|done|exact C3]|]. exists ρ. split; [cbn [look vw_root]; unfold root_added; rewrite C1; by rewrite lookup_insert_eq|].
      split; [eapply rooted_more; [apply put_grows|done|exact C4]|]. intros f w. erewrite values_grow; [apply C5|apply put_grows|exact C3].
Qed.
Lemma put_copy : copy_step P1 -> cast_ok st' G' (bb_name b) c -> Inv st' G' /\ ext all_blocks st G st' G' /\ usable_at st' G' (bb_name b) (Local (i_name c) (i_type c)) /\ G' !! i_name c = Some ρ /\ typed_in st' (i_name c) (i_type c).
Proof.
  intros Hc Hcast. pose proof Hc as (C1 & _ & _ & C4 & _). assert (Hin : forall x, x ∈ P1 -> x ∈ names_at st (bb_name b)).
  { intros x Hx. unfold names_at. rewrite (pt_block _ _ _ _ _ _ _ Hput). unfold building_names. rewrite (pt_insts _ _ _ _ _ _ _ Hput), results_app, app_assoc. apply elem_of_app. by left. }
  split; [|split; [|split; [|split]]].
  - apply put_inv; [right; by apply put_partial_new|right; eapply rooted_more; [apply view_grows_refl|exact Hin|exact C4]|done].
  - destruct put_ext as [A1 A2 A3 AT A4 A5 A6 A7]. constructor; try done.
    + intros b' olds Hb' Hv _ Hp. destruct (decide (bb_name b' = bb_name b)) as [E|Hne]; [|by apply A6]. assert (b' = b) as -> by (by apply (same_block F avail Hs)). by apply put_partial_new.
    + intros x. rewrite (pt_vmap _ _ _ _ _ _ _ Hput). by left.
  - right. left. apply (put_names _ _ _ _ _ _ _ Hput). right. split; [done|]. by apply results_one.
  - unfold root_added. by rewrite C1, lookup_insert_eq.
  - by apply put_typed_new.
Qed.
End adding.

(** *** What is remembered *)

Lemma typed_block_names_eq b : map fst (typed_block_defs b) = block_defs b.
Proof.
  unfold typed_block_defs, block_defs. rewrite map_app, map_map. f_equal. induction (bb_insts b) as [|i l IH]; [done|]. cbn [flat_map]. rewrite map_app, IH, (results_cons i l).
  f_equal. unfold inst_defs, results. cbn [List.filter]. by destruct (has_result i).
Qed.

Lemma with_VMap_frame st G x t u b : Inv st G -> x ∉ arg_names -> VMap st !! x = None -> b ∈ f_blocks F -> bb_name b ∈ visitedBB st -> (x, t) ∈ typed_block_defs b ->
  usable_at st G (bb_name b) u -> alike t (type_of u) -> typed_value st u -> Inv (with_VMap x u st) G /\ ext (fun l => l <> bb_name b) st G (with_VMap x u st) G /\
  (forall b' olds, partial st G b' olds -> partial (with_VMap x u st) G b' olds).
Proof.
  intros H Hx Hnone Hb Hvis Hxt Hu Ht Hty. assert (Hsub : VMap st ⊆ VMap (with_VMap x u st)) by (cbn [with_VMap VMap]; by apply insert_subseteq).
  assert (Hg : grows (look st G) (look (with_VMap x u st) G)) by (by apply look_grows).
  assert (Hpart : forall b' olds, partial st G b' olds -> partial (with_VMap x u st) G b' olds) by (intros b' olds; by apply same_block_partial).
  split; [|split; [|exact Hpart]].
  2: { constructor; try done; [by intros b' olds _ _ _; apply Hpart|]. intros y Hy. cbn [with_VMap VMap] in Hy. destruct (decide (y = x)) as [->|Hne]; [|left; by rewrite lookup_insert_ne in Hy].
    right. exists b. split; [done|]. split; [|by right; intros Hk]. rewrite <- typed_block_names_eq. by apply (list_elem_of_fmap_2 fst _ (x, t)). }
  pose proof H as [H1 H2 H3 H4 H5 H6 H7 H8 H9 H10 H11 H12]. constructor; try done.
  - intros b' t' Hb' Ht'. destruct (H4 b' t' Hb' Ht') as (K1 & K2 & K3). split; [done|]. split; [by apply Hpart|]. by eapply (term_rel_grows st G).
  - intros a ta Ha. destruct (H5 a ta Ha) as [K1 K2]. split; [|done]. cbn [with_VMap VMap]. rewrite lookup_insert_ne; [done|]. intros ->. apply Hx. by apply (list_elem_of_fmap_2 fst _ (a, ta)).
  - intros y w Hy. cbn [with_VMap VMap] in Hy. apply lookup_insert_Some in Hy as [[<- <-]|[_ Hy]]; [right; by exists b, t|]. by apply H7.
  - intros b' y Hb' Hy Hsome. cbn [with_VMap VMap visitedBB] in *. destruct (decide (y = x)) as [->|Hne]; [|rewrite lookup_insert_ne in Hsome by done; by eapply H12].
    assert (b' = b) as -> by (eapply (block_of_def_eq F avail Hs); [done|done|exact Hy|]; rewrite <- typed_block_names_eq; by apply (list_elem_of_fmap_2 fst _ (x, t))). done.
Qed.

(** What a name is mapped to is replaced by a value of the same root. *)
Lemma remap_frame st G x t u0 u b : Inv st G -> VMap st !! x = Some u0 -> root_of G u = root_of G u0 -> b ∈ f_blocks F -> (x, t) ∈ typed_block_defs b -> x ∉ map phi_name (bb_phis b) ->
  usable_at st G (bb_name b) u -> alike t (type_of u) -> typed_value st u ->
  Inv (with_VMap x u st) G /\ (forall b' olds, b' ∈ f_blocks F -> partial st G b' olds -> partial (with_VMap x u st) G b' olds) /\
  (forall keep st0 G0, ext keep st0 G0 st G -> VMap st0 !! x = None -> ext keep st0 G0 (with_VMap x u st) G).
Proof.
  intros H Hx0 Hroot Hb Hxt Hphi Hu Ht Hty. assert (Hxb : x ∈ block_defs b) by (rewrite <- typed_block_names_eq; by apply (list_elem_of_fmap_2 fst _ (x, t))).
  assert (Hg : grows (look st G) (look (with_VMap x u st) G)).
  { constructor; try done. intros y ρ. cbn [look vw_old with_VMap VMap]. destruct (decide (y = x)) as [->|Hne]; [|by rewrite lookup_insert_ne]. rewrite lookup_insert_eq, Hx0. cbn [mbind option_bind]. by rewrite Hroot. }
  assert (Hpart : forall b' olds, b' ∈ f_blocks F -> partial st G b' olds -> partial (with_VMap x u st) G b' olds).
  { intros b' olds Hb' (nb & P1 & P2 & P3). exists nb. split; [done|]. split; [|by eapply matches_more; [exact Hg|exact P3|]].
    apply (Forall2_same_length_lookup_2); [by eapply Forall2_length|]. intros j p p' Hp Hp'. destruct (Forall2_lookup_lr _ _ _ _ _ _ P2 Hp Hp') as (Q1 & Q2 & Q3). split; [done|]. split; [|done].
    cbn [with_VMap VMap]. rewrite lookup_insert_ne; [done|]. intros ->. assert (Hpb : phi_name p ∈ map phi_name (bb_phis b')) by (apply list_elem_of_fmap_2; by eapply list_elem_of_lookup_2).
    assert (b' = b) as -> by (eapply (block_of_def_eq F avail Hs); [done..| |exact Hxb]; apply elem_of_app; by left). done. }
  split; [|split; [exact Hpart|]].
  - pose proof H as [H1 H2 H3 H4 H5 H6 H7 H8 H9 H10 H11 H12]. constructor; try done.
    + intros b' t' Hb' Ht'. destruct (H4 b' t' Hb' Ht') as (K1 & K2 & K3). split; [done|]. split; [by apply Hpart|]. by eapply (term_rel_grows st G).
    + intros a ta Ha. destruct (H5 a ta Ha) as [K1 K2]. split; [|done]. cbn [with_VMap VMap]. rewrite lookup_insert_ne; [done|]. intros ->.
      eapply (def_not_arg_name F avail Hs b); [done|exact Hxb|]. by apply (list_elem_of_fmap_2 fst _ (a, ta)).
    + intros y w Hy. cbn [with_VMap VMap] in Hy. apply lookup_insert_Some in Hy as [[<- <-]|[_ Hy]]; [right; by exists b, t|]. by apply H7.
    + intros b' y Hb' Hy Hsome. cbn [with_VMap VMap visitedBB] in *. eapply H12; [done|exact Hy|]. destruct (decide (y = x)) as [->|Hne]; [by rewrite Hx0|]. by rewrite lookup_insert_ne in Hsome.
  - intros keep st0 G0 [A1 A2 A3 AT A4 A5 A6 A7] Hnone. constructor; try done.
    + apply map_subseteq_spec. intros y w Hy. cbn [with_VMap VMap]. rewrite lookup_insert_ne; [by eapply lookup_weaken|]. intros ->. congruence.
    + intros b' olds Hb' Hv Hk Hp. apply Hpart; [done|]. by apply A6.
    + intros y Hy. apply A7. cbn [with_VMap VMap] in Hy. destruct (decide (y = x)) as [->|Hne]; [by rewrite Hx0|]. by rewrite lookup_insert_ne in Hy.
Qed.

(** *** Instructions of the old function are visited *)

Definition mapped (st : rebuilding) (G : roots) (l : string) (o o' : Value) : Prop :=
  usable_at st G l o' /\ root_of G o' = old_root M (look st G) o /\ is_Some (root_of G o') /\ alike (type_of o) (type_of o') /\ typed_value st o'.
Lemma mapped_ext keep st G st' G' l o o' : ext keep st G st' G' -> mapped st G l o o' -> mapped st' G' l o o'.
Proof.
  intros H (H1 & H2 & (ρ & H3) & H4 & H5). split; [by eapply usable_ext|]. rewrite (root_of_ext _ _ _ _ _ _ _ H H3). rewrite H3 in H2. split; [|split; [done|split; [done|by eapply typed_ext]]].
  symmetry. eapply old_root_grows; [by eapply ext_grows|by symmetry].
Qed.
Lemma mapped_all_ext keep st G st' G' l os os' : ext keep st G st' G' -> Forall2 (mapped st G l) os os' -> Forall2 (mapped st' G' l) os os'.
Proof. intros H Hm. eapply Forall2_impl; [exact Hm|]. intros o o'. by eapply mapped_ext. Qed.
Lemma mapped_known st G l os os' : Forall2 (mapped st G l) os os' -> known_old M (look st G) os.
Proof. induction 1 as [|o o' os os' (_ & H2 & H3 & _) _ IH]; constructor; [by rewrite <- H2|done]. Qed.
Lemma mapped_usables st G l os os' : Forall2 (mapped st G l) os os' -> usables M arg_names before l (look st G) (names_at st l) os'.
Proof. induction 1 as [|o o' os os' (H1 & _ & H3 & _) _ IH]; constructor; [|done]. split; [done|]. by rewrite root_look. Qed.
Lemma mapped_values st G l os os' f : Forall2 (mapped st G l) os os' ->
  map (fun o => value_at M f (old_root M (look st G) o)) os = map (fun o => value_at M f (root M (look st G) o)) os'.
Proof. induction 1 as [|o o' os os' (_ & H2 & _ & _) _ IH]; [done|]. cbn [map]. by rewrite IH, root_look, H2. Qed.
Lemma mapped_alikes st G l os os' : Forall2 (mapped st G l) os os' -> alikes os os'.
Proof. intros H. eapply Forall2_impl; [exact H|]. by intros o o' (_ & _ & _ & ? & _). Qed.

Section visited.
Context (st : rebuilding) (G : roots) (b : Block) (olds : list Inst) (i : Inst).
Abbreviation here := (bb_name b).
Context (H : Inv st G) (Hb : b ∈ f_blocks F) (Hopen : open st here) (Hpart : partial st G b olds).
(** The result is not yet known. *)
Context (Hnone : has_result i = true -> i_name i ∉ arg_names /\ VMap st !! i_name i = None /\ (i_name i, i_type i) ∈ typed_block_defs b).
Abbreviation not_here := (fun l => l <> here).
Definition remembered (u : Value) (st : rebuilding) : rebuilding := if has_result i then with_VMap (i_name i) u st else st.

Lemma image_step n t k : let c := inst n t k in has_result c = has_result i -> (has_result i = true -> n ∉ names_in_use F st /\ alike (i_type i) t) ->
  known_old M (look st G) (operands (i_kind i)) -> usables M arg_names before here (look st G) (names_at st here) (operands k) ->
  (forall st' G', ext not_here st G st' G' -> has_result i = true -> cast_ok st' G' here c) ->
  (forall calls calls', (forall g args w r, calls g args w = Some r -> calls' g args w = Some r) -> forall f w r,
    sem (Meaning := with_calls M calls) i (map (fun o => value_at M f (old_root M (look st G) o)) (operands (i_kind i))) w = Some r ->
    sem (Meaning := with_calls M calls') c (map (fun o => value_at M f (root M (look st G) o)) (operands k)) w = Some r) ->
  let st' := remembered (Local n t) (map_new here (add_inst c) st) in
  exists G', Inv st' G' /\ ext not_here st G st' G' /\ partial st' G' b (olds ++ [i]) /\ (has_result i = true -> G' !! n = Some (inl n) /\ usable_at st' G' here (Local n t) /\ typed_in st' n t).
Proof.
  intros c Hres Hnew Hknown Hus Hcast Hsem st'. destruct Hpart as (nb & K1 & K2 & K3). set (st1 := map_new here (add_inst c) st).
  assert (Hput : put st st1 here nb (nb_insts nb) c []).
  { apply map_new_put; [by apply (inv_labels st G)|done|by rewrite app_nil_r|]. done. }
  assert (Hnew' : has_result c = true -> i_name c ∉ names_in_use F st) by (intros E; rewrite Hres in E; by apply Hnew).
  set (G' := root_added G c (inl n)). pose proof (put_ext st st1 G b nb (nb_insts nb) c [] (inl n) H Hput Hnew') as Hext. fold G' in Hext.
  assert (Hin : has_result i = true -> usable_at st1 G' here (Local n t)).
  { intros E. right. left. apply (put_names _ _ _ _ _ _ _ Hput). right. split; [done|]. apply results_one. by rewrite Hres. }
  assert (Hinv : Inv st1 G').
  { pose proof (proj1 Hopen) as Hvis. apply (put_inv st st1 G b nb (nb_insts nb) c [] (inl n)); [done..|by left|by left|]. intros E. apply Hcast; [done|]. by rewrite <- Hres. }
  assert (Hfinal : Inv st' G' /\ ext not_here st1 G' st' G').
  { unfold st', remembered. destruct (has_result i) eqn:E; [|split; [done|apply ext_refl]]. destruct (Hnone eq_refl) as (N1 & N2 & N3). destruct (Hnew eq_refl) as [_ N4].
    destruct (with_VMap_frame st1 G' (i_name i) (i_type i) (Local n t) b Hinv) as (R1 & R2 & _); [done|done|done|by rewrite (pt_visited _ _ _ _ _ _ _ Hput); apply Hopen|done|by apply Hin|exact N4|apply (put_typed_new st st1 b nb (nb_insts nb) c [] Hput); by rewrite Hres|]. split; [exact R1|exact R2]. }
  destruct Hfinal as [Hinv' Hext']. assert (Hg : grows (look st G) (look st' G')) by (eapply ext_grows, ext_trans; [exact Hext|exact Hext']).
  exists G'. split; [done|]. split; [by eapply ext_trans|]. split.
  - exists (add_inst c nb). split; [|split].
    + transitivity (block_at st1 here); [by unfold st', remembered; destruct (has_result i)|]. rewrite (pt_at _ _ _ _ _ _ _ Hput), String.eqb_refl. done.
    + eapply Forall2_impl; [exact K2|]. intros p p'. apply phi_start_more; [|exact (ex_root _ _ _ _ _ Hext)]. etrans; [apply (ex_vmap _ _ _ _ _ Hext)|apply (ex_vmap _ _ _ _ _ Hext')].
    + cbn [add_inst nb_phis nb_insts]. apply matches_app.
      * eapply matches_more; [exact Hg|exact K3|done].
      * assert (HP : names_at st here = map phi_name (nb_phis nb) ++ results (nb_insts nb)) by (unfold names_at; by rewrite K1). rewrite HP in Hus.
        apply m_both; [|constructor]. split; [done|]. split; [by eapply known_old_grows|]. split; [by eapply usables_more|]. split.
        -- intros E. split; [cbn [look vw_root]; unfold G', root_added; rewrite Hres, E; apply lookup_insert_eq|]. cbn [old_root look vw_old]. unfold st', remembered. rewrite E.
           cbn [with_VMap VMap]. rewrite lookup_insert_eq. cbn [mbind option_bind root_of]. unfold G', root_added. rewrite Hres, E. apply lookup_insert_eq.
        -- intros calls calls' Hc f w r. rewrite (old_values_grow M (look st G) (look st' G')) by done. cbn [c inst i_kind]. erewrite values_grow; [|exact Hg|exact Hus]. by apply Hsem.
  - intros E. split; [unfold G', root_added; rewrite Hres, E; apply lookup_insert_eq|]. split; [eapply usable_ext; [exact Hext'|by apply Hin]|].
    apply (ex_types _ _ _ _ _ Hext'). apply (put_typed_new st st1 b nb (nb_insts nb) c [] Hput). by rewrite Hres.
Qed.
Lemma alias_step u : has_result i = true -> is_call_inst i = false -> known_old M (look st G) (operands (i_kind i)) -> usable_at st G here u -> alike (i_type i) (type_of u) -> typed_value st u ->
  (forall f w, sem (Meaning := M) i (map (fun o => value_at M f (old_root M (look st G) o)) (operands (i_kind i))) w = Some (value_at M f (root_of G u), w)) ->
  let st' := remembered u st in Inv st' G /\ ext not_here st G st' G /\ partial st' G b (olds ++ [i]).
Proof.
  intros E Hcall Hknown Hu Ht Hty Hsem st'. destruct (Hnone E) as (N1 & N2 & N3). unfold st', remembered. rewrite E.
  destruct (with_VMap_frame st G (i_name i) (i_type i) u b H N1 N2 Hb (proj1 Hopen) N3 Hu Ht Hty) as (R1 & R2 & R3). split; [done|]. split; [done|].
  destruct (usable_root st G H here u) as (ρ & Eρ & Hρ); [by apply list_elem_of_fmap_2|done|].
  destruct (R3 b olds Hpart) as (nb & K1 & K2 & K3). exists nb. split; [done|]. split; [done|]. rewrite <- (app_nil_r (nb_insts nb)). apply matches_app; [done|].
  assert (HP : names_at st here = map phi_name (nb_phis nb) ++ results (nb_insts nb)) by (unfold names_at; change (block_at st here) with (block_at (with_VMap (i_name i) u st) here); by rewrite K1).
  apply m_old; [|constructor]. pose proof (ext_grows _ _ _ _ _ R2) as Hg. split; [done|]. split; [done|]. split; [by eapply known_old_grows|]. exists ρ. split; [|split].
  - cbn [old_root look vw_old with_VMap VMap]. rewrite lookup_insert_eq. exact Eρ.
  - rewrite <- HP. eapply rooted_more; [exact Hg|done|exact Hρ].
  - intros f w. rewrite (old_values_grow M (look st G)) by done. rewrite Hsem. by rewrite Eρ.
Qed.
End visited.
End invariant.
