(* ===== verification/RebuildPhis.v ===== *)
(** * RebuildPhis: the first phase of ClamBCRebuild leaves phi nodes empty

    Values get into the phi nodes of the new function in the second phase only:
    no operation of the first one adds any ([keeps] and [keeps_state] follow the
    operations of Rebuild.v one by one). *)
From S2P Require Import Prelude IR Semantics Integers Dominance SmallPasses Dependents PreserveABIs Rebuild.
Local Open Scope string_scope.
Local Open Scope list_scope.
Local Open Scope Z_scope.
Local Open Scope outcome_scope.

Definition block_empty (b : building) : Prop := Forall (fun p => phi_incoming p = []) (nb_phis b).
Definition no_incoming (st : rebuilding) : Prop := Forall (fun p : string * building => block_empty (snd p)) (newBlocks st).
Definition keeps_state (st : rebuilding) (r : outcome rebuilding) : Prop := forall st', r = Done st' -> no_incoming st -> no_incoming st'.
Definition keeps {A} (st : rebuilding) (r : outcome (A * rebuilding)) : Prop := forall a st', r = Done (a, st') -> no_incoming st -> no_incoming st'.

Lemma keeps_done {A} st st' (a : A) : (no_incoming st -> no_incoming st') -> keeps st (Done (a, st')).
Proof. intros H a' st1 [= -> ->]. exact H. Qed.
Lemma keeps_same {A} st (a : A) : keeps st (Done (a, st)).
Proof. by apply keeps_done. Qed.
Lemma keeps_state_done st st' : (no_incoming st -> no_incoming st') -> keeps_state st (Done st').
Proof. intros H st1 [= ->]. exact H. Qed.
Lemma keeps_bind {A B} st (r : outcome (A * rebuilding)) (k : A -> rebuilding -> outcome (B * rebuilding)) :
  keeps st r -> (forall a st1, keeps st1 (k a st1)) -> keeps st (let* (a, st1) := r in k a st1).
Proof. intros Hr Hk b st' E Hst. destruct r as [[a st1]| | |]; try done. eapply Hk; [exact E|]. by eapply Hr. Qed.
Lemma keeps_bind_state {A} st (r : outcome (A * rebuilding)) (k : A -> rebuilding -> outcome rebuilding) :
  keeps st r -> (forall a st1, keeps_state st1 (k a st1)) -> keeps_state st (let* (a, st1) := r in k a st1).
Proof. intros Hr Hk st' E Hst. destruct r as [[a st1]| | |]; try done. eapply Hk; [exact E|]. by eapply Hr. Qed.
Lemma keeps_state_bind st r k : keeps_state st r -> (forall st1, keeps_state st1 (k st1)) -> keeps_state st (let* st1 := r in k st1).
Proof. intros Hr Hk st' E Hst. destruct r as [st1| | |]; try done. eapply Hk; [exact E|]. by eapply Hr. Qed.
Lemma keeps_after {A} st r (k : rebuilding -> outcome (A * rebuilding)) : keeps_state st r -> (forall st1, keeps st1 (k st1)) -> keeps st (let* st1 := r in k st1).
Proof. intros Hr Hk a st' E Hst. destruct r as [st1| | |]; try done. eapply Hk; [exact E|]. by eapply Hr. Qed.
(** A step that has no state. *)
Lemma keeps_pure {A B} st (r : outcome A) (k : A -> outcome (B * rebuilding)) : (forall a, keeps st (k a)) -> keeps st (let* a := r in k a).
Proof. intros Hk b st' E. destruct r as [a| | |]; try done. by eapply Hk. Qed.
Lemma keeps_state_pure {A} st (r : outcome A) (k : A -> outcome rebuilding) : (forall a, keeps_state st (k a)) -> keeps_state st (let* a := r in k a).
Proof. intros Hk st' E. destruct r as [a| | |]; try done. by eapply Hk. Qed.
Lemma keeps_failed {A} st (r : outcome (A * rebuilding)) : (forall x, r <> Done x) -> keeps st r.
Proof. intros H a st' E. by destruct (H (a, st')). Qed.
Lemma keeps_state_failed st (r : outcome rebuilding) : (forall x, r <> Done x) -> keeps_state st r.
Proof. intros H st' E. by destruct (H st'). Qed.

Lemma map_new_empty l f st : (forall b, block_empty b -> block_empty (f b)) -> no_incoming st -> no_incoming (map_new l f st).
Proof.
  intros Hf H. unfold no_incoming, map_new. cbn [newBlocks]. apply Forall_map. eapply Forall_impl; [exact H|]. intros [k b] Hb. cbn [fst snd] in *. destruct (String.eqb k l); [by apply Hf|done].
Qed.
Lemma map_new_same l f st : (forall b, nb_phis (f b) = nb_phis b) -> no_incoming st -> no_incoming (map_new l f st).
Proof. intros Hf. apply map_new_empty. intros b. unfold block_empty. by rewrite Hf. Qed.
Lemma place_behind_phis x c b b' : place_behind x c b = Done b' -> nb_phis b' = nb_phis b.
Proof.
  unfold place_behind, or_at_end. destruct (bool_decide (x ∈ _)).
  - destruct (bool_decide _); [|done]. cbn [assert_ obind]. destruct (skip_allocas _ _), (nb_term b); try done; cbn [obind]; by intros [= <-].
  - destruct (insert_behind _ _ _), (nb_term b); try done; cbn [obind]; by intros [= <-].
Qed.

Section phase.
Context (type_alloc_size : ty -> Z) (value_name : list string -> string -> string) (folded : Inst -> option Value) (strip_constant : Value -> Value).
Context (cc_of : string -> Z) (F : Function_).
Lemma insert_empty here x t k st : no_incoming st -> no_incoming (snd (insert_inst here x t k st)).
Proof. by apply map_new_same. Qed.
Lemma create_folded_empty here w t k st : no_incoming st -> no_incoming (snd (create_folded value_name folded F here w t k st)).
Proof. unfold create_folded. destruct (if forallb _ _ then _ else _); [done|]. apply insert_empty. Qed.
Lemma build_cast_empty here op v t w st : no_incoming st -> no_incoming (snd (build_cast value_name folded F here op v t w st)).
Proof. unfold build_cast. destruct (bool_decide _); [done|]. apply create_folded_empty. Qed.
Lemma keeps_pair {A} st (r : A * rebuilding) : (no_incoming st -> no_incoming (snd r)) -> keeps st (Done r).
Proof. destruct r as [a st']. apply keeps_done. Qed.
Lemma pointer_cast_keeps here v t w st : keeps st (build_pointer_cast value_name folded F here v t w st).
Proof.
  unfold build_pointer_cast. destruct (bool_decide _); [apply keeps_same|]. apply keeps_pure. intros _. apply keeps_pair, create_folded_empty.
Qed.
Lemma make_cast_keeps here v t st : keeps st (makeCast value_name folded F here v t st).
Proof.
  unfold makeCast. destruct (findDuplicateType _ _ _ _); [apply keeps_same|]. destruct (bool_decide _); [apply keeps_same|].
  destruct v as [x tx| | | | | | | | | | | |]; try apply pointer_cast_keeps. destruct (home x st) as [[target b]|] eqn:Eh; [|apply pointer_cast_keeps].
  destruct (find_cast _ _ _); [apply keeps_same|]. apply keeps_pure. intros _. apply keeps_after; [|intros st1; by apply keeps_done].
  destruct (String.eqb target here); [apply keeps_state_done; by apply map_new_same|]. intros st' E Hst. destruct (place_behind _ _ b) as [b'| | |] eqn:Ep; try done. cbn [obind] in E. injection E as <-.
  apply place_behind_phis in Ep. unfold home in Eh. apply List.find_some in Eh as [Eh _]. apply list_elem_of_In in Eh. revert Hst. pose proof Eh as Hb. unfold no_incoming. intros Hst.
  pose proof Hst as Hall. rewrite Forall_forall in Hall. specialize (Hall _ Hb). cbn [snd] in Hall. apply (map_new_empty target (fun _ => b') st); [|exact Hst]. intros b0 _. unfold block_empty. rewrite Ep. exact Hall.
Qed.
Lemma remember_empty i r st : (no_incoming st -> no_incoming (snd r)) -> keeps_state st (Done (remember i r)).
Proof. intros H. apply keeps_state_done. unfold remember. by destruct (has_result i). Qed.

Section visitors.
Context (rec : string -> rebuilding -> outcome rebuilding) (Hrec : forall l st, keeps_state st (rec l st)).
Lemma map_value_keeps v st : keeps st (mapValue F rec v st).
Proof.
  destruct v as [x t| | | | | | | | | | | |]; try apply keeps_same. cbn [mapValue]. destruct (VMap st !! x); [apply keeps_same|]. destruct (parent F x); [|by apply keeps_failed].
  apply keeps_after; [apply Hrec|]. intros st1. destruct (VMap st1 !! x); [apply keeps_same|by apply keeps_failed].
Qed.
Lemma map_values_keeps l : forall st, keeps st (mapValues F rec l st).
Proof.
  induction l as [|v l IH]; intros st; cbn [mapValues]; [apply keeps_same|]. apply keeps_bind; [apply map_value_keeps|]. intros v' st1. apply keeps_bind; [apply IH|]. intros vs st2. apply keeps_same.
Qed.
Lemma map_pointer_keeps here p t st : keeps st (mapPointer value_name folded strip_constant F rec here p t st).
Proof.
  unfold mapPointer. apply keeps_bind; [apply map_value_keeps|]. intros u st1. destruct (_ && _); [apply keeps_same|]. cbv zeta. apply keeps_bind.
  - destruct (is_new_alloca _ st1); [apply make_cast_keeps|apply keeps_same].
  - intros u2 st2. apply make_cast_keeps.
Qed.
Lemma call_params_keeps here params : forall ops st, keeps st (call_params value_name folded F rec here params ops st).
Proof.
  induction params as [|t params IH]; intros ops st; [apply keeps_same|]. destruct ops as [|o ops]; [by apply keeps_failed|]. cbn [call_params]. apply keeps_bind; [apply map_value_keeps|]. intros v st1. apply keeps_bind.
  - destruct (bool_decide _); [apply keeps_same|]. destruct (is_integer_ty t); [apply keeps_pair, build_cast_empty|]. destruct (is_pointer t); [|by apply keeps_failed].
    apply keeps_bind; [destruct (bool_decide _); [apply keeps_same|apply pointer_cast_keeps]|]. intros v2 st2. apply pointer_cast_keeps.
  - intros v2 st2. apply keeps_bind; [apply IH|]. intros vs st3. apply keeps_same.
Qed.
Lemma make_cast_remembered here i v t st : keeps_state st (let* r := makeCast value_name folded F here v t st in Done (remember i r)).
Proof. intros st' E. destruct (makeCast _ _ _ _ _ _ _) as [[u st1]| | |] eqn:Em; try done. cbn [obind] in E. revert E. apply remember_empty. exact (make_cast_keeps here v t st u st1 Em). Qed.
Lemma visit_inst_keeps here i st : keeps_state st (visit_inst type_alloc_size value_name folded strip_constant cc_of F rec here i st).
Proof.
  unfold visit_inst. destruct (i_kind i) as [t size|p|v p|inb p l|op a b|op v|pr a b|c t f|callee cc args| | |]; try by apply keeps_state_failed.
  - destruct size; try by apply keeps_state_failed. apply remember_empty, insert_empty.
  - apply keeps_bind_state; [apply map_pointer_keeps|]. intros p' st1. apply remember_empty, insert_empty.
  - apply keeps_bind_state; [apply map_value_keeps|]. intros v' st1. apply keeps_bind_state; [apply map_pointer_keeps|]. intros p' st2. apply keeps_state_pure. intros _. apply keeps_state_done. by apply map_new_same.
  - unfold visitGetElementPtrInst_rebuild. destruct (forallb _ _).
    + intros st' E. destruct (mapPointer _ _ _ _ _ _ _ _ _) as [[u st1]| | |] eqn:Em; try done. cbn [obind] in E. revert E. apply remember_empty. exact (map_pointer_keeps here p _ st u st1 Em).
    + apply keeps_bind_state; [apply map_pointer_keeps|]. intros p' st1. apply keeps_bind_state; [apply map_values_keeps|]. intros l' st2.
      pose proof (create_folded_empty here (if inb then "clambcRebuildInboundsGEP" else "clambcRebuildGEP") (i_type i) (GetElementPtr inb p' l') st2) as Hc. destruct (create_folded _ _ _ _ _ _ _ st2) as [u st3]. cbn [snd] in Hc.
      intros st' E Hst. eapply make_cast_remembered; [exact E|by apply Hc].
  - apply keeps_bind_state; [apply map_value_keeps|]. intros a' st1. apply keeps_bind_state; [apply map_value_keeps|]. intros b' st2. apply remember_empty, create_folded_empty.
  - apply keeps_bind_state; [apply map_value_keeps|]. intros v' st1. apply remember_empty, build_cast_empty.
  - unfold visitICmpInst_rebuild. apply keeps_bind_state; [apply map_value_keeps|]. intros a' st1. apply keeps_bind_state; [apply map_value_keeps|]. intros b' st2.
    assert (Hcmp : keeps st2 (if bool_decide (type_of a' = type_of b') then Done (a', b', st2)
      else if is_constant_value a' then let* (op0, st) := makeCast value_name folded F here a' (type_of b') st2 in Done (op0, b', st)
      else if is_constant_value b' then let* (op1, st) := makeCast value_name folded F here b' (type_of a') st2 in Done (a', op1, st) else Done (a', b', st2))).
    { destruct (bool_decide _); [apply keeps_same|]. destruct (is_constant_value a'); [apply keeps_bind; [apply make_cast_keeps|intros u st3; apply keeps_same]|].
      destruct (is_constant_value b'); [apply keeps_bind; [apply make_cast_keeps|intros u st3; apply keeps_same]|apply keeps_same]. }
    intros st' E Hst. destruct (if bool_decide _ then _ else _) as [[[u1 u2] st3]| | |]; try done. cbn [obind] in E. specialize (Hcmp (u1, u2) st3 eq_refl Hst). destruct (assert_ _ _); try done. cbn [obind] in E.
    revert E Hcmp. apply remember_empty, create_folded_empty.
  - apply keeps_bind_state; [apply map_value_keeps|]. intros c' st1. apply keeps_bind_state; [apply map_value_keeps|]. intros t' st2. apply keeps_bind_state; [apply map_value_keeps|]. intros f' st3.
    apply keeps_state_pure. intros _. apply remember_empty, create_folded_empty.
  - unfold visitCallInst_rebuild. destruct callee as [| | |g t| | | | | | | | |]; try by apply keeps_state_failed. destruct t as [| | |t| | | |]; try by apply keeps_state_failed. destruct t as [| | | | | | |ret params va]; try by apply keeps_state_failed.
    apply keeps_state_pure. intros _. apply keeps_bind_state; [apply call_params_keeps|]. intros vs st1. cbv zeta. destruct (has_result i) eqn:Hr; [apply remember_empty, insert_empty|apply keeps_state_done; by apply map_new_same].
Qed.
Lemma visit_insts_keeps here l : forall st, keeps_state st (visit_insts type_alloc_size value_name folded strip_constant cc_of F rec here l st).
Proof. induction l as [|i l IH]; intros st; cbn [visit_insts]; [by apply keeps_state_done|]. apply keeps_state_bind; [apply visit_inst_keeps|exact IH]. Qed.
Lemma visit_term_keeps here t st : keeps_state st (visit_term F rec here t st).
Proof.
  destruct t; cbn [visit_term]; try by apply keeps_state_failed.
  - apply keeps_bind_state; [apply map_value_keeps|]. intros c' st1. do 2 (apply keeps_state_pure; intros ?). apply keeps_state_done. by apply map_new_same.
  - apply keeps_state_pure. intros ?. apply keeps_state_done. by apply map_new_same.
  - apply keeps_bind_state; [apply map_value_keeps|]. intros v' st1. apply keeps_state_done. by apply map_new_same.
  - apply keeps_state_done. by apply map_new_same.
  - apply keeps_state_done. by apply map_new_same.
Qed.
Lemma visit_phis_empty here ps : forall st, no_incoming st -> no_incoming (fold_left (visitPHINode value_name F here) ps st).
Proof.
  induction ps as [|p ps IH]; intros st Hst; [exact Hst|]. cbn [fold_left]. apply IH. unfold visitPHINode. cbn [with_VMap]. apply (map_new_empty here); [|exact Hst].
  intros b Hb. apply Forall_app. split; [exact Hb|]. by repeat constructor.
Qed.
Lemma visit_block_keeps here b st : keeps_state st (visit_block type_alloc_size value_name folded strip_constant cc_of F rec here b st).
Proof.
  unfold visit_block. intros st' E Hst. destruct (visit_insts _ _ _ _ _ _ _ _ _ _) as [st1| | |] eqn:Ei; try done. cbn [obind] in E. eapply visit_term_keeps; [exact E|].
  eapply visit_insts_keeps; [exact Ei|]. by apply visit_phis_empty.
Qed.
End visitors.
Lemma run_keeps n : forall l st, keeps_state st (runOnBasicBlock type_alloc_size value_name folded strip_constant cc_of F n l st).
Proof.
  induction n as [|n IH]; intros l st; cbn [runOnBasicBlock]; [by apply keeps_state_failed|]. apply keeps_state_pure. intros _. destruct (bool_decide _); [by apply keeps_state_done|].
  destruct (find_bb _ _); [|by apply keeps_state_failed]. intros st' E Hst. by eapply visit_block_keeps.
Qed.
Lemma run_on_blocks_keeps bs : forall st, keeps_state st (runOnBlocks type_alloc_size value_name folded strip_constant cc_of F bs st).
Proof. induction bs as [|b bs IH]; intros st; cbn [runOnBlocks]; [by apply keeps_state_done|]. apply keeps_state_bind; [apply run_keeps|exact IH]. Qed.
Lemma start_empty : no_incoming (start_rebuild type_alloc_size F).
Proof. unfold no_incoming. cbn [start_rebuild newBlocks]. apply Forall_map, Forall_forall. intros b _. constructor. Qed.
End phase.
