(* ===== verification/RebuildPass.v ===== *)
(** * RebuildPass: ClamBCRebuild succeeds

    The steps of the pass on the invariant of RebuildInv.v: casts, the instructions
    one by one, blocks on demand, the operands of phi nodes. On a function whose
    values are integers and pointers no step fails, and the function made is
    related to the one read as RebuildSpec.v wants it. *)
From S2P Require Import Prelude IR Semantics Integers Dominance SmallPasses Dependents PreserveABIs Typing Rebuild RebuildSpec RebuildInv RebuildPhis.
Local Open Scope string_scope.
Local Open Scope list_scope.
Local Open Scope Z_scope.
Local Open Scope outcome_scope.

Section pass.
Context {V W : Type} (M : Meaning V W) (type_alloc_size : ty -> Z) (value_name : list string -> string -> string) (folded : Inst -> option Value) (strip_constant : Value -> Value).
Context (cc_of : string -> Z) `{!BytePointers M type_alloc_size folded strip_constant} (Hvalue_name : forall used w, value_name used w ∉ used).
Context (F : Function_) (avail : string -> list string) (Hs : scoped F avail).
Abbreviation arg_names := (map fst (f_args F)).
Abbreviation before := (before F avail).
Abbreviation roots := (gmap string (string + V)).
Abbreviation root_of := (root_of M).
Abbreviation look := (look M).
Abbreviation Inv := (Inv M type_alloc_size F avail).
Abbreviation ext := (ext M type_alloc_size F avail).
Abbreviation partial := (partial M F avail).
Abbreviation mapped := (mapped M type_alloc_size F avail).
Abbreviation typed_in := (typed_in type_alloc_size F).
Abbreviation typed_value := (typed_value type_alloc_size F).
Abbreviation usable_at st G l := (usable arg_names before l (look st G) (names_at st l)).
Abbreviation given_at st G l := (given arg_names before l (look st G) (names_at st l)).
Abbreviation labels_of := (map bb_name (f_blocks F)).

(** ** Casts *)

Section casts.
Context (st : rebuilding) (G : roots) (H : Inv st G).
(** What an instruction that a block may use is about may be used there too. *)
Lemma usable_source l x l1 u : l ∈ labels_of -> given_at st G l x -> x ∈ names_at st l1 -> usable_at st G l1 u -> usable_at st G l u.
Proof.
  intros Hl Hx Hx1 Hu. destruct u as [r t| | | | | | | | | | | |]; try done. pose proof (inv_labels M type_alloc_size F avail Hs st G H) as Hlab.
  destruct Hx as [Hx|[Hx|(l0 & Hl0 & Hx)]].
  - exfalso. eapply (name_not_arg F st l1 x); [apply (iv_names _ _ _ _ _ _ H)|done|done].
  - by assert (l1 = l) as -> by (by eapply (name_in_one F st l1 l x); [|apply (iv_names _ _ _ _ _ _ H)|..]).
  - assert (l1 = l0) as -> by (eapply (name_in_one F st l1 l0 x); [done|apply (iv_names _ _ _ _ _ _ H)|done|exact Hx]).
    destruct (before_block F avail _ _ Hl0) as (b & Hb & ->). by eapply given_dominated.
Qed.
Lemma source_ok_usable l x c u : l ∈ labels_of -> given_at st G l x -> new_inst x st = Some c -> (forall l1, cast_ok M type_alloc_size F avail st G l1 c -> source_ok M type_alloc_size F avail st G l1 c u) ->
  usable_at st G l u /\ root_of G u = G !! x /\ is_pointer (type_of u) = true /\ typed_value st u.
Proof.
  intros Hl Hx Hc Hsrc. apply (new_inst_spec st x c (inv_labels M type_alloc_size F avail Hs st G H)) in Hc as (<- & Hres & l1 & Hat & Hin).
  destruct (Hsrc l1 (iv_insts _ _ _ _ _ _ H l1 c Hat Hres)) as (U1 & U2 & U3 & U4). split; [by eapply usable_source|]. by split.
Qed.
Lemma find_duplicate_ok fuel l V0 T u : l ∈ labels_of -> usable_at st G l V0 -> findDuplicateType fuel st V0 T = Some u ->
  usable_at st G l u /\ root_of G u = root_of G V0 /\ type_of u = T /\ typed_value st u.
Proof.
  intros Hl. revert V0. induction fuel as [|fuel IH]; intros V0 Hu E; [done|]. cbn [findDuplicateType] in E. destruct V0 as [x t| | | | | | | | | | | |]; try done.
  destruct (new_inst x st) as [[n tn k]|] eqn:Ec; [|done]. destruct k as [| | | | |op w| | | | | |]; try done. destruct op; try done.
  destruct (source_ok_usable l x _ w Hl Hu Ec) as (U1 & U2 & U3 & U4); [done|]. destruct (bool_decide _) eqn:Et.
  - injection E as <-. apply bool_decide_eq_true in Et. split; [done|]. split; [exact U2|]. by split.
  - destruct (IH w U1 E) as (K1 & K2 & K3 & K4). split; [done|]. split; [by rewrite K2|]. by split.
Qed.
Lemma strip_ok fuel l V0 : l ∈ labels_of -> usable_at st G l V0 -> is_pointer (type_of V0) = true -> typed_value st V0 ->
  let u := strip_pointer_casts strip_constant fuel st V0 in usable_at st G l u /\ root_of G u = root_of G V0 /\ is_pointer (type_of u) = true /\ typed_value st u.
Proof.
  intros Hl. assert (Hconst : forall v, is_constant_value v = true -> is_pointer (type_of v) = true -> let u := if is_pointer (type_of v) then strip_constant v else v in
    usable_at st G l u /\ root_of G u = root_of G v /\ is_pointer (type_of u) = true /\ typed_value st u).
  { intros v Hv Hp. rewrite Hp. destruct (bp_strip v Hv Hp) as (S1 & S2 & S3). cbv zeta. destruct (strip_constant v) eqn:Ev; try done; (split; [done|]); (split; [|done]);
      destruct v; try done; cbn [RebuildInv.root_of]; by rewrite S3. }
  revert V0. induction fuel as [|fuel IH]; intros V0 Hu Hp Hty; cbn [strip_pointer_casts].
  { destruct V0; try (by apply Hconst). by split. }
  destruct V0 as [x t| | | | | | | | | | | |]; try (by apply Hconst). cbn [type_of] in Hp. rewrite Hp.
  assert (Hself : let u := Local x t in usable_at st G l u /\ root_of G u = root_of G (Local x t) /\ is_pointer (type_of u) = true /\ typed_value st u) by (by split).
  assert (Hstep : forall c w, new_inst x st = Some c -> (forall l1, cast_ok M type_alloc_size F avail st G l1 c -> source_ok M type_alloc_size F avail st G l1 c w) ->
    let u := strip_pointer_casts strip_constant fuel st w in usable_at st G l u /\ root_of G u = root_of G (Local x t) /\ is_pointer (type_of u) = true /\ typed_value st u).
  { intros c w Hc Hsrc. destruct (source_ok_usable l x c w Hl Hu Hc Hsrc) as (U1 & U2 & U3 & U4). destruct (IH w U1 U3 U4) as (K1 & K2 & K3 & K4). split; [done|]. split; [by rewrite K2, U2|]. by split. }
  destruct (new_inst x st) as [[n tn k]|] eqn:Ec; [|exact Hself]. destruct k as [| | |inb w idx| |op w| | | | | |]; try exact Hself.
  - destruct (forallb zero_index idx) eqn:Ez; [|exact Hself]. apply (Hstep _ w eq_refl). intros l1 Hk. by apply Hk.
  - destruct op; try exact Hself. by apply (Hstep _ w eq_refl).
Qed.
End casts.

(** *** Where a cast goes *)

Lemma skip_allocas_spec c l : match skip_allocas c l with Some l' => exists n1 n2, l = n1 ++ n2 /\ l' = n1 ++ c :: n2 | None => True end.
Proof.
  induction l as [|i l IH]; [done|]. cbn [skip_allocas]. assert (Hhere : exists n1 n2, i :: l = n1 ++ n2 /\ c :: i :: l = n1 ++ c :: n2) by (by exists [], (i :: l)).
  destruct (i_kind i); try exact Hhere. destruct (skip_allocas c l) as [l'|]; [|done]. destruct IH as (n1 & n2 & -> & ->). by exists (i :: n1), n2.
Qed.
Lemma insert_behind_spec x c l : x ∈ results l -> match insert_behind x c l with Some l' => exists n1 n2, l = n1 ++ n2 /\ l' = n1 ++ c :: n2 /\ x ∈ results n1 | None => True end.
Proof.
  induction l as [|i l IH]; intros Hx; [done|]. cbn [insert_behind]. destruct (has_result i && String.eqb (i_name i) x) eqn:E.
  - apply andb_prop in E as [E1 E2]. apply String.eqb_eq in E2. pose proof (skip_allocas_spec c l) as Hsk. destruct (skip_allocas c l) as [l'|]; [|done]. destruct Hsk as (n1 & n2 & -> & ->).
    exists (i :: n1), n2. split; [done|]. split; [done|]. rewrite (results_cons i n1), (results_result i E1), E2. by left.
  - rewrite (results_cons i l) in Hx. apply elem_of_app in Hx as [Hx|Hx].
    + exfalso. apply results_one in Hx as [Hx ->]. by rewrite Hx, String.eqb_refl in E.
    + specialize (IH Hx). destruct (insert_behind x c l) as [l'|]; [|done]. destruct IH as (n1 & n2 & -> & -> & H3). exists (i :: n1), n2. split; [done|]. split; [done|].
      rewrite (results_cons i n1). apply elem_of_app. by right.
Qed.
Lemma place_behind_spec x c nb t : x ∈ building_names nb -> nb_term nb = Some t -> (x ∈ map phi_name (nb_phis nb) -> last (map phi_name (nb_phis nb)) = Some x) ->
  exists n1 n2, nb_insts nb = n1 ++ n2 /\ place_behind x c nb = Done (set_insts (n1 ++ c :: n2) nb) /\ x ∈ map phi_name (nb_phis nb) ++ results n1.
Proof.
  intros Hx Ht Hlast. unfold place_behind, or_at_end. rewrite Ht. destruct (bool_decide (x ∈ map phi_name (nb_phis nb))) eqn:Ep.
  - apply bool_decide_eq_true in Ep. rewrite (bool_decide_true (last _ = _)) by (by apply Hlast). cbn [assert_ obind]. pose proof (skip_allocas_spec c (nb_insts nb)) as Hsk.
    destruct (skip_allocas c (nb_insts nb)) as [l'|]; cbn [obind].
    + destruct Hsk as (n1 & n2 & -> & ->). exists n1, n2. split; [done|]. split; [done|]. apply elem_of_app. by left.
    + exists (nb_insts nb), []. rewrite app_nil_r. split; [done|]. split; [done|]. apply elem_of_app. by left.
  - apply bool_decide_eq_false in Ep. apply elem_of_app in Hx as [Hx|Hx]; [done|]. pose proof (insert_behind_spec x c (nb_insts nb) Hx) as Hsk.
    destruct (insert_behind x c (nb_insts nb)) as [l'|]; cbn [obind].
    + destruct Hsk as (n1 & n2 & -> & -> & H3). exists n1, n2. split; [done|]. split; [done|]. apply elem_of_app. by right.
    + exists (nb_insts nb), []. rewrite app_nil_r. split; [done|]. split; [done|]. apply elem_of_app. by right.
Qed.
(** Roots of what a part of a block has given are given too. *)
Lemma matches_closed l v P olds n1 n2 : matches M arg_names before l v P olds (n1 ++ n2) -> (forall r, r ∈ P -> exists ρ, vw_root v !! r = Some ρ /\ rooted arg_names before l v P ρ) ->
  forall r, r ∈ P ++ results n1 -> exists ρ, vw_root v !! r = Some ρ /\ rooted arg_names before l v (P ++ results n1) ρ.
Proof.
  assert (Hmore : forall P P' ρ, (forall x, x ∈ P -> x ∈ P') -> rooted arg_names before l v P ρ -> rooted arg_names before l v P' ρ) by (intros P0 P' ρ; apply rooted_more, view_grows_refl).
  intros H. remember (n1 ++ n2) as news eqn:En. revert n1 En. induction H as [P|P i olds news Hi _ IH|P c olds news Hc _ IH|P i c olds news Hc _ IH]; intros n1 En Hclosed.
  - destruct n1; [|done]. unfold results. cbn [List.filter map]. by rewrite app_nil_r.
  - by apply IH.
  - destruct n1 as [|c' n1]; [unfold results; cbn [List.filter map]; by rewrite app_nil_r|]. cbn [app] in En. injection En as <- ->. rewrite (results_cons c n1), app_assoc. apply IH; [done|].
    intros r [Hr|Hr]%elem_of_app.
    + destruct (Hclosed r Hr) as (ρ & E & Hρ). exists ρ. split; [done|]. eapply Hmore; [|exact Hρ]. intros x Hx. apply elem_of_app. by left.
    + apply results_one in Hr as [_ ->]. destruct Hc as (_ & _ & _ & ρ & E & Hρ & _). exists ρ. split; [done|]. eapply Hmore; [|exact Hρ]. intros x Hx. apply elem_of_app. by left.
  - destruct n1 as [|c' n1]; [unfold results; cbn [List.filter map]; by rewrite app_nil_r|]. cbn [app] in En. injection En as <- ->. rewrite (results_cons c n1), app_assoc. apply IH; [done|].
    intros r [Hr|Hr]%elem_of_app.
    + destruct (Hclosed r Hr) as (ρ & E & Hρ). exists ρ. split; [done|]. eapply Hmore; [|exact Hρ]. intros x Hx. apply elem_of_app. by left.
    + pose proof Hr as [Hres ->]%results_one. destruct Hc as (H1 & _ & _ & H4 & _). rewrite H1 in Hres. destruct (H4 Hres) as [E _]. exists (inl (i_name c)). split; [done|]. right. left. apply elem_of_app. by right.
Qed.
Lemma typed_unique st G l nb x t t' : Inv st G -> typed_in st x t -> block_at st l = Some nb -> (x, t') ∈ building_typed nb -> t = t'.
Proof.
  intros H Hx Hl Ht'. pose proof (inv_labels M type_alloc_size F avail Hs st G H) as Hlab. pose proof (iv_names _ _ _ _ _ _ H) as Hn.
  assert (Hin : x ∈ names_at st l) by (unfold names_at; rewrite Hl, <- building_typed_names; by apply (list_elem_of_fmap_2 fst _ (x, t'))).
  destruct Hx as [(t0 & Ha & _)|(l2 & nb2 & Hl2 & Ht)].
  - exfalso. eapply (name_not_arg F st l x); [done..|]. by apply (list_elem_of_fmap_2 fst _ (x, t0)).
  - assert (Hin2 : x ∈ names_at st l2) by (unfold names_at; rewrite Hl2, <- building_typed_names; by apply (list_elem_of_fmap_2 fst _ (x, t))).
    assert (l2 = l) as -> by (by eapply (name_in_one F st l2 l x)). rewrite Hl in Hl2. injection Hl2 as <-.
    assert (Hnb : NoDup (map fst (building_typed nb))).
    { rewrite building_typed_names. unfold names_in_use in Hn. apply NoDup_app in Hn as (_ & _ & Hn). apply block_at_elem in Hl. clear -Hn Hl. induction (newBlocks st) as [|p bs IH]; [by apply not_elem_of_nil in Hl|].
      cbn [flat_map] in Hn. apply NoDup_app in Hn as (H1 & _ & H2). apply elem_of_cons in Hl as [<-|Hl]; [done|by apply IH]. }
    pose proof (NoDup_map_eq fst _ (x, t) (x, t') Hnb Ht Ht' eq_refl) as E. by injection E.
Qed.

(** *** Casts are made *)

(** A pointer phi node is the last phi node of its block. *)
Context (Hlast : forall b pre p post, b ∈ f_blocks F -> bb_phis b = pre ++ p :: post -> is_pointer (phi_type p) = true -> post = []).

Lemma cast_added st st' G b nb n1 n2 n Ty u ρ : Inv st G -> b ∈ f_blocks F -> bb_name b ∈ visitedBB st -> put st st' (bb_name b) nb n1 (inst n Ty (Cast BitCast u)) n2 ->
  n ∉ names_in_use F st -> is_pointer Ty = true -> is_pointer (type_of u) = true -> typed_value st u ->
  usable arg_names before (bb_name b) (look st G) (map phi_name (nb_phis nb) ++ results n1) u -> root_of G u = Some ρ ->
  rooted arg_names before (bb_name b) (look st G) (map phi_name (nb_phis nb) ++ results n1) ρ ->
  exists G', Inv st' G' /\ ext all_blocks st G st' G' /\ n ∈ names_at st' (bb_name b) /\ G' !! n = Some ρ /\ typed_in st' n Ty.
Proof.
  intros H Hb Hv Hput Hn Ht Hu Hty Hus Hr Hρ. set (c := inst n Ty (Cast BitCast u)). assert (Hres : has_result c = true) by (destruct Ty; done).
  assert (Hc : copy_step M F avail st G b c ρ (map phi_name (nb_phis nb) ++ results n1)).
  { split; [done|]. split; [done|]. split; [|split; [done|]].
    - constructor; [|constructor]. split; [done|]. rewrite root_look. by exists ρ.
    - intros f w. cbn [c inst i_kind operands map]. rewrite root_look, Hr. by apply bp_cast. }
  pose proof (put_ext M type_alloc_size F avail st st' G b nb n1 c n2 ρ H Hput (fun _ => Hn)) as Hext. exists (root_added G c ρ).
  assert (Hin : forall x, x ∈ map phi_name (nb_phis nb) ++ results n1 -> x ∈ names_at st (bb_name b)).
  { intros x Hx. unfold names_at. rewrite (pt_block _ _ _ _ _ _ _ Hput). unfold building_names. rewrite (pt_insts _ _ _ _ _ _ _ Hput), results_app, app_assoc. apply elem_of_app. by left. }
  destruct (put_copy M type_alloc_size F avail Hs st st' G b nb n1 c n2 ρ H Hb Hput Hv (fun _ => Hn) Hc) as (K1 & K2 & _ & K4 & K5).
  - unfold cast_ok. cbn [c inst i_kind]. split; [eapply usable_ext; [exact Hext|]; eapply usable_more; [apply view_grows_refl|exact Hin|exact Hus]|]. split; [|split; [done|by eapply typed_ext]].
    rewrite (root_of_ext M type_alloc_size F avail _ _ _ _ _ _ _ Hext Hr). unfold root_added. rewrite Hres. cbn [c inst i_name]. by rewrite lookup_insert_eq.
  - split; [done|]. split; [done|]. split; [|by split]. apply (put_names _ _ _ _ _ _ _ Hput). right. split; [done|]. apply results_one. by split; [exact Hres|].
Qed.
(** At the end of a block. *)
Lemma cast_appended st G b n Ty u : Inv st G -> b ∈ f_blocks F -> bb_name b ∈ visitedBB st ->
  n ∉ names_in_use F st -> is_pointer Ty = true -> is_pointer (type_of u) = true -> typed_value st u -> usable_at st G (bb_name b) u ->
  let st' := map_new (bb_name b) (add_inst (inst n Ty (Cast BitCast u))) st in
  exists G', Inv st' G' /\ ext all_blocks st G st' G' /\ n ∈ names_at st' (bb_name b) /\ G' !! n = root_of G u /\ typed_in st' n Ty.
Proof.
  intros H Hb Hv Hn Ht Hu Hty Hus st'. destruct (inv_block M type_alloc_size F avail st G H b Hb) as (nb & Hnb).
  destruct (usable_root M type_alloc_size F avail Hs st G H (bb_name b) u) as (ρ & Eρ & Hρ); [by apply list_elem_of_fmap_2|done|]. rewrite Eρ.
  assert (HP : names_at st (bb_name b) = map phi_name (nb_phis nb) ++ results (nb_insts nb)) by (unfold names_at; by rewrite Hnb). rewrite HP in Hus, Hρ.
  apply (cast_added st st' G b nb (nb_insts nb) [] n Ty u ρ); try done. apply map_new_put; [by apply (inv_labels M type_alloc_size F avail Hs st G)|done|by rewrite app_nil_r|done].
Qed.
Lemma folded_cast_ok st G l u Ty : is_constant_value u = true -> is_pointer (type_of u) = true -> is_pointer Ty = true -> forall here wanted,
  exists v, create_folded value_name folded F here wanted Ty (Cast BitCast u) st = (v, st) /\ usable_at st G l v /\ root_of G v = root_of G u /\ type_of v = Ty /\ typed_value st v.
Proof.
  intros Hc Hu Ht here wanted. destruct (bp_folded_cast u Ty Hc Hu Ht) as (v & Ev & Hv). destruct (bp_folded_type _ _ Ev) as [T1 T2]. exists v. unfold create_folded. cbn [operands forallb]. rewrite Hc.
  cbn [andb]. rewrite Ev. split; [done|]. split; [by destruct v|]. split; [|split; [exact T1|by destruct v]]. destruct v, u; try done; cbn [RebuildInv.root_of]; by rewrite Hv.
Qed.
(** CreatePointerCast *)
Lemma pointer_cast_ok st G b u Ty wanted : Inv st G -> b ∈ f_blocks F -> bb_name b ∈ visitedBB st -> is_pointer Ty = true -> is_pointer (type_of u) = true -> typed_value st u ->
  usable_at st G (bb_name b) u ->
  exists v st' G', build_pointer_cast value_name folded F (bb_name b) u Ty wanted st = Done (v, st') /\ Inv st' G' /\ ext all_blocks st G st' G' /\ usable_at st' G' (bb_name b) v /\
    root_of G' v = root_of G u /\ type_of v = Ty /\ typed_value st' v.
Proof.
  intros H Hb Hv Ht Hu Hty Hus. unfold build_pointer_cast. destruct (bool_decide (type_of u = Ty)) eqn:E.
  { apply bool_decide_eq_true in E. exists u, st, G. split; [done|]. split; [done|]. split; [apply ext_refl|]. by split. }
  rewrite Hu. cbn [assert_ obind]. assert (pointer_cast_op Ty = BitCast) as -> by (by destruct Ty). destruct (is_constant_value u) eqn:Ec.
  - destruct (folded_cast_ok st G (bb_name b) u Ty Ec Hu Ht (bb_name b) wanted) as (v & -> & V1 & V2 & V3 & V4). exists v, st, G. split; [done|]. split; [done|]. split; [apply ext_refl|]. by split.
  - unfold create_folded. cbn [operands forallb]. rewrite Ec. cbn [andb]. unfold create, insert_inst. set (n := value_name (names_in_use F st) wanted).
    destruct (cast_appended st G b n Ty u H Hb Hv (Hvalue_name _ _) Ht Hu Hty Hus) as (G' & K1 & K2 & K3 & K4 & K5). eexists _, _, G'. split; [reflexivity|]. split; [done|]. split; [done|].
    split; [right; by left|]. by split.
Qed.
Lemma with_cast_inv st G v t r x tx y l : Inv st G -> v = Local x tx -> r = Local y t -> x ∈ names_at st l -> y ∈ names_at st l -> G !! y = G !! x -> typed_in st y t -> Inv (with_cast v t r st) G.
Proof.
  intros [H1 H2 H3 H4 H5 H6 H7 H8 H9 H10 H11 H12] Ev Er Hx Hy Hr Hty. constructor; try done. intros v' t' r' [E|Hin]%elem_of_cons; [|by apply H8]. injection E as -> -> ->. by exists x, tx, y, l.
Qed.
Lemma last_phi st G b nb x tx : Inv st G -> b ∈ f_blocks F -> partial st G b (bb_insts b) -> block_at st (bb_name b) = Some nb -> typed_in st x tx -> is_pointer tx = true ->
  x ∈ map phi_name (nb_phis nb) -> last (map phi_name (nb_phis nb)) = Some x.
Proof.
  intros H Hb (nb' & K1 & K2 & _) Hnb Hty Hp Hx. rewrite Hnb in K1. injection K1 as <-. apply list_elem_of_fmap in Hx as (p' & -> & Hp'). pose proof Hp' as (pre' & post' & E)%list_elem_of_split.
  assert (tx = phi_type p') as ->.
  { eapply (typed_unique st G (bb_name b) nb (phi_name p')); [done..|]. apply elem_of_app. left. by apply (list_elem_of_fmap_2 phi_def _ p'). }
  rewrite E in K2. apply Forall2_app_inv_r in K2 as (pre & rest & _ & K2 & Ephis). inversion K2 as [|p ? post ? Hpp Hpost]; subst. pose proof (proj1 Hpp) as Et. rewrite Et in Hp.
  assert (post = []) as -> by (by eapply Hlast). inversion Hpost; subst. rewrite E, map_app. cbn [map]. by rewrite last_snoc.
Qed.

(** Only the blocks that wait for [here] are unfinished. *)
Definition waiting (st : rebuilding) (here : string) : Prop := forall l, open st l -> l = here \/ before here l.
Lemma waiting_ext keep st G st' G' here : ext keep st G st' G' -> waiting st here -> waiting st' here.
Proof. intros H Hw l Hl. apply Hw. by apply (ex_open _ _ _ _ _ _ _ _ _ H). Qed.
Definition made (st : rebuilding) (G : roots) (here : string) (u : Value) (Ty : ty) (v : Value) (st' : rebuilding) (G' : roots) : Prop :=
  Inv st' G' /\ ext all_blocks st G st' G' /\ usable_at st' G' here v /\ root_of G' v = root_of G u /\ type_of v = Ty /\ typed_value st' v.
Lemma made_here st G here u Ty v : Inv st G -> usable_at st G here v -> root_of G v = root_of G u -> type_of v = Ty -> typed_value st v -> made st G here u Ty v st G.
Proof. intros. split; [done|]. split; [apply ext_refl|]. by split. Qed.
Lemma finished_block st G b1 r : Inv st G -> b1 ∈ f_blocks F -> r ∈ names_at st (bb_name b1) -> ~ open st (bb_name b1) ->
  exists nb t, block_at st (bb_name b1) = Some nb /\ nb_term nb = Some t /\ r ∈ building_names nb /\ bb_name b1 ∈ visitedBB st /\ partial st G b1 (bb_insts b1).
Proof.
  intros H Hb Hr Hopen. unfold names_at in Hr. destruct (block_at st (bb_name b1)) as [nb|] eqn:Enb; [|by apply not_elem_of_nil in Hr].
  assert (Hv : bb_name b1 ∈ visitedBB st).
  { destruct (decide (bb_name b1 ∈ visitedBB st)) as [|Hv]; [done|]. rewrite (iv_unvisited _ _ _ _ _ _ H b1 Hb Hv) in Enb. injection Enb as <-. by apply not_elem_of_nil in Hr. }
  destruct (term_at st (bb_name b1)) as [t|] eqn:Et; [|exfalso; apply Hopen; by split]. destruct (iv_complete _ _ _ _ _ _ H b1 t Hb Et) as (_ & Hp & _).
  exists nb, t. split; [done|]. split; [|by split]. unfold term_at in Et. by rewrite Enb in Et.
Qed.
Lemma makeCast_ok st G b u Ty : Inv st G -> b ∈ f_blocks F -> bb_name b ∈ visitedBB st -> waiting st (bb_name b) ->
  is_pointer Ty = true -> is_pointer (type_of u) = true -> typed_value st u -> usable_at st G (bb_name b) u ->
  exists v st' G', makeCast value_name folded F (bb_name b) u Ty st = Done (v, st') /\ made st G (bb_name b) u Ty v st' G'.
Proof.
  intros H Hb Hv Hw Ht Hu Hty Hus. pose proof (inv_labels M type_alloc_size F avail Hs st G H) as Hlab. pose proof (iv_names _ _ _ _ _ _ H) as Hnames.
  assert (Hl : bb_name b ∈ labels_of) by (by apply list_elem_of_fmap_2). unfold makeCast.
  destruct (findDuplicateType _ _ _ _) as [v|] eqn:Ed.
  { destruct (find_duplicate_ok st G H _ _ _ _ _ Hl Hus Ed) as (K1 & K2 & K3 & K4). exists v, st, G. split; [done|]. by apply made_here. }
  destruct (bool_decide (type_of u = Ty)) eqn:Et.
  { apply bool_decide_eq_true in Et. exists u, st, G. split; [done|]. by apply made_here. }
  assert (Hother : exists v st' G', build_pointer_cast value_name folded F (bb_name b) u Ty "ClamBCRebuild_castc" st = Done (v, st') /\ made st G (bb_name b) u Ty v st' G') by (by apply pointer_cast_ok).
  destruct u as [x tx| | | | | | | | | | | |]; try exact Hother. pose proof (home_spec F st x Hlab Hnames) as Hh. destruct (home x st) as [[target nb]|] eqn:Eh; [|exact Hother].
  destruct Hh as (Hblock & Hin & Hxt). clear Hother. destruct (find_cast (Local x tx) Ty st) as [R|] eqn:Ef.
  { unfold find_cast in Ef. destruct (List.find _ _) as [[[v0 t0] r0]|] eqn:Ef2; [|done]. injection Ef as <-. apply List.find_some in Ef2 as [Ef1 Ef2]. apply bool_decide_eq_true in Ef2. cbn [fst] in Ef2. injection Ef2 as -> ->.
    apply list_elem_of_In in Ef1. destruct (iv_casts _ _ _ _ _ _ H _ _ _ Ef1) as (x' & tx' & y & l & [= <- <-] & -> & K1 & K2 & K3 & K4). exists (Local y Ty), st, G. split; [done|].
    apply made_here; try done. assert (l = target) as -> by (by eapply (name_in_one F st l target x)). eapply (usable_source st G H (bb_name b) x target (Local y Ty)); [done|exact Hus|done|]. right. by left. }
  assert (Hup : is_pointer tx = true) by done. cbn [type_of]. rewrite Hup. cbn [assert_ obind]. set (n := value_name (names_in_use F st) "ClamBCRebuild_castp"). assert (pointer_cast_op Ty = BitCast) as -> by (by destruct Ty).
  set (c := inst n Ty (Cast BitCast (Local x tx))).
  assert (Hfin : forall b1 st1 G1, bb_name b1 = target -> b1 ∈ f_blocks F -> Inv st1 G1 -> ext all_blocks st G st1 G1 -> n ∈ names_at st1 target -> G1 !! n = G !! x -> is_Some (G !! x) -> typed_in st1 n Ty ->
    exists v st' G', Done (Local n Ty, with_cast (Local x tx) Ty (Local n Ty) st1) = Done (v, st') /\ made st G (bb_name b) (Local x tx) Ty v st' G').
  { intros b1 st1 G1 <- Hb1 Hinv1 Hext1 Hn1 Hroot1 (ρ & Eρ) Hty1. eexists _, _, G1. split; [reflexivity|].
    assert (Hus1 : usable_at st1 G1 (bb_name b) (Local n Ty)).
    { eapply (usable_source st1 G1 Hinv1 (bb_name b) x (bb_name b1) (Local n Ty)); [done| |by apply (ex_names _ _ _ _ _ _ _ _ _ Hext1)|right; by left].
      exact (usable_ext M type_alloc_size F avail _ _ _ _ _ _ (Local x tx) Hext1 Hus). }
    assert (Hr1 : G1 !! x = Some ρ) by (eapply lookup_weaken; [exact Eρ|apply (ex_root _ _ _ _ _ _ _ _ _ Hext1)]). split.
    - apply (with_cast_inv st1 G1 (Local x tx) Ty (Local n Ty) x tx n (bb_name b1)); try done; [by apply (ex_names _ _ _ _ _ _ _ _ _ Hext1)|]. by rewrite Hroot1, Eρ.
    - split; [|by split]. destruct Hext1 as [A1 A2 A3 AT A4 A5 A6 A7]. by constructor. }
  destruct (String.eqb_spec target (bb_name b)) as [->|Hne]; cbn [obind].
  - destruct (cast_appended st G b n Ty (Local x tx) H Hb Hv (Hvalue_name _ _) Ht Hu Hty Hus) as (G' & K1 & K2 & K3 & K4 & K5).
    apply (Hfin b _ G'); try done. by destruct (usable_root M type_alloc_size F avail Hs st G H (bb_name b) (Local x tx)) as (ρ & Eρ & _); [..|exists ρ].
  - destruct (list_elem_of_fmap bb_name (f_blocks F) target) as [Htarget _]. destruct Htarget as (b1 & -> & Hb1); [by eapply names_label|].
    assert (Hbefore : before (bb_name b1) (bb_name b)).
    { destruct Hus as [Hus|[Hus|(l0 & Hl0 & Hus)]]; [exfalso; by eapply (name_not_arg F st (bb_name b1) x)| |].
      - exfalso. apply Hne. by eapply (name_in_one F st (bb_name b1) (bb_name b) x).
      - by assert (bb_name b1 = l0) as -> by (by eapply (name_in_one F st (bb_name b1) l0 x)). }
    assert (Hclosed : ~ open st (bb_name b1)).
    { intros Ho. destruct (Hw _ Ho) as [E|Hb2]; [done|]. eapply (before_irrefl F avail Hs (bb_name b)); [done|]. by eapply (before_trans F avail Hs b1). }
    destruct (finished_block st G b1 x H Hb1 Hxt Hclosed) as (nb' & t & Hnb' & Hterm & _ & Hv1 & Hpart). rewrite Hblock in Hnb'. injection Hnb' as <-.
    destruct (place_behind_spec x c nb t Hin Hterm) as (n1 & n2 & En & Ep & Hx); [by eapply (last_phi st G b1)|]. rewrite Ep. cbn [obind].
    assert (Hput : put st (map_new (bb_name b1) (fun _ => set_insts (n1 ++ c :: n2) nb) st) (bb_name b1) nb n1 c n2) by (by apply map_new_put).
    pose proof Hpart as (nb' & Hnb' & Hphis & Hmatch). rewrite Hblock in Hnb'. injection Hnb' as <-. rewrite En in Hmatch.
    destruct (matches_closed _ _ _ _ _ _ Hmatch) with (r := x) as (ρ & Eρ & Hρ); [|exact Hx|].
    { intros r Hr. exists (inl r). split; [|right; by left]. apply list_elem_of_fmap in Hr as (p' & -> & Hp'). by destruct (Forall2_elem_of_r _ _ _ _ Hphis Hp') as (p & _ & _ & _ & ?). }
    destruct (cast_added st _ G b1 nb n1 n2 n Ty (Local x tx) ρ H Hb1 Hv1 Hput (Hvalue_name _ _) Ht Hu Hty) as (G' & K1 & K2 & K3 & K4 & K5); [right; by left|exact Eρ|exact Hρ|].
    cbn [RebuildInv.look vw_root] in Eρ. apply (Hfin b1 _ G'); [done|done|exact K1|exact K2|exact K3|by rewrite K4|by exists ρ|exact K5].
Qed.

(** ** Values *)

(** What bytecode consists of: integers and pointers, direct calls, allocations
    whose size is a constant that fits 32 bits. Pointers that are compared with
    variables, selected or stored may get different types, which the assertions of
    LLVM's constructors refuse. *)
Abbreviation bytes_fit := (bytes_fit type_alloc_size).
Definition inst_supported (i : Inst) : Prop :=
  match i_kind i with
  | Alloca t (ConstantInt k n) => i_type i = TyPtr t /\ t <> TyVoid /\ in_u k n /\ bytes_fit t n
  | Alloca _ _ => False
  | Load p => simple_ty (i_type i) = true /\ is_pointer (type_of p) = true
  | Store v p => i_type i = TyVoid /\ type_of p = TyPtr (type_of v) /\ (is_integer_ty (type_of v) || is_constant_value v) = true
  | GetElementPtr _ p l => is_pointer (i_type i) = true /\ is_pointer (type_of p) = true
  | Binary _ a b => is_integer_ty (i_type i) = true /\ type_of a = i_type i /\ type_of b = i_type i
  | Cast op v =>
      match op with
      | Trunc | SExt | ZExt => is_integer_ty (type_of v) = true /\ is_integer_ty (i_type i) = true /\ type_of v <> i_type i
      | PtrToInt => is_pointer (type_of v) = true /\ is_integer_ty (i_type i) = true
      | IntToPtr => is_integer_ty (type_of v) = true /\ is_pointer (i_type i) = true
      | BitCast => is_pointer (type_of v) = true /\ is_pointer (i_type i) = true
      | OtherCast => False
      end
  | ICmp _ a b => is_integer_ty (i_type i) = true /\ type_of a = type_of b /\
      (is_integer_ty (type_of a) || is_pointer (type_of a) && (is_constant_value a || is_constant_value b)) = true
  | Select c t f => type_of t = i_type i /\ type_of f = i_type i /\ (is_integer_ty (i_type i) || is_pointer (i_type i) && is_constant_value t && is_constant_value f) = true
  | Call (FunctionValue _ (TyPtr (TyFun ret params vararg))) _ args =>
      vararg = false /\ ret = i_type i /\ (ret = TyVoid \/ simple_ty ret = true) /\ params = map type_of args /\ Forall (fun t => simple_ty t = true) params
  | _ => False
  end.
Record supported : Prop := {
  su_args a t : (a, t) ∈ f_args F -> simple_ty t = true;
  su_types x t : Local x t ∈ all_operands F -> (x, t) ∈ typed_defs F;
  su_insts i : i ∈ all_insts F -> inst_supported i;
  su_phis b p : b ∈ f_blocks F -> p ∈ bb_phis b -> simple_ty (phi_type p) = true /\ phi_incoming p <> [] /\ Forall (fun inc : Value * string => type_of (fst inc) = phi_type p) (phi_incoming p);
  su_terms b : b ∈ f_blocks F -> forall v, bb_term b <> Switch v
}.
Context (Hsup : supported).

Lemma typed_names_F : map fst (typed_defs F) = defs F.
Proof.
  unfold typed_defs, defs. rewrite map_app. f_equal. generalize (f_blocks F). intros bs. induction bs as [|b bs IH]; [done|]. cbn [flat_map]. by rewrite map_app, IH, typed_block_names_eq.
Qed.
Lemma one_type x t t' : (x, t) ∈ typed_defs F -> (x, t') ∈ typed_defs F -> t = t'.
Proof.
  intros H H'. pose proof (sc_defs _ _ Hs) as Hn. rewrite <- typed_names_F in Hn. pose proof (NoDup_map_eq fst _ (x, t) (x, t') Hn H H' eq_refl) as E. by injection E.
Qed.
Lemma block_typed_def b x t : b ∈ f_blocks F -> (x, t) ∈ typed_block_defs b -> (x, t) ∈ typed_defs F.
Proof. intros Hb H. apply elem_of_app. right. apply elem_of_flat_map. by exists b. Qed.
Lemma arg_typed_def a t : (a, t) ∈ f_args F -> (a, t) ∈ typed_defs F.
Proof. intros H. apply elem_of_app. by left. Qed.
Lemma rebuilt_alike t : simple_ty t = true -> alike t (rebuildType type_alloc_size false t).
Proof. destruct t; try done; intros _; [by left|by right]. Qed.
Lemma rebuilt_pointer t : is_pointer t = true -> rebuildType type_alloc_size false t = i8pTy.
Proof. by destruct t. Qed.
Lemma rebuilt_integer t : is_integer_ty t = true -> rebuildType type_alloc_size false t = t.
Proof. by destruct t. Qed.

Lemma matches_old l v P olds news : matches M arg_names before l v P olds news -> forall x, x ∈ results olds -> is_Some (vw_old v x).
Proof.
  assert (Hone : forall i olds x, x ∈ results (i :: olds) -> has_result i = true /\ x = i_name i \/ x ∈ results olds).
  { intros i olds0 x Hx. rewrite (results_cons i olds0) in Hx. apply elem_of_app in Hx as [Hx|Hx]; [left; by apply results_one|by right]. }
  induction 1 as [P|P i olds news Hi _ IH|P c olds news _ _ IH|P i c olds news Hi _ IH]; intros x Hx.
  - by apply not_elem_of_nil in Hx.
  - destruct (Hone _ _ _ Hx) as [[_ ->]|Hx']; [|by apply IH]. destruct Hi as (_ & _ & _ & ρ & E & _). by exists ρ.
  - by apply IH.
  - destruct (Hone _ _ _ Hx) as [[Hres ->]|Hx']; [|by apply IH]. destruct Hi as (_ & _ & _ & E & _). destruct (E Hres) as [_ E']. by exists (inl (i_name c)).
Qed.
Lemma partial_mapped st G b olds x : partial st G b olds -> x ∈ map phi_name (bb_phis b) ++ results olds -> is_Some (VMap st !! x).
Proof.
  intros (nb & _ & H2 & H3) [Hx|Hx]%elem_of_app.
  - apply list_elem_of_fmap in Hx as (p & -> & Hp). destruct (Forall2_elem_of_l _ _ _ _ H2 Hp) as (p' & _ & _ & E & _). by eexists.
  - destruct (matches_old _ _ _ _ _ H3 x Hx) as (ρ & E). cbn [RebuildInv.look vw_old] in E. apply bind_Some in E as (u & E & _). by exists u.
Qed.

Definition unvisited_blocks (st : rebuilding) : nat := length (List.filter (fun b => negb (bool_decide (bb_name b ∈ visitedBB st))) (f_blocks F)).
Lemma unvisited_fewer st st' : (forall l, l ∈ visitedBB st -> l ∈ visitedBB st') -> (unvisited_blocks st' <= unvisited_blocks st)%nat.
Proof.
  intros H. unfold unvisited_blocks. generalize (f_blocks F). intros bs. induction bs as [|b bs IH]; [done|]. cbn [List.filter]. destruct (bool_decide (bb_name b ∈ visitedBB st)) eqn:E.
  - apply bool_decide_eq_true, H in E. rewrite bool_decide_true by done. cbn [negb]. exact IH.
  - destruct (bool_decide (bb_name b ∈ visitedBB st')); cbn [negb length]; lia.
Qed.
(** What visiting a block on demand does. *)
Definition demand (rec : string -> rebuilding -> outcome rebuilding) (k : nat) : Prop := forall b st G, Inv st G -> b ∈ f_blocks F -> bb_name b ∉ visitedBB st ->
  (forall l, open st l -> before (bb_name b) l) -> (unvisited_blocks st <= k)%nat ->
  exists st' G', rec (bb_name b) st = Done st' /\ Inv st' G' /\ ext all_blocks st G st' G' /\ bb_name b ∈ visitedBB st'.

Section values.
Context (rec : string -> rebuilding -> outcome rebuilding) (k : nat) (Hrec : demand rec k).
Record visiting (st : rebuilding) (G : roots) (b : Block) (olds : list Inst) : Prop := {
  vs_inv : Inv st G; vs_block : b ∈ f_blocks F; vs_open : open st (bb_name b); vs_waiting : waiting st (bb_name b); vs_partial : partial st G b olds;
  vs_prefix : olds `prefix_of` bb_insts b; vs_fuel : (unvisited_blocks st <= k)%nat;
  vs_rest x : x ∈ block_defs b -> is_Some (VMap st !! x) -> x ∈ map phi_name (bb_phis b) ++ results olds
}.
Lemma visiting_ext st G b olds st' G' : visiting st G b olds -> Inv st' G' -> ext all_blocks st G st' G' -> visiting st' G' b olds.
Proof.
  intros [H1 H2 H3 H4 H5 H6 H7 H8] Hinv Hext. constructor; [done|done|by apply (ex_open _ _ _ _ _ _ _ _ _ Hext)|by eapply waiting_ext| |done| |].
  - apply (ex_partial _ _ _ _ _ _ _ _ _ Hext); [done|apply H3|done|done].
  - etrans; [|exact H7]. apply unvisited_fewer, (ex_visited _ _ _ _ _ _ _ _ _ Hext).
  - intros x Hx Hx'. destruct (ex_fresh _ _ _ _ _ _ _ _ _ Hext x Hx') as [Hold|(b' & Hb' & Hxb & Hc)]; [by apply H8|]. assert (b' = b) as -> by (by eapply (block_of_def_eq F avail Hs)).
    destruct Hc as [Hc|Hc]; [by destruct Hc; apply H3|by destruct Hc].
Qed.
(** An operand of the next instruction. *)
Definition operand_ok (b : Block) (olds : list Inst) (o : Value) : Prop :=
  forall x t, o = Local x t -> x ∈ arg_names ++ avail (bb_name b) ++ map phi_name (bb_phis b) ++ results olds /\ (x, t) ∈ typed_defs F.
Lemma found_mapped st G b olds x t u : Inv st G -> b ∈ f_blocks F -> olds `prefix_of` bb_insts b -> operand_ok b olds (Local x t) -> VMap st !! x = Some u -> mapped st G (bb_name b) (Local x t) u.
Proof.
  intros H Hb Hpre Hop Hx. destruct (Hop x t eq_refl) as [Hin Ht]. assert (Hl : bb_name b ∈ labels_of) by (by apply list_elem_of_fmap_2).
  assert (Hgood : usable_at st G (bb_name b) u /\ alike t (type_of u) /\ typed_value st u).
  { destruct (decide (x ∈ arg_names)) as [Ha|Ha].
    - apply list_elem_of_fmap in Ha as ([a t0] & -> & Ha). destruct (iv_args _ _ _ _ _ _ H a t0 Ha) as [E _]. cbn [fst] in Hx, Ht. rewrite E in Hx. injection Hx as <-.
      assert (t0 = t) as -> by (eapply one_type; [by apply arg_typed_def|done]). split; [left; by apply (list_elem_of_fmap_2 fst _ (a, t))|]. split; [apply rebuilt_alike; by eapply su_args|].
      left. by exists t.
    - destruct (iv_map _ _ _ _ _ _ H x u Hx) as [|(b0 & t0 & Hb0 & Ht0 & Hu & Hal & Hty)]; [done|]. assert (t0 = t) as -> by (eapply one_type; [by eapply block_typed_def|done]).
      split; [|by split]. assert (Hx0 : x ∈ block_defs b0) by (rewrite <- typed_block_names_eq; by apply (list_elem_of_fmap_2 fst _ (x, t))).
      rewrite !elem_of_app in Hin. destruct Hin as [Hin|[Hin|Hin]]; [done| |].
      + destruct u as [r tr| | | | | | | | | | | |]; try done. apply (given_dominated M F avail Hs st G b0); [done|done| |done]. by exists b0, x.
      + assert (b0 = b) as -> by (eapply (block_of_def_eq F avail Hs _ _ x); [done..|]; unfold block_defs; apply elem_of_app; destruct Hin as [Hin|Hin]; [by left|right];
          destruct Hpre as (rest & ->); rewrite results_app; apply elem_of_app; by left). done. }
  destruct Hgood as (Hu & Hal & Hty). destruct (usable_root M type_alloc_size F avail Hs st G H (bb_name b) u Hl Hu) as (ρ & Eρ & _).
  split; [done|]. split; [cbn [old_root RebuildInv.look vw_old]; by rewrite Hx|]. split; [by exists ρ|]. by split.
Qed.
Lemma mapValue_ok st G b olds o : visiting st G b olds -> operand_ok b olds o ->
  exists v st' G', mapValue F rec o st = Done (v, st') /\ visiting st' G' b olds /\ ext all_blocks st G st' G' /\ mapped st' G' (bb_name b) o v.
Proof.
  intros Hvis Hop. pose proof Hvis as [H Hb Hopen Hw Hp Hpre Hf _]. destruct o as [x t| | | | | | | | | | | |];
    try (eexists _, st, G; split; [reflexivity|]; split; [done|]; split; [apply ext_refl|]; split; [done|]; split; [done|]; split; [by eexists|]; split; [apply alike_refl|done]).
  cbn [mapValue]. destruct (VMap st !! x) as [u|] eqn:Ex.
  { exists u, st, G. split; [done|]. split; [done|]. split; [apply ext_refl|]. by eapply found_mapped. }
  destruct (Hop x t eq_refl) as [Hin Ht]. rewrite !elem_of_app in Hin. assert (Hl : bb_name b ∈ labels_of) by (by apply list_elem_of_fmap_2).
  assert (Hav : x ∈ avail (bb_name b)).
  { destruct Hin as [Ha|[Ha|Ha]]; [|done|].
    - exfalso. apply list_elem_of_fmap in Ha as ([a t0] & -> & Ha). destruct (iv_args _ _ _ _ _ _ H a t0 Ha) as [E _]. cbn [fst] in Ex. congruence.
    - exfalso. destruct (partial_mapped st G b olds x Hp) as (u & E); [by apply elem_of_app|congruence]. }
  destruct (sc_defined _ _ Hs b x Hb Hav) as (b0 & Hb0 & Hx0). assert (Hbefore : before (bb_name b0) (bb_name b)) by (by exists b0, x).
  assert (Hparent : parent F x = Some (bb_name b0)).
  { unfold parent. destruct (List.find _ _) as [b1|] eqn:E.
    - apply List.find_some in E as [E1 E2]. apply list_elem_of_In in E1. apply bool_decide_eq_true in E2. by rewrite (block_of_def_eq F avail Hs b1 b0 x).
    - exfalso. apply list_elem_of_In in Hb0. eapply List.find_none in E; [|exact Hb0]. by apply bool_decide_eq_false in E. }
  rewrite Hparent. assert (Hnv : bb_name b0 ∉ visitedBB st).
  { intros Hv. destruct (term_at st (bb_name b0)) as [t'|] eqn:Et.
    - destruct (iv_complete _ _ _ _ _ _ H b0 t' Hb0 Et) as (_ & Hp0 & _). destruct (partial_mapped st G b0 _ x Hp0 Hx0) as (u & E). congruence.
    - destruct (Hw (bb_name b0)) as [E|Hb2]; [by split| |].
      + rewrite E in Hbefore. by eapply (before_irrefl F avail Hs (bb_name b)).
      + eapply (before_irrefl F avail Hs (bb_name b)); [done|]. by eapply (before_trans F avail Hs b0). }
  destruct (Hrec b0 st G H Hb0 Hnv) as (st' & G' & E & Hinv' & Hext & Hv'); [|done|].
  { intros l Hlo. destruct (Hw l Hlo) as [->|Hbl]; [done|]. eapply (before_trans F avail Hs b); [done|done| |done]. by apply (iv_visited _ _ _ _ _ _ H), Hlo. }
  rewrite E. cbn [obind]. assert (Hvis' : visiting st' G' b olds) by (by eapply visiting_ext).
  destruct (term_at st' (bb_name b0)) as [t'|] eqn:Et.
  - destruct (iv_complete _ _ _ _ _ _ Hinv' b0 t' Hb0 Et) as (_ & Hp0 & _). destruct (partial_mapped st' G' b0 _ x Hp0 Hx0) as (u & Eu). rewrite Eu.
    exists u, st', G'. split; [done|]. split; [done|]. split; [done|]. by eapply found_mapped.
  - exfalso. apply Hnv. by apply (ex_open _ _ _ _ _ _ _ _ _ Hext (bb_name b0)).
Qed.
Lemma mapValues_ok b olds os : forall st G, visiting st G b olds -> Forall (operand_ok b olds) os ->
  exists vs st' G', mapValues F rec os st = Done (vs, st') /\ visiting st' G' b olds /\ ext all_blocks st G st' G' /\ Forall2 (mapped st' G' (bb_name b)) os vs.
Proof.
  induction os as [|o os IH]; intros st G Hvis Hops; cbn [mapValues].
  - exists [], st, G. split; [done|]. split; [done|]. split; [apply ext_refl|constructor].
  - apply Forall_cons in Hops as [Ho Hops]. destruct (mapValue_ok st G b olds o Hvis Ho) as (v & st1 & G1 & -> & Hvis1 & Hext1 & Hm1). cbn [obind].
    destruct (IH st1 G1 Hvis1 Hops) as (vs & st2 & G2 & -> & Hvis2 & Hext2 & Hm2). cbn [obind]. exists (v :: vs), st2, G2. split; [done|]. split; [done|]. split; [by eapply ext_trans|].
    constructor; [by eapply mapped_ext|done].
Qed.
Lemma cast_mapped st G b olds o u Ty : visiting st G b olds -> mapped st G (bb_name b) o u -> is_pointer (type_of o) = true -> is_pointer Ty = true ->
  exists v st' G', makeCast value_name folded F (bb_name b) u Ty st = Done (v, st') /\ visiting st' G' b olds /\ ext all_blocks st G st' G' /\ mapped st' G' (bb_name b) o v /\ type_of v = Ty.
Proof.
  intros Hvis (M1 & M2 & (ρ & M3) & M4 & M5) Ho Ht. pose proof Hvis as [H Hb Hopen Hw Hp Hpre Hf _]. assert (Hu : is_pointer (type_of u) = true) by (by rewrite <- (alike_pointer _ _ M4)).
  destruct (makeCast_ok st G b u Ty H Hb (proj1 Hopen) Hw Ht Hu M5 M1) as (v & st' & G' & E & Hinv & Hext & K1 & K2 & K3 & K4). exists v, st', G'. split; [done|]. split; [by eapply visiting_ext|]. split; [done|].
  split; [|done]. rewrite M3 in K2. split; [done|]. split.
  - rewrite K2. symmetry. eapply old_root_grows; [by eapply ext_grows|]. by rewrite <- M2.
  - split; [by exists ρ|]. split; [|done]. right. by rewrite K3.
Qed.
Lemma mapPointer_ok st G b olds P Ty : visiting st G b olds -> operand_ok b olds P -> is_pointer (type_of P) = true -> is_pointer Ty = true ->
  exists v st' G', mapPointer value_name folded strip_constant F rec (bb_name b) P Ty st = Done (v, st') /\ visiting st' G' b olds /\ ext all_blocks st G st' G' /\
    mapped st' G' (bb_name b) P v /\ type_of v = Ty.
Proof.
  intros Hvis Hop HP Ht. unfold mapPointer. destruct (mapValue_ok st G b olds P Hvis Hop) as (PV & st1 & G1 & -> & Hvis1 & Hext1 & Hm). cbn [obind].
  destruct (bool_decide (type_of PV = Ty) && negb (is_new_alloca PV st1)) eqn:E.
  { apply andb_prop in E as [E _]. apply bool_decide_eq_true in E. exists PV, st1, G1. by split. }
  clear E. pose proof Hvis1 as [H1 Hb _ _ _ _ _ _]. destruct Hm as (M1 & M2 & M3 & M4 & M5). set (u := strip_pointer_casts strip_constant (enough F st1) st1 PV).
  destruct (strip_ok st1 G1 H1 (enough F st1) (bb_name b) PV) as (S1 & S2 & S3 & S4); [by apply list_elem_of_fmap_2|done|by rewrite <- (alike_pointer _ _ M4)|done|]. fold u in S1, S2, S3, S4.
  assert (Hu : mapped st1 G1 (bb_name b) P u) by (split; [done|]; split; [by rewrite S2|]; split; [by rewrite S2|]; split; [by right|done]).
  destruct (is_new_alloca u st1); cbn [obind].
  - destruct (cast_mapped st1 G1 b olds P u i8pTy Hvis1 Hu HP eq_refl) as (v & st2 & G2 & -> & Hvis2 & Hext2 & Hv & _). cbn [obind].
    destruct (cast_mapped st2 G2 b olds P v Ty Hvis2 Hv HP Ht) as (v3 & st3 & G3 & -> & Hvis3 & Hext3 & Hv3 & Et). exists v3, st3, G3. split; [done|]. split; [done|]. split; [|done].
    eapply ext_trans; [exact Hext1|]. by eapply ext_trans.
  - destruct (cast_mapped st1 G1 b olds P u Ty Hvis1 Hu HP Ht) as (v3 & st3 & G3 & -> & Hvis3 & Hext3 & Hv3 & Et). exists v3, st3, G3. split; [done|]. split; [done|]. split; [|done]. by eapply ext_trans.
Qed.

(** *** An instruction is done *)

Abbreviation not b := (fun l => l <> bb_name b).
Definition advances (st : rebuilding) (G : roots) (b : Block) (olds : list Inst) (i : Inst) (st' : rebuilding) : Prop :=
  exists G', visiting st' G' b (olds ++ [i]) /\ ext (not b) st G st' G'.
Lemma stepped st G b olds i st' G' : visiting st G b olds -> olds ++ [i] `prefix_of` bb_insts b -> Inv st' G' -> ext (not b) st G st' G' -> partial st' G' b (olds ++ [i]) ->
  (forall x, is_Some (VMap st' !! x) -> is_Some (VMap st !! x) \/ x ∈ results [i]) -> advances st G b olds i st'.
Proof.
  intros [H1 H2 H3 H4 H5 H6 H7 H8] Hpre Hinv Hext Hpart Hmap. exists G'. split; [|done]. constructor; [done|done|by apply (ex_open _ _ _ _ _ _ _ _ _ Hext)|by eapply waiting_ext|done|done| |].
  - etrans; [|exact H7]. apply unvisited_fewer, (ex_visited _ _ _ _ _ _ _ _ _ Hext).
  - intros x Hx Hx'. rewrite results_app, app_assoc. apply elem_of_app. destruct (Hmap x Hx') as [Ho|Hi]; [left; by apply H8|by right].
Qed.
Lemma advances_after st G b olds i st1 G1 st' : ext all_blocks st G st1 G1 -> advances st1 G1 b olds i st' -> advances st G b olds i st'.
Proof. intros Hext (G' & H1 & H2). exists G'. split; [done|]. eapply ext_trans; [|exact H2]. by eapply ext_weaken; [|exact Hext]. Qed.
Lemma next_result st G b olds i : visiting st G b olds -> olds ++ [i] `prefix_of` bb_insts b -> has_result i = true ->
  i_name i ∉ arg_names /\ VMap st !! i_name i = None /\ (i_name i, i_type i) ∈ typed_block_defs b.
Proof.
  intros [H1 H2 H3 H4 H5 H6 H7 H8] (rest & E) Hres. assert (Hin : i_name i ∈ block_defs b).
  { unfold block_defs. rewrite E, !results_app, !elem_of_app. right. left. right. by apply results_one. }
  split; [by apply (def_not_arg_name F avail Hs b)|]. split.
  - destruct (VMap st !! i_name i) as [u|] eqn:Eu; [|done]. exfalso. pose proof (block_defs_NoDup F avail Hs b H2) as Hn. unfold block_defs in Hn. rewrite E, !results_app, (results_result i Hres) in Hn.
    rewrite !app_assoc in Hn. apply NoDup_app in Hn as (Hn & _ & _). apply NoDup_app in Hn as (_ & Hn & _). apply (Hn (i_name i)); [|by left]. apply H8; [done|by rewrite Eu].
  - unfold typed_block_defs. apply elem_of_app. right. apply elem_of_flat_map. exists i. rewrite E, !elem_of_app. split; [left; right; by left|]. unfold inst_defs. rewrite Hres. by left.
Qed.
Lemma remembered_map i u st x : is_Some (VMap (remembered i u st) !! x) -> is_Some (VMap st !! x) \/ x ∈ results [i].
Proof.
  unfold remembered. destruct (has_result i) eqn:E; [|by left]. cbn [with_VMap VMap]. destruct (decide (x = i_name i)) as [->|Hne]; [right; by apply results_one|]. rewrite lookup_insert_ne by done. by left.
Qed.
Lemma image_advances st G b olds i n t kd : visiting st G b olds -> olds ++ [i] `prefix_of` bb_insts b -> has_result (inst n t kd) = has_result i ->
  (has_result i = true -> n ∉ names_in_use F st /\ alike (i_type i) t) -> known_old M (look st G) (operands (i_kind i)) ->
  usables M arg_names before (bb_name b) (look st G) (names_at st (bb_name b)) (operands kd) ->
  (forall st' G', ext (not b) st G st' G' -> has_result i = true -> cast_ok M type_alloc_size F avail st' G' (bb_name b) (inst n t kd)) ->
  (forall calls calls', (forall g args w r, calls g args w = Some r -> calls' g args w = Some r) -> forall f w r,
    sem (Meaning := with_calls M calls) i (map (fun o => value_at M f (old_root M (look st G) o)) (operands (i_kind i))) w = Some r ->
    sem (Meaning := with_calls M calls') (inst n t kd) (map (fun o => value_at M f (root M (look st G) o)) (operands kd)) w = Some r) ->
  advances st G b olds i (remembered i (Local n t) (map_new (bb_name b) (add_inst (inst n t kd)) st)).
Proof.
  intros Hvis Hpre Hres Hnew Hk Hu Hc Hsem. pose proof Hvis as [H1 H2 H3 H4 H5 H6 H7 H8].
  destruct (image_step M type_alloc_size F avail Hs st G b olds i H1 H2 H3 H5 (next_result st G b olds i Hvis Hpre) n t kd Hres Hnew Hk Hu Hc Hsem) as (G' & K1 & K2 & K3 & _).
  eapply stepped; [exact Hvis|exact Hpre|exact K1|exact K2|exact K3|]. intros x Hx. by apply remembered_map in Hx.
Qed.
Lemma alias_advances st G b olds i u : visiting st G b olds -> olds ++ [i] `prefix_of` bb_insts b -> has_result i = true -> is_call_inst i = false ->
  known_old M (look st G) (operands (i_kind i)) -> usable_at st G (bb_name b) u -> alike (i_type i) (type_of u) -> typed_value st u ->
  (forall f w, sem (Meaning := M) i (map (fun o => value_at M f (old_root M (look st G) o)) (operands (i_kind i))) w = Some (value_at M f (root_of G u), w)) ->
  advances st G b olds i (remembered i u st).
Proof.
  intros Hvis Hpre Hres Hcall Hk Hu Ht Hty Hsem. pose proof Hvis as [H1 H2 H3 H4 H5 H6 H7 H8].
  destruct (alias_step M type_alloc_size F avail Hs st G b olds i H1 H2 H3 H5 (next_result st G b olds i Hvis Hpre) u Hres Hcall Hk Hu Ht Hty Hsem) as (K1 & K2 & K3).
  eapply stepped; [exact Hvis|exact Hpre|exact K1|exact K2|exact K3|]. intros x Hx. by apply remembered_map in Hx.
Qed.

Lemma alike_result i n t kd : alike (i_type i) t -> has_result (inst n t kd) = has_result i.
Proof. unfold has_result. cbn [inst i_type]. intros [->|[H1 H2]]; [done|]. by destruct (i_type i), t. Qed.
Lemma same_op_calls i i' calls calls' vs w r : same_op i i' -> sem (Meaning := with_calls M calls) i vs w = Some r -> sem (Meaning := with_calls M calls') i' vs w = Some r.
Proof.
  intros Hsame. assert (is_call_inst i = false /\ is_call_inst i' = false) as [H1 H2].
  { destruct Hsame as [_ Hsame]. unfold is_call_inst. destruct (i_kind i), (i_kind i'); done. }
  rewrite !sem_no_call by done. by rewrite (bp_same i i').
Qed.
Lemma same_op_no_call i i' : same_op i i' -> is_call_inst i = false.
Proof. intros [_ Hsame]. unfold is_call_inst. destruct (i_kind i), (i_kind i'); done. Qed.
Definition copy_free (kd : inst_kind) : Prop := match kd with Cast BitCast _ => False | GetElementPtr _ _ idx => forallb zero_index idx = false | _ => True end.
Lemma copy_free_ok st G l n t kd : copy_free kd -> cast_ok M type_alloc_size F avail st G l (inst n t kd).
Proof. unfold cast_ok, copy_free. cbn [inst i_kind]. destruct kd as [| | |inb p idx| |op v| | | | | |]; try done; [by intros ->|by destruct op]. Qed.
Lemma same_image st G b olds i n t kd : visiting st G b olds -> olds ++ [i] `prefix_of` bb_insts b -> Forall2 (mapped st G (bb_name b)) (operands (i_kind i)) (operands kd) ->
  same_op i (inst n t kd) -> (has_result i = true -> n ∉ names_in_use F st) -> copy_free kd ->
  advances st G b olds i (remembered i (Local n t) (map_new (bb_name b) (add_inst (inst n t kd)) st)).
Proof.
  intros Hvis Hpre Hm Hsame Hn Hfree. pose proof (proj1 Hsame) as Hal. cbn [inst i_type] in Hal. apply image_advances; [done|done|by apply alike_result|by intros Hres; split; [apply Hn|]|by eapply mapped_known|by eapply mapped_usables| |].
  - intros st' G' _ _. by apply copy_free_ok.
  - intros calls calls' Hc f w r. rewrite (mapped_values M type_alloc_size F avail st G (bb_name b) _ _ f Hm). by apply same_op_calls.
Qed.
Lemma all_constant_values st G l os os' f : Forall2 (mapped st G l) os os' -> forallb is_constant_value os' = true ->
  map (fun o => value_at M f (old_root M (look st G) o)) os = map constant_meaning os'.
Proof.
  intros Hm. rewrite (mapped_values M type_alloc_size F avail st G l os os' f Hm). clear Hm. induction os' as [|o os' IH]; [done|]. cbn [forallb map]. intros [Ho Hos]%andb_prop. rewrite IH by done. by destruct o.
Qed.
Lemma folded_same st G b olds i wanted t kd : visiting st G b olds -> olds ++ [i] `prefix_of` bb_insts b -> has_result i = true ->
  Forall2 (mapped st G (bb_name b)) (operands (i_kind i)) (operands kd) -> (forall n, same_op i (inst n t kd)) -> copy_free kd ->
  advances st G b olds i (remember i (create_folded value_name folded F (bb_name b) wanted t kd st)).
Proof.
  intros Hvis Hpre Hres Hm Hsame Hfree. unfold create_folded. destruct (forallb is_constant_value (operands kd)) eqn:Ec; [destruct (folded (inst "" t kd)) as [v|] eqn:Ev|].
  - destruct (bp_folded_type _ _ Ev) as [T1 T2]. cbn [inst i_type] in T1.
    change (advances st G b olds i (remembered i v st)). apply alias_advances; [done|done|done|exact (same_op_no_call _ _ (Hsame ""))|by eapply mapped_known|by destruct v| |by destruct v|].
    + rewrite T1. apply (proj1 (Hsame "")).
    + intros f w. rewrite (all_constant_values st G (bb_name b) _ _ f Hm Ec). rewrite (bp_same _ _ _ _ (Hsame "")). pose proof (bp_folded (inst "" t kd) v w Ev Ec) as Hf. cbn [inst i_kind] in Hf. rewrite Hf. by destruct v.
  - by apply (same_image st G b olds i (value_name (names_in_use F st) wanted) t kd).
  - by apply (same_image st G b olds i (value_name (names_in_use F st) wanted) t kd).
Qed.

(** *** The visitors *)

Ltac each_operand := unfold alikes; repeat first [exact (List.Forall2_nil _)|refine (List.Forall2_cons _ _ _ _)].

Lemma inst_eta i : i = inst (i_name i) (i_type i) (i_kind i).
Proof. by destruct i. Qed.
Lemma mapped_constant st G l c : is_constant_value c = true -> mapped st G l c c.
Proof. intros H. split; [by destruct c|]. split; [by destruct c|]. split; [destruct c; try done; by eexists|]. split; [apply alike_refl|by destruct c]. Qed.
Lemma mapValue_constant st o v st' : is_constant_value o = true -> mapValue F rec o st = Done (v, st') -> v = o.
Proof. destruct o; try done; intros _; cbn [mapValue]; intros [= <- _]; done. Qed.
Lemma mapped_type st G l st' o v : mapValue F rec o st = Done (v, st') -> mapped st' G l o v -> (is_integer_ty (type_of o) || is_constant_value o) = true -> type_of v = type_of o.
Proof.
  intros E (_ & _ & _ & Ht & _) [Hi|Hc]%orb_prop; [by apply alike_integer|]. by rewrite (mapValue_constant st o v st' Hc E).
Qed.
Lemma mapped_value_one st G l o v f : mapped st G l o v -> value_at M f (old_root M (look st G) o) = value_at M f (root_of G v).
Proof. intros (_ & -> & _). done. Qed.

(** Casts do not look at what old names are mapped to. *)
Lemma find_duplicate_with_VMap x u st fuel v t : findDuplicateType fuel (with_VMap x u st) v t = findDuplicateType fuel st v t.
Proof.
  revert v. induction fuel as [|fuel IH]; intros v; [done|]. cbn [findDuplicateType]. destruct v; try done. change (new_inst x0 (with_VMap x u st)) with (new_inst x0 st).
  destruct (new_inst x0 st) as [[n tn kd]|]; [|done]. destruct kd as [| | | | |op w| | | | | |]; try done. destruct op; try done. by rewrite IH.
Qed.
Lemma make_cast_with_VMap x u here v t st :
  makeCast value_name folded F here v t (with_VMap x u st) = (let* (r, st') := makeCast value_name folded F here v t st in Done (r, with_VMap x u st')).
Proof.
  assert (Hother : build_pointer_cast value_name folded F here v t "ClamBCRebuild_castc" (with_VMap x u st) =
    (let* (r, st') := build_pointer_cast value_name folded F here v t "ClamBCRebuild_castc" st in Done (r, with_VMap x u st'))).
  { unfold build_pointer_cast. destruct (bool_decide _); [done|]. destruct (is_pointer (type_of v)); [|done]. cbn [assert_ obind]. unfold create_folded. by destruct (if forallb _ _ then _ else _). }
  unfold makeCast. rewrite find_duplicate_with_VMap. change (enough F (with_VMap x u st)) with (enough F st). destruct (findDuplicateType _ _ _ _); [done|].
  destruct (bool_decide _); [done|]. destruct v as [y ty0| | | | | | | | | | | |]; try exact Hother. change (home y (with_VMap x u st)) with (home y st). destruct (home y st) as [[target nb]|]; [|exact Hother].
  change (find_cast (Local y ty0) t (with_VMap x u st)) with (find_cast (Local y ty0) t st). destruct (find_cast _ _ _); [done|]. destruct (is_pointer _); [|done]. cbn [assert_ obind].
  change (names_in_use F (with_VMap x u st)) with (names_in_use F st). destruct (String.eqb target here); [done|]. by destruct (place_behind _ _ _).
Qed.
Lemma own_result b olds i : b ∈ f_blocks F -> olds ++ [i] `prefix_of` bb_insts b -> has_result i = true -> i_name i ∉ map phi_name (bb_phis b).
Proof.
  intros Hb (rest & E) Hres Hin. pose proof (block_defs_NoDup F avail Hs b Hb) as Hn. unfold block_defs in Hn. rewrite E, !results_app in Hn. apply NoDup_app in Hn as (_ & Hn & _).
  apply (Hn _ Hin). apply elem_of_app. left. apply elem_of_app. right. by apply results_one.
Qed.
Lemma remap_advances st0 G0 st G b olds i u0 u : visiting st0 G0 b olds -> olds ++ [i] `prefix_of` bb_insts b -> has_result i = true -> visiting st G b (olds ++ [i]) -> ext (not b) st0 G0 st G ->
  VMap st !! i_name i = Some u0 -> root_of G u = root_of G u0 -> usable_at st G (bb_name b) u -> alike (i_type i) (type_of u) -> typed_value st u ->
  advances st0 G0 b olds i (remembered i u st).
Proof.
  intros Hvis0 Hpre Hres Hvis Hext Hu0 Hroot Hu Ht Hty. destruct (next_result st0 G0 b olds i Hvis0 Hpre Hres) as (N1 & N2 & N3). pose proof Hvis as [H1 H2 H3 H4 H5 H6 H7 H8].
  destruct (remap_frame M type_alloc_size F avail Hs st G (i_name i) (i_type i) u0 u b H1 Hu0 Hroot H2 N3 (own_result b olds i H2 Hpre Hres) Hu Ht Hty) as (K1 & K2 & K3).
  unfold remembered. rewrite Hres. exists G. split; [|by apply K3]. constructor; try done; [by apply K2|]. intros x Hx Hx'. apply H8; [done|]. cbn [with_VMap VMap] in Hx'.
  destruct (decide (x = i_name i)) as [->|Hne]; [by rewrite Hu0|]. by rewrite lookup_insert_ne in Hx'.
Qed.
Lemma pointer_mapped st G b olds o u Ty wanted : visiting st G b olds -> mapped st G (bb_name b) o u -> is_pointer (type_of o) = true -> is_pointer Ty = true ->
  exists v st' G', build_pointer_cast value_name folded F (bb_name b) u Ty wanted st = Done (v, st') /\ visiting st' G' b olds /\ ext all_blocks st G st' G' /\ mapped st' G' (bb_name b) o v.
Proof.
  intros Hvis Hm Ho Ht. pose proof Hm as (M1 & _ & (ρ & M3) & M4 & M5). pose proof Hvis as [H Hb Hopen _ _ _ _ _]. assert (Hu : is_pointer (type_of u) = true) by (by rewrite <- (alike_pointer _ _ M4)).
  destruct (pointer_cast_ok st G b u Ty wanted H Hb (proj1 Hopen) Ht Hu M5 M1) as (v & st' & G' & E & Hinv & Hext & K1 & K2 & K3 & K4). exists v, st', G'. split; [done|]. split; [by eapply visiting_ext|]. split; [done|].
  pose proof (mapped_ext M type_alloc_size F avail _ _ _ _ _ _ _ _ Hext Hm) as (N1 & N2 & N3 & N4 & N5).
  assert (Hr : root_of G' v = root_of G' u) by (rewrite K2, M3; symmetry; by eapply (root_of_ext M type_alloc_size F avail)).
  split; [done|]. rewrite Hr, K3. split; [done|]. split; [done|]. split; [by right|done].
Qed.
Section visitor.
Context (st : rebuilding) (G : roots) (b : Block) (olds : list Inst) (i : Inst).
Context (Hvis : visiting st G b olds) (Hpre : olds ++ [i] `prefix_of` bb_insts b) (Hops : Forall (operand_ok b olds) (operands (i_kind i))).
Abbreviation here := (bb_name b).
Abbreviation visited r := (exists st', r = Done st' /\ advances st G b olds i st').
Lemma visit_load p : i_kind i = Load p -> simple_ty (i_type i) = true -> is_pointer (type_of p) = true ->
  visited (visitLoadInst_rebuild value_name folded strip_constant F rec here i p st).
Proof.
  intros Ek Ht Hp. rewrite Ek in Hops. apply Forall_cons in Hops as [Ho _]. unfold visitLoadInst_rebuild.
  destruct (mapPointer_ok st G b olds p (type_of p) Hvis Ho Hp Hp) as (v & st1 & G1 & -> & Hvis1 & Hext & Hm & Et). cbn [obind]. eexists. split; [reflexivity|].
  eapply advances_after; [exact Hext|]. assert (Hres : has_result i = true) by (unfold has_result; by destruct (i_type i)). unfold remember, create, insert_inst. rewrite Hres.
  pose proof (same_image st1 G1 b olds i (value_name (names_in_use F st1) (i_name i)) (i_type i) (Load v) Hvis1 Hpre) as Hi. unfold remembered in Hi. rewrite Hres in Hi. apply Hi; [|split|done..].
  - rewrite Ek. by each_operand.
  - apply alike_refl.
  - by rewrite Ek.
Qed.
Lemma visit_store v p : i_kind i = Store v p -> i_type i = TyVoid -> type_of p = TyPtr (type_of v) -> (is_integer_ty (type_of v) || is_constant_value v) = true ->
  visited (visitStoreInst_rebuild value_name folded strip_constant F rec here v p st).
Proof.
  intros Ek Ht Hp Hv. rewrite Ek in Hops. apply Forall_cons in Hops as [Hov [Hop _]%Forall_cons]. unfold visitStoreInst_rebuild. assert (Hpp : is_pointer (type_of p) = true) by (by rewrite Hp).
  destruct (mapValue_ok st G b olds v Hvis Hov) as (v' & st1 & G1 & E1 & Hvis1 & Hext1 & Hm1). rewrite E1. cbn [obind].
  destruct (mapPointer_ok st1 G1 b olds p (type_of p) Hvis1 Hop Hpp Hpp) as (p' & st2 & G2 & -> & Hvis2 & Hext2 & Hm2 & Et). cbn [obind].
  pose proof (mapped_type st G1 here st1 v v' E1 Hm1 Hv) as Ev. rewrite bool_decide_true by (by rewrite Et, Hp, Ev). cbn [assert_ obind]. eexists. split; [reflexivity|].
  eapply advances_after; [eapply ext_trans; [exact Hext1|exact Hext2]|]. assert (Hres : has_result i = false) by (unfold has_result; by rewrite Ht).
  pose proof (same_image st2 G2 b olds i "" TyVoid (Store v' p') Hvis2 Hpre) as Hi. unfold remembered in Hi. rewrite Hres in Hi. apply Hi; [|split|done..].
  - rewrite Ek. each_operand; [|done]. by eapply mapped_ext.
  - rewrite Ht. apply alike_refl.
  - rewrite Ek. cbn [inst i_kind]. split; [by symmetry|]. rewrite Ev. apply alike_refl.
Qed.
Lemma visit_binary op a b0 : i_kind i = Binary op a b0 -> is_integer_ty (i_type i) = true -> type_of a = i_type i -> type_of b0 = i_type i ->
  visited (visitBinaryOperator_rebuild value_name folded F rec here i op a b0 st).
Proof.
  intros Ek Ht Ha Hb. rewrite Ek in Hops. apply Forall_cons in Hops as [Hoa [Hob _]%Forall_cons]. unfold visitBinaryOperator_rebuild.
  destruct (mapValue_ok st G b olds a Hvis Hoa) as (a' & st1 & G1 & E1 & Hvis1 & Hext1 & Hm1). rewrite E1. cbn [obind].
  destruct (mapValue_ok st1 G1 b olds b0 Hvis1 Hob) as (b' & st2 & G2 & E2 & Hvis2 & Hext2 & Hm2). rewrite E2. cbn [obind]. eexists. split; [reflexivity|].
  eapply advances_after; [eapply ext_trans; [exact Hext1|exact Hext2]|]. pose proof (mapped_ext M type_alloc_size F avail _ _ _ _ _ _ _ _ Hext2 Hm1) as Hm1'.
  apply (folded_same st2 G2 b olds i); [done|done|unfold has_result; by destruct (i_type i)| | |done].
  - rewrite Ek. by each_operand.
  - intros n. split; [cbn [inst i_type]; rewrite <- Ha; apply Hm1|]. rewrite Ek. cbn [inst i_kind]. split; [done|]. each_operand; [apply Hm1|apply Hm2].
Qed.
Lemma visit_select c t f : i_kind i = Select c t f -> type_of t = i_type i -> type_of f = i_type i ->
  (is_integer_ty (i_type i) || is_pointer (i_type i) && is_constant_value t && is_constant_value f) = true ->
  visited (visitSelectInst value_name folded F rec here i c t f st).
Proof.
  intros Ek Ht Hf Hok. rewrite Ek in Hops. apply Forall_cons in Hops as [Hoc [Hot [Hof _]%Forall_cons]%Forall_cons]. unfold visitSelectInst.
  destruct (mapValue_ok st G b olds c Hvis Hoc) as (c' & st1 & G1 & E1 & Hvis1 & Hext1 & Hm1). rewrite E1. cbn [obind].
  destruct (mapValue_ok st1 G1 b olds t Hvis1 Hot) as (t' & st2 & G2 & E2 & Hvis2 & Hext2 & Hm2). rewrite E2. cbn [obind].
  destruct (mapValue_ok st2 G2 b olds f Hvis2 Hof) as (f' & st3 & G3 & E3 & Hvis3 & Hext3 & Hm3). rewrite E3. cbn [obind].
  assert (Hres : has_result i = true) by (unfold has_result; by destruct (i_type i)).
  assert (Et : type_of t' = i_type i).
  { rewrite <- Ht. eapply mapped_type; [exact E2|exact Hm2|]. rewrite Ht. apply orb_true_iff. apply orb_prop in Hok as [H|[[_ H]%andb_prop _]%andb_prop]; [by left|by right]. }
  assert (Ef : type_of f' = i_type i).
  { rewrite <- Hf. eapply mapped_type; [exact E3|exact Hm3|]. rewrite Hf. apply orb_true_iff. apply orb_prop in Hok as [H|[_ H]%andb_prop]; [by left|by right]. }
  rewrite bool_decide_true by congruence. cbn [assert_ obind]. eexists. split; [reflexivity|]. eapply advances_after; [eapply ext_trans; [exact Hext1|eapply ext_trans; [exact Hext2|exact Hext3]]|].
  apply (folded_same st3 G3 b olds i); [done|done|done| | |done].
  - rewrite Ek. each_operand; [eapply mapped_ext; [exact Hext3|eapply mapped_ext; [exact Hext2|exact Hm1]]|eapply mapped_ext; [exact Hext3|exact Hm2]|exact Hm3].
  - intros n. split; [cbn [inst i_type]; rewrite Et; apply alike_refl|]. rewrite Ek. cbn [inst i_kind]. each_operand; [apply Hm1|apply Hm2|apply Hm3].
Qed.
(** A value that is already there is what the instruction computes. *)
Lemma alias_visited st1 G1 o u : ext all_blocks st G st1 G1 -> visiting st1 G1 b olds -> has_result i = true -> is_call_inst i = false ->
  known_old M (look st1 G1) (operands (i_kind i)) -> mapped st1 G1 here o u -> alike (i_type i) (type_of u) ->
  (forall f w, sem (Meaning := M) i (map (fun o => value_at M f (old_root M (look st1 G1) o)) (operands (i_kind i))) w = Some (value_at M f (old_root M (look st1 G1) o), w)) ->
  advances st G b olds i (remembered i u st1).
Proof.
  intros Hext Hvis1 Hres Hcall Hk Hm Ht Hsem. eapply advances_after; [exact Hext|]. pose proof Hm as (M1 & M2 & _ & _ & M5). apply alias_advances; try done.
  intros f w. rewrite Hsem. by rewrite M2.
Qed.
Lemma zero_indices_known st1 G1 l : forallb zero_index l = true -> known_old M (look st1 G1) l /\ forall f, map (fun o => value_at M f (old_root M (look st1 G1) o)) l = map constant_meaning l.
Proof.
  induction l as [|o l IH]; [split; [constructor|done]|]. cbn [forallb map]. intros [Ho Hl]%andb_prop. destruct (IH Hl) as [K1 K2]. split.
  - constructor; [|done]. destruct o; try done; by eexists.
  - intros f. rewrite K2. by destruct o.
Qed.
Lemma mapped_known_one st1 G1 o u : mapped st1 G1 here o u -> is_Some (old_root M (look st1 G1) o).
Proof. intros (_ & <- & H & _). exact H. Qed.
Lemma visit_gep_zero inb p l : i_kind i = GetElementPtr inb p l -> forallb zero_index l = true -> is_pointer (i_type i) = true -> is_pointer (type_of p) = true ->
  visited (visitGetElementPtrInst_rebuild type_alloc_size value_name folded strip_constant F rec here i inb p l st).
Proof.
  intros Ek Hz Ht Hp. rewrite Ek in Hops. apply Forall_cons in Hops as [Ho _]. unfold visitGetElementPtrInst_rebuild. rewrite Hz, (rebuilt_pointer _ Ht).
  destruct (mapPointer_ok st G b olds p i8pTy Hvis Ho Hp eq_refl) as (v & st1 & G1 & -> & Hvis1 & Hext & Hm & Et). cbn [obind]. eexists. split; [reflexivity|].
  assert (Hres : has_result i = true) by (unfold has_result; by destruct (i_type i)). change (advances st G b olds i (remembered i v st1)).
  destruct (zero_indices_known st1 G1 l Hz) as [K1 K2]. eapply (alias_visited st1 G1 p v); try done.
  - unfold is_call_inst. by rewrite Ek.
  - rewrite Ek. constructor; [by eapply mapped_known_one|done].
  - rewrite Et. by right.
  - intros f w. rewrite Ek. cbn [operands map]. rewrite K2. rewrite (inst_eta i), Ek. by apply bp_zero.
Qed.
Lemma build_cast_pointer v t wanted st1 : is_pointer (type_of v) = true -> is_pointer t = true ->
  build_pointer_cast value_name folded F here v t wanted st1 = Done (build_cast value_name folded F here BitCast v t wanted st1).
Proof. intros Hv Ht. unfold build_pointer_cast, build_cast. rewrite Hv. destruct (bool_decide _); [done|]. by destruct t. Qed.
Lemma visit_cast op v : i_kind i = Cast op v -> inst_supported i -> visited (visitCastInst_rebuild type_alloc_size value_name folded F rec here i op v st).
Proof.
  intros Ek Hin. unfold inst_supported in Hin. rewrite Ek in Hin, Hops. apply Forall_cons in Hops as [Ho _]. unfold visitCastInst_rebuild.
  destruct (mapValue_ok st G b olds v Hvis Ho) as (v' & st1 & G1 & E1 & Hvis1 & Hext1 & Hm1). rewrite E1. cbn [obind]. eexists. split; [reflexivity|]. pose proof Hm1 as (M1 & M2 & M3 & M4 & M5).
  assert (Hres : has_result i = true) by (unfold has_result; destruct op, (i_type i); naive_solver).
  assert (Hcast : type_of v' <> rebuildType type_alloc_size false (i_type i) -> (forall t, op = BitCast -> alike (i_type i) t -> False) -> alike (i_type i) (rebuildType type_alloc_size false (i_type i)) ->
    advances st G b olds i (remember i (build_cast value_name folded F here op v' (rebuildType type_alloc_size false (i_type i)) (i_name i) st1))).
  { intros Hne Hop Hal. unfold build_cast. rewrite bool_decide_false by done. eapply advances_after; [exact Hext1|]. apply (folded_same st1 G1 b olds i); [done|done|done| | |].
    - rewrite Ek. by each_operand.
    - intros n. split; [exact Hal|]. rewrite Ek. cbn [inst i_kind]. split; [done|]. each_operand. exact M4.
    - destruct op; try done. by apply (Hop (i_type i)); [|apply alike_refl]. }
  destruct op; try done.
  1-3: destruct Hin as (H1 & H2 & H3); apply Hcast; [rewrite (rebuilt_integer _ H2), (alike_integer _ _ M4 H1); congruence|done|rewrite (rebuilt_integer _ H2); apply alike_refl].
  - destruct Hin as (H1 & H2). apply Hcast; [|done|rewrite (rebuilt_integer _ H2); apply alike_refl]. rewrite (rebuilt_integer _ H2). rewrite (alike_pointer _ _ M4) in H1. intros E. rewrite <- E in H2. by destruct (type_of v').
  - destruct Hin as (H1 & H2). apply Hcast; [|done|rewrite (rebuilt_pointer _ H2); by right]. rewrite (rebuilt_pointer _ H2), (alike_integer _ _ M4 H1). intros E. by rewrite E in H1.
  - destruct Hin as (H1 & H2). rewrite (rebuilt_pointer _ H2). pose proof Hvis1 as [I1 I2 I3 I4 I5 I6 I7 I8]. assert (Hv : is_pointer (type_of v') = true) by (by rewrite <- (alike_pointer _ _ M4)).
    destruct (pointer_cast_ok st1 G1 b v' i8pTy (i_name i) I1 I2 (proj1 I3) eq_refl Hv M5 M1) as (u & st2 & G2 & E & Hinv2 & Hext2 & U1 & U2 & U3 & U4).
    rewrite (build_cast_pointer v' i8pTy (i_name i) st1 Hv eq_refl) in E. injection E as E. rewrite E. change (advances st G b olds i (remembered i u st2)).
    pose proof (mapped_ext M type_alloc_size F avail _ _ _ _ _ _ _ _ Hext2 Hm1) as (N1 & N2 & N3 & N4 & N5). destruct M3 as (ρ & M3).
    assert (Hr : root_of G2 u = root_of G2 v') by (rewrite U2, M3; symmetry; by eapply (root_of_ext M type_alloc_size F avail)).
    assert (Hmu : mapped st2 G2 here v u) by (split; [done|]; rewrite Hr, U3; split; [done|]; split; [done|]; split; [by right|done]).
    eapply (alias_visited st2 G2 v u); [by eapply ext_trans|by eapply visiting_ext|done|unfold is_call_inst; by rewrite Ek| |done|rewrite U3; by right|].
    + rewrite Ek. constructor; [by eapply mapped_known_one|constructor].
    + intros f w. rewrite Ek. cbn [operands map]. rewrite (inst_eta i), Ek. by apply bp_cast.
Qed.
Lemma visit_icmp pr a b0 : i_kind i = ICmp pr a b0 -> is_integer_ty (i_type i) = true -> type_of a = type_of b0 ->
  (is_integer_ty (type_of a) || is_pointer (type_of a) && (is_constant_value a || is_constant_value b0)) = true ->
  visited (visitICmpInst_rebuild value_name folded F rec here i pr a b0 st).
Proof.
  intros Ek Ht Hab Hok. rewrite Ek in Hops. apply Forall_cons in Hops as [Hoa [Hob _]%Forall_cons]. unfold visitICmpInst_rebuild.
  destruct (mapValue_ok st G b olds a Hvis Hoa) as (a' & st1 & G1 & E1 & Hvis1 & Hext1 & Hm1). rewrite E1. cbn [obind].
  destruct (mapValue_ok st1 G1 b olds b0 Hvis1 Hob) as (b' & st2 & G2 & E2 & Hvis2 & Hext2 & Hm2). rewrite E2. cbn [obind].
  assert (Hres : has_result i = true) by (unfold has_result; by destruct (i_type i)). pose proof (mapped_ext M type_alloc_size F avail _ _ _ _ _ _ _ _ Hext2 Hm1) as Hm1'.
  pose proof (ext_trans M type_alloc_size F avail _ _ _ _ _ _ _ Hext1 Hext2) as Hext. clear Hm1 Hext1 Hext2 Hvis1.
  assert (Hfin : forall a1 b1 st3 G3, visiting st3 G3 b olds -> ext all_blocks st G st3 G3 -> mapped st3 G3 here a a1 -> mapped st3 G3 here b0 b1 ->
    advances st G b olds i (remember i (create_folded value_name folded F here (i_name i) (i_type i) (ICmp pr a1 b1) st3))).
  { intros a1 b1 st3 G3 Hvis3 Hext3 Ha1 Hb1. eapply advances_after; [exact Hext3|]. apply (folded_same st3 G3 b olds i); [done|done|done| | |done].
    - rewrite Ek. by each_operand.
    - intros n. split; [apply alike_refl|]. rewrite Ek. cbn [inst i_kind]. split; [done|]. each_operand; [apply Ha1|apply Hb1]. }
  destruct (bool_decide (type_of a' = type_of b')) eqn:Et.
  { cbn [obind]. rewrite Et. cbn [assert_ obind]. eexists. split; [reflexivity|]. by eapply Hfin. }
  apply bool_decide_eq_false in Et. pose proof Hm1' as (_ & _ & _ & A4 & _). pose proof Hm2 as (_ & _ & _ & B4 & _).
  assert (Hpt : is_pointer (type_of a) = true /\ (is_constant_value a || is_constant_value b0) = true).
  { apply orb_prop in Hok as [Hi|H]; [|by apply andb_prop]. exfalso. apply Et. rewrite (alike_integer _ _ A4 Hi). rewrite Hab in Hi. by rewrite (alike_integer _ _ B4 Hi). }
  destruct Hpt as [Hp Hc]. assert (Hpa : is_pointer (type_of a') = true) by (by rewrite <- (alike_pointer _ _ A4)). pose proof Hp as Hpb0. rewrite Hab in Hpb0.
  assert (Hpb : is_pointer (type_of b') = true) by (by rewrite <- (alike_pointer _ _ B4)). destruct (is_constant_value a') eqn:Eca; [|destruct (is_constant_value b') eqn:Ecb].
  - destruct (cast_mapped st2 G2 b olds a a' (type_of b') Hvis2 Hm1' Hp Hpb) as (a1 & st3 & G3 & -> & Hvis3 & Hext3 & Ha1 & Eta). cbn [obind].
    rewrite (bool_decide_true (_ = _) Eta). cbn [assert_ obind]. eexists. split; [reflexivity|]. eapply Hfin; [exact Hvis3|by eapply ext_trans|done|by eapply mapped_ext].
  - destruct (cast_mapped st2 G2 b olds b0 b' (type_of a') Hvis2 Hm2 Hpb0 Hpa) as (b1 & st3 & G3 & -> & Hvis3 & Hext3 & Hb1 & Etb). cbn [obind].
    rewrite (bool_decide_true (_ = _)) by done. cbn [assert_ obind]. eexists. split; [reflexivity|]. eapply Hfin; [exact Hvis3|by eapply ext_trans|by eapply mapped_ext|done].
  - exfalso. apply orb_prop in Hc as [Hc|Hc].
    + rewrite (mapValue_constant _ _ _ _ Hc E1) in Eca. congruence.
    + rewrite (mapValue_constant _ _ _ _ Hc E2) in Ecb. congruence.
Qed.
Lemma visit_alloca t k0 n : i_kind i = Alloca t (ConstantInt k0 n) -> i_type i = TyPtr t -> t <> TyVoid -> in_u k0 n -> bytes_fit t n ->
  visited (visitAllocaInst type_alloc_size value_name F here i t (ConstantInt k0 n) st).
Proof.
  intros Ek Ht Hv Hk Hfit. unfold visitAllocaInst. cbv zeta. eexists. split; [reflexivity|]. set (Ty := rebuilt_alloca type_alloc_size t n).
  assert (Hres : has_result i = true) by (unfold has_result; by rewrite Ht).
  change (advances st G b olds i (remember i (create value_name F here (i_name i) (TyPtr Ty) (Alloca Ty (ConstantInt 32 1)) st))).
  unfold remember, create, insert_inst. rewrite Hres.
  pose proof (image_advances st G b olds i (value_name (names_in_use F st) (i_name i)) (TyPtr Ty) (Alloca Ty (ConstantInt 32 1)) Hvis Hpre) as Hi. unfold remembered in Hi. rewrite Hres in Hi. apply Hi; clear Hi.
  - done.
  - intros _. split; [apply Hvalue_name|]. rewrite Ht. by right.
  - rewrite Ek. constructor; [by eexists|constructor].
  - constructor; [|constructor]. split; [done|by eexists].
  - done.
  - intros calls calls' _ f w r. rewrite Ek, !sem_no_call by (unfold is_call_inst; by rewrite ?Ek). cbn [operands map old_root root value_at].
    rewrite (inst_eta i), Ek, Ht. rewrite (bp_alloca (i_name i) (value_name (names_in_use F st) (i_name i)) t Ty k0 32 n 1); [done|done|by unfold in_u|]. unfold Ty. rewrite (rebuilt_alloca_fits type_alloc_size t n Hv Hfit). lia.
Qed.
(** The parameters of a call. *)
Lemma call_params_ok : forall os st G, visiting st G b olds -> Forall (operand_ok b olds) os -> Forall (fun t => simple_ty t = true) (map type_of os) -> forall extra,
  exists vs st' G', call_params value_name folded F rec here (map type_of os) (os ++ extra) st = Done (vs, st') /\ visiting st' G' b olds /\ ext all_blocks st G st' G' /\
    Forall2 (mapped st' G' here) os vs.
Proof.
  clear Hvis Hpre Hops st G. induction os as [|o os IH]; intros st G Hvis Hos Ht extra; cbn [map call_params app].
  { eexists _, st, G. split; [reflexivity|]. split; [done|]. split; [apply ext_refl|constructor]. }
  apply Forall_cons in Hos as [Ho Hos]. apply Forall_cons in Ht as [Ht Hts].
  destruct (mapValue_ok st G b olds o Hvis Ho) as (v & st1 & G1 & E1 & Hvis1 & Hext1 & Hm1). rewrite E1. cbn [obind].
  assert (Hstep : exists v2 st2 G2, (if bool_decide (type_of v = type_of o) then Done (v, st1)
      else if is_integer_ty (type_of o) then Done (build_cast value_name folded F here BitCast v (type_of o) "ClamBCRebuild_cast" st1)
      else if is_pointer (type_of o) then
        let* (V, st) := if bool_decide (type_of o = i8pTy) then Done (v, st1) else build_pointer_cast value_name folded F here v i8pTy "ClamBCRebuild" st1 in
        build_pointer_cast value_name folded F here V (type_of o) "ClamBCRebuild" st
      else Stop "Type conversion unhandled in ClamAV Bytecode Backend Rebuilder") = Done (v2, st2) /\ visiting st2 G2 b olds /\ ext all_blocks st1 G1 st2 G2 /\ mapped st2 G2 here o v2).
  { destruct (bool_decide (type_of v = type_of o)) eqn:Ev; [exists v, st1, G1; split; [done|]; split; [done|]; split; [apply ext_refl|done]|]. apply bool_decide_eq_false in Ev.
    pose proof Hm1 as (_ & _ & _ & A4 & _). destruct (is_integer_ty (type_of o)) eqn:Ei; [exfalso; by apply Ev, alike_integer|]. assert (Hp : is_pointer (type_of o) = true) by (unfold simple_ty in Ht; by rewrite Ei in Ht). rewrite Hp.
    destruct (bool_decide (type_of o = i8pTy)); cbn [obind]; [by apply pointer_mapped|].
    destruct (pointer_mapped st1 G1 b olds o v i8pTy "ClamBCRebuild" Hvis1 Hm1 Hp eq_refl) as (v2 & st2 & G2 & -> & Hvis2 & Hext2 & Hm2). cbn [obind].
    destruct (pointer_mapped st2 G2 b olds o v2 (type_of o) "ClamBCRebuild" Hvis2 Hm2 Hp Hp) as (v3 & st3 & G3 & -> & Hvis3 & Hext3 & Hm3). exists v3, st3, G3. split; [done|]. split; [done|]. split; [|done]. by eapply ext_trans. }
  destruct Hstep as (v2 & st2 & G2 & -> & Hvis2 & Hext2 & Hm2). cbn [obind]. destruct (IH st2 G2 Hvis2 Hos Hts extra) as (vs & st3 & G3 & -> & Hvis3 & Hext3 & Hms). cbn [obind].
  exists (v2 :: vs), st3, G3. split; [done|]. split; [done|]. split; [eapply ext_trans; [exact Hext1|by eapply ext_trans]|]. constructor; [by eapply mapped_ext|done].
Qed.
Lemma visit_call g ret params cc args : let callee := FunctionValue g (TyPtr (TyFun ret params false)) in i_kind i = Call callee cc args ->
  ret = i_type i -> params = map type_of args -> Forall (fun t => simple_ty t = true) params ->
  visited (visitCallInst_rebuild value_name folded cc_of F rec here i callee args st).
Proof.
  intros callee Ek Hret Hparams Hsimple. rewrite Ek in Hops. apply Forall_app in Hops as [Hargs _]. cbn [visitCallInst_rebuild callee negb assert_ obind]. subst params.
  destruct (call_params_ok args st G Hvis Hargs Hsimple [callee]) as (vs & st1 & G1 & E & Hvis1 & Hext1 & Hms). rewrite E. cbn [obind]. eexists. split; [reflexivity|]. fold callee.
  eapply advances_after; [exact Hext1|]. assert (Hlen : length args = length vs) by (by eapply Forall2_length).
  assert (Hops' : Forall2 (mapped st1 G1 here) (args ++ [callee]) (vs ++ [callee])) by (apply Forall2_app; [done|]; each_operand; by apply mapped_constant).
  set (kd := Call callee (cc_of g) vs). assert (Hi : forall n, (has_result i = true -> n ∉ names_in_use F st1) -> advances st1 G1 b olds i (remembered i (Local n ret) (map_new here (add_inst (inst n ret kd)) st1))).
  { intros n Hn. apply image_advances; [done|done|apply alike_result; rewrite Hret; apply alike_refl|intros Hr; split; [by apply Hn|rewrite Hret; apply alike_refl]|rewrite Ek; by eapply mapped_known|by eapply mapped_usables| |].
    - done.
    - intros calls calls' Hc f w r. rewrite Ek. change (operands kd) with (vs ++ [callee]). change (operands (Call callee cc args)) with (args ++ [callee]).
      rewrite (mapped_values M type_alloc_size F avail st1 G1 here _ _ f Hops'). cbn [sem with_calls]. rewrite Ek. cbn [inst i_kind kd callee]. rewrite Hlen.
      intros ([z w'] & Hz & H)%bind_Some. apply Hc in Hz. rewrite Hz. exact H. }
  destruct (has_result i) eqn:Hres.
  - specialize (Hi (value_name (names_in_use F st1) (i_name i)) (fun _ => Hvalue_name _ _)). unfold remember, create, insert_inst. unfold remembered in Hi. rewrite Hres in *. exact Hi.
  - unfold remembered in Hi. rewrite Hres in Hi. by apply Hi.
Qed.
(** The pointer a getelementptr instruction computes is cast to a pointer to bytes. *)
Lemma gep_constant st1 G1 c : ext all_blocks st G st1 G1 -> visiting st1 G1 b olds -> has_result i = true -> is_call_inst i = false -> is_pointer (i_type i) = true ->
  known_old M (look st1 G1) (operands (i_kind i)) -> is_constant_value c = true -> type_of c = i_type i ->
  (forall f w, sem (Meaning := M) i (map (fun o => value_at M f (old_root M (look st1 G1) o)) (operands (i_kind i))) w = Some (constant_meaning c, w)) ->
  visited (let* r := makeCast value_name folded F here c i8pTy st1 in Done (remember i r)).
Proof.
  intros Hext Hvis1 Hres Hcall Ht Hk Hc Htc Hsem. pose proof Hvis1 as [I1 I2 I3 I4 I5 I6 I7 I8]. assert (Hpc : is_pointer (type_of c) = true) by (by rewrite Htc).
  destruct (makeCast_ok st1 G1 b c i8pTy I1 I2 (proj1 I3) I4 eq_refl Hpc) as (v & st2 & G2 & -> & Hinv2 & Hext2 & K1 & K2 & K3 & K4); [by destruct c|by destruct c|]. cbn [obind]. eexists. split; [reflexivity|].
  change (advances st G b olds i (remembered i v st2)). eapply advances_after; [by eapply ext_trans|]. assert (Hg : grows (look st1 G1) (look st2 G2)) by (by eapply ext_grows).
  apply alias_advances; [by eapply visiting_ext|done|done|done|by eapply known_old_grows|done|rewrite K3; by right|done|].
  intros f w. rewrite (old_values_grow M (look st1 G1)) by done. rewrite Hsem, K2. by destruct c.
Qed.
Lemma gep_copy st1 G1 inb P l n : ext all_blocks st G st1 G1 -> visiting st1 G1 b olds -> has_result i = true -> is_call_inst i = false -> is_pointer (i_type i) = true ->
  known_old M (look st1 G1) (operands (i_kind i)) -> usables M arg_names before here (look st1 G1) (names_at st1 here) (P :: l) -> is_pointer (type_of P) = true -> typed_value st1 P ->
  forallb zero_index l = true -> n ∉ names_in_use F st1 ->
  (forall f w, sem (Meaning := M) i (map (fun o => value_at M f (old_root M (look st1 G1) o)) (operands (i_kind i))) w = Some (value_at M f (root_of G1 P), w)) ->
  visited (let* r := makeCast value_name folded F here (Local n (i_type i)) i8pTy (map_new here (add_inst (inst n (i_type i) (GetElementPtr inb P l))) st1) in Done (remember i r)).
Proof.
  intros Hext Hvis1 Hres Hcall Ht Hk Hus HP HtyP Hz Hn Hsem. pose proof Hvis1 as [I1 I2 I3 I4 I5 I6 I7 I8]. set (c := inst n (i_type i) (GetElementPtr inb P l)). set (st2 := map_new here (add_inst c) st1).
  destruct (inv_block M type_alloc_size F avail st1 G1 I1 b I2) as (nb & Hnb). pose proof Hus as [[HusP (ρ & Eρ)] Husl]%Forall_cons. rewrite root_look in Eρ.
  destruct (usable_root M type_alloc_size F avail Hs st1 G1 I1 here P) as (ρ' & Eρ' & Hρ); [by apply list_elem_of_fmap_2|done|]. rewrite Eρ in Eρ'. injection Eρ' as <-.
  assert (HN : names_at st1 here = map phi_name (nb_phis nb) ++ results (nb_insts nb)) by (unfold names_at; by rewrite Hnb).
  assert (Hput : put st1 st2 here nb (nb_insts nb) c []) by (apply map_new_put; [by apply (inv_labels M type_alloc_size F avail Hs st1 G1)|done|by rewrite app_nil_r|done]).
  assert (Hresc : has_result c = true) by exact Hres. pose proof (put_ext M type_alloc_size F avail st1 st2 G1 b nb (nb_insts nb) c [] ρ I1 Hput (fun _ => Hn)) as Hext0.
  destruct (put_copy M type_alloc_size F avail Hs st1 st2 G1 b nb (nb_insts nb) c [] ρ I1 I2 Hput (proj1 I3) (fun _ => Hn)) as (K1 & K2 & K3 & K4 & K5).
  - split; [done|]. split; [done|]. split; [by rewrite HN in Hus|]. split; [by rewrite HN in Hρ|]. intros f w. cbn [c inst i_kind operands map]. rewrite root_look, Eρ.
    assert (map (fun o => value_at M f (root M (look st1 G1) o)) l = map constant_meaning l) as -> by (apply map_ext_in; intros o Ho; rewrite forallb_forall in Hz; specialize (Hz o Ho); by destruct o).
    by apply bp_zero.
  - unfold cast_ok. cbn [c inst i_kind]. intros _. split; [by eapply usable_ext|]. split; [|split; [done|by eapply typed_ext]].
    rewrite (root_of_ext M type_alloc_size F avail _ _ _ _ _ _ _ Hext0 Eρ). unfold root_added. rewrite Hresc. cbn [c inst i_name]. by rewrite lookup_insert_eq.
  - fold c st2. set (G2 := root_added G1 c ρ) in *. assert (Hw2 : waiting st2 here) by (by eapply waiting_ext).
    destruct (makeCast_ok st2 G2 b (Local n (i_type i)) i8pTy K1 I2 (ex_visited _ _ _ _ _ _ _ _ _ K2 _ (proj1 I3)) Hw2 eq_refl Ht K5 K3) as (v & st3 & G3 & -> & Hinv3 & Hext3 & L1 & L2 & L3 & L4).
    cbn [obind]. eexists. split; [reflexivity|]. change (advances st G b olds i (remembered i v st3)). pose proof (ext_trans M type_alloc_size F avail _ _ _ _ _ _ _ K2 Hext3) as Hext13.
    eapply advances_after; [by eapply ext_trans|]. assert (Hg : grows (look st1 G1) (look st3 G3)) by (by eapply ext_grows).
    apply alias_advances; [by eapply visiting_ext|done|done|done|by eapply known_old_grows|done|rewrite L3; by right|done|].
    intros f w. rewrite (old_values_grow M (look st1 G1)) by done. rewrite Hsem, L2. cbn [RebuildInv.root_of]. change n with (i_name c) at 1. rewrite K4. by rewrite Eρ.
Qed.
Lemma gep_image st1 G1 kd n : ext all_blocks st G st1 G1 -> visiting st1 G1 b olds -> has_result i = true -> is_pointer (i_type i) = true ->
  Forall2 (mapped st1 G1 here) (operands (i_kind i)) (operands kd) -> same_op i (inst n (i_type i) kd) -> copy_free kd -> n ∉ names_in_use F st1 ->
  visited (let* r := makeCast value_name folded F here (Local n (i_type i)) i8pTy (map_new here (add_inst (inst n (i_type i) kd)) st1) in Done (remember i r)).
Proof.
  intros Hext Hvis1 Hres Ht Hm Hsame Hfree Hn. set (c := inst n (i_type i) kd). set (st2 := map_new here (add_inst c) st1).
  destruct (same_image st1 G1 b olds i n (i_type i) kd Hvis1 Hpre Hm Hsame (fun _ => Hn) Hfree) as (G2 & Hvis2 & Hext2). fold c st2 in Hvis2, Hext2. unfold remembered in Hvis2, Hext2. rewrite Hres in Hvis2, Hext2.
  pose proof Hvis2 as [I1 I2 I3 I4 I5 I6 I7 I8]. set (st2' := with_VMap (i_name i) (Local n (i_type i)) st2) in *.
  assert (Hx : VMap st2' !! i_name i = Some (Local n (i_type i))) by (unfold st2'; cbn [with_VMap VMap]; apply lookup_insert_eq).
  destruct (next_result st1 G1 b olds i Hvis1 Hpre Hres) as (N1 & _ & _). destruct (iv_map _ _ _ _ _ _ I1 _ _ Hx) as [Ha|(b0 & t0 & Hb0 & Ht0 & U1 & U2 & U3)]; [done|].
  assert (b0 = b) as -> by (eapply (block_of_def_eq F avail Hs _ _ (i_name i)); [done..|rewrite <- typed_block_names_eq; by apply (list_elem_of_fmap_2 fst _ (i_name i, t0))|]; unfold block_defs; apply elem_of_app; right;
    destruct Hpre as (rest & ->); rewrite !results_app, !elem_of_app; left; right; by apply results_one).
  destruct (makeCast_ok st2' G2 b (Local n (i_type i)) i8pTy I1 I2 (proj1 I3) I4 eq_refl Ht U3 U1) as (v & st3 & G3 & E & Hinv3 & Hext3 & L1 & L2 & L3 & L4).
  unfold st2' in E. rewrite make_cast_with_VMap in E. destruct (makeCast _ _ _ _ _ _ st2) as [[v' st3']| | |]; try done. cbn [obind] in E |- *. injection E as -> E3. eexists. split; [reflexivity|].
  change (advances st G b olds i (remembered i v st3')).
  assert (remembered i v st3' = remembered i v st3) as -> by (unfold remembered; rewrite Hres, <- E3; unfold with_VMap; cbn [VMap CastMap newBlocks visitedBB]; by rewrite insert_insert_eq).
  eapply advances_after; [exact Hext|]. eapply remap_advances; [exact Hvis1|done|done|by eapply visiting_ext| | | |done|rewrite L3; by right|done].
  - eapply ext_trans; [exact Hext2|]. by eapply ext_weaken; [|exact Hext3].
  - eapply lookup_weaken; [exact Hx|apply (ex_vmap _ _ _ _ _ _ _ _ _ Hext3)].
  - destruct (usable_root M type_alloc_size F avail Hs st2' G2 I1 here (Local n (i_type i))) as (ρ & Eρ & _); [by apply list_elem_of_fmap_2|done|].
    rewrite L2, Eρ. symmetry. by eapply (root_of_ext M type_alloc_size F avail).
Qed.
Lemma visit_gep inb p l : i_kind i = GetElementPtr inb p l -> is_pointer (i_type i) = true -> is_pointer (type_of p) = true ->
  visited (visitGetElementPtrInst_rebuild type_alloc_size value_name folded strip_constant F rec here i inb p l st).
Proof.
  intros Ek Ht Hp. destruct (forallb zero_index l) eqn:Hz; [by apply visit_gep_zero|]. rewrite Ek in Hops. apply Forall_cons in Hops as [Ho Hol]. unfold visitGetElementPtrInst_rebuild. rewrite Hz, (rebuilt_pointer _ Ht).
  destruct (mapPointer_ok st G b olds p (type_of p) Hvis Ho Hp Hp) as (P & st1 & G1 & -> & Hvis1 & Hext1 & Hm1 & Et). cbn [obind].
  destruct (mapValues_ok b olds l st1 G1 Hvis1 Hol) as (idxs & st2 & G2 & -> & Hvis2 & Hext2 & Hms). cbn [obind]. pose proof (ext_trans M type_alloc_size F avail _ _ _ _ _ _ _ Hext1 Hext2) as Hext.
  pose proof (mapped_ext M type_alloc_size F avail _ _ _ _ _ _ _ _ Hext2 Hm1) as HmP. set (kd := GetElementPtr inb P idxs).
  assert (Hres : has_result i = true) by (unfold has_result; by destruct (i_type i)). assert (Hcall : is_call_inst i = false) by (unfold is_call_inst; by rewrite Ek).
  assert (Hm : Forall2 (mapped st2 G2 here) (operands (i_kind i)) (operands kd)) by (rewrite Ek; by constructor).
  assert (Hsame : forall n, same_op i (inst n (i_type i) kd)).
  { intros n. split; [apply alike_refl|]. rewrite Ek. cbn [inst i_kind kd]. split; [done|]. split; [by symmetry|]. by eapply mapped_alikes. }
  set (wanted := if inb then _ else _). assert (Hnew : forall n, n ∉ names_in_use F st2 ->
    visited (let* r := makeCast value_name folded F here (Local n (i_type i)) i8pTy (map_new here (add_inst (inst n (i_type i) kd)) st2) in Done (remember i r))).
  { intros n Hn. destruct (forallb zero_index idxs) eqn:Ez; [|by apply (gep_image st2 G2)]. apply (gep_copy st2 G2); try done; [by eapply mapped_known|by eapply (mapped_usables M type_alloc_size F avail _ _ _ _ _ Hm)|by rewrite Et|apply HmP|].
    intros f w. rewrite (mapped_values M type_alloc_size F avail st2 G2 here _ _ f Hm), (bp_same _ _ _ _ (Hsame n)). cbn [kd operands map]. rewrite root_look.
    assert (map (fun o => value_at M f (root M (look st2 G2) o)) idxs = map constant_meaning idxs) as -> by (apply map_ext_in; intros o Hin; rewrite forallb_forall in Ez; specialize (Ez o Hin); by destruct o).
    apply bp_zero; [by rewrite Et|done]. }
  unfold create_folded, create, insert_inst. destruct (forallb is_constant_value (operands kd)) eqn:Ec; [destruct (folded (inst "" (i_type i) kd)) as [v|] eqn:Ev|]; [|by apply Hnew..].
  destruct (bp_folded_type _ _ Ev) as [T1 T2]. apply (gep_constant st2 G2 v); try done; [by eapply mapped_known|]. intros f w.
  rewrite (all_constant_values st2 G2 here _ _ f Hm Ec), (bp_same _ _ _ _ (Hsame "")). exact (bp_folded (inst "" (i_type i) kd) v w Ev Ec).
Qed.
End visitor.
Lemma visit_inst_ok st G b olds i : visiting st G b olds -> olds ++ [i] `prefix_of` bb_insts b -> Forall (operand_ok b olds) (operands (i_kind i)) -> inst_supported i ->
  exists st', visit_inst type_alloc_size value_name folded strip_constant cc_of F rec (bb_name b) i st = Done st' /\ advances st G b olds i st'.
Proof.
  intros Hvis Hpre Hops Hin. pose proof Hin as Hall. unfold inst_supported in Hin. unfold visit_inst. destruct (i_kind i) as [t size|p|v p|inb p l|op a b'|op v|pr a b'|c t f|callee cc args| | |] eqn:Ek; try done; rewrite <- ?Ek in Hops.
  - destruct size; try done. destruct Hin as (H1 & H2 & H3 & H4). by apply visit_alloca.
  - destruct Hin as [H1 H2]. by apply visit_load.
  - destruct Hin as (H1 & H2 & H3). by apply visit_store.
  - destruct Hin as [H1 H2]. by apply visit_gep.
  - destruct Hin as (H1 & H2 & H3). by apply visit_binary.
  - by apply visit_cast.
  - destruct Hin as (H1 & H2 & H3). by apply visit_icmp.
  - destruct Hin as (H1 & H2 & H3). by apply visit_select.
  - destruct callee as [| | |g t| | | | | | | | |]; try done. destruct t as [| | |t| | | |]; try done. destruct t as [| | | | | | |ret params vararg]; try done.
    destruct Hin as (-> & H1 & _ & H2 & H3). by apply (visit_call st G b olds i Hvis Hpre Hops g ret params cc args).
Qed.

(** *** The instructions of a block *)

Lemma operands_in_at A l1 i l2 : operands_in A (l1 ++ i :: l2) -> forall x t, Local x t ∈ operands (i_kind i) -> x ∈ A ++ results l1.
Proof.
  revert A. induction l1 as [|j l1 IH]; intros A; cbn [app operands_in].
  - intros [H _] x t Hx. apply elem_of_app. left. by eapply H.
  - intros [_ H] x t Hx. rewrite (results_cons j l1), app_assoc. by eapply IH.
Qed.
Lemma operand_typed b o : b ∈ f_blocks F -> o ∈ block_operands b -> forall x t, o = Local x t -> (x, t) ∈ typed_defs F.
Proof. intros Hb Ho x t ->. apply (su_types Hsup). apply elem_of_flat_map. by exists b. Qed.
Lemma operands_ok b olds i rest : b ∈ f_blocks F -> bb_insts b = olds ++ i :: rest -> Forall (operand_ok b olds) (operands (i_kind i)).
Proof.
  intros Hb E. apply Forall_forall. intros o Ho x t ->. split.
  - pose proof (sc_insts _ _ Hs b Hb) as Hin. rewrite E in Hin. pose proof (operands_in_at _ _ _ _ Hin x t Ho) as Hx. by rewrite <- !app_assoc in Hx.
  - eapply (operand_typed b (Local x t)); [done| |done]. unfold block_operands. rewrite !elem_of_app. right. left. apply elem_of_flat_map. exists i. split; [|done]. rewrite E. apply elem_of_app. right. by left.
Qed.
Lemma block_inst b i : b ∈ f_blocks F -> i ∈ bb_insts b -> inst_supported i.
Proof. intros Hb Hi. apply (su_insts Hsup). apply elem_of_flat_map. by exists b. Qed.
Lemma visit_insts_ok b l : forall olds st G, visiting st G b olds -> bb_insts b = olds ++ l ->
  exists st' G', visit_insts type_alloc_size value_name folded strip_constant cc_of F rec (bb_name b) l st = Done st' /\ visiting st' G' b (bb_insts b) /\ ext (not b) st G st' G'.
Proof.
  induction l as [|i l IH]; intros olds st G Hvis E; cbn [visit_insts].
  - exists st, G. rewrite app_nil_r in E. rewrite E. split; [done|]. split; [done|apply ext_refl].
  - pose proof Hvis as [_ Hb _ _ _ _ _ _]. assert (Hpre : olds ++ [i] `prefix_of` bb_insts b) by (exists l; rewrite E, <- app_assoc; done).
    assert (Hi : i ∈ bb_insts b) by (rewrite E; apply elem_of_app; right; by left).
    destruct (visit_inst_ok st G b olds i Hvis Hpre (operands_ok b olds i l Hb E) (block_inst b i Hb Hi)) as (st1 & -> & G1 & Hvis1 & Hext1). cbn [obind].
    destruct (IH (olds ++ [i]) st1 G1 Hvis1) as (st2 & G2 & -> & Hvis2 & Hext2); [by rewrite E, <- app_assoc|]. exists st2, G2. split; [done|]. split; [done|]. by eapply ext_trans.
Qed.

(** *** The terminator *)

Lemma map_block_ok st G l : Inv st G -> l ∈ labels_of -> mapBlock l st = Done l.
Proof. intros H Hl. unfold mapBlock. change (map fst (newBlocks st)) with (labels st). rewrite (iv_labels _ _ _ _ _ _ H). by rewrite bool_decide_true. Qed.
(** The phi nodes of a block keep their names, its instructions stay. *)
Lemma phi_starts_defs st (G : roots) ps qs : Forall2 (phi_start st G) ps qs -> forall qs', map phi_def qs' = map phi_def qs -> Forall2 (phi_start st G) ps qs'.
Proof.
  induction 1 as [|p q ps qs Hpq _ IH]; intros [|q' qs'] E; try done. cbn [map] in E. injection E as E1 E2 E3. constructor; [|by apply IH]. destruct Hpq as (K1 & K2 & K3). split; [by rewrite E2|]. by rewrite E1.
Qed.
Lemma phi_defs_names qs qs' : map phi_def qs' = map phi_def qs -> map phi_name qs' = map phi_name qs.
Proof. intros E. apply (f_equal (map fst)) in E. by rewrite !map_map in E. Qed.
Lemma reshape st G l0 f : Inv st G -> l0 ∈ visitedBB st -> (forall nb, map phi_def (nb_phis (f nb)) = map phi_def (nb_phis nb) /\ nb_insts (f nb) = nb_insts nb) -> let st' := map_new l0 f st in
  (forall b t', b ∈ f_blocks F -> term_at st' (bb_name b) = Some t' ->
    bb_name b ∈ visitedBB st /\ partial st G b (bb_insts b) /\ term_rel M F avail (look st G) (names_at st) (bb_name b) (bb_term b) t') ->
  Inv st' G /\ (forall l, names_at st' l = names_at st l) /\ (forall r t, typed_in st r t -> typed_in st' r t) /\ (forall b olds, partial st G b olds -> partial st' G b olds).
Proof.
  intros H Hv Hf st' Hcomplete. pose proof (inv_labels M type_alloc_size F avail Hs st G H) as Hlab. pose proof (iv_visited _ _ _ _ _ _ H l0 Hv) as Hl0. rewrite <- (iv_labels _ _ _ _ _ _ H) in Hl0.
  destruct (block_at_label st l0 Hl0) as (nb & Hnb). destruct (Hf nb) as [Hf1 Hf2].
  assert (Hat : forall l, block_at st' l = if String.eqb l0 l then Some (f nb) else block_at st l) by (intros l; unfold st'; rewrite block_at_map_new, Hnb; done).
  assert (Hat' : forall l nb', block_at st l = Some nb' -> exists nb2, block_at st' l = Some nb2 /\ map phi_def (nb_phis nb2) = map phi_def (nb_phis nb') /\ nb_insts nb2 = nb_insts nb').
  { intros l nb' E. rewrite Hat. destruct (String.eqb_spec l0 l) as [<-|]; [|by exists nb']. rewrite Hnb in E. injection E as <-. by exists (f nb). }
  assert (Hbn : building_names (f nb) = building_names nb) by (unfold building_names; by rewrite (phi_defs_names _ _ Hf1), Hf2).
  assert (Hnames : forall l, names_at st' l = names_at st l).
  { intros l. unfold names_at. rewrite Hat. destruct (String.eqb_spec l0 l) as [<-|]; [by rewrite Hnb, Hbn|done]. }
  assert (Hnew : names_in_use F st' ≡ₚ names_in_use F st).
  { unfold names_in_use. apply Permutation_app_head. apply (all_names_map_new l0 f st nb []); [done|done|]. by rewrite Hbn. }
  assert (Hg : grows (look st G) (look st' G)) by (apply look_grows; [done|done|intros l r; by rewrite Hnames]).
  assert (Htyped : forall r t, typed_in st r t -> typed_in st' r t).
  { intros r t [Ha|(l & nb' & E & Hr)]; [by left|right]. destruct (Hat' l nb' E) as (nb2 & E2 & P1 & P2). exists l, nb2. split; [done|]. unfold building_typed in *. by rewrite P1, P2. }
  assert (Hpart : forall b olds, partial st G b olds -> partial st' G b olds).
  { intros b olds (nb' & E & P1 & P2). destruct (Hat' _ nb' E) as (nb2 & E2 & Q1 & Q2). exists nb2. rewrite Q2, (phi_defs_names _ _ Q1). split; [done|]. split; [by eapply (phi_starts_defs st G)|].
    eapply matches_more; [exact Hg|exact P2|done]. }
  split; [|split; [exact Hnames|split; [exact Htyped|exact Hpart]]]. pose proof H as [H1 H2 H3 H4 H5 H6 H7 H8 H9 H10 H11 H12].
  assert (Hus : forall l u, usable_at st G l u -> usable_at st' G l u) by (intros l u; apply usable_more; [exact Hg|intros x; by rewrite Hnames]).
  assert (Htv : forall u, typed_value st u -> typed_value st' u) by (intros u; destruct u; try done; apply Htyped). constructor; try done.
  - unfold st'. by rewrite labels_map_new.
  - by rewrite Hnew.
  - intros b' Hb' Hv'. rewrite Hat. destruct (String.eqb_spec l0 (bb_name b')) as [E|]; [|by apply H3]. exfalso. apply Hv'. rewrite <- E. exact Hv.
  - intros b' t2 Hb' Ht2. destruct (Hcomplete b' t2 Hb' Ht2) as (K1 & K2 & K3). split; [done|]. split; [by apply Hpart|].
    eapply (term_rel_grows M type_alloc_size F avail Hs st G); [done|done|done|intros l r; by rewrite Hnames|exact K3].
  - intros l r. rewrite !Hnames. intros Hr. destruct (H6 l r Hr) as (ρ & E & Hρ). exists ρ. split; [done|]. eapply rooted_more; [exact Hg|done|exact Hρ].
  - intros x u Hx. destruct (H7 x u Hx) as [|(b' & t & K1 & K2 & K3 & K4 & K5)]; [by left|right]. exists b', t. split; [done|]. split; [done|]. split; [by apply Hus|]. split; [done|by apply Htv].
  - intros v t r Hr. destruct (H8 v t r Hr) as (x & tx & y & l & K1 & K2 & K3 & K4 & K5 & K6). exists x, tx, y, l. rewrite !Hnames. split; [done|]. split; [done|]. split; [done|]. split; [done|]. split; [done|by apply Htyped].
  - intros l c (nb' & E & Hc) Hres. assert (Hold : inst_at st l c).
    { rewrite Hat in E. destruct (String.eqb_spec l0 l) as [<-|]; [|by exists nb']. injection E as <-. rewrite Hf2 in Hc. by exists nb. }
    specialize (H9 l c Hold Hres). assert (Hsrc : forall u, source_ok M type_alloc_size F avail st G l c u -> source_ok M type_alloc_size F avail st' G l c u).
    { intros u (U1 & U2 & U3 & U4). split; [by apply Hus|]. split; [done|]. split; [done|by apply Htv]. }
    unfold cast_ok in *. destruct (i_kind c) as [| | |inb p l'|op a b'|op v| | | | | |]; try done; [intros Hz; by apply Hsrc, H9|]. destruct op; try done. by apply Hsrc.
  - intros r ρ Hr. rewrite Hnew. by eapply H10.
Qed.
Lemma set_term_inv st G b t' : Inv st G -> b ∈ f_blocks F -> open st (bb_name b) -> partial st G b (bb_insts b) ->
  term_rel M F avail (look st G) (names_at st) (bb_name b) (bb_term b) t' -> let st' := map_new (bb_name b) (set_term t') st in
  Inv st' G /\ (forall l, open st' l <-> open st l /\ l <> bb_name b) /\ (forall l, names_at st' l = names_at st l) /\ (forall r t, typed_in st r t -> typed_in st' r t) /\
  (forall b' olds, partial st G b' olds -> partial st' G b' olds).
Proof.
  intros H Hb [Hv Hopen] Hp Hterm st'. destruct (inv_block M type_alloc_size F avail st G H b Hb) as (nb & Hnb).
  assert (Htt : forall l, term_at st' l = if String.eqb (bb_name b) l then Some t' else term_at st l).
  { intros l. unfold term_at, st'. rewrite block_at_map_new, Hnb. by destruct (String.eqb (bb_name b) l). }
  destruct (reshape st G (bb_name b) (set_term t') H Hv) as (K1 & K2 & K3 & K4); [done| |].
  - intros b' t2 Hb' Ht2. change (map_new _ _ st) with st' in Ht2. rewrite Htt in Ht2. destruct (String.eqb_spec (bb_name b) (bb_name b')) as [E|].
    + assert (b' = b) as -> by (by apply (same_block F avail Hs)). by injection Ht2 as <-.
    + exact (iv_complete _ _ _ _ _ _ H b' t2 Hb' Ht2).
  - split; [done|]. split; [|by split]. intros l. unfold open. rewrite Htt. destruct (String.eqb_spec (bb_name b) l) as [<-|Hne]; [|naive_solver]. split; [by intros [_ ?]|by intros [_ ?]].
Qed.
Lemma term_operand b o : b ∈ f_blocks F -> o ∈ term_operands (bb_term b) -> operand_ok b (bb_insts b) o.
Proof.
  intros Hb Ho x t ->. split.
  - pose proof (sc_term _ _ Hs b Hb x t Ho) as Hx. exact Hx.
  - eapply (operand_typed b (Local x t)); [done| |done]. unfold block_operands. rewrite !elem_of_app. by right; right.
Qed.
Lemma visit_term_ok st G b : visiting st G b (bb_insts b) ->
  exists st1 G1 t', visit_term F rec (bb_name b) (bb_term b) st = Done (map_new (bb_name b) (set_term t') st1) /\ visiting st1 G1 b (bb_insts b) /\ ext all_blocks st G st1 G1 /\
    term_rel M F avail (look st1 G1) (names_at st1) (bb_name b) (bb_term b) t'.
Proof.
  intros Hvis. pose proof Hvis as [H Hb _ _ _ _ _ _]. assert (Hop : forall o, o ∈ term_operands (bb_term b) -> operand_ok b (bb_insts b) o) by (intros o; by apply term_operand).
  assert (Hlab : forall st1 G1 l, Inv st1 G1 -> l ∈ targets (bb_term b) -> mapBlock l st1 = Done l) by (intros st1 G1 l H1 Hl; eapply map_block_ok; [exact H1|by eapply (sc_targets _ _ Hs b)]).
  pose proof (su_terms Hsup b Hb) as Hsw. destruct (bb_term b) as [c l1 l2|l|v| |v|] eqn:Et; cbn [visit_term].
  - destruct (mapValue_ok st G b (bb_insts b) c Hvis) as (c' & st1 & G1 & -> & Hvis1 & Hext1 & M1 & M2 & _); [apply Hop; by left|]. cbn [obind]. pose proof Hvis1 as [H1 _ _ _ _ _ _ _].
    rewrite (Hlab st1 G1 l1 H1) by (by left). cbn [obind]. rewrite (Hlab st1 G1 l2 H1) by (right; by left). cbn [obind]. exists st1, G1, (Br c' l1 l2). split; [done|]. split; [done|]. split; [done|].
    cbn [term_rel]. split; [done|]. split; [done|]. split; [exact M1|]. by rewrite root_look.
  - rewrite (Hlab st G l H) by (by left). cbn [obind]. exists st, G, (Jmp l). split; [done|]. split; [done|]. split; [apply ext_refl|done].
  - destruct (mapValue_ok st G b (bb_insts b) v Hvis) as (v' & st1 & G1 & -> & Hvis1 & Hext1 & M1 & M2 & _); [apply Hop; by left|]. cbn [obind]. exists st1, G1, (Ret v').
    split; [done|]. split; [done|]. split; [done|]. cbn [term_rel]. split; [exact M1|]. by rewrite root_look.
  - exists st, G, RetVoid. split; [done|]. split; [done|]. split; [apply ext_refl|done].
  - exfalso. by apply (Hsw v).
  - exists st, G, Unreachable. split; [done|]. split; [done|]. split; [apply ext_refl|done].
Qed.
End values.

(** *** Phi nodes *)

Abbreviation not b := (fun l => l <> bb_name b).
Lemma phi_added st G b n t : Inv st G -> b ∈ f_blocks F -> open st (bb_name b) -> n ∉ names_in_use F st ->
  let st' := map_new (bb_name b) (add_phi {| phi_name := n; phi_type := t; phi_incoming := [] |}) st in let G' := <[n := inl n]> G in
  Inv st' G' /\ ext (not b) st G st' G' /\ n ∈ names_at st' (bb_name b) /\ typed_in st' n t.
Proof.
  intros H Hb Hopen Hn st' G'. set (p := {| phi_name := n; phi_type := t; phi_incoming := [] |}) in *. pose proof (inv_labels M type_alloc_size F avail Hs st G H) as Hlab.
  destruct (inv_block M type_alloc_size F avail st G H b Hb) as (nb & Hnb).
  assert (Hat : forall l, block_at st' l = if String.eqb (bb_name b) l then Some (add_phi p nb) else block_at st l) by (intros l; unfold st'; rewrite block_at_map_new, Hnb; done).
  assert (Hnames : forall l r, r ∈ names_at st' l <-> r ∈ names_at st l \/ l = bb_name b /\ r = n).
  { intros l r. unfold names_at. rewrite Hat. destruct (String.eqb_spec (bb_name b) l) as [<-|Hne]; [|naive_solver]. rewrite Hnb. unfold building_names. cbn [add_phi nb_phis nb_insts]. rewrite map_app, !elem_of_app.
    cbn [map p phi_name]. rewrite list_elem_of_singleton. tauto. }
  assert (Hnew : names_in_use F st' ≡ₚ n :: names_in_use F st).
  { unfold st', names_in_use. rewrite (all_names_map_new (bb_name b) (add_phi p) st nb [n]); [|done|done|].
    - rewrite app_assoc, (Permutation_app_comm _ [n]). done.
    - unfold building_names. cbn [add_phi nb_phis nb_insts]. rewrite map_app. cbn [map p phi_name]. by rewrite (Permutation_app_comm _ [n]), <- app_assoc. }
  assert (HG : G ⊆ G').
  { apply insert_subseteq. destruct (G !! n) as [ρ|] eqn:E; [|done]. exfalso. apply Hn. by eapply iv_roots_new. }
  assert (Hmore : forall l r, r ∈ names_at st l -> r ∈ names_at st' l) by (intros l r Hr; apply Hnames; by left).
  assert (Hg : grows (look st G) (look st' G')) by (by apply look_grows).
  assert (Hterm : forall l, term_at st' l = term_at st l).
  { intros l. unfold term_at. rewrite Hat. destruct (String.eqb_spec (bb_name b) l) as [<-|]; [|done]. by rewrite Hnb. }
  assert (Htyped : forall r t, typed_in st r t -> typed_in st' r t).
  { intros r t0 [Ha|(l & nb' & E & Hr)]; [by left|right]. exists l. rewrite Hat. destruct (String.eqb_spec (bb_name b) l) as [<-|]; [|by exists nb']. rewrite Hnb in E. injection E as <-.
    eexists. split; [done|]. unfold building_typed in *. cbn [add_phi nb_phis nb_insts]. rewrite map_app, !elem_of_app in *. tauto. }
  assert (Hpart : forall b' olds, bb_name b' <> bb_name b -> partial st G b' olds -> partial st' G' b' olds).
  { intros b' olds Hne. apply (same_block_partial M F avail); try done. rewrite Hat. destruct (String.eqb_spec (bb_name b) (bb_name b')); [congruence|done]. }
  assert (Hus : forall l u, usable_at st G l u -> usable_at st' G' l u) by (intros l u; apply usable_more; [exact Hg|apply Hmore]).
  assert (Htv : forall u, typed_value st u -> typed_value st' u) by (intros u; destruct u; try done; apply Htyped).
  assert (Hin : n ∈ names_at st' (bb_name b)) by (apply Hnames; by right).
  assert (Htn : typed_in st' n t).
  { right. exists (bb_name b), (add_phi p nb). rewrite Hat, String.eqb_refl. split; [done|]. unfold building_typed. cbn [add_phi nb_phis]. rewrite map_app, !elem_of_app. left. right. by left. }
  split; [|split; [|by split]].
  - pose proof H as [H1 H2 H3 H4 H5 H6 H7 H8 H9 H10 H11 H12]. constructor; try done.
    + unfold st'. by rewrite labels_map_new.
    + rewrite Hnew. by constructor.
    + intros b' Hb' Hv'. rewrite Hat. destruct (String.eqb_spec (bb_name b) (bb_name b')) as [E|]; [|by apply H3]. exfalso. apply Hv'. rewrite <- E. apply Hopen.
    + intros b' t2 Hb' Ht2. rewrite Hterm in Ht2. destruct (H4 b' t2 Hb' Ht2) as (K1 & K2 & K3). split; [done|]. split; [|by eapply (term_rel_grows M type_alloc_size F avail Hs st G)].
      apply Hpart; [|done]. intros E. destruct Hopen as [_ Ho]. rewrite E in Ht2. congruence.
    + intros a t0 Ha. destruct (H5 a t0 Ha) as [K1 K2]. split; [done|]. by eapply lookup_weaken.
    + intros l r [Hr|[-> ->]]%Hnames.
      * destruct (H6 l r Hr) as (ρ & E & Hρ). exists ρ. split; [by eapply lookup_weaken|]. eapply rooted_more; [exact Hg|apply Hmore|exact Hρ].
      * exists (inl n). split; [apply lookup_insert_eq|right; by left].
    + intros x u Hx. destruct (H7 x u Hx) as [|(b' & t0 & K1 & K2 & K3 & K4 & K5)]; [by left|right]. exists b', t0. split; [done|]. split; [done|]. split; [by apply Hus|]. split; [done|by apply Htv].
    + intros v t0 r Hr. destruct (H8 v t0 r Hr) as (x & tx & y & l & K1 & K2 & K3 & K4 & K5 & K6). exists x, tx, y, l. split; [done|]. split; [done|]. split; [by apply Hmore|]. split; [by apply Hmore|]. split; [|by apply Htyped].
      destruct (H6 l x K3) as (ρ & E & _). rewrite E in K5. transitivity (Some ρ); [by eapply lookup_weaken|symmetry; by eapply lookup_weaken].
    + intros l c (nb' & E & Hc) Hres. assert (Hold : inst_at st l c).
      { rewrite Hat in E. destruct (String.eqb_spec (bb_name b) l) as [<-|]; [|by exists nb']. injection E as <-. by exists nb. }
      assert (Hl : l ∈ labels_of) by (destruct Hold as (nb2 & Hold & _); rewrite <- H1; apply block_at_elem in Hold; by apply (list_elem_of_fmap_2 fst _ (l, nb2))).
      specialize (H9 l c Hold Hres). assert (Hsrc : forall u, source_ok M type_alloc_size F avail st G l c u -> source_ok M type_alloc_size F avail st' G' l c u).
      { intros u (U1 & U2 & U3 & U4). split; [by apply Hus|]. split; [|split; [done|by apply Htv]]. destruct (usable_root M type_alloc_size F avail Hs st G H l u Hl U1) as (ρ & E2 & _). rewrite E2 in U2.
        transitivity (Some ρ); [|symmetry; by eapply lookup_weaken]. destruct u; try exact E2. by eapply lookup_weaken. }
      unfold cast_ok in *. destruct (i_kind c) as [| | |inb q l'|op a b'|op v| | | | | |]; try done; [intros Hz; by apply Hsrc, H9|]. destruct op; try done. by apply Hsrc.
    + intros r ρ Hr. rewrite Hnew. apply lookup_insert_Some in Hr as [[<- _]|[_ Hr]]; [by left|right]. by eapply H10.
  - constructor; try done.
    + intros l. unfold open. by rewrite Hterm.
    + intros b' olds _ _ Hne. by apply Hpart.
    + intros x Hx. by left.
Qed.
Definition phis_visited (st : rebuilding) (G : roots) (b : Block) (ps : list Phi) : Prop :=
  exists nb, block_at st (bb_name b) = Some nb /\ nb_insts nb = [] /\ Forall2 (phi_start st G) ps (nb_phis nb).
Lemma visit_phis_ok b post : forall pre st G, bb_phis b = pre ++ post -> Inv st G -> b ∈ f_blocks F -> open st (bb_name b) -> phis_visited st G b pre ->
  (forall x, x ∈ block_defs b -> is_Some (VMap st !! x) -> x ∈ map phi_name pre) ->
  exists G', let st' := fold_left (visitPHINode value_name F (bb_name b)) post st in Inv st' G' /\ ext (not b) st G st' G' /\ phis_visited st' G' b (bb_phis b) /\
    (forall x, x ∈ block_defs b -> is_Some (VMap st' !! x) -> x ∈ map phi_name (bb_phis b)).
Proof.
  induction post as [|p post IH]; intros pre st G E H Hb Hopen Hpv Hmap; cbn [fold_left].
  { rewrite app_nil_r in E. rewrite E. exists G. split; [done|]. split; [apply ext_refl|by split]. }
  unfold visitPHINode at 2. set (n := value_name (names_in_use F st) _). destruct (phi_added st G b n (phi_type p) H Hb Hopen (Hvalue_name _ _)) as (H1 & Hext1 & Hin & Hty).
  set (st1 := map_new _ _ st) in *. set (G1 := <[n := inl n]> G) in *. assert (Hxb : phi_name p ∈ block_defs b) by (apply elem_of_app; left; rewrite E, map_app; apply elem_of_app; right; by left).
  assert (Hnone : VMap st1 !! phi_name p = None).
  { destruct (VMap st1 !! phi_name p) eqn:Ev; [|done]. exfalso. assert (Hx : phi_name p ∈ map phi_name pre) by (apply Hmap; [done|by exists v]). pose proof (block_defs_NoDup F avail Hs b Hb) as Hn.
    unfold block_defs in Hn. apply NoDup_app in Hn as (Hn & _). rewrite E, map_app in Hn. apply NoDup_app in Hn as (_ & Hn & _). apply (Hn _ Hx). by left. }
  destruct (with_VMap_frame M type_alloc_size F avail Hs st1 G1 (phi_name p) (phi_type p) (Local n (phi_type p)) b H1) as (H2 & Hext2 & _).
  - by apply (def_not_arg_name F avail Hs b).
  - done.
  - done.
  - apply (ex_visited _ _ _ _ _ _ _ _ _ Hext1), Hopen.
  - apply elem_of_app. left. rewrite E, map_app. apply elem_of_app. right. by left.
  - right. by left.
  - apply alike_refl.
  - done.
  - set (st2 := with_VMap _ _ st1) in *. pose proof (ext_trans M type_alloc_size F avail _ _ _ _ _ _ _ Hext1 Hext2) as Hext.
    destruct (IH (pre ++ [p]) st2 G1) as (G' & K1 & K2 & K3 & K4); [by rewrite <- app_assoc|done|done|by apply (ex_open _ _ _ _ _ _ _ _ _ Hext)| | |].
    + destruct Hpv as (nb & P1 & P2 & P3). exists (add_phi {| phi_name := n; phi_type := phi_type p; phi_incoming := [] |} nb). split; [|split; [done|]].
      * change (block_at st1 (bb_name b) = Some (add_phi {| phi_name := n; phi_type := phi_type p; phi_incoming := [] |} nb)). unfold st1. by rewrite block_at_map_new, String.eqb_refl, P1.
      * cbn [add_phi nb_phis]. apply Forall2_app.
        -- eapply Forall2_impl; [exact P3|]. intros q q'. apply phi_start_more; [apply (ex_vmap _ _ _ _ _ _ _ _ _ Hext)|apply (ex_root _ _ _ _ _ _ _ _ _ Hext)].
        -- constructor; [|constructor]. split; [done|]. split; [apply lookup_insert_eq|apply lookup_insert_eq].
    + intros x Hx Hsome. rewrite map_app, elem_of_app. cbn [st2 with_VMap VMap map] in *. destruct (decide (x = phi_name p)) as [->|Hne]; [right; by left|left]. rewrite lookup_insert_ne in Hsome by done. by apply Hmap.
    + exists G'. split; [exact K1|]. split; [by eapply ext_trans|]. by split.
Qed.

(** *** Blocks *)

Lemma with_visited_inv st G b : Inv st G -> b ∈ f_blocks F -> bb_name b ∉ visitedBB st -> let st' := with_visited (bb_name b) st in
  Inv st' G /\ (forall l, open st' l <-> open st l \/ l = bb_name b) /\ phis_visited st' G b [].
Proof.
  intros H Hb Hv st'. pose proof (iv_unvisited _ _ _ _ _ _ H b Hb Hv) as Hempty. split; [|split].
  - pose proof H as [H1 H2 H3 H4 H5 H6 H7 H8 H9 H10 H11 H12]. constructor; try done.
    + intros b' Hb' Hv'. apply H3; [done|]. intros Hv2. apply Hv'. by right.
    + intros b' t' Hb' Ht'. destruct (H4 b' t' Hb' Ht') as (K1 & K2 & K3). split; [by right|by split].
    + intros l [->|Hl]%elem_of_cons; [by apply list_elem_of_fmap_2|by apply H11].
    + intros b' x Hb' Hx Hs'. right. by eapply H12.
  - intros l. unfold open. change (term_at st' l) with (term_at st l). cbn [st' with_visited visitedBB]. rewrite elem_of_cons. split; [naive_solver|]. intros [[K1 K2]| ->]; [split; [by right|done]|].
    split; [by left|]. unfold term_at. by rewrite Hempty.
  - exists empty_building. split; [exact Hempty|]. split; [done|constructor].
Qed.
Lemma one_less_unvisited st b : b ∈ f_blocks F -> bb_name b ∉ visitedBB st -> (unvisited_blocks (with_visited (bb_name b) st) < unvisited_blocks st)%nat.
Proof.
  intros Hb Hv. unfold unvisited_blocks. cbn [with_visited visitedBB].
  assert (Hle : forall bs, (length (List.filter (fun c => negb (bool_decide (bb_name c ∈ bb_name b :: visitedBB st))) bs) <= length (List.filter (fun c => negb (bool_decide (bb_name c ∈ visitedBB st))) bs))%nat).
  { induction bs as [|c bs IH]; [done|]. cbn [List.filter]. destruct (bool_decide (bb_name c ∈ visitedBB st)) eqn:E.
    - apply bool_decide_eq_true in E. rewrite bool_decide_true by (by right). exact IH.
    - destruct (bool_decide (bb_name c ∈ bb_name b :: visitedBB st)); cbn [negb length]; lia. }
  revert Hb. generalize (f_blocks F). intros bs Hb. induction bs as [|c bs IH]; [by apply not_elem_of_nil in Hb|]. cbn [List.filter]. apply elem_of_cons in Hb as [<-|Hb].
  - rewrite (bool_decide_true (bb_name b ∈ _ :: _)) by (by left). rewrite (bool_decide_false (bb_name b ∈ visitedBB st)) by done. cbn [negb length]. specialize (Hle bs). lia.
  - specialize (IH Hb). destruct (bool_decide (bb_name c ∈ visitedBB st)) eqn:E.
    + apply bool_decide_eq_true in E. rewrite bool_decide_true by (by right). exact IH.
    + destruct (bool_decide (bb_name c ∈ bb_name b :: visitedBB st)); cbn [negb length]; lia.
Qed.
Lemma visit_block_ok rec n st G b : demand rec n -> Inv st G -> b ∈ f_blocks F -> bb_name b ∉ visitedBB st -> (forall l, open st l -> before (bb_name b) l) -> (unvisited_blocks st <= S n)%nat ->
  exists st' G', visit_block type_alloc_size value_name folded strip_constant cc_of F rec (bb_name b) b (with_visited (bb_name b) st) = Done st' /\
    Inv st' G' /\ ext all_blocks st G st' G' /\ bb_name b ∈ visitedBB st'.
Proof.
  intros Hrec H Hb Hv Hw Hfuel. destruct (with_visited_inv st G b H Hb Hv) as (Ha & Hopen & Hpv). pose proof (one_less_unvisited st b Hb Hv) as Hless. set (sta := with_visited (bb_name b) st) in *.
  assert (Hoa : open sta (bb_name b)) by (apply Hopen; by right). unfold visit_block.
  destruct (visit_phis_ok b (bb_phis b) [] sta G) as (G1 & H1 & Hext1 & (nb & P1 & P2 & P3) & Hmap1); [done|exact Ha|done|done|exact Hpv| |].
  { intros x Hx Hsome. exfalso. apply Hv. by apply (iv_mapped _ _ _ _ _ _ H b x). }
  set (st1 := fold_left _ _ sta) in *. assert (Hvis1 : visiting n st1 G1 b []).
  { constructor; try done.
    - by apply (ex_open _ _ _ _ _ _ _ _ _ Hext1).
    - intros l Hl%(ex_open _ _ _ _ _ _ _ _ _ Hext1). apply Hopen in Hl as [Hl| ->]; [right; by apply Hw|by left].
    - exists nb. rewrite P2. split; [done|]. split; [done|constructor].
    - by exists (bb_insts b).
    - etrans; [apply unvisited_fewer, (ex_visited _ _ _ _ _ _ _ _ _ Hext1)|]. lia.
    - intros x Hx Hsome. unfold results. cbn [List.filter map]. rewrite app_nil_r. by apply Hmap1. }
  destruct (visit_insts_ok rec n Hrec b (bb_insts b) [] st1 G1 Hvis1 eq_refl) as (st2 & G2 & -> & Hvis2 & Hext2). cbn [obind].
  destruct (visit_term_ok rec n Hrec st2 G2 b Hvis2) as (st3 & G3 & t' & -> & Hvis3 & Hext3 & Hterm). pose proof Hvis3 as [H3 _ Ho3 _ Hp3 _ _ _].
  destruct (set_term_inv st3 G3 b t' H3 Hb Ho3 Hp3 Hterm) as (K1 & K2 & K3 & K4 & K5). exists (map_new (bb_name b) (set_term t') st3), G3. split; [done|]. split; [exact K1|].
  assert (Hext : ext (not b) sta G st3 G3) by (eapply ext_trans; [exact Hext1|eapply ext_trans; [exact Hext2|by eapply ext_weaken; [|exact Hext3]]]). destruct Hext as [A1 A2 A3 AT A4 A5 A6 A7].
  split; [|apply (A4 (bb_name b)); by left]. constructor; try done.
  - intros l r Hr. rewrite K3. by apply A3.
  - intros r t Hr. by apply K4, AT.
  - intros l Hl. apply A4. by right.
  - intros l. rewrite K2, A5, Hopen. split; [naive_solver|]. intros Hl. split; [by left|]. intros ->. by apply Hv, Hl.
  - intros b' olds Hb' Hv' _ Hp. apply K5, A6; [done|by right| |exact Hp]. intros E. apply Hv. by rewrite <- E.
  - intros x Hx. destruct (A7 x Hx) as [Hx'|(b' & Hb' & Hxb & Hc)]; [by left|right]. exists b'. split; [done|]. split; [done|]. left. intros Hv'. destruct Hc as [Hc|Hc]; [apply Hc; by right|].
    apply Hc. intros E. apply Hv. by rewrite <- E.
Qed.
Abbreviation run := (runOnBasicBlock type_alloc_size value_name folded strip_constant cc_of F).
Lemma find_block b : b ∈ f_blocks F -> find_bb (f_blocks F) (bb_name b) = Some b.
Proof.
  intros Hb. destruct (find_bb (f_blocks F) (bb_name b)) as [b'|] eqn:E.
  - apply find_bb_spec in E as [H1 H2]. f_equal. by apply (same_block F avail Hs).
  - exfalso. unfold find_bb in E. apply list_elem_of_In in Hb. eapply List.find_none in E; [|exact Hb]. by rewrite String.eqb_refl in E.
Qed.
Lemma run_demand n : demand (run n) n.
Proof.
  induction n as [|n IH]; intros b st G H Hb Hv Hw Hfuel; pose proof (one_less_unvisited st b Hb Hv) as Hless; [lia|]. cbn [runOnBasicBlock]. change (map fst (newBlocks st)) with (labels st).
  rewrite (iv_labels _ _ _ _ _ _ H), (bool_decide_true (bb_name b ∈ labels_of)) by (by apply list_elem_of_fmap_2). cbn [assert_ obind]. rewrite bool_decide_false by done. rewrite (find_block b Hb).
  by apply (visit_block_ok (run n) n).
Qed.
Lemma all_unvisited st : (unvisited_blocks st <= length (f_blocks F))%nat.
Proof. unfold unvisited_blocks. apply List.filter_length_le. Qed.
Lemma rebuild_demand : demand (run (rebuild_fuel F)) (length (f_blocks F)).
Proof. intros b st G H Hb Hv Hw Hfuel. apply (run_demand (rebuild_fuel F)); [done..|]. unfold rebuild_fuel. lia. Qed.

(** ** The first phase *)

Abbreviation start := (start_rebuild type_alloc_size F).
Definition start_roots : roots := list_to_map (map (fun a => (a, inl a)) arg_names).
Lemma arg_names_NoDup : NoDup arg_names.
Proof. pose proof (sc_defs _ _ Hs) as H. unfold defs in H. by apply NoDup_app in H as (H & _). Qed.
Lemma start_inv : Inv start start_roots /\ forall l, ~ open start l.
Proof.
  assert (Hblock : forall l nb, block_at start l = Some nb -> nb = empty_building).
  { intros l nb Hl%block_at_elem. cbn [start_rebuild newBlocks] in Hl. apply list_elem_of_fmap in Hl as (b & [= -> ->] & _). done. }
  assert (Hnames : forall l r, r ∉ names_at start l).
  { intros l r. unfold names_at. destruct (block_at start l) as [nb|] eqn:E; [|apply not_elem_of_nil]. rewrite (Hblock _ _ E). apply not_elem_of_nil. }
  assert (Hterm : forall l, term_at start l = None) by (intros l; unfold term_at; destruct (block_at start l) as [nb|] eqn:E; [by rewrite (Hblock _ _ E)|done]).
  assert (Hnew : names_in_use F start = arg_names).
  { unfold names_in_use. cbn [start_rebuild newBlocks]. assert (forall bs : list Block, flat_map (fun p : string * building => building_names (snd p)) (map (fun b => (bb_name b, {| nb_phis := []; nb_insts := []; nb_term := None |})) bs) = []) as ->.
    { induction bs as [|b bs IH]; [done|]. cbn [map flat_map snd]. by rewrite IH. } by rewrite app_nil_r. }
  assert (Hvmap : forall x u, VMap start !! x = Some u -> x ∈ arg_names).
  { intros x u Hx. cbn [start_rebuild VMap] in Hx. apply elem_of_list_to_map_2 in Hx. apply list_elem_of_fmap in Hx as (a & [= -> ->] & Ha). by apply list_elem_of_fmap_2. }
  split; [|by intros l [Hl _]; apply not_elem_of_nil in Hl]. constructor; try done.
  - unfold labels. cbn [start_rebuild newBlocks]. by rewrite map_map.
  - rewrite Hnew. apply arg_names_NoDup.
  - intros b Hb _. destruct (block_at_label start (bb_name b)) as (nb & E); [unfold labels; cbn [start_rebuild newBlocks]; rewrite map_map; by apply list_elem_of_fmap_2|]. by rewrite E, (Hblock _ _ E).
  - intros b t' Hb Ht. by rewrite Hterm in Ht.
  - intros a t Ha. split.
    + cbn [start_rebuild VMap]. apply elem_of_list_to_map_1.
      * rewrite map_map. cbn [fst]. exact arg_names_NoDup.
      * apply list_elem_of_fmap. by exists (a, t).
    + unfold start_roots. apply elem_of_list_to_map_1.
      * rewrite map_map. cbn [fst]. rewrite map_id. exact arg_names_NoDup.
      * apply list_elem_of_fmap. exists a. split; [done|]. by apply (list_elem_of_fmap_2 fst _ (a, t)).
  - intros l r Hr. by apply Hnames in Hr.
  - intros x u Hx. left. by eapply Hvmap.
  - intros v t r Hr. by apply not_elem_of_nil in Hr.
  - intros l c (nb & E & Hc). rewrite (Hblock _ _ E) in Hc. by apply not_elem_of_nil in Hc.
  - intros r ρ Hr. rewrite Hnew. unfold start_roots in Hr. apply elem_of_list_to_map_2 in Hr. apply list_elem_of_fmap in Hr as (a & [= -> ->] & Ha). done.
  - intros l Hl. by apply not_elem_of_nil in Hl.
  - intros b x Hb Hx (u & Hu). exfalso. eapply (def_not_arg_name F avail Hs b); [done|exact Hx|]. by eapply Hvmap.
Qed.
Lemma run_visited st l n : l ∈ visitedBB st -> l ∈ labels st -> run (S n) l st = Done st.
Proof. intros Hv Hl. cbn [runOnBasicBlock]. change (map fst (newBlocks st)) with (labels st). rewrite (bool_decide_true (l ∈ labels st)) by done. cbn [assert_ obind]. by rewrite bool_decide_true. Qed.
Lemma run_on_blocks bs : forall st G, (forall b, b ∈ bs -> b ∈ f_blocks F) -> Inv st G -> (forall l, ~ open st l) ->
  exists st' G', runOnBlocks type_alloc_size value_name folded strip_constant cc_of F bs st = Done st' /\ Inv st' G' /\ (forall l, ~ open st' l) /\
    (forall l, l ∈ visitedBB st -> l ∈ visitedBB st') /\ (forall b, b ∈ bs -> bb_name b ∈ visitedBB st').
Proof.
  induction bs as [|b bs IH]; intros st G Hbs H Ho; cbn [runOnBlocks].
  { exists st, G. split; [done|]. split; [done|]. split; [done|]. split; [done|]. intros b Hb. by apply not_elem_of_nil in Hb. }
  assert (Hb : b ∈ f_blocks F) by (apply Hbs; by left). assert (Hstep : exists st1 G1, run (rebuild_fuel F) (bb_name b) st = Done st1 /\ Inv st1 G1 /\ (forall l, ~ open st1 l) /\
    (forall l, l ∈ visitedBB st -> l ∈ visitedBB st1) /\ bb_name b ∈ visitedBB st1).
  { destruct (decide (bb_name b ∈ visitedBB st)) as [Hv|Hv].
    - exists st, G. split; [|by split]. apply run_visited; [done|]. rewrite (iv_labels _ _ _ _ _ _ H). by apply list_elem_of_fmap_2.
    - destruct (rebuild_demand b st G H Hb Hv) as (st1 & G1 & E & H1 & Hext & Hv1); [intros l Hl; by apply Ho in Hl|apply all_unvisited|]. exists st1, G1. split; [exact E|]. split; [done|].
      split; [intros l Hl%(ex_open _ _ _ _ _ _ _ _ _ Hext); by apply (Ho l)|]. split; [apply (ex_visited _ _ _ _ _ _ _ _ _ Hext)|done]. }
  destruct Hstep as (st1 & G1 & -> & H1 & Ho1 & Hv1 & Hb1). cbn [obind]. destruct (IH st1 G1) as (st2 & G2 & -> & H2 & Ho2 & Hv2 & Hb2); [intros c Hc; apply Hbs; by right|done|done|].
  exists st2, G2. split; [done|]. split; [done|]. split; [done|]. split; [intros l Hl; by apply Hv2, Hv1|]. intros c [->|Hc]%elem_of_cons; [by apply Hv2|by apply Hb2].
Qed.

(** ** The second phase *)

(** Every block is finished. *)
Definition settled (st : rebuilding) (G : roots) : Prop := Inv st G /\ (forall l, ~ open st l) /\ forall b, b ∈ f_blocks F -> bb_name b ∈ visitedBB st.
Abbreviation incoming_related st G := (incoming_rel M F avail (look st G) (names_at st)).
Definition incoming_of (st : rebuilding) (l n : string) : list (Value * string) :=
  match block_at st l ≫= (fun nb => List.find (fun p => String.eqb (phi_name p) n) (nb_phis nb)) with Some p => phi_incoming p | None => [] end.
Lemma settled_ext st G st' G' : settled st G -> Inv st' G' -> ext all_blocks st G st' G' -> settled st' G'.
Proof. intros (H1 & H2 & H3) H Hext. split; [done|]. split; [intros l Hl%(ex_open _ _ _ _ _ _ _ _ _ Hext); by apply (H2 l)|]. intros b Hb. by apply (ex_visited _ _ _ _ _ _ _ _ _ Hext), H3. Qed.
Lemma settled_block st G b : settled st G -> b ∈ f_blocks F -> exists nb t', block_at st (bb_name b) = Some nb /\ nb_term nb = Some t' /\ partial st G b (bb_insts b) /\
  term_rel M F avail (look st G) (names_at st) (bb_name b) (bb_term b) t'.
Proof.
  intros (H1 & H2 & H3) Hb. destruct (inv_block M type_alloc_size F avail st G H1 b Hb) as (nb & Hnb). destruct (term_at st (bb_name b)) as [t'|] eqn:Et; [|exfalso; apply (H2 (bb_name b)); split; [by apply H3|done]].
  destruct (iv_complete _ _ _ _ _ _ H1 b t' Hb Et) as (_ & Hp & Ht). exists nb, t'. split; [done|]. split; [|by split]. unfold term_at in Et. by rewrite Hnb in Et.
Qed.
Lemma settled_mapped st G x : settled st G -> x ∈ defs F -> exists u, VMap st !! x = Some u.
Proof.
  intros Hset [Ha|Hx]%elem_of_app.
  - apply list_elem_of_fmap in Ha as ([a t] & -> & Ha). destruct Hset as (H1 & _). destruct (iv_args _ _ _ _ _ _ H1 a t Ha) as [E _]. by eexists.
  - apply elem_of_flat_map in Hx as (b & Hb & Hx). destruct (settled_block st G b Hset Hb) as (nb & t' & _ & _ & Hp & _). by apply (partial_mapped st G b (bb_insts b) x Hp).
Qed.
Lemma incoming_rel_ext st G st' G' inc inc' : Inv st G -> snd inc ∈ labels_of -> ext all_blocks st G st' G' -> incoming_related st G inc inc' -> incoming_related st' G' inc inc'.
Proof.
  intros H Hl Hext (H1 & H2 & H3 & (ρ & H4)). pose proof (ext_grows M type_alloc_size F avail _ _ _ _ _ Hext) as Hg. split; [done|]. split; [by eapply usable_ext|]. rewrite H4 in H3.
  rewrite (root_grows M _ _ _ _ Hg H3), (old_root_grows M _ _ _ _ Hg H4). split; [done|]. by exists ρ.
Qed.
(** An operand of a phi node. *)
Lemma map_incoming_ok st G b p o pred : settled st G -> b ∈ f_blocks F -> p ∈ bb_phis b -> (o, pred) ∈ phi_incoming p ->
  exists U st' G', map_incoming type_alloc_size value_name folded strip_constant cc_of F (o, pred) (phi_type p) st = Done (U, st') /\ settled st' G' /\ ext all_blocks st G st' G' /\
    incoming_related st' G' (o, pred) (U, pred) /\ type_of U = phi_type p /\ (forall l n, incoming_of st' l n = incoming_of st l n).
Proof.
  intros Hset Hb Hp Ho. pose proof Hset as (H & Hclosed & Hvisited). destruct (sc_phis _ _ Hs b p o pred Hb Hp Ho) as (b0 & Hb0 & <- & Hscope).
  destruct (su_phis Hsup b p Hb Hp) as (_ & _ & Htypes). rewrite Forall_forall in Htypes. pose proof (Htypes _ Ho) as Hto. cbn [fst] in Hto.
  assert (Hmap : exists u, mapValue F (run (rebuild_fuel F)) o st = Done (u, st) /\ mapped st G (bb_name b0) o u).
  { destruct o as [x t| | | | | | | | | | | |]; try (eexists; split; [reflexivity|by apply mapped_constant]). pose proof (Hscope x t ltac:(by left)) as Hx.
    assert (Hxd : x ∈ defs F).
    { rewrite !elem_of_app in Hx. unfold defs. apply elem_of_app. destruct Hx as [Hx|[Hx|Hx]]; [by left|right; apply elem_of_flat_map|right; apply elem_of_flat_map; by exists b0].
      destruct (sc_defined _ _ Hs b0 x Hb0 Hx) as (b1 & ? & ?). by exists b1. }
    destruct (settled_mapped st G x Hset Hxd) as (u & Eu). exists u. cbn [mapValue]. rewrite Eu. split; [done|]. eapply (found_mapped st G b0 (bb_insts b0) x t u H Hb0); [done| |done].
    intros x' t' [= <- <-]. split; [unfold block_defs in Hx; exact Hx|]. eapply (operand_typed b (Local x t)); [done| |done]. unfold block_operands. apply elem_of_app. left. apply elem_of_flat_map. exists p. split; [done|].
    by apply (list_elem_of_fmap_2 fst _ (Local x t, bb_name b0)). }
  destruct Hmap as (u & E & Hm). pose proof Hm as (M1 & M2 & (ρ & M3) & M4 & M5). unfold map_incoming. cbn [fst snd]. rewrite E. cbn [obind]. rewrite (map_block_ok st G (bb_name b0) H) by (by apply list_elem_of_fmap_2). cbn [obind].
  assert (Hsame : type_of u = phi_type p -> incoming_related st G (o, bb_name b0) (u, bb_name b0)).
  { intros _. split; [done|]. split; [exact M1|]. cbn [fst]. rewrite root_look, M2. split; [done|]. rewrite <- M2. by exists ρ. }
  destruct (bool_decide (type_of u = phi_type p)) eqn:Et; cbn [negb andb].
  { apply bool_decide_eq_true in Et. exists u, st, G. split; [done|]. split; [done|]. split; [apply ext_refl|]. split; [by apply Hsame|]. by split. }
  apply bool_decide_eq_false in Et. rewrite Hto in M4. destruct M4 as [M4|[M4 M4']]; [by symmetry in M4|]. rewrite M4, M4'. cbn [andb]. unfold create, insert_inst. set (n := value_name (names_in_use F st) _).
  destruct (cast_appended st G b0 n (phi_type p) u H Hb0 (Hvisited b0 Hb0) (Hvalue_name _ _) M4 M4' M5 M1) as (G' & K1 & K2 & K3 & K4 & K5). eexists _, _, G'. split; [reflexivity|]. split; [by eapply settled_ext|]. split; [done|].
  pose proof (ext_grows M type_alloc_size F avail _ _ _ _ _ K2) as Hg. rewrite M2 in M3. split; [|split; [done|]].
  - split; [done|]. split; [right; by left|]. cbn [fst root RebuildInv.look vw_root]. rewrite K4, M2. rewrite (old_root_grows M _ _ _ _ Hg M3), M3. split; [done|by exists ρ].
  - intros l n'. unfold incoming_of. rewrite block_at_map_new. destruct (String.eqb_spec (bb_name b0) l) as [<-|]; [|done]. by destruct (block_at st (bb_name b0)).
Qed.
Lemma find_map_phi (g : Phi -> Phi) n ps : (forall p, phi_name (g p) = phi_name p) ->
  List.find (fun p => String.eqb (phi_name p) n) (map g ps) = g <$> List.find (fun p => String.eqb (phi_name p) n) ps.
Proof. intros Hg. induction ps as [|p ps IH]; [done|]. cbn [map List.find]. rewrite Hg. by destruct (String.eqb (phi_name p) n). Qed.
Definition has_phi (st : rebuilding) (l n : string) : Prop := exists nb p, block_at st l = Some nb /\ List.find (fun p => String.eqb (phi_name p) n) (nb_phis nb) = Some p.
Lemma add_incoming_ok st G b n U l : settled st G -> b ∈ f_blocks F -> has_phi st (bb_name b) n -> let st' := map_new (bb_name b) (add_incoming n U l) st in
  settled st' G /\ ext all_blocks st G st' G /\ incoming_of st' (bb_name b) n = incoming_of st (bb_name b) n ++ [(U, l)] /\
  (forall l' n', l' <> bb_name b \/ n' <> n -> incoming_of st' l' n' = incoming_of st l' n').
Proof.
  intros Hset Hb (nb & p & Hnb & Hp) st'. pose proof Hset as (H & Hclosed & Hvisited). set (g := fun q => if String.eqb (phi_name q) n then {| phi_name := phi_name q; phi_type := phi_type q; phi_incoming := phi_incoming q ++ [(U, l)] |} else q).
  assert (Hg : forall q, phi_name (g q) = phi_name q) by (intros q; unfold g; by destruct (String.eqb (phi_name q) n)).
  assert (Hterm : forall l', term_at st' l' = term_at st l').
  { intros l'. unfold term_at, st'. rewrite block_at_map_new, Hnb. destruct (String.eqb_spec (bb_name b) l') as [<-|]; [|done]. by rewrite Hnb. }
  destruct (reshape st G (bb_name b) (add_incoming n U l) H (Hvisited b Hb)) as (K1 & K2 & K3 & K4).
  { intros nb'. split; [|done]. cbn [add_incoming set_phis nb_phis]. rewrite map_map. apply map_ext. intros q. unfold phi_def. by destruct (String.eqb (phi_name q) n). }
  { intros b' t' Hb' Ht. change (map_new _ _ st) with st' in Ht. rewrite Hterm in Ht. exact (iv_complete _ _ _ _ _ _ H b' t' Hb' Ht). }
  fold st' in K1, K2, K3, K4.
  assert (Hext : ext all_blocks st G st' G).
  { constructor; try done; [intros l' r; by rewrite K2|intros l'; unfold open; by rewrite Hterm|intros b' olds _ _ _; apply K4|intros x Hx; by left]. }
  split; [by eapply settled_ext|]. split; [done|]. unfold incoming_of, st'. rewrite block_at_map_new, Hnb, String.eqb_refl. cbn [fmap option_fmap option_map mbind option_bind].
  change (nb_phis (add_incoming n U l nb)) with (map g (nb_phis nb)). rewrite (find_map_phi g n (nb_phis nb) Hg), Hp. cbn [fmap option_fmap option_map]. apply List.find_some in Hp as [_ Hpn]. split.
  - unfold g. by rewrite Hpn.
  - intros l' n' Hne. rewrite block_at_map_new. destruct (String.eqb_spec (bb_name b) l') as [<-|]; [|done]. rewrite Hnb. cbn [fmap option_fmap option_map mbind option_bind].
    change (nb_phis (add_incoming n U l nb)) with (map g (nb_phis nb)). rewrite (find_map_phi g n' (nb_phis nb) Hg). destruct (List.find _ (nb_phis nb)) as [q|] eqn:Eq; [|done]. cbn [fmap option_fmap option_map].
    apply List.find_some in Eq as [_ Eq]. apply String.eqb_eq in Eq. unfold g. destruct (String.eqb_spec (phi_name q) n) as [E|]; [|done]. destruct Hne as [Hne|Hne]; [done|]. congruence.
Qed.
Lemma settled_phi st G b p : settled st G -> b ∈ f_blocks F -> p ∈ bb_phis b -> exists n, VMap st !! phi_name p = Some (Local n (phi_type p)) /\ has_phi st (bb_name b) n.
Proof.
  intros Hset Hb Hp. destruct (settled_block st G b Hset Hb) as (nb & t' & Hnb & _ & (nb' & Hnb' & P1 & _) & _). rewrite Hnb in Hnb'. injection Hnb' as <-.
  destruct (Forall2_elem_of_l _ _ _ _ P1 Hp) as (p' & Hp' & _ & E & _). exists (phi_name p'). split; [done|]. destruct (List.find (fun q => String.eqb (phi_name q) (phi_name p')) (nb_phis nb)) as [q|] eqn:Eq; [by exists nb, q|].
  exfalso. apply list_elem_of_In in Hp'. eapply List.find_none in Eq; [|exact Hp']. by rewrite String.eqb_refl in Eq.
Qed.
Lemma phi_injective st G b p p' n t t' : settled st G -> b ∈ f_blocks F -> p ∈ bb_phis b -> p' ∈ bb_phis b -> VMap st !! phi_name p = Some (Local n t) -> VMap st !! phi_name p' = Some (Local n t') -> p = p'.
Proof.
  intros Hset Hb Hp Hp' E E'. destruct (settled_block st G b Hset Hb) as (nb & tm & Hnb & _ & (nb' & Hnb' & P1 & _) & _). rewrite Hnb in Hnb'. injection Hnb' as <-.
  apply list_elem_of_lookup in Hp as (j & Hj). apply list_elem_of_lookup in Hp' as (j' & Hj'). destruct (Forall2_lookup_l _ _ _ _ _ P1 Hj) as (q & Hq & _ & Q & _). destruct (Forall2_lookup_l _ _ _ _ _ P1 Hj') as (q' & Hq' & _ & Q' & _).
  rewrite E in Q. injection Q as Q _. rewrite E' in Q'. injection Q' as Q' _. pose proof Hset as (H & _). pose proof (iv_names _ _ _ _ _ _ H) as Hn. unfold names_in_use in Hn. apply NoDup_app in Hn as (_ & _ & Hn).
  assert (Hnd : NoDup (map phi_name (nb_phis nb))).
  { apply block_at_elem in Hnb. clear -Hn Hnb. induction (newBlocks st) as [|c bs IH]; [by apply not_elem_of_nil in Hnb|]. cbn [flat_map] in Hn. apply NoDup_app in Hn as (H1 & _ & H2).
    apply elem_of_cons in Hnb as [<-|Hnb]; [|by apply IH]. cbn [snd] in H1. unfold building_names in H1. by apply NoDup_app in H1 as (H1 & _). }
  assert (j = j') as ->; [|congruence]. apply (NoDup_lookup (map phi_name (nb_phis nb)) j j' n Hnd); rewrite list_lookup_fmap; [by rewrite Hq, Q|by rewrite Hq', Q'].
Qed.
Lemma map_incomings_ok b p n t0 l : b ∈ f_blocks F -> p ∈ bb_phis b -> (forall inc, inc ∈ l -> inc ∈ phi_incoming p) -> forall st G, settled st G -> VMap st !! phi_name p = Some (Local n t0) ->
  exists st' G' new, map_incomings type_alloc_size value_name folded strip_constant cc_of F (bb_name b) n (phi_type p) l st = Done st' /\ settled st' G' /\ ext all_blocks st G st' G' /\
    incoming_of st' (bb_name b) n = incoming_of st (bb_name b) n ++ new /\ Forall2 (incoming_related st' G') l new /\
    (forall l' n', l' <> bb_name b \/ n' <> n -> incoming_of st' l' n' = incoming_of st l' n').
Proof.
  intros Hb Hp. induction l as [|[o pred] l IH]; intros Hl st G Hset Hn; cbn [map_incomings].
  { exists st, G, []. rewrite app_nil_r. split; [done|]. split; [done|]. split; [apply ext_refl|]. split; [done|]. split; [constructor|done]. }
  assert (Ho : (o, pred) ∈ phi_incoming p) by (apply Hl; by left). destruct (map_incoming_ok st G b p o pred Hset Hb Hp Ho) as (U & st1 & G1 & -> & Hset1 & Hext1 & Hrel & Ht & Hsame1). cbn [obind snd].
  rewrite (bool_decide_true (type_of U = phi_type p) Ht). cbn [assert_ obind].
  assert (Hphi : has_phi st1 (bb_name b) n).
  { destruct (settled_phi st1 G1 b p Hset1 Hb Hp) as (n1 & E1 & Hn1). pose proof (lookup_weaken _ _ _ _ Hn (ex_vmap _ _ _ _ _ _ _ _ _ Hext1)) as E. rewrite E in E1. by injection E1 as -> _. }
  destruct (add_incoming_ok st1 G1 b n U pred Hset1 Hb Hphi) as (Hset2 & Hext2 & Happ & Hsame2). set (st2 := map_new _ _ st1) in *. pose proof (ext_trans M type_alloc_size F avail _ _ _ _ _ _ _ Hext1 Hext2) as Hext.
  destruct (IH (fun inc Hinc => Hl inc (list_elem_of_further _ _ _ Hinc)) st2 G1 Hset2) as (st3 & G3 & new & -> & Hset3 & Hext3 & Hnew & Hrels & Hsame3); [eapply lookup_weaken; [exact Hn|apply (ex_vmap _ _ _ _ _ _ _ _ _ Hext)]|].
  exists st3, G3, ((U, pred) :: new). split; [done|]. split; [done|]. split; [by eapply ext_trans|]. split; [rewrite Hnew, Happ, Hsame1, <- app_assoc; done|]. split.
  - constructor; [|done]. destruct (sc_phis _ _ Hs b p o pred Hb Hp Ho) as (b0 & Hb0 & <- & _). eapply (incoming_rel_ext st1 G1); [apply Hset1|by apply (list_elem_of_fmap_2 bb_name)| |done]. by eapply ext_trans.
  - intros l' n' Hne. by rewrite Hsame3, Hsame2, Hsame1.
Qed.

(** A phi node has not got its values yet; it has them. *)
Definition unfilled (st : rebuilding) (b : Block) (p : Phi) : Prop := forall n t, VMap st !! phi_name p = Some (Local n t) -> incoming_of st (bb_name b) n = [].
Definition filled (st : rebuilding) (G : roots) (b : Block) (p : Phi) : Prop :=
  forall n t, VMap st !! phi_name p = Some (Local n t) -> Forall2 (incoming_related st G) (phi_incoming p) (incoming_of st (bb_name b) n).
(** Of the phi nodes outside [did] nothing changes. *)
Definition filling (did : Block -> Phi -> Prop) (st : rebuilding) (G : roots) (st' : rebuilding) (G' : roots) : Prop :=
  settled st' G' /\ ext all_blocks st G st' G' /\ forall b p, b ∈ f_blocks F -> p ∈ bb_phis b ->
    (did b p -> filled st' G' b p) /\ (~ did b p -> (unfilled st b p -> unfilled st' b p) /\ (filled st G b p -> filled st' G' b p)).
Lemma Forall2_impl_elem {A B} (P Q : A -> B -> Prop) l l' : Forall2 P l l' -> (forall x y, x ∈ l -> P x y -> Q x y) -> Forall2 Q l l'.
Proof. induction 1 as [|x y l l' H _ IH]; intros HPQ; constructor; [apply HPQ; [by left|done]|]. apply IH. intros a b Ha. apply HPQ. by right. Qed.
Lemma incoming_labels b p inc : b ∈ f_blocks F -> p ∈ bb_phis b -> inc ∈ phi_incoming p -> snd inc ∈ labels_of.
Proof. intros Hb Hp Hi. destruct inc as [o pred]. destruct (sc_phis _ _ Hs b p o pred Hb Hp Hi) as (b0 & Hb0 & <- & _). by apply (list_elem_of_fmap_2 bb_name). Qed.
Lemma filled_ext st G st' G' b p : settled st G -> b ∈ f_blocks F -> p ∈ bb_phis b -> ext all_blocks st G st' G' -> (forall n t, VMap st !! phi_name p = Some (Local n t) -> incoming_of st' (bb_name b) n = incoming_of st (bb_name b) n) ->
  filled st G b p -> filled st' G' b p.
Proof.
  intros Hset Hb Hp Hext Hsame Hf n t Hn. destruct (settled_phi st G b p Hset Hb Hp) as (n1 & E1 & _). pose proof (lookup_weaken _ _ _ _ E1 (ex_vmap _ _ _ _ _ _ _ _ _ Hext)) as E2. rewrite Hn in E2. injection E2 as -> ->.
  rewrite (Hsame n1 (phi_type p) E1). eapply (Forall2_impl_elem _ _ _ _ (Hf n1 (phi_type p) E1)). intros inc inc' Hi. eapply incoming_rel_ext; [apply Hset|by eapply incoming_labels|done].
Qed.
Lemma unfilled_ext st G st' G' b p : settled st G -> b ∈ f_blocks F -> p ∈ bb_phis b -> ext all_blocks st G st' G' -> (forall n t, VMap st !! phi_name p = Some (Local n t) -> incoming_of st' (bb_name b) n = incoming_of st (bb_name b) n) ->
  unfilled st b p -> unfilled st' b p.
Proof.
  intros Hset Hb Hp Hext Hsame Hf n t Hn. destruct (settled_phi st G b p Hset Hb Hp) as (n1 & E1 & _). pose proof (lookup_weaken _ _ _ _ E1 (ex_vmap _ _ _ _ _ _ _ _ _ Hext)) as E2. rewrite Hn in E2. injection E2 as -> ->.
  rewrite (Hsame n1 (phi_type p) E1). by apply (Hf n1 (phi_type p)).
Qed.
Lemma map_phi_operands_ok st G b p : settled st G -> b ∈ f_blocks F -> p ∈ bb_phis b -> unfilled st b p ->
  exists st' G', map_phi_operands type_alloc_size value_name folded strip_constant cc_of F (bb_name b) p st = Done st' /\ filling (fun b' p' => b' = b /\ p' = p) st G st' G'.
Proof.
  intros Hset Hb Hp Hun. destruct (settled_phi st G b p Hset Hb Hp) as (n & En & _). unfold map_phi_operands. rewrite En.
  destruct (map_incomings_ok b p n (phi_type p) (phi_incoming p) Hb Hp (fun _ H => H) st G Hset En) as (st' & G' & new & -> & Hset' & Hext & Hnew & Hrel & Hsame). cbn [obind].
  destruct (su_phis Hsup b p Hb Hp) as (_ & Hne & _). rewrite bool_decide_false by done. cbn [negb assert_ obind]. exists st', G'. split; [done|]. split; [done|]. split; [done|]. intros b' p' Hb' Hp'. split.
  - intros [-> ->] n1 t1 E1. pose proof (lookup_weaken _ _ _ _ En (ex_vmap _ _ _ _ _ _ _ _ _ Hext)) as E2. rewrite E1 in E2. injection E2 as -> ->. rewrite Hnew, (Hun n (phi_type p) En). exact Hrel.
  - intros Hd. assert (Hother : forall n1 t1, VMap st !! phi_name p' = Some (Local n1 t1) -> incoming_of st' (bb_name b') n1 = incoming_of st (bb_name b') n1).
    { intros n1 t1 E1. apply Hsame. destruct (decide (bb_name b' = bb_name b)) as [E|]; [right|by left]. intros ->. apply Hd. assert (b' = b) as -> by (by apply (same_block F avail Hs)). split; [done|]. by apply (phi_injective st G b p' p n t1 (phi_type p)). }
    split; [by eapply unfilled_ext|by eapply filled_ext].
Qed.
Lemma filling_trans d1 d2 (did : Block -> Phi -> Prop) st1 G1 st2 G2 st3 G3 : (forall b p, d1 b p -> ~ d2 b p) -> (forall b p, did b p <-> d1 b p \/ d2 b p) ->
  filling d1 st1 G1 st2 G2 -> filling d2 st2 G2 st3 G3 -> filling did st1 G1 st3 G3.
Proof.
  intros Hdec Hd (S1 & E1 & F1) (S2 & E2 & F2). split; [done|]. split; [by eapply ext_trans|]. intros b p Hb Hp. destruct (F1 b p Hb Hp) as [A1 A2], (F2 b p Hb Hp) as [B1 B2]. rewrite Hd. split.
  - intros [H1|H2]; [|by apply B1]. apply B2; [by apply Hdec|by apply A1].
  - intros Hno. split; intros Hf; (apply B2; [tauto|]); apply A2; [tauto|done|tauto|done].
Qed.
Lemma filling_ext (d d' : Block -> Phi -> Prop) st G st' G' : (forall b p, p ∈ bb_phis b -> (d b p <-> d' b p)) -> filling d st G st' G' -> filling d' st G st' G'.
Proof.
  intros Hd (S1 & E1 & F1). split; [done|]. split; [done|]. intros b p Hb Hp. destruct (F1 b p Hb Hp) as [A1 A2]. by rewrite <- (Hd b p Hp).
Qed.
Lemma map_block_phis_ok b ps : b ∈ f_blocks F -> (forall p, p ∈ ps -> p ∈ bb_phis b) -> NoDup ps -> forall st G, settled st G -> (forall p, p ∈ ps -> unfilled st b p) ->
  exists st' G', map_block_phis type_alloc_size value_name folded strip_constant cc_of F (bb_name b) ps st = Done st' /\ filling (fun b' p' => b' = b /\ p' ∈ ps) st G st' G'.
Proof.
  intros Hb. induction ps as [|p ps IH]; intros Hps Hn st G Hset Hun; cbn [map_block_phis].
  { exists st, G. split; [done|]. split; [done|]. split; [apply ext_refl|]. intros b' p' _ _. split; [|done]. intros [_ Hp]. by apply not_elem_of_nil in Hp. }
  apply NoDup_cons in Hn as [Hp Hn]. destruct (map_phi_operands_ok st G b p Hset Hb) as (st1 & G1 & -> & Hf1); [apply Hps; by left|apply Hun; by left|]. cbn [obind]. pose proof Hf1 as (Hset1 & _ & Hrest).
  destruct (IH (fun q Hq => Hps q (list_elem_of_further _ _ _ Hq)) Hn st1 G1 Hset1) as (st2 & G2 & -> & Hf2).
  { intros q Hq. destruct (Hrest b q Hb) as [_ Hr]; [apply Hps; by right|]. apply Hr; [|apply Hun; by right]. intros [_ ->]. done. }
  exists st2, G2. split; [done|]. eapply (filling_trans (fun b' p' => b' = b /\ p' = p) (fun b' p' => b' = b /\ p' ∈ ps)); [by intros b' p' [_ ->] [_ ?]| |exact Hf1|exact Hf2]. intros b' p'. rewrite elem_of_cons. tauto.
Qed.
Lemma block_phis_NoDup b : b ∈ f_blocks F -> NoDup (bb_phis b).
Proof. intros Hb. pose proof (block_defs_NoDup F avail Hs b Hb) as Hn. unfold block_defs in Hn. apply NoDup_app in Hn as (Hn & _). by eapply NoDup_fmap_1. Qed.
Lemma map_phis_ok bs : (forall b, b ∈ bs -> b ∈ f_blocks F) -> NoDup bs -> forall st G, settled st G -> (forall b p, b ∈ bs -> p ∈ bb_phis b -> unfilled st b p) ->
  exists st' G', map_phis type_alloc_size value_name folded strip_constant cc_of F bs st = Done st' /\ filling (fun b' p' => b' ∈ bs) st G st' G'.
Proof.
  induction bs as [|b bs IH]; intros Hbs Hn st G Hset Hun; cbn [map_phis].
  { exists st, G. split; [done|]. split; [done|]. split; [apply ext_refl|]. intros b' p' _ _. split; [|done]. intros Hb. by apply not_elem_of_nil in Hb. }
  apply NoDup_cons in Hn as [Hb Hn]. assert (Hbf : b ∈ f_blocks F) by (apply Hbs; by left).
  destruct (map_block_phis_ok b (bb_phis b) Hbf (fun _ H => H) (block_phis_NoDup b Hbf) st G Hset) as (st1 & G1 & -> & Hf1); [intros p Hp; apply Hun; [by left|done]|]. cbn [obind]. pose proof Hf1 as (Hset1 & _ & Hrest).
  destruct (IH (fun q Hq => Hbs q (list_elem_of_further _ _ _ Hq)) Hn st1 G1 Hset1) as (st2 & G2 & -> & Hf2).
  { intros b' p' Hb' Hp'. destruct (Hrest b' p') as [_ Hr]; [apply Hbs; by right|done|]. apply Hr; [|apply Hun; [by right|done]]. intros [-> _]. done. }
  exists st2, G2. split; [done|]. eapply (filling_ext (fun b' p' => (b' = b /\ p' ∈ bb_phis b) \/ b' ∈ bs)).
  - intros b' p' Hp'. rewrite elem_of_cons. split; [intros [[-> _]|Hd]; [by left|by right]|intros [->|Hd]; [left; by split|by right]].
  - eapply (filling_trans (fun b' p' => b' = b /\ p' ∈ bb_phis b) (fun b' p' => b' ∈ bs)); [by intros b' p' [-> _]|done|exact Hf1|exact Hf2].
Qed.

(** ** The function *)

Lemma empty_incoming st l n : no_incoming st -> incoming_of st l n = [].
Proof.
  intros H. unfold incoming_of. destruct (block_at st l) as [nb|] eqn:E; [|done]. cbn [mbind option_bind]. destruct (List.find _ _) as [p|] eqn:Ep; [|done].
  apply block_at_elem in E. unfold no_incoming in H. rewrite Forall_forall in H. specialize (H _ E). unfold block_empty in H. rewrite Forall_forall in H. apply H. apply List.find_some in Ep as [Ep _]. by apply list_elem_of_In.
Qed.
Definition all_related (st : rebuilding) (G : roots) : Prop := settled st G /\ forall b p, b ∈ f_blocks F -> p ∈ bb_phis b -> filled st G b p.
Lemma phases_ok : exists st1 st2 G, runOnBlocks type_alloc_size value_name folded strip_constant cc_of F (f_blocks F) start = Done st1 /\
  map_phis type_alloc_size value_name folded strip_constant cc_of F (f_blocks F) st1 = Done st2 /\ all_related st2 G.
Proof.
  destruct start_inv as [H0 Ho0]. destruct (run_on_blocks (f_blocks F) start start_roots (fun _ H => H) H0 Ho0) as (st1 & G1 & E1 & H1 & Ho1 & _ & Hv1).
  pose proof (run_on_blocks_keeps type_alloc_size value_name folded strip_constant cc_of F (f_blocks F) start st1 E1 (start_empty type_alloc_size F)) as Hempty. assert (Hset1 : settled st1 G1) by done.
  assert (Hn : NoDup (f_blocks F)) by (eapply NoDup_fmap_1; exact (sc_blocks _ _ Hs)).
  destruct (map_phis_ok (f_blocks F) (fun _ H => H) Hn st1 G1 Hset1) as (st2 & G2 & E2 & Hset2 & _ & Hf); [intros b p _ _ n t _; by apply empty_incoming|].
  exists st1, st2, G2. split; [done|]. split; [done|]. split; [done|]. intros b p Hb Hp. destruct (Hf b p Hb Hp) as [Hd _]. by apply Hd.
Qed.
(** The blocks are related as RebuildSpec.v wants it. *)
Lemma finished_rel st G b nb : all_related st G -> b ∈ f_blocks F -> block_at st (bb_name b) = Some nb ->
  exists b', finished (bb_name b, nb) = Done b' /\ block_rel M F avail (look st G) (names_at st) b b'.
Proof.
  intros [Hset Hfill] Hb Hnb. pose proof Hset as (H & _). destruct (settled_block st G b Hset Hb) as (nb' & t' & Hnb' & Ht & Hp & Hterm). rewrite Hnb in Hnb'. injection Hnb' as <-.
  pose proof Hp as (nb' & Hnb' & P1 & P2). rewrite Hnb in Hnb'. injection Hnb' as <-. unfold finished. cbn [snd fst]. rewrite Ht. eexists. split; [reflexivity|].
  assert (Hl : bb_name b ∈ labels_of) by (by apply list_elem_of_fmap_2). assert (HN : names_at st (bb_name b) = building_names nb) by (unfold names_at; by rewrite Hnb).
  assert (Hnd : NoDup (building_names nb)).
  { pose proof (iv_names _ _ _ _ _ _ H) as Hn. unfold names_in_use in Hn. apply NoDup_app in Hn as (_ & _ & Hn). apply block_at_elem in Hnb. clear -Hn Hnb. induction (newBlocks st) as [|c bs IH]; [by apply not_elem_of_nil in Hnb|].
    cbn [flat_map] in Hn. apply NoDup_app in Hn as (H1 & _ & H2). apply elem_of_cons in Hnb as [<-|Hnb]; [done|by apply IH]. }
  constructor; cbn [bb_name bb_phis bb_insts bb_term]; try done.
  - apply Forall2_same_length_lookup_2; [by eapply Forall2_length|]. intros j p p' Hj Hj'. destruct (Forall2_lookup_lr _ _ _ _ _ _ P1 Hj Hj') as (Q1 & Q2 & Q3).
    split; [exact Q3|]. split; [cbn [RebuildInv.look vw_old]; by rewrite Q2|]. assert (Hpb : p ∈ bb_phis b) by (by eapply list_elem_of_lookup_2). specialize (Hfill b p Hb Hpb _ _ Q2).
    assert (incoming_of st (bb_name b) (phi_name p') = phi_incoming p') as <-; [|exact Hfill]. unfold incoming_of. rewrite Hnb. cbn [mbind option_bind].
    assert (Hp' : p' ∈ nb_phis nb) by (by eapply list_elem_of_lookup_2). destruct (List.find _ _) as [q|] eqn:Eq.
    + apply List.find_some in Eq as [Eq1 Eq2]. apply String.eqb_eq in Eq2. apply list_elem_of_In in Eq1. unfold building_names in Hnd. apply NoDup_app in Hnd as (Hnd & _). by rewrite (NoDup_map_eq phi_name _ q p' Hnd Eq1 Hp' Eq2).
    + exfalso. apply list_elem_of_In in Hp'. eapply List.find_none in Eq; [|exact Hp']. by rewrite String.eqb_refl in Eq.
  - by rewrite HN.
  - intros r Hr. split; [apply (name_not_arg F st (bb_name b)); [apply (iv_names _ _ _ _ _ _ H)|done]|]. intros l Hr'. eapply (name_in_one F st l (bb_name b) r); [by apply (inv_labels M type_alloc_size F avail Hs st G)|apply (iv_names _ _ _ _ _ _ H)|done|done].
  - intros r Hr. exact (iv_roots _ _ _ _ _ _ H (bb_name b) r Hr).
  - intros x Hx. destruct (partial_mapped st G b (bb_insts b) x Hp Hx) as (u & Eu). destruct (iv_map _ _ _ _ _ _ H x u Eu) as [Ha|(b' & t & Hb' & Hxt & Hu & _)]; [by destruct (def_not_arg_name F avail Hs b x Hb Hx)|].
    assert (b' = b) as -> by (eapply (block_of_def_eq F avail Hs _ _ x); [done|done| |exact Hx]; rewrite <- typed_block_names_eq; by apply (list_elem_of_fmap_2 fst _ (x, t))).
    destruct (usable_root M type_alloc_size F avail Hs st G H (bb_name b) u Hl Hu) as (ρ & Eρ & Hρ). exists ρ. cbn [RebuildInv.look vw_old]. rewrite Eu. by split.
Qed.
Lemma blocks_finished st G : all_related st G -> exists bs', mapM_out finished (newBlocks st) = Done bs' /\ Forall2 (block_rel M F avail (look st G) (names_at st)) (f_blocks F) bs'.
Proof.
  intros Hall. pose proof Hall as [(H & _) _]. pose proof (iv_labels _ _ _ _ _ _ H) as Hlab. pose proof (inv_labels M type_alloc_size F avail Hs st G H) as Hn.
  assert (Hsub : forall bs nbs, map fst nbs = map bb_name bs -> (forall b, b ∈ bs -> b ∈ f_blocks F) -> (forall q, q ∈ nbs -> q ∈ newBlocks st) ->
    exists bs', mapM_out finished nbs = Done bs' /\ Forall2 (block_rel M F avail (look st G) (names_at st)) bs bs').
  { induction bs as [|b bs IH]; intros [|[l nb] nbs] E Hbs Hnbs; try done; [by exists []|]. cbn [map fst] in E. injection E as -> E.
    destruct (finished_rel st G b nb Hall) as (b' & Eb & Hrel); [apply Hbs; by left|apply elem_block_at; [done|apply Hnbs; by left]|].
    destruct (IH nbs E) as (bs' & Ebs & Hrels); [intros c Hc; apply Hbs; by right|intros q Hq; apply Hnbs; by right|]. exists (b' :: bs'). cbn [mapM_out]. rewrite Eb. cbn [obind]. rewrite Ebs. cbn [obind]. split; [done|by constructor]. }
  by apply Hsub.
Qed.
Lemma rebuild_function_ok : exists bs', rebuildFunction type_alloc_size value_name folded strip_constant cc_of F = Done (createFunction type_alloc_size F bs') /\
  exists st G, Inv st G /\ Forall2 (block_rel M F avail (look st G) (names_at st)) (f_blocks F) bs'.
Proof.
  destruct phases_ok as (st1 & st2 & G & E1 & E2 & Hall). destruct (blocks_finished st2 G Hall) as (bs' & E3 & Hrel). exists bs'. unfold rebuildFunction. rewrite E1. cbn [obind]. rewrite E2. cbn [obind]. rewrite E3. cbn [obind].
  split; [done|]. exists st2, G. split; [apply Hall|done].
Qed.
Lemma rebuilt_runs : exists bs', rebuildFunction type_alloc_size value_name folded strip_constant cc_of F = Done (createFunction type_alloc_size F bs') /\
  map bb_name bs' = map bb_name (f_blocks F) /\
  forall calls calls', (forall g args w r, calls g args w = Some r -> calls' g args w = Some r) -> forall b bs, f_blocks F = b :: bs -> forall fuel e m w r,
    run_blocks (M := with_calls M calls) ∅ fuel (f_blocks F) (bb_name b) None (e, m, w) = Some r ->
    run_blocks (M := with_calls M calls') ∅ fuel bs' (bb_name b) None (e, m, w) = Some r.
Proof.
  destruct rebuild_function_ok as (bs' & E & st & G & H & Hrel). exists bs'. split; [done|]. split.
  - clear -Hrel. induction Hrel as [|b b' bs bs' Hb _ IH]; [done|]. cbn [map]. rewrite IH. f_equal. apply Hb.
  - intros calls calls' Hcalls b bs Eb fuel e m w r Hr. assert (Hargs : forall a, a ∈ arg_names -> vw_old (look st G) a = Some (inl a) /\ vw_root (look st G) !! a = Some (inl a)).
    { intros a Ha. apply list_elem_of_fmap in Ha as ([a' t] & -> & Ha). destruct (iv_args _ _ _ _ _ _ H a' t Ha) as [K1 K2]. cbn [RebuildInv.look vw_old vw_root fst]. rewrite K1. by split. }
    eapply (run_rebuilt M F avail Hs (look st G) (names_at st)); [done|exact Hrel|exact Hargs|exact Hcalls| |by eapply ready_entry|exact Hr]. rewrite Eb. by left.
Qed.
End pass.
