(* ===== verification/RebuildCorrect.v ===== *)
(** * RebuildCorrect: what ClamBCRebuild promises

    The function ClamBCRebuild makes exists and returns what the one it replaces
    returns; allocations keep their size, up to 32 bits. The theorems of
    RebuildPass.v are applied to a byte-addressed memory. *)
From S2P Require Import Prelude IR Semantics Integers Dominance SmallPasses Dependents PreserveABIs Typing Rebuild RebuildSpec RebuildInv RebuildPhis RebuildPass.
Local Open Scope string_scope.
Local Open Scope list_scope.
Local Open Scope Z_scope.
Local Open Scope outcome_scope.

(** ** Scopes are decidable *)

Section scope.
Context (F : Function_) (avail : string -> list string).
(** What is defined where a value is defined is defined where it may be used. *)
Definition scope_closed (b : Block) : bool :=
  forallb (fun l => bool_decide (l ∈ map bb_name (f_blocks F))) (targets (bb_term b)) &&
  forallb (fun x => bool_decide (x ∉ block_defs b) &&
    match List.find (fun b' => bool_decide (x ∈ block_defs b')) (f_blocks F) with Some b' => subset_b (avail (bb_name b')) (avail (bb_name b)) | None => false end) (avail (bb_name b)).
Definition scoped_check : bool := ssa_check avail F && forallb scope_closed (f_blocks F).
Lemma known_scope defined v x t : known F defined v = true -> v = Local x t -> x ∈ map fst (f_args F) ++ defined.
Proof. intros Hk ->. cbn [known] in Hk. apply elem_of_app. by apply orb_true_iff in Hk as [Hk|Hk]; apply bool_decide_eq_true in Hk; [left|right]. Qed.
Lemma known_in_scope defined l : forallb (known F defined) l = true -> in_scope (map fst (f_args F) ++ defined) l.
Proof. intros H x t Hx. rewrite forallb_forall in H. eapply known_scope; [apply H; by apply list_elem_of_In|done]. Qed.
Lemma operands_in_more l : forall A A', (forall x, x ∈ A -> x ∈ A') -> operands_in A l -> operands_in A' l.
Proof.
  induction l as [|i l IH]; intros A A' HA; cbn [operands_in]; [done|]. intros [H1 H2]. split; [intros x t Hx; by eapply HA, H1|]. eapply IH; [|exact H2]. intros x. rewrite !elem_of_app. intros [Hx|Hx]; [left; by apply HA|by right].
Qed.
Lemma insts_known_operands l : forall defined, insts_known F defined l = true -> operands_in (map fst (f_args F) ++ defined) l.
Proof.
  induction l as [|i l IH]; intros defined; cbn [insts_known operands_in]; [done|]. intros [H1 H2]%andb_prop. split; [by apply known_in_scope|]. eapply operands_in_more; [|exact (IH _ H2)].
  intros x. destruct (has_result i) eqn:E; rewrite !elem_of_app, ?elem_of_cons, results_one; naive_solver.
Qed.
Lemma scoped_check_ok : scoped_check = true -> scoped F avail.
Proof.
  unfold scoped_check. intros [H1 H2]%andb_prop. destruct (ssa_check_spec avail F H1) as (K1 & K2 & K3 & K4). rewrite forallb_forall in H2.
  assert (Hblock : forall b, b ∈ f_blocks F -> block_check avail F b = true /\ scope_closed b = true) by (intros b Hb; split; [by apply K4|apply H2; by apply list_elem_of_In]).
  assert (Hcheck : forall b, b ∈ f_blocks F -> (forall l, l ∈ targets (bb_term b) -> l ∈ map bb_name (f_blocks F) /\ forall x, x ∈ avail l -> x ∈ avail (bb_name b) ++ block_defs b) /\
    insts_known F (avail (bb_name b) ++ map phi_name (bb_phis b)) (bb_insts b) = true /\ forallb (known F (avail (bb_name b) ++ block_defs b)) (term_operands (bb_term b)) = true /\ forallb (phi_known avail F) (bb_phis b) = true /\
    forall x, x ∈ avail (bb_name b) -> x ∉ block_defs b /\ exists b', b' ∈ f_blocks F /\ x ∈ block_defs b' /\ forall y, y ∈ avail (bb_name b') -> y ∈ avail (bb_name b)).
  { intros b Hb. destruct (Hblock b Hb) as [B1 B2]. unfold block_check in B1. rewrite !andb_true_iff in B1. destruct B1 as (((B1 & B3) & B4) & B5). unfold scope_closed in B2. apply andb_prop in B2 as [B2 B6].
    rewrite forallb_forall in B1, B2, B6. split; [|split; [done|split; [done|split; [done|]]]].
    - intros l Hl. apply list_elem_of_In in Hl. split; [specialize (B2 l Hl); by apply bool_decide_eq_true in B2|]. specialize (B1 l Hl). unfold subset_b in B1. rewrite forallb_forall in B1. intros x Hx. apply list_elem_of_In in Hx. by apply B1, bool_decide_eq_true in Hx.
    - intros x Hx. apply list_elem_of_In in Hx. specialize (B6 x Hx). apply andb_prop in B6 as [B6 B7]. apply bool_decide_eq_true in B6. split; [done|]. destruct (List.find _ _) as [b'|] eqn:E; [|done].
      apply List.find_some in E as [E1 E2]. apply bool_decide_eq_true in E2. exists b'. split; [by apply list_elem_of_In|]. split; [done|]. unfold subset_b in B7. rewrite forallb_forall in B7.
      intros y Hy. apply list_elem_of_In in Hy. by apply B7, bool_decide_eq_true in Hy. }
  constructor; try done.
  - intros b l x Hb Hl Hx. destruct (Hcheck b Hb) as (C1 & _). by apply (C1 l Hl).
  - intros b x Hb Hx. destruct (Hcheck b Hb) as (_ & _ & _ & _ & C). by apply C.
  - intros b b' x y Hb Hb' Hx Hx' Hy. destruct (Hcheck b' Hb') as (_ & _ & _ & _ & C). destruct (C x Hx') as (_ & b1 & Hb1 & Hx1 & Hsub). apply Hsub.
    assert (b1 = b) as -> by (unfold defs in K1; apply NoDup_app in K1 as (_ & _ & K1); by eapply (NoDup_flat_map_eq block_defs)). done.
  - intros b x Hb Hx. destruct (Hcheck b Hb) as (_ & _ & _ & _ & C). destruct (C x Hx) as (_ & b1 & Hb1 & Hx1 & _). by exists b1.
  - intros b l Hb Hl. destruct (Hcheck b Hb) as (C1 & _). by apply (C1 l Hl).
  - intros b Hb. destruct (Hcheck b Hb) as (_ & C & _). by apply insts_known_operands.
  - intros b Hb. destruct (Hcheck b Hb) as (_ & _ & C & _). by apply known_in_scope.
  - intros b p o pred Hb Hp Ho. destruct (Hcheck b Hb) as (_ & _ & _ & C & _). rewrite forallb_forall in C. apply list_elem_of_In in Hp. specialize (C p Hp). unfold phi_known in C. rewrite forallb_forall in C.
    apply list_elem_of_In in Ho. specialize (C _ Ho). cbn [fst snd] in C. destruct (find_bb (f_blocks F) pred) as [b'|] eqn:E; [|done]. apply find_bb_spec in E as [E1 E2]. exists b'. split; [done|]. split; [done|].
    intros x t Hx. apply list_elem_of_singleton in Hx. by eapply known_scope.
Qed.
End scope.

(** ** A memory of bytes *)

Section memory.
Definition byte_memory : Type := gmap Z Z * Z.
Fixpoint byte_size (t : ty) : Z :=
  match t with TyInt w => (w + 7) / 8 | TyPtr _ => 8 | TyArr n t => n * byte_size t | _ => 0 end.
Fixpoint byte_offset (t : ty) (xs : list Z) : Z :=
  match xs, t with x :: xs, TyArr _ t => swrap 64 x * byte_size t + byte_offset t xs | _, _ => 0 end.
Fixpoint read_bytes (m : gmap Z Z) (a : Z) (n : nat) : Z := match n with O => 0 | S n => default 0 (m !! a) + 256 * read_bytes m (a + 1) n end.
Fixpoint write_bytes (m : gmap Z Z) (a : Z) (n : nat) (x : Z) : gmap Z Z := match n with O => m | S n => write_bytes (<[a := x mod 256]> m) (a + 1) n (x / 256) end.
Definition byte_sem (i : Inst) (vs : list Z) (w : byte_memory) : option (Z * byte_memory) :=
  match i_kind i, vs with
  | Alloca t _, [n] => Some (snd w, (fst w, snd w + byte_size t * n))
  | Load _, [a] => Some (read_bytes (fst w) a (Z.to_nat (byte_size (i_type i))), w)
  | Store v _, [x; a] => Some (0, (write_bytes (fst w) a (Z.to_nat (byte_size (type_of v))) x, snd w))
  | GetElementPtr _ p _, a :: xs =>
      match type_of p with
      | TyPtr t => let o := byte_offset (TyArr 0 t) xs in Some (if o =? 0 then a else wrap 64 (a + o), w)
      | _ => None
      end
  | _, _ => None
  end.
(** The null pointer and what is cast from it is zero. *)
Fixpoint byte_address (v : Value) : Z := match v with ConstantExpr _ [u] _ => byte_address u | GlobalVariable _ _ => 4096 | ConstantInt w n => wrap w n | _ => 0 end.
Definition byte_meaning : Meaning Z byte_memory := integer_meaning byte_address byte_sem.
(** Constant pointers are cast by the folder. *)
Definition fold_pointer_cast (i : Inst) : option Value :=
  match i_kind i with
  | Cast BitCast v => if is_constant_value v && is_pointer (type_of v) && is_pointer (i_type i) then Some (ConstantExpr CE_BitCast [v] (i_type i)) else None
  | _ => None
  end.
End memory.

Lemma alike_size t t' : alike t t' -> byte_size t = byte_size t'.
Proof. intros [->|[H1 H2]]; [done|]. by destruct t, t'. Qed.
Lemma alike_width t t' : alike t t' -> width t = width t'.
Proof. intros [->|[H1 H2]]; [done|]. by destruct t, t'. Qed.
Lemma byte_same i i' vs w : same_op i i' -> sem (Meaning := byte_meaning) i vs w = sem (Meaning := byte_meaning) i' vs w.
Proof.
  intros [Ht Hk]. destruct i as [x t k], i' as [x' t' k']. cbn [i_type i_kind] in *. unfold byte_meaning, integer_meaning, integer_sem, byte_sem. cbn [sem i_kind i_type].
  destruct k, k'; try done.
  - destruct Hk as [-> _]. done.
  - destruct Hk as [_ Hv]. by rewrite (alike_size _ _ Hv).
  - destruct Hk as (_ & -> & _). done.
  - destruct Hk as [-> Hv]. inversion Hv as [|? ? ? ? Ha _]; subst. by rewrite (alike_width _ _ Ha).
  - destruct Hk as [-> Hv]. inversion Hv as [|? ? ? ? Ha _]; subst. by rewrite (alike_width _ _ Ha), (alike_width _ _ Ht).
  - destruct Hk as [-> Hv]. inversion Hv as [|? ? ? ? Ha _]; subst. by rewrite (alike_width _ _ Ha).
Qed.
Lemma byte_offset_zero t l : forallb zero_index l = true -> byte_offset t (map (constant_meaning (Meaning := byte_meaning)) l) = 0.
Proof.
  revert t. induction l as [|v l IH]; intros t; [by destruct t|]. cbn [forallb map]. intros [Hv Hl]%andb_prop. destruct t; try done. destruct v as [|k0 n0| | | | | | | | | | |]; try done. apply Z.eqb_eq in Hv as ->.
  cbn [byte_offset constant_meaning byte_meaning integer_meaning constant_value]. rewrite IH by done. unfold wrap. by rewrite Zmod_0_l.
Qed.
#[export] Instance byte_sizes : ByteSizes byte_size.
Proof. by split. Qed.
#[export] Instance byte_pointers : BytePointers byte_meaning byte_size fold_pointer_cast id.
Proof.
  assert (Hcast : forall x t v z w, is_pointer t = true -> is_pointer (type_of v) = true -> sem (Meaning := byte_meaning) (inst x t (Cast BitCast v)) [z] w = Some (z, w)).
  { intros x t v z w Ht Hv. unfold byte_meaning, integer_meaning, integer_sem. cbn [sem inst i_kind i_type]. destruct t; try done. by destruct (type_of v). }
  assert (Hfold : forall i v, fold_pointer_cast i = Some v -> exists u, i_kind i = Cast BitCast u /\ is_constant_value u = true /\ is_pointer (type_of u) = true /\ is_pointer (i_type i) = true /\ v = ConstantExpr CE_BitCast [u] (i_type i)).
  { unfold fold_pointer_cast. intros i v H. destruct (i_kind i) as [| | | | |op u| | | | | |]; try done. destruct op; try done. destruct (_ && _) eqn:E; [|done]. injection H as <-. rewrite !andb_true_iff in E. exists u. tauto. }
  assert (Hmeaning : forall u t, is_pointer (type_of u) = true -> constant_meaning (Meaning := byte_meaning) (ConstantExpr CE_BitCast [u] t) = constant_meaning (Meaning := byte_meaning) u) by (intros u t Hu; by destruct u).
  constructor; try apply _.
  - apply byte_same.
  - exact Hcast.
  - intros x t inb p l z w Hp Hz. change (integer_sem byte_sem (inst x t (GetElementPtr inb p l)) (z :: map (constant_meaning (Meaning := byte_meaning)) l) w = Some (z, w)).
    unfold integer_sem, byte_sem. cbn [inst i_kind]. destruct (type_of p) as [| | |t0| | | |]; try done. by rewrite byte_offset_zero.
  - intros x x' t t' k k' n n' w Hn Hn' E. unfold byte_meaning, integer_meaning, integer_sem, byte_sem. cbn [sem inst i_kind constant_meaning constant_value]. by rewrite !wrap_small, E.
  - intros i v w Hv _. destruct (Hfold i v Hv) as (u & Ek & Hc & Hu & Ht & ->). rewrite Ek. cbn [operands map]. rewrite (inst_eta i), Ek. rewrite Hcast by done. by rewrite Hmeaning.
  - intros i v Hv. by destruct (Hfold i v Hv) as (u & _ & _ & _ & _ & ->).
  - intros v t Hc Hv Ht. exists (ConstantExpr CE_BitCast [v] t). split; [|by apply Hmeaning]. unfold fold_pointer_cast. cbn [inst i_kind i_type]. by rewrite Hc, Hv, Ht.
  - done.
Qed.

(** ** The theorems *)


(** Names that are longer than every name in use. *)
Fixpoint padded (n : nat) (w : string) : string := match n with O => w | S n => String.String "#" (padded n w) end.
Definition padded_name (used : list string) (w : string) : string := padded (S (list_max (map String.length used))) w.
Lemma padded_name_fresh used w : padded_name used w ∉ used.
Proof.
  intros H. assert (Hlen : forall n, String.length (padded n w) = (n + String.length w)%nat) by (induction n as [|n IH]; cbn [padded String.length]; [done|by rewrite IH]).
  assert (Hle : (String.length (padded_name used w) <= list_max (map String.length used))%nat).
  { pose proof (list_max_le (map String.length used) (list_max (map String.length used))) as [Hm _]. specialize (Hm ltac:(lia)). rewrite List.Forall_forall in Hm. apply Hm. apply in_map. by apply list_elem_of_In. }
  unfold padded_name in Hle. rewrite Hlen in Hle. lia.
Qed.
(** An argument is stored in the second element of an array, and counted up to. *)
Definition int32 : ty := TyInt 32.
Definition demo_array : ty := TyArr 2 int32.
Definition demo_s : Value := Local "s" (TyPtr demo_array).
Definition demo_p : Value := Local "p" (TyPtr int32).
Definition counting : Function_ := {|
  f_name := "counting"; f_args := [("n", int32)]; f_ret := int32; f_vararg := false; f_cc := 0; f_sret := false; f_available_externally := false; f_intrinsic := None;
  f_blocks := [
    {| bb_name := "entry"; bb_phis := [];
       bb_insts := [inst "s" (TyPtr demo_array) (Alloca demo_array (ConstantInt 32 1));
                    inst "p" (TyPtr int32) (GetElementPtr true demo_s [ConstantInt 64 0; ConstantInt 64 1]);
                    inst "" TyVoid (Store (Local "n" int32) demo_p)];
       bb_term := Jmp "loop" |};
    {| bb_name := "loop";
       bb_phis := [{| phi_name := "i"; phi_type := int32; phi_incoming := [(ConstantInt 32 0, "entry"); (Local "j" int32, "loop")] |};
                   {| phi_name := "q"; phi_type := TyPtr int32; phi_incoming := [(demo_p, "entry"); (Local "q" (TyPtr int32), "loop")] |}];
       bb_insts := [inst "v" int32 (Load (Local "q" (TyPtr int32)));
                    inst "j" int32 (Binary Add (Local "i" int32) (ConstantInt 32 1));
                    inst "c" (TyInt 1) (ICmp ICMP_ULT (Local "j" int32) (Local "v" int32))];
       bb_term := Br (Local "c" (TyInt 1)) "loop" "exit" |};
    {| bb_name := "exit"; bb_phis := []; bb_insts := [inst "r" int32 (Load demo_p)]; bb_term := Ret (Local "j" int32) |}] |}.
Definition counting_avail (l : string) : list string :=
  if String.eqb l "loop" then ["s"; "p"] else if String.eqb l "exit" then ["s"; "p"; "i"; "q"; "v"; "j"; "c"] else [].
Lemma counting_supported : supported byte_size counting.
Proof.
  constructor.
  - intros a t H. by apply list_elem_of_singleton in H as [= -> ->].
  - assert (H : forallb (fun v => match v with Local x t => bool_decide ((x, t) ∈ typed_defs counting) | _ => true end) (all_operands counting) = true) by (vm_compute; reflexivity).
    rewrite forallb_forall in H. intros x t Hx. apply list_elem_of_In in Hx. by apply H, bool_decide_eq_true in Hx.
  - apply Forall_forall. cbn [all_insts counting f_blocks flat_map bb_insts app]. repeat (apply Forall_cons; split); [..|by apply Forall_nil]; unfold inst_supported, RebuildSpec.bytes_fit, in_u; cbn; repeat split; try done.
  - intros b p Hb Hp. cbn [counting f_blocks] in Hb. rewrite !elem_of_cons, elem_of_nil in Hb. destruct Hb as [->|[->|[->|[]]]]; cbn [bb_phis] in Hp; rewrite ?elem_of_cons, ?elem_of_nil in Hp; [done| |done].
    destruct Hp as [->|[->|[]]]; (split; [done|]; split; [done|]; repeat constructor).
  - intros b Hb v. cbn [counting f_blocks] in Hb. rewrite !elem_of_cons, elem_of_nil in Hb. by destruct Hb as [->|[->|[->|[]]]].
Qed.
Lemma counting_phis b pre p post : b ∈ f_blocks counting -> bb_phis b = pre ++ p :: post -> is_pointer (phi_type p) = true -> post = [].
Proof.
  intros Hb E Hp. cbn [counting f_blocks] in Hb. rewrite !elem_of_cons, elem_of_nil in Hb. destruct Hb as [->|[->|[->|[]]]]; cbn [bb_phis] in E; destruct pre as [|p1 pre]; try done.
  - by injection E as <- <-.
  - injection E as _ E. destruct pre as [|p2 pre]; [by injection E as _ <-|]. injection E as _ E. by destruct pre.
Qed.
Definition rebuild_demo : outcome Function_ := rebuildFunction byte_size padded_name fold_pointer_cast id (fun _ => 0) counting.

(** C16: The size of an allocation of [n] values of a type other than void.
    visitAllocaInst replaces an allocation of values that are not pointers by one of
    bytes, of [n * sizeof] bytes modulo 2^32: the same number of bytes exactly when
    that number is one of 32 bits, fewer otherwise. An allocation of pointers becomes
    one of byte pointers, [n] modulo 2^32 of them: the same size exactly when [n] is a
    number of 32 bits. *)
Theorem visitAllocaInst_bytes type_alloc_size `{!ByteSizes type_alloc_size} value_name F here i t k n st : t <> TyVoid ->
  exists x Ty, visitAllocaInst type_alloc_size value_name F here i t (ConstantInt k n) st =
      Done (remember i (Local x (TyPtr Ty), map_new here (add_inst (inst x (TyPtr Ty) (Alloca Ty (ConstantInt 32 1)))) st)) /\
    (is_pointer t = false ->
      (Ty = i8Ty \/ exists z, Ty = TyArr z i8Ty) /\ 0 <= type_alloc_size Ty < 2 ^ 32 /\ type_alloc_size Ty = wrap 32 (n * type_alloc_size t) /\
      (type_alloc_size Ty = n * type_alloc_size t <-> in_u 32 (n * type_alloc_size t))) /\
    (is_pointer t = true ->
      (Ty = i8pTy \/ exists z, Ty = TyArr z i8pTy) /\ type_alloc_size Ty = wrap 32 n * type_alloc_size t /\
      (0 < type_alloc_size t -> type_alloc_size Ty = n * type_alloc_size t <-> in_u 32 n)).
Proof.
  intros Hv. do 2 eexists. split; [reflexivity|]. split; intros Hp.
  - rewrite (rebuilt_alloca_bytes type_alloc_size t n Hp Hv). split; [by apply rebuilt_alloca_i8|].
    pose proof (wrap_range 32 (n * type_alloc_size t) ltac:(lia)) as Hr. split; [exact Hr|]. split; [done|]. split; [by intros <-|apply wrap_small].
  - split; [by apply rebuilt_alloca_i8p|]. rewrite (rebuilt_alloca_pointer type_alloc_size t n Hp). split; [done|]. intros Hs.
    pose proof (wrap_range 32 n ltac:(lia)) as Hr. split; intros H; [|by rewrite wrap_small].
    apply Z.mul_cancel_r in H; [|lia]. by rewrite <- H.
Qed.
Lemma visitAllocaInst_bytes_witness : exists x Ty,
  visitAllocaInst byte_size padded_name counting "entry" (inst "a" (TyPtr (TyArr 1073741825 int32)) (Alloca (TyArr 1073741825 int32) (ConstantInt 32 1))) (TyArr 1073741825 int32) (ConstantInt 32 1) (start_rebuild byte_size counting) =
      Done (remember (inst "a" (TyPtr (TyArr 1073741825 int32)) (Alloca (TyArr 1073741825 int32) (ConstantInt 32 1)))
        (Local x (TyPtr Ty), map_new "entry" (add_inst (inst x (TyPtr Ty) (Alloca Ty (ConstantInt 32 1)))) (start_rebuild byte_size counting))) /\ byte_size Ty = 4.
Proof.
  destruct (visitAllocaInst_bytes byte_size padded_name counting "entry" (inst "a" (TyPtr (TyArr 1073741825 int32)) (Alloca (TyArr 1073741825 int32) (ConstantInt 32 1))) (TyArr 1073741825 int32) 32 1 (start_rebuild byte_size counting))
    as (x & Ty & E & Hs & _); [done|]. destruct (Hs eq_refl) as (_ & _ & Hb & _). exists x, Ty. split; [exact E|]. rewrite Hb. reflexivity.
Defined.
