(* ===== verification/RebuildModule.v ===== *)
(** * RebuildModule: ClamBCRebuild on a module

    Each function gives way to its copy, which takes its name; the calls of the
    function become calls of the copy. The function itself stays, without a name.
    Linkage is not part of the IR model. *)
From S2P Require Import Prelude IR Semantics Integers Dominance SmallPasses Dependents PreserveABIs Typing Rebuild RebuildSpec RebuildCorrect.
Local Open Scope string_scope.
Local Open Scope list_scope.
Local Open Scope Z_scope.
Local Open Scope outcome_scope.

Section calls.
Context (value_name : list string -> string -> string).

(** ** Calls *)

(** A function is used by the instructions it is an operand of and by the constants
    it is part of. *)
Definition is_function_value (g : string) (v : Value) : bool := match v with FunctionValue h _ => String.eqb g h | _ => false end.
Fixpoint uses_function (g : string) (v : Value) : bool :=
  match v with
  | FunctionValue h _ => String.eqb g h
  | ConstantExpr _ l _ | ConstantAggregate l _ | ConstantDataSequential l _ => existsb (uses_function g) l
  | _ => false
  end.
Definition constant_uses (g : string) (v : Value) : bool := uses_function g v && negb (is_function_value g v).
(** [used] are the names of the calling function. *)
Fixpoint fixup_args (used : list string) (params : list (string * ty)) (args : list Value) : outcome (list Inst * list Value) :=
  match params, args with
  | (_, fat) :: params, callArg :: args =>
      if bool_decide (fat = type_of callArg) then let* (cs, vs) := fixup_args used params args in Done (cs, callArg :: vs)
      else
        let* _ := assert_ (is_pointer fat && is_pointer (type_of callArg)) "NOT IMPLEMENTED" in
        let n := value_name used "fixupCallInst" in
        let* (cs, vs) := fixup_args (n :: used) params args in Done (inst n fat (Cast BitCast callArg) :: cs, Local n fat :: vs)
  | _, _ => Done ([], args)
  end.
Definition function_value (F : Function_) : Value := FunctionValue (f_name F) (TyPtr (f_type F)).
(** The casts, and the call with its new operands (setCalledFunction included). *)
Definition fixupCallInst (used : list string) (pFunc : Function_) (i : Inst) (cc : Z) (args : list Value) : outcome (list Inst) :=
  let* _ := assert_ (length args =? length (f_args pFunc))%nat "Incorrect number of arguments" in
  let* (cs, vs) := fixup_args used (f_args pFunc) args in
  Done (cs ++ [inst (i_name i) (i_type i) (Call (function_value pFunc) cc vs)]).
Definition fixup_inst (used : list string) (pNew : Function_) (i : Inst) : outcome (list Inst) :=
  let* _ := assert_ (negb (existsb (constant_uses (f_name pNew)) (operands (i_kind i)))) "NOT IMPLEMENTED" in
  if existsb (is_function_value (f_name pNew)) (operands (i_kind i)) then
    match i_kind i with Call _ cc args => fixupCallInst used pNew i cc args | _ => AssertFailed "NOT IMPLEMENTED" end
  else Done [i].
Fixpoint fixup_insts (used : list string) (pNew : Function_) (l : list Inst) : outcome (list Inst) :=
  match l with
  | [] => Done []
  | i :: l => let* cs := fixup_inst used pNew i in let* l := fixup_insts (results cs ++ used) pNew l in Done (cs ++ l)
  end.
Definition fixup_block (used : list string) (pNew : Function_) (b : Block) : outcome Block :=
  let* _ := assert_ (negb (existsb (uses_function (f_name pNew)) (flat_map (fun p => map fst (phi_incoming p)) (bb_phis b) ++ term_operands (bb_term b)))) "NOT IMPLEMENTED" in
  let* l := fixup_insts used pNew (bb_insts b) in
  Done {| bb_name := bb_name b; bb_phis := bb_phis b; bb_insts := l; bb_term := bb_term b |}.
Fixpoint fixup_blocks (used : list string) (pNew : Function_) (bs : list Block) : outcome (list Block) :=
  match bs with
  | [] => Done []
  | b :: bs => let* b := fixup_block used pNew b in let* bs := fixup_blocks (block_defs b ++ used) pNew bs in Done (b :: bs)
  end.
(** The calls of the whole module; [pOrig] has been replaced by [pNew] before. *)
Definition fixupCalls (pNew : Function_) (m : Module_) : outcome Module_ :=
  let* _ := assert_ (negb (existsb (uses_function (f_name pNew)) (omap g_init (m_globals m)))) "NOT IMPLEMENTED" in
  let* fs := mapM_out (fun F => let* bs := fixup_blocks (defs F) pNew (f_blocks F) in Done (with_blocks F bs)) (m_functions m) in
  Done (with_functions m fs).
End calls.

(** ** The pass *)

Section pass.
Context (type_alloc_size : ty -> Z) (value_name : list string -> string -> string) (folded : Inst -> option Value) (strip_constant : Value -> Value).
Definition callee_cc (m : Module_) (g : string) : Z := match find_function m g with Some F => f_cc F | None => 0 end.
Definition unnamed (F : Function_) : Function_ := {|
  f_name := ""; f_args := f_args F; f_ret := f_ret F; f_vararg := f_vararg F; f_cc := f_cc F; f_sret := f_sret F;
  f_available_externally := f_available_externally F; f_intrinsic := f_intrinsic F; f_blocks := f_blocks F |}.
Definition runOnFunction (g : string) (m : Module_) : outcome Module_ :=
  match find_function m g with
  | None => Done m
  | Some F =>
      if isDeclaration F then Done m
      else
        let* copy := rebuildFunction type_alloc_size value_name folded strip_constant (callee_cc m) F in
        let* _ := assert_ (bool_decide (f_type copy = f_type F)) "replaceAllUses of value with new value of different type!" in
        fixupCalls value_name copy (with_functions m (map (fun H => if String.eqb (f_name H) g then unnamed H else H) (m_functions m) ++ [copy]))
  end.
Fixpoint runOnFunctions (l : list string) (m : Module_) : outcome Module_ :=
  match l with [] => Done m | g :: l => let* m := runOnFunction g m in runOnFunctions l m end.
Definition ClamBCRebuild (m : Module_) : outcome Module_ :=
  if existsb f_vararg (m_functions m) then Done m else runOnFunctions (map f_name (m_functions m)) m.
End pass.

(** ** A call and what it becomes *)

Section correct.
Context {V W : Type} (M : Meaning V W) (value_name : list string -> string -> string) (Hname : forall used w, value_name used w ∉ used).
Context (Hcast : forall x t v z w, is_pointer t = true -> is_pointer (type_of v) = true -> sem (Meaning := M) (inst x t (Cast BitCast v)) [z] w = Some (z, w)).
Definition locals_in (used : list string) (l : list Value) : Prop := forall x t, Local x t ∈ l -> x ∈ used.
Lemma eval_agree (e e' : gmap string V) (used : list string) v : (forall x, x ∈ used -> e' !! x = e !! x) -> (forall x t, v = Local x t -> x ∈ used) -> eval (M := M) e' v = eval (M := M) e v.
Proof. intros He Hv. destruct v; try done. cbn [eval]. by rewrite (He x) by (by eapply Hv). Qed.
Lemma fixup_args_ok params : forall used args, Forall2 (fun (p : string * ty) a => alike (snd p) (type_of a)) params args -> locals_in used args ->
  exists cs vs, fixup_args value_name used params args = Done (cs, vs) /\ map type_of vs = map snd params /\
    forall calls e m w, exists e', exec_insts (M := with_calls M calls) ∅ cs (e, m, w) = Some (e', m, w) /\ map (eval (M := M) e') vs = map (eval (M := M) e) args /\ forall x, x ∈ used -> e' !! x = e !! x.
Proof.
  intros used args H. revert used. induction H as [|[p fat] a params args Ha _ IH]; intros used Hin; cbn [fixup_args].
  - exists [], []. split; [done|]. split; [done|]. intros calls e m w. by exists e.
  - cbn [snd] in Ha. assert (Htail : forall used', (forall x, x ∈ used -> x ∈ used') -> locals_in used' args) by (intros used' Hu x t Hx; eapply Hu, Hin; by right).
    assert (Hhead : forall x t, a = Local x t -> x ∈ used) by (intros x t ->; eapply Hin; by left). destruct (bool_decide (fat = type_of a)) eqn:E.
    + apply bool_decide_eq_true in E. destruct (IH used (Htail used (fun _ H => H))) as (cs & vs & -> & Ht & Hrun). cbn [obind]. exists cs, (a :: vs). split; [done|]. split; [cbn [map snd]; by rewrite Ht, <- E|].
      intros calls e m w. destruct (Hrun calls e m w) as (e' & E1 & E2 & E3). exists e'. split; [done|]. split; [|done]. cbn [map]. rewrite E2. f_equal. by apply (eval_agree e e' used).
    + apply bool_decide_eq_false in E. destruct Ha as [Ha|[Hp Hp']]; [done|]. rewrite Hp, Hp'. cbn [andb assert_ obind]. set (n := value_name used "fixupCallInst").
      destruct (IH (n :: used)) as (cs & vs & -> & Ht & Hrun); [apply Htail; intros x Hx; by right|]. cbn [obind]. eexists _, _. split; [reflexivity|]. split; [cbn [map snd type_of]; by rewrite Ht|].
      intros calls e m w. set (e1 := <[n := eval (M := M) e a]> e). assert (H1 : forall x, x ∈ used -> e1 !! x = e !! x) by (intros x Hx; apply lookup_insert_ne; intros <-; by apply (Hname used "fixupCallInst")).
      destruct (Hrun calls e1 m w) as (e' & E1 & E2 & E3). exists e'. split; [|split].
      * cbn [exec_insts]. assert (exec_inst (M := with_calls M calls) ∅ (inst n fat (Cast BitCast a)) (e, m, w) = Some (e1, m, w)) as ->; [|exact E1].
        apply exec_result. exists (eval (M := M) e a), w. split; [rewrite sem_no_call by done; by apply Hcast|]. assert (Hres : has_result (inst n fat (Cast BitCast a)) = true) by (by destruct fat). by rewrite Hres.
      * cbn [map]. rewrite E2. f_equal.
        -- cbn [eval]. rewrite (E3 n) by (by left). unfold e1. by rewrite lookup_insert_eq.
        -- apply map_ext_in. intros v Hv. apply list_elem_of_In in Hv. apply (eval_agree e e1 used); [done|]. intros x t ->. eapply Hin. by right.
      * intros x Hx. rewrite E3 by (by right). by apply H1.
Qed.

(** C15: A call of a function that has been rebuilt. When the arguments have the
    types of the parameters, or both are pointers, fixupCallInst meets no assertion,
    the new call passes exactly the types the copy takes, and where the old call
    runs, the casts and the new call run with the same result, the same effect on
    memory and the same values of all names that were in use. *)
Theorem fixupCallInst_correct used pFunc i ft cc args : i_kind i = Call (FunctionValue (f_name pFunc) ft) cc args ->
  Forall2 (fun (p : string * ty) a => alike (snd p) (type_of a)) (f_args pFunc) args -> locals_in used args ->
  exists l vs, fixupCallInst value_name used pFunc i cc args = Done (l ++ [inst (i_name i) (i_type i) (Call (function_value pFunc) cc vs)]) /\ map type_of vs = map snd (f_args pFunc) /\
    forall calls e m w e1 m1 w1, exec_inst (M := with_calls M calls) ∅ i (e, m, w) = Some (e1, m1, w1) ->
    exists e2, exec_insts (M := with_calls M calls) ∅ (l ++ [inst (i_name i) (i_type i) (Call (function_value pFunc) cc vs)]) (e, m, w) = Some (e2, m1, w1) /\ forall x, x ∈ used -> e2 !! x = e1 !! x.
Proof.
  intros Ek Hargs Hin. destruct (fixup_args_ok (f_args pFunc) used args Hargs Hin) as (cs & vs & E & Ht & Hrun). exists cs, vs. unfold fixupCallInst.
  rewrite (Forall2_length _ _ _ Hargs), Nat.eqb_refl. cbn [assert_ obind]. rewrite E. cbn [obind]. split; [done|]. split; [done|]. intros calls e m w e1 m1 w1 Hi.
  destruct (Hrun calls e m w) as (e' & E1 & E2 & E3). apply exec_result in Hi as (z & w' & Hz & [= -> -> ->]). rewrite Ek in Hz. set (c := inst (i_name i) (i_type i) (Call (function_value pFunc) cc vs)).
  assert (Hc : exec_inst (M := with_calls M calls) ∅ c (e', m, w) = Some (if has_result i then <[i_name i := z]> e' else e', m, w')).
  { apply exec_result. exists z, w'. split; [|done]. cbn [c inst i_kind operands sem with_calls]. cbn [operands sem with_calls] in Hz. rewrite Ek in Hz. rewrite map_app in Hz |- *.
    assert (Hlen : length vs = length args) by (rewrite <- (length_map type_of vs), Ht, length_map; by eapply Forall2_length).
    rewrite firstn_app, length_map, Nat.sub_diag, firstn_O, app_nil_r in Hz |- *. rewrite Hlen. rewrite !firstn_all2 in Hz |- * by (rewrite length_map; lia). by rewrite E2. }
  exists (if has_result i then <[i_name i := z]> e' else e'). split.
  - rewrite exec_insts_app, E1. cbn [mbind option_bind exec_insts]. by rewrite Hc.
  - intros x Hx. destruct (has_result i); [|by apply E3]. destruct (decide (x = i_name i)) as [->|Hne]; [by rewrite !lookup_insert_eq|]. rewrite !lookup_insert_ne by done. by apply E3.
Qed.
End correct.

(** A function that took a pointer to an integer takes a pointer to a byte. *)
Definition demo_callee : Function_ := {|
  f_name := "g"; f_args := [("p", i8pTy)]; f_ret := int32; f_vararg := false; f_cc := 0; f_sret := false; f_available_externally := false; f_intrinsic := None; f_blocks := [] |}.
Definition demo_old_call : Inst := inst "r" int32 (Call (FunctionValue "g" (TyPtr (TyFun int32 [TyPtr int32] false))) 0 [Local "x" (TyPtr int32)]).
Definition demo_runs : string -> list Z -> byte_memory -> option (option Z * byte_memory) := fun g vs w => match vs with [a] => Some (Some (a + 1), w) | _ => None end.
Lemma fixupCallInst_correct_witness : exists l vs e2,
  fixupCallInst padded_name ["x"; "r"] demo_callee demo_old_call 0 [Local "x" (TyPtr int32)] = Done (l ++ [inst "r" int32 (Call (function_value demo_callee) 0 vs)]) /\ map type_of vs = [i8pTy] /\
  exec_insts (M := with_calls byte_meaning demo_runs) ∅ (l ++ [inst "r" int32 (Call (function_value demo_callee) 0 vs)]) ({[ "x" := 41 ]}, ∅, (∅, 0)) = Some (e2, ∅, (∅, 0)) /\ e2 !! "r" = Some 42.
Proof.
  destruct (fixupCallInst_correct byte_meaning padded_name padded_name_fresh bp_cast ["x"; "r"] demo_callee demo_old_call (TyPtr (TyFun int32 [TyPtr int32] false)) 0 [Local "x" (TyPtr int32)]) as (l & vs & E & Ht & Hrun).
  - reflexivity.
  - constructor; [by right|constructor].
  - intros x t Hx. apply list_elem_of_singleton in Hx as [= -> _]. by left.
  - destruct (Hrun demo_runs {[ "x" := 41 ]} ∅ (∅, 0) (<["r" := 42]> {[ "x" := 41 ]}) ∅ (∅, 0)) as (e2 & E2 & H2); [vm_compute; reflexivity|].
    exists l, vs, e2. split; [exact E|]. split; [exact Ht|]. split; [exact E2|]. rewrite H2 by (right; by left). reflexivity.
Defined.
