(* ===== verification/LogicalHelper.v ===== *)
(** * LogicalHelper: calls of setvirusname with a constant name

    libclambcc/ClamBCLogicalCompilerHelper.cpp. The optimizer joins several calls
    of setvirusname to one whose argument is a phi node; the logical compiler
    wants constants. The pass gives every predecessor of such a block a call of
    its own, in a block on the edge. *)
From S2P Require Import Prelude IR Semantics Integers SmallPasses.
Local Open Scope string_scope.
Local Open Scope list_scope.
Local Open Scope Z_scope.
Local Open Scope outcome_scope.

(** ** Branches *)

Definition successors (t : Term) : list string := match t with Br _ t f => [t; f] | Jmp l => [l] | _ => [] end.
(** getBranchIdx and BranchInst::setSuccessor: the first edge to [B] now goes to
    [N]; cast<BranchInst> wants a branch. *)
Definition set_successor (B N : string) (t : Term) : outcome Term :=
  let stop := Stop "Branch Instruction is not a predecessor to phi." in
  match t with
  | Br c t f => if String.eqb t B then Done (Br c N f) else if String.eqb f B then Done (Br c t N) else stop
  | Jmp l => if String.eqb l B then Done (Jmp N) else stop
  | _ => AssertFailed "cast<BranchInst>"
  end.

(** ** A call and its phi node *)

Section helper.
(** [fresh_block f x k], [fresh_call f x k]: the names LLVM gives the block and
    the call made for the k-th value of the phi node [x]. *)
Context (fresh_block fresh_call : string -> string -> nat -> string).

Definition insert_before (B : string) (n : Block) (bs : list Block) : list Block :=
  flat_map (fun b => if String.eqb (bb_name b) B then [n; b] else [b]) bs.
Definition with_term (b : Block) (t : Term) : Block :=
  {| bb_name := bb_name b; bb_phis := bb_phis b; bb_insts := bb_insts b; bb_term := t |}.
(** One turn of the loop of processPHI. *)
Definition process_incoming (svn : Function_) (f x B : string) (rest : list Value) (k : nat) (inc : Value * string) (bs : list Block) :
    outcome (list Block) :=
  let '(pVal, pBB) := inc in
  match find_bb bs pBB with
  | None => Undefined "a predecessor"
  | Some P =>
      let N := fresh_block f x k in
      let* t := set_successor B N (bb_term P) in
      let* _ := assert_ (bool_decide (map type_of (pVal :: rest) = map snd (f_args svn))) "Calling a function with a bad signature!" in
      let call := inst (fresh_call f x k) (f_ret svn) (Call (FunctionValue (f_name svn) (TyPtr (f_type svn))) 0 (pVal :: rest)) in
      Done (insert_before B {| bb_name := N; bb_phis := []; bb_insts := [call]; bb_term := Jmp B |}
              (map (map_block (fun b => with_term b t) pBB) bs))
  end.
Fixpoint process_all_incoming (svn : Function_) (f x B : string) (rest : list Value) (k : nat) (l : list (Value * string)) (bs : list Block) :
    outcome (list Block) :=
  match l with
  | [] => Done bs
  | inc :: l => let* bs := process_incoming svn f x B rest k inc bs in process_all_incoming svn f x B rest (S k) l bs
  end.

(** The phi node a value is, and its block. *)
Definition phi_of (F : Function_) (v : Value) : option (string * Phi) :=
  match v with
  | Local x _ =>
      List.find (fun bp : string * Phi => String.eqb (phi_name (snd bp)) x)
        (flat_map (fun b => map (fun p => (bb_name b, p)) (bb_phis b)) (f_blocks F))
  | _ => None
  end.
Definition call_phi (F : Function_) (i : Inst) : option (string * Phi) :=
  match i_kind i with
  | Call callee _ args => match args ++ [callee] with v :: _ => phi_of F v | [] => None end
  | _ => None
  end.
(** processPHI *)
Definition process_phi (svn F : Function_) (i : Inst) : outcome Function_ :=
  match i_kind i, call_phi F i with
  | Call _ _ (_ :: rest), Some (B, phi) =>
      let* bs := process_all_incoming svn (f_name F) (phi_name phi) B rest 0 (phi_incoming phi) (f_blocks F) in
      Done (with_blocks F bs)
  | _, _ => Undefined "dyn_cast<PHINode>"
  end.

(** Instruction::eraseFromParent *)
Definition erase_block (x : string) (b : Block) : Block :=
  {| bb_name := bb_name b; bb_phis := List.filter (fun p => negb (String.eqb (phi_name p) x)) (bb_phis b);
     bb_insts := List.filter (fun i => negb (String.eqb (i_name i) x)) (bb_insts b); bb_term := bb_term b |}.
Definition eraseFromParent (x : string) (F : Function_) : outcome Function_ :=
  if existsb (fun b => existsb (String.eqb x) (block_names b)) (f_blocks F)
  then let* _ := assert_ (use_empty F x) "Uses remain when a value is destroyed!" in
       Done (with_blocks F (map (erase_block x) (f_blocks F)))
  else Undefined "erased twice".

(** ** The pass *)

(** Functions are changed by name. *)
Definition update_function (f : string) (g : Function_ -> outcome Function_) (m : Module_) : outcome Module_ :=
  match find_function m f with
  | Some F => let* F' := g F in
              Done (with_functions m (map (fun G => if String.eqb (f_name G) f then F' else G) (m_functions m)))
  | None => Undefined "a function of the module"
  end.
(** The calls among the users of setvirusname, once for each use, whose first
    operand is a phi node. *)
Definition setvirusname_calls (svn : Function_) (m : Module_) : list (string * Inst) :=
  flat_map (fun F => flat_map (fun i =>
    match i_kind i, call_phi F i with
    | Call _ _ _, Some _ =>
        map (fun _ => (f_name F, i))
          (List.filter (fun v => match v with FunctionValue g _ => String.eqb g (f_name svn) | _ => false end) (operands (i_kind i)))
    | _, _ => []
    end) (all_insts F)) (m_functions m).
(** [users]: the order of the list of users. *)
Context (users : list (string * Inst) -> list (string * Inst)).
Fixpoint process_calls (svn : Function_) (l : list (string * Inst)) (m : Module_) : outcome Module_ :=
  match l with
  | [] => Done m
  | (f, i) :: l => let* m := update_function f (fun F => process_phi svn F i) m in process_calls svn l m
  end.
Fixpoint erase_all (l : list (string * string)) (m : Module_) : outcome Module_ :=
  match l with
  | [] => Done m
  | (f, x) :: l => let* m := update_function f (eraseFromParent x) m in erase_all l m
  end.
Definition erased (m : Module_) (c : string * Inst) : list (string * string) :=
  let '(f, i) := c in
  (f, i_name i) :: match find_function m f with
    | Some F => match call_phi F i with Some (_, phi) => [(f, phi_name phi)] | None => [] end
    | None => []
    end.
(** bChanged is never set. *)
Definition fixupSetVirusNameCalls (m : Module_) : outcome pass_result :=
  match find_function m "setvirusname" with
  | None => Done (true, m)
  | Some svn =>
      let calls := users (setvirusname_calls svn m) in
      let* m1 := process_calls svn calls m in
      let* m2 := erase_all (flat_map (erased m) calls) m1 in Done (true, m2)
  end.
End helper.

(** ** Blocks of the rewritten function *)

Lemma find_bb_name bs l b : find_bb bs l = Some b -> bb_name b = l /\ b ∈ bs.
Proof. unfold find_bb. intros H. apply List.find_some in H as [H1 H2]. split; [by apply String.eqb_eq|by apply list_elem_of_In]. Qed.
Lemma find_bb_map g bs l : (forall b, bb_name (g b) = bb_name b) -> find_bb (map g bs) l = g <$> find_bb bs l.
Proof.
  intros Hg. unfold find_bb. induction bs as [|b bs IH]; [done|]. cbn [List.find map]. rewrite Hg.
  by destruct (String.eqb (bb_name b) l).
Qed.
Lemma find_bb_map_block g P bs l : (forall b, bb_name (g b) = bb_name b) ->
  find_bb (map (map_block g P) bs) l = if String.eqb l P then g <$> find_bb bs l else find_bb bs l.
Proof.
  intros Hg. rewrite find_bb_map by (intros b; unfold map_block; by destruct (String.eqb (bb_name b) P)).
  destruct (find_bb bs l) as [b|] eqn:E; [|by destruct (String.eqb l P)]. apply find_bb_name in E as [<- _].
  cbn [fmap option_fmap option_map]. unfold map_block. by destruct (String.eqb (bb_name b) P).
Qed.
Lemma find_bb_insert_ne B n bs l : l <> bb_name n -> find_bb (insert_before B n bs) l = find_bb bs l.
Proof.
  intros Hl. unfold find_bb, insert_before. induction bs as [|b bs IH]; [done|]. cbn [flat_map List.find].
  destruct (String.eqb (bb_name b) B); cbn [app List.find].
  - rewrite (proj2 (String.eqb_neq (bb_name n) l)) by done. by rewrite IH.
  - by rewrite IH.
Qed.
Lemma find_bb_insert B n bs : is_Some (find_bb bs B) -> find_bb bs (bb_name n) = None ->
  find_bb (insert_before B n bs) (bb_name n) = Some n.
Proof.
  intros [b HB] Hn. unfold find_bb, insert_before in *. induction bs as [|b0 bs IH]; [done|]. cbn [flat_map List.find] in *.
  destruct (String.eqb (bb_name b0) (bb_name n)) eqn:E0; [done|]. destruct (String.eqb (bb_name b0) B); cbn [app List.find].
  - by rewrite String.eqb_refl.
  - rewrite E0. by apply IH.
Qed.

Section rewritten.
Context (fresh_block fresh_call : string -> string -> nat -> string) (svn : Function_) (f x B : string) (rest : list Value).
Abbreviation N := (fresh_block f x).
Context (N_inj : forall j k, N j = N k -> j = k).

Definition edge_call (k : nat) (v : Value) : Inst :=
  inst (fresh_call f x k) (f_ret svn) (Call (FunctionValue (f_name svn) (TyPtr (f_type svn))) 0 (v :: rest)).
Definition edge_block (k : nat) (v : Value) : Block :=
  {| bb_name := N k; bb_phis := []; bb_insts := [edge_call k v]; bb_term := Jmp B |}.
(** The terminator of [P] after its edges to [B] have been redirected. *)
Fixpoint redirect (P : string) (k : nat) (l : list (Value * string)) (t : Term) : Term :=
  match l with
  | [] => t
  | (_, Q) :: l => redirect P (S k) l (if String.eqb P Q then match set_successor B (N k) t with Done t => t | _ => t end else t)
  end.
Lemma redirect_other P k l t : (forall v Q, (v, Q) ∈ l -> Q <> P) -> redirect P k l t = t.
Proof.
  revert k t. induction l as [|[v Q] l IH]; intros k t H; [done|]. cbn [redirect].
  rewrite (proj2 (String.eqb_neq P Q)) by (apply not_eq_sym; apply (H v Q); left). apply IH. intros v' Q' H'. apply (H v' Q'). by right.
Qed.

Lemma process_all_incoming_spec l : forall k bs bs', process_all_incoming fresh_block fresh_call svn f x B rest k l bs = Done bs' ->
  is_Some (find_bb bs B) -> (forall j, (k <= j)%nat -> find_bb bs (N j) = None) -> (forall v Q j, (v, Q) ∈ l -> Q <> N j) ->
  (forall y, (forall j, (k <= j)%nat -> y <> N j) -> find_bb bs' y = (fun b => with_term b (redirect (bb_name b) k l (bb_term b))) <$> find_bb bs y) /\
  (forall j v Q, l !! j = Some (v, Q) -> find_bb bs' (N (k + j)) = Some (edge_block (k + j) v)).
Proof.
  induction l as [|[v Q] l IH]; intros k bs bs' H HB HN Hl.
  { cbn [process_all_incoming] in H. injection H as <-. split; [|by intros [|j]]. intros y _. cbn [redirect].
    by destruct (find_bb bs y) as [[] |]. }
  cbn [process_all_incoming] in H. apply obind_Done in H as (bs1 & E & H). unfold process_incoming in E.
  destruct (find_bb bs Q) as [P|] eqn:EP; [|done]. apply obind_Done in E as (t & Et & E). apply obind_Done in E as (u & _ & E).
  change (Done (insert_before B (edge_block k v) (map (map_block (fun b => with_term b t) Q) bs)) = Done bs1) in E. apply Done_inj in E as <-.
  set (bs1 := insert_before B (edge_block k v) _) in H.
  assert (Hfind : forall y, y <> N k -> find_bb bs1 y = if String.eqb y Q then (fun b => with_term b t) <$> find_bb bs y else find_bb bs y).
  { intros y Hy. unfold bs1. rewrite find_bb_insert_ne by done. by rewrite find_bb_map_block. }
  assert (HNk : find_bb bs1 (N k) = Some (edge_block k v)).
  { unfold bs1. apply (find_bb_insert B (edge_block k v)); [|cbn [bb_name edge_block]].
    - rewrite find_bb_map_block by done. destruct HB as [b ->]. destruct (String.eqb B Q); by eexists.
    - rewrite find_bb_map_block by done. rewrite HN by done. by destruct (String.eqb _ Q). }
  assert (HBk : B <> N k) by (intros E; rewrite E in HB; rewrite HN in HB by done; by destruct HB).
  destruct (IH (S k) bs1 bs' H) as [H1 H2].
  - rewrite Hfind by done. destruct HB as [b ->]. destruct (String.eqb B Q); by eexists.
  - intros j Hj. rewrite Hfind by (intros E%N_inj; lia). rewrite HN by lia. by destruct (String.eqb _ Q).
  - intros v' Q' j Hin. apply (Hl v' Q' j). by right.
  - split.
    + intros y Hy. rewrite H1 by (intros j Hj; apply Hy; lia). rewrite Hfind by (by apply Hy). cbn [redirect].
      destruct (String.eqb_spec y Q) as [->|Hne].
      * rewrite EP. cbn [fmap option_fmap option_map]. apply find_bb_name in EP as [En _]. cbn [bb_name bb_term with_term].
        rewrite En, String.eqb_refl, Et. done.
      * destruct (find_bb bs y) as [b|] eqn:Eb; [|done]. apply find_bb_name in Eb as [En _]. cbn [fmap option_fmap option_map].
        rewrite En. by rewrite (proj2 (String.eqb_neq y Q)).
    + intros [|j] v' Q' Hj; cbn [lookup list_lookup] in Hj.
      * injection Hj as -> ->. rewrite Nat.add_0_r, H1 by (intros j Hj E%N_inj; lia). rewrite HNk. cbn [fmap option_fmap option_map edge_block bb_name bb_term].
        rewrite redirect_other; [done|]. intros v1 Q1 Hin. apply (Hl v1 Q1 k). by right.
      * replace (k + S j)%nat with (S k + j)%nat by lia. by apply (H2 j v' Q').
Qed.

(** Every edge to [B] has been redirected, and no other. *)
Definition edges (t : Term) : nat := length (List.filter (String.eqb B) (successors t)).
Definition entries (P : string) (l : list (Value * string)) : nat := length (List.filter (fun inc => String.eqb P (snd inc)) l).
Section leaving.
Context {V W : Type} {M : Meaning V W} (N_not_B : forall j, N j <> B).
Definition redirected (e : gmap string V) (P : string) (k : nat) (l : list (Value * string)) (t t' : Term) : Prop :=
  match leave e t with
  | Some (Goto y) =>
      if String.eqb y B then exists j v, l !! j = Some (v, P) /\ leave e t' = Some (Goto (N (k + j))) else leave e t' = Some (Goto y)
  | r => leave e t' = r
  end.
Lemma set_successor_leave e k t : edges t <> 0%nat -> exists t1, set_successor B (N k) t = Done t1 /\ edges t = S (edges t1) /\
  match leave e t with
  | Some (Goto y) => leave e t1 = Some (Goto y) \/ y = B /\ leave e t1 = Some (Goto (N k))
  | r => leave e t1 = r
  end.
Proof.
  pose proof (N_not_B k) as Hk. apply String.eqb_neq in Hk. rewrite String.eqb_sym in Hk.
  intros H. destruct t as [c a b|y| | | |]; try done; unfold edges in *; cbn [successors List.filter set_successor leave] in *.
  - destruct (String.eqb_spec B a) as [<-|Ha].
    + rewrite String.eqb_refl. eexists. split; [reflexivity|]. cbn [successors List.filter length]. rewrite Hk.
      split; [done|]. cbn [leave]. destruct (holds (eval e c)); [by right|by left].
    + rewrite (proj2 (String.eqb_neq a B)) by congruence. destruct (String.eqb_spec B b) as [<-|Hb]; [|done]. rewrite String.eqb_refl.
      eexists. split; [reflexivity|]. cbn [successors List.filter length]. rewrite Hk, (proj2 (String.eqb_neq B a)) by done.
      split; [done|]. cbn [leave]. destruct (holds (eval e c)); [by left|by right].
  - destruct (String.eqb_spec B y) as [<-|Hy]; [|done]. rewrite String.eqb_refl. eexists. split; [reflexivity|].
    cbn [successors List.filter length]. rewrite Hk. split; [done|]. by right.
Qed.
Lemma leave_redirect e P l : forall k t, edges t = entries P l -> redirected e P k l t (redirect P k l t).
Proof.
  induction l as [|[v Q] l IH]; intros k t H; cbn [redirect].
  - unfold redirected. destruct (leave e t) as [[y|r]|] eqn:E; try done. destruct (String.eqb_spec y B) as [->|]; [|done].
    exfalso. unfold edges, entries in H. cbn in H. destruct t as [c a b|y| | | |]; try done; cbn [leave successors List.filter] in *.
    + injection E as E. destruct (holds (eval e c)); subst; rewrite String.eqb_refl in H; [done|by destruct (String.eqb B a)].
    + injection E as ->. by rewrite String.eqb_refl in H.
  - unfold entries in H. cbn [List.filter snd] in H. destruct (String.eqb P Q) eqn:EQ.
    + apply String.eqb_eq in EQ as <-. cbn [length] in H. destruct (set_successor_leave e k t) as (t1 & -> & Ht1 & Hl); [lia|].
      specialize (IH (S k) t1). unfold redirected in *. rewrite Ht1 in H. injection H as H. specialize (IH H).
      destruct (leave e t) as [[y|r]|]; [|by rewrite Hl in IH..].
      destruct Hl as [Hl|[-> Hl]]; rewrite Hl in IH.
      * destruct (String.eqb y B); [|done]. destruct IH as (j & v' & Hj & IH). exists (S j), v'. split; [done|]. by rewrite Nat.add_succ_r.
      * rewrite String.eqb_refl. rewrite (proj2 (String.eqb_neq _ _) (N_not_B k)) in IH. exists 0%nat, v. by rewrite Nat.add_0_r.
    + specialize (IH (S k) t H). unfold redirected in *. destruct (leave e t) as [[y|r]|]; try done. destruct (String.eqb y B); [|done].
      destruct IH as (j & v' & Hj & IH). exists (S j), v'. split; [done|]. by rewrite Nat.add_succ_r.
Qed.
End leaving.
End rewritten.

(** ** The rewritten function computes the same *)

Section simulation.
Context {V W : Type} (M : Meaning V W) (c c' : string -> list V -> W -> option (option V * W)).
Context (calls_follow : forall g args w r, c g args w = Some r -> c' g args w = Some r).
Context (fresh_block fresh_call : string -> string -> nat -> string) (svn : Function_) (f : string) (bs bs1 : list Block).
Context (B : string) (b0 : Block) (p : Phi) (ic : Inst) (tl : list Inst) (t tx : ty) (cc : Z) (rest : list Value).
Abbreviation x := (phi_name p).
Abbreviation cn := (i_name ic).
Abbreviation N := (fresh_block f x).
(** The call is the first instruction of the block of its phi node, the only
    one there. *)
Context (HB : find_bb bs B = Some b0) (Hphis : bb_phis b0 = [p]) (Hinsts : bb_insts b0 = ic :: tl)
  (Hic : i_kind ic = Call (FunctionValue (f_name svn) t) cc (Local x tx :: rest)).
Context (Hother : forall b, b ∈ bs -> bb_name b <> B -> x ∉ block_names b /\ cn ∉ block_names b)
  (Htl : cn ∉ map i_name tl /\ x ∉ map i_name (ic :: tl)).
Context (N_inj : forall j k, N j = N k -> j = k) (N_new : forall j, find_bb bs (N j) = None)
  (Hpreds : forall v Q j, (v, Q) ∈ phi_incoming p -> Q <> N j) (Hfc : forall k, fresh_call f x k <> x /\ fresh_call f x k <> cn).
(** The phi node has an entry for each edge, the same for edges from one block. *)
Context (Hedges : forall b, b ∈ bs -> edges B (bb_term b) = entries (bb_name b) (phi_incoming p))
  (Hsame : forall v1 v2 Q, (v1, Q) ∈ phi_incoming p -> (v2, Q) ∈ phi_incoming p -> v1 = v2).
Context (Hrun : process_all_incoming fresh_block fresh_call svn f x B rest 0 (phi_incoming p) bs = Done bs1).
Definition final_blocks : list Block := map (erase_block x) (map (erase_block cn) bs1).
Definition new_name (y : string) : Prop := y = x \/ y = cn \/ exists k, y = fresh_call f x k.
Context (Hclean : forall l b, find_bb final_blocks l = Some b -> Forall (mentions_no_new new_name) (block_operands b)).

Definition final_block (b : Block) : Block :=
  erase_block x (erase_block cn (with_term b (redirect fresh_block f x B (bb_name b) 0 (phi_incoming p) (bb_term b)))).
Lemma N_not_B j : N j <> B.
Proof. intros E. specialize (N_new j). rewrite E in N_new. congruence. Qed.
Lemma filter_names {A} (g : A -> string) y l : y ∉ map g l -> List.filter (fun a => negb (String.eqb (g a) y)) l = l.
Proof.
  induction l as [|a l IH]; intros H; [done|]. cbn [map List.filter] in *. rewrite not_elem_of_cons in H. destruct H as [H1 H2].
  rewrite (proj2 (String.eqb_neq (g a) y)) by congruence. cbn [negb]. by rewrite IH.
Qed.
Lemma find_final y : (forall j, y <> N j) -> find_bb final_blocks y = final_block <$> find_bb bs y.
Proof.
  intros Hy. unfold final_blocks. rewrite !find_bb_map by done.
  destruct (process_all_incoming_spec fresh_block fresh_call svn f x B rest N_inj (phi_incoming p) 0 bs bs1 Hrun) as [H _];
    [by eexists|done|done|]. rewrite H by (intros j _; apply Hy). by destruct (find_bb bs y).
Qed.
Lemma find_edge j v Q : phi_incoming p !! j = Some (v, Q) ->
  find_bb final_blocks (N j) = Some (edge_block fresh_block fresh_call svn f x B rest j v).
Proof.
  intros Hj. unfold final_blocks. rewrite !find_bb_map by done.
  destruct (process_all_incoming_spec fresh_block fresh_call svn f x B rest N_inj (phi_incoming p) 0 bs bs1 Hrun) as [_ H];
    [by eexists|done|done|]. specialize (H j v Q Hj). cbn [Nat.add] in H. rewrite H. cbn [fmap option_fmap option_map].
  unfold edge_block, erase_block. cbn [bb_name bb_phis bb_insts bb_term List.filter edge_call inst i_name].
  destruct (Hfc j) as [H1 H2]. rewrite (proj2 (String.eqb_neq _ cn)) by done. cbn [negb List.filter edge_call inst i_name].
  by rewrite (proj2 (String.eqb_neq _ x)) by done.
Qed.
Lemma final_other b : b ∈ bs -> bb_name b <> B -> bb_phis (final_block b) = bb_phis b /\ bb_insts (final_block b) = bb_insts b.
Proof.
  intros Hb Hn. destruct (Hother b Hb Hn) as [H1 H2]. unfold block_names in H1, H2. rewrite not_elem_of_app in H1, H2.
  unfold final_block, erase_block. cbn [bb_phis bb_insts with_term].
  destruct H1, H2. split; by rewrite (filter_names _ cn), (filter_names _ x) by done.
Qed.
Lemma final_site : bb_phis (final_block b0) = [] /\ bb_insts (final_block b0) = tl.
Proof.
  destruct Htl as [H1 H2]. cbn [map] in H2. rewrite not_elem_of_cons in H2. destruct H2 as [H2 H3].
  unfold final_block, erase_block. cbn [bb_phis bb_insts with_term]. rewrite Hphis, Hinsts. cbn [List.filter].
  rewrite String.eqb_refl, (proj2 (String.eqb_neq x cn)) by done. cbn [negb List.filter]. rewrite String.eqb_refl. cbn [negb].
  split; [done|]. by rewrite (filter_names _ cn), (filter_names _ x) by done.
Qed.

(** What happens after the phi nodes and the call. *)
Definition goes_on (fuel : nat) (S : gset string) (S' : gset string) : Prop :=
  forall l pred e e' m w r, agree_old new_name e e' ->
  run_blocks (M := with_calls M c) S fuel bs l pred (e, m, w) = Some r ->
  (l <> B -> run_blocks (M := with_calls M c') S (2 * fuel) final_blocks l pred (e', m, w) = Some r) /\
  (l = B -> forall j v P, pred = Some P -> phi_incoming p !! j = Some (v, P) ->
     run_blocks (M := with_calls M c') S (2 * fuel) final_blocks (N j) pred (e', m, w) = Some r).
Definition rest_of_block (C : string -> list V -> W -> option (option V * W)) (S : gset string) (fuel : nat) (bs : list Block) (l : string)
    (L : list Inst) (t : Term) (s : gmap string V * gmap string V * W) : option (option V * W) :=
  '(e, m, w) ← exec_insts (M := with_calls M C) S L s; y ← leave (M := with_calls M C) e t;
  match y with
  | Goto l' => run_blocks (M := with_calls M C) S fuel bs l' (Some l) (e, m, w)
  | Returned v => Some (v, w)
  end.
Lemma rest_of_block_follows fuel S b L e e' m w r : goes_on fuel S S -> b ∈ bs -> agree_old new_name e e' ->
  Forall (mentions_no_new new_name) (term_operands (bb_term b)) ->
  Forall (fun i => Forall (mentions_no_new new_name) (operands (i_kind i))) L ->
  rest_of_block c S fuel bs (bb_name b) L (bb_term b) (e, m, w) = Some r ->
  rest_of_block c' S (2 * fuel) final_blocks (bb_name b) L (bb_term (final_block b)) (e', m, w) = Some r.
Proof.
  intros IH Hb He Ht HL H. unfold rest_of_block in *. apply bind_Some in H as ([[e1 m1] w1] & E1 & H).
  assert (Hexp : Forall2 (expands M new_name c c') L (map (fun i => [i]) L)).
  { apply Forall2_fmap_r, Forall_Forall2_diag. eapply Forall_impl; [exact HL|]. intros i Hi. by apply expands_refl. }
  destruct (insts_expand M new_name c c' S L _ Hexp e e' m w e1 m1 w1 He E1) as (e1' & E1' & He1).
  rewrite (concat_singletons (fun i => i)), map_id in E1'. rewrite E1'. cbn [mbind option_bind].
  apply bind_Some in H as (y & Ey & H).
  assert (Hl : leave (M := with_calls M c') e1' (bb_term b) = Some y).
  { rewrite <- Ey. by apply (leave_agree_old M new_name). }
  pose proof (@leave_redirect fresh_block f x B V W (with_calls M c') N_not_B e1' (bb_name b) (phi_incoming p) 0 (bb_term b) (Hedges b Hb)) as Hr.
  unfold redirected in Hr. rewrite Hl in Hr. cbn [final_block erase_block with_term bb_term].
  destruct y as [y|v]; [|by rewrite Hr]. specialize (IH y (Some (bb_name b)) e1 e1' m1 w1 r He1 H).
  destruct (String.eqb_spec y B) as [->|Hne].
  - destruct Hr as (j & v & Hj & ->). cbn [mbind option_bind Nat.add]. by apply (proj2 IH eq_refl j v (bb_name b)).
  - rewrite Hr. cbn [mbind option_bind]. by apply (proj1 IH).
Qed.
Lemma rest_of_block_more S k k' bs' l L u s r : (k <= k')%nat -> rest_of_block c' S k bs' l L u s = Some r -> rest_of_block c' S k' bs' l L u s = Some r.
Proof.
  intros Hk H. unfold rest_of_block in *. apply bind_Some in H as ([[e m] w] & -> & H). cbn [mbind option_bind].
  apply bind_Some in H as (y & -> & H). cbn [mbind option_bind]. destruct y as [y|v]; [|done].
  eapply run_blocks_follow with (fuel := k); [|exact Hk|exact H]. apply Forall_Forall2_diag, Forall_forall. intros b _.
  split; [done|]. split; [done|]. split; [done|]. apply Forall_Forall2_diag, Forall_forall. intros i _. by apply follows_refl.
Qed.
Lemma redirect_operands P k l u : term_operands (redirect fresh_block f x B P k l u) = term_operands u.
Proof.
  revert k u. induction l as [|[v Q] l IH]; intros k u; cbn [redirect]; [done|]. rewrite IH.
  destruct (String.eqb P Q); [|done]. destruct u as [a y z|y| | | |]; try done; cbn [set_successor].
  - destruct (String.eqb y B); [done|]. by destruct (String.eqb z B).
  - by destruct (String.eqb y B).
Qed.
Lemma clean_block l b : find_bb final_blocks l = Some (final_block b) ->
  Forall (fun q => Forall (fun inc : Value * string => mentions_no_new new_name (fst inc)) (phi_incoming q)) (bb_phis (final_block b)) /\
  Forall (fun i => Forall (mentions_no_new new_name) (operands (i_kind i))) (bb_insts (final_block b)) /\
  Forall (mentions_no_new new_name) (term_operands (bb_term b)).
Proof.
  intros H. specialize (Hclean _ _ H). unfold block_operands in Hclean. rewrite !Forall_app in Hclean. destruct Hclean as (H1 & H2 & H3).
  apply Forall_flat_map in H1, H2. cbn [final_block erase_block with_term bb_term] in H3. rewrite redirect_operands in H3.
  split; [|done]. eapply Forall_impl; [exact H1|]. cbv beta. intros q Hq. exact (proj1 (List.Forall_map _ _ _) Hq).
Qed.

(** The call made on the edge, and the phi node with its call. *)
Lemma edge_call_same S j v P e e' m w s : agree_old new_name e e' -> phi_incoming p !! j = Some (v, P) ->
  (e1 ← enter (M := with_calls M c) e (Some P) [p]; exec_inst (M := with_calls M c) S ic (e1, m, w)) = Some s ->
  exists e2 e2' w2, s = (e2, m, w2) /\ agree_old new_name e2 e2' /\
    exec_insts (M := with_calls M c') S [edge_call fresh_call svn f x rest j v] (e', m, w) = Some (e2', m, w2).
Proof.
  intros He Hj H. apply bind_Some in H as (e1 & E1 & H). cbn [enter mbind option_bind] in E1.
  apply bind_Some in E1 as (v0 & Ev & E1). injection E1 as <-.
  assert (v0 = v) as ->.
  { unfold incoming in Ev. destruct (List.find _ _) as [[v1 Q]|] eqn:Ef; [|done]. injection Ev as <-. apply List.find_some in Ef as [Ef1 Ef2].
    apply String.eqb_eq in Ef2. cbn [snd] in Ef2. subst Q. eapply (Hsame v1 v P); [by apply list_elem_of_In|by eapply list_elem_of_lookup_2]. }
  pose proof (find_edge j v P Hj) as Hedge. specialize (Hclean _ _ Hedge). unfold block_operands in Hclean. cbn in Hclean.
  apply Forall_cons in Hclean as [Hv Hrest]. rewrite !app_nil_r in Hrest. apply Forall_app in Hrest as [Hrest _].
  unfold exec_inst in H. rewrite Hic in H. cbn [sem with_calls operands app map length firstn] in H. rewrite Hic in H.
  apply bind_Some in H as ([r w2] & H & Hs). apply bind_Some in H as ([r0 w0] & H & Hr). injection Hr as <- <-. injection Hs as <-.
  cbn [length firstn] in H. rewrite map_app, (take_app_length' _ _ (length rest)) in H by by rewrite length_map.
  cbn [eval] in H. rewrite lookup_insert_eq in H. cbn [default from_option id] in H.
  assert (Hx : new_name x) by by left.
  pose proof (eval_agree_old_list (with_calls M c) new_name e _ rest (agree_old_new new_name e e x (eval (M := with_calls M c) e v) Hx (fun y _ => eq_refl)) Hrest) as Hr1.
  pose proof (eval_agree_old_list (with_calls M c) new_name e e' rest He Hrest) as Hr2.
  rewrite Hr1, <- Hr2 in H. rewrite <- (eval_agree_old (with_calls M c) new_name e e' v He Hv) in H. apply calls_follow in H.
  eexists _, _, w0. split; [reflexivity|]. split; [|].
  2: { cbn [exec_insts edge_call inst exec_inst i_kind i_name i_type operands app map sem with_calls length firstn].
       rewrite map_app, (take_app_length' _ _ (length rest)) by by rewrite length_map.
       match goal with |- context [c' (f_name svn) ?vs w] => change (c' (f_name svn) vs w = Some (r0, w0)) in H end. rewrite H. reflexivity. }
  intros y Hy. unfold new_name in Hy.
  assert (Hy2 : y <> x /\ y <> cn /\ forall k, y <> fresh_call f x k) by naive_solver. destruct Hy2 as (Hy1 & Hy2 & Hy3).
  specialize (He y Hy). destruct (f_ret svn), (i_type ic); rewrite ?(lookup_insert_ne _ cn), ?(lookup_insert_ne _ (fresh_call f x j)),
    ?(lookup_insert_ne _ x) by (apply not_eq_sym; done); done.
Qed.
Lemma simulate S fuel : goes_on fuel S S.
Proof.
  induction fuel as [|fuel IH]; intros l pred e e' m w r He H; [done|]. cbn [run_blocks] in H.
  apply bind_Some in H as (b & Eb & H). apply bind_Some in H as (e1 & Ee & H).
  change (rest_of_block c S fuel bs l (bb_insts b) (bb_term b) (e1, m, w) = Some r) in H.
  apply find_bb_name in Eb as Hb. destruct Hb as [Hn Hb]. split.
  - intros Hl. replace (2 * Datatypes.S fuel)%nat with (Datatypes.S (Datatypes.S (2 * fuel))) by lia. cbn [run_blocks].
    assert (HN : forall j, l <> N j) by (intros j ->; by rewrite N_new in Eb).
    pose proof (find_final l HN) as Hf. rewrite Eb in Hf. cbn [fmap option_fmap option_map] in Hf. rewrite Hf. cbn [mbind option_bind].
    destruct (clean_block l b Hf) as (K1 & K2 & K3). destruct (final_other b Hb) as [L1 L2]; [congruence|]. rewrite L1, L2 in *.
    destruct (enter_agree_old (with_calls M c') new_name e e' pred _ e1 He K1) as (e1' & -> & He1); [exact Ee|]. cbn [mbind option_bind].
    change (rest_of_block c' S (Datatypes.S (2 * fuel)) final_blocks l (bb_insts b) (bb_term (final_block b)) (e1', m, w) = Some r).
    eapply rest_of_block_more; [|rewrite <- Hn; eapply rest_of_block_follows; [exact IH|done|exact He1|done|done|by rewrite Hn]]. lia.
  - intros -> j v P -> Hj. rewrite HB in Eb. injection Eb as <-. rewrite Hphis in Ee. rewrite Hinsts in H.
    unfold rest_of_block in H. cbn [exec_insts] in H. apply bind_Some in H as (s1 & H & H1). apply bind_Some in H as (s0 & H & H2).
    destruct (edge_call_same S j v P e e' m w s0 He Hj) as (e2 & e2' & w2 & -> & He2 & Hcall).
    { by rewrite Ee. }
    replace (2 * Datatypes.S fuel)%nat with (Datatypes.S (Datatypes.S (2 * fuel))) by lia. cbn [run_blocks].
    rewrite (find_edge j v P Hj). cbn [mbind option_bind edge_block bb_phis bb_insts bb_term enter].
    unfold edge_block in Hcall. rewrite Hcall. cbn [mbind option_bind leave].
    pose proof (find_final B (fun k => not_eq_sym (N_not_B k))) as Hf. rewrite HB in Hf. cbn [fmap option_fmap option_map] in Hf.
    rewrite Hf. cbn [mbind option_bind]. destruct (clean_block B b0 Hf) as (_ & K2 & K3). destruct final_site as [L1 L2].
    rewrite L1, L2 in *. cbn [enter mbind option_bind].
    change (rest_of_block c' S (2 * fuel) final_blocks B tl (bb_term (final_block b0)) (e2', m, w2) = Some r).
    rewrite <- Hn. eapply rest_of_block_follows; [exact IH|done|exact He2|done|done|]. unfold rest_of_block. rewrite H2. cbn [mbind option_bind].
    rewrite Hn. exact H1.
Qed.
End simulation.

(** ** The rewritten module *)

Lemma find_update m f F F' g : find_function m f = Some F -> f_name F' = f ->
  find_function (with_functions m (map (fun G => if String.eqb (f_name G) f then F' else G) (m_functions m))) g =
  if String.eqb g f then Some F' else find_function m g.
Proof.
  intros HF Hn. unfold find_function in *. cbn [m_functions with_functions]. induction (m_functions m) as [|G l IH]; [done|].
  cbn [List.find map] in *. destruct (String.eqb_spec (f_name G) f) as [E|E].
  - rewrite Hn. destruct (String.eqb_spec g f) as [->|Hg]; [by rewrite String.eqb_refl|].
    rewrite (proj2 (String.eqb_neq f g)) by done. rewrite (proj2 (String.eqb_neq (f_name G) g)) by congruence. clear IH HF.
    induction l as [|G' l IH]; [done|]. cbn [List.find map]. destruct (String.eqb_spec (f_name G') f) as [E'|E']; [|by rewrite IH].
    by rewrite Hn, E', (proj2 (String.eqb_neq f g)) by done.
  - destruct (String.eqb_spec (f_name G) g) as [<-|Hg]; [by rewrite (proj2 (String.eqb_neq (f_name G) f))|]. by apply IH.
Qed.
Lemma find_function_name m g F : find_function m g = Some F -> f_name F = g.
Proof. unfold find_function. intros H. apply List.find_some in H as [_ H]. by apply String.eqb_eq. Qed.
Lemma update_function_Done m f F g m' : find_function m f = Some F -> (forall F', g F = Done F' -> f_name F' = f) ->
  update_function f g m = Done m' ->
  exists F', g F = Done F' /\ forall h, find_function m' h = if String.eqb h f then Some F' else find_function m h.
Proof.
  unfold update_function. intros HF Hg H. rewrite HF in H. apply obind_Done in H as (F' & E & H). apply Done_inj in H as <-.
  exists F'. split; [exact E|]. intros h. apply find_update with (F := F); auto.
Qed.
Lemma eraseFromParent_Done y F F' : eraseFromParent y F = Done F' ->
  use_empty F y = true /\ F' = with_blocks F (map (erase_block y) (f_blocks F)).
Proof.
  unfold eraseFromParent. destruct (existsb _ _); [|done]. intros (u & H & HF)%obind_Done. apply Done_inj in HF as <-. split; [|done].
  unfold assert_ in H. by destruct (use_empty F y).
Qed.
Lemma use_empty_spec F y v : use_empty F y = true -> v ∈ all_operands F -> is_local y v = false.
Proof.
  unfold use_empty. intros H Hv. apply negb_true_iff in H. destruct (is_local y v) eqn:E; [|done].
  assert (existsb (is_local y) (all_operands F) = true) by (apply existsb_exists; exists v; split; [by apply list_elem_of_In|done]). congruence.
Qed.
Lemma erase_operands y b v : v ∈ block_operands (erase_block y b) -> v ∈ block_operands b.
Proof.
  unfold block_operands, erase_block. cbn [bb_phis bb_insts bb_term]. rewrite !elem_of_app, !list_elem_of_In, !in_flat_map.
  intros [(q & Hq & H)|[(i & Hi & H)|H]]; [left|right; left|by right; right].
  - apply filter_In in Hq as [Hq _]. by exists q.
  - apply filter_In in Hi as [Hi _]. by exists i.
Qed.
Lemma set_successor_operands P N u u' : set_successor P N u = Done u' -> term_operands u' = term_operands u.
Proof.
  destruct u as [a y z|y| | | |]; try done; cbn [set_successor].
  - destruct (String.eqb y P); [by intros [= <-]|]. destruct (String.eqb z P); [by intros [= <-]|done].
  - destruct (String.eqb y P); [by intros [= <-]|done].
Qed.
Lemma find_bb_first bs P b : bb_name b <> P -> find_bb (b :: bs) P = find_bb bs P.
Proof. intros H. unfold find_bb. cbn [List.find]. by rewrite (proj2 (String.eqb_neq _ _) H). Qed.
Section processed.
Context (fresh_block fresh_call : string -> string -> nat -> string) (svn : Function_) (f x B : string) (rest : list Value).
(** What the new calls and the new edges mention, the function already did. *)
Lemma process_operands l : forall k bs bs' v, process_all_incoming fresh_block fresh_call svn f x B rest k l bs = Done bs' ->
  v ∈ flat_map block_operands bs' ->
  v ∈ flat_map block_operands bs \/ v ∈ rest \/ v ∈ map fst l \/ v = FunctionValue (f_name svn) (TyPtr (f_type svn)).
Proof.
  induction l as [|[u Q] l IH]; intros k bs bs' v H Hv.
  { apply Done_inj in H as <-. by left. }
  cbn [process_all_incoming] in H. apply obind_Done in H as (bs1 & E & H). apply (IH _ _ _ _ H) in Hv. cbn [map fst].
  rewrite elem_of_cons. destruct Hv as [Hv|[Hv|[Hv|Hv]]]; [|by auto..]. unfold process_incoming in E.
  destruct (find_bb bs Q) as [P|] eqn:EP; [|done]. apply obind_Done in E as (t & Et & E). apply obind_Done in E as (z & _ & E).
  apply Done_inj in E as <-. apply list_elem_of_In, in_flat_map in Hv as (b & Hb & Hv). unfold insert_before in Hb.
  apply in_flat_map in Hb as (b1 & Hb1 & Hb). apply in_map_iff in Hb1 as (b2 & <- & Hb2). apply list_elem_of_In in Hv.
  assert (Hold : v ∈ block_operands (map_block (fun b => with_term b t) Q b2) -> v ∈ flat_map block_operands bs).
  { unfold map_block. destruct (String.eqb_spec (bb_name b2) Q) as [E2|E2]; intros H1; apply list_elem_of_In, in_flat_map.
    - unfold block_operands in H1. cbn [with_term bb_phis bb_insts bb_term] in H1. rewrite (set_successor_operands _ _ _ _ Et) in H1.
      rewrite app_assoc, elem_of_app in H1. destruct H1 as [H1|H1].
      + exists b2. split; [done|]. apply list_elem_of_In. unfold block_operands. rewrite app_assoc, elem_of_app. by left.
      + exists P. split; [apply find_bb_name in EP as [_ EP]; by apply list_elem_of_In|]. apply list_elem_of_In. unfold block_operands.
        rewrite !elem_of_app. by right; right.
    - exists b2. split; [done|by apply list_elem_of_In]. }
  destruct (String.eqb (bb_name _) B); cbn [In] in Hb; [destruct Hb as [<-|[<-|[]]]|destruct Hb as [<-|[]]]; [|by left; apply Hold..].
  cbn in Hv. rewrite !app_nil_r in Hv. rewrite elem_of_cons, elem_of_app, elem_of_cons in Hv. destruct Hv as [->|[Hv|[->|Hv]]]; [by auto 6..|].
  by apply not_elem_of_nil in Hv.
Qed.
(** The entry block stays the first one. *)
Lemma process_head l : forall k b bs bs', process_all_incoming fresh_block fresh_call svn f x B rest k l (b :: bs) = Done bs' -> bb_name b <> B ->
  exists b' bs1, bs' = b' :: bs1 /\ bb_name b' = bb_name b.
Proof.
  induction l as [|[u Q] l IH]; intros k b bs bs' H Hb.
  { apply Done_inj in H as <-. by do 2 eexists. }
  cbn [process_all_incoming] in H. apply obind_Done in H as (bs2 & E & H). unfold process_incoming in E.
  destruct (find_bb (b :: bs) Q); [|done]. apply obind_Done in E as (t & Et & E). apply obind_Done in E as (z & _ & E).
  apply Done_inj in E as <-. unfold insert_before in H. cbn [map flat_map] in H.
  assert (Hn : bb_name (map_block (fun b => with_term b t) Q b) = bb_name b) by (unfold map_block; by destruct (String.eqb _ Q)).
  rewrite Hn, (proj2 (String.eqb_neq _ _) Hb) in H. cbn [app] in H. apply IH in H as (b' & bs1 & -> & H); [|by rewrite Hn].
  do 2 eexists. split; [done|]. by rewrite H.
Qed.
End processed.

(** A call on the result of a phi node as the optimizer leaves it: the phi node is
    the only one of its block and the call its first instruction; LLVM's phi nodes
    have an entry for each edge; the names the pass asks for are fresh. *)
Record joined_call (fresh_block fresh_call : string -> string -> nat -> string) (svn F : Function_) (ic : Inst) (B : string) (p : Phi)
    (b0 : Block) : Prop := {
  jc_phi : call_phi F ic = Some (B, p);
  jc_block : find_bb (f_blocks F) B = Some b0;
  jc_only : bb_phis b0 = [p];
  jc_first : exists tl, bb_insts b0 = ic :: tl /\ i_name ic ∉ map i_name tl /\ phi_name p ∉ map i_name (ic :: tl);
  jc_args : exists t cc tx rest, i_kind ic = Call (FunctionValue (f_name svn) t) cc (Local (phi_name p) tx :: rest);
  jc_names : forall b, b ∈ f_blocks F -> bb_name b <> B -> phi_name p ∉ block_names b /\ i_name ic ∉ block_names b;
  jc_edges : forall b, b ∈ f_blocks F -> edges B (bb_term b) = entries (bb_name b) (phi_incoming p);
  jc_same : forall v1 v2 Q, (v1, Q) ∈ phi_incoming p -> (v2, Q) ∈ phi_incoming p -> v1 = v2;
  jc_fresh_inj : forall j k, fresh_block (f_name F) (phi_name p) j = fresh_block (f_name F) (phi_name p) k -> j = k;
  jc_fresh_block : forall j, find_bb (f_blocks F) (fresh_block (f_name F) (phi_name p) j) = None;
  jc_fresh_pred : forall v Q j, (v, Q) ∈ phi_incoming p -> Q <> fresh_block (f_name F) (phi_name p) j;
  jc_fresh_call : forall k, fresh_call (f_name F) (phi_name p) k <> phi_name p /\ fresh_call (f_name F) (phi_name p) k <> i_name ic;
  jc_fresh_use : forall k v, v ∈ all_operands F -> is_local (fresh_call (f_name F) (phi_name p) k) v = false
}.

Section correct.
Context {V W : Type} (M : Meaning V W).
Context (base : string -> list V -> W -> option (option V * W)) (slots : string -> gset string).
Context (fresh_block fresh_call : string -> string -> nat -> string) (users : list (string * Inst) -> list (string * Inst)).
Context (m m' : Module_) (svn F : Function_) (ic : Inst) (B : string) (p : Phi) (b0 : Block) (ch : bool).
Context (Hsvn : find_function m "setvirusname" = Some svn) (HF : find_function m (f_name F) = Some F)
  (Hcalls : users (setvirusname_calls svn m) = [(f_name F, ic)])
  (Hjoin : joined_call fresh_block fresh_call svn F ic B p b0)
  (Hrun : fixupSetVirusNameCalls fresh_block fresh_call users m = Done (ch, m')).

Lemma fixup_blocks : exists t cc tx rest bs1,
  i_kind ic = Call (FunctionValue (f_name svn) t) cc (Local (phi_name p) tx :: rest) /\
  process_all_incoming fresh_block fresh_call svn (f_name F) (phi_name p) B rest 0 (phi_incoming p) (f_blocks F) = Done bs1 /\
  use_empty (with_blocks F bs1) (i_name ic) = true /\
  use_empty (with_blocks F (map (erase_block (i_name ic)) bs1)) (phi_name p) = true /\
  forall h, find_function m' h = if String.eqb h (f_name F) then Some (with_blocks F (final_blocks bs1 p ic)) else find_function m h.
Proof.
  destruct (jc_args _ _ _ _ _ _ _ _ Hjoin) as (t & cc & tx & rest & Hic). exists t, cc, tx, rest.
  unfold fixupSetVirusNameCalls in Hrun. rewrite Hsvn, Hcalls in Hrun. apply obind_Done in Hrun as (m1 & E1 & H).
  apply obind_Done in H as (m2 & E2 & H). apply Done_inj in H. injection H as <- <-.
  cbn [process_calls] in E1. apply obind_Done in E1 as (m1' & E1 & H). apply Done_inj in H as <-.
  cbn [flat_map erased] in E2. rewrite HF, (jc_phi _ _ _ _ _ _ _ _ Hjoin) in E2. cbn [app erase_all] in E2.
  apply obind_Done in E2 as (m3 & E2 & E3). apply obind_Done in E3 as (m4 & E3 & H). apply Done_inj in H as <-.
  apply (update_function_Done _ _ F) in E1 as (F1 & P1 & H1); [|done|].
  2: { intros F1 H. unfold process_phi in H. rewrite Hic, (jc_phi _ _ _ _ _ _ _ _ Hjoin) in H. apply obind_Done in H as (bs1 & _ & H).
       by apply Done_inj in H as <-. }
  unfold process_phi in P1. rewrite Hic, (jc_phi _ _ _ _ _ _ _ _ Hjoin) in P1. apply obind_Done in P1 as (bs1 & Hbs & P1).
  apply Done_inj in P1 as <-. exists bs1. split; [done|]. split; [done|].
  apply (update_function_Done _ _ (with_blocks F bs1)) in E2 as (F2 & P2 & H2); [|by rewrite H1, String.eqb_refl|].
  2: { intros F2 H. by apply eraseFromParent_Done in H as [_ ->]. }
  apply eraseFromParent_Done in P2 as [U2 ->].
  apply (update_function_Done _ _ (with_blocks F (map (erase_block (i_name ic)) bs1))) in E3 as (F3 & P3 & H3); [|by rewrite H2, String.eqb_refl|].
  2: { intros F3 H. by apply eraseFromParent_Done in H as [_ ->]. }
  apply eraseFromParent_Done in P3 as [U3 ->]. split; [done|]. split; [done|].
  intros h. rewrite H3, H2, H1. by destruct (String.eqb h (f_name F)).
Qed.
Lemma site_operands t cc tx rest v : i_kind ic = Call (FunctionValue (f_name svn) t) cc (Local (phi_name p) tx :: rest) ->
  v ∈ rest \/ v ∈ map fst (phi_incoming p) -> v ∈ all_operands F.
Proof.
  intros Hic Hv. apply list_elem_of_In, in_flat_map. exists b0. pose proof (jc_block _ _ _ _ _ _ _ _ Hjoin) as Hb. apply find_bb_name in Hb as [_ Hb].
  split; [by apply list_elem_of_In|]. apply list_elem_of_In. unfold block_operands. rewrite (jc_only _ _ _ _ _ _ _ _ Hjoin).
  destruct (jc_first _ _ _ _ _ _ _ _ Hjoin) as (tl & -> & _). cbn [flat_map]. rewrite Hic. cbn [operands]. rewrite !elem_of_app.
  destruct Hv as [Hv|Hv]; [right; left; left; left; by right|by left; left].
Qed.
Lemma final_clean t cc tx rest bs1 : i_kind ic = Call (FunctionValue (f_name svn) t) cc (Local (phi_name p) tx :: rest) ->
  process_all_incoming fresh_block fresh_call svn (f_name F) (phi_name p) B rest 0 (phi_incoming p) (f_blocks F) = Done bs1 ->
  use_empty (with_blocks F bs1) (i_name ic) = true ->
  use_empty (with_blocks F (map (erase_block (i_name ic)) bs1)) (phi_name p) = true ->
  forall l b, find_bb (final_blocks bs1 p ic) l = Some b -> Forall (mentions_no_new (new_name fresh_call (f_name F) p ic)) (block_operands b).
Proof.
  intros Hic Hbs U1 U2 l b Hb. apply find_bb_name in Hb as [_ Hb]. apply Forall_forall. intros v Hv y Hy.
  unfold final_blocks in Hb. apply list_elem_of_In, in_map_iff in Hb as (b2 & <- & Hb2). apply erase_operands in Hv.
  destruct Hy as [->|Hy].
  { apply (use_empty_spec _ _ _ U2). apply list_elem_of_In, in_flat_map. exists b2. split; [done|by apply list_elem_of_In]. }
  apply in_map_iff in Hb2 as (b1 & <- & Hb1). apply erase_operands in Hv.
  assert (Hv1 : v ∈ flat_map block_operands bs1) by (apply list_elem_of_In, in_flat_map; exists b1; split; [done|by apply list_elem_of_In]).
  destruct Hy as [->|[k ->]]; [by apply (use_empty_spec _ _ _ U1)|].
  destruct (process_operands _ _ _ _ _ _ _ _ _ _ _ _ Hbs Hv1) as [H|H]; [by apply (jc_fresh_use _ _ _ _ _ _ _ _ Hjoin)|].
  destruct H as [H|[H| ->]]; [| |done]; apply (jc_fresh_use _ _ _ _ _ _ _ _ Hjoin); eapply site_operands; eauto.
Qed.

(** C21: In a module with one call of setvirusname, made on a phi node as the
    optimizer leaves it ([joined_call]), each function returns after
    ClamBCLogicalCompilerHelper, where it succeeds, what it returned before, with the
    same effects: the call made on each edge gets the value the phi node had.
    [joined_call] asks that the phi node is the only one of its block - of two, the
    second is read before the block assigns it ([second_phi_is_stale]) -, that the
    call is the first instruction after it - a call before it would be overtaken
    ([earlier_call_is_overtaken]) -, that names are assigned in one block only, that
    the phi node has as many entries for a block as there are edges from it, all of
    one value, and that the names the pass asks for are new. *)
Theorem fixupSetVirusNameCalls_correct fuel : forall g args w r,
  call_function M base slots fuel m g args w = Some r -> call_function M base slots (2 * fuel) m' g args w = Some r.
Proof.
  destruct fixup_blocks as (t & cc & tx & rest & bs1 & Hic & Hbs & U1 & U2 & Hm').
  pose proof (final_clean t cc tx rest bs1 Hic Hbs U1 U2) as Hclean.
  induction fuel as [|fuel IH]; intros g args w r H; [done|].
  replace (2 * S fuel)%nat with (S (S (2 * fuel))) by lia. cbn [call_function] in H.
  assert (Hcc : forall h vs w0 r0, call_function M base slots fuel m h vs w0 = Some r0 ->
            call_function M base slots (S (2 * fuel)) m' h vs w0 = Some r0).
  { intros h vs w0 r0 Hc. eapply (call_more M base slots m' (2 * fuel)); [lia|by apply IH]. }
  set (c' := call_function M base slots (S (2 * fuel)) m') in *. set (c := call_function M base slots fuel m) in *.
  change (call_function M base slots (S (S (2 * fuel))) m' g args w) with
    (F0 ← find_function m' g; match f_blocks F0 with
      | [] => base g args w
      | b :: _ => run_blocks (M := with_calls M c') (slots g) (S (2 * fuel)) (f_blocks F0) (bb_name b) None
          (list_to_map (zip (map fst (f_args F0)) args), ∅, w) end).
  apply bind_Some in H as (G & HG & H). rewrite Hm'. destruct (String.eqb_spec g (f_name F)) as [->|Hg].
  - rewrite HF in HG. injection HG as <-. cbn [mbind option_bind with_blocks f_blocks f_args].
    destruct (f_blocks F) as [|b bs] eqn:EF.
    + pose proof (jc_block _ _ _ _ _ _ _ _ Hjoin) as Hb. by rewrite EF in Hb.
    + assert (Hb : bb_name b <> B).
      { intros E. pose proof (jc_block _ _ _ _ _ _ _ _ Hjoin) as Hb. rewrite EF in Hb. destruct fuel; [done|]. cbn [run_blocks] in H.
        rewrite E, Hb in H. cbn [mbind option_bind] in H. by rewrite (jc_only _ _ _ _ _ _ _ _ Hjoin) in H. }
      destruct (process_head _ _ _ _ _ _ _ _ _ _ _ _ Hbs Hb) as (b' & bs' & -> & Hn).
      destruct (jc_first _ _ _ _ _ _ _ _ Hjoin) as (tl & Htl & Hd).
      destruct Hjoin as [J1 J2 J3 _ _ J6 J7 J8 J9 J10 J11 J12 _]. rewrite EF in *.
      pose proof (simulate M c c' Hcc fresh_block fresh_call svn (f_name F) (b :: bs) (b' :: bs') B b0 p ic tl t tx cc rest J2 J3 Htl Hic
        J6 Hd J9 J10 J11 J12 J7 J8 Hbs Hclean (slots (f_name F)) fuel (bb_name b) None _ _ _ _ r (fun _ _ => eq_refl) H) as [K _].
      specialize (K Hb). unfold final_blocks in *. cbn [map erase_block bb_name]. rewrite Hn.
      eapply (run_blocks_follow M c' c'); [|apply Nat.le_succ_diag_r|exact K].
      apply Forall_Forall2_diag, Forall_forall. intros b1 _. split; [done|]. split; [done|]. split; [done|].
      apply Forall_Forall2_diag, Forall_forall. intros i _. by apply follows_refl.
  - rewrite HG. cbn [mbind option_bind]. destruct (f_blocks G) as [|b bs]; [done|].
    eapply (run_blocks_follow M c c' _ _ _ fuel); [|lia|exact H].
    apply Forall_Forall2_diag, Forall_forall. intros b1 _. split; [done|]. split; [done|]. split; [done|].
    apply Forall_Forall2_diag, Forall_forall. intros i _. by apply follows_refl.
Qed.
End correct.

(** ** Example *)

Fixpoint marks (k : nat) : string := match k with O => "" | S k => String.String "'" (marks k) end.
Lemma marks_inj j k : marks j = marks k -> j = k.
Proof. revert k. induction j as [|j IH]; intros [|k] H; try done. injection H as H. f_equal. by apply IH. Qed.
Definition demo_edge (f x : string) (k : nat) : string := String.String "@" (marks k).
Definition demo_edge_call (f x : string) (k : nat) : string := String.String "$" (marks k).

Definition name_ty : ty := TyPtr (TyInt 8).
Definition demo_function (name : string) (args : list (string * ty)) (bs : list Block) : Function_ := {|
  f_name := name; f_args := args; f_ret := TyInt 32; f_vararg := false; f_cc := 0; f_sret := false; f_available_externally := false;
  f_intrinsic := None; f_blocks := bs |}.
Definition demo_setvirusname : Function_ := demo_function "setvirusname" [("", name_ty); ("", TyInt 32)] [].
Definition demo_seen : Function_ := demo_function "seen" [("", TyInt 32)] [].
Definition demo_phi : Phi :=
  {| phi_name := "sink"; phi_type := name_ty; phi_incoming := [(GlobalVariable "first" name_ty, "then"); (GlobalVariable "second" name_ty, "entry")] |}.
(** A second phi node, an integer. *)
Definition demo_phi2 : Phi :=
  {| phi_name := "n"; phi_type := TyInt 32; phi_incoming := [(ConstantInt 32 1, "then"); (ConstantInt 32 2, "entry")] |}.
Definition demo_ic : Inst :=
  inst "call" (TyInt 32) (Call (FunctionValue "setvirusname" (TyPtr (f_type demo_setvirusname))) 0 [Local "sink" name_ty; ConstantInt 32 0]).
Definition demo_other : Inst :=
  inst "other" (TyInt 32) (Call (FunctionValue "seen" (TyPtr (f_type demo_seen))) 0 [ConstantInt 32 7]).
Definition demo_sink (ps : list Phi) (l : list Inst) (v : Value) : Block :=
  {| bb_name := "return.sink.split"; bb_phis := ps; bb_insts := l; bb_term := Ret v |}.
Definition demo_joined (sink : Block) : Function_ := demo_function "entrypoint" [("c", TyInt 1)] [
  {| bb_name := "entry"; bb_phis := []; bb_insts := []; bb_term := Br (Local "c" (TyInt 1)) "then" "return.sink.split" |};
  {| bb_name := "then"; bb_phis := []; bb_insts := []; bb_term := Jmp "return.sink.split" |}; sink ].
Definition demo_helper (sink : Block) : Module_ := {|
  m_structs := ∅; m_globals := []; m_functions := [demo_setvirusname; demo_seen; demo_joined sink];
  m_logicalsignature := None; m_virusnames := None; m_funcmin := None; m_funcmax := None |}.
Definition demo_fixed (sink : Block) : Module_ :=
  match fixupSetVirusNameCalls demo_edge demo_edge_call (fun l => l) (demo_helper sink) with Done (_, m) => m | _ => demo_helper sink end.
(** What is called, and with which value. *)
Definition demo_log (g : string) (args : list Z) (w : list (string * Z)) : option (option Z * list (string * Z)) :=
  match args with v :: _ => Some (Some 0, (g, v) :: w) | [] => None end.
Definition demo_address (v : Value) : Z := match v with GlobalVariable "first" _ => 100 | GlobalVariable "second" _ => 200 | _ => 0 end.
Definition demo_entrypoint (m : Module_) (fuel : nat) (c : Z) : option (option Z * list (string * Z)) :=
  call_function (integer_meaning demo_address (fun _ _ _ => None)) demo_log (fun _ => ∅) fuel m "entrypoint" [c] [].
Definition sink1 : Block := demo_sink [demo_phi] [demo_ic] (ConstantInt 32 3).

Lemma demo_joined_call : joined_call demo_edge demo_edge_call demo_setvirusname (demo_joined sink1) demo_ic "return.sink.split" demo_phi sink1.
Proof.
  split; try reflexivity.
  - exists []. vm_compute. repeat split; intros H; apply list_elem_of_In in H; cbn in H; intuition congruence.
  - by do 4 eexists.
  - intros b Hb Hn. apply list_elem_of_In in Hb. cbn in Hb. destruct Hb as [<-|[<-|[<-|[]]]]; [split; apply not_elem_of_nil..|done].
  - intros b Hb. apply list_elem_of_In in Hb. cbn in Hb. by destruct Hb as [<-|[<-|[<-|[]]]].
  - intros v1 v2 Q H1 H2. apply list_elem_of_In in H1, H2. cbn in H1, H2. by destruct H1 as [H1|[H1|[]]], H2 as [H2|[H2|[]]]; simplify_eq.
  - intros j k H. injection H as H. by apply marks_inj.
  - intros v Q j H. apply list_elem_of_In in H. cbn in H. by destruct H as [H|[H|[]]]; injection H as <- <-.
  - split; done.
  - intros k v Hv. apply list_elem_of_In in Hv. cbn in Hv. by repeat (destruct Hv as [<-|Hv]; [done|]).
Qed.
Lemma fixupSetVirusNameCalls_correct_witness :
  demo_entrypoint (demo_helper sink1) 4 0 = Some (Some 3, [("setvirusname", 200)]) /\
  demo_entrypoint (demo_fixed sink1) 8 0 = Some (Some 3, [("setvirusname", 200)]).
Proof.
  assert (H : demo_entrypoint (demo_helper sink1) 4 0 = Some (Some 3, [("setvirusname", 200)])) by (vm_compute; reflexivity).
  split; [exact H|].
  refine (fixupSetVirusNameCalls_correct (integer_meaning demo_address (fun _ _ _ => None)) demo_log (fun _ => ∅) demo_edge demo_edge_call
    (fun l => l) (demo_helper sink1) (demo_fixed sink1) demo_setvirusname (demo_joined sink1) demo_ic "return.sink.split" demo_phi sink1 true
    eq_refl eq_refl _ demo_joined_call _ 4%nat "entrypoint" [0] [] _ H); vm_compute; reflexivity.
Defined.

(** A second phi node of the block keeps the old predecessors. *)
Lemma second_phi_is_stale :
  let sink := demo_sink [demo_phi; demo_phi2] [demo_ic] (Local "n" (TyInt 32)) in
  demo_entrypoint (demo_helper sink) 4 1 = Some (Some 1, [("setvirusname", 100)]) /\
  find_bb (f_blocks (demo_joined sink)) "return.sink.split" = Some sink /\
  demo_entrypoint (demo_fixed sink) 20 1 = None.
Proof. repeat split; vm_compute; reflexivity. Qed.
(** A call before the one of setvirusname comes after it. *)
Lemma earlier_call_is_overtaken :
  let sink := demo_sink [demo_phi] [demo_other; demo_ic] (ConstantInt 32 3) in
  demo_entrypoint (demo_helper sink) 4 1 = Some (Some 3, [("setvirusname", 100); ("seen", 7)]) /\
  demo_entrypoint (demo_fixed sink) 8 1 = Some (Some 3, [("seen", 7); ("setvirusname", 100)]).
Proof. split; vm_compute; reflexivity. Qed.
(** For the second call on one phi node its predecessors have no edge left. *)
Lemma shared_phi_stops :
  let ic2 := inst "again" (TyInt 32) (i_kind demo_ic) in
  fixupSetVirusNameCalls demo_edge demo_edge_call (fun l => l) (demo_helper (demo_sink [demo_phi] [demo_ic; ic2] (ConstantInt 32 3))) =
  Stop "Branch Instruction is not a predecessor to phi.".
Proof. vm_compute. reflexivity. Qed.
(** The pass reports that it has changed nothing. *)
Lemma helper_reports_no_change : exists m, fixupSetVirusNameCalls demo_edge demo_edge_call (fun l => l) (demo_helper sink1) = Done (true, m) /\
  length (flat_map f_blocks (m_functions m)) = 5%nat.
Proof. eexists. split; vm_compute; reflexivity. Qed.
