(* ===== verification/RemovePointerPHIs.v ===== *)
(** * RemovePointerPHIs: pointer phi nodes become an index

    libclambcc/ClamBCRemovePointerPHIs.cpp, which the driver runs after the
    optimizer: a pointer phi node that walks through one object gets a phi node of
    64 bits in front of it, the index from the object's base, and its uses become
    a getelementptr of the base with that index. The pass searches the
    predecessors of the phi node by depth-first search along the branches
    ([findPredecessor]), and finds out what depends on the phi node with
    getDependentValues (Dependents.v). What an advanced pointer is used for is
    replaced by the pointer before it was advanced, so the pass does not
    keep what every function computes ([loop_one_too_many] and the lemmas after it);
    PointerLoops.v has the loops it is right about. *)
From S2P Require Import Prelude IR Semantics Integers SmallPasses ExtendPHIs Lowering LogicalHelper Dependents Dominance Addresses.
Local Open Scope string_scope.
Local Open Scope list_scope.
Local Open Scope Z_scope.
Local Open Scope outcome_scope.

(** ** The search for a predecessor *)

Section predecessors.
Context (F : Function_).
(** findBranch: the only branch of a block is its terminator. *)
Definition findBranch (l : string) : option Term :=
  match find_bb (f_blocks F) l with
  | Some b => match bb_term b with Br c t f => Some (Br c t f) | Jmp t => Some (Jmp t) | _ => None end
  | None => None
  end.
Definition branches (l : string) : list string := match findBranch l with Some t => successors t | None => [] end.

Section each.
Context (rec : string -> list string -> outcome (option string * list string)) (dst : string) (omit : list string) (src : string).
Fixpoint scan_successors (l : list string) (visited : list string) : outcome (option string * list string) :=
  match l with
  | [] => Done (None, visited)
  | bb :: l =>
      if String.eqb bb dst && negb (bool_decide (src ∈ omit)) then Done (Some src, visited)
      else let* (res, visited) := rec bb visited in
           match res with Some p => Done (Some p, visited) | None => scan_successors l visited end
  end.
End each.
(** The list of visited blocks is passed by reference. *)
Fixpoint find_predecessor (fuel : nat) (dst : string) (omit : list string) (src : string) (visited : list string) : outcome (option string * list string) :=
  match fuel with
  | O => Undefined "fuel"
  | S fuel =>
      if bool_decide (src ∈ visited) then Done (None, visited)
      else scan_successors (find_predecessor fuel dst omit) dst omit src (branches src) (visited ++ [src])
  end.
(** A block that is found is omitted from then on. *)
Definition findPredecessor (dst src : string) (omit : list string) : outcome (option string * list string) :=
  let* (res, _) := find_predecessor (S (S (length (f_blocks F)))) dst omit src [] in
  Done (res, match res with Some p => omit ++ [p] | None => omit end).

(** *** What it finds *)

Definition edge (l l' : string) : Prop := l' ∈ branches l.
Context (dst : string) (omit : list string).
Definition eligible (p : string) : Prop := edge p dst /\ p ∉ omit.
Definition searched (open visited : list string) : Prop :=
  forall l, l ∈ visited -> l ∉ open -> ~ eligible l /\ forall l', edge l l' -> l' ∈ visited.

Definition search_result (open : list string) (src : string) (visited : list string) (r : option string * list string) : Prop :=
  (exists l, snd r = visited ++ l) /\
  match fst r with
  | Some p => rtc edge src p /\ eligible p
  | None => src ∈ snd r /\ searched open (snd r)
  end.
Lemma scan_successors_spec rec open src :
  (forall l v r, rec l v = Done r -> searched open v -> search_result open l v r) ->
  forall ls v r, (forall l, l ∈ ls -> edge src l) -> scan_successors rec dst omit src ls v = Done r -> searched open v ->
    (exists l, snd r = v ++ l) /\
    match fst r with
    | Some p => rtc edge src p /\ eligible p
    | None => searched open (snd r) /\ (forall l, l ∈ ls -> l ∈ snd r) /\ (dst ∈ ls -> src ∈ omit)
    end.
Proof.
  intros Hrec. induction ls as [|l ls IH]; intros v r Hls H Hs; cbn [scan_successors] in H.
  - apply Done_inj in H as <-. cbn [fst snd]. split; [exists []; by rewrite app_nil_r|]. split; [done|]. split; [by intros l ?%not_elem_of_nil|by intros ?%not_elem_of_nil].
  - assert (Hl : edge src l) by (apply Hls; by left).
    destruct (String.eqb l dst && negb (bool_decide (src ∈ omit))) eqn:Hc.
    + apply andb_true_iff in Hc as [E Ho%negb_true_iff%bool_decide_eq_false]. apply String.eqb_eq in E as ->. apply Done_inj in H as <-. cbn [fst snd].
      split; [exists []; by rewrite app_nil_r|]. split; [done|by split].
    + apply obind_Done in H as ([res v1] & E & H). destruct (Hrec _ _ _ E Hs) as ((l1 & H1) & H2). cbn [fst snd] in H1, H2. destruct res as [p|].
      * apply Done_inj in H as <-. cbn [fst snd]. split; [by exists l1|]. destruct H2 as [Hp He]. split; [by eapply rtc_l|done].
      * destruct H2 as [Hin Hs1]. destruct (IH v1 r) as ((l2 & H3) & H4); [intros l' Hl'; apply Hls; by right|done|done|].
        split; [exists (l1 ++ l2); by rewrite H3, H1, app_assoc|]. destruct (fst r); [done|]. destruct H4 as (H4 & H5 & H6). split; [done|]. split.
        -- intros l' [->|Hl']%elem_of_cons; [rewrite H3; apply elem_of_app; by left|by apply H5].
        -- intros [<-|Hd]%elem_of_cons; [|by apply H6]. rewrite String.eqb_refl in Hc. by apply negb_false_iff, bool_decide_eq_true in Hc.
Qed.
Lemma find_predecessor_spec fuel : forall open src v r, find_predecessor fuel dst omit src v = Done r -> searched open v -> search_result open src v r.
Proof.
  induction fuel as [|fuel IH]; intros open src v r H Hs; cbn [find_predecessor] in H; [done|]. unfold search_result.
  destruct (bool_decide (src ∈ v)) eqn:Ev; [apply bool_decide_eq_true in Ev|apply bool_decide_eq_false in Ev].
  { apply Done_inj in H as <-. cbn [fst snd]. split; [exists []; by rewrite app_nil_r|by split]. }
  destruct (scan_successors_spec _ (src :: open) src (fun l v r => IH (src :: open) l v r) _ _ _ (fun l Hl => Hl) H) as ((l & Hl) & Hr).
  { intros l Hl Ho. apply elem_of_app in Hl as [Hl|Hl]; [|apply list_elem_of_singleton in Hl as ->; exfalso; apply Ho; by left]. apply not_elem_of_cons in Ho as [_ Ho].
    destruct (Hs l Hl Ho) as [H1 H2]. split; [done|]. intros l' E. apply elem_of_app. left. by apply H2. }
  split; [exists ([src] ++ l); by rewrite Hl, app_assoc|]. destruct (fst r); [done|]. destruct Hr as (H1 & H2 & H3). split; [rewrite Hl; set_solver|].
  intros l' Hl' Ho. destruct (decide (l' = src)) as [->|Hne]; [|apply H1; [done|by apply not_elem_of_cons]].
  split; [|done]. intros [He Hn]. by apply Hn, H3.
Qed.

(** *** It ends *)

Lemma branches_block l l' : edge l l' -> l ∈ map bb_name (f_blocks F).
Proof.
  unfold edge, branches, findBranch. destruct (find_bb (f_blocks F) l) as [b|] eqn:E; [|by intros ?%not_elem_of_nil]. intros _.
  apply find_some in E as [Hb E]. apply String.eqb_eq in E as <-. apply list_elem_of_fmap_2. by apply list_elem_of_In.
Qed.
Abbreviation unseen := (unvisited (map bb_name (f_blocks F))).
Lemma find_predecessor_ends fuel : forall src v, (S (unseen v) < fuel)%nat -> exists r l, find_predecessor fuel dst omit src v = Done (r, v ++ l).
Proof.
  induction fuel as [|fuel IH]; intros src v Hf; [lia|]. cbn [find_predecessor]. destruct (bool_decide (src ∈ v)) eqn:Ev; [exists None, []; by rewrite app_nil_r|].
  apply bool_decide_eq_false in Ev.
  assert (Hscan : forall ls w, (ls = [] \/ (S (unseen w) < fuel)%nat) -> exists r l, scan_successors (find_predecessor fuel dst omit) dst omit src ls w = Done (r, w ++ l)).
  { induction ls as [|x ls IHl]; intros w Hw; cbn [scan_successors]; [exists None, []; by rewrite app_nil_r|]. destruct Hw as [Hw|Hw]; [done|].
    destruct (_ && _); [exists (Some src), []; by rewrite app_nil_r|]. destruct (IH x w Hw) as (r & l & ->). cbn [obind]. destruct r as [p|]; [by exists (Some p), l|].
    destruct (IHl (w ++ l)) as (r & l' & ->); [right; pose proof (unvisited_more (map bb_name (f_blocks F)) w (w ++ l) ltac:(set_solver)); lia|].
    exists r, (l ++ l'). by rewrite app_assoc. }
  destruct (Hscan (branches src) (v ++ [src])) as (r & l & ->).
  - destruct (branches src) as [|l' ls] eqn:Eb; [by left|right]. assert (Hsrc : src ∈ map bb_name (f_blocks F)) by (apply (branches_block src l'); unfold edge; rewrite Eb; by left).
    pose proof (unvisited_less (map bb_name (f_blocks F)) v src Hsrc Ev). lia.
  - exists r, ([src] ++ l). by rewrite app_assoc.
Qed.
Lemma findPredecessor_finds src : exists r, findPredecessor dst src omit = Done r /\
  match fst r with
  | Some p => rtc edge src p /\ eligible p /\ snd r = omit ++ [p]
  | None => (forall p, rtc edge src p -> ~ eligible p) /\ snd r = omit
  end.
Proof.
  unfold findPredecessor. destruct (find_predecessor_ends (S (S (length (f_blocks F)))) src []) as (res & v & E).
  { unfold unvisited. pose proof (filter_length_le (fun n => negb (bool_decide (n ∈ []))) (map bb_name (f_blocks F))) as H. rewrite length_map in H. lia. }
  rewrite E. cbn [obind]. eexists. split; [reflexivity|]. destruct (find_predecessor_spec _ [] _ _ _ E) as (_ & H); [by intros l Hl%not_elem_of_nil|]. cbn [fst snd] in *.
  destruct res as [p|]; [naive_solver|]. destruct H as [Hsrc Hs]. split; [|done].
  assert (Hall : forall p, rtc edge src p -> p ∈ v).
  { intros p Hp. revert p Hp. apply rtc_ind_r; [done|]. intros a b _ Hab Ha. by apply (proj2 (Hs a Ha ltac:(apply not_elem_of_nil))). }
  intros p Hp. apply (Hs p (Hall p Hp)). apply not_elem_of_nil.
Qed.
(** C26: The search for the block a pointer comes back from. findPredecessor always
    comes to an end. It returns a block that branches to [dst], is not omitted, and
    is reached from [src] along branches, and omits it from then on; it returns
    none only if there is no such block. *)
Theorem findPredecessor_spec src : exists r, findPredecessor dst src omit = Done r /\
  match fst r with
  | Some p => rtc edge src p /\ eligible p /\ snd r = omit ++ [p]
  | None => (forall p, rtc edge src p -> ~ eligible p) /\ snd r = omit
  end.
Proof. exact (findPredecessor_finds src). Qed.
End predecessors.

(** ** One phi node *)

(** getOrigValue: the pointer operand has fewer instructions behind it, where
    definitions come before their uses. *)
Fixpoint get_orig_value (fuel : nat) (F : Function_) (pv : Value) : outcome Value :=
  match fuel with
  | O => Undefined "endless recursion"
  | S fuel =>
      match i_kind <$> def_of F pv with
      | Some (GetElementPtr _ tmp _) | Some (Cast BitCast tmp) => get_orig_value fuel F tmp
      | _ => Done pv
      end
  end.
Definition getOrigValue (F : Function_) (pv : Value) : outcome Value := get_orig_value (S (length (all_insts F))) F pv.
#[local] Instance cmp_predicate_eq_dec : EqDecision cmp_predicate.
Proof. solve_decision. Defined.
#[local] Instance binop_eq_dec : EqDecision binop.
Proof. solve_decision. Defined.
#[local] Instance castop_eq_dec : EqDecision castop.
Proof. solve_decision. Defined.
#[local] Instance inst_kind_eq_dec : EqDecision inst_kind.
Proof. solve_decision. Defined.
#[local] Instance Inst_eq_dec : EqDecision Inst.
Proof. solve_decision. Defined.
(** A longer chain repeats an instruction and has no end: if the recursion ends, it
    ends within this number of steps. *)
Definition orig_step (F : Function_) (v : Value) : option (Inst * Value) :=
  i ← def_of F v; match i_kind i with GetElementPtr _ tmp _ | Cast BitCast tmp => Some (i, tmp) | _ => None end.
Inductive orig_chain (F : Function_) : Value -> list Inst -> Value -> Prop :=
| orig_end v : orig_step F v = None -> orig_chain F v [] v
| orig_next v i v' l r : orig_step F v = Some (i, v') -> orig_chain F v' l r -> orig_chain F v (i :: l) r.
Lemma get_orig_value_step fuel F v : get_orig_value (S fuel) F v = match orig_step F v with Some (_, v') => get_orig_value fuel F v' | None => Done v end.
Proof. cbn [get_orig_value]. unfold orig_step. destruct (def_of F v) as [i|]; [|done]. cbn. destruct (i_kind i) as [| | | | |op ?| | | | | |]; try done. by destruct op. Qed.
Lemma orig_step_inst F v i v' : orig_step F v = Some (i, v') -> def_of F v = Some i /\ i ∈ all_insts F /\ forall w, def_of F w = Some i -> orig_step F w = Some (i, v').
Proof.
  unfold orig_step. intros H. destruct (def_of F v) as [j|] eqn:E; [|done]. cbn in H.
  assert (j = i) as -> by (destruct (i_kind j) as [| | | | |op ?| | | | | |]; try done; [congruence|destruct op; congruence]). split; [done|]. split.
  - destruct v; try done. cbn [def_of] in E. apply List.find_some in E as [E _]. by apply list_elem_of_In.
  - intros w ->. exact H.
Qed.
(** From where the chain passes an instruction it is the same again. *)
Lemma orig_chain_from F v l r : orig_chain F v l r -> forall l1 i l2 w, l = l1 ++ i :: l2 -> def_of F w = Some i -> orig_chain F w (i :: l2) r.
Proof.
  induction 1 as [v E|v i v' l r E Hc IH]; intros l1 j l2 w El Ew; [by destruct l1|]. destruct l1 as [|k l1]; injection El as -> El; [|by eapply IH].
  subst l. eapply orig_next; [by apply (orig_step_inst F v)|done].
Qed.
Lemma orig_chain_short fuel F : forall v r, get_orig_value fuel F v = Done r -> exists l, orig_chain F v l r /\ NoDup l /\ forall i, i ∈ l -> i ∈ all_insts F.
Proof.
  induction fuel as [|fuel IH]; intros v r E; [done|]. rewrite get_orig_value_step in E. destruct (orig_step F v) as [[i v']|] eqn:Es.
  - destruct (IH v' r E) as (l & Hl & Hn & Hin), (orig_step_inst F v i v' Es) as (Hd & Hi & _).
    destruct (decide (i ∈ l)) as [Hil|Hil].
    + apply list_elem_of_split in Hil as (l1 & l2 & ->). exists (i :: l2). split; [by eapply orig_chain_from|]. split; [|set_solver]. by apply NoDup_app in Hn as (_ & _ & Hn).
    + exists (i :: l). split; [by eapply orig_next|]. split; [by apply NoDup_cons|]. intros j [->|Hj]%elem_of_cons; [done|by apply Hin].
  - apply Done_inj in E as <-. exists []. split; [by apply orig_end|]. split; [by apply NoDup_nil_2|]. by intros i ?%not_elem_of_nil.
Qed.
Lemma orig_chain_ends F v l r : orig_chain F v l r -> forall fuel, (length l < fuel)%nat -> get_orig_value fuel F v = Done r.
Proof.
  induction 1 as [v E|v i v' l r E _ IH]; intros [|fuel] Hf; cbn [length] in Hf; try lia; rewrite get_orig_value_step, E; [done|]. apply IH. lia.
Qed.
Lemma getOrigValue_ends fuel F v r : get_orig_value fuel F v = Done r -> getOrigValue F v = Done r.
Proof.
  intros (l & Hc & Hn & Hl)%orig_chain_short. apply (orig_chain_ends F v l r Hc). pose proof (NoDup_incl_length (proj1 (NoDup_ListNoDup l) Hn) (l' := all_insts F)) as H.
  unfold lt. apply le_n_S, H. intros i. rewrite <- !list_elem_of_In. apply Hl.
Qed.
Definition findBasePointer (F : Function_) (pn : Phi) : outcome (option Value) :=
  let* vals := mapM_out (getOrigValue F) (map fst (phi_incoming pn)) in
  match List.filter (fun pv => negb (is_local (phi_name pn) pv)) vals with
  | [pv] => Done (Some pv)
  | _ => Done None
  end.

Definition put_function (m : Module_) (F : Function_) : Module_ :=
  with_functions m (map (fun G => if String.eqb (f_name G) (f_name F) then F else G) (m_functions m)).
Definition node_of (F : Function_) (v : Value) : node :=
  match v with
  | Local x _ =>
      match List.find (fun p : node * slot => bool_decide (slot_result (snd p) = Some x)) (places_in F) with
      | Some (n, _) => n
      | None => ArgNode (f_name F) x
      end
  | v => ConstantNode v
  end.
Definition phiIsDependent (m : Module_) (F : Function_) (pVal : Value) (phiNode : Phi) : outcome bool :=
  let* (insts, _) := getDependentValues (put_function m F) (node_of F pVal) in
  Done (bool_decide (node_of F (Local (phi_name phiNode) (phi_type phiNode)) ∈ insts)).

(** Uses of [y]: processing a user once puts one of the new values after the other
    in the place of the first operand that is still [y]; a user is processed once
    for each of its uses. *)
Fixpoint set_first (y : string) (v : Value) (l : list Value) : list Value :=
  match l with [] => [] | o :: l => if is_local y o then v :: l else o :: set_first y v l end.
Definition set_operands (y : string) (newInsts : list Value) (l : list Value) : list Value :=
  Nat.iter (length (List.filter (is_local y) l)) (fold_left (fun l v => set_first y v l) newInsts) l.
Definition with_operands (k : inst_kind) (l : list Value) : inst_kind :=
  match k, l with
  | Alloca t _, [s] => Alloca t s
  | Load _, [p] => Load p
  | Store _ _, [v; p] => Store v p
  | GetElementPtr inb _ _, p :: idx => GetElementPtr inb p idx
  | Binary op _ _, [a; b] => Binary op a b
  | Cast op _, [v] => Cast op v
  | ICmp pr _ _, [a; b] => ICmp pr a b
  | Select _ _ _, [c; t; f] => Select c t f
  | Call callee cc _, l => Call (List.last l callee) cc (removelast l)
  | Freeze _, [v] => Freeze v
  | OtherInst _, l => OtherInst l
  | k, _ => k
  end.
Definition with_term_operands (t : Term) (l : list Value) : Term :=
  match t, l with
  | Br _ a b, [c] => Br c a b
  | Ret _, [v] => Ret v
  | Switch _, [v] => Switch v
  | t, _ => t
  end.
Definition update_users (y : string) (newInsts : list Value) (F : Function_) : Function_ :=
  let g := set_operands y newInsts in
  map_blocks (fun b => {|
    bb_name := bb_name b;
    bb_phis := map (fun p => {| phi_name := phi_name p; phi_type := phi_type p;
                                phi_incoming := combine (g (map fst (phi_incoming p))) (map snd (phi_incoming p)) |}) (bb_phis b);
    bb_insts := map (fun i => {| i_name := i_name i; i_type := i_type i; i_kind := with_operands (i_kind i) (g (operands (i_kind i))) |}) (bb_insts b);
    bb_term := with_term_operands (bb_term b) (g (term_operands (bb_term b))) |}) F.

(** In the block of [y], in front of what came first after the phi nodes, where
    [k] instructions have been put already. *)
Definition insert_at (k : nat) (i : Inst) (y : string) (F : Function_) : Function_ :=
  map_blocks (fun b => if has_phi y b then with_insts b (take k (bb_insts b) ++ i :: drop k (bb_insts b)) else b) F.
Definition block_of (F : Function_) (x : string) : option string :=
  bb_name <$> List.find (fun b => has_phi x b || existsb (named x) (bb_insts b)) (f_blocks F).

(** CastInst::CreateZExtOrBitCast and CastInst::CreateIntegerCast, unsigned, to 64
    bits; CastInst::CreatePointerCast. *)
Definition CreateZExtTo64 (v : Value) : outcome inst_kind :=
  match type_of v with
  | TyInt w => if w =? 64 then Done (Cast BitCast v) else if w <? 64 then Done (Cast ZExt v) else AssertFailed "Illegal ZExt"
  | _ => AssertFailed "Illegal ZExt"
  end.
Definition CreateUnsignedCast (v : Value) : outcome inst_kind :=
  match type_of v with
  | TyInt w => Done (Cast (if w =? 64 then BitCast else if 64 <? w then Trunc else ZExt) v)
  | _ => AssertFailed "Invalid integer cast"
  end.
Definition CreatePointerCast (v : Value) (t : ty) : outcome inst_kind :=
  if is_pointer (type_of v) && is_pointer t then Done (Cast BitCast v) else AssertFailed "Invalid cast".

Section pass.
(** The name LLVM makes for a new value; the users of a value that have a result,
    in the order of its uses; the module. *)
Context (fresh : Function_ -> string) (use_list : Function_ -> string -> list string) (m : Module_).

(** A new instruction in front of [ip], and its result. *)
Definition create_before (ip : string) (t : ty) (k : inst_kind) (F : Function_) : Function_ * Value :=
  (put_before (Some ip) [inst (fresh F) t k] F, Local (fresh F) t).
(** The same after the phi nodes of the block of [y]. *)
Definition create_at (j : nat) (y : string) (t : ty) (k : inst_kind) (F : Function_) : Function_ * Value :=
  (insert_at j (inst (fresh F) t k) y F, Local (fresh F) t).

(** The index operand of an incoming value that is a getelementptr. *)
Definition last_index (v initValue : Value) (F : Function_) : outcome (Value * Function_) :=
  match v, i_kind <$> def_of F v with
  | Local p _, Some (GetElementPtr _ _ indices) =>
      let initValue := List.last indices initValue in
      if bool_decide (type_of initValue = i64) then Done (initValue, F) else
      let* k := CreateZExtTo64 initValue in
      let (F, c) := create_before p i64 k F in Done (c, F)
  | _, _ => Done (initValue, F)
  end.
(** The first loop: the index on the way into the loop. The result is the block it
    comes from. *)
Fixpoint init_index (pn : Phi) (n : string) (pBasePtr : Value) (l : list (Value * string)) (initValue : Value) (F : Function_) :
    outcome (option string * Function_) :=
  match l with
  | [] => Done (None, F)
  | (v, pBB) :: l =>
      let* incoming := getOrigValue F v in
      let* dep := phiIsDependent m F incoming pn in
      if negb dep then init_index pn n pBasePtr l initValue F else
      let* (initValue, F) := last_index v initValue F in
      if bool_decide (pBasePtr = incoming) then Done (Some pBB, map_blocks (addIncoming n (initValue, pBB)) F)
      else init_index pn n pBasePtr l initValue F
  end.

(** The second loop, for one user of the phi node: an increment of the index, from
    the block the loop is entered from again. *)
Record phi_users_state := { w_function : Function_; w_omit : list string; w_new : list Value }.
Definition handle_user (pn : Phi) (n : string) (gepiNew : Value) (w : phi_users_state) (u : string) : outcome phi_users_state :=
  let F := w_function w in
  match List.find (named u) (all_insts F) with
  | Some i =>
  let t := i_type i in
  match i_kind i with
  | GetElementPtr _ _ indices =>
      let* dep := phiIsDependent m F (Local u t) pn in
      if negb dep then Done w else
      match indices with
      | [incVal] =>
          let* (F, incVal) :=
            if bool_decide (type_of incVal = i64) then Done (F, incVal)
            else let* k := CreateUnsignedCast incVal in Done (create_before u i64 k F) in
          let (F, add) := create_before u i64 (Binary Add (Local n i64) incVal) F in
          match block_of F n, block_of F u with
          | Some dst, Some src =>
              let* (pred, omit) := findPredecessor F dst src (w_omit w) in
              match pred with
              | None => AssertFailed "Could not find predecessor"
              | Some pred =>
                  let F := map_blocks (addIncoming n (add, pred)) F in
                  let* (F, gepiNew2, newInsts) :=
                    if bool_decide (t = type_of gepiNew) then Done (F, gepiNew, w_new w)
                    else let* k := CreatePointerCast gepiNew t in
                         let (F, c) := create_before u t k F in Done (F, c, w_new w ++ [c]) in
                  Done {| w_function := replace_uses u gepiNew2 F; w_omit := omit; w_new := newInsts |}
              end
          | _, _ => Undefined "an instruction without a block"
          end
      | _ => AssertFailed "Handle the case of more than 2 operands"
      end
  | _ => Done w
  end
  | None => Done w
  end.
Fixpoint handle_users (pn : Phi) (n : string) (gepiNew : Value) (l : list string) (w : phi_users_state) : outcome phi_users_state :=
  match l with [] => Done w | u :: l => let* w := handle_user pn n gepiNew w u in handle_users pn n gepiNew l w end.

(** From the index to the pointer, after the phi nodes. *)
Definition make_pointer (pn : Phi) (n : string) (pBasePtr : Value) (F : Function_) : outcome (Value * Function_) :=
  let y := phi_name pn in
  let* (j, pBasePtr, F) :=
    if bool_decide (type_of pBasePtr = phi_type pn) then Done (O, pBasePtr, F)
    else let* k := CreatePointerCast pBasePtr (phi_type pn) in
         let (F, c) := create_at 0 y (phi_type pn) k F in Done (1%nat, c, F) in
  match type_of pBasePtr with
  | TyPtr elementType =>
      let (F, gepiNew) := create_at j y (TyPtr elementType) (GetElementPtr false pBasePtr [Local n i64]) F in
      if bool_decide (phi_type pn = TyPtr elementType) then Done (gepiNew, F)
      else let* k := CreatePointerCast gepiNew (phi_type pn) in
           let (F, c) := create_at (S j) y (phi_type pn) k F in Done (c, F)
  | _ => AssertFailed "This pass is only for pointer phis, how did we get here???"
  end.
(** handlePHI; the flag is what it returns. *)
Definition handle_pointer_phi (pn : Phi) (F : Function_) : outcome (bool * Function_) :=
  if negb (is_pointer (phi_type pn)) then Done (false, F) else
  let* base := findBasePointer F pn in
  match base with
  | None => Done (false, F)
  | Some pBasePtr =>
      let n := fresh F in
      let F := map_blocks (insert_phi {| phi_name := n; phi_type := i64; phi_incoming := [] |} (phi_name pn)) F in
      let* (entered, F) := init_index pn n pBasePtr (phi_incoming pn) (ConstantInt 64 0) F in
      match entered with
      | None => AssertFailed "Did not find the pointer"
      | Some pBB =>
          let* (gepiNew, F) := make_pointer pn n pBasePtr F in
          let* w := handle_users pn n gepiNew (use_list F (phi_name pn)) {| w_function := F; w_omit := [pBB]; w_new := [gepiNew] |} in
          Done (true, update_users (phi_name pn) (w_new w) (w_function w))
      end
  end.
End pass.

(** ** The pass *)

Section run.
Context (fresh : Function_ -> string) (use_list : Function_ -> string -> list string).
(** The phi nodes of the function are gathered first; one that is handled changes
    the operands of the others. *)
Fixpoint handle_pointer_phis (m : Module_) (l : list string) (s : bool * Function_) : outcome (bool * Function_) :=
  match l with
  | [] => Done s
  | y :: l =>
      match find_phi y (snd s) with
      | Some pn =>
          let* (changed, F) := handle_pointer_phi fresh use_list m pn (snd s) in
          handle_pointer_phis m l (fst s || changed, F)
      | None => Undefined "a phi node"
      end
  end.
Fixpoint remove_pointer_phis (l : list Function_) (s : pass_result) : outcome pass_result :=
  match l with
  | [] => Done s
  | F :: l =>
      let* (changed, F) := handle_pointer_phis (snd s) (map phi_name (all_phis F)) (false, F) in
      remove_pointer_phis l (fst s && negb changed, put_function (snd s) F)
  end.
Definition RemovePointerPHIs (m : Module_) : outcome pass_result := remove_pointer_phis (m_functions m) (true, m).
End run.

(** ** Loops along an array *)

(** The results that use a value, once for each use. *)
Definition all_users (F : Function_) (x : string) : list string :=
  flat_map (fun i => map (fun _ => i_name i) (List.filter (is_local x) (operands (i_kind i)))) (List.filter has_result (all_insts F)).
#[local] Abbreviation i8p := (TyPtr (TyInt 8)).
#[local] Abbreviation ptr x := (Local x i8p).
#[local] Abbreviation i1 := (TyInt 1).
(** What the loop is entered with, its blocks, what leaves it. *)
Definition walking (pre : list Inst) (start : Value) (back : list (Value * string)) (loop : list Block) (body : list Inst) (next : Term) : Function_ := {|
  f_name := "walk"; f_args := [("base", i8p); ("last", i8p)]; f_ret := i8p; f_vararg := false; f_cc := 0; f_sret := false;
  f_available_externally := false; f_intrinsic := None;
  f_blocks := [{| bb_name := "entry"; bb_phis := []; bb_insts := pre; bb_term := Jmp "loop" |};
    {| bb_name := "loop"; bb_phis := [{| phi_name := "p"; phi_type := i8p; phi_incoming := (start, "entry") :: back |}]; bb_insts := body; bb_term := next |}]
    ++ loop ++ [{| bb_name := "exit"; bb_phis := []; bb_insts := []; bb_term := Ret (ptr "p") |}] |}.
Definition advance (x : string) (step : Value) : Inst := inst x i8p (GetElementPtr true (ptr "p") [step]).
Definition simple_walk (pre : list Inst) (start step : Value) (test : inst_kind) : Function_ :=
  walking pre start [(ptr "q", "loop")] [] [advance "q" step; inst "c" i1 test] (Br (Local "c" i1) "exit" "loop").
Definition walk_module (F : Function_) : Module_ := {|
  m_structs := ∅; m_globals := []; m_functions := [F]; m_logicalsignature := None; m_virusnames := None; m_funcmin := None; m_funcmax := None |}.
Definition removed (F : Function_) : option Function_ :=
  match RemovePointerPHIs longer_name all_users (walk_module F) with Done (_, m) => hd_error (m_functions m) | _ => None end.
Definition byte_addresses : Meaning Z unit := address_meaning ∅ (fun _ => None) 8 8 (fun _ => 0).
Definition walk_to (base last : Z) (F : Function_) : option (option Z) :=
  fst <$> run_blocks (M := byte_addresses) ∅ 20 (f_blocks F) "entry" None ({[ "base" := base; "last" := last ]}, ∅, tt).

(** What is returned before and after the pass. *)
Definition compare_walks (base last : Z) (F : Function_) : option (option Z) * option (option Z) :=
  (walk_to base last F, match removed F with Some F' => walk_to base last F' | None => None end).
(** A loop whose test is about the pointer before it is advanced does what it did. *)
Example walk_kept : compare_walks 100 110 (simple_walk [] (ptr "base") (ConstantInt 64 3) (ICmp ICMP_UGE (ptr "p") (ptr "last"))) = (Some (Some 112), Some (Some 112)).
Proof. vm_compute. reflexivity. Qed.
(** Where the test is about the advanced pointer it now sees the pointer before. *)
Lemma loop_one_too_many :
  compare_walks 100 101 (simple_walk [] (ptr "base") (ConstantInt 64 1) (ICmp ICMP_EQ (ptr "q") (ptr "last"))) = (Some (Some 100), Some (Some 101)).
Proof. vm_compute. reflexivity. Qed.
(** A negative step of 32 bits is zero extended. *)
Lemma loop_runs_forward :
  compare_walks 100 0 (simple_walk [] (ptr "base") (ConstantInt 32 (-1)) (ICmp ICMP_NE (ptr "p") (ptr "base"))) = (Some (Some 99), Some (Some (100 + (2 ^ 32 - 1)))).
Proof. vm_compute. reflexivity. Qed.
(** The offset of a getelementptr behind a cast is dropped. *)
Lemma start_is_lost : compare_walks 100 102
  (simple_walk [inst "b" (TyPtr (TyInt 16)) (Cast BitCast (ptr "base")); inst "s" (TyPtr (TyInt 16)) (GetElementPtr true (Local "b" (TyPtr (TyInt 16))) [ConstantInt 64 1]);
     inst "t" i8p (Cast BitCast (Local "s" (TyPtr (TyInt 16))))]
    (ptr "t") (ConstantInt 64 1) (ICmp ICMP_UGE (ptr "p") (ptr "base"))) = (Some (Some 102), Some (Some 100)).
Proof. vm_compute. reflexivity. Qed.
(** Two ways back into the loop: the search from the end of the first way finds the
    second one first, and the steps are exchanged; the step of the second way is
    then used where it has not been computed. *)
Definition two_ways : Function_ :=
  walking [] (ptr "base") [(ptr "q", "test"); (ptr "r", "back")]
    [{| bb_name := "test"; bb_phis := []; bb_insts := [advance "q" (ConstantInt 64 1); inst "d" i1 (ICmp ICMP_EQ (ptr "p") (ptr "base"))]; bb_term := Br (Local "d" i1) "back" "loop" |};
     {| bb_name := "back"; bb_phis := []; bb_insts := [advance "r" (ConstantInt 64 10)]; bb_term := Jmp "loop" |}]
    [inst "c" i1 (ICmp ICMP_UGE (ptr "p") (ptr "last"))] (Br (Local "c" i1) "exit" "test").
Lemma steps_are_exchanged : compare_walks 0 11 two_ways = (Some (Some 11), None).
Proof. vm_compute. reflexivity. Qed.
(** A step that is loaded through another getelementptr of the pointer: that one
    counts as a second step, for which there is no way back into the loop left. *)
Lemma loaded_step_stops : RemovePointerPHIs longer_name all_users (walk_module
  (walking [] (ptr "base") [(ptr "q", "loop")] []
    [advance "s" (ConstantInt 64 4); inst "k" i64 (Load (ptr "s")); advance "q" (Local "k" i64); inst "c" i1 (ICmp ICMP_UGE (ptr "p") (ptr "last"))]
    (Br (Local "c" i1) "exit" "loop"))) = AssertFailed "Could not find predecessor".
Proof. vm_compute. reflexivity. Qed.
