(* ===== verification/PointerLoops.v ===== *)
(** * PointerLoops: a loop along an object, with an index

    What libclambcc/ClamBCRemovePointerPHIs.cpp (RemovePointerPHIs.v) makes of a
    loop it is right about: the pointer starts at an argument or a constant, one
    getelementptr advances it by a step of 64 bits, and the advanced pointer goes
    nowhere but back into the phi node. The pass then succeeds, and the function it
    makes does what the old one did. The proof follows the pass through the stages
    of the function ([stage]) and then runs both functions side by side. *)
From S2P Require Import Prelude IR Semantics Integers SmallPasses ExtendPHIs Lowering LogicalHelper Dependents Dominance RemoveFreeze RemovePointerPHIs RebuildCorrect.
Local Open Scope string_scope.
Local Open Scope list_scope.
Local Open Scope Z_scope.
Local Open Scope outcome_scope.

(** ** The loops

    A phi node [pn] that is entered with [base] and advanced by [iu], which has no
    other use; [b0] and [b1] are the blocks it is entered from. [base] is an
    argument or a constant, and no instruction but [iu] computes another address
    from the phi node. *)
Record pointer_loop (F : Function_) (avail : string -> list string) (pn : Phi) (iu : Inst) (inb : bool) (base step : Value) (t : ty)
    (header bu b0 b1 : string) : Prop := {
  pl_ssa : ssa_check avail F = true;
  pl_header : exists b, b ∈ f_blocks F /\ bb_name b = header /\ pn ∈ bb_phis b;
  pl_advance : exists b, b ∈ f_blocks F /\ bb_name b = bu /\ iu ∈ bb_insts b;
  pl_type : phi_type pn = TyPtr t;
  pl_incoming : phi_incoming pn = [(base, b0); (Local (i_name iu) (TyPtr t), b1)] \/ phi_incoming pn = [(Local (i_name iu) (TyPtr t), b1); (base, b0)];
  pl_entries : b0 <> b1;
  pl_base_type : type_of base = TyPtr t;
  pl_base : match base with Local x _ => x ∈ map fst (f_args F) | _ => True end;
  pl_kind : i_kind iu = GetElementPtr inb (Local (phi_name pn) (TyPtr t)) [step];
  pl_result : i_type iu = TyPtr t;
  pl_step : type_of step = i64;
  pl_operand v : v ∈ all_operands F -> is_local (phi_name pn) v = true -> v = Local (phi_name pn) (TyPtr t);
  pl_unused b p v l : b ∈ f_blocks F -> p ∈ bb_phis b -> (v, l) ∈ phi_incoming p -> is_local (i_name iu) v = true -> p = pn;
  pl_unused_inst i v : i ∈ all_insts F -> v ∈ operands (i_kind i) -> is_local (i_name iu) v = false;
  pl_unused_term b v : b ∈ f_blocks F -> v ∈ term_operands (bb_term b) -> is_local (i_name iu) v = false;
  pl_addresses i inb' p idx : i ∈ all_insts F -> i_kind i = GetElementPtr inb' p idx -> existsb (is_local (phi_name pn)) (p :: idx) = true -> i = iu;
  pl_scope x tx : Local x tx ∈ all_operands F -> x ∈ all_names F;
  pl_callees i callee cc args : i ∈ all_insts F -> i_kind i = Call callee cc args -> is_local (phi_name pn) callee = false;
  pl_void i x : i ∈ all_insts F -> has_result i = false -> i_name i = x -> x ∉ defs F;
  pl_edges l : edge F l header -> l = b0 \/ l = b1;
  pl_back : edge F b1 header;
  pl_path : rtc (edge F) bu b1
}.

Arguments pl_ssa {_ _ _ _ _ _ _ _ _ _ _ _} _.
Arguments pl_header {_ _ _ _ _ _ _ _ _ _ _ _} _.
Arguments pl_advance {_ _ _ _ _ _ _ _ _ _ _ _} _.
Arguments pl_type {_ _ _ _ _ _ _ _ _ _ _ _} _.
Arguments pl_incoming {_ _ _ _ _ _ _ _ _ _ _ _} _.
Arguments pl_entries {_ _ _ _ _ _ _ _ _ _ _ _} _.
Arguments pl_base_type {_ _ _ _ _ _ _ _ _ _ _ _} _.
Arguments pl_base {_ _ _ _ _ _ _ _ _ _ _ _} _.
Arguments pl_kind {_ _ _ _ _ _ _ _ _ _ _ _} _.
Arguments pl_result {_ _ _ _ _ _ _ _ _ _ _ _} _.
Arguments pl_step {_ _ _ _ _ _ _ _ _ _ _ _} _.
Arguments pl_operand {_ _ _ _ _ _ _ _ _ _ _ _} _.
Arguments pl_unused {_ _ _ _ _ _ _ _ _ _ _ _} _.
Arguments pl_unused_inst {_ _ _ _ _ _ _ _ _ _ _ _} _.
Arguments pl_unused_term {_ _ _ _ _ _ _ _ _ _ _ _} _.
Arguments pl_addresses {_ _ _ _ _ _ _ _ _ _ _ _} _.
Arguments pl_scope {_ _ _ _ _ _ _ _ _ _ _ _} _.
Arguments pl_callees {_ _ _ _ _ _ _ _ _ _ _ _} _.
Arguments pl_void {_ _ _ _ _ _ _ _ _ _ _ _} _.
Arguments pl_edges {_ _ _ _ _ _ _ _ _ _ _ _} _.
Arguments pl_back {_ _ _ _ _ _ _ _ _ _ _ _} _.
Arguments pl_path {_ _ _ _ _ _ _ _ _ _ _ _} _.

(** The blocks while the pass is at it: the values of the index, what is put into
    the header, and in front of [iu]. *)
Definition index_phi (n : string) (inc : list (Value * string)) : Phi := {| phi_name := n; phi_type := i64; phi_incoming := inc |}.
Definition stage_phis (y n : string) (inc : list (Value * string)) (p : Phi) : list Phi := if is_phi_of y p then [index_phi n inc; p] else [p].
Definition stage_insts (u : string) (ad : list Inst) (i : Inst) : list Inst := if named u i then ad ++ [i] else [i].
Definition stage_block (y n u : string) (inc : list (Value * string)) (hd ad : list Inst) (b : Block) : Block :=
  {| bb_name := bb_name b; bb_phis := flat_map (stage_phis y n inc) (bb_phis b);
     bb_insts := (if has_phi y b then hd else []) ++ flat_map (stage_insts u ad) (bb_insts b); bb_term := bb_term b |}.
Definition stage (F : Function_) (y n u : string) inc hd ad : Function_ := map_blocks (stage_block y n u inc hd ad) F.

Lemma find_only {A} (P : A -> bool) l a : a ∈ l -> P a = true -> (forall x, x ∈ l -> P x = true -> x = a) -> List.find P l = Some a.
Proof.
  intros Ha Hp Hu. destruct (List.find P l) as [x|] eqn:E.
  - apply List.find_some in E as [E1 E2]. f_equal. apply Hu; [by apply list_elem_of_In|done].
  - exfalso. apply list_elem_of_In in Ha. pose proof (List.find_none _ _ E a Ha). congruence.
Qed.
Lemma find_nothing {A} (P : A -> bool) l : (forall x, x ∈ l -> P x = false) -> List.find P l = None.
Proof.
  intros H. destruct (List.find P l) as [x|] eqn:E; [|done]. exfalso. apply List.find_some in E as [E1 E2]. rewrite H in E2; [done|by apply list_elem_of_In].
Qed.

Lemma find_determined {A B} (P : A -> bool) (f : A -> B) l a c : a ∈ l -> P a = true -> (forall x, x ∈ l -> P x = true -> f x = c) -> exists x, List.find P l = Some x /\ x ∈ l /\ P x = true /\ f x = c.
Proof.
  intros Ha Hp Hu. destruct (List.find P l) as [x|] eqn:E.
  - apply List.find_some in E as [E1 E2]. apply list_elem_of_In in E1. exists x. naive_solver.
  - exfalso. apply list_elem_of_In in Ha. pose proof (List.find_none _ _ E a Ha). congruence.
Qed.

(** *** Places *)

Lemma places_in_elem G x s : (x, s) ∈ places_in G <-> exists b k, b ∈ f_blocks G /\ slots_of b !! k = Some s /\ x = InstNode (f_name G) (bb_name b) k.
Proof.
  unfold places_in. rewrite elem_of_flat_map. unfold numbered. setoid_rewrite elem_of_lookup_imap. split.
  - intros (b & Hb & k & s0 & [= -> ->] & Hs). by exists b, k.
  - intros (b & k & Hb & Hs & ->). exists b. split; [done|]. by exists k, s.
Qed.
Section places.
Context (m : Module_) (S : Function_) (Hm : f_name S ∈ map f_name (m_functions m)) (Hnames : NoDup (map f_name (m_functions m))) (Hblocks : NoDup (map bb_name (f_blocks S))).
Abbreviation m' := (put_function m S).
Lemma put_function_names : map f_name (m_functions m') = map f_name (m_functions m).
Proof. unfold put_function. cbn [m_functions with_functions]. rewrite map_map. apply map_ext. intros G. by destruct (String.eqb_spec (f_name G) (f_name S)). Qed.
Lemma put_in : S ∈ m_functions m'.
Proof.
  apply list_elem_of_In, in_map_iff in Hm as (G & E & HG). unfold put_function. cbn [m_functions with_functions]. apply list_elem_of_In, in_map_iff. exists G.
  by rewrite E, String.eqb_refl.
Qed.
Lemma put_only G : G ∈ m_functions m' -> f_name G = f_name S -> G = S.
Proof. intros HG E. apply (NoDup_map_eq f_name (m_functions m')); [by rewrite put_function_names|done|apply put_in|done]. Qed.
Lemma place_slot x s s' : (x, s) ∈ places_in S -> (x, s') ∈ places m' -> s' = s.
Proof.
  intros (b & k & Hb & Hs & ->)%places_in_elem (G & HG & (b' & k' & Hb' & Hs' & E)%places_in_elem)%elem_of_flat_map. injection E as E1 E2 ->.
  assert (G = S) as -> by (by apply put_only). assert (b' = b) as -> by (by apply (NoDup_map_eq bb_name (f_blocks S))). congruence.
Qed.
Lemma place_result x s : (x, s) ∈ places_in S -> result_at m' x = slot_result s.
Proof.
  intros Hx. unfold result_at. assert (Hin : (x, s) ∈ places m') by (apply elem_of_flat_map; exists S; split; [apply put_in|done]).
  destruct (find_determined (fun p : node * slot => bool_decide (fst p = x)) snd (places m') (x, s) s) as ([x' s'] & -> & _ & _ & E).
  - done.
  - by apply bool_decide_eq_true.
  - intros [x' s'] Hx' E. apply bool_decide_eq_true in E. cbn [fst snd] in *. subst x'. by eapply place_slot.
  - by cbn [snd] in E; subst s'.
Qed.
(** A use is a dependence. *)
Lemma place_used x s z : (x, s) ∈ places_in S -> existsb (is_local z) (slot_operands s) = true -> x ∈ uses_of_local m' (f_name S) z.
Proof.
  intros Hx Hz. unfold uses_of_local. apply elem_of_flat_map. exists S. split; [apply put_in|]. rewrite String.eqb_refl. apply (list_elem_of_fmap_2' fst _ (x, s)); [|done].
  apply list_elem_of_In, filter_In. by rewrite <- list_elem_of_In.
Qed.
Lemma direct_use pv x : x ∈ users m' pv -> is_inst x = true -> x <> pv -> exists insts globs, getDependentValues m' pv = Done (insts, globs) /\ x ∈ insts.
Proof.
  intros Hx Hi Hne. destruct (getDependentValues_finds m' pv) as (insts & globs & E & _ & Hin & _). exists insts, globs. split; [done|]. apply Hin.
  split; [done|]. split; [done|]. apply rtc_once. unfold depends, follows_from. rewrite bool_decide_true by done. done.
Qed.
End places.

Section stages.
Context (F : Function_) (avail : string -> list string) (pn : Phi) (iu : Inst) (inb : bool) (base step : Value) (t : ty) (header bu b0 b1 : string).
Context (PL : pointer_loop F avail pn iu inb base step t header bu b0 b1).
Abbreviation y := (phi_name pn).
Abbreviation u := (i_name iu).
Lemma loop_unique : NoDup (map fst (f_args F) ++ flat_map block_defs (f_blocks F)) /\ NoDup (map bb_name (f_blocks F)).
Proof. destruct (ssa_check_spec avail F (pl_ssa PL)) as (H1 & H2 & _). by split. Qed.
Lemma same_def_block b b' x : b ∈ f_blocks F -> b' ∈ f_blocks F -> x ∈ block_defs b -> x ∈ block_defs b' -> b = b'.
Proof. destruct loop_unique as [Hd _]. apply NoDup_app in Hd as (_ & _ & Hd). by apply NoDup_flat_map_eq. Qed.
Lemma arg_not_defined b x : b ∈ f_blocks F -> x ∈ block_defs b -> x ∉ map fst (f_args F).
Proof. destruct loop_unique as [Hd _]. apply NoDup_app in Hd as (_ & Hd & _). intros Hb Hx Ha. apply (Hd x Ha). apply elem_of_flat_map. by exists b. Qed.
Lemma block_nodup b : b ∈ f_blocks F -> NoDup (map phi_name (bb_phis b) ++ results (bb_insts b)).
Proof.
  destruct loop_unique as [Hd _]. apply NoDup_app in Hd as (_ & _ & Hd). induction (f_blocks F) as [|c bs IH]; intros Hb; [by apply not_elem_of_nil in Hb|].
  cbn [flat_map] in Hd. apply NoDup_app in Hd as (H1 & _ & H2). apply elem_of_cons in Hb as [->|Hb]; [done|]. by apply IH.
Qed.
Lemma result_in b i : i ∈ bb_insts b -> has_result i = true -> i_name i ∈ results (bb_insts b).
Proof. intros Hi Hr. unfold results. apply list_elem_of_fmap_2, list_elem_of_In, filter_In. split; [by apply list_elem_of_In|done]. Qed.
Lemma result_defined b i : i ∈ bb_insts b -> has_result i = true -> i_name i ∈ block_defs b.
Proof. intros. apply elem_of_app. right. by apply result_in. Qed.
Lemma phi_defined b p : p ∈ bb_phis b -> phi_name p ∈ block_defs b.
Proof. intros. apply elem_of_app. left. by apply list_elem_of_fmap_2. Qed.
Lemma same_result b b' i i' : b ∈ f_blocks F -> b' ∈ f_blocks F -> i ∈ bb_insts b -> i' ∈ bb_insts b' -> has_result i = true -> has_result i' = true -> i_name i = i_name i' -> i = i'.
Proof.
  intros Hb Hb' Hi Hi' Hr Hr' E. assert (b = b') as <- by (apply (same_def_block b b' (i_name i)); [done|done|by apply result_defined|rewrite E; by apply result_defined]).
  pose proof (block_nodup b Hb) as Hn. apply NoDup_app in Hn as (_ & _ & Hn). unfold results in Hn.
  apply (NoDup_map_eq i_name (List.filter has_result (bb_insts b))); [done|..|done]; apply list_elem_of_In, filter_In; by rewrite <- list_elem_of_In.
Qed.
Lemma same_phi b p : b ∈ f_blocks F -> p ∈ bb_phis b -> phi_name p = y -> p = pn.
Proof.
  intros Hb Hp E. destruct (pl_header PL) as (b' & Hb' & _ & Hp').
  assert (b = b') as <- by (apply (same_def_block b b' y); [done|done|rewrite <- E; by apply phi_defined|by apply phi_defined]).
  pose proof (block_nodup b Hb) as Hn. apply NoDup_app in Hn as (Hn & _). by apply (NoDup_map_eq phi_name (bb_phis b)).
Qed.
Lemma phi_not_result b b' p i : b ∈ f_blocks F -> b' ∈ f_blocks F -> p ∈ bb_phis b -> i ∈ bb_insts b' -> has_result i = true -> phi_name p <> i_name i.
Proof.
  intros Hb Hb' Hp Hi Hr E. assert (b = b') as <- by (apply (same_def_block b b' (phi_name p)); [done|done|by apply phi_defined|rewrite E; by apply result_defined]).
  pose proof (block_nodup b Hb) as Hn. apply NoDup_app in Hn as (_ & Hn & _). apply (Hn (phi_name p)); [by apply list_elem_of_fmap_2|rewrite E; by apply result_in].
Qed.
Lemma advance_result : has_result iu = true.
Proof. unfold has_result. by rewrite (pl_result PL). Qed.
Lemma y_defs : y ∈ defs F.
Proof. destruct (pl_header PL) as (b & Hb & _ & Hp). apply elem_of_app. right. apply elem_of_flat_map. exists b. split; [done|by apply phi_defined]. Qed.
Lemma u_defs : u ∈ defs F.
Proof.
  destruct (pl_advance PL) as (b & Hb & _ & Hi). apply elem_of_app. right. apply elem_of_flat_map. exists b. split; [done|].
  apply result_defined; [done|apply advance_result].
Qed.
Lemma y_not_u : y <> u.
Proof.
  destruct (pl_header PL) as (b & Hb & _ & Hp), (pl_advance PL) as (b' & Hb' & _ & Hi).
  by apply (phi_not_result b b'); [..|apply advance_result].
Qed.
(** The only instruction with the name of the step. *)
Lemma only_advance i : i ∈ all_insts F -> i_name i = u -> i = iu.
Proof.
  intros Hi E. destruct (pl_advance PL) as (b' & Hb' & _ & Hi'). destruct (has_result i) eqn:Er.
  - apply elem_of_flat_map in Hi as (b & Hb & Hi). by apply (same_result b b'); [..|apply advance_result|].
  - exfalso. by apply (pl_void PL i u Hi Er E), u_defs.
Qed.
Lemma no_inst_y i : i ∈ all_insts F -> i_name i <> y.
Proof.
  intros Hi E. destruct (pl_header PL) as (b' & Hb' & _ & Hp). destruct (has_result i) eqn:Er.
  - apply elem_of_flat_map in Hi as (b & Hb & Hi). by apply (phi_not_result b' b pn i).
  - by apply (pl_void PL i y Hi Er E), y_defs.
Qed.
Lemma no_inst_arg i x : x ∈ map fst (f_args F) -> i ∈ all_insts F -> i_name i <> x.
Proof.
  intros Hx Hi E. destruct (has_result i) eqn:Er.
  - apply elem_of_flat_map in Hi as (b & Hb & Hi). apply (arg_not_defined b x Hb); [|done]. rewrite <- E. by apply result_defined.
  - apply (pl_void PL i x Hi Er E). apply elem_of_app. by left.
Qed.
Lemma base_not_defined b z : b ∈ f_blocks F -> z ∈ block_defs b -> is_local z base = false.
Proof.
  intros Hb Hz. pose proof (pl_base PL) as Ha. revert Ha. generalize base. intros v Ha. destruct v as [x tx| | | | | | | | | | | |]; try done.
  cbn [is_local]. apply String.eqb_neq. intros <-. by apply (arg_not_defined b z Hb Hz).
Qed.
Lemma base_not_y : is_local y base = false.
Proof. destruct (pl_header PL) as (b & Hb & _ & Hp). apply (base_not_defined b); [done|by apply phi_defined]. Qed.
Lemma base_not_u : is_local u base = false.
Proof. destruct (pl_advance PL) as (b & Hb & _ & Hi). apply (base_not_defined b); [done|apply result_defined; [done|apply advance_result]]. Qed.
Lemma named_u i : i ∈ all_insts F -> named u i = true <-> i = iu.
Proof.
  intros Hi. unfold named. split.
  - intros [_ E%String.eqb_eq]%andb_true_iff. by apply only_advance.
  - intros ->. rewrite String.eqb_refl, andb_true_r. apply advance_result.
Qed.

(** *** The function at a stage *)

Context (n : string) (inc : list (Value * string)) (hd ad : list Inst).
Context (Hnew : n ∉ all_names F) (Hhd : forall i, i ∈ hd -> i_name i ∉ all_names F /\ has_result i = true) (Had : forall i, i ∈ ad -> i_name i ∉ all_names F /\ has_result i = true).
Abbreviation stage_b := (stage_block y n u inc hd ad).
Abbreviation S := (stage F y n u inc hd ad).
Lemma stage_find_bb l : find_bb (f_blocks S) l = stage_b <$> find_bb (f_blocks F) l.
Proof. unfold stage, map_blocks. cbn [f_blocks with_blocks]. unfold find_bb. induction (f_blocks F) as [|b bs IH]; [done|]. cbn [map List.find stage_block bb_name]. by destruct (String.eqb (bb_name b) l). Qed.
Lemma stage_branches l : branches S l = branches F l.
Proof. unfold branches, findBranch. rewrite stage_find_bb. by destruct (find_bb (f_blocks F) l). Qed.
Lemma stage_block_in b : b ∈ f_blocks F -> stage_b b ∈ f_blocks S.
Proof. intros Hb. unfold stage, map_blocks. cbn [f_blocks with_blocks]. by apply list_elem_of_fmap_2. Qed.
Lemma stage_blocks_inv b' : b' ∈ f_blocks S -> exists b, b ∈ f_blocks F /\ b' = stage_b b.
Proof. unfold stage, map_blocks. cbn [f_blocks with_blocks]. intros (b & -> & Hb)%list_elem_of_fmap. by exists b. Qed.
Lemma stage_insts_elem b i : i ∈ bb_insts (stage_b b) -> i ∈ bb_insts b \/ i ∈ hd \/ i ∈ ad.
Proof.
  cbn [stage_block bb_insts]. intros [Hi|Hi]%elem_of_app.
  - destruct (has_phi y b); [naive_solver|by apply not_elem_of_nil in Hi].
  - apply elem_of_flat_map in Hi as (j & Hj & Hi). unfold stage_insts in Hi. destruct (named u j); [apply elem_of_app in Hi as [Hi|Hi]; [naive_solver|]|];
      apply list_elem_of_singleton in Hi as ->; by left.
Qed.
Lemma stage_insts_keep b i : i ∈ bb_insts b -> i ∈ bb_insts (stage_b b).
Proof.
  intros Hi. cbn [stage_block bb_insts]. apply elem_of_app. right. apply elem_of_flat_map. exists i. split; [done|]. unfold stage_insts.
  destruct (named u i); [apply elem_of_app; right|]; by left.
Qed.
Lemma stage_all_insts i : i ∈ all_insts S -> i ∈ all_insts F \/ i ∈ hd \/ i ∈ ad.
Proof.
  unfold all_insts. intros (b' & Hb' & Hi)%elem_of_flat_map. apply stage_blocks_inv in Hb' as (b & Hb & ->). apply stage_insts_elem in Hi as [Hi|Hi]; [|by right].
  left. apply elem_of_flat_map. by exists b.
Qed.
Lemma stage_all_insts_keep i : i ∈ all_insts F -> i ∈ all_insts S.
Proof. unfold all_insts. rewrite !elem_of_flat_map. intros (b & Hb & Hi). exists (stage_b b). split; [by apply stage_block_in|by apply stage_insts_keep]. Qed.
Lemma in_all_names x i : i ∈ all_insts F -> i_name i = x -> x ∈ all_names F.
Proof. intros (b & Hb & Hi)%elem_of_flat_map E. apply all_names_elem. right. exists b. split; [done|]. right. by exists i. Qed.
Lemma stage_new_inst i x : i ∈ hd \/ i ∈ ad -> i_name i = x -> x ∉ all_names F.
Proof. intros [Hi|Hi] <-; [by apply Hhd|by apply Had]. Qed.
Lemma defs_names x : x ∈ defs F -> x ∈ all_names F.
Proof.
  unfold defs. intros [Hx|(b & Hb & Hx)%elem_of_flat_map]%elem_of_app; apply all_names_elem; [by left|right]. exists b. split; [done|].
  apply elem_of_app in Hx as [Hx|Hx]; [left|right]; apply list_elem_of_fmap in Hx as (z & -> & Hz); exists z; split; try done. apply list_elem_of_In, filter_In in Hz as [Hz _]. by apply list_elem_of_In.
Qed.
(** The names of the function stand for what they did. *)
Lemma stage_find P x : x ∈ all_names F -> (forall i, P i = true -> i_name i = x) -> List.find P (all_insts F) = None -> List.find P (all_insts S) = None.
Proof.
  intros Hx HP E. apply find_nothing. intros i Hi. destruct (P i) eqn:Ep; [|done]. exfalso. apply stage_all_insts in Hi as [Hi|Hi].
  - apply list_elem_of_In in Hi. by rewrite (List.find_none _ _ E i Hi) in Ep.
  - by apply (stage_new_inst i x) in Hi; [|apply HP].
Qed.
Lemma stage_find_u P : P iu = true -> (forall i, P i = true -> i_name i = u) -> List.find P (all_insts S) = Some iu.
Proof.
  intros Hu HP. assert (Hin : iu ∈ all_insts F) by (destruct (pl_advance PL) as (b & Hb & _ & Hi); apply elem_of_flat_map; by exists b).
  apply find_only; [by apply stage_all_insts_keep|done|]. intros i Hi Ep. apply HP in Ep. apply stage_all_insts in Hi as [Hi|Hi]; [by apply only_advance|].
  exfalso. apply (stage_new_inst i u Hi Ep). by eapply in_all_names.
Qed.
Lemma stage_def_u ty0 : def_of S (Local u ty0) = Some iu.
Proof. cbn [def_of]. apply stage_find_u; [apply String.eqb_refl|]. intros i. apply String.eqb_eq. Qed.
Lemma stage_def_y ty0 : def_of S (Local y ty0) = None.
Proof.
  cbn [def_of]. apply (stage_find _ y); [apply defs_names, y_defs|intros i; apply String.eqb_eq|]. apply find_nothing. intros i Hi. apply String.eqb_neq. by apply no_inst_y.
Qed.
Lemma stage_def_base : def_of S base = None.
Proof.
  pose proof (pl_base PL) as Ha. revert Ha. generalize base. intros v Ha. destruct v as [x tx| | | | | | | | | | | |]; try done. cbn [def_of].
  apply (stage_find _ x); [apply all_names_elem; by left|intros i; apply String.eqb_eq|]. apply find_nothing. intros i Hi. apply String.eqb_neq. by apply no_inst_arg.
Qed.
Lemma insts_exist : exists k, length (all_insts S) = Datatypes.S k.
Proof.
  assert (Hin : iu ∈ all_insts S) by (apply stage_all_insts_keep; destruct (pl_advance PL) as (b & Hb & _ & Hi); apply elem_of_flat_map; by exists b).
  destruct (all_insts S) as [|i l]; [by apply not_elem_of_nil in Hin|]. by eexists.
Qed.
Lemma stage_orig_base : getOrigValue S base = Done base.
Proof. unfold getOrigValue. cbn [get_orig_value]. by rewrite stage_def_base. Qed.
Lemma stage_orig_y ty0 : getOrigValue S (Local y ty0) = Done (Local y ty0).
Proof. unfold getOrigValue. cbn [get_orig_value]. by rewrite stage_def_y. Qed.
Lemma stage_orig_u ty0 : getOrigValue S (Local u ty0) = Done (Local y (TyPtr t)).
Proof.
  unfold getOrigValue. destruct insts_exist as (k & ->). cbn [get_orig_value]. rewrite stage_def_u. cbn [fmap option_fmap option_map]. rewrite (pl_kind PL).
  cbn [get_orig_value]. by rewrite stage_def_y.
Qed.

(** What the phi node depends on directly. *)
Lemma stage_slots b s : b ∈ f_blocks F -> s ∈ slots_of (stage_b b) -> (exists p, s = SPhi p /\ (p ∈ bb_phis b \/ p = index_phi n inc)) \/ (exists i, s = SInst i /\ (i ∈ bb_insts b \/ i ∈ hd \/ i ∈ ad)) \/ s = STerm (bb_term b).
Proof.
  intros Hb. unfold slots_of. rewrite !elem_of_app. intros [Hs|[Hs|Hs]].
  - left. apply list_elem_of_fmap in Hs as (p & -> & Hp). exists p. split; [done|]. cbn [stage_block bb_phis] in Hp. apply elem_of_flat_map in Hp as (q & Hq & Hp).
    unfold stage_phis in Hp. destruct (is_phi_of y q); set_solver.
  - right. left. apply list_elem_of_fmap in Hs as (i & -> & Hi). exists i. split; [done|]. by apply stage_insts_elem.
  - right. right. by apply list_elem_of_singleton in Hs.
Qed.
Lemma stage_places x s : (x, s) ∈ places_in S -> exists b, b ∈ f_blocks F /\ s ∈ slots_of (stage_b b).
Proof.
  intros (b' & k & Hb' & Hs & _)%places_in_elem. apply stage_blocks_inv in Hb' as (b & Hb & ->). exists b. split; [done|]. by eapply list_elem_of_lookup_2.
Qed.
Lemma stage_result_old x s z : (x, s) ∈ places_in S -> slot_result s = Some z -> z ∈ all_names F ->
  exists b, b ∈ f_blocks F /\ z ∈ block_defs b /\ ((exists p, s = SPhi p /\ p ∈ bb_phis b /\ phi_name p = z) \/ (exists i, s = SInst i /\ i ∈ bb_insts b /\ has_result i = true /\ i_name i = z)).
Proof.
  intros (b & Hb & Hs)%stage_places Hz Hn. exists b. split; [done|]. destruct (stage_slots b s Hb Hs) as [(p & -> & Hp)|[(i & -> & Hi)| ->]]; [..|done]; cbn [slot_result] in Hz.
  - injection Hz as <-. destruct Hp as [Hp| ->]; [|done]. split; [by apply phi_defined|]. left. by exists p.
  - assert (has_result i = true /\ i_name i = z) as [Hr E] by (unfold has_result; destruct (i_type i); split; congruence).
    destruct Hi as [Hi|Hi]; [|by apply (stage_new_inst i z) in Hi]. split; [rewrite <- E; by apply result_defined|]. right. by exists i.
Qed.
Lemma stage_pn : exists x, node_of S (Local y (phi_type pn)) = x /\ is_inst x = true /\ (x, SPhi pn) ∈ places_in S.
Proof.
  destruct (pl_header PL) as (b & Hb & _ & Hp).
  assert (Hslot : SPhi pn ∈ slots_of (stage_b b)).
  { unfold slots_of. apply elem_of_app. left. apply list_elem_of_fmap_2. cbn [stage_block bb_phis]. apply elem_of_flat_map. exists pn. split; [done|].
    unfold stage_phis. destruct (is_phi_of y pn); [right|]; by left. }
  apply list_elem_of_lookup in Hslot as (k & Hk).
  assert (Hin : (InstNode (f_name S) (bb_name (stage_b b)) k, SPhi pn) ∈ places_in S) by (apply places_in_elem; exists (stage_b b), k; split; [by apply stage_block_in|done]).
  cbn [node_of]. destruct (find_determined (fun p : node * slot => bool_decide (slot_result (snd p) = Some y)) snd (places_in S) _ (SPhi pn) Hin) as ([x s] & -> & Hx & _ & E).
  - by apply bool_decide_eq_true.
  - intros [x s] Hx E. apply bool_decide_eq_true in E. cbn [snd] in *. destruct (stage_result_old x s y Hx E (defs_names _ y_defs)) as (b' & Hb' & _ & [(p & -> & Hp' & Ep)|(i & -> & Hi & _ & Ei)]).
    + f_equal. by apply (same_phi b').
    + exfalso. eapply no_inst_y; [|exact Ei]. apply elem_of_flat_map. by exists b'.
  - cbn [snd] in E. subst s. exists x. split; [done|]. split; [|done]. apply places_in_elem in Hx as (? & ? & _ & _ & ->). done.
Qed.
Lemma stage_bb_names : map bb_name (f_blocks S) = map bb_name (f_blocks F).
Proof. unfold stage, map_blocks. cbn [f_blocks with_blocks]. by rewrite map_map. Qed.
(** The blocks of the index and of the step. *)
Lemma stage_block_of_u : block_of S u = Some bu.
Proof.
  destruct (pl_advance PL) as (b & Hb & Eb & Hi). unfold block_of.
  destruct (find_determined (fun b => has_phi u b || existsb (named u) (bb_insts b)) bb_name (f_blocks S) (stage_b b) bu) as (b' & -> & _ & _ & E); [by apply stage_block_in|..|by cbn; rewrite E].
  - apply orb_true_iff. right. apply existsb_exists. exists iu. split; [apply list_elem_of_In; by apply stage_insts_keep|]. apply named_u; [|done]. apply elem_of_flat_map. by exists b.
  - intros b' Hb' E. apply stage_blocks_inv in Hb' as (b2 & Hb2 & ->). rewrite <- Eb. cbn [stage_block bb_name]. f_equal. apply (same_def_block b2 b u Hb2 Hb); [|apply result_defined; [done|apply advance_result]].
    apply orb_true_iff in E as [(p & Hp & Ep)%has_phi_elem|(i & Hi2 & Ei)%existsb_exists].
    + cbn [stage_block bb_phis] in Hp. apply elem_of_flat_map in Hp as (q & Hq & Hp). unfold stage_phis in Hp.
      assert (p = index_phi n inc \/ p = q) as [->| ->] by (destruct (is_phi_of y q); set_solver); [|rewrite <- Ep; by apply phi_defined].
      cbn [index_phi phi_name] in Ep. subst n. exfalso. apply Hnew, defs_names, u_defs.
    + apply list_elem_of_In in Hi2. unfold named in Ei. apply andb_true_iff in Ei as [Er Ei]. apply String.eqb_eq in Ei. apply stage_insts_elem in Hi2 as [Hi2|Hi2].
      * rewrite <- Ei. by apply result_defined.
      * exfalso. apply (stage_new_inst i u Hi2 Ei), defs_names, u_defs.
Qed.
Lemma stage_block_of_n : (forall i, i ∈ hd \/ i ∈ ad -> i_name i <> n) -> block_of S n = Some header.
Proof.
  intros Hdist. destruct (pl_header PL) as (b & Hb & Eb & Hp). unfold block_of.
  destruct (find_determined (fun b => has_phi n b || existsb (named n) (bb_insts b)) bb_name (f_blocks S) (stage_b b) header) as (b' & -> & _ & _ & E); [by apply stage_block_in|..|by cbn; rewrite E].
  - apply orb_true_iff. left. apply has_phi_elem. exists (index_phi n inc). split; [|done]. cbn [stage_block bb_phis]. apply elem_of_flat_map. exists pn. split; [done|].
    unfold stage_phis, is_phi_of. rewrite String.eqb_refl. by left.
  - intros b' Hb' E. apply stage_blocks_inv in Hb' as (b2 & Hb2 & ->). rewrite <- Eb. cbn [stage_block bb_name]. f_equal.
    apply orb_true_iff in E as [(p & Hp2 & Ep)%has_phi_elem|(i & Hi2 & Ei)%existsb_exists].
    + cbn [stage_block bb_phis] in Hp2. apply elem_of_flat_map in Hp2 as (q & Hq & Hp2). unfold stage_phis in Hp2. destruct (is_phi_of y q) eqn:Eq.
      * apply String.eqb_eq in Eq. apply (same_def_block b2 b y Hb2 Hb); [rewrite <- Eq|]; by apply phi_defined.
      * apply list_elem_of_singleton in Hp2 as ->. exfalso. apply Hnew. apply all_names_elem. right. exists b2. split; [done|]. left. by exists q.
    + apply list_elem_of_In in Hi2. unfold named in Ei. apply andb_true_iff in Ei as [Er Ei]. apply String.eqb_eq in Ei. apply stage_insts_elem in Hi2 as [Hi2|Hi2].
      * exfalso. apply Hnew. apply (in_all_names n i); [|done]. apply elem_of_flat_map. by exists b2.
      * exfalso. by apply (Hdist i).
Qed.
Lemma stage_predecessor : exists omit, findPredecessor S header bu [b0] = Done (Some b1, omit).
Proof.
  assert (He : forall a b, edge S a b <-> edge F a b) by (intros; unfold edge; by rewrite stage_branches).
  assert (Hrtc : forall a b, rtc (edge S) a b <-> rtc (edge F) a b) by (intros; split; apply rtc_congruence with (f := id); intros; by apply He).
  destruct (findPredecessor_finds S header [b0] bu) as ([res omit] & E & Hr). cbn [fst snd] in Hr. exists omit. rewrite E. destruct res as [p|].
  - destruct Hr as (_ & [Hp Ho] & _). apply He, (pl_edges PL) in Hp as [-> | ->]; [|done]. exfalso. apply Ho. by left.
  - destruct Hr as [Hr _]. exfalso. apply (Hr b1); [apply Hrtc, (pl_path PL)|]. split; [apply He, (pl_back PL)|].
    intros ->%list_elem_of_singleton. by apply (pl_entries PL).
Qed.
Context (m : Module_) (Hm : f_name F ∈ map f_name (m_functions m)) (Hnames : NoDup (map f_name (m_functions m))).
Lemma stage_dependent v l : (v, l) ∈ phi_incoming pn -> is_local y v = false -> phiIsDependent m S v pn = Done true.
Proof.
  intros Hv Hy. destruct stage_pn as (x & Ex & Hinst & Hx). unfold phiIsDependent.
  assert (Hbl : NoDup (map bb_name (f_blocks S))) by (rewrite stage_bb_names; apply loop_unique).
  assert (Huse : x ∈ users (put_function m S) (node_of S v) /\ x <> node_of S v).
  { assert (Hop : v ∈ slot_operands (SPhi pn)) by (cbn [slot_operands]; by apply (list_elem_of_fmap_2' fst _ (v, l))).
    assert (Hloc : forall z tz, v = Local z tz -> existsb (is_local z) (slot_operands (SPhi pn)) = true).
    { intros z tz ->. apply existsb_exists. exists (Local z tz). split; [by apply list_elem_of_In|apply String.eqb_refl]. }
    destruct v as [z tz|c1 c2|c1 c2|c1 c2|c1 c2 c3|c1|c1|c1|c1 c2|c1 c2|c1 c2|c1|c1]; cbn [node_of].
    2-13: split; [cbn [users]; apply elem_of_app; left; apply (list_elem_of_fmap_2' fst _ (x, SPhi pn)); [|done]; apply list_elem_of_In, filter_In; split;
      [apply list_elem_of_In, elem_of_flat_map; exists S; split; [by apply put_in|done]|by apply bool_decide_eq_true]|by destruct x].
    cbn [is_local] in Hy. destruct (List.find _ (places_in S)) as [[x' s]|] eqn:Ef.
    - apply List.find_some in Ef as [Hx' Es]. apply list_elem_of_In in Hx'. apply bool_decide_eq_true in Es. cbn [snd] in Es.
      pose proof Hx' as (b' & k' & _ & _ & E')%places_in_elem. split.
      + pose proof (place_result m S Hm Hnames Hbl x' s Hx') as Er. rewrite E' in *. cbn [users]. rewrite Er, Es. by apply (place_used m S Hm x (SPhi pn)); [..|eapply Hloc].
      + intros ->. assert (s = SPhi pn) as ->.
        { apply (place_slot m S Hm Hnames Hbl x'); [done|]. apply elem_of_flat_map. exists S. split; [by apply put_in|done]. }
        cbn [slot_result] in Es. injection Es as Es. by rewrite Es, String.eqb_refl in Hy.
    - split; [|by destruct x]. cbn [users]. by apply (place_used m S Hm x (SPhi pn)); [..|eapply Hloc]. }
  destruct Huse as [Huse Hne]. destruct (direct_use m S (node_of S v) x Huse Hinst Hne) as (insts & globs & -> & Hin). cbn [obind]. f_equal. apply bool_decide_eq_true. by rewrite Ex.
Qed.
Lemma stage_independent : phiIsDependent m S (Local y (TyPtr t)) pn = Done false.
Proof.
  unfold phiIsDependent. destruct (getDependentValues_finds (put_function m S) (node_of S (Local y (TyPtr t)))) as (insts & globs & -> & _ & Hin & _). cbn [obind]. f_equal.
  apply bool_decide_eq_false. rewrite (pl_type PL), Hin. by intros (_ & Hn & _).
Qed.

End stages.

(** *** The steps of the pass *)

Definition redirect (y u : string) (v : Value) (o : Value) : Value := replace_value y v (replace_value u v o).
Definition map_block_operands (g : Value -> Value) (b : Block) : Block :=
  {| bb_name := bb_name b; bb_phis := map (map_phi g) (bb_phis b); bb_insts := map (map_inst g) (bb_insts b); bb_term := map_term g (bb_term b) |}.

Lemma set_first_iter_skip y v o l k : is_local y o = false -> Nat.iter k (set_first y v) (o :: l) = o :: Nat.iter k (set_first y v) l.
Proof. intros Ho. induction k as [|k IH]; [done|]. rewrite !Nat.iter_succ, IH. cbn [set_first]. by rewrite Ho. Qed.
Lemma set_operands_all y v l : is_local y v = false -> set_operands y [v] l = map (replace_value y v) l.
Proof.
  intros Hv. unfold set_operands. cbn [fold_left]. change (fun l0 => set_first y v l0) with (set_first y v). induction l as [|o l IH]; [done|]. cbn [List.filter map]. unfold replace_value at 1.
  destruct (is_local y o) eqn:Eo; cbn [length]; [|by rewrite set_first_iter_skip, IH].
  rewrite Nat.iter_succ_r. cbn [set_first]. rewrite Eo. by rewrite set_first_iter_skip, IH.
Qed.
Lemma with_operands_map g k : with_operands k (map g (operands k)) = map_operands g k.
Proof.
  destruct k as [t0 s|p|v p|inb p l|op a b|op v|pr a b|k a b|callee cc args| |v|args]; cbn [operands map with_operands map_operands]; try done.
  rewrite map_app. cbn [map]. by rewrite last_last, removelast_last.
Qed.
Lemma with_term_operands_map g t : with_term_operands t (map g (term_operands t)) = map_term g t.
Proof. by destruct t. Qed.
Lemma update_users_all y v F : is_local y v = false -> update_users y [v] F = map_blocks (map_block_operands (replace_value y v)) F.
Proof.
  intros Hv. unfold update_users. apply map_blocks_ext. intros b _. unfold map_block_operands. f_equal.
  - apply map_ext. intros p. unfold map_phi. f_equal. rewrite set_operands_all by done. induction (phi_incoming p) as [|[o l] L IH]; [done|]. cbn [map combine fst snd]. by rewrite IH.
  - apply map_ext. intros i. unfold map_inst. rewrite set_operands_all by done. by rewrite with_operands_map.
  - rewrite set_operands_all by done. apply with_term_operands_map.
Qed.
Lemma replace_uses_blocks x v F : replace_uses x v F = map_blocks (map_block_operands (replace_value x v)) F.
Proof. done. Qed.
Lemma map_block_operands_twice g h b : map_block_operands h (map_block_operands g b) = map_block_operands (fun v => h (g v)) b.
Proof.
  unfold map_block_operands. cbn. rewrite !map_map. f_equal.
  - apply map_ext. intros p. unfold map_phi. cbn. f_equal. rewrite map_map. by apply map_ext.
  - apply map_ext. intros i. unfold map_inst. cbn. f_equal. apply map_operands_map.
  - by destruct (bb_term b).
Qed.

Lemma filter_users x u L iu v : NoDup (map i_name L) -> iu ∈ L -> i_name iu = u -> List.filter (is_local x) (operands (i_kind iu)) = [v] ->
  List.filter (String.eqb u) (flat_map (fun i => map (fun _ => i_name i) (List.filter (is_local x) (operands (i_kind i)))) L) = [u].
Proof.
  intros Hn Hin Eu Ev. assert (Hother : forall i (l : list Value), i_name i <> u -> List.filter (String.eqb u) (map (fun _ => i_name i) l) = []).
  { intros i l Hi. induction l as [|w l IH]; [done|]. cbn [map List.filter]. by rewrite (proj2 (String.eqb_neq u (i_name i))). }
  assert (Hrest : forall L', u ∉ map i_name L' -> List.filter (String.eqb u) (flat_map (fun i => map (fun _ => i_name i) (List.filter (is_local x) (operands (i_kind i)))) L') = []).
  { induction L' as [|i L' IH]; [done|]. cbn [map flat_map]. intros [H1 H2]%not_elem_of_cons. rewrite List.filter_app, IH, Hother by done. done. }
  induction L as [|i L IH]; [by apply not_elem_of_nil in Hin|]. cbn [map flat_map] in *. apply NoDup_cons in Hn as [Hi Hn]. rewrite List.filter_app.
  apply elem_of_cons in Hin as [<-|Hin].
  - rewrite Ev, Hrest by (by rewrite <- Eu). cbn [map List.filter app]. by rewrite Eu, String.eqb_refl.
  - rewrite IH by done. rewrite Hother; [done|]. intros E. apply Hi. rewrite E, <- Eu. by apply list_elem_of_fmap_2.
Qed.
Lemma filter_once (u : string) l : List.filter (String.eqb u) l = [u] -> exists l1 l2, l = l1 ++ u :: l2 /\ u ∉ l1 /\ u ∉ l2.
Proof.
  induction l as [|x l IH]; [done|]. cbn [List.filter]. destruct (String.eqb_spec u x) as [<-|Hne].
  - intros [= E]. exists [], l. split; [done|]. split; [by apply not_elem_of_nil|]. intros Hu. apply list_elem_of_In in Hu.
    assert (Hin : In u (List.filter (String.eqb u) l)) by (apply filter_In; split; [done|by apply String.eqb_refl]). by rewrite E in Hin.
  - intros E. destruct (IH E) as (l1 & l2 & -> & H1 & H2). exists (x :: l1), l2. split; [done|]. split; [|done]. by apply not_elem_of_cons.
Qed.
Lemma filter_perm {A} (P : A -> bool) l l' : Permutation l l' -> Permutation (List.filter P l) (List.filter P l').
Proof.
  induction 1 as [|x l l' _ IH|x z l|l l' l'' _ IH1 _ IH2]; cbn [List.filter]; [done|..].
  - destruct (P x); [by constructor|done].
  - destruct (P x), (P z); try done. by constructor.
  - by etrans.
Qed.

(** From one stage to the next. *)
Section between.
Context (F : Function_) (y n u : string) (Hn : n ∉ all_names F) (Hy : n <> y).
Lemma stage_start : map_blocks (insert_phi (index_phi n []) y) F = stage F y n u [] [] [].
Proof.
  apply map_blocks_ext. intros b _. unfold insert_phi, with_phis, stage_block. f_equal. destruct (has_phi y b); cbn [app];
    (induction (bb_insts b) as [|i l IH]; [done|]); cbn [flat_map]; rewrite <- IH; unfold stage_insts; by destruct (named u i).
Qed.
Lemma stage_has_phi inc hd ad b : has_phi y (stage_block y n u inc hd ad b) = has_phi y b.
Proof.
  unfold has_phi. cbn [stage_block bb_phis]. induction (bb_phis b) as [|p ps IH]; [done|]. cbn [flat_map existsb]. rewrite existsb_app, IH. unfold stage_phis.
  destruct (is_phi_of y p) eqn:E; cbn [existsb]; rewrite E, ?orb_true_r; done.
Qed.
Lemma stage_incoming inc hd ad x : map_blocks (addIncoming n x) (stage F y n u inc hd ad) = stage F y n u (inc ++ [x]) hd ad.
Proof.
  unfold stage. rewrite map_blocks_map. apply map_blocks_ext. intros b Hb. unfold addIncoming, with_phis, stage_block. cbn [bb_name bb_phis bb_insts bb_term]. f_equal.
  assert (H : forall p, p ∈ bb_phis b -> is_phi_of n p = false).
  { intros p Hp. apply String.eqb_neq. intros <-. apply Hn, all_names_elem. right. exists b. split; [done|]. left. by exists p. }
  induction (bb_phis b) as [|p ps IH]; [done|]. cbn [flat_map]. rewrite map_app, IH by (intros q Hq; apply H; by right). f_equal. unfold stage_phis.
  destruct (is_phi_of y p); cbn [map]; rewrite (H p ltac:(by left)); [|done]. unfold is_phi_of, index_phi. cbn. by rewrite String.eqb_refl.
Qed.
Lemma stage_header inc g : insert_at 0 g y (stage F y n u inc [] []) = stage F y n u inc [g] [].
Proof.
  unfold stage, insert_at. rewrite map_blocks_map. apply map_blocks_ext. intros b _. rewrite stage_has_phi. unfold with_insts, stage_block. cbn. by destruct (has_phi y b).
Qed.
Lemma stage_step inc hd a : (forall i, i ∈ hd -> named u i = false) -> put_before (Some u) [a] (stage F y n u inc hd []) = stage F y n u inc hd [a].
Proof.
  intros Hhd. unfold stage, put_before, map_insts. change (with_blocks ?G (map ?f (f_blocks ?G))) with (map_blocks f G). rewrite map_blocks_map. apply map_blocks_ext. intros b _. unfold stage_block. cbn [bb_name bb_phis bb_insts bb_term]. f_equal.
  rewrite flat_map_app. f_equal.
  - destruct (has_phi y b); [|done]. induction hd as [|i l IH]; [done|]. cbn [flat_map]. rewrite (Hhd i ltac:(by left)), IH; [done|]. intros j Hj. apply Hhd. by right.
  - induction (bb_insts b) as [|i l IH]; [done|]. cbn [flat_map]. rewrite flat_map_app, IH. f_equal. unfold stage_insts. destruct (named u i) eqn:E; cbn [flat_map app]; by rewrite E.
Qed.
End between.

Section handled.
Context (F : Function_) (avail : string -> list string) (pn : Phi) (iu : Inst) (inb : bool) (base step : Value) (t : ty) (header bu b0 b1 : string).
Context (PL : pointer_loop F avail pn iu inb base step t header bu b0 b1).
Context (fresh : Function_ -> string) (Hfresh : forall G, fresh G ∉ all_names G) (use_list : Function_ -> string -> list string) (Huses : forall G x, Permutation (use_list G x) (all_users G x)).
Context (m : Module_) (Hm : f_name F ∈ map f_name (m_functions m)) (Hnames : NoDup (map f_name (m_functions m))).
Abbreviation y := (phi_name pn).
Abbreviation u := (i_name iu).
Abbreviation stage := (stage F y).
(** The instructions that are made: the pointer and the next index. *)
Definition new_pointer (g n : string) : Inst := inst g (TyPtr t) (GetElementPtr false base [Local n i64]).
Definition new_step (a n : string) : Inst := inst a i64 (Binary Add (Local n i64) step).
Abbreviation way_in := [(ConstantInt 64 0, b0)].
Abbreviation ways a := [(ConstantInt 64 0, b0); (Local a i64, b1)].

Lemma names_y : y ∈ all_names F.
Proof. eapply defs_names, y_defs, PL. Qed.
Lemma names_u : u ∈ all_names F.
Proof. eapply defs_names, u_defs, PL. Qed.
Lemma base_found : findBasePointer F pn = Done (Some base).
Proof.
  assert (Hall : forall v, getOrigValue F v = getOrigValue (stage "" u [] [] []) v).
  { intros v. assert (E : all_insts (stage "" u [] [] []) = all_insts F).
    { unfold all_insts, PointerLoops.stage, map_blocks. cbn [f_blocks with_blocks]. induction (f_blocks F) as [|b bs IH]; [done|]. cbn [map flat_map]. rewrite IH. f_equal. cbn [stage_block bb_insts].
      destruct (has_phi y b); cbn [app]; (induction (bb_insts b) as [|i l IHl]; [done|]); cbn [flat_map]; rewrite IHl; unfold stage_insts; by destruct (named u i). }
    unfold getOrigValue. rewrite E. generalize (Datatypes.S (length (all_insts F))). intros k. revert v. induction k as [|k IH]; intros v; [done|]. cbn [get_orig_value].
    assert (Ed : def_of (stage "" u [] [] []) v = def_of F v) by (unfold def_of; by rewrite E). rewrite Ed. destruct (i_kind <$> def_of F v) as [[]|]; try done. by destruct op. }
  assert (Hno : forall i, i ∈ ([] : list Inst) -> i_name i ∉ all_names F /\ has_result i = true) by (by intros i ?%not_elem_of_nil).
  unfold findBasePointer.
  destruct (pl_incoming PL) as [-> | ->]; cbn [map fst mapM_out]; rewrite !Hall, (stage_orig_base _ _ _ _ _ _ _ _ _ _ _ _ PL), (stage_orig_u _ _ _ _ _ _ _ _ _ _ _ _ PL) by done;
    cbn [obind List.filter]; rewrite (base_not_y _ _ _ _ _ _ _ _ _ _ _ _ PL); cbn [is_local]; by rewrite String.eqb_refl.
Qed.

Section names.
Context (n : string) (Hn : n ∉ all_names F).
Lemma n_not_y : n <> y.
Proof. intros ->. by apply Hn, names_y. Qed.
Lemma index_entered : init_index fresh m pn n base (phi_incoming pn) (ConstantInt 64 0) (stage n u [] [] []) = Done (Some b0, stage n u way_in [] []).
Proof.
  assert (Hno : forall i, i ∈ ([] : list Inst) -> i_name i ∉ all_names F /\ has_result i = true) by (by intros i ?%not_elem_of_nil).
  assert (Hbase : forall l, init_index fresh m pn n base ((base, b0) :: l) (ConstantInt 64 0) (stage n u [] [] []) = Done (Some b0, stage n u way_in [] [])).
  { intros l. cbn [init_index]. rewrite (stage_orig_base _ _ _ _ _ _ _ _ _ _ _ _ PL) by done. cbn [obind].
    rewrite (stage_dependent _ _ _ _ _ _ _ _ _ _ _ _ PL n [] [] [] Hn Hno Hno m Hm Hnames base b0) by first [apply (base_not_y _ _ _ _ _ _ _ _ _ _ _ _ PL)|destruct (pl_incoming PL) as [-> | ->]; set_solver].
    cbn [obind negb].
    assert (Hsame : forall v w, def_of (stage n u [] [] []) v = None -> last_index fresh v w (stage n u [] [] []) = Done (w, stage n u [] [] [])).
    { intros v w Ev. unfold last_index. destruct v; try done. by rewrite Ev. }
    rewrite Hsame by (by apply (stage_def_base _ _ _ _ _ _ _ _ _ _ _ _ PL)). cbn [obind].
    rewrite (bool_decide_true (base = base)) by done. by rewrite (stage_incoming F y n u Hn n_not_y). }
  destruct (pl_incoming PL) as [-> | ->]; [apply Hbase|]. cbn [init_index].
  rewrite (stage_orig_u _ _ _ _ _ _ _ _ _ _ _ _ PL) by done. cbn [obind]. rewrite (stage_independent _ _ _ _ _ _ _ _ _ _ _ _ PL). cbn [obind negb]. exact (Hbase []).
Qed.
Lemma pointer_made : let g := fresh (stage n u way_in [] []) in
  make_pointer fresh pn n base (stage n u way_in [] []) = Done (Local g (TyPtr t), stage n u way_in [new_pointer g n] []).
Proof.
  cbv zeta. unfold make_pointer. rewrite (pl_type PL), (pl_base_type PL), bool_decide_true by done. cbn [obind]. rewrite (pl_base_type PL). unfold create_at.
  rewrite bool_decide_true by done. by rewrite (stage_header F y n u).
Qed.
End names.

Section advanced.
Context (n g : string) (Hn : n ∉ all_names F) (Hg : g ∉ all_names F) (Hgn : g <> n).
Abbreviation before := (stage n u way_in [new_pointer g n] []).
Abbreviation pointer := (Local g (TyPtr t)).
Lemma pointer_new i : i ∈ [new_pointer g n] -> i_name i ∉ all_names F /\ has_result i = true.
Proof. by intros ->%list_elem_of_singleton. Qed.
Lemma nothing_new (i : Inst) : i ∈ ([] : list Inst) -> i_name i ∉ all_names F /\ has_result i = true.
Proof. by intros ?%not_elem_of_nil. Qed.
(** Another user of the phi node is left alone. *)
Definition bystander (x : string) : Prop := exists i, i ∈ all_insts F /\ has_result i = true /\ i_name i = x /\ i <> iu /\ existsb (is_local y) (operands (i_kind i)) = true.
Lemma bystander_left w x : bystander x ->
  (forall i, i ∈ all_insts (w_function w) -> named x i = true -> exists i', (i' ∈ all_insts F \/ i_name i' ∉ all_names F) /\ i_name i' = i_name i /\ i_type i' = i_type i /\
     forall inb' p idx, i_kind i = GetElementPtr inb' p idx -> exists p' idx', i_kind i' = GetElementPtr inb' p' idx') ->
  handle_user fresh m pn n pointer w x = Done w.
Proof.
  intros (i0 & Hi0 & Hr0 & E0 & Hne & Hu0) Hw. unfold handle_user. destruct (List.find (named x) (all_insts (w_function w))) as [i|] eqn:Ef; [|done].
  apply List.find_some in Ef as [Hi Hx]. apply list_elem_of_In in Hi. destruct (Hw i Hi Hx) as (i' & Hi' & En & Et & Hk).
  unfold named in Hx. apply andb_true_iff in Hx as [Hr Hx]. apply String.eqb_eq in Hx. cbv zeta. destruct (i_kind i) as [| | |inb' p idx| | | | | | | |] eqn:Eik; try done.
  exfalso. destruct (Hk _ _ _ eq_refl) as (p' & idx' & Ek). destruct Hi' as [Hi'|Hi'].
  - assert (i' = i0) as ->.
    { apply elem_of_flat_map in Hi' as (b & Hb & Hi'), Hi0 as (b' & Hb' & Hi0). apply (same_result F avail pn iu inb base step t header bu b0 b1 PL b b'); [done..| |done|congruence]. unfold has_result. by rewrite Et. }
    rewrite Ek in Hu0. cbn [operands] in Hu0. apply Hne. by apply (pl_addresses PL i0 _ _ _ Hi0 Ek).
  - apply Hi'. rewrite En, Hx. by apply (in_all_names F x i0).
Qed.
Lemma before_users : List.filter (String.eqb u) (all_users before y) = [u] /\ forall x, x ∈ all_users before y -> x = u \/ bystander x.
Proof.
  assert (Hloc : is_local y (Local n i64) = false) by (cbn [is_local]; apply String.eqb_neq; intros E; by apply (n_not_y n Hn)).
  assert (E : all_users before y = all_users F y).
  { unfold all_users. assert (Hflat : forall f : Inst -> list string, f (new_pointer g n) = [] ->
      flat_map f (List.filter has_result (all_insts before)) = flat_map f (List.filter has_result (all_insts F))).
    { intros f Hf. unfold all_insts, PointerLoops.stage, map_blocks. cbn [f_blocks with_blocks]. induction (f_blocks F) as [|b bs IH]; [done|]. cbn [map flat_map].
      rewrite !List.filter_app, !flat_map_app, IH. f_equal. cbn [stage_block bb_insts]. rewrite List.filter_app, flat_map_app.
      assert (E1 : flat_map f (List.filter has_result (if has_phi y b then [new_pointer g n] else [])) = []) by (destruct (has_phi y b); [|done]; cbn; by rewrite Hf).
      rewrite E1. cbn [app]. f_equal. f_equal. induction (bb_insts b) as [|i l IHl]; [done|]. cbn [flat_map]. rewrite IHl. unfold stage_insts. by destruct (named u i). }
    apply Hflat. cbn [new_pointer inst i_kind i_name operands List.filter]. by rewrite (base_not_y _ _ _ _ _ _ _ _ _ _ _ _ PL), Hloc. }
  rewrite E. clear E. destruct (pl_advance PL) as (b & Hb & _ & Hi). assert (Hin : iu ∈ all_insts F) by (apply elem_of_flat_map; by exists b). split.
  - apply (filter_users y u _ iu (Local y (TyPtr t))).
    + destruct (loop_unique F avail pn iu inb base step t header bu b0 b1 PL) as [Hd _]. apply NoDup_app in Hd as (_ & _ & Hd). clear -Hd. unfold all_insts.
      induction (f_blocks F) as [|c bs IH]; [apply NoDup_nil_2|]. cbn [flat_map] in *. rewrite List.filter_app, map_app. apply NoDup_app in Hd as (H1 & H2 & H3).
      apply NoDup_app in H1 as (_ & _ & H1). apply NoDup_app. split; [exact H1|]. split; [|by apply IH]. intros x Hx Hx'. apply (H2 x); [apply elem_of_app; by right|].
      apply list_elem_of_fmap in Hx' as (i & -> & Hi). apply list_elem_of_In, filter_In in Hi as [Hi Hr]. apply list_elem_of_In, elem_of_flat_map in Hi as (b & Hb & Hi).
      apply elem_of_flat_map. exists b. split; [done|]. by apply result_defined.
    + apply list_elem_of_In, filter_In. split; [by apply list_elem_of_In|]. by apply (advance_result F avail pn iu inb base step t header bu b0 b1).
    + done.
    + rewrite (pl_kind PL). cbn [operands List.filter is_local]. rewrite String.eqb_refl.
      assert (Hs : is_local y step = false); [|by rewrite Hs].
      destruct (is_local y step) eqn:Es; [|done]. exfalso. assert (Hop : step ∈ all_operands F).
      { unfold all_operands. apply elem_of_flat_map. exists b. split; [done|]. unfold block_operands. rewrite !elem_of_app. right. left. apply elem_of_flat_map. exists iu. split; [done|].
        rewrite (pl_kind PL). right. by left. }
      pose proof (pl_operand PL step Hop Es) as E. pose proof (pl_step PL) as Et. rewrite E in Et. done.
  - intros x Hx. apply elem_of_flat_map in Hx as (i & Hi' & Hx). apply list_elem_of_In, filter_In in Hi' as [Hi' Hr]. apply list_elem_of_In in Hi'.
    apply list_elem_of_fmap in Hx as (v & -> & Hv). apply list_elem_of_In, filter_In in Hv as [Hv Hv'].
    destruct (decide (i_name i = u)) as [Eu|Hne]; [by left|right]. exists i. split; [done|]. split; [done|]. split; [done|]. split; [by intros ->|].
    apply existsb_exists. by exists v.
Qed.
Lemma before_names x : x ∈ all_names F \/ x = n \/ x = g -> x ∈ all_names before.
Proof.
  destruct (pl_header PL) as (b & Hb & _ & Hp). assert (Hphi : has_phi y b = true) by (apply has_phi_elem; by exists pn).
  assert (Hbb : stage_block y n u way_in [new_pointer g n] [] b ∈ f_blocks before) by (apply stage_block_in; done).
  intros [Hx|[-> | ->]]; apply all_names_elem.
  - apply all_names_elem in Hx as [Hx|(b' & Hb' & Hx)]; [by left|right]. exists (stage_block y n u way_in [new_pointer g n] [] b'). split; [by apply stage_block_in|].
    destruct Hx as [(p & Hp' & <-)|(i & Hi & <-)]; [left; exists p|right; exists i]; (split; [|done]).
    + cbn [stage_block bb_phis]. apply elem_of_flat_map. exists p. split; [done|]. unfold stage_phis. destruct (is_phi_of y p); [right|]; by left.
    + by apply stage_insts_keep.
  - right. eexists. split; [exact Hbb|]. left. exists (index_phi n way_in). split; [|done]. cbn [stage_block bb_phis]. apply elem_of_flat_map. exists pn. split; [done|].
    unfold stage_phis, is_phi_of. rewrite String.eqb_refl. by left.
  - right. eexists. split; [exact Hbb|]. right. exists (new_pointer g n). split; [|done]. cbn [stage_block bb_insts]. rewrite Hphi. apply elem_of_app. left. by left.
Qed.
Abbreviation a := (fresh before).
Abbreviation after := (stage n u (ways a) [new_pointer g n] [new_step a n]).
Lemma a_new : a ∉ all_names F /\ a <> n /\ a <> g.
Proof. pose proof (Hfresh before) as Ha. split; [|split]; intros H; apply Ha, before_names; rewrite ?H; tauto. Qed.
Lemma step_new i : i ∈ [new_step a n] -> i_name i ∉ all_names F /\ has_result i = true.
Proof. intros ->%list_elem_of_singleton. split; [apply a_new|done]. Qed.
Lemma user_handled : exists omit, handle_user fresh m pn n pointer {| w_function := before; w_omit := [b0]; w_new := [pointer] |} u =
  Done {| w_function := replace_uses u pointer after; w_omit := omit; w_new := [pointer] |}.
Proof.
  set (a' := a). destruct a_new as (Ha & Han & Hag). fold a' in Ha, Han, Hag.
  assert (Hstep : forall i, i ∈ [new_step a' n] -> i_name i ∉ all_names F /\ has_result i = true) by exact step_new.
  destruct (stage_predecessor F avail pn iu inb base step t header bu b0 b1 PL n way_in [new_pointer g n] [new_step a' n]) as (omit & Epred).
  exists omit. unfold handle_user. cbn [w_function w_omit w_new]. cbv zeta.
  rewrite (stage_find_u F avail pn iu inb base step t header bu b0 b1 PL n way_in [new_pointer g n] [] pointer_new nothing_new (named u)).
  2: { unfold named. rewrite String.eqb_refl, andb_true_r. apply (advance_result F avail pn iu inb base step t header bu b0 b1 PL). }
  2: { intros i [_ Ei%String.eqb_eq]%andb_true_iff. done. }
  rewrite (pl_kind PL), (pl_result PL).
  rewrite (stage_dependent F avail pn iu inb base step t header bu b0 b1 PL n way_in [new_pointer g n] [] Hn pointer_new nothing_new m Hm Hnames (Local u (TyPtr t)) b1).
  2: { destruct (pl_incoming PL) as [-> | ->]; set_solver. }
  2: { cbn [is_local]. apply String.eqb_neq. apply (y_not_u F avail pn iu inb base step t header bu b0 b1 PL). }
  cbn [obind negb]. rewrite (pl_step PL), bool_decide_true by done. cbn [obind]. unfold create_before.
  change (inst (fresh before) i64 (Binary Add (Local n i64) step)) with (new_step a' n).
  rewrite (stage_step F y n u way_in [new_pointer g n] (new_step a' n)).
  2: { intros i ->%list_elem_of_singleton. unfold named, new_pointer. cbn. apply String.eqb_neq. intros ->. by apply Hg, names_u. }
  rewrite (stage_block_of_n F avail pn iu inb base step t header bu b0 b1 PL n way_in [new_pointer g n] [new_step a' n] Hn pointer_new Hstep).
  2: { by intros i [->%list_elem_of_singleton| ->%list_elem_of_singleton]. }
  rewrite (stage_block_of_u F avail pn iu inb base step t header bu b0 b1 PL n way_in [new_pointer g n] [new_step a' n] Hn pointer_new Hstep).
  rewrite Epred. cbn [obind]. rewrite (stage_incoming F y n u Hn (n_not_y n Hn)). cbn [app type_of]. by rewrite bool_decide_true by done.
Qed.
(** All users, in any order. *)
Lemma users_handled : exists omit, handle_users fresh m pn n pointer (use_list before y) {| w_function := before; w_omit := [b0]; w_new := [pointer] |} =
  Done {| w_function := replace_uses u pointer after; w_omit := omit; w_new := [pointer] |}.
Proof.
  destruct before_users as [Honce Hall]. destruct user_handled as (omit & Eu). exists omit.
  destruct (filter_once u (use_list before y)) as (l1 & l2 & El & H1 & H2).
  { apply Permutation_length_1_inv. rewrite <- Honce. symmetry. apply filter_perm, Huses. }
  assert (Hby : forall x, x ∈ l1 \/ x ∈ l2 -> bystander x).
  { intros x Hx. destruct (Hall x) as [->|]; [|naive_solver|done]. rewrite <- (Huses before y), El. set_solver. }
  assert (Hskip : forall l w, (forall x, x ∈ l -> handle_user fresh m pn n pointer w x = Done w) -> handle_users fresh m pn n pointer l w = Done w).
  { induction l as [|x l IH]; intros w Hl; [done|]. cbn [handle_users]. rewrite Hl by (by left). cbn [obind]. apply IH. intros z Hz. apply Hl. by right. }
  assert (Happ : forall l w l', handle_users fresh m pn n pointer (l ++ l') w = let* w := handle_users fresh m pn n pointer l w in handle_users fresh m pn n pointer l' w).
  { induction l as [|x l IH]; intros w l'; [done|]. cbn [app handle_users]. destruct (handle_user fresh m pn n pointer w x); cbn [obind]; [apply IH|done..]. }
  rewrite El, Happ, Hskip; [|intros x Hx; apply bystander_left; [apply Hby; by left|]].
  - cbn [obind handle_users]. rewrite Eu. cbn [obind]. apply Hskip. intros x Hx. apply bystander_left; [apply Hby; by right|]. cbn [w_function].
    intros i Hi _. unfold all_insts, replace_uses in Hi. cbn [f_blocks with_blocks] in Hi. apply elem_of_flat_map in Hi as (b' & Hb' & Hi). apply list_elem_of_fmap in Hb' as (b & -> & Hb).
    cbn [bb_insts] in Hi. apply list_elem_of_fmap in Hi as (i' & -> & Hi'). exists i'. split; [|split; [done|split; [done|]]].
    + destruct (stage_all_insts F pn iu n (ways a) [new_pointer g n] [new_step a n] pointer_new step_new i') as [Hi|Hi]; [apply elem_of_flat_map; by exists b|by left|right].
      destruct Hi as [Hi|Hi]; [by apply pointer_new|by apply step_new].
    + cbn [i_kind]. intros inb' p idx Ek. destruct (i_kind i'); try done. cbn [map_operands] in Ek. injection Ek as -> _ _. by eexists _, _.
  - cbn [w_function]. intros i Hi _. exists i. split; [|split; [done|split; [done|by eauto]]].
    destruct (stage_all_insts F pn iu n way_in [new_pointer g n] [] pointer_new nothing_new i Hi) as [|[Hn'|Hn']]; [by left|right; by apply pointer_new|by apply not_elem_of_nil in Hn'].
Qed.
End advanced.
(** The function the pass makes. *)
Definition rewritten (n g a : string) : Function_ :=
  map_blocks (fun b => map_block_operands (redirect y u (Local g (TyPtr t))) (stage_block y n u (ways a) [new_pointer g n] [new_step a n] b)) F.
Definition three_new (n g a : string) : Prop := n ∉ all_names F /\ g ∉ all_names F /\ a ∉ all_names F /\ g <> n /\ a <> n /\ a <> g.
Lemma loop_handled : exists n g a, three_new n g a /\ handle_pointer_phi fresh use_list m pn F = Done (true, rewritten n g a).
Proof.
  set (n := fresh F). pose proof (Hfresh F : n ∉ all_names F) as Hn. set (g := fresh (stage n u way_in [] [])).
  assert (Hgn : g ∉ all_names F /\ g <> n).
  { pose proof (Hfresh (stage n u way_in [] [])) as Hg. fold g in Hg. split; intros E; apply Hg; apply all_names_elem.
    - apply all_names_elem in E as [Hx|(b' & Hb' & Hx)]; [by left|right]. exists (stage_block y n u way_in [] [] b'). split; [by apply stage_block_in|].
      destruct Hx as [(p & Hp' & <-)|(i & Hi & <-)]; [left; exists p|right; exists i]; (split; [|done]); [|by apply stage_insts_keep].
      cbn [stage_block bb_phis]. apply elem_of_flat_map. exists p. split; [done|]. unfold stage_phis. destruct (is_phi_of y p); [right|]; by left.
    - right. destruct (pl_header PL) as (b & Hb & _ & Hp). exists (stage_block y n u way_in [] [] b). split; [by apply stage_block_in|]. left. exists (index_phi n way_in).
      split; [|by rewrite E]. cbn [stage_block bb_phis]. apply elem_of_flat_map. exists pn. split; [done|]. unfold stage_phis, is_phi_of. rewrite String.eqb_refl. by left. }
  destruct Hgn as [Hg Hgn]. set (a := fresh (stage n u way_in [new_pointer g n] [])). destruct (a_new n g) as (Ha & Han & Hag).
  exists n, g, a. split; [done|]. unfold handle_pointer_phi. rewrite (pl_type PL). cbn [is_pointer negb]. rewrite base_found. cbn [obind]. fold n.
  change {| phi_name := n; phi_type := i64; phi_incoming := [] |} with (index_phi n []). rewrite (stage_start F y n u), (index_entered n Hn). cbn [obind].
  rewrite (pointer_made n). fold g. cbn [obind]. destruct (users_handled n g Hn Hg Hgn) as (omit & ->). cbn [obind w_new w_function]. f_equal. f_equal.
  assert (Hgy : is_local y (Local g (TyPtr t)) = false) by (cbn [is_local]; apply String.eqb_neq; intros E; apply Hg; rewrite <- E; apply names_y).
  rewrite update_users_all by done. rewrite replace_uses_blocks. unfold PointerLoops.stage. rewrite !map_blocks_map. apply map_blocks_ext. intros b _.
  by rewrite map_block_operands_twice.
Qed.
End handled.

(** ** The new function does the same *)

(** What a meaning of instructions says about pointers to [t]: a getelementptr
    advances an address by an index, and additions of indices add up. *)
Class PointerSteps {V W} (M : Meaning V W) (t : ty) (is_address : V -> Prop) (advance plus : V -> V -> V) := {
  step_gep x inb p i a k w : type_of p = TyPtr t -> type_of i = i64 -> is_address a ->
    sem (Meaning := M) (inst x (TyPtr t) (GetElementPtr inb p [i])) [a; k] w = Some (advance a k, w);
  step_add x i j k l w : type_of i = i64 -> type_of j = i64 -> sem (Meaning := M) (inst x i64 (Binary Add i j)) [k; l] w = Some (plus k l, w);
  step_none a : is_address a -> advance a (constant_meaning (Meaning := M) (ConstantInt 64 0)) = a;
  step_twice a k l : is_address a -> advance (advance a k) l = advance a (plus k l);
  step_address a k : is_address a -> is_address (advance a k)
}.

Lemma inst_is i ty k : i_type i = ty -> i_kind i = k -> i = inst (i_name i) ty k.
Proof. by destruct i; cbn; intros -> ->. Qed.
(** What an instruction that is run writes. *)
Lemma exec_inst_writes {V W} (M : Meaning V W) i e m w e1 m1 w1 : exec_inst (M := M) ∅ i (e, m, w) = Some (e1, m1, w1) ->
  exists v, e1 = if has_result i then <[i_name i := v]> e else e.
Proof. rewrite exec_inst_no_slots. intros ([v w'] & _ & [= <- _ _])%bind_Some. exists v. unfold has_result. by destruct (i_type i). Qed.
Lemma exec_insts_defines {V W} (M : Meaning V W) l : forall e m w e1 m1 w1, exec_insts (M := M) ∅ l (e, m, w) = Some (e1, m1, w1) ->
  forall x, is_Some (e !! x) \/ x ∈ results l -> is_Some (e1 !! x).
Proof.
  induction l as [|i l IH]; intros e m w e1 m1 w1 E x Hx; cbn [exec_insts] in E.
  - injection E as <- _ _. destruct Hx as [Hx|Hx%not_elem_of_nil]; done.
  - apply bind_Some in E as ([[e2 m2] w2] & E2 & E). apply (IH _ _ _ _ _ _ E). destruct (exec_inst_writes M i e m w e2 m2 w2 E2) as (v & ->).
    unfold results in *. cbn [List.filter] in Hx. destruct (has_result i); [|done]. cbn [map] in Hx. rewrite elem_of_cons in Hx.
    destruct (decide (i_name i = x)) as [<-|Hne]; [left; by rewrite lookup_insert_eq|rewrite lookup_insert_ne by done]. naive_solver.
Qed.
Lemma find_incoming_map r k (l : list (Value * string)) v : fst <$> List.find (fun x : Value * string => String.eqb (snd x) k) l = Some v ->
  fst <$> List.find (fun x : Value * string => String.eqb (snd x) k) (map (fun x : Value * string => (r (fst x), snd x)) l) = Some (r v) /\ (v, k) ∈ l.
Proof.
  induction l as [|[u j] l IH]; [done|]. cbn [map List.find fst snd]. destruct (String.eqb_spec j k) as [->|].
  - intros [= ->]. split; [done|by left].
  - intros E. destruct (IH E). split; [done|by right].
Qed.

Section simulation.
Context {V W : Type} (M : Meaning V W) `{!Uniform M} (is_address : V -> Prop) (advance plus : V -> V -> V).
Context (calls calls' : string -> list V -> W -> option (option V * W)) (Hcalls : forall h args w r, calls h args w = Some r -> calls' h args w = Some r).
Context (F : Function_) (avail : string -> list string) (pn : Phi) (iu : Inst) (inb : bool) (base step : Value) (t : ty) (header bu b0 b1 : string).
Context (PL : pointer_loop F avail pn iu inb base step t header bu b0 b1) `{!PointerSteps M t is_address advance plus}.
Context (n g a : string) (Hnew : three_new F n g a) (B : V) (HB : is_address B).
Abbreviation y := (phi_name pn).
Abbreviation u := (i_name iu).
Abbreviation pointer := (Local g (TyPtr t)).
Abbreviation r := (redirect y u pointer).
Abbreviation ways := [(ConstantInt 64 0, b0); (Local a i64, b1)].
Abbreviation env := (gmap string V).
Abbreviation eval := (eval (M := M)).

Lemma redirect_else v : is_local y v = false -> is_local u v = false -> r v = v.
Proof. intros Hy Hu. unfold redirect, replace_value. by rewrite Hu, Hy. Qed.
Lemma redirect_new x tx : x ∉ all_names F -> r (Local x tx) = Local x tx.
Proof.
  intros Hx. apply redirect_else; cbn [is_local]; apply String.eqb_neq; intros <-; apply Hx.
  - eapply names_y, PL.
  - eapply names_u, PL.
Qed.
Lemma redirect_base : r base = base.
Proof. apply redirect_else; [eapply base_not_y, PL|eapply base_not_u, PL]. Qed.
Lemma advance_in : iu ∈ all_insts F.
Proof. destruct (pl_advance PL) as (b & Hb & _ & Hi). apply elem_of_flat_map. by exists b. Qed.
Lemma inst_operand i v : i ∈ all_insts F -> v ∈ operands (i_kind i) -> v ∈ all_operands F.
Proof.
  intros (b & Hb & Hi)%elem_of_flat_map Hv. unfold all_operands. apply elem_of_flat_map. exists b. split; [done|]. unfold block_operands. rewrite !elem_of_app. right. left.
  apply elem_of_flat_map. by exists i.
Qed.
Lemma phi_operand b p v k : b ∈ f_blocks F -> p ∈ bb_phis b -> (v, k) ∈ phi_incoming p -> v ∈ all_operands F.
Proof.
  intros Hb Hp Hv. unfold all_operands. apply elem_of_flat_map. exists b. split; [done|]. unfold block_operands. rewrite !elem_of_app. left.
  apply elem_of_flat_map. exists p. split; [done|]. by apply (list_elem_of_fmap_2' fst _ (v, k)).
Qed.
Lemma term_operand_in b v : b ∈ f_blocks F -> v ∈ term_operands (bb_term b) -> v ∈ all_operands F.
Proof. intros Hb Hv. unfold all_operands. apply elem_of_flat_map. exists b. split; [done|]. unfold block_operands. rewrite !elem_of_app. by right; right. Qed.
Lemma step_operand : step ∈ operands (i_kind iu).
Proof. rewrite (pl_kind PL). right. by left. Qed.
Lemma step_other : is_local y step = false /\ is_local u step = false.
Proof.
  split; [|exact (pl_unused_inst PL iu step advance_in step_operand)]. destruct (is_local y step) eqn:E; [|done].
  pose proof (pl_operand PL step (inst_operand iu step advance_in step_operand) E) as Es. pose proof (pl_step PL) as Et. rewrite Es in Et. done.
Qed.
(** The new instructions are not redirected. *)
Lemma redirect_pointer : map_inst r (new_pointer base t g n) = new_pointer base t g n.
Proof. destruct Hnew as (Hn & _). unfold map_inst, new_pointer. cbn. by rewrite redirect_base, redirect_new. Qed.
Lemma redirect_step : map_inst r (new_step step a n) = new_step step a n.
Proof. destruct Hnew as (Hn & _), step_other. unfold map_inst, new_step. cbn. by rewrite redirect_new, redirect_else. Qed.
Lemma redirect_ways : map (fun x : Value * string => (r (fst x), snd x)) ways = ways.
Proof. destruct Hnew as (_ & _ & Ha & _). cbn. rewrite redirect_new by done. done. Qed.

(** *** How the values correspond *)

Definition same_others (e e' : env) : Prop := forall z, z ∈ all_names F -> z <> y -> e' !! z = e !! z.
Definition agree (e e' : env) : Prop := same_others e e' /\ e' !! g = e !! y.
(** The pointers are as far from the start as the indices say. *)
Definition indexed (e e' : env) : Prop :=
  (forall v, e !! y = Some v -> exists j, e' !! n = Some j /\ v = advance B j) /\ (forall v, e !! u = Some v -> exists k, e' !! a = Some k /\ v = advance B k).
Definition based (e : env) : Prop := eval e base = B.

Lemma eval_redirect e e' v : agree e e' -> v ∈ all_operands F -> is_local u v = false -> eval e' (r v) = eval e v.
Proof.
  intros [H1 H2] Hv Hu. destruct v as [z tz| | | | | | | | | | | |]; try done. unfold redirect, replace_value at 2. rewrite Hu. unfold replace_value. cbn [is_local].
  destruct (String.eqb_spec y z) as [<-|Hne]; cbn [Semantics.eval]; [by rewrite H2|]. rewrite H1; [done| |done]. by eapply (pl_scope PL).
Qed.
Lemma eval_base e e' : same_others e e' -> eval e' base = eval e base.
Proof.
  intros H. pose proof (pl_base PL) as Hb. pose proof (base_not_y F avail pn iu inb base step t header bu b0 b1 PL) as Hy. revert Hb Hy. generalize base. intros v Hb Hy.
  destruct v as [x tx| | | | | | | | | | | |]; try done. cbn [Semantics.eval]. rewrite H; [done|apply all_names_elem; by left|]. cbn [is_local] in Hy. intros ->. by rewrite String.eqb_refl in Hy.
Qed.
Lemma based_insert e x v : (forall z tz, base = Local z tz -> x <> z) -> based e -> based (<[x := v]> e).
Proof.
  unfold based. intros Hx <-. revert Hx. generalize base. intros w Hx. destruct w as [z tz| | | | | | | | | | | |]; try done. cbn [Semantics.eval].
  by rewrite lookup_insert_ne by (by eapply Hx).
Qed.
Lemma base_arg z tz : base = Local z tz -> z ∈ map fst (f_args F).
Proof. intros E. pose proof (pl_base PL) as Hb. by rewrite E in Hb. Qed.

(** *** The phi nodes of a block *)

Abbreviation new_phis ps := (map (map_phi r) (flat_map (stage_phis y n ways) ps)).
Lemma names_distinct x : x ∈ all_names F -> x <> n /\ x <> g /\ x <> a.
Proof. destruct Hnew as (Hn & Hg & Ha & _). intros Hx. split; [|split]; by intros ->. Qed.
Lemma incoming_index l v : incoming pn l = Some v -> l = b0 /\ v = base \/ l = b1 /\ v = Local u (TyPtr t).
Proof.
  pose proof (pl_entries PL) as Hne. unfold incoming. destruct (pl_incoming PL) as [-> | ->]; cbn [List.find snd].
  - destruct (String.eqb_spec b0 l) as [<-|]; [intros [= <-]; by left|]. destruct (String.eqb_spec b1 l) as [<-|]; [intros [= <-]; by right|done].
  - destruct (String.eqb_spec b1 l) as [<-|]; [intros [= <-]; by right|]. destruct (String.eqb_spec b0 l) as [<-|]; [intros [= <-]; by left|done].
Qed.
(** What the index gets is as far as the pointer gets. *)
Lemma index_value l v e e' : incoming pn l = Some v -> agree e e' -> indexed e e' -> based e -> (l = b1 -> is_Some (e !! u)) ->
  exists w, incoming (index_phi n ways) l = Some w /\ r w = w /\ eval e v = advance B (eval e' w).
Proof.
  intros Hv [Ho _] [_ Hu] Hb Hl. destruct Hnew as (_ & _ & Ha & _). pose proof (pl_entries PL) as Hne. unfold incoming, index_phi. cbn [phi_incoming List.find snd].
  destruct (incoming_index l v Hv) as [[-> ->]|[-> ->]].
  - rewrite String.eqb_refl. exists (ConstantInt 64 0). split; [done|]. split; [done|]. rewrite Hb. symmetry. apply step_none, HB.
  - rewrite (proj2 (String.eqb_neq b0 b1) Hne), String.eqb_refl. exists (Local a i64). split; [done|]. split; [by apply redirect_new|].
    destruct (Hl eq_refl) as (x & Ex). destruct (Hu x Ex) as (k & Ek & ->). cbn [Semantics.eval]. by rewrite Ex, Ek.
Qed.
Record entered (ps : list Phi) (e e' e1 e1' : env) : Prop := {
  en_others : same_others e1 e1';
  en_pointer : e1' !! g = e' !! g;
  en_step : e1' !! a = e' !! a /\ e1 !! u = e !! u;
  en_index : if existsb (is_phi_of y) ps then exists j, e1' !! n = Some j /\ e1 !! y = Some (advance B j) else e1 !! y = e !! y /\ e1' !! n = e' !! n;
  en_based : based e1;
  en_defined x : is_Some (e !! x) \/ x ∈ map phi_name ps -> is_Some (e1 !! x)
}.
Lemma phi_name_in b p : b ∈ f_blocks F -> p ∈ bb_phis b -> phi_name p ∈ all_names F /\ phi_name p <> u /\ forall z tz, base = Local z tz -> phi_name p <> z.
Proof.
  intros Hb Hp. split; [apply all_names_elem; right; exists b; split; [done|left; by exists p]|]. split.
  - destruct (pl_advance PL) as (b' & Hb' & _ & Hi). eapply phi_not_result; [exact PL|exact Hb|exact Hb'|done|done|eapply advance_result, PL].
  - intros z tz E <-. eapply arg_not_defined; [exact PL|exact Hb|by apply phi_defined|by eapply base_arg].
Qed.
Lemma enter_redirected b l e e' : b ∈ f_blocks F -> agree e e' -> indexed e e' -> based e -> (l = Some b1 -> is_Some (e !! u)) ->
  forall ps e1, (forall p, p ∈ ps -> p ∈ bb_phis b) -> enter (M := M) e l ps = Some e1 ->
  exists e1', enter (M := M) e' l (new_phis ps) = Some e1' /\ entered ps e e' e1 e1'.
Proof.
  intros Hb Hag Hix Hbase Hl. induction ps as [|p ps IH]; intros e1 Hps E; cbn [enter] in E.
  { injection E as <-. exists e'. split; [done|]. constructor; try done; [apply Hag|]. intros x [Hx|Hx%not_elem_of_nil]; done. }
  apply bind_Some in E as (l0 & -> & E). apply bind_Some in E as (v & Ev & E). apply bind_Some in E as (e2 & E2 & E). injection E as <-.
  assert (Hp : p ∈ bb_phis b) by (apply Hps; by left). destruct (IH e2) as (e2' & E2' & [H1 H2 [H3 H3'] H4 H5 H6]); [intros q Hq; apply Hps; by right|done|].
  destruct (phi_name_in b p Hb Hp) as (Hpn & Hpu & Hpb). destruct (names_distinct _ Hpn) as (Hp1 & Hp2 & Hp3).
  assert (Hdef : forall (x : string) (w : V), is_Some (e !! x) \/ x ∈ phi_name p :: map phi_name ps -> is_Some (<[phi_name p := w]> e2 !! x)).
  { intros x w Hx. destruct (decide (phi_name p = x)) as [<-|Hne]; [by rewrite lookup_insert_eq|]. rewrite lookup_insert_ne by done. apply H6. rewrite elem_of_cons in Hx. naive_solver. }
  destruct (find_incoming_map r l0 (phi_incoming p) v Ev) as [Ev' Hvin].
  cbn [flat_map]. rewrite map_app. unfold stage_phis at 1. destruct (is_phi_of y p) eqn:Ep; cbn [map app enter mbind option_bind].
  - assert (p = pn) as -> by (apply String.eqb_eq in Ep; by eapply same_phi). destruct (index_value l0 v e e' Ev Hag Hix Hbase) as (w & Ew & Erw & Hw); [intros ->; by apply Hl|].
    assert (Ew' : incoming (map_phi r (index_phi n ways)) l0 = Some w).
    { destruct (find_incoming_map r l0 ways w Ew) as [E _]. rewrite Erw in E. exact E. }
    rewrite Ew'. cbn [mbind option_bind].
    unfold incoming at 1. cbn [map_phi phi_incoming]. unfold incoming in Ev'. rewrite Ev'. cbn [mbind option_bind]. rewrite E2'. cbn [mbind option_bind].
    eexists. split; [reflexivity|]. destruct Hnew as (_ & _ & _ & Hgn & Han & _). constructor; cbn [map_phi index_phi phi_name].
    + intros z Hz Hzy. destruct (names_distinct z Hz) as (Hz1 & _). rewrite !lookup_insert_ne by done. by apply H1.
    + by rewrite !lookup_insert_ne by done.
    + by rewrite !lookup_insert_ne by done.
    + cbn [existsb]. rewrite Ep. cbn [orb]. exists (eval e' w). rewrite !lookup_insert_eq. split; [done|]. by rewrite Hw.
    + by apply based_insert.
    + intros x. apply Hdef.
  - assert (Hpy : phi_name p <> y) by (by apply String.eqb_neq). unfold incoming. cbn [map_phi phi_incoming]. unfold incoming in Ev'. rewrite Ev'. cbn [mbind option_bind]. rewrite E2'. cbn [mbind option_bind].
    assert (Hvu : is_local u v = false) by (destruct (is_local u v) eqn:Eu; [|done]; exfalso; apply Hpy; f_equal; by eapply (pl_unused PL)).
    rewrite (eval_redirect e e' v Hag) by (done || by eapply phi_operand). eexists. split; [reflexivity|]. constructor; cbn [map_phi phi_name].
    + intros z Hz Hzy. destruct (decide (phi_name p = z)) as [->|]; [by rewrite !lookup_insert_eq|]. rewrite !lookup_insert_ne by done. by apply H1.
    + by rewrite lookup_insert_ne.
    + by rewrite !lookup_insert_ne by done.
    + cbn [existsb]. rewrite Ep. cbn [orb]. destruct (existsb (is_phi_of y) ps); by rewrite !lookup_insert_ne by done.
    + by apply based_insert.
    + intros x. apply Hdef.
Qed.

(** *** The instructions of a block *)

Lemma inst_name_in i : i ∈ all_insts F -> i <> iu -> i_name i ∈ all_names F /\ i_name i <> y /\ i_name i <> u /\ forall z tz, base = Local z tz -> i_name i <> z.
Proof.
  intros Hi Hne. split; [by eapply in_all_names|]. split; [by eapply no_inst_y|]. split; [intros E; by eapply Hne, only_advance|].
  intros z tz Ez. eapply no_inst_arg; [exact PL|by eapply base_arg|done].
Qed.
Lemma inst_redirected i e e' m w e1 m1 w1 : i ∈ all_insts F -> agree e e' ->
  exec_inst (M := with_calls M calls) ∅ i (e, m, w) = Some (e1, m1, w1) ->
  exists v, e1 = (if has_result i then <[i_name i := v]> e else e) /\
    exec_inst (M := with_calls M calls') ∅ (map_inst r i) (e', m, w) = Some (if has_result i then <[i_name i := v]> e' else e', m1, w1).
Proof.
  intros Hi Hag E. destruct (exec_inst_exchanged M calls calls' ∅ r i e e' m w e1 m1 w1) as (e1' & E1' & He); [..|exact E|].
  - intros h tt cc args w0 q _. apply Hcalls.
  - intros callee cc args Ek. apply redirect_else; [by eapply (pl_callees PL)|]. apply (pl_unused_inst PL i); [done|]. rewrite Ek. cbn [operands]. set_solver.
  - intros v Hv. assert (Hvu : is_local u v = false) by (by eapply (pl_unused_inst PL)). pose proof (inst_operand i v Hi Hv) as Hop. split; [|split; [|by apply eval_redirect]].
    + unfold redirect, replace_value at 2. rewrite Hvu. unfold replace_value. destruct (is_local y v) eqn:Ey; [|done]. by rewrite (pl_operand PL v Hop Ey).
    + unfold slot_of. destruct v; try done. unfold redirect, replace_value at 2. rewrite Hvu. unfold replace_value. by destruct (is_local y _).
  - destruct (exec_inst_writes _ _ _ _ _ _ _ _ E) as (v & Ev), (exec_inst_writes _ _ _ _ _ _ _ _ E1') as (v' & Ev').
    change (has_result (map_inst r i)) with (has_result i) in Ev'. cbn [map_inst i_name] in Ev'. rewrite E1'. destruct (has_result i); [|exists v; subst; by split].
    destruct He as [[-> ->]|(x & -> & ->)]; [|by exists x]. exists v. split; [done|].
    assert (Hv : e !! i_name i = Some v) by (rewrite Ev; by rewrite lookup_insert_eq). rewrite insert_id; [done|].
    destruct Hag as [Ho _]. rewrite Ho; [done|by eapply in_all_names|by eapply no_inst_y].
Qed.
(** Writing something else. *)
Lemma agree_insert e e' x v : x ∈ all_names F -> x <> y -> agree e e' -> agree (<[x := v]> e) (<[x := v]> e').
Proof.
  intros Hx Hy [H1 H2]. destruct (names_distinct x Hx) as (_ & Hg & _). split.
  - intros z Hz Hzy. destruct (decide (x = z)) as [->|]; [by rewrite !lookup_insert_eq|]. rewrite !lookup_insert_ne by done. by apply H1.
  - by rewrite !lookup_insert_ne by done.
Qed.
Lemma indexed_insert e e' x v : x ∈ all_names F -> x <> y -> x <> u -> indexed e e' -> indexed (<[x := v]> e) (<[x := v]> e').
Proof. intros Hx Hy Hu H. destruct (names_distinct x Hx) as (Hn & _ & Ha). unfold indexed. by rewrite !lookup_insert_ne by done. Qed.
Definition corresponds (e e' : env) : Prop := agree e e' /\ indexed e e' /\ based e.
(** The step: the index is advanced before the pointer is. *)
Lemma advance_redirected e e' m w e1 m1 w1 : corresponds e e' -> is_Some (e !! y) ->
  exec_inst (M := with_calls M calls) ∅ iu (e, m, w) = Some (e1, m1, w1) ->
  exists e1', exec_insts (M := with_calls M calls') ∅ (map (map_inst r) [new_step step a n; iu]) (e', m, w) = Some (e1', m1, w1) /\ corresponds e1 e1'.
Proof.
  intros (Hag & Hix & Hb) (p & Hp) E. destruct step_other as [Hsy Hsu]. destruct Hnew as (Hn & Hg & Ha & Hgn & Han & Hag').
  destruct (proj1 Hix p Hp) as (j & Hj & ->). cbn [map]. rewrite redirect_step. cbn [exec_insts].
  assert (Hs : eval e' step = eval e step).
  { rewrite <- (redirect_else step Hsy Hsu) at 1. by apply eval_redirect; [|apply (inst_operand iu); [apply advance_in|apply step_operand]|]. }
  rewrite exec_inst_no_slots. change (map _ (operands (i_kind (new_step step a n)))) with [eval e' (Local n i64); eval e' step]. cbn [Semantics.eval]. rewrite Hj, Hs. cbn [default from_option id].
  assert (Hadd : sem (Meaning := with_calls M calls') (new_step step a n) [j; eval e step] w = Some (plus j (eval e step), w)) by (by apply (step_add (M := M)); [|apply (pl_step PL)]).
  rewrite Hadd. cbn [mbind option_bind new_step inst i_type i_name].
  assert (Hag1 : agree e (<[a := plus j (eval e step)]> e')).
  { destruct Hag as [H1 H2]. split; [|by rewrite lookup_insert_ne]. intros z Hz Hzy. destruct (names_distinct z Hz) as (_ & _ & Hza). rewrite lookup_insert_ne by done. by apply H1. }
  destruct (inst_redirected iu e _ m w e1 m1 w1 advance_in Hag1 E) as (v & Ev & ->). rewrite (advance_result F avail pn iu inb base step t header bu b0 b1 PL) in *. cbn [mbind option_bind].
  eexists. split; [reflexivity|]. assert (Hv : v = advance B (plus j (eval e step))).
  { rewrite exec_inst_no_slots, (pl_kind PL) in E. change (map _ (operands (GetElementPtr _ _ _))) with [eval e (Local y (TyPtr t)); eval e step] in E. cbn [Semantics.eval] in E. rewrite Hp in E. cbn [default from_option id] in E.
    assert (Esem : sem (Meaning := with_calls M calls) iu [advance B j; eval e step] w = Some (advance (advance B j) (eval e step), w)).
    { rewrite (inst_is iu _ _ (pl_result PL) (pl_kind PL)). apply (step_gep (M := M)); [done|apply (pl_step PL)|by apply step_address]. }
    rewrite Esem in E. cbn [mbind option_bind] in E. rewrite (pl_result PL) in E. injection E as E _ _. rewrite <- step_twice by done.
    assert (Hl : e1 !! u = Some (advance (advance B j) (eval e step))) by (rewrite <- E; by rewrite lookup_insert_eq). rewrite Ev, lookup_insert_eq in Hl. by injection Hl. }
  subst e1 v. pose proof (names_u F avail pn iu inb base step t header bu b0 b1 PL) as Hu. destruct (names_distinct u Hu) as (Hun & Hug & Hua).
  assert (Hyu : y <> u) by (eapply y_not_u, PL). split; [by apply agree_insert|]. split.
  - split.
    + intros v. rewrite lookup_insert_ne by done. intros Hv. rewrite !lookup_insert_ne by done. by apply (proj1 Hix).
    + intros v. rewrite lookup_insert_eq. intros [= <-]. exists (plus j (eval e step)). split; [|done]. by rewrite lookup_insert_ne, lookup_insert_eq by done.
  - apply based_insert; [|done]. intros z tz Ez Euz. apply (base_not_u F avail pn iu inb base step t header bu b0 b1) in PL as Hbu. rewrite Ez in Hbu. cbn [is_local] in Hbu. rewrite Euz, String.eqb_refl in Hbu. done.
Qed.
Lemma insts_redirected l : forall defined e e' m w e1 m1 w1, (forall i, i ∈ l -> i ∈ all_insts F) -> insts_known F defined l = true -> (forall x, x ∈ defined -> is_Some (e !! x)) ->
  corresponds e e' -> exec_insts (M := with_calls M calls) ∅ l (e, m, w) = Some (e1, m1, w1) ->
  exists e1', exec_insts (M := with_calls M calls') ∅ (map (map_inst r) (flat_map (stage_insts u [new_step step a n]) l)) (e', m, w) = Some (e1', m1, w1) /\ corresponds e1 e1'.
Proof.
  induction l as [|i l IH]; intros defined e e' m w e1 m1 w1 Hl Hk Hd Hc E; cbn [exec_insts] in E; [injection E as <- <- <-; by exists e'|].
  apply bind_Some in E as ([[e2 m2] w2] & E2 & E). cbn [insts_known] in Hk. apply andb_true_iff in Hk as [Hk1 Hk2]. assert (Hi : i ∈ all_insts F) by (apply Hl; by left).
  assert (Hd2 : forall x, x ∈ (if has_result i then i_name i :: defined else defined) -> is_Some (e2 !! x)).
  { destruct (exec_inst_writes _ _ _ _ _ _ _ _ E2) as (v & ->). intros x Hx. destruct (has_result i); [|by apply Hd]. destruct (decide (i_name i = x)) as [<-|Hne]; [by rewrite lookup_insert_eq|].
    rewrite lookup_insert_ne by done. apply Hd. set_solver. }
  assert (Hgo : forall e2', corresponds e2 e2' -> exec_insts (M := with_calls M calls') ∅ (map (map_inst r) (stage_insts u [new_step step a n] i)) (e', m, w) = Some (e2', m2, w2) ->
    exists e1', exec_insts (M := with_calls M calls') ∅ (map (map_inst r) (flat_map (stage_insts u [new_step step a n]) (i :: l))) (e', m, w) = Some (e1', m1, w1) /\ corresponds e1 e1').
  { intros e2' Hc2 E2'. cbn [flat_map]. rewrite map_app, exec_insts_app, E2'. cbn [mbind option_bind]. eapply (IH _ e2); [intros k Hk; apply Hl; by right|exact Hk2|exact Hd2|done|exact E]. }
  unfold stage_insts at 1 in Hgo. destruct (named u i) eqn:Eu.
  - assert (i = iu) as -> by (by eapply named_u). assert (Hy : is_Some (e !! y)).
    { apply Hd. rewrite forallb_forall, (pl_kind PL) in Hk1. specialize (Hk1 (Local y (TyPtr t)) ltac:(by left)). cbn [known] in Hk1. apply orb_true_iff in Hk1 as [Hk1|Hk1]; apply bool_decide_eq_true in Hk1; [|done].
      exfalso. destruct (pl_header PL) as (b & Hb & _ & Hp). eapply arg_not_defined; [exact PL|exact Hb|by apply phi_defined|done]. }
    destruct (advance_redirected e e' m w e2 m2 w2 Hc Hy E2) as (e2' & E2' & Hc2). by apply (Hgo e2').
  - destruct Hc as (Hag & Hix & Hb). assert (Hne : i <> iu) by (intros ->; assert (named u iu = true) by (by eapply named_u); congruence).
    destruct (inst_redirected i e e' m w e2 m2 w2 Hi Hag E2) as (v & -> & E2'). destruct (inst_name_in i Hi Hne) as (N1 & N2 & N3 & N4).
    eapply Hgo; [|cbn [map exec_insts]; rewrite E2'; reflexivity]. destruct (has_result i); [|by split].
    split; [by apply agree_insert|]. split; [by apply indexed_insert|by apply based_insert].
Qed.

(** *** The blocks *)

Definition arriving (pred : option string) (l : string) (e e' : env) : Prop :=
  corresponds e e' /\ (forall x, x ∈ avail l -> is_Some (e !! x)) /\
  forall l0, pred = Some l0 -> exists b, b ∈ f_blocks F /\ bb_name b = l0 /\ forall x, x ∈ avail l0 ++ block_defs b -> is_Some (e !! x).
Lemma block_checked b : b ∈ f_blocks F -> block_check avail F b = true.
Proof. destruct (ssa_check_spec avail F (pl_ssa PL)) as (_ & _ & _ & H). apply H. Qed.
(** The advanced pointer is there when the loop is entered again. *)
Lemma advanced_defined pred l e e' : arriving pred l e e' -> pred = Some b1 -> is_Some (e !! u).
Proof.
  intros (_ & _ & Hpred) ->. destruct (Hpred b1 eq_refl) as (b & Hb & Eb & Hd). apply Hd. destruct (pl_header PL) as (bh & Hbh & _ & Hp).
  pose proof (block_checked bh Hbh) as Hc. unfold block_check in Hc. rewrite !andb_true_iff in Hc. destruct Hc as (_ & Hc). rewrite forallb_forall in Hc. apply list_elem_of_In in Hp. specialize (Hc pn Hp).
  unfold phi_known in Hc. rewrite forallb_forall in Hc. specialize (Hc (Local u (TyPtr t), b1) ltac:(destruct (pl_incoming PL) as [-> | ->]; cbn; tauto)). cbn [fst snd] in Hc.
  destruct (find_bb (f_blocks F) b1) as [b'|] eqn:Eb'; [|done]. apply (find_bb_spec F) in Eb' as [Hb' En].
  assert (b' = b) as -> by (apply (NoDup_map_eq bb_name (f_blocks F)); [eapply loop_unique, PL|done|done|congruence]).
  cbn [known] in Hc. apply orb_true_iff in Hc as [Hc|Hc]; apply bool_decide_eq_true in Hc; [|done]. exfalso. destruct (pl_advance PL) as (bu' & Hbu & _ & Hi).
  eapply arg_not_defined; [exact PL|exact Hbu|apply result_defined; [exact Hi|eapply advance_result, PL]|done].
Qed.
Lemma pointer_computed b e e' e1 e1' m w : entered (bb_phis b) e e' e1 e1' -> corresponds e e' ->
  exists e2', exec_insts (M := with_calls M calls') ∅ (map (map_inst r) (if has_phi y b then [new_pointer base t g n] else [])) (e1', m, w) = Some (e2', m, w) /\ corresponds e1 e2'.
Proof.
  intros [H1 H2 [H3 H3'] H4 H5 H6] ([Ho Hg] & [Hy Hu] & _). destruct Hnew as (Hn & Hgf & Ha & Hgn & Han & Hag). unfold has_phi in *. destruct (existsb (is_phi_of y) (bb_phis b)).
  - destruct H4 as (j & Hj & Hyj). cbn [map exec_insts]. rewrite redirect_pointer, exec_inst_no_slots.
    change (map _ (operands (i_kind (new_pointer base t g n)))) with [eval e1' base; eval e1' (Local n i64)]. rewrite (eval_base e1 e1' H1), H5. cbn [Semantics.eval]. rewrite Hj. cbn [default from_option id].
    assert (Hgep : sem (Meaning := with_calls M calls') (new_pointer base t g n) [B; j] w = Some (advance B j, w)) by (by apply (step_gep (M := M)); [apply (pl_base_type PL)|..]).
    rewrite Hgep. cbn [mbind option_bind new_pointer inst i_type i_name]. eexists. split; [reflexivity|]. split; [|split; [|done]].
    + split; [|by rewrite lookup_insert_eq]. intros z Hz Hzy. destruct (names_distinct z Hz) as (_ & Hzg & _). rewrite lookup_insert_ne by done. by apply H1.
    + split; intros v Hv.
      * exists j. rewrite lookup_insert_ne by done. split; [done|]. congruence.
      * rewrite H3' in Hv. destruct (Hu v Hv) as (k & Hk & ->). exists k. by rewrite lookup_insert_ne, H3 by done.
  - exists e1'. split; [done|]. destruct H4 as [H4 H4']. split; [split; [done|congruence]|]. split; [|done]. split; intros v Hv.
    + rewrite H4 in Hv. destruct (Hy v Hv) as (j & Hj & ->). exists j. by rewrite H4'.
    + rewrite H3' in Hv. destruct (Hu v Hv) as (k & Hk & ->). exists k. by rewrite H3.
Qed.
Abbreviation F' := (rewritten F pn iu base step t b0 b1 n g a).
Lemma runs_redirected fuel l pred e e' mem w res : arriving pred l e e' ->
  run_blocks (M := with_calls M calls) ∅ fuel (f_blocks F) l pred (e, mem, w) = Some res ->
  run_blocks (M := with_calls M calls') ∅ fuel (f_blocks F') l pred (e', mem, w) = Some res.
Proof.
  apply (run_blocks_simulated _ _ ∅ (f_blocks F) (f_blocks F') arriving). clear fuel l pred e e' mem w res. intros pred l e e' b Harr Eb.
  exists (map_block_operands r (stage_block y n u ways [new_pointer base t g n] [new_step step a n] b)). split.
  { unfold rewritten, map_blocks. cbn [f_blocks with_blocks]. unfold find_bb in *. induction (f_blocks F) as [|c bs IH]; [done|]. cbn [map List.find map_block_operands stage_block bb_name] in *.
    destruct (String.eqb (bb_name c) l); [by injection Eb as ->|by apply IH]. }
  apply (find_bb_spec F) in Eb as [Hb El]. intros mem w e1 e2 m2 w2 x E1 E2 Ex. pose proof Harr as ((Hag & Hix & Hbase) & Hav & _).
  destruct (enter_redirected b pred e e' Hb Hag Hix Hbase (advanced_defined _ _ _ _ Harr) (bb_phis b) e1 ltac:(done) E1) as (e1' & E1' & Hent).
  destruct (pointer_computed b e e' e1 e1' mem w Hent) as (ep & Ep & Hcp); [done|].
  pose proof (block_checked b Hb) as Hc. unfold block_check in Hc. rewrite !andb_true_iff in Hc. destruct Hc as (((Hc1 & Hc2) & _) & _).
  assert (Hd1 : forall z, z ∈ avail (bb_name b) ++ map phi_name (bb_phis b) -> is_Some (e1 !! z)).
  { intros z Hz. apply (en_defined _ _ _ _ _ Hent). apply elem_of_app in Hz as [Hz|Hz]; [left; apply Hav; by rewrite <- El|by right]. }
  destruct (insts_redirected (bb_insts b) _ e1 ep mem w e2 m2 w2 ltac:(intros i Hi; apply elem_of_flat_map; by exists b) Hc2 Hd1 Hcp E2) as (e2' & E2' & Hc2').
  exists e1', e2'. split; [exact E1'|]. split.
  { cbn [map_block_operands stage_block bb_insts]. rewrite map_app, exec_insts_app, Ep. exact E2'. }
  assert (Hv : forall v, v ∈ term_operands (bb_term b) -> eval e2' (r v) = eval e2 v).
  { intros v Hv. apply eval_redirect; [apply Hc2'|by eapply term_operand_in|by eapply (pl_unused_term PL)]. }
  split.
  - rewrite <- Ex. cbn [map_block_operands bb_term stage_block]. destruct (bb_term b) as [cv tl fl|l1|v| |v|]; cbn [map_term leave term_operands] in *; try done.
    + by rewrite (Hv cv ltac:(by left) : Semantics.eval (M := with_calls M calls') e2' (r cv) = Semantics.eval (M := with_calls M calls) e2 cv).
    + by rewrite (Hv v ltac:(by left) : Semantics.eval (M := with_calls M calls') e2' (r v) = Semantics.eval (M := with_calls M calls) e2 v).
  - intros l' ->. assert (Hd2 : forall z, z ∈ avail l ++ block_defs b -> is_Some (e2 !! z)).
    { intros z Hz. apply (exec_insts_defines _ _ _ _ _ _ _ _ E2). unfold block_defs in Hz. rewrite <- El in Hz. rewrite app_assoc in Hz. apply elem_of_app in Hz as [Hz|Hz]; [left; by apply Hd1|by right]. }
    split; [done|]. split.
    + intros z Hz. apply Hd2. rewrite forallb_forall in Hc1. assert (Hl : In l' (targets (bb_term b))).
      { destruct (bb_term b) as [cv tl fl|l1| | | |]; cbn [leave] in Ex; try done; injection Ex as <-; cbn [targets In]; [destruct (holds _)|]; tauto. }
      specialize (Hc1 l' Hl). unfold subset_b in Hc1. rewrite forallb_forall in Hc1. apply list_elem_of_In in Hz. specialize (Hc1 z Hz). apply bool_decide_eq_true in Hc1. by rewrite <- El.
    + intros l0 [= <-]. exists b. done.
Qed.
(** The phi node has no uses left. *)
Lemma phi_unused : use_empty F' y = true.
Proof.
  unfold use_empty. apply negb_true_iff. destruct (existsb _ _) eqn:E; [|done]. exfalso. apply existsb_exists in E as (v & Hv & Ev). apply list_elem_of_In in Hv.
  unfold all_operands, rewritten, map_blocks in Hv. cbn [f_blocks with_blocks] in Hv. apply elem_of_flat_map in Hv as (b' & Hb' & Hv). apply list_elem_of_fmap in Hb' as (b & -> & _).
  assert (Hr : forall o, is_local y (r o) = false).
  { intros o. unfold redirect. unfold replace_value at 1. destruct (is_local y (replace_value u pointer o)) eqn:Eo; [|done]. cbn [is_local]. apply String.eqb_neq.
    destruct Hnew as (_ & Hg & _). intros <-. apply Hg. eapply names_y, PL. }
  assert (Hmap : exists o, v = r o).
  { unfold block_operands, map_block_operands in Hv. cbn [bb_phis bb_insts bb_term] in Hv. rewrite !elem_of_app in Hv. destruct Hv as [Hv|[Hv|Hv]].
    - apply elem_of_flat_map in Hv as (p & Hp & Hv). apply list_elem_of_fmap in Hp as (q & -> & _). cbn [map_phi phi_incoming] in Hv. rewrite map_map in Hv. apply list_elem_of_fmap in Hv as (o & -> & _). by eexists.
    - apply elem_of_flat_map in Hv as (i & Hi & Hv). apply list_elem_of_fmap in Hi as (j & -> & _). cbn [map_inst i_kind] in Hv. rewrite operands_map in Hv. apply list_elem_of_fmap in Hv as (o & -> & _). by eexists.
    - cbn [stage_block bb_term] in Hv. destruct (bb_term b); cbn [map_term term_operands] in Hv; try (by apply not_elem_of_nil in Hv); apply list_elem_of_singleton in Hv as ->; by eexists. }
  destruct Hmap as (o & ->). by rewrite Hr in Ev.
Qed.
End simulation.

(** ** The theorem *)

(** C25: A loop along an object. Let a pointer phi node be entered with an argument
    or a constant and come back advanced by one getelementptr, whose step has 64
    bits and whose result is used nowhere else ([pointer_loop]), and let additions
    of indices add up ([PointerSteps]). Then handlePHI meets no assertion and
    replaces the phi node: in the function it makes nothing uses it any more, the
    blocks and arguments are the same, and whenever the old function returns from
    where only its arguments are defined and the pointer starts at an address, the
    new one returns the same value in the same number of blocks and leaves the same
    memory, slots and world. *)
Theorem handle_pointer_phi_correct {V W} (M : Meaning V W) `{!Uniform M} t is_address advance plus `{!PointerSteps M t is_address advance plus}
    fresh use_list m F avail pn iu inb base step header bu b0 b1 :
  (forall G, fresh G ∉ all_names G) -> (forall G x, Permutation (use_list G x) (all_users G x)) ->
  f_name F ∈ map f_name (m_functions m) -> NoDup (map f_name (m_functions m)) -> pointer_loop F avail pn iu inb base step t header bu b0 b1 ->
  exists F', handle_pointer_phi fresh use_list m pn F = Done (true, F') /\ use_empty F' (phi_name pn) = true /\
    f_args F' = f_args F /\ map bb_name (f_blocks F') = map bb_name (f_blocks F) /\
    forall calls calls', (forall h args w res, calls h args w = Some res -> calls' h args w = Some res) ->
    forall b bs, f_blocks F = b :: bs -> forall fuel e mem w res, (forall x, is_Some (e !! x) -> x ∈ map fst (f_args F)) -> is_address (eval (M := M) e base) ->
      run_blocks (M := with_calls M calls) ∅ fuel (f_blocks F) (bb_name b) None (e, mem, w) = Some res ->
      run_blocks (M := with_calls M calls') ∅ fuel (f_blocks F') (bb_name b) None (e, mem, w) = Some res.
Proof.
  intros Hfresh Huses Hm Hnames PL.
  destruct (loop_handled F avail pn iu inb base step t header bu b0 b1 PL fresh Hfresh use_list Huses m Hm Hnames) as (n & g & a & Hnew & E).
  exists (rewritten F pn iu base step t b0 b1 n g a). split; [exact E|]. split; [by eapply phi_unused|]. split; [done|]. split.
  { unfold rewritten, map_blocks. cbn [f_blocks with_blocks]. by rewrite map_map. }
  intros calls calls' Hcalls b bs Eb fuel e mem w res He Haddr. eapply (runs_redirected M is_address advance plus); [done..|].
  assert (Hnone : forall x, x ∉ map fst (f_args F) -> e !! x = None) by (intros x Hx; apply eq_None_not_Some; intros Hs; by apply Hx, He).
  assert (Hg : g ∉ map fst (f_args F)) by (destruct Hnew as (_ & Hg & _); intros Hx; apply Hg, all_names_elem; by left).
  destruct (pl_header PL) as (bh & Hbh & _ & Hp), (pl_advance PL) as (bu' & Hbu & _ & Hi).
  assert (Hy : e !! phi_name pn = None) by (apply Hnone; eapply arg_not_defined; [exact PL|exact Hbh|by apply phi_defined]).
  assert (Hu : e !! i_name iu = None) by (apply Hnone; eapply arg_not_defined; [exact PL|exact Hbu|apply result_defined; [done|eapply advance_result, PL]]).
  split; [split; [split; [done|by rewrite Hy, Hnone]|split; [split; intros v; congruence|done]]|]. split; [|done].
  destruct (ssa_check_spec avail F (pl_ssa PL)) as (_ & _ & Hav & _). rewrite (Hav b bs Eb). by intros x ?%not_elem_of_nil.
Qed.

(** *** Bytes in memory *)

Definition byte_advance (t : ty) (a x : Z) : Z := wrap 64 (a + swrap 64 x * byte_size t).
#[export] Instance byte_steps t : PointerSteps byte_meaning t (in_u 64) (byte_advance t) (fun x y => wrap 64 (x + y)).
Proof.
  assert (Hcong : forall z k, wrap 64 (z + k * 2 ^ 64) = wrap 64 z) by (intros z k; unfold wrap; by rewrite Z_mod_plus_full).
  constructor.
  - intros x inb p i a k w Hp Hi Ha. change (integer_sem byte_sem (inst x (TyPtr t) (GetElementPtr inb p [i])) [a; k] w = Some (byte_advance t a k, w)).
    unfold integer_sem, byte_sem. cbn [inst i_kind]. rewrite Hp. cbv zeta. assert (Ho : byte_offset (TyArr 0 t) [k] = swrap 64 k * byte_size t) by (change (swrap 64 k * byte_size t + byte_offset t [] = swrap 64 k * byte_size t); destruct t; cbn [byte_offset]; ring).
    rewrite Ho. unfold byte_advance.
    destruct (Z.eqb_spec (swrap 64 k * byte_size t) 0) as [->|]; [|done]. by rewrite Z.add_0_r, wrap_small.
  - intros x i j k l w Hi Hj. change (integer_sem byte_sem (inst x i64 (Binary Add i j)) [k; l] w = Some (wrap 64 (k + l), w)). unfold integer_sem. cbn [inst i_kind]. rewrite Hi.
    cbn [width mbind option_bind binary_value]. unfold wrap. by rewrite <- Zplus_mod.
  - intros a Ha. unfold byte_advance. change (swrap 64 _) with 0. by rewrite Z.mul_0_l, Z.add_0_r, wrap_small.
  - intros a k l Ha. unfold byte_advance. rewrite swrap_wrap. destruct (swrap_mod 64 k ltac:(lia)) as (c1 & ->), (swrap_mod 64 l ltac:(lia)) as (c2 & ->), (swrap_mod 64 (k + l) ltac:(lia)) as (c3 & ->).
    rewrite <- (Hcong (a + (k + l + c3 * 2 ^ 64) * byte_size t) ((c1 + c2 - c3) * byte_size t)). unfold wrap. rewrite Zplus_mod_idemp_l. f_equal. ring.
  - intros a k _. unfold byte_advance. by apply wrap_range.
Qed.
Lemma byte_uniform i i' vs (w : byte_memory) : i_name i = i_name i' -> i_type i = i_type i' -> skeleton (i_kind i) = skeleton (i_kind i') -> byte_sem i vs w = byte_sem i' vs w.
Proof.
  intros _ Ht Hk. unfold byte_sem. destruct (i_kind i), (i_kind i'); try discriminate Hk; cbn [skeleton map_operands] in Hk; unfold blank in Hk; try (injection Hk as; subst);
    destruct vs as [|x [|z [|? ?]]]; rewrite ?Ht; try reflexivity;
    repeat match goal with E : type_of _ = type_of _ |- _ => rewrite E; clear E end; reflexivity.
Qed.

(** *** A loop to an address *)

#[local] Abbreviation ptr x := (Local x (TyPtr (TyInt 8))).
Definition upward : Function_ := simple_walk [] (ptr "base") (ConstantInt 64 3) (ICmp ICMP_UGE (ptr "p") (ptr "last")).
Definition upward_phi : Phi := {| phi_name := "p"; phi_type := TyPtr (TyInt 8); phi_incoming := [(ptr "base", "entry"); (ptr "q", "loop")] |}.
Definition upward_avail (l : string) : list string := if String.eqb l "exit" then ["p"; "q"; "c"] else [].
Ltac every_elem H :=
  repeat match type of H with _ ∈ [] => by apply not_elem_of_nil in H | _ ∈ _ :: _ => apply elem_of_cons in H as [H|H]; [|] end.
Lemma upward_is_loop : pointer_loop upward upward_avail upward_phi (advance "q" (ConstantInt 64 3)) true (ptr "base") (ConstantInt 64 3) (TyInt 8) "loop" "loop" "entry" "loop".
Proof.
  assert (Hblocks : forall b, b ∈ f_blocks upward -> f_blocks upward !! 0%nat = Some b \/ f_blocks upward !! 1%nat = Some b \/ f_blocks upward !! 2%nat = Some b).
  { intros b (k & Hk)%list_elem_of_lookup. destruct k as [|[|[|k]]]; [tauto..|done]. }
  assert (Hinsts : forall i, i ∈ all_insts upward -> i = advance "q" (ConstantInt 64 3) \/ i = inst "c" (TyInt 1) (ICmp ICMP_UGE (ptr "p") (ptr "last"))).
  { intros i Hi. cbn in Hi. every_elem Hi; subst; tauto. }
  assert (Hops : forall v, v ∈ all_operands upward -> v = ptr "base" \/ v = ptr "q" \/ v = ptr "p" \/ v = ptr "last" \/ v = ConstantInt 64 3 \/ v = Local "c" (TyInt 1)).
  { intros v Hv. cbn in Hv. every_elem Hv; subst; tauto. }
  constructor; try done.
  - eexists. split; [right; left|]. split; [done|by left].
  - eexists. split; [right; left|]. split; [done|by left].
  - by left.
  - by left.
  - intros v Hv E. destruct (Hops v Hv) as [->|[->|[->|[->|[->| ->]]]]]; done.
  - intros b p v l Hb Hp Hv E. destruct (Hblocks b Hb) as [[= <-]|[[= <-]|[= <-]]]; cbn in Hp; every_elem Hp; subst; done.
  - intros i v Hi Hv. destruct (Hinsts i Hi) as [->| ->]; cbn in Hv; every_elem Hv; subst; done.
  - intros b v Hb Hv. destruct (Hblocks b Hb) as [[= <-]|[[= <-]|[= <-]]]; cbn in Hv; every_elem Hv; subst; done.
  - intros i inb' p idx Hi Ek _. by destruct (Hinsts i Hi) as [->| ->].
  - intros x tx Hx. apply (bool_decide_eq_true (x ∈ all_names upward)). destruct (Hops _ Hx) as [E|[E|[E|[E|[E|E]]]]]; try done; injection E as -> _; reflexivity.
  - intros i callee cc args Hi Ek. by destruct (Hinsts i Hi) as [->| ->].
  - intros i x Hi Hr. by destruct (Hinsts i Hi) as [->| ->].
  - intros l He. pose proof (branches_block upward l "loop" He) as Hl. cbn in Hl. every_elem Hl; subst; try tauto. by apply not_elem_of_nil in He.
  - right. by left.
Qed.
Lemma handle_pointer_phi_correct_witness : exists F' w, handle_pointer_phi longer_name all_users (walk_module upward) upward_phi upward = Done (true, F') /\
  use_empty F' "p" = true /\
  run_blocks (M := with_calls byte_meaning (fun _ _ _ => None)) ∅ 10 (f_blocks F') "entry" None ({[ "base" := 100; "last" := 110 ]}, ∅, (∅, 8192)) = Some (Some 112, w).
Proof.
  assert (Uniform byte_meaning) as HU by (apply integer_uniform; exact byte_uniform).
  destruct (handle_pointer_phi_correct byte_meaning (TyInt 8) (in_u 64) (byte_advance (TyInt 8)) (fun x y => wrap 64 (x + y)) longer_name all_users (walk_module upward) upward upward_avail
    upward_phi (advance "q" (ConstantInt 64 3)) true (ptr "base") (ConstantInt 64 3) "loop" "loop" "entry" "loop" longer_name_new) as (F' & E & Hu & _ & _ & Hrun).
  - intros G x. reflexivity.
  - left.
  - repeat constructor; intros H; inversion H.
  - exact upward_is_loop.
  - eexists F', _. split; [exact E|]. split; [exact Hu|].
    eapply (Hrun (fun _ _ _ => None) (fun _ _ _ => None) ltac:(done) _ _ eq_refl 10%nat).
    + intros x Hx. destruct (decide (x = "base")) as [->|H1]; [by left|]. destruct (decide (x = "last")) as [->|H2]; [by right; left|].
      destruct Hx as [v Hx]. rewrite lookup_insert_ne, lookup_singleton_ne in Hx by congruence. done.
    + vm_compute. split; [discriminate|reflexivity].
    + vm_compute. reflexivity.
Defined.
