(* ===== verification/RegAlloc.v ===== *)
(** * RegAlloc: values of the function become numbered slots

    libclambcc/ClamBCRegAlloc.cpp. The bytecode has no phi nodes: handlePHI
    turns each into a stack slot that the predecessors store to and the block
    loads from. Then runOnFunction gives every argument and every instruction
    with a result a number, which the writer uses for operands. *)
From S2P Require Import Prelude IR Semantics.
Local Open Scope string_scope.
Local Set Warnings "-register-all,-clear-no-such-hyp,-level-tolerance".
Local Open Scope Z_scope.

(** ** Phi nodes *)

(** The store a predecessor gets, once for each incoming edge. *)
Definition phi_stores (slot : string) (p : Phi) (l : string) : list Inst :=
  flat_map (fun inc : Value * string =>
    if String.eqb (snd inc) l
    then [{| i_name := ""; i_type := TyVoid; i_kind := Store (fst inc) (Local slot (TyPtr (phi_type p))) |}]
    else []) (phi_incoming p).

(** The load takes over the uses of the phi node, so it gets its name. *)
Definition phi_load (slot : string) (p : Phi) : Inst :=
  {| i_name := phi_name p; i_type := phi_type p; i_kind := Load (Local slot (TyPtr (phi_type p))) |}.
Definition phi_alloca (slot : string) (p : Phi) : Inst :=
  {| i_name := slot; i_type := TyPtr (phi_type p); i_kind := Alloca (phi_type p) (ConstantInt 32 1) |}.

Definition is_phi (x : string) (p : Phi) : bool := String.eqb (phi_name p) x.

(** The load goes before the first instruction that is no phi node. *)
Definition replace_phi (slot : string) (p : Phi) (b : Block) : Block :=
  {| bb_name := bb_name b;
     bb_phis := List.filter (fun q => negb (is_phi (phi_name p) q)) (bb_phis b);
     bb_insts := phi_load slot p :: bb_insts b;
     bb_term := bb_term b |}.
Definition store_phi (slot : string) (p : Phi) (b : Block) : Block :=
  {| bb_name := bb_name b; bb_phis := bb_phis b;
     bb_insts := bb_insts b ++ phi_stores slot p (bb_name b);
     bb_term := bb_term b |}.
Definition add_alloca (slot : string) (p : Phi) (bs : list Block) : list Block :=
  match bs with
  | [] => []
  | b :: bs => {| bb_name := bb_name b; bb_phis := bb_phis b;
                  bb_insts := phi_alloca slot p :: bb_insts b; bb_term := bb_term b |} :: bs
  end.

(** handlePHI for the phi node [p] of block [l]. *)
Definition handlePHI (slot : string) (l : string) (p : Phi) (f : Function_) : Function_ :=
  with_blocks f (add_alloca slot p
    (map (fun b => map_block (replace_phi slot p) l (store_phi slot p b)) (f_blocks f))).

(** The phi nodes, block by block. *)
Definition pns (f : Function_) : list (string * Phi) :=
  flat_map (fun b => map (fun p => (bb_name b, p)) (bb_phis b)) (f_blocks f).

(** [fresh f x]: the name LLVM gives the slot, one the function does not have. *)
Definition handle_all (fresh : Function_ -> string -> string) (f : Function_) : Function_ :=
  fold_left (fun g lp => handlePHI (fresh g (phi_name (snd lp))) (fst lp) (snd lp) g) (pns f) f.

Section semantics.
Context {V W : Type} {M : Meaning V W}.
Abbreviation env := (gmap string V).

(** ** A phi node and its slot *)

Section one_phi.
Context (slots : gset string) (slot : string) (l : string) (p : Phi).

(** The same memory but for the new slot. *)
Definition agree (m m' : env) : Prop := forall x, x <> slot -> m !! x = m' !! x.

(** The instruction does not mention the new slot. *)
Definition unrelated (i : Inst) : Prop :=
  i_name i <> slot /\ Forall (fun v => is_local slot v = false) (operands (i_kind i)).

Lemma slot_of_unrelated v : is_local slot v = false -> slot_of ({[slot]} ∪ slots) v = slot_of slots v.
Proof.
  destruct v; try done. simpl. intros H. destruct (String.eqb_spec slot x) as [|Hne]; [done|].
  destruct (decide (x ∈ slots)) as [Hi|Hi]; destruct (decide (x ∈ {[slot]} ∪ slots)) as [Hj|Hj]; set_solver.
Qed.
Lemma slot_of_not v x : is_local slot v = false -> slot_of slots v = Some x -> x <> slot.
Proof.
  destruct v; try done. simpl. intros H. destruct (String.eqb_spec slot x0) as [|Hne]; [done|].
  destruct (decide (x0 ∈ slots)); intros [= <-]; congruence.
Qed.

Lemma exec_inst_unrelated i e m m' w e1 m1 w1 : unrelated i -> agree m m' ->
  exec_inst slots i (e, m, w) = Some (e1, m1, w1) ->
  exists m1', exec_inst ({[slot]} ∪ slots) i (e, m', w) = Some (e1, m1', w1) /\ agree m1 m1' /\
    m1' !! slot = m' !! slot.
Proof.
  intros [Hn Ho] Ha.
  set (generic := fun m : env => match sem i (map (eval e) (operands (i_kind i))) w with
    | Some (v, w) => Some (match i_type i with TyVoid => e | _ => <[i_name i := v]> e end, m, w)
    | None => None end).
  assert (G : generic m = Some (e1, m1, w1) ->
    exists m1', generic m' = Some (e1, m1', w1) /\ agree m1 m1' /\ m1' !! slot = m' !! slot).
  { unfold generic. destruct (sem _ _ _) as [[v w']|]; [|done]. intros [= <- <- <-]. eauto. }
  unfold exec_inst. fold (generic m) (generic m').
  destruct (i_kind i) as [t ar|q|v q| | | | | | | | |] eqn:Ek; try exact G; cbn [operands] in Ho.
  - destruct (decide (i_name i ∈ slots)) as [Hi|Hi];
      destruct (decide (i_name i ∈ {[slot]} ∪ slots)) as [Hj|Hj].
    + intros [= <- <- <-]. eauto.
    + set_solver.
    + set_solver.
    + exact G.
  - apply Forall_inv in Ho. rewrite (slot_of_unrelated q Ho).
    destruct (slot_of slots q) as [x|] eqn:E; [|exact G].
    rewrite (Ha x) by now apply (slot_of_not q). simpl.
    destruct (m' !! x) as [v|]; [|done]. intros [= <- <- <-]. eauto.
  - apply Forall_inv_tail, Forall_inv in Ho. rewrite (slot_of_unrelated q Ho).
    destruct (slot_of slots q) as [x|] eqn:E; [|exact G]. apply (slot_of_not q) in E; [|done].
    intros [= <- <- <-]. eexists. split; [done|]. split.
    + intros y Hy. destruct (decide (y = x)) as [->|]; [now rewrite !lookup_insert_eq|].
      rewrite !lookup_insert_ne by done. now apply Ha.
    + now rewrite lookup_insert_ne.
Qed.

Lemma exec_insts_unrelated is_ e m m' w e1 m1 w1 : Forall unrelated is_ -> agree m m' ->
  exec_insts slots is_ (e, m, w) = Some (e1, m1, w1) ->
  exists m1', exec_insts ({[slot]} ∪ slots) is_ (e, m', w) = Some (e1, m1', w1) /\ agree m1 m1' /\
    m1' !! slot = m' !! slot.
Proof.
  intros H. revert e m m' w. induction H as [|i is_ Hi _ IH]; intros e m m' w Ha E.
  - injection E as <- <- <-. cbn. eauto.
  - cbn [exec_insts] in *. apply bind_Some in E as ([[e2 m2] w2] & E1 & E).
    destruct (exec_inst_unrelated i e m m' w e2 m2 w2 Hi Ha E1) as (m2' & -> & Ha2 & Hs2).
    destruct (IH e2 m2 m2' w2 Ha2 E) as (m1' & E' & Ha1 & Hs1).
    exists m1'. cbn. rewrite Hs1. auto.
Qed.


(** The stores at the end of a predecessor leave the incoming value in the slot. *)
Lemma exec_stores incs t (q : string) e m w :
  (forall i1 i2, i1 ∈ incs -> i2 ∈ incs -> snd i1 = snd i2 -> fst i1 = fst i2) ->
  exists m1,
    exec_insts ({[slot]} ∪ slots) (flat_map (fun inc : Value * string =>
      if String.eqb (snd inc) q
      then [{| i_name := ""; i_type := TyVoid; i_kind := Store (fst inc) (Local slot t) |}]
      else []) incs) (e, m, w) = Some (e, m1, w) /\ agree m m1 /\
    forall v, fst <$> List.find (fun inc : Value * string => String.eqb (snd inc) q) incs = Some v ->
      m1 !! slot = Some (eval e v).
Proof.
  revert m. induction incs as [|[v q'] incs IH]; intros m Hc; [exists m; done|].
  cbn [flat_map snd fst List.find]. destruct (String.eqb_spec q' q) as [->|Hne].
  - cbn [app exec_insts exec_inst i_kind slot_of].
    rewrite decide_True by set_solver. cbn.
    destruct (IH (<[slot := eval e v]> m)) as (m1 & E & Ha & Hf).
    { intros i1 i2 H1 H2. apply Hc; now right. }
    exists m1. split; [exact E|]. split.
    { intros x Hx. rewrite <- Ha by done. now rewrite lookup_insert_ne. }
    intros v' [= <-].
    destruct (List.find (fun inc : Value * string => String.eqb (snd inc) q) incs) as [[v2 q2]|] eqn:F.
    + rewrite (Hf v2 eq_refl). f_equal. f_equal.
      apply List.find_some in F as [Fi Fq]. apply String.eqb_eq in Fq. simpl in Fq.
      apply (Hc (v2, q2) (v, q)); [right; now apply list_elem_of_In|left|done].
    + assert (Z : flat_map (fun inc : Value * string => if String.eqb (snd inc) q
        then [{| i_name := ""; i_type := TyVoid; i_kind := Store (fst inc) (Local slot t) |}] else []) incs = []).
      { clear - F. induction incs as [|[v2 q2] incs IH]; [done|]. simpl in *.
        destruct (String.eqb q2 q); [done|]. now apply IH. }
      rewrite Z in E. injection E as <-. now rewrite lookup_insert_eq.
  - apply IH. intros i1 i2 H1 H2. apply Hc; now right.
Qed.

(** Entering a block without one of its phi nodes. *)
Lemma enter_without e q ps e1 : p ∈ ps -> NoDup (map phi_name ps) -> enter e (Some q) ps = Some e1 ->
  exists e2 v, enter e (Some q) (List.filter (fun r => negb (is_phi (phi_name p) r)) ps) = Some e2 /\
    incoming p q = Some v /\ e1 = <[phi_name p := eval e v]> e2.
Proof.
  revert e1. induction ps as [|r ps IH]; intros e1 Hp Hd H; [now apply not_elem_of_nil in Hp|].
  cbn [enter] in H. simpl in H. apply bind_Some in H as (v & Hv & H). apply bind_Some in H as (e2 & He & H).
  injection H as <-. apply NoDup_cons in Hd as [Hn Hd]. cbn [List.filter].
  apply elem_of_cons in Hp as [<-|Hp].
  - unfold is_phi at 1. rewrite String.eqb_refl. cbn [negb]. exists e2, v. split; [|done].
    rewrite <- He. f_equal. clear - Hn. induction ps as [|r ps IH]; [done|]. simpl in *.
    apply not_elem_of_cons in Hn as [H1 H2]. unfold is_phi.
    destruct (String.eqb_spec (phi_name r) (phi_name p)); [congruence|]. simpl. f_equal. now apply IH.
  - assert (Hne : phi_name r <> phi_name p).
    { intros E. apply Hn. rewrite E. apply list_elem_of_In, in_map, list_elem_of_In, Hp. }
    unfold is_phi at 1. apply String.eqb_neq in Hne as Hb. rewrite Hb. cbn [negb].
    destruct (IH e2 Hp Hd He) as (e3 & u & E & Hu & ->). exists (<[phi_name r := eval e v]> e3), u.
    split; [|split; [done|]].
    + cbn [enter]. simpl. now rewrite Hv, E.
    + now rewrite insert_insert_ne.
Qed.

(** ** One phi node of a function *)

Context (f : Function_) (b0 : Block).
Abbreviation f' := (handlePHI slot l p f).

(** What LLVM's verifier guarantees, and a name for the slot that is new. *)
Definition phi_ok : Prop :=
  find_bb (f_blocks f) l = Some b0 /\ p ∈ bb_phis b0 /\
  NoDup (map bb_name (f_blocks f)) /\ NoDup (map phi_name (bb_phis b0)) /\
  (forall i1 i2, i1 ∈ phi_incoming p -> i2 ∈ phi_incoming p -> snd i1 = snd i2 -> fst i1 = fst i2) /\
  slot ∉ all_names f /\ Forall (fun v => is_local slot v = false) (all_operands f).

(** The block of [f'] for one of [f]; the entry block has the allocation too. *)
Definition new_block (entry : bool) (b : Block) : Block :=
  let b := map_block (replace_phi slot p) l (store_phi slot p b) in
  if entry then
    {| bb_name := bb_name b; bb_phis := bb_phis b;
       bb_insts := phi_alloca slot p :: bb_insts b; bb_term := bb_term b |}
  else b.

Lemma new_block_name entry b : bb_name (new_block entry b) = bb_name b.
Proof.
  unfold new_block, map_block. destruct entry, (String.eqb (bb_name (store_phi slot p b)) l); reflexivity.
Qed.

Lemma find_new_block bs x b : find_bb bs x = Some b ->
  exists entry, find_bb (add_alloca slot p
    (map (fun b => map_block (replace_phi slot p) l (store_phi slot p b)) bs)) x = Some (new_block entry b).
Proof.
  assert (G : forall bs, find_bb bs x = Some b ->
    find_bb (map (fun b => map_block (replace_phi slot p) l (store_phi slot p b)) bs) x = Some (new_block false b)).
  { clear bs. intros bs. unfold find_bb. induction bs as [|b1 bs IH]; [done|]. cbn [map List.find].
    change (map_block (replace_phi slot p) l (store_phi slot p b1)) with (new_block false b1).
    rewrite new_block_name. destruct (String.eqb (bb_name b1) x); [now intros [= <-]|exact IH]. }
  destruct bs as [|b1 bs]; [done|]. unfold find_bb. cbn [map add_alloca List.find].
  change (map_block (replace_phi slot p) l (store_phi slot p b1)) with (new_block false b1).
  cbn [bb_name]. rewrite new_block_name. destruct (String.eqb (bb_name b1) x).
  - intros [= ->]. exists true. unfold new_block, map_block. now destruct (String.eqb (bb_name (store_phi slot p b)) l).
  - intros H. exists false. now apply G.
Qed.

Lemma block_unrelated b x : phi_ok -> find_bb (f_blocks f) x = Some b ->
  bb_name b = x /\ Forall unrelated (bb_insts b).
Proof.
  intros (_ & _ & _ & _ & _ & Hn & Ho) H. apply List.find_some in H as [Hb Hx].
  apply String.eqb_eq in Hx. split; [done|]. apply List.Forall_forall. intros i Hi. split.
  - intros E. apply Hn. unfold all_names. apply elem_of_app. right.
    apply list_elem_of_In, in_flat_map. exists b. split; [done|].
    unfold block_names. apply in_or_app. right. rewrite <- E. now apply in_map.
  - rewrite List.Forall_forall in Ho. apply List.Forall_forall. intros v Hv. apply Ho.
    unfold all_operands. apply in_flat_map. exists b. split; [done|].
    unfold block_operands. apply in_or_app. right. apply in_or_app. left.
    apply in_flat_map. eauto.
Qed.

Lemma slot_of_slot t : slot_of ({[slot]} ∪ slots) (Local slot t) = Some slot.
Proof. simpl. destruct (decide (slot ∈ {[slot]} ∪ slots)); [done|set_solver]. Qed.

Lemma exec_alloca l' s : exec_insts ({[slot]} ∪ slots) (phi_alloca slot p :: l') s = exec_insts ({[slot]} ∪ slots) l' s.
Proof.
  destruct s as [[e m] w]. cbn [exec_insts exec_inst phi_alloca i_kind i_name].
  destruct (decide (slot ∈ {[slot]} ∪ slots)); [done|set_solver].
Qed.

Lemma exec_load l' e m w y : m !! slot = Some y ->
  exec_insts ({[slot]} ∪ slots) (phi_load slot p :: l') (e, m, w)
  = exec_insts ({[slot]} ∪ slots) l' (<[phi_name p := y]> e, m, w).
Proof.
  intros H. cbn [exec_insts exec_inst phi_load i_kind i_name operands]. rewrite slot_of_slot. simpl.
  now rewrite H.
Qed.

(** The body of a block, with the stores for its successors. *)
Lemma exec_body b x e m m' w e1 m1 w1 : phi_ok -> find_bb (f_blocks f) x = Some b -> agree m m' ->
  exec_insts slots (bb_insts b) (e, m, w) = Some (e1, m1, w1) ->
  exists m1', exec_insts ({[slot]} ∪ slots) (bb_insts b ++ phi_stores slot p (bb_name b)) (e, m', w) = Some (e1, m1', w1)
    /\ agree m1 m1' /\ forall v, incoming p x = Some v -> m1' !! slot = Some (eval e1 v).
Proof.
  intros Hok Hb Ha H. destruct (block_unrelated b x Hok Hb) as [Hx Hu]. subst x.
  destruct (exec_insts_unrelated _ _ _ m' _ _ _ _ Hu Ha H) as (m2 & E2 & Ha2 & _).
  destruct Hok as (_ & _ & _ & _ & Hc & _).
  destruct (exec_stores (phi_incoming p) (TyPtr (phi_type p)) (bb_name b) e1 m2 w1 Hc) as (m3 & E3 & Ha3 & Hs).
  exists m3. split; [rewrite exec_insts_app, E2; exact E3|]. split; [|exact Hs].
  intros y Hy. rewrite (Ha2 y Hy). now apply Ha3.
Qed.

Lemma run_simulates fuel x pred e m m' w r : phi_ok -> agree m m' ->
  (x = l -> forall q v, pred = Some q -> incoming p q = Some v -> m' !! slot = Some (eval e v)) ->
  run_blocks slots fuel (f_blocks f) x pred (e, m, w) = Some r ->
  run_blocks ({[slot]} ∪ slots) fuel (f_blocks f') x pred (e, m', w) = Some r.
Proof.
  intros Hok. revert x pred e m m' w. induction fuel as [|fuel IH]; intros x pred e m m' w Ha Hs H; [done|].
  cbn [run_blocks] in *. apply bind_Some in H as (b & Hb & H). apply bind_Some in H as (e0 & He & H).
  apply bind_Some in H as ([[e1 m1] w1] & Hi & H). apply bind_Some in H as (ex & Hx & H).
  destruct (find_new_block _ _ _ Hb) as (entry & Hb'). change (f_blocks f') with
    (add_alloca slot p (map (fun b => map_block (replace_phi slot p) l (store_phi slot p b)) (f_blocks f))) in *.
  rewrite Hb'. cbn [mbind option_bind].
  destruct (exec_body b x e0 m m' w e1 m1 w1 Hok Hb Ha Hi) as (m1' & Ei & Ha1 & Hs1).
  assert (Hnext : match ex with
      | Goto l' => run_blocks ({[slot]} ∪ slots) fuel (add_alloca slot p (map (fun b => map_block (replace_phi slot p) l (store_phi slot p b)) (f_blocks f))) l' (Some x) (e1, m1', w1)
      | Returned v => Some (v, w1) end = Some r).
  { destruct ex as [l'|v]; [|exact H]. apply (IH l' (Some x) e1 m1 m1' w1 Ha1); [|exact H].
    intros _ q v [= <-]. apply Hs1. }
  assert (Hbody : exists e0', enter e pred (bb_phis (new_block entry b)) = Some e0' /\
    exec_insts ({[slot]} ∪ slots) (bb_insts (new_block entry b)) (e0', m', w) = Some (e1, m1', w1)).
  { destruct (block_unrelated b x Hok Hb) as [Hname _]. unfold new_block, map_block. cbn [bb_name store_phi].
    destruct (String.eqb_spec (bb_name b) l) as [El|Hne].
    - destruct Hok as (Hl & Hp & _ & Hd & _). assert (b = b0) as -> by congruence.
      destruct pred as [q|].
      + destruct (enter_without e q (bb_phis b0) e0 Hp Hd He) as (e2 & v & E2 & Hv & ->).
        exists e2. split; [destruct entry; exact E2|].
        destruct entry; cbn [bb_insts replace_phi store_phi]; rewrite ?exec_alloca;
          rewrite (exec_load _ _ _ _ (eval e v)) by (apply (Hs ltac:(congruence) q v eq_refl Hv)); exact Ei.
      + exfalso. destruct (bb_phis b0); [now apply not_elem_of_nil in Hp|done].
    - exists e0. destruct entry; cbn [bb_phis bb_insts store_phi]; rewrite ?exec_alloca; auto. }
  destruct Hbody as (e0' & -> & Eb). cbn [mbind option_bind]. rewrite Eb. cbn [mbind option_bind].
  assert (bb_term (new_block entry b) = bb_term b) as ->.
  { unfold new_block, map_block. now destruct entry, (String.eqb (bb_name (store_phi slot p b)) l). }
  rewrite Hx. exact Hnext.
Qed.
End one_phi.

(** ** All phi nodes *)

Definition consistent (p : Phi) : Prop :=
  forall i1 i2, i1 ∈ phi_incoming p -> i2 ∈ phi_incoming p -> snd i1 = snd i2 -> fst i1 = fst i2.

(** What LLVM's verifier guarantees: blocks have different names, so have the
    phi nodes of a block, and a predecessor that occurs twice brings one value. *)
Definition wf_phis (bs : list Block) : Prop :=
  NoDup (map bb_name bs) /\
  Forall (fun b => NoDup (map phi_name (bb_phis b)) /\ Forall consistent (bb_phis b)) bs.

Definition fresh_ok (fresh : Function_ -> string -> string) : Prop :=
  forall f x, fresh f x ∉ all_names f /\ Forall (fun v => is_local (fresh f x) v = false) (all_operands f).

Lemma find_bb_in bs b : NoDup (map bb_name bs) -> b ∈ bs -> find_bb bs (bb_name b) = Some b.
Proof.
  unfold find_bb. induction bs as [|b1 bs IH]; intros Hd Hb; [now apply not_elem_of_nil in Hb|].
  cbn [map] in Hd. apply NoDup_cons in Hd as [Hn Hd]. cbn [List.find].
  apply elem_of_cons in Hb as [->|Hb]; [now rewrite String.eqb_refl|].
  destruct (String.eqb_spec (bb_name b1) (bb_name b)) as [E|]; [|auto].
  exfalso. apply Hn. rewrite E. apply list_elem_of_In, in_map, list_elem_of_In, Hb.
Qed.

Lemma new_blocks slot l p f b : b ∈ f_blocks (handlePHI slot l p f) ->
  exists entry b1, b1 ∈ f_blocks f /\ b = new_block slot l p entry b1.
Proof.
  unfold handlePHI. cbn [f_blocks with_blocks].
  assert (G : forall bs, b ∈ map (fun b => map_block (replace_phi slot p) l (store_phi slot p b)) bs ->
    exists entry b1, b1 ∈ bs /\ b = new_block slot l p entry b1).
  { intros bs H. apply list_elem_of_In, in_map_iff in H as (b1 & <- & H).
    exists false, b1. split; [now apply list_elem_of_In|done]. }
  destruct (f_blocks f) as [|b1 bs]; [intros H; now apply not_elem_of_nil in H|]. cbn [map add_alloca].
  intros H. apply elem_of_cons in H as [->|H].
  - exists true, b1. split; [left|done].
  - destruct (G bs H) as (entry & b2 & Hb & ->). exists entry, b2. split; [now right|done].
Qed.

Lemma new_block_phis slot l p entry b : bb_phis (new_block slot l p entry b) =
  if String.eqb (bb_name b) l then List.filter (fun q => negb (is_phi (phi_name p) q)) (bb_phis b) else bb_phis b.
Proof. unfold new_block, map_block. cbn [bb_name store_phi]. now destruct entry, (String.eqb (bb_name b) l). Qed.

Lemma handle_names slot l p f : map bb_name (f_blocks (handlePHI slot l p f)) = map bb_name (f_blocks f).
Proof.
  unfold handlePHI. cbn [f_blocks with_blocks].
  assert (G : forall bs, map bb_name (map (fun b => map_block (replace_phi slot p) l (store_phi slot p b)) bs) = map bb_name bs).
  { intros bs. rewrite map_map. apply map_ext. intros b. exact (new_block_name slot l p false b). }
  destruct (f_blocks f) as [|b bs]; [done|]. cbn [map add_alloca bb_name]. f_equal; [|apply G].
  exact (new_block_name slot l p false b).
Qed.

Lemma handle_wf slot l p f : wf_phis (f_blocks f) -> wf_phis (f_blocks (handlePHI slot l p f)).
Proof.
  intros [Hd Hf]. split; [now rewrite handle_names|]. apply Forall_forall. intros b Hb.
  apply new_blocks in Hb as (entry & b1 & Hb & ->). rewrite new_block_phis.
  rewrite Forall_forall in Hf. destruct (Hf b1 Hb) as [H1 H2]. destruct (String.eqb (bb_name b1) l); [|done].
  clear - H1 H2. induction (bb_phis b1) as [|q ps IH]; [done|]. cbn [List.filter map] in *.
  apply NoDup_cons in H1 as [Hn H1]. apply Forall_cons in H2 as [Hc H2].
  destruct (IH H1 H2) as [I1 I2]. destruct (negb (is_phi (phi_name p) q)); [|done].
  cbn [map]. split; [|now constructor]. apply NoDup_cons. split; [|done].
  intros Hi. apply Hn. apply list_elem_of_In, in_map_iff in Hi as (q2 & E & Hi).
  apply filter_In in Hi as [Hi _]. rewrite <- E. apply list_elem_of_In, in_map, Hi.
Qed.

Lemma names_grow slot l p f x : x ∈ all_names f -> x ∈ all_names (handlePHI slot l p f).
Proof.
  unfold all_names. rewrite !elem_of_app. intros [H|H]; [now left|right].
  assert (G : forall entry b, x ∈ block_names b -> x ∈ block_names (new_block slot l p entry b)).
  { intros entry b. unfold block_names. rewrite new_block_phis, !elem_of_app.
    assert (I : x ∈ map i_name (bb_insts b) -> x ∈ map i_name (bb_insts (new_block slot l p entry b))).
    { intros Hx. unfold new_block, map_block. cbn [bb_name store_phi].
      destruct entry, (String.eqb (bb_name b) l); cbn [bb_insts replace_phi store_phi map]; rewrite ?map_app;
        repeat (first [apply elem_of_app; left; exact Hx | right]). }
    intros [Hx|Hx]; [|right; auto]. destruct (String.eqb (bb_name b) l) eqn:El; [|now left].
    apply list_elem_of_In, in_map_iff in Hx as (q & <- & Hq).
    destruct (is_phi (phi_name p) q) eqn:Eq.
    - right. apply String.eqb_eq in Eq. rewrite Eq. unfold new_block, map_block. cbn [bb_name store_phi].
      rewrite El. destruct entry; cbn [bb_insts replace_phi map]; [right|]; left.
    - left. apply list_elem_of_In, in_map, filter_In. now rewrite Eq. }
  apply list_elem_of_In, in_flat_map in H as (b & Hin & Hx). apply list_elem_of_In, in_flat_map.
  unfold handlePHI. cbn [f_blocks with_blocks]. apply list_elem_of_In in Hx.
  destruct (f_blocks f) as [|b1 bs]; [done|]. cbn [map add_alloca]. destruct Hin as [->|Hin].
  - eexists. split; [now left|]. apply list_elem_of_In. exact (G true b Hx).
  - exists (new_block slot l p false b). split; [|apply list_elem_of_In; exact (G false b Hx)].
    right. apply (in_map (fun b => map_block (replace_phi slot p) l (store_phi slot p b))), Hin.
Qed.

Section all_phis.
Context (fresh : Function_ -> string -> string) (Hfresh : fresh_ok fresh).

Definition handle (g : Function_) (lp : string * Phi) : Function_ :=
  handlePHI (fresh g (phi_name (snd lp))) (fst lp) (snd lp) g.

(** The phi nodes still to handle. *)
Definition pending (ps : list (string * Phi)) (g : Function_) : Prop :=
  wf_phis (f_blocks g) /\ NoDup (map (fun lp => (fst lp, phi_name (snd lp))) ps) /\
  Forall (fun lp => exists b, find_bb (f_blocks g) (fst lp) = Some b /\ snd lp ∈ bb_phis b) ps /\
  (forall b q, b ∈ f_blocks g -> q ∈ bb_phis b -> (bb_name b, q) ∈ ps).

Lemma pending_step lp ps g : pending (lp :: ps) g -> pending ps (handle g lp).
Proof.
  intros (Hw & Hd & Hf & Ha). destruct lp as [l p]. cbn [map fst snd] in *.
  apply NoDup_cons in Hd as [Hn Hd]. apply Forall_cons in Hf as [(b0 & Hb0 & Hp) Hf].
  split; [now apply handle_wf|]. split; [done|]. split.
  - apply Forall_forall. intros [l2 q] Hq. rewrite Forall_forall in Hf.
    destruct (Hf _ Hq) as (b & Hb & Hqb). cbn [fst snd] in *.
    destruct (find_new_block (fresh g (phi_name p)) l p (f_blocks g) l2 b Hb) as (entry & E).
    eexists. split; [exact E|]. rewrite new_block_phis.
    destruct (String.eqb_spec (bb_name b) l) as [El|]; [|done].
    apply list_elem_of_In, filter_In. split; [now apply list_elem_of_In|].
    unfold is_phi. destruct (String.eqb_spec (phi_name q) (phi_name p)) as [En|]; [|done].
    exfalso. apply Hn. apply List.find_some in Hb as [_ Hb]. apply String.eqb_eq in Hb.
    apply list_elem_of_In, in_map_iff. exists (l2, q). cbn [fst snd].
    split; [congruence|now apply list_elem_of_In].
  - intros b q Hb Hq. apply new_blocks in Hb as (entry & b1 & Hb & ->).
    rewrite new_block_name. rewrite new_block_phis in Hq. cbn [fst snd] in Hq.
    assert (Hq1 : q ∈ bb_phis b1).
    { destruct (String.eqb (bb_name b1) l); [|exact Hq].
      apply list_elem_of_In, filter_In in Hq as [Hq _]. now apply list_elem_of_In. }
    specialize (Ha b1 q Hb Hq1). apply elem_of_cons in Ha as [[= E ->]|Ha]; [|done].
    rewrite E, String.eqb_refl in Hq. apply list_elem_of_In, filter_In in Hq as [_ Hq].
    unfold is_phi in Hq. now rewrite String.eqb_refl in Hq.
Qed.

Lemma pending_phi_ok l p ps g : pending ((l, p) :: ps) g ->
  exists b0, phi_ok (fresh g (phi_name p)) l p g b0.
Proof.
  intros (Hw & _ & Hf & _). apply Forall_inv in Hf as (b0 & Hb & Hp). exists b0.
  destruct Hw as [Hd Hw]. rewrite Forall_forall in Hw. cbn [fst snd] in *.
  assert (Hin : b0 ∈ f_blocks g) by (apply List.find_some in Hb as [Hb _]; now apply list_elem_of_In).
  destruct (Hw b0 Hin) as [H1 H2]. rewrite Forall_forall in H2.
  destruct (Hfresh g (phi_name p)) as [H3 H4]. repeat split; auto. exact (H2 p Hp).
Qed.

Lemma handle_fold ps g slots : pending ps g ->
  Forall (fun b => bb_phis b = []) (f_blocks (fold_left handle ps g)) /\
  exists slots', (forall x, x ∈ slots' -> x ∈ slots \/ x ∉ all_names g) /\
    forall fuel x s r, run_blocks slots fuel (f_blocks g) x None s = Some r ->
      run_blocks slots' fuel (f_blocks (fold_left handle ps g)) x None s = Some r.
Proof.
  revert g slots. induction ps as [|[l p] ps IH]; intros g slots H.
  - split; [|exists slots; auto]. destruct H as (_ & _ & _ & Ha). apply Forall_forall. intros b Hb.
    cbn [fold_left] in Hb. destruct (bb_phis b) as [|q qs] eqn:E; [done|]. exfalso.
    apply (not_elem_of_nil (bb_name b, q)), Ha; [done|]. rewrite E. left.
  - destruct (pending_phi_ok l p ps g H) as [b0 Hok]. pose proof (pending_step _ _ _ H) as H'.
    destruct (IH (handle g (l, p)) ({[fresh g (phi_name p)]} ∪ slots) H') as (Hp & slots' & Hs & Hr).
    split; [exact Hp|]. exists slots'. split.
    + intros x Hx. destruct (Hs x Hx) as [Hi|Hn].
      * apply elem_of_union in Hi as [->%elem_of_singleton|Hi]; [right; apply Hfresh|now left].
      * right. intros Hi. apply Hn. now apply names_grow.
    + intros fuel x [[e m] w] r Hrun. cbn [fold_left]. apply Hr.
      apply (run_simulates slots _ l p g b0 fuel x None e m m w r Hok); [done|done|exact Hrun].
Qed.

Lemma pending_start f : wf_phis (f_blocks f) -> pending (pns f) f.
Proof.
  intros Hw. destruct Hw as [Hd Hf] eqn:Ew. clear Ew.
  assert (Hin : forall l q, (l, q) ∈ pns f -> exists b, b ∈ f_blocks f /\ bb_name b = l /\ q ∈ bb_phis b).
  { intros l q H. apply list_elem_of_In, in_flat_map in H as (b & Hb & H).
    apply in_map_iff in H as (q' & [= <- <-] & Hq). exists b. rewrite !list_elem_of_In. auto. }
  split; [now split|]. split; [|split].
  - unfold pns. clear Hin Hw. induction (f_blocks f) as [|b bs IH]; [constructor|].
    cbn [flat_map map] in *. apply NoDup_cons in Hd as [Hn Hd]. apply Forall_cons in Hf as [[Hb _] Hf].
    rewrite map_app, map_map. cbn [fst snd]. apply NoDup_app. split; [|split; [|now apply IH]].
    + clear - Hb. induction (bb_phis b) as [|q ps IH]; [constructor|]. cbn [map] in *.
      apply NoDup_cons in Hb as [Hq Hb]. constructor; [|auto]. intros H. apply Hq.
      apply list_elem_of_In, in_map_iff in H as (q' & [= E] & H). rewrite <- E.
      now apply list_elem_of_In, in_map.
    + intros [l x] H1 H2. apply Hn. apply list_elem_of_In, in_map_iff in H1 as (q & [= <- <-] & _).
      apply list_elem_of_In, in_map_iff in H2 as ([l' q'] & [= -> E] & H2).
      apply in_flat_map in H2 as (b2 & Hb2 & H2). apply in_map_iff in H2 as (q2 & [= <- ->] & _).
      now apply list_elem_of_In, in_map.
  - apply Forall_forall. intros [l q] H. destruct (Hin l q H) as (b & Hb & <- & Hq).
    exists b. split; [now apply find_bb_in|done].
  - intros b q Hb Hq. apply list_elem_of_In, in_flat_map. exists b. split; [now apply list_elem_of_In|].
    apply (in_map (fun p => (bb_name b, p))), list_elem_of_In, Hq.
Qed.

(** C8: Replacing all phi nodes by stack slots leaves none, and a function that
    runs to its end from its first block does so with the same result and the
    same effects afterwards - whatever its other instructions do, also where
    phi nodes of a block exchange their values or a block is its own
    predecessor. The slots' names are new. *)
Theorem handlePHI_preserves f : wf_phis (f_blocks f) ->
  Forall (fun b => bb_phis b = []) (f_blocks (handle_all fresh f)) /\
  exists slots, (forall x, x ∈ slots -> x ∉ all_names f) /\
    forall fuel entry s r, run_blocks ∅ fuel (f_blocks f) entry None s = Some r ->
      run_blocks slots fuel (f_blocks (handle_all fresh f)) entry None s = Some r.
Proof.
  intros Hw. destruct (handle_fold (pns f) f ∅ (pending_start f Hw)) as (Hp & slots & Hs & Hr).
  split; [exact Hp|]. exists slots. split; [|exact Hr].
  intros x Hx. destruct (Hs x Hx) as [H|H]; [set_solver|done].
Qed.
End all_phis.
End semantics.

(** ** Numbering *)

(** ValueMap, RevValueMap and SkipMap, and the next number. An instruction
    without a result is given the number of an unused value; it has no name and
    is nobody's operand, so it is not kept here. *)
Record regs := {
  ValueMap : gmap string Z;
  RevValueMap : list string;
  SkipMap : gset string;
  next_id : Z
}.
Definition no_regs : regs := {| ValueMap := ∅; RevValueMap := []; SkipMap := ∅; next_id := 0 |}.
Definition unused : Z := u32 (-1).

Definition set_id (x : string) (k : Z) (r : regs) : regs :=
  {| ValueMap := <[x := k]> (ValueMap r); RevValueMap := RevValueMap r;
     SkipMap := SkipMap r; next_id := next_id r |}.
Definition skip (x : string) (r : regs) : regs :=
  {| ValueMap := ValueMap r; RevValueMap := RevValueMap r;
     SkipMap := {[x]} ∪ SkipMap r; next_id := next_id r |}.
(** The next number, and its place in the reverse map. *)
Definition allocate (x : string) (r : regs) : regs :=
  {| ValueMap := <[x := next_id r]> (ValueMap r);
     RevValueMap := if Z.of_nat (length (RevValueMap r)) =? next_id r
                    then RevValueMap r ++ [x] else RevValueMap r;
     SkipMap := SkipMap r; next_id := u32 (next_id r + 1) |}.

Local Open Scope outcome_scope.

Definition getValueID (r : regs) (v : Value) : outcome Z :=
  match v with
  | Local x _ =>
      match ValueMap r !! x with
      | None => AssertFailed "Value ID requested for unknown value"
      | Some k => if k =? unused then AssertFailed "Value ID requested for unused/void instruction!"
                  else Done k
      end
  | _ => AssertFailed "Value ID requested for unknown value"
  end.
Definition skipInstruction (r : regs) (x : string) : bool := bool_decide (x ∈ SkipMap r).

(** The allocation of a single object a value is the result of. *)
Definition plain_alloca (f : Function_) (v : Value) : bool :=
  match def_of f v with
  | Some i => match i_kind i with Alloca _ _ => negb (isArrayAllocation (i_kind i)) | _ => false end
  | None => false
  end.

Section numbered.
(** What LLVM says of an instruction. *)
Context (mayHaveSideEffects isLosslessCast : Inst -> bool).

(** One round of the second loop. The branch for a value whose single use is a
    store never applies: the cast is of what the use refers to, the instruction
    itself, and that has a result. *)
Definition number_inst (f : Function_) (i : Inst) (r : regs) : outcome regs :=
  let x := i_name i in
  match i_type i with
  | TyVoid => Done r
  | t =>
      match ValueMap r !! x with
      | Some _ => Done r
      | None =>
          if use_empty f x && negb (mayHaveSideEffects i) then Done (set_id x unused (skip x r)) else
          match i_kind i with
          | Cast BitCast v =>
              if negb (isLosslessCast i) then Stop "Non lossless bitcast is not supported"
              else if is_pointer (type_of v) && negb (is_pointer t)
              then Stop "Cast from pointer to non-pointer element"
              else if plain_alloca f v then Done (allocate x r)
              else let* k := getValueID r v in Done (set_id x k (skip x r))
          | Cast (PtrToInt | IntToPtr) _ => Stop "Cast from pointer to non-pointer element"
          | _ => Done (allocate x r)
          end
      end
  end.

Fixpoint number_insts (f : Function_) (l : list Inst) (r : regs) : outcome regs :=
  match l with
  | [] => Done r
  | i :: l => let* r := number_inst f i r in number_insts f l r
  end.

(** runOnFunction after the phi nodes; a terminator has no result. *)
Definition number_values (f : Function_) : outcome regs :=
  number_insts f (all_insts f) (fold_left (fun r a => allocate (fst a) r) (f_args f) no_regs).

Definition buildReverseMap (r : regs) : outcome (list string) :=
  let max := map_fold (fun x k m => if bool_decide (x ∈ SkipMap r) || (k =? unused) then m
                                    else if m <? k then k else m) 0 (ValueMap r) in
  if negb (max =? 0) && negb (max + 1 =? Z.of_nat (length (RevValueMap r)))
  then AssertFailed "max + 1 == RevValueMap.size()" else Done (RevValueMap r).

(** ** The numbering is a bijection *)

(** The numbered values are those of the reverse map, in order. *)
Definition numbered (r : regs) : Prop :=
  next_id r = Z.of_nat (length (RevValueMap r)) /\
  (forall k x, RevValueMap r !! k = Some x <-> ValueMap r !! x = Some (Z.of_nat k) /\ x ∉ SkipMap r) /\
  (forall x k, ValueMap r !! x = Some k -> x ∉ SkipMap r -> 0 <= k < next_id r) /\
  (forall x, x ∈ SkipMap r -> is_Some (ValueMap r !! x)).

Lemma numbering_allocate x r : numbered r -> ValueMap r !! x = None -> next_id r + 1 < 2 ^ 32 ->
  numbered (allocate x r).
Proof.
  intros (H1 & H2 & H3 & H4) Hx Hlt.
  assert (Hs : x ∉ SkipMap r) by (intros H; destruct (H4 x H); congruence).
  assert (Hn : u32 (next_id r + 1) = next_id r + 1) by (apply wrap_small; unfold in_u; lia).
  unfold numbered, allocate. cbn [ValueMap RevValueMap SkipMap next_id].
  rewrite Hn, <- H1, Z.eqb_refl. split; [rewrite length_app; simpl; lia|]. split; [|split].
  - intros k y. rewrite lookup_app_Some. destruct (decide (y = x)) as [->|Hne].
    + rewrite lookup_insert_eq. split.
      * intros [H|[Hk H]]; [apply H2 in H as [H _]; congruence|].
        assert (k - length (RevValueMap r) = 0)%nat as E by (destruct (k - length (RevValueMap r))%nat; [done|now destruct n]).
        split; [|done]. f_equal. lia.
      * intros [[= E] _]. right. assert (k = length (RevValueMap r)) as -> by lia.
        split; [lia|]. now rewrite Nat.sub_diag.
    + rewrite lookup_insert_ne by done. rewrite <- H2. split; [|auto].
      intros [H|[Hk H]]; [done|]. destruct (k - length (RevValueMap r))%nat as [|n]; [|now destruct n].
      injection H as ->. done.
  - intros y k. destruct (decide (y = x)) as [->|Hne].
    + rewrite lookup_insert_eq. intros [= <-] _. lia.
    + rewrite lookup_insert_ne by done. intros Hy Hys. specialize (H3 y k Hy Hys). lia.
  - intros y Hy. destruct (decide (y = x)) as [->|Hne]; [now rewrite lookup_insert_eq|].
    rewrite lookup_insert_ne by done. auto.
Qed.

Lemma numbering_skip x k r : numbered r -> ValueMap r !! x = None -> numbered (set_id x k (skip x r)).
Proof.
  intros (H1 & H2 & H3 & H4) Hx. unfold numbered, set_id, skip. cbn [ValueMap RevValueMap SkipMap next_id].
  assert (E : forall y, y ∉ {[x]} ∪ SkipMap r -> y <> x /\ y ∉ SkipMap r) by (intros y Hy; set_solver).
  split; [done|]. split; [|split].
  - intros j y. split.
    + intros H. apply H2 in H as [Hy Hs]. assert (y <> x) by congruence.
      rewrite lookup_insert_ne by done. split; [done|set_solver].
    + intros [Hy [Hne Hs]%E]. rewrite lookup_insert_ne in Hy by done. now apply H2.
  - intros y j Hy [Hne Hs]%E. rewrite lookup_insert_ne in Hy by done. now apply (H3 y).
  - intros y Hy. destruct (decide (y = x)) as [->|Hne]; [rewrite lookup_insert_eq; eauto|].
    rewrite lookup_insert_ne by done. apply H4. set_solver.
Qed.

(** The largest number in use. *)
Definition counted (r : regs) (x : string) (k : Z) : bool :=
  negb (bool_decide (x ∈ SkipMap r) || (k =? unused)).

Lemma max_spec r (m : gmap string Z) :
  let max := map_fold (fun x k m => if bool_decide (x ∈ SkipMap r) || (k =? unused) then m
                                    else if m <? k then k else m) 0 m in
  (forall x k, m !! x = Some k -> counted r x k = true -> k <= max) /\
  (max = 0 \/ exists x, m !! x = Some max /\ counted r x max = true).
Proof.
  cbv zeta. unfold counted.
  apply (map_fold_weak_ind (fun max m =>
    (forall x k, m !! x = Some k -> counted r x k = true -> k <= max) /\
    (max = 0 \/ exists x, m !! x = Some max /\ counted r x max = true))).
  - split; [intros x k H; now rewrite lookup_empty in H|now left].
  - intros x k m' max Hx [IH1 IH2].
    assert (Hold : forall y, m' !! y <> None -> <[x:=k]> m' !! y = m' !! y).
    { intros y Hy. rewrite lookup_insert_ne; [done|]. intros ->. now rewrite Hx in Hy. }
    assert (Hkeep : max = 0 \/ exists y, <[x:=k]> m' !! y = Some max /\ counted r y max = true).
    { destruct IH2 as [->|(y & Hy & Hc)]; [now left|right]. exists y. rewrite Hold by congruence. auto. }
    destruct (bool_decide (x ∈ SkipMap r) || (k =? unused)) eqn:Eb.
    + split; [|exact Hkeep]. intros y j Hy Hc. destruct (decide (y = x)) as [->|Hne].
      * rewrite lookup_insert_eq in Hy. injection Hy as ->. unfold counted in Hc. now rewrite Eb in Hc.
      * rewrite lookup_insert_ne in Hy by done. now apply (IH1 y).
    + split.
      * intros y j Hy Hc. destruct (decide (y = x)) as [->|Hne].
        -- rewrite lookup_insert_eq in Hy. injection Hy as ->. destruct (Z.ltb_spec max j); lia.
        -- rewrite lookup_insert_ne in Hy by done. specialize (IH1 y j Hy Hc). destruct (Z.ltb_spec max k); lia.
      * destruct (Z.ltb_spec max k); [|exact Hkeep]. right. exists x.
        split; [now rewrite lookup_insert_eq|]. unfold counted. now rewrite Eb.
Qed.

Lemma buildReverseMap_ok r : numbered r -> next_id r < 2 ^ 32 ->
  buildReverseMap r = Done (RevValueMap r).
Proof.
  intros (H1 & H2 & H3 & H4) Hlt. unfold buildReverseMap.
  destruct (max_spec r (ValueMap r)) as [Hmax Hin]. cbv zeta in Hmax, Hin.
  set (max := map_fold _ _ _) in *. destruct (Z.eqb_spec max 0) as [|Hne]; [done|]. cbn [negb andb].
  destruct Hin as [|(x & Hx & Hc)]; [done|].
  assert (Hs : x ∉ SkipMap r).
  { unfold counted in Hc. apply negb_true_iff, orb_false_iff in Hc as [Hc _].
    now apply bool_decide_eq_false in Hc. }
  specialize (H3 x max Hx Hs).
  destruct (RevValueMap r !! (length (RevValueMap r) - 1)%nat) as [y|] eqn:Ey.
  - apply H2 in Ey as [Hy Hys]. specialize (Hmax y _ Hy).
    assert (Hu : Z.of_nat (length (RevValueMap r) - 1) =? unused = false).
    { apply Z.eqb_neq. unfold unused. change (u32 (-1)) with 4294967295. pow2. lia. }
    unfold counted in Hmax. rewrite bool_decide_eq_false_2 in Hmax by done. rewrite Hu in Hmax.
    specialize (Hmax eq_refl).
    destruct (Z.eqb_spec (max + 1) (Z.of_nat (length (RevValueMap r)))); [done|lia].
  - apply lookup_ge_None in Ey. lia.
Qed.

(** A value is numbered, unused, or the cast of another value. *)
Definition placed (r : regs) (i : Inst) : Prop :=
  i_type i <> TyVoid -> exists k, ValueMap r !! i_name i = Some k /\
    (i_name i ∈ SkipMap r -> k = unused \/
       exists v t, i_kind i = Cast BitCast (Local v t) /\ ValueMap r !! v = Some k).

Definition grows (r r' : regs) : Prop :=
  ValueMap r ⊆ ValueMap r' /\
  (forall x, x ∈ SkipMap r' -> x ∈ SkipMap r \/ ValueMap r !! x = None).

Lemma grows_allocate x r : ValueMap r !! x = None -> grows r (allocate x r).
Proof. intros Hx. split; [now apply insert_subseteq|auto]. Qed.
Lemma grows_skip x k r : ValueMap r !! x = None -> grows r (set_id x k (skip x r)).
Proof.
  intros Hx. unfold grows, set_id, skip. cbn [ValueMap RevValueMap SkipMap next_id].
  split; [now apply insert_subseteq|].
  intros y Hy. apply elem_of_union in Hy as [->%elem_of_singleton|Hy]; auto.
Qed.

Lemma grows_refl r : grows r r.
Proof. split; [done|auto]. Qed.
Lemma placed_grows r r' i : placed r i -> grows r r' -> placed r' i.
Proof.
  intros H [Hv Hs] Ht. destruct (H Ht) as (k & Hk & Hc). exists k.
  assert (Hsub : forall x j, ValueMap r !! x = Some j -> ValueMap r' !! x = Some j)
    by (intros x j Hx; exact (lookup_weaken _ _ _ _ Hx Hv)).
  split; [auto|]. intros Hi. destruct (Hs _ Hi) as [Hi'|Hn]; [|congruence].
  destruct (Hc Hi') as [->|(v & t & E & Hx)]; [now left|right]. eauto 10.
Qed.

Lemma number_inst_step f i r r' : numbered r -> next_id r + 1 < 2 ^ 32 ->
  (i_type i <> TyVoid -> ValueMap r !! i_name i = None) -> number_inst f i r = Done r' ->
  numbered r' /\ grows r r' /\ placed r' i /\ next_id r' <= next_id r + 1 /\
  (forall y, i_type i = TyVoid \/ y <> i_name i -> ValueMap r' !! y = ValueMap r !! y).
Proof.
  intros Hr Hlt Hnew H. unfold number_inst in H. destruct (decide (i_type i = TyVoid)) as [Ev|Hv].
  { rewrite Ev in H. injection H as <-. split; [done|]. split; [apply grows_refl|].
    split; [intros Hv; destruct (Hv Ev)|]. split; [lia|done]. }
  specialize (Hnew Hv).
  assert (HA : Done (allocate (i_name i) r) = Done r' -> numbered r' /\ grows r r' /\ placed r' i /\ next_id r' <= next_id r + 1 /\
    (forall y, i_type i = TyVoid \/ y <> i_name i -> ValueMap r' !! y = ValueMap r !! y)).
  { intros [= <-]. split; [now apply numbering_allocate|]. split; [now apply grows_allocate|].
    cbn [allocate ValueMap]. split.
    - intros _. exists (next_id r). cbn [allocate ValueMap SkipMap]. split; [now rewrite lookup_insert_eq|].
      intros Hs. destruct Hr as (_ & _ & _ & H4). destruct (H4 _ Hs). congruence.
    - split; [cbn [allocate next_id]; destruct Hr as (H1 & _); cint|].
      intros y [|Hy]; [done|]. now rewrite lookup_insert_ne. }
  assert (HS : forall k, (k = unused \/ exists v t, i_kind i = Cast BitCast (Local v t) /\ ValueMap r !! v = Some k) ->
    Done (set_id (i_name i) k (skip (i_name i) r)) = Done r' -> numbered r' /\ grows r r' /\ placed r' i /\ next_id r' <= next_id r + 1 /\
    (forall y, i_type i = TyVoid \/ y <> i_name i -> ValueMap r' !! y = ValueMap r !! y)).
  { intros k Hk [= <-]. split; [now apply numbering_skip|]. split; [now apply grows_skip|].
    cbn [set_id skip ValueMap]. split.
    - intros _. exists k. cbn [set_id skip ValueMap SkipMap]. split; [now rewrite lookup_insert_eq|].
      intros _. destruct Hk as [->|(v & t & E & Hx)]; [now left|right]. exists v, t. split; [done|].
      rewrite lookup_insert_ne by congruence. done.
    - split; [cbn [set_id skip next_id]; lia|]. intros y [|Hy]; [done|]. now rewrite lookup_insert_ne. }
  rewrite Hnew in H.
  destruct (use_empty f (i_name i) && negb (mayHaveSideEffects i)).
  { apply (HS unused); [now left|]. destruct (i_type i); done. }
  destruct (i_kind i) as [| | | | |op v| | | | | |] eqn:Ek; try (apply HA; destruct (i_type i); done).
  destruct op; try (apply HA; destruct (i_type i); done); try (destruct (i_type i); done).
  destruct (negb (isLosslessCast i)); [destruct (i_type i); done|].
  assert (H' : (if is_pointer (type_of v) && negb (is_pointer (i_type i))
    then Stop "Cast from pointer to non-pointer element"
    else if plain_alloca f v then Done (allocate (i_name i) r)
    else let* k := getValueID r v in Done (set_id (i_name i) k (skip (i_name i) r))) = Done r')
    by (destruct (i_type i); done).
  clear H. destruct (is_pointer (type_of v) && negb (is_pointer (i_type i))); [done|].
  destruct (plain_alloca f v); [now apply HA|].
  apply obind_Done in H' as (k & Hk & H'). apply (HS k); [|exact H'].
  unfold getValueID in Hk. destruct v as [x t| | | | | | | | | | | |]; try done.
  destruct (ValueMap r !! x) as [j|] eqn:Ej; [|done]. destruct (j =? unused); [done|].
  injection Hk as <-. right. eauto.
Qed.

Definition result_names (l : list Inst) : list string :=
  map i_name (List.filter (fun i => negb (bool_decide (i_type i = TyVoid))) l).

Lemma grows_trans r1 r2 r3 : grows r1 r2 -> grows r2 r3 -> grows r1 r3.
Proof.
  intros [H1 H2] [H3 H4]. split; [now transitivity (ValueMap r2)|].
  intros x Hx. destruct (H4 x Hx) as [Hx'|Hn]; [auto|right].
  destruct (ValueMap r1 !! x) as [k|] eqn:E; [|done].
  pose proof (lookup_weaken _ _ _ _ E H1). congruence.
Qed.

Lemma number_insts_spec f l r r' : numbered r -> next_id r + Z.of_nat (length l) < 2 ^ 32 ->
  NoDup (result_names l) -> (forall x, x ∈ result_names l -> ValueMap r !! x = None) ->
  number_insts f l r = Done r' ->
  numbered r' /\ next_id r' <= next_id r + Z.of_nat (length l) /\
  grows r r' /\ Forall (placed r') l.
Proof.
  revert r. induction l as [|i l IH]; intros r Hr Hlt Hd Hnew H.
  - injection H as <-. split; [done|]. split; [cbn; lia|]. split; [apply grows_refl|done].
  - cbn [number_insts] in H. apply obind_Done in H as (r1 & H1 & H). cbn [length] in Hlt.
    assert (Hi : i_type i <> TyVoid -> ValueMap r !! i_name i = None /\ i_name i ∉ result_names l /\ NoDup (result_names l)).
    { intros Hv. unfold result_names in *. cbn [List.filter] in *.
      rewrite bool_decide_eq_false_2 in Hd, Hnew by done. cbn [negb map] in *.
      apply NoDup_cons in Hd as [Hn Hd]. split; [|done]. apply Hnew. left. }
    assert (Hd' : NoDup (result_names l)).
    { destruct (decide (i_type i = TyVoid)) as [Hv|Hv]; [|now apply Hi].
      unfold result_names in *. cbn [List.filter] in Hd. now rewrite bool_decide_eq_true_2 in Hd. }
    destruct (number_inst_step f i r r1 Hr ltac:(lia) (fun Hv => proj1 (Hi Hv)) H1) as (Hr1 & Hg & Hp & Hid & Hsame).
    destruct (IH r1 Hr1 ltac:(lia) Hd') as (Hr' & Hid' & Hg' & Hpl); [|exact H|].
    { intros x Hx. rewrite Hsame.
      - apply Hnew. unfold result_names in *. cbn [List.filter].
        destruct (negb (bool_decide (i_type i = TyVoid))); [now right|done].
      - destruct (decide (i_type i = TyVoid)) as [Hv|Hv]; [now left|right].
        intros ->. now apply (proj1 (proj2 (Hi Hv))). }
    split; [done|]. split; [cbn [length]; lia|]. split; [now apply (grows_trans r r1)|].
    constructor; [|done]. now apply (placed_grows r1).
Qed.

Lemma number_args args r : numbered r -> next_id r + Z.of_nat (length args) < 2 ^ 32 ->
  NoDup (map fst args) -> (forall x : string, x ∈ map fst args -> ValueMap r !! x = None) ->
  let r' := fold_left (fun r (a : string * ty) => allocate (fst a) r) args r in
  numbered r' /\ next_id r' = next_id r + Z.of_nat (length args) /\
  RevValueMap r' = (RevValueMap r ++ map fst args)%list /\ SkipMap r' = SkipMap r /\
  (forall x, ValueMap r' !! x <> None -> ValueMap r !! x <> None \/ x ∈ map fst args).
Proof.
  cbv zeta. revert r. induction args as [|[x t] args IH]; intros r Hr Hlt Hd Hnew.
  - cbn. rewrite app_nil_r. split; [done|]. split; [lia|]. auto.
  - cbn [fold_left map fst length] in *. apply NoDup_cons in Hd as [Hn Hd].
    assert (Hx : ValueMap r !! x = None) by (apply Hnew; left).
    pose proof (numbering_allocate x r Hr Hx ltac:(lia)) as Ha.
    assert (Hid : next_id (allocate x r) = next_id r + 1).
    { cbn [allocate next_id]. destruct Hr as (H1 & _). apply wrap_small. unfold in_u. lia. }
    destruct (IH (allocate x r) Ha ltac:(lia) Hd) as (H1 & H2 & H3 & H4 & H5).
    { intros y Hy. cbn [allocate ValueMap]. rewrite lookup_insert_ne; [apply Hnew; now right|].
      intros ->. done. }
    split; [done|]. split; [lia|]. split; [|split; [rewrite H4; done|]].
    + rewrite H3. destruct Hr as (E & _). cbn [allocate RevValueMap]. rewrite <- E, Z.eqb_refl.
      now rewrite <- app_assoc.
    + intros y Hy. destruct (H5 y Hy) as [Hz|Hz]; [|right; now right]. cbn [allocate ValueMap] in Hz.
      destruct (decide (y = x)) as [->|Hne]; [right; left|]. left. now rewrite lookup_insert_ne in Hz.
Qed.

Lemma numbering_start : numbered no_regs.
Proof.
  split; [done|]. split; [|split].
  - intros k x. cbn. rewrite lookup_nil, lookup_empty. split; [done|intros []; done].
  - intros x k H. cbn in H. now rewrite lookup_empty in H.
  - intros x H. cbn in H. set_solver.
Qed.

End numbered.

(** ** Examples *)

(** A name longer than all of a function's. *)
Definition local_name (v : Value) : list string := match v with Local x _ => [x] | _ => [] end.
Definition long_name (f : Function_) (x : string) : string :=
  x ++ ".phi" ++ String.concat "." (all_names f ++ flat_map local_name (all_operands f))%list.

Lemma length_append (s t : string) : String.length (s ++ t) = (String.length s + String.length t)%nat.
Proof. induction s as [|c s IH]; [done|]. exact (f_equal S IH). Qed.
Lemma length_concat_ge l y : y ∈ l -> (String.length y <= String.length (String.concat "." l))%nat.
Proof.
  induction l as [|z l IH]; intros H; [now apply not_elem_of_nil in H|].
  destruct l as [|z2 l].
  - apply list_elem_of_singleton in H as ->. done.
  - change (String.concat "." (z :: z2 :: l)) with (z ++ "." ++ String.concat "." (z2 :: l)).
    rewrite !length_append. apply elem_of_cons in H as [->|H]; [lia|]. specialize (IH H). lia.
Qed.
Lemma long_name_fresh : fresh_ok long_name.
Proof.
  intros f x.
  assert (G : long_name f x ∉ (all_names f ++ flat_map local_name (all_operands f))%list).
  { intros H. apply length_concat_ge in H. revert H. unfold long_name.
    rewrite !length_append. simpl. lia. }
  rewrite not_elem_of_app in G. destruct G as [G1 G2]. split; [exact G1|].
  apply List.Forall_forall. intros v Hv. destruct v; try done. simpl.
  destruct (String.eqb_spec (long_name f x) x0) as [<-|]; [|done]. exfalso. apply G2.
  apply list_elem_of_In, in_flat_map. eexists. split; [exact Hv|now left].
Qed.

(** a = 1, b = 2; do { swap a, b; i++ } while (i < 3); return a - b; *)
Definition int32 : ty := TyInt 32.
Definition demo_loop : Function_ := {|
  f_name := "f"; f_args := []; f_ret := int32; f_vararg := false; f_cc := 0;
  f_sret := false; f_available_externally := false; f_intrinsic := None;
  f_blocks := [
    {| bb_name := "entry"; bb_phis := []; bb_insts := []; bb_term := Jmp "loop" |};
    {| bb_name := "loop";
       bb_phis := [ {| phi_name := "a"; phi_type := int32; phi_incoming := [(ConstantInt 32 1, "entry"); (Local "b" int32, "loop")] |};
                    {| phi_name := "b"; phi_type := int32; phi_incoming := [(ConstantInt 32 2, "entry"); (Local "a" int32, "loop")] |};
                    {| phi_name := "i"; phi_type := int32; phi_incoming := [(ConstantInt 32 0, "entry"); (Local "j" int32, "loop")] |} ];
       bb_insts := [ {| i_name := "j"; i_type := int32; i_kind := Binary Add (Local "i" int32) (ConstantInt 32 1) |};
                     {| i_name := "c"; i_type := TyInt 1; i_kind := ICmp ICMP_ULT (Local "j" int32) (ConstantInt 32 3) |} ];
       bb_term := Br (Local "c" (TyInt 1)) "loop" "exit" |};
    {| bb_name := "exit"; bb_phis := [];
       bb_insts := [ {| i_name := "d"; i_type := int32; i_kind := Binary Sub (Local "a" int32) (Local "b" int32) |} ];
       bb_term := Ret (Local "d" int32) |} ]
|}.

(** Enough of LLVM's arithmetic to run it. *)
Definition demo_constant (v : Value) : Z := match v with ConstantInt _ v => v | _ => 0 end.
Definition demo_sem (k : inst_kind) (vs : list Z) (w : unit) : option (Z * unit) :=
  match k, vs with
  | Binary Add _ _, [x; y] => Some (u32 (x + y), w)
  | Binary Sub _ _, [x; y] => Some (u32 (x - y), w)
  | ICmp ICMP_ULT _ _, [x; y] => Some (if x <? y then 1 else 0, w)
  | _, _ => None
  end.
#[local] Instance demo_meaning : Meaning Z unit := {|
  constant_meaning := demo_constant; undefined := 0; holds v := negb (v =? 0); sem i := demo_sem (i_kind i)
|}.

Lemma handlePHI_preserves_witness : exists slots,
  run_blocks slots 10 (f_blocks (handle_all long_name demo_loop)) "entry" None (∅, ∅, tt) = Some (Some (u32 (-1)), tt).
Proof.
  destruct (handlePHI_preserves long_name long_name_fresh demo_loop)
    as (_ & slots & _ & H).
  - split; [apply (bool_decide_unpack _); vm_compute; exact I|].
    repeat constructor; try (apply (bool_decide_unpack _); vm_compute; exact I);
      intros i1 i2 H1 H2; repeat (apply elem_of_cons in H1 as [->|H1]); try (now apply not_elem_of_nil in H1);
      repeat (apply elem_of_cons in H2 as [->|H2]); try (now apply not_elem_of_nil in H2); (done || discriminate).
  - exists slots. apply H. vm_compute. reflexivity.
Defined.

(** A cast of a pointer shares its operand's number; an unused value has none. *)
Definition demo_casts : Function_ := {|
  f_name := "g"; f_args := [("p", TyPtr int32); ("n", int32)]; f_ret := int32; f_vararg := false; f_cc := 0;
  f_sret := false; f_available_externally := false; f_intrinsic := None;
  f_blocks := [
    {| bb_name := "entry"; bb_phis := [];
       bb_insts := [
         {| i_name := "s"; i_type := TyPtr int32; i_kind := Alloca int32 (ConstantInt 32 1) |};
         {| i_name := "q"; i_type := TyPtr (TyInt 8); i_kind := Cast BitCast (Local "p" (TyPtr int32)) |};
         {| i_name := ""; i_type := TyVoid; i_kind := Store (Local "n" int32) (Local "s" (TyPtr int32)) |};
         {| i_name := "u"; i_type := int32; i_kind := Binary Add (Local "n" int32) (Local "n" int32) |};
         {| i_name := "v"; i_type := TyInt 8; i_kind := Load (Local "q" (TyPtr (TyInt 8))) |};
         {| i_name := "w"; i_type := int32; i_kind := Cast ZExt (Local "v" (TyInt 8)) |} ];
       bb_term := Ret (Local "w" int32) |} ]
|}.
Definition effects (i : Inst) : bool := match i_kind i with Store _ _ | Call _ _ _ => true | _ => false end.

