(* ===== verification/Analyzer.v ===== *)
(** * Analyzer: the tables of a bytecode module

    libclambcc/ClamBCAnalyzer.cpp and ClamBCAnalyzer.h. Before a module is
    written the analyzer sorts its functions and gives numbers to its types,
    functions, API calls and globals. The helper globals it introduces for
    constant expressions are not modelled: they are LLVM's constant folding, so
    a module here has them already and [CEMap] says which one belongs to which
    expression. Debug metadata is never numbered ([anyDbgIds] stays false). *)
From S2P Require Import Prelude Enums Layout ApiHeader ApiDecl IR.
From stdpp Require Import sorting.
Local Open Scope string_scope.
Local Open Scope list_scope.
Local Open Scope Z_scope.
Local Open Scope outcome_scope.
Local Abbreviation assoc := Enums.assoc.

(** ** The constructor's maps *)

(** The numbers follow from the order of the assignments. *)
Definition api_names : list string :=
  [
   "test1"; "read"; "write"; "seek"; "setvirusname"; "debug_print_str"; "debug_print_uint";
   "disasm_x86"; "trace_directory"; "trace_scope"; "trace_source"; "trace_op"; "trace_value";
   "trace_ptr"; "pe_rawaddr"; "file_find"; "file_byteat"; "malloc"; "test2"; "get_pe_section";
   "fill_buffer"; "extract_new"; "read_number"; "hashset_new"; "hashset_add"; "hashset_remove";
   "hashset_contains"; "hashset_done"; "hashset_empty"; "buffer_pipe_new";
   "buffer_pipe_new_fromfile"; "buffer_pipe_read_avail"; "buffer_pipe_read_get";
   "buffer_pipe_read_stopped"; "buffer_pipe_write_avail"; "buffer_pipe_write_get";
   "buffer_pipe_write_stopped"; "buffer_pipe_done"; "inflate_init"; "inflate_process";
   "inflate_done"; "bytecode_rt_error"; "jsnorm_init"; "jsnorm_process"; "jsnorm_done"; "ilog2";
   "ipow"; "iexp"; "isin"; "icos"; "memstr"; "hex2ui"; "atoi"; "debug_print_str_start";
   "debug_print_str_nonl"; "entropy_buffer"; "map_new"; "map_addkey"; "map_setvalue";
   "map_remove"; "map_find"; "map_getvaluesize"; "map_getvalue"; "map_done"; "file_find_limit";
   "engine_functionality_level"; "engine_dconf_level"; "engine_scan_options";
   "engine_db_options"; "extract_set_container"; "input_switch"; "get_environment";
   "disable_bytecode_if"; "disable_jit_if"; "version_compare"; "check_platform";
   "pdf_get_obj_num"; "pdf_get_flags"; "pdf_set_flags"; "pdf_lookupobj"; "pdf_getobjsize";
   "pdf_getobj"; "pdf_getobjid"; "pdf_getobjflags"; "pdf_setobjflags"; "pdf_get_offset";
   "pdf_get_phase"; "pdf_get_dumpedobjid"; "matchicon"; "running_on_jit"; "get_file_reliability";
   "json_is_active"; "json_get_object"; "json_get_type"; "json_get_array_length";
   "json_get_array_idx"; "json_get_string_length"; "json_get_string"; "json_get_boolean";
   "json_get_int"; "engine_scan_options_ex"; "lzma_init"; "lzma_process"; "lzma_done";
   "bzip2_init"; "bzip2_process"; "bzip2_done"  ].
Definition populateAPIMap : list (string * Z) := imap (fun i x => (x, Z.of_nat i + 1)) api_names.

Definition globalsMap : list (string * Z) := [
  ("__clambc_match_counts", ev bc_global "GLOBAL_MATCH_COUNTS");
  ("__clambc_virusnames", ev bc_global "GLOBAL_VIRUSNAMES");
  ("__clambc_pedata", ev bc_global "GLOBAL_PEDATA");
  ("__clambc_filesize", ev bc_global "GLOBAL_FILESIZE");
  ("__clambc_match_offsets", ev bc_global "GLOBAL_MATCH_OFFSETS")].
(** Nothing is ever put into it. *)
Definition banMap : list (string * Z) := [].

(** ** Order of functions *)

Definition getSpecialIndex (Name : string) : Z :=
  if String.eqb Name "entrypoint" then 0
  else if String.eqb Name "logical_trigger" then 1
  else u32 (-1).

Definition compare_lt_functions (A B : Function_) : bool :=
  let naidx := getSpecialIndex (f_name A) in
  let nbidx := getSpecialIndex (f_name B) in
  if negb (naidx =? u32 (-1)) || negb (nbidx =? u32 (-1)) then naidx <? nbidx else
  let naidx := Z.of_nat (length (f_args A)) in
  let nbidx := Z.of_nat (length (f_args B)) in
  if negb (naidx =? nbidx) then naidx <? nbidx else
  String.ltb (f_name A) (f_name B).

Definition not_after (A B : Function_) : Prop := compare_lt_functions B A = false.
#[export] Instance not_after_dec : RelDecision not_after.
Proof. intros A B. unfold not_after. apply bool_eq_dec. Defined.

(** std::sort; no two functions compare equal, so the result is unique. *)
Definition sorted_functions (l : list Function_) : list Function_ := merge_sort not_after l.

(** ** The type table *)

Record Types := {
  typeIDs : list (ty * Z);
  extraTypes : list ty;
  tid : Z;
  types : list ty            (* the vector, its back first *)
}.

Fixpoint lookup_type (ids : list (ty * Z)) (t : ty) : option Z :=
  match ids with
  | [] => None
  | (t', i) :: ids => if decide (t' = t) then Some i else lookup_type ids t
  end.

(** initTypeIDs (ClamBCCommon.h): void, i1 to i64, i8* to i64* *)
Definition init_type_table : list (ty * Z) :=
  (TyVoid, 0) :: map (fun w => (TyInt w, w)) (seqZ 1 64)
  ++ [(TyPtr (TyInt 8), 65); (TyPtr (TyInt 16), 66); (TyPtr (TyInt 32), 67); (TyPtr (TyInt 64), 68)].
Definition startTID : Z := 69.

(** A new type that is not looked into. *)
Definition add_plain (t : ty) (s : Types) : Types :=
  {| typeIDs := (t, tid s) :: typeIDs s; extraTypes := extraTypes s ++ [t];
     tid := u32 (tid s + 1); types := types s |}.
(** A type that may have a number. *)
Definition add_type (t : ty) (s : Types) : Types :=
  match lookup_type (typeIDs s) t with
  | Some _ => s
  | None => {| typeIDs := (t, tid s) :: typeIDs s; extraTypes := extraTypes s ++ [t];
               tid := u32 (tid s + 1); types := t :: types s |}
  end.
Definition add_types (l : list ty) (s : Types) : Types := fold_left (fun s t => add_type t s) l s.

(** The arrays used for padding come first. *)
Definition padding : list ty := map (fun i => TyArr i (TyInt 8)) (seqZ 1 7).
Definition types_start : Types :=
  fold_left (fun s t => add_plain t s) padding
    {| typeIDs := init_type_table; extraTypes := []; tid := startTID; types := [] |}.

(** The types an instruction needs: of the pointer it indexes, of its operands,
    and its own, which for an allocation is the type of the object. *)
Definition inst_types (i : Inst) : list ty :=
  match i_kind i with
  | DbgInfo => []
  | k => match k with GetElementPtr _ p _ => [type_of p] | _ => [] end
         ++ map type_of (operands k)
         ++ [match k with Alloca t _ => t | _ => i_type i end]
  end.
Definition block_types (b : Block) : list ty :=
  flat_map (fun p => map (fun inc => type_of (fst inc)) (phi_incoming p) ++ [phi_type p]) (bb_phis b)
  ++ flat_map inst_types (bb_insts b)
  ++ map type_of (term_operands (bb_term b)) ++ [TyVoid].
Definition body_types (f : Function_) : list ty :=
  map snd (f_args f) ++ flat_map block_types (f_blocks f).

Definition has_prefix (p s : string) : bool := String.prefix p s.

(** One function: the types collected, the functions numbered, the next number. *)
Definition collect_function (f : Function_) (st : Types * gmap string Z * Z) : outcome (Types * gmap string Z * Z) :=
  let '(s, functionIDs, fid) := st in
  if isDeclaration f then
    if has_prefix "llvm.dbg" (f_name f) then Done st
    else if f_vararg f then
      match f_args f with
      | [] => Stop "Calling implicitly declared function is not supported"
      | _ => Stop "Vararg functions are not supported"
      end
    else Done (add_type (f_type f) s, functionIDs, fid)
  else Done (add_types (body_types f) s, <[f_name f := fid]> functionIDs, u32 (fid + 1)).
Fixpoint collect_functions (l : list Function_) (st : Types * gmap string Z * Z) : outcome (Types * gmap string Z * Z) :=
  match l with
  | [] => Done st
  | f :: l => let* st := collect_function f st in collect_functions l st
  end.

Section contained_types.
Context (bodies : structs).

(** Type::contained_types *)
Definition contained_types (t : ty) : list ty :=
  match t with
  | TyPtr t | TyArr _ t => [t]
  | TyStruct _ fields => fields
  | TyNamed s => match bodies !! s with Some (_, fields) => fields | None => [] end
  | TyFun ret params _ => ret :: params
  | _ => []
  end.
Definition isOpaque (t : ty) : bool :=
  match t with TyNamed s => match bodies !! s with None => true | _ => false end | _ => false end.

Fixpoint add_subtypes (ty : ty) (l : list IR.ty) (s : Types) : outcome Types :=
  match l with
  | [] => Done s
  | STy :: l =>
      if isOpaque STy then
        if is_pointer ty then add_subtypes ty l s
        else Stop "Bytecode cannot use abstract types (only pointers to them)!"
      else add_subtypes ty l (add_type STy s)
  end.

(** while (!types.empty()) *)
Fixpoint close_types (fuel : nat) (s : Types) : outcome Types :=
  match types s with
  | [] => Done s
  | t :: rest =>
      match fuel with
      | O => Undefined "fuel"
      | S fuel =>
          let* s := add_subtypes t (contained_types t)
            {| typeIDs := typeIDs s; extraTypes := extraTypes s; tid := tid s; types := rest |} in
          close_types fuel s
      end
  end.

(** The types a type is made of, and with them those of the struct bodies: all
    the loop can meet. *)
Fixpoint parts (t : ty) : list ty :=
  t :: match t with
       | TyPtr t | TyArr _ t => parts t
       | TyStruct _ fields => flat_map parts fields
       | TyFun ret params _ => parts ret ++ flat_map parts params
       | _ => []
       end.
Definition body_parts : list ty := flat_map (fun d => flat_map parts d.2.2) (map_to_list bodies).
Definition enough_fuel (s : Types) : nat :=
  (length (types s) + length (flat_map parts (types s) ++ body_parts))%nat.
End contained_types.

(** ** API calls and globals *)

(** The value mentions the function. *)
Fixpoint mentions (x : string) (v : Value) : bool :=
  match v with
  | FunctionValue f _ => String.eqb f x
  | ConstantExpr _ l _ | ConstantAggregate l _ => existsb (mentions x) l
  | _ => false
  end.
Definition function_used (m : Module_) (x : string) : bool :=
  existsb (mentions x) (flat_map all_operands (m_functions m) ++ omap g_init (m_globals m)).

Record Apis := { apiCalls : gmap string Z; apis : list string; maxApi : Z }.

Definition collect_api (m : Module_) (f : Function_) (s : Apis) : outcome Apis :=
  let Name := f_name f in
  if negb (function_used m Name) then Done s
  else if negb (isDeclaration f) then
    match assoc Name populateAPIMap with
    | Some _ => Stop ("Attempted to declare function that is part of ClamAV API: " ++ Name)%string
    | None => Done s
    end
  else if match assoc Name banMap with Some _ => true | None => false end then
    Stop ("Usage of function '" ++ Name ++ "' is currently disabled")%string
  else if has_prefix "llvm." Name then Done s
  else if existsb (String.eqb Name) ["__is_bigendian"; "memcmp"; "abort"] then Done s
  else match assoc Name populateAPIMap with
       | None => Stop ("Call to unknown external function: " ++ Name)%string
       | Some id => Done {| apiCalls := <[Name := id]> (apiCalls s); apis := apis s ++ [Name];
                            maxApi := if maxApi s <? id then id else maxApi s |}
       end.
Fixpoint collect_apis (m : Module_) (l : list Function_) (s : Apis) : outcome Apis :=
  match l with
  | [] => Done s
  | f :: l => let* s := collect_api m f s in collect_apis m l s
  end.

Record Globals := { globals : gmap string Z; maxGlobal : Z; globalInits : list (option Value); next_global : Z }.

Definition has_global (m : Module_) (x : string) : bool :=
  match find_global m x with Some _ => true | None => false end.

(** The globals libclamav fills. *)
Definition add_special (m : Module_) (s : Globals) (d : string * Z) : Globals :=
  if has_global m d.1
  then {| globals := <[d.1 := d.2]> (globals s);
          maxGlobal := if maxGlobal s <? d.2 then d.2 else maxGlobal s;
          globalInits := globalInits s; next_global := next_global s |}
  else s.
Definition special_globals (m : Module_) : Globals :=
  fold_left (add_special m) globalsMap
    {| globals := ∅; maxGlobal := 0; globalInits := [None]; next_global := 1 |}.
Definition is_special (x : string) : bool :=
  existsb (String.eqb x) ("__clambc_kind" :: map fst globalsMap).

(** An initializer is used by its global, so that the test for unused ones
    never skips any. *)
Definition collect_global (g : Global) (s : Globals) : outcome Globals :=
  if is_special (g_name g) then Done s
  else if negb (g_constant g) then Stop "Attempting to declare non-constant global variable: "
  else match g_init g with
  | None => Stop "Attempting to declare a global variable without initializer: "
  | Some C =>
      if g_thread_local g then Stop "Attempting to declare thread local global variable: "
      else if g_section g then Stop "Attempting to declare section for global variable: "
      else if 32768 <=? next_global s + 1 then Stop "Attempted to use more than 32k global variables!"
      else Done {| globals := <[g_name g := next_global s]> (globals s); maxGlobal := maxGlobal s;
                   globalInits := globalInits s ++ [Some C]; next_global := next_global s + 1 |}
  end.
Fixpoint collect_globals (l : list Global) (s : Globals) : outcome Globals :=
  match l with
  | [] => Done s
  | g :: l => let* s := collect_global g s in collect_globals l s
  end.

(** ** The analysis *)

Record Analysis := {
  kind : Z;
  copyright : string;
  logicalSignature : string;
  virusnames : string;
  a_types : Types;
  functionIDs : gmap string Z;
  a_apis : Apis;
  a_globals : Globals;
  CEMap : list (Value * string);
  a_functions : list Function_      (* the module's functions, sorted *)
}.

Section run.
(** LLVM's reading of a constant as a string. *)
Context (getConstantStringInfo : Value -> option string).

Definition module_kind (m : Module_) : outcome Z :=
  match find_global m "__clambc_kind" with
  | Some g => match g_init g with
              | Some (ConstantInt _ v) =>
                  let kind := u32 v in
                  if 65536 <=? kind then Stop "Bytecode kind cannot be higher than 64k" else Done kind
              | Some _ => Undefined "cast<ConstantInt>"
              | None => Done 0
              end
  | None => Done 0
  end.
Definition module_copyright (m : Module_) : outcome string :=
  match find_global m "__Copyright" with
  | Some g => match g_init g with
              | Some C => match getConstantStringInfo C with
                          | Some c => Done c
                          | None => Stop "Failed to extract copyright string"
                          end
              | None => Done ""
              end
  | None => Done ""
  end.

Definition run_analysis (m : Module_) (CEMap : list (Value * string)) : outcome Analysis :=
  let* kind := module_kind m in
  let* copyright := module_copyright m in
  let s := add_types (map g_value_type (m_globals m)) types_start in
  let m := with_functions m (sorted_functions (m_functions m)) in
  match find_function m "entrypoint" with
  | None => Stop "Bytecode must define an entrypoint (with 0 parameters)!"
  | Some ep =>
      if negb (length (f_args ep) =? 0)%nat then Stop "Bytecode must define an entrypoint with 0 parameters!" else
      let* st := collect_functions (m_functions m) (s, ∅, 1) in
      let '(s, functionIDs, _) := st in
      let* s := close_types (m_structs m) (enough_fuel (m_structs m) s) s in
      if 65536 <=? tid s then Stop "Attempted to use more than 64k types" else
      let* a := collect_apis m (m_functions m) {| apiCalls := ∅; apis := []; maxApi := 0 |} in
      let* g := collect_globals (m_globals m) (special_globals m) in
      Done {| kind := kind; copyright := copyright;
              logicalSignature := default "" (m_logicalsignature m);
              virusnames := default "" (m_virusnames m);
              a_types := s; functionIDs := functionIDs; a_apis := a; a_globals := g;
              CEMap := CEMap; a_functions := m_functions m |}
  end.
End run.

(** ** What the writer asks *)

Definition getTypeID (a : Analysis) (t : ty) : outcome Z :=
  match lookup_type (typeIDs (a_types a)) t with
  | Some i => Done i
  | None => AssertFailed "Type ID requested for unknown type"
  end.
Definition getGlobalID (a : Analysis) (g : string) : outcome Z :=
  match globals (a_globals a) !! g with
  | Some i => Done i
  | None => AssertFailed "Requested ID for non-existent global?"
  end.
Fixpoint lookup_value (l : list (Value * string)) (v : Value) : option string :=
  match l with
  | [] => None
  | (v', g) :: l => if decide (v' = v) then Some g else lookup_value l v
  end.
Definition getGlobalID_CE (a : Analysis) (ce : Value) : outcome Z :=
  match lookup_value (CEMap a) ce with
  | Some g => getGlobalID a g
  | None => AssertFailed "Requested ID for non-existent constant expr"
  end.
Definition getExternalID (a : Analysis) (f : string) : outcome Z :=
  match apiCalls (a_apis a) !! f with
  | Some i => Done i
  | None => AssertFailed "Function ID requested for unknown external function"
  end.
Definition getFunctionID (a : Analysis) (f : string) : outcome Z :=
  match functionIDs a !! f with
  | Some i => Done i
  | None => AssertFailed "Function ID requested for unknown function"
  end.

(** ** The type table is closed *)

Definition numbered_type (s : Types) (t : ty) : Prop := is_Some (lookup_type (typeIDs s) t).

Section table.
Context (bodies : structs).

(** What holds of the table all along: the types written have the numbers from
    [startTID] on, in order; and the contained_types of a type are in the table, or
    the type is still to be looked into ([todo]). *)
Record table (todo : ty -> Prop) (s : Types) : Prop := {
  tb_tid : tid s = u32 (startTID + Z.of_nat (length (extraTypes s)));
  tb_ids : forall i t, extraTypes s !! i = Some t ->
             lookup_type (typeIDs s) t = Some (u32 (startTID + Z.of_nat i));
  tb_new : forall t n, lookup_type (typeIDs s) t = Some n ->
             lookup_type init_type_table t = Some n \/
             exists i, extraTypes s !! i = Some t /\ n = u32 (startTID + Z.of_nat i);
  tb_sub : forall t u, t ∈ extraTypes s -> u ∈ contained_types bodies t -> todo t \/
             (if isOpaque bodies u then is_pointer t = true else numbered_type s u);
  tb_types : forall t, t ∈ types s -> todo t
}.

(** One table extends another. *)
Definition extends (s s' : Types) : Prop :=
  forall t n, lookup_type (typeIDs s) t = Some n -> lookup_type (typeIDs s') t = Some n.

Lemma extends_refl s : extends s s.
Proof. by intros t n. Qed.
Lemma extends_trans s1 s2 s3 : extends s1 s2 -> extends s2 s3 -> extends s1 s3.
Proof. intros H1 H2 t n H. auto. Qed.
Lemma numbered_grows s s' t : extends s s' -> numbered_type s t -> numbered_type s' t.
Proof. intros Hg [n H]. exists n. auto. Qed.

Lemma lookup_type_cons t i ids t' :
  lookup_type ((t, i) :: ids) t' = if decide (t = t') then Some i else lookup_type ids t'.
Proof. reflexivity. Qed.

Lemma add_type_grows t s : extends s (add_type t s).
Proof.
  intros u n H. unfold add_type. destruct (lookup_type (typeIDs s) t) eqn:E; [done|].
  cbn [typeIDs]. rewrite lookup_type_cons. destruct (decide (t = u)); congruence.
Qed.
Lemma add_type_numbered t s : numbered_type (add_type t s) t.
Proof.
  unfold add_type, numbered_type. destruct (lookup_type (typeIDs s) t) eqn:E; [eauto|].
  cbn [typeIDs]. rewrite lookup_type_cons, decide_True by done. eauto.
Qed.

Lemma table_weaken (todo todo' : ty -> Prop) s : (forall t, todo t -> todo' t) -> table todo s -> table todo' s.
Proof. intros H [H1 H2 H3 H4 H5]. split; auto. intros t u Ht Hu. destruct (H4 t u Ht Hu); auto. Qed.

Lemma table_push todo t s l : table todo s -> lookup_type (typeIDs s) t = None ->
  (forall u, u ∈ types s ++ [t] -> todo u) -> (forall u, u ∈ l -> u ∈ types s ++ [t]) ->
  table todo {| typeIDs := (t, tid s) :: typeIDs s; extraTypes := extraTypes s ++ [t];
                tid := u32 (tid s + 1); types := l |}.
Proof.
  intros [H1 H2 H3 H4 H5] Hn Ht Hl. split; cbn [typeIDs extraTypes tid types].
  - rewrite H1, length_app. cbn [length]. unfold u32, wrap. rewrite Zplus_mod_idemp_l. f_equal. lia.
  - intros i u Hi. rewrite lookup_type_cons. apply lookup_app_Some in Hi as [Hi|[Hi Hu]].
    + destruct (decide (t = u)) as [->|]; [|auto]. rewrite (H2 i u Hi) in Hn. done.
    + apply list_lookup_singleton_Some in Hu as [Hz <-]. rewrite decide_True by done.
      rewrite H1. do 3 f_equal. lia.
  - intros u n. rewrite lookup_type_cons. destruct (decide (t = u)) as [->|].
    + intros [= <-]. right. exists (length (extraTypes s)). split; [|done].
      rewrite lookup_app_r, Nat.sub_diag by lia. done.
    + intros H. destruct (H3 u n H) as [|(i & Hi & ->)]; [auto|]. right. exists i. split; [|done].
      by apply lookup_app_l_Some.
  - intros u v Hu Hv. apply elem_of_app in Hu as [Hu|Hu].
    + destruct (H4 u v Hu Hv) as [|H]; [auto|]. right. destruct (isOpaque bodies v); [done|].
      destruct H as [n H]. exists n. cbn [typeIDs]. rewrite lookup_type_cons.
      destruct (decide (t = v)); congruence.
    + apply list_elem_of_singleton in Hu as ->. left. apply Ht, elem_of_app. right. left.
  - intros u Hu. apply Ht, Hl, Hu.
Qed.

Lemma table_add_type todo t s : table todo s -> todo t -> table todo (add_type t s).
Proof.
  intros H Ht. unfold add_type. destruct (lookup_type (typeIDs s) t) eqn:E; [done|].
  apply table_push; [done|done| |].
  - intros u Hu. apply elem_of_app in Hu as [Hu|Hu]; [by apply H|]. by apply list_elem_of_singleton in Hu as ->.
  - intros u Hu. apply elem_of_cons in Hu as [->|Hu]; apply elem_of_app; [right; left|by left].
Qed.

Lemma add_types_spec l : forall s, table (fun t => t ∈ types s) s ->
  let s' := add_types l s in
  table (fun t => t ∈ types s') s' /\ extends s s' /\ (forall t, t ∈ l -> numbered_type s' t).
Proof.
  induction l as [|t l IH]; intros s H s'.
  - split; [done|]. split; [apply extends_refl|]. intros t Ht. by apply elem_of_nil in Ht.
  - assert (H' : table (fun u => u ∈ types (add_type t s)) (add_type t s)).
    { unfold add_type. destruct (lookup_type (typeIDs s) t) eqn:E; [done|]. cbn [types].
      apply table_push; [|done| |].
      - eapply table_weaken; [|exact H]. intros u Hu. by right.
      - intros u Hu. apply elem_of_app in Hu as [Hu|Hu]; [by right|]. apply list_elem_of_singleton in Hu as ->. left.
      - intros u Hu. apply elem_of_cons in Hu as [->|Hu]; apply elem_of_app; [right; left|by left]. }
    destruct (IH _ H') as (K1 & K2 & K3). split; [exact K1|]. split.
    + eapply extends_trans; [apply add_type_grows|exact K2].
    + intros u Hu. apply elem_of_cons in Hu as [->|Hu]; [|auto].
      eapply numbered_grows; [exact K2|]. apply add_type_numbered.
Qed.

(** One round of the loop looks into the type [t]. *)
Lemma add_subtypes_spec t l : forall s s' (met : list ty),
  (forall u, u ∈ contained_types bodies t -> u ∈ met ++ l) ->
  (forall u, u ∈ met -> if isOpaque bodies u then is_pointer t = true else numbered_type s u) ->
  table (fun u => u = t \/ u ∈ types s) s -> add_subtypes bodies t l s = Done s' ->
  table (fun u => u ∈ types s') s' /\ extends s s'.
Proof.
  induction l as [|u l IH]; intros s s' met Hl Hd H E.
  - injection E as <-. split; [|apply extends_refl]. rewrite app_nil_r in Hl.
    destruct H as [H1 H2 H3 H4 H5]. split; try done.
    intros v u Hv Hu. destruct (H4 v u Hv Hu) as [[->|Ht]|]; [|by left|by right].
    right. apply Hd, Hl, Hu.
  - assert (Hl' : forall v, v ∈ contained_types bodies t -> v ∈ (met ++ [u]) ++ l)
      by (intros v Hv; rewrite <- app_assoc; by apply Hl).
    cbn [add_subtypes] in E. destruct (isOpaque bodies u) eqn:Eo.
    + destruct (is_pointer t) eqn:Ep; [|done]. apply (IH s s' (met ++ [u])); [done| |done|done].
      intros v Hv. apply elem_of_app in Hv as [Hv|Hv]; [by apply Hd|].
      apply list_elem_of_singleton in Hv as ->. by rewrite Eo.
    + destruct (IH (add_type u s) s' (met ++ [u])) as [K1 K2]; [done| | |done|].
      * intros v Hv. apply elem_of_app in Hv as [Hv|Hv].
        -- specialize (Hd v Hv). destruct (isOpaque bodies v); [done|].
           eapply numbered_grows; [apply add_type_grows|done].
        -- apply list_elem_of_singleton in Hv as ->. rewrite Eo. apply add_type_numbered.
      * unfold add_type. destruct (lookup_type (typeIDs s) u) eqn:Eu; [done|]. cbn [types].
        apply table_push; [|done| |].
        -- eapply table_weaken; [|exact H]. intros v [->|Hv]; [by left|]. right. by right.
        -- intros v Hv. apply elem_of_app in Hv as [Hv|Hv]; [by right; right|].
           apply list_elem_of_singleton in Hv as ->. right. left.
        -- intros v Hv. apply elem_of_cons in Hv as [->|Hv]; apply elem_of_app; [right; left|by left].
      * split; [exact K1|]. eapply extends_trans; [apply add_type_grows|exact K2].
Qed.

Lemma close_types_spec fuel : forall s s', table (fun t => t ∈ types s) s ->
  close_types bodies fuel s = Done s' -> table (fun _ => False) s' /\ extends s s'.
Proof.
  induction fuel as [|fuel IH]; intros s s' H E; cbn [close_types] in E;
    destruct (types s) as [|t rest] eqn:Et; try done;
    try (injection E as <-; split; [|apply extends_refl]; eapply table_weaken; [|exact H];
         intros t Ht; by apply elem_of_nil in Ht).
  apply obind_Done in E as (s1 & E1 & E).
  apply (add_subtypes_spec t (contained_types bodies t) _ s1 []) in E1 as [H1 G1]; [|done| |].
  - destruct (IH s1 s' H1 E) as [H2 G2]. split; [exact H2|].
    intros u n Hu. apply G2, G1, Hu.
  - intros u Hu. by apply elem_of_nil in Hu.
  - destruct H as [K1 K2 K3 K4 K5]. rewrite Et in *. split; try done; cbn [types].
    + intros u v Hu Hv. destruct (K4 u v Hu Hv) as [Ht|]; [left|by right].
      apply elem_of_cons in Ht as [->|Ht]; auto.
    + intros u Hu. by right.
Qed.

(** *** The loop ends *)

(** The types of the universe [U] that are not in the table yet. *)
Definition unnumbered (U : list ty) (s : Types) : nat :=
  length (List.filter (fun t => match lookup_type (typeIDs s) t with None => true | _ => false end) U).

Lemma unnumbered_add U t s : t ∈ U -> lookup_type (typeIDs s) t = None ->
  (unnumbered U (add_type t s) < unnumbered U s)%nat.
Proof.
  intros Ht E. unfold add_type. rewrite E. unfold unnumbered. cbn [typeIDs].
  apply list_elem_of_In in Ht. clear - Ht E.
  assert (Hle : forall l, (length (List.filter (fun u => match lookup_type ((t, tid s) :: typeIDs s) u with None => true | _ => false end) l)
    <= length (List.filter (fun u => match lookup_type (typeIDs s) u with None => true | _ => false end) l))%nat).
  { induction l as [|u l IH]; [done|]. cbn [List.filter]. rewrite lookup_type_cons.
    destruct (decide (t = u)); destruct (lookup_type (typeIDs s) u); cbn [length]; lia. }
  induction U as [|u U IH]; [done|]. cbn [List.filter]. rewrite lookup_type_cons. destruct Ht as [->|Ht].
  - rewrite decide_True, E by done. specialize (Hle U). cbn [length]. lia.
  - specialize (IH Ht). destruct (decide (t = u)); destruct (lookup_type (typeIDs s) u); cbn [length]; lia.
Qed.

Definition in_universe (U : list ty) (s : Types) : Prop := forall t, t ∈ types s -> t ∈ U.
Definition closed_universe (U : list ty) : Prop := forall t u, t ∈ U -> u ∈ contained_types bodies t -> u ∈ U.

Lemma add_subtypes_measure U t l : forall s s',
  (forall u, u ∈ l -> u ∈ U) -> in_universe U s -> add_subtypes bodies t l s = Done s' ->
  in_universe U s' /\ (length (types s') + unnumbered U s' <= length (types s) + unnumbered U s)%nat.
Proof.
  induction l as [|u l IH]; intros s s' Hl Hs E; cbn [add_subtypes] in E.
  - injection E as <-. auto.
  - assert (Hl' : forall v, v ∈ l -> v ∈ U) by (intros v Hv; apply Hl; by right).
    destruct (isOpaque bodies u).
    + destruct (is_pointer t); [|done]. by apply (IH s s').
    + destruct (lookup_type (typeIDs s) u) eqn:Eu.
      * assert (add_type u s = s) as Ea by (unfold add_type; by rewrite Eu). rewrite Ea in E. by apply (IH s s').
      * pose proof (unnumbered_add U u s ltac:(apply Hl; left) Eu) as Hm.
        destruct (IH (add_type u s) s') as [K1 K2]; [done| |done|].
        { intros v. unfold add_type. rewrite Eu. cbn [types]. intros Hv.
          apply elem_of_cons in Hv as [->|Hv]; [apply Hl; left|auto]. }
        split; [done|]. replace (length (types (add_type u s))) with (S (length (types s))) in K2; [lia|].
        unfold add_type. rewrite Eu. done.
Qed.

Lemma close_types_ends U fuel : closed_universe U -> forall s, in_universe U s ->
  (length (types s) + unnumbered U s <= fuel)%nat ->
  match close_types bodies fuel s with Done _ | Stop _ => True | _ => False end.
Proof.
  intros HU. induction fuel as [|fuel IH]; intros s Hs Hf; cbn [close_types];
    destruct (types s) as [|t rest] eqn:Et; try done; [simpl in Hf; lia|].
  set (s0 := {| typeIDs := typeIDs s; extraTypes := extraTypes s; tid := tid s; types := rest |}).
  assert (Ht : t ∈ U) by (apply Hs; rewrite Et; left).
  assert (H0 : in_universe U s0) by (intros u Hu; apply Hs; rewrite Et; by right).
  destruct (add_subtypes bodies t (contained_types bodies t) s0) as [s1| | |] eqn:E; cbn [obind]; try done.
  - destruct (add_subtypes_measure U t _ s0 s1 (fun u Hu => HU t u Ht Hu) H0 E) as [H1 H2].
    apply IH; [done|]. cbn [types s0] in H2. change (unnumbered U s0) with (unnumbered U s) in H2.
    simpl in Hf. lia.
  - exfalso. clear - E. revert E. generalize s0. induction (contained_types bodies t) as [|u l IH]; intros s1 E; [done|].
    cbn [add_subtypes] in E. destruct (isOpaque bodies u); [destruct (is_pointer t)|]; eauto; done.
  - exfalso. clear - E. revert E. generalize s0. induction (contained_types bodies t) as [|u l IH]; intros s1 E; [done|].
    cbn [add_subtypes] in E. destruct (isOpaque bodies u); [destruct (is_pointer t)|]; eauto; done.
Qed.

Lemma parts_self t : t ∈ parts t.
Proof. destruct t; left. Qed.
Lemma body_parts_in s p fields u : bodies !! s = Some (p, fields) -> u ∈ fields -> u ∈ body_parts bodies.
Proof.
  intros Hs Hu. apply elem_of_flat_map. exists (s, (p, fields)). split; [by apply elem_of_map_to_list|].
  apply elem_of_flat_map. exists u. split; [done|apply parts_self].
Qed.

Lemma parts_closed t : forall u v, u ∈ parts t -> v ∈ contained_types bodies u -> v ∈ parts t ++ body_parts bodies.
Proof.
  assert (Hl : forall l : list ty, Forall (fun t => forall u v, u ∈ parts t -> v ∈ contained_types bodies u -> v ∈ parts t ++ body_parts bodies) l ->
    forall u v, u ∈ flat_map parts l -> v ∈ contained_types bodies u -> v ∈ flat_map parts l ++ body_parts bodies).
  { intros l H u v Hu Hv. apply elem_of_flat_map in Hu as (x & Hx & Hu). rewrite Forall_forall in H.
    specialize (H x Hx u v Hu Hv). apply elem_of_app in H as [H|H]; apply elem_of_app; [left|by right].
    apply elem_of_flat_map. eauto. }
  assert (Hlist : forall l v, v ∈ l -> v ∈ flat_map parts l)
    by (intros l v Hv; apply elem_of_flat_map; exists v; split; [done|apply parts_self]).
  induction t as [| | |t IH|n t IH|pk l IH|s|r l va IHr IHl] using ty_induction; intros u v Hu Hv; cbn [parts] in Hu |- *;
    apply elem_of_cons in Hu as [->|Hu]; cbn [contained_types] in Hv; try (by apply elem_of_nil in Hv);
    try (by apply elem_of_nil in Hu); rewrite <- app_comm_cons; apply elem_of_cons; right.
  - apply list_elem_of_singleton in Hv as ->. apply elem_of_app. left. apply parts_self.
  - by apply (IH u).
  - apply list_elem_of_singleton in Hv as ->. apply elem_of_app. left. apply parts_self.
  - by apply (IH u).
  - apply elem_of_app. left. by apply Hlist.
  - by apply (Hl l IH u).
  - destruct (bodies !! s) as [[pk fields]|] eqn:E; [|by apply elem_of_nil in Hv].
    by apply (body_parts_in s pk fields).
  - rewrite <- app_assoc. apply elem_of_cons in Hv as [->|Hv].
    + apply elem_of_app. left. apply parts_self.
    + apply elem_of_app. right. apply elem_of_app. left. by apply Hlist.
  - rewrite <- app_assoc. apply elem_of_app in Hu as [Hu|Hu].
    + specialize (IHr u v Hu Hv). apply elem_of_app in IHr as [H|H]; apply elem_of_app; [by left|].
      right. apply elem_of_app. by right.
    + apply elem_of_app. right. by apply (Hl l IHl u).
Qed.

Lemma universe_closed l : closed_universe (flat_map parts l ++ body_parts bodies).
Proof.
  intros t u Ht Hu. apply elem_of_app in Ht as [Ht|Ht].
  - apply elem_of_flat_map in Ht as (x & Hx & Ht).
    apply (parts_closed x t u Ht) in Hu. apply elem_of_app in Hu as [Hu|Hu]; apply elem_of_app; [left|by right].
    apply elem_of_flat_map. eauto.
  - apply elem_of_app. right. apply elem_of_flat_map in Ht as ([s [pk fields]] & Hd & Ht).
    apply elem_of_flat_map in Ht as (x & Hx & Ht).
    apply (parts_closed x t u Ht) in Hu. apply elem_of_app in Hu as [Hu|Hu]; [|done].
    apply elem_of_flat_map. exists (s, (pk, fields)). split; [done|]. apply elem_of_flat_map. eauto.
Qed.

Lemma close_types_enough s : 
  match close_types bodies (enough_fuel bodies s) s with Done _ | Stop _ => True | _ => False end.
Proof.
  apply (close_types_ends (flat_map parts (types s) ++ body_parts bodies)).
  - apply universe_closed.
  - intros t Ht. apply elem_of_app. left. apply elem_of_flat_map. exists t. split; [done|apply parts_self].
  - unfold enough_fuel, unnumbered.
    match goal with |- context [length (List.filter ?f ?l)] => pose proof (List.filter_length_le f l) end. lia.
Qed.
End table.

(** ** The analysis *)

Lemma lookup_type_in ids t n : lookup_type ids t = Some n -> (t, n) ∈ ids.
Proof.
  induction ids as [|[t' i] ids IH]; simpl; [done|].
  destruct (decide (t' = t)) as [->|]; [intros [= ->]; left|]. right. auto.
Qed.
Lemma start_rows : Forall (fun r => lookup_type init_type_table r.1 = Some r.2 \/
  extraTypes types_start !! Z.to_nat (r.2 - startTID) = Some r.1 /\
  r.2 = u32 (startTID + Z.of_nat (Z.to_nat (r.2 - startTID)))) (typeIDs types_start).
Proof. apply (bool_decide_unpack _). vm_compute. reflexivity. Qed.

Lemma init_type_range t n : lookup_type init_type_table t = Some n -> 0 <= n < 69.
Proof.
  intros H. apply lookup_type_in in H.
  assert (Hf : Forall (fun r => 0 <= r.2 < 69) init_type_table) by (apply (bool_decide_unpack _); vm_compute; reflexivity).
  rewrite Forall_forall in Hf. apply (Hf _ H).
Qed.

Lemma start_table bodies : table bodies (fun t => t ∈ types types_start) types_start.
Proof.
  split.
  - reflexivity.
  - intros i t H. do 7 (destruct i as [|i]; [injection H as <-; reflexivity|]). done.
  - intros t n H. apply lookup_type_in in H. pose proof start_rows as Hr. rewrite Forall_forall in Hr.
    destruct (Hr _ H) as [|[K1 K2]]; [by left|]. right. eauto.
  - intros t u Ht Hu. right.
    assert (Hp : Forall (fun t => exists i, t = TyArr i (TyInt 8)) (extraTypes types_start)) by (repeat (constructor; [eauto|]); constructor).
    rewrite Forall_forall in Hp. destruct (Hp t Ht) as [i ->]. apply list_elem_of_singleton in Hu as ->.
    cbn [isOpaque]. eexists. reflexivity.
  - intros t Ht. by apply elem_of_nil in Ht.
Qed.

Definition defined (l : list Function_) : list Function_ := List.filter (fun f => negb (isDeclaration f)) l.

Lemma collect_functions_types bodies l : forall s ids fid s' ids' fid',
  table bodies (fun t => t ∈ types s) s -> collect_functions l (s, ids, fid) = Done (s', ids', fid') ->
  table bodies (fun t => t ∈ types s') s' /\ extends s s' /\
  (forall f t, f ∈ l -> isDeclaration f = false -> t ∈ body_types f -> numbered_type s' t) /\
  (forall f, f ∈ l -> isDeclaration f = true -> has_prefix "llvm.dbg" (f_name f) = false -> numbered_type s' (f_type f)).
Proof.
  induction l as [|f l IH]; intros s ids fid s' ids' fid' H E.
  { injection E as <- <- <-. split; [done|]. split; [apply extends_refl|].
    split; intros f; [intros t Hf|intros Hf]; by apply elem_of_nil in Hf. }
  cbn [collect_functions] in E. apply obind_Done in E as ([[s1 ids1] fid1] & E1 & E).
  assert (H1 : table bodies (fun t => t ∈ types s1) s1 /\ extends s s1 /\
    (isDeclaration f = false -> forall t, t ∈ body_types f -> numbered_type s1 t) /\
    (isDeclaration f = true -> has_prefix "llvm.dbg" (f_name f) = false -> numbered_type s1 (f_type f))).
  { unfold collect_function in E1. destruct (isDeclaration f).
    - destruct (has_prefix "llvm.dbg" (f_name f)).
      + injection E1 as <- <- <-. split; [done|]. split; [apply extends_refl|done].
      + destruct (f_vararg f); [by destruct (f_args f)|]. injection E1 as <- <- <-.
        destruct (add_types_spec bodies [f_type f] s H) as (K1 & K2 & K3). split; [done|]. split; [done|].
        split; [done|]. intros _ _. apply K3. left.
    - injection E1 as <- <- <-. destruct (add_types_spec bodies (body_types f) s H) as (K1 & K2 & K3).
      split; [done|]. split; [done|]. split; [auto|done]. }
  destruct H1 as (T1 & G1 & D1 & F1). destruct (IH _ _ _ _ _ _ T1 E) as (T2 & G2 & D2 & F2).
  split; [done|]. split; [by eapply extends_trans|]. split.
  - intros g t Hg Hd Ht. apply elem_of_cons in Hg as [->|Hg]; [|eauto].
    eapply numbered_grows; [done|]. auto.
  - intros g Hg Hd Hp. apply elem_of_cons in Hg as [->|Hg]; [|auto].
    eapply numbered_grows; [done|]. auto.
Qed.

Lemma collect_functions_ids l : forall s ids fid s' ids' fid',
  NoDup (map f_name l) -> u32 fid = fid -> collect_functions l (s, ids, fid) = Done (s', ids', fid') ->
  (forall x, x ∉ map f_name (defined l) -> ids' !! x = ids !! x) /\
  (forall k f, defined l !! k = Some f -> ids' !! f_name f = Some (u32 (fid + Z.of_nat k))).
Proof.
  induction l as [|f l IH]; intros s ids fid s' ids' fid' Hd Hu E.
  { injection E as <- <- <-. split; [done|]. intros k f Hk. done. }
  cbn [map] in Hd. apply NoDup_cons in Hd as [Hn Hd].
  cbn [collect_functions] in E. apply obind_Done in E as ([[s1 ids1] fid1] & E1 & E).
  assert (Hu1 : u32 fid1 = fid1).
  { unfold collect_function in E1. destruct (isDeclaration f); [|injection E1 as <- <- <-; cint].
    destruct (has_prefix "llvm.dbg" (f_name f)); [by injection E1 as <- <- <-|].
    destruct (f_vararg f); [by destruct (f_args f)|]. by injection E1 as <- <- <-. }
  destruct (IH _ _ _ _ _ _ Hd Hu1 E) as [K1 K2]. unfold defined in *. cbn [List.filter].
  unfold collect_function in E1. destruct (isDeclaration f) eqn:Ed; cbn [negb].
  - assert (ids1 = ids /\ fid1 = fid) as [-> ->].
    { destruct (has_prefix "llvm.dbg" (f_name f)); [by injection E1 as <- <- <-|].
      destruct (f_vararg f); [by destruct (f_args f)|]. by injection E1 as <- <- <-. }
    split; [exact K1|exact K2].
  - injection E1 as <- <- <-. cbn [map].
    assert (Hf : f_name f ∉ map f_name (List.filter (fun f => negb (isDeclaration f)) l)).
    { intros Hin. apply Hn. apply list_elem_of_In, in_map_iff in Hin as (g & <- & Hg).
      apply filter_In in Hg as [Hg _]. by apply list_elem_of_In, in_map. }
    split.
    + intros x Hx. apply not_elem_of_cons in Hx as [Hne Hx]. rewrite (K1 x Hx). by apply lookup_insert_ne.
    + intros [|k] g Hg.
      * injection Hg as <-. rewrite (K1 _ Hf), lookup_insert_eq. by rewrite Z.add_0_r, Hu.
      * rewrite (K2 k g Hg). apply f_equal. unfold u32, wrap. rewrite Zplus_mod_idemp_l. f_equal. lia.
Qed.

(** ** Order of functions *)

Lemma compare_trans s : forall t u, String.compare s t = Lt -> String.compare t u = Lt -> String.compare s u = Lt.
Proof.
  induction s as [|a s IH]; intros [|b t] [|c u]; simpl; try done.
  unfold Ascii.compare. intros H1 H2.
  destruct (N.compare_spec (N_of_ascii a) (N_of_ascii b)) as [E1|L1|]; try done;
    destruct (N.compare_spec (N_of_ascii b) (N_of_ascii c)) as [E2|L2|]; try done;
    destruct (N.compare_spec (N_of_ascii a) (N_of_ascii c)); try lia; eauto.
Qed.
Lemma compare_total s t : s <> t -> String.compare s t = Lt \/ String.compare t s = Lt.
Proof.
  intros H. rewrite (String.compare_antisym t s). destruct (String.compare s t) eqn:E; [|auto|auto].
  by apply String.compare_eq_iff in E.
Qed.

Lemma string_ltb_lt s t : String.ltb s t = true <-> String.compare s t = Lt.
Proof. unfold String.ltb. destruct (String.compare s t); split; congruence. Qed.

Lemma getSpecialIndex_cases x :
  (x = "entrypoint" /\ getSpecialIndex x = 0) \/ (x = "logical_trigger" /\ getSpecialIndex x = 1) \/
  (x <> "entrypoint" /\ x <> "logical_trigger" /\ getSpecialIndex x = 4294967295).
Proof.
  unfold getSpecialIndex. destruct (String.eqb_spec x "entrypoint"); [auto|].
  destruct (String.eqb_spec x "logical_trigger"); auto.
Qed.

Section order.
Local Abbreviation lt := compare_lt_functions.

Lemma lt_irrefl A : lt A A = false.
Proof.
  unfold lt. destruct (getSpecialIndex_cases (f_name A)) as [[_ ->]|[[_ ->]|(_ & _ & ->)]]; try done.
  change (u32 (-1)) with 4294967295. rewrite !Z.eqb_refl. cbn [negb orb].
  unfold String.ltb. pose proof (String.compare_antisym (f_name A) (f_name A)) as E.
  destruct (String.compare _ _); done.
Qed.

Ltac by_index A :=
  destruct (getSpecialIndex_cases (f_name A)) as [[? ?]|[[? ?]|(? & ? & ?)]].
Ltac compute_index :=
  change (u32 (-1)) with 4294967295 in *;
  repeat match goal with H : getSpecialIndex _ = _ |- _ => rewrite H in * ; clear H end.

Lemma lt_trans A B C : lt A B = true -> lt B C = true -> lt A C = true.
Proof.
  unfold lt. by_index A; by_index B; by_index C; compute_index; cbn; try done.
  destruct (Z.eqb_spec (Z.of_nat (length (f_args A))) (Z.of_nat (length (f_args B)))) as [E1|];
    destruct (Z.eqb_spec (Z.of_nat (length (f_args B))) (Z.of_nat (length (f_args C)))) as [E2|];
    destruct (Z.eqb_spec (Z.of_nat (length (f_args A))) (Z.of_nat (length (f_args C)))); cbn;
    rewrite ?Z.ltb_lt, ?string_ltb_lt; try lia.
  apply compare_trans.
Qed.

Lemma lt_total A B : f_name A <> f_name B -> lt A B = true \/ lt B A = true.
Proof.
  intros Hn. unfold lt. by_index A; by_index B; try congruence; compute_index; cbn; auto.
  rewrite (Z.eqb_sym (Z.of_nat (length (f_args B)))).
  destruct (Z.eqb_spec (Z.of_nat (length (f_args A))) (Z.of_nat (length (f_args B)))); cbn;
    rewrite ?Z.ltb_lt, ?string_ltb_lt; [|lia]. by apply compare_total.
Qed.

#[local] Instance not_after_total : Total not_after.
Proof.
  intros A B. unfold not_after. destruct (lt B A) eqn:E1; [|by left]. right.
  destruct (lt A B) eqn:E2; [|done]. pose proof (lt_trans A B A E2 E1) as H. by rewrite lt_irrefl in H.
Qed.
#[local] Instance not_after_trans : Transitive not_after.
Proof.
  intros A B C. unfold not_after, lt. by_index A; by_index B; by_index C; compute_index; cbn; try done.
  rewrite (Z.eqb_sym (Z.of_nat (length (f_args B)))), (Z.eqb_sym (Z.of_nat (length (f_args C)))),
    (Z.eqb_sym (Z.of_nat (length (f_args C)))).
  destruct (Z.eqb_spec (Z.of_nat (length (f_args A))) (Z.of_nat (length (f_args B)))) as [E1|];
    destruct (Z.eqb_spec (Z.of_nat (length (f_args B))) (Z.of_nat (length (f_args C)))) as [E2|];
    destruct (Z.eqb_spec (Z.of_nat (length (f_args A))) (Z.of_nat (length (f_args C)))); cbn;
    rewrite ?Z.ltb_ge; try lia.
  intros L1 L2. apply not_true_is_false. rewrite string_ltb_lt. intros L.
  apply not_true_iff_false in L1. apply not_true_iff_false in L2. rewrite string_ltb_lt in L1, L2.
  destruct (decide (f_name A = f_name B)) as [Eq|Hne]; [congruence|].
  apply compare_total in Hne as [Hlt|Hlt]; [|done]. apply L2. by apply (compare_trans _ (f_name A)).
Qed.

Lemma sorted_functions_spec l : NoDup (map f_name l) ->
  sorted_functions l ≡ₚ l /\ StronglySorted (fun A B => lt A B = true) (sorted_functions l).
Proof.
  intros Hd. assert (Hp : sorted_functions l ≡ₚ l) by apply merge_sort_Permutation. split; [done|].
  assert (Hs : StronglySorted not_after (sorted_functions l)) by apply (StronglySorted_merge_sort not_after l).
  assert (Hd' : NoDup (map f_name (sorted_functions l))).
  { by rewrite (Permutation_map f_name Hp). }
  clear - Hs Hd'. induction Hs as [|A l' Hs IH HF]; [constructor|].
  cbn [map] in Hd'. apply NoDup_cons in Hd' as [Hn Hd']. constructor; [auto|].
  rewrite Forall_forall in *. intros B HB. destruct (lt_total A B) as [|H]; [|done|].
  - intros E. apply Hn. rewrite E. by apply list_elem_of_fmap_2.
  - specialize (HF B HB). unfold not_after in HF. congruence.
Qed.

(** Nothing comes before the entrypoint. *)
Lemma entrypoint_first l ep : StronglySorted (fun A B => lt A B = true) l -> ep ∈ l -> f_name ep = "entrypoint" ->
  exists l', l = ep :: l'.
Proof.
  intros Hs Hin He. destruct Hs as [|A l Hs HF]; [by apply elem_of_nil in Hin|].
  apply elem_of_cons in Hin as [->|Hin]; [eauto|]. exfalso. rewrite Forall_forall in HF.
  specialize (HF ep Hin). unfold lt in HF. rewrite He in HF. change (getSpecialIndex "entrypoint") with 0 in HF.
  change (negb (0 =? u32 (-1))) with true in HF. rewrite orb_true_r in HF.
  destruct (getSpecialIndex_cases (f_name A)) as [[_ K]|[[_ K]|(_ & _ & K)]]; rewrite K in HF; done.
Qed.
End order.

(** ** API calls and globals *)

(** The declared functions that are called through libclamav. *)
Definition is_api (m : Module_) (f : Function_) : bool :=
  function_used m (f_name f) && isDeclaration f && negb (has_prefix "llvm." (f_name f)) &&
  negb (existsb (String.eqb (f_name f)) ["__is_bigendian"; "memcmp"; "abort"]).

Record apis_ok (s : Apis) : Prop := {
  ao_ids : forall x, x ∈ apis s -> exists id, assoc x populateAPIMap = Some id /\
             apiCalls s !! x = Some id /\ id <= maxApi s;
  ao_only : forall x, is_Some (apiCalls s !! x) -> x ∈ apis s;
  ao_size : size (apiCalls s) = length (apis s)
}.

Lemma collect_apis_spec m l : forall s s', NoDup (map f_name l) ->
  (forall x, x ∈ map f_name l -> x ∉ apis s) -> apis_ok s -> collect_apis m l s = Done s' ->
  apis_ok s' /\ apis s' = apis s ++ map f_name (List.filter (is_api m) l).
Proof.
  induction l as [|f l IH]; intros s s' Hd Hn Ho E.
  { injection E as <-. split; [done|]. by rewrite app_nil_r. }
  cbn [map] in Hd. apply NoDup_cons in Hd as [Hf Hd]. cbn [collect_apis] in E.
  apply obind_Done in E as (s1 & E1 & E).
  assert (H1 : (s1 = s /\ is_api m f = false) \/
    (is_api m f = true /\ exists id, assoc (f_name f) populateAPIMap = Some id /\
     s1 = {| apiCalls := <[f_name f := id]> (apiCalls s); apis := apis s ++ [f_name f];
             maxApi := if maxApi s <? id then id else maxApi s |})).
  { unfold collect_api in E1. unfold is_api. destruct (function_used m (f_name f)); cbn [negb] in E1; [|left; by injection E1 as <-].
    destruct (isDeclaration f); cbn [negb] in E1; [|destruct (assoc (f_name f) populateAPIMap); [done|left; by injection E1 as <-]].
    cbn [assoc banMap] in E1. destruct (has_prefix "llvm." (f_name f)); [left; by injection E1 as <-|].
    destruct (existsb _ _); [left; by injection E1 as <-|].
    destruct (assoc (f_name f) populateAPIMap) as [id|]; [|done]. injection E1 as <-. right. eauto. }
  cbn [List.filter]. destruct H1 as [[-> ->]|(-> & id & Hid & ->)].
  - apply IH; [done| |done|done]. intros x Hx. apply Hn. by right.
  - assert (Hnew : f_name f ∉ apis s) by (apply Hn; left).
    destruct Ho as [O1 O2 O3].
    destruct (IH {| apiCalls := <[f_name f := id]> (apiCalls s); apis := apis s ++ [f_name f];
                    maxApi := if maxApi s <? id then id else maxApi s |} s') as [K1 K2]; [done| | |done|].
    + intros x Hx. cbn [apis]. intros H. apply elem_of_app in H as [H|H]; [apply (Hn x); [by right|done]|].
      apply list_elem_of_singleton in H as ->. done.
    + split; cbn [apis apiCalls maxApi].
      * intros x Hx. apply elem_of_app in Hx as [Hx|Hx].
        -- destruct (O1 x Hx) as (j & J1 & J2 & J3). exists j. split; [done|].
           rewrite lookup_insert_ne by (intros E2; by rewrite E2 in Hnew). split; [done|].
           destruct (Z.ltb_spec (maxApi s) id); lia.
        -- apply list_elem_of_singleton in Hx as ->. exists id. rewrite lookup_insert_eq.
           split; [done|]. split; [done|]. destruct (Z.ltb_spec (maxApi s) id); lia.
      * intros x [j Hx]. apply elem_of_app. destruct (decide (x = f_name f)) as [->|Hne]; [right; left|left].
        rewrite lookup_insert_ne in Hx by done. eauto.
      * rewrite length_app. simpl. rewrite map_size_insert_None; [lia|].
        destruct (apiCalls s !! f_name f) eqn:Ef; [|done]. exfalso. eauto.
    + split; [done|]. rewrite K2. cbn [apis map]. by rewrite <- app_assoc.
Qed.

Record globals_ok (met : list Global) (s : Globals) : Prop := {
  go_next : next_global s = Z.of_nat (length (globalInits s)) /\ 1 <= next_global s < 32768;
  go_met : forall g, g ∈ met -> is_special (g_name g) = false -> exists k C, g_init g = Some C /\
             globals s !! g_name g = Some (Z.of_nat k) /\ globalInits s !! k = Some (Some C) /\ (1 <= k)%nat;
  go_special : forall x, is_special x = true -> forall k, globals s !! x = Some k -> assoc x globalsMap = Some k;
  go_inj : forall x y k, globals s !! x = Some k -> globals s !! y = Some k -> x = y
}.

Lemma globalsMap_special x : is_Some (assoc x globalsMap) -> is_special x = true.
Proof.
  intros [k H]. unfold is_special, globalsMap in *. cbn [map fst assoc existsb] in *.
  repeat match type of H with (if ?b then _ else _) = _ => destruct b eqn:?; [by rewrite ?orb_true_r|] end. done.
Qed.
Lemma globalsMap_values : forallb (fun d => (0x8000 <=? d.2) && (d.2 <? 0x8006)) globalsMap = true.
Proof. reflexivity. Qed.
Lemma assoc_in {A} x (l : list (string * A)) a : assoc x l = Some a -> (x, a) ∈ l.
Proof.
  induction l as [|[y b] l IH]; [done|]. cbn [assoc]. destruct (String.eqb_spec x y) as [->|].
  - intros [= ->]. left.
  - intros H. right. auto.
Qed.
Lemma globalsMap_range x k : assoc x globalsMap = Some k -> 0x8000 <= k < 0x8006.
Proof.
  intros H. apply assoc_in in H. pose proof globalsMap_values as Hv. rewrite forallb_forall in Hv.
  specialize (Hv (x, k) ltac:(by apply list_elem_of_In)). cbn [snd] in Hv. lia.
Qed.
Lemma globalsMap_inj x y k : assoc x globalsMap = Some k -> assoc y globalsMap = Some k -> x = y.
Proof.
  assert (H : forallb (fun d => forallb (fun e : string * Z => negb (snd d =? snd e) || String.eqb (fst d) (fst e)) globalsMap) globalsMap = true)
    by reflexivity.
  intros Hx Hy. apply assoc_in in Hx, Hy. rewrite forallb_forall in H.
  specialize (H (x, k) ltac:(by apply list_elem_of_In)). rewrite forallb_forall in H.
  specialize (H (y, k) ltac:(by apply list_elem_of_In)). cbn [fst snd] in H. rewrite Z.eqb_refl in H.
  by apply String.eqb_eq.
Qed.

Lemma assoc_none {A} x (l : list (string * A)) : x ∉ map fst l -> assoc x l = None.
Proof.
  induction l as [|[y b] l IH]; [done|]. cbn [map fst assoc]. intros H. apply not_elem_of_cons in H as [Hne H].
  destruct (String.eqb_spec x y); [done|auto].
Qed.
Lemma add_special_fold m l : forall s, NoDup (map fst l) ->
  let s' := fold_left (add_special m) l s in
  globalInits s' = globalInits s /\ next_global s' = next_global s /\
  forall x, globals s' !! x = match (if has_global m x then assoc x l else None) with
                              | Some k => Some k | None => globals s !! x end.
Proof.
  induction l as [|[y k] l IH]; intros s Hd.
  { split; [done|]. split; [done|]. intros x. by destruct (has_global m x). }
  cbn [map fst] in Hd. apply NoDup_cons in Hd as [Hn Hd].
  destruct (IH (add_special m s (y, k)) Hd) as (H1 & H2 & H3). cbn [fold_left].
  split; [rewrite H1; unfold add_special; by destruct (has_global m _)|].
  split; [rewrite H2; unfold add_special; by destruct (has_global m _)|].
  intros x. rewrite H3. cbn [assoc]. unfold add_special. cbn [fst snd].
  destruct (String.eqb_spec x y) as [->|Hne].
  - rewrite (assoc_none y l Hn). destruct (has_global m y); cbn [globals]; by rewrite ?lookup_insert_eq.
  - destruct (has_global m x); destruct (assoc x l); destruct (has_global m y); cbn [globals];
      by rewrite ?lookup_insert_ne by done.
Qed.
Lemma special_globals_spec m :
  let s := special_globals m in
  globalInits s = [None] /\ next_global s = 1 /\
  forall x, globals s !! x = (if has_global m x then assoc x globalsMap else None).
Proof.
  destruct (add_special_fold m globalsMap {| globals := ∅; maxGlobal := 0; globalInits := [None]; next_global := 1 |})
    as (H1 & H2 & H3); [apply (bool_decide_unpack _); vm_compute; reflexivity|].
  split; [done|]. split; [done|]. intros x. unfold special_globals. rewrite H3. cbn [globals].
  destruct (has_global m x); [by destruct (assoc x globalsMap)|apply lookup_empty].
Qed.

Lemma special_globals_ok m : globals_ok [] (special_globals m).
Proof.
  destruct (special_globals_spec m) as (H1 & H2 & H3). split.
  - rewrite H1, H2. simpl. lia.
  - intros g Hg. by apply elem_of_nil in Hg.
  - intros x _ k Hk. rewrite H3 in Hk. by destruct (has_global m x).
  - intros x y k Hx Hy. rewrite H3 in Hx, Hy. destruct (has_global m x); [|done]. destruct (has_global m y); [|done].
    by apply (globalsMap_inj x y k).
Qed.

Lemma collect_globals_spec l : forall met s s', NoDup (map g_name (met ++ l)) ->
  (forall g, g ∈ l -> is_special (g_name g) = false -> globals s !! g_name g = None) ->
  (forall x k, globals s !! x = Some k -> is_special x = true \/ 1 <= k < next_global s) ->
  globals_ok met s -> collect_globals l s = Done s' ->
  globals_ok (met ++ l) s' /\ (forall x, is_special x = true -> globals s' !! x = globals s !! x).
Proof.
  induction l as [|g l IH]; intros met s s' Hd Hn Hr Ho E.
  { injection E as <-. by rewrite app_nil_r. }
  cbn [collect_globals] in E. apply obind_Done in E as (s1 & E1 & E).
  replace (met ++ g :: l) with ((met ++ [g]) ++ l) in * by (by rewrite <- app_assoc).
  destruct Ho as [O1 O2 O3 O4]. unfold collect_global in E1.
  destruct (is_special (g_name g)) eqn:Es.
  { injection E1 as <-. destruct (IH (met ++ [g]) s s') as [K1 K2]; try done.
    - intros h Hh. apply Hn. by right.
    - split; try done. intros h Hh Hs. apply elem_of_app in Hh as [Hh|Hh]; [auto|].
      apply list_elem_of_singleton in Hh as ->. congruence. }
  destruct (negb (g_constant g)); [done|]. destruct (g_init g) as [C|] eqn:Ei; [|done].
  destruct (g_thread_local g); [done|]. destruct (g_section g); [done|].
  destruct (Z.leb_spec 32768 (next_global s + 1)); [done|]. injection E1 as <-.
  match type of E with collect_globals l ?x = _ => set (s1 := x) in * end.
  destruct O1 as [O1 O1']. destruct (IH (met ++ [g]) s1 s') as [K1 K2]; [done| | | |done|].
  - intros h Hh Hs. cbn [s1 globals]. rewrite lookup_insert_ne; [apply Hn; [by right|done]|].
    intros Eq. rewrite map_app in Hd. apply NoDup_app in Hd as (_ & Hd & _). apply (Hd (g_name g)).
    + rewrite map_app. apply elem_of_app. right. left.
    + rewrite Eq. apply list_elem_of_In, in_map, list_elem_of_In, Hh.
  - intros x k. cbn [s1 globals next_global]. destruct (decide (x = g_name g)) as [->|Hne].
    + rewrite lookup_insert_eq. intros [= <-]. right. lia.
    + rewrite lookup_insert_ne by done. intros Hx. destruct (Hr x k Hx); [by left|right]. lia.
  - split; cbn [s1 globals next_global globalInits].
    + rewrite length_app. simpl. lia.
    + intros h Hh Hs. apply elem_of_app in Hh as [Hh|Hh].
      * destruct (O2 h Hh Hs) as (k & D & H1 & H2 & H3 & H4). exists k, D. split; [done|].
        split; [|split; [by apply lookup_app_l_Some|done]].
        rewrite lookup_insert_ne; [done|]. intros Eq. rewrite map_app, map_app in Hd.
        apply NoDup_app in Hd as (Hd & _ & _). apply NoDup_app in Hd as (_ & Hd & _). apply (Hd (g_name h)).
        -- apply list_elem_of_In, in_map, list_elem_of_In, Hh.
        -- rewrite <- Eq. left.
      * apply list_elem_of_singleton in Hh as ->. exists (length (globalInits s)), C.
        rewrite lookup_insert_eq. split; [done|]. split; [by rewrite O1|]. split; [|lia].
        by rewrite lookup_app_r, Nat.sub_diag by lia.
    + intros x Hs k. rewrite lookup_insert_ne by congruence. by apply O3.
    + intros x y k. destruct (decide (x = g_name g)) as [->|Hx]; destruct (decide (y = g_name g)) as [->|Hy];
        rewrite ?lookup_insert_eq, ?lookup_insert_ne by done; try done.
      * intros [= <-] H1. destruct (Hr y _ H1) as [H2|]; [|lia]. apply (O3 y H2), globalsMap_range in H1. lia.
      * intros H1 [= <-]. destruct (Hr x _ H1) as [H2|]; [|lia]. apply (O3 x H2), globalsMap_range in H1. lia.
      * by apply O4.
  - split; [done|]. intros x Hs. rewrite (K2 x Hs). cbn [s1 globals]. apply lookup_insert_ne. congruence.
Qed.

(** ** The analysis as a whole *)

(** The steps of an accepted module. *)
Record accepted (getConstantStringInfo : Value -> option string) (m : Module_) (a : Analysis) : Prop := {
  ac_functions : a_functions a = sorted_functions (m_functions m);
  ac_entrypoint : exists ep, find_function (with_functions m (a_functions a)) "entrypoint" = Some ep /\ f_args ep = [];
  ac_collected : exists s fid, collect_functions (a_functions a)
      (add_types (map g_value_type (m_globals m)) types_start, ∅, 1) = Done (s, functionIDs a, fid) /\
    close_types (m_structs m) (enough_fuel (m_structs m) s) s = Done (a_types a);
  ac_tid : tid (a_types a) < 65536;
  ac_apis : collect_apis (with_functions m (a_functions a)) (a_functions a)
      {| apiCalls := ∅; apis := []; maxApi := 0 |} = Done (a_apis a);
  ac_globals : collect_globals (m_globals m) (special_globals (with_functions m (a_functions a))) = Done (a_globals a)
}.

Lemma run_analysis_accepted gs m ce a : run_analysis gs m ce = Done a -> accepted gs m a /\ CEMap a = ce.
Proof.
  unfold run_analysis. intros H. apply obind_Done in H as (k & _ & H). apply obind_Done in H as (c & _ & H).
  cbv zeta in H. destruct (find_function _ _) as [ep|] eqn:Ee; [|done].
  destruct (length (f_args ep) =? 0)%nat eqn:El; cbn [negb] in H; [|done].
  apply obind_Done in H as ([[s ids] fid] & E1 & H). apply obind_Done in H as (s' & E2 & H).
  destruct (Z.leb_spec 65536 (tid s')); [done|].
  apply obind_Done in H as (ap & E3 & H). apply obind_Done in H as (g & E4 & H). injection H as <-.
  split; [|done]. split; cbn [a_functions a_types functionIDs a_apis a_globals]; try done.
  - exists ep. split; [done|]. apply Nat.eqb_eq in El. by destruct (f_args ep).
  - exists s, fid. done.
Qed.

Lemma analysis_table gs m a : accepted gs m a ->
  exists bodies, bodies = m_structs m /\ table bodies (fun _ => False) (a_types a) /\
  (forall g, g ∈ m_globals m -> numbered_type (a_types a) (g_value_type g)) /\
  (forall f t, f ∈ a_functions a -> isDeclaration f = false -> t ∈ body_types f -> numbered_type (a_types a) t) /\
  (forall f, f ∈ a_functions a -> isDeclaration f = true -> has_prefix "llvm.dbg" (f_name f) = false ->
     numbered_type (a_types a) (f_type f)).
Proof.
  intros [H1 H2 (s & fid & E1 & E2) H4 H5 H6]. exists (m_structs m). split; [done|].
  destruct (add_types_spec (m_structs m) (map g_value_type (m_globals m)) types_start (start_table _)) as (T1 & G1 & N1).
  destruct (collect_functions_types (m_structs m) _ _ _ _ _ _ _ T1 E1) as (T2 & G2 & N2 & N3).
  destruct (close_types_spec (m_structs m) _ _ _ T2 E2) as [T3 G3]. split; [done|]. split; [|split].
  - intros g Hg. eapply numbered_grows; [exact G3|]. eapply numbered_grows; [exact G2|]. apply N1.
    apply list_elem_of_In, in_map, list_elem_of_In, Hg.
  - intros f t Hf Hd Ht. eapply numbered_grows; [exact G3|]. eauto.
  - intros f Hf Hd Hp. eapply numbered_grows; [exact G3|]. eauto.
Qed.

Lemma getTypeID_numbered a t : numbered_type (a_types a) t <-> exists n, getTypeID a t = Done n.
Proof.
  unfold numbered_type, getTypeID. destruct (lookup_type _ t) as [n|]; split; [eauto|eauto|by intros [? ?]|by intros [? ?]].
Qed.

(** C10: The type table of an accepted module is closed and unambiguous: the
    [i]-th type described has number 69 + [i], below 65536, and no other; a
    number below 69 is one of the fixed ones and any other the position of its
    type; and a number is found for every type a described type contains (an
    opaque struct behind a pointer apart), for the value type of every global,
    for every type the body of a function mentions, and for the prototype of
    every function declared whose name does not start with llvm.dbg - those the
    pass skips. The bound keeps the 32-bit counter of types from wrapping around. *)
Theorem type_table_closed gs m ce a : run_analysis gs m ce = Done a ->
  Z.of_nat (length (extraTypes (a_types a))) < 2 ^ 32 - 69 ->
  (forall i t, extraTypes (a_types a) !! i = Some t -> getTypeID a t = Done (69 + Z.of_nat i) /\ 69 + Z.of_nat i < 65536) /\
  (forall t n, getTypeID a t = Done n ->
     if n <? 69 then lookup_type init_type_table t = Some n
     else extraTypes (a_types a) !! Z.to_nat (n - 69) = Some t) /\
  (forall t u, t ∈ extraTypes (a_types a) -> u ∈ contained_types (m_structs m) t ->
     if isOpaque (m_structs m) u then is_pointer t = true else exists n, getTypeID a u = Done n) /\
  (forall g, g ∈ m_globals m -> exists n, getTypeID a (g_value_type g) = Done n) /\
  (forall f t, f ∈ m_functions m -> isDeclaration f = false -> t ∈ body_types f -> exists n, getTypeID a t = Done n) /\
  (forall f, f ∈ m_functions m -> isDeclaration f = true -> has_prefix "llvm.dbg" (f_name f) = false ->
     exists n, getTypeID a (f_type f) = Done n).
Proof.
  intros H Hlen. apply run_analysis_accepted in H as [Ha _].
  destruct (analysis_table gs m a Ha) as (bodies & -> & [T1 T2 T3 T4 T5] & N1 & N2 & N3).
  assert (Hin : forall f, f ∈ m_functions m -> f ∈ a_functions a).
  { intros f Hf. rewrite (ac_functions _ _ _ Ha). unfold sorted_functions. by rewrite merge_sort_Permutation. }
  pose proof (ac_tid _ _ _ Ha) as Ht. rewrite T1 in Ht.
  assert (Hu : forall i, (i <= length (extraTypes (a_types a)))%nat -> u32 (startTID + Z.of_nat i) = 69 + Z.of_nat i).
  { intros i Hi. unfold startTID. cint. }
  rewrite Hu in Ht by lia.
  split; [|split; [|split; [|split; [|split]]]].
  - intros i t Hi. pose proof (lookup_lt_Some _ _ _ Hi). unfold getTypeID. rewrite (T2 i t Hi), Hu by lia.
    split; [done|lia].
  - intros t n Hn. unfold getTypeID in Hn. destruct (lookup_type (typeIDs (a_types a)) t) as [k|] eqn:Ek; [|done].
    injection Hn as ->. destruct (T3 t n Ek) as [Hi|(i & Hi & ->)].
    + assert (n < 69) by (apply init_type_range in Hi; lia). by destruct (Z.ltb_spec n 69); [|lia].
    + pose proof (lookup_lt_Some _ _ _ Hi). rewrite Hu by lia. destruct (Z.ltb_spec (69 + Z.of_nat i) 69); [lia|].
      by replace (Z.to_nat _) with i by lia.
  - intros t u Ht' Hu'. destruct (T4 t u Ht' Hu') as [[]|K]. destruct (isOpaque _ u); [done|].
    by apply getTypeID_numbered.
  - intros g Hg. apply getTypeID_numbered. auto.
  - intros f t Hf Hd Hb. apply getTypeID_numbered. eauto.
  - intros f Hf Hd Hp. apply getTypeID_numbered. eauto.
Qed.

Lemma close_types_more bodies fuel : forall s r k,
  close_types bodies fuel s = r -> match r with Done _ | Stop _ => True | _ => False end ->
  close_types bodies (k + fuel) s = r.
Proof.
  induction fuel as [|fuel IH]; intros s r k H Hr; [destruct k|rewrite Nat.add_succ_r]; cbn [close_types Nat.add] in *;
    destruct (types s) as [|t rest]; subst; try done.
  destruct (add_subtypes _ _ _ _) as [s1| | |]; cbn [obind] in *; try done. by apply IH.
Qed.

(** C11: Numbering the types ends: whatever types are pending, nested, shared or
    recursive through identified structs, the loop needs no more rounds than
    there are parts of the pending types and of the struct bodies; it ends with
    a table or with the refusal of an abstract type, and more rounds would not
    change that. *)
Theorem close_types_terminates bodies s :
  (exists s', forall fuel, (enough_fuel bodies s <= fuel)%nat -> close_types bodies fuel s = Done s') \/
  (exists msg, forall fuel, (enough_fuel bodies s <= fuel)%nat -> close_types bodies fuel s = Stop msg).
Proof.
  pose proof (close_types_enough bodies s) as H. pose proof (close_types_more bodies (enough_fuel bodies s) s) as Hm.
  destruct (close_types bodies (enough_fuel bodies s) s) as [s'|msg| |]; try done.
  - left. exists s'. intros fuel Hf. replace fuel with (fuel - enough_fuel bodies s + enough_fuel bodies s)%nat by lia.
    by apply Hm.
  - right. exists msg. intros fuel Hf. replace fuel with (fuel - enough_fuel bodies s + enough_fuel bodies s)%nat by lia.
    by apply Hm.
Qed.

Lemma find_function_in m x f : find_function m x = Some f -> f ∈ m_functions m /\ f_name f = x.
Proof.
  unfold find_function. intros H. apply List.find_some in H as [H1 H2]. apply String.eqb_eq in H2.
  split; [by apply list_elem_of_In|done].
Qed.

(** C12: The module's functions are ordered by [compare_lt_functions] without
    ambiguity, so that the result does not depend on the sorting algorithm: the
    entrypoint, which has no parameters, comes first; and the defined functions
    are numbered from 1 on in this order, as the writer will count them. *)
Theorem function_order gs m ce a : run_analysis gs m ce = Done a ->
  NoDup (map f_name (m_functions m)) -> Z.of_nat (length (m_functions m)) < 2 ^ 32 - 1 ->
  a_functions a ≡ₚ m_functions m /\
  StronglySorted (fun A B => compare_lt_functions A B = true) (a_functions a) /\
  (exists ep l, a_functions a = ep :: l /\ f_name ep = "entrypoint" /\ f_args ep = []) /\
  (forall k f, defined (a_functions a) !! k = Some f -> getFunctionID a (f_name f) = Done (Z.of_nat k + 1)) /\
  (forall f, f ∈ m_functions m -> isDeclaration f = true ->
     getFunctionID a (f_name f) = AssertFailed "Function ID requested for unknown function").
Proof.
  intros H Hd Hlen. apply run_analysis_accepted in H as [Ha _].
  destruct (sorted_functions_spec (m_functions m) Hd) as [Hp Hs]. rewrite <- (ac_functions _ _ _ Ha) in Hp, Hs.
  assert (Hd' : NoDup (map f_name (a_functions a))) by (by rewrite (Permutation_map f_name Hp)).
  destruct (ac_collected _ _ _ Ha) as (s & fid & E1 & _).
  destruct (collect_functions_ids _ _ _ _ _ _ _ Hd' eq_refl E1) as [K1 K2].
  split; [done|]. split; [done|]. split; [|split].
  - destruct (ac_entrypoint _ _ _ Ha) as (ep & Hep & Hargs). apply find_function_in in Hep as [Hin Hn].
    destruct (entrypoint_first _ ep Hs Hin Hn) as [l Hl]. eauto.
  - intros k f Hk. unfold getFunctionID. rewrite (K2 k f Hk). f_equal.
    assert (k < length (a_functions a))%nat.
    { apply lookup_lt_Some in Hk. unfold defined in Hk. pose proof (List.filter_length_le (fun f => negb (isDeclaration f)) (a_functions a)). lia. }
    rewrite (Permutation_length Hp) in *. cint.
  - intros f Hf Hdecl. unfold getFunctionID. rewrite K1; [by rewrite lookup_empty|].
    intros Hin. apply list_elem_of_In, in_map_iff in Hin as (g & Eg & Hg). unfold defined in Hg. apply filter_In in Hg as [Hg Hgd].
    rewrite <- Hp in Hf. apply list_elem_of_In in Hf. 
    assert (g = f) as -> by (apply (NoDup_map_eq f_name (a_functions a)); try done; by apply list_elem_of_In). by rewrite Hdecl in Hgd.
Qed.

(** The API calls of an accepted module are its used and declared functions
    that are neither intrinsics nor the three functions with an opcode of their
    own; each has the position of its prototype in the header as its number, at
    most [maxApi], and there are as many numbers as calls. *)
Theorem apis_numbered gs m ce a : run_analysis gs m ce = Done a -> NoDup (map f_name (m_functions m)) ->
  let m' := with_functions m (a_functions a) in
  apis (a_apis a) = map f_name (List.filter (is_api m') (a_functions a)) /\
  size (apiCalls (a_apis a)) = length (apis (a_apis a)) /\
  (forall x, x ∈ apis (a_apis a) -> exists i p, api_functions !! i = Some p /\ p_name p = x /\
     getExternalID a x = Done (Z.of_nat i + 1) /\ Z.of_nat i + 1 <= maxApi (a_apis a)).
Proof.
  intros H Hd m'. apply run_analysis_accepted in H as [Ha _].
  assert (Hd' : NoDup (map f_name (a_functions a))).
  { rewrite (ac_functions _ _ _ Ha). unfold sorted_functions.
    by rewrite (Permutation_map f_name (merge_sort_Permutation not_after (m_functions m))). }
  assert (H0 : apis_ok {| apiCalls := ∅; apis := []; maxApi := 0 |}).
  { split; [intros x Hx; by apply elem_of_nil in Hx|intros x [k Hx]; cbn in Hx; by rewrite lookup_empty in Hx|done]. }
  destruct (collect_apis_spec m' (a_functions a) {| apiCalls := ∅; apis := []; maxApi := 0 |} _ Hd'
    (fun x _ => not_elem_of_nil x) H0
    (ac_apis _ _ _ Ha)) as [[O1 O2 O3] K]. split; [exact K|]. split; [exact O3|].
  intros x Hx. destruct (O1 x Hx) as (id & I1 & I2 & I3). apply assoc_in in I1. unfold populateAPIMap in I1.
  apply elem_of_lookup_imap in I1 as (i & y & [= -> ->] & Hi).
  assert (Hn : api_names = map p_name api_functions) by reflexivity. rewrite Hn in Hi.
  change (map p_name api_functions) with (p_name <$> api_functions) in Hi. rewrite list_lookup_fmap in Hi.
  destruct (api_functions !! i) as [p|] eqn:Ep; [|done]. injection Hi as <-.
  exists i, p. split; [done|]. split; [done|]. unfold getExternalID. rewrite I2. split; [done|lia].
Qed.

(** C17: The compiler and libclamav agree on the interface although each keeps
    its own list: the numbers [populateAPIMap] gives are the positions, from 1,
    of the prototypes in bytecode_api.h and of the entries of libclamav's table
    of API calls; and every global of the header but the kind, which is only
    read by the compiler, has the number libclamav knows it by. *)
Theorem apiMap_matches_header :
  map fst populateAPIMap = map p_name api_functions /\ map fst populateAPIMap = map a_name cli_apicalls /\
  map snd populateAPIMap = seqZ 1 107 /\ NoDup (map fst populateAPIMap) /\
  Forall (fun g => ApiDecl.g_name g = "__clambc_kind" \/
                   assoc (ApiDecl.g_name g) globalsMap = enum_value bc_global (g_id g)) cli_globals /\
  Forall (fun g => g.1 = "__clambc_kind" \/ is_Some (assoc g.1 globalsMap)) api_globals.
Proof.
  split; [reflexivity|]. split; [reflexivity|]. split; [reflexivity|].
  split; [apply (bool_decide_unpack _); vm_compute; reflexivity|].
  split; [apply (bool_decide_unpack _); vm_compute; reflexivity|].
  repeat (constructor; [first [by left|right; eexists; reflexivity]|]). constructor.
Qed.

(** Every global of an accepted module that libclamav does not fill is a
    constant with an initializer, has a number below 32768, and finds its
    initializer at that position of the list the writer prints, whose first
    place is the null pointer's; those libclamav fills have the numbers of
    clambc.h; and no two globals have the same. *)
Theorem globals_numbered gs m ce a : run_analysis gs m ce = Done a -> NoDup (map g_name (m_globals m)) ->
  (forall g, g ∈ m_globals m -> is_special (g_name g) = false -> exists k C, g_init g = Some C /\
     getGlobalID a (g_name g) = Done (Z.of_nat k) /\ 1 <= Z.of_nat k < 32768 /\
     globalInits (a_globals a) !! k = Some (Some C)) /\
  (forall x k, assoc x globalsMap = Some k -> has_global m x = true -> getGlobalID a x = Done k /\ 32768 <= k) /\
  (forall x y k, getGlobalID a x = Done k -> getGlobalID a y = Done k -> x = y).
Proof.
  intros H Hd. apply run_analysis_accepted in H as [Ha _]. pose proof (ac_globals _ _ _ Ha) as E.
  set (m' := with_functions m (a_functions a)) in *. destruct (special_globals_spec m') as (S1 & S2 & S3).
  destruct (collect_globals_spec (m_globals m) [] (special_globals m') (a_globals a) Hd)
    as [[O1 O2 O3 O4] K]; [| |apply special_globals_ok|exact E|].
  - intros g Hg Hs. rewrite S3. destruct (has_global m' (g_name g)); [|done].
    destruct (assoc (g_name g) globalsMap) eqn:Eg; [|done].
    pose proof (globalsMap_special (g_name g) ltac:(eauto)). congruence.
  - intros x k Hx. left. rewrite S3 in Hx. destruct (has_global m' x); [|done]. apply globalsMap_special. eauto.
  - split; [|split].
    + intros g Hg Hs. destruct (O2 g Hg Hs) as (k & C & K1 & K2 & K3 & K4). exists k, C. split; [done|].
      unfold getGlobalID. rewrite K2. split; [done|]. split; [|done]. apply lookup_lt_Some in K3. lia.
    + intros x k Hx Hg. unfold getGlobalID. rewrite (K x) by (apply globalsMap_special; eauto). rewrite S3.
      change (has_global m' x) with (has_global m x). rewrite Hg, Hx. split; [done|].
      apply globalsMap_range in Hx. lia.
    + intros x y k. unfold getGlobalID. destruct (globals (a_globals a) !! x) eqn:Ex; [|done].
      destruct (globals (a_globals a) !! y) eqn:Ey; [|done]. intros [= ->] [= ->]. by apply (O4 x y k).
Qed.

(** ** A module *)

Definition i32ty : ty := TyInt 32.
Definition num (v : Z) : Value := ConstantInt 32 v.
Definition fun_ref (f : string) (r : ty) (params : list ty) : Value := FunctionValue f (TyPtr (TyFun r params false)).

(** struct pt { int x, y; }; int entrypoint(void) { struct pt a; a.y = 7;
    debug_print_uint(add(a.y, 5)); return a.y > 7 ? 1 : 0; } *)
Definition demo_entry : Function_ := {|
  f_name := "entrypoint"; f_args := []; f_ret := i32ty; f_vararg := false; f_cc := 0; f_sret := false;
  f_available_externally := false; f_intrinsic := None;
  f_blocks := [
    {| bb_name := "entry"; bb_phis := [];
       bb_insts := [
         inst "a" (TyPtr (TyNamed "pt")) (Alloca (TyNamed "pt") (num 1));
         inst "p" (TyPtr i32ty) (GetElementPtr true (Local "a" (TyPtr (TyNamed "pt"))) [num 0; num 1]);
         inst "" TyVoid (Store (num 7) (Local "p" (TyPtr i32ty)));
         inst "v" i32ty (Load (Local "p" (TyPtr i32ty)));
         inst "s" i32ty (Call (fun_ref "add" i32ty [i32ty; i32ty]) 0 [Local "v" i32ty; num 5]);
         inst "r" i32ty (Call (fun_ref "debug_print_uint" i32ty [i32ty]) 0 [Local "s" i32ty]);
         inst "c" (TyInt 1) (ICmp ICMP_SGT (Local "v" i32ty) (num 7)) ];
       bb_term := Br (Local "c" (TyInt 1)) "yes" "no" |};
    {| bb_name := "yes"; bb_phis := []; bb_insts := []; bb_term := Jmp "no" |};
    {| bb_name := "no";
       bb_phis := [ {| phi_name := "x"; phi_type := i32ty; phi_incoming := [(num 0, "entry"); (num 1, "yes")] |} ];
       bb_insts := []; bb_term := Ret (Local "x" i32ty) |} ] |}.
Definition demo_add : Function_ := {|
  f_name := "add"; f_args := [("x", i32ty); ("y", i32ty)]; f_ret := i32ty; f_vararg := false; f_cc := 0; f_sret := false;
  f_available_externally := false; f_intrinsic := None;
  f_blocks := [
    {| bb_name := "entry"; bb_phis := [];
       bb_insts := [ inst "z" i32ty (Binary IR.Add (Local "x" i32ty) (Local "y" i32ty)) ];
       bb_term := Ret (Local "z" i32ty) |} ] |}.
Definition demo_print : Function_ := {|
  f_name := "debug_print_uint"; f_args := [("", i32ty)]; f_ret := i32ty; f_vararg := false; f_cc := 0; f_sret := false;
  f_available_externally := false; f_intrinsic := None; f_blocks := [] |}.
Definition demo_program : Module_ := {|
  m_structs := {[ "pt" := (false, [i32ty; i32ty]) ]};
  m_globals := [
    {| g_name := "__clambc_match_counts"; g_value_type := TyArr 64 i32ty; g_constant := true; g_init := None;
       g_thread_local := false; g_section := false |};
    {| g_name := "msg"; g_value_type := TyArr 3 (TyInt 8); g_constant := true;
       g_init := Some (ConstantDataSequential [ConstantInt 8 104; ConstantInt 8 105; ConstantInt 8 0] (TyArr 3 (TyInt 8)));
       g_thread_local := false; g_section := false |} ];
  m_functions := [demo_print; demo_add; demo_entry];
  m_logicalsignature := None; m_virusnames := Some "Demo"; m_funcmin := None; m_funcmax := None |}.
Definition demo_analysis : Analysis :=
  match run_analysis (fun _ => None) demo_program [] with
  | Done a => a
  | _ => {| kind := 0; copyright := ""; logicalSignature := ""; virusnames := ""; a_types := types_start; functionIDs := ∅;
            a_apis := {| apiCalls := ∅; apis := []; maxApi := 0 |}; a_globals := special_globals demo_program; CEMap := []; a_functions := [] |}
  end.
Lemma demo_analysis_ok : run_analysis (fun _ => None) demo_program [] = Done demo_analysis.
Proof. vm_compute. reflexivity. Qed.

Lemma type_table_closed_witness :
  (exists n, getTypeID demo_analysis (TyPtr (TyNamed "pt")) = Done n) /\
  (exists n, getTypeID demo_analysis (TyNamed "pt") = Done n) /\
  (exists n, getTypeID demo_analysis (TyFun i32ty [i32ty] false) = Done n).
Proof.
  destruct (type_table_closed (fun _ => None) demo_program [] demo_analysis demo_analysis_ok)
    as (_ & _ & _ & _ & H & K); [vm_compute; reflexivity|].
  split; [|split].
  - apply (H demo_entry); [right; right; left|reflexivity|apply (bool_decide_unpack _); vm_compute; reflexivity].
  - apply (H demo_entry); [right; right; left|reflexivity|apply (bool_decide_unpack _); vm_compute; reflexivity].
  - apply (K demo_print); [left|reflexivity|reflexivity].
Defined.

Lemma function_order_witness :
  (exists ep l, a_functions demo_analysis = ep :: l /\ f_name ep = "entrypoint" /\ f_args ep = []) /\
  getFunctionID demo_analysis "add" = Done 2.
Proof.
  destruct (function_order (fun _ => None) demo_program [] demo_analysis demo_analysis_ok)
    as (_ & _ & H1 & H2 & _); [apply (bool_decide_unpack _); vm_compute; reflexivity|vm_compute; reflexivity|].
  split; [exact H1|]. exact (H2 1%nat demo_add eq_refl).
Defined.

Lemma apis_numbered_witness :
  apis (a_apis demo_analysis) = ["debug_print_uint"] /\ getExternalID demo_analysis "debug_print_uint" = Done 7.
Proof.
  destruct (apis_numbered (fun _ => None) demo_program [] demo_analysis demo_analysis_ok)
    as (H1 & _ & H3); [apply (bool_decide_unpack _); vm_compute; reflexivity|].
  split; [rewrite H1; vm_compute; reflexivity|].
  destruct (H3 "debug_print_uint") as (i & p & Hi & Hp & Hx & _); [rewrite H1; vm_compute; left|].
  vm_compute. reflexivity.
Defined.

Lemma globals_numbered_witness :
  (exists k C, getGlobalID demo_analysis "msg" = Done (Z.of_nat k) /\ globalInits (a_globals demo_analysis) !! k = Some (Some C)) /\
  getGlobalID demo_analysis "__clambc_match_counts" = Done 32768.
Proof.
  destruct (globals_numbered (fun _ => None) demo_program [] demo_analysis demo_analysis_ok)
    as (H1 & H2 & _); [apply (bool_decide_unpack _); vm_compute; reflexivity|].
  split.
  - destruct (H1 _ ltac:(right; left) eq_refl) as (k & C & _ & Hk & _ & Hc). exists k, C. split; [exact Hk|exact Hc].
  - apply (H2 "__clambc_match_counts" 32768); reflexivity.
Defined.
