(* ===== verification/Bytecode.v ===== *)
(** * Bytecode: the format the writer produces

    What a bytecode file says, as data, with its text and a reader for it. This
    is the contract of libclambcc/ClamBCWriter.cpp, against which Writer.v
    proves the printing functions. The reader decides by the tables of
    libclambcc/clambc.h what follows an opcode, as libclamav's does; it is not
    part of the repository. *)
From S2P Require Import Prelude Enums Encode.
Local Open Scope string_scope.
Local Open Scope list_scope.
Local Open Scope Z_scope.

(** Continue after a reader that succeeded. *)
Ltac bind := cbn [mbind option_bind].

(** ** Things with a text *)

(** Text, reader, and the data the text is unambiguous for. *)
Class Coded (A : Type) := {
  put : A -> list Z;
  get : list Z -> option (A * list Z);
  good : A -> Prop;
  get_put : forall a rest, good a -> get (put a ++ rest) = Some (a, rest)
}.

(** A reader of a fixed number of things in a row. *)
Fixpoint get_list {A} (g : list Z -> option (A * list Z)) (n : nat) (l : list Z) : option (list A * list Z) :=
  match n with
  | O => Some ([], l)
  | S n => '(x, l) ← g l; '(xs, l) ← get_list g n l; Some (x :: xs, l)
  end.
Lemma get_list_put {A} `{Coded A} xs rest : Forall good xs ->
  get_list get (length xs) (flat_map put xs ++ rest) = Some (xs, rest).
Proof.
  induction 1 as [|x xs Hx Hxs IH]; [done|]. cbn [length flat_map get_list].
  rewrite <- app_assoc, get_put by done. bind. by rewrite IH.
Qed.

(** One given character. *)
Definition get_char (c : Z) (l : list Z) : option (list Z) :=
  match l with c' :: l => if c' =? c then Some l else None | [] => None end.
Lemma get_char_ok c l : get_char c (c :: l) = Some l.
Proof. unfold get_char. by rewrite Z.eqb_refl. Qed.

(** The characters up to the end of the line. *)
Fixpoint get_line (l : list Z) : option (list Z * list Z) :=
  match l with
  | [] => None
  | c :: l => if c =? 10 then Some ([], l) else '(s, l) ← get_line l; Some (c :: s, l)
  end.
Lemma get_line_ok s l : Forall (fun c => c <> 10) s -> get_line (s ++ 10 :: l) = Some (s, l).
Proof.
  induction 1 as [|c s Hc Hs IH]; [done|]. cbn [app get_line].
  destruct (Z.eqb_spec c 10); [done|]. bind. by rewrite IH.
Qed.

(** ** Numbers *)

Record bnumber := Num { num : Z }.
#[export, refine] Instance number_coded : Coded bnumber := {|
  put n := printNumber (num n) false;
  get l := '(n, l) ← readNumber false l; Some (Num n, l);
  good n := in_u 64 (num n);
  get_put := _
|}.
Proof. intros [n] rest H. by rewrite readNumber_print. Defined.

Definition fixed (n : Z) (k : nat) : list Z := fst (fixed_digits n k).
Lemma get_fixed n k rest : 0 <= n < 16 ^ Z.of_nat k -> readFixedNumber k (fixed n k ++ rest) = Some (n, rest).
Proof.
  intros H. apply (readFixedNumber_print n k); [lia|]. rewrite printFixedNumber_spec by lia.
  by destruct (Z.ltb_spec n (16 ^ Z.of_nat k)); [|lia].
Qed.
Lemma printFixedNumber_fixed n k cs : 0 <= n -> printFixedNumber n k = Done cs -> cs = fixed n k /\ n < 16 ^ Z.of_nat k.
Proof.
  intros Hn. rewrite printFixedNumber_spec by done. destruct (Z.ltb_spec n (16 ^ Z.of_nat k)); [|done].
  by intros [= <-].
Qed.

(** ** Operands *)

(** A numbered value, or a constant with its size in bytes; of size 0 are the
    globals, by their number, and the null pointer. *)
Inductive boperand := OVal (id : Z) | OConst (v size : Z).

Definition put_operand (o : boperand) : list Z :=
  match o with
  | OVal id => printNumber id false
  | OConst v size => printNumber v true ++ fixed size 1
  end.
Definition get_operand (l : list Z) : option (boperand * list Z) :=
  match l with
  | h :: _ =>
      if h <? 0x60 then
        '(v, l) ← readNumber true l; '(size, l) ← readFixedNumber 1 l; Some (OConst v size, l)
      else '(id, l) ← readNumber false l; Some (OVal id, l)
  | [] => None
  end.
Definition good_operand (o : boperand) : Prop :=
  match o with OVal id => in_u 64 id | OConst v size => in_u 64 v /\ 0 <= size < 16 end.
#[export, refine] Instance operand_coded : Coded boperand := {| put := put_operand; get := get_operand; good := good_operand; get_put := _ |}.
Proof.
  intros [id|v size] rest H; cbn [good_operand] in H.
  - unfold put_operand, get_operand. pose proof (readNumber_print id false rest H) as E.
    destruct (printNumber_head id false H) as (h & Eh & Hh). rewrite Eh in *. cbn [app] in *.
    destruct (Z.ltb_spec h 0x60); [lia|]. by rewrite E.
  - destruct H as [H1 H2]. unfold put_operand, get_operand. rewrite <- app_assoc.
    pose proof (readNumber_print v true (fixed size 1 ++ rest) H1) as E.
    destruct (printNumber_head v true H1) as (h & Eh & Hh). rewrite Eh in *. cbn [app] in *.
    pose proof (length_digits64 v H1). destruct (Z.ltb_spec h 0x60); [|lia]. rewrite E. bind.
    by rewrite get_fixed by (simpl; lia).
Defined.

(** ** Instructions *)

Definition OP (name : string) : Z := ev bc_opcode name.

(** operand_counts (clambc.h) *)
Definition operand_counts : list Z := [
  0;
  2; 2; 2; 2; 2; 2; 2; 2; 2; 2; 2; 2; 2;    (* ADD -> XOR *)
  1; 1; 1;                                  (* TRUNC -> ZEXT *)
  3; 1; 1; 0;                               (* BRANCH, JMP, RET *)
  2; 2; 2; 2; 2; 2; 2; 2; 2; 2;             (* ICMP *)
  3;                                        (* SELECT *)
  0; 0;                                     (* CALLs *)
  2;                                        (* OP_BC_COPY *)
  3; 3; 0; 2; 1;                            (* GEP1, GEPZ, GEPN, STORE, LOAD *)
  3; 3; 3; 3;                               (* OP_MEM* *)
  0;                                        (* OP_BC_ISBIGENDIAN *)
  0; 1; 1; 1; 2; 1].                        (* ABORT, BSWAP*, PTRDIFF32, PTRTOINT64 *)
Definition operand_count (op : Z) : nat := Z.to_nat (nth (Z.to_nat op) operand_counts 0).

(** What follows an opcode: operands; a type and operands; the number of the
    arguments, the function and the arguments; a block; a condition and two
    blocks. The type of a getelementptr is one of its [operand_counts]. *)
Inductive format := FOps (n : nat) | FTyped (n : nat) | FCall | FJump | FBranch.
Definition format_of (op : Z) : format :=
  if (OP "OP_BC_ICMP_EQ" <=? op) && (op <=? OP "OP_BC_ICMP_SLT") then FTyped (operand_count op)
  else if (op =? OP "OP_BC_GEP1") || (op =? OP "OP_BC_GEPZ") then FTyped (operand_count op - 1)
  else if op =? OP "OP_BC_RET" then FTyped (operand_count op)
  else if (op =? OP "OP_BC_CALL_DIRECT") || (op =? OP "OP_BC_CALL_API") then FCall
  else if op =? OP "OP_BC_JMP" then FJump
  else if op =? OP "OP_BC_BRANCH" then FBranch
  else FOps (operand_count op).

Record body := Body { b_op : Z; b_type : list Z; b_callee : list Z; b_ops : list boperand; b_targets : list Z }.

Definition put_num (n : Z) : list Z := printNumber n false.
Definition put_body (b : body) : list Z :=
  fixed (b_op b) 2 ++ flat_map put_num (b_type b)
  ++ flat_map (fun id => fixed (Z.of_nat (length (b_ops b))) 1 ++ put_num id) (b_callee b)
  ++ flat_map put (b_ops b) ++ flat_map put_num (b_targets b).
Definition get_num (l : list Z) : option (Z * list Z) := readNumber false l.
Definition get_body (l : list Z) : option (body * list Z) :=
  '(op, l) ← readFixedNumber 2 l;
  match format_of op with
  | FOps n => '(ops, l) ← get_list get n l; Some (Body op [] [] ops [], l)
  | FTyped n => '(t, l) ← get_num l; '(ops, l) ← get_list get n l; Some (Body op [t] [] ops [], l)
  | FCall => '(n, l) ← readFixedNumber 1 l; '(id, l) ← get_num l; '(ops, l) ← get_list get (Z.to_nat n) l;
             Some (Body op [] [id] ops [], l)
  | FJump => '(t, l) ← get_num l; Some (Body op [] [] [] [t], l)
  | FBranch => '(c, l) ← get l; '(t, l) ← get_num l; '(f, l) ← get_num l; Some (Body op [] [] [c] [t; f], l)
  end.
Definition good_body (b : body) : Prop :=
  0 <= b_op b < 256 /\ Forall good (b_ops b) /\
  Forall (in_u 64) (b_type b) /\ Forall (in_u 64) (b_callee b) /\ Forall (in_u 64) (b_targets b) /\
  let shape := (length (b_type b), length (b_callee b), length (b_ops b), length (b_targets b)) in
  match format_of (b_op b) with
  | FOps n => shape = (0, 0, n, 0)%nat
  | FTyped n => shape = (1, 0, n, 0)%nat
  | FCall => shape = (0, 1, length (b_ops b), 0)%nat /\ (length (b_ops b) < 16)%nat
  | FJump => shape = (0, 0, 0, 1)%nat
  | FBranch => shape = (0, 0, 1, 2)%nat
  end.
Lemma get_num_put n rest : in_u 64 n -> get_num (put_num n ++ rest) = Some (n, rest).
Proof. apply readNumber_print. Qed.
Lemma length_0 {A} (l : list A) : length l = 0%nat -> l = [].
Proof. by destruct l. Qed.
Lemma length_1 {A} (l : list A) : length l = 1%nat -> exists x, l = [x].
Proof. destruct l as [|x [|]]; try done. eauto. Qed.
Lemma length_2 {A} (l : list A) : length l = 2%nat -> exists x y, l = [x; y].
Proof. destruct l as [|x [|y [|]]]; try done. eauto. Qed.
Ltac shapes :=
  repeat match goal with
  | H : (_, _) = (_, _) |- _ => injection H; clear H; intros
  | H : length _ = 0%nat |- _ => apply length_0 in H; subst
  | H : length _ = 1%nat |- _ => apply length_1 in H as [? ->]
  | H : length _ = 2%nat |- _ => apply length_2 in H as (? & ? & ->)
  | H : Forall _ (_ :: _) |- _ => apply Forall_cons in H as [? ?]
  end.
#[export, refine] Instance body_coded : Coded body := {| put := put_body; get := get_body; good := good_body; get_put := _ |}.
Proof.
  intros [op ty callee ops tg] rest (Hop & Hops & Hty & Hc & Ht & Hs).
  cbn [b_op b_type b_callee b_ops b_targets] in *. unfold put_body, get_body. cbn [b_op b_type b_callee b_ops b_targets].
  rewrite <- app_assoc, get_fixed by (simpl; lia). bind.
  destruct (format_of op) as [n|n| | |]; [| |destruct Hs as [Hs Hl]| |]; shapes; cbn [flat_map app];
    rewrite ?app_nil_r, <- ?app_assoc.
  - by rewrite get_list_put.
  - rewrite get_num_put by done. bind. by rewrite get_list_put.
  - rewrite get_fixed by (simpl; lia). bind. rewrite get_num_put by done. bind.
    by rewrite Nat2Z.id, get_list_put.
  - by rewrite get_num_put.
  - change (get_operand (put_operand x ++ ?r)) with (get (put x ++ r)). rewrite get_put by done. bind.
    rewrite get_num_put by done. bind. by rewrite get_num_put.
Defined.

(** An instruction of a block: its type, the number its result goes to. *)
Record binst := BInst { bi_type : Z; bi_dest : Z; bi_body : body }.
Definition put_binst (i : binst) : list Z := put_num (bi_type i) ++ put_num (bi_dest i) ++ put (bi_body i).
Definition get_binst (l : list Z) : option (binst * list Z) :=
  '(t, l) ← get_num l; '(d, l) ← get_num l; '(b, l) ← get l; Some (BInst t d b, l).
Definition good_binst (i : binst) : Prop := in_u 64 (bi_type i) /\ in_u 64 (bi_dest i) /\ good (bi_body i).
#[export, refine] Instance binst_coded : Coded binst :=
  {| put := put_binst; get := get_binst; good := good_binst; get_put := _ |}.
Proof.
  intros [t d b] rest (Ht & Hd & Hb). cbn [bi_type bi_dest bi_body] in *. unfold put_binst, get_binst.
  cbn [bi_type bi_dest bi_body]. rewrite <- !app_assoc. rewrite get_num_put by done. bind.
  rewrite get_num_put by done. bind. by rewrite get_put.
Defined.

(** ** Blocks *)

Record bblock := BBlock { bl_insts : list binst; bl_term : body }.
Definition put_block (b : bblock) : list Z :=
  10 :: code "B" :: flat_map put (bl_insts b) ++ code "T" :: put (bl_term b).
(** A terminator follows a T. *)
Fixpoint get_insts (fuel : nat) (l : list Z) : option (list binst * list Z) :=
  match l, fuel with
  | c :: l', S fuel =>
      if c =? code "T" then Some ([], l')
      else '(i, l) ← get l; '(is_, l) ← get_insts fuel l; Some (i :: is_, l)
  | _, _ => None
  end.
Definition get_block (l : list Z) : option (bblock * list Z) :=
  l ← get_char 10 l; l ← get_char (code "B") l;
  '(is_, l) ← get_insts (length l) l; '(t, l) ← get l; Some (BBlock is_ t, l).
Definition good_block (b : bblock) : Prop := Forall good (bl_insts b) /\ good (bl_term b).

Lemma put_num_head n : in_u 64 n -> exists h l, put_num n = h :: l /\ 0x60 <= h.
Proof.
  intros H. destruct (printNumber_head n false H) as (h & Eh & Hh). exists h, (digits n). split; [done|lia].
Qed.
Lemma get_insts_put is_ l : Forall good is_ -> forall fuel, (length is_ < fuel)%nat ->
  get_insts fuel (flat_map put is_ ++ code "T" :: l) = Some (is_, l).
Proof.
  induction 1 as [|i is_ Hi His IH]; intros [|fuel] Hf; cbn [length] in Hf; try lia.
  - cbn [flat_map app get_insts]. by rewrite Z.eqb_refl.
  - cbn [flat_map]. rewrite <- app_assoc.
    destruct (put_num_head (bi_type i)) as (h & l' & Eh & Hh); [by destruct Hi|].
    assert (E : exists l0, put i ++ flat_map put is_ ++ code "T" :: l = h :: l0).
    { cbn [put binst_coded]. unfold put_binst. rewrite Eh. cbn [app]. eauto. }
    destruct E as [l0 E]. cbn [get_insts]. rewrite E. change (code "T") with 84 in *.
    destruct (Z.eqb_spec h 84); [lia|]. rewrite <- E, get_put by done. bind. by rewrite IH by lia.
Qed.
Lemma length_flat_map_put (is_ : list binst) : Forall good is_ -> (length is_ <= length (flat_map put is_))%nat.
Proof.
  induction 1 as [|i is_ Hi His IH]; [done|]. cbn [flat_map length]. rewrite length_app.
  enough (1 <= length (put i))%nat by lia.
  destruct (put_num_head (bi_type i)) as (h & l' & Eh & Hh); [by destruct Hi|].
  cbn [put binst_coded]. unfold put_binst. rewrite Eh. cbn [app length]. lia.
Qed.
#[export, refine] Instance block_coded : Coded bblock :=
  {| put := put_block; get := get_block; good := good_block; get_put := _ |}.
Proof.
  intros [is_ t] rest [Hi Ht]. cbn [bl_insts bl_term] in *. unfold put_block, get_block. cbn [bl_insts bl_term app].
  rewrite !get_char_ok. bind. rewrite get_char_ok. bind. rewrite <- app_assoc. cbn [app].
  rewrite get_insts_put; [|done|].
  - bind. by rewrite get_put.
  - rewrite length_app. pose proof (length_flat_map_put is_ Hi). cbn [length]. lia.
Defined.

(** ** Functions *)

(** The type of a value, and whether it is an allocation. *)
Record bvalue := BValue { bv_type : Z; bv_alloca : bool }.
Definition put_bvalue (v : bvalue) : list Z := put_num (bv_type v) ++ fixed (if bv_alloca v then 1 else 0) 1.
Definition get_bvalue (l : list Z) : option (bvalue * list Z) :=
  '(t, l) ← get_num l; '(a, l) ← readFixedNumber 1 l; Some (BValue t (a =? 1), l).
#[export, refine] Instance bvalue_coded : Coded bvalue :=
  {| put := put_bvalue; get := get_bvalue; good v := in_u 64 (bv_type v); get_put := _ |}.
Proof.
  intros [t a] rest Ht. cbn [bv_type] in *. unfold put_bvalue, get_bvalue. cbn [bv_type bv_alloca].
  rewrite <- app_assoc, get_num_put by done. bind. rewrite get_fixed by (destruct a; simpl; lia). bind.
  by destruct a.
Defined.

(** The arguments are the first values. *)
Record bfunction := BFunction {
  bf_args : Z; bf_ret : Z; bf_values : list bvalue; bf_insts : Z; bf_blocks : list bblock
}.
Definition put_bfunction (f : bfunction) : list Z :=
  10 :: code "A" :: fixed (bf_args f) 1 ++ put_num (bf_ret f)
  ++ code "L" :: put_num (Z.of_nat (length (bf_values f)) - bf_args f) ++ flat_map put (bf_values f)
  ++ code "F" :: put_num (bf_insts f) ++ put_num (Z.of_nat (length (bf_blocks f)))
  ++ flat_map put (bf_blocks f) ++ [code "E"].
Definition get_bfunction (l : list Z) : option (bfunction * list Z) :=
  l ← get_char 10 l; l ← get_char (code "A") l; '(args, l) ← readFixedNumber 1 l; '(ret, l) ← get_num l;
  l ← get_char (code "L") l; '(n, l) ← get_num l; '(vs, l) ← get_list get (Z.to_nat (n + args)) l;
  l ← get_char (code "F") l; '(ni, l) ← get_num l; '(nb, l) ← get_num l;
  '(bs, l) ← get_list get (Z.to_nat nb) l; l ← get_char (code "E") l;
  Some (BFunction args ret vs ni bs, l).
Definition good_bfunction (f : bfunction) : Prop :=
  0 <= bf_args f < 16 /\ in_u 64 (bf_ret f) /\ Forall good (bf_values f) /\
  in_u 64 (Z.of_nat (length (bf_values f)) - bf_args f) /\ in_u 64 (bf_insts f) /\
  in_u 64 (Z.of_nat (length (bf_blocks f))) /\ Forall good (bf_blocks f).
#[export, refine] Instance bfunction_coded : Coded bfunction :=
  {| put := put_bfunction; get := get_bfunction; good := good_bfunction; get_put := _ |}.
Proof.
  intros [args ret vs ni bs] rest (H1 & H2 & H3 & H4 & H5 & H6 & H7).
  cbn [bf_args bf_ret bf_values bf_insts bf_blocks] in *. unfold put_bfunction, get_bfunction.
  cbn [bf_args bf_ret bf_values bf_insts bf_blocks app].
  repeat (first [rewrite get_char_ok|rewrite <- app_assoc|progress cbn [app]|progress bind
    |rewrite get_fixed by (simpl; lia)|rewrite get_num_put by done]).
  replace (Z.to_nat (Z.of_nat (length vs) - args + args)) with (length vs) by lia.
  rewrite get_list_put by done. bind.
  repeat (first [rewrite get_char_ok|progress bind|rewrite get_num_put by done]).
  rewrite Nat2Z.id, get_list_put by done. bind. by rewrite get_char_ok.
Defined.

(** ** Types, API calls, globals *)

Inductive btype :=
| BFun (ret : Z) (params : list Z)
| BStruct (packed : bool) (elements : list Z)
| BArr (n t : Z)
| BPtr (t : Z).
Definition put_btype (t : btype) : list Z :=
  match t with
  | BFun ret params => fixed 1 1 ++ put_num (Z.of_nat (length params) + 1) ++ put_num ret ++ flat_map put_num params
  | BStruct packed elements =>
      fixed (if packed then 2 else 3) 1 ++ put_num (Z.of_nat (length elements)) ++ flat_map put_num elements
  | BArr n t => fixed 4 1 ++ put_num n ++ put_num t
  | BPtr t => fixed 5 1 ++ put_num t
  end.
Definition get_btype (l : list Z) : option (btype * list Z) :=
  '(k, l) ← readFixedNumber 1 l;
  if k =? 1 then '(n, l) ← get_num l; '(r, l) ← get_num l; '(ps, l) ← get_list get_num (Z.to_nat (n - 1)) l; Some (BFun r ps, l)
  else if (k =? 2) || (k =? 3) then
    '(n, l) ← get_num l; '(es, l) ← get_list get_num (Z.to_nat n) l; Some (BStruct (k =? 2) es, l)
  else if k =? 4 then '(n, l) ← get_num l; '(t, l) ← get_num l; Some (BArr n t, l)
  else if k =? 5 then '(t, l) ← get_num l; Some (BPtr t, l)
  else None.
Definition good_btype (t : btype) : Prop :=
  match t with
  | BFun ret params => in_u 64 (Z.of_nat (length params) + 1) /\ in_u 64 ret /\ Forall (in_u 64) params
  | BStruct _ elements => in_u 64 (Z.of_nat (length elements)) /\ Forall (in_u 64) elements
  | BArr n t => in_u 64 n /\ in_u 64 t
  | BPtr t => in_u 64 t
  end.
Lemma get_list_num l rest : Forall (in_u 64) l -> get_list get_num (length l) (flat_map put_num l ++ rest) = Some (l, rest).
Proof.
  induction 1 as [|x xs Hx Hxs IH]; [done|]. cbn [length flat_map get_list].
  rewrite <- app_assoc, get_num_put by done. bind. by rewrite IH.
Qed.
Ltac read :=
  repeat (first [rewrite get_char_ok|rewrite <- app_assoc|progress cbn [app Z.eqb Pos.eqb orb]|progress bind
    |rewrite get_fixed by (simpl; lia)|rewrite get_num_put by done|rewrite get_list_num by done
    |rewrite get_list_put by done]).
#[export, refine] Instance btype_coded : Coded btype :=
  {| put := put_btype; get := get_btype; good := good_btype; get_put := _ |}.
Proof.
  intros [ret params|packed es|n t|t] rest H; cbn [good_btype] in H; unfold put_btype, get_btype.
  - destruct H as (H1 & H2 & H3). read.
    replace (Z.to_nat (Z.of_nat (length params) + 1 - 1)) with (length params) by lia. by read.
  - destruct H as (H1 & H2). destruct packed; read; rewrite Nat2Z.id; by read.
  - destruct H as (H1 & H2). by read.
  - by read.
Defined.

(** An API call: its number, its type, its name with its terminator. *)
Record bapi := BApi { ba_id : Z; ba_type : Z; ba_name : list Z }.
Definition put_bapi (a : bapi) : list Z := put_num (ba_id a) ++ put_num (ba_type a) ++ printConstData (ba_name a).
Definition get_bapi (l : list Z) : option (bapi * list Z) :=
  '(i, l) ← get_num l; '(t, l) ← get_num l; '(s, l) ← readConstData l; Some (BApi i t s, l).
Definition good_data (s : list Z) : Prop := Forall (in_u 8) s /\ in_u 64 (Z.of_nat (length s)).
#[export, refine] Instance bapi_coded : Coded bapi :=
  {| put := put_bapi; get := get_bapi;
     good a := in_u 64 (ba_id a) /\ in_u 64 (ba_type a) /\ good_data (ba_name a); get_put := _ |}.
Proof.
  intros [i t s] rest (H1 & H2 & H3 & H4). cbn [ba_id ba_type ba_name] in *. unfold put_bapi, get_bapi.
  cbn [ba_id ba_type ba_name]. read. by rewrite readConstData_print.
Defined.

(** A global: its type, the numbers of its value; a number that is no constant
    ends them. *)
Record bglobal := BGlobal { bg_type : Z; bg_value : list Z }.
Definition put_const (v : Z) : list Z := printNumber v true.
Definition put_bglobal (g : bglobal) : list Z := put_num (bg_type g) ++ flat_map put_const (bg_value g) ++ put_num 0.
Fixpoint get_consts (fuel : nat) (l : list Z) : option (list Z * list Z) :=
  match l, fuel with
  | h :: _, S fuel =>
      if h <? 0x60 then '(v, l) ← readNumber true l; '(vs, l) ← get_consts fuel l; Some (v :: vs, l)
      else '(_, l) ← get_num l; Some ([], l)
  | _, _ => None
  end.
Definition get_bglobal (l : list Z) : option (bglobal * list Z) :=
  '(t, l) ← get_num l; '(vs, l) ← get_consts (length l) l; Some (BGlobal t vs, l).
Lemma put_const_head v : in_u 64 v -> exists h l, put_const v = h :: l /\ h < 0x60.
Proof.
  intros H. destruct (printNumber_head v true H) as (h & Eh & Hh). pose proof (length_digits64 v H).
  exists h, (digits v). split; [done|lia].
Qed.
Lemma get_consts_put vs l : Forall (in_u 64) vs -> forall fuel, (length vs < fuel)%nat ->
  get_consts fuel (flat_map put_const vs ++ put_num 0 ++ l) = Some (vs, l).
Proof.
  induction 1 as [|v vs Hv Hvs IH]; intros [|fuel] Hf; cbn [length] in Hf; try lia; [done|].
  cbn [flat_map]. rewrite <- app_assoc. destruct (put_const_head v Hv) as (h & l' & Eh & Hh).
  assert (E : exists l0, put_const v ++ flat_map put_const vs ++ put_num 0 ++ l = h :: l0) by (rewrite Eh; cbn [app]; eauto).
  destruct E as [l0 E]. cbn [get_consts]. rewrite E. destruct (Z.ltb_spec h 0x60); [|lia].
  rewrite <- E. unfold put_const at 1. rewrite readNumber_print by done. bind. by rewrite IH by lia.
Qed.
Lemma length_flat_map_const vs : Forall (in_u 64) vs -> (length vs <= length (flat_map put_const vs))%nat.
Proof.
  induction 1 as [|v vs Hv Hvs IH]; [done|]. cbn [flat_map length]. rewrite length_app.
  destruct (put_const_head v Hv) as (h & l' & -> & _). cbn [length]. lia.
Qed.
#[export, refine] Instance bglobal_coded : Coded bglobal :=
  {| put := put_bglobal; get := get_bglobal;
     good g := in_u 64 (bg_type g) /\ Forall (in_u 64) (bg_value g); get_put := _ |}.
Proof.
  intros [t vs] rest [H1 H2]. cbn [bg_type bg_value] in *. unfold put_bglobal, get_bglobal. cbn [bg_type bg_value].
  read. rewrite get_consts_put; [done|done|]. rewrite length_app. pose proof (length_flat_map_const vs H2).
  change (length (put_num 0 ++ rest)) with (S (length rest)). lia.
Defined.

(** ** Modules *)

Record bmodule := BModule {
  bm_signature : list Z; bm_start : Z; bm_types : list btype;
  bm_max_api : Z; bm_apis : list bapi; bm_max_global : Z; bm_globals : list bglobal;
  bm_functions : list bfunction
}.
Definition put_tables (m : bmodule) : list Z :=
  bm_signature m ++ 10 :: code "T" :: fixed (bm_start m) 2 ++ flat_map put (bm_types m)
  ++ 10 :: code "E" :: put_num (bm_max_api m) ++ put_num (Z.of_nat (length (bm_apis m))) ++ flat_map put (bm_apis m)
  ++ 10 :: code "G" :: put_num (bm_max_global m) ++ put_num (Z.of_nat (length (bm_globals m)))
  ++ flat_map put (bm_globals m).
Definition put_bmodule (m : bmodule) : list Z := put_tables m ++ flat_map put (bm_functions m).
(** The header says how many types ([types], counted from number 64) and
    functions there are. *)
Definition get_bmodule (types functions : Z) (l : list Z) : option (bmodule * list Z) :=
  '(s, l) ← get_line l; l ← get_char (code "T") l; '(start, l) ← readFixedNumber 2 l;
  '(ts, l) ← get_list get (Z.to_nat (types + 64 - start)) l;
  l ← get_char 10 l; l ← get_char (code "E") l; '(ma, l) ← get_num l; '(n, l) ← get_num l;
  '(apis, l) ← get_list get (Z.to_nat n) l;
  l ← get_char 10 l; l ← get_char (code "G") l; '(mg, l) ← get_num l; '(n, l) ← get_num l;
  '(gs, l) ← get_list get (Z.to_nat n) l; '(fs, l) ← get_list get (Z.to_nat functions) l;
  Some (BModule s start ts ma apis mg gs fs, l).
Definition good_bmodule (m : bmodule) : Prop :=
  Forall (fun c => c <> 10) (bm_signature m) /\ 0 <= bm_start m < 256 /\ Forall good (bm_types m) /\
  in_u 64 (bm_max_api m) /\ in_u 64 (Z.of_nat (length (bm_apis m))) /\ Forall good (bm_apis m) /\
  in_u 64 (bm_max_global m) /\ in_u 64 (Z.of_nat (length (bm_globals m))) /\ Forall good (bm_globals m) /\
  Forall good (bm_functions m).
Lemma get_put_bmodule m types functions rest : good_bmodule m ->
  types = Z.of_nat (length (bm_types m)) + bm_start m - 64 -> functions = Z.of_nat (length (bm_functions m)) ->
  get_bmodule types functions (put_bmodule m ++ rest) = Some (m, rest).
Proof.
  intros (H1 & H2 & H3 & H4 & H5 & H6 & H7 & H8 & H9 & H10) -> ->. destruct m as [s start ts ma apis mg gs fs].
  cbn [bm_signature bm_start bm_types bm_max_api bm_apis bm_max_global bm_globals bm_functions] in *.
  unfold put_bmodule, put_tables, get_bmodule.
  cbn [bm_signature bm_start bm_types bm_max_api bm_apis bm_max_global bm_globals bm_functions].
  rewrite <- !app_assoc. cbn [app]. rewrite get_line_ok by done. bind. read.
  replace (Z.to_nat (Z.of_nat (length ts) + start - 64 + 64 - start)) with (length ts) by lia.
  read. rewrite Nat2Z.id. read. rewrite Nat2Z.id. read. rewrite Nat2Z.id. by read.
Qed.

(** ** Files *)

Record bheader := BHeader {
  bh_level : Z; bh_time : Z; bh_author : list Z; bh_exclude : Z; bh_kind : Z; bh_minfunc : Z; bh_maxfunc : Z;
  bh_resource : Z; bh_compiler : list Z; bh_types : Z; bh_functions : Z; bh_magic : Z; bh_fixed : Z;
  bh_maxline : list Z
}.
Definition put_bheader (h : bheader) : list Z :=
  codes "ClamBC" ++ put_num (bh_level h) ++ put_num (bh_time h) ++ printConstData (bh_author h)
  ++ put_num (bh_exclude h) ++ put_num (bh_kind h) ++ put_num (bh_minfunc h) ++ put_num (bh_maxfunc h)
  ++ put_num (bh_resource h) ++ printConstData (bh_compiler h) ++ put_num (bh_types h) ++ put_num (bh_functions h)
  ++ put_num (bh_magic h) ++ fixed (bh_fixed h) 2 ++ code ":" :: bh_maxline h ++ [10].
Definition get_chars (s : list Z) (l : list Z) : option (list Z) :=
  foldl (fun r c => l ← r; get_char c l) (Some l) s.
Definition get_bheader (l : list Z) : option (bheader * list Z) :=
  l ← get_chars (codes "ClamBC") l;
  '(level, l) ← get_num l; '(time, l) ← get_num l; '(author, l) ← readConstData l; '(excl, l) ← get_num l;
  '(kind, l) ← get_num l; '(mn, l) ← get_num l; '(mx, l) ← get_num l; '(res, l) ← get_num l;
  '(comp, l) ← readConstData l; '(nt, l) ← get_num l; '(nf, l) ← get_num l; '(magic, l) ← get_num l;
  '(fx, l) ← readFixedNumber 2 l; l ← get_char (code ":") l; '(ml, l) ← get_line l;
  Some (BHeader level time author excl kind mn mx res comp nt nf magic fx ml, l).
Definition good_bheader (h : bheader) : Prop :=
  Forall (in_u 64) [bh_level h; bh_time h; bh_exclude h; bh_kind h; bh_minfunc h; bh_maxfunc h; bh_resource h;
                    bh_types h; bh_functions h; bh_magic h] /\
  good_data (bh_author h) /\ good_data (bh_compiler h) /\ 0 <= bh_fixed h < 256 /\
  Forall (fun c => c <> 10) (bh_maxline h).
#[export, refine] Instance bheader_coded : Coded bheader :=
  {| put := put_bheader; get := get_bheader; good := good_bheader; get_put := _ |}.
Proof.
  intros [level time author excl kind mn mx res comp nt nf magic fx ml] rest H. unfold good_bheader in H.
  cbn [bh_level bh_time bh_author bh_exclude bh_kind bh_minfunc bh_maxfunc bh_resource bh_compiler bh_types
    bh_functions bh_magic bh_fixed bh_maxline] in H.
  destruct H as (Hn & [Ha Ha'] & [Hc Hc'] & Hf & Hm).
  repeat match goal with H : Forall _ (_ :: _) |- _ => apply Forall_cons in H as [? H] end.
  unfold put_bheader, get_bheader.
  cbn [bh_level bh_time bh_author bh_exclude bh_kind bh_minfunc bh_maxfunc bh_resource bh_compiler bh_types
    bh_functions bh_magic bh_fixed bh_maxline].
  rewrite <- !app_assoc. change (get_chars (codes "ClamBC") (codes "ClamBC" ++ ?l)) with (Some l). bind.
  rewrite !get_num_put by done. bind. rewrite get_num_put by done. bind.
  rewrite readConstData_print by done. bind. do 5 (rewrite get_num_put by done; bind).
  rewrite readConstData_print by done. bind. do 3 (rewrite get_num_put by done; bind).
  read. change ([10] ++ rest) with (10 :: rest). by rewrite get_line_ok.
Defined.

(** A whole file: the header, the module, and the dump of the source after the
    line that ends the module. *)
Definition put_file (h : bheader) (m : bmodule) (source : list Z) : list Z :=
  put h ++ put_bmodule m ++ 10 :: source.
Definition get_file (l : list Z) : option (bheader * bmodule * list Z) :=
  '(h, l) ← get l; '(m, l) ← get_bmodule (bh_types h) (bh_functions h) l;
  l ← get_char 10 l; Some (h, m, l).
Lemma get_put_file h m source : good h -> good_bmodule m ->
  bh_types h = Z.of_nat (length (bm_types m)) + bm_start m - 64 ->
  bh_functions h = Z.of_nat (length (bm_functions m)) ->
  get_file (put_file h m source) = Some (h, m, source).
Proof.
  intros Hh Hm Ht Hf. unfold get_file, put_file. rewrite get_put by done. bind.
  rewrite get_put_bmodule by done. bind. by rewrite get_char_ok.
Qed.
