(* ===== verification/Writer.v ===== *)
(** * Writer: a module becomes bytecode

    libclambcc/ClamBCWriter.cpp: the module header and tables
    (ClamBCOutputWriter), then the functions, block by block, instruction by
    instruction (ClamBCWriter). The writer asks the analyzer (Analyzer.v) for
    the numbers of types, functions and globals and the register allocator
    (RegAlloc.v) for those of values; every question that has no answer is a
    failed assertion here as it is there.

    What is printed through [printEOL] is kept apart from the other characters,
    since it determines the length of the lines. *)
From S2P Require Import Prelude Enums Encode IR RegAlloc Analyzer Bytecode.
From stdpp Require Import pretty.
Local Open Scope string_scope.
Local Open Scope list_scope.
Local Open Scope Z_scope.
Local Open Scope outcome_scope.

Definition print_number (n : Z) : list Z := printNumber (u64 n) false.
Definition print_constant (n : Z) : list Z := printNumber (u64 n) true.

(** Texts one after the other. *)
Fixpoint concat_text {A} (l : list (outcome (list A))) : outcome (list A) :=
  match l with
  | [] => Done []
  | t :: l => let* t := t in let* r := concat_text l in Done (t ++ r)
  end.
Definition text_of (s : string) : list Z := codes s.

(** ** Types and operands *)

Section writer.
Context (a : Analysis).

(** printType, with its restrictions *)
Definition printType (Ty : ty) : outcome (list Z) :=
  let* _ := match Ty with
            | TyInt w => if existsb (Z.eqb w) [1; 8; 16; 32; 64] then Done tt
                         else Stop "The ClamAV bytecode backend does not currently support integer types of widths other than 1, 8, 16, 32, 64."
            | TyFloat => Stop "The ClamAV bytecode backend does not support floating point types"
            | _ => Done tt
            end in
  let* id := getTypeID a Ty in
  let* _ := assert_ (id <? 32768) "At most 32k types are supported" in
  Done (print_number id).

(** Constant::getNullValue *)
Definition getNullValue (t : ty) : Value :=
  match t with
  | TyInt w => ConstantInt w 0
  | TyPtr _ => ConstantPointerNull t
  | TyFloat => ConstantFP true t
  | _ => ConstantAggregateZero t
  end.

Context (r : regs).

Definition printOperand (V : Value) : outcome (list Z) :=
  let V := match V with UndefValue t => getNullValue t | _ => V end in
  match V with
  | ConstantInt w v =>
      if 64 <? w then Stop "Integers of more than 64-bits are not supported"
      else let* size := printFixedNumber ((w + 7) / 8) 1 in Done (print_constant (wrap w v) ++ size)
  | GlobalVariable g _ =>
      let* id := getGlobalID a g in let* size := printFixedNumber 0 1 in Done (print_constant id ++ size)
  | ConstantExpr op _ _ =>
      match op with
      | CE_IntToPtr => Stop "Cast of integer to pointer not supported"
      | _ => let* id := getGlobalID_CE a V in let* size := printFixedNumber 0 1 in Done (print_constant id ++ size)
      end
  | ConstantPointerNull _ => let* size := printFixedNumber 0 1 in Done (print_constant 0 ++ size)
  | Local _ _ | InlineAsm _ => let* id := getValueID r V in Done (print_number id)
  | _ => AssertFailed "REMOVED THE CALL TO STOP, BECAUSE printLocation was crashing."
  end.
Definition printOperands (l : list Value) : outcome (list Z) := concat_text (map printOperand l).

(** ** Instructions *)

Context (f : Function_) (isLosslessCast : Inst -> bool) (minflvl : Z).

Definition opcode (name : string) : outcome (list Z) := printFixedNumber (OP name) 2.

(** opcodecvt; an instruction that is not in it has no opcode *)
Definition opcodecvt_binop (op : binop) : Z :=
  match op with
  | IR.Add => OP "OP_BC_ADD" | Sub => OP "OP_BC_SUB" | Mul => OP "OP_BC_MUL"
  | UDiv => OP "OP_BC_UDIV" | SDiv => OP "OP_BC_SDIV" | URem => OP "OP_BC_UREM" | SRem => OP "OP_BC_SREM"
  | Shl => OP "OP_BC_SHL" | LShr => OP "OP_BC_LSHR" | AShr => OP "OP_BC_ASHR"
  | And => OP "OP_BC_AND" | Or => OP "OP_BC_OR" | Xor => OP "OP_BC_XOR"
  | FloatBinary => 0
  end.
Definition opcodecvt_cast (op : castop) : Z :=
  match op with
  | Trunc => OP "OP_BC_TRUNC" | SExt => OP "OP_BC_SEXT" | ZExt => OP "OP_BC_ZEXT"
  | PtrToInt | IntToPtr | BitCast | OtherCast => 0
  end.

Definition HandleOpcodes (mapped : Z) (ops : list Value) (printTy : bool) : outcome (list Z) :=
  let n := Z.of_nat (length ops) in
  let* _ := assert_ (mapped <? 256) "At most 255 instruction types are supported!" in
  let* _ := assert_ (n <? 16) "At most 15 operands are supported!" in
  if mapped =? 0 then Stop "Instruction is not mapped" else
  let* _ := assert_ (nth (Z.to_nat mapped) operand_counts 0 =? n) "Operand count mismatch" in
  let* op := printFixedNumber mapped 2 in
  let* t := concat_text (map (fun V =>
    let* ty := (if printTy then printType (type_of V) else Done []) in
    let* v := printOperand V in Done (ty ++ v)) ops) in
  Done (op ++ t).

Definition isZero (V : Value) : bool := match V with ConstantInt w v => wrap w v =? 0 | _ => false end.
Definition no_constant_base (V : Value) : bool :=
  match V with GlobalVariable _ _ | ConstantExpr _ _ _ => false | _ => true end.

Definition visitGetElementPtrInst (p : Value) (indices : list Value) : outcome (list Z) :=
  let ops := length indices in
  let* _ := assert_ (negb (ops =? 0)%nat) "GEP without indices?" in
  if (15 <? ops)%nat then Stop "Too many levels of pointer indexing, at most 15 is supported!" else
  match indices with
  | [i] =>
      let* op := opcode "OP_BC_GEP1" in
      let* _ := assert_ (no_constant_base p) "would hit libclamav interpreter bug" in
      let* iid := getTypeID a (type_of p) in
      let* _ := assert_ (negb (65 <? iid)) "gep1 with type > 65 won't work on interpreter" in
      let* t := printType (type_of p) in
      let* l := printOperands [p; i] in
      Done (op ++ t ++ l)
  | [i; j] =>
      if isZero i then
        let* _ := assert_ (no_constant_base p) "would hit libclamav interpreter bug" in
        let* op := opcode "OP_BC_GEPZ" in
        let* t := printType (type_of p) in
        let* l := printOperands [p; j] in
        Done (op ++ t ++ l)
      else AssertFailed "GEPN"
  | _ => AssertFailed "GEPN"
  end.

Definition kind_of (V : Value) : option inst_kind := i_kind <$> def_of f V.
Definition isAlloca (V : Value) : bool := match kind_of V with Some (Alloca _ _) => true | _ => false end.
Definition isGEP (V : Value) : bool := match kind_of V with Some (GetElementPtr _ _ _) => true | _ => false end.
Definition isBitCast (V : Value) : bool := match kind_of V with Some (Cast BitCast _) => true | _ => false end.
Definition isGlobal (V : Value) : bool := match V with GlobalVariable _ _ => true | _ => false end.
Definition isArgument (V : Value) : bool :=
  match V with Local x _ => existsb (fun d => String.eqb x (fst d)) (f_args f) | _ => false end.

Definition visitLoadInst (LI : Inst) (V : Value) : outcome (list Z) :=
  if isAlloca V || isGlobal V then
    let* op := opcode "OP_BC_COPY" in
    let* l := printOperands [V; Local (i_name LI) (i_type LI)] in Done (op ++ l)
  else let* op := opcode "OP_BC_LOAD" in let* l := printOperands [V] in Done (op ++ l).

(** Value::stripPointerCasts, on what is neither a getelementptr nor a bitcast
    instruction: constant casts and constant getelementptrs of index zero (there
    is one address space) *)
Fixpoint stripPointerCasts (V : Value) : Value :=
  match V with
  | ConstantExpr CE_BitCast (p :: _) _ => stripPointerCasts p
  | ConstantExpr CE_GetElementPtr (p :: indices) _ => if forallb isZero indices then stripPointerCasts p else V
  | _ => V
  end.
Definition put_copy (v p : Value) : outcome (list Z) :=
  let* op := opcode "OP_BC_COPY" in let* l := printOperands [v; p] in Done (op ++ l).
Definition put_store (v p : Value) : outcome (list Z) :=
  let* op := opcode "OP_BC_STORE" in let* l := printOperands [v; p] in Done (op ++ l).
Definition visitStoreInst (v V : Value) : outcome (list Z) :=
  if isGEP V || isBitCast V then put_store v V else
  let V := stripPointerCasts V in
  if isAlloca V || isGlobal V then put_copy v V
  else if isGEP V then put_store v V
  else if isArgument V then put_copy v V
  else put_store v V.

Definition visitCastInst (I : Inst) (op : castop) (v : Value) : outcome (list Z) :=
  if match op with BitCast => isLosslessCast I | _ => false end then
    let* o := opcode "OP_BC_GEPZ" in
    let* t := printType (type_of v) in
    let* p := printOperand v in
    let* size := printFixedNumber 4 1 in
    Done (o ++ t ++ p ++ print_constant 0 ++ size)
  else
    let* _ := assert_ (negb (isLosslessCast I)) "!I.isLosslessCast()" in
    if match op with PtrToInt => bool_decide (i_type I = TyInt 64) | _ => false end then
      let* o := opcode "OP_BC_PTRTOINT64" in let* p := printOperand v in Done (o ++ p)
    else HandleOpcodes (opcodecvt_cast op) [v] false.

Definition ptrtoint_of (V : Value) : option Value :=
  match kind_of V with Some (Cast PtrToInt p) => Some p | _ => None end.
Definition visitBinaryOperator (I : Inst) (op : binop) (x y : Value) : outcome (list Z) :=
  let* _ := assert_ (negb (is_pointer (i_type I))) "!isa<PointerType>(I.getType())" in
  match op, ptrtoint_of x, ptrtoint_of y, decide (i_type I = TyInt 32) with
  | Sub, Some L, Some R, left _ =>
      let* o := opcode "OP_BC_PTRDIFF32" in let* l := printOperands [L; R] in Done (o ++ l)
  | _, _, _, _ => HandleOpcodes (opcodecvt_binop op) [x; y] false
  end.

Definition icmp_opcode (p : cmp_predicate) : string :=
  match p with
  | ICMP_EQ => "OP_BC_ICMP_EQ" | ICMP_NE => "OP_BC_ICMP_NE"
  | ICMP_UGT => "OP_BC_ICMP_UGT" | ICMP_UGE => "OP_BC_ICMP_UGE"
  | ICMP_ULT => "OP_BC_ICMP_ULT" | ICMP_ULE => "OP_BC_ICMP_ULE"
  | ICMP_SGT => "OP_BC_ICMP_SGT" | ICMP_SGE => "OP_BC_ICMP_SGE"
  | ICMP_SLE => "OP_BC_ICMP_SLE" | ICMP_SLT => "OP_BC_ICMP_SLT"
  end.
Definition FUNC_LEVEL_098_5 : Z := ev lib_FunctionalityLevels "FUNC_LEVEL_098_5".
Definition visitICmpInst (p : cmp_predicate) (x y : Value) : outcome (list Z) :=
  if match p with ICMP_SLE => minflvl <? FUNC_LEVEL_098_5 | _ => false end then
    Stop "Instruction opcode 29 (signed less than or equal to) is not supported clamav JIT on functionality levels prior to FUNC_LEVEL_098_5"
  else
    let* o := opcode (icmp_opcode p) in
    let* t := printType (type_of x) in
    let* l := printOperands [x; y] in
    Done (o ++ t ++ l).

(** CallInst::getNumOperands: the arguments and the callee *)
Definition visitIntrinsic (iid : intrinsic) (CI : Inst) (args : list Value) : outcome (list Z) :=
  let num_operands := Z.of_nat (length args) + 1 in
  let numbered (o : string) (n : nat) := let* o := opcode o in let* l := printOperands (firstn n args) in Done (o ++ l) in
  let memory (o : string) := let* _ := assert_ (num_operands =? 5) "CI.getNumOperands() == 5" in numbered o 3%nat in
  match iid with
  | memset => memory "OP_BC_MEMSET"
  | memcpy => memory "OP_BC_MEMCPY"
  | memmove => memory "OP_BC_MEMMOVE"
  | bswap =>
      let* _ := assert_ (num_operands =? 2) "CI.getNumOperands() == 2" in
      match i_type CI with
      | TyInt 16 => numbered "OP_BC_BSWAP16" 1%nat
      | TyInt 32 => numbered "OP_BC_BSWAP32" 1%nat
      | TyInt 64 => numbered "OP_BC_BSWAP64" 1%nat
      | _ => Stop "Unsupported bswap bitwidth"
      end
  | OtherIntrinsic => Stop "Unsupported intrinsic call "
  end.

Context (functions : list Function_).
Definition getCalledFunction (callee : Value) : option Function_ :=
  match callee with
  | FunctionValue x _ => List.find (fun g => String.eqb (f_name g) x) functions
  | _ => None
  end.
Definition visitCallInst (CI : Inst) (callee : Value) (cc : Z) (args : list Value) : outcome (list Z) :=
  match getCalledFunction callee with
  | None => Stop "Indirect calls are not implemented yet!"
  | Some F =>
      if negb (f_cc F =? cc) then Stop "Calling conventions don't match!"
      else if f_vararg F then Stop "Calls to vararg functions are not supported!"
      else if isDeclaration F && String.eqb (f_name F) "__is_bigendian" then opcode "OP_BC_ISBIGENDIAN"
      else if isDeclaration F && String.eqb (f_name F) "abort" then opcode "OP_BC_ABORT"
      else match f_intrinsic F with
      | Some iid => visitIntrinsic iid CI args
      | None =>
          let arg_size := Z.of_nat (length (f_args F)) in
          if isDeclaration F then
            if String.eqb (f_name F) "memcmp" then
              match operands (i_kind CI) with
              | x :: y :: z :: _ => let* o := opcode "OP_BC_MEMCMP" in let* l := printOperands [x; y; z] in Done (o ++ l)
              | _ => Undefined "getOperand"
              end
            else
              let* id := getExternalID a (f_name F) in
              let* o := opcode "OP_BC_CALL_API" in
              let* n := printFixedNumber arg_size 1 in
              let* l := printOperands args in
              Done (o ++ n ++ print_number id ++ l)
          else
            let* o := opcode "OP_BC_CALL_DIRECT" in
            if 255 <? arg_size then Stop "Calls can have max 15 parameters" else
            let* n := printFixedNumber arg_size 1 in
            let* id := getFunctionID a (f_name F) in
            let* l := printOperands args in
            Done (o ++ n ++ print_number id ++ l)
      end
  end.

(** InstVisitor *)
Definition visit (I : Inst) : outcome (list Z) :=
  match i_kind I with
  | GetElementPtr _ p indices => visitGetElementPtrInst p indices
  | Load p => visitLoadInst I p
  | Store v p => visitStoreInst v p
  | Cast op v => visitCastInst I op v
  | Select c t e => HandleOpcodes (OP "OP_BC_SELECT") [c; t; e] false
  | Binary op x y => visitBinaryOperator I op x y
  | ICmp p x y => visitICmpInst p x y
  | Call callee cc args => visitCallInst I callee cc args
  | Alloca _ _ | DbgInfo | Freeze _ | OtherInst _ => Stop "ClamAV bytecode backend does not know about "
  end.

(** ** Blocks *)

(** BBMap: the number of a block is its position *)
Fixpoint position (l : string) (bs : list Block) : option Z :=
  match bs with
  | [] => None
  | b :: bs => if String.eqb (bb_name b) l then Some 0 else Z.succ <$> position l bs
  end.
Definition printBasicBlockID (BB : string) : outcome (list Z) :=
  let bbid := default 0 (position BB (f_blocks f)) in
  let* _ := assert_ (negb (bbid =? 0)) "Unknown basicblock?" in
  Done (print_number bbid).
Definition visit_terminator (t : Term) : outcome (list Z) :=
  match t with
  | Jmp l => let* o := opcode "OP_BC_JMP" in let* t := printBasicBlockID l in Done (o ++ t)
  | Br c t e =>
      let* o := opcode "OP_BC_BRANCH" in
      let* c := printOperand c in
      let* t := printBasicBlockID t in let* e := printBasicBlockID e in
      Done (o ++ c ++ t ++ e)
  | Switch _ => Stop "ClamAV bytecode backend has not implemented switch statements, please lower "
  | RetVoid => opcode "OP_BC_RET_VOID"
  | Ret v => HandleOpcodes (OP "OP_BC_RET") [v] true
  | Unreachable => opcode "OP_BC_ABORT"
  end.

(** An instruction without a result is never in the allocator's SkipMap. *)
Definition skipped (I : Inst) : bool := negb (bool_decide (i_type I = TyVoid)) && skipInstruction r (i_name I).
Definition isInlineAsm (I : Inst) : bool :=
  match i_kind I with
  | Call _ _ _ => match operands (i_kind I) with InlineAsm _ :: _ => true | _ => false end
  | _ => false
  end.
Definition isAllocaOrDbg (I : Inst) : bool := match i_kind I with Alloca _ _ | DbgInfo => true | _ => false end.

Definition printInst (pInst : Inst) : outcome (list Z) :=
  if isAllocaOrDbg pInst then Done []
  else if isInlineAsm pInst then Stop "Inline assembly is not allowed"
  else if skipped pInst then Done []
  else
    let Ty := i_type pInst in
    let* t := printType (match i_kind pInst with Store v _ => type_of v | _ => Ty end) in
    let* d := (if bool_decide (Ty = TyVoid) then Done (print_number 0)
               else let* id := getValueID r (Local (i_name pInst) Ty) in Done (print_number id)) in
    let* v := visit pInst in
    Done (t ++ d ++ v).
Definition printBasicBlock (BB : Block) : outcome (list line_op) :=
  let* l := concat_text (map printInst (bb_insts BB)) in
  let* t := visit_terminator (bb_term BB) in
  Done [EOL; Chars [code "B"]; Chars l; Chars [code "T"]; Chars t].

(** ** Functions *)

Definition printCount (id : Z) (What : string) : outcome (list Z) :=
  if 65536 <=? id then Stop ("Attempted to use more than 64k " ++ What)%string else Done (print_number id).

(** The type of a numbered value and whether it is an allocation. *)
Definition printValue (x : string) : outcome (list Z) :=
  match List.find (fun d => String.eqb x (fst d)) (f_args f) with
  | Some (_, Ty) => let* t := printType Ty in let* b := printFixedNumber 0 1 in Done (t ++ b)
  | None =>
      match List.find (fun I => String.eqb (i_name I) x) (all_insts f) with
      | None => Undefined "value"
      | Some V =>
          match i_kind V with
          | Alloca Ty _ =>
              if isArrayAllocation (i_kind V) then
                match Ty with TyArr _ _ => Stop "Array allocs are not supported" | _ => Stop "VLAs are not (yet) supported" end
              else let* t := printType Ty in let* b := printFixedNumber 1 1 in Done (t ++ b)
          | _ => let* t := printType (i_type V) in let* b := printFixedNumber 0 1 in Done (t ++ b)
          end
      end
  end.

Definition counts (I : Inst) : bool := negb (isAllocaOrDbg I) && negb (skipped I).

(** The writer sees no phi nodes: the allocator has replaced them. *)
Definition printFunction : outcome (list line_op) :=
  if f_sret f then Stop "Functions with struct ret are not supported" else
  let* args := printFixedNumber (Z.of_nat (length (f_args f))) 1 in
  let* ret := printType (f_ret f) in
  let id := Z.of_nat (length (all_insts f) + length (f_blocks f)) in
  if 32768 <=? id then Stop "Attempted to use more than 32k instructions" else
  let* reverseValueMap := buildReverseMap r in
  let id := Z.of_nat (length reverseValueMap) in
  let* count := printCount (u32 (id - Z.of_nat (length (f_args f)))) "values" in
  let* values := concat_text (map printValue reverseValueMap) in
  let instructions := Z.of_nat (length (List.filter counts (all_insts f)) + length (f_blocks f)) in
  let* blocks := printCount (Z.of_nat (length (f_blocks f))) "basic blocks" in
  let* bodies := concat_text (map printBasicBlock (f_blocks f)) in
  Done ([EOL; Chars [code "A"]; Chars (args ++ ret); Chars [code "L"]; Chars (count ++ values);
         Chars [code "F"]; Chars (print_number instructions ++ blocks)] ++ bodies ++ [Chars [code "E"]]).
End writer.

(** ** fixGEPs

    A getelementptr with one index on a pointer that is not i8* is done on i8*,
    the index multiplied by the size. *)
Section fix_geps.
Context (a : Analysis) (fresh : string -> string -> string).

Definition i8ptr : ty := TyPtr (TyInt 8).
(** The four instructions in place of one; the last takes over its uses. The
    new values are named after the one they replace. *)
Definition fix_gep (i : Inst) : outcome (list Inst) :=
  match i_kind i with
  | GetElementPtr inbounds operand [index] =>
      let* _ := assert_ (is_pointer (i_type i)) "ONLY POINTER TYPES ARE CURRENTLY SUPPORTED" in
      match type_of operand with
      | TyPtr pType =>
          match pType with
          | TyInt w =>
              let multiplier := w / 8 in
              let* _ := assert_ (negb (multiplier =? 0)) "HOW DID THIS END UP ZERO" in
              let* _ := assert_ inbounds "DON'T THINK THIS CAN HAPPEN" in
              let ci := fresh (i_name i) "cast" in
              let newIndex := fresh (i_name i) "mul" in
              let pNew := fresh (i_name i) "gep" in
              let tIndex := type_of index in
              let cMultiplier := match tIndex with TyInt wi => ConstantInt wi multiplier | t => OtherConstant t end in
              Done [ inst ci i8ptr (Cast BitCast operand);
                     inst newIndex tIndex (Binary Mul cMultiplier index);
                     inst pNew i8ptr (GetElementPtr false (Local ci i8ptr) [Local newIndex tIndex]);
                     inst (i_name i) (i_type i) (Cast BitCast (Local pNew i8ptr)) ]
          | _ => AssertFailed "ONLY INTEGER TYPES ARE CURRENTLY IMPLEMENTED"
          end
      | _ => AssertFailed "HOW COULD THIS HAPPEN?"
      end
  | _ => Done [i]
  end.
(** gatherGEPs selects; the instructions are independent of each other. *)
Definition fix_inst (i : Inst) : outcome (list Inst) :=
  match i_kind i with
  | GetElementPtr _ p [_] => let* iid := getTypeID a (type_of p) in if 65 <? iid then fix_gep i else Done [i]
  | _ => Done [i]
  end.
Fixpoint fix_blocks (bs : list Block) : outcome (list Block) :=
  match bs with
  | [] => Done []
  | b :: bs =>
      let* l := concat_text (map fix_inst (bb_insts b)) in
      let* bs := fix_blocks bs in
      Done ({| bb_name := bb_name b; bb_phis := bb_phis b; bb_insts := l; bb_term := bb_term b |} :: bs)
  end.
Definition fixGEPs (f : Function_) : outcome Function_ :=
  let* bs := fix_blocks (f_blocks f) in Done (with_blocks f bs).
End fix_geps.

(** ** The tables of the module *)

Section tables.
Context (a : Analysis) (m : Module_).

(** describeType; [wide] says that the data layout aligns an integer type less
    than its size. *)
Context (wide : ty -> bool).
Definition describe_element (Ty : ty) : outcome Z :=
  match Ty with
  | TyPtr _ => AssertFailed "Find replacement for WriteTypeSymbolic"
  | _ => if match Ty with TyInt _ => wide Ty | _ => false end
         then Stop "Internal error: ABI alignment less than typesize for integer!"
         else getTypeID a Ty
  end.
Definition describe_struct (packed : bool) (fields : list ty) : outcome (list Z) :=
  let* elements := mapM_out describe_element fields in
  let* k := printFixedNumber (if packed then 2 else 3) 1 in
  Done (k ++ print_number (Z.of_nat (length elements)) ++ flat_map print_number elements).
Definition describeType (Ty : ty) : outcome (list Z) :=
  match Ty with
  | TyFun ret params vararg =>
      let* k := printFixedNumber 1 1 in
      let* _ := assert_ (negb vararg) "!FTy->isVarArg()" in
      let* r := getTypeID a ret in
      let* ps := mapM_out (getTypeID a) params in
      Done (k ++ print_number (Z.of_nat (length params) + 1) ++ print_number r ++ flat_map print_number ps)
  | TyStruct packed fields => describe_struct packed fields
  | TyNamed s => match m_structs m !! s with
                 | Some (packed, fields) => describe_struct packed fields
                 | None => describe_struct false []
                 end
  | TyArr n t =>
      let* k := printFixedNumber 4 1 in
      let* id := getTypeID a t in Done (k ++ print_number n ++ print_number id)
  | TyPtr t =>
      let* k := printFixedNumber 5 1 in
      let* id := (if isOpaque (m_structs m) t then Done 8 else getTypeID a t) in
      Done (k ++ print_number id)
  | _ => Stop "Unsupported type "
  end.

(** printConstant; [C] is what a global is initialised with *)
Definition base_global (V : Value) : option string :=
  match V with
  | ConstantExpr _ (p :: _) _ => match stripPointerCasts p with GlobalVariable g _ => Some g | _ => None end
  | _ => None
  end.
Definition isNullValue (C : Value) : bool :=
  match C with
  | ConstantInt w v => wrap w v =? 0
  | ConstantPointerNull _ | ConstantAggregateZero _ | ConstantFP true _ => true
  | _ => false
  end.
(** A constant expression that is an offset into a global, or a cast of one: the
    offset and the global. *)
Definition constant_address (CE : Value) : option (outcome (Z * string)) :=
  let VCE := match stripPointerCasts CE with ConstantExpr _ _ _ as V => V | _ => CE end in
  let offset (g : string) (C1 : Value) : outcome (Z * string) :=
    match C1 with ConstantInt w v => Done (wrap w v, g) | _ => Undefined "dyn_cast<ConstantInt>" end in
  match base_global VCE with
  | None => None
  | Some g =>
      match VCE with
      | ConstantExpr CE_GetElementPtr [_; C1] _ => Some (offset g C1)
      | _ =>
          match (match VCE with
                 | ConstantExpr _ [_; C0; C1] _ =>
                     match C0 with
                     | ConstantInt w v => if wrap w v =? 0 then Some (offset g C1) else None
                     | _ => Some (Undefined "dyn_cast<ConstantInt>")
                     end
                 | _ => None
                 end) with
          | Some r => Some r
          | None => match CE with ConstantExpr CE_BitCast _ _ => Some (Done (0, g)) | _ => None end
          end
      end
  end.
Definition printConstantExpr (CE : Value) : option (outcome (list Z)) :=
  (fun r => let* (offset, g) := r in let* id := getGlobalID a g in Done (print_constant offset ++ print_constant id))
    <$> constant_address CE.
Fixpoint printConstant (C : Value) : outcome (list Z) :=
  match (match C with ConstantExpr _ _ _ => printConstantExpr C | _ => None end) with
  | Some r => r
  | None =>
      if isNullValue C then Done (print_constant 0)
      else match C with
           | ConstantInt w v => Done (print_constant (wrap w v))
           | ConstantAggregate l _ =>
               let* _ := assert_ (negb (length l =? 0)%nat) "[0xty] arrays are not supported!" in
               concat_text (map printConstant l)
           | ConstantFP _ _ => Stop "Floating point constants are not supported!"
           | ConstantExpr _ _ _ => Stop "Global variable has runtime-computable print_constant expression initializer"
           | ConstantDataSequential l _ =>
               let* _ := assert_ (negb (length l =? 0)%nat) "[0xty] arrays are not supported!" in
               concat_text (map printConstant l)
           | _ => Stop "Unsupported print_constant type"
           end
  end.

Definition print_type (e : nat * ty) : outcome (list Z) :=
  let* id := getTypeID a (snd e) in
  let* _ := assert_ (id =? u32 (startTID + Z.of_nat (fst e))) "internal type ID mismatch" in
  describeType (snd e).
Definition print_api (x : string) : outcome (list Z) :=
  let* id := getExternalID a x in
  match List.find (fun F => String.eqb (f_name F) x) (a_functions a) with
  | Some F => let* t := getTypeID a (f_type F) in
              Done (print_number id ++ print_number t ++ printConstData (codes x ++ [0]))
  | None => Undefined "function"
  end.
(** The first place is the null pointer's. *)
Definition print_global (e : nat * option Value) : outcome (list Z) :=
  match e with
  | (O, C) =>
      let* _ := assert_ (match C with None => true | _ => false end) "!*I" in
      Done (print_number 0 ++ print_constant 0 ++ print_number 0)
  | (S _, Some C) =>
      let* id := getTypeID a (type_of C) in
      let* t := printConstant C in
      Done (print_number (u16 id) ++ t ++ print_number 0)
  | (S _, None) => Undefined "cast<Constant>"
  end.

Definition printGlobals : outcome (list line_op) :=
  let ls := if String.eqb (logicalSignature a) "" then virusnames a else logicalSignature a in
  let* start := printFixedNumber startTID 2 in
  let* types := concat_text (map print_type (imap pair (extraTypes (a_types a)))) in
  let* _ := assert_ (length (apis (a_apis a)) =? size (apiCalls (a_apis a)))%nat "Number of apis don't match" in
  let* calls := concat_text (map print_api (apis (a_apis a))) in
  let* inits := concat_text (map print_global (imap pair (globalInits (a_globals a)))) in
  Done [ Chars (codes ls); EOL; Chars [code "T"]; Chars (start ++ types);
         EOL; Chars [code "E"];
         Chars (print_number (maxApi (a_apis a)) ++ print_number (Z.of_nat (size (apiCalls (a_apis a)))) ++ calls);
         EOL; Chars [code "G"];
         Chars (print_number (maxGlobal (a_globals a)) ++ print_number (Z.of_nat (length (globalInits (a_globals a)))) ++ inits) ].

(** ** The header *)

Definition checkFunctionalityLevel (query min max : Z) : bool :=
  negb (negb (min =? 0) && (query <? min)) && negb (negb (max =? 0) && (max <? query)).
Definition BC_FORMAT_096 : Z := 6.
Definition BC_FORMAT_LEVEL : Z := 7.
Definition FUNC_LEVEL_096 : Z := ev lib_FunctionalityLevels "FUNC_LEVEL_096".

(** The time, $SIGNDUSER or else $USER, and the compiler's version come from
    outside. *)
Context (now : Z) (user : option string) (version : string).
Definition decimal_text (n : Z) : list Z := codes (pretty n).
Definition printModuleHeader (maxLine : Z) : outcome (list Z) :=
  let minfunc := u32 (default 0 (m_funcmin m)) in
  let maxfunc := u32 (default 0 (m_funcmax m)) in
  let level := if checkFunctionalityLevel FUNC_LEVEL_096 minfunc maxfunc then BC_FORMAT_096 else BC_FORMAT_LEVEL in
  let count := Z.of_nat (length (defined (a_functions a))) in
  let* f42 := printFixedNumber 42 2 in
  let maxLine := if maxLine <? 4096 then 4096 else maxLine in
  let text := codes "ClamBC" ++ print_number level ++ print_number now ++ printString (codes <$> user) 64 ++ print_number 0
    ++ print_number (kind a) ++ print_number minfunc ++ print_number maxfunc ++ print_number 0 ++ printString (Some (codes version)) 64
    ++ print_number (Z.of_nat (length (extraTypes (a_types a))) + startTID - 64) ++ print_number count
    ++ print_number 0x53e5493e9f3d1c30 ++ f42 ++ [code ":"] ++ decimal_text maxLine ++ [10] in
  let* _ := assert_ (Z.of_nat (length text) <? 8192) "OutReal too big" in
  Done text.

(** ** The whole file *)

Context (fresh : Function_ -> string -> string) (fresh_gep : Function_ -> string -> string -> string)
        (mayHaveSideEffects isLosslessCast : Inst -> bool) (minflvl : Z) (source : list Z).

(** runOnFunction: [fid] functions have been written *)
Definition write_function (F : Function_) (fid : Z) : outcome (list line_op * Z) :=
  let* F := fixGEPs a (fresh_gep F) F in
  if String.eqb (f_name F) "" then AssertFailed "Function created by ClamBCRebuild is not being deleted" else
  if f_available_externally F then Done ([], fid) else
  let fid := u32 (fid + 1) in
  let* id := getFunctionID a (f_name F) in
  let* _ := assert_ (id =? fid) "Function IDs don't match" in
  let F := handle_all fresh F in
  let* r := number_values mayHaveSideEffects isLosslessCast F in
  let* text := printFunction a r F isLosslessCast minflvl (a_functions a) in
  Done (text, fid).
Fixpoint write_functions (l : list Function_) (fid : Z) : outcome (list line_op) :=
  match l with
  | [] => Done []
  | F :: l =>
      if isDeclaration F then write_functions l fid
      else let* (text, fid) := write_function F fid in let* rest := write_functions l fid in Done (text ++ rest)
  end.

Definition run_writer : outcome (list Z) :=
  let* tables := printGlobals in
  let* functions := write_functions (a_functions a) 0 in
  let* o := run_lines (tables ++ functions ++ [EOL]) lines_init in
  let* header := printModuleHeader (u32 (maxLineLength o + 1)) in
  Done (header ++ lineBuffer o ++ printSource source).
End tables.
