(* ===== verification/WriterSpec.v ===== *)
(** * WriterSpec: what the writer writes

    The functions of Writer.v produce the text of the bytecode (Bytecode.v) that
    represents the module: instruction by instruction, with the opcode, the
    types and the operands the instruction has. Reading the file back gives that
    bytecode. *)
From S2P Require Import Prelude Enums Encode IR RegAlloc Analyzer Bytecode Writer.
From stdpp Require Import pretty.
Local Open Scope string_scope.
Local Open Scope list_scope.
Local Open Scope Z_scope.
Local Open Scope outcome_scope.

(** The characters of a text. *)
Definition flatten (t : list line_op) : list Z := flat_map (fun o => match o with Chars cs => cs | EOL => [10] end) t.
Lemma flatten_app t1 t2 : flatten (t1 ++ t2) = flatten t1 ++ flatten t2.
Proof. apply flat_map_app. Qed.

Lemma flatten_header x1 x2 x3 x4 x5 x6 bodies :
  flatten ([EOL; Chars [x1]; Chars x2; Chars [x3]; Chars x4; Chars [x5]; Chars x6] ++ bodies)
  = 10 :: x1 :: x2 ++ x3 :: x4 ++ x5 :: x6 ++ flatten bodies.
Proof.
  rewrite flatten_app. generalize (flatten bodies). intros l. cbn [flatten flat_map app].
  by rewrite app_nil_r, <- ?app_assoc; cbn [app]; rewrite <- ?app_assoc.
Qed.

(** Pieces in a row that each are the text of something. *)
Lemma concat_text_put {A X B} `{Coded B} (chars : list A -> list Z) (P : X -> B -> Prop) (g : X -> outcome (list A)) l t :
  chars [] = [] -> (forall t1 t2, chars (t1 ++ t2) = chars t1 ++ chars t2) ->
  (forall x t, x ∈ l -> g x = Done t -> exists b, P x b /\ good b /\ chars t = put b) ->
  concat_text (map g l) = Done t ->
  exists bs, Forall2 P l bs /\ Forall good bs /\ chars t = flat_map put bs.
Proof.
  intros Hnil Happ. revert t. induction l as [|x l IH]; intros t Hg Ht; cbn [map concat_text] in Ht.
  - injection Ht as <-. exists []. split; [constructor|]. split; [constructor|done].
  - inv_done. destruct (Hg x _ ltac:(left) E) as (b & H1 & H2 & H3).
    destruct (IH _ (fun y t Hy => Hg y t ltac:(by right)) E0) as (bs & K1 & K2 & K3).
    exists (b :: bs). split; [by constructor|]. split; [by constructor|]. cbn [flat_map]. by rewrite Happ, H3, K3.
Qed.

Lemma concat_text_Done {A} (l : list (outcome (list A))) cs : concat_text l = Done cs ->
  exists ts, Forall2 (fun c t => c = Done t) l ts /\ cs = List.concat ts.
Proof.
  revert cs. induction l as [|c l IH]; intros cs H; cbn [concat_text] in H.
  - injection H as <-. exists []. split; [constructor|done].
  - inv_done. destruct (IH _ E0) as (ts & Ht & ->). exists (a :: ts). split; [by constructor|done].
Qed.

Lemma printFixedNumber_Done n k cs : printFixedNumber n k = Done cs -> cs = fixed n k /\ 0 <= n < 16 ^ Z.of_nat k.
Proof.
  intros H. destruct (Z.leb_spec 0 n) as [Hn|Hn].
  - destruct (printFixedNumber_fixed n k cs Hn H). auto.
  - exfalso. unfold printFixedNumber in H. destruct (fixed_digits n k) as [ds r'] eqn:E. inv_done.
    assert (Hr : r' < 0).
    { clear - E Hn. revert n cs r' E Hn. induction k as [|k IH]; intros n ds r' E Hn; cbn [fixed_digits] in E.
      - by injection E as <- <-.
      - destruct (fixed_digits (Z.shiftr n 4) k) as [ds1 r1] eqn:E1. injection E as <- <-.
        apply (IH _ _ _ E1). rewrite shiftr4. apply Z.div_lt_upper_bound; lia. }
    apply Z.eqb_eq in Heqb. lia.
Qed.

Lemma u64_in n : in_u 64 (u64 n).
Proof. apply wrap_range. lia. Qed.
#[local] Hint Resolve u64_in : core.

(** ** The allocator's map is as long as there are values *)

Lemma allocate_sizes x r : next_id r = Z.of_nat (length (RevValueMap r)) -> next_id r + 1 < 2 ^ 32 ->
  next_id (allocate x r) = Z.of_nat (length (RevValueMap (allocate x r))) /\
  length (RevValueMap (allocate x r)) = S (length (RevValueMap r)).
Proof.
  intros H Hlt. unfold allocate. cbn [next_id RevValueMap]. rewrite <- H, Z.eqb_refl, length_app. cbn [length].
  split; [|lia]. unfold u32. rewrite wrap_small; [lia|unfold in_u; lia].
Qed.
Lemma args_sizes (args : list (string * ty)) r : next_id r = Z.of_nat (length (RevValueMap r)) ->
  next_id r + Z.of_nat (length args) < 2 ^ 32 ->
  let r' := fold_left (fun r d => allocate (fst d) r) args r in
  next_id r' = Z.of_nat (length (RevValueMap r')) /\ length (RevValueMap r') = (length (RevValueMap r) + length args)%nat.
Proof.
  revert r. induction args as [|[x t] args IH]; intros r H Hlt; cbn [fold_left length fst] in *; [split; [done|lia]|].
  destruct (allocate_sizes x r H ltac:(lia)) as [H1 H2]. destruct (IH _ H1 ltac:(lia)) as [K1 K2].
  split; [done|]. rewrite K2. lia.
Qed.
Lemma inst_sizes se lc f i r r' : next_id r = Z.of_nat (length (RevValueMap r)) -> next_id r + 1 < 2 ^ 32 ->
  number_inst se lc f i r = Done r' ->
  next_id r' = Z.of_nat (length (RevValueMap r')) /\
  (length (RevValueMap r) <= length (RevValueMap r') <= S (length (RevValueMap r)))%nat.
Proof.
  intros H Hlt Hn.
  assert (Hr : r' = r \/ r' = allocate (i_name i) r \/ exists k, r' = set_id (i_name i) k (skip (i_name i) r)).
  { unfold number_inst in Hn.
    repeat (case_match; inv_done; try discriminate; auto); inv_done; eauto. }
  destruct Hr as [->|[->|(k & ->)]]; [split; [done|lia]| |split; [done|cbn [set_id skip RevValueMap]; lia]].
  destruct (allocate_sizes (i_name i) r H Hlt) as [H1 H2]. split; [done|lia].
Qed.
Lemma insts_sizes se lc f l r r' : next_id r = Z.of_nat (length (RevValueMap r)) -> next_id r + Z.of_nat (length l) < 2 ^ 32 ->
  number_insts se lc f l r = Done r' -> (length (RevValueMap r) <= length (RevValueMap r') <= length (RevValueMap r) + length l)%nat.
Proof.
  revert r. induction l as [|i l IH]; intros r H Hlt Hn; cbn [number_insts length] in *; inv_done; [lia|].
  destruct (inst_sizes _ _ _ _ _ _ H ltac:(lia) E) as [H1 H2]. specialize (IH _ H1 ltac:(lia) Hn). lia.
Qed.
Lemma number_values_sizes se lc f r : number_values se lc f = Done r ->
  Z.of_nat (length (f_args f) + length (all_insts f)) < 2 ^ 32 ->
  (length (f_args f) <= length (RevValueMap r) <= length (f_args f) + length (all_insts f))%nat.
Proof.
  intros H Hlt. unfold number_values in H.
  destruct (args_sizes (f_args f) no_regs eq_refl) as [H1 H2]; [cbn; lia|]. cbn [no_regs RevValueMap length] in H2.
  apply insts_sizes in H; [lia|done|lia].
Qed.

Section spec.
Context (a : Analysis) (r : regs) (f : Function_) (isLosslessCast : Inst -> bool) (minflvl : Z)
        (functions : list Function_).

(** ** Operands *)

(** What stands for a value: its number, or the constant and its size; a global
    and what the analyzer put in one have size 0, as has the null pointer; an
    undefined value is zero. *)
Definition operand_of (V : Value) : outcome boperand :=
  match (match V with UndefValue t => getNullValue t | _ => V end) with
  | Local x t => let* id := getValueID r (Local x t) in Done (OVal (u64 id))
  | ConstantInt w v => Done (OConst (u64 (wrap w v)) ((w + 7) / 8))
  | GlobalVariable g _ => let* id := getGlobalID a g in Done (OConst (u64 id) 0)
  | ConstantExpr op l t => let* id := getGlobalID_CE a (ConstantExpr op l t) in Done (OConst (u64 id) 0)
  | ConstantPointerNull _ => Done (OConst 0 0)
  | _ => AssertFailed "constant"
  end.

Lemma printOperand_put V cs : printOperand a r V = Done cs ->
  exists o, operand_of V = Done o /\ good o /\ cs = put o.
Proof.
  unfold printOperand, operand_of. set (W := match V with UndefValue t => getNullValue t | _ => V end).
  intros H. destruct W as [x t|w v|g t|x t|op l t|t|t|t|l t|l t|z t|t|t]; try done.
  - inv_done. rewrite E. eexists. split; [done|]. split; [apply u64_in|done].
  - destruct (64 <? w); [done|]. inv_done. apply printFixedNumber_Done in E as [-> E].
    eexists. split; [done|]. split; [|done]. split; [apply u64_in|]. exact E.
  - inv_done. rewrite E. apply printFixedNumber_Done in E0 as [-> _].
    eexists. split; [done|]. split; [|done]. split; [apply u64_in|lia].
  - destruct op; try done; inv_done; rewrite E; apply printFixedNumber_Done in E0 as [-> _];
      (eexists; split; [done|]; split; [|done]; split; [apply u64_in|lia]).
  - inv_done. apply printFixedNumber_Done in E as [-> _]. eexists. split; [done|]. split; [|done].
    split; [in_range|lia].
Qed.

Lemma printOperands_put l cs : printOperands a r l = Done cs ->
  exists os, Forall2 (fun V o => operand_of V = Done o) l os /\ Forall good os /\ cs = flat_map put os.
Proof. apply (concat_text_put (fun t => t)); [done|done|]. intros V t _. apply printOperand_put. Qed.

Definition type_number (t : ty) (n : Z) : Prop := exists id, getTypeID a t = Done id /\ id < 32768 /\ n = u64 id.
Lemma printType_put t cs : printType a t = Done cs -> exists n, type_number t n /\ cs = put_num n.
Proof.
  unfold printType. intros H. inv_done. exists (u64 a1). split; [|done]. exists a1.
  split; [done|]. split; [by apply Z.ltb_lt|done].
Qed.

(** ** Instructions *)

(** An instruction as the bytecode has it: the opcode; the type of the pointer
    indexed, or of what is compared or returned; the function called; the
    operands; the blocks. *)
Record sym := Sym {
  s_op : string; s_type : list ty; s_callee : list (outcome Z); s_ops : list Value; s_targets : list string
}.
Definition plain_sym (o : string) (l : list Value) : sym := Sym o [] [] l [].
Definition typed (o : string) (t : ty) (l : list Value) : sym := Sym o [t] [] l [].

Definition binop_name (op : binop) : string :=
  match op with
  | IR.Add => "OP_BC_ADD" | Sub => "OP_BC_SUB" | Mul => "OP_BC_MUL" | UDiv => "OP_BC_UDIV" | SDiv => "OP_BC_SDIV"
  | URem => "OP_BC_UREM" | SRem => "OP_BC_SREM" | Shl => "OP_BC_SHL" | LShr => "OP_BC_LSHR" | AShr => "OP_BC_ASHR"
  | And => "OP_BC_AND" | Or => "OP_BC_OR" | Xor => "OP_BC_XOR" | FloatBinary => ""
  end.

(** Memory that is a value of its own (an allocation, an argument, a global) is
    read and written by a copy, other memory through its address. *)
Definition own_memory (p : Value) : bool := isAlloca f p || isGlobal p.
Definition call_sym (I : Inst) (F : Function_) (args : list Value) : option sym :=
  match f_intrinsic F, isDeclaration F with
  | Some memset, _ => Some (plain_sym "OP_BC_MEMSET" (firstn 3 args))
  | Some memcpy, _ => Some (plain_sym "OP_BC_MEMCPY" (firstn 3 args))
  | Some memmove, _ => Some (plain_sym "OP_BC_MEMMOVE" (firstn 3 args))
  | Some bswap, _ => match i_type I with
                     | TyInt 16 => Some (plain_sym "OP_BC_BSWAP16" args)
                     | TyInt 32 => Some (plain_sym "OP_BC_BSWAP32" args)
                     | TyInt 64 => Some (plain_sym "OP_BC_BSWAP64" args)
                     | _ => None
                     end
  | Some OtherIntrinsic, _ => None
  | None, true =>
      if String.eqb (f_name F) "memcmp" then Some (plain_sym "OP_BC_MEMCMP" (firstn 3 args))
      else Some (Sym "OP_BC_CALL_API" [] [getExternalID a (f_name F)] args [])
  | None, false => Some (Sym "OP_BC_CALL_DIRECT" [] [getFunctionID a (f_name F)] args [])
  end.
Definition sym_of (I : Inst) : option sym :=
  match i_kind I with
  | Binary op x y =>
      match op, ptrtoint_of f x, ptrtoint_of f y, decide (i_type I = TyInt 32) with
      | Sub, Some p, Some q, left _ => Some (plain_sym "OP_BC_PTRDIFF32" [p; q])
      | FloatBinary, _, _, _ => None
      | _, _, _, _ => Some (plain_sym (binop_name op) [x; y])
      end
  | Cast BitCast v => Some (typed "OP_BC_GEPZ" (type_of v) [v; ConstantInt 32 0])
  | Cast Trunc v => Some (plain_sym "OP_BC_TRUNC" [v])
  | Cast SExt v => Some (plain_sym "OP_BC_SEXT" [v])
  | Cast ZExt v => Some (plain_sym "OP_BC_ZEXT" [v])
  | Cast PtrToInt v => Some (plain_sym "OP_BC_PTRTOINT64" [v])
  | ICmp p x y => Some (typed (icmp_opcode p) (type_of x) [x; y])
  | Select c t e => Some (plain_sym "OP_BC_SELECT" [c; t; e])
  | Load p => Some (if own_memory p then plain_sym "OP_BC_COPY" [p; Local (i_name I) (i_type I)] else plain_sym "OP_BC_LOAD" [p])
  | Store v p =>
      if isGEP f p || isBitCast f p then Some (plain_sym "OP_BC_STORE" [v; p])
      else let q := stripPointerCasts p in
           Some (plain_sym (if own_memory q || negb (isGEP f q) && isArgument f q then "OP_BC_COPY" else "OP_BC_STORE") [v; q])
  | GetElementPtr _ p [i] => Some (typed "OP_BC_GEP1" (type_of p) [p; i])
  | GetElementPtr _ p [_; j] => Some (typed "OP_BC_GEPZ" (type_of p) [p; j])
  | Call callee _ args =>
      F ← getCalledFunction functions callee;
      if isDeclaration F && String.eqb (f_name F) "__is_bigendian" then Some (plain_sym "OP_BC_ISBIGENDIAN" [])
      else if isDeclaration F && String.eqb (f_name F) "abort" then Some (plain_sym "OP_BC_ABORT" [])
      else call_sym I F args
  | _ => None
  end.
Definition sym_of_term (t : Term) : option sym :=
  match t with
  | Jmp l => Some (Sym "OP_BC_JMP" [] [] [] [l])
  | Br c t e => Some (Sym "OP_BC_BRANCH" [] [] [c] [t; e])
  | Ret v => Some (typed "OP_BC_RET" (type_of v) [v])
  | RetVoid => Some (plain_sym "OP_BC_RET_VOID" [])
  | Unreachable => Some (plain_sym "OP_BC_ABORT" [])
  | Switch _ => None
  end.

(** The numbers of a symbolic instruction. *)
Definition encodes (s : sym) (b : body) : Prop :=
  b_op b = OP (s_op s) /\
  Forall2 type_number (s_type s) (b_type b) /\
  Forall2 (fun c n => exists id, c = Done id /\ n = u64 id) (s_callee s) (b_callee b) /\
  Forall2 (fun V o => operand_of V = Done o) (s_ops s) (b_ops b) /\
  Forall2 (fun l n => exists k, position l (f_blocks f) = Some k /\ n = u64 k) (s_targets s) (b_targets b).

(** The shape the reader expects, for a given opcode. *)
Definition shape_ok (s : sym) : bool :=
  let nt := length (s_type s) in let nc := length (s_callee s) in
  let no := length (s_ops s) in let ng := length (s_targets s) in
  (0 <=? OP (s_op s)) && (OP (s_op s) <? 256) &&
  match format_of (OP (s_op s)) with
  | FOps n => (nt =? 0) && (nc =? 0) && (no =? n) && (ng =? 0)
  | FTyped n => (nt =? 1) && (nc =? 0) && (no =? n) && (ng =? 0)
  | FCall => (nt =? 0) && (nc =? 1) && (no <? 16) && (ng =? 0)
  | FJump => (nt =? 0) && (nc =? 0) && (no =? 0) && (ng =? 1)
  | FBranch => (nt =? 0) && (nc =? 0) && (no =? 1) && (ng =? 2)
  end%nat.

Lemma encodes_good s b : shape_ok s = true -> encodes s b -> Forall good (b_ops b) ->
  good b.
Proof.
  intros Hs (Ho & Ht & Hc & Hp & Hg) Hop. unfold shape_ok in Hs.
  apply Forall2_length in Ht as Lt. apply Forall2_length in Hc as Lc. apply Forall2_length in Hp as Lp.
  apply Forall2_length in Hg as Lg. rewrite Lt, Lc, Lp, Lg in Hs. rewrite <- Ho in Hs.
  apply andb_true_iff in Hs as [Hs Hf]. apply andb_true_iff in Hs as [H1 H2].
  split; [lia|]. split; [done|].
  split; [clear - Ht; induction Ht as [|? ? ? ? (? & _ & _ & ->)]; constructor; auto|].
  split; [clear - Hc; induction Hc as [|? ? ? ? (? & _ & ->)]; constructor; auto|].
  split; [clear - Hg; induction Hg as [|? ? ? ? (? & _ & ->)]; constructor; auto|].
  destruct (format_of (b_op b)); repeat (apply andb_true_iff in Hf as [Hf ?]);
    repeat match goal with H : (_ =? _)%nat = true |- _ => apply Nat.eqb_eq in H; rewrite H end; try done.
  split; [done|]. by apply Nat.ltb_lt.
Qed.

(** Opcode and operands; opcode, type and operands; a call. *)
Lemma put_plain o l op cs : shape_ok (plain_sym o l) = true -> opcode o = Done op -> printOperands a r l = Done cs ->
  exists b, encodes (plain_sym o l) b /\ good b /\ op ++ cs = put b.
Proof.
  intros Hs Ho Hl. apply printFixedNumber_Done in Ho as [-> _]. apply printOperands_put in Hl as (os & Hos & Hg & ->).
  exists (Body (OP o) [] [] os []). assert (He : encodes (plain_sym o l) (Body (OP o) [] [] os [])) by (repeat split; try constructor; done).
  split; [done|]. split; [by apply (encodes_good (plain_sym o l))|].
  cbn [put body_coded]. unfold put_body. cbn [b_op b_type b_callee b_ops b_targets flat_map app]. by rewrite app_nil_r.
Qed.
Lemma put_typed o t l op ct cs : shape_ok (typed o t l) = true -> opcode o = Done op -> printType a t = Done ct ->
  printOperands a r l = Done cs ->
  exists b, encodes (typed o t l) b /\ good b /\ op ++ ct ++ cs = put b.
Proof.
  intros Hs Ho Ht Hl. apply printFixedNumber_Done in Ho as [-> _]. apply printOperands_put in Hl as (os & Hos & Hg & ->).
  apply printType_put in Ht as (n & Hn & ->).
  exists (Body (OP o) [n] [] os []).
  assert (He : encodes (typed o t l) (Body (OP o) [n] [] os [])) by (repeat split; try constructor; try done; constructor).
  split; [done|]. split; [by apply (encodes_good (typed o t l))|].
  cbn [put body_coded]. unfold put_body. cbn [b_op b_type b_callee b_ops b_targets flat_map app].
  by rewrite !app_nil_r.
Qed.
Lemma put_call o c id l n op cn cs : shape_ok (Sym o [] [c] l []) = true -> opcode o = Done op -> c = Done id ->
  n = Z.of_nat (length l) -> printFixedNumber n 1 = Done cn -> printOperands a r l = Done cs ->
  exists b, encodes (Sym o [] [c] l []) b /\ good b /\ op ++ cn ++ print_number id ++ cs = put b.
Proof.
  intros Hs Ho Hc -> Hn Hl. apply printFixedNumber_Done in Ho as [-> _]. apply printOperands_put in Hl as (os & Hos & Hg & ->).
  apply printFixedNumber_Done in Hn as [-> _].
  exists (Body (OP o) [] [u64 id] os []).
  assert (He : encodes (Sym o [] [c] l []) (Body (OP o) [] [u64 id] os [])).
  { split; [done|]. split; [constructor|]. split; [by repeat constructor; exists id|]. split; [done|constructor]. }
  split; [done|]. split; [by apply (encodes_good (Sym o [] [c] l []))|].
  cbn [put body_coded]. unfold put_body. cbn [b_op b_type b_callee b_ops b_targets flat_map app].
  rewrite !app_nil_r, <- !app_assoc. apply Forall2_length in Hos. by rewrite Hos.
Qed.

Lemma HandleOpcodes_put o l cs : OP o <> 0 -> shape_ok (plain_sym o l) = true -> HandleOpcodes a r (OP o) l false = Done cs ->
  exists b, encodes (plain_sym o l) b /\ good b /\ cs = put b.
Proof.
  intros Ho Hs H. unfold HandleOpcodes in H. inv_done. destruct (Z.eqb_spec (OP o) 0); [done|]. inv_done.
  apply (put_plain o l); [done|exact E0|]. unfold printOperands. rewrite <- E1. f_equal.
  apply map_ext. intros V. cbn [obind]. by destruct (printOperand a r V).
Qed.

Ltac shape := vm_compute; reflexivity.
Ltac fits t := match goal with |- exists s b, ?o = Some s /\ _ => exists t end.

(** A call passes as many arguments as the function has parameters. *)
Definition call_ok (I : Inst) : Prop :=
  match i_kind I with
  | Call callee _ args => forall F, getCalledFunction functions callee = Some F -> length args = length (f_args F)
  | _ => True
  end.

Definition written (I : Inst) (cs : list Z) : Prop :=
  exists s b, sym_of I = Some s /\ encodes s b /\ good b /\ cs = put b.

Lemma written_intro I s cs : sym_of I = Some s -> (exists b, encodes s b /\ good b /\ cs = put b) -> written I cs.
Proof. intros H (b & H1 & H2 & H3). exists s, b. auto. Qed.

Lemma visitGEP_put I inb p l cs : i_kind I = GetElementPtr inb p l -> visitGetElementPtrInst a r p l = Done cs -> written I cs.
Proof.
  intros Hk H. unfold visitGetElementPtrInst in H. inv_done. destruct (15 <? length l)%nat; [done|].
  destruct l as [|i [|j [|k l]]]; try done.
  - inv_done. eapply written_intro; [unfold sym_of; by rewrite Hk|]. by apply put_typed.
  - destruct (isZero i); [|done]. inv_done. eapply written_intro; [unfold sym_of; by rewrite Hk|]. by apply put_typed.
Qed.
Lemma visitLoad_put I p cs : i_kind I = Load p -> visitLoadInst a r f I p = Done cs -> written I cs.
Proof.
  intros Hk H. unfold visitLoadInst in H.
  eapply written_intro; [unfold sym_of; by rewrite Hk|]. unfold own_memory.
  destruct (isAlloca f p || isGlobal p); inv_done; by apply put_plain.
Qed.
Lemma visitStore_put I v p cs : i_kind I = Store v p -> visitStoreInst a r f v p = Done cs -> written I cs.
Proof.
  intros Hk H. unfold visitStoreInst in H.
  destruct (isGEP f p || isBitCast f p) eqn:Eg.
  { eapply written_intro; [unfold sym_of; rewrite Hk, Eg; reflexivity|]. unfold put_store in H. inv_done. by apply put_plain. }
  eapply written_intro; [unfold sym_of; rewrite Hk, Eg; reflexivity|]. cbv zeta. unfold own_memory.
  unfold put_store, put_copy in H. destruct (isAlloca f (stripPointerCasts p) || isGlobal (stripPointerCasts p)); cbn [orb].
  { inv_done. by apply put_plain. }
  destruct (isGEP f (stripPointerCasts p)); cbn [negb andb]; [inv_done; by apply put_plain|].
  destruct (isArgument f (stripPointerCasts p)); inv_done; by apply put_plain.
Qed.
Lemma visitBinary_put I op x y cs : i_kind I = Binary op x y -> visitBinaryOperator a r f I op x y = Done cs -> written I cs.
Proof.
  intros Hk H. unfold visitBinaryOperator in H. inv_done.
  assert (Hh : op <> FloatBinary -> HandleOpcodes a r (opcodecvt_binop op) [x; y] false = Done cs ->
     exists b, encodes (plain_sym (binop_name op) [x; y]) b /\ good b /\ cs = put b).
  { intros Hne H'. destruct op; try done; (eapply HandleOpcodes_put; [|shape|exact H']; done). }
  destruct (ptrtoint_of f x) as [p|] eqn:Ex; destruct (ptrtoint_of f y) as [q|] eqn:Ey;
    destruct (decide (i_type I = TyInt 32)) as [Et|Et] eqn:Ed; destruct op eqn:Eo;
    try (eapply written_intro; [unfold sym_of; rewrite Hk, ?Ex, ?Ey, ?Ed; reflexivity|by apply Hh]);
    try (unfold HandleOpcodes in H; inv_done; done).
  inv_done. eapply written_intro; [unfold sym_of; rewrite Hk, Ex, Ey, Ed; reflexivity|]. by apply put_plain.
Qed.
Lemma visitCast_put I op v cs : i_kind I = Cast op v -> visitCastInst a r isLosslessCast I op v = Done cs -> written I cs.
Proof.
  intros Hk H. unfold visitCastInst in H.
  destruct (match op with BitCast => isLosslessCast I | _ => false end) eqn:Eb.
  - destruct op; try done. inv_done. eapply written_intro; [unfold sym_of; by rewrite Hk|].
    replace (a0 ++ a1 ++ a2 ++ print_constant 0 ++ a3) with (a0 ++ a1 ++ (a2 ++ (print_constant 0 ++ a3))) by (by rewrite <- ?app_assoc).
    apply put_typed; [shape|done|done|]. unfold printOperands. cbn [map concat_text]. rewrite E1. cbn [obind].
    unfold printOperand at 1. change (64 <? 32) with false. cbn iota. change ((32 + 7) / 8) with 4. rewrite E2. cbn [obind].
    by rewrite app_nil_r.
  - inv_done. destruct (match op with PtrToInt => bool_decide (i_type I = TyInt 64) | _ => false end) eqn:Ep.
    + destruct op; try done. inv_done. eapply written_intro; [unfold sym_of; by rewrite Hk|].
      apply put_plain; [shape|done|]. unfold printOperands. cbn [map concat_text]. rewrite E0. cbn [obind]. by rewrite app_nil_r.
    + destruct op; try (unfold HandleOpcodes in H; inv_done; done);
        (eapply written_intro; [unfold sym_of; by rewrite Hk|eapply HandleOpcodes_put; [|shape|exact H]; done]).
Qed.

Lemma visitICmp_put I p x y cs : i_kind I = ICmp p x y -> visitICmpInst a r minflvl p x y = Done cs -> written I cs.
Proof.
  intros Hk H. unfold visitICmpInst in H. destruct (match p with ICMP_SLE => _ | _ => _ end); [done|]. inv_done.
  eapply written_intro; [unfold sym_of; by rewrite Hk|]. apply put_typed; try done. by destruct p; shape.
Qed.
Lemma visitIntrinsic_put I F iid args cs : f_intrinsic F = Some iid -> visitIntrinsic a r iid I args = Done cs ->
  exists s, call_sym I F args = Some s /\ exists b, encodes s b /\ good b /\ cs = put b.
Proof.
  intros Hi H. unfold visitIntrinsic in H. unfold call_sym. rewrite Hi.
  destruct iid; try done; inv_done;
    match goal with H : (_ =? _) = true |- _ => apply Z.eqb_eq in H end.
  1-3: destruct args as [|x [|y [|z [|t [|? ?]]]]]; cbn [length] in *; try lia;
    (eexists; split; [reflexivity|]; apply put_plain; [shape|done|done]).
  destruct args as [|x [|? ?]]; cbn [length] in *; try lia.
  destruct (i_type I) as [|w| | | | | |]; try done.
  repeat (match type of H with context [match ?z with _ => _ end] => destruct z end; try done);
    inv_done; (eexists; split; [reflexivity|]; apply put_plain; [shape|done|done]).
Qed.
Lemma shape_call o c l : In o ["OP_BC_CALL_API"; "OP_BC_CALL_DIRECT"] -> Z.of_nat (length l) < 16 -> shape_ok (Sym o [] [c] l []) = true.
Proof.
  intros Ho Hl. assert (Hn : (length l <? 16)%nat = true) by (apply Nat.ltb_lt; lia).
  unfold shape_ok. cbn [s_op s_type s_callee s_ops s_targets length]. rewrite Hn.
  destruct Ho as [<-|[<-|[]]]; reflexivity.
Qed.
Lemma visitCall_put I callee cc args cs : i_kind I = Call callee cc args -> call_ok I ->
  visitCallInst a r functions I callee cc args = Done cs -> written I cs.
Proof.
  intros Hk Hc H. unfold visitCallInst in H. unfold call_ok in Hc. rewrite Hk in Hc.
  assert (Hs : forall F, getCalledFunction functions callee = Some F ->
    sym_of I = (if isDeclaration F && String.eqb (f_name F) "__is_bigendian" then Some (plain_sym "OP_BC_ISBIGENDIAN" [])
      else if isDeclaration F && String.eqb (f_name F) "abort" then Some (plain_sym "OP_BC_ABORT" []) else call_sym I F args))
    by (intros F HF; unfold sym_of; by rewrite Hk, HF).
  destruct (getCalledFunction functions callee) as [F|] eqn:EF; [|done]. specialize (Hs F eq_refl). specialize (Hc F eq_refl).
  destruct (negb (f_cc F =? cc)); [done|]. destruct (f_vararg F); [done|].
  assert (Hempty : forall o, opcode o = Done cs -> shape_ok (plain_sym o []) = true ->
    exists b, encodes (plain_sym o []) b /\ good b /\ cs = put b).
  { intros o Ho Ho'. destruct (put_plain o [] cs []) as (b & H1 & H2 & H3); [done|done|done|].
    exists b. rewrite app_nil_r in H3. auto. }
  destruct (isDeclaration F && String.eqb (f_name F) "__is_bigendian").
  { eapply written_intro; [exact Hs|]. by apply Hempty. }
  destruct (isDeclaration F && String.eqb (f_name F) "abort").
  { eapply written_intro; [exact Hs|]. by apply Hempty. }
  destruct (f_intrinsic F) as [iid|] eqn:Ei.
  { destruct (visitIntrinsic_put I F iid args cs Ei H) as (s & Es & Hb). eapply written_intro; [|exact Hb]. congruence. }
  unfold call_sym in Hs. rewrite Ei in Hs. destruct (isDeclaration F).
  - destruct (String.eqb (f_name F) "memcmp").
    + rewrite Hk in H. cbn [operands] in H. destruct callee as [| | |fx t| | | | | | | | |]; try done.
      destruct args as [|x [|y [|z args]]]; try done; cbn [app] in H; inv_done.
      * unfold printOperands in E0. cbn [map concat_text] in E0. inv_done. done.
      * eapply written_intro; [exact Hs|]. by apply put_plain.
    + inv_done. eapply written_intro; [exact Hs|].
      destruct (printFixedNumber_Done _ _ _ E1) as [_ Hn].
      eapply put_call; try done; [|by rewrite Hc]. apply shape_call; [by left|]. rewrite Hc. by destruct Hn.
  - inv_done. destruct (255 <? _); [done|]. inv_done. eapply written_intro; [exact Hs|].
    destruct (printFixedNumber_Done _ _ _ E0) as [_ Hn].
    eapply put_call; try done; [|by rewrite Hc]. apply shape_call; [by right; left|]. rewrite Hc. by destruct Hn.
Qed.

Lemma visit_put I cs : call_ok I -> visit a r f isLosslessCast minflvl functions I = Done cs -> written I cs.
Proof.
  intros Hc H. unfold visit in H. destruct (i_kind I) eqn:Hk; try done.
  - by eapply visitLoad_put.
  - by eapply visitStore_put.
  - by eapply visitGEP_put.
  - by eapply visitBinary_put.
  - by eapply visitCast_put.
  - by eapply visitICmp_put.
  - eapply written_intro; [unfold sym_of; by rewrite Hk|]. eapply HandleOpcodes_put; [|shape|exact H]. done.
  - by eapply visitCall_put.
Qed.

(** *** Terminators *)

Lemma printBasicBlockID_put l cs : printBasicBlockID f l = Done cs ->
  exists n k, position l (f_blocks f) = Some k /\ n = u64 k /\ cs = put_num n.
Proof.
  intros H. unfold printBasicBlockID in H. inv_done.
  destruct (position l (f_blocks f)) as [k|]; [|done]. exists (u64 k), k. done.
Qed.
Lemma visit_terminator_put t cs : visit_terminator a r f t = Done cs ->
  exists s b, sym_of_term t = Some s /\ encodes s b /\ good b /\ cs = put b.
Proof.
  intros H. destruct t as [c l1 l2|l|v| |v|]; cbn [visit_terminator] in H; try done.
  - inv_done. apply printFixedNumber_Done in E as [-> _]. apply printOperand_put in E0 as (o & Ho & Hg & ->).
    apply printBasicBlockID_put in E1 as (n1 & k1 & Hk1 & Hn1 & ->). apply printBasicBlockID_put in E2 as (n2 & k2 & Hk2 & Hn2 & ->).
    set (s := Sym "OP_BC_BRANCH" [] [] [c] [l1; l2]). exists s, (Body (OP "OP_BC_BRANCH") [] [] [o] [n1; n2]). split; [done|].
    assert (He : encodes s (Body (OP "OP_BC_BRANCH") [] [] [o] [n1; n2])).
    { split; [done|]. split; [constructor|]. split; [constructor|]. split; [by repeat constructor|].
      constructor; [by exists k1|]. constructor; [by exists k2|constructor]. }
    split; [done|]. split; [by apply (encodes_good s); [shape| |repeat constructor]|].
    cbn [put body_coded]. unfold put_body. cbn [b_op b_type b_callee b_ops b_targets flat_map app]. by rewrite !app_nil_r.
  - inv_done. apply printFixedNumber_Done in E as [-> _]. apply printBasicBlockID_put in E0 as (n & k & Hk & Hn & ->).
    set (s := Sym "OP_BC_JMP" [] [] [] [l]). exists s, (Body (OP "OP_BC_JMP") [] [] [] [n]). split; [done|].
    assert (He : encodes s (Body (OP "OP_BC_JMP") [] [] [] [n])).
    { split; [done|]. split; [constructor|]. split; [constructor|]. split; [constructor|]. constructor; [by exists k|constructor]. }
    split; [done|]. split; [by apply (encodes_good s); [shape| |repeat constructor]|].
    cbn [put body_coded]. unfold put_body. cbn [b_op b_type b_callee b_ops b_targets flat_map app]. by rewrite !app_nil_r.
  - unfold HandleOpcodes in H. inv_done. change (OP "OP_BC_RET" =? 0) with false in H. cbv iota in H. inv_done.
    cbn [map concat_text] in E1. inv_done. exists (typed "OP_BC_RET" (type_of v) [v]).
    destruct (put_typed "OP_BC_RET" (type_of v) [v] a1 a4 a5) as (b & H1 & H2 & H3); [shape|done|done| |].
    + unfold printOperands. cbn [map concat_text]. rewrite E4. cbn [obind]. by rewrite app_nil_r.
    + exists b. split; [done|]. split; [done|]. split; [done|]. by rewrite app_nil_r, H3.
  - exists (plain_sym "OP_BC_RET_VOID" []). destruct (put_plain "OP_BC_RET_VOID" [] cs []) as (b & H1 & H2 & H3); [shape|done|done|].
    rewrite app_nil_r in H3. eauto.
  - exists (plain_sym "OP_BC_ABORT" []). destruct (put_plain "OP_BC_ABORT" [] cs []) as (b & H1 & H2 & H3); [shape|done|done|].
    rewrite app_nil_r in H3. eauto.
Qed.

(** ** Blocks and functions *)

(** The record of an instruction: the type of its result, for a store of what
    it stores; the number of its result, if it has one. *)
Definition represents_inst (I : Inst) (i : binst) : Prop :=
  type_number (match i_kind I with Store v _ => type_of v | _ => i_type I end) (bi_type i) /\
  (if bool_decide (i_type I = TyVoid) then bi_dest i = 0
   else exists id, getValueID r (Local (i_name I) (i_type I)) = Done id /\ bi_dest i = u64 id) /\
  exists s, sym_of I = Some s /\ encodes s (bi_body i).

Lemma printInst_put I cs : call_ok I -> printInst a r f isLosslessCast minflvl functions I = Done cs ->
  if counts r I then exists i, represents_inst I i /\ good i /\ cs = put i else cs = [].
Proof.
  intros Hc H. unfold printInst in H. unfold counts. destruct (isAllocaOrDbg I); cbn [negb andb]; [by injection H as <-|].
  destruct (isInlineAsm I); [done|]. destruct (skipped r I); cbn [negb]; [by injection H as <-|].
  inv_done. apply printType_put in E as (n & Hn & ->). apply (visit_put I) in E1 as (s & b & Hs & He & Hg & ->); [|done].
  assert (Hd : exists d, (if bool_decide (i_type I = TyVoid) then d = 0
      else exists id, getValueID r (Local (i_name I) (i_type I)) = Done id /\ d = u64 id) /\ in_u 64 d /\ a1 = put_num d).
  { destruct (bool_decide (i_type I = TyVoid)).
    - injection E0 as <-. exists 0. split; [done|]. split; [in_range|done].
    - inv_done. exists (u64 a0). split; [by exists a0|]. split; [apply u64_in|done]. }
  destruct Hd as (d & Hd & Hd' & ->). exists (BInst n d b). split; [split; [done|split; [done|eauto]]|].
  split; [|done]. destruct Hn as (id & _ & _ & ->). split; [apply u64_in|done].
Qed.

Definition represents_block (B : Block) (b : bblock) : Prop :=
  Forall2 represents_inst (List.filter (counts r) (bb_insts B)) (bl_insts b) /\
  exists s, sym_of_term (bb_term B) = Some s /\ encodes s (bl_term b).

Lemma printInsts_put l cs : Forall call_ok l ->
  concat_text (map (printInst a r f isLosslessCast minflvl functions) l) = Done cs ->
  exists is_, Forall2 represents_inst (List.filter (counts r) l) is_ /\ Forall good is_ /\ cs = flat_map put is_.
Proof.
  intros Hl. revert cs. induction Hl as [|I l HI Hl IH]; intros cs H; cbn [map concat_text] in H.
  - injection H as <-. exists []. split; [constructor|]. split; [constructor|done].
  - inv_done. apply printInst_put in E; [|done]. destruct (IH _ E0) as (is_ & H1 & H2 & ->). cbn [List.filter].
    destruct (counts r I); [|subst; by exists is_]. destruct E as (i & Hi & Hg & ->). exists (i :: is_).
    split; [by constructor|]. split; [by constructor|done].
Qed.
Lemma printBasicBlock_put B t : Forall call_ok (bb_insts B) ->
  printBasicBlock a r f isLosslessCast minflvl functions B = Done t ->
  exists b, represents_block B b /\ good b /\ flatten t = put b.
Proof.
  intros Hc H. unfold printBasicBlock in H. inv_done. apply printInsts_put in E as (is_ & H1 & H2 & ->); [|done].
  apply visit_terminator_put in E0 as (s & b & Hs & He & Hg & ->). exists (BBlock is_ b).
  split; [split; [done|eauto]|]. split; [split; done|].
  cbn [flatten flat_map app]. by rewrite app_nil_r.
Qed.

(** A value: an argument, an allocation with the type of its object, another
    instruction. *)
Definition represents_value (x : string) (v : bvalue) : Prop :=
  match List.find (fun d => String.eqb x (fst d)) (f_args f) with
  | Some (_, t) => type_number t (bv_type v) /\ bv_alloca v = false
  | None =>
      exists I, List.find (fun I => String.eqb (i_name I) x) (all_insts f) = Some I /\
      match i_kind I with
      | Alloca t _ => isArrayAllocation (i_kind I) = false /\ type_number t (bv_type v) /\ bv_alloca v = true
      | _ => type_number (i_type I) (bv_type v) /\ bv_alloca v = false
      end
  end.
Lemma put_value t (b : bool) ct cb : printType a t = Done ct -> printFixedNumber (if b then 1 else 0) 1 = Done cb ->
  exists v, type_number t (bv_type v) /\ bv_alloca v = b /\ good v /\ ct ++ cb = put v.
Proof.
  intros Ht Hb. apply printType_put in Ht as (n & Hn & ->). apply printFixedNumber_Done in Hb as [-> _].
  exists (BValue n b). split; [done|]. split; [done|]. split; [|done]. destruct Hn as (id & _ & _ & ->). apply u64_in.
Qed.
Lemma printValue_put x cs : printValue a f x = Done cs -> exists v, represents_value x v /\ good v /\ cs = put v.
Proof.
  unfold printValue, represents_value. intros H. destruct (List.find _ (f_args f)) as [[y t]|].
  - inv_done. destruct (put_value t false _ _ E E0) as (v & H1 & H2 & H3 & H4). eauto.
  - destruct (List.find _ (all_insts f)) as [I|]; [|done].
    assert (Hp : forall t b ct cb, printType a t = Done ct -> printFixedNumber (if b : bool then 1 else 0) 1 = Done cb -> cs = ct ++ cb ->
       exists v, (type_number t (bv_type v) /\ bv_alloca v = b) /\ good v /\ cs = put v).
    { intros t b ct cb Ht Hb ->. destruct (put_value t b _ _ Ht Hb) as (v & H1 & H2 & H3 & H4). eauto. }
    destruct (i_kind I) eqn:Ek;
      try (inv_done; destruct (Hp _ false _ _ E E0 eq_refl) as (bv & H1 & H2 & H3); exists bv; split; [|done]; exists I;
           split; [done|]; by rewrite Ek).
    destruct (isArrayAllocation (Alloca t size)) eqn:Ea; [by destruct t|]. inv_done.
    destruct (Hp t true _ _ E E0 eq_refl) as (v & H1 & H2 & H3). exists v. split; [|done]. exists I. split; [done|]. by rewrite Ek.
Qed.

Definition represents_function (bf : bfunction) : Prop :=
  bf_args bf = Z.of_nat (length (f_args f)) /\ type_number (f_ret f) (bf_ret bf) /\
  Forall2 represents_value (RevValueMap r) (bf_values bf) /\
  Forall2 represents_block (f_blocks f) (bf_blocks bf) /\
  bf_insts bf = Z.of_nat (sum_list_with (fun b => S (length (bl_insts b))) (bf_blocks bf)).

Lemma represents_count Bs bs : Forall2 represents_block Bs bs ->
  sum_list_with (fun b => S (length (bl_insts b))) bs
  = (length (List.filter (counts r) (flat_map bb_insts Bs)) + length Bs)%nat.
Proof.
  induction 1 as [|B b Bs bs [H _] _ IH]; [done|]. cbn [sum_list_with flat_map length].
  rewrite List.filter_app, length_app. apply Forall2_length in H. cbn [sum_list] in *. lia.
Qed.

Lemma printFunction_put se lc t : Forall call_ok (all_insts f) -> number_values se lc f = Done r ->
  printFunction a r f isLosslessCast minflvl functions = Done t ->
  exists bf, represents_function bf /\ good bf /\ flatten t = put bf.
Proof.
  intros Hc Hr H. unfold printFunction in H. destruct (f_sret f); [done|]. inv_done.
  apply printFixedNumber_Done in E as [-> Ha]. apply printType_put in E0 as (ret & Hret & ->).
  destruct (32768 <=? Z.of_nat (length (all_insts f) + length (f_blocks f))) eqn:Ei; [done|]. apply Z.leb_gt in Ei. inv_done.
  assert (Hm : a0 = RevValueMap r) by (unfold buildReverseMap in E; case_match; [done|]; by injection E).
  subst a0. destruct (number_values_sizes se lc f r Hr ltac:(simpl in Ha; lia)) as [L1 L2].
  unfold printCount in *. destruct (65536 <=? u32 _) eqn:En; [done|]. inv_done.
  destruct (65536 <=? Z.of_nat (length (f_blocks f))) eqn:Eb; [done|]. inv_done.
  rename E1 into Ev, E3 into Eo.
  apply (concat_text_put (fun t => t) represents_value) in Ev as (vs & V1 & V2 & ->);
    [|done|done|intros x cs _; apply printValue_put].
  apply (concat_text_put flatten represents_block) in Eo as (bs & B1 & B2 & B3);
    [|done|exact flatten_app|].
  2: { intros B cs HB. apply printBasicBlock_put. unfold all_insts in Hc. apply List.Forall_forall. intros I HI.
       rewrite List.Forall_forall in Hc. apply Hc. apply in_flat_map. exists B. split; [by apply list_elem_of_In|done]. }
  apply Forall2_length in V1 as Lv. apply Forall2_length in B1 as Lb. apply Z.leb_gt in En, Eb.
  pose proof (List.filter_length_le (counts r) (all_insts f)) as Lf. change (16 ^ Z.of_nat 1) with 16 in Ha.
  assert (Sizes : forall z, 0 <= z < 2 ^ 32 -> u64 z = z /\ in_u 64 z)
    by (intros z Hz; split; [apply wrap_small|]; unfold in_u; lia).
  assert (Hw : u32 (Z.of_nat (length (RevValueMap r)) - Z.of_nat (length (f_args f)))
    = Z.of_nat (length vs) - Z.of_nat (length (f_args f))) by (rewrite <- Lv; apply wrap_small; unfold in_u; lia).
  exists (BFunction (Z.of_nat (length (f_args f))) ret vs (Z.of_nat (length (List.filter (counts r) (all_insts f)) + length (f_blocks f))) bs).
  split; [|split].
  - split; [done|]. split; [done|]. split; [done|]. split; [done|]. cbn [bf_insts bf_blocks].
    by rewrite (represents_count _ _ B1).
  - split; [cbn [bf_args]; lia|]. split; [destruct Hret as (? & _ & _ & ->); apply u64_in|]. split; [done|].
    cbn [bf_values bf_args bf_insts bf_blocks].
    split; [apply Sizes; lia|]. split; [apply Sizes; lia|]. split; [apply Sizes; lia|done].
  - etransitivity; [apply flatten_header|]. rewrite flatten_app, B3, Hw. cbn [put bfunction_coded]. unfold put_bfunction, print_number, put_num.
    cbn [bf_args bf_ret bf_values bf_insts bf_blocks]. rewrite <- Lb.
    rewrite !(fun z H => proj1 (Sizes z H)) by lia.
    change (flatten [Chars [code "E"]]) with [code "E"]. unfold printNumber, fixed. cbn [fixed_digits fst app].
    by repeat (rewrite <- ?app_assoc; cbn [app]).
Qed.
End spec.
