(* ===== verification/FileSpec.v ===== *)
(** * FileSpec: a bytecode file is the module

    The tables of a bytecode file - types, API calls, globals - and its header
    are those of the module, and with the functions (WriterSpec.v) the whole file
    can be read back. *)
From S2P Require Import Prelude Enums Encode IR RegAlloc Analyzer Bytecode Writer WriterSpec.
From stdpp Require Import pretty.
Local Open Scope string_scope.
Local Open Scope list_scope.
Local Open Scope Z_scope.
Local Open Scope outcome_scope.

Lemma codes_bytes s : Forall (in_u 8) (codes s).
Proof. unfold codes. induction (String.list_ascii_of_string s); cbn [map]; constructor; [apply code_range|done]. Qed.

(** ** Constants *)

Lemma constant_induction (P : Value -> Prop) :
  (forall C, match C with ConstantAggregate l _ | ConstantDataSequential l _ => Forall P l | _ => True end -> P C) ->
  forall C, P C.
Proof.
  intros H. fix IH 1. intros C. apply H. destruct C; try exact I.
  all: induction l as [|C l IHl]; constructor; [apply IH|exact IHl].
Qed.

Section tables.
Context (a : Analysis) (m : Module_) (wide : ty -> bool).

(** The numbers of a constant: zero for a null value, an integer's value, for
    what is derived from a global the offset and the global, and the numbers of
    the elements of an array or a struct. *)
Inductive constant_numbers : Value -> list Z -> Prop :=
| CN_null C : constant_address C = None -> isNullValue C = true -> constant_numbers C [0]
| CN_int w v : constant_numbers (ConstantInt w v) [u64 (wrap w v)]
| CN_address C offset g id : constant_address C = Some (Done (offset, g)) -> getGlobalID a g = Done id ->
    constant_numbers C [u64 offset; u64 id]
| CN_elements C l ns : (exists t, C = ConstantAggregate l t \/ C = ConstantDataSequential l t) -> l <> [] ->
    Forall2 constant_numbers l ns -> constant_numbers C (List.concat ns).

Lemma constant_address_ce C r : constant_address C = Some r -> exists op l t, C = ConstantExpr op l t.
Proof. destruct C; try done. eauto. Qed.

Lemma printConstants_put l ts :
  Forall (fun C => forall t, printConstant a C = Done t -> exists ns, constant_numbers C ns /\ Forall (in_u 64) ns /\ t = flat_map put_const ns) l ->
  concat_text (map (printConstant a) l) = Done ts ->
  exists nss, Forall2 constant_numbers l nss /\ Forall (in_u 64) (List.concat nss) /\ ts = flat_map put_const (List.concat nss).
Proof.
  intros H. revert ts. induction H as [|C l HC Hl IH]; intros ts Hts; cbn [map concat_text] in Hts; inv_done.
  - exists []. split; [constructor|]. split; [constructor|done].
  - destruct (HC _ E) as (ns & H1 & H2 & ->). destruct (IH _ E0) as (nss & K1 & K2 & ->).
    exists (ns :: nss). split; [by constructor|]. cbn [List.concat]. split; [by apply Forall_app|].
    by rewrite flat_map_app.
Qed.
Lemma printConstant_put C : forall t, printConstant a C = Done t ->
  exists ns, constant_numbers C ns /\ Forall (in_u 64) ns /\ t = flat_map put_const ns.
Proof.
  induction C as [C IH] using constant_induction. intros t H.
  assert (Hnull : forall C, constant_address C = None -> isNullValue C = true -> Done (print_constant 0) = Done t ->
    exists ns, constant_numbers C ns /\ Forall (in_u 64) ns /\ t = flat_map put_const ns).
  { intros D H1 H2 [= <-]. exists [0]. split; [by apply CN_null|]. split; [repeat constructor; in_range|done]. }
  assert (Hlist : forall C l ts, (exists t, C = ConstantAggregate l t \/ C = ConstantDataSequential l t) ->
    negb (length l =? 0)%nat = true -> concat_text (map (printConstant a) l) = Done ts ->
    Forall (fun C => forall t, printConstant a C = Done t -> exists ns, constant_numbers C ns /\ Forall (in_u 64) ns /\ t = flat_map put_const ns) l ->
    exists ns, constant_numbers C ns /\ Forall (in_u 64) ns /\ ts = flat_map put_const ns).
  { intros D l ts Hl Hne Hts HF. destruct (printConstants_put l ts HF Hts) as (nss & K1 & K2 & K3).
    exists (List.concat nss). split; [|done]. eapply CN_elements; [done| |done]. by destruct l. }
  destruct C as [x t'|w v|g t'|x t'|op l t'|t'|t'|t'|l t'|l t'|z t'|t'|t'];
    cbn [printConstant isNullValue] in H; try done; try by apply Hnull.
  - destruct (wrap w v =? 0) eqn:Ez; [by apply Hnull|]. injection H as <-. eexists. split; [apply CN_int|].
    split; [repeat constructor; apply u64_in|]. cbn [flat_map]. by rewrite app_nil_r.
  - unfold printConstantExpr in H. destruct (constant_address _) as [[[off g]| | |]|] eqn:Ea; cbn in H; try done.
    inv_done. eexists. split; [by eapply CN_address|]. split; [repeat constructor; apply u64_in|].
    cbn [flat_map]. by rewrite app_nil_r.
  - inv_done. by eapply Hlist; eauto.
  - inv_done. by eapply Hlist; eauto.
  - destruct z; [by apply Hnull|done].
Qed.

(** ** Types *)

(** A list of things in memory. *)
Definition fits {A} (l : list A) : Prop := Z.of_nat (length l) < 2 ^ 32.
Lemma fits_u64 {A} (l : list A) d : fits l -> 0 <= d < 2 ^ 32 ->
  u64 (Z.of_nat (length l) + d) = Z.of_nat (length l) + d /\ in_u 64 (Z.of_nat (length l) + d).
Proof. unfold fits. intros H Hd. split; [apply wrap_small|]; unfold in_u; lia. Qed.

Definition has_id (t : ty) (n : Z) : Prop := exists id, getTypeID a t = Done id /\ n = u64 id.
Lemma type_ids_good ts ns : Forall2 has_id ts ns -> Forall (in_u 64) ns.
Proof. induction 1 as [|t n ts ns (id & _ & ->) _ IH]; constructor; [apply u64_in|done]. Qed.

(** How a type is described: the numbers of what it is made of. A pointer to a
    type that is not known is one to type 8. *)
Definition represents_type (t : ty) (b : btype) : Prop :=
  match t, b with
  | TyFun ret ps va, BFun n ns => va = false /\ has_id ret n /\ Forall2 has_id ps ns
  | TyStruct packed fields, BStruct p ns => p = packed /\ Forall2 has_id fields ns
  | TyNamed s, BStruct p ns =>
      match m_structs m !! s with
      | Some (packed, fields) => p = packed /\ Forall2 has_id fields ns
      | None => p = false /\ ns = []
      end
  | TyArr k t, BArr n i => n = u64 k /\ has_id t i
  | TyPtr t, BPtr i => if isOpaque (m_structs m) t then i = 8 else has_id t i
  | _, _ => False
  end.
Definition type_fits (t : ty) : Prop :=
  match t with
  | TyFun _ ps _ => fits ps
  | TyStruct _ fields => fits fields
  | TyNamed s => match m_structs m !! s with Some (_, fields) => fits fields | None => True end
  | _ => True
  end.

#[export] Instance type_fits_dec t : Decision (type_fits t).
Proof.
  unfold type_fits, fits. destruct t; try apply _. destruct (m_structs m !! s) as [[? ?]|]; apply _.
Defined.

Lemma mapM_ids g ts ns : (forall t n, g t = Done n -> getTypeID a t = Done n) -> mapM_out g ts = Done ns ->
  Forall2 has_id ts (map u64 ns) /\ length ns = length ts /\ flat_map print_number ns = flat_map put_num (map u64 ns).
Proof.
  intros Hg. revert ns. induction ts as [|t ts IH]; intros ns H; cbn [mapM_out] in H; inv_done.
  - split; [constructor|done].
  - destruct (IH _ E0) as (H1 & H2 & H3). cbn [map length flat_map]. split; [|split; [lia|by rewrite H3]].
    constructor; [|done]. exists a0. split; [by apply Hg|done].
Qed.
Lemma describe_element_id t n : describe_element a wide t = Done n -> getTypeID a t = Done n.
Proof. unfold describe_element. destruct t; try done. by destruct (wide _). Qed.

Lemma describe_struct_put packed fields cs : fits fields -> describe_struct a wide packed fields = Done cs ->
  exists ns, Forall2 has_id fields ns /\ good (BStruct packed ns) /\ cs = put (BStruct packed ns).
Proof.
  intros Hf H. unfold describe_struct in H. inv_done. apply printFixedNumber_Done in E0 as [-> _].
  destruct (mapM_ids _ _ _ describe_element_id E) as (H1 & H2 & H3). exists (map u64 a0).
  destruct (fits_u64 fields 0 Hf ltac:(lia)) as [F1 F2]. rewrite Z.add_0_r in F1, F2.
  split; [done|]. split.
  - split; [rewrite length_map, H2; exact F2|by eapply type_ids_good].
  - cbn [put btype_coded put_btype]. rewrite H3. unfold print_number. rewrite length_map, H2, F1. by destruct packed.
Qed.

Lemma describeType_put t cs : type_fits t -> describeType a m wide t = Done cs ->
  exists b, represents_type t b /\ good b /\ cs = put b.
Proof.
  intros Hf H. destruct t as [| | |u|k u|packed fields|s|ret ps va]; cbn [describeType type_fits] in *; try done.
  - inv_done. apply printFixedNumber_Done in E as [-> _]. exists (BPtr (u64 a1)). cbn [represents_type].
    split; [|split; [apply u64_in|done]].
    destruct (isOpaque (m_structs m) u); [by injection E0 as <-|by exists a1].
  - inv_done. apply printFixedNumber_Done in E as [-> _]. exists (BArr (u64 k) (u64 a1)).
    split; [split; [done|by exists a1]|]. split; [split; apply u64_in|done].
  - destruct (describe_struct_put packed fields cs Hf H) as (ns & H1 & H2 & H3). exists (BStruct packed ns). done.
  - destruct (m_structs m !! s) as [[packed fields]|] eqn:Es.
    + destruct (describe_struct_put packed fields cs Hf H) as (ns & H1 & H2 & H3). exists (BStruct packed ns).
      cbn [represents_type]. by rewrite Es.
    + destruct (describe_struct_put false [] cs ltac:(done) H) as (ns & H1 & H2 & H3). exists (BStruct false ns).
      cbn [represents_type]. rewrite Es. apply Forall2_nil_inv_l in H1. done.
  - inv_done. apply printFixedNumber_Done in E as [-> _]. destruct va; [done|].
    destruct (mapM_ids _ _ _ (fun t n H => H) E2) as (H1 & H2 & H3).
    destruct (fits_u64 ps 1 Hf ltac:(lia)) as [F1 F2].
    exists (BFun (u64 a2) (map u64 a3)). split; [split; [done|split; [by exists a2|done]]|].
    split; [split; [rewrite length_map, H2; done|split; [apply u64_in|by eapply type_ids_good]]|].
    cbn [put btype_coded put_btype]. rewrite H3. unfold print_number. by rewrite length_map, H2, F1.
Qed.

(** ** API calls and globals *)

Definition represents_api (x : string) (b : bapi) : Prop :=
  exists id F, getExternalID a x = Done id /\ ba_id b = u64 id /\
    List.find (fun F => String.eqb (f_name F) x) (a_functions a) = Some F /\ has_id (f_type F) (ba_type b) /\
    ba_name b = codes x ++ [0].
Lemma print_api_put x cs : (String.length x < 1024)%nat -> print_api a x = Done cs ->
  exists b, represents_api x b /\ good b /\ cs = put b.
Proof.
  intros Hx H. unfold print_api in H. inv_done. rename E into Eid. destruct (List.find _ _) as [F|] eqn:EF; [|done].
  inv_done. match type of Eid with _ = Done ?i => match type of E with _ = Done ?n =>
    exists (BApi (u64 i) (u64 n) (codes x ++ [0])); split; [exists i, F; repeat (split; [done|]); by split; [exists n|]|split; [|done]]
  end end.
  split; [apply u64_in|]. split; [apply u64_in|]. split; [apply Forall_app; split; [apply codes_bytes|in_range]|].
  cbn [ba_name]. rewrite length_app, length_codes. cbn [length]. unfold in_u. lia.
Qed.

(** The first global is the null pointer; the type has sixteen bits. *)
Definition represents_global (e : nat * option Value) (b : bglobal) : Prop :=
  match e with
  | (O, C) => C = None /\ bg_type b = 0 /\ bg_value b = [0]
  | (S _, Some C) => (exists id, getTypeID a (type_of C) = Done id /\ bg_type b = u16 id) /\ constant_numbers C (bg_value b)
  | (S _, None) => False
  end.
Lemma print_global_put e cs : print_global a e = Done cs -> exists b, represents_global e b /\ good b /\ cs = put b.
Proof.
  destruct e as [[|k] [C|]]; cbn [print_global]; intros H; try done.
  - exists (BGlobal 0 [0]). inv_done. split; [done|]. split; [|done]. split; [in_range|repeat constructor; in_range].
  - inv_done. rename E into Eid. apply printConstant_put in E0 as (ns & H1 & H2 & ->).
    match type of Eid with _ = Done ?i => rename i into n end. exists (BGlobal (u16 n) ns).
    assert (Hu : in_u 64 (u16 n)).
    { pose proof (wrap_range 16 n ltac:(lia)) as Hw. unfold in_u in *. change (u16 n) with (wrap 16 n). lia. }
    split; [split; [by exists n|done]|]. split; [done|].
    unfold put, bglobal_coded, put_bglobal. cbn [bg_type bg_value].
    assert (E : u64 (u16 n) = u16 n) by (by apply wrap_small). by rewrite E.
Qed.

(** ** The tables *)

Definition signature_text : string := if String.eqb (logicalSignature a) "" then virusnames a else logicalSignature a.
Record represents_tables (b : bmodule) : Prop := {
  rep_signature : bm_signature b = codes signature_text;
  rep_start : bm_start b = startTID;
  rep_types : Forall2 represents_type (extraTypes (a_types a)) (bm_types b);
  rep_max_api : bm_max_api b = u64 (maxApi (a_apis a));
  rep_apis : Forall2 represents_api (apis (a_apis a)) (bm_apis b);
  rep_max_global : bm_max_global b = u64 (maxGlobal (a_globals a));
  rep_globals : Forall2 represents_global (imap pair (globalInits (a_globals a))) (bm_globals b)
}.
(** The text is a line, names and lists are of a reasonable size. *)
Record tables_fit : Prop := {
  fit_signature : Forall (fun c => c <> 10) (codes signature_text);
  fit_types : fits (extraTypes (a_types a)) /\ Forall type_fits (extraTypes (a_types a));
  fit_apis : fits (apis (a_apis a)) /\ Forall (fun x => (String.length x < 1024)%nat) (apis (a_apis a));
  fit_globals : fits (globalInits (a_globals a))
}.

Lemma print_type_put e cs : type_fits (snd e) -> print_type a m wide e = Done cs ->
  exists b, represents_type (snd e) b /\ good b /\ cs = put b.
Proof. intros Hf H. unfold print_type in H. inv_done. by apply describeType_put. Qed.
Lemma Forall2_imap {A B} (P : A -> B -> Prop) (l : list A) l' :
  Forall2 (fun e => P (snd e)) (imap pair l) l' -> Forall2 P l l'.
Proof.
  assert (E : snd <$> imap pair l = l) by (rewrite fmap_imap; change (imap (const id) l = l); by rewrite imap_const, list_fmap_id).
  intros H. rewrite <- E. by apply Forall2_fmap_l.
Qed.

Lemma printGlobals_put t : tables_fit -> printGlobals a m wide = Done t ->
  exists b, represents_tables b /\ good_bmodule b /\ bm_functions b = [] /\ flatten t = put_tables b.
Proof.
  intros [F1 [F2 F2'] [F3 F3'] F4] H. unfold printGlobals in H. fold signature_text in H. inv_done.
  apply printFixedNumber_Done in E as [-> _].
  apply (concat_text_put (fun t => t) (fun e => represents_type (snd e))) in E0 as (ts & T1 & T2 & ->); [|done|done|].
  2: { intros e cs He. apply print_type_put. rewrite Forall_forall in F2'. apply F2'.
       apply elem_of_lookup_imap in He as (k & t & -> & Hk). by eapply list_elem_of_lookup_2. }
  apply (concat_text_put (fun t => t) represents_api) in E2 as (as_ & A1 & A2 & ->); [|done|done|].
  2: { intros x cs Hx. apply print_api_put. rewrite Forall_forall in F3'. by apply F3'. }
  apply (concat_text_put (fun t => t) represents_global) in E3 as (gs & G1 & G2 & ->); [|done|done|intros e cs _; apply print_global_put].
  apply Forall2_imap in T1. apply Nat.eqb_eq in Heqb.
  exists (BModule (codes signature_text) startTID ts (u64 (maxApi (a_apis a))) as_ (u64 (maxGlobal (a_globals a))) gs []).
  apply Forall2_length in A1 as LA. apply Forall2_length in G1 as LG. rewrite length_imap in LG.
  destruct (fits_u64 _ 0 F3 ltac:(lia)) as [S1 S2]. destruct (fits_u64 _ 0 F4 ltac:(lia)) as [S3 S4].
  rewrite Z.add_0_r in *.
  split; [by split|]. split; [|split; [done|]].
  - unfold good_bmodule.
    cbn [bm_signature bm_start bm_types bm_max_api bm_apis bm_max_global bm_globals bm_functions].
    rewrite <- LA, <- LG. split; [done|]. split; [done|]. split; [done|]. split; [apply u64_in|]. split; [done|].
    split; [done|]. split; [apply u64_in|]. split; [done|]. split; [done|constructor].
  - unfold put_tables. cbn [bm_signature bm_start bm_types bm_max_api bm_apis bm_max_global bm_globals bm_functions].
    rewrite <- LA, <- LG. cbn [flatten flat_map app]. rewrite app_nil_r. unfold print_number, put_num.
    rewrite <- Heqb, S1, S3. by repeat (rewrite <- ?app_assoc; cbn [app]).
Qed.
End tables.

(** ** The header *)

(** Decimal digits are on one line. *)
Lemma decimal_text_line n : 0 <= n -> Forall (fun c => c <> 10) (decimal_text n).
Proof.
  intros Hn. unfold decimal_text.
  assert (G : forall x s, Forall (fun c => c <> 10) (codes s) -> Forall (fun c => c <> 10) (codes (pretty_N_go x s))).
  { intros x. induction x as [x IH] using (well_founded_induction N.lt_wf_0). intros s Hs. destruct (decide (0 < x)%N) as [Hx|Hx].
    - rewrite pretty_N_go_step by done. apply IH; [by apply N.div_lt|]. constructor; [|done].
      assert (Hd : (x mod 10 < 10)%N) by (by apply N.mod_lt). revert Hd. generalize (x mod 10)%N. intros d Hd.
      destruct d as [|p]; [done|]. do 4 (destruct p as [p|p|]; try done).
    - replace x with 0%N by lia. done. }
  assert (E : pretty n = pretty (Z.to_N n)) by (by destruct n).
  rewrite E. unfold pretty, pretty_N. case_decide; [|by apply G]. repeat constructor; done.
Qed.

Lemma get_data_string str n : Z.of_nat n < 2 ^ 32 -> match str with Some s => Forall (in_u 8) s | None => True end ->
  good_data (match str with Some s => firstn n (cstr s) | None => [] end ++ [0]) /\
  printString str n = printConstData (match str with Some s => firstn n (cstr s) | None => [] end ++ [0]).
Proof.
  intros Hn Hs. set (t := match str with Some s => firstn n (cstr s) | None => [] end).
  assert (cstr t = t /\ Forall (in_u 8) t /\ (length t <= n)%nat) as (Ht & Hb & Hl).
  { destruct str as [s|]; subst t; [|split; [done|split; [done|simpl; lia]]].
    split; [apply cstr_firstn|]. split; [apply Forall_take; auto with clambc|]. rewrite length_take. lia. }
  split; [split; [apply Forall_app; split; [done|in_range]|rewrite length_app; cbn [length]; unfold in_u; lia]|].
  unfold printString. fold t. by rewrite Ht.
Qed.

Section file.
Context (a : Analysis) (m : Module_) (wide : ty -> bool) (now : Z) (user : option string) (version : string).

(** What the header says. *)
Definition string_text (s : option string) : list Z :=
  match codes <$> s with Some s => firstn 64 (cstr s) | None => [] end ++ [0].
Definition functionality (z : option Z) : Z := u32 (default 0 z).
Record represents_header (types functions : Z) (h : bheader) : Prop := {
  rep_level : bh_level h = if checkFunctionalityLevel FUNC_LEVEL_096 (functionality (m_funcmin m)) (functionality (m_funcmax m))
                           then BC_FORMAT_096 else BC_FORMAT_LEVEL;
  rep_time : bh_time h = u64 now;
  rep_author : bh_author h = string_text user;
  rep_kind : bh_kind h = u64 (kind a);
  rep_minfunc : bh_minfunc h = functionality (m_funcmin m);
  rep_maxfunc : bh_maxfunc h = functionality (m_funcmax m);
  rep_compiler : bh_compiler h = string_text (Some version);
  rep_ntypes : bh_types h = types + startTID - 64;
  rep_nfunctions : bh_functions h = functions
}.
Lemma functionality_u64 z : in_u 64 (functionality z) /\ u64 (functionality z) = functionality z.
Proof.
  pose proof (wrap_range 32 (default 0 z) ltac:(lia)) as H. unfold functionality. change (u32 ?x) with (wrap 32 x).
  split; [|apply wrap_small]; unfold in_u in *; lia.
Qed.

Lemma printModuleHeader_put maxLine t : 0 <= maxLine -> fits (extraTypes (a_types a)) -> fits (defined (a_functions a)) ->
  printModuleHeader a m now user version maxLine = Done t ->
  exists h, represents_header (Z.of_nat (length (extraTypes (a_types a)))) (Z.of_nat (length (defined (a_functions a)))) h /\
    good h /\ t = put h /\ bh_maxline h = decimal_text (Z.max 4096 maxLine).
Proof.
  intros Hl Ht Hf H. unfold printModuleHeader in H. change (printFixedNumber 42 2) with (Done (fixed 42 2)) in H.
  cbn [obind] in H. cbv zeta in H. fold (functionality (m_funcmin m)) (functionality (m_funcmax m)) in H.
  match type of H with obind (assert_ ?b _) _ = _ => destruct b; [|done] end. cbn [assert_ obind] in H. apply Done_inj in H as <-.
  destruct (get_data_string (codes <$> user) 64 ltac:(lia)) as [U1 U2]; [destruct user; [apply codes_bytes|done]|].
  destruct (get_data_string (Some (codes version)) 64 ltac:(lia) (codes_bytes _)) as [V1 V2].
  destruct (functionality_u64 (m_funcmin m)) as [F1 F1']. destruct (functionality_u64 (m_funcmax m)) as [F2 F2'].
  destruct (fits_u64 _ 0 Hf ltac:(lia)) as [S1 S2]. destruct (fits_u64 _ 5 Ht ltac:(lia)) as [S3 S4].
  rewrite Z.add_0_r in *.
  set (level := if checkFunctionalityLevel _ _ _ then BC_FORMAT_096 else BC_FORMAT_LEVEL).
  assert (Hlevel : in_u 64 level /\ u64 level = level) by (unfold level; destruct (checkFunctionalityLevel _ _ _); split; done).
  assert (Emax : (if maxLine <? 4096 then 4096 else maxLine) = Z.max 4096 maxLine) by (destruct (Z.ltb_spec maxLine 4096); lia).
  exists (BHeader level (u64 now) (string_text user) 0 (u64 (kind a)) (functionality (m_funcmin m)) (functionality (m_funcmax m))
    0 (string_text (Some version)) (Z.of_nat (length (extraTypes (a_types a))) + startTID - 64)
    (Z.of_nat (length (defined (a_functions a)))) 0x53e5493e9f3d1c30 42 (decimal_text (Z.max 4096 maxLine))).
  assert (Et : Z.of_nat (length (extraTypes (a_types a))) + startTID - 64 = Z.of_nat (length (extraTypes (a_types a))) + 5)
    by (unfold startTID; lia).
  split; [by constructor|]. split; [|split; [|done]].
  - split; [|split; [done|split; [done|split; [cbn; lia|apply decimal_text_line; lia]]]].
    cbn [bh_level bh_time bh_exclude bh_kind bh_minfunc bh_maxfunc bh_resource bh_types bh_functions bh_magic].
    rewrite Et. repeat (apply Forall_cons; split); try done; try apply u64_in; try apply Hlevel; in_range.
  - unfold put, bheader_coded, put_bheader.
    cbn [bh_level bh_time bh_author bh_exclude bh_kind bh_minfunc bh_maxfunc bh_resource bh_compiler bh_types
      bh_functions bh_magic bh_fixed bh_maxline].
    fold level. unfold print_number, put_num. rewrite U2, V2, Emax, F1', F2', (proj2 Hlevel), S1, Et, S3. done.
Qed.

(** ** The functions *)

Context (fresh : Function_ -> string -> string) (fresh_gep : Function_ -> string -> string -> string)
        (mayHaveSideEffects isLosslessCast : Inst -> bool) (minflvl : Z).

(** What the writer works on: the function without the getelementptrs libclamav
    cannot do and without phi nodes, and the numbers of its values. *)
Definition prepared (F F' : Function_) (r : regs) : Prop :=
  exists G, fixGEPs a (fresh_gep F) F = Done G /\ F' = handle_all fresh G /\
    number_values mayHaveSideEffects isLosslessCast F' = Done r.
Definition represents_definition (F : Function_) (bf : bfunction) : Prop :=
  exists F' r, prepared F F' r /\ represents_function a r F' (a_functions a) bf.
(** The functions in order, numbered from [fid + 1]. *)
Fixpoint represents_functions (fid : Z) (l : list Function_) (bs : list bfunction) : Prop :=
  match l, bs with
  | [], [] => True
  | F :: l, b :: bs =>
      getFunctionID a (f_name F) = Done (fid + 1) /\ represents_definition F b /\ represents_functions (fid + 1) l bs
  | _, _ => False
  end.
Definition calls_ok (F : Function_) : Prop := Forall (call_ok (a_functions a)) (all_insts F).

(** Neither step adds a call. *)
Lemma fixGEPs_calls fr F G : calls_ok F -> fixGEPs a fr F = Done G -> calls_ok G.
Proof.
  intros HF H. unfold fixGEPs in H. inv_done. unfold calls_ok, all_insts in *. cbn [with_blocks f_blocks].
  revert HF. generalize (f_blocks F) as bs, E. clear. intros bs. revert a0.
  induction bs as [|b bs IH]; intros bs' H HF; cbn [fix_blocks] in H; inv_done; [done|].
  cbn [flat_map bb_insts] in *. apply Forall_app in HF as [H1 H2]. apply Forall_app. split; [|by apply IH].
  clear - H1 E. apply concat_text_Done in E as (ts & Ht & ->). revert ts Ht.
  induction H1 as [|i l Hi Hl IHl]; intros ts Ht; inversion Ht as [|? t ? ts' Hit Hts]; subst; [constructor|].
  cbn [List.concat]. apply Forall_app. split; [|by apply IHl].
  unfold fix_inst, fix_gep in Hit.
  repeat (case_match; inv_done; try discriminate); inv_done; repeat constructor; done.
Qed.
Lemma handlePHI_calls slot l p F : calls_ok F -> calls_ok (handlePHI slot l p F).
Proof.
  unfold calls_ok, all_insts, handlePHI. cbn [with_blocks f_blocks]. intros H.
  assert (Hm : Forall (call_ok (a_functions a)) (flat_map bb_insts
      (map (fun b => map_block (replace_phi slot p) l (store_phi slot p b)) (f_blocks F)))).
  { induction (f_blocks F) as [|b bs IH]; [constructor|]. cbn [map flat_map] in *. apply Forall_app in H as [H1 H2].
    apply Forall_app. split; [|by apply IH].
    assert (Hs : Forall (call_ok (a_functions a)) (bb_insts (store_phi slot p b))).
    { cbn [store_phi bb_insts]. apply Forall_app. split; [done|]. unfold phi_stores.
      induction (phi_incoming p) as [|[v x] inc IHi]; [constructor|]. cbn [flat_map]. apply Forall_app.
      split; [|done]. case_match; repeat constructor. }
    unfold map_block. case_match; [|done]. cbn [replace_phi bb_insts]. by constructor. }
  destruct (map _ (f_blocks F)) as [|b bs]; [constructor|]. cbn [add_alloca flat_map bb_insts app] in *.
  by constructor.
Qed.
Lemma handle_all_calls F : calls_ok F -> calls_ok (handle_all fresh F).
Proof.
  unfold handle_all. generalize (pns F). intros l. revert F. induction l as [|lp l IH]; intros F HF; [done|].
  cbn [fold_left]. by apply IH, handlePHI_calls.
Qed.

Lemma write_function_put F fid t fid' : f_available_externally F = false -> calls_ok F -> 0 <= fid -> fid + 1 < 2 ^ 32 ->
  write_function a fresh fresh_gep mayHaveSideEffects isLosslessCast minflvl F fid = Done (t, fid') ->
  fid' = fid + 1 /\ exists b, getFunctionID a (f_name F) = Done (fid + 1) /\ represents_definition F b /\ good b /\ flatten t = put b.
Proof.
  intros Hext Hc H0 Hlt H. unfold write_function in H. apply obind_Done in H as (G & EG & H).
  assert (HG : f_name G = f_name F /\ f_available_externally G = f_available_externally F).
  { unfold fixGEPs in EG. inv_done. done. }
  destruct HG as [HG1 HG2]. rewrite HG1, HG2, Hext in H. destruct (String.eqb (f_name F) ""); [done|].
  assert (Hu : u32 (fid + 1) = fid + 1) by (apply wrap_small; unfold in_u; lia).
  rewrite Hu in H. apply obind_Done in H as (id & Eid & H). apply obind_Done in H as ([] & Ea & H).
  destruct (Z.eqb_spec id (fid + 1)) as [->|]; [|done]. apply obind_Done in H as (r & Er & H).
  apply obind_Done in H as (text & Et & H). injection H as <- <-. split; [done|].
  apply printFunction_put with (se := mayHaveSideEffects) (lc := isLosslessCast) in Et as (b & Hb & Hg & Hf); [|
    by apply handle_all_calls; eapply fixGEPs_calls|done].
  exists b. split; [done|]. split; [exists (handle_all fresh G), r; split; [by exists G|done]|done].
Qed.
Lemma write_functions_put l : forall fid t,
  Forall (fun F => f_available_externally F = false /\ calls_ok F) (defined l) -> 0 <= fid ->
  fid + Z.of_nat (length (defined l)) < 2 ^ 32 ->
  write_functions a fresh fresh_gep mayHaveSideEffects isLosslessCast minflvl l fid = Done t ->
  exists bs, represents_functions fid (defined l) bs /\ Forall good bs /\ flatten t = flat_map put bs.
Proof.
  induction l as [|F l IH]; intros fid t Hl H0 Hlt H; cbn [write_functions] in H.
  - injection H as <-. exists []. split; [done|]. split; [constructor|done].
  - unfold defined in *. cbn [List.filter] in *. destruct (isDeclaration F); cbn [negb] in *; [by apply IH|].
    apply Forall_cons in Hl as [[Hx Hc] Hl]. cbn [length] in Hlt. apply obind_Done in H as ([text fid'] & Ew & H).
    apply obind_Done in H as (rest & Er & H). injection H as <-.
    apply write_function_put in Ew as (-> & b & Hid & Hb & Hg & Ht); [|done|done|lia|lia].
    destruct (IH (fid + 1) rest Hl ltac:(lia) ltac:(lia) Er) as (bs & K1 & K2 & K3).
    exists (b :: bs). split; [done|]. split; [by constructor|]. cbn [flat_map]. by rewrite flatten_app, Ht, K3.
Qed.

(** ** The file *)

(** A file represents a module: the header agrees with the tables and the
    functions are those defined, in the analyzer's order. *)
Record represents_file (h : bheader) (b : bmodule) : Prop := {
  rep_header : represents_header (Z.of_nat (length (extraTypes (a_types a)))) (Z.of_nat (length (defined (a_functions a)))) h;
  rep_tables : represents_tables a m b;
  rep_functions : represents_functions 0 (defined (a_functions a)) (bm_functions b)
}.

Lemma represents_functions_length l : forall fid bs, represents_functions fid l bs -> length bs = length l.
Proof.
  induction l as [|F l IH]; intros fid [|b bs] H; cbn [represents_functions] in H; try done.
  destruct H as (_ & _ & H). cbn [length]. by rewrite (IH _ _ H).
Qed.
Lemma run_lines_text ops : forall o o', run_lines ops o = Done o' -> lineBuffer o' = lineBuffer o ++ flatten ops.
Proof.
  induction ops as [|op ops IH]; intros o o' H; cbn [run_lines] in H; inv_done.
  - by rewrite app_nil_r.
  - rewrite (IH _ _ H). clear H IH. destruct op as [cs|]; cbn [line_step] in E.
    + injection E as <-. cbn [emit lineBuffer flatten flat_map]. by rewrite <- app_assoc.
    + unfold printEOL in E. inv_done. cbn [lineBuffer emit flatten flat_map app]. by rewrite <- app_assoc.
Qed.

End file.

(** ** Example *)

Definition lossless (i : Inst) : bool := match i_kind i with Cast BitCast _ => true | _ => false end.
Definition demo_written : outcome (list Z) :=
  run_writer demo_analysis (with_functions demo_program (a_functions demo_analysis)) (fun _ => false) 1700000000
    (Some "me") "1.4" long_name (fun _ x y => (x ++ "." ++ y)%string) effects lossless 0 (codes "int x;").
Definition demo_text : list Z := match demo_written with Done t => t | _ => [] end.

Lemma demo_written_ok :
  run_writer demo_analysis (with_functions demo_program (a_functions demo_analysis)) (fun _ => false) 1700000000
    (Some "me") "1.4" long_name (fun _ x y => (x ++ "." ++ y)%string) effects lossless 0 (codes "int x;") = Done demo_text.
Proof. vm_compute. reflexivity. Qed.
Lemma demo_tables_fit : tables_fit demo_analysis (with_functions demo_program (a_functions demo_analysis)).
Proof.
  split; [|split; [|]|split; [|]|]; try (apply (bool_decide_unpack _); vm_compute; exact I); vm_compute; reflexivity.
Qed.
Lemma demo_calls_ok :
  Forall (fun F => f_available_externally F = false /\ calls_ok demo_analysis F) (defined (a_functions demo_analysis)).
Proof.
  replace (defined (a_functions demo_analysis)) with [demo_entry; demo_add] by (vm_compute; reflexivity).
  repeat (apply Forall_cons; split; [split; [reflexivity|]|]); [..|constructor].
  all: unfold calls_ok; cbn [all_insts flat_map f_blocks bb_insts demo_entry demo_add app].
  all: repeat (apply Forall_cons; split; [first [exact I|intros G HG; vm_compute in HG; injection HG as <-; reflexivity]|]);
    constructor.
Qed.
