(* ===== verification/Pointers.v ===== *)
(** * Pointers: the addresses the writer's getelementptrs compute

    What ClamBCWriter::fixGEPs (Writer.v) does to an address, in the semantics of
    Addresses.v. *)
From S2P Require Import Prelude IR Semantics Integers Addresses Analyzer Writer.
Local Open Scope string_scope.
Local Open Scope list_scope.
Local Open Scope Z_scope.
Local Open Scope outcome_scope.

Section pointers.
Context (bodies : structs) (StructLayout : ty -> option (list Z * Z)) (pointer_size float_size : Z) (address_of : Value -> Z).
Abbreviation run := (run_insts bodies StructLayout pointer_size float_size address_of).
Abbreviation M := (address_meaning bodies StructLayout pointer_size float_size address_of).
Abbreviation eval := (Semantics.eval (M := M)).

Lemma eval_insert_ne e x n V : is_local x V = false -> eval (<[x := n]> e) V = eval e V.
Proof.
  destruct V; try done. cbn [is_local eval]. intros H. rewrite lookup_insert_ne; [done|].
  intros ->. by rewrite String.eqb_refl in H.
Qed.

(** C13: The four instructions [fixGEPs] puts in place of a getelementptr with one
    index compute the same address under the same name and leave the other values
    alone, when the names of the new instructions are new, the integers pointed to
    occupy as many bytes as their width divided by eight - which those of 24 bits
    and those of 12 bits do not ([fix_gep_odd_width]) - and the scaled index is
    representable in the index's type ([fix_gep_overflow]). *)
Theorem fix_gep_same_address fresh i inb p w idx wi l e :
  i_kind i = GetElementPtr inb p [idx] -> type_of p = TyPtr (TyInt w) -> type_of idx = TyInt wi -> 1 <= wi ->
  int_size w = w / 8 ->
  (forall s, is_local (fresh (i_name i) s) p = false /\ is_local (fresh (i_name i) s) idx = false /\ fresh (i_name i) s <> i_name i) ->
  fresh (i_name i) "cast" <> fresh (i_name i) "mul" ->
  in_s wi (w / 8 * swrap wi (eval e idx)) ->
  fix_gep fresh i = Done l ->
  exists e0 e1, run [i] e = Some e0 /\ run l e = Some e1 /\
    forall y, y <> fresh (i_name i) "cast" -> y <> fresh (i_name i) "mul" -> y <> fresh (i_name i) "gep" -> e1 !! y = e0 !! y.
Proof.
  destruct i as [x t k]. cbn [i_name i_type i_kind]. intros -> Hp Hi Hwi H8 Hf Hcm Hs H.
  unfold fix_gep in H. cbn [i_name i_type i_kind] in H. rewrite Hp, Hi in H. inv_done.
  destruct t as [| | |t'| | | |]; try done.
  destruct (Hf "cast") as (C1 & C2 & C3). destruct (Hf "mul") as (M1 & M2 & M3). destruct (Hf "gep") as (G1 & G2 & G3).
  set (c := fresh x "cast") in *. set (u := fresh x "mul") in *. set (g := fresh x "gep") in *.
  unfold i8ptr. do 2 eexists. split; [|split].
  - eapply (run_getelementptr _ _ _ _ _ x (TyPtr t') t' e [] true p [idx] (TyInt w)); [done|done|].
    apply (gep_offset_one _ _ _ _ _ _ _ _ wi (w / 8)); [done|]. cbn [alloc_size]. by rewrite H8.
  - erewrite run_bitcast by done. rewrite (run_mul _ _ _ _ _ u wi) by done.
    erewrite run_getelementptr; [|done|done|by apply gep_offset_one]. erewrite run_bitcast by done. reflexivity.
  - intros y Hy1 Hy2 Hy3. destruct (decide (y = x)) as [->|Hy]; [|by rewrite !lookup_insert_ne by done].
    rewrite !lookup_insert_eq. f_equal. rewrite !(eval_insert_ne e c) by done. cbn [eval constant_meaning address_meaning integer_meaning constant_value].
    rewrite !lookup_insert_eq, lookup_insert_ne, lookup_insert_eq by done. cbn [default from_option id].
    assert (Es : swrap wi (wrap wi (wrap wi (w / 8) * eval e idx)) = w / 8 * swrap wi (eval e idx)).
    { rewrite <- (swrap_mul wi (w / 8) (eval e idx)) by done. rewrite !swrap_wrap. rewrite <- swrap_wrap, <- (swrap_wrap _ (_ * wrap _ _)). f_equal.
      unfold wrap. by rewrite <- Zmult_mod, Zmult_mod_idemp_l. }
    rewrite Es. change (int_size 8) with 1. by rewrite Z.mul_1_r, Z.mul_comm.
Qed.
End pointers.

(** a[3] = p + 12 for an array of 32-bit integers at address 100. *)
Definition demo_gep : Inst :=
  inst "q" (TyPtr (TyInt 32)) (GetElementPtr true (Local "p" (TyPtr (TyInt 32))) [Local "i" (TyInt 32)]).
Definition demo_env : gmap string Z := <["p" := 100]> (<["i" := 3]> ∅).
Definition demo_gep_insts : list Inst :=
  match fix_gep (fun x y => (x ++ "." ++ y)%string) demo_gep with Done l => l | _ => [] end.
Lemma fix_gep_same_address_witness :
  length demo_gep_insts = 4%nat /\
  exists e0 e1, run_insts ∅ (fun _ => None) 8 8 (fun _ => 0) [demo_gep] demo_env = Some e0 /\ run_insts ∅ (fun _ => None) 8 8 (fun _ => 0) demo_gep_insts demo_env = Some e1 /\
    e0 !! "q" = Some 112 /\ e1 !! "q" = e0 !! "q".
Proof.
  split; [reflexivity|].
  destruct (fix_gep_same_address ∅ (fun _ => None) 8 8 (fun _ => 0) (fun x y => (x ++ "." ++ y)%string) demo_gep true (Local "p" (TyPtr (TyInt 32))) 32
    (Local "i" (TyInt 32)) 32 demo_gep_insts demo_env) as (e0 & e1 & H0 & H1 & H2);
    [reflexivity|reflexivity|reflexivity|lia|reflexivity| |done| |reflexivity|].
  - intros s. split; [|split]; [done|done|]. by destruct s.
  - split; vm_compute; done.
  - exists e0, e1. split; [done|]. split; [done|]. split; [|apply H2; done]. vm_compute in H0. by injection H0 as <-.
Defined.

(** With the index 2^29 the product does not fit 32 bits: p + 2^31 becomes
    p - 2^31. *)
Lemma fix_gep_overflow :
  let e := <["p" := 100]> (<["i" := 2 ^ 29]> ∅) : gmap string Z in
  option_map (lookup "q") (run_insts ∅ (fun _ => None) 8 8 (fun _ => 0) [demo_gep] e) = Some (Some (100 + 2 ^ 31)) /\
  option_map (lookup "q") (run_insts ∅ (fun _ => None) 8 8 (fun _ => 0) demo_gep_insts e) = Some (Some (wrap 64 (100 - 2 ^ 31))).
Proof. split; vm_compute; reflexivity. Qed.

(** An integer of 24 bits takes four bytes, but the index is multiplied by three: the
    element a[3] is looked for at p + 9 instead of p + 12. One of 12 bits takes two
    bytes, the index is multiplied by one. *)
Definition odd_gep (w : Z) : Inst :=
  inst "q" (TyPtr (TyInt w)) (GetElementPtr true (Local "p" (TyPtr (TyInt w))) [Local "i" (TyInt 32)]).
Definition odd_addresses (w : Z) : option (option Z) * option (option Z) :=
  let result l := option_map (lookup "q") (run_insts ∅ (fun _ => None) 8 8 (fun _ => 0) l demo_env) in
  (result [odd_gep w],
   match fix_gep (fun x y => (x ++ "." ++ y)%string) (odd_gep w) with Done l => result l | _ => None end).
Lemma fix_gep_odd_width :
  odd_addresses 24 = (Some (Some 112), Some (Some 109)) /\ odd_addresses 12 = (Some (Some 106), Some (Some 103)).
Proof. split; vm_compute; reflexivity. Qed.
