(* ===== verification/Logical.v ===== *)
(** * Logical: the expressions of the logical signature compiler

    libclambcc/ClamBCLogicalCompiler.cpp compiles the trigger function of a
    bytecode to a logical signature. This file models its expressions, class
    LogicalNode, and the smart constructors that simplify them; the translation
    of the function and the text of the signature are in LogicalCompile.v.

    Nodes are hash-consed, so two pointers are equal exactly when the nodes are
    structurally equal; here a node is its structure and [set_order] and
    [map_order] stand for the iteration order of the LLVM containers, which
    hash pointers. [range_min] and [range_max] stand for LLVM's ConstantRange. *)
From S2P Require Import Prelude.
From stdpp Require Import sorting.
Local Set Warnings "-register-all".
Local Open Scope Z_scope.

(** ** Nodes *)

Inductive LogicalKind :=
| LOG_SUBSIGNATURE | LOG_AND | LOG_OR | LOG_EQ | LOG_GT | LOG_LT | LOG_ADDBOTH
| LOG_NOT | LOG_TRUE | LOG_FALSE | LOG_ADD | LOG_ADDSUM | LOG_ADDUNIQ.

#[export] Instance LogicalKind_eq_dec : EqDecision LogicalKind.
Proof. solve_decision. Defined.

(** The numbers of the enumerators. *)
Definition kind_number (k : LogicalKind) : Z :=
  match k with
  | LOG_SUBSIGNATURE => 0 | LOG_AND => 1 | LOG_OR => 2 | LOG_EQ => 3 | LOG_GT => 4
  | LOG_LT => 5 | LOG_ADDBOTH => 6 | LOG_NOT => 7 | LOG_TRUE => 8 | LOG_FALSE => 9
  | LOG_ADD => 10 | LOG_ADDSUM => 11 | LOG_ADDUNIQ => 12
  end.

(** A node; [Null] is the null pointer some constructors return. *)
Inductive LogicalNode :=
| Null
| Node (kind : LogicalKind) (op0 op1 : Z) (children : list LogicalNode).

Fixpoint LogicalNode_eq (a b : LogicalNode) {struct a} : {a = b} + {a <> b}.
Proof.
  decide equality; try apply Z.eq_dec.
  - apply (List.list_eq_dec LogicalNode_eq).
  - apply LogicalKind_eq_dec.
Defined.
#[export] Instance LogicalNode_eq_dec : EqDecision LogicalNode := LogicalNode_eq.

Definition node_kind (n : LogicalNode) : option LogicalKind :=
  match n with Null => None | Node k _ _ _ => Some k end.
Definition is_kind (k : LogicalKind) (n : LogicalNode) : bool :=
  bool_decide (node_kind n = Some k).
Definition op0 (n : LogicalNode) : Z := match n with Null => 0 | Node _ a _ _ => a end.
Definition op1 (n : LogicalNode) : Z := match n with Null => 0 | Node _ _ a _ => a end.
Definition children (n : LogicalNode) : list LogicalNode :=
  match n with Null => [] | Node _ _ _ c => c end.
(** [children[0]]; every node the code takes it of has one. *)
Definition front (n : LogicalNode) : LogicalNode := hd Null (children n).

Definition ones : Z := u32 (-1).

Definition getTrue : LogicalNode := Node LOG_TRUE ones ones [].
Definition getFalse : LogicalNode := Node LOG_FALSE ones ones [].
Definition getSubSig (subsigid : Z) : LogicalNode := Node LOG_SUBSIGNATURE (u32 subsigid) ones [].
Definition getUniqueSigs (n : LogicalNode) : LogicalNode := Node LOG_ADDUNIQ ones ones [n].
Definition getAddConst (n : LogicalNode) (off : Z) : LogicalNode := Node LOG_ADD (u32 off) ones [n].

(** ** Comparisons with a constant: equality *)

Definition getEQ (n : LogicalNode) (value : Z) : LogicalNode :=
  let '(n, value) :=
    if is_kind LOG_ADD n then (front n, u32 (value - op0 n)) else (n, value) in
  let '(n, uniq) :=
    if is_kind LOG_ADDUNIQ n then (Node LOG_ADDBOTH ones ones (children n), value)
    else if is_kind LOG_ADDSUM n then (Node LOG_ADDBOTH ones ones (children n), ones)
    else (n, ones) in
  Node LOG_EQ value uniq [n].

Section containers.
(** The iteration order of a SmallPtrSet given its elements in insertion
    order, and that of the DenseMap of [getAnd] given its entries. *)
Context (set_order : list LogicalNode -> list LogicalNode)
        (map_order : list (LogicalNode * list LogicalNode) -> list (LogicalNode * list LogicalNode)).

Definition set_insert (n : LogicalNode) (s : list LogicalNode) : list LogicalNode :=
  if bool_decide (n ∈ s) then s else s ++ [n].

(** [adds[C].push_back(S)] *)
Fixpoint map_push (c s : LogicalNode) (m : list (LogicalNode * list LogicalNode))
    : list (LogicalNode * list LogicalNode) :=
  match m with
  | [] => [(c, [s])]
  | (c', v) :: m => if bool_decide (c' = c) then (c', v ++ [s]) :: m
                    else (c', v) :: map_push c s m
  end.

(** ** Conjunction *)

(** The nodes the first loop of [getAnd] pops that are no conjunctions: the
    vector is a stack and a popped conjunction is replaced by its children. *)
Fixpoint pop_order (n : LogicalNode) : list LogicalNode :=
  match n with
  | Node LOG_AND _ _ ch => flat_map id (rev (map pop_order ch))
  | _ => [n]
  end.
Definition pops (v : list LogicalNode) : list LogicalNode := flat_map id (rev (map pop_order v)).

(** =X and =Y,Y comparisons of a sum are kept apart by the sum. *)
Definition mergeable (n : LogicalNode) : bool :=
  is_kind LOG_EQ n && is_kind LOG_ADDBOTH (front n) && ((op1 n =? ones) || (op0 n =? op1 n)).

(** The loop: the FALSE node that ends it, or the map and the set it fills. *)
Fixpoint and_scan (l : list LogicalNode) (adds : list (LogicalNode * list LogicalNode))
    (others : list LogicalNode)
    : LogicalNode + (list (LogicalNode * list LogicalNode) * list LogicalNode) :=
  match l with
  | [] => inr (adds, others)
  | n :: l =>
      if is_kind LOG_TRUE n then and_scan l adds others
      else if is_kind LOG_FALSE n then inl n
      else if mergeable n then and_scan l (map_push (front n) n adds) others
      else and_scan l adds (set_insert n others)
  end.

(** An =X is merged with the last =Y,Y of the same sum to =X,Y. *)
Fixpoint and_merge (c : LogicalNode) (addsum adduniq others : list LogicalNode)
    : list LogicalNode * list LogicalNode :=
  match addsum with
  | [] => (adduniq, others)
  | n1 :: addsum =>
      match rev adduniq with
      | n2 :: adduniq' =>
          and_merge c addsum (rev adduniq')
                    (set_insert (Node LOG_EQ (op0 n1) (op1 n2) [c]) others)
      | [] => and_merge c addsum adduniq (set_insert n1 others)
      end
  end.

Definition and_entry (others : list LogicalNode) (e : LogicalNode * list LogicalNode)
    : list LogicalNode :=
  let addsum := List.filter (fun n => op1 n =? ones) (snd e) in
  let adduniq := List.filter (fun n => negb (op1 n =? ones)) (snd e) in
  let '(adduniq, others) := and_merge (fst e) addsum adduniq others in
  fold_left (fun o n => set_insert n o) adduniq others.

Definition getAnd (v : list LogicalNode) : LogicalNode :=
  match and_scan (pops v) [] [] with
  | inl n => n
  | inr (adds, others) =>
      match fold_left and_entry (map_order adds) others with
      | [] => getTrue
      | [n] => n
      | others => Node LOG_AND ones ones (set_order others)
      end
  end.

(** [getAnd(Set, V)], [getOr(Set, V)]: TRUE for no operands, both of them. *)
Definition getAndSet (v : list LogicalNode) : LogicalNode :=
  match v with [] => getTrue | _ => getAnd v end.

(** ** Disjunction *)

Fixpoint or_scan (l nodes : list LogicalNode) : LogicalNode + list LogicalNode :=
  match l with
  | [] => inr nodes
  | n :: l =>
      if is_kind LOG_FALSE n then or_scan l nodes
      else if is_kind LOG_TRUE n then inl n
      else if is_kind LOG_OR n then
        or_scan l (fold_left (fun o n => set_insert n o) (children n) nodes)
      else or_scan l (set_insert n nodes)
  end.

Definition getOr (v : list LogicalNode) : LogicalNode :=
  match or_scan v [] with
  | inl n => n
  | inr [] => getFalse
  | inr [n] => n
  | inr nodes => Node LOG_OR ones ones (set_order nodes)
  end.
Definition getOrSet (v : list LogicalNode) : LogicalNode :=
  match v with [] => getTrue | _ => getOr v end.

(** ** Comparisons with a constant: order *)

Section ranges.
(** [range_min lt value c]: the unsigned minimum of the ConstantRange of the
    32-bit numbers [a] with [a + c < value] ([lt]) or [a + c > value];
    [range_max] its maximum. *)
Context (range_min range_max : bool -> Z -> Z -> Z).

(** getRange, given getGT and getLT of the node. *)
Definition getRange (gt lt : Z -> LogicalNode) (min max : Z) : LogicalNode :=
  let nodes := if min =? 0 then [] else [gt (min - 1)] in
  let max := u32 (max + 1) in
  let nodes := if max =? 0 then nodes else nodes ++ [lt max] in
  match nodes with [] => getTrue | _ => getAnd nodes end.

(** getLT ([lt = true]) and getGT. *)
Fixpoint getLTGT (lt : bool) (n : LogicalNode) (value : Z) {struct n} : LogicalNode :=
  if value =? 0 then (if lt then getFalse else n) else
  match n with
  | Node LOG_ADD off _ (c :: _) =>
      getRange (getLTGT false c) (getLTGT true c)
               (range_min lt value off) (range_max lt value off)
  | _ => Node (if lt then LOG_LT else LOG_GT) value ones [n]
  end.
Definition getLT : LogicalNode -> Z -> LogicalNode := getLTGT true.
Definition getGT : LogicalNode -> Z -> LogicalNode := getLTGT false.

(** ** Negation: [Null] after a failed assertion *)

Fixpoint getNot (n : LogicalNode) : LogicalNode :=
  match n with
  | Null => Null
  | Node k a b ch =>
      let c := hd Null ch in
      match k with
      | LOG_SUBSIGNATURE => getEQ n 0
      | LOG_AND => getOr (map getNot ch)
      | LOG_OR => getAnd (map getNot ch)
      | LOG_EQ => getOr [getLT c a; getGT c a]
      | LOG_GT => getOr [getLT c a; getEQ c a]
      | LOG_LT => getOr [getGT c a; getEQ c a]
      | LOG_NOT => c
      | LOG_TRUE => getFalse
      | LOG_FALSE => getTrue
      | _ => Null
      end
  end.
End ranges.
End containers.

(** ** Sums *)

(** checkUniq: no duplicate children. *)
Definition checkUniq (n : LogicalNode) : bool := bool_decide (NoDup (children n)).

(** The children are compared in parallel along the left node's. Where the
    code finds different [op1] it compares [op0] again. *)
Fixpoint compare_lt (l r : LogicalNode) {struct l} : bool :=
  match l, r with
  | Node k a b ch, Node k' a' b' ch' =>
      if negb (bool_decide (k = k')) then kind_number k <? kind_number k'
      else if negb (a =? a') then a <? a'
      else if negb (b =? b') then a <? a'
      else if negb (Nat.eqb (length ch) (length ch')) then (length ch <? length ch')%nat
      else
        (fix go (l1 l2 : list LogicalNode) : bool :=
           match l1, l2 with
           | x :: l1, y :: l2 => if bool_decide (x = y) then go l1 l2 else compare_lt x y
           | _, _ => false
           end) ch ch'
  | _, _ => false
  end.

(** std::sort with [compare_lt], as an insertion sort. *)
Fixpoint insert_node (n : LogicalNode) (l : list LogicalNode) : list LogicalNode :=
  match l with
  | [] => [n]
  | m :: l => if compare_lt m n then m :: insert_node n l else n :: m :: l
  end.
Definition sort_nodes (l : list LogicalNode) : list LogicalNode := foldr insert_node [] l.

Fixpoint node_size (n : LogicalNode) : nat :=
  match n with
  | Null => 1
  | Node _ _ _ ch => S (foldr (fun c s => node_size c + s)%nat O ch)
  end.

(** getAdd of two nodes; [fuel] bounds the recursion, which descends into one
    of the operands each time. *)
Fixpoint getAdd_ (fuel : nat) (lhs rhs : LogicalNode) : LogicalNode :=
  match fuel with
  | O => Null
  | S fuel =>
      let addsum := is_kind LOG_ADDSUM lhs && is_kind LOG_ADDSUM rhs in
      let adduniq := is_kind LOG_ADDUNIQ lhs && is_kind LOG_ADDUNIQ rhs in
      if addsum || adduniq then
        Node (if addsum then LOG_ADDSUM else LOG_ADDUNIQ) ones ones
             (sort_nodes (children lhs ++ children rhs))
      else if is_kind LOG_SUBSIGNATURE lhs && is_kind LOG_SUBSIGNATURE rhs then
        Node LOG_ADDSUM ones ones (sort_nodes [lhs; rhs])
      else
        let '(lhs, rhs) :=
          if is_kind LOG_SUBSIGNATURE rhs then (rhs, lhs) else (lhs, rhs) in
        if is_kind LOG_SUBSIGNATURE lhs && is_kind LOG_ADDSUM rhs then
          Node LOG_ADDSUM ones ones (sort_nodes (lhs :: children rhs))
        else if is_kind LOG_ADD rhs && (is_kind LOG_SUBSIGNATURE lhs || is_kind LOG_ADD lhs) then
          Node LOG_ADD (u32 (op0 rhs + (if is_kind LOG_ADD lhs then op0 lhs else 0))) ones
               [getAdd_ fuel lhs (front rhs)]
        else Null
  end.
Definition getAdd (lhs rhs : LogicalNode) : LogicalNode :=
  getAdd_ (node_size lhs + node_size rhs) lhs rhs.

(** ** What a node means, given the match counts of the subsignatures *)

Section meaning.
Context (counts : Z -> Z).

Definition b2z (b : bool) : Z := if b then 1 else 0.

(** The number a node denotes, and whether it holds. An equality of a sum with
    a second number Y is the compiler's =X,Y: the sum is X and Y different
    operands matched; =Y,Y stands for the second alone. *)
Fixpoint val (n : LogicalNode) : Z :=
  match n with
  | Node LOG_SUBSIGNATURE i _ _ => counts i
  | Node LOG_ADD off _ (c :: _) => u32 (val c + off)
  | Node (LOG_ADDSUM | LOG_ADDBOTH) _ _ ch => u32 (foldr (fun c s => val c + s) 0 ch)
  | Node LOG_ADDUNIQ _ _ ch => u32 (foldr (fun c s => b2z (truth c) + s) 0 ch)
  | _ => 0
  end
with truth (n : LogicalNode) : bool :=
  match n with
  | Node LOG_SUBSIGNATURE i _ _ => negb (counts i =? 0)
  | Node LOG_AND _ _ ch => forallb truth ch
  | Node LOG_OR _ _ ch => existsb truth ch
  | Node LOG_EQ a b (c :: _) =>
      match c with
      | Node LOG_ADDBOTH _ _ ch =>
          let uniq := u32 (foldr (fun c s => b2z (truth c) + s) 0 ch) in
          if b =? ones then val c =? a
          else if a =? b then uniq =? b
          else (val c =? a) && (uniq =? b)
      | _ => val c =? a
      end
  | Node LOG_GT a _ (c :: _) => a <? val c
  | Node LOG_LT a _ (c :: _) => val c <? a
  | Node LOG_NOT _ _ (c :: _) => negb (truth c)
  | Node LOG_TRUE _ _ _ => true
  | Node LOG_ADD off _ (c :: _) => negb (u32 (val c + off) =? 0)
  | Node (LOG_ADDSUM | LOG_ADDBOTH) _ _ ch =>
      negb (u32 (foldr (fun c s => val c + s) 0 ch) =? 0)
  | Node LOG_ADDUNIQ _ _ ch => negb (u32 (foldr (fun c s => b2z (truth c) + s) 0 ch) =? 0)
  | _ => false
  end.
End meaning.

(** ** Induction over nodes *)

Lemma node_ind (P : LogicalNode -> Prop) :
  P Null -> (forall k a b ch, Forall P ch -> P (Node k a b ch)) -> forall n, P n.
Proof.
  intros HN HC. fix IH 1. intros [|k a b ch]; [exact HN|]. apply HC.
  induction ch as [|c ch IHch]; constructor; [apply IH|exact IHch].
Qed.

(** ** Conjunction and disjunction mean what they say *)

Section connectives.
Context (set_order : list LogicalNode -> list LogicalNode)
        (map_order : list (LogicalNode * list LogicalNode) -> list (LogicalNode * list LogicalNode))
        (set_order_perm : forall l, Permutation (set_order l) l)
        (map_order_perm : forall l, Permutation (map_order l) l)
        (counts : Z -> Z).

Abbreviation truth := (truth counts).
Abbreviation all l := (forallb truth l).

Lemma forallb_perm (l l' : list LogicalNode) : Permutation l l' -> all l = all l'.
Proof.
  intros H. apply eq_true_iff_eq. rewrite !forallb_forall.
  split; intros Hl x Hx; apply Hl; [now rewrite H|now rewrite <- H].
Qed.

Lemma existsb_perm (l l' : list LogicalNode) :
  Permutation l l' -> existsb truth l = existsb truth l'.
Proof.
  intros H. apply eq_true_iff_eq. rewrite !existsb_exists.
  split; intros (x & Hx & ?); exists x; (split; [|done]); [now rewrite <- H|now rewrite H].
Qed.

Lemma all_set_insert n s : all (set_insert n s) = truth n && all s.
Proof.
  unfold set_insert. case_bool_decide as Hin.
  - destruct (truth n) eqn:E; [done|]. simpl.
    apply not_true_iff_false. intros H. rewrite forallb_forall in H.
    apply list_elem_of_In in Hin. rewrite (H n Hin) in E. discriminate.
  - rewrite forallb_app. simpl. rewrite andb_true_r. apply andb_comm.
Qed.

Lemma any_set_insert n s : existsb truth (set_insert n s) = truth n || existsb truth s.
Proof.
  unfold set_insert. case_bool_decide as Hin.
  - destruct (truth n) eqn:E; [|done]. apply existsb_exists. exists n.
    split; [now apply list_elem_of_In|done].
  - rewrite existsb_app. simpl. rewrite orb_false_r. apply orb_comm.
Qed.

Lemma all_insert_all l s : all (fold_left (fun o n => set_insert n o) l s) = all l && all s.
Proof.
  revert s. induction l as [|n l IH]; intros s; [done|]. simpl.
  rewrite IH, all_set_insert, !andb_assoc. f_equal. apply andb_comm.
Qed.

Lemma any_insert_all l s :
  existsb truth (fold_left (fun o n => set_insert n o) l s) = existsb truth l || existsb truth s.
Proof.
  revert s. induction l as [|n l IH]; intros s; [done|]. simpl.
  rewrite IH, any_set_insert, !orb_assoc. f_equal. apply orb_comm.
Qed.

Lemma all_flat_rev (f : LogicalNode -> list LogicalNode) v :
  Forall (fun n => all (f n) = truth n) v -> all (flat_map id (rev (map f v))) = all v.
Proof.
  induction 1 as [|n v Hn _ IH]; [done|]. cbn [map rev].
  rewrite flat_map_app, forallb_app. simpl. rewrite app_nil_r, IH.
  unfold id. rewrite Hn. apply andb_comm.
Qed.

Lemma all_pop_order n : all (pop_order n) = truth n.
Proof.
  induction n as [|k a b ch IH] using node_ind; [done|].
  destruct k; try (cbn [pop_order forallb]; apply andb_true_r).
  cbn [pop_order]. rewrite all_flat_rev by exact IH. done.
Qed.

Lemma all_pops v : all (pops v) = all v.
Proof. apply all_flat_rev, Forall_forall. intros n _. apply all_pop_order. Qed.

Lemma is_kind_true k n : is_kind k n = true -> exists a b ch, n = Node k a b ch.
Proof.
  unfold is_kind. rewrite bool_decide_eq_true. destruct n as [|k' a b ch]; simpl; [done|].
  intros [= ->]. eauto.
Qed.

Definition adds_all (adds : list (LogicalNode * list LogicalNode)) : bool :=
  forallb (fun e => all (snd e)) adds.

(** The entries of the map: comparisons of their key, from the operands. *)
Definition adds_ok (l : list LogicalNode) (adds : list (LogicalNode * list LogicalNode)) : Prop :=
  Forall (fun e => Forall (fun n => n ∈ l /\ mergeable n = true /\ front n = fst e) (snd e)) adds.

Lemma map_push_all c n adds : adds_all (map_push c n adds) = truth n && adds_all adds.
Proof.
  induction adds as [|[c' v] adds IH]; simpl; [now rewrite !andb_true_r|].
  case_bool_decide; simpl.
  - rewrite forallb_app. simpl. rewrite andb_true_r, (andb_comm (all v)). symmetry. apply andb_assoc.
  - fold (adds_all (map_push c n adds)). rewrite IH, !andb_assoc. f_equal. apply andb_comm.
Qed.

Lemma map_push_ok l c n adds :
  adds_ok l adds -> n ∈ l -> mergeable n = true -> front n = c -> adds_ok l (map_push c n adds).
Proof.
  intros H Hn Hm Hf. induction H as [|[c' v] adds Hv H IH]; simpl.
  - repeat constructor; auto.
  - case_bool_decide as E; constructor; auto. simpl in *. subst c'.
    apply Forall_app. split; [done|]. repeat constructor; auto.
Qed.

Lemma and_scan_spec l0 l adds others :
  (forall n, n ∈ l -> n ∈ l0) -> adds_ok l0 adds ->
  match and_scan l adds others with
  | inl n => truth n = false /\ all l = false
  | inr (adds', others') =>
      adds_ok l0 adds' /\
      adds_all adds' && all others' = all l && (adds_all adds && all others)
  end.
Proof.
  revert adds others. induction l as [|n l IH]; intros adds others Hl Ha; [done|].
  assert (Hl' : forall m, m ∈ l -> m ∈ l0) by (intros m Hm; apply Hl; now right).
  cbn [and_scan forallb].
  destruct (is_kind LOG_TRUE n) eqn:E1.
  { apply is_kind_true in E1 as (a & b & ch & ->). apply (IH adds others Hl' Ha). }
  destruct (is_kind LOG_FALSE n) eqn:E2.
  { apply is_kind_true in E2 as (a & b & ch & ->). done. }
  destruct (mergeable n) eqn:E3.
  - assert (Hn : n ∈ l0) by (apply Hl; left).
    specialize (IH (map_push (front n) n adds) others Hl' (map_push_ok _ _ _ _ Ha Hn E3 eq_refl)).
    destruct (and_scan _ _ _) as [m|[adds' others']].
    + destruct IH as [? ->]. now rewrite andb_false_r.
    + destruct IH as [? ->]. split; [done|]. rewrite map_push_all.
      rewrite !andb_assoc. do 2 f_equal. apply andb_comm.
  - specialize (IH adds (set_insert n others) Hl' Ha).
    destruct (and_scan _ _ _) as [m|[adds' others']].
    + destruct IH as [? ->]. now rewrite andb_false_r.
    + destruct IH as [? ->]. split; [done|]. rewrite all_set_insert.
      destruct (truth n), (all l), (adds_all adds); done.
Qed.

(** =X and =X,X of one sum would be merged to a node that stands for the
    second alone. *)
Definition clash (n1 n2 : LogicalNode) : bool :=
  mergeable n1 && mergeable n2 && bool_decide (front n1 = front n2)
  && (op1 n1 =? ones) && negb (op1 n2 =? ones) && (op0 n1 =? op0 n2).
Definition no_clash (v : list LogicalNode) : Prop :=
  forall n1 n2, n1 ∈ pops v -> n2 ∈ pops v -> clash n1 n2 = false.

Lemma mergeable_inv n : mergeable n = true ->
  exists a b a' b' ch rest, n = Node LOG_EQ a b (Node LOG_ADDBOTH a' b' ch :: rest) /\
    (b = ones \/ a = b).
Proof.
  unfold mergeable. rewrite !andb_true_iff, orb_true_iff, !Z.eqb_eq.
  intros [[H1 H2] H3]. apply is_kind_true in H1 as (a & b & ch & ->).
  apply is_kind_true in H2 as (a' & b' & ch' & H2). unfold front in H2. simpl in *.
  destruct ch as [|c rest]; [done|]. simpl in H2. subst c. eauto 10.
Qed.

(** The merged node holds exactly when both do. *)
Lemma merge_truth n1 n2 c :
  mergeable n1 = true -> mergeable n2 = true -> front n1 = c -> front n2 = c ->
  op1 n1 = ones -> op1 n2 <> ones -> clash n1 n2 = false ->
  truth (Node LOG_EQ (op0 n1) (op1 n2) [c]) = truth n1 && truth n2.
Proof.
  intros M1 M2 <- F2 O1 O2 Hc. unfold clash in Hc. rewrite M1, M2, F2 in Hc.
  rewrite bool_decide_eq_true_2, O1, Z.eqb_refl in Hc by done.
  rewrite (proj2 (Z.eqb_neq _ _) O2) in Hc. simpl in Hc.
  apply mergeable_inv in M1 as (a1 & b1 & a' & b' & ch & r1 & -> & H1).
  apply mergeable_inv in M2 as (a2 & b2 & a'' & b'' & ch2 & r2 & -> & H2).
  unfold front in F2. simpl in *. injection F2 as -> -> ->. subst b1.
  destruct H2 as [->| ->]; [done|]. rewrite Z.eqb_refl, (proj2 (Z.eqb_neq _ _) O2), Hc.
  unfold ones. rewrite Z.eqb_refl. done.
Qed.

Definition entry_member (l : list LogicalNode) (c n : LogicalNode) : Prop :=
  n ∈ l /\ mergeable n = true /\ front n = c.

Lemma and_merge_all l c addsum adduniq others :
  (forall n1 n2, n1 ∈ l -> n2 ∈ l -> clash n1 n2 = false) ->
  Forall (fun n => entry_member l c n /\ op1 n = ones) addsum ->
  Forall (fun n => entry_member l c n /\ op1 n <> ones) adduniq ->
  let '(adduniq', others') := and_merge c addsum adduniq others in
  all adduniq' && all others' = all addsum && (all adduniq && all others).
Proof.
  intros Hc. revert adduniq others. induction addsum as [|n1 addsum IH]; intros adduniq others Hs Hu;
    [done|].
  apply Forall_cons in Hs as [[(Hin1 & Hm1 & Hf1) Ho1] Hs]. cbn [and_merge forallb].
  destruct (rev adduniq) as [|n2 adduniq'] eqn:E.
  - apply (f_equal (@rev _)) in E. rewrite rev_involutive in E. simpl in E. subst adduniq.
    specialize (IH [] (set_insert n1 others) Hs Hu). destruct (and_merge _ _ _ _) as [u' o'].
    rewrite IH, all_set_insert. simpl. rewrite !andb_assoc. f_equal. apply andb_comm.
  - apply (f_equal (@rev _)) in E. rewrite rev_involutive in E. simpl in E. subst adduniq.
    apply Forall_app in Hu as [Hu Hu2]. apply Forall_inv in Hu2 as [(Hin2 & Hm2 & Hf2) Ho2].
    specialize (IH (rev adduniq') (set_insert (Node LOG_EQ (op0 n1) (op1 n2) [c]) others) Hs Hu).
    destruct (and_merge _ _ _ _) as [u' o']. rewrite IH, all_set_insert, forallb_app.
    rewrite (merge_truth n1 n2 c) by auto. simpl.
    destruct (truth n1), (truth n2), (all addsum), (all (rev adduniq')); simpl; auto.
Qed.

Lemma all_filter_split (p : LogicalNode -> bool) l :
  all (List.filter p l) && all (List.filter (fun n => negb (p n)) l) = all l.
Proof.
  induction l as [|n l IH]; [done|]. simpl. rewrite <- IH.
  destruct (p n); simpl; [now rewrite andb_assoc|].
  destruct (all (List.filter p l)), (truth n); done.
Qed.

Lemma and_entry_all l others e :
  (forall n1 n2, n1 ∈ l -> n2 ∈ l -> clash n1 n2 = false) ->
  Forall (entry_member l (fst e)) (snd e) ->
  all (and_entry others e) = all (snd e) && all others.
Proof.
  intros Hc He. unfold and_entry.
  pose proof (and_merge_all l (fst e) (List.filter (fun n => op1 n =? ones) (snd e))
    (List.filter (fun n => negb (op1 n =? ones)) (snd e)) others Hc) as H.
  destruct (and_merge _ _ _ _) as [u o]. rewrite all_insert_all, H, andb_assoc, all_filter_split; [done| |].
  - rewrite Forall_forall in He |- *. intros n Hn.
    apply list_elem_of_In, filter_In in Hn as [Hn Ho]. apply Z.eqb_eq in Ho.
    apply list_elem_of_In in Hn. auto.
  - rewrite Forall_forall in He |- *. intros n Hn.
    apply list_elem_of_In, filter_In in Hn as [Hn Ho]. apply negb_true_iff, Z.eqb_neq in Ho.
    apply list_elem_of_In in Hn. auto.
Qed.

Lemma and_entries_all l adds others :
  (forall n1 n2, n1 ∈ l -> n2 ∈ l -> clash n1 n2 = false) -> adds_ok l adds ->
  all (fold_left and_entry adds others) = adds_all adds && all others.
Proof.
  intros Hc H. revert others. induction H as [|e adds He H IH]; intros others; [done|].
  simpl. rewrite IH, (and_entry_all l) by done. rewrite !andb_assoc. f_equal. apply andb_comm.
Qed.

Lemma adds_all_perm a b : Permutation a b -> adds_all a = adds_all b.
Proof.
  intros H. apply eq_true_iff_eq. unfold adds_all. rewrite !forallb_forall.
  split; intros Hl x Hx; apply Hl; [now rewrite H|now rewrite <- H].
Qed.

Lemma getAnd_truth v : no_clash v -> truth (getAnd set_order map_order v) = all v.
Proof.
  intros Hc. unfold getAnd. rewrite <- (all_pops v).
  pose proof (and_scan_spec (pops v) (pops v) [] [] (fun _ H => H) (Forall_nil_2 _)) as H.
  destruct (and_scan _ _ _) as [n|[adds others]].
  { destruct H as [-> ->]. done. }
  destruct H as [Ha H]. simpl in H. rewrite andb_true_r in H. rewrite <- H.
  assert (Hm : adds_ok (pops v) (map_order adds)).
  { unfold adds_ok in *. now rewrite map_order_perm. }
  rewrite <- (adds_all_perm _ _ (map_order_perm adds)).
  rewrite <- (and_entries_all (pops v)) by done.
  destruct (fold_left and_entry _ _) as [|x [|y l]]; [done|simpl; now rewrite andb_true_r|].
  apply (forallb_perm _ _ (set_order_perm (x :: y :: l))).
Qed.

Lemma or_scan_spec l nodes :
  match or_scan l nodes with
  | inl n => truth n = true /\ existsb truth l = true
  | inr nodes' => existsb truth nodes' = existsb truth l || existsb truth nodes
  end.
Proof.
  revert nodes. induction l as [|n l IH]; intros nodes; [done|]. cbn [or_scan existsb].
  destruct (is_kind LOG_FALSE n) eqn:E1.
  { apply is_kind_true in E1 as (a & b & ch & ->). apply IH. }
  destruct (is_kind LOG_TRUE n) eqn:E2.
  { apply is_kind_true in E2 as (a & b & ch & ->). done. }
  destruct (is_kind LOG_OR n) eqn:E3.
  - apply is_kind_true in E3 as (a & b & ch & ->).
    specialize (IH (fold_left (fun o n => set_insert n o) (children (Node LOG_OR a b ch)) nodes)).
    destruct (or_scan _ _) as [m|nodes'].
    + destruct IH as [? ->]. now rewrite orb_true_r.
    + rewrite IH, any_insert_all. simpl. rewrite !orb_assoc. f_equal. apply orb_comm.
  - specialize (IH (set_insert n nodes)). destruct (or_scan _ _) as [m|nodes'].
    + destruct IH as [? ->]. now rewrite orb_true_r.
    + rewrite IH, any_set_insert, !orb_assoc. f_equal. apply orb_comm.
Qed.

Lemma getOr_truth v : truth (getOr set_order v) = existsb truth v.
Proof.
  unfold getOr. pose proof (or_scan_spec v []) as H.
  destruct (or_scan v []) as [n|nodes]; [destruct H; congruence|].
  simpl in H. rewrite orb_false_r in H. rewrite <- H.
  destruct nodes as [|x [|y l]]; [done|simpl; now rewrite orb_false_r|].
  apply (existsb_perm _ _ (set_order_perm (x :: y :: l))).
Qed.

(** C5: [getAnd] builds a node that holds exactly when all its operands hold,
    whatever order the hashed containers are traversed in: nested conjunctions
    are flattened, duplicates and TRUE dropped, FALSE propagated, and an =X and
    a =Y,Y of the same sum merged to =X,Y. The one exception is a sum required
    to be =X and =X,X at once. The node [getOr] builds holds exactly when one
    of the operands does. *)
Theorem connectives_sound v : v <> [] ->
  (no_clash v -> truth (getAndSet set_order map_order v) = all v) /\
  truth (getOrSet set_order v) = existsb truth v.
Proof.
  intros Hv. destruct v as [|n v]; [done|].
  split; [apply getAnd_truth|apply getOr_truth].
Qed.
End connectives.

(** ** Comparisons mean what they say *)

(** [a] satisfies [a + off < value], or [a + off > value], in 32 bits. *)
Definition sat (lt : bool) (value off a : Z) : bool :=
  if lt then u32 (a + off) <? value else value <? u32 (a + off).

(** ConstantRange: the minimum and the maximum belong to a nonempty range and
    bound it. *)
Definition range_laws (range_min range_max : bool -> Z -> Z -> Z) : Prop :=
  forall lt value off a, in_u 32 value -> in_u 32 off -> in_u 32 a -> sat lt value off a = true ->
    in_u 32 (range_min lt value off) /\ sat lt value off (range_min lt value off) = true /\
    in_u 32 (range_max lt value off) /\ sat lt value off (range_max lt value off) = true /\
    range_min lt value off <= a <= range_max lt value off.

(** Adding [off] to the range does not wrap around inside it. *)
Definition no_wrap (lt : bool) (value off : Z) : bool :=
  if lt then (off =? 0) || (value <=? off) else (off <=? value + 1) && (value <? ones).

(** A match count: of a subsignature, or the sum of several; also their number
    of different matches, where [uniq] allows it. *)
Definition count_node (uniq : bool) (n : LogicalNode) : bool :=
  is_kind LOG_SUBSIGNATURE n || is_kind LOG_ADDSUM n || is_kind LOG_ADDBOTH n
  || (uniq && is_kind LOG_ADDUNIQ n).

Section comparisons.
Context (set_order : list LogicalNode -> list LogicalNode)
        (map_order : list (LogicalNode * list LogicalNode) -> list (LogicalNode * list LogicalNode))
        (range_min range_max : bool -> Z -> Z -> Z)
        (set_order_perm : forall l, Permutation (set_order l) l)
        (map_order_perm : forall l, Permutation (map_order l) l)
        (ranges : range_laws range_min range_max)
        (counts : Z -> Z) (counts_u32 : forall i, in_u 32 (counts i)).

Abbreviation truth := (truth counts).
Abbreviation val := (val counts).
Abbreviation getAnd := (getAnd set_order map_order).
Abbreviation getOr := (getOr set_order).
Abbreviation getLTGT := (getLTGT set_order map_order range_min range_max).
Abbreviation getNot := (getNot set_order map_order range_min range_max).

Lemma val_u32 n : in_u 32 (val n).
Proof.
  assert (Hu : forall z, in_u 32 (u32 z)) by (intros; apply wrap_range; lia).
  assert (H0 : in_u 32 0) by (unfold in_u; lia).
  destruct n as [|[] a b ch]; simpl; auto. destruct ch; auto.
Qed.

Lemma count_truth uniq n : count_node uniq n = true -> truth n = negb (val n =? 0).
Proof.
  unfold count_node. rewrite !orb_true_iff, andb_true_iff.
  intros [[[H|H]|H]|[_ H]]; apply is_kind_true in H as (a & b & ch & ->); reflexivity.
Qed.

Lemma count_not_add uniq n : count_node uniq n = true -> is_kind LOG_ADD n = false.
Proof.
  unfold count_node. rewrite !orb_true_iff, andb_true_iff.
  intros [[[H|H]|H]|[_ H]]; apply is_kind_true in H as (a & b & ch & ->); reflexivity.
Qed.

(** Comparing a count. *)
Lemma getLTGT_count lt uniq n v : count_node uniq n = true -> 0 <= v ->
  truth (getLTGT lt n v) = if lt then val n <? v else v <? val n.
Proof.
  intros Hn Hv. pose proof (val_u32 n) as Hr. unfold in_u in Hr.
  pose proof (count_truth uniq n Hn) as Ht. pose proof (count_not_add uniq n Hn) as Ha.
  destruct n as [|k a b ch]; [destruct uniq; done|]. cbn [Logical.getLTGT].
  destruct (Z.eqb_spec v 0) as [->|Hne].
  - destruct lt; [symmetry; apply Z.ltb_ge; lia|]. rewrite Ht.
    destruct (Z.eqb_spec (val (Node k a b ch)) 0), (Z.ltb_spec 0 (val (Node k a b ch))); lia || done.
  - destruct k; try discriminate; destruct lt; reflexivity.
Qed.

Lemma getEQ_count uniq n v : count_node uniq n = true ->
  (is_kind LOG_ADDUNIQ n = true -> v <> ones) -> truth (getEQ n v) = (val n =? v).
Proof.
  unfold count_node. rewrite !orb_true_iff, andb_true_iff. intros H Hv.
  destruct H as [[[H|H]|H]|[_ H]]; apply is_kind_true in H as (a & b & ch & ->); try reflexivity.
  change (truth (Node LOG_EQ v v [Node LOG_ADDBOTH ones ones ch]) = (val (Node LOG_ADDUNIQ a b ch) =? v)).
  cbn [Logical.truth Logical.val].
  now rewrite (proj2 (Z.eqb_neq _ _) (Hv eq_refl)), Z.eqb_refl.
Qed.

(** No comparison of order is mergeable. *)
Lemma no_clash_orders v : Forall (fun n => is_kind LOG_EQ n = false /\ is_kind LOG_AND n = false) v ->
  no_clash v.
Proof.
  intros H. assert (Hp : forall n, n ∈ pops v -> is_kind LOG_EQ n = false).
  { unfold pops. intros n Hn. apply list_elem_of_In, in_flat_map in Hn as (l & Hl & Hn).
    rewrite <- in_rev in Hl. apply in_map_iff in Hl as (m & <- & Hm).
    rewrite Forall_forall in H. apply list_elem_of_In, H in Hm as [He Ha].
    destruct m as [|k a b ch]; [destruct Hn as [<-|[]]; done|].
    destruct k; try discriminate; destruct Hn as [<-|[]]; done. }
  intros n1 n2 H1 _. unfold clash, mergeable. now rewrite (Hp n1 H1).
Qed.

(** A count between two bounds. *)
Lemma getRange_count uniq c min max : count_node uniq c = true ->
  0 <= min -> in_u 32 max ->
  truth (getRange set_order map_order (getLTGT false c) (getLTGT true c) min max)
    = (min <=? val c) && (val c <=? max).
Proof.
  intros Hc Hmin Hmax. pose proof (val_u32 c) as Hr. unfold in_u in *.
  pose proof (getLTGT_count false uniq c (min - 1) Hc) as Hgt.
  pose proof (getLTGT_count true uniq c (max + 1) Hc ltac:(lia)) as Hlt.
  assert (Hk : forall lt v, v <> 0 \/ lt = false -> is_kind LOG_EQ (getLTGT lt c v) = false
                            /\ is_kind LOG_AND (getLTGT lt c v) = false).
  { intros lt v Hv. unfold count_node in Hc. rewrite !orb_true_iff, andb_true_iff in Hc.
    destruct Hc as [[[H|H]|H]|[_ H]]; apply is_kind_true in H as (a & b & ch & ->); cbn [Logical.getLTGT];
      destruct (Z.eqb_spec v 0); destruct lt; try done; destruct Hv; done. }
  unfold getRange. destruct (Z.eqb_spec min 0) as [->|Hm0].
  - rewrite (proj2 (Z.leb_le 0 _)) by lia. simpl andb.
    destruct (Z.eq_dec max (2 ^ 32 - 1)) as [->|Hm].
    + change (u32 (2 ^ 32 - 1 + 1)) with 0. simpl. symmetry. apply Z.leb_le. lia.
    + unfold u32. rewrite wrap_small by (unfold in_u; lia).
      rewrite (proj2 (Z.eqb_neq _ _)) by lia. cbn [app].
      rewrite getAnd_truth; auto.
      * cbn [forallb]. rewrite Hlt, andb_true_r. apply eq_true_iff_eq.
        rewrite Z.ltb_lt, Z.leb_le. lia.
      * apply no_clash_orders. repeat constructor; apply Hk; lia.
  - specialize (Hgt ltac:(lia)).
    destruct (Z.eq_dec max (2 ^ 32 - 1)) as [->|Hm].
    + change (u32 (2 ^ 32 - 1 + 1)) with 0. simpl Z.eqb. cbv iota.
      rewrite getAnd_truth; auto.
      * cbn [forallb]. rewrite Hgt, andb_true_r. apply eq_true_iff_eq.
        rewrite andb_true_iff, Z.ltb_lt, !Z.leb_le. lia.
      * apply no_clash_orders. repeat constructor; apply Hk; auto.
    + unfold u32. rewrite wrap_small by (unfold in_u; lia).
      rewrite (proj2 (Z.eqb_neq (max + 1) 0)) by lia. cbn [app].
      rewrite getAnd_truth; auto.
      * cbn [forallb]. rewrite Hgt, Hlt, andb_true_r. apply eq_true_iff_eq.
        rewrite !andb_true_iff, !Z.ltb_lt, !Z.leb_le. lia.
      * apply no_clash_orders. repeat constructor; apply Hk; auto; lia.
Qed.

(** Without wrap-around the 32-bit solutions are exactly the numbers between
    the bounds. *)
Lemma no_wrap_interval lt value off a : in_u 32 value -> in_u 32 off -> in_u 32 a ->
  value <> 0 -> no_wrap lt value off = true ->
  (range_min lt value off <=? a) && (a <=? range_max lt value off) = sat lt value off a /\
  0 <= range_min lt value off /\ in_u 32 (range_max lt value off).
Proof.
  intros Hv Ho Ha Hne Hw.
  assert (exists w, in_u 32 w /\ sat lt value off w = true) as (w & Hwu & Hws).
  { exists (u32 ((if lt then 0 else ones) - off)). split; [apply wrap_range; lia|].
    unfold sat. destruct lt; apply Z.ltb_lt.
    - cint.
    - unfold no_wrap in Hw. apply andb_true_iff in Hw as [_ Hw]. apply Z.ltb_lt in Hw.
      unfold ones in *. cint. }
  destruct (ranges lt value off w Hv Ho Hwu Hws) as (Hmin & Hsmin & Hmax & Hsmax & _).
  split; [|split; [unfold in_u in Hmin; lia|done]].
  apply eq_true_iff_eq. rewrite andb_true_iff, !Z.leb_le. split.
  - intros Hb. revert Hw Hsmin Hsmax. unfold sat, no_wrap, ones.
    generalize dependent (range_min lt value off). intros lo.
    generalize dependent (range_max lt value off). intros hi.
    intros. destruct lt.
    + apply Z.ltb_lt in Hsmin, Hsmax. apply Z.ltb_lt.
      apply orb_true_iff in Hw. rewrite Z.eqb_eq, Z.leb_le in Hw. cint.
    + apply Z.ltb_lt in Hsmin, Hsmax. apply Z.ltb_lt.
      apply andb_true_iff in Hw as [Hw _]. apply Z.leb_le in Hw. cint.
  - intros Hs. now apply (ranges lt value off a).
Qed.

(** Comparing a count plus a constant. *)
Lemma getLTGT_add lt n off v : count_node true n = true -> in_u 32 off -> in_u 32 v ->
  no_wrap lt v off = true -> v <> 0 ->
  truth (getLTGT lt (Node LOG_ADD off ones [n]) v) =
    if lt then val (Node LOG_ADD off ones [n]) <? v else v <? val (Node LOG_ADD off ones [n]).
Proof.
  intros Hn Ho Hv Hw Hne. pose proof (val_u32 n) as Hr. cbn [Logical.getLTGT].
  rewrite (proj2 (Z.eqb_neq _ _) Hne).
  destruct (no_wrap_interval lt v off (val n) Hv Ho Hr Hne Hw) as (E & Hmin & Hmax).
  rewrite (getRange_count true) by done. rewrite E. unfold sat. now destruct lt.
Qed.

Lemma getEQ_add n off v : count_node true n = true -> in_u 32 off -> in_u 32 v ->
  u32 (v - off) <> ones ->
  truth (getEQ (Node LOG_ADD off ones [n]) v) = (val (Node LOG_ADD off ones [n]) =? v).
Proof.
  intros Hn Ho Hv Hne. pose proof (val_u32 n) as Hr. unfold getEQ.
  change (is_kind LOG_ADD (Node LOG_ADD off ones [n])) with true. cbv iota beta.
  change (front (Node LOG_ADD off ones [n])) with n. change (Logical.op0 (Node LOG_ADD off ones [n])) with off.
  pose proof (getEQ_count true n (u32 (v - off)) Hn (fun _ => Hne)) as E.
  unfold getEQ in E. rewrite (count_not_add true n Hn) in E.
  etransitivity; [exact E|]. change (val (Node LOG_ADD off ones [n])) with (u32 (val n + off)).
  apply eq_true_iff_eq. rewrite !Z.eqb_eq. clear -Hr Ho Hv. cint.
Qed.

(** Comparing a match count, or a count plus a constant, with a constant
    yields a node that holds exactly when the 32-bit comparison does, provided
    adding the constant does not wrap around within the compared range. *)
Theorem comparisons_sound lt n off v : count_node true n = true -> in_u 32 off -> in_u 32 v ->
  truth (getLTGT lt n v) = (if lt then val n <? v else v <? val n) /\
  (no_wrap lt v off = true -> v <> 0 ->
   truth (getLTGT lt (getAddConst n off) v) =
     if lt then val (getAddConst n off) <? v else v <? val (getAddConst n off)) /\
  (v <> ones -> truth (getEQ n v) = (val n =? v)) /\
  (u32 (v - off) <> ones -> truth (getEQ (getAddConst n off) v) = (val (getAddConst n off) =? v)).
Proof.
  intros Hn Ho Hv. unfold getAddConst.
  replace (u32 off) with off by (symmetry; apply wrap_small; exact Ho).
  split; [apply (getLTGT_count lt true); [done|unfold in_u in Hv; lia]|]. split; [|split].
  - intros Hw Hne. now apply getLTGT_add.
  - intros Hne. apply (getEQ_count true); auto.
  - intros Hne. now apply getEQ_add.
Qed.

(** ** Sums *)

Lemma insert_node_perm n l : Permutation (insert_node n l) (n :: l).
Proof.
  induction l as [|m l IH]; [done|]. simpl. destruct (compare_lt m n); [|done].
  rewrite IH. apply Permutation_swap.
Qed.

Lemma sort_nodes_perm l : Permutation (sort_nodes l) l.
Proof. induction l as [|n l IH]; [done|]. simpl. rewrite insert_node_perm. now constructor. Qed.

Definition total (f : LogicalNode -> Z) (l : list LogicalNode) : Z := foldr (fun c s => f c + s) 0 l.
Lemma total_perm f a b : Permutation a b -> total f a = total f b.
Proof. induction 1; simpl; lia. Qed.
Lemma total_app f a b : total f (a ++ b) = total f a + total f b.
Proof. induction a; simpl; lia. Qed.

(** What a constant can be added to: a count or the sum of several. *)
Definition summand (n : LogicalNode) : bool := is_kind LOG_SUBSIGNATURE n || is_kind LOG_ADDSUM n.

Definition addend (n : LogicalNode) : Prop :=
  exists off c, n = Node LOG_ADD off ones [c] /\ in_u 32 off /\ count_node true c = true.
(** The nodes of 32-bit values. *)
Definition numeric (n : LogicalNode) : Prop := count_node true n = true \/ addend n.

(** The operands [getAdd] adds correctly: not two sums with constants. *)
Definition addable (n m : LogicalNode) : bool :=
  negb (is_kind LOG_ADD n && is_kind LOG_ADD m)
  && (negb (is_kind LOG_ADD n) || summand (front n)) && (negb (is_kind LOG_ADD m) || summand (front m)).

Lemma val_sum k a b l : (k = LOG_ADDSUM \/ k = LOG_ADDBOTH) -> val (Node k a b l) = u32 (total val l).
Proof. intros [->| ->]; reflexivity. Qed.

Lemma u32_sum a b : u32 (u32 a + u32 b) = u32 (a + b).
Proof. cint. Qed.
Lemma u32_id a : in_u 32 a -> u32 a = a.
Proof. apply wrap_small. Qed.

(** Adding a subsignature's count to a count or a sum. *)
Lemma getAdd_summand fuel i a b m : summand m = true ->
  let r := getAdd_ (S fuel) (Node LOG_SUBSIGNATURE i a b) m in
  is_kind LOG_ADDSUM r = true /\ val r = u32 (counts i + val m).
Proof.
  unfold summand. rewrite orb_true_iff. cbv zeta.
  intros [(x & y & ch & ->)%is_kind_true|(x & y & ch & ->)%is_kind_true]; cbn [getAdd_];
    (split; [reflexivity|]).
  - change (val (Node LOG_ADDSUM ones ones (sort_nodes [Node LOG_SUBSIGNATURE i a b; Node LOG_SUBSIGNATURE x y ch]))
      = u32 (counts i + counts x)).
    rewrite val_sum, (total_perm _ _ _ (sort_nodes_perm _)) by auto. simpl. f_equal. lia.
  - change (val (Node LOG_ADDSUM ones ones (sort_nodes (Node LOG_SUBSIGNATURE i a b :: ch)))
      = u32 (counts i + u32 (total val ch))).
    rewrite val_sum, (total_perm _ _ _ (sort_nodes_perm _)) by auto. simpl. cint.
Qed.

Lemma count_node_kind n : count_node true n = true ->
  exists k a b ch, n = Node k a b ch /\
    (k = LOG_SUBSIGNATURE \/ k = LOG_ADDSUM \/ k = LOG_ADDBOTH \/ k = LOG_ADDUNIQ).
Proof.
  unfold count_node. rewrite !orb_true_iff, andb_true_iff.
  intros [[[H|H]|H]|[_ H]]; apply is_kind_true in H as (a & b & ch & ->); eauto 10.
Qed.

Lemma getAdd_add fuel i a b off c : summand c = true -> in_u 32 off ->
  let r := Node LOG_ADD (u32 (off + 0)) ones [getAdd_ (S fuel) (Node LOG_SUBSIGNATURE i a b) c] in
  addend r /\ val r = u32 (counts i + val (Node LOG_ADD off ones [c])).
Proof.
  intros Hc Ho. destruct (getAdd_summand fuel i a b c Hc) as [Hk Hv]. cbv zeta.
  rewrite Z.add_0_r, (u32_id off) by done. split.
  - eexists _, _. split; [reflexivity|]. split; [done|]. unfold count_node. rewrite Hk.
    now rewrite !orb_true_r.
  - cbn [Logical.val] in *. rewrite Hv. cint.
Qed.

(** The node of a sum denotes the sum. *)
Lemma getAdd_val n m : numeric n -> numeric m -> addable n m = true -> getAdd n m <> Null ->
  numeric (getAdd n m) /\ val (getAdd n m) = u32 (val n + val m).
Proof.
  intros Hn Hm Ha. unfold getAdd.
  assert (exists fuel, (node_size n + node_size m)%nat = S (S fuel)) as [fuel ->].
  { exists (node_size n + node_size m - 2)%nat. destruct n, m; simpl; lia. }
  assert (HS : forall k l, (k = LOG_ADDSUM \/ k = LOG_ADDUNIQ) ->
            numeric (Node k ones ones l)).
  { intros k l [->| ->]; left; done. }
  destruct Hn as [(k & x & y & ch & -> & Hk)%count_node_kind|(off & c & -> & Ho & Hc)];
    destruct Hm as [(k' & x' & y' & ch' & -> & Hk')%count_node_kind|(off' & c' & -> & Ho' & Hc')].
  - destruct Hk as [->|[->|[->| ->]]]; destruct Hk' as [->|[->|[->| ->]]]; try (intros []; done);
      intros _.
    + split; [now apply HS; left|]. now apply (getAdd_summand (S fuel)).
    + split; [now apply HS; left|]. now apply (getAdd_summand (S fuel)).
    + split; [now apply HS; left|]. etransitivity; [now apply (getAdd_summand (S fuel) x' y' ch' (Node LOG_ADDSUM x y ch))|].
      f_equal. apply Z.add_comm.
    + split; [now apply HS; left|].
      change (u32 (total val (sort_nodes (ch ++ ch'))) = u32 (u32 (total val ch) + u32 (total val ch'))).
      now rewrite (total_perm _ _ _ (sort_nodes_perm _)), total_app, u32_sum.
    + split; [now apply HS; right|].
      change (u32 (total (fun c => b2z (truth c)) (sort_nodes (ch ++ ch')))
        = u32 (u32 (total (fun c => b2z (truth c)) ch) + u32 (total (fun c => b2z (truth c)) ch'))).
      now rewrite (total_perm _ _ _ (sort_nodes_perm _)), total_app, u32_sum.
  - destruct Hk as [->|[->|[->| ->]]]; try (intros []; done). intros _.
    destruct (getAdd_add fuel x y ch off' c') as [H1 H2]; [|done|].
    { unfold addable in Ha. now apply andb_true_iff in Ha as [_ Ha]. }
    split; [right; exact H1|exact H2].
  - destruct Hk' as [->|[->|[->| ->]]]; try (intros []; done). intros _.
    destruct (getAdd_add fuel x' y' ch' off c) as [H1 H2]; [|done|].
    { unfold addable in Ha. apply andb_true_iff in Ha as [Ha _]. now apply andb_true_iff in Ha as [_ Ha]. }
    split; [right; exact H1|]. etransitivity; [exact H2|]. f_equal. apply Z.add_comm.
  - discriminate Ha.
Qed.

(** ** Negation *)

(** Nodes whose equalities are =X only. *)
Fixpoint sums_only (n : LogicalNode) : bool :=
  match n with
  | Node LOG_EQ _ b _ => b =? ones
  | Node (LOG_AND | LOG_OR) _ _ ch => forallb sums_only ch
  | _ => true
  end.

(** The expressions negation is right on: built from subsignatures, constants
    and comparisons of counts (not of numbers of different matches) with
    conjunction and disjunction. *)
Fixpoint plain (n : LogicalNode) : bool :=
  match n with
  | Node (LOG_SUBSIGNATURE | LOG_TRUE | LOG_FALSE) _ _ _ => true
  | Node (LOG_AND | LOG_OR) _ _ ch => negb (bool_decide (ch = [])) && forallb plain ch
  | Node LOG_EQ a b ch => in_ub 32 a && (b =? ones) && bool_decide (length ch = 1%nat)
                          && count_node false (hd Null ch)
  | Node (LOG_GT | LOG_LT) a _ ch => in_ub 32 a && bool_decide (length ch = 1%nat)
                          && count_node false (hd Null ch)
  | _ => false
  end.

Lemma Forall_set_insert (P : LogicalNode -> Prop) n s : P n -> Forall P s -> Forall P (set_insert n s).
Proof.
  intros Hn Hs. unfold set_insert. case_bool_decide; [done|]. apply Forall_app; auto.
Qed.

Lemma Forall_insert_all (P : LogicalNode -> Prop) l s :
  Forall P l -> Forall P s -> Forall P (fold_left (fun o n => set_insert n o) l s).
Proof.
  intros Hl. revert s. induction Hl; intros s Hs; simpl; auto using Forall_set_insert.
Qed.

Lemma sums_pop_order n : sums_only n = true -> Forall (fun m => sums_only m = true) (pop_order n).
Proof.
  induction n as [|k a b ch IH] using node_ind; intros H; [repeat constructor|].
  destruct k; try (repeat constructor; exact H).
  cbn [sums_only pop_order] in *. rewrite forallb_forall in H.
  apply Forall_forall. intros m Hm. apply list_elem_of_In, in_flat_map in Hm as (l & Hl & Hm).
  rewrite <- in_rev in Hl. apply in_map_iff in Hl as (c & <- & Hc).
  rewrite Forall_forall in IH. specialize (IH c (proj2 (list_elem_of_In _ _) Hc) (H c Hc)).
  rewrite Forall_forall in IH. now apply IH, list_elem_of_In.
Qed.

Lemma sums_pops v : Forall (fun n => sums_only n = true) v ->
  Forall (fun m => sums_only m = true) (pops v).
Proof.
  intros H. apply Forall_forall. intros m Hm. unfold pops in Hm.
  apply list_elem_of_In, in_flat_map in Hm as (l & Hl & Hm).
  rewrite <- in_rev in Hl. apply in_map_iff in Hl as (c & <- & Hc).
  rewrite Forall_forall in H. apply list_elem_of_In, H in Hc.
  apply sums_pop_order in Hc. rewrite Forall_forall in Hc. now apply Hc, list_elem_of_In.
Qed.

Lemma sums_mergeable n : sums_only n = true -> mergeable n = true -> Logical.op1 n = ones.
Proof.
  intros H M. apply mergeable_inv in M as (? & ? & ? & ? & ? & ? & -> & _). now apply Z.eqb_eq.
Qed.

Lemma no_clash_sums v : Forall (fun n => sums_only n = true) v -> no_clash v.
Proof.
  intros H n1 n2 H1 H2. apply sums_pops in H. rewrite Forall_forall in H.
  unfold clash. destruct (mergeable n1); [|done]. destruct (mergeable n2) eqn:M; [|done].
  rewrite (sums_mergeable n2 (H n2 H2) M), Z.eqb_refl. simpl. now rewrite andb_false_r.
Qed.

Lemma and_merge_no_uniq c addsum others :
  and_merge c addsum [] others = ([], fold_left (fun o n => set_insert n o) addsum others).
Proof. revert others. induction addsum as [|n l IH]; intros others; [done|]. apply IH. Qed.

Lemma and_entry_sums others e :
  Forall (fun n => sums_only n = true /\ mergeable n = true) (snd e) ->
  and_entry others e = fold_left (fun o n => set_insert n o) (snd e) others.
Proof.
  intros H. unfold and_entry.
  assert (List.filter (fun n => Logical.op1 n =? ones) (snd e) = snd e /\
              List.filter (fun n => negb (Logical.op1 n =? ones)) (snd e) = []) as [-> ->].
  { induction H as [|n l [Hs Hm] _ [IH1 IH2]]; [done|]. simpl.
    rewrite (sums_mergeable n Hs Hm), Z.eqb_refl. simpl. now rewrite IH1, IH2. }
  now rewrite and_merge_no_uniq.
Qed.

Definition sums (n : LogicalNode) : Prop := sums_only n = true.
Definition entry_sums (e : LogicalNode * list LogicalNode) : Prop :=
  Forall (fun n => sums n /\ mergeable n = true) (snd e).

Lemma map_push_sums c n adds : sums n -> mergeable n = true -> Forall entry_sums adds ->
  Forall entry_sums (map_push c n adds).
Proof.
  intros Hn Hm H. induction H as [|[c' v] adds Hv H IH]; simpl.
  - repeat constructor; auto.
  - case_bool_decide; constructor; auto. unfold entry_sums in *. simpl in *.
    apply Forall_app. split; [done|]. repeat constructor; auto.
Qed.

Lemma and_scan_sums l adds others :
  Forall sums l -> Forall entry_sums adds -> Forall sums others ->
  match and_scan l adds others with
  | inl n => sums n
  | inr (adds', others') => Forall entry_sums adds' /\ Forall sums others'
  end.
Proof.
  intros Hl. revert adds others. induction Hl as [|n l Hn _ IH]; intros adds others Ha Ho; [done|].
  cbn [and_scan]. destruct (is_kind LOG_TRUE n); [now apply IH|].
  destruct (is_kind LOG_FALSE n); [exact Hn|].
  destruct (mergeable n) eqn:E; apply IH; auto using map_push_sums, Forall_set_insert.
Qed.

Lemma sums_getAnd v : Forall sums v -> sums (getAnd v).
Proof.
  intros Hv. unfold Logical.getAnd.
  pose proof (and_scan_sums (pops v) [] [] (sums_pops v Hv) (Forall_nil_2 _) (Forall_nil_2 _)) as H.
  destruct (and_scan _ _ _) as [n|[adds others]]; [done|]. destruct H as [Ha Ho].
  assert (Hf : Forall sums (fold_left and_entry (map_order adds) others)).
  { assert (Hm : Forall entry_sums (map_order adds)) by now rewrite map_order_perm.
    revert others Ho. induction Hm as [|e l He _ IH]; intros others Ho; [done|].
    simpl. apply IH. rewrite and_entry_sums by exact He. apply Forall_insert_all; [|done].
    eapply Forall_impl; [exact He|]. now intros ? []. }
  destruct (fold_left and_entry _ _) as [|x [|y l]]; [done|now apply Forall_inv in Hf|].
  unfold sums. cbn [sums_only]. apply forallb_forall. intros m Hm.
  rewrite <- (set_order_perm (x :: y :: l)) in Hf. rewrite Forall_forall in Hf.
  now apply Hf, list_elem_of_In.
Qed.

Lemma or_scan_sums l nodes : Forall sums l -> Forall sums nodes ->
  match or_scan l nodes with inl n => sums n | inr nodes' => Forall sums nodes' end.
Proof.
  intros Hl. revert nodes. induction Hl as [|n l Hn _ IH]; intros nodes Ho; [done|].
  cbn [or_scan]. destruct (is_kind LOG_FALSE n); [now apply IH|].
  destruct (is_kind LOG_TRUE n); [exact Hn|].
  destruct (is_kind LOG_OR n) eqn:E; apply IH; auto using Forall_set_insert.
  apply is_kind_true in E as (a & b & ch & ->). apply Forall_insert_all; [|done].
  unfold sums in Hn. cbn [sums_only] in Hn. rewrite forallb_forall in Hn.
  apply Forall_forall. intros m Hm. now apply Hn, list_elem_of_In.
Qed.

Lemma sums_getOr v : Forall sums v -> sums (getOr v).
Proof.
  intros Hv. unfold Logical.getOr. pose proof (or_scan_sums v [] Hv (Forall_nil_2 _)) as H.
  destruct (or_scan v []) as [n|[|x [|y l]]]; [done|done|now apply Forall_inv in H|].
  unfold sums. cbn [sums_only]. apply forallb_forall. intros m Hm.
  rewrite <- (set_order_perm (x :: y :: l)) in H. rewrite Forall_forall in H.
  now apply H, list_elem_of_In.
Qed.

Lemma count_kinds n : count_node false n = true ->
  exists k a b ch, n = Node k a b ch /\ (k = LOG_SUBSIGNATURE \/ k = LOG_ADDSUM \/ k = LOG_ADDBOTH).
Proof.
  unfold count_node. rewrite !orb_true_iff, andb_true_iff.
  intros [[[H|H]|H]|[H _]]; try done; apply is_kind_true in H as (a & b & ch & ->); eauto 10.
Qed.

Lemma sums_getLTGT lt n v : count_node false n = true -> sums (getLTGT lt n v).
Proof.
  intros (k & a & b & ch & -> & H)%count_kinds. cbn [Logical.getLTGT].
  destruct (v =? 0), lt; destruct H as [->|[->| ->]]; done.
Qed.

Lemma sums_getEQ n v : count_node false n = true -> sums (getEQ n v).
Proof. intros (k & a & b & ch & -> & H)%count_kinds. destruct H as [->|[->| ->]]; done. Qed.

Lemma plain_compare a ch : in_ub 32 a && bool_decide (length ch = 1%nat)
    && count_node false (hd Null ch) = true ->
  0 <= a /\ exists c, ch = [c] /\ count_node false c = true.
Proof.
  rewrite !andb_true_iff, in_ub_spec, bool_decide_eq_true. intros [[Ha Hl] Hc].
  destruct ch as [|c [|? ?]]; try done. split; [unfold in_u in Ha; lia|]. eauto.
Qed.

Lemma plain_getNot n : plain n = true -> sums (getNot n) /\ truth (getNot n) = negb (truth n).
Proof.
  induction n as [|k a b ch IH] using node_ind; intros Hp; [done|].
  destruct k; try done; cbn [plain] in Hp; cbn [Logical.getNot].
  - split; [apply sums_getEQ; done|]. cbn. now rewrite negb_involutive.
  - apply andb_true_iff in Hp as [_ Hp]. rewrite forallb_forall in Hp.
    rewrite Forall_forall in IH. split.
    + apply sums_getOr. apply List.Forall_forall. intros m Hm.
      apply in_map_iff in Hm as (c & <- & Hc). now apply IH; [apply list_elem_of_In|apply Hp].
    + rewrite getOr_truth by done. cbn [Logical.truth].
      induction ch as [|c ch IHch]; [done|]. cbn [map existsb forallb]. rewrite negb_andb. f_equal.
      * apply IH; [left|apply Hp; now left].
      * apply IHch; [intros x Hx; apply IH; now right|intros x Hx; apply Hp; now right].
  - apply andb_true_iff in Hp as [Hne Hp]. rewrite forallb_forall in Hp.
    rewrite Forall_forall in IH.
    assert (Hs : Forall sums (map getNot ch)).
    { apply List.Forall_forall. intros m Hm.
      apply in_map_iff in Hm as (c & <- & Hc). now apply IH; [apply list_elem_of_In|apply Hp]. }
    split; [now apply sums_getAnd|].
    rewrite getAnd_truth; [|done|done|now apply no_clash_sums].
    clear Hs Hne. cbn [Logical.truth].
    induction ch as [|c ch IHch]; [done|]. cbn [map existsb forallb]. rewrite negb_orb. f_equal.
    + apply IH; [left|apply Hp; now left].
    + apply IHch; [intros x Hx; apply IH; now right|intros x Hx; apply Hp; now right].
  - rewrite !andb_true_iff in Hp. destruct Hp as [[[H1 H2] H3] H4]. apply Z.eqb_eq in H2 as ->.
    assert (Hp : in_ub 32 a && bool_decide (length ch = 1%nat) && count_node false (hd Null ch) = true)
      by (now rewrite H1, H3, H4).
    apply plain_compare in Hp as (Ha & c & -> & Hcn). cbn [hd] in *.
    split; [apply sums_getOr; repeat constructor; now apply sums_getLTGT|].
    rewrite getOr_truth by done. cbn [existsb].
    unfold getLT, getGT. rewrite !(getLTGT_count _ false) by done. rewrite orb_false_r.
    assert (truth (Node LOG_EQ a ones [c]) = (val c =? a)) as ->.
    { apply count_kinds in Hcn as (k & x & y & ch & -> & [->|[->| ->]]); reflexivity. }
    destruct (Z.ltb_spec (val c) a), (Z.ltb_spec a (val c)), (Z.eqb_spec (val c) a); try done; lia.
  - apply plain_compare in Hp as (Ha & c & -> & Hcn). cbn [hd].
    split; [apply sums_getOr; repeat constructor; [now apply sums_getLTGT|now apply sums_getEQ]|].
    rewrite getOr_truth by done. cbn [existsb Logical.truth].
    unfold getLT. rewrite (getLTGT_count _ false), (getEQ_count false) by (try done; destruct c as [|[] ? ? ?]; done).
    rewrite orb_false_r.
    destruct (Z.ltb_spec (val c) a), (Z.ltb_spec a (val c)), (Z.eqb_spec (val c) a); try done; lia.
  - apply plain_compare in Hp as (Ha & c & -> & Hcn). cbn [hd].
    split; [apply sums_getOr; repeat constructor; [now apply sums_getLTGT|now apply sums_getEQ]|].
    rewrite getOr_truth by done. cbn [existsb Logical.truth].
    unfold getGT. rewrite (getLTGT_count _ false), (getEQ_count false) by (try done; destruct c as [|[] ? ? ?]; done).
    rewrite orb_false_r.
    destruct (Z.ltb_spec (val c) a), (Z.ltb_spec a (val c)), (Z.eqb_spec (val c) a); try done; lia.
Qed.

(** On expressions built from subsignatures, constants and comparisons of
    match counts with conjunction and disjunction, [getNot] pushes the negation
    to the leaves correctly: the node it returns holds exactly when its operand
    does not. *)
Theorem getNot_sound n : plain n = true -> truth (getNot n) = negb (truth n).
Proof. intros H. now apply plain_getNot. Qed.
End comparisons.

(** ** LLVM's ranges, concretely: the circular interval from [lower] to [upper] *)

Definition cr_lower (lt : bool) (value off : Z) : Z := u32 ((if lt then 0 else value + 1) - off).
Definition cr_upper (lt : bool) (value off : Z) : Z := u32 ((if lt then value else 0) - off).
Definition cr_min (lt : bool) (value off : Z) : Z :=
  let l := cr_lower lt value off in let u := cr_upper lt value off in
  if (u <? l) && negb (u =? 0) then 0 else l.
Definition cr_max (lt : bool) (value off : Z) : Z :=
  let l := cr_lower lt value off in let u := cr_upper lt value off in
  if u <? l then ones else u - 1.

Ltac cr_cases :=
  repeat match goal with
         | |- context [?a <? ?b] => destruct (Z.ltb_spec a b)
         | |- context [?a =? ?b] => destruct (Z.eqb_spec a b)
         end; cbn [andb negb]; repeat split; cint.

Lemma cr_laws : range_laws cr_min cr_max.
Proof.
  intros lt value off a Hv Ho Ha Hs. unfold sat, cr_min, cr_max, cr_lower, cr_upper, ones in *.
  assert (u32 (0 - off) = if off =? 0 then 0 else 2 ^ 32 - off) as E0
    by (destruct (Z.eqb_spec off 0); cint).
  destruct lt; rewrite Z.ltb_lt in *; rewrite Z.ltb_lt, E0.
  - assert (u32 (value - off) = if off <=? value then value - off else 2 ^ 32 + value - off) as ->
      by (destruct (Z.leb_spec off value); cint).
    destruct (Z.eqb_spec off 0), (Z.leb_spec off value); cr_cases.
  - assert (value < 2 ^ 32 - 1) by (revert Hs; cint).
    assert (u32 (value + 1 - off) = if off <=? value + 1 then value + 1 - off
                                    else 2 ^ 32 + value + 1 - off) as ->
      by (destruct (Z.leb_spec off (value + 1)); cint).
    destruct (Z.eqb_spec off 0), (Z.leb_spec off (value + 1)); cr_cases.
Qed.

(** ** The properties at concrete inputs, and where they stop *)

Definition keep {A} (l : list A) : list A := l.
Lemma keep_perm {A} (l : list A) : Permutation (keep l) l.
Proof. reflexivity. Qed.

(** Subsignature 0 matched twice, 1 once, the others never. *)
Definition demo_counts (i : Z) : Z := if i =? 0 then 2 else if i =? 1 then 1 else 0.
Lemma demo_counts_u32 i : in_u 32 (demo_counts i).
Proof. unfold demo_counts. destruct (i =? 0), (i =? 1); in_range. Qed.

Definition sum01 : LogicalNode := getAdd (getSubSig 0) (getSubSig 1).
Definition uniq01 : LogicalNode := getAdd (getUniqueSigs (getSubSig 0)) (getUniqueSigs (getSubSig 1)).

(** count(0) + count(1) == 3 and matches(0) + matches(1) == 2 become one node. *)
Lemma connectives_sound_witness :
  getAnd keep keep [getEQ sum01 3; getEQ uniq01 2; getSubSig 0]
    = Node LOG_AND ones ones
        [getSubSig 0; Node LOG_EQ 3 2 [Node LOG_ADDBOTH ones ones [getSubSig 0; getSubSig 1]]] /\
  truth demo_counts (getAnd keep keep [getEQ sum01 3; getEQ uniq01 2; getSubSig 0]) = true.
Proof.
  split; [vm_compute; reflexivity|].
  destruct (connectives_sound keep keep keep_perm keep_perm demo_counts
    [getEQ sum01 3; getEQ uniq01 2; getSubSig 0] ltac:(discriminate)) as [H _].
  unfold getAndSet in H. rewrite H; [vm_compute; reflexivity|]. clear H.
  intros n1 n2 H1 H2. vm_compute in H1, H2.
  repeat (apply elem_of_cons in H1 as [->|H1]; [|]); try (now apply not_elem_of_nil in H1);
  repeat (apply elem_of_cons in H2 as [->|H2]; [vm_compute; reflexivity|]);
  now apply not_elem_of_nil in H2.
Defined.

(** count(0) + 3 > 4 becomes count(0) > 1 (and count(0) < 2^32 - 3). *)
Lemma comparisons_sound_witness :
  truth demo_counts (getGT keep keep cr_min cr_max (getAddConst (getSubSig 0) 3) 4) = true.
Proof.
  destruct (comparisons_sound keep keep cr_min cr_max keep_perm keep_perm cr_laws demo_counts
    demo_counts_u32 false (getSubSig 0) 3 4 eq_refl ltac:(in_range) ltac:(in_range))
    as (_ & H & _).
  unfold getGT. rewrite (H eq_refl ltac:(discriminate)). vm_compute. reflexivity.
Defined.

Lemma getNot_sound_witness :
  let n := Node LOG_OR ones ones [getEQ sum01 3; Node LOG_LT 5 ones [getSubSig 1]] in
  truth demo_counts (getNot keep keep cr_min cr_max n) = false.
Proof.
  cbv zeta.
  rewrite (getNot_sound keep keep cr_min cr_max keep_perm keep_perm demo_counts demo_counts_u32
    (Node LOG_OR ones ones [getEQ sum01 3; Node LOG_LT 5 ones [getSubSig 1]]) eq_refl).
  vm_compute. reflexivity.
Defined.

(** count(0) + 1 < 5: the solutions wrap around, their unsigned bounds are 0
    and 2^32 - 1, and the comparison is compiled to TRUE. *)
Lemma less_than_wraps :
  getLT keep keep cr_min cr_max (getAddConst (getSubSig 0) 1) 5 = getTrue /\
  val (fun _ => 7) (getAddConst (getSubSig 0) 1) = 8.
Proof. vm_compute. auto. Qed.

(** (count(0) + 1) + (count(1) + 2) is compiled with the first constant twice. *)
Lemma add_constants_twice :
  val demo_counts (getAdd (getAddConst (getSubSig 0) 1) (getAddConst (getSubSig 1) 2)) = 7 /\
  demo_counts 0 + 1 + (demo_counts 1 + 2) = 6.
Proof. vm_compute. auto. Qed.

(** matches(0) + matches(1) == 2 is =2,2; its negation compares the sum. *)
Lemma not_uniq_compares_sum :
  let n := getEQ uniq01 2 in
  truth demo_counts n = true /\ truth demo_counts (getNot keep keep cr_min cr_max n) = true.
Proof. vm_compute. auto. Qed.

(** count(0) + count(1) == 2 together with matches(0) + matches(1) == 2 is
    merged to =2,2, which is the second comparison alone. *)
Lemma merge_loses_sum :
  getAnd keep keep [getEQ sum01 2; getEQ uniq01 2] = getEQ uniq01 2 /\
  truth demo_counts (getEQ sum01 2) = false /\ truth demo_counts (getEQ uniq01 2) = true.
Proof. vm_compute. auto. Qed.

(** Negating count(0) + count(1) == 0 yields the sum itself, which cannot be
    negated again: the assertion in [getNot] fails. *)
Lemma not_sum_asserts :
  let n := getNot keep keep cr_min cr_max (getEQ sum01 0) in
  getNot keep keep cr_min cr_max n = Null.
Proof. vm_compute. auto. Qed.

(** No operands: TRUE, for a disjunction too. *)
Lemma getOrSet_empty : getOrSet keep [] = getTrue.
Proof. reflexivity. Qed.
