(* ===== verification/LogicalCompile.v ===== *)
(** * LogicalCompile: from the trigger function to the logical signature

    The second half of libclambcc/ClamBCLogicalCompiler.cpp: class
    LogicalCompiler walks the blocks of logical_trigger and maps its values to
    the nodes of Logical.v; node2String writes the expression; the pass checks
    and assembles the signature text. *)
From S2P Require Import Prelude Enums IR Logical.
From stdpp Require Import pretty.
Local Open Scope string_scope.
Local Open Scope Z_scope.

(** ** LLVM IR, as far as the compiler looks at it *)

Inductive operand := OConst (v : Z) | OId (x : string).

(** A pointer operand: a constant getelementptr, another constant expression,
    or anything else (a global itself, an instruction). *)
Inductive address :=
| ConstGEP (base : string) (indices : list Z)
| ConstOther
| NotConstExpr (name : string).

Inductive instr :=
| Skipped                                        (* debug intrinsics, allocas *)
| Load (x : string) (p : address)
| ICmp (x : string) (pred : cmp_predicate) (a b : operand)
| Select (x : string) (c t f : operand)
| Add (x : string) (a b : operand)
| And (x : string) (a b : operand)
| Or (x : string) (a b : operand)
| Xor (x : string) (a b : operand)
| ZExt (x : string) (a : operand) (from to : Z)
| Phi (x : string) (incoming : list (operand * string))
| BrCond (c : operand) (t f : string)
| Br (l : string)
| Ret (a : operand)
| OtherInstr.

Record block := { b_name : string; b_instrs : list instr }.

(** The terminator of a block. *)
Definition terminator (b : block) : option instr := last (b_instrs b).
Definition find_block (bs : list block) (l : string) : option block :=
  List.find (fun b => String.eqb (b_name b) l) bs.

Definition GV : string := "__clambc_match_counts".

(** ** The compiler's state *)

(** Map; the exit nodes. Stack is empty between instructions. *)
Record cstate := {
  nodes : list (string * LogicalNode);
  exitNodesOr : list LogicalNode;
  exitNodesAnd : list LogicalNode
}.

Definition find_node (st : cstate) (o : operand) : option LogicalNode :=
  match o with OConst _ => None | OId x => Enums.assoc x (nodes st) end.
Definition set_node (x : string) (n : LogicalNode) (st : cstate) : cstate :=
  {| nodes := (x, n) :: nodes st; exitNodesOr := exitNodesOr st; exitNodesAnd := exitNodesAnd st |}.

(** What one instruction does to the loop of processBB. *)
Inductive step :=
| Next (ok : bool) (st : cstate)          (* valid &= ok, go on *)
| Return (ok : bool) (st : cstate).       (* leave the loop *)

Section compiler.
Context (set_order : list LogicalNode -> list LogicalNode)
        (map_order : list (LogicalNode * list LogicalNode) -> list (LogicalNode * list LogicalNode))
        (range_min range_max : bool -> Z -> Z -> Z).

Definition and_ (v : list LogicalNode) : LogicalNode := getAnd set_order map_order v.
Definition or_ (v : list LogicalNode) : LogicalNode := getOr set_order v.
Definition gt_ : LogicalNode -> Z -> LogicalNode := getGT set_order map_order range_min range_max.
Definition lt_ : LogicalNode -> Z -> LogicalNode := getLT set_order map_order range_min range_max.

Local Open Scope outcome_scope.

(** Where [getNot] does not run into its assertion. *)
Fixpoint negatable (n : LogicalNode) : bool :=
  match n with
  | Node (LOG_SUBSIGNATURE | LOG_EQ | LOG_GT | LOG_LT | LOG_NOT | LOG_TRUE | LOG_FALSE) _ _ _ => true
  | Node (LOG_AND | LOG_OR) _ _ ch => forallb negatable ch
  | _ => false
  end.
(** A null node is dereferenced. *)
Definition deref (n : LogicalNode) : outcome LogicalNode :=
  match n with Null => Undefined "null node" | _ => Done n end.
Definition not_ (n : LogicalNode) : outcome LogicalNode :=
  let* n := deref n in
  if negatable n then Done (getNot set_order map_order range_min range_max n)
  else AssertFailed "Invalid negation operation".

Definition processLoad (x : string) (p : address) (st : cstate) : step :=
  match p with
  | ConstGEP base [i0; i1] =>
      if String.eqb base GV && (i0 =? 0) then Next true (set_node x (getSubSig i1) st)
      else Next false st
  | ConstGEP _ _ | ConstOther => Next false st
  | NotConstExpr _ => Next true (set_node x (getSubSig 0) st)
  end.

(** [Map.find(V)->second] of a value that has no entry. *)
Definition found (o : option LogicalNode) : outcome LogicalNode :=
  match o with Some n => Done n | None => Undefined "no node" end.

Definition is_const (o : operand) : bool := match o with OConst _ => true | _ => false end.

Definition processICmp (x : string) (pred : cmp_predicate) (a b : operand) (st : cstate)
    : outcome step :=
  let '(a, b) := if is_const a then (b, a) else (a, b) in
  match b with
  | OId _ => Done (Next false st)
  | OConst v =>
      let rhs := u32 v in
      if negb (v =? rhs) then Done (Next false st) else
      match find_node st a with
      | None => Done (Next false st)
      | Some n =>
          match pred with
          | ICMP_EQ => let* n := deref n in Done (Next true (set_node x (getEQ n rhs) st))
          | ICMP_NE =>
              let* n := deref n in
              let* m := not_ (getEQ n rhs) in Done (Next true (set_node x m st))
          | ICMP_UGT => let* n := deref n in Done (Next true (set_node x (gt_ n rhs) st))
          | ICMP_UGE =>
              if rhs =? 0 then Done (Next false st)
              else let* n := deref n in Done (Next true (set_node x (gt_ n (rhs - 1)) st))
          | ICMP_ULT => let* n := deref n in Done (Next true (set_node x (lt_ n rhs) st))
          | ICMP_ULE =>
              if rhs =? ones then Done (Next false st)
              else let* n := deref n in Done (Next true (set_node x (lt_ n (rhs + 1)) st))
          | _ => Done (Next false st)
          end
      end
  end.

(** ** Phi nodes: the paths from the entry *)

(** A branch taken: the block, its condition if it has one, the direction. *)
Record hop := { h_block : string; h_cond : option operand; h_true : bool }.

Fixpoint populateRoutes (fuel : nat) (bs : list block) (curr end_ : string)
    (routes : list (list hop)) (idx : nat) : list (list hop) :=
  match fuel with
  | O => routes
  | S fuel =>
      if String.eqb curr end_ then routes
      else if existsb (fun h => String.eqb (h_block h) curr) (nth idx routes []) then routes
      else
        match (b ← find_block bs curr; terminator b) with
        | Some (BrCond c t f) =>
            let falseIdx := length routes in
            let route := nth idx routes [] in
            let routes := alter (fun r => r ++ [{| h_block := curr; h_cond := Some c; h_true := true |}])%list
                                idx routes in
            let routes := (routes ++
              [route ++ [{| h_block := curr; h_cond := Some c; h_true := false |}]])%list in
            let routes := populateRoutes fuel bs t end_ routes idx in
            populateRoutes fuel bs f end_ routes falseIdx
        | Some (Br l) =>
            let routes := alter (fun r => r ++ [{| h_block := curr; h_cond := None; h_true := true |}])%list
                                idx routes in
            populateRoutes fuel bs l end_ routes idx
        | _ => routes
        end
  end.

Definition findRoute (l : string) (routes : list (list hop)) : list (list hop) :=
  List.filter (fun r => match last r with Some h => String.eqb (h_block h) l | None => false end) routes.

Fixpoint getLogicalNode_from (st : cstate) (route : list hop) (ret : LogicalNode)
    : outcome LogicalNode :=
  match route with
  | [] => Done ret
  | h :: route =>
      match h_cond h with
      | None => getLogicalNode_from st route ret
      | Some c =>
          let* ln := found (find_node st c) in
          let* ln := (if h_true h then Done ln else not_ ln) in
          let* ret := match ret with
                      | Null => Done ln
                      | _ => let* ln := deref ln in Done (and_ [ret; ln])
                      end in
          getLogicalNode_from st route ret
      end
  end.
Definition getLogicalNode (st : cstate) (route : list hop) : outcome LogicalNode :=
  getLogicalNode_from st route Null.

Fixpoint phi_routes (st : cstate) (v : operand) (rs : list (list hop)) (ln : LogicalNode)
    : outcome LogicalNode :=
  match rs with
  | [] => Done ln
  | r :: rs =>
      let* tmp := getLogicalNode st r in
      let* tmp := (if is_const v then Done tmp else
                     let* l := found (find_node st v) in
                     let* tmp := deref tmp in let* l := deref l in Done (and_ [tmp; l])) in
      let* ln := match ln with
                 | Null => Done tmp
                 | _ => let* tmp := deref tmp in Done (or_ [ln; tmp])
                 end in
      phi_routes st v rs ln
  end.

Fixpoint phi_incoming (st : cstate) (routes : list (list hop)) (inc : list (operand * string))
    (ln : LogicalNode) : outcome LogicalNode :=
  match inc with
  | [] => Done ln
  | (v, l) :: inc =>
      match v with
      | OConst 0 => phi_incoming st routes inc ln
      | _ => let* ln := phi_routes st v (findRoute l routes) ln in
             phi_incoming st routes inc ln
      end
  end.

Definition processPHI (bs : list block) (here : string) (x : string)
    (inc : list (operand * string)) (st : cstate) : outcome cstate :=
  let start := match bs with b :: _ => b_name b | [] => "" end in
  let routes := populateRoutes (S (length bs)) bs start here [[]] 0 in
  let* ln := phi_incoming st routes inc Null in
  Done (set_node x ln st).

(** ** Instructions and blocks *)

(** One arm under its condition: [None] is a constant that is no truth value,
    [Some None] the constant false, which adds nothing. *)
Definition select_arm (cn : LogicalNode) (o : operand) (n : option LogicalNode)
    : outcome (option (option LogicalNode)) :=
  match n, o with
  | Some n, _ => let* cn := deref cn in let* n := deref n in Done (Some (Some (and_ [cn; n])))
  | None, OConst v =>
      if v =? 1 then let* cn := deref cn in Done (Some (Some cn))
      else Done (if v =? 0 then Some None else None)
  | None, OId _ => Undefined "cast to ConstantInt"
  end.

Definition processSelect (x : string) (c t f : operand) (st : cstate) : outcome step :=
  match find_node st c, find_node st t, find_node st f with
  | None, _, _ | _, None, None => Done (Return false st)
  | Some cn, tn, fn =>
      let* n := select_arm cn t tn in
      match n with
      | None => Done (Return false st)
      | Some n =>
          let* nc := not_ cn in
          let* n2 := select_arm nc f fn in
          match n2, n with
          | None, _ => Done (Return false st)
          | Some (Some n2), Some n => Done (Next true (set_node x (or_ [n; n2]) st))
          | Some None, Some n | Some (Some n), None => Done (Next true (set_node x n st))
          | Some None, None => Done (Return false st)
          end
      end
  end.

Definition processRet (a : operand) (st : cstate) : outcome step :=
  match a with
  | OConst v =>
      if v =? 0 then
        let* n := not_ getTrue in
        Done (Next true {| nodes := nodes st; exitNodesOr := exitNodesOr st ++ [n];
                           exitNodesAnd := exitNodesAnd st |}%list)
      else
        Done (Next true {| nodes := nodes st; exitNodesOr := exitNodesOr st;
                           exitNodesAnd := exitNodesAnd st ++ [getTrue] |}%list)
  | OId _ =>
      match find_node st a with
      | None => Done (Return false st)
      | Some n =>
          let* n := deref n in
          Done (Next true {| nodes := nodes st; exitNodesOr := exitNodesOr st ++ [and_ [n]];
                             exitNodesAnd := exitNodesAnd st |}%list)
      end
  end.

Definition processAdd (x : string) (a b : operand) (st : cstate) : outcome step :=
  match find_node st a with
  | None => Done (Return false st)
  | Some n =>
      match b with
      | OConst v => let* n := deref n in Done (Next true (set_node x (getAddConst n v) st))
      | OId _ =>
          match find_node st b with
          | None => Done (Return false st)
          | Some m =>
              let* n := deref n in let* m := deref m in
              match getAdd n m with
              | Null => Done (Return false st)
              | s => Done (if checkUniq s then Next true (set_node x s st) else Return false st)
              end
          end
      end
  end.

(** One iteration of the loop of processBB, in block [here]. *)
Definition processInstr (bs : list block) (here : string) (i : instr) (st : cstate) : outcome step :=
  match i with
  | Skipped => Done (Next true st)
  | Load x p => Done (processLoad x p st)
  | ICmp x pred a b => processICmp x pred a b st
  | Select x c t f => processSelect x c t f st
  | Add x a b => processAdd x a b st
  | And x a b =>
      match find_node st a, find_node st b with
      | Some n, Some m => let* n := deref n in let* m := deref m in
                          Done (Next true (set_node x (and_ [n; m]) st))
      | _, _ => Done (Return false st)
      end
  | Or x a b =>
      match find_node st a, find_node st b with
      | Some n, Some m => let* n := deref n in let* m := deref m in
                          Done (Next true (set_node x (or_ [n; m]) st))
      | _, _ => Done (Return false st)
      end
  | Xor x a b =>
      match b with
      | OConst 1 =>
          match find_node st a with
          | Some n => let* m := not_ n in Done (Next true (set_node x m st))
          | None => Done (Return false st)
          end
      | _ => Done (Return false st)
      end
  | ZExt x a from to =>
      match find_node st a with
      | None => Done (Return false st)
      | Some n => if negb (from =? 1) || negb (to =? 32) then Done (Return false st)
                  else let* n := deref n in Done (Next true (set_node x (getUniqueSigs n) st))
      end
  | Phi x inc => let* st := processPHI bs here x inc st in Done (Next true st)
  | BrCond c _ _ =>
      match find_node st c with
      | None => Done (Return false st)
      | Some n => let* _ := not_ n in Done (Next true st)
      end
  | Br _ => Done (Return true st)
  | Ret a => processRet a st
  | OtherInstr => Done (Return false st)
  end.

Fixpoint processBB (bs : list block) (here : string) (is_ : list instr) (valid : bool)
    (st : cstate) : outcome (bool * cstate) :=
  match is_ with
  | [] => Done (valid, st)
  | i :: is_ =>
      let* r := processInstr bs here i st in
      match r with
      | Next ok st => processBB bs here is_ (valid && ok) st
      | Return ok st => Done (ok, st)
      end
  end.

Fixpoint processBlocks (bs todo : list block) (st : cstate) : outcome (option cstate) :=
  match todo with
  | [] => Done (Some st)
  | b :: todo =>
      let* r := processBB bs (b_name b) (b_instrs b) true st in
      let '(ok, st) := r in
      if ok : bool then processBlocks bs todo st else Done None
  end.

(** LogicalCompiler::compile; [None] is the null node. *)
Definition compile (bs : list block) : outcome (option LogicalNode) :=
  let* r := processBlocks bs bs {| nodes := []; exitNodesOr := []; exitNodesAnd := [] |} in
  match r with
  | None => Done None
  | Some st =>
      Done (Some (and_ [getOrSet set_order (exitNodesOr st);
                        getAndSet set_order map_order (exitNodesAnd st)]))
  end.
End compiler.

(** ** What the trigger function computes

    The meaning of a trigger function without branches, as LLVM defines it: its
    i32 values are match counts and their sums modulo 2^32, its i1 values
    conditions. [None] is an instruction that has no meaning here. *)

Inductive ir_value := I1 (b : bool) | I32 (z : Z).

Section semantics.
Context (counts : Z -> Z).
Abbreviation env := (gmap string ir_value).

Definition eval_int (e : env) (o : operand) : option Z :=
  match o with
  | OConst v => if in_ub 32 v then Some v else None
  | OId x => match e !! x with Some (I32 z) => Some z | _ => None end
  end.
Definition eval_bool (e : env) (o : operand) : option bool :=
  match o with
  | OConst v => if v =? 1 then Some true else if v =? 0 then Some false else None
  | OId x => match e !! x with Some (I1 b) => Some b | _ => None end
  end.

(** A match count is read from its array of 64 elements. *)
Definition load_count (p : address) : option Z :=
  match p with
  | ConstGEP base [0; i] => if String.eqb base GV && in_ub 6 i then Some (counts i) else None
  | NotConstExpr name => if String.eqb name GV then Some (counts 0) else None
  | _ => None
  end.

Definition compare (pred : cmp_predicate) (a b : Z) : bool :=
  match pred with
  | ICMP_EQ => a =? b | ICMP_NE => negb (a =? b)
  | ICMP_UGT => b <? a | ICMP_UGE => b <=? a | ICMP_ULT => a <? b | ICMP_ULE => a <=? b
  | ICMP_SGT => s32 b <? s32 a | ICMP_SGE => s32 b <=? s32 a
  | ICMP_SLT => s32 a <? s32 b | ICMP_SLE => s32 a <=? s32 b
  end.

(** The variable an instruction defines and its value. *)
Definition exec_instr (e : env) (i : instr) : option (option (string * ir_value)) :=
  match i with
  | Skipped => Some None
  | Load x p => z ← load_count p; Some (Some (x, I32 z))
  | ICmp x pred a b =>
      m ← eval_int e a; n ← eval_int e b; Some (Some (x, I1 (compare pred m n)))
  | Select x c t f =>
      b ← eval_bool e c; m ← eval_bool e t; n ← eval_bool e f;
      Some (Some (x, I1 (if b : bool then m else n)))
  | Add x a b => m ← eval_int e a; n ← eval_int e b; Some (Some (x, I32 (u32 (m + n))))
  | And x a b => m ← eval_bool e a; n ← eval_bool e b; Some (Some (x, I1 (m && n)))
  | Or x a b => m ← eval_bool e a; n ← eval_bool e b; Some (Some (x, I1 (m || n)))
  | Xor x a b => m ← eval_bool e a; n ← eval_bool e b; Some (Some (x, I1 (xorb m n)))
  | ZExt x a from to =>
      if (from =? 1) && (to =? 32) then m ← eval_bool e a; Some (Some (x, I32 (b2z m))) else None
  | _ => None
  end.

(** The function's result. *)
Fixpoint exec (e : env) (l : list instr) : option bool :=
  match l with
  | [] => None
  | [Ret a] => eval_bool e a
  | i :: l =>
      r ← exec_instr e i;
      exec (match r with Some (x, v) => <[x:=v]> e | None => e end) l
  end.
End semantics.

(** ** Where the translation is exact

    The conditions the expressions of Logical.v need, checked along the
    translation: sums whose constant does not wrap around in a comparison, no
    negation of numbers of different matches, no conjunction of an =X with an
    =X,X of the same sum, an ordered comparison with its constant on the right. *)

Section soundness.
Local Open Scope outcome_scope.
Context (set_order : list LogicalNode -> list LogicalNode)
        (map_order : list (LogicalNode * list LogicalNode) -> list (LogicalNode * list LogicalNode))
        (range_min range_max : bool -> Z -> Z -> Z).
Abbreviation and_ := (and_ set_order map_order).
Abbreviation or_ := (or_ set_order).
Abbreviation gt_ := (gt_ set_order map_order range_min range_max).
Abbreviation lt_ := (lt_ set_order map_order range_min range_max).
Abbreviation getNot := (getNot set_order map_order range_min range_max).
Abbreviation not_ := (not_ set_order map_order range_min range_max).
Abbreviation processInstr := (processInstr set_order map_order range_min range_max).
Abbreviation processBB := (processBB set_order map_order range_min range_max).
Abbreviation processICmp := (processICmp set_order map_order range_min range_max).
Abbreviation processSelect := (processSelect set_order map_order range_min range_max).
Abbreviation processRet := (processRet set_order map_order range_min range_max).
Abbreviation compile := (compile set_order map_order range_min range_max).
Abbreviation getOrSet := (getOrSet set_order).
Abbreviation getAndSet := (getAndSet set_order map_order).

Definition no_clashb (v : list LogicalNode) : bool :=
  forallb (fun n1 => forallb (fun n2 => negb (clash n1 n2)) (pops v)) (pops v).

Definition constant (n : LogicalNode) : Z := if is_kind LOG_ADD n then op0 n else 0.
Definition safe_eq (n : LogicalNode) (v : Z) : bool := negb (u32 (v - constant n) =? ones).
Definition safe_order (lt : bool) (n : LogicalNode) (v : Z) : bool :=
  negb (is_kind LOG_ADD n) || (v =? 0) || no_wrap lt v (constant n).

Definition safe_compare (swapped : bool) (pred : cmp_predicate) (n : LogicalNode) (v : Z) : bool :=
  match pred with
  | ICMP_EQ => safe_eq n v
  | ICMP_NE => safe_eq n v && plain (getEQ n v)
  | ICMP_UGT => negb swapped && safe_order false n v
  | ICMP_UGE => negb swapped && safe_order false n (v - 1)
  | ICMP_ULT => negb swapped && safe_order true n v
  | ICMP_ULE => negb swapped && safe_order true n (v + 1)
  | _ => true
  end.

Definition if_some {A} (o : option A) (f : A -> bool) : bool := match o with Some a => f a | None => true end.

Definition safe_instr (st : cstate) (i : instr) : bool :=
  match i with
  | ICmp _ pred a b =>
      let swapped := is_const a in
      let '(a, b) := if swapped then (b, a) else (a, b) in
      if_some (find_node st a) (fun n =>
        match b with OConst v => safe_compare swapped pred n v | OId _ => true end)
  | Select _ c t f =>
      if_some (find_node st c) (fun cn =>
        plain cn && if_some (find_node st t) (fun tn => no_clashb [cn; tn])
        && if_some (find_node st f) (fun fn => no_clashb [getNot cn; fn]))
  | Add _ a b =>
      if_some (find_node st a) (fun n =>
        match b with OConst _ => count_node true n
                   | OId _ => if_some (find_node st b) (fun m => addable n m) end)
  | And _ a b => if_some (find_node st a) (fun n => if_some (find_node st b) (fun m => no_clashb [n; m]))
  | Xor _ a _ => if_some (find_node st a) plain
  | Ret a =>
      if_some (find_node st a) (fun n => no_clashb [n]) &&
      match processRet a st with
      | Done (Next _ st) => no_clashb [getOrSet (exitNodesOr st); getAndSet (exitNodesAnd st)]
                            && no_clashb (exitNodesAnd st)
      | _ => true
      end
  | _ => true
  end.

Fixpoint safe (bs : list block) (here : string) (l : list instr) (st : cstate) : bool :=
  match l with
  | [] => true
  | i :: l =>
      safe_instr st i &&
      match processInstr bs here i st with
      | Done (Next true st) => safe bs here l st
      | _ => true
      end
  end.
Definition start : cstate := {| nodes := []; exitNodesOr := []; exitNodesAnd := [] |}.

(** ** The relation between values and nodes *)

Context (set_order_perm : forall l, Permutation (set_order l) l)
        (map_order_perm : forall l, Permutation (map_order l) l)
        (ranges : range_laws range_min range_max)
        (counts : Z -> Z) (counts_u32 : forall i, in_u 32 (counts i)).
Abbreviation truth := (truth counts).
Abbreviation val := (val counts).

Definition denotes (n : LogicalNode) (v : ir_value) : Prop :=
  match v with
  | I1 b => truth n = b
  | I32 z => val n = z /\ numeric n
  end.
Definition related (e : gmap string ir_value) (st : cstate) : Prop :=
  forall x v, e !! x = Some v -> exists n, find_node st (OId x) = Some n /\ denotes n v.

Lemma no_clashb_spec v : no_clashb v = true -> no_clash v.
Proof.
  unfold no_clashb, no_clash. rewrite forallb_forall. intros H n1 n2 H1 H2.
  apply list_elem_of_In in H1, H2. specialize (H n1 H1). rewrite forallb_forall in H.
  specialize (H n2 H2). now apply negb_true_iff in H.
Qed.

Lemma related_set e st x v n :
  related e st -> denotes n v -> related (<[x:=v]> e) (set_node x n st).
Proof.
  intros H Hn y w Hy. unfold find_node. simpl. destruct (String.eqb_spec y x) as [->|Hne].
  - rewrite lookup_insert_eq in Hy. injection Hy as <-. eauto.
  - rewrite lookup_insert_ne in Hy by congruence. apply (H y w Hy).
Qed.

Lemma eval_bool_node e st x b : related e st -> eval_bool e (OId x) = Some b ->
  exists n, find_node st (OId x) = Some n /\ truth n = b.
Proof.
  intros H. simpl. destruct (e !! x) as [[c|?]|] eqn:E; try done. intros [= ->].
  apply (H x _ E).
Qed.
Lemma eval_int_node e st x z : related e st -> eval_int e (OId x) = Some z ->
  exists n, find_node st (OId x) = Some n /\ val n = z /\ numeric n.
Proof.
  intros H. simpl. destruct (e !! x) as [[c|?]|] eqn:E; try done. intros [= ->].
  apply (H x _ E).
Qed.
Lemma eval_int_range e o z : eval_int e o = Some z -> (forall x, o <> OId x) -> in_u 32 z.
Proof.
  destruct o; simpl; intros H Hx; [|now destruct (Hx x)].
  destruct (in_ub 32 v) eqn:E; [|done]. injection H as <-. now apply in_ub_spec.
Qed.

(** ** Comparisons *)

Abbreviation getLTGT := (getLTGT set_order map_order range_min range_max).

Lemma order_sound lt n v : numeric n -> in_u 32 v -> safe_order lt n v = true ->
  truth (getLTGT lt n v) = if lt then val n <? v else v <? val n.
Proof.
  intros [Hn|(off & c & -> & Ho & Hc)] Hv Hs.
  - apply (getLTGT_count set_order map_order range_min range_max counts counts_u32 lt true);
      [done|unfold in_u in Hv; lia].
  - unfold safe_order in Hs. cbn in Hs. destruct (Z.eqb_spec v 0) as [->|Hne].
    + pose proof (val_u32 counts counts_u32 (Node LOG_ADD off ones [c])) as Hr.
      cbn [Logical.getLTGT Z.eqb]. destruct lt; unfold in_u in Hr.
      * symmetry. apply Z.ltb_ge. lia.
      * change (truth (Node LOG_ADD off ones [c])) with (negb (val (Node LOG_ADD off ones [c]) =? 0)).
        destruct (Z.eqb_spec (val (Node LOG_ADD off ones [c])) 0) as [->|], (Z.ltb_spec 0 (val (Node LOG_ADD off ones [c])));
          try done; lia.
    + now apply getLTGT_add.
Qed.

Lemma eq_sound n v : numeric n -> in_u 32 v -> safe_eq n v = true ->
  truth (getEQ n v) = (val n =? v).
Proof.
  intros [Hn|(off & c & -> & Ho & Hc)] Hv Hs; unfold safe_eq, constant in Hs.
  - apply negb_true_iff, Z.eqb_neq in Hs. rewrite (count_not_add true n Hn), Z.sub_0_r, u32_id in Hs by done.
    apply (getEQ_count counts true); auto.
  - apply negb_true_iff, Z.eqb_neq in Hs. now apply getEQ_add.
Qed.

(** What [not_] returns. *)
Lemma not_done n m : not_ n = Done m -> m = getNot n.
Proof.
  unfold LogicalCompile.not_. destruct n as [|k a b ch]; [done|].
  change (deref (Node k a b ch)) with (Done (Node k a b ch)). cbv beta iota delta [obind].
  destruct (negatable (Node k a b ch)); [|done]. now intros [= <-].
Qed.
Lemma not_sound n m : plain n = true -> not_ n = Done m -> truth m = negb (truth n).
Proof.
  intros Hp ->%not_done.
  now apply (plain_getNot set_order map_order range_min range_max set_order_perm map_order_perm counts counts_u32).
Qed.
Lemma and_sound n m : no_clashb [n; m] = true -> truth (and_ [n; m]) = truth n && truth m.
Proof.
  intros H. unfold LogicalCompile.and_. rewrite getAnd_truth by auto using no_clashb_spec.
  simpl. now rewrite andb_true_r.
Qed.
Lemma or_sound n m : truth (or_ [n; m]) = truth n || truth m.
Proof. unfold LogicalCompile.or_. rewrite getOr_truth by done. simpl. now rewrite orb_false_r. Qed.

Lemma deref_bind {B} n (f : LogicalNode -> outcome B) r : obind (deref n) f = Done r -> f n = Done r.
Proof. now destruct n. Qed.

Definition same_exits (st st' : cstate) : Prop :=
  exitNodesOr st' = exitNodesOr st /\ exitNodesAnd st' = exitNodesAnd st.

(** The step went wrong, or it kept the relation. *)
Definition kept (e : gmap string ir_value) (st : cstate) (r : step) : Prop :=
  match r with
  | Next true st' => related e st' /\ same_exits st st'
  | Next false _ => True
  | Return ok _ => ok = false
  end.

Lemma kept_set e st x v n :
  related e st -> denotes n v -> kept (<[x:=v]> e) st (Next true (set_node x n st)).
Proof. intros. split; [now apply related_set|done]. Qed.

Lemma icmp_sound e st x swapped pred n v r : related e st -> numeric n -> in_u 32 v ->
  safe_compare swapped pred n v = true ->
  match pred with
  | ICMP_EQ => let* n := deref n in Done (Next true (set_node x (getEQ n v) st))
  | ICMP_NE => let* n := deref n in
               let* m := not_ (getEQ n v) in Done (Next true (set_node x m st))
  | ICMP_UGT => let* n := deref n in Done (Next true (set_node x (gt_ n v) st))
  | ICMP_UGE => if v =? 0 then Done (Next false st)
                else let* n := deref n in Done (Next true (set_node x (gt_ n (v - 1)) st))
  | ICMP_ULT => let* n := deref n in Done (Next true (set_node x (lt_ n v) st))
  | ICMP_ULE => if v =? ones then Done (Next false st)
                else let* n := deref n in Done (Next true (set_node x (lt_ n (v + 1)) st))
  | _ => Done (Next false st)
  end = Done r ->
  kept (<[x:=I1 (if swapped then compare pred v (val n) else compare pred (val n) v)]> e) st r.
Proof.
  intros Hrel Hn Hv Hs Hr.
  assert (E : forall m, truth m = (if swapped then compare pred v (val n) else compare pred (val n) v) ->
    kept (<[x:=I1 (if swapped then compare pred v (val n) else compare pred (val n) v)]> e) st
         (Next true (set_node x m st))) by (intros; now apply kept_set).
  destruct pred; simpl in Hs; try (injection Hr as <-; exact I).
  - apply deref_bind in Hr. injection Hr as <-. apply E. rewrite eq_sound by done.
    simpl. destruct swapped; [apply Z.eqb_sym|done].
  - apply andb_true_iff in Hs as [Hs Hp]. apply deref_bind in Hr.
    apply obind_Done in Hr as (m & Hm & Hr). injection Hr as <-. apply E.
    rewrite (not_sound _ _ Hp Hm), eq_sound by done.
    simpl. destruct swapped; [now rewrite Z.eqb_sym|done].
  - apply andb_true_iff in Hs as [Hsw Hs]. destruct swapped; [done|].
    apply deref_bind in Hr. injection Hr as <-. apply E. now apply (order_sound false).
  - apply andb_true_iff in Hs as [Hsw Hs]. destruct swapped; [done|].
    destruct (Z.eqb_spec v 0); [now injection Hr as <-|].
    apply deref_bind in Hr. injection Hr as <-. apply E. unfold LogicalCompile.gt_, getGT.
    rewrite order_sound by (try done; unfold in_u in *; lia). simpl. apply eq_true_iff_eq.
    rewrite Z.ltb_lt, Z.leb_le. lia.
  - apply andb_true_iff in Hs as [Hsw Hs]. destruct swapped; [done|].
    apply deref_bind in Hr. injection Hr as <-. apply E. now apply (order_sound true).
  - apply andb_true_iff in Hs as [Hsw Hs]. destruct swapped; [done|].
    destruct (Z.eqb_spec v ones) as [|Hne]; [now injection Hr as <-|].
    apply deref_bind in Hr. injection Hr as <-. apply E. unfold LogicalCompile.lt_, getLT.
    change ones with 4294967295 in Hne.
    rewrite order_sound by (try done; unfold in_u in *; pow2; lia). simpl. apply eq_true_iff_eq.
    rewrite Z.ltb_lt, Z.leb_le. lia.
Qed.

Lemma eval_const_inv e v z : eval_int e (OConst v) = Some z -> z = v /\ in_u 32 v.
Proof.
  simpl. destruct (in_ub 32 v) eqn:E; [|done]. intros [= <-]. now apply in_ub_spec in E.
Qed.

Lemma ICmp_sound e st x pred a b v w r : related e st ->
  eval_int e a = Some v -> eval_int e b = Some w ->
  safe_instr st (ICmp x pred a b) = true -> processICmp x pred a b st = Done r ->
  kept (<[x:=I1 (compare pred v w)]> e) st r.
Proof.
  intros Hrel Ha Hb Hs Hr. unfold LogicalCompile.processICmp in Hr. cbn [safe_instr] in Hs.
  destruct a as [c|a].
  - apply eval_const_inv in Ha as [-> Hc]. cbn [is_const] in *. cbv zeta iota beta in *.
    destruct b as [d|b]; [now destruct (negb (c =? u32 c)); injection Hr as <-|].
    rewrite (u32_id c), Z.eqb_refl in Hr by done. cbv iota beta delta [negb] in Hr.
    destruct (eval_int_node e st b w Hrel Hb) as (n & Hf & <- & Hn).
    rewrite Hf in *. now apply (icmp_sound e st x true pred n c).
  - cbn [is_const] in *. cbv zeta iota beta in *.
    destruct b as [d|b]; [|now injection Hr as <-].
    apply eval_const_inv in Hb as [-> Hd].
    rewrite (u32_id d), Z.eqb_refl in Hr by done. cbv iota beta delta [negb] in Hr.
    destruct (eval_int_node e st a v Hrel Ha) as (n & Hf & <- & Hn).
    rewrite Hf in *. now apply (icmp_sound e st x false pred n d).
Qed.

(** A condition operand: a node, or a constant that has none. *)
Lemma eval_bool_cases e st o b : related e st -> eval_bool e o = Some b ->
  (exists n, find_node st o = Some n /\ truth n = b) \/
  (find_node st o = None /\ exists v, o = OConst v /\ ((v = 1 /\ b = true) \/ (v = 0 /\ b = false))).
Proof.
  intros H Hb. destruct o as [v|x].
  - right. split; [done|]. exists v. split; [done|]. simpl in Hb.
    destruct (Z.eqb_spec v 1); [injection Hb as <-; auto|].
    destruct (Z.eqb_spec v 0); [injection Hb as <-; auto|done].
  - left. destruct (eval_bool_node e st x b H Hb) as (n & ? & ?). eauto.
Qed.

Abbreviation select_arm := (select_arm set_order map_order).

Lemma arm_sound e st cn o b r : related e st -> eval_bool e o = Some b ->
  if_some (find_node st o) (fun n => no_clashb [cn; n]) = true ->
  select_arm cn o (find_node st o) = Done r ->
  match r with
  | Some (Some m) => truth m = truth cn && b
  | Some None => b = false
  | None => True
  end.
Proof.
  intros Hrel Hb Hs Hr. unfold LogicalCompile.select_arm in Hr.
  destruct (eval_bool_cases e st o b Hrel Hb) as [(n & E & Hn)|(E & v & -> & Hv)];
    rewrite E in *; cbn [if_some] in Hs.
  - do 2 apply deref_bind in Hr. injection Hr as <-. rewrite and_sound by done. now rewrite Hn.
  - destruct Hv as [[-> ->]|[-> ->]]; simpl in Hr.
    + apply deref_bind in Hr. injection Hr as <-. now rewrite andb_true_r.
    + now injection Hr as <-.
Qed.

Lemma Select_sound e st x c t f b1 b2 b3 r : related e st ->
  eval_bool e c = Some b1 -> eval_bool e t = Some b2 -> eval_bool e f = Some b3 ->
  safe_instr st (Select x c t f) = true -> processSelect x c t f st = Done r ->
  kept (<[x:=I1 (if b1 then b2 else b3)]> e) st r.
Proof.
  intros Hrel Hc Ht Hf Hs Hr. unfold LogicalCompile.processSelect in Hr. cbn [safe_instr] in Hs.
  destruct (eval_bool_cases e st c b1 Hrel Hc) as [(cn & Ec & <-)|(Ec & _)]; rewrite Ec in *;
    [|now injection Hr as <-].
  cbn [if_some] in Hs. rewrite !andb_true_iff in Hs. destruct Hs as [[Hp Hs1] Hs2].
  assert (E : forall m, truth m = (if truth cn then b2 else b3) ->
    kept (<[x:=I1 (if truth cn then b2 else b3)]> e) st (Next true (set_node x m st)))
    by (intros; now apply kept_set).
  pose proof (arm_sound e st cn t b2) as At.
  destruct (find_node st t) as [tn|] eqn:Et; destruct (find_node st f) as [fn|] eqn:Ef;
    try (injection Hr as <-; done);
  (apply obind_Done in Hr as (n & Hn & Hr);
   apply At in Hn; [|done|done|done]; destruct n as [n|]; [|now injection Hr as <-];
   apply obind_Done in Hr as (nc & Hnc & Hr);
   pose proof (not_sound _ _ Hp Hnc) as HN; rewrite <- (not_done _ _ Hnc) in Hs2;
   apply obind_Done in Hr as (n2 & Hn2 & Hr);
   pose proof (arm_sound e st nc f b3 n2 Hrel Hf) as Af; rewrite ?Ef in Af;
   specialize (Af Hs2 Hn2);
   destruct n2 as [[n2|]|]; [| |now injection Hr as <-]; destruct n as [n|]; injection Hr as <-;
   try done; apply E; rewrite ?or_sound, ?Hn, ?Af, ?HN;
   destruct (truth cn), b2, b3; simpl; congruence).
Qed.

Abbreviation processAdd := processAdd.

Lemma Add_sound e st x a b v w r : related e st ->
  eval_int e a = Some v -> eval_int e b = Some w ->
  safe_instr st (Add x a b) = true -> processAdd x a b st = Done r ->
  kept (<[x:=I32 (u32 (v + w))]> e) st r.
Proof.
  intros Hrel Ha Hb Hs Hr. unfold LogicalCompile.processAdd in Hr. cbn [safe_instr] in Hs.
  destruct a as [c|a]; [now injection Hr as <-|].
  destruct (eval_int_node e st a v Hrel Ha) as (n & En & <- & Hn). rewrite En in *. cbn [if_some] in Hs.
  destruct b as [d|b].
  - apply eval_const_inv in Hb as [-> Hd]. apply deref_bind in Hr. injection Hr as <-.
    apply kept_set; [done|]. unfold getAddConst. rewrite (u32_id d) by done.
    split; [reflexivity|]. right. unfold addend. eauto.
  - destruct (eval_int_node e st b w Hrel Hb) as (m & Em & <- & Hm). rewrite Em in *. cbn [if_some] in Hs.
    do 2 apply deref_bind in Hr. destruct (getAdd n m) as [|k p q ch] eqn:E; [now injection Hr as <-|].
    destruct (checkUniq _); injection Hr as <-; [|done]. apply kept_set; [done|].
    rewrite <- E. destruct (getAdd_val counts n m Hn Hm Hs) as [H1 H2]; [now rewrite E|].
    split; done.
Qed.

Lemma Load_sound e st x p z : related e st -> load_count counts p = Some z ->
  kept (<[x:=I32 z]> e) st (processLoad x p st).
Proof.
  intros Hrel Hz. unfold load_count in Hz.
  assert (E : forall i, in_u 32 i -> kept (<[x:=I32 (counts i)]> e) st (Next true (set_node x (getSubSig i) st))).
  { intros i Hi. apply kept_set; [done|]. unfold getSubSig. rewrite u32_id by done.
    split; [reflexivity|left; done]. }
  destruct p as [base [|[| |] [|i [|]]]| |name]; try done.
  - unfold processLoad. destruct (String.eqb base GV); [|done].
    destruct (in_ub 6 i) eqn:Ei; [|done]. injection Hz as <-. apply E.
    apply in_ub_spec in Ei. unfold in_u in *. lia.
  - unfold processLoad. destruct (String.eqb name GV); [|done]. injection Hz as <-. apply E. in_range.
Qed.

Definition bind_value (d : option (string * ir_value)) (e : gmap string ir_value) : gmap string ir_value :=
  match d with Some (x, v) => <[x:=v]> e | None => e end.

(** An instruction that gives a variable a value gives it a node that denotes
    the value, or is rejected. *)
Lemma instr_sound bs here e st i d r : related e st -> exec_instr counts e i = Some d ->
  safe_instr st i = true -> processInstr bs here i st = Done r -> kept (bind_value d e) st r.
Proof.
  intros Hrel He Hs Hr.
  destruct i as [|x p|x pred a b|x c t f|x a b|x a b|x a b|x a b|x a from to|x inc|c t f|l|a|];
    try discriminate He.
  - injection He as <-. injection Hr as <-. done.
  - cbn in He. destruct (load_count counts p) as [z|] eqn:E; [|done].
    injection He as <-. injection Hr as <-. now apply Load_sound.
  - cbn in He. destruct (eval_int e a) as [v|] eqn:Ea; [|done].
    destruct (eval_int e b) as [w|] eqn:Eb; [|done]. injection He as <-.
    now apply (ICmp_sound e st x pred a b).
  - cbn in He. destruct (eval_bool e c) as [b1|] eqn:Ec; [|done].
    destruct (eval_bool e t) as [b2|] eqn:Et; [|done].
    destruct (eval_bool e f) as [b3|] eqn:Ef; [|done]. injection He as <-.
    now apply (Select_sound e st x c t f).
  - cbn in He. destruct (eval_int e a) as [v|] eqn:Ea; [|done].
    destruct (eval_int e b) as [w|] eqn:Eb; [|done]. injection He as <-.
    now apply (Add_sound e st x a b).
  - cbn in He. destruct (eval_bool e a) as [p|] eqn:Ea; [|done].
    destruct (eval_bool e b) as [q|] eqn:Eb; [|done]. injection He as <-. cbn in Hr, Hs.
    destruct (eval_bool_cases e st a p Hrel Ea) as [(n & En & <-)|(En & _)]; rewrite En in *; [|now injection Hr as <-].
    destruct (eval_bool_cases e st b q Hrel Eb) as [(m & Em & <-)|(Em & _)]; rewrite Em in *; [|now injection Hr as <-].
    do 2 apply deref_bind in Hr. injection Hr as <-. apply kept_set; [done|]. now apply and_sound.
  - cbn in He. destruct (eval_bool e a) as [p|] eqn:Ea; [|done].
    destruct (eval_bool e b) as [q|] eqn:Eb; [|done]. injection He as <-. cbn in Hr.
    destruct (eval_bool_cases e st a p Hrel Ea) as [(n & En & <-)|(En & _)]; rewrite En in *; [|now injection Hr as <-].
    destruct (eval_bool_cases e st b q Hrel Eb) as [(m & Em & <-)|(Em & _)]; rewrite Em in *; [|now injection Hr as <-].
    do 2 apply deref_bind in Hr. injection Hr as <-. apply kept_set; [done|]. now apply or_sound.
  - cbn in He. destruct (eval_bool e a) as [p|] eqn:Ea; [|done].
    destruct (eval_bool e b) as [q|] eqn:Eb; [|done]. injection He as <-. cbn in Hr, Hs.
    destruct b as [[|[]|]|y]; try (injection Hr as <-; done). injection Eb as <-.
    destruct (eval_bool_cases e st a p Hrel Ea) as [(n & En & <-)|(En & _)]; rewrite En in *; [|now injection Hr as <-].
    apply obind_Done in Hr as (m & Hm & Hr). injection Hr as <-. apply kept_set; [done|].
    simpl. rewrite (not_sound _ _ Hs Hm). now destruct (truth n).
  - cbn in He. destruct (Z.eqb_spec from 1) as [->|]; [|done].
    destruct (Z.eqb_spec to 32) as [->|]; [|done].
    cbn in He. destruct (eval_bool e a) as [p|] eqn:Ea; [|done]. injection He as <-. cbn in Hr.
    destruct (eval_bool_cases e st a p Hrel Ea) as [(n & En & <-)|(En & _)]; rewrite En in *; [|now injection Hr as <-].
    apply deref_bind in Hr. injection Hr as <-. apply kept_set; [done|]. split; [|now left].
    simpl. rewrite Z.add_0_r. apply u32_id. destruct (truth n); in_range.
Qed.

(** Only an unconditional branch ends a block's translation successfully. *)
Ltac split_done H :=
  repeat (case_match; try discriminate H);
  repeat match type of H with
         | obind _ _ = Done _ => apply obind_Done in H as (? & ? & H); repeat (case_match; try discriminate H)
         end.

Lemma return_false bs here st i ok st' : (forall l, i <> Br l) ->
  processInstr bs here i st = Done (Return ok st') -> ok = false.
Proof.
  intros Hb H.
  destruct i; [..|now destruct (Hb l)| |]; cbn [LogicalCompile.processInstr] in H;
    unfold processLoad, LogicalCompile.processICmp, LogicalCompile.processSelect,
      LogicalCompile.processAdd, LogicalCompile.processRet in H;
    split_done H; congruence.
Qed.

Lemma rejected bs here e l st r ok st' : exec counts e l = Some r ->
  processBB bs here l false st = Done (ok, st') -> ok = false.
Proof.
  revert e st. induction l as [|i l IH]; intros e st He H; [done|].
  cbn [LogicalCompile.processBB] in H. apply obind_Done in H as (s & Hs & H).
  assert (Hb : forall x, i <> Br x) by (intros x ->; destruct l; done).
  destruct s as [ok' st1|ok' st1].
  - destruct i; try (cbn in He; destruct l; discriminate He);
      try (destruct l as [|j l]; [now injection H as <- _|discriminate He]);
      (destruct l as [|j l]; [now injection H as <- _|]); cbn [exec] in He;
      (apply bind_Some in He as (d & _ & He); now apply (IH _ _ He H)).
  - injection H as <- <-. now apply (return_false bs here st i ok' st1 Hb).
Qed.

(** ** The result *)

Definition no_exits (st : cstate) : Prop := exitNodesOr st = [] /\ exitNodesAnd st = [].
(** The node [compile] builds of the exits. *)
Definition result_node (st : cstate) : LogicalNode :=
  and_ [getOrSet (exitNodesOr st); getAndSet (exitNodesAnd st)].

Lemma Ret_sound e st a b r : related e st -> no_exits st -> eval_bool e a = Some b ->
  safe_instr st (Ret a) = true -> processRet a st = Done r ->
  match r with Next true st' => truth (result_node st') = b | Next false _ => True | Return ok _ => ok = false end.
Proof.
  intros Hrel [Ho Ha] Hb Hs Hr. cbn [safe_instr] in Hs. rewrite Hr in Hs.
  apply andb_true_iff in Hs as [Hs1 Hs2].
  destruct (eval_bool_cases e st a b Hrel Hb) as [(n & En & <-)|(En & v & -> & Hv)]; rewrite En in *.
  - unfold LogicalCompile.processRet in Hr. rewrite En in Hr.
    destruct a as [|x]; [done|]. apply deref_bind in Hr.
    rewrite Ho, Ha in Hr. injection Hr as <-. apply andb_true_iff in Hs2 as [Hs2 _].
    unfold result_node. rewrite and_sound by exact Hs2. cbn [exitNodesOr exitNodesAnd app].
    change (getAndSet []) with getTrue. change (truth getTrue) with true. rewrite andb_true_r.
    unfold Logical.getOrSet. rewrite getOr_truth by done. cbn [existsb]. rewrite orb_false_r.
    unfold LogicalCompile.and_. rewrite getAnd_truth; auto using no_clashb_spec.
    simpl. apply andb_true_r.
  - unfold LogicalCompile.processRet in Hr. rewrite Ho, Ha in Hr.
    destruct Hv as [[-> ->]|[-> ->]]; injection Hr as <-; apply andb_true_iff in Hs2 as [Hs2 Hs3];
      unfold result_node; rewrite and_sound by exact Hs2; cbn [exitNodesOr exitNodesAnd app] in *.
    + change (getOrSet []) with getTrue. unfold Logical.getAndSet.
      rewrite getAnd_truth; auto using no_clashb_spec.
    + reflexivity.
Qed.

Lemma exec_cons e i l r : exec counts e (i :: l) = Some r ->
  (exists a, i = Ret a /\ l = [] /\ eval_bool e a = Some r) \/
  exists d, exec_instr counts e i = Some d /\ exec counts (bind_value d e) l = Some r.
Proof.
  intros He.
  assert (D : (exists a, i = Ret a /\ l = []) \/
    exec counts e (i :: l) = (d ← exec_instr counts e i; exec counts (bind_value d e) l)).
  { destruct i; try (right; reflexivity). destruct l; [left; eauto|right; reflexivity]. }
  destruct D as [(a & -> & ->)|E]; [left; eauto|right].
  rewrite E in He. now apply bind_Some in He.
Qed.

Lemma body_sound bs here e l st r st' : related e st -> no_exits st -> exec counts e l = Some r ->
  safe bs here l st = true -> processBB bs here l true st = Done (true, st') ->
  truth (result_node st') = r.
Proof.
  revert e st. induction l as [|i l IH]; intros e st Hrel Hex He Hs H; [done|].
  cbn [safe] in Hs. apply andb_true_iff in Hs as [Hi Hs].
  cbn [LogicalCompile.processBB] in H. apply obind_Done in H as (s & Hp & H). rewrite Hp in Hs.
  apply exec_cons in He as [(a & -> & -> & Ha)|(d & Hd & He')].
  - pose proof (Ret_sound e st a r s Hrel Hex Ha Hi Hp) as HR.
    destruct s as [[] st1|ok st1]; cbn in H; [now injection H as <-|done|now subst].
  - pose proof (instr_sound bs here e st i d s Hrel Hd Hi Hp) as HK.
    destruct s as [[] st1|ok st1]; cbn in H, HK.
    + destruct HK as [Hrel1 [E1 E2]]. apply (IH (bind_value d e) st1); auto.
      unfold no_exits. now rewrite E1, E2.
    + now apply (rejected bs here (bind_value d e) l st1 r) in H.
    + now subst.
Qed.

(** C1: For a trigger function without branches, the expression [compile]
    accepts it with holds on given match counts exactly when the function,
    executed with the semantics of its LLVM instructions on those counts,
    returns true - provided the translation stays where its expressions are
    exact ([safe]). *)
Theorem compile_sound b r n :
  exec counts ∅ (b_instrs b) = Some r -> safe [b] (b_name b) (b_instrs b) start = true ->
  compile [b] = Done (Some n) -> truth n = r.
Proof.
  intros He Hs Hc. unfold LogicalCompile.compile in Hc. cbn [LogicalCompile.processBlocks] in Hc.
  apply obind_Done in Hc as (o & Ho & Hc). apply obind_Done in Ho as ([ok st] & Hp & Ho).
  destruct ok; injection Ho as <-; [|done]. injection Hc as <-.
  apply (body_sound [b] (b_name b) ∅ (b_instrs b) start r st); auto.
  - intros x v Hx. now rewrite lookup_empty in Hx.
  - done.
Qed.
End soundness.

(** ** Example functions *)

Abbreviation compile0 := (compile keep keep cr_min cr_max).
Definition subsig (x : string) (i : Z) : instr := Load x (ConstGEP GV [0; i]).

(** return count(0) > 1 && !(count(0) + count(1) + 5 == 9); *)
Definition demo_block : block := {|
  b_name := "entry";
  b_instrs := [ subsig "0" 0; ICmp "c" ICMP_UGT (OId "0") (OConst 1);
                subsig "1" 1; Add "s" (OId "0") (OId "1"); Add "t" (OId "s") (OConst 5);
                ICmp "d" ICMP_EQ (OId "t") (OConst 9); Xor "n" (OId "d") (OConst 1);
                Select "r" (OId "c") (OId "n") (OConst 0); Ret (OId "r") ] |}.
Definition demo_node : LogicalNode :=
  Node LOG_AND ones ones
    [Node LOG_OR ones ones
       [Node LOG_LT 4 ones [Node LOG_ADDBOTH ones ones [getSubSig 0; getSubSig 1]];
        Node LOG_GT 4 ones [Node LOG_ADDBOTH ones ones [getSubSig 0; getSubSig 1]]];
     Node LOG_GT 1 ones [getSubSig 0]].

Lemma compile_sound_witness :
  compile0 [demo_block] = Done (Some demo_node) /\ truth demo_counts demo_node = true.
Proof.
  split; [vm_compute; reflexivity|].
  apply (compile_sound keep keep cr_min cr_max keep_perm keep_perm cr_laws demo_counts demo_counts_u32
           demo_block true demo_node); vm_compute; reflexivity.
Defined.

(** 5 > count(0): the operands are exchanged, the predicate is not. *)
Definition swapped_block : block := {|
  b_name := "entry";
  b_instrs := [ subsig "0" 0; ICmp "c" ICMP_UGT (OConst 5) (OId "0"); Ret (OId "c") ] |}.
Lemma swapped_compare :
  compile0 [swapped_block] = Done (Some (Node LOG_GT 5 ones [getSubSig 0])) /\
  exec demo_counts ∅ (b_instrs swapped_block) = Some true /\
  truth demo_counts (Node LOG_GT 5 ones [getSubSig 0]) = false.
Proof. vm_compute. auto. Qed.

(** A pointer that is no constant expression is taken for the first count. *)
Lemma any_load_is_first_count :
  compile0 [{| b_name := "entry"; b_instrs :=
    [ Load "0" (NotConstExpr "__clambc_filesize"); ICmp "c" ICMP_UGT (OId "0") (OConst 5); Ret (OId "c") ] |}]
  = Done (Some (Node LOG_GT 5 ones [getSubSig 0])).
Proof. vm_compute. auto. Qed.

(** The conjunction of two counts is the bitwise one in the function and the
    logical one in the expression. *)
Lemma bitwise_and_is_logical :
  let e := compile0 [{| b_name := "entry"; b_instrs :=
    [ subsig "0" 0; subsig "1" 1; And "a" (OId "0") (OId "1"); ICmp "c" ICMP_UGT (OId "a") (OConst 0);
      Ret (OId "c") ] |}] in
  e = Done (Some (Node LOG_AND ones ones [getSubSig 1; getSubSig 0])) /\ Z.land 2 1 = 0.
Proof. vm_compute. auto. Qed.

(** if (count(0)) return true; return false; with two returns: the path to the
    second ends in the same block as the path to the phi, and both are taken. *)
Definition two_returns : list block :=
  [ {| b_name := "entry"; b_instrs :=
       [ subsig "0" 0; ICmp "c" ICMP_NE (OId "0") (OConst 0); BrCond (OId "c") "end" "out" ] |};
    {| b_name := "out"; b_instrs := [ Ret (OConst 0) ] |};
    {| b_name := "end"; b_instrs := [ Phi "r" [(OConst 1, "entry")]; Ret (OId "r") ] |} ].
Lemma routes_to_returns :
  match compile0 two_returns with Done (Some n) => truth (fun _ => 0) n | _ => false end = true.
Proof. vm_compute. reflexivity. Qed.

(** count(0) + (matches(0) + 2): the inner sum is not supported, and the node
    gets a null child. *)
Lemma null_summand :
  getAdd (getSubSig 0) (getAddConst (getUniqueSigs (getSubSig 0)) 2) = Node LOG_ADD 2 ones [Null].
Proof. vm_compute. reflexivity. Qed.

(** A failed comparison before an unconditional branch is forgotten. *)
Lemma rejection_forgotten :
  compile0 [ {| b_name := "entry"; b_instrs :=
    [ subsig "0" 0; ICmp "c" ICMP_SGT (OId "0") (OConst 5); Br "end" ] |};
    {| b_name := "end"; b_instrs := [ Ret (OConst 1) ] |} ] = Done (Some getTrue).
Proof. vm_compute. reflexivity. Qed.
