(* ===== verification/Signature.v ===== *)
(** * Signature: the text of the logical signature

    The rest of libclambcc/ClamBCLogicalCompiler.cpp: node2String prints the
    expression, validateNDB, validateVirusName and checkMinimum check the parts
    the author of the bytecode supplies, compileLogicalSignature assembles the
    text, compileVirusNames declares the names a bytecode may report and
    completes the ones it does report, and the pass puts them together.

    LLVM objects are the data the code reads of them: a global is what its
    initializer holds, a string constant is [None] where getConstantStringInfo
    fails. [getAsInteger] stands for StringRef::getAsInteger. *)
From S2P Require Import Prelude Enums IR Logical LogicalCompile.
From Stdlib Require Import Decimal DecimalString DecimalN Sorting.Sorted.
Local Open Scope string_scope.
Local Open Scope Z_scope.
Local Open Scope outcome_scope.
Local Set Warnings "-register-all".

(** ** Strings *)

(** Twine of an unsigned number. *)
Definition decimal (n : Z) : string := NilEmpty.string_of_uint (N.to_uint (Z.to_N n)).

Fixpoint find_char (p : ascii -> bool) (s : string) : option nat :=
  match s with
  | EmptyString => None
  | String c s => if p c then Some O else S <$> find_char p s
  end.
Fixpoint all_chars (p : ascii -> bool) (s : string) : bool :=
  match s with EmptyString => true | String c s => p c && all_chars p s end.
Definition take_str (n : nat) (s : string) : string := String.substring 0 n s.
Fixpoint drop_str (n : nat) (s : string) : string :=
  match n, s with S n, String _ s => drop_str n s | _, _ => s end.
Definition is_char (c d : ascii) : bool := Ascii.eqb c d.
Definition between (lo hi : Z) (c : ascii) : bool := (lo <=? code c) && (code c <=? hi).
Definition is_digit : ascii -> bool := between 48 57.
Definition isalnum (c : ascii) : bool := is_digit c || between 65 90 c || between 97 122 c.
Definition tolower (c : ascii) : ascii :=
  if between 65 90 c then ascii_of_N (Z.to_N (code c + 32)) else c.
Fixpoint map_str (f : ascii -> ascii) (s : string) : string :=
  match s with EmptyString => EmptyString | String c s => String (f c) (map_str f s) end.
Definition one_of (set : string) (c : ascii) : bool :=
  existsb (is_char c) (String.list_ascii_of_string set).

(** ** The expression *)

(** The loop over the children of a group. *)
Definition join_nodes (f : LogicalNode -> Z -> outcome (string * Z)) (sep : string) :=
  fix join (l : list LogicalNode) (groups : Z) : outcome (string * Z) :=
    match l with
    | [] => Done (EmptyString, groups)
    | [c] => f c groups
    | c :: l => let* r := f c groups in
                let* r' := join l (snd r) in
                Done (fst r ++ sep ++ fst r', snd r')
    end.

(** The text and the number of groups, from [groups]. *)
Fixpoint node2String (n : LogicalNode) (groups : Z) : outcome (string * Z) :=
  let compare_with :=
    fun (c : LogicalNode) (rest : string) (groups : Z) =>
      let* r := node2String c groups in Done ("(" ++ fst r ++ rest ++ ")", snd r) in
  match n with
  | Null => Undefined "null node"
  | Node k a b ch =>
      let group := fun (sep : string) =>
        let* r := join_nodes node2String sep ch (u32 (groups + 1)) in Done ("(" ++ fst r ++ ")", snd r) in
      match k with
      | LOG_SUBSIGNATURE => Done (decimal a, groups)
      | LOG_AND => group "&"
      | LOG_OR => group "|"
      | LOG_EQ | LOG_GT | LOG_LT =>
          match ch with
          | [] => Undefined "front of an empty vector"
          | c :: _ =>
              match k with
              | LOG_EQ => compare_with c (if b =? ones then "=" ++ decimal a else "=" ++ decimal a ++ "," ++ decimal b) groups
              | LOG_GT => compare_with c (">" ++ decimal a) (u32 (groups + 1))
              | _ => compare_with c ("<" ++ decimal a) (u32 (groups + 1))
              end
          end
      | LOG_ADDUNIQ | LOG_ADDSUM | LOG_ADDBOTH =>
          match ch with [c] => node2String c groups | _ => group "|" end
      | _ => AssertFailed "Invalid node kind"
      end
  end.

(** ** The patterns *)

Section parts.
Context (getAsInteger : string -> option Z).
Definition is_unsigned (s : string) : bool :=
  match getAsInteger s with Some _ => true | None => false end.

Definition pattern_char (c : ascii) : bool :=
  is_digit c || between 97 102 c || one_of "?*{}-()|![]BL" c.

(** The position of the first + or -. *)
Definition sign_position (offset : string) : option nat :=
  match find_char (is_char "+"%char) offset, find_char (is_char "-"%char) offset with
  | Some a, Some b => Some (Nat.min a b)
  | Some a, None | None, Some a => Some a
  | None, None => None
  end.

(** The anchors EP+n, EP-n, SL+n, Sx+n, EOF-n. *)
Definition valid_anchor (offset : string) : outcome bool :=
  match sign_position offset with
  | None => Done false
  | Some n1 =>
      let anchor := take_str n1 offset in
      let delta := drop_str (S n1) offset in
      let valid := is_unsigned delta in
      if negb (String.prefix "EOF-" offset) && negb (String.eqb anchor "EP") && negb (String.eqb anchor "SL")
      then match anchor with
           | EmptyString => AssertFailed "Invalid index!"
           | String "S" rest => Done (valid && is_unsigned rest)
           | _ => Done false
           end
      else Done valid
  end.

Definition validateNDB (s : string) : outcome bool :=
  match find_char (is_char ":"%char) s with
  | None => Done (all_chars pattern_char s)
  | Some offsetp =>
      let offset := take_str offsetp s in
      let '(valid, offset) :=
        match find_char (is_char ","%char) offset with
        | None => (true, offset)
        | Some floating =>
            if is_unsigned (drop_str (S floating) offset) then (true, take_str floating offset)
            else (false, offset)
        end in
      let* valid' :=
        match offset with
        | EmptyString => Done false
        | String c _ =>
            if is_char c "*"%char then
              Done (match s with String _ (String c1 _) => is_char c1 ":"%char | _ => false end)
            else if is_digit c then Done (is_unsigned offset)
            else if String.eqb offset "VI" then Done true
            else valid_anchor offset
        end in
      Done (valid && valid' && all_chars pattern_char (drop_str (S offsetp) s))
  end.

(** ** The engine's functionality level *)

Definition json_api_funcs : list string :=
  ["json_is_active"; "json_get_object"; "json_get_type"; "json_get_array_length";
   "json_get_array_idx"; "json_get_string_length"; "json_get_string"; "json_get_boolean";
   "json_get_int"].
(** [declared f]: the module declares a function [f] without defining it. *)
Definition hasJSONUsage (declared : string -> bool) : bool := existsb declared json_api_funcs.

Definition level (n : string) : Z := ev lib_FunctionalityLevels n.
Definition bc_kind (n : string) : Z := ev lib_BytecodeKind n.

Definition contains (needle s : string) : bool :=
  match String.index 0 needle s with Some _ => true | None => false end.

(** A comparison sign after something other than > and < and before something
    other than 0, neither first nor last. *)
Fixpoint count_comparison (prev : option ascii) (s : string) : bool :=
  match s with
  | String c ((String d _) as s') =>
      match prev with
      | Some p => one_of "=><" c && negb (one_of "><" p) && negb (is_char d "0"%char)
      | None => false
      end || count_comparison (Some c) s'
  | _ => false
  end.

(** The verdict, and the level a warning recommends. *)
Definition checkMinimum (declared : string -> bool) (s : string) (min : Z) (kind : Z) : bool * option Z :=
  let required := if contains "$" s || contains "VI" s then level "FUNC_LEVEL_096_dev" else 0 in
  let required := if bc_kind "BC_PDF" <=? kind then level "FUNC_LEVEL_096_2" else required in
  let required := if bc_kind "BC_PE_ALL" <=? kind then level "FUNC_LEVEL_096_2_dev" else required in
  let recommended := if count_comparison None s then level "FUNC_LEVEL_096_2" else 0 in
  let recommended := if recommended <? level "FUNC_LEVEL_096_4" then level "FUNC_LEVEL_096_4" else recommended in
  let required := if hasJSONUsage declared then level "FUNC_LEVEL_098_5" else required in
  let required := if bc_kind "BC_PRECLASS" <=? kind then level "FUNC_LEVEL_098_7" else required in
  (negb (negb (required =? 0) && (min <? required)),
   if negb (recommended =? 0) && (min <? recommended) then Some recommended else None).

(** ** The signature *)

(** The subsignature patterns as the initializer of Signatures holds them: the
    text and, unless it is all zero, the identifier; [odd] is a trailing field. *)
Record signatures := { s_fields : list (option string * option Z); s_odd : bool }.

(** From the colon on, or from the start without one, letters become small. *)
Definition lower_pattern (s : string) : string :=
  let p := default O (find_char (is_char ":"%char) s) in
  take_str p s ++ map_str tolower (drop_str p s).

(** The loop over the patterns: [None] is an early return; the verdict kept is
    the one on the last pattern. *)
Fixpoint sub_loop (half : Z) (fields : list (option string * option Z)) (subs : list string)
    (valid : bool) : outcome (option (list string * bool)) :=
  match fields with
  | [] => Done (Some (subs, valid))
  | (text, ident) :: fields =>
      let id := match ident with Some i => u32 i | None => 0 end in
      if match ident with Some _ => half <? id | None => false end then Done None else
      match text with
      | None => Done None
      | Some str =>
          let str := lower_pattern str in
          let* valid := validateNDB str in
          if id <? half then sub_loop half fields (<[Z.to_nat id := str]> subs) valid
          else Undefined "write past the end of SubSignatures"
      end
  end.

(** What compileLogicalSignature reads of the module. *)
Record trigger := {
  t_blocks : list block;
  t_counts_declared : bool;                (* __clambc_match_counts *)
  t_signatures : option (option signatures); (* the global; its initializer *)
  t_rawattrs : option string               (* __ldb_rawattrs *)
}.

Context (set_order : list LogicalNode -> list LogicalNode)
        (map_order : list (LogicalNode * list LogicalNode) -> list (LogicalNode * list LogicalNode))
        (range_min range_max : bool -> Z -> Z -> Z)
        (declared : string -> bool).

Definition attr_char (c : ascii) : bool := isalnum c || one_of ":-,_" c.

(** The target description block. *)
Definition description (target min max : Z) (icon1 icon2 container : string)
    (rawattrs : option string) : string :=
  (if negb (min =? 0) || negb (max =? 0) || negb (String.eqb icon1 "") || negb (String.eqb icon2 "")
   then ";Engine:" ++ decimal (if min =? 0 then level "FUNC_LEVEL_096_4" else min)
        ++ "-" ++ decimal (if max =? 0 then 255 else max) ++ ","
   else ";")
  ++ (if String.eqb icon1 "" then "" else "IconGroup1:" ++ icon1 ++ ",")
  ++ (if String.eqb icon2 "" then "" else "IconGroup2:" ++ icon2 ++ ",")
  ++ (if String.eqb container "" then "" else "Container:" ++ container ++ ",")
  ++ "Target:" ++ decimal target
  ++ (match rawattrs with Some a => "," ++ a | None => "" end).

(** [Some text] is success with LogicalSignature = text. *)
Definition compileLogicalSignature (virusnames : string) (t : trigger) (target min max : Z)
    (icon1 icon2 container : string) (kind : Z) : outcome (option string) :=
  match t_signatures t with
  | None => Undefined "null global"
  | Some None => Done None
  | Some (Some sigs) =>
      if s_odd sigs then Done None else
      let half := Z.of_nat (length (s_fields sigs)) in
      let* r := sub_loop half (s_fields sigs) (repeat EmptyString (length (s_fields sigs))) true in
      match r with
      | None => Done None
      | Some (subs, valid) =>
          let* node := if t_counts_declared t
                       then compile set_order map_order range_min range_max (t_blocks t)
                       else Done None in
          match node with
          | None => Done None
          | Some node =>
              let* node := deref node in
              if is_kind LOG_TRUE node || is_kind LOG_FALSE node || negb valid then Done None else
              let* ndbsigs := node2String node 0 in
              if match t_rawattrs t with Some a => negb (all_chars attr_char a) | None => false end
              then Done None else
              if 64 <? snd ndbsigs then Done None else
              let text := virusnames ++ description target min max icon1 icon2 container (t_rawattrs t)
                          ++ ";" ++ fst ndbsigs
                          ++ foldr (fun s r => ";" ++ s ++ r) "" subs in
              let engine := negb (min =? 0) || negb (max =? 0) || negb (String.eqb icon1 "")
                            || negb (String.eqb icon2 "") in
              let min := if engine && (min =? 0) then level "FUNC_LEVEL_096_4" else min in
              Done (if fst (checkMinimum declared text min kind) then Some text else None)
          end
      end
  end.

(** ** Virus names *)

Definition name_char (c : ascii) : bool := isalnum c || one_of "_-." c.
Definition validateVirusName (name : string) (suffix : bool) : bool :=
  all_chars (fun c => negb (suffix && is_char c "."%char) && name_char c) name.

Definition isUnpacker (kind : Z) : bool :=
  (kind =? bc_kind "BC_PE_UNPACKER") || (kind =? bc_kind "BC_ELF_UNPACKER")
  || (kind =? bc_kind "BC_MACHO_UNPACKER").

(** std::sort of strings. *)
Fixpoint insert_string (s : string) (l : list string) : list string :=
  match l with
  | [] => [s]
  | t :: l => if String.leb s t then s :: t :: l else t :: insert_string s l
  end.
Definition sort_strings (l : list string) : list string := foldr insert_string [] l.

(** The loop over __clambc_virusnames: the names and whether all are valid. *)
Fixpoint names_loop (parts : list (option string)) : list string * bool :=
  match parts with
  | [] => ([], true)
  | p :: parts =>
      let '(names, valid) := names_loop parts in
      let part := default "" p in
      if String.eqb part "" then (names, valid && match p with Some _ => true | None => false end)
      else (part :: names, validateVirusName part true && valid)
  end.

(** A call that uses setvirusname: a direct call of it or not, with its number of
    arguments and the first one, if it is a constant string. *)
Record call := { c_direct : bool; c_args : nat; c_name : option string }.

(** A call's verdict and, unless it is left alone, its new arguments. *)
Definition fix_call (prefix : string) (set : list string) (c : call) : bool * option (string * Z) :=
  if negb (c_direct c) || negb (Nat.eqb (c_args c) 2) then (false, None) else
  match c_name c with
  | None => (false, None)
  | Some param =>
      let p := if String.prefix prefix param then drop_str (String.length prefix) param else param in
      if negb (String.eqb p "") && negb (existsb (String.eqb p) set) then (false, None)
      else
        let fullname := if String.eqb p "" then prefix else prefix ++ "." ++ p in
        (true, Some (fullname, u32 (Z.of_nat (String.length fullname))))
  end.

(** A use of setvirusname; llvm::cast wants every one to be a call. *)
Inductive use := CallUse (c : call) | OtherUse.
Definition fix_use (prefix : string) (set : list string) (u : use) : outcome (bool * option (string * Z)) :=
  match u with CallUse c => Done (fix_call prefix set c) | OtherUse => AssertFailed "cast<Ty>() argument of incompatible type!" end.

(** The virus names of the module: a string constant with an initializer each. *)
Record virus_names := {
  n_prefix : option (option string);            (* __clambc_virusname_prefix *)
  n_names : option (list (option string));      (* __clambc_virusnames *)
  n_uses : list use                             (* the uses of setvirusname *)
}.

(** The verdict, the names for the signature, the calls' new arguments. *)
Definition compileVirusNames (m : virus_names) : outcome (bool * string * list (option (string * Z))) :=
  match n_prefix m with
  | None | Some None => Done (false, "", [])
  | Some (Some prefix) =>
      if negb (validateVirusName prefix false) then Done (false, prefix, []) else
      let '(list, valid) :=
        match n_names m with Some parts => names_loop parts | None => ([], true) end in
      let virusnames :=
        match n_names m with
        | None => prefix
        | Some parts => prefix ++ (match parts with [] => "{" | _ => ".{" end)
                        ++ String.concat "," (sort_strings list) ++ "}"
        end in
      if negb valid then Done (false, virusnames, []) else
      let* fixed := mapM_out (fix_use prefix list) (n_uses m) in
      Done (forallb fst fixed, virusnames, map snd fixed)
  end.

(** ** The pass *)

(** A global the pass reads a string from: whether its initializer is the
    definitive one, which the linker cannot replace, and the initializer, if it has
    one, which is a constant string or not. *)
Record string_global := { g_definitive : bool; g_initializer : option (option string) }.

(** What the pass reads of a module. A number is read from definitive initializers
    only; a __clambc_kind without one counts as zero. *)
Record module := {
  m_kind : option Z;                       (* __clambc_kind *)
  m_names : virus_names;
  m_trigger : option trigger;              (* logical_trigger *)
  m_loops : bool;                          (* it has a loop or recurses *)
  m_funcmin : option Z;                    (* __FuncMin *)
  m_funcmax : option Z;                    (* __FuncMax *)
  m_target : option Z;                     (* __Target *)
  m_icon1 : option string_global;          (* __IconGroup1 *)
  m_icon2 : option string_global;          (* __IconGroup2 *)
  m_container : option string_global       (* __ldb_container *)
}.

(** What it leaves: the kind, the metadata clambc.virusnames and
    clambc.logicalsignature, the calls of setvirusname. *)
Record result := {
  r_kind : Z;
  r_virusnames : string;
  r_signature : option string;
  r_calls : list (option (string * Z))
}.

(** The string of a global and whether it is acceptable; an initializer that is
    not definitive is used, too, but is not checked. *)
Definition checked_string (check : string -> bool) (g : option string_global) : outcome (string * bool) :=
  match g with
  | None => Done ("", true)
  | Some g =>
      match g_initializer g with
      | None => AssertFailed "GV doesn't have initializer!"
      | Some None => Done ("", true)
      | Some (Some s) => Done (s, if g_definitive g then check s else true)
      end
  end.
Definition icon : option string_global -> outcome (string * bool) := checked_string (fun s => validateVirusName s false).
Definition container_type : option string_global -> outcome (string * bool) := checked_string (String.prefix "CL_TYPE_").

(** The functionality levels, if they are acceptable. *)
Definition func_levels (m : module) : option (Z * Z) :=
  let funcmin := default (level "FUNC_LEVEL_096_4") (m_funcmin m) in
  if funcmin <? level "FUNC_LEVEL_096" then None else
  match m_funcmax m with
  | None => Some (funcmin, 0)
  | Some funcmax => if (funcmax <? level "FUNC_LEVEL_096") || (funcmax <? funcmin) then None
                    else Some (funcmin, funcmax)
  end.

(** [Done None]: not a bytecode with virus names, left alone. *)
Definition run (m : module) : outcome (option result) :=
  let kind := default 0 (m_kind m) in
  let* _ := assert_ (kind <? 65536) "kind < 65536" in
  let* kind := match m_trigger m, m_kind m with
               | Some _, None => Undefined "null global"
               | Some _, Some 0 => Done 256
               | _, _ => Done kind
               end in
  let* (valid, virusnames, calls) := compileVirusNames (m_names m) in
  if negb valid && ((kind =? 0) || (kind =? bc_kind "BC_STARTUP")) then Done None else
  let valid := valid && negb (match m_trigger m with Some _ => m_loops m | None => false end) in
  let stop := Stop "lsig not valid!" in
  if negb valid then stop else
  match func_levels m with
  | None => stop
  | Some (funcmin, funcmax) =>
      match m_trigger m with
      | None => Done (Some {| r_kind := kind; r_virusnames := virusnames;
                              r_signature := None; r_calls := calls |})
      | Some t =>
          let* (icon1, ok1) := icon (m_icon1 m) in
          let* (icon2, ok2) := icon (m_icon2 m) in
          let* (container, ok3) := container_type (m_container m) in
          let* s := compileLogicalSignature virusnames t (default ones (m_target m)) funcmin funcmax
                      icon1 icon2 container kind in
          match s, m_target m with
          | Some text, Some _ =>
              if ok1 && ok2 && ok3
              then Done (Some {| r_kind := kind; r_virusnames := virusnames;
                                 r_signature := Some text; r_calls := calls |})
              else stop
          | _, _ => stop
          end
      end
  end.
End parts.

(** ** Reading the expression back *)

(** The expressions of a signature: a subsignature, a group, a comparison. *)
Inductive relation := Equal | Greater | Less.
Inductive lexpr :=
| Sub (n : Z)
| Group (isand : bool) (l : list lexpr)
| Cmp (c : lexpr) (r : relation) (a : Z) (b : option Z).

Definition sign (r : relation) : ascii := match r with Equal => "=" | Greater => ">" | Less => "<" end.
Definition separator (isand : bool) : ascii := if isand then "&"%char else "|"%char.

Fixpoint print (e : lexpr) : string :=
  match e with
  | Sub n => decimal n
  | Group isand l => "(" ++ String.concat (String (separator isand) "") (map print l) ++ ")"
  | Cmp c r a b => "(" ++ print c ++ String (sign r) (decimal a ++
                     match b with Some b => "," ++ decimal b | None => "" end) ++ ")"
  end.

Fixpoint leading_digits (s : string) : string * string :=
  match s with
  | String c s' => if is_digit c then let '(d, r) := leading_digits s' in (String c d, r) else (EmptyString, s)
  | EmptyString => (EmptyString, s)
  end.
Definition parse_number (s : string) : option (Z * string) :=
  match leading_digits s with
  | (EmptyString, _) => None
  | (d, r) => u ← NilEmpty.uint_of_string d; Some (Z.of_N (N.of_uint u), r)
  end.
Definition parse_char (c : ascii) (s : string) : option string :=
  match s with String d s => if is_char c d then Some s else None | EmptyString => None end.

(** The rest of a comparison, after its sign. *)
Definition parse_bounds (s : string) : option (Z * option Z * string) :=
  '(a, s) ← parse_number s;
  match s with
  | String "," s => '(b, s) ← parse_number s; s ← parse_char ")" s; Some (a, Some b, s)
  | _ => s ← parse_char ")" s; Some (a, None, s)
  end.

Fixpoint parse (fuel : nat) (s : string) : option (lexpr * string) :=
  match fuel with
  | O => None
  | S fuel =>
      match s with
      | String "(" s =>
          '(e, s) ← parse fuel s;
          match s with
          | String "=" s => '(a, b, s) ← parse_bounds s; Some (Cmp e Equal a b, s)
          | String ">" s => '(a, b, s) ← parse_bounds s; Some (Cmp e Greater a b, s)
          | String "<" s => '(a, b, s) ← parse_bounds s; Some (Cmp e Less a b, s)
          | String "&" _ => '(l, s) ← parse_more fuel true s; Some (Group true (e :: l), s)
          | String "|" _ => '(l, s) ← parse_more fuel false s; Some (Group false (e :: l), s)
          | _ => None
          end
      | _ => '(n, s) ← parse_number s; Some (Sub n, s)
      end
  end
with parse_more (fuel : nat) (isand : bool) (s : string) : option (list lexpr * string) :=
  match fuel with
  | O => None
  | S fuel =>
      match s with
      | String ")" s => Some ([], s)
      | String c s =>
          if is_char c (separator isand) then
            '(e, s) ← parse fuel s; '(l, s) ← parse_more fuel isand s; Some (e :: l, s)
          else None
      | EmptyString => None
      end
  end.

(** The expression a node is printed as: the kinds of sums look alike. *)
Fixpoint of_node (n : LogicalNode) : lexpr :=
  match n with
  | Node LOG_SUBSIGNATURE i _ _ => Sub i
  | Node LOG_AND _ _ ch => Group true (map of_node ch)
  | Node LOG_EQ a b (c :: _) => Cmp (of_node c) Equal a (if b =? ones then None else Some b)
  | Node LOG_GT a _ (c :: _) => Cmp (of_node c) Greater a None
  | Node LOG_LT a _ (c :: _) => Cmp (of_node c) Less a None
  | Node _ _ _ [c] => of_node c
  | Node _ _ _ ch => Group false (map of_node ch)
  | Null => Sub 0
  end.

(** The nodes the compiler's constructors build and node2String prints. *)
Fixpoint printable (n : LogicalNode) : bool :=
  match n with
  | Node LOG_SUBSIGNATURE i _ _ => 0 <=? i
  | Node (LOG_AND | LOG_OR) _ _ ch => (2 <=? length ch)%nat && forallb printable ch
  | Node (LOG_EQ | LOG_GT | LOG_LT) a b ch =>
      (0 <=? a) && (0 <=? b) && Nat.eqb (length ch) 1 && forallb printable ch
  | Node (LOG_ADDSUM | LOG_ADDUNIQ | LOG_ADDBOTH) _ _ ch =>
      (1 <=? length ch)%nat && forallb printable ch
  | _ => false
  end.

(** Groups and ordered comparisons count towards the limit, equalities do not. *)
Fixpoint groups_of (e : lexpr) : Z :=
  match e with
  | Sub _ => 0
  | Group _ l => 1 + foldr (fun e s => groups_of e + s) 0 l
  | Cmp c r _ _ => groups_of c + match r with Equal => 0 | _ => 1 end
  end.

#[local] Arguments parse_number : simpl never.

Lemma append_nil s : "" ++ s = s. Proof. reflexivity. Qed.
Lemma append_cons c s t : String c s ++ t = String c (s ++ t). Proof. reflexivity. Qed.
Lemma append_assoc (s t u : string) : (s ++ t) ++ u = s ++ t ++ u.
Proof. induction s as [|c s IH]; [done|]. now rewrite !append_cons, IH. Qed.
Create Rewrite HintDb clambc_str.
#[local] Hint Rewrite append_nil append_cons append_assoc : clambc_str.
Ltac strs := autorewrite with clambc_str.
Definition starts_digit (s : string) : bool := match s with String c _ => is_digit c | _ => false end.

Lemma string_of_uint_digits u rest : starts_digit rest = false ->
  leading_digits (NilEmpty.string_of_uint u ++ rest) = (NilEmpty.string_of_uint u, rest).
Proof.
  intros Hr.
  assert (E : leading_digits rest = (EmptyString, rest)).
  { destruct rest as [|c rest]; [done|]. simpl in *. now rewrite Hr. }
  induction u; simpl; try rewrite IHu; auto.
Qed.

Lemma to_uint_nil n : N.to_uint n <> Decimal.Nil.
Proof. intros E. assert (H := Unsigned.of_to n). rewrite E in H. subst n. discriminate E. Qed.

Lemma dec_cons n : exists c s, decimal n = String c s /\ is_digit c = true.
Proof.
  unfold decimal. pose proof (to_uint_nil (Z.to_N n)) as H. destruct (N.to_uint _); simpl; eauto; done.
Qed.

Lemma parse_number_dec n rest : 0 <= n -> starts_digit rest = false ->
  parse_number (decimal n ++ rest) = Some (n, rest).
Proof.
  intros Hn Hr. unfold parse_number, decimal. rewrite string_of_uint_digits by done.
  rewrite NilEmpty.usu. destruct (dec_cons n) as (c & s & E & _). unfold decimal in E. rewrite E.
  simpl. rewrite Unsigned.of_to, Z2N.id by done. done.
Qed.

Lemma parse_bounds_print a b rest : 0 <= a -> (forall b', b = Some b' -> 0 <= b') ->
  parse_bounds (decimal a ++ match b with Some b => "," ++ decimal b | None => "" end ++ ")" ++ rest)
    = Some (a, b, rest).
Proof.
  intros Ha Hb. unfold parse_bounds. rewrite parse_number_dec; [|done|now destruct b].
  destruct b as [b|]; cbn; strs; [|done].
  rewrite parse_number_dec; [done|now apply Hb|done].
Qed.

(** ** Printing and parsing *)

Lemma lexpr_induction (P : lexpr -> Prop) :
  (forall n, P (Sub n)) -> (forall isand l, Forall P l -> P (Group isand l)) ->
  (forall c r a b, P c -> P (Cmp c r a b)) -> forall e, P e.
Proof.
  intros H1 H2 H3. fix IH 1. intros [n|isand l|c r a b]; [apply H1| |apply H3, IH].
  apply H2. induction l as [|e l IHl]; constructor; [apply IH|exact IHl].
Qed.

Fixpoint wf (e : lexpr) : bool :=
  match e with
  | Sub n => 0 <=? n
  | Group _ l => (2 <=? length l)%nat && forallb wf l
  | Cmp c r a b => wf c && (0 <=? a) &&
      match b with Some b => match r with Equal => 0 <=? b | _ => false end | None => true end
  end.

Fixpoint need (e : lexpr) : nat :=
  match e with
  | Sub _ => 1
  | Group _ l => S (foldr (fun e s => S (need e + s)) 0 l)%nat
  | Cmp c _ _ _ => S (need c)
  end.
Definition need_more (l : list lexpr) : nat := S (foldr (fun e s => S (need e + s)) 0 l)%nat.

(** What follows the first member of a group. *)
Fixpoint more (isand : bool) (l : list lexpr) : string :=
  match l with
  | [] => ")"
  | e :: l => String (separator isand) (print e ++ more isand l)
  end.

Lemma print_group isand e l : print (Group isand (e :: l)) = String "(" (print e ++ more isand l).
Proof.
  cbn [print map]. rewrite append_cons, append_nil. f_equal.
  revert e. induction l as [|e' l IH]; intros e; [reflexivity|].
  cbn [map String.concat more]. cbn [map String.concat] in IH.
  strs. f_equal. f_equal. apply IH.
Qed.

Lemma print_cmp c r a b rest : print (Cmp c r a b) ++ rest =
  String "(" (print c ++ String (sign r) (decimal a ++ match b with Some b => "," ++ decimal b | None => "" end ++ ")" ++ rest)).
Proof. cbn [print]. now strs. Qed.

Lemma more_not_digit isand l rest : starts_digit (more isand l ++ rest) = false.
Proof. destruct l, isand; reflexivity. Qed.

Definition parses (e : lexpr) : Prop := wf e = true -> forall fuel rest, (need e <= fuel)%nat ->
  starts_digit rest = false -> parse fuel (print e ++ rest) = Some (e, rest).

Lemma parse_more_print isand l : Forall parses l -> forallb wf l = true ->
  forall fuel rest, (need_more l <= fuel)%nat ->
  parse_more fuel isand (more isand l ++ rest) = Some (l, rest).
Proof.
  induction 1 as [|e l He _ IH]; intros Hw fuel rest Hf; destruct fuel as [|fuel];
    try (unfold need_more in Hf; lia).
  - reflexivity.
  - cbn [forallb] in Hw. apply andb_true_iff in Hw as [Hwe Hwl]. cbn [more]. strs.
    unfold need_more in Hf. cbn [foldr] in Hf.
    assert (E : parse fuel (print e ++ more isand l ++ rest) = Some (e, more isand l ++ rest)).
    { apply He; [done|lia|apply more_not_digit]. }
    assert (E2 : parse_more fuel isand (more isand l ++ rest) = Some (l, rest)).
    { apply IH; [done|unfold need_more; lia]. }
    destruct isand; cbn [parse_more separator is_char Ascii.eqb]; simpl; now rewrite E; simpl; rewrite E2.
Qed.

Lemma parse_sub n fuel rest : 0 <= n -> starts_digit rest = false ->
  parse (S fuel) (decimal n ++ rest) = Some (Sub n, rest).
Proof.
  intros Hn Hr. destruct (dec_cons n) as (c & s & E & Hc).
  transitivity ('(n, s) ← parse_number (decimal n ++ rest); Some (Sub n, s)).
  - rewrite E, append_cons. destruct c as [[] [] [] [] [] [] [] []]; try discriminate Hc; reflexivity.
  - now rewrite parse_number_dec.
Qed.

Lemma parse_print e : parses e.
Proof.
  induction e as [n|isand l IH|c r a b IH] using lexpr_induction; intros Hw fuel rest Hf Hr.
  - cbn in Hw. apply Z.leb_le in Hw. destruct fuel; [cbn in Hf; lia|]. now apply parse_sub.
  - cbn [wf] in Hw. apply andb_true_iff in Hw as [Hl Hw]. destruct l as [|e l]; [done|].
    rewrite print_group. strs. destruct fuel as [|fuel]; [cbn in Hf; lia|].
    cbn [forallb] in Hw. apply andb_true_iff in Hw as [Hwe Hwl].
    apply Forall_cons in IH as [IHe IHl]. cbn [need foldr] in Hf.
    cbn [parse]. rewrite IHe by (try done; try lia; apply more_not_digit).
    assert (E : parse_more fuel isand (more isand l ++ rest) = Some (l, rest)).
    { apply parse_more_print; [done|done|unfold need_more; lia]. }
    destruct l as [|e' l]; [discriminate Hl|].
    destruct isand; cbn [more separator]; cbn [more separator] in E; strs; autorewrite with clambc_str in E;
      simpl; now rewrite E.
  - cbn [wf] in Hw. rewrite !andb_true_iff, Z.leb_le in Hw. destruct Hw as [[Hwc Ha] Hb].
    rewrite print_cmp. destruct fuel as [|fuel]; [cbn in Hf; lia|]. cbn [need] in Hf.
    cbn [parse]. rewrite IH by (try done; try lia; now destruct r).
    assert (Hb' : forall b', b = Some b' -> 0 <= b').
    { intros b' ->. destruct r; [now apply Z.leb_le|done|done]. }
    destruct r; simpl; now rewrite parse_bounds_print.
Qed.

Lemma append_length s t : String.length (s ++ t) = (String.length s + String.length t)%nat.
Proof. induction s as [|c s IH]; [done|]. rewrite append_cons. simpl. now rewrite IH. Qed.

Lemma need_length e : (need e <= String.length (print e))%nat.
Proof.
  induction e as [n|isand l IH|c r a b IH] using lexpr_induction.
  - cbn. destruct (dec_cons n) as (c & s & -> & _). simpl. lia.
  - destruct l as [|e l]; [apply Nat.leb_le; reflexivity|]. rewrite print_group. cbn [need foldr String.length].
    rewrite append_length. apply Forall_cons in IH as [He IH].
    assert (S (foldr (fun e s => S (need e + s)) 0 l) <= String.length (more isand l))%nat; [|lia].
    induction IH as [|e' l He' _ IH]; [simpl; lia|].
    cbn [foldr more String.length]. rewrite append_length. lia.
  - pose proof (print_cmp c r a b "") as E.
    assert (E2 : forall s, s ++ "" = s) by (induction s as [|? ? IHs]; [done|now rewrite append_cons, IHs]).
    rewrite E2 in E. rewrite E. cbn [need String.length]. rewrite append_length. lia.
Qed.

(** ** What node2String prints *)

Definition prints (n : LogicalNode) : Prop := printable n = true -> forall g, in_u 32 g ->
  node2String n g = Done (print (of_node n), u32 (g + groups_of (of_node n))).

Definition groups_sum (l : list lexpr) : Z := foldr (fun e s => groups_of e + s) 0 l.

Lemma join_prints isand l g : Forall prints l -> forallb printable l = true -> in_u 32 g ->
  join_nodes node2String (String (separator isand) "") l g =
  Done (String.concat (String (separator isand) "") (map print (map of_node l)),
        u32 (g + groups_sum (map of_node l))).
Proof.
  intros H. revert g. induction H as [|n l Hn H IH]; intros g Hp Hg.
  - cbn. now rewrite Z.add_0_r, u32_id.
  - cbn [forallb] in Hp. apply andb_true_iff in Hp as [Hpn Hpl]. specialize (Hn Hpn g Hg).
    destruct l as [|m l].
    + cbn. rewrite Hn. cbn. now rewrite Z.add_0_r.
    + specialize (IH (u32 (g + groups_of (of_node n))) Hpl ltac:(apply wrap_range; lia)).
      change (join_nodes node2String (String (separator isand) "") (n :: m :: l) g) with
        (let* r := node2String n g in
         let* r' := join_nodes node2String (String (separator isand) "") (m :: l) (snd r) in
         Done (fst r ++ String (separator isand) "" ++ fst r', snd r')).
      rewrite Hn. cbn [obind fst snd]. rewrite IH. cbn [obind fst snd]. f_equal.
      cbn [map groups_sum foldr String.concat]. f_equal.
      unfold groups_sum. cbn [map foldr]. cint.
Qed.

(** The nodes printed as a group. *)
Lemma group_prints isand ch g : Forall prints ch -> forallb printable ch = true -> in_u 32 g ->
  (let* r := join_nodes node2String (String (separator isand) "") ch (u32 (g + 1)) in
   Done ("(" ++ fst r ++ ")", snd r)) =
  Done (print (Group isand (map of_node ch)), u32 (g + groups_of (Group isand (map of_node ch)))).
Proof.
  intros Hc Hp Hg. rewrite join_prints by (try done; apply wrap_range; lia).
  cbn [obind fst snd print groups_of]. f_equal. f_equal. fold (groups_sum (map of_node ch)). cint.
Qed.

(** A sum is printed as its only member or as a group. *)
Lemma sum_prints k a b ch g : (k = LOG_ADDSUM \/ k = LOG_ADDUNIQ \/ k = LOG_ADDBOTH) ->
  Forall prints ch -> (1 <=? length ch)%nat && forallb printable ch = true -> in_u 32 g ->
  node2String (Node k a b ch) g =
  Done (print (of_node (Node k a b ch)), u32 (g + groups_of (of_node (Node k a b ch)))).
Proof.
  intros Hk IH [Hl Hp]%andb_true_iff Hg. destruct ch as [|c [|c' ch]]; [done| |].
  - apply Forall_inv in IH. cbn [forallb] in Hp. rewrite andb_true_r in Hp.
    destruct Hk as [->|[->| ->]]; exact (IH Hp g Hg).
  - destruct Hk as [->|[->| ->]]; exact (group_prints false (c :: c' :: ch) g IH Hp Hg).
Qed.

Lemma node2String_print n : prints n.
Proof.
  induction n as [|k a b ch IH] using node_ind; intros Hp g Hg; [done|].
  destruct k; try discriminate Hp; cbn [printable] in Hp.
  - cbn. now rewrite Z.add_0_r, u32_id.
  - apply andb_true_iff in Hp as [_ Hp]. exact (group_prints true ch g IH Hp Hg).
  - apply andb_true_iff in Hp as [Hl Hp].
    etransitivity; [exact (group_prints false ch g IH Hp Hg)|].
    destruct ch as [|c [|c' ch]]; done.
  - rewrite !andb_true_iff in Hp. destruct Hp as [[[Ha Hb] Hl] Hp].
    destruct ch as [|c [|c' ch]]; try discriminate Hl. apply Forall_inv in IH.
    cbn [forallb] in Hp. rewrite andb_true_r in Hp. cbn [node2String]. rewrite (IH Hp g Hg).
    cbn [obind fst snd of_node print groups_of]. rewrite Z.add_0_r.
    destruct (b =? ones); cbn [sign]; strs; reflexivity.
  - rewrite !andb_true_iff in Hp. destruct Hp as [[[Ha Hb] Hl] Hp].
    destruct ch as [|c [|c' ch]]; try discriminate Hl. apply Forall_inv in IH.
    cbn [forallb] in Hp. rewrite andb_true_r in Hp. cbn [node2String].
    rewrite (IH Hp (u32 (g + 1))) by (apply wrap_range; lia).
    cbn [obind fst snd of_node print groups_of sign]. strs. do 2 f_equal. cint.
  - rewrite !andb_true_iff in Hp. destruct Hp as [[[Ha Hb] Hl] Hp].
    destruct ch as [|c [|c' ch]]; try discriminate Hl. apply Forall_inv in IH.
    cbn [forallb] in Hp. rewrite andb_true_r in Hp. cbn [node2String].
    rewrite (IH Hp (u32 (g + 1))) by (apply wrap_range; lia).
    cbn [obind fst snd of_node print groups_of sign]. strs. do 2 f_equal. cint.
  - now apply sum_prints; auto.
  - now apply sum_prints; auto.
  - now apply sum_prints; auto.
Qed.

Lemma of_node_wf n : printable n = true -> wf (of_node n) = true.
Proof.
  induction n as [|k a b ch IH] using node_ind; intros Hp; [done|].
  assert (Hw : forallb printable ch = true -> forallb wf (map of_node ch) = true).
  { clear Hp. induction IH as [|c ch Hc _ IH]; [done|]. cbn [forallb map].
    rewrite !andb_true_iff. intros [? ?]. auto. }
  assert (Hg : forall isand, (2 <=? length ch)%nat && forallb printable ch = true ->
            wf (Group isand (map of_node ch)) = true).
  { intros isand [Hl Hf]%andb_true_iff. cbn [wf]. rewrite length_map, Hl. now apply Hw. }
  destruct k; try discriminate Hp; cbn [printable] in Hp.
  - exact Hp.
  - now apply Hg.
  - destruct ch as [|c [|c' ch]]; try discriminate Hp. exact (Hg false Hp).
  - rewrite !andb_true_iff in Hp. destruct Hp as [[[Ha Hb] Hl] Hp].
    destruct ch as [|c [|c' ch]]; try discriminate Hl. specialize (Hw Hp).
    cbn [of_node wf map forallb] in *. rewrite andb_true_r in Hw. rewrite Hw, Ha. now destruct (b =? ones).
  - rewrite !andb_true_iff in Hp. destruct Hp as [[[Ha Hb] Hl] Hp].
    destruct ch as [|c [|c' ch]]; try discriminate Hl. specialize (Hw Hp).
    cbn [of_node wf map forallb] in *. rewrite andb_true_r in Hw. now rewrite Hw, Ha.
  - rewrite !andb_true_iff in Hp. destruct Hp as [[[Ha Hb] Hl] Hp].
    destruct ch as [|c [|c' ch]]; try discriminate Hl. specialize (Hw Hp).
    cbn [of_node wf map forallb] in *. rewrite andb_true_r in Hw. now rewrite Hw, Ha.
  - destruct ch as [|c [|c' ch]]; [done| |exact (Hg false Hp)].
    specialize (Hw Hp). cbn [map forallb] in Hw. now rewrite andb_true_r in Hw.
  - destruct ch as [|c [|c' ch]]; [done| |exact (Hg false Hp)].
    specialize (Hw Hp). cbn [map forallb] in Hw. now rewrite andb_true_r in Hw.
  - destruct ch as [|c [|c' ch]]; [done| |exact (Hg false Hp)].
    specialize (Hw Hp). cbn [map forallb] in Hw. now rewrite andb_true_r in Hw.
Qed.

Lemma append_empty s : s ++ "" = s.
Proof. induction s as [|c s IH]; [done|]. now rewrite append_cons, IH. Qed.

(** C4: The text [node2String] prints is unambiguous: it reads back as the
    expression the node stands for - sums of counts, of numbers of different
    matches and of both look alike, as groups - and the number it reports is
    that of the groups and ordered comparisons in the text. *)
Theorem node2String_reads_back n : printable n = true ->
  exists s, node2String n 0 = Done (s, u32 (groups_of (of_node n))) /\
            parse (String.length s) s = Some (of_node n, "").
Proof.
  intros Hp. exists (print (of_node n)). split; [apply (node2String_print n Hp); in_range|].
  rewrite <- (append_empty (print (of_node n))) at 2.
  apply parse_print; [now apply of_node_wf|apply need_length|done].
Qed.

Lemma node2String_reads_back_witness :
  node2String demo_node 0 = Done ("((((0|1)<4)|((0|1)>4))&(0>1))", 7) /\
  exists s, node2String demo_node 0 = Done (s, 7) /\
    parse (String.length s) s =
      Some (Group true [Group false [Cmp (Group false [Sub 0; Sub 1]) Less 4 None;
                                     Cmp (Group false [Sub 0; Sub 1]) Greater 4 None];
                        Cmp (Sub 0) Greater 1 None], "").
Proof.
  split; [vm_compute; reflexivity|].
  destruct (node2String_reads_back demo_node) as (s & H1 & H2); [vm_compute; reflexivity|].
  exists s. split; [exact H1|exact H2].
Defined.

(** ** The fields of the signature *)

Fixpoint split (s : string) : list string :=
  match s with
  | EmptyString => [EmptyString]
  | String c s => if is_char c ";"%char then EmptyString :: split s
                  else match split s with x :: l => String c x :: l | [] => [] end
  end.

(** No semicolon in it. *)
Definition free (s : string) : bool := all_chars (fun c => negb (is_char c ";"%char)) s.

Lemma all_chars_app p s t : all_chars p (s ++ t) = all_chars p s && all_chars p t.
Proof. induction s as [|c s IH]; [done|]. rewrite append_cons. simpl. now rewrite IH, andb_assoc. Qed.
Lemma all_chars_impl (p q : ascii -> bool) s :
  (forall c, p c = true -> q c = true) -> all_chars p s = true -> all_chars q s = true.
Proof.
  intros H. induction s as [|c s IH]; [done|]. simpl. rewrite !andb_true_iff. intros [? ?]. auto.
Qed.
Lemma free_app s t : free s = true -> free t = true -> free (s ++ t) = true.
Proof. unfold free. intros Hs Ht. now rewrite all_chars_app, Hs, Ht. Qed.

(** Evaluate a property of all characters. *)
Ltac every_char := intros [[] [] [] [] [] [] [] []]; vm_compute; (reflexivity || discriminate).

Lemma free_dec n : free (decimal n) = true.
Proof.
  unfold free, decimal. generalize (N.to_uint (Z.to_N n)). intros u.
  induction u; simpl; auto.
Qed.

Lemma split_free s t : free s = true -> split (s ++ String ";" t) = s :: split t.
Proof.
  induction s as [|c s IH]; [done|]. rewrite append_cons. unfold free in *. simpl.
  rewrite andb_true_iff, negb_true_iff. intros [-> Hs]. now rewrite IH.
Qed.
Lemma split_last s : free s = true -> split s = [s].
Proof.
  induction s as [|c s IH]; [done|]. unfold free in *. simpl.
  rewrite andb_true_iff, negb_true_iff. intros [-> Hs]. now rewrite IH.
Qed.
Lemma split_subs s subs : free s = true -> Forall (fun t => free t = true) subs ->
  split (s ++ foldr (fun s r => ";" ++ s ++ r) "" subs) = s :: subs.
Proof.
  intros Hs H. revert s Hs. induction H as [|t subs Ht _ IH]; intros s Hs; simpl.
  - rewrite append_empty. now apply split_last.
  - rewrite append_cons, append_nil, split_free by done. f_equal. now apply IH.
Qed.

(** The printed expression. *)
Definition prints_free (n : LogicalNode) : Prop :=
  forall g s g', node2String n g = Done (s, g') -> free s = true.

Lemma join_free sep l g s g' : free sep = true -> Forall prints_free l ->
  join_nodes node2String sep l g = Done (s, g') -> free s = true.
Proof.
  intros Hsep H. revert g s g'. induction H as [|n l Hn H IH]; intros g s g' E.
  - cbn in E. now injection E as <- _.
  - destruct l as [|m l]; [now apply (Hn g s g')|].
    change (obind (node2String n g) (fun r => obind (join_nodes node2String sep (m :: l) (snd r))
      (fun r' => Done (fst r ++ sep ++ fst r', snd r'))) = Done (s, g')) in E.
    apply obind_Done in E as ([s1 g1] & E1 & E). apply obind_Done in E as ([s2 g2] & E2 & E).
    injection E as <- _. cbn [fst snd] in *. eauto using free_app.
Qed.

Lemma node2String_free n : prints_free n.
Proof.
  induction n as [|k a b ch IH] using node_ind; intros g s g' E; [done|].
  assert (Hgroup : forall sep, free sep = true ->
    (let* r := join_nodes node2String sep ch (u32 (g + 1)) in Done ("(" ++ fst r ++ ")", snd r)) = Done (s, g') ->
    free s = true).
  { intros sep Hsep E'. apply obind_Done in E' as ([s1 g1] & E1 & E').
    injection E' as <- _. do 2 (apply free_app; [try done|try done]).
    now apply (join_free sep ch (u32 (g + 1)) s1 g1). }
  assert (Hcmp : forall c rest g, In c ch -> free rest = true ->
    (let* r := node2String c g in Done ("(" ++ fst r ++ rest ++ ")", snd r)) = Done (s, g') -> free s = true).
  { intros c rest g0 Hc Hrest E'. apply obind_Done in E' as ([s1 g1] & E1 & E').
    injection E' as <- _. rewrite Forall_forall in IH. apply list_elem_of_In, IH in Hc.
    repeat apply free_app; try done. now apply (Hc g0 s1 g1). }
  destruct k; try discriminate E; cbn [node2String] in E.
  - injection E as <- _. apply free_dec.
  - now apply (Hgroup "&").
  - now apply (Hgroup "|").
  - destruct ch as [|c ch]; [done|]. eapply Hcmp; [now left| |exact E].
    destruct (b =? ones); repeat apply free_app; auto using free_dec.
  - destruct ch as [|c ch]; [done|]. eapply Hcmp; [now left| |exact E].
    apply free_app; auto using free_dec.
  - destruct ch as [|c ch]; [done|]. eapply Hcmp; [now left| |exact E].
    apply free_app; auto using free_dec.
  - destruct ch as [|c [|c' ch]]; [now apply (Hgroup "|")|apply Forall_inv in IH; now apply (IH g s g')|now apply (Hgroup "|")].
  - destruct ch as [|c [|c' ch]]; [now apply (Hgroup "|")|apply Forall_inv in IH; now apply (IH g s g')|now apply (Hgroup "|")].
  - destruct ch as [|c [|c' ch]]; [now apply (Hgroup "|")|apply Forall_inv in IH; now apply (IH g s g')|now apply (Hgroup "|")].
Qed.

Lemma find_char_spec p s n : find_char p s = Some n ->
  exists c, p c = true /\ s = take_str n s ++ String c (drop_str (S n) s).
Proof.
  revert n. induction s as [|c s IH]; intros n H; [done|]. simpl in H.
  destruct (p c) eqn:E.
  - injection H as <-. exists c. split; [done|]. destruct s; reflexivity.
  - destruct (find_char p s) as [m|] eqn:F; [|done]. injection H as <-.
    destruct (IH m eq_refl) as (d & Hd & Es). exists d. split; [done|].
    unfold take_str. cbn [String.substring drop_str]. rewrite append_cons. f_equal. exact Es.
Qed.
Lemma find_char_prefix p s n : find_char p s = Some n -> all_chars (fun c => negb (p c)) (take_str n s) = true.
Proof.
  revert n. induction s as [|c s IH]; intros n H; [done|]. simpl in H.
  destruct (p c) eqn:E; [injection H as <-; now destruct s|].
  destruct (find_char p s) as [m|] eqn:F; [|done]. injection H as <-.
  unfold take_str. cbn [String.substring]. simpl. rewrite E. now apply IH.
Qed.

Section validation.
Context (getAsInteger : string -> option Z)
        (getAsInteger_digits : forall s z, getAsInteger s = Some z -> all_chars is_digit s = true).
Abbreviation is_unsigned := (is_unsigned getAsInteger).
Abbreviation valid_anchor := (valid_anchor getAsInteger).
Abbreviation validateNDB := (validateNDB getAsInteger).

Lemma digits_free s : is_unsigned s = true -> free s = true.
Proof.
  unfold Signature.is_unsigned. destruct (getAsInteger s) as [z|] eqn:E; [|done]. intros _.
  apply (all_chars_impl is_digit); [every_char|now apply (getAsInteger_digits s z)].
Qed.

Lemma pattern_free s : all_chars pattern_char s = true -> free s = true.
Proof. apply all_chars_impl. every_char. Qed.

Lemma prefix_app p s : String.prefix p s = true -> exists t, s = p ++ t.
Proof.
  revert s. induction p as [|a p IH]; intros s H; [now exists s|].
  destruct s as [|b s]; [done|]. simpl in H. destruct (ascii_dec a b) as [->|]; [|done].
  destruct (IH s H) as [t ->]. now exists t.
Qed.

Lemma sign_position_spec s n : sign_position s = Some n ->
  (exists c, is_char c ";"%char = false /\ s = take_str n s ++ String c (drop_str (S n) s)) /\
  (forall t, s = "EOF-" ++ t -> (n <= 3)%nat).
Proof.
  unfold sign_position. intros E. split.
  - assert (E' : find_char (is_char "+"%char) s = Some n \/ find_char (is_char "-"%char) s = Some n).
    { destruct (find_char (is_char "+"%char) s) as [a|], (find_char (is_char "-"%char) s) as [b|]; try done;
        injection E as <-; auto.
      destruct (Nat.min_spec a b) as [[_ ->]|[_ ->]]; auto. }
    destruct E' as [E'|E']; apply find_char_spec in E' as (c & Hc & Es); exists c;
      (split; [|exact Es]); revert Hc; clear; revert c; every_char.
  - intros t ->. rewrite !append_cons, append_nil in E. cbn in E. destruct (find_char (is_char "+"%char) t); cbn in E; injection E as <-; lia.
Qed.

Lemma valid_anchor_free s : valid_anchor s = Done true -> free s = true.
Proof.
  unfold Signature.valid_anchor. destruct (sign_position s) as [n|] eqn:En; [|done].
  apply sign_position_spec in En as [(c & Hc & Es) Heof].
  intros H.
  assert (Ha : free (take_str n s) = true /\ is_unsigned (drop_str (S n) s) = true).
  { destruct (String.prefix "EOF-" s) eqn:Ep.
    - cbn [negb andb] in H. injection H as Hd. split; [|exact Hd].
      apply prefix_app in Ep as (t & ->). specialize (Heof t eq_refl). clear - Heof.
      do 4 (destruct n as [|n]; [reflexivity|]). lia.
    - destruct (String.eqb_spec (take_str n s) "EP") as [->|]; [injection H as Hd; now split|].
      destruct (String.eqb_spec (take_str n s) "SL") as [->|]; [injection H as Hd; now split|].
      cbn [negb andb] in H. destruct (take_str n s) as [|d rest] eqn:Et; [done|].
      assert (exists v, d = "S"%char /\ Done (is_unsigned (drop_str (S n) s) && is_unsigned rest) = Done v /\ v = true) as (v & -> & Hv & ->).
      { destruct d as [[] [] [] [] [] [] [] []]; try discriminate H. eauto. }
      injection Hv as Hv. apply andb_true_iff in Hv as [Hd Hr]. split; [|exact Hd].
      change (String "S" rest) with ("S" ++ rest). apply free_app; [done|]. now apply digits_free. }
  destruct Ha as [Ha Hd]. rewrite Es. apply free_app; [exact Ha|].
  unfold free. simpl. rewrite Hc. now apply digits_free.
Qed.

Lemma colon_free s n : find_char (is_char ":"%char) s = Some n ->
  free (take_str n s) = true -> free (drop_str (S n) s) = true -> free s = true.
Proof.
  intros H Ht Hd. apply find_char_spec in H as (c & Hc & ->). apply free_app; [done|].
  unfold free. simpl. assert (E : is_char c ";"%char = false) by (revert c Hc; every_char). now rewrite E.
Qed.
Lemma comma_free s n : find_char (is_char ","%char) s = Some n ->
  free (take_str n s) = true -> free (drop_str (S n) s) = true -> free s = true.
Proof.
  intros H Ht Hd. apply find_char_spec in H as (c & Hc & ->). apply free_app; [done|].
  unfold free. simpl. assert (E : is_char c ";"%char = false) by (revert c Hc; every_char). now rewrite E.
Qed.

(** A pattern that passes has no semicolon. *)
Lemma validateNDB_free s : validateNDB s = Done true -> free s = true.
Proof.
  unfold Signature.validateNDB. destruct (find_char (is_char ":"%char) s) as [p|] eqn:Ep;
    [|intros [= H]; now apply pattern_free].
  set (offset := match find_char (is_char ","%char) (take_str p s) with
    | None => (true, take_str p s)
    | Some floating => if is_unsigned (drop_str (S floating) (take_str p s))
                       then (true, take_str floating (take_str p s)) else (false, take_str p s)
    end).
  assert (Ho : fst offset = true -> free (snd offset) = true -> free (take_str p s) = true).
  { subst offset. destruct (find_char (is_char ","%char) (take_str p s)) as [f|] eqn:Ef; [|done].
    destruct (is_unsigned _) eqn:Eu; [|done]. intros _ Hf. apply (comma_free _ _ Ef Hf).
    now apply digits_free. }
  assert (Hh : forall c x, snd offset = String c x -> exists y, take_str p s = String c y).
  { subst offset. intros c x E. destruct (find_char (is_char ","%char) (take_str p s)) as [f|] eqn:Ef; [|eauto].
    destruct (is_unsigned _); [|eauto]. cbn [snd] in E.
    destruct (take_str p s) as [|d t]; [now destruct f|]. destruct f; [done|].
    injection E as -> _. eauto. }
  destruct offset as [valid offset]. cbn [fst snd] in Ho. intros H.
  apply obind_Done in H as (valid' & H' & H). injection H as H.
  rewrite !andb_true_iff in H. destruct H as [[-> ->] Hpat].
  apply pattern_free in Hpat. destruct offset as [|c offset]; [done|].
  destruct (is_char c "*"%char) eqn:Ec.
  { destruct (Hh c offset eq_refl) as [y Ey]. apply (colon_free _ _ Ep); [|done]. clear Ho Hh.
    destruct s as [|c0 [|c1 s]]; try discriminate H'. injection H' as H'. cbn [find_char] in Ep.
    destruct (is_char ":"%char c0) eqn:E0; [injection Ep as <-; done|].
    assert (is_char ":"%char c1 = true) as E1 by (revert c1 H' Ep Ey Hpat; every_char).
    rewrite E1 in Ep. injection Ep as <-. unfold take_str in *. cbn in Ey |- *.
    injection Ey as -> <-. clear -Ec. revert c Ec. every_char. }
  destruct (is_digit c); [injection H' as H'; apply (colon_free _ _ Ep); [|done]; now apply Ho, digits_free|].
  destruct (String.eqb_spec (String c offset) "VI") as [E|_].
  { apply (colon_free _ _ Ep); [|done]. apply Ho; [done|]. now rewrite E. }
  apply (colon_free _ _ Ep); [|done]. apply Ho; [done|]. now apply valid_anchor_free.
Qed.
End validation.

(** ** Virus names *)

Lemma name_free s suffix : validateVirusName s suffix = true -> free s = true.
Proof.
  unfold validateVirusName. apply all_chars_impl. intros c [_ H]%andb_true_iff. revert c H. every_char.
Qed.

Lemma insert_string_perm s l : Permutation (insert_string s l) (s :: l).
Proof.
  induction l as [|t l IH]; [done|]. simpl. destruct (String.leb s t); [done|].
  rewrite IH. apply Permutation_swap.
Qed.
Lemma sort_strings_perm l : Permutation (sort_strings l) l.
Proof. induction l as [|s l IH]; [done|]. simpl. rewrite insert_string_perm. now constructor. Qed.

(** std::sort compares as [String.leb] does. *)
Definition in_order (s t : string) : Prop := String.leb s t = true.
Lemma insert_string_sorted s l : Sorted in_order l -> Sorted in_order (insert_string s l).
Proof.
  induction 1 as [|t l Hs IH Hh]; cbn [insert_string]; [repeat constructor|]. destruct (String.leb s t) eqn:E.
  - constructor; [by constructor|by constructor].
  - assert (Ht : in_order t s) by (destruct (String.leb_total s t) as [E'|]; [congruence|done]).
    constructor; [exact IH|]. destruct Hh as [|u l Hu]; cbn [insert_string]; [by constructor|]. destruct (String.leb s u); by constructor.
Qed.
Lemma sort_strings_sorted l : Sorted in_order (sort_strings l).
Proof. induction l as [|s l IH]; [constructor|]. by apply insert_string_sorted. Qed.

Lemma concat_free sep l : free sep = true -> Forall (fun s => free s = true) l ->
  free (String.concat sep l) = true.
Proof.
  intros Hsep H. induction H as [|s l Hs H IH]; [done|]. destruct l as [|t l]; [done|].
  change (String.concat sep (s :: t :: l)) with (s ++ sep ++ String.concat sep (t :: l)).
  auto using free_app.
Qed.

(** The names a module declares. *)
Definition declared_names (m : virus_names) : list string :=
  match n_names m with
  | None => []
  | Some parts => List.filter (fun s => negb (String.eqb s "")) (map (default "") parts)
  end.

Lemma names_loop_spec parts names valid : names_loop parts = (names, valid) ->
  names = List.filter (fun s => negb (String.eqb s "")) (map (default "") parts) /\
  (valid = true -> Forall (fun s => validateVirusName s true = true) names).
Proof.
  revert names valid. induction parts as [|p parts IH]; intros names valid H.
  - injection H as <- <-. auto.
  - cbn [names_loop] in H. destruct (names_loop parts) as [names' valid'].
    destruct (IH names' valid' eq_refl) as [-> Hv]. cbn [map List.filter].
    destruct (String.eqb (default "" p) ""); injection H as <- <-; cbn [negb]; split; auto;
      rewrite andb_true_iff; intros []; auto.
Qed.

(** A call of setvirusname gets the full name. *)
Definition completed (prefix : string) (names : list string) (c : call) (a : option (string * Z)) : Prop :=
  c_direct c = true /\ c_args c = 2%nat /\
  exists param fullname, c_name c = Some param /\ a = Some (fullname, u32 (Z.of_nat (String.length fullname))) /\
    (fullname = prefix /\ (param = "" \/ param = prefix) \/
     exists name, name ∈ names /\ fullname = prefix ++ "." ++ name /\
                  (param = name \/ param = prefix ++ name)).

Lemma drop_app s t : drop_str (String.length s) (s ++ t) = t.
Proof. induction s; [now destruct t|done]. Qed.

Lemma fix_call_completed prefix names c : fst (fix_call prefix names c) = true ->
  completed prefix names c (snd (fix_call prefix names c)).
Proof.
  unfold fix_call, completed. destruct (c_direct c); [|done].
  destruct (Nat.eqb_spec (c_args c) 2) as [->|]; [|done]. cbn [negb orb].
  destruct (c_name c) as [param|]; [|done].
  set (p := if String.prefix prefix param then _ else param).
  assert (Hp : param = p \/ param = prefix ++ p).
  { subst p. destruct (String.prefix prefix param) eqn:E; [right|now left].
    apply prefix_app in E as [t ->]. now rewrite drop_app. }
  intros H. split; [done|]. split; [done|]. exists param.
  destruct (String.eqb_spec p "") as [E|Hne]; cbn [negb andb] in *.
  - exists prefix. split; [done|]. split; [done|]. left. split; [done|].
    rewrite E in Hp. rewrite append_empty in Hp. tauto.
  - destruct (existsb (String.eqb p) names) eqn:Ex; [|done]. cbn [negb] in *.
    eexists. split; [done|]. split; [done|]. right. exists p.
    apply existsb_exists in Ex as (q & Hq & ->%String.eqb_eq). split; [now apply list_elem_of_In|auto].
Qed.

(** C6: When the virus names are accepted, the prefix and every declared name
    consist of the allowed characters only, the signature's name field is the
    prefix with the sorted list of declared names, and every use of
    setvirusname is a direct call with a constant argument that names the
    prefix or a declared name, whose arguments are replaced by the full name
    and its length. *)
Theorem compileVirusNames_sound m v calls : compileVirusNames m = Done (true, v, calls) ->
  exists prefix, n_prefix m = Some (Some prefix) /\ validateVirusName prefix false = true /\
    Forall (fun s => validateVirusName s true = true) (declared_names m) /\
    (exists l, Permutation l (declared_names m) /\ Sorted in_order l /\
      v = match n_names m with
          | None => prefix
          | Some [] => prefix ++ "{}"
          | Some _ => prefix ++ ".{" ++ String.concat "," l ++ "}"
          end) /\
    Forall2 (fun u a => exists c, u = CallUse c /\ completed prefix (declared_names m) c a) (n_uses m) calls.
Proof.
  unfold compileVirusNames. destruct (n_prefix m) as [[prefix|]|]; [|done..].
  destruct (validateVirusName prefix false) eqn:Ep; [|done]. cbn [negb]. intros H.
  exists prefix. split; [done|]. split; [done|].
  assert (E : exists l valid, match n_names m with Some parts => names_loop parts | None => ([], true) end = (l, valid)
            /\ l = declared_names m /\ (valid = true -> Forall (fun s => validateVirusName s true = true) l)).
  { unfold declared_names. destruct (n_names m) as [parts|]; [|eexists _, _; eauto].
    destruct (names_loop parts) as [l valid] eqn:E. eexists _, _. split; [done|]. now apply names_loop_spec. }
  destruct E as (l & valid & E & -> & Hv). rewrite E in H. destruct valid; [|discriminate H].
  cbn [negb] in H. apply obind_Done in H as (fixed & Ef & H). injection H as Hc Hvn <-. split; [auto|]. split.
  - exists (sort_strings (declared_names m)). split; [apply sort_strings_perm|]. split; [apply sort_strings_sorted|]. subst v.
    unfold declared_names. destruct (n_names m) as [[|p parts]|]; done.
  - clear - Hc Ef. revert fixed Hc Ef. induction (n_uses m) as [|c l IH]; intros fixed Hc Ef; cbn [mapM_out] in Ef; [injection Ef as <-; constructor|].
    apply obind_Done in Ef as (a & Ea & Ef). apply obind_Done in Ef as (fixed' & E' & Ef). injection Ef as <-. cbn [forallb map] in *. apply andb_true_iff in Hc as [Ha Hc].
    constructor; [|by apply IH]. destruct c as [c|]; [|done]. injection Ea as <-. exists c. split; [done|]. by apply fix_call_completed.
Qed.

Lemma virusnames_free m v calls : compileVirusNames m = Done (true, v, calls) -> free v = true.
Proof.
  unfold compileVirusNames. destruct (n_prefix m) as [[prefix|]|]; [|done..].
  destruct (validateVirusName prefix false) eqn:Ep; [|done]. cbn [negb]. apply name_free in Ep.
  destruct (n_names m) as [parts|].
  - destruct (names_loop parts) as [l valid] eqn:E. apply names_loop_spec in E as [_ Hv].
    destruct valid; [|done]. cbn [negb]. intros (fixed & _ & [= _ <- _])%obind_Done.
    apply free_app; [done|]. apply free_app; [now destruct parts|]. apply free_app; [|done].
    apply concat_free; [done|]. rewrite sort_strings_perm.
    eapply Forall_impl; [exact (Hv eq_refl)|]. intros s. apply name_free.
  - intros (fixed & _ & [= _ <- _])%obind_Done. done.
Qed.

(** ** The functionality level *)

(** What each feature of a signature requires of the engine. *)
Definition requirements (declared : string -> bool) (s : string) (kind : Z) : list (bool * Z) :=
  [ (contains "$" s || contains "VI" s, level "FUNC_LEVEL_096_dev");
    (bc_kind "BC_PDF" <=? kind, level "FUNC_LEVEL_096_2");
    (bc_kind "BC_PE_ALL" <=? kind, level "FUNC_LEVEL_096_2_dev");
    (hasJSONUsage declared, level "FUNC_LEVEL_098_5");
    (bc_kind "BC_PRECLASS" <=? kind, level "FUNC_LEVEL_098_7") ].

(** C7: [checkMinimum] keeps one required level, the one set last, yet accepts
    a signature exactly when its minimum level satisfies the requirement of
    every feature it uses; it warns exactly below 0.96.4. *)
Theorem checkMinimum_spec declared s min kind :
  fst (checkMinimum declared s min kind) =
    forallb (fun r : bool * Z => negb (fst r) || (snd r <=? min)) (requirements declared s kind) /\
  (snd (checkMinimum declared s min kind) = None <-> level "FUNC_LEVEL_096_4" <= min).
Proof.
  unfold checkMinimum, requirements. cbn [fst snd forallb].
  change (bc_kind "BC_PDF") with 258. change (bc_kind "BC_PE_ALL") with 259.
  change (bc_kind "BC_PRECLASS") with 260. change (level "FUNC_LEVEL_096_dev") with 52.
  change (level "FUNC_LEVEL_096_2") with 54. change (level "FUNC_LEVEL_096_2_dev") with 55.
  change (level "FUNC_LEVEL_098_5") with 79. change (level "FUNC_LEVEL_098_7") with 80.
  change (level "FUNC_LEVEL_096_4") with 56.
  split.
  - destruct (contains "$" s || contains "VI" s), (hasJSONUsage declared),
      (Z.leb_spec 258 kind), (Z.leb_spec 259 kind), (Z.leb_spec 260 kind); try lia; cbn [negb orb andb Z.eqb];
      apply eq_true_iff_eq; rewrite ?andb_true_iff, ?negb_true_iff, ?Z.ltb_ge, ?Z.leb_le; cbn; lia.
  - destruct (count_comparison None s); cbn [Z.ltb Z.compare Pos.compare Pos.compare_cont Z.eqb negb andb];
      destruct (Z.ltb_spec min 56); split; (done || lia).
Qed.

(** ** The fields *)

(** The string the pass does not check has no separator. *)
Definition separate (g : option string_global) : Prop :=
  forall g0 s, g = Some g0 -> g_initializer g0 = Some (Some s) -> free s = true.
Definition checked (g : option string_global) : Prop := forall g0, g = Some g0 -> g_definitive g0 = true.
Lemma icon_free g s : checked g \/ separate g -> icon g = Done (s, true) -> free s = true.
Proof.
  intros Hg H. destruct g as [[d [[t|]|]]|]; cbn in H; try (injection H as <-; done); [|done].
  injection H as <- H. destruct Hg as [Hg|Hg]; [|by eapply Hg].
  specialize (Hg _ eq_refl). cbn in Hg. subst d. now apply name_free in H.
Qed.
Lemma container_free g s ok : separate g -> container_type g = Done (s, ok) -> free s = true.
Proof.
  intros Hg H. destruct g as [[d [[t|]|]]|]; cbn in H; try (injection H as <-; done); [|done]. injection H as <- _. by eapply Hg.
Qed.

Lemma description_block target min max icon1 icon2 container rawattrs :
  free icon1 = true -> free icon2 = true -> free container = true ->
  match rawattrs with Some a => all_chars attr_char a | None => true end = true -> min <> 0 ->
  exists block, description target min max icon1 icon2 container rawattrs = String ";" ("Engine:" ++ block)
    /\ free ("Engine:" ++ block) = true.
Proof.
  intros H1 H2 H3 H4 Hm. unfold description. rewrite (proj2 (Z.eqb_neq min 0)) by done. cbn [negb orb].
  eexists. split; [strs; reflexivity|].
  assert (Hr : free (match rawattrs with Some a => "," ++ a | None => "" end) = true).
  { destruct rawattrs as [a|]; [|done]. apply free_app; [done|].
    revert H4. apply all_chars_impl. every_char. }
  assert (E : forall s, free s = true -> free (String "," s) = true) by done.
  repeat match goal with
         | |- free (String _ _) = true => apply E
         | |- free (_ ++ _) = true => apply free_app
         | |- free (if ?b then _ else _) = true => destruct b
         end; auto using free_dec.
Qed.

Section assembly.
Context (getAsInteger : string -> option Z)
        (getAsInteger_digits : forall s z, getAsInteger s = Some z -> all_chars is_digit s = true)
        (set_order : list LogicalNode -> list LogicalNode)
        (map_order : list (LogicalNode * list LogicalNode) -> list (LogicalNode * list LogicalNode))
        (range_min range_max : bool -> Z -> Z -> Z)
        (declared : string -> bool).
Abbreviation validateNDB := (validateNDB getAsInteger).
Abbreviation run := (run getAsInteger set_order map_order range_min range_max declared).
Abbreviation compileLogicalSignature :=
  (compileLogicalSignature getAsInteger set_order map_order range_min range_max declared).

Definition valid_sub (s : string) : Prop := s = "" \/ validateNDB s = Done true.
Definition valid_fields (fields : list (option string * option Z)) : Prop :=
  forall str id, (Some str, id) ∈ fields -> validateNDB (lower_pattern str) = Done true.

Lemma sub_loop_valid half fields subs valid subs' valid' :
  sub_loop getAsInteger half fields subs valid = Done (Some (subs', valid')) ->
  valid_fields fields -> Forall valid_sub subs ->
  Forall valid_sub subs' /\ length subs' = length subs.
Proof.
  revert subs valid. induction fields as [|[text ident] fields IH]; intros subs valid H Hf Hs.
  - now injection H as <- <-.
  - cbn [sub_loop] in H. destruct (match ident with Some _ => _ | None => _ end); [done|].
    destruct text as [str|]; [|done]. apply obind_Done in H as (v & _ & H).
    destruct (_ <? half); [|done]. apply IH in H as [H1 H2].
    + split; [done|]. now rewrite H2, length_insert.
    + intros s i Hi. apply (Hf s i). now right.
    + apply Forall_insert; [done|]. right. apply (Hf str ident). left.
Qed.

Lemma signature_text virusnames t target min max icon1 icon2 container kind text sigs :
  compileLogicalSignature virusnames t target min max icon1 icon2 container kind = Done (Some text) ->
  t_signatures t = Some (Some sigs) -> valid_fields (s_fields sigs) ->
  exists node expr groups subs, node2String node 0 = Done (expr, groups) /\ groups <= 64 /\
    text = virusnames ++ description target min max icon1 icon2 container (t_rawattrs t)
           ++ ";" ++ expr ++ foldr (fun s r => ";" ++ s ++ r) "" subs /\
    length subs = length (s_fields sigs) /\ Forall valid_sub subs /\
    match t_rawattrs t with Some a => all_chars attr_char a | None => true end = true.
Proof.
  unfold Signature.compileLogicalSignature. intros H Hsigs Hf. rewrite Hsigs in H.
  destruct (s_odd sigs); [done|]. apply obind_Done in H as (r & Hr & H).
  destruct r as [[subs valid]|]; [|done].
  apply sub_loop_valid in Hr as [Hv Hl]; [|done|apply Forall_repeat; now left].
  apply obind_Done in H as (node & _ & H). destruct node as [node|]; [|done].
  apply deref_bind in H. destruct (_ || _); [done|].
  apply obind_Done in H as ([expr groups] & Hn & H). cbn [fst snd] in H.
  destruct (match t_rawattrs t with Some a => negb _ | None => false end) eqn:Ea; [done|].
  destruct (Z.ltb_spec 64 groups); [done|].
  destruct (fst (checkMinimum _ _ _ _)); [|done]. injection H as <-.
  exists node, expr, groups, subs. rewrite Hl, repeat_length. repeat split; try done; try lia.
  destruct (t_rawattrs t); [|done]. now apply negb_false_iff.
Qed.

(** C3: The fields of the signature of an accepted bytecode cannot be confused:
    splitting the text at its semicolons yields the virus names, the target
    block, the expression - with at most 64 groups - and one pattern per
    declared subsignature. This needs three checks the pass does not make: it
    keeps only the verdict on the last pattern ([valid_fields]), does not look into
    the container type beyond its prefix, and validates an icon group only if its
    initializer is definitive, though it uses the others, too; the strings it does
    not check must be free of semicolons ([separate]). *)
Theorem signature_fields m r t sigs text :
  run m = Done (Some r) -> m_trigger m = Some t -> t_signatures t = Some (Some sigs) ->
  r_signature r = Some text ->
  valid_fields (s_fields sigs) -> checked (m_icon1 m) \/ separate (m_icon1 m) -> checked (m_icon2 m) \/ separate (m_icon2 m) ->
  separate (m_container m) ->
  exists block node expr groups subs,
    split text = r_virusnames r :: ("Engine:" ++ block) :: expr :: subs /\
    length subs = length (s_fields sigs) /\ Forall valid_sub subs /\
    node2String node 0 = Done (expr, groups) /\ groups <= 64.
Proof.
  unfold Signature.run. intros H Ht Hsigs Htext Hf Hi1 Hi2 Hc. rewrite Ht in H.
  apply obind_Done in H as (_ & _ & H). apply obind_Done in H as (kind & _ & H).
  apply obind_Done in H as ([[valid virusnames] calls] & Ev & H).
  destruct (negb valid && _); [done|].
  destruct (negb (valid && _)) eqn:Ell; [done|]. destruct valid; [|done].
  apply virusnames_free in Ev.
  destruct (func_levels m) as [[funcmin funcmax]|] eqn:El; [|done].
  assert (Hmin : funcmin <> 0).
  { unfold func_levels in El. destruct (Z.ltb_spec (default (level "FUNC_LEVEL_096_4") (m_funcmin m)) (level "FUNC_LEVEL_096"));
      [done|]. change (level "FUNC_LEVEL_096") with 51 in *.
    destruct (m_funcmax m) as [fm|]; [destruct (_ || _); [done|]|]; injection El as <- <-; lia. }
  apply obind_Done in H as ([icon1 ok1] & E1 & H). apply obind_Done in H as ([icon2 ok2] & E2 & H).
  apply obind_Done in H as ([container ok3] & E3 & H).
  apply obind_Done in H as (s & Hs & H). destruct s as [text'|]; [|done]. destruct (m_target m) as [target|]; [|done].
  destruct ok1, ok2, ok3; try done. injection H as <-. cbn in Htext. injection Htext as ->.
  apply (icon_free _ _ Hi1) in E1. apply (icon_free _ _ Hi2) in E2. apply (container_free _ _ _ Hc) in E3. change (default ones (Some target)) with target in Hs.
  destruct (signature_text _ _ _ _ _ _ _ _ _ _ _ Hs Hsigs Hf) as (node & expr & groups & subs & Hn & Hg & -> & Hl & Hv & Ha).
  destruct (description_block target funcmin funcmax icon1 icon2 container (t_rawattrs t)) as (block & -> & Hb); auto.
  exists block, node, expr, groups, subs. repeat split; auto. cbn [r_virusnames].
  rewrite append_cons, split_free by done. f_equal.
  change (";" ++ expr ++ foldr (fun s r => ";" ++ s ++ r) "" subs) with
    (String ";" (expr ++ foldr (fun s r => ";" ++ s ++ r) "" subs)).
  rewrite split_free by done. f_equal. apply split_subs; [now apply (node2String_free node 0 expr groups)|].
  eapply Forall_impl; [exact Hv|]. intros x [->|Hx]; [done|]. now apply (validateNDB_free getAsInteger getAsInteger_digits).
Qed.
End assembly.

(** ** A signature, end to end *)

(** A concrete getAsInteger: what the Standard Library reads of digits. *)
Definition read_unsigned (s : string) : option Z :=
  match parse_number s with
  | Some (z, "") => if z <? 2 ^ 32 then Some z else None
  | _ => None
  end.
Lemma digits_all s d : leading_digits s = (d, "") -> all_chars is_digit s = true.
Proof.
  revert d. induction s as [|c s IH]; intros d H; [done|]. simpl in *.
  destruct (is_digit c); [|done]. destruct (leading_digits s) as [d' r]. injection H as _ ->. now apply (IH d').
Qed.
Lemma read_unsigned_digits s z : read_unsigned s = Some z -> all_chars is_digit s = true.
Proof.
  unfold read_unsigned, parse_number. destruct (leading_digits s) as [d r] eqn:E.
  destruct d as [|c d]; [done|]. destruct (NilEmpty.uint_of_string _); [|done]. simpl.
  destruct r as [|? ?]; [|done]. intros _. now apply (digits_all s (String c d)).
Qed.

Definition demo_trigger : trigger := {|
  t_blocks := [demo_block];
  t_counts_declared := true;
  t_signatures := Some (Some {| s_fields := [(Some "EP+0:AABB", None); (Some "0:4d5A", Some 1)]; s_odd := false |});
  t_rawattrs := Some "EntryPoint:0-10"
|}.
Definition demo_module : module := {|
  m_kind := Some 0;
  m_names := {| n_prefix := Some (Some "Trojan.Foo"); n_names := Some [Some "B"; Some ""; Some "A"];
                n_uses := [CallUse {| c_direct := true; c_args := 2; c_name := Some "A" |};
                           CallUse {| c_direct := true; c_args := 2; c_name := Some "" |}] |};
  m_trigger := Some demo_trigger;
  m_loops := false;
  m_funcmin := None; m_funcmax := None; m_target := Some 1;
  m_icon1 := None; m_icon2 := None; m_container := Some {| g_definitive := true; g_initializer := Some (Some "CL_TYPE_ZIP") |}
|}.
Definition demo_result : result := {|
  r_kind := 256;
  r_virusnames := "Trojan.Foo.{A,B}";
  r_signature := Some "Trojan.Foo.{A,B};Engine:56-255,Container:CL_TYPE_ZIP,Target:1,EntryPoint:0-10;((((0|1)<4)|((0|1)>4))&(0>1));EP+0:aabb;0:4d5a";
  r_calls := [Some ("Trojan.Foo.A", 12); Some ("Trojan.Foo", 10)]
|}.
Abbreviation run0 := (run read_unsigned keep keep cr_min cr_max (fun _ => false)).

Lemma signature_fields_witness :
  run0 demo_module = Done (Some demo_result) /\
  exists block node expr groups subs,
    split (default "" (r_signature demo_result)) = "Trojan.Foo.{A,B}" :: ("Engine:" ++ block) :: expr :: subs /\
    length subs = 2%nat /\ node2String node 0 = Done (expr, groups).
Proof.
  assert (E : run0 demo_module = Done (Some demo_result)) by (vm_compute; reflexivity).
  split; [exact E|].
  destruct (signature_fields read_unsigned read_unsigned_digits keep keep cr_min cr_max (fun _ => false)
    demo_module demo_result demo_trigger
    {| s_fields := [(Some "EP+0:AABB", None); (Some "0:4d5A", Some 1)]; s_odd := false |}
    (default "" (r_signature demo_result)) E eq_refl eq_refl eq_refl)
    as (block & node & expr & groups & subs & H1 & H2 & _ & H4 & _).
  - intros str id H. apply elem_of_cons in H as [[= -> ->]|H]; [vm_compute; reflexivity|].
    apply elem_of_cons in H as [[= -> ->]|H]; [vm_compute; reflexivity|now apply not_elem_of_nil in H].
  - left. intros g [=].
  - left. intros g [=].
  - intros g s [= <-] [= <-]. vm_compute. reflexivity.
  - exists block, node, expr, groups, subs. split; [exact H1|]. split; [exact H2|exact H4].
Defined.

Lemma compileVirusNames_sound_witness :
  exists v calls, compileVirusNames (m_names demo_module) = Done (true, v, calls) /\
    Forall2 (fun u a => exists c, u = CallUse c /\ completed "Trojan.Foo" ["B"; "A"] c a) (n_uses (m_names demo_module)) calls.
Proof.
  exists "Trojan.Foo.{A,B}", [Some ("Trojan.Foo.A", 12); Some ("Trojan.Foo", 10)].
  assert (E : compileVirusNames (m_names demo_module) =
    Done (true, "Trojan.Foo.{A,B}", [Some ("Trojan.Foo.A", 12); Some ("Trojan.Foo", 10)])) by (vm_compute; reflexivity).
  split; [exact E|].
  destruct (compileVirusNames_sound _ _ _ E) as (prefix & Hp & _ & _ & _ & H).
  injection Hp as <-. exact H.
Defined.

(** ** Where the code falls short *)

(** Only the verdict on the last pattern is kept. *)
Lemma last_pattern_decides :
  sub_loop read_unsigned 2 [(Some "0:zz;zz", None); (Some "0:aa", Some 1)] [""; ""] true
    = Done (Some (["0:zz;zz"; "0:aa"], true)).
Proof. vm_compute. reflexivity. Qed.

(** An icon group that the linker may replace is not validated, but put into the
    signature; a semicolon in it starts another field. *)
Lemma icon_unchecked :
  icon (Some {| g_definitive := false; g_initializer := Some (Some "A;B") |}) = Done ("A;B", true) /\
  icon (Some {| g_definitive := true; g_initializer := Some (Some "A;B") |}) = Done ("A;B", false).
Proof. vm_compute. auto. Qed.

(** An identifier equal to the number of patterns passes the range check. *)
Lemma identifier_past_end :
  sub_loop read_unsigned 1 [(Some "0:aa", Some 1)] [""] true = Undefined "write past the end of SubSignatures".
Proof. vm_compute. reflexivity. Qed.

(** The word boundary (B) and line (L) marks are made small letters first, so
    that the second is refused and the first becomes a hexadecimal digit. *)
Lemma marks_lowered :
  validateNDB read_unsigned "0:(L)aa" = Done true /\
  validateNDB read_unsigned (lower_pattern "0:(L)aa") = Done false /\
  lower_pattern "0:(B)aa" = "0:(b)aa".
Proof. vm_compute. auto. Qed.

(** An offset that starts with a sign fails an assertion. *)
Lemma empty_anchor : validateNDB read_unsigned "+5:aa" = AssertFailed "Invalid index!".
Proof. vm_compute. reflexivity. Qed.

(** The full name of a declared virus is refused: the dot stays in front. *)
Lemma full_name_refused :
  fix_call "Trojan.Foo" ["A"] {| c_direct := true; c_args := 2; c_name := Some "Trojan.Foo.A" |} = (false, None) /\
  fix_call "Trojan.Foo" ["A"] {| c_direct := true; c_args := 2; c_name := Some "Trojan.FooA" |}
    = (true, Some ("Trojan.Foo.A", 12)).
Proof. vm_compute. auto. Qed.

(** return count(0) + 1 > 0; compiles to a sum, which cannot be printed. *)
Lemma sum_not_printable :
  compile0 [{| b_name := "entry"; b_instrs :=
     [ subsig "0" 0; Add "1" (OId "0") (OConst 1); ICmp "2" ICMP_UGT (OId "1") (OConst 0); Ret (OId "2") ] |}]
    = Done (Some (getAddConst (getSubSig 0) 1)) /\
  node2String (getAddConst (getSubSig 0) 1) 0 = AssertFailed "Invalid node kind".
Proof. vm_compute. auto. Qed.

(** Comparisons of the sum and of the number of different matches of the same
    subsignatures are printed alike. *)
Lemma sums_look_alike :
  node2String (getLT keep keep cr_min cr_max sum01 2) 0 = node2String (getLT keep keep cr_min cr_max uniq01 2) 0 /\
  truth (fun _ => 1) (getLT keep keep cr_min cr_max sum01 3) = true /\
  truth (fun i => if i =? 0 then 5 else 0) (getLT keep keep cr_min cr_max sum01 2) = false /\
  truth (fun i => if i =? 0 then 5 else 0) (getLT keep keep cr_min cr_max uniq01 2) = true.
Proof. vm_compute. auto. Qed.
